(* ===== verification/_CoqProject ===== *)
-Q . S2P
Prelude.v
Memory.v
Config.v
Packets.v
Crypto.v
Merkle.v
Utility.v
Validate.v
ValidateCorrect.v
ValidateProps.v
Eligibility.v
EligibilityCorrect.v
OrderState.v
PreOrderState.v
Order.v
OrderCorrect.v
OrderHandlers.v
OrderSystem.v
OrderLog.v
OrderProps.v
PreOrder.v
OrderFrame.v
PreOrderCorrect.v
Recon.v
ReconCorrect.v
Execute.v
ExecuteCorrect.v
ExecuteProps.v
ReconSends.v
ReconParts.v
ReconProps.v
PreOrderProps.v
Updates.v
UpdatesProps.v
ReliableBroadcast.v
ReliableBroadcastCorrect.v
ReliableBroadcastProps.v
CatchupState.v
ViewState.v
ViewChange.v
Catchup.v
SuspectLeader.v
SuspectCorrect.v
SuspectSystem.v
SuspectInvariant.v
SuspectVotes.v
SuspectProps.v
CatchupRound.v
CatchupSteps.v
CatchupAnswer.v
CatchupJump.v
RlModbus.v
RlModbusCorrect.v
RlModbusProps.v
ScadaPackets.v
ModbusMaster.v
ModbusMasterProps.v
ScadaGrid.v
ScadaInit.v
ScadaMaster.v
ScadaCorrect.v
ScadaMasterCorrect.v
ScadaProps.v
KeyValue.v
ItrcState.v
Itrc.v
ItrcClient.v
ItrcCorrect.v
ItrcFeed.v
ItrcSystem.v
ItrcProps.v
