(* ===== verification/Prelude.v ===== *)
(** * Spire: the Prime replication engine, the SCADA masters it runs and their channels

    Spire runs SCADA masters as replicas.  Prime ([src/prime/src]) orders their
    updates although NUM_F of the NUM_SERVERS = 3f+2k+1 replicas may be
    Byzantine; a channel ([src/common/itrc.c]) hands the ordered updates to each
    master ([src/scada_master]) and joins the replicas' threshold signatures of
    its answers; proxies ([src/modbus], [src/dnp3], [src/proxy]) connect field
    devices.  This development models the parts of Prime that decide what is
    executed, the channel, the master, and the Modbus proxy down to the bytes on
    the wire.

    ** The program and its parts

    A message arrives in [network.c], is checked by [VAL_Validate_Message]
    ([validate.c]) against signatures ([openssl_rsa.c], [tc_wrapper.c],
    [merkle.c]) and handed on by [PROCESS_Message] ([process.c]).  A replica bundles
    updates of clients in PO-Requests; the others acknowledge them with PO-Acks;
    PO-ARUs say how far a replica has certified requests, and the matrix of
    PO-ARUs is what the leader puts in a Pre-Prepare ([pre_order.c]).  Prepares
    and Commits order it ([order.c]); [PRE_ORDER_Proof_ARU] turns an ordered
    matrix into the requests to execute, and [ORDER_Execute_Commit] hands their
    events to the application.  View changes and resets spread reports by
    reliable broadcast ([reliable_broadcast.c]).  A replica that has fallen behind
    asks the others for the certificates of what it lacks ([catchup.c]).

    The application is [ITRC_Master]: it takes the events in the order of their
    ordinals, gives the master those that are new, shares a threshold signature
    of each answer with the other replicas, and sends a client what REQ_SHARES of
    them signed.  A replica that missed events collects the state of the others.
    The master keeps the power grid of its configuration, takes reports of the
    proxies and commands of the operators, and works out who has power.  A proxy
    or HMI receives the answers through [ITRC_Client].

    ** The files

    - [Prelude]: this header; machine integers, checked array access, the monad
      [comp] of computations over a state with its faults, its triples [wp], and
      the lemmas all parts share.
    - [Memory]: byte buffers, loads, the layout the x86-64 ABI gives C structures.
    - [Config]: [def.h], the fault bounds, quorum sizes and their intersections.
    - [Packets]: [packets.h], every message structure with sizes and offsets.
    - [Crypto]: [openssl_rsa.c], [tc_wrapper.c]; SHA-1, RSA and threshold RSA are
      the class [Crypto], what is relied on the class [CryptoOk].
    - [Merkle]: [merkle.c], batches signed together.
    - [Utility]: [utility.c], comparisons, leaders, bitmaps, destinations.
    - [Validate], [ValidateCorrect], [ValidateProps]: [validate.c], byte by byte
      over the received buffer; what acceptance guarantees; sample messages.
    - [Eligibility], [EligibilityCorrect]: [PRE_ORDER_Proof_ARU] and the vector
      made_eligible of a matrix.
    - [OrderState], [Order]: ord_slot and DATA.ORD, and the handlers of
      Pre-Prepares, Prepares and Commits, the leader's timer, retransmission.
    - [OrderCorrect], [OrderHandlers]: the invariant of one replica and that
      every handler keeps it; [OrderSystem]: the replicas of a view together;
      [OrderLog]: the log they implement; [OrderProps]: the properties.
    - [PreOrderState], [PreOrder]: po_slot and DATA.PO, PO-Requests, PO-Acks,
      PO-ARUs, proof matrices; [OrderFrame], [PreOrderCorrect]: what these leave
      alone of the ordering; [PreOrderProps]: certification.
    - [Recon]: [recon.c], the parts of PO-Requests servers send each other when
      an ordered slot waits for them; [ReconCorrect]: that it leaves ordering
      alone; [ReconSends], [ReconParts], [ReconProps]: what is sent, what a part
      that arrives does, that enough of them are sent.
    - [Execute]: [ORDER_Execute_Commit], pending slots, garbage collection;
      [ExecuteCorrect], [ExecuteProps]: that it ends and what it executes.
    - [Updates], [UpdatesProps]: updates of clients, the PO-Requests made of
      them, the timers; that all of pre-ordering is steps of the ordering system.
    - [ReliableBroadcast], [ReliableBroadcastCorrect], [ReliableBroadcastProps]:
      [reliable_broadcast.c], the replicas together, agreement.
    - [ViewState], [ViewChange]: DATA.VIEW and [view_change.c]; [SuspectLeader]:
      [suspect_leader.c], the measurements of turnaround times and the votes on
      the leader; [SuspectCorrect]: what its handlers do to a replica's state;
      [SuspectSystem], [SuspectInvariant]: the replicas together;
      [SuspectVotes], [SuspectProps]: the count of votes and the properties.
    - [CatchupState], [Catchup]: DATA.CATCH and [catchup.c], asking and answering,
      the certificates, the jump; [CatchupRound]: whom a replica asks;
      [CatchupAnswer]: what it is sent; [CatchupSteps]: that taking in a slot's
      certificate is steps of the ordering system; [CatchupJump]: what a jump makes
      of pre-ordering.
    - [RlModbus], [RlModbusCorrect], [RlModbusProps]: the client class of
      [src/pvb/rllib/lib/rlmodbus.cpp] on a socket.
    - [ScadaPackets]: [common/scada_packets.h], the messages of the SCADA parts
      and [ITRC_Validate_Message].
    - [ModbusMaster], [ModbusMasterProps]: [src/modbus/modbus_master.cpp].
    - [ScadaGrid], [ScadaInit], [ScadaMaster]: [scada_master.c], [queue.c] and
      [structs.h]: the grid and [process], [init] on the lines of its file, the
      handlers and the loop of main; [ScadaCorrect], [ScadaMasterCorrect],
      [ScadaProps]: its invariant, the search for power, the transfer of state.
    - [KeyValue]: [common/key_value.c] and that it is a finite map.
    - [ItrcState], [Itrc]: the state of [ITRC_Master] and its handlers;
      [ItrcClient]: [ITRC_Client] and [ITRC_Prime_Inject]; [ItrcCorrect]: the
      sorted queues and the invariant; [ItrcFeed]: the specification [feed_step]
      of what a replica asks its master; [ItrcSystem]: channel and master
      together; [ItrcProps]: the properties and runs.

    ** How code becomes definitions

    A C function is a Definition of the same name in [comp S]: it reads and
    writes the state [S], the fields of DATA it uses, and returns a value or a
    fault.  An int32u is a Z whose wrap-around is written out; an array is a list
    read with [aget] and written with [aset], which fault where C would leave it;
    a hash table is a [gmap], a pointer into one is its key.  What is sent,
    queued or answered is appended to a list of the state.  A loop over servers
    is recursion over their list; another loop takes fuel.  What a select or a
    timer brings is an event; whether a call to Spines succeeds is a function
    [spines_ok] of the number of the call.

    The faults are: [OutOfBounds] (memory), [AssertFailure], [Exit] (Alarm EXIT),
    [Endless] (a C loop that does not end, as [for (j = a; j <= b; j++)] at the
    largest 32-bit number) and [OutOfFuel], an artefact of the model.  Where a
    function takes fuel a theorem says that what the code gives is enough:
    [validate_terminates] (the length of the buffer), [order_handlers_safe] (the
    slots in the history; a Pre-Prepare with more PO-ARUs than there are servers,
    which validation lets through, may leave an array instead), [execution_terminates] (two more than the slots),
    [cum_aru_terminates], where running out is a loop of C without an end,
    [process_finds_who_has_power] (one more than the substations) and
    [itrc_state_is_typed] (one more than the queue).

    Components meet at classes: [Crypto]; [OrderCalls] and [Executor], what
    ordering calls of pre-ordering, reconciliation, suspicion and execution, with
    the laws [OrderCallsOk] and [ExecutorOk] that the ordering theorems use;
    [PreOrder], [Recon] and [Execute] are instances, for which those laws are
    theorems ([order_calls_ok], [executor_ok]).  [External] is what execution calls
    of catchup, view changes and recovery, with the law [ExternalOk]; [ViewCalls]
    is what view changes call of catchup and recovery, [RecoveryCalls] what catchup
    calls of recovery.  [Threshold] is
    the making of threshold signatures (OpenTC), with the law [ThresholdOk] that
    correct shares combine.  Every property with such a law has a witness with a
    concrete instance.

    ** The properties

    - Ordering: in a view two correct replicas never order different
      Pre-Prepares ([order_agreement]); what is ordered is prepared at f+k+1
      correct replicas and continues its predecessor; together the replicas
      implement one log ([order_refines_log], a simulation).  All of them are of
      a system in which faulty replicas send anything.
    - Execution: correct replicas execute the same requests in the same order,
      none of them twice, each slot whole and in turn, and execution ends.
    - Pre-ordering: cum_aru covers exactly the certified requests; few enough
      requests are on their way; all handlers and timers are steps the ordering
      system allows for, so its theorems hold with them; a request too large for a
      certificate stops the servers that certify it ([large_request_stops_server]).
    - Reconciliation: exactly which parts a server sends for an ordered slot; a
      correct server that lacks a request is sent parts of it by 2f+k+1 servers
      less those that lack it too; messages of faulty servers leave the ordering
      alone, but a malformed one makes the receiver write outside its buffer.
    - Suspecting the leader: a view is left only when 2f+k+1 replicas voted so,
      while proofs and certificates have different senders; the turnaround time a
      leader is granted lies between times reported by members of any 2f+k+1
      servers; a replica votes only on a report above such a bound or on two
      Pre-Prepares that differ; one that does not suspect the leader yet votes on
      a report that shows it too slow.
    - Catchup: a round of attempts asks every other server once and then for a
      jump; a server within the history is answered with exactly the certificates
      it lacks; a jump counts the requests behind it as executed and forgets exactly
      those; taking in a slot's certificate is steps of the ordering system, so
      that what is shown of its runs holds when replicas catch up.  The last is of
      certificates that leave the replica in its view, and not of a slot that holds
      another Pre-Prepare the replica voted for, whose vote would be dropped;
      [forged_certificate_moves_view] shows that one server can forge a certificate
      that does switch the view.
    - Eligibility: the marching search of [PRE_ORDER_Proof_ARU] is the quorum
      maximum.
    - Validation: what every kind of certificate guarantees when it is accepted,
      that the validators end, and where their checks have gaps.
    - Merkle trees: what is built, extracted and checked agrees, and anything else
      that checks at a place shows a collision of two named inputs.  Reliable
      broadcast: agreement and no faults, where a correct replica that enters a
      view a second time (CATCH_Process_ORD_Certificate for the view it is in,
      which empties the instances) counts with the faulty ones of that view;
      [reentry_breaks_agreement] shows why.  Modbus: round trip, checksum, bounds,
      numbering.
    - Channel: clients are sent answers in order, each backed by REQ_SHARES
      replicas and by a share of the replica itself; a state that is applied was
      sent by REQ_SHARES replicas; enough shares are delivered when all that are
      held are correct ([incorrect_share_gives_answer_up] is about one that is
      not).  In runs without a reset or a transfer to the replica itself ([calm])
      a replica implements the feed, and replicas with the same updates whose
      masters answer every message share the same answers under the same
      ordinals.  On events of the sizes its buffers have ([sized], which the code
      does not check) nothing but the code's assertions stops it, and [ItrcProps]
      shows runs that reach those.
    - Master: power is where a live path of the grid leads; state that is
      transferred makes the receiver answer as the sender; commands and reports
      have their effect; messages that are admissible never stop it.

    "Unless SHA-1 collides" is written out: agreement on a digest is agreement on
    the contents, or the hypothesis [collision_free] is false of two Pre-Prepares
    that were received.

    ** What is not modelled

    The ordering theorems are of one view.  The handlers of view changes are
    modelled, and of them the votes and the leaving of views are proved, not that
    the replay of the next leader keeps what was ordered.  Catchup takes a replica
    to a view with the Commits of a certificate of that view, as
    CATCH_Process_ORD_Certificate does ([CatchupSteps] ties the two); that the
    senders of those Commits and of the votes in a New-Leader-Proof are different
    servers is assumed there, as the code does not check it.  A jump enters the
    view of its certificate in the same way, without a lemma that ties it; system
    resets, which also set the view, are outside that system.  Of catchup the handlers are modelled
    in full; of [CATCH_Jump_Ahead] the theorem is about the requests, not the slots it
    drops, and a replica that jumps to an incarnation of its own that it has not
    installed is excluded.  Execution calls catchup through
    [External], so that its theorems do not depend on it.  Recovery
    ([proactive_recovery.c]) is calls with laws; its own handlers would be the next
    part to model.  The encoding functions of [recon.c] are not reached, as
    USE_ERASURE_CODES is 0.  That two replicas certify the same request under a
    number is not proved.  Signing and sending of queued messages ([signature.c],
    [network.c]) are I/O; clocks, logging and reference counts are left out;
    OpenTC, libspread-util, stdutil, Spines, pvbrowser and the PLC programs are
    other projects' code; the HMIs, the DNP3 proxy (an adapter of a library), the
    benchmarks and the intrusion detection scripts are glue.
    *)
From Stdlib Require Import ZArith Lia List Bool String.
From stdpp Require Import base list gmap.

#[global] Open Scope Z_scope.

(** ** Machine integers

    An [int32u] is a [Z] in [0, 2^32); C's conversions and wrap-around are
    written out with these functions. *)
Definition two16 : Z := 65536.
Definition two32 : Z := 4294967296.
Definition two64 : Z := 18446744073709551616.
Definition wrap8 (z : Z) : Z := z mod 256.
Definition wrap16 (z : Z) : Z := z mod two16.
Definition wrap32 (z : Z) : Z := z mod two32.
Definition wrap64 (z : Z) : Z := z mod two64.

(** Conversion of a wrapped value to the signed type of the same width. *)
Definition sint32 (z : Z) : Z :=
  let u := wrap32 z in if u <? 2147483648 then u else u - two32.
Definition sint8 (z : Z) : Z :=
  let u := wrap8 z in if u <? 128 then u else u - 256.

Definition is_u32 (z : Z) : Prop := 0 <= z < two32.
Definition is_byte (z : Z) : Prop := 0 <= z < 256.

Ltac unwrap :=
  unfold is_u32, is_byte, wrap8, wrap16, wrap32, wrap64, two16, two32, two64 in *.

Lemma wrap32_small z : 0 <= z < two32 -> wrap32 z = z.
Proof. unwrap. apply Z.mod_small. Qed.

Lemma wrap64_small z : 0 <= z < two64 -> wrap64 z = z.
Proof. unwrap. apply Z.mod_small. Qed.

Lemma wrap8_small z : 0 <= z < 256 -> wrap8 z = z.
Proof. unwrap. apply Z.mod_small. Qed.

Lemma wrap32_bounds z : 0 <= wrap32 z < two32.
Proof. unwrap. apply Z.mod_pos_bound. lia. Qed.

Lemma wrap64_bounds z : 0 <= wrap64 z < two64.
Proof. unwrap. apply Z.mod_pos_bound. lia. Qed.

Lemma wrap8_bounds z : 0 <= wrap8 z < 256.
Proof. unwrap. apply Z.mod_pos_bound. lia. Qed.

Create HintDb prime.
Create Rewrite HintDb prime.
#[export] Hint Resolve wrap32_bounds wrap64_bounds wrap8_bounds : prime.
#[export] Hint Rewrite wrap32_small wrap64_small wrap8_small using lia : prime.

(** ** Faults

    What stops the program, or leaves the language: an access outside the
    object it is made on, [Alarm(EXIT, ...)], a failed [assert], a loop whose
    condition never becomes false, and the model's own fuel running out (which
    the development proves never to happen). *)
Inductive fault := OutOfBounds | Exit | AssertFailure | Endless | OutOfFuel.

#[global] Instance fault_eq_dec : EqDecision fault.
Proof. solve_decision. Defined.

Inductive outcome (A : Type) :=
| Ret (a : A)
| Fault (f : fault).
Arguments Ret {A} a.
Arguments Fault {A} f.

(** ** Computations over a state [S] that may fault *)
Definition comp (S A : Type) : Type := S -> outcome (A * S).

Definition ret {S A} (a : A) : comp S A := fun s => Ret (a, s).
Definition raise {S A} (f : fault) : comp S A := fun _ => Fault f.
Definition bind {S A B} (m : comp S A) (k : A -> comp S B) : comp S B :=
  fun s => match m s with Ret (a, s') => k a s' | Fault f => Fault f end.
Definition get {S} : comp S S := fun s => Ret (s, s).
Definition put {S} (s : S) : comp S unit := fun _ => Ret (tt, s).

Declare Scope comp_scope.
Delimit Scope comp_scope with comp.
Notation "x <- m ;; k" := (bind m (fun x => k))
  (at level 60, m at next level, right associativity) : comp_scope.
Notation "m ;;; k" := (bind m (fun _ => k))
  (at level 60, right associativity) : comp_scope.
(** [if (!c) return 0;] *)
Notation "'guard' c ;; k" := (if c then k else ret false)
  (at level 60, c at level 85, right associativity) : comp_scope.

(** [if (c) return 0;], in a function and in the body of a loop of one. *)
Notation "'reject' c ;; k" := (if c then ret false else k)
  (at level 60, c at level 85, right associativity) : comp_scope.
Notation "'reject_loop' c ;; k" := (if c then ret (inr false) else k)
  (at level 60, c at level 85, right associativity) : comp_scope.

#[global] Open Scope comp_scope.

(** The body of a loop either goes on with new locals or returns. *)
Definition step_result (X R : Type) : Type := (X + R)%type.

Definition then_iter {S X R} (k : X -> comp S (step_result X R))
    (r : step_result X R) : comp S (step_result X R) :=
  match r with inl x => k x | inr v => ret (inr v) end.

(** [for] loops with a trip count known on entry: the body [p] times. *)
Fixpoint pos_iter {S X R} (p : positive) (body : X -> comp S (step_result X R))
    (x : X) : comp S (step_result X R) :=
  match p with
  | xH => body x
  | xO q => r <- pos_iter q body x ;; then_iter (pos_iter q body) r
  | xI q => r <- body x ;;
            r <- then_iter (pos_iter q body) r ;;
            then_iter (pos_iter q body) r
  end.

Definition for_ {S X R} (n : Z) (body : X -> comp S (step_result X R)) (x : X)
    : comp S (step_result X R) :=
  match n with Zpos p => pos_iter p body x | _ => ret (inl x) end.

(** [while] loops, by fuel. *)
Fixpoint while_ {S X R} (fuel : nat) (cond : X -> bool)
    (body : X -> comp S (step_result X R)) (x : X) : comp S (step_result X R) :=
  match fuel with
  | O => raise OutOfFuel
  | Datatypes.S fuel' =>
      if cond x then
        r <- body x ;; then_iter (while_ fuel' cond body) r
      else ret (inl x)
  end.

(** What follows a loop: the rest of the function, unless the loop returned. *)
Definition loop_then {S X R} (m : comp S (step_result X R)) (k : X -> comp S R)
    : comp S R :=
  r <- m ;; match r with inl x => k x | inr v => ret v end.
Notation "'run' m 'as' x ;; k" := (loop_then m (fun x => k))
  (at level 60, x pattern, m at next level, right associativity) : comp_scope.

(** ** Specifications of computations

    [spec F P m Q]: from a state satisfying [P], [m] either returns with [Q]
    or stops with a fault that [F] allows. *)
Definition spec {S A} (F : fault -> Prop) (P : S -> Prop) (m : comp S A)
    (Q : A -> S -> Prop) : Prop :=
  forall s, P s -> match m s with Ret (a, s') => Q a s' | Fault f => F f end.

Definition any_fault (f : fault) : Prop := True.
Definition no_fault (f : fault) : Prop := False.
Definition fuel_is_enough (f : fault) : Prop := f <> OutOfFuel /\ f <> Endless.

Section SpecRules.
Context {S : Type}.
Implicit Types (F : fault -> Prop) (P : S -> Prop).

Lemma spec_ret {A} F P (a : A) (Q : A -> S -> Prop) :
  (forall s, P s -> Q a s) -> spec F P (ret a) Q.
Proof. intros H s Hs. cbn. auto. Qed.

Lemma spec_raise {A} F P f (Q : A -> S -> Prop) :
  F f -> spec F P (raise f) Q.
Proof. intros H s Hs. exact H. Qed.

Lemma spec_bind {A B} F P (m : comp S A) (k : A -> comp S B) R Q :
  spec F P m R -> (forall a, spec F (R a) (k a) Q) -> spec F P (bind m k) Q.
Proof.
  intros Hm Hk s Hs. unfold bind. specialize (Hm s Hs).
  destruct (m s) as [[a s']|f]; [apply (Hk a s' Hm)|exact Hm].
Qed.

Lemma spec_conseq {A} F P P' (m : comp S A) (Q Q' : A -> S -> Prop) :
  spec F P' m Q' -> (forall s, P s -> P' s) -> (forall a s, Q' a s -> Q a s) ->
  spec F P m Q.
Proof.
  intros Hm HP HQ s Hs. specialize (Hm s (HP s Hs)).
  destruct (m s) as [[a s']|f]; auto.
Qed.

Lemma spec_if {A} F P (b : bool) (m1 m2 : comp S A) Q :
  (b = true -> spec F P m1 Q) -> (b = false -> spec F P m2 Q) ->
  spec F P (if b then m1 else m2) Q.
Proof. destruct b; auto. Qed.

Lemma spec_pure {A} F P (pr : Prop) (m : comp S A) Q :
  (pr -> spec F P m Q) -> spec F (fun s => pr /\ P s) m Q.
Proof. intros H s [Hp Hs]. apply (H Hp s Hs). Qed.

Lemma spec_get_at {A} F s0 (k : S -> comp S A) Q :
  spec F (fun s => s = s0) (k s0) Q -> spec F (fun s => s = s0) (bind get k) Q.
Proof. intros H s ->. apply (H s0 eq_refl). Qed.

Lemma spec_put_at {A} F P s1 (k : unit -> comp S A) Q :
  spec F (fun s => s = s1) (k tt) Q -> spec F P (bind (put s1) k) Q.
Proof. intros H s _. apply (H s1 eq_refl). Qed.

(** A computation that cannot fault returns. *)
Lemma spec_no_fault {A} (P : S -> Prop) (m : comp S A) Q s :
  spec no_fault P m Q -> P s -> exists a s', m s = Ret (a, s') /\ Q a s'.
Proof.
  intros H Hs. specialize (H s Hs). destruct (m s) as [[a s']|f]; [eauto|destruct H].
Qed.

(** Loops keep an invariant of their locals and a predicate on the state. *)
Definition loop_post {X R} (P : S -> Prop) (I : X -> Prop) (Rp : R -> Prop)
    (r : step_result X R) (s : S) : Prop :=
  P s /\ match r with inl x => I x | inr v => Rp v end.

Lemma spec_then_iter {X R} F P (I I' : X -> Prop) (Rp : R -> Prop) k
    (r : step_result X R) :
  (forall x, I x -> spec F P (k x) (loop_post P I' Rp)) ->
  spec F (loop_post P I Rp r) (then_iter k r) (loop_post P I' Rp).
Proof.
  intros Hk s [HP Hr]. destruct r as [x|v]; cbn.
  - apply (Hk x Hr s HP).
  - split; assumption.
Qed.

Lemma spec_pos_iter {X R} F P (I : X -> Prop) (Rp : R -> Prop) body :
  (forall x, I x -> spec F P (body x) (loop_post P I Rp)) ->
  forall p x, I x -> spec F P (pos_iter p body x) (loop_post P I Rp).
Proof.
  intros Hb. induction p as [q IH|q IH|]; intros x Hx; cbn.
  - eapply spec_bind; [apply (Hb x Hx)|intros r].
    eapply spec_bind; [apply spec_then_iter; exact IH|intros r'].
    apply spec_then_iter; exact IH.
  - eapply spec_bind; [apply (IH x Hx)|intros r]. apply spec_then_iter; exact IH.
  - apply (Hb x Hx).
Qed.

Lemma spec_for {X R} F P (I : X -> Prop) (Rp : R -> Prop) body n x :
  (forall x, I x -> spec F P (body x) (loop_post P I Rp)) ->
  I x -> spec F P (for_ n body x) (loop_post P I Rp).
Proof.
  intros Hb Hx. destruct n as [|p|p]; cbn.
  1, 3: apply spec_ret; intros s Hs; split; assumption.
  apply spec_pos_iter; assumption.
Qed.

Lemma spec_loop_then {X R} F P P' (I : X -> Prop) (Rp : R -> Prop) m k Q :
  spec F P m (loop_post P' I Rp) ->
  (forall x, I x -> spec F P' (k x) Q) ->
  (forall v s, Rp v -> P' s -> Q v s) ->
  spec F P (loop_then m k) Q.
Proof.
  intros Hm Hk Hv. eapply spec_bind; [exact Hm|]. intros [x|v] s [Hs Hr].
  - apply (Hk x Hr s Hs).
  - cbn. auto.
Qed.

(** The same rule with the number of turns made. *)
Lemma spec_pos_iter_idx {X R} F P (I : Z -> X -> Prop) (Rp : R -> Prop) hi body :
  (forall i x, i < hi -> I i x ->
     spec F P (body x) (loop_post P (I (i + 1)) Rp)) ->
  forall p i x, i + Zpos p <= hi -> I i x ->
    spec F P (pos_iter p body x) (loop_post P (I (i + Zpos p)) Rp).
Proof.
  intros Hb. induction p as [q IH|q IH|]; intros i x Hi Hx; cbn.
  - eapply spec_bind; [apply (Hb i x); [lia|exact Hx]|intros r].
    eapply spec_bind;
      [apply spec_then_iter; intros y; apply (IH (i + 1)); lia|intros r'].
    replace (i + Zpos q~1) with (i + 1 + Zpos q + Zpos q) by lia.
    apply spec_then_iter. intros y. apply IH. lia.
  - eapply spec_bind; [apply (IH i x); [lia|exact Hx]|intros r].
    replace (i + Zpos q~0) with (i + Zpos q + Zpos q) by lia.
    apply spec_then_iter. intros y. apply IH. lia.
  - apply (Hb i x); [lia|exact Hx].
Qed.

Lemma spec_for_idx {X R} F P (I : Z -> X -> Prop) (Rp : R -> Prop) body n x :
  0 <= n ->
  (forall i x, i < n -> I i x ->
     spec F P (body x) (loop_post P (I (i + 1)) Rp)) ->
  I 0 x -> spec F P (for_ n body x) (loop_post P (I n) Rp).
Proof.
  intros Hn Hb Hx. destruct n as [|p|p];
    [|apply (spec_pos_iter_idx F P I Rp (Zpos p) body Hb p 0 x); [lia|exact Hx]|lia].
  apply spec_ret; intros s Hs; split; assumption.
Qed.

(** [while]: each turn keeps the invariant and lowers the measure, so fuel
    above the measure on entry is enough. *)
Lemma spec_while {X R} F P (I : X -> Prop) (Rp : R -> Prop) (mu : X -> Z)
    cond body :
  (forall x, I x -> cond x = true ->
     spec F P (body x) (loop_post P (fun y => I y /\ 0 <= mu y < mu x) Rp)) ->
  forall fuel x, I x -> 0 <= mu x < Z.of_nat fuel ->
  spec F P (while_ fuel cond body x)
       (loop_post P (fun y => I y /\ cond y = false) Rp).
Proof.
  intros Hb. induction fuel as [|fuel IH]; intros x Hx Hmu; [lia|].
  cbn [while_]. destruct (cond x) eqn:Hc.
  - eapply spec_bind; [apply (Hb x Hx Hc)|]. intros r s [HP Hr].
    destruct r as [y|v]; cbn.
    + destruct Hr as [HIy Hmy]. apply (IH y HIy); [lia|exact HP].
    + split; assumption.
  - apply spec_ret. intros s Hs. split; [exact Hs|split; assumption].
Qed.
End SpecRules.

Definition or_oob {S A} (o : option A) : comp S A :=
  match o with Some a => ret a | None => raise OutOfBounds end.

(** ** Weakest preconditions

    [wp F m Q s]: run from [s], [m] returns with [Q] or stops with a fault that
    [F] allows.  [spec] is [wp] from every state of a set; [wp] is the form the
    long functions are verified with, one rule per construct. *)
Definition wp {S A} (F : fault -> Prop) (m : comp S A) (Q : A -> S -> Prop) (s : S)
    : Prop :=
  match m s with Ret (a, s') => Q a s' | Fault f => F f end.

(** More faults allowed. *)
Lemma wp_fault {S A} (F F' : fault -> Prop) (m : comp S A) Q (s : S) :
  (forall f, F f -> F' f) -> wp F m Q s -> wp F' m Q s.
Proof. unfold wp. intros HF. destruct (m s) as [[a t]|f]; auto. Qed.

Section WpRules.
Context {S : Type} (F : fault -> Prop).

Lemma wp_ret {A} (a : A) (Q : A -> S -> Prop) s : Q a s -> wp F (ret a) Q s.
Proof. exact (fun H => H). Qed.

Lemma wp_raise {A} f (Q : A -> S -> Prop) s : F f -> wp F (raise f) Q s.
Proof. exact (fun H => H). Qed.

Lemma wp_bind {A B} (m : comp S A) (k : A -> comp S B) Q s :
  wp F m (fun a t => wp F (k a) Q t) s -> wp F (bind m k) Q s.
Proof. unfold wp, bind. destruct (m s) as [[a t]|f]; exact (fun H => H). Qed.

Lemma wp_get Q (s : S) : Q s s -> wp F get Q s.
Proof. exact (fun H => H). Qed.

Lemma wp_put (s1 : S) Q s : Q tt s1 -> wp F (put s1) Q s.
Proof. exact (fun H => H). Qed.

Lemma wp_or_oob {A} (o : option A) Q (s : S) :
  F OutOfBounds -> (forall a, o = Some a -> Q a s) -> wp F (or_oob o) Q s.
Proof. destruct o; cbn; auto. Qed.

Lemma wp_conseq {A} (m : comp S A) (Q Q' : A -> S -> Prop) s :
  wp F m Q' s -> (forall a t, Q' a t -> Q a t) -> wp F m Q s.
Proof. unfold wp. destruct (m s) as [[a t]|f]; auto. Qed.

Lemma wp_loop_then {X R} (m : comp S (step_result X R)) k Q s :
  wp F m (fun r t => match r with inl x => wp F (k x) Q t | inr v => Q v t end) s ->
  wp F (loop_then m k) Q s.
Proof.
  intros H. apply wp_bind. eapply wp_conseq; [exact H|].
  intros [x|v] t Ht; exact Ht.
Qed.

(** The invariant of a loop also speaks of the state; a turn that returns has
    to establish what the loop's context wants of a return. *)
Definition turn {X R} (I : X -> S -> Prop) (Q : step_result X R -> S -> Prop)
    (r : step_result X R) (t : S) : Prop :=
  match r with inl y => I y t | inr v => Q (inr v) t end.

Lemma wp_pos_iter {X R} (I : Z -> X -> S -> Prop) hi body
    (Q : step_result X R -> S -> Prop) :
  (forall i x t, 0 <= i < hi -> I i x t -> wp F (body x) (turn (I (i + 1)) Q) t) ->
  forall p i x s, 0 <= i -> i + Zpos p <= hi -> I i x s ->
    wp F (pos_iter p body x) (turn (I (i + Zpos p)) Q) s.
Proof.
  intros Hb. induction p as [q IH|q IH|]; intros i x s Hi0 Hi Hx; cbn [pos_iter].
  - apply wp_bind. eapply wp_conseq; [apply (Hb i x s); [lia|exact Hx]|].
    intros [y|v] t Ht; cbn [turn then_iter] in *; [|exact Ht].
    apply wp_bind. eapply wp_conseq; [apply (IH (i + 1) y t); [lia..|exact Ht]|].
    intros [z|v] t' Ht'; cbn [turn then_iter] in *; [|exact Ht'].
    replace (i + Zpos q~1) with (i + 1 + Zpos q + Zpos q) by lia.
    apply IH; [lia..|exact Ht'].
  - apply wp_bind. eapply wp_conseq; [apply (IH i x s); [lia..|exact Hx]|].
    intros [z|v] t' Ht'; cbn [turn then_iter] in *; [|exact Ht'].
    replace (i + Zpos q~0) with (i + Zpos q + Zpos q) by lia.
    apply IH; [lia..|exact Ht'].
  - apply (Hb i x s); [lia|exact Hx].
Qed.

Lemma wp_for {X R} (I : Z -> X -> S -> Prop) n body (Q : step_result X R -> S -> Prop)
    x s :
  (forall i x t, 0 <= i < n -> I i x t -> wp F (body x) (turn (I (i + 1)) Q) t) ->
  I 0 x s -> (forall y t, I (Z.max 0 n) y t -> Q (inl y) t) ->
  wp F (for_ n body x) Q s.
Proof.
  intros Hb Hx HQ. destruct n as [|p|p]; cbn [for_].
  1, 3: apply wp_ret; apply HQ; exact Hx.
  eapply wp_conseq; [apply (wp_pos_iter I (Zpos p) body Q Hb p 0 x s); [lia..|exact Hx]|].
  intros [y|v] t Ht; [apply HQ; exact Ht|exact Ht].
Qed.

Lemma wp_while_st {X R} (I : X -> S -> Prop) (mu : X -> S -> Z) cond body
    (Q : step_result X R -> S -> Prop) :
  (forall x t, I x t -> cond x = true ->
     wp F (body x) (turn (fun y t' => I y t' /\ 0 <= mu y t' < mu x t) Q) t) ->
  (forall y t, I y t -> cond y = false -> Q (inl y) t) ->
  forall fuel x s, I x s -> 0 <= mu x s < Z.of_nat fuel ->
    wp F (while_ fuel cond body x) Q s.
Proof.
  intros Hb HQ. induction fuel as [|fuel IH]; intros x s Hx Hmu; [lia|].
  cbn [while_]. destruct (cond x) eqn:Hc; [|apply wp_ret, HQ; assumption].
  apply wp_bind. eapply wp_conseq; [apply (Hb x s Hx Hc)|].
  intros [y|v] t Ht; cbn [turn then_iter] in *; [|exact Ht].
  destruct Ht as [Hy Hm]. apply IH; [exact Hy|lia].
Qed.

(** The measure is often one of the loop's variables alone. *)
Lemma wp_while {X R} (I : X -> S -> Prop) (mu : X -> Z) cond body
    (Q : step_result X R -> S -> Prop) :
  (forall x t, I x t -> cond x = true ->
     wp F (body x) (turn (fun y t => I y t /\ 0 <= mu y < mu x) Q) t) ->
  (forall y t, I y t -> cond y = false -> Q (inl y) t) ->
  forall fuel x s, I x s -> 0 <= mu x < Z.of_nat fuel ->
    wp F (while_ fuel cond body x) Q s.
Proof. intros Hb HQ fuel x s. apply (wp_while_st I (fun x _ => mu x)); assumption. Qed.

(** What a [wp] says of a run that returned. *)
Lemma wp_Ret {A} (m : comp S A) Q s a t : wp F m Q s -> m s = Ret (a, t) -> Q a t.
Proof. unfold wp. intros H E. rewrite E in H. exact H. Qed.
End WpRules.

(** Two post-conditions; what faults is said once. *)
Lemma wp_and {S A} (F : fault -> Prop) (m : comp S A) Q1 Q2 (s : S) :
  wp F m Q1 s -> wp any_fault m Q2 s -> wp F m (fun a t => Q1 a t /\ Q2 a t) s.
Proof. unfold wp. destruct (m s) as [[a t]|f]; auto. Qed.

(** A run whose [wp] admits no fault returns. *)
Lemma wp_run {S A} (c : comp S A) Q st :
  wp no_fault c Q st -> exists a st', c st = Ret (a, st') /\ Q a st'.
Proof. unfold wp. destruct (c st) as [[a st']|e]; [eauto|intros []]. Qed.

(** One step of a run. *)
Lemma run_bind {S A B} (c : comp S A) (k : A -> comp S B) st a st' :
  c st = Ret (a, st') -> bind c k st = k a st'.
Proof. unfold bind. intros ->. reflexivity. Qed.

Lemma run_bind_inv {S A B} (c : comp S A) (k : A -> comp S B) st b st' :
  bind c k st = Ret (b, st') -> exists a st1, c st = Ret (a, st1) /\ k a st1 = Ret (b, st').
Proof. unfold bind. destruct (c st) as [[a st1]|]; [eauto|discriminate]. Qed.

Lemma run_fault {S A B} (c : comp S A) (k : A -> comp S B) st f :
  c st = Fault f -> bind c k st = Fault f.
Proof. unfold bind. intros ->. reflexivity. Qed.

(** ** Computations that leave the state alone

    [m0] is [m] over the trivial state: [m] gives the same value in every state. *)
Definition stateless {S A} (m : comp S A) (m0 : comp unit A) : Prop :=
  forall s, m s = match m0 tt with Ret (a, _) => Ret (a, s) | Fault f => Fault f end.

Section Stateless.
Context {S : Type}.

Lemma stateless_ret {A} (a : A) : stateless (S := S) (ret a) (ret a).
Proof. intros s. reflexivity. Qed.

Lemma stateless_raise {A} f : stateless (S := S) (raise (A := A) f) (raise f).
Proof. intros s. reflexivity. Qed.

Lemma stateless_bind {A B} (m : comp S A) m0 (k : A -> comp S B) k0 :
  stateless m m0 -> (forall a, stateless (k a) (k0 a)) -> stateless (bind m k) (bind m0 k0).
Proof.
  intros Hm Hk s. unfold bind. rewrite (Hm s). destruct (m0 tt) as [[a []]|f]; [apply Hk|reflexivity].
Qed.

Lemma stateless_or_oob {A} (o : option A) : stateless (S := S) (or_oob o) (or_oob o).
Proof. destruct o; intros s; reflexivity. Qed.

Lemma stateless_if {A} (b : bool) (m1 m2 : comp S A) n1 n2 :
  stateless m1 n1 -> stateless m2 n2 -> stateless (if b then m1 else m2) (if b then n1 else n2).
Proof. destruct b; auto. Qed.

Lemma stateless_then_iter {X R} (k : X -> comp S (step_result X R)) k0 r :
  (forall x, stateless (k x) (k0 x)) -> stateless (then_iter k r) (then_iter k0 r).
Proof. intros Hk. destruct r; [apply Hk|apply stateless_ret]. Qed.

Lemma stateless_while {X R} fuel cond (body : X -> comp S (step_result X R)) body0 :
  (forall x, stateless (body x) (body0 x)) ->
  forall x, stateless (while_ fuel cond body x) (while_ fuel cond body0 x).
Proof.
  intros Hb. induction fuel as [|fuel IH]; intros x; cbn [while_]; [apply stateless_raise|].
  apply stateless_if; [|apply stateless_ret]. apply stateless_bind; [apply Hb|].
  intros r. apply stateless_then_iter, IH.
Qed.

Lemma stateless_loop_then {X R} (m : comp S (step_result X R)) m0 k k0 :
  stateless m m0 -> (forall x, stateless (k x) (k0 x)) -> stateless (loop_then m k) (loop_then m0 k0).
Proof. intros Hm Hk. apply stateless_bind; [exact Hm|]. intros [x|v]; [apply Hk|apply stateless_ret]. Qed.
End Stateless.

(** ** C arrays

    An access outside the array is a fault. *)
Definition in_bounds {A} (l : list A) (i : Z) : bool :=
  (0 <=? i) && (i <? Z.of_nat (length l)).

Definition aget {A} (l : list A) (i : Z) : option A :=
  if in_bounds l i then l !! Z.to_nat i else None.

Definition aset {A} (l : list A) (i : Z) (x : A) : option (list A) :=
  if in_bounds l i then Some (<[Z.to_nat i := x]> l) else None.

(** [assert(c)] *)
Definition assert_ {S} (c : bool) : comp S unit :=
  if c then ret tt else raise AssertFailure.

Lemma in_bounds_spec {A} (l : list A) i :
  in_bounds l i = true <-> 0 <= i < Z.of_nat (length l).
Proof. unfold in_bounds. rewrite andb_true_iff, Z.leb_le, Z.ltb_lt. lia. Qed.

Lemma aset_Some {A} (l : list A) i x :
  0 <= i < Z.of_nat (length l) -> aset l i x = Some (<[Z.to_nat i := x]> l).
Proof. intros H. unfold aset. rewrite (proj2 (in_bounds_spec l i) H). reflexivity. Qed.

Lemma aset_length {A} (l l' : list A) i x :
  aset l i x = Some l' -> length l' = length l.
Proof.
  unfold aset. destruct (in_bounds l i); [|discriminate].
  intros [= <-]. apply length_insert.
Qed.

Lemma aget_aset_eq {A} (l l' : list A) i x :
  aset l i x = Some l' -> aget l' i = Some x.
Proof.
  unfold aset, aget. destruct (in_bounds l i) eqn:E; [|discriminate].
  intros [= <-]. apply in_bounds_spec in E.
  rewrite (proj2 (in_bounds_spec _ i)) by (rewrite length_insert; lia).
  apply list_lookup_insert_eq. lia.
Qed.

Lemma aget_aset_ne {A} (l l' : list A) i j x :
  aset l i x = Some l' -> i <> j -> aget l' j = aget l j.
Proof.
  unfold aset, aget. destruct (in_bounds l i) eqn:E; [|discriminate].
  intros [= <-] Hij. apply in_bounds_spec in E. unfold in_bounds.
  rewrite length_insert. destruct (_ && _) eqn:Ej; [|reflexivity].
  rewrite andb_true_iff, Z.leb_le, Z.ltb_lt in Ej.
  apply list_lookup_insert_ne. lia.
Qed.

Lemma aget_Some_bounds {A} (l : list A) i x :
  aget l i = Some x -> 0 <= i < Z.of_nat (length l).
Proof.
  unfold aget. destruct (in_bounds l i) eqn:E; [|discriminate].
  intros _. apply in_bounds_spec in E. exact E.
Qed.

Lemma aget_is_Some {A} (l : list A) i :
  0 <= i < Z.of_nat (length l) -> is_Some (aget l i).
Proof.
  intros H. unfold aget. rewrite (proj2 (in_bounds_spec l i) H).
  apply lookup_lt_is_Some. lia.
Qed.

Lemma aget_None {A} (l : list A) i : Z.of_nat (length l) <= i -> aget l i = None.
Proof.
  intros H. unfold aget. destruct (in_bounds l i) eqn:E; [|reflexivity].
  apply in_bounds_spec in E. lia.
Qed.

Lemma aget_lookup {A} (l : list A) (i : nat) x :
  l !! i = Some x -> aget l (Z.of_nat i) = Some x.
Proof.
  intros H. pose proof (lookup_lt_Some _ _ _ H). unfold aget.
  rewrite (proj2 (in_bounds_spec l (Z.of_nat i))) by lia. rewrite Nat2Z.id. exact H.
Qed.

Lemma aget_map {A B} (f : A -> B) (l : list A) i : aget (map f l) i = option_map f (aget l i).
Proof.
  unfold aget, in_bounds. rewrite length_map. destruct (_ && _); [|reflexivity].
  change (map f l) with (f <$> l). rewrite list_lookup_fmap. reflexivity.
Qed.

Lemma aget_ext {A} (l l' : list A) :
  length l = length l' -> (forall i x y, aget l i = Some x -> aget l' i = Some y -> x = y) -> l = l'.
Proof.
  intros Hl H. apply (list_eq_same_length l l' (length l)); [congruence|reflexivity|].
  intros i x y _ Hx Hy. apply (H (Z.of_nat i)); apply aget_lookup; assumption.
Qed.

Lemma aget_elem {A} (l : list A) i x : aget l i = Some x -> x ∈ l.
Proof. unfold aget. destruct (in_bounds l i); [|discriminate]. apply list_elem_of_lookup_2. Qed.

Lemma aget_of_elem {A} (l : list A) x : x ∈ l -> exists i, aget l i = Some x.
Proof. intros [i Hi]%list_elem_of_lookup. exists (Z.of_nat i). apply aget_lookup, Hi. Qed.

(** What an update leaves at the other places. *)
Lemma aget_aset {A} (l l' : list A) i j x : aset l i x = Some l' ->
  aget l' j = if Z.eq_dec i j then Some x else aget l j.
Proof.
  intros H. destruct (Z.eq_dec i j) as [->|Hne]; [eapply aget_aset_eq, H|eapply aget_aset_ne; eassumption].
Qed.

Lemma aset_Forall {A} (P : A -> Prop) l i x l' : aset l i x = Some l' -> Forall P l -> P x -> Forall P l'.
Proof.
  intros Hs Hl Hx. rewrite Forall_forall in *. intros y Hy. apply aget_of_elem in Hy as [j Hj].
  rewrite (aget_aset _ _ _ _ _ Hs) in Hj. destruct (Z.eq_dec i j); [congruence|].
  apply Hl. eapply aget_elem, Hj.
Qed.

Lemma wp_or_oob_Some {S A} (F : fault -> Prop) (o : option A) a Q (s : S) :
  o = Some a -> Q a s -> wp F (or_oob o) Q s.
Proof. intros -> H. exact H. Qed.

Lemma wp_aset_in {S A} (F : fault -> Prop) (l : list A) i x Q (s : S) :
  0 <= i < Z.of_nat (length l) -> (forall l', aset l i x = Some l' -> Q l' s) ->
  wp F (or_oob (aset l i x)) Q s.
Proof. intros Hi H. eapply wp_or_oob_Some; [apply aset_Some, Hi|]. apply H, aset_Some, Hi. Qed.

Lemma spec_or_oob_Some {S A} (F : fault -> Prop) (P : S -> Prop) (a : A) o :
  o = Some a -> spec F P (or_oob o) (fun b s => b = a /\ P s).
Proof. intros -> s Hs. cbn. auto. Qed.

Lemma spec_or_oob {S A} (F : fault -> Prop) (P : S -> Prop) (o : option A) :
  F OutOfBounds -> spec F P (or_oob o) (fun a s => o = Some a /\ P s).
Proof. intros HF s Hs. destruct o; cbn; auto. Qed.
