(* ===== verification/Memory.v ===== *)
(** Byte buffers and C structure layout.

    The network code of Prime casts a received buffer to the packed-by-the-ABI
    structures of [prime/src/packets.h].  A structure is described here by the
    list of its fields as the header declares them; sizes, alignments and
    offsets follow from the x86-64 System V ABI rules.  Loads from a buffer are
    computations that fault when they leave it. *)
From Stdlib Require Import ZArith Lia List Bool String.
From Stdlib Require Import Strings.Byte.
From stdpp Require Import base list.
From S2P Require Import Prelude.

(** ** Structure layout *)
Inductive ctype :=
| TByte | TInt16 | TInt32 | TDouble
| TArray (n : nat) (t : ctype)
| TStruct (fs : list (string * ctype)).

Definition align_up (z a : Z) : Z := (z + a - 1) / a * a.

(** Size and alignment of a type; a structure's fields are placed in order,
    each at its alignment, and the whole is padded to the largest. *)
Fixpoint layout (t : ctype) : Z * Z :=
  match t with
  | TByte => (1, 1)
  | TInt16 => (2, 2)
  | TInt32 => (4, 4)
  | TDouble => (8, 8)
  | TArray n u => let '(s, a) := layout u in (Z.of_nat n * s, a)
  | TStruct fs =>
      let '(off, al) :=
        (fix go (fs : list (string * ctype)) (acc : Z * Z) : Z * Z :=
           match fs with
           | [] => acc
           | (_, u) :: fs' =>
               let '(s, a) := layout u in
               go fs' (align_up (fst acc) a + s, Z.max (snd acc) a)
           end) fs (0, 1) in
      (align_up off al, al)
  end.

Definition sizeof (t : ctype) : Z := fst (layout t).

(** Offset of a field; [-1] for a name that is not a field. *)
Fixpoint field_offset (fs : list (string * ctype)) (off : Z) (f : string) : Z :=
  match fs with
  | [] => -1
  | (g, u) :: fs' =>
      let '(s, a) := layout u in
      let here := align_up off a in
      if String.eqb g f then here else field_offset fs' (here + s) f
  end.

Definition offsetof (t : ctype) (f : string) : Z :=
  match t with TStruct fs => field_offset fs 0 f | _ => -1 end.

(** ** Bytes and little-endian numbers *)
Definition byte_val (b : byte) : Z := Z.of_N (Byte.to_N b).
Definition byte_of (z : Z) : byte :=
  match Byte.of_N (Z.to_N (z mod 256)) with Some b => b | None => x00 end.

Fixpoint le_decode (bs : list byte) : Z :=
  match bs with [] => 0 | b :: bs' => byte_val b + 256 * le_decode bs' end.

Fixpoint le_encode (n : nat) (z : Z) : list byte :=
  match n with O => [] | S n' => byte_of z :: le_encode n' (z / 256) end.

Definition zeros (n : Z) : list byte := repeat x00 (Z.to_nat n).

#[global] Instance byte_eq_dec : EqDecision byte := Byte.byte_eq_dec.

Lemma byte_val_bounds b : 0 <= byte_val b < 256.
Proof. unfold byte_val. pose proof (Byte.to_N_bounded b). lia. Qed.

Lemma byte_val_of z : byte_val (byte_of z) = z mod 256.
Proof.
  unfold byte_val, byte_of.
  pose proof (Z.mod_pos_bound z 256 ltac:(lia)) as Hz.
  destruct (Byte.of_N (Z.to_N (z mod 256))) as [b|] eqn:E.
  - apply Byte.to_of_N in E. rewrite E. lia.
  - apply Byte.of_N_None_iff in E. lia.
Qed.

Lemma byte_of_val b : byte_of (byte_val b) = b.
Proof.
  unfold byte_of. rewrite Z.mod_small by apply byte_val_bounds.
  unfold byte_val. rewrite N2Z.id, Byte.of_to_N. reflexivity.
Qed.

Lemma le_decode_bounds bs : 0 <= le_decode bs < 256 ^ Z.of_nat (length bs).
Proof.
  induction bs as [|b bs IH]; cbn [le_decode length]; [lia|].
  rewrite Nat2Z.inj_succ, Z.pow_succ_r by lia.
  pose proof (byte_val_bounds b). lia.
Qed.

Lemma le_decode_encode n z : le_decode (le_encode n z) = z mod 256 ^ Z.of_nat n.
Proof.
  revert z. induction n as [|n IH]; intros z; cbn [le_decode le_encode].
  - rewrite Z.pow_0_r, Z.mod_1_r. reflexivity.
  - rewrite IH, byte_val_of, Nat2Z.inj_succ, Z.pow_succ_r by lia.
    rewrite (Z.rem_mul_r z 256) by lia. reflexivity.
Qed.

Lemma length_le_encode n z : length (le_encode n z) = n.
Proof. revert z. induction n as [|n IH]; intros z; cbn; [|rewrite IH]; reflexivity. Qed.

#[export] Hint Resolve byte_val_bounds le_decode_bounds : prime.

(** ** Accesses to a buffer *)
Definition in_range (buf : list byte) (p n : Z) : bool :=
  (0 <=? p) && (0 <=? n) && (p + n <=? Z.of_nat (length buf)).

Definition slice (buf : list byte) (p n : Z) : option (list byte) :=
  if in_range buf p n
  then Some (take (Z.to_nat n) (drop (Z.to_nat p) buf)) else None.

Definition load_bytes {S} (buf : list byte) (p n : Z) : comp S (list byte) :=
  match slice buf p n with
  | Some bs => ret bs
  | None => raise OutOfBounds
  end.

(** Unsigned load of an [n]-byte little-endian integer. *)
Definition load {S} (buf : list byte) (n p : Z) : comp S Z :=
  bs <- load_bytes buf p n ;; ret (le_decode bs).

Lemma slice_length buf p n bs :
  slice buf p n = Some bs -> 0 <= n /\ length bs = Z.to_nat n.
Proof.
  unfold slice, in_range. destruct (_ && _ && _) eqn:E; [|discriminate].
  intros [= <-]. rewrite !andb_true_iff, !Z.leb_le in E.
  split; [lia|]. rewrite length_take, length_drop. lia.
Qed.

Lemma slice_in_range buf p n bs :
  slice buf p n = Some bs -> 0 <= p /\ 0 <= n /\ p + n <= Z.of_nat (length buf).
Proof.
  unfold slice, in_range. destruct (_ && _ && _) eqn:E; [|discriminate].
  intros _. rewrite !andb_true_iff, !Z.leb_le in E. lia.
Qed.

Lemma slice_defined buf p n :
  0 <= p -> 0 <= n -> p + n <= Z.of_nat (length buf) -> is_Some (slice buf p n).
Proof.
  intros. unfold slice, in_range. rewrite !(proj2 (Z.leb_le _ _)) by lia.
  cbn. eauto.
Qed.

(** The number a load returns, when it returns one. *)
Definition word_at (buf : list byte) (n p : Z) : option Z :=
  le_decode <$> slice buf p n.

Lemma word_at_bounds buf n p v : word_at buf n p = Some v -> 0 <= v < 256 ^ n.
Proof.
  unfold word_at. destruct (slice buf p n) as [bs|] eqn:E; [|discriminate].
  cbn. intros [= <-]. apply slice_length in E as [Hn El].
  pose proof (le_decode_bounds bs) as H. rewrite El, Z2Nat.id in H by lia. exact H.
Qed.

Lemma spec_load_bytes {S} (F : fault -> Prop) (P : S -> Prop) buf p n :
  F OutOfBounds ->
  spec F P (load_bytes buf p n) (fun bs s => slice buf p n = Some bs /\ P s).
Proof.
  intros HF s Hs. unfold load_bytes.
  destruct (slice buf p n) eqn:E; cbn; auto.
Qed.

Lemma spec_load {S} (F : fault -> Prop) (P : S -> Prop) buf n p :
  F OutOfBounds ->
  spec F P (load buf n p) (fun v s => word_at buf n p = Some v /\ P s).
Proof.
  intros HF s Hs. unfold load, bind, load_bytes, word_at.
  destruct (slice buf p n) eqn:E; cbn; auto.
Qed.

(** ** The rules of loads *)
Lemma wp_load_bytes {S} (F : fault -> Prop) buf p n Q (s : S) :
  F OutOfBounds -> (forall bs, slice buf p n = Some bs -> Q bs s) ->
  wp F (load_bytes buf p n) Q s.
Proof. intros HF H. unfold load_bytes. destruct (slice buf p n) eqn:E; cbn; auto. Qed.

Lemma wp_load {S} (F : fault -> Prop) buf n p Q (s : S) :
  F OutOfBounds -> (forall v, word_at buf n p = Some v -> Q v s) ->
  wp F (load buf n p) Q s.
Proof.
  intros HF H. unfold load. apply wp_bind, wp_load_bytes; [exact HF|].
  intros bs E. apply wp_ret, H. unfold word_at. rewrite E. reflexivity.
Qed.

Lemma wp_load_bytes_at {S} (F : fault -> Prop) buf p n bs Q (s : S) :
  slice buf p n = Some bs -> Q bs s -> wp F (load_bytes buf p n) Q s.
Proof. intros H HQ. unfold load_bytes. rewrite H. exact HQ. Qed.

Lemma load_value {S} (s : S) buf w q v :
  word_at buf w q = Some v -> load buf w q s = Ret (v, s).
Proof.
  unfold word_at, load, load_bytes, bind. destruct (slice buf q w); [|discriminate].
  cbn. intros [= <-]. reflexivity.
Qed.

Lemma wp_load_value {S} (F : fault -> Prop) buf w q v (Q : Z -> S -> Prop) s :
  word_at buf w q = Some v -> Q v s -> wp F (load buf w q) Q s.
Proof. intros H HQ. unfold wp. rewrite (load_value _ _ _ _ _ H). exact HQ. Qed.

(** A field of a message as it is written, and the row of a matrix. *)
Definition put_bytes (buf : list byte) (p : Z) (bs : list byte) : list byte :=
  take (Z.to_nat p) buf ++ bs ++ drop (Z.to_nat p + length bs) buf.

Definition put_u32 (p v : Z) (buf : list byte) : list byte := put_bytes buf p (le_encode 4 v).

Lemma put_bytes_length buf p bs :
  0 <= p -> p + Z.of_nat (length bs) <= Z.of_nat (length buf) ->
  length (put_bytes buf p bs) = length buf.
Proof.
  intros Hp Hl. unfold put_bytes. rewrite !length_app, length_take, length_drop. lia.
Qed.

(** ** Fields of a message that is written *)
Lemma put_u32_length p v buf :
  0 <= p -> p + 4 <= Z.of_nat (length buf) -> length (put_u32 p v buf) = length buf.
Proof. intros Hp Hl. apply put_bytes_length; [exact Hp|]. rewrite length_le_encode. lia. Qed.

Lemma word_at_app m m' n p : p + n <= Z.of_nat (length m) -> word_at (m ++ m') n p = word_at m n p.
Proof.
  intros H. unfold word_at, slice, in_range. rewrite length_app, Nat2Z.inj_add.
  destruct (0 <=? p) eqn:E1, (0 <=? n) eqn:E2; cbn [andb]; [|reflexivity..].
  apply Z.leb_le in E1, E2. rewrite !(proj2 (Z.leb_le _ _)) by lia.
  rewrite drop_app_le by lia. rewrite take_app_le; [reflexivity|]. rewrite length_drop. lia.
Qed.

Lemma word_at_put p v buf :
  0 <= p -> p + 4 <= Z.of_nat (length buf) -> word_at (put_u32 p v buf) 4 p = Some (wrap32 v).
Proof.
  intros Hp Hl. unfold word_at, slice, in_range. rewrite put_u32_length by assumption.
  rewrite !(proj2 (Z.leb_le _ _)) by lia. cbn [andb fmap option_fmap option_map]. f_equal.
  unfold put_u32, put_bytes. rewrite drop_app_length' by (rewrite length_take; lia).
  rewrite take_app_length' by (rewrite length_le_encode; reflexivity). rewrite le_decode_encode. reflexivity.
Qed.

Lemma word_at_put_other p q v buf :
  0 <= p -> p + 4 <= Z.of_nat (length buf) -> q + 4 <= p \/ p + 4 <= q ->
  word_at (put_u32 p v buf) 4 q = word_at buf 4 q.
Proof.
  intros Hp Hl Hq. unfold word_at, slice, in_range. rewrite put_u32_length by assumption.
  destruct (0 <=? q) eqn:E1; [|reflexivity]. cbn [andb Z.leb].
  destruct (q + 4 <=? Z.of_nat (length buf)) eqn:E2; [|reflexivity]. apply Z.leb_le in E1, E2.
  cbn [fmap option_fmap option_map]. do 2 f_equal. unfold put_u32, put_bytes. rewrite length_le_encode.
  destruct Hq as [Hq|Hq].
  - rewrite drop_app_le by (rewrite length_take; lia). rewrite take_app_le by (rewrite length_drop, length_take; lia).
    rewrite !take_drop_commute, take_take. do 2 f_equal. lia.
  - rewrite app_assoc, drop_app_ge by (rewrite length_app, length_take, length_le_encode; lia).
    rewrite length_app, length_take, length_le_encode, drop_drop. do 2 f_equal. lia.
Qed.

(** The same with the length of the message given, for messages written in a row. *)
Section Sized.
Context (n : Z).

Definition of_size (buf : list byte) : Prop := Z.of_nat (length buf) = n.

Lemma put_sized p v buf : 0 <= p -> p + 4 <= n -> of_size buf -> of_size (put_u32 p v buf).
Proof. unfold of_size. intros Hp Hl H. rewrite put_u32_length by lia. exact H. Qed.

Lemma word_put_eq p v buf : 0 <= p -> p + 4 <= n -> of_size buf -> word_at (put_u32 p v buf) 4 p = Some (wrap32 v).
Proof. unfold of_size. intros Hp Hl H. apply word_at_put; lia. Qed.

Lemma word_put_ne p q v buf w :
  0 <= p -> p + 4 <= n -> (q + 4 <=? p) || (p + 4 <=? q) = true -> of_size buf ->
  word_at buf 4 q = w -> word_at (put_u32 p v buf) 4 q = w.
Proof.
  unfold of_size. intros Hp Hl Hq H <-. apply orb_true_iff in Hq. rewrite !Z.leb_le in Hq.
  apply word_at_put_other; lia.
Qed.
End Sized.

(** A field of a message of [n] bytes written with [put_u32]. *)
Ltac sized_ := first [reflexivity | eapply put_sized; [vm_compute; discriminate|vm_compute; discriminate|sized_]].
Ltac field n :=
  first [ apply (word_put_eq n); [vm_compute; discriminate|vm_compute; discriminate|sized_]
        | apply (word_put_ne n); [vm_compute; discriminate|vm_compute; discriminate|vm_compute; reflexivity|sized_|field n] ].

(** ** Parts of a message that is put together *)
Lemma slice_part pre bs post p n :
  p = Z.of_nat (length pre) -> n = Z.of_nat (length bs) -> slice (pre ++ bs ++ post) p n = Some bs.
Proof.
  intros -> ->. unfold slice, in_range. rewrite !length_app.
  rewrite !(proj2 (Z.leb_le _ _)) by lia. cbn [andb]. rewrite !Nat2Z.id.
  rewrite drop_app_length, take_app_length. reflexivity.
Qed.

Lemma word_part pre n v post p :
  p = Z.of_nat (length pre) ->
  word_at (pre ++ le_encode n v ++ post) (Z.of_nat n) p = Some (v mod 256 ^ Z.of_nat n).
Proof.
  intros Hp. unfold word_at. rewrite (slice_part _ _ _ _ (Z.of_nat n) Hp) by (rewrite length_le_encode; reflexivity).
  cbn. rewrite le_decode_encode. reflexivity.
Qed.

(** A [char] survives being stored. *)
Lemma sint8_byte v : -128 <= v < 128 -> sint8 (v mod 256) = v.
Proof.
  intros H. unfold sint8, wrap8. rewrite Z.mod_mod by lia.
  pose proof (Z.div_mod v 256 ltac:(lia)). pose proof (Z.mod_pos_bound v 256 ltac:(lia)).
  destruct (_ <? _) eqn:E; rewrite ?Z.ltb_lt, ?Z.ltb_ge in E; lia.
Qed.

Lemma word_defined buf n p : 0 <= p -> 0 <= n -> p + n <= Z.of_nat (length buf) -> is_Some (word_at buf n p).
Proof. intros H1 H2 H3. unfold word_at. destruct (slice_defined buf p n H1 H2 H3) as [bs ->]. eexists. reflexivity. Qed.
