(* ===== verification/Config.v ===== *)
(** Configuration constants of Prime and its quorum arithmetic.

    [prime/src/def.h] fixes the number of tolerated Byzantine ([NUM_F]) and
    benign ([NUM_K]) faults; [prime.c] copies them into [VAR.F] and [VAR.K],
    which the protocol code uses for its thresholds. *)
From Stdlib Require Import ZArith Lia List Bool.
From stdpp Require Import base list gmap fin_sets.
From S2P Require Import Prelude.

(** ** [prime/src/def.h] *)
Definition NUM_F : Z := 1.
Definition NUM_K : Z := 1.
Definition NUM_SERVERS : Z := 3 * NUM_F + 2 * NUM_K + 1.
Definition NUM_SERVER_SLOTS : Z := NUM_SERVERS + 1.
Definition NUM_CLIENTS : Z := 150.
Definition NUM_CLIENT_SLOTS : Z := NUM_CLIENTS + 1.
Definition UPDATE_SIZE : Z := 300.
Definition SIG_THRESHOLD : Z := 64.
Definition MAX_MERKLE_DIGESTS : Z := 6.
Definition PRIME_MAX_PACKET_SIZE : Z := 32000.
Definition CLIENTS_SIGN_UPDATES : bool := true.
Definition BROADCAST : Z := 0.
Definition TIMELY_TRAFFIC_CLASS : Z := 0.
Definition BOUNDED_TRAFFIC_CLASS : Z := 1.
Definition RECON_TRAFFIC_CLASS : Z := 2.
Definition RECON_ATTACK : bool := false.
Definition CATCHUP_HISTORY : Z := 10.
Definition MAX_PO_IN_FLIGHT : Z := 20.

(** ** [prime/src/openssl_rsa.h] *)
Definition DIGEST_SIZE : Z := 20.
Definition SIGNATURE_SIZE : Z := 128.
Definition RSA_CLIENT : Z := 1.
Definition RSA_SERVER : Z := 2.

(** ** [server_variables] ([data_structs.h]), set in [prime.c] *)
Record server_variables := mkVAR { My_Server_ID : Z; VF : Z; VK : Z }.

Definition Init_VAR (id : Z) : server_variables :=
  {| My_Server_ID := id; VF := NUM_F; VK := NUM_K |}.

(** The three thresholds of the protocol code, as it computes them. *)
Definition quorum (v : server_variables) : Z := 2 * VF v + VK v + 1.
Definition prepares_needed (v : server_variables) : Z := 2 * VF v + VK v.
Definition weak_quorum (v : server_variables) : Z := VF v + 1.

(** The replicas, numbered from 1. *)
Definition server_ids (n : Z) : gset Z := list_to_set (seqZ 1 n).

Lemma elem_of_server_ids n i : i ∈ server_ids n <-> 1 <= i <= n.
Proof. unfold server_ids. rewrite elem_of_list_to_set, elem_of_seqZ. lia. Qed.

Lemma size_server_ids n : 0 <= n -> Z.of_nat (size (server_ids n)) = n.
Proof.
  intros Hn. unfold server_ids. rewrite size_list_to_set by apply NoDup_seqZ.
  rewrite length_seqZ. lia.
Qed.

(** ** Quorum arithmetic, for any [f] and [k] *)
Lemma intersection_size (U X Y : gset Z) :
  X ⊆ U -> Y ⊆ U -> (size X + size Y <= size (X ∩ Y) + size U)%nat.
Proof.
  intros HX HY.
  pose proof (size_union_alt X Y) as Hu.
  assert (Hd : (size (Y ∖ X) + size (X ∩ Y) = size Y)%nat).
  { rewrite <- (size_union (Y ∖ X) (X ∩ Y)) by set_solver.
    f_equal. apply leibniz_equiv. intros z.
    destruct (decide (z ∈ X)); set_solver. }
  pose proof (subseteq_size (X ∪ Y) U ltac:(set_solver)). lia.
Qed.

(** A set larger than the faulty one has a member outside it. *)
Lemma outside_faulty f (X B : gset Z) :
  Z.of_nat (size B) <= f -> f + 1 <= Z.of_nat (size X) ->
  exists i, i ∈ X /\ i ∉ B.
Proof.
  intros HB HX. destruct (decide (X ⊆ B)) as [Hs|Hs].
  - apply subseteq_size in Hs. lia.
  - destruct (set_choose_or_empty (X ∖ B)) as [[i Hi]|He].
    + exists i. set_solver.
    + exfalso. apply Hs. intros z Hz. destruct (decide (z ∈ B)); set_solver.
Qed.

Section Quorums.
Context (f k : Z) (Hf : 0 <= f) (Hk : 0 <= k).
Let n := 3 * f + 2 * k + 1.
Let q := 2 * f + k + 1.

Lemma quorums_intersect (X Y : gset Z) :
  X ⊆ server_ids n -> Y ⊆ server_ids n ->
  q <= Z.of_nat (size X) -> q <= Z.of_nat (size Y) ->
  f + 1 <= Z.of_nat (size (X ∩ Y)).
Proof.
  intros HX HY Hx Hy.
  pose proof (intersection_size (server_ids n) X Y HX HY).
  pose proof (size_server_ids n ltac:(lia)). subst n q. lia.
Qed.

Lemma quorums_share_correct (X Y B : gset Z) :
  X ⊆ server_ids n -> Y ⊆ server_ids n -> Z.of_nat (size B) <= f ->
  q <= Z.of_nat (size X) -> q <= Z.of_nat (size Y) ->
  exists i, i ∈ X /\ i ∈ Y /\ i ∉ B.
Proof.
  intros HX HY HB Hx Hy.
  destruct (outside_faulty f (X ∩ Y) B HB (quorums_intersect X Y HX HY Hx Hy))
    as (i & Hi & HiB). exists i. set_solver.
Qed.
End Quorums.

(** Two sets of [2f+k] servers other than a faulty leader. *)
Lemma nonleaders_share_correct (f k leader : Z) (X Y B : gset Z) :
  0 <= f -> 0 <= k -> leader ∈ server_ids (3 * f + 2 * k + 1) -> leader ∈ B -> Z.of_nat (size B) <= f ->
  X ⊆ server_ids (3 * f + 2 * k + 1) ∖ {[leader]} -> Y ⊆ server_ids (3 * f + 2 * k + 1) ∖ {[leader]} ->
  2 * f + k <= Z.of_nat (size X) -> 2 * f + k <= Z.of_nat (size Y) ->
  exists i, i ∈ X /\ i ∈ Y /\ i ∉ B.
Proof.
  intros Hf Hk HL HLB HB HX HY Hx Hy.
  pose proof (intersection_size _ X Y HX HY) as Hi.
  assert (Hsub : forall U : gset Z, leader ∈ U -> Z.of_nat (size (U ∖ {[leader]})) = Z.of_nat (size U) - 1).
  { intros U HU. pose proof (size_union_alt {[leader]} U) as Hu. rewrite size_singleton in Hu.
    replace ({[leader]} ∪ U) with U in Hu by set_solver. lia. }
  rewrite !Nat2Z.inj_le, !Nat2Z.inj_add, (Hsub _ HL), size_server_ids in Hi by lia.
  assert (HB' : Z.of_nat (size (B ∖ {[leader]})) <= f - 1) by (rewrite (Hsub _ HLB); lia).
  assert (Hm : f - 1 + 1 <= Z.of_nat (size (X ∩ Y))) by lia.
  destruct (outside_faulty (f - 1) (X ∩ Y) (B ∖ {[leader]}) HB' Hm) as (i & Hi1 & Hi2).
  exists i. set_solver.
Qed.
