(* ===== verification/Packets.v ===== *)
(** The messages of Prime: [prime/src/packets.h].

    [packet_type] is [enum packet_types]; module [Wire] holds the structures as
    the header declares them, and the [sz_]/[o_] constants below are the sizes
    and offsets the ABI gives them. *)
From Stdlib Require Import ZArith Lia List Bool String.
From Stdlib Require Import Strings.Byte.
From stdpp Require Import base list strings.
From S2P Require Import Prelude Memory Config.

(** ** [enum packet_types] *)
Inductive packet_type :=
| DUMMY | PO_REQUEST | PO_ACK | PO_ARU | PROOF_MATRIX | PRE_PREPARE
| PREPARE | COMMIT | RECON | TAT_MEASURE | RTT_PING | RTT_PONG
| RTT_MEASURE | TAT_UB | NEW_LEADER | NEW_LEADER_PROOF | RB_INIT | RB_ECHO
| RB_READY | REPORT | PC_SET | VC_LIST | VC_PARTIAL_SIG | VC_PROOF | REPLAY
| REPLAY_PREPARE | REPLAY_COMMIT | ORD_CERT | PO_CERT | CATCHUP_REQUEST
| JUMP | NEW_INCARNATION | INCARNATION_ACK | INCARNATION_CERT
| PENDING_STATE | PENDING_SHARE | RESET_VOTE | RESET_SHARE | RESET_PROPOSAL
| RESET_PREPARE | RESET_COMMIT | RESET_NEWLEADER | RESET_NEWLEADERPROOF
| RESET_VIEWCHANGE | RESET_NEWVIEW | RESET_CERT | UPDATE | CLIENT_RESPONSE.

#[global] Instance packet_type_eq_dec : EqDecision packet_type.
Proof. solve_decision. Defined.

(** Every enumerator, in the order that gives it its value. *)
Definition packet_types : list packet_type :=
  [DUMMY; PO_REQUEST; PO_ACK; PO_ARU; PROOF_MATRIX; PRE_PREPARE; PREPARE;
   COMMIT; RECON; TAT_MEASURE; RTT_PING; RTT_PONG; RTT_MEASURE; TAT_UB;
   NEW_LEADER; NEW_LEADER_PROOF; RB_INIT; RB_ECHO; RB_READY; REPORT; PC_SET;
   VC_LIST; VC_PARTIAL_SIG; VC_PROOF; REPLAY; REPLAY_PREPARE; REPLAY_COMMIT;
   ORD_CERT; PO_CERT; CATCHUP_REQUEST; JUMP; NEW_INCARNATION;
   INCARNATION_ACK; INCARNATION_CERT; PENDING_STATE; PENDING_SHARE;
   RESET_VOTE; RESET_SHARE; RESET_PROPOSAL; RESET_PREPARE; RESET_COMMIT;
   RESET_NEWLEADER; RESET_NEWLEADERPROOF; RESET_VIEWCHANGE; RESET_NEWVIEW;
   RESET_CERT; UPDATE; CLIENT_RESPONSE].

Fixpoint index_of (t : packet_type) (l : list packet_type) (i : Z) : Z :=
  match l with
  | [] => i
  | u :: l' => if decide (t = u) then i else index_of t l' (i + 1)
  end.

(** The integer a message carries in its [type] field. *)
Definition type_val (t : packet_type) : Z := index_of t packet_types 0.
Definition MAX_MESS_TYPE : Z := Z.of_nat (length packet_types).

(** [switch (mess->type)]: the enumerator of an integer, if it is one. *)
Definition type_of (z : Z) : option packet_type :=
  if z <? 0 then None else packet_types !! Z.to_nat z.

Lemma type_of_val t : type_of (type_val t) = Some t.
Proof. destruct t; reflexivity. Qed.

Lemma type_val_of z t : type_of z = Some t -> z = type_val t.
Proof.
  unfold type_of. destruct (Z.ltb_spec z 0) as [|Hz]; [discriminate|].
  rewrite <- (Z2Nat.id z Hz) at 2. generalize (Z.to_nat z). clear z Hz.
  intros n Hn.
  do 48 (destruct n as [|n]; [cbn in Hn; injection Hn as <-; reflexivity|]).
  discriminate.
Qed.

Lemma type_val_inj t u : type_val t = type_val u -> t = u.
Proof.
  intros H. apply (f_equal type_of) in H. rewrite !type_of_val in H. congruence.
Qed.

Lemma type_val_bounds t : 0 <= type_val t < MAX_MESS_TYPE.
Proof. destruct t; cbv; split; congruence. Qed.

(** Defines to help with the SCADA application *)
Definition CLIENT_NO_OP : Z := 101.
Definition CLIENT_STATE_TRANSFER : Z := 102.
Definition CLIENT_SYSTEM_RESET : Z := 103.

(** [prime/src/order.h]: types of ordering slots *)
Definition SLOT_COMMIT : Z := 1.
Definition SLOT_PC_SET : Z := 2.
Definition SLOT_NO_OP : Z := 3.
Definition SLOT_NO_OP_PLUS : Z := 4.

(** [prime/src/proactive_recovery.h]: recovery states *)
Definition PR_STARTUP : Z := 1.
Definition PR_RESET : Z := 2.
Definition PR_RECOVERY : Z := 3.
Definition PR_NORMAL : Z := 4.

(** ** Structures *)
Module Wire.
#[local] Open Scope string_scope.
Definition signed_message : ctype := TStruct
  [("sig", TArray (Z.to_nat SIGNATURE_SIZE) TByte);
   ("mt_num", TInt16);
   ("mt_index", TInt16);
   ("site_id", TInt32);
   ("machine_id", TInt32);
   ("len", TInt32);
   ("type", TInt32);
   ("incarnation", TInt32);
   ("monotonic_counter", TInt32)].
Definition update_message : ctype := TStruct
  [("server_id", TInt32);
   ("address", TInt32);
   ("port", TInt16);
   ("seq_num", TInt32)].
Definition signed_update_message : ctype := TStruct
  [("header", signed_message);
   ("update", update_message);
   ("update_contents", TArray (Z.to_nat UPDATE_SIZE) TByte)].
Definition po_seq_pair : ctype := TStruct
  [("incarnation", TInt32);
   ("seq_num", TInt32)].
Definition po_request_message : ctype := TStruct
  [("seq", po_seq_pair);
   ("num_events", TInt32)].
Definition po_ack_part : ctype := TStruct
  [("originator", TInt32);
   ("seq", po_seq_pair);
   ("digest", TArray (Z.to_nat DIGEST_SIZE) TByte)].
Definition po_ack_message : ctype := TStruct
  [("num_ack_parts", TInt32);
   ("preinstalled_incarnations", TArray (Z.to_nat NUM_SERVERS) TInt32)].
Definition po_aru_message : ctype := TStruct
  [("num", TInt32);
   ("ack_for_server", TArray (Z.to_nat NUM_SERVERS) po_seq_pair)].
Definition po_aru_signed_message : ctype := TStruct
  [("header", signed_message);
   ("cum_ack", po_aru_message)].
Definition proof_matrix_message : ctype := TStruct
  [("num_acks_in_this_message", TInt32);
   ("sec", TInt32);
   ("usec", TInt32)].
Definition pre_prepare_message : ctype := TStruct
  [("seq_num", TInt32);
   ("view", TInt32);
   ("proposal_digest", TArray (Z.to_nat DIGEST_SIZE) TByte);
   ("last_executed", TArray (Z.to_nat NUM_SERVERS) po_seq_pair);
   ("part_num", TInt16);
   ("total_parts", TInt16);
   ("num_acks_in_this_message", TInt32)].
Definition prepare_message : ctype := TStruct
  [("seq_num", TInt32);
   ("view", TInt32);
   ("digest", TArray (Z.to_nat DIGEST_SIZE) TByte);
   ("preinstalled_incarnations", TArray (Z.to_nat NUM_SERVERS) TInt32)].
Definition commit_message : ctype := TStruct
  [("seq_num", TInt32);
   ("view", TInt32);
   ("digest", TArray (Z.to_nat DIGEST_SIZE) TByte);
   ("preinstalled_incarnations", TArray (Z.to_nat NUM_SERVERS) TInt32)].
Definition complete_pre_prepare_message : ctype := TStruct
  [("seq_num", TInt32);
   ("view", TInt32);
   ("proposal_digest", TArray (Z.to_nat DIGEST_SIZE) TByte);
   ("last_executed", TArray (Z.to_nat NUM_SERVERS) po_seq_pair);
   ("cum_acks", TArray (Z.to_nat NUM_SERVERS) po_aru_signed_message)].
Definition client_response_message : ctype := TStruct
  [("machine_id", TInt32);
   ("incarnation", TInt32);
   ("seq_num", TInt32);
   ("ord_num", TInt32);
   ("event_idx", TInt32);
   ("event_tot", TInt32);
   ("PO_time", TDouble)].
Definition tat_measure_message : ctype := TStruct
  [("view", TInt32);
   ("max_tat", TDouble)].
Definition rtt_ping_message : ctype := TStruct
  [("ping_seq_num", TInt32);
   ("view", TInt32)].
Definition rtt_pong_message : ctype := TStruct
  [("dest", TInt32);
   ("ping_seq_num", TInt32);
   ("view", TInt32)].
Definition rtt_measure_message : ctype := TStruct
  [("dest", TInt32);
   ("view", TInt32);
   ("rtt", TDouble)].
Definition tat_ub_message : ctype := TStruct
  [("view", TInt32);
   ("alpha", TDouble)].
Definition new_leader_message : ctype := TStruct
  [("new_view", TInt32)].
Definition new_leader_proof_message : ctype := TStruct
  [("new_view", TInt32)].
Definition reliable_broadcast_tag : ctype := TStruct
  [("machine_id", TInt32);
   ("view", TInt32);
   ("seq_num", TInt32)].
Definition report_message : ctype := TStruct
  [("rb_tag", reliable_broadcast_tag);
   ("execARU", TInt32);
   ("pc_set_size", TInt32)].
Definition pc_set_message : ctype := TStruct
  [("rb_tag", reliable_broadcast_tag)].
Definition vc_list_message : ctype := TStruct
  [("view", TInt32);
   ("list", TInt32)].
Definition vc_partial_sig_message : ctype := TStruct
  [("view", TInt32);
   ("list", TInt32);
   ("startSeq", TInt32);
   ("partial_sig", TArray (Z.to_nat SIGNATURE_SIZE) TByte)].
Definition vc_proof_message : ctype := TStruct
  [("view", TInt32);
   ("list", TInt32);
   ("startSeq", TInt32);
   ("thresh_sig", TArray (Z.to_nat SIGNATURE_SIZE) TByte)].
Definition replay_message : ctype := TStruct
  [("view", TInt32);
   ("list", TInt32);
   ("startSeq", TInt32);
   ("thresh_sig", TArray (Z.to_nat SIGNATURE_SIZE) TByte)].
Definition replay_prepare_message : ctype := TStruct
  [("view", TInt32);
   ("digest", TArray (Z.to_nat DIGEST_SIZE) TByte)].
Definition replay_commit_message : ctype := TStruct
  [("view", TInt32);
   ("digest", TArray (Z.to_nat DIGEST_SIZE) TByte)].
Definition ord_certificate_message : ctype := TStruct
  [("view", TInt32);
   ("seq_num", TInt32);
   ("type", TInt32)].
Definition po_certificate_message : ctype := TStruct
  [("server", TInt32);
   ("seq", po_seq_pair)].
Definition catchup_request_message : ctype := TStruct
  [("flag", TInt32);
   ("nonce", TInt32);
   ("aru", TInt32);
   ("po_aru", TArray (Z.to_nat NUM_SERVERS) po_seq_pair);
   ("proposal_digest", TArray (Z.to_nat DIGEST_SIZE) TByte)].
Definition jump_message : ctype := TStruct
  [("seq_num", TInt32);
   ("acked_nonce", TInt32);
   ("proposal_digest", TArray (Z.to_nat DIGEST_SIZE) TByte);
   ("installed_incarn", TArray (Z.to_nat NUM_SERVERS) TInt32)].
Definition new_incarnation_message : ctype := TStruct
  [("nonce", TInt32);
   ("timestamp", TInt32);
   ("key", TArray (Z.to_nat DIGEST_SIZE) TByte)].
Definition incarnation_ack_message : ctype := TStruct
  [("acked_id", TInt32);
   ("acked_incarnation", TInt32);
   ("digest", TArray (Z.to_nat DIGEST_SIZE) TByte)].
Definition incarnation_cert_message : ctype := TStruct
  [].
Definition pending_state_message : ctype := TStruct
  [("seq_num", TInt32);
   ("acked_nonce", TInt32);
   ("total_shares", TInt32)].
Definition pending_share_message : ctype := TStruct
  [("acked_nonce", TInt32);
   ("type", TInt32);
   ("index", TInt32)].
Definition reset_vote_message : ctype := TStruct
  [("acked_incarnation", TInt32);
   ("acked_nonce", TInt32)].
Definition reset_share_message : ctype := TStruct
  [("view", TInt32);
   ("nonce", TInt32);
   ("key", TArray (Z.to_nat DIGEST_SIZE) TByte)].
Definition reset_proposal_message : ctype := TStruct
  [("view", TInt32);
   ("num_shares", TInt32)].
Definition reset_prepare_message : ctype := TStruct
  [("view", TInt32);
   ("digest", TArray (Z.to_nat DIGEST_SIZE) TByte)].
Definition reset_commit_message : ctype := TStruct
  [("view", TInt32);
   ("digest", TArray (Z.to_nat DIGEST_SIZE) TByte)].
Definition reset_newleader_message : ctype := TStruct
  [("new_view", TInt32)].
Definition reset_newleaderproof_message : ctype := TStruct
  [("new_view", TInt32)].
Definition reset_viewchange_message : ctype := TStruct
  [("rb_tag", reliable_broadcast_tag);
   ("contains_proposal", TInt32)].
Definition reset_newview_message : ctype := TStruct
  [("rb_tag", reliable_broadcast_tag);
   ("list", TInt32)].
Definition reset_certificate_message : ctype := TStruct
  [("view", TInt32)].
Definition erasure_part : ctype := TStruct
  [("mess_len", TInt32)].
Definition recon_message : ctype := TStruct
  [("num_parts", TInt32)].
End Wire.

(** ** Sizes and offsets *)
Definition sz_signed_message : Z := Eval vm_compute in sizeof Wire.signed_message.
Definition sz_update_message : Z := Eval vm_compute in sizeof Wire.update_message.
Definition sz_signed_update_message : Z := Eval vm_compute in sizeof Wire.signed_update_message.
Definition sz_po_seq_pair : Z := Eval vm_compute in sizeof Wire.po_seq_pair.
Definition sz_po_request_message : Z := Eval vm_compute in sizeof Wire.po_request_message.
Definition sz_po_ack_part : Z := Eval vm_compute in sizeof Wire.po_ack_part.
Definition sz_po_ack_message : Z := Eval vm_compute in sizeof Wire.po_ack_message.
Definition sz_po_aru_message : Z := Eval vm_compute in sizeof Wire.po_aru_message.
Definition sz_po_aru_signed_message : Z := Eval vm_compute in sizeof Wire.po_aru_signed_message.
Definition sz_proof_matrix_message : Z := Eval vm_compute in sizeof Wire.proof_matrix_message.
Definition sz_pre_prepare_message : Z := Eval vm_compute in sizeof Wire.pre_prepare_message.
Definition sz_prepare_message : Z := Eval vm_compute in sizeof Wire.prepare_message.
Definition sz_commit_message : Z := Eval vm_compute in sizeof Wire.commit_message.
Definition sz_complete_pre_prepare_message : Z := Eval vm_compute in sizeof Wire.complete_pre_prepare_message.
Definition sz_client_response_message : Z := Eval vm_compute in sizeof Wire.client_response_message.
Definition sz_tat_measure_message : Z := Eval vm_compute in sizeof Wire.tat_measure_message.
Definition sz_rtt_ping_message : Z := Eval vm_compute in sizeof Wire.rtt_ping_message.
Definition sz_rtt_pong_message : Z := Eval vm_compute in sizeof Wire.rtt_pong_message.
Definition sz_rtt_measure_message : Z := Eval vm_compute in sizeof Wire.rtt_measure_message.
Definition sz_tat_ub_message : Z := Eval vm_compute in sizeof Wire.tat_ub_message.
Definition sz_new_leader_message : Z := Eval vm_compute in sizeof Wire.new_leader_message.
Definition sz_new_leader_proof_message : Z := Eval vm_compute in sizeof Wire.new_leader_proof_message.
Definition sz_reliable_broadcast_tag : Z := Eval vm_compute in sizeof Wire.reliable_broadcast_tag.
Definition sz_report_message : Z := Eval vm_compute in sizeof Wire.report_message.
Definition sz_pc_set_message : Z := Eval vm_compute in sizeof Wire.pc_set_message.
Definition sz_vc_list_message : Z := Eval vm_compute in sizeof Wire.vc_list_message.
Definition sz_vc_partial_sig_message : Z := Eval vm_compute in sizeof Wire.vc_partial_sig_message.
Definition sz_vc_proof_message : Z := Eval vm_compute in sizeof Wire.vc_proof_message.
Definition sz_replay_message : Z := Eval vm_compute in sizeof Wire.replay_message.
Definition sz_replay_prepare_message : Z := Eval vm_compute in sizeof Wire.replay_prepare_message.
Definition sz_replay_commit_message : Z := Eval vm_compute in sizeof Wire.replay_commit_message.
Definition sz_ord_certificate_message : Z := Eval vm_compute in sizeof Wire.ord_certificate_message.
Definition sz_po_certificate_message : Z := Eval vm_compute in sizeof Wire.po_certificate_message.
Definition sz_catchup_request_message : Z := Eval vm_compute in sizeof Wire.catchup_request_message.
Definition sz_jump_message : Z := Eval vm_compute in sizeof Wire.jump_message.
Definition sz_new_incarnation_message : Z := Eval vm_compute in sizeof Wire.new_incarnation_message.
Definition sz_incarnation_ack_message : Z := Eval vm_compute in sizeof Wire.incarnation_ack_message.
Definition sz_incarnation_cert_message : Z := Eval vm_compute in sizeof Wire.incarnation_cert_message.
Definition sz_pending_state_message : Z := Eval vm_compute in sizeof Wire.pending_state_message.
Definition sz_pending_share_message : Z := Eval vm_compute in sizeof Wire.pending_share_message.
Definition sz_reset_vote_message : Z := Eval vm_compute in sizeof Wire.reset_vote_message.
Definition sz_reset_share_message : Z := Eval vm_compute in sizeof Wire.reset_share_message.
Definition sz_reset_proposal_message : Z := Eval vm_compute in sizeof Wire.reset_proposal_message.
Definition sz_reset_prepare_message : Z := Eval vm_compute in sizeof Wire.reset_prepare_message.
Definition sz_reset_commit_message : Z := Eval vm_compute in sizeof Wire.reset_commit_message.
Definition sz_reset_newleader_message : Z := Eval vm_compute in sizeof Wire.reset_newleader_message.
Definition sz_reset_newleaderproof_message : Z := Eval vm_compute in sizeof Wire.reset_newleaderproof_message.
Definition sz_reset_viewchange_message : Z := Eval vm_compute in sizeof Wire.reset_viewchange_message.
Definition sz_reset_newview_message : Z := Eval vm_compute in sizeof Wire.reset_newview_message.
Definition sz_reset_certificate_message : Z := Eval vm_compute in sizeof Wire.reset_certificate_message.
Definition sz_erasure_part : Z := Eval vm_compute in sizeof Wire.erasure_part.
Definition sz_recon_message : Z := Eval vm_compute in sizeof Wire.recon_message.
Definition o_signed_message_mt_num : Z :=
  Eval vm_compute in offsetof Wire.signed_message "mt_num".
Definition o_signed_message_mt_index : Z :=
  Eval vm_compute in offsetof Wire.signed_message "mt_index".
Definition o_signed_message_site_id : Z :=
  Eval vm_compute in offsetof Wire.signed_message "site_id".
Definition o_signed_message_machine_id : Z :=
  Eval vm_compute in offsetof Wire.signed_message "machine_id".
Definition o_signed_message_len : Z :=
  Eval vm_compute in offsetof Wire.signed_message "len".
Definition o_signed_message_type : Z :=
  Eval vm_compute in offsetof Wire.signed_message "type".
Definition o_signed_message_incarnation : Z :=
  Eval vm_compute in offsetof Wire.signed_message "incarnation".
Definition o_signed_message_monotonic_counter : Z :=
  Eval vm_compute in offsetof Wire.signed_message "monotonic_counter".
Definition o_update_message_seq_num : Z :=
  Eval vm_compute in offsetof Wire.update_message "seq_num".
Definition o_po_request_message_seq : Z :=
  Eval vm_compute in offsetof Wire.po_request_message "seq".
Definition o_po_request_message_num_events : Z :=
  Eval vm_compute in offsetof Wire.po_request_message "num_events".
Definition o_po_ack_part_originator : Z :=
  Eval vm_compute in offsetof Wire.po_ack_part "originator".
Definition o_po_ack_part_seq : Z :=
  Eval vm_compute in offsetof Wire.po_ack_part "seq".
Definition o_po_ack_part_digest : Z :=
  Eval vm_compute in offsetof Wire.po_ack_part "digest".
Definition o_po_ack_message_num_ack_parts : Z :=
  Eval vm_compute in offsetof Wire.po_ack_message "num_ack_parts".
Definition o_po_ack_message_preinstalled_incarnations : Z :=
  Eval vm_compute in offsetof Wire.po_ack_message "preinstalled_incarnations".
Definition o_po_seq_pair_incarnation : Z :=
  Eval vm_compute in offsetof Wire.po_seq_pair "incarnation".
Definition o_po_seq_pair_seq_num : Z :=
  Eval vm_compute in offsetof Wire.po_seq_pair "seq_num".
Definition o_po_aru_signed_message_cum_ack : Z :=
  Eval vm_compute in offsetof Wire.po_aru_signed_message "cum_ack".
Definition o_po_aru_message_ack_for_server : Z :=
  Eval vm_compute in offsetof Wire.po_aru_message "ack_for_server".
Definition o_po_aru_signed_message_header : Z :=
  Eval vm_compute in offsetof Wire.po_aru_signed_message "header".
Definition o_proof_matrix_message_num_acks_in_this_message : Z :=
  Eval vm_compute in offsetof Wire.proof_matrix_message "num_acks_in_this_message".
Definition o_pre_prepare_message_seq_num : Z :=
  Eval vm_compute in offsetof Wire.pre_prepare_message "seq_num".
Definition o_pre_prepare_message_view : Z :=
  Eval vm_compute in offsetof Wire.pre_prepare_message "view".
Definition o_pre_prepare_message_proposal_digest : Z :=
  Eval vm_compute in offsetof Wire.pre_prepare_message "proposal_digest".
Definition o_pre_prepare_message_last_executed : Z :=
  Eval vm_compute in offsetof Wire.pre_prepare_message "last_executed".
Definition o_pre_prepare_message_part_num : Z :=
  Eval vm_compute in offsetof Wire.pre_prepare_message "part_num".
Definition o_pre_prepare_message_total_parts : Z :=
  Eval vm_compute in offsetof Wire.pre_prepare_message "total_parts".
Definition o_pre_prepare_message_num_acks_in_this_message : Z :=
  Eval vm_compute in offsetof Wire.pre_prepare_message "num_acks_in_this_message".
Definition o_complete_pre_prepare_message_seq_num : Z :=
  Eval vm_compute in offsetof Wire.complete_pre_prepare_message "seq_num".
Definition o_complete_pre_prepare_message_view : Z :=
  Eval vm_compute in offsetof Wire.complete_pre_prepare_message "view".
Definition o_complete_pre_prepare_message_proposal_digest : Z :=
  Eval vm_compute in offsetof Wire.complete_pre_prepare_message "proposal_digest".
Definition o_complete_pre_prepare_message_last_executed : Z :=
  Eval vm_compute in offsetof Wire.complete_pre_prepare_message "last_executed".
Definition o_complete_pre_prepare_message_cum_acks : Z :=
  Eval vm_compute in offsetof Wire.complete_pre_prepare_message "cum_acks".
Definition o_prepare_message_seq_num : Z :=
  Eval vm_compute in offsetof Wire.prepare_message "seq_num".
Definition o_prepare_message_digest : Z :=
  Eval vm_compute in offsetof Wire.prepare_message "digest".
Definition o_commit_message_seq_num : Z :=
  Eval vm_compute in offsetof Wire.commit_message "seq_num".
Definition o_commit_message_digest : Z :=
  Eval vm_compute in offsetof Wire.commit_message "digest".
Definition o_new_leader_message_new_view : Z :=
  Eval vm_compute in offsetof Wire.new_leader_message "new_view".
Definition o_new_leader_proof_message_new_view : Z :=
  Eval vm_compute in offsetof Wire.new_leader_proof_message "new_view".
Definition o_reliable_broadcast_tag_machine_id : Z :=
  Eval vm_compute in offsetof Wire.reliable_broadcast_tag "machine_id".
Definition o_reliable_broadcast_tag_view : Z :=
  Eval vm_compute in offsetof Wire.reliable_broadcast_tag "view".
Definition o_reliable_broadcast_tag_seq_num : Z :=
  Eval vm_compute in offsetof Wire.reliable_broadcast_tag "seq_num".
Definition o_report_message_rb_tag : Z :=
  Eval vm_compute in offsetof Wire.report_message "rb_tag".
Definition o_pc_set_message_rb_tag : Z :=
  Eval vm_compute in offsetof Wire.pc_set_message "rb_tag".
Definition o_vc_proof_message_thresh_sig : Z :=
  Eval vm_compute in offsetof Wire.vc_proof_message "thresh_sig".
Definition o_replay_message_thresh_sig : Z :=
  Eval vm_compute in offsetof Wire.replay_message "thresh_sig".
Definition o_ord_certificate_message_seq_num : Z :=
  Eval vm_compute in offsetof Wire.ord_certificate_message "seq_num".
Definition o_ord_certificate_message_type : Z :=
  Eval vm_compute in offsetof Wire.ord_certificate_message "type".
Definition o_po_certificate_message_seq : Z :=
  Eval vm_compute in offsetof Wire.po_certificate_message "seq".
Definition o_jump_message_seq_num : Z :=
  Eval vm_compute in offsetof Wire.jump_message "seq_num".
Definition o_jump_message_installed_incarn : Z :=
  Eval vm_compute in offsetof Wire.jump_message "installed_incarn".
Definition o_incarnation_ack_message_acked_id : Z :=
  Eval vm_compute in offsetof Wire.incarnation_ack_message "acked_id".
Definition o_incarnation_ack_message_acked_incarnation : Z :=
  Eval vm_compute in offsetof Wire.incarnation_ack_message "acked_incarnation".
Definition o_incarnation_ack_message_digest : Z :=
  Eval vm_compute in offsetof Wire.incarnation_ack_message "digest".
Definition o_pending_share_message_type : Z :=
  Eval vm_compute in offsetof Wire.pending_share_message "type".
Definition o_reset_proposal_message_view : Z :=
  Eval vm_compute in offsetof Wire.reset_proposal_message "view".
Definition o_reset_proposal_message_num_shares : Z :=
  Eval vm_compute in offsetof Wire.reset_proposal_message "num_shares".
Definition o_reset_prepare_message_view : Z :=
  Eval vm_compute in offsetof Wire.reset_prepare_message "view".
Definition o_reset_prepare_message_digest : Z :=
  Eval vm_compute in offsetof Wire.reset_prepare_message "digest".
Definition o_reset_commit_message_view : Z :=
  Eval vm_compute in offsetof Wire.reset_commit_message "view".
Definition o_reset_commit_message_digest : Z :=
  Eval vm_compute in offsetof Wire.reset_commit_message "digest".
Definition o_reset_viewchange_message_contains_proposal : Z :=
  Eval vm_compute in offsetof Wire.reset_viewchange_message "contains_proposal".

(** ** The header of a message at an address of a buffer *)
Record header := mkHeader {
  h_mt_num : Z; h_mt_index : Z; h_site_id : Z; h_machine_id : Z;
  h_len : Z; h_type : Z; h_incarnation : Z; h_monotonic_counter : Z }.

Definition header_at (buf : list byte) (p : Z) : option header :=
  mt_num ← word_at buf 2 (p + o_signed_message_mt_num);
  mt_index ← word_at buf 2 (p + o_signed_message_mt_index);
  site_id ← word_at buf 4 (p + o_signed_message_site_id);
  machine_id ← word_at buf 4 (p + o_signed_message_machine_id);
  len ← word_at buf 4 (p + o_signed_message_len);
  type ← word_at buf 4 (p + o_signed_message_type);
  incarnation ← word_at buf 4 (p + o_signed_message_incarnation);
  monotonic_counter ← word_at buf 4 (p + o_signed_message_monotonic_counter);
  Some {| h_mt_num := mt_num; h_mt_index := mt_index; h_site_id := site_id;
          h_machine_id := machine_id; h_len := len; h_type := type;
          h_incarnation := incarnation; h_monotonic_counter := monotonic_counter |}.

Definition load_header {S} (buf : list byte) (p : Z) : comp S header :=
  or_oob (header_at buf p).

Lemma header_at_bounds buf p h :
  header_at buf p = Some h ->
  0 <= h_mt_num h < 65536 /\ 0 <= h_mt_index h < 65536 /\ is_u32 (h_site_id h) /\
  is_u32 (h_machine_id h) /\ is_u32 (h_len h) /\ is_u32 (h_type h) /\
  is_u32 (h_incarnation h) /\ is_u32 (h_monotonic_counter h).
Proof.
  unfold header_at. intros H.
  repeat match type of H with
    | (_ ← word_at ?b ?n ?q; _) = _ =>
        let E := fresh "E" in
        destruct (word_at b n q) eqn:E; [apply word_at_bounds in E; cbn in H|discriminate]
    end.
  injection H as <-. unwrap. cbn. lia.
Qed.

(** The bytes of a message as it would be laid out in memory. *)
Definition encode_header (sig : list byte) (h : header) : list byte :=
  sig ++ le_encode 2 (h_mt_num h) ++ le_encode 2 (h_mt_index h) ++
  le_encode 4 (h_site_id h) ++ le_encode 4 (h_machine_id h) ++
  le_encode 4 (h_len h) ++ le_encode 4 (h_type h) ++
  le_encode 4 (h_incarnation h) ++ le_encode 4 (h_monotonic_counter h).
