(* ===== verification/Crypto.v ===== *)
(** Signatures and digests: [prime/src/openssl_rsa.c], [prime/src/tc_wrapper.c].

    The OpenSSL and OpenTC calls are the fields of the class [Crypto]; what the
    source adds around them (the range checks on key numbers, the choice of
    key, the byte comparison of digests) is defined here. *)
From Stdlib Require Import ZArith Lia List Bool.
From Stdlib Require Import Strings.Byte.
From stdpp Require Import base list.
From S2P Require Import Prelude Memory Config.

Abbreviation digest := (list byte).

(** The two libraries.  [RSA_verify d s t n]: [s] is a signature of the digest
    [d] under the public key [n] of type [t] (client or server). *)
Class Crypto := {
  make_digest : list byte -> digest;
  RSA_verify : digest -> list byte -> Z -> Z -> bool;
  TC_verify : digest -> list byte -> Z -> bool
}.

(** What the code relies on about SHA-1: it writes [DIGEST_SIZE] bytes. *)
Class CryptoOk (c : Crypto) := {
  make_digest_length : forall bs, Z.of_nat (length (make_digest bs)) = DIGEST_SIZE
}.

(** OpenTC: the share of a server's key for a digest, and a signature combined
    from shares. *)
Class Threshold := {
  genIndSig : Z -> digest -> list byte;
  TC_Combine_Sigs : list (Z * list byte) -> digest -> list byte
}.

Definition NUM_SITES : Z := 1.

Section WithCrypto.
Context {crypto : Crypto}.

(** [OPENSSL_RSA_Digests_Equal]: the bytes [i..DIGEST_SIZE) agree. *)
Fixpoint digests_equal_from (fuel : nat) (d1 d2 : digest) : bool :=
  match fuel with
  | O => true
  | S n =>
      match d1, d2 with
      | b1 :: d1', b2 :: d2' =>
          if decide (b1 = b2) then digests_equal_from n d1' d2' else false
      | _, _ => false
      end
  end.

Definition OPENSSL_RSA_Digests_Equal (d1 d2 : digest) : bool :=
  digests_equal_from (Z.to_nat DIGEST_SIZE) d1 d2.

Definition OPENSSL_RSA_Verify_Signature (digest_value signature : list byte)
    (number type : Z) : bool :=
  if type =? RSA_CLIENT then
    if (number <? 1) || (NUM_CLIENTS <? number) then false
    else RSA_verify digest_value signature RSA_CLIENT number
  else
    if (number <? 1) || (NUM_SERVERS <? number) then false
    else RSA_verify digest_value signature RSA_SERVER number.

Definition OPENSSL_RSA_Verify (message signature : list byte) (number type : Z)
    : bool :=
  OPENSSL_RSA_Verify_Signature (make_digest message) signature number type.

Definition TC_Verify_Signature (site : Z) (signature digest : list byte) : bool :=
  if (site =? 0) || (NUM_SITES <? site) then false
  else TC_verify digest signature site.

Lemma digests_equal_from_spec n d1 d2 :
  length d1 = n -> length d2 = n -> digests_equal_from n d1 d2 = true <-> d1 = d2.
Proof.
  revert d1 d2. induction n as [|n IH]; intros [|b1 d1] [|b2 d2]; cbn;
    intros H1 H2; try (exfalso; lia); [tauto|].
  destruct (decide (b1 = b2)) as [->|Hne].
  - rewrite IH by lia. split; [intros ->; reflexivity|congruence].
  - split; congruence.
Qed.

(** On whole digests the comparison is equality. *)
Lemma Digests_Equal_spec d1 d2 :
  Z.of_nat (length d1) = DIGEST_SIZE -> Z.of_nat (length d2) = DIGEST_SIZE ->
  OPENSSL_RSA_Digests_Equal d1 d2 = true <-> d1 = d2.
Proof. intros H1 H2. apply digests_equal_from_spec; lia. Qed.

Lemma Digests_Equal_refl d :
  Z.of_nat (length d) = DIGEST_SIZE -> OPENSSL_RSA_Digests_Equal d d = true.
Proof. intros H. apply Digests_Equal_spec; auto. Qed.
End WithCrypto.

(** An instance to evaluate the definitions with: digests are lengths, every
    signature is valid. *)
Definition toy : Crypto :=
  {| make_digest := fun bs => le_encode (Z.to_nat DIGEST_SIZE) (Z.of_nat (length bs));
     RSA_verify := fun _ _ _ _ => true; TC_verify := fun _ _ _ => true |}.

Lemma toy_ok : CryptoOk toy.
Proof. split. intros bs. reflexivity. Qed.
