(* ===== verification/Merkle.v ===== *)
(** Merkle trees over message digests: [prime/src/merkle.c].

    A batch of outgoing messages is signed once: the digests of the messages
    are the leaves of a binary tree kept in an array ([dt]), node [n] having the
    children [2n] and [2n+1]; the root, node 1, is signed, and each message
    carries the digests of the siblings on its path. *)
From Stdlib Require Import ZArith Lia List Bool.
From Stdlib Require Import Strings.Byte.
From stdpp Require Import base list.
From S2P Require Import Prelude Memory Config Packets Crypto.

(** [dt] and [verify_dt] hold 512 digests. *)
Definition DT_SIZE : Z := 512.
Definition zero_digest : digest := zeros DIGEST_SIZE.
Definition clear_dt : list digest := repeat zero_digest (Z.to_nat DT_SIZE).

Section Merkle.
Context {crypto : Crypto} {S : Type}.

(** ** Index arithmetic *)
Definition MT_Parent (n : Z) : Z := Z.quot n 2.
Definition MT_C1 (n : Z) : Z := 2 * n.
Definition MT_C2 (n : Z) : Z := 2 * n + 1.
Definition MT_L (mt_num n : Z) : Z := mt_num - 1 + n.
Definition MT_S (n : Z) : Z := if Z.rem n 2 =? 0 then n + 1 else n - 1.

(** Number of sibling digests on a path, by the size of the tree. *)
Definition MT_Digests_ (n : Z) : comp S Z :=
  if n <=? 1 then ret 0
  else if n <=? 2 then ret 1
  else if n <=? 4 then ret 2
  else if n <=? 8 then ret 3
  else if n <=? 16 then ret 4
  else if n <=? 32 then ret 5
  else if n <=? 64 then ret 6
  else if n <=? 128 then ret 7
  else if n <=? 256 then ret 8
  else raise Exit.

Definition MT_Set_Num (n : Z) : comp S Z :=
  if n =? 1 then ret 1
  else if n <=? 2 then ret 2
  else if n <=? 4 then ret 4
  else if n <=? 8 then ret 8
  else if n <=? 16 then ret 16
  else if n <=? 32 then ret 32
  else if n <=? 64 then ret 64
  else if n <=? 128 then ret 128
  else if n <=? 256 then ret 256
  else raise Exit.

(** ** The tree *)
Definition MT_Put_Mess_Digest (mt_num : Z) (dt : list digest) (n : Z)
    (d : digest) : comp S (list digest) :=
  or_oob (aset dt (MT_L mt_num n) d).

(** [dt\[n\] = H(dt\[2n\] ++ dt\[2n+1\])] *)
Definition make_node (dt : list digest) (n : Z) : comp S (list digest) :=
  c1 <- or_oob (aget dt (MT_C1 n)) ;;
  c2 <- or_oob (aget dt (MT_C2 n)) ;;
  or_oob (aset dt n (make_digest (c1 ++ c2))).

(** [for (n = mt_num-1; n >= 1; n--)]; the root is left in [dt\[1\]]. *)
Definition MT_Make_Digest_From_All (mt_num : Z) (dt : list digest)
    : comp S (list digest) :=
  r <- for_ (mt_num - 1)
         (fun '(n, dt) => dt' <- make_node dt n ;; ret (inl (n - 1, dt')))
         (mt_num - 1, dt) ;;
  match r with inl (_, dt') => ret dt' | inr dt' => ret dt' end.

(** The digests appended to message [mess_num], in order. *)
Definition MT_Extract_Set (mt_num mess_num : Z) (dt : list digest)
    : comp S (list digest) :=
  r <- while_ (R := list digest) 33 (fun '(n, _) => 1 <? n)
         (fun '(n, digests) =>
            let sib := MT_S n in
            if 1 <? sib then
              d <- or_oob (aget dt sib) ;;
              ret (inl (MT_Parent n, digests ++ [d]))
            else ret (inl (MT_Parent n, digests)))
         (mess_num + mt_num - 1, []) ;;
  match r with inl (_, ds) => ret ds | inr ds => ret ds end.

(** [read_digest di] is the copy out of the message's trailing digests.
    [mess_num + mtnum - 1] is computed in [int32u] and kept in an [int32]. *)
Definition MT_Make_Digest_From_Set (mess_num : Z) (read_digest : Z -> comp S digest)
    (mess_digest : digest) (mtnum : Z) (verify_dt : list digest) : comp S digest :=
  let n := sint32 (mess_num + mtnum - 1) in
  verify_dt <- or_oob (aset verify_dt n mess_digest) ;;
  r <- while_ (R := digest) 33 (fun '(n, _, _) => 1 <? n)
         (fun '(n, di, vdt) =>
            let sib := MT_S n in
            p <- (if 1 <? sib then
                    d <- read_digest di ;;
                    vdt' <- or_oob (aset vdt sib d) ;; ret (di + 1, vdt')
                  else ret (di, vdt)) ;;
            let n' := MT_Parent n in
            vdt'' <- make_node (snd p) n' ;;
            ret (inl (n', fst p, vdt'')))
         (n, 0, verify_dt) ;;
  match r with
  | inl (_, _, vdt) => or_oob (aget vdt 1)
  | inr d => ret d
  end.

(** [MT_Verify(mess)], for the message at [p] of a buffer.  The digest covers
    everything but the signature, [mt_num], [mt_index] and the digests. *)
Definition MT_Verify (buf : list byte) (p : Z) : comp S bool :=
  h <- load_header buf p ;;
  sig <- load_bytes buf p SIGNATURE_SIZE ;;
  if h_type h =? type_val UPDATE then
    body <- load_bytes buf (p + SIGNATURE_SIZE)
              (h_len h + sz_signed_message - SIGNATURE_SIZE) ;;
    ret (OPENSSL_RSA_Verify_Signature (make_digest body) sig (h_machine_id h) RSA_CLIENT)
  else
    let digests := p + sz_signed_message + h_len h in
    body <- load_bytes buf (p + SIGNATURE_SIZE + 4)
              (h_len h + sz_signed_message - SIGNATURE_SIZE - 4) ;;
    proot <- MT_Make_Digest_From_Set (h_mt_index h)
               (fun di => load_bytes buf (digests + di * DIGEST_SIZE) DIGEST_SIZE)
               (make_digest body) (h_mt_num h) clear_dt ;;
    ret (OPENSSL_RSA_Verify_Signature proot sig (h_machine_id h) RSA_SERVER).

(** ** The specification: climbing a path *)
Fixpoint climb (n : Z) (d : digest) (path : list digest) : digest :=
  match path with
  | [] => d
  | s :: path' =>
      climb (n / 2) (make_digest (if Z.even n then d ++ s else s ++ d)) path'
  end.
End Merkle.

(** ** Index lemmas *)
Lemma MT_Parent_div n : 0 <= n -> MT_Parent n = n / 2.
Proof. intros. unfold MT_Parent. apply Z.quot_div_nonneg; lia. Qed.

Lemma MT_S_spec n : 0 <= n -> MT_S n = if Z.even n then n + 1 else n - 1.
Proof.
  intros Hn. unfold MT_S. rewrite Z.rem_mod_nonneg, Zmod_even by lia.
  destruct (Z.even n); reflexivity.
Qed.

Lemma half_even n : Z.even n = true -> n = 2 * (n / 2).
Proof. intros H. pose proof (Z.div_mod n 2). rewrite Zmod_even, H in H0. lia. Qed.

Lemma half_odd n : Z.even n = false -> n = 2 * (n / 2) + 1.
Proof. intros H. pose proof (Z.div_mod n 2). rewrite Zmod_even, H in H0. lia. Qed.

Lemma half_bounds n : 2 <= n -> 1 <= n / 2 < n /\ 2 * (n / 2) <= n < 2 * (n / 2) + 2.
Proof.
  intros Hn. pose proof (Z.div_mod n 2 ltac:(lia)).
  pose proof (Z.mod_pos_bound n 2 ltac:(lia)). lia.
Qed.

Lemma sibling_bounds n : 2 <= n -> 1 < MT_S n /\ MT_S n <> n /\ MT_S n <= n + 1 /\ n / 2 <> MT_S n /\ n / 2 <> n.
Proof.
  intros Hn. pose proof (half_bounds n Hn). rewrite MT_S_spec by lia.
  destruct (Z.even n) eqn:E;
    [apply half_even in E|apply half_odd in E]; lia.
Qed.

Lemma sibling_in_dt n : 2 <= n < DT_SIZE -> MT_S n < DT_SIZE.
Proof.
  unfold DT_SIZE. intros Hn. rewrite MT_S_spec by lia.
  destruct (Z.even n) eqn:E; [apply half_even in E|apply half_odd in E]; lia.
Qed.

(** A node and its sibling are the two children of their parent. *)
Lemma children_of_parent n :
  2 <= n ->
  (MT_C1 (n / 2), MT_C2 (n / 2)) =
  if Z.even n then (n, MT_S n) else (MT_S n, n).
Proof.
  intros Hn. unfold MT_C1, MT_C2. rewrite MT_S_spec by lia.
  destruct (Z.even n) eqn:E;
    [apply half_even in E|apply half_odd in E]; f_equal; lia.
Qed.

Lemma log2_half n : 2 <= n -> Z.log2 n = 1 + Z.log2 (n / 2).
Proof.
  intros Hn. pose proof (half_bounds n Hn) as Hb.
  destruct (Z.even n) eqn:E.
  - rewrite (half_even n E) at 1. rewrite Z.log2_double by lia. lia.
  - rewrite (half_odd n E) at 1. rewrite Z.log2_succ_double by lia. lia.
Qed.

Section MerkleCorrect.
Context {crypto : Crypto} {S : Type}.
Implicit Types (dt : list digest) (path : list digest) (s : S).

(** Every inner node below [mt_num] is the digest of its two children. *)
Definition tree_ok (mt_num : Z) (dt : list digest) : Prop :=
  Z.of_nat (length dt) = DT_SIZE /\
  forall n, 1 <= n < mt_num ->
  exists c1 c2, aget dt (MT_C1 n) = Some c1 /\ aget dt (MT_C2 n) = Some c2 /\
                aget dt n = Some (make_digest (c1 ++ c2)).

(** The siblings met when climbing from [n]: the path the code appends. *)
Fixpoint siblings (fuel : nat) (dt : list digest) (n : Z) : option (list digest) :=
  match fuel with
  | O => Some []
  | Datatypes.S k =>
      d ← aget dt (MT_S n); ds ← siblings k dt (n / 2); Some (d :: ds)
  end.

Lemma spec_make_node (P : S -> Prop) dt n :
  Z.of_nat (length dt) = DT_SIZE -> 1 <= n < 256 ->
  spec no_fault P (make_node dt n)
    (fun dt' s => P s /\ Z.of_nat (length dt') = DT_SIZE /\
      (exists c1 c2, aget dt (MT_C1 n) = Some c1 /\ aget dt (MT_C2 n) = Some c2 /\
         aget dt' n = Some (make_digest (c1 ++ c2))) /\
      forall m, m <> n -> aget dt' m = aget dt m).
Proof.
  intros Hl Hn. unfold DT_SIZE in *. unfold make_node, MT_C1, MT_C2.
  destruct (aget_is_Some dt (2 * n) ltac:(lia)) as [c1 H1].
  destruct (aget_is_Some dt (2 * n + 1) ltac:(lia)) as [c2 H2].
  eapply spec_bind; [apply spec_or_oob_Some, H1|]. intros ? s [-> Hs].
  revert s Hs. eapply spec_bind; [apply spec_or_oob_Some, H2|].
  intros ? s [-> Hs]. pose proof (aset_Some dt n (make_digest (c1 ++ c2)) ltac:(lia)) as He.
  unfold or_oob, ret. rewrite He. split; [exact Hs|]. split; [|split].
  - rewrite (aset_length _ _ _ _ He). exact Hl.
  - exists c1, c2. split; [exact H1|split; [exact H2|]]. apply (aget_aset_eq _ _ _ _ He).
  - intros m Hm. apply (aget_aset_ne _ _ _ _ _ He). congruence.
Qed.

(** Building the tree makes it well formed and keeps the leaves. *)
Lemma Make_Digest_From_All_ok (P : S -> Prop) mt_num dt :
  1 <= mt_num <= 256 -> Z.of_nat (length dt) = DT_SIZE ->
  spec no_fault P (MT_Make_Digest_From_All mt_num dt)
    (fun dt' s => P s /\ tree_ok mt_num dt' /\
                  forall m, mt_num <= m -> aget dt' m = aget dt m).
Proof.
  intros Hm Hl. unfold MT_Make_Digest_From_All.
  set (I := fun (i : Z) (x : Z * list digest) =>
    0 <= i /\ fst x = mt_num - 1 - i /\ Z.of_nat (length (snd x)) = DT_SIZE /\
    (forall n, mt_num - 1 - i < n < mt_num ->
       exists c1 c2, aget (snd x) (MT_C1 n) = Some c1 /\ aget (snd x) (MT_C2 n) = Some c2 /\
                     aget (snd x) n = Some (make_digest (c1 ++ c2))) /\
    forall m, mt_num <= m -> aget (snd x) m = aget dt m).
  eapply spec_bind.
  - apply (spec_for_idx no_fault P I (fun _ => False)); [lia| |].
    + intros i [n d] Hi (Hi0 & Hn & Hld & Ht & Hk). cbn [fst snd] in *.
      eapply spec_bind; [apply (spec_make_node P d n Hld); lia|].
      intros d' s (Hs & Hl' & (c1 & c2 & E1 & E2 & E) & Hne). split; [exact Hs|].
      cbn. repeat split; cbn [fst snd]; try lia; [|intros m Hmm; rewrite Hne by lia; auto].
      unfold MT_C1, MT_C2 in *. intros k Hk'. destruct (decide (k = n)) as [->|Hkn].
      * exists c1, c2. rewrite !Hne by lia. auto.
      * destruct (Ht k ltac:(lia)) as (a1 & a2 & A1 & A2 & A3).
        exists a1, a2. rewrite !Hne by lia. auto.
    + repeat split; cbn [fst snd]; auto; lia.
  - intros [[n d]|v] s [Hs HI]; [|destruct HI].
    destruct HI as (_ & _ & Hld & Ht & Hk). cbn in *.
    repeat split; auto. intros n' Hn'. apply Ht. lia.
Qed.

(** Verification recomputes the root by climbing. *)
Lemma Make_Digest_From_Set_climb (P : S -> Prop) mess_num mtnum d path read vdt :
  1 <= mess_num + mtnum - 1 < DT_SIZE -> Z.of_nat (length vdt) = DT_SIZE ->
  Z.of_nat (length path) = Z.log2 (mess_num + mtnum - 1) ->
  (forall i x, path !! i = Some x -> read (Z.of_nat i) = @ret S digest x) ->
  spec no_fault P (MT_Make_Digest_From_Set mess_num read d mtnum vdt)
    (fun r s => P s /\ r = climb (mess_num + mtnum - 1) d path).
Proof.
  intros Hn Hl Hp Hread. unfold MT_Make_Digest_From_Set, DT_SIZE in *.
  set (n0 := mess_num + mtnum - 1) in *.
  replace (sint32 n0) with n0.
  2:{ unfold sint32. rewrite wrap32_small by (unwrap; lia).
      rewrite (proj2 (Z.ltb_lt _ _)) by lia. reflexivity. }
  pose proof (aset_Some vdt n0 d ltac:(lia)) as He.
  eapply spec_bind; [apply spec_or_oob_Some, He|]. intros ? s [-> Hs].
  revert s Hs.
  set (I := fun '(n, di, v) => 1 <= n < 512 /\ 0 <= di /\
    Z.of_nat (length v) = DT_SIZE /\ di + Z.log2 n = Z.of_nat (length path) /\
    exists c, aget v n = Some c /\ climb n c (drop (Z.to_nat di) path) = climb n0 d path).
  eapply spec_bind.
  - apply (spec_while no_fault P I (fun _ => False) (fun '(n, _, _) => Z.log2 n)).
    + intros [[n di] v] (Hn1 & Hdi & Hlv & Hlog & c & Hc & Hcl) Hcond.
      apply Z.ltb_lt in Hcond.
      destruct (sibling_bounds n ltac:(lia)) as (Hs1 & Hs2 & Hs3 & Hs4 & Hs5).
      pose proof (half_bounds n ltac:(lia)) as Hh.
      rewrite (proj2 (Z.ltb_lt _ _) Hs1), MT_Parent_div by lia.
      pose proof (log2_half n ltac:(lia)) as Hlg.
      pose proof (Z.log2_nonneg (n / 2)) as Hlg0.
      destruct (lookup_lt_is_Some_2 path (Z.to_nat di) ltac:(lia)) as [x Hx].
      pose proof (Hread _ _ Hx) as Hr. rewrite Z2Nat.id in Hr by lia.
      pose proof (sibling_in_dt n ltac:(unfold DT_SIZE; lia)) as Hsd.
      pose proof (aset_Some v (MT_S n) x ltac:(unfold DT_SIZE in *; lia)) as Hset.
      set (v' := <[Z.to_nat (MT_S n) := x]> v) in *.
      assert (Hlv' : Z.of_nat (length v') = DT_SIZE)
        by (rewrite (aset_length _ _ _ _ Hset); exact Hlv).
      eapply spec_bind with (R := fun p s => P s /\ p = (di + 1, v')).
      { rewrite Hr. intros s Hs. unfold bind, ret. rewrite Hset. cbn. auto. }
      intros p s [Hs ->]. revert s Hs. cbn [fst snd].
      eapply spec_bind; [apply (spec_make_node P v' (n / 2) Hlv'); lia|].
      intros v'' s (Hs & Hl'' & (c1 & c2 & E1 & E2 & E) & _). split; [exact Hs|].
      pose proof (children_of_parent n ltac:(lia)) as Hch.
      assert (Hcc : (c1, c2) = if Z.even n then (c, x) else (x, c)).
      { pose proof (aget_aset_eq _ _ _ _ Hset) as Hgx.
        pose proof (aget_aset_ne _ _ _ n _ Hset ltac:(lia)) as Hgc.
        destruct (Z.even n); injection Hch as Hc1 Hc2; rewrite Hc1 in E1;
          rewrite Hc2 in E2; congruence. }
      split; [|lia].
      split; [lia|]. split; [lia|]. split; [exact Hl''|]. split; [lia|].
      exists (make_digest (c1 ++ c2)). split; [exact E|]. rewrite <- Hcl.
      rewrite (drop_S path x (Z.to_nat di) Hx). cbn [climb].
      replace (Z.to_nat (di + 1)) with (Datatypes.S (Z.to_nat di)) by lia.
      f_equal. destruct (Z.even n); injection Hcc as -> ->; reflexivity.
    + repeat split; try lia; [rewrite (aset_length _ _ _ _ He); exact Hl|].
      exists d. split; [apply (aget_aset_eq _ _ _ _ He)|reflexivity].
    + pose proof (Z.log2_nonneg n0). pose proof (Z.log2_le_mono n0 511 ltac:(lia)) as Hle.
      cbn in Hle. lia.
  - intros [[[n di] v]|v]; [|intros s [_ []]].
    intros s [Hs [(Hn1 & Hdi & Hlv & Hlog & c & Hc & Hcl) Hcond]].
    apply Z.ltb_ge in Hcond. assert (n = 1) as -> by lia.
    cbn in Hlog. rewrite Hc. cbn. split; [exact Hs|]. rewrite <- Hcl.
    rewrite drop_ge by lia. reflexivity.
Qed.

(** The path a message carries: the siblings up to the root. *)
Lemma Extract_Set_siblings (P : S -> Prop) mt_num mess_num dt :
  1 <= mess_num + mt_num - 1 < DT_SIZE -> Z.of_nat (length dt) = DT_SIZE ->
  spec no_fault P (MT_Extract_Set mt_num mess_num dt)
    (fun ds s => P s /\
       siblings (Z.to_nat (Z.log2 (mess_num + mt_num - 1))) dt (mess_num + mt_num - 1)
       = Some ds).
Proof.
  intros Hn Hl. unfold MT_Extract_Set, DT_SIZE in *. set (n0 := mess_num + mt_num - 1) in *.
  set (I := fun '(n, ds) => 1 <= n < 512 /\
    forall rest, siblings (Z.to_nat (Z.log2 n)) dt n = Some rest ->
      siblings (Z.to_nat (Z.log2 n0)) dt n0 = Some (ds ++ rest)).
  eapply spec_bind.
  - apply (spec_while no_fault P I (fun _ => False) (fun '(n, _) => Z.log2 n)).
    + intros [n ds] (Hn1 & Hsib) Hcond. apply Z.ltb_lt in Hcond.
      destruct (sibling_bounds n ltac:(lia)) as (Hs1 & _ & Hs3 & _).
      rewrite (proj2 (Z.ltb_lt _ _) Hs1), MT_Parent_div by lia.
      pose proof (half_bounds n ltac:(lia)). pose proof (log2_half n ltac:(lia)) as Hlg.
      pose proof (Z.log2_nonneg (n / 2)) as Hlg0.
      pose proof (sibling_in_dt n ltac:(unfold DT_SIZE; lia)) as Hsd.
      destruct (aget_is_Some dt (MT_S n) ltac:(unfold DT_SIZE in *; lia)) as [x Hx].
      eapply spec_bind; [apply spec_or_oob_Some, Hx|]. intros y s [-> Hs].
      split; [exact Hs|]. split; [|lia]. split; [lia|]. intros rest Hrest.
      rewrite <- app_assoc. apply Hsib.
      replace (Z.to_nat (Z.log2 n)) with (Datatypes.S (Z.to_nat (Z.log2 (n / 2)))) by lia.
      cbn [siblings]. rewrite Hx. cbn. rewrite Hrest. reflexivity.
    + split; [lia|]. intros rest H. exact H.
    + pose proof (Z.log2_nonneg n0). pose proof (Z.log2_le_mono n0 511 ltac:(lia)) as Hle.
      cbn in Hle. lia.
  - intros [[n ds]|v]; [|intros s [_ []]].
    intros s [Hs [(Hn1 & Hsib) Hcond]]. apply Z.ltb_ge in Hcond.
    assert (n = 1) as -> by lia. cbn. split; [exact Hs|].
    rewrite <- (app_nil_r ds). apply Hsib. reflexivity.
Qed.

Lemma siblings_length k dt n ds : siblings k dt n = Some ds -> length ds = k.
Proof.
  revert n ds. induction k as [|k IH]; intros n ds; cbn; [intros [= <-]; reflexivity|].
  destruct (aget dt (MT_S n)); [|discriminate]. cbn.
  destruct (siblings k dt (n / 2)) eqn:E; [|discriminate]. cbn. intros [= <-].
  cbn. f_equal. eauto.
Qed.

(** In a well-formed tree, climbing along the siblings ends at the root. *)
Lemma climb_siblings k mt_num dt n d ds :
  tree_ok mt_num dt -> 1 <= n < 2 * mt_num -> Z.log2 n = Z.of_nat k ->
  aget dt n = Some d -> siblings k dt n = Some ds ->
  aget dt 1 = Some (climb n d ds).
Proof.
  intros [Hl Ht]. revert n d ds. induction k as [|k IH]; intros n d ds Hn Hlog Hd.
  - cbn. intros [= <-]. cbn. assert (n = 1) as -> by
      (apply Z.log2_null in Hlog; lia). exact Hd.
  - cbn [siblings]. destruct (aget dt (MT_S n)) as [x|] eqn:Hx; [|discriminate]. cbn.
    destruct (siblings k dt (n / 2)) as [ds'|] eqn:Hs; [|discriminate]. cbn.
    intros [= <-]. cbn [climb].
    assert (Hn2 : 2 <= n).
    { destruct (Z.le_gt_cases n 1); [|lia]. assert (n = 1) as -> by lia. cbn in Hlog. lia. }
    pose proof (half_bounds n Hn2). pose proof (log2_half n Hn2).
    destruct (Ht (n / 2)) as (c1 & c2 & E1 & E2 & E).
    { pose proof (Z.div_lt_upper_bound n 2 mt_num). lia. }
    apply (IH (n / 2)); [lia|lia| |exact Hs]. rewrite E. do 2 f_equal.
    pose proof (children_of_parent n Hn2) as Hch.
    destruct (Z.even n); injection Hch as Hc1 Hc2; rewrite Hc1 in E1;
      rewrite Hc2 in E2; congruence.
Qed.

(** What climbing a path hashes. *)
Fixpoint hashed (n : Z) (d : digest) (path : list digest) : list (list byte) :=
  match path with
  | [] => []
  | x :: path' =>
      let pair := if Z.even n then d ++ x else x ++ d in
      pair :: hashed (n / 2) (make_digest pair) path'
  end.

(** What building the tree hashes: the children of an inner node. *)
Definition tree_pair (mt_num : Z) (dt : list digest) (y : list byte) : Prop :=
  exists n c1 c2, 1 <= n < mt_num /\ aget dt (MT_C1 n) = Some c1 /\
    aget dt (MT_C2 n) = Some c2 /\ y = c1 ++ c2.

Definition collides (xs : list (list byte)) (tree : list byte -> Prop) : Prop :=
  exists x y, x ∈ xs /\ tree y /\ x <> y /\ make_digest x = make_digest y.

(** A whole digest determines its half of a pair. *)
Lemma pair_inj (b : bool) (d c x y : digest) :
  length d = length c ->
  (if b then d ++ x else x ++ d) = (if b then c ++ y else y ++ c) -> d = c /\ x = y.
Proof.
  intros Hl H. destruct b; [apply app_inj_1 in H|apply app_inj_2 in H]; tauto.
Qed.

(** A path that leads to the root of a well-formed tree is the path of the tree,
    or shows a collision. *)
Lemma climb_binds (ok : CryptoOk crypto) k mt_num dt n d c path ds :
  tree_ok mt_num dt -> 1 <= n < 2 * mt_num -> Z.log2 n = Z.of_nat k ->
  Z.of_nat (length d) = DIGEST_SIZE -> Z.of_nat (length c) = DIGEST_SIZE ->
  length path = k -> aget dt n = Some c -> siblings k dt n = Some ds ->
  aget dt 1 = Some (climb n d path) ->
  d = c /\ path = ds \/ collides (hashed n d path) (tree_pair mt_num dt).
Proof.
  intros [Hl Ht]. revert n d c path ds.
  induction k as [|k IH]; intros n d c [|x path] ds Hn Hlog Hd Hc Hp Hnc; try discriminate.
  - cbn. intros [= <-] Hr. assert (n = 1) as -> by (apply Z.log2_null in Hlog; lia).
    left. split; congruence.
  - cbn [siblings climb hashed]. destruct (aget dt (MT_S n)) as [y|] eqn:Hy; [|discriminate].
    cbn. destruct (siblings k dt (n / 2)) as [ds'|] eqn:Hs; [|discriminate]. cbn.
    intros [= <-] Hr.
    assert (Hn2 : 2 <= n).
    { destruct (Z.le_gt_cases n 1); [|lia]. assert (n = 1) as -> by lia. cbn in Hlog. lia. }
    pose proof (half_bounds n Hn2). pose proof (log2_half n Hn2).
    assert (Hhalf : 1 <= n / 2 < mt_num)
      by (pose proof (Z.div_lt_upper_bound n 2 mt_num); lia).
    destruct (Ht (n / 2) Hhalf) as (c1 & c2 & E1 & E2 & E).
    assert (Hpair : c1 ++ c2 = if Z.even n then c ++ y else y ++ c).
    { pose proof (children_of_parent n Hn2) as Hch.
      destruct (Z.even n); injection Hch as Hc1 Hc2; rewrite Hc1 in E1;
        rewrite Hc2 in E2; congruence. }
    set (p := if Z.even n then d ++ x else x ++ d) in *.
    destruct (IH (n / 2) (make_digest p) (make_digest (c1 ++ c2)) path ds')
      as [[He ->]|(u & v & Hu & Hv & Hne & He)];
      [lia|lia|apply make_digest_length|apply make_digest_length|
       cbn in Hp; lia|exact E|exact Hs|exact Hr| |].
    + destruct (decide (p = c1 ++ c2)) as [Hpc|Hpc].
      * left. unfold p in Hpc. rewrite Hpair in Hpc. apply pair_inj in Hpc as [-> ->]; [auto|lia].
      * right. exists p, (c1 ++ c2). split; [left|]. split; [|auto]. exists (n / 2). eauto 10.
    + right. exists u, v. split; [right; exact Hu|auto].
Qed.
End MerkleCorrect.

(** ** Properties *)
Lemma log2_leaf k i : 0 <= k -> 1 <= i <= 2 ^ k -> Z.log2 (i + 2 ^ k - 1) = k.
Proof.
  intros Hk Hi. apply Z.log2_unique; [lia|]. rewrite Z.pow_succ_r by lia. lia.
Qed.

Lemma pow2_le_256 k : 0 <= k <= 8 -> 1 <= 2 ^ k <= 256.
Proof.
  intros Hk. pose proof (Z.pow_le_mono_r 2 0 k ltac:(lia) ltac:(lia)).
  pose proof (Z.pow_le_mono_r 2 k 8 ltac:(lia) ltac:(lia)). cbn in *. lia.
Qed.

Lemma MT_Digests_pow2 {S : Type} (s : S) k :
  0 <= k <= 8 -> MT_Digests_ (2 ^ k) s = Ret (k, s).
Proof.
  intros Hk.
  assert (k = 0 \/ k = 1 \/ k = 2 \/ k = 3 \/ k = 4 \/ k = 5 \/ k = 6 \/ k = 7 \/ k = 8)
    as Hc by lia.
  repeat destruct Hc as [->|Hc]; try reflexivity. subst k. reflexivity.
Qed.

(** What building the tree and extracting a path establish. *)
Lemma merkle_roundtrip_facts {crypto : Crypto} {S : Type} (s : S) (k i : Z)
    (dt dt' ds : list digest) (leaf root : digest) :
  0 <= k <= 8 -> 1 <= i <= 2 ^ k -> Z.of_nat (length dt) = DT_SIZE ->
  MT_Make_Digest_From_All (2 ^ k) dt s = Ret (dt', s) ->
  MT_Extract_Set (2 ^ k) i dt' s = Ret (ds, s) ->
  aget dt (MT_L (2 ^ k) i) = Some leaf -> aget dt' 1 = Some root ->
  climb (i + 2 ^ k - 1) leaf ds = root /\ Z.of_nat (length ds) = k.
Proof.
  intros Hk Hi Hl E1 E2 Hlf Hroot. pose proof (pow2_le_256 k Hk) as Hp.
  pose proof (log2_leaf k i ltac:(lia) Hi) as Hlog.
  pose proof (Make_Digest_From_All_ok (fun t => t = s) (2 ^ k) dt Hp Hl s eq_refl) as H1.
  rewrite E1 in H1. destruct H1 as (_ & Hok & Hleaf).
  pose proof (Extract_Set_siblings (fun t => t = s) (2 ^ k) i dt'
    ltac:(unfold DT_SIZE; lia) (proj1 Hok) s eq_refl) as H2.
  rewrite E2 in H2. destruct H2 as (_ & Hsib). rewrite Hlog in Hsib.
  split; [|rewrite (siblings_length _ _ _ _ Hsib); lia].
  pose proof (climb_siblings (Z.to_nat k) (2 ^ k) dt' (i + 2 ^ k - 1) leaf ds Hok
    ltac:(lia) ltac:(lia)) as Hc.
  rewrite Hleaf in Hc by lia. unfold MT_L in Hlf.
  replace (2 ^ k - 1 + i) with (i + 2 ^ k - 1) in Hlf by lia.
  specialize (Hc Hlf Hsib). congruence.
Qed.

(** Building the tree over the leaves and extracting a path, with what ties the
    two: the tree is well formed and the path is the siblings of the leaf. *)
Lemma merkle_built {crypto : Crypto} {S : Type} (s : S) (k i : Z) (dt : list digest)
    (leaf : digest) :
  0 <= k <= 8 -> 1 <= i <= 2 ^ k -> Z.of_nat (length dt) = DT_SIZE ->
  aget dt (MT_L (2 ^ k) i) = Some leaf ->
  exists dt' ds root,
    tree_ok (2 ^ k) dt' /\
    MT_Make_Digest_From_All (2 ^ k) dt s = Ret (dt', s) /\ aget dt' 1 = Some root /\
    MT_Extract_Set (2 ^ k) i dt' s = Ret (ds, s) /\
    siblings (Z.to_nat k) dt' (i + 2 ^ k - 1) = Some ds /\ Z.of_nat (length ds) = k /\
    aget dt' (i + 2 ^ k - 1) = Some leaf.
Proof.
  intros Hk Hi Hl Hlf. pose proof (pow2_le_256 k Hk) as Hp.
  destruct (spec_no_fault (fun t => t = s) _ _ s
    (Make_Digest_From_All_ok _ (2 ^ k) dt Hp Hl) eq_refl)
    as (dt' & s1 & E1 & -> & Hok & Hleaves).
  destruct (spec_no_fault (fun t => t = s) _ _ s
    (Extract_Set_siblings _ (2 ^ k) i dt' ltac:(unfold DT_SIZE; lia) (proj1 Hok)) eq_refl)
    as (ds & s2 & E2 & -> & Hsib).
  destruct (aget_is_Some dt' 1 ltac:(rewrite (proj1 Hok); unfold DT_SIZE; lia))
    as [root Hroot].
  rewrite log2_leaf in Hsib by lia. exists dt', ds, root.
  repeat (split; [assumption|]). split; [rewrite (siblings_length _ _ _ _ Hsib); lia|].
  rewrite Hleaves by lia. rewrite <- Hlf. f_equal. unfold MT_L. lia.
Qed.

(** Checking a path of the right length climbs it. *)
Lemma checked_is_climb {crypto : Crypto} {S : Type} (s : S) (k i : Z) (path : list digest)
    (d : digest) :
  0 <= k <= 8 -> 1 <= i <= 2 ^ k -> Z.of_nat (length path) = k ->
  exists r,
    MT_Make_Digest_From_Set i (fun di => or_oob (aget path di)) d (2 ^ k) clear_dt s
      = Ret (r, s) /\ r = climb (i + 2 ^ k - 1) d path.
Proof.
  intros Hk Hi Hp. pose proof (pow2_le_256 k Hk).
  destruct (spec_no_fault (fun t => t = s) _ _ s
    (Make_Digest_From_Set_climb _ i (2 ^ k) d path (fun di => or_oob (aget path di)) clear_dt
       ltac:(unfold DT_SIZE; lia) eq_refl ltac:(rewrite log2_leaf; lia)
       ltac:(intros j x Hj; cbv beta; rewrite (aget_lookup _ _ _ Hj); reflexivity)) eq_refl)
    as (r & s3 & E3 & -> & ->).
  eauto.
Qed.

(** A batch signature can be checked by every message of the batch: in the
    tree built over any 2^k <= 256 leaves by MT_Make_Digest_From_All, the
    digests MT_Extract_Set appends to message i let MT_Make_Digest_From_Set
    recompute the root from message i's digest alone; there are k of them, the
    number MT_Digests_ gives for the tree, and no array access is out of bounds. *)
Theorem merkle_roundtrip {crypto : Crypto} {S : Type} (s : S) (k i : Z)
    (dt : list digest) :
  0 <= k <= 8 -> 1 <= i <= 2 ^ k -> Z.of_nat (length dt) = DT_SIZE ->
  exists dt' ds leaf root,
    MT_Make_Digest_From_All (2 ^ k) dt s = Ret (dt', s) /\
    MT_Extract_Set (2 ^ k) i dt' s = Ret (ds, s) /\
    aget dt (MT_L (2 ^ k) i) = Some leaf /\ aget dt' 1 = Some root /\
    MT_Make_Digest_From_Set i (fun di => or_oob (aget ds di)) leaf (2 ^ k) clear_dt s
      = Ret (root, s) /\
    Z.of_nat (length ds) = k /\ MT_Digests_ (2 ^ k) s = Ret (k, s).
Proof.
  intros Hk Hi Hl. pose proof (pow2_le_256 k Hk) as Hp.
  destruct (aget_is_Some dt (MT_L (2 ^ k) i) ltac:(unfold MT_L, DT_SIZE in *; lia))
    as [leaf Hlf].
  destruct (merkle_built s k i dt leaf Hk Hi Hl Hlf)
    as (dt' & ds & root & Hok & E1 & Hroot & E2 & Hsib & Hlen & Hn).
  destruct (merkle_roundtrip_facts s k i dt dt' ds leaf root Hk Hi Hl E1 E2 Hlf Hroot)
    as [Hclimb _].
  destruct (checked_is_climb s k i ds leaf Hk Hi Hlen) as (r & E3 & ->).
  exists dt', ds, leaf, root. rewrite Hclimb in E3. repeat (split; [assumption|]).
  apply MT_Digests_pow2. exact Hk.
Qed.

Lemma merkle_roundtrip_witness :
  exists dt' ds leaf root,
    MT_Make_Digest_From_All (crypto := toy) (2 ^ 2) clear_dt tt = Ret (dt', tt) /\
    MT_Extract_Set (2 ^ 2) 3 dt' tt = Ret (ds, tt) /\
    aget clear_dt (MT_L (2 ^ 2) 3) = Some leaf /\ aget dt' 1 = Some root /\
    MT_Make_Digest_From_Set (crypto := toy) 3 (fun di => or_oob (aget ds di)) leaf (2 ^ 2)
      clear_dt tt = Ret (root, tt) /\
    Z.of_nat (length ds) = 2 /\ MT_Digests_ (2 ^ 2) tt = Ret (2, tt).
Proof. apply (@merkle_roundtrip toy unit tt 2 3 clear_dt); [lia|lia|reflexivity]. Defined.

(** C40. A Merkle path binds the leaf.  MT_Make_Digest_From_All over 2^k <= 256
    leaves leaves a root in dt[1], and MT_Extract_Set gives message i a path of k
    digests.  Given any digest and any path of k digests to check at position i,
    MT_Make_Digest_From_Set returns a digest, inside its arrays; for leaf i and
    its extracted path that is the root, and if it is the root for anything else
    then a pair of digests hashed on the way up and a pair hashed for an inner
    node of the tree are two different inputs with the same SHA-1 digest. *)
Theorem merkle_binding {crypto : Crypto} {S : Type} (ok : CryptoOk crypto) (s : S) (k i : Z)
    (dt : list digest) (leaf : digest) :
  0 <= k <= 8 -> 1 <= i <= 2 ^ k -> Z.of_nat (length dt) = DT_SIZE ->
  aget dt (MT_L (2 ^ k) i) = Some leaf -> Z.of_nat (length leaf) = DIGEST_SIZE ->
  exists dt' ds root,
    MT_Make_Digest_From_All (2 ^ k) dt s = Ret (dt', s) /\ aget dt' 1 = Some root /\
    MT_Extract_Set (2 ^ k) i dt' s = Ret (ds, s) /\ Z.of_nat (length ds) = k /\
    forall d path, Z.of_nat (length d) = DIGEST_SIZE -> Z.of_nat (length path) = k ->
    exists r,
      MT_Make_Digest_From_Set i (fun di => or_oob (aget path di)) d (2 ^ k) clear_dt s
        = Ret (r, s) /\
      (d = leaf /\ path = ds -> r = root) /\
      (r = root -> d = leaf /\ path = ds \/
                   collides (hashed (i + 2 ^ k - 1) d path) (tree_pair (2 ^ k) dt')).
Proof.
  intros Hk Hi Hl Hleaf Hwhole.
  destruct (merkle_built s k i dt leaf Hk Hi Hl Hleaf)
    as (dt' & ds & root & Hok & E1 & Hroot & E2 & Hsib & Hlen & Hn).
  exists dt', ds, root. repeat (split; [assumption|]). intros d path Hd Hp.
  destruct (checked_is_climb s k i path d Hk Hi Hp) as (r & E & ->).
  exists (climb (i + 2 ^ k - 1) d path). split; [exact E|].
  pose proof (climb_siblings (Z.to_nat k) (2 ^ k) dt' (i + 2 ^ k - 1) leaf ds Hok) as Hc.
  pose proof (log2_leaf k i ltac:(lia) Hi) as Hlog. split.
  - intros [-> ->]. specialize (Hc ltac:(lia) ltac:(lia) Hn Hsib). congruence.
  - intros Hr. rewrite <- Hr in Hroot.
    apply (climb_binds ok (Z.to_nat k)) with (c := leaf) (ds := ds); try assumption; lia.
Qed.

Lemma merkle_binding_witness :
  exists dt' ds root,
    MT_Make_Digest_From_All (crypto := toy) (2 ^ 2) clear_dt tt = Ret (dt', tt) /\
    aget dt' 1 = Some root /\
    MT_Extract_Set (2 ^ 2) 3 dt' tt = Ret (ds, tt) /\ Z.of_nat (length ds) = 2 /\
    forall d path, Z.of_nat (length d) = DIGEST_SIZE -> Z.of_nat (length path) = 2 ->
    exists r,
      MT_Make_Digest_From_Set (crypto := toy) 3 (fun di => or_oob (aget path di)) d (2 ^ 2)
        clear_dt tt = Ret (r, tt) /\
      (d = zero_digest /\ path = ds -> r = root) /\
      (r = root -> d = zero_digest /\ path = ds \/
        collides (crypto := toy) (hashed (crypto := toy) (3 + 2 ^ 2 - 1) d path)
          (tree_pair (2 ^ 2) dt')).
Proof.
  apply (@merkle_binding toy unit toy_ok tt 2 3 clear_dt zero_digest);
    [lia|lia|reflexivity|reflexivity|reflexivity].
Defined.

(** MT_Set_Num chooses the least power of two that holds the batch, and
    MT_Digests_ is its logarithm rounded up, for every batch the code allows. *)
Theorem MT_Set_Num_spec {S : Type} (s : S) (n : Z) :
  1 <= n <= 256 ->
  MT_Set_Num n s = Ret (2 ^ Z.log2_up n, s) /\ MT_Digests_ n s = Ret (Z.log2_up n, s).
Proof.
  intros Hn.
  assert (H : forall m, In m (map Z.of_nat (List.seq 1 256)) ->
    @MT_Set_Num S m = ret (2 ^ Z.log2_up m) /\ @MT_Digests_ S m = ret (Z.log2_up m)).
  { apply List.Forall_forall. repeat constructor. }
  destruct (H n) as [E1 E2].
  { apply in_map_iff. exists (Z.to_nat n). split; [lia|]. apply in_seq. lia. }
  rewrite E1, E2. split; reflexivity.
Qed.

Lemma MT_Set_Num_spec_witness :
  MT_Set_Num 9 tt = Ret (2 ^ Z.log2_up 9, tt) /\ MT_Digests_ 9 tt = Ret (Z.log2_up 9, tt).
Proof. apply (MT_Set_Num_spec tt 9). lia. Defined.

(** A whole signed batch message verifies: when the bytes of a message
    after its signature, [mt_num] and [mt_index] hash to leaf i of the tree and
    its trailing digests are the ones MT_Extract_Set produced, MT_Verify accepts
    exactly when the server's RSA signature on the root is valid. *)
Theorem MT_Verify_batch {crypto : Crypto} {S : Type} (s : S) (buf : list byte) (p k : Z)
    (h : header) (sig body : list byte) (dt dt' ds : list digest) (root : digest) :
  0 <= k <= 8 -> h_mt_num h = 2 ^ k -> 1 <= h_mt_index h <= 2 ^ k ->
  h_type h <> type_val UPDATE ->
  header_at buf p = Some h -> slice buf p SIGNATURE_SIZE = Some sig ->
  slice buf (p + SIGNATURE_SIZE + 4)
    (h_len h + sz_signed_message - SIGNATURE_SIZE - 4) = Some body ->
  Z.of_nat (length dt) = DT_SIZE ->
  aget dt (MT_L (2 ^ k) (h_mt_index h)) = Some (make_digest body) ->
  MT_Make_Digest_From_All (2 ^ k) dt s = Ret (dt', s) -> aget dt' 1 = Some root ->
  MT_Extract_Set (2 ^ k) (h_mt_index h) dt' s = Ret (ds, s) ->
  (forall i x, ds !! i = Some x ->
     slice buf (p + sz_signed_message + h_len h + Z.of_nat i * DIGEST_SIZE) DIGEST_SIZE
     = Some x) ->
  MT_Verify buf p s =
    Ret (OPENSSL_RSA_Verify_Signature root sig (h_machine_id h) RSA_SERVER, s).
Proof.
  intros Hk Hnum Hidx Hty Hh Hsig Hbody Hl Hleaf Hall Hroot Hext Hds.
  destruct (merkle_roundtrip_facts s k (h_mt_index h) dt dt' ds (make_digest body) root
    Hk Hidx Hl Hall Hext Hleaf Hroot) as [Hclimb Hlen].
  unfold MT_Verify, load_header, bind, or_oob. rewrite Hh. cbn [ret].
  unfold load_bytes at 1. rewrite Hsig. cbn [ret].
  rewrite (proj2 (Z.eqb_neq _ _) Hty). unfold load_bytes at 1. rewrite Hbody. cbn [ret].
  destruct (spec_no_fault (fun t => t = s) _ _ s
    (Make_Digest_From_Set_climb _ (h_mt_index h) (h_mt_num h) (make_digest body) ds
       (fun di => load_bytes buf (p + sz_signed_message + h_len h + di * DIGEST_SIZE) DIGEST_SIZE)
       clear_dt ltac:(pose proof (pow2_le_256 k Hk); unfold DT_SIZE; lia) eq_refl
       ltac:(rewrite Hnum, log2_leaf by lia; exact Hlen)
       ltac:(intros j x Hj; cbv beta; unfold load_bytes; rewrite (Hds j x Hj); reflexivity)) eq_refl)
    as (r & s3 & E3 & -> & ->).
  rewrite E3. rewrite Hnum, Hclimb. reflexivity.
Qed.

(** A COMMIT without content as the second leaf of a tree of two, the first
    leaf's digest trailing it. *)
Definition batch_header : header :=
  {| h_mt_num := 2; h_mt_index := 2; h_site_id := 1; h_machine_id := 3; h_len := 0;
     h_type := type_val COMMIT; h_incarnation := 5; h_monotonic_counter := 0 |}.
Definition batch_dt : list digest :=
  <[2%nat := le_encode 20 9]> (<[3%nat := le_encode 20 (sz_signed_message - SIGNATURE_SIZE - 4)]> clear_dt).
Definition batch_message : list byte :=
  encode_header (zeros SIGNATURE_SIZE) batch_header ++ le_encode 20 9.

Lemma MT_Verify_batch_witness :
  MT_Verify (crypto := toy) batch_message 0 tt =
    Ret (OPENSSL_RSA_Verify_Signature (crypto := toy) (le_encode 20 40)
           (zeros SIGNATURE_SIZE) 3 RSA_SERVER, tt).
Proof.
  apply (@MT_Verify_batch toy unit tt batch_message 0 1 batch_header (zeros SIGNATURE_SIZE)
    (drop 132 (encode_header (zeros SIGNATURE_SIZE) batch_header)) batch_dt
    (<[1%nat := le_encode 20 40]> batch_dt) [le_encode 20 9] (le_encode 20 40));
    try (vm_compute; reflexivity); try lia.
  - cbn. lia.
  - discriminate.
  - intros [|[|i]] x; cbn; intros [= <-]. vm_compute. reflexivity.
Defined.
