(* ===== verification/Utility.v ===== *)
(** Utilities of Prime: [prime/src/utility.c] (with [PRE_ORDER_Seq_Compare] of
    [pre_order.c], whose order is the same).

    Comparison functions, classification of message types, leaders of views,
    server bitmaps, the address table and the destination set of a pending
    message. *)
From Stdlib Require Import ZArith Lia List Bool String.
From Stdlib Require Import Strings.Byte.
From stdpp Require Import base list gmap strings fin_sets.
From S2P Require Import Prelude Memory Config Packets Merkle.

(** [po_seq_pair]: an incarnation and a sequence number in it. *)
Record po_seq_pair := mkPS { incarnation : Z; seq_num : Z }.

#[global] Instance po_seq_pair_eq_dec : EqDecision po_seq_pair.
Proof. solve_decision. Defined.

#[global] Instance po_seq_pair_countable : Countable po_seq_pair.
Proof.
  apply (inj_countable' (fun p => (incarnation p, seq_num p))
           (fun '(i, s) => mkPS i s)). intros []; reflexivity.
Defined.

(** ** Comparison functions *)
Definition intcmp (v1 v2 : Z) : Z :=
  if v1 <? v2 then -1 else if v2 <? v1 then 1 else 0.

Definition poseqcmp (p1 p2 : po_seq_pair) : Z :=
  if incarnation p1 <? incarnation p2 then -1
  else if incarnation p2 <? incarnation p1 then 1
  else if seq_num p1 <? seq_num p2 then -1
  else if seq_num p2 <? seq_num p1 then 1
  else 0.

Definition PRE_ORDER_Seq_Compare (p1 p2 : po_seq_pair) : Z :=
  if incarnation p1 <? incarnation p2 then -1
  else if incarnation p2 <? incarnation p1 then 1
  else if seq_num p1 <? seq_num p2 then -1
  else if seq_num p2 <? seq_num p1 then 1
  else 0.

(** ** Message sizes and classes *)
Section Messages.
Context {S : Type}.

(** [sizeof(signed_message) + m->len + MT_Digests_(m->mt_num) * DIGEST_SIZE],
    returned in an [int32u].  [MT_Digests_] exits on more than 256 leaves. *)
Definition UTIL_Message_Size (buf : list byte) (p : Z) : comp S Z :=
  len <- load buf 4 (p + o_signed_message_len) ;;
  mt_num <- load buf 2 (p + o_signed_message_mt_num) ;;
  d <- MT_Digests_ mt_num ;;
  ret (wrap32 (sz_signed_message + len + d * DIGEST_SIZE)).
End Messages.

Section Classes.
#[local] Open Scope string_scope.
#[local] Open Scope Z_scope.

Definition UTIL_Get_Timeliness (type : Z) : Z :=
  match type_of type with
  | Some PO_REQUEST => BOUNDED_TRAFFIC_CLASS
  | Some PO_ACK => BOUNDED_TRAFFIC_CLASS
  | Some PO_ARU => BOUNDED_TRAFFIC_CLASS
  | Some RECON => RECON_TRAFFIC_CLASS
  | Some PROOF_MATRIX => TIMELY_TRAFFIC_CLASS
  | Some PRE_PREPARE => TIMELY_TRAFFIC_CLASS
  | Some PREPARE => BOUNDED_TRAFFIC_CLASS
  | Some COMMIT => BOUNDED_TRAFFIC_CLASS
  | Some TAT_MEASURE => BOUNDED_TRAFFIC_CLASS
  | Some RTT_PING => TIMELY_TRAFFIC_CLASS
  | Some RTT_PONG => TIMELY_TRAFFIC_CLASS
  | Some RTT_MEASURE => BOUNDED_TRAFFIC_CLASS
  | Some TAT_UB => BOUNDED_TRAFFIC_CLASS
  | Some NEW_LEADER => BOUNDED_TRAFFIC_CLASS
  | Some NEW_LEADER_PROOF => BOUNDED_TRAFFIC_CLASS
  | Some RB_INIT => BOUNDED_TRAFFIC_CLASS
  | Some RB_ECHO => BOUNDED_TRAFFIC_CLASS
  | Some RB_READY => BOUNDED_TRAFFIC_CLASS
  | Some REPORT => BOUNDED_TRAFFIC_CLASS
  | Some PC_SET => BOUNDED_TRAFFIC_CLASS
  | Some VC_LIST => BOUNDED_TRAFFIC_CLASS
  | Some VC_PARTIAL_SIG => BOUNDED_TRAFFIC_CLASS
  | Some VC_PROOF => TIMELY_TRAFFIC_CLASS
  | Some REPLAY => TIMELY_TRAFFIC_CLASS
  | Some REPLAY_PREPARE => BOUNDED_TRAFFIC_CLASS
  | Some REPLAY_COMMIT => BOUNDED_TRAFFIC_CLASS
  | Some CATCHUP_REQUEST => BOUNDED_TRAFFIC_CLASS
  | Some ORD_CERT => BOUNDED_TRAFFIC_CLASS
  | Some PO_CERT => BOUNDED_TRAFFIC_CLASS
  | Some JUMP => BOUNDED_TRAFFIC_CLASS
  | Some NEW_INCARNATION => BOUNDED_TRAFFIC_CLASS
  | Some INCARNATION_ACK => BOUNDED_TRAFFIC_CLASS
  | Some INCARNATION_CERT => BOUNDED_TRAFFIC_CLASS
  | Some PENDING_STATE => BOUNDED_TRAFFIC_CLASS
  | Some PENDING_SHARE => BOUNDED_TRAFFIC_CLASS
  | Some RESET_VOTE => BOUNDED_TRAFFIC_CLASS
  | Some RESET_SHARE => BOUNDED_TRAFFIC_CLASS
  | Some RESET_PROPOSAL => BOUNDED_TRAFFIC_CLASS
  | Some RESET_PREPARE => BOUNDED_TRAFFIC_CLASS
  | Some RESET_COMMIT => BOUNDED_TRAFFIC_CLASS
  | Some RESET_NEWLEADER => BOUNDED_TRAFFIC_CLASS
  | Some RESET_NEWLEADERPROOF => BOUNDED_TRAFFIC_CLASS
  | Some RESET_VIEWCHANGE => BOUNDED_TRAFFIC_CLASS
  | Some RESET_NEWVIEW => BOUNDED_TRAFFIC_CLASS
  | Some RESET_CERT => BOUNDED_TRAFFIC_CLASS
  | _ => BOUNDED_TRAFFIC_CLASS
  end.

Definition UTIL_Get_Priority (type : Z) : Z :=
  match type_of type with
  | Some PO_REQUEST | Some PO_ACK | Some PO_ARU | Some PREPARE | Some
  COMMIT | Some RECON | Some TAT_MEASURE | Some RTT_MEASURE | Some TAT_UB
  | Some NEW_LEADER | Some NEW_LEADER_PROOF | Some RB_INIT | Some RB_ECHO
  | Some RB_READY | Some REPORT | Some PC_SET | Some VC_LIST | Some
  VC_PARTIAL_SIG | Some REPLAY_PREPARE | Some REPLAY_COMMIT | Some
  CATCHUP_REQUEST | Some ORD_CERT | Some PO_CERT | Some JUMP | Some
  NEW_INCARNATION | Some INCARNATION_ACK | Some INCARNATION_CERT | Some
  PENDING_STATE | Some PENDING_SHARE | Some RESET_VOTE | Some RESET_SHARE
  | Some RESET_PROPOSAL | Some RESET_PREPARE | Some RESET_COMMIT | Some
  RESET_NEWLEADER | Some RESET_NEWLEADERPROOF | Some RESET_VIEWCHANGE |
  Some RESET_NEWVIEW | Some RESET_CERT | Some UPDATE | Some
  CLIENT_RESPONSE => 2
  | Some RTT_PING | Some RTT_PONG => 4
  | Some PROOF_MATRIX | Some PRE_PREPARE | Some VC_PROOF | Some REPLAY => 6
  | _ => 0
  end.

Definition UTIL_Type_To_String (type : Z) : string :=
  match type_of type with
  | Some PO_REQUEST => "PO_REQUEST"%string
  | Some PO_ACK => "PO_ACK"%string
  | Some PO_ARU => "PO_ARU"%string
  | Some PROOF_MATRIX => "PROOF_MATRIX"%string
  | Some PRE_PREPARE => "PRE_PREPARE"%string
  | Some PREPARE => "PREPARE"%string
  | Some COMMIT => "COMMIT"%string
  | Some RECON => "RECON"%string
  | Some TAT_MEASURE => "TAT_MEASURE"%string
  | Some RTT_PING => "RTT_PING"%string
  | Some RTT_PONG => "RTT_PONG"%string
  | Some RTT_MEASURE => "RTT_MEASURE"%string
  | Some TAT_UB => "TAT_UB"%string
  | Some NEW_LEADER => "NEW_LEADER"%string
  | Some NEW_LEADER_PROOF => "NEW_LEADER_PROOF"%string
  | Some RB_INIT => "RB_INIT"%string
  | Some RB_ECHO => "RB_ECHO"%string
  | Some RB_READY => "RB_READY"%string
  | Some REPORT => "REPORT"%string
  | Some PC_SET => "PC_SET"%string
  | Some VC_LIST => "VC_LIST"%string
  | Some VC_PARTIAL_SIG => "VC_PARTIAL_SIG"%string
  | Some VC_PROOF => "VC_PROOF"%string
  | Some REPLAY => "REPLAY"%string
  | Some REPLAY_PREPARE => "REPLAY_PREPARE"%string
  | Some REPLAY_COMMIT => "REPLAY_COMMIT"%string
  | Some CATCHUP_REQUEST => "CATCHUP_REQUEST"%string
  | Some ORD_CERT => "ORD_CERT"%string
  | Some PO_CERT => "PO_CERT"%string
  | Some JUMP => "JUMP"%string
  | Some NEW_INCARNATION => "NEW_INCARNATION"%string
  | Some INCARNATION_ACK => "INCARNATION_ACK"%string
  | Some INCARNATION_CERT => "INCARNATION_CERT"%string
  | Some PENDING_STATE => "PENDING_STATE"%string
  | Some PENDING_SHARE => "PENDING_SHARE"%string
  | Some RESET_VOTE => "RESET_VOTE"%string
  | Some RESET_SHARE => "RESET_SHARE"%string
  | Some RESET_PROPOSAL => "RESET_PROPOSAL"%string
  | Some RESET_PREPARE => "RESET_PREPARE"%string
  | Some RESET_COMMIT => "RESET_COMMIT"%string
  | Some RESET_NEWLEADER => "RESET_NEWLEADER"%string
  | Some RESET_NEWLEADERPROOF => "RESET_NEWLEADERPROOF"%string
  | Some RESET_VIEWCHANGE => "RESET_VIEWCHANGE"%string
  | Some RESET_NEWVIEW => "RESET_NEWVIEW"%string
  | Some RESET_CERT => "RESET_CERT"%string
  | Some UPDATE => "UPDATE"%string
  | Some CLIENT_RESPONSE => "CLIENT_RESPONSE"%string
  | _ => "UKNOWN TYPE!"%string
  end.
End Classes.

Definition UTIL_I_Am_Faulty (VAR : server_variables) : Z :=
  if RECON_ATTACK && (My_Server_ID VAR <=? NUM_F) then 1 else 0.

(** ** Leaders *)
Definition UTIL_Leader_Of_View (view : Z) : Z :=
  let rep := view mod NUM_SERVERS in
  if rep =? 0 then NUM_SERVERS else rep.

(** [DATA.View] is an [int], passed as an [int32u]. *)
Definition UTIL_Leader (View : Z) : Z := UTIL_Leader_Of_View (wrap32 View).

Definition UTIL_I_Am_Leader (VAR : server_variables) (View : Z) : bool :=
  My_Server_ID VAR =? UTIL_Leader View.

(** ** Bitmaps of servers in an [int32u] *)
Definition bit_of (i : Z) : Z := i mod (4 * 8).

Definition UTIL_Bitmap_Set (bm i : Z) : Z := wrap32 (Z.lor bm (Z.shiftl 1 (bit_of i))).

Definition UTIL_Bitmap_Clear (bm i : Z) : Z :=
  Z.land bm (wrap32 (Z.lnot (Z.shiftl 1 (bit_of i)))).

Definition UTIL_Bitmap_Is_Set (bm i : Z) : bool :=
  negb (Z.land bm (Z.shiftl 1 (bit_of i)) =? 0).

Definition UTIL_Bitmap_Is_Superset (bm_old bm_new : Z) : bool :=
  let tmp1 := Z.lxor bm_old bm_new in
  let tmp2 := Z.land bm_old tmp1 in
  tmp2 =? 0.

Section Loops.
Context {S : Type}.

Definition UTIL_Bitmap_Num_Bits_Set (bm : Z) : comp S Z :=
  r <- for_ (R := Z) NUM_SERVERS
         (fun '(i, c) =>
            ret (inl (i + 1, if UTIL_Bitmap_Is_Set bm i then c + 1 else c)))
         (1, 0) ;;
  match r with
  | inl (_, c) => assert_ (0 <? c) ;;; ret c
  | inr c => ret c
  end.

(** ** Destinations of a pending message ([NET_Add_To_Pending_Messages]) *)
Record net_struct := mkNet {
  n_dest_bits : Z; n_timeliness : Z;
  n_num_remaining_destinations : Z; n_destinations : list Z }.

Definition mark_destination (VAR : server_variables) (wanted : Z -> bool)
    (x : Z * net_struct) : comp S (step_result (Z * net_struct) net_struct) :=
  let '(i, n) := x in
  if negb (i =? My_Server_ID VAR) && wanted i then
    ds <- or_oob (aset (n_destinations n) i 1) ;;
    ret (inl (i + 1, {| n_dest_bits := n_dest_bits n; n_timeliness := n_timeliness n;
                        n_num_remaining_destinations := n_num_remaining_destinations n + 1;
                        n_destinations := ds |}))
  else ret (inl (i + 1, n)).

Definition NET_Add_To_Pending_Messages (VAR : server_variables)
    (dest_bits timeliness : Z) : comp S net_struct :=
  let n0 := {| n_dest_bits := dest_bits; n_timeliness := timeliness;
               n_num_remaining_destinations := 0;
               n_destinations := repeat 0 (Z.to_nat NUM_SERVER_SLOTS) |} in
  if dest_bits =? BROADCAST then
    r <- for_ NUM_SERVERS (mark_destination VAR (fun _ => true)) (1, n0) ;;
    match r with
    | inl (_, n) =>
        assert_ (n_num_remaining_destinations n =? NUM_SERVERS - 1) ;;; ret n
    | inr n => ret n
    end
  else
    r <- for_ NUM_SERVERS (mark_destination VAR (UTIL_Bitmap_Is_Set dest_bits)) (1, n0) ;;
    match r with
    | inl (_, n) =>
        c <- UTIL_Bitmap_Num_Bits_Set dest_bits ;;
        assert_ (n_num_remaining_destinations n =? c) ;;; ret n
    | inr n => ret n
    end.

(** ** The address table

    A line of the configuration file, as [fscanf] assigns its five fields;
    the list ends where [fscanf] first fails to assign all of them. *)
Record addr_line := mkLine { l_server : Z; l_ip1 : Z; l_ip2 : Z; l_ip3 : Z; l_ip4 : Z }.

Definition line_addr (l : addr_line) : Z :=
  sint32 (Z.lor (Z.lor (Z.lor (Z.shiftl (l_ip1 l) 24) (Z.shiftl (l_ip2 l) 16))
                       (Z.shiftl (l_ip3 l) 8)) (l_ip4 l)).

Fixpoint store_lines (ls : list addr_line) (addrs : list Z) : comp S (list Z) :=
  match ls with
  | [] => ret addrs
  | l :: ls' =>
      let server := wrap32 (l_server l) in
      if (server <=? 0) || (NUM_SERVERS <? server) then raise Exit
      else
        a <- or_oob (aget addrs server) ;;
        if negb (a =? 0) then raise Exit
        else
          addrs' <- or_oob (aset addrs server (line_addr l)) ;;
          store_lines ls' addrs'
  end.

Definition Load_Addrs_From_File (ls : list addr_line) : comp S (list Z) :=
  addrs <- store_lines ls (repeat 0 (Z.to_nat NUM_SERVER_SLOTS)) ;;
  r <- for_ (R := list Z) NUM_SERVERS
         (fun server =>
            a <- or_oob (aget addrs server) ;;
            if a =? 0 then raise Exit else ret (inl (server + 1))) 1 ;;
  ret addrs.

Definition UTIL_Get_Server_Address (addrs : list Z) (server : Z) : comp S Z :=
  if (NUM_SERVERS <? server) || (server <=? 0) then ret 0
  else or_oob (aget addrs server).
End Loops.

(** The distinct Spines daemons, in order of first appearance: the loop of
    [UTIL_Load_Spines_Addresses] over servers [1..NUM_SERVERS]. *)
Fixpoint unique_daemons (servers : list Z) (daemons : list Z) : list Z :=
  match servers with
  | [] => daemons
  | a :: servers' =>
      if existsb (Z.eqb a) daemons then unique_daemons servers' daemons
      else unique_daemons servers' (daemons ++ [a])
  end.

Definition UTIL_Load_Spines_Addresses {S} (ls : list addr_line) : comp S (list Z * list Z) :=
  addrs <- Load_Addrs_From_File ls ;;
  ret (addrs, unique_daemons (drop 1 addrs) []).

(** ** Lemmas *)
Lemma bit_of_bounds i : 0 <= bit_of i < 32.
Proof. unfold bit_of. apply Z.mod_pos_bound. lia. Qed.

Lemma land_pow2 bm b :
  0 <= b -> Z.land bm (Z.shiftl 1 b) = if Z.testbit bm b then 2 ^ b else 0.
Proof.
  intros Hb. rewrite Z.shiftl_1_l. apply Z.bits_inj'. intros n Hn.
  rewrite Z.land_spec, Z.pow2_bits_eqb by lia.
  destruct (Z.eqb_spec b n) as [->|Hne].
  - destruct (Z.testbit bm n); [rewrite Z.pow2_bits_true by lia|rewrite Z.bits_0]; reflexivity.
  - rewrite andb_false_r. destruct (Z.testbit bm b).
    + rewrite Z.pow2_bits_false by lia. reflexivity.
    + rewrite Z.bits_0. reflexivity.
Qed.

Lemma Is_Set_testbit bm i : UTIL_Bitmap_Is_Set bm i = Z.testbit bm (bit_of i).
Proof.
  pose proof (bit_of_bounds i). unfold UTIL_Bitmap_Is_Set. rewrite land_pow2 by lia.
  destruct (Z.testbit bm (bit_of i)); [|reflexivity].
  pose proof (Z.pow_pos_nonneg 2 (bit_of i) ltac:(lia) ltac:(lia)).
  rewrite (proj2 (Z.eqb_neq _ 0)) by lia. reflexivity.
Qed.

Lemma wrap32_testbit z n : 0 <= n < 32 -> Z.testbit (wrap32 z) n = Z.testbit z n.
Proof.
  intros Hn. unwrap. change 4294967296 with (2 ^ 32). apply Z.mod_pow2_bits_low. lia.
Qed.

Lemma Set_testbit bm i n :
  0 <= n < 32 -> Z.testbit (UTIL_Bitmap_Set bm i) n = (bit_of i =? n) || Z.testbit bm n.
Proof.
  intros Hn. pose proof (bit_of_bounds i). unfold UTIL_Bitmap_Set.
  rewrite wrap32_testbit, Z.lor_spec, Z.shiftl_1_l, Z.pow2_bits_eqb by lia.
  apply orb_comm.
Qed.

Lemma Clear_testbit bm i n :
  0 <= n < 32 ->
  Z.testbit (UTIL_Bitmap_Clear bm i) n = negb (bit_of i =? n) && Z.testbit bm n.
Proof.
  intros Hn. pose proof (bit_of_bounds i). unfold UTIL_Bitmap_Clear.
  rewrite Z.land_spec, wrap32_testbit, Z.lnot_spec, Z.shiftl_1_l, Z.pow2_bits_eqb by lia.
  apply andb_comm.
Qed.

Lemma u32_testbit_high bm n : is_u32 bm -> 32 <= n -> Z.testbit bm n = false.
Proof.
  intros Hb Hn. unwrap. destruct (Z.eq_dec bm 0) as [->|H0]; [apply Z.bits_0|].
  apply Z.bits_above_log2; [lia|].
  pose proof (proj1 (Z.log2_lt_pow2 bm 32 ltac:(lia)) ltac:(lia)). lia.
Qed.

Lemma u32_of_testbits z : (forall n, 32 <= n -> Z.testbit z n = false) -> is_u32 z.
Proof.
  intros H. replace z with (wrap32 z); [apply wrap32_bounds|].
  apply Z.bits_inj'. intros n Hn. destruct (Z_lt_le_dec n 32).
  - apply wrap32_testbit. lia.
  - rewrite (H n) by lia. apply u32_testbit_high; [apply wrap32_bounds|lia].
Qed.

(** The server bitmaps behave as sets: setting a server adds exactly it,
    clearing removes exactly it, and both results stay 32-bit. *)
Theorem bitmap_set_clear_spec (bm i j : Z) :
  is_u32 bm ->
  UTIL_Bitmap_Is_Set (UTIL_Bitmap_Set bm i) j
    = (bit_of i =? bit_of j) || UTIL_Bitmap_Is_Set bm j /\
  UTIL_Bitmap_Is_Set (UTIL_Bitmap_Clear bm i) j
    = negb (bit_of i =? bit_of j) && UTIL_Bitmap_Is_Set bm j /\
  is_u32 (UTIL_Bitmap_Set bm i) /\ is_u32 (UTIL_Bitmap_Clear bm i).
Proof.
  intros Hb. pose proof (bit_of_bounds j). rewrite !Is_Set_testbit.
  split; [apply Set_testbit; lia|]. split; [apply Clear_testbit; lia|].
  split; [apply wrap32_bounds|].
  apply u32_of_testbits. intros n Hn. unfold UTIL_Bitmap_Clear.
  rewrite Z.land_spec, (u32_testbit_high bm n Hb Hn). reflexivity.
Qed.

Lemma bitmap_set_clear_spec_witness :
  UTIL_Bitmap_Is_Set (UTIL_Bitmap_Set 9 5) 5 = (bit_of 5 =? bit_of 5) || UTIL_Bitmap_Is_Set 9 5 /\
  UTIL_Bitmap_Is_Set (UTIL_Bitmap_Clear 9 5) 5
    = negb (bit_of 5 =? bit_of 5) && UTIL_Bitmap_Is_Set 9 5 /\
  is_u32 (UTIL_Bitmap_Set 9 5) /\ is_u32 (UTIL_Bitmap_Clear 9 5).
Proof. apply (bitmap_set_clear_spec 9 5 5). unwrap; lia. Defined.

(** UTIL_Bitmap_Is_Superset answers 1 exactly when every server of the
    first bitmap is in the second. *)
Theorem bitmap_superset_spec (bm_old bm_new : Z) :
  is_u32 bm_old -> is_u32 bm_new ->
  UTIL_Bitmap_Is_Superset bm_old bm_new = true <->
  (forall i, UTIL_Bitmap_Is_Set bm_old i = true -> UTIL_Bitmap_Is_Set bm_new i = true).
Proof.
  intros Ho Hn. unfold UTIL_Bitmap_Is_Superset. rewrite Z.eqb_eq. split.
  - intros H i. rewrite !Is_Set_testbit. intros Hi.
    assert (Hz : Z.testbit (Z.land bm_old (Z.lxor bm_old bm_new)) (bit_of i) = false)
      by (rewrite H; apply Z.bits_0).
    rewrite Z.land_spec, Z.lxor_spec, Hi in Hz.
    destruct (Z.testbit bm_new (bit_of i)); [reflexivity|discriminate].
  - intros H. apply Z.bits_inj'. intros n Hn0.
    rewrite Z.land_spec, Z.lxor_spec, Z.bits_0.
    destruct (Z_lt_le_dec n 32) as [Hlt|Hge].
    + specialize (H n). rewrite !Is_Set_testbit in H. unfold bit_of in H.
      change (4 * 8) with 32 in H. rewrite Z.mod_small in H by lia.
      destruct (Z.testbit bm_old n); [rewrite H by reflexivity|]; reflexivity.
    + rewrite (u32_testbit_high bm_old n Ho Hge). reflexivity.
Qed.

Lemma bitmap_superset_spec_witness :
  UTIL_Bitmap_Is_Superset 6 14 = true <->
  (forall i, UTIL_Bitmap_Is_Set 6 i = true -> UTIL_Bitmap_Is_Set 14 i = true).
Proof. apply (bitmap_superset_spec 6 14); unwrap; lia. Defined.

Lemma seqZ_snoc m n : 0 <= n -> seqZ m (n + 1) = seqZ m n ++ [m + n].
Proof.
  intros Hn. rewrite seqZ_app by lia. f_equal.
Qed.

(** Counting the members of [1..n] that satisfy a test. *)
Lemma count_loop {S} (P : S -> Prop) (f : Z -> bool) n :
  0 <= n ->
  spec no_fault P
    (for_ (R := Z) n (fun '(i, c) => ret (inl (i + 1, if f i then c + 1 else c))) (1, 0))
    (fun r s => P s /\
       r = inl (n + 1, Z.of_nat (length (List.filter f (seqZ 1 n))))).
Proof.
  intros Hn. eapply spec_conseq.
  - apply (spec_for_idx no_fault P
      (fun i x => 0 <= i /\ x = (i + 1, Z.of_nat (length (List.filter f (seqZ 1 i)))))
      (fun _ => False) _ n _ Hn).
    + intros i [j c] Hi [Hi0 [= -> ->]]. apply spec_ret. intros s Hs.
      split; [exact Hs|]. split; [lia|]. f_equal.
      rewrite seqZ_snoc by lia. rewrite List.filter_app, length_app. cbn [List.filter].
      replace (1 + i) with (i + 1) by lia. destruct (f (i + 1)); cbn [length]; lia.
    + split; [lia|reflexivity].
  - auto.
  - intros [x|v] s [Hs Hx]; [|destruct Hx]. destruct Hx as [_ ->]. auto.
Qed.

Lemma Num_Bits_Set_eq {S : Type} (s : S) (bm : Z) :
  let c := Z.of_nat (length (List.filter (UTIL_Bitmap_Is_Set bm) (seqZ 1 NUM_SERVERS))) in
  UTIL_Bitmap_Num_Bits_Set bm s =
    if c =? 0 then Fault AssertFailure else Ret (c, s).
Proof.
  intros c. unfold UTIL_Bitmap_Num_Bits_Set, bind.
  destruct (spec_no_fault (fun t => t = s) _ _ s
    (count_loop (fun t => t = s) (UTIL_Bitmap_Is_Set bm) NUM_SERVERS ltac:(easy)) eq_refl)
    as (r & s' & -> & -> & ->). fold c.
  unfold assert_. destruct (Z.eqb_spec c 0) as [->|Hc]; [reflexivity|].
  rewrite (proj2 (Z.ltb_lt 0 c)) by (subst c; lia). reflexivity.
Qed.

(** UTIL_Bitmap_Num_Bits_Set counts the servers of the bitmap, and its
    assertion fails exactly on a bitmap with none. *)
Theorem bitmap_count_spec {S : Type} (s : S) (bm : Z) :
  match UTIL_Bitmap_Num_Bits_Set bm s with
  | Ret (c, s') => s' = s /\ 0 < c /\
      exists l, NoDup l /\ c = Z.of_nat (length l) /\
        forall i, i ∈ l <-> 1 <= i <= NUM_SERVERS /\ UTIL_Bitmap_Is_Set bm i = true
  | Fault f => f = AssertFailure /\
      forall i, 1 <= i <= NUM_SERVERS -> UTIL_Bitmap_Is_Set bm i = false
  end.
Proof.
  rewrite Num_Bits_Set_eq.
  set (l := List.filter (UTIL_Bitmap_Is_Set bm) (seqZ 1 NUM_SERVERS)).
  assert (Hl : forall i, i ∈ l <-> 1 <= i <= NUM_SERVERS /\ UTIL_Bitmap_Is_Set bm i = true).
  { intros i. subst l. rewrite list_elem_of_In, filter_In, <- list_elem_of_In, elem_of_seqZ.
    split; intros [H1 H2]; (split; [lia|exact H2]). }
  cbv zeta. fold l. destruct (Z.eqb_spec (Z.of_nat (length l)) 0) as [Hz|Hz].
  - split; [reflexivity|]. intros i Hi. destruct (UTIL_Bitmap_Is_Set bm i) eqn:E; [|reflexivity].
    exfalso. assert (Hin : i ∈ l) by (apply Hl; auto).
    destruct l; [apply not_elem_of_nil in Hin; exact Hin|cbn in Hz; lia].
  - split; [reflexivity|]. split; [lia|]. exists l. split; [|split; [reflexivity|exact Hl]].
    subst l. apply NoDup_ListNoDup, List.NoDup_filter, NoDup_ListNoDup, NoDup_seqZ.
Qed.

(** Leadership rotates: the leader of a view is a replica, and among any
    NUM_SERVERS consecutive views each replica leads exactly one. *)
Theorem leader_rotation (view id : Z) :
  1 <= id <= NUM_SERVERS ->
  1 <= UTIL_Leader_Of_View view <= NUM_SERVERS /\
  exists w, view < w <= view + NUM_SERVERS /\ UTIL_Leader_Of_View w = id /\
            forall w', view < w' <= view + NUM_SERVERS ->
                       UTIL_Leader_Of_View w' = id -> w' = w.
Proof.
  intros Hid. unfold UTIL_Leader_Of_View. change NUM_SERVERS with 6 in *.
  assert (Hl : forall v, exists r, (if v mod 6 =? 0 then 6 else v mod 6) = r /\
                                   1 <= r <= 6 /\ exists q, v = 6 * q + r).
  { intros v. pose proof (Z.div_mod v 6 ltac:(lia)) as Hd.
    pose proof (Z.mod_pos_bound v 6 ltac:(lia)).
    destruct (Z.eqb_spec (v mod 6) 0) as [E|E];
      eexists; (split; [reflexivity|split; [lia|]]);
      [exists (v / 6 - 1)|exists (v / 6)]; lia. }
  split; [destruct (Hl view) as (r & -> & Hr & _); exact Hr|].
  destruct (Hl view) as (r & _ & Hr & q & Hq).
  set (w := if id <=? r then 6 * (q + 1) + id else 6 * q + id).
  exists w.
  assert (Hw : view < w <= view + 6) by
    (subst w; destruct (Z.leb_spec id r); lia).
  split; [exact Hw|]. destruct (Hl w) as (r' & -> & Hr' & q' & Hq').
  split; [subst w; destruct (Z.leb_spec id r); lia|].
  intros w' Hw'. destruct (Hl w') as (r'' & -> & Hr'' & q'' & Hq'').
  subst w. destruct (Z.leb_spec id r); lia.
Qed.

Lemma leader_rotation_witness :
  1 <= UTIL_Leader_Of_View 8 <= NUM_SERVERS /\
  exists w, 8 < w <= 8 + NUM_SERVERS /\ UTIL_Leader_Of_View w = 4 /\
            forall w', 8 < w' <= 8 + NUM_SERVERS -> UTIL_Leader_Of_View w' = 4 -> w' = w.
Proof. apply (leader_rotation 8 4). unfold NUM_SERVERS, NUM_F, NUM_K. lia. Defined.

(** The order behind both comparison functions. *)
Definition ps_lt (p1 p2 : po_seq_pair) : Prop :=
  incarnation p1 < incarnation p2 \/
  incarnation p1 = incarnation p2 /\ seq_num p1 < seq_num p2.

Lemma Seq_Compare_cases p1 p2 :
  (PRE_ORDER_Seq_Compare p1 p2 = -1 /\ ps_lt p1 p2) \/
  (PRE_ORDER_Seq_Compare p1 p2 = 0 /\ p1 = p2) \/
  (PRE_ORDER_Seq_Compare p1 p2 = 1 /\ ps_lt p2 p1).
Proof.
  unfold PRE_ORDER_Seq_Compare, ps_lt. destruct p1 as [i1 n1], p2 as [i2 n2]; cbn.
  repeat match goal with |- context[?a <? ?b] => destruct (Z.ltb_spec a b) end;
    try lia. right; left. split; [reflexivity|]. f_equal; lia.
Qed.

Lemma PRE_ORDER_Seq_Compare_eq p1 p2 : PRE_ORDER_Seq_Compare p1 p2 = 0 -> p1 = p2.
Proof. destruct (Seq_Compare_cases p1 p2) as [[E H]|[[E H]|[E H]]]; intros; [lia|exact H|lia]. Qed.

(** PRE_ORDER_Seq_Compare (and poseqcmp, which qsort uses) is a total order
    on (incarnation, sequence) pairs: it compares lexicographically, is zero
    only on equal pairs, antisymmetric and transitive. *)
Theorem seq_compare_total_order (p1 p2 p3 : po_seq_pair) :
  poseqcmp p1 p2 = PRE_ORDER_Seq_Compare p1 p2 /\
  PRE_ORDER_Seq_Compare p2 p1 = - PRE_ORDER_Seq_Compare p1 p2 /\
  (PRE_ORDER_Seq_Compare p1 p2 = 0 <-> p1 = p2) /\
  (PRE_ORDER_Seq_Compare p1 p2 < 0 <-> ps_lt p1 p2) /\
  (PRE_ORDER_Seq_Compare p1 p2 <= 0 -> PRE_ORDER_Seq_Compare p2 p3 <= 0 ->
   PRE_ORDER_Seq_Compare p1 p3 <= 0).
Proof.
  split; [reflexivity|].
  destruct (Seq_Compare_cases p1 p2) as [[E1 H1]|[[E1 H1]|[E1 H1]]];
  destruct (Seq_Compare_cases p2 p1) as [[E2 H2]|[[E2 H2]|[E2 H2]]];
  destruct (Seq_Compare_cases p2 p3) as [[E3 H3]|[[E3 H3]|[E3 H3]]];
  destruct (Seq_Compare_cases p1 p3) as [[E4 H4]|[[E4 H4]|[E4 H4]]];
    unfold ps_lt in *; subst; rewrite ?E1, ?E2, ?E3, ?E4; repeat split; intros;
    try lia; try congruence; try (subst; lia).
Qed.

(** The two classifications of messages agree: every message type but the
    placeholder has a nonzero Spines priority, so the assertion before each
    send holds, and the TIMELY class holds exactly the types of priority 4 and
    above; only RECON is in the RECON class. *)
Theorem priority_timeliness_agree (t : packet_type) :
  (UTIL_Get_Priority (type_val t) <> 0 <-> t <> DUMMY) /\
  (UTIL_Get_Timeliness (type_val t) = TIMELY_TRAFFIC_CLASS <->
   4 <= UTIL_Get_Priority (type_val t)) /\
  (UTIL_Get_Timeliness (type_val t) = RECON_TRAFFIC_CLASS <-> t = RECON).
Proof.
  destruct t; vm_compute; repeat split; intros; congruence.
Qed.

(** Names identify types: UTIL_Type_To_String is injective on the message
    types other than the placeholder. *)
Theorem type_names_injective (t u : packet_type) :
  t <> DUMMY -> u <> DUMMY ->
  UTIL_Type_To_String (type_val t) = UTIL_Type_To_String (type_val u) -> t = u.
Proof.
  intros Ht Hu H.
  assert (Hinv : forall x, x <> DUMMY ->
    List.find (fun y => String.eqb (UTIL_Type_To_String (type_val y))
                                   (UTIL_Type_To_String (type_val x))) packet_types = Some x)
    by (intros []; intros; [contradiction|..]; reflexivity).
  pose proof (Hinv t Ht) as E1. rewrite H, (Hinv u Hu) in E1. congruence.
Qed.
Lemma type_names_injective_witness :
  PREPARE <> DUMMY /\ PREPARE = PREPARE.
Proof.
  split; [discriminate|].
  apply (type_names_injective PREPARE PREPARE); [discriminate|discriminate|reflexivity].
Defined.

(** ** Destinations *)
Section Destinations.
Context {S : Type} (VAR : server_variables) (wanted : Z -> bool).

Definition is_dest (i : Z) : bool := negb (i =? My_Server_ID VAR) && wanted i.

Lemma mark_loop (P : S -> Prop) n0 :
  Z.of_nat (length (n_destinations n0)) = NUM_SERVER_SLOTS ->
  (forall i, 1 <= i <= NUM_SERVERS -> aget (n_destinations n0) i = Some 0) ->
  n_num_remaining_destinations n0 = 0 ->
  spec no_fault P (for_ NUM_SERVERS (mark_destination VAR wanted) (1, n0))
    (fun r s => P s /\ exists n, r = inl (NUM_SERVERS + 1, n) /\
       n_num_remaining_destinations n =
         Z.of_nat (length (List.filter is_dest (seqZ 1 NUM_SERVERS))) /\
       forall i, 1 <= i <= NUM_SERVERS ->
         aget (n_destinations n) i = Some (if is_dest i then 1 else 0)).
Proof.
  intros Hl H0 Hr0. eapply spec_conseq.
  - apply (spec_for_idx no_fault P (fun i x => exists n, 0 <= i /\ x = (i + 1, n) /\
      Z.of_nat (length (n_destinations n)) = NUM_SERVER_SLOTS /\
      n_num_remaining_destinations n =
        Z.of_nat (length (List.filter is_dest (seqZ 1 i))) /\
      forall j, 1 <= j <= NUM_SERVERS -> aget (n_destinations n) j =
        Some (if (j <=? i) && is_dest j then 1 else 0)) (fun _ => False)); [easy| |].
    + intros i x Hi (n & Hi0 & -> & Hln & Hc & Hd). unfold mark_destination.
      fold (is_dest (i + 1)). rewrite seqZ_snoc, List.filter_app in * by lia.
      cbn [List.filter]. replace (1 + i) with (i + 1) by lia.
      destruct (is_dest (i + 1)) eqn:E.
      * pose proof (aset_Some (n_destinations n) (i + 1) 1
          ltac:(unfold NUM_SERVER_SLOTS in *; lia)) as Hs.
        rewrite Hs. intros s HP. cbn. split; [exact HP|]. eexists.
        split; [lia|]. split; [reflexivity|]. cbn. rewrite length_insert.
        split; [exact Hln|]. split; [rewrite length_app, Hc; cbn; lia|].
        intros j Hj. destruct (Z.eq_dec j (i + 1)) as [->|Hne].
        { rewrite (aget_aset_eq _ _ _ _ Hs), E, Z.leb_refl. reflexivity. }
        rewrite (aget_aset_ne _ _ _ _ _ Hs) by lia. rewrite Hd by lia.
        destruct (Z.leb_spec j i), (Z.leb_spec j (i + 1)); try lia; reflexivity.
      * intros s HP. cbn. split; [exact HP|]. exists n. split; [lia|].
        split; [reflexivity|]. split; [exact Hln|]. split; [rewrite app_nil_r; exact Hc|].
        intros j Hj. rewrite Hd by lia. destruct (Z.eq_dec j (i + 1)) as [->|Hne].
        { rewrite E, !andb_false_r. reflexivity. }
        destruct (Z.leb_spec j i), (Z.leb_spec j (i + 1)); try lia; reflexivity.
    + exists n0. split; [lia|]. split; [reflexivity|]. split; [exact Hl|].
      split; [exact Hr0|]. intros j Hj. rewrite H0 by lia.
      rewrite (proj2 (Z.leb_gt j 0)) by lia. reflexivity.
  - auto.
  - intros [x|v] s [Hs Hx]; [|destruct Hx].
    destruct Hx as (n & _ & -> & Hln & Hc & Hd). split; [exact Hs|].
    exists n. split; [reflexivity|]. split; [exact Hc|]. intros i Hi.
    rewrite (Hd i Hi), (proj2 (Z.leb_le i NUM_SERVERS)) by lia. reflexivity.
Qed.
End Destinations.

Definition count_in (f : Z -> bool) (n : Z) : Z :=
  Z.of_nat (length (List.filter f (seqZ 1 n))).

Lemma count_in_succ f n :
  0 <= n -> count_in f (n + 1) = count_in f n + (if f (n + 1) then 1 else 0).
Proof.
  intros Hn. unfold count_in. rewrite seqZ_snoc, List.filter_app, length_app by lia.
  cbn [List.filter]. replace (1 + n) with (n + 1) by lia.
  destruct (f (n + 1)); cbn [length]; lia.
Qed.

Lemma count_dests (VAR : server_variables) wanted n :
  0 <= n ->
  count_in (is_dest VAR wanted) n +
    (if (1 <=? My_Server_ID VAR) && (My_Server_ID VAR <=? n) && wanted (My_Server_ID VAR)
     then 1 else 0) = count_in wanted n.
Proof.
  revert n. apply natlike_ind.
  - destruct (Z.leb_spec 1 (My_Server_ID VAR)), (Z.leb_spec (My_Server_ID VAR) 0);
      try lia; reflexivity.
  - intros n Hn IH. rewrite <- Z.add_1_r, !count_in_succ by lia. unfold is_dest at 2.
    set (me := My_Server_ID VAR) in *.
    destruct (Z.eqb_spec (n + 1) me) as [E|E]; cbn [negb andb].
    + rewrite (proj2 (Z.leb_le 1 me)), (proj2 (Z.leb_gt me n)),
        (proj2 (Z.leb_le me (n + 1))) in * by lia. cbn in *.
      rewrite E. destruct (wanted me); lia.
    + destruct (Z.leb_spec 1 me), (Z.leb_spec me n), (Z.leb_spec me (n + 1));
        cbn [andb] in *; try lia; destruct (wanted (n + 1)), (wanted me); lia.
Qed.

(** NET_Add_To_Pending_Messages queues a message for exactly the servers
    asked for: everyone but the sender for a broadcast, the servers of the
    bitmap otherwise.  Its assertions hold for a nonempty bitmap that leaves
    the sender out; a bitmap naming the sender makes the program stop. *)
Theorem pending_destinations {S : Type} (s : S) (VAR : server_variables)
    (dest_bits timeliness : Z) :
  1 <= My_Server_ID VAR <= NUM_SERVERS ->
  let me := My_Server_ID VAR in
  let wanted := if dest_bits =? BROADCAST then fun _ => true
                else UTIL_Bitmap_Is_Set dest_bits in
  match NET_Add_To_Pending_Messages VAR dest_bits timeliness s with
  | Ret (n, s') =>
      s' = s /\ (dest_bits <> BROADCAST -> wanted me = false) /\
      (exists i, 1 <= i <= NUM_SERVERS /\ i <> me /\ wanted i = true) /\
      forall i, 1 <= i <= NUM_SERVERS ->
        aget (n_destinations n) i = Some (if negb (i =? me) && wanted i then 1 else 0)
  | Fault f =>
      f = AssertFailure /\ dest_bits <> BROADCAST /\
      (wanted me = true \/ forall i, 1 <= i <= NUM_SERVERS -> wanted i = false)
  end.
Proof.
  intros Hme me wanted. unfold NET_Add_To_Pending_Messages, bind.
  set (n0 := {| n_dest_bits := _ |}).
  assert (Hrun : forall w, exists n,
    for_ NUM_SERVERS (mark_destination VAR w) (1, n0) s = Ret (inl (NUM_SERVERS + 1, n), s) /\
    n_num_remaining_destinations n = count_in (is_dest VAR w) NUM_SERVERS /\
    forall i, 1 <= i <= NUM_SERVERS ->
      aget (n_destinations n) i = Some (if is_dest VAR w i then 1 else 0)).
  { intros w. destruct (spec_no_fault (fun t => t = s) _ _ s
      (mark_loop VAR w (fun t => t = s) n0 eq_refl
         ltac:(intros i Hi; assert (i = 1 \/ i = 2 \/ i = 3 \/ i = 4 \/ i = 5 \/ i = 6)
                 as Hc by (change NUM_SERVERS with 6 in Hi; lia);
               repeat destruct Hc as [->|Hc]; try reflexivity; subst i; reflexivity)
         eq_refl) eq_refl) as (r & s' & E & -> & n & -> & Hc & Hd).
    exists n. auto. }
  pose proof (count_dests VAR wanted NUM_SERVERS ltac:(easy)) as Hcnt.
  rewrite (proj2 (Z.leb_le 1 (My_Server_ID VAR))),
    (proj2 (Z.leb_le (My_Server_ID VAR) NUM_SERVERS)) in Hcnt by lia. cbn [andb] in Hcnt.
  fold me in Hcnt. subst wanted. destruct (Z.eqb_spec dest_bits BROADCAST) as [Hb|Hb].
  - destruct (Hrun (fun _ => true)) as (n & -> & Hc & Hd). rewrite Hc.
    change (count_in (fun _ => true) NUM_SERVERS) with 6 in Hcnt.
    unfold assert_. rewrite (proj2 (Z.eqb_eq _ (NUM_SERVERS - 1)))
      by (change (NUM_SERVERS - 1) with 5; lia). cbn.
    split; [reflexivity|]. split; [congruence|]. split; [|exact Hd].
    exists (if me =? 1 then 2 else 1). change NUM_SERVERS with 6.
    destruct (Z.eqb_spec me 1); lia.
  - destruct (Hrun (UTIL_Bitmap_Is_Set dest_bits)) as (n & -> & Hc & Hd).
    rewrite Num_Bits_Set_eq. fold (count_in (UTIL_Bitmap_Is_Set dest_bits) NUM_SERVERS).
    destruct (Z.eqb_spec (count_in (UTIL_Bitmap_Is_Set dest_bits) NUM_SERVERS) 0) as [Hz|Hz].
    + split; [reflexivity|]. split; [exact Hb|]. right. intros i Hi.
      destruct (UTIL_Bitmap_Is_Set dest_bits i) eqn:E; [|reflexivity]. exfalso.
      assert (Hin : In i (List.filter (UTIL_Bitmap_Is_Set dest_bits) (seqZ 1 NUM_SERVERS)))
        by (apply filter_In; split; [apply list_elem_of_In, elem_of_seqZ; lia|exact E]).
      unfold count_in in Hz. destruct (List.filter _ _); [destruct Hin|cbn in Hz; lia].
    + rewrite Hc. unfold assert_. destruct (UTIL_Bitmap_Is_Set dest_bits me) eqn:Em.
      * rewrite (proj2 (Z.eqb_neq _ _)) by lia. cbn. auto.
      * rewrite (proj2 (Z.eqb_eq _ _)) by lia. cbn.
        split; [reflexivity|]. split; [auto|]. split; [|exact Hd].
        unfold count_in in Hz.
        destruct (List.filter (UTIL_Bitmap_Is_Set dest_bits) (seqZ 1 NUM_SERVERS))
          as [|i l] eqn:El; [cbn in Hz; lia|].
        assert (Hin : In i (List.filter (UTIL_Bitmap_Is_Set dest_bits) (seqZ 1 NUM_SERVERS)))
          by (rewrite El; left; reflexivity).
        apply filter_In in Hin as [Hin Hset]. apply list_elem_of_In, elem_of_seqZ in Hin.
        exists i. split; [lia|]. split; [congruence|exact Hset].
Qed.

Lemma pending_destinations_witness :
  let VAR := Init_VAR 2 in let dest_bits := 8 in
  let me := My_Server_ID VAR in
  let wanted := if dest_bits =? BROADCAST then fun _ => true
                else UTIL_Bitmap_Is_Set dest_bits in
  match NET_Add_To_Pending_Messages VAR dest_bits TIMELY_TRAFFIC_CLASS tt with
  | Ret (n, s') =>
      s' = tt /\ (dest_bits <> BROADCAST -> wanted me = false) /\
      (exists i, 1 <= i <= NUM_SERVERS /\ i <> me /\ wanted i = true) /\
      forall i, 1 <= i <= NUM_SERVERS ->
        aget (n_destinations n) i = Some (if negb (i =? me) && wanted i then 1 else 0)
  | Fault f =>
      f = AssertFailure /\ dest_bits <> BROADCAST /\
      (wanted me = true \/ forall i, 1 <= i <= NUM_SERVERS -> wanted i = false)
  end.
Proof.
  apply (pending_destinations tt (Init_VAR 2) 8 TIMELY_TRAFFIC_CLASS).
  cbn. unfold NUM_SERVERS, NUM_F, NUM_K. lia.
Defined.
