(* ===== verification/Validate.v ===== *)
(** Message validation: [prime/src/validate.c].

    Every message from the network goes through [VAL_Validate_Message] before a
    handler sees it.  The functions below read the received buffer at the
    addresses the C code casts to structures; they return the C result ([true]
    for 1) and thread the one variable they assign,
    [DATA.PO.Nested_Ignore_Incarnation].

    Messages nest (a certificate holds the messages it certifies), and
    [VAL_Validate_Message] calls itself on the nested ones: each
    [VAL_Validate_X] takes the recursive call as its argument [VM], and
    [VAL_Validate_Message] is defined by fuel.  [ValidateCorrect.v] proves that
    [enough_fuel] of a message is enough. *)
From Stdlib Require Import ZArith Lia List Bool.
From Stdlib Require Import Strings.Byte.
From stdpp Require Import base list.
From S2P Require Import Prelude Memory Config Packets Crypto Merkle Utility.

(** [validate.h] *)
Definition VAL_TYPE_INVALID : Z := 1.
Definition VAL_SIG_TYPE_SERVER : Z := 2.
Definition VAL_SIG_TYPE_SITE : Z := 3.
Definition VAL_SIG_TYPE_CLIENT : Z := 4.
Definition VAL_SIG_TYPE_UNSIGNED : Z := 5.
Definition VAL_SIG_TYPE_MERKLE : Z := 6.
Definition VAL_SIG_TYPE_TPM_SERVER : Z := 7.
Definition VAL_SIG_TYPE_TPM_MERKLE : Z := 8.

(** What validation reads of the global state, the [signed_message] buffer, and
    the bytes an automatic [complete_pre_prepare_message] happens to hold. *)
Record val_env := mkValEnv {
  VAR : server_variables;
  my_recovery_status : Z;                       (* DATA.PR.recovery_status[me] *)
  installed_incarnations : list Z;              (* DATA.PR, by server slot *)
  jump_incarnations : list (option (list Z));   (* installed_incarn of DATA.PR.jump_message *)
  stack_bytes : list byte
}.

(** [memcpy] of bytes into an object at an offset. *)
Definition copy_into {S} (mem : list byte) (off : Z) (bs : list byte)
    : comp S (list byte) :=
  if in_range mem off (Z.of_nat (length bs)) then
    ret (take (Z.to_nat off) mem ++ bs ++ drop (Z.to_nat off + length bs) mem)
  else raise OutOfBounds.

(** Turns of a loop over nested messages, each at least a header long. *)
Definition loop_fuel (num_bytes : Z) : nat :=
  Datatypes.S (Datatypes.S (Z.to_nat (num_bytes / sz_signed_message))).

Section Validate.
Context {crypto : Crypto} (env : val_env) (buf : list byte).

Definition two_f_k : Z := 2 * VF (VAR env) + VK (VAR env).

(** Fields of the message at [p]. *)
Definition m_type (p : Z) : comp Z Z := load buf 4 (p + o_signed_message_type).
Definition m_len (p : Z) : comp Z Z := load buf 4 (p + o_signed_message_len).
Definition m_machine_id (p : Z) : comp Z Z := load buf 4 (p + o_signed_message_machine_id).
Definition m_site_id (p : Z) : comp Z Z := load buf 4 (p + o_signed_message_site_id).
Definition m_incarnation (p : Z) : comp Z Z := load buf 4 (p + o_signed_message_incarnation).
Definition m_counter (p : Z) : comp Z Z := load buf 4 (p + o_signed_message_monotonic_counter).
Definition m_mt_num (p : Z) : comp Z Z := load buf 2 (p + o_signed_message_mt_num).
Definition m_mt_index (p : Z) : comp Z Z := load buf 2 (p + o_signed_message_mt_index).

Definition load_ps (p : Z) : comp Z po_seq_pair :=
  i <- load buf 4 (p + o_po_seq_pair_incarnation) ;;
  s <- load buf 4 (p + o_po_seq_pair_seq_num) ;;
  ret (mkPS i s).

(** ** Which messages a recovery state admits *)
Definition permitted (status : Z) (t : packet_type) : bool :=
  if status =? PR_STARTUP then
    match t with
    | NEW_INCARNATION | INCARNATION_ACK | INCARNATION_CERT | RESET_VOTE
    | RESET_SHARE | RESET_PROPOSAL | RESET_CERT => true
    | _ => false
    end
  else if status =? PR_RESET then
    match t with
    | RB_INIT | RB_ECHO | RB_READY | NEW_INCARNATION | RESET_SHARE
    | RESET_PROPOSAL | RESET_PREPARE | RESET_COMMIT | RESET_NEWLEADER
    | RESET_NEWLEADERPROOF | RESET_VIEWCHANGE | RESET_NEWVIEW
    | RESET_CERT => true
    | _ => false
    end
  else if status =? PR_RECOVERY then
    match t with
    | PO_REQUEST | PO_ACK | PO_ARU | PRE_PREPARE | PREPARE | COMMIT
    | ORD_CERT | PO_CERT | JUMP | NEW_INCARNATION | INCARNATION_CERT
    | PENDING_STATE | PENDING_SHARE | UPDATE => true
    | _ => false
    end
  else if status =? PR_NORMAL then
    match t with
    | PO_REQUEST | PO_ACK | PO_ARU | PROOF_MATRIX | PRE_PREPARE | PREPARE
    | COMMIT | RECON | TAT_MEASURE | RTT_PING | RTT_PONG | RTT_MEASURE
    | TAT_UB | NEW_LEADER | NEW_LEADER_PROOF | RB_INIT | RB_ECHO | RB_READY
    | REPORT | PC_SET | VC_LIST | VC_PARTIAL_SIG | VC_PROOF | REPLAY
    | REPLAY_PREPARE | REPLAY_COMMIT | ORD_CERT | PO_CERT | CATCHUP_REQUEST
    | JUMP | NEW_INCARNATION | INCARNATION_CERT | UPDATE => true
    | _ => false
    end
  else false.

Definition VAL_State_Permits_Message (mess : Z) : comp Z bool :=
  type <- m_type mess ;;
  ret match type_of type with
      | Some t => permitted (my_recovery_status env) t
      | None => false
      end.

(** ** Signatures *)
Definition VAL_Signature_Type (mess : Z) : comp Z Z :=
  sender_id <- m_machine_id mess ;;
  type <- m_type mess ;;
  counter <- m_counter mess ;;
  match type_of type with
  | Some UPDATE =>
      if (1 <=? sender_id) && (sender_id <=? NUM_SERVERS) then
        if 0 <? counter then
          seq_num <- load buf 4 (mess + sz_signed_message + o_update_message_seq_num) ;;
          ret (if seq_num =? 1 then VAL_SIG_TYPE_TPM_SERVER else VAL_TYPE_INVALID)
        else ret VAL_SIG_TYPE_SERVER
      else ret VAL_SIG_TYPE_CLIENT
  | Some (PO_ARU | NEW_LEADER | REPORT | PC_SET) => ret VAL_SIG_TYPE_SERVER
  | Some PO_REQUEST =>
      if 0 <? counter then
        seq <- load_ps (mess + sz_signed_message + o_po_request_message_seq) ;;
        ret (if seq_num seq =? 1 then VAL_SIG_TYPE_TPM_MERKLE else VAL_TYPE_INVALID)
      else ret VAL_SIG_TYPE_MERKLE
  | Some (RB_INIT | RB_ECHO | RB_READY) =>
      ret (if 0 <? counter then VAL_SIG_TYPE_TPM_MERKLE else VAL_SIG_TYPE_MERKLE)
  | Some (PO_ACK | PROOF_MATRIX | RECON | PRE_PREPARE | PREPARE | COMMIT
    | RTT_PING | RTT_PONG | RTT_MEASURE | TAT_MEASURE | TAT_UB
    | NEW_LEADER_PROOF | VC_LIST | VC_PARTIAL_SIG | VC_PROOF | REPLAY
    | REPLAY_PREPARE | REPLAY_COMMIT | PO_CERT | ORD_CERT | PENDING_SHARE) =>
      ret VAL_SIG_TYPE_MERKLE
  | Some (RESET_NEWLEADER | RESET_VIEWCHANGE | RESET_NEWVIEW) =>
      ret VAL_SIG_TYPE_TPM_SERVER
  | Some (CATCHUP_REQUEST | JUMP | NEW_INCARNATION | INCARNATION_ACK
    | INCARNATION_CERT | PENDING_STATE | RESET_VOTE | RESET_SHARE
    | RESET_PROPOSAL | RESET_PREPARE | RESET_COMMIT | RESET_NEWLEADERPROOF
    | RESET_CERT) => ret VAL_SIG_TYPE_TPM_MERKLE
  | _ => ret VAL_TYPE_INVALID
  end.

Definition VAL_Validate_Sender (sig_type sender_id : Z) : bool :=
  if sender_id <? 1 then false
  else if ((sig_type =? VAL_SIG_TYPE_SERVER) || (sig_type =? VAL_SIG_TYPE_MERKLE)
           || (sig_type =? VAL_SIG_TYPE_TPM_SERVER)
           || (sig_type =? VAL_SIG_TYPE_TPM_MERKLE)) && (sender_id <=? NUM_SERVERS)
  then true
  else if (sig_type =? VAL_SIG_TYPE_CLIENT) && (sender_id <=? NUM_CLIENTS) then true
  else false.

Definition VAL_Validate_Incarnation (sig_type mess : Z) : comp Z bool :=
  type <- m_type mess ;;
  machine_id <- m_machine_id mess ;;
  incarnation <- m_incarnation mess ;;
  if type =? type_val PENDING_SHARE then
    jm <- or_oob (aget (jump_incarnations env) machine_id) ;;
    match jm with
    | None => ret false
    | Some installed_incarn =>
        i <- or_oob (aget installed_incarn (machine_id - 1)) ;;
        ret (incarnation =? i)
    end
  else
    state_transfer <-
      (if (type =? type_val UPDATE) && (machine_id =? My_Server_ID (VAR env)) then
         payload_type <- m_type (mess + sz_signed_message + sz_update_message) ;;
         ret (payload_type =? CLIENT_STATE_TRANSFER)
       else ret false) ;;
    if (state_transfer : bool) then ret true
    else if (sig_type =? VAL_SIG_TYPE_MERKLE) || (sig_type =? VAL_SIG_TYPE_SERVER) then
      installed <- or_oob (aget (installed_incarnations env) machine_id) ;;
      reject negb (incarnation =? installed) ;;
      ret true
    else ret true.

Definition VAL_Is_Valid_Signature (sig_type sender_id site_id mess : Z) : comp Z bool :=
  if (sig_type =? VAL_SIG_TYPE_MERKLE) || (sig_type =? VAL_SIG_TYPE_TPM_MERKLE) then
    MT_Verify buf mess
  else
    let rsa_verify key_type :=
      len <- m_len mess ;;
      signature <- load_bytes buf mess SIGNATURE_SIZE ;;
      message <- load_bytes buf (mess + SIGNATURE_SIZE)
                   (len + sz_signed_message - SIGNATURE_SIZE) ;;
      ret (OPENSSL_RSA_Verify message signature sender_id key_type) in
    if (sig_type =? VAL_SIG_TYPE_SERVER) || (sig_type =? VAL_SIG_TYPE_TPM_SERVER) then
      rsa_verify RSA_SERVER
    else if sig_type =? VAL_SIG_TYPE_CLIENT then
      if negb CLIENTS_SIGN_UPDATES then ret true else rsa_verify RSA_CLIENT
    else ret false.

Definition VAL_Validate_Signed_Message (mess num_bytes : Z) (verify_signature : bool)
    : comp Z bool :=
  reject num_bytes <? sz_signed_message ;;
  type <- m_type mess ;;
  reject (type =? type_val DUMMY) || (MAX_MESS_TYPE <=? type) ;;
  mt_num <- m_mt_num mess ;;
  mt_index <- m_mt_index mess ;;
  reject (256 <? mt_num) || (mt_num <? mt_index) ;;
  len <- m_len mess ;;
  digests <- MT_Digests_ mt_num ;;
  reject negb (num_bytes =? len + sz_signed_message + digests * DIGEST_SIZE) ;;
  reject PRIME_MAX_PACKET_SIZE <? num_bytes ;;
  sig_type <- VAL_Signature_Type mess ;;
  reject sig_type =? VAL_TYPE_INVALID ;;
  if sig_type =? VAL_SIG_TYPE_UNSIGNED then ret true else
  machine_id <- m_machine_id mess ;;
  site_id <- m_site_id mess ;;
  let sender_id :=
    if (sig_type =? VAL_SIG_TYPE_SERVER) || (sig_type =? VAL_SIG_TYPE_MERKLE)
       || (sig_type =? VAL_SIG_TYPE_CLIENT) || (sig_type =? VAL_SIG_TYPE_TPM_SERVER)
       || (sig_type =? VAL_SIG_TYPE_TPM_MERKLE)
    then machine_id else site_id in
  guard VAL_Validate_Sender sig_type sender_id ;;
  Nested_Ignore_Incarnation <- get ;;
  incarnation_ok <- (if Nested_Ignore_Incarnation =? 0
                     then VAL_Validate_Incarnation sig_type mess else ret true) ;;
  guard incarnation_ok ;;
  signature_ok <- (if verify_signature
                   then VAL_Is_Valid_Signature sig_type sender_id site_id mess
                   else ret true) ;;
  guard signature_ok ;;
  ret true.

(** ** Messages that hold no others *)
Definition VAL_Validate_Update (update num_bytes : Z) : comp Z bool :=
  reject num_bytes <? sz_update_message ;;
  reject sz_update_message + UPDATE_SIZE <? num_bytes ;;
  ret true.

(** [expected_num_bytes] is an [int32u]. *)
Definition VAL_Validate_PO_Ack (po_ack num_bytes : Z) : comp Z bool :=
  reject num_bytes <? sz_po_ack_message ;;
  num_ack_parts <- load buf 4 (po_ack + o_po_ack_message_num_ack_parts) ;;
  let expected_num_bytes := wrap32 (sz_po_ack_message + num_ack_parts * sz_po_ack_part) in
  reject negb (num_bytes =? expected_num_bytes) ;;
  run for_ num_ack_parts
        (fun p =>
           let part := po_ack + sz_po_ack_message + p * sz_po_ack_part in
           seq <- load_ps (part + o_po_ack_part_seq) ;;
           reject_loop seq_num seq =? 0 ;;
           originator <- load buf 4 (part + o_po_ack_part_originator) ;;
           reject_loop (originator <? 1) || (NUM_SERVERS <? originator) ;;
           ret (inl (wrap32 (p + 1)))) 0
  as _ ;;
  ret true.

Definition VAL_Validate_PO_ARU (po_aru num_bytes : Z) : comp Z bool :=
  reject negb (num_bytes =? sz_po_aru_message) ;;
  ret true.

Definition VAL_Validate_Prepare (prepare num_bytes : Z) : comp Z bool :=
  reject negb (num_bytes =? sz_prepare_message) ;;
  seq_num <- load buf 4 (prepare + o_prepare_message_seq_num) ;;
  reject seq_num =? 0 ;;
  ret true.

Definition VAL_Validate_Commit (commit num_bytes : Z) : comp Z bool :=
  reject negb (num_bytes =? sz_commit_message) ;;
  seq_num <- load buf 4 (commit + o_commit_message_seq_num) ;;
  reject seq_num =? 0 ;;
  ret true.

Definition VAL_Validate_TAT_Measure (measure num_bytes : Z) : comp Z bool :=
  reject negb (num_bytes =? sz_tat_measure_message) ;; ret true.
Definition VAL_Validate_RTT_Ping (ping num_bytes : Z) : comp Z bool :=
  reject negb (num_bytes =? sz_rtt_ping_message) ;; ret true.
Definition VAL_Validate_RTT_Pong (pong num_bytes : Z) : comp Z bool :=
  reject negb (num_bytes =? sz_rtt_pong_message) ;; ret true.
Definition VAL_Validate_RTT_Measure (measure num_bytes : Z) : comp Z bool :=
  reject negb (num_bytes =? sz_rtt_measure_message) ;; ret true.
Definition VAL_Validate_TAT_UB (measure num_bytes : Z) : comp Z bool :=
  reject negb (num_bytes =? sz_tat_ub_message) ;; ret true.
Definition VAL_Validate_New_Leader (nl num_bytes : Z) : comp Z bool :=
  reject negb (num_bytes =? sz_new_leader_message) ;; ret true.

Definition VAL_Validate_Report (report num_bytes : Z) : comp Z bool :=
  reject negb (num_bytes =? sz_report_message) ;;
  machine_id <- load buf 4 (report + o_report_message_rb_tag
                            + o_reliable_broadcast_tag_machine_id) ;;
  reject (machine_id <? 1) || (NUM_SERVERS <? machine_id) ;;
  ret true.

Definition VAL_Validate_VC_List (vc_list num_bytes : Z) : comp Z bool :=
  reject negb (num_bytes =? sz_vc_list_message) ;; ret true.
Definition VAL_Validate_VC_Partial_Sig (vc_psig num_bytes : Z) : comp Z bool :=
  reject negb (num_bytes =? sz_vc_partial_sig_message) ;; ret true.

(** The threshold signature is over the first three words. *)
Definition VAL_Validate_VC_Proof (vc_proof num_bytes : Z) : comp Z bool :=
  reject negb (num_bytes =? sz_vc_proof_message) ;;
  words <- load_bytes buf vc_proof (3 * 4) ;;
  thresh_sig <- load_bytes buf (vc_proof + o_vc_proof_message_thresh_sig) SIGNATURE_SIZE ;;
  guard TC_Verify_Signature 1 thresh_sig (make_digest words) ;;
  ret true.

Definition VAL_Validate_Replay (replay num_bytes : Z) : comp Z bool :=
  reject negb (num_bytes =? sz_replay_message) ;;
  words <- load_bytes buf replay (3 * 4) ;;
  thresh_sig <- load_bytes buf (replay + o_replay_message_thresh_sig) SIGNATURE_SIZE ;;
  guard TC_Verify_Signature 1 thresh_sig (make_digest words) ;;
  ret true.

Definition VAL_Validate_Replay_Prepare (r_prepare num_bytes : Z) : comp Z bool :=
  reject negb (num_bytes =? sz_replay_prepare_message) ;; ret true.
Definition VAL_Validate_Replay_Commit (r_commit num_bytes : Z) : comp Z bool :=
  reject negb (num_bytes =? sz_replay_commit_message) ;; ret true.
Definition VAL_Validate_Catchup_Request (c_request num_bytes : Z) : comp Z bool :=
  reject negb (num_bytes =? sz_catchup_request_message) ;; ret true.
Definition VAL_Validate_New_Incarnation (new_inc num_bytes : Z) : comp Z bool :=
  reject negb (num_bytes =? sz_new_incarnation_message) ;; ret true.
Definition VAL_Validate_Incarnation_Ack (inc_ack num_bytes : Z) : comp Z bool :=
  reject negb (num_bytes =? sz_incarnation_ack_message) ;; ret true.
Definition VAL_Validate_Pending_State (pend_state num_bytes : Z) : comp Z bool :=
  reject negb (num_bytes =? sz_pending_state_message) ;; ret true.
Definition VAL_Validate_Reset_Vote (reset_vote num_bytes : Z) : comp Z bool :=
  reject negb (num_bytes =? sz_reset_vote_message) ;; ret true.
Definition VAL_Validate_Reset_Share (reset_share num_bytes : Z) : comp Z bool :=
  reject negb (num_bytes =? sz_reset_share_message) ;; ret true.
Definition VAL_Validate_Reset_Prepare (reset_prepare num_bytes : Z) : comp Z bool :=
  reject negb (num_bytes =? sz_reset_prepare_message) ;; ret true.
Definition VAL_Validate_Reset_Commit (reset_commit num_bytes : Z) : comp Z bool :=
  reject negb (num_bytes =? sz_reset_commit_message) ;; ret true.
Definition VAL_Validate_Reset_NewLeader (reset_nl num_bytes : Z) : comp Z bool :=
  reject negb (num_bytes =? sz_reset_newleader_message) ;; ret true.
Definition VAL_Validate_Reset_NewView (reset_newview num_bytes : Z) : comp Z bool :=
  reject negb (num_bytes =? sz_reset_newview_message) ;; ret true.

(** The automatic variable [complete_pp], filled from the pre-prepare at [pp]:
    what is not assigned keeps the bytes the stack held.  The last [memcpy]
    takes as many PO-ARUs as the pre-prepare says, into [NUM_SERVERS] slots. *)
Definition complete_pp_digest (pp : Z) : comp Z digest :=
  seq_num <- load_bytes buf (pp + o_pre_prepare_message_seq_num) 4 ;;
  m <- copy_into (stack_bytes env) o_complete_pre_prepare_message_seq_num seq_num ;;
  view <- load_bytes buf (pp + o_pre_prepare_message_view) 4 ;;
  m <- copy_into m o_complete_pre_prepare_message_view view ;;
  last_executed <- load_bytes buf (pp + o_pre_prepare_message_last_executed)
                     (NUM_SERVERS * sz_po_seq_pair) ;;
  m <- copy_into m o_complete_pre_prepare_message_last_executed last_executed ;;
  proposal_digest <- load_bytes buf (pp + o_pre_prepare_message_proposal_digest) DIGEST_SIZE ;;
  m <- copy_into m o_complete_pre_prepare_message_proposal_digest proposal_digest ;;
  num_acks <- load buf 4 (pp + o_pre_prepare_message_num_acks_in_this_message) ;;
  cum_acks <- load_bytes buf (pp + sz_pre_prepare_message)
                (sz_po_aru_signed_message * num_acks) ;;
  m <- copy_into m o_complete_pre_prepare_message_cum_acks cum_acks ;;
  ret (make_digest m).

(** ** Messages that hold others *)
Section Nested.
(** The recursive call of [VAL_Validate_Message]. *)
Context (VM : Z -> Z -> comp Z bool).

Definition VAL_Validate_PO_Request (po_request num_bytes : Z) : comp Z bool :=
  reject num_bytes <? sz_po_request_message ;;
  num_events <- load buf 4 (po_request + o_po_request_message_num_events) ;;
  run for_ num_events
        (fun '(p, offset) =>
           reject_loop wrap64 (num_bytes - sz_signed_message) <? offset ;;
           len <- m_len p ;;
           reject_loop wrap64 (num_bytes - sz_signed_message - len) <? offset ;;
           type <- m_type p ;;
           reject_loop negb (type =? type_val UPDATE) ;;
           valid <- VM p (wrap32 (len + sz_signed_message)) ;;
           reject_loop negb valid ;;
           ret (inl (p + len + sz_signed_message,
                     wrap32 (offset + len + sz_signed_message))))
        (po_request + sz_po_request_message, sz_po_request_message)
  as (_, offset) ;;
  reject negb (offset =? num_bytes) ;;
  ret true.

(** The loop over the PO-ARUs of a proof matrix or pre-prepare.  [continue]
    leaves [po_aru] where it is. *)
Definition validate_po_arus (po_aru num_acks nested_state : Z)
    : comp Z (step_result Z bool) :=
  for_ num_acks
    (fun po_aru =>
       type <- m_type po_aru ;;
       if type =? type_val DUMMY then ret (inl po_aru)
       else
         valid <- (if negb (type =? type_val PO_ARU) then ret false
                   else VM po_aru sz_po_aru_signed_message) ;;
         if negb valid then put nested_state ;;; ret (inr false)
         else ret (inl (po_aru + sz_po_aru_signed_message)))
    po_aru.

Definition VAL_Validate_Proof_Matrix (pm num_bytes : Z) : comp Z bool :=
  nested_state <- get ;;
  reject num_bytes <? sz_proof_matrix_message ;;
  num_acks <- load buf 4 (pm + o_proof_matrix_message_num_acks_in_this_message) ;;
  let expected_size := wrap32 (sz_proof_matrix_message
                               + num_acks * sz_po_aru_signed_message) in
  reject negb (num_bytes =? expected_size) ;;
  put 1 ;;;
  run validate_po_arus (pm + sz_proof_matrix_message) num_acks nested_state as _ ;;
  put nested_state ;;;
  ret true.

Definition VAL_Validate_Pre_Prepare (pp num_bytes : Z) : comp Z bool :=
  nested_state <- get ;;
  reject num_bytes <? sz_pre_prepare_message ;;
  num_acks <- load buf 4 (pp + o_pre_prepare_message_num_acks_in_this_message) ;;
  let expected_size := wrap32 (sz_pre_prepare_message
                               + num_acks * sz_po_aru_signed_message) in
  reject negb (num_bytes =? expected_size) ;;
  seq_num <- load buf 4 (pp + o_pre_prepare_message_seq_num) ;;
  reject seq_num =? 0 ;;
  total_parts <- load buf 2 (pp + o_pre_prepare_message_total_parts) ;;
  part_num <- load buf 2 (pp + o_pre_prepare_message_part_num) ;;
  reject negb (total_parts =? 1) || negb (part_num =? 1) ;;
  put 1 ;;;
  run validate_po_arus (pp + sz_pre_prepare_message) num_acks nested_state as _ ;;
  put nested_state ;;;
  ret true.

Definition VAL_Validate_New_Leader_Proof (nlp num_bytes : Z) : comp Z bool :=
  reject num_bytes <? sz_new_leader_proof_message ;;
  let nl_size := sz_signed_message + sz_new_leader_message in
  let expected_size := wrap32 (sz_new_leader_proof_message + (two_f_k + 1) * nl_size) in
  reject negb (num_bytes =? expected_size) ;;
  run for_ (two_f_k + 1)
        (fun nl =>
           type <- m_type nl ;;
           reject_loop negb (type =? type_val NEW_LEADER) ;;
           valid <- VM nl nl_size ;;
           reject_loop negb valid ;;
           new_view <- load buf 4 (nl + sz_signed_message + o_new_leader_message_new_view) ;;
           nlp_view <- load buf 4 (nlp + o_new_leader_proof_message_new_view) ;;
           reject_loop negb (new_view =? nlp_view) ;;
           ret (inl (nl + nl_size)))
        (nlp + sz_new_leader_proof_message)
  as _ ;;
  ret true.

Definition is_rb_payload (type : Z) : bool :=
  (type =? type_val REPORT) || (type =? type_val PC_SET)
  || (type =? type_val RESET_VIEWCHANGE) || (type =? type_val RESET_NEWVIEW).

Definition VAL_Validate_RB_Init (rb_init num_bytes : Z) : comp Z bool :=
  reject num_bytes <? sz_signed_message ;;
  len <- m_len rb_init ;;
  reject negb (num_bytes =? sz_signed_message + len) ;;
  type <- m_type rb_init ;;
  guard is_rb_payload type ;;
  permits <- VAL_State_Permits_Message rb_init ;;
  guard permits ;;
  valid <- VM rb_init num_bytes ;;
  guard valid ;;
  ret true.

Definition VAL_Validate_RB_Echo (rb_echo num_bytes : Z) : comp Z bool :=
  reject num_bytes <? sz_signed_message ;;
  len <- m_len rb_echo ;;
  reject negb (num_bytes =? sz_signed_message + len) ;;
  type <- m_type rb_echo ;;
  guard is_rb_payload type ;;
  permits <- VAL_State_Permits_Message rb_echo ;;
  guard permits ;;
  valid <- VM rb_echo num_bytes ;;
  guard valid ;;
  ret true.

Definition VAL_Validate_RB_Ready (rb_ready num_bytes : Z) : comp Z bool :=
  reject num_bytes <? sz_signed_message ;;
  len <- m_len rb_ready ;;
  reject negb (num_bytes =? sz_signed_message + len) ;;
  type <- m_type rb_ready ;;
  guard is_rb_payload type ;;
  permits <- VAL_State_Permits_Message rb_ready ;;
  guard permits ;;
  valid <- VM rb_ready num_bytes ;;
  guard valid ;;
  ret true.

Definition VAL_Validate_PC_Set (pc num_bytes : Z) : comp Z bool :=
  reject num_bytes <? sz_pc_set_message ;;
  tag_machine_id <- load buf 4 (pc + o_pc_set_message_rb_tag
                                + o_reliable_broadcast_tag_machine_id) ;;
  reject (tag_machine_id <? 1) || (NUM_SERVERS <? tag_machine_id) ;;
  let sum_len := sz_pc_set_message in
  let mess := pc + sz_pc_set_message in
  msg_size <- UTIL_Message_Size buf mess ;;
  type <- m_type mess ;;
  reject negb (type =? type_val PRE_PREPARE) ;;
  reject wrap32 (num_bytes - sum_len) <? msg_size ;;
  valid <- VM mess msg_size ;;
  guard valid ;;
  let pp := mess + sz_signed_message in
  pp_digest <- complete_pp_digest pp ;;
  run while_ (loop_fuel num_bytes)
        (fun '(_, _, sum_len, _) => sum_len <? num_bytes)
        (fun '(mess, msg_size, sum_len, count) =>
           let mess := mess + msg_size in
           msg_size <- UTIL_Message_Size buf mess ;;
           type <- m_type mess ;;
           reject_loop negb (type =? type_val PREPARE) ;;
           reject_loop wrap32 (num_bytes - sum_len) <? msg_size ;;
           valid <- VM mess msg_size ;;
           reject_loop negb valid ;;
           let pm := mess + sz_signed_message in
           pm_seq <- load buf 4 (pm + o_prepare_message_seq_num) ;;
           pp_seq <- load buf 4 (pp + o_pre_prepare_message_seq_num) ;;
           reject_loop negb (pm_seq =? pp_seq) ;;
           pm_digest <- load_bytes buf (pm + o_prepare_message_digest) DIGEST_SIZE ;;
           reject_loop negb (OPENSSL_RSA_Digests_Equal pm_digest pp_digest) ;;
           ret (inl (mess, msg_size, wrap32 (sum_len + msg_size), wrap32 (count + 1))))
        (mess, msg_size, wrap32 (sum_len + msg_size), 0)
  as (_, _, sum_len, count) ;;
  reject negb (sum_len =? num_bytes) ;;
  reject negb (count =? two_f_k) ;;
  ret true.

(** [sum_len < num_bytes && num_bytes - sum_len >= sizeof(signed_message)] *)
Definition room_for_header (num_bytes sum_len : Z) : bool :=
  (sum_len <? num_bytes) && (sz_signed_message <=? wrap32 (num_bytes - sum_len)).

Definition VAL_Validate_ORD_Certificate (ord_cert num_bytes : Z) : comp Z bool :=
  reject num_bytes <? sz_ord_certificate_message ;;
  cert_type <- load buf 4 (ord_cert + o_ord_certificate_message_type) ;;
  reject negb (cert_type =? SLOT_COMMIT) ;;
  let sum_len := sz_ord_certificate_message in
  let mess := ord_cert + sz_ord_certificate_message in
  msg_size <- UTIL_Message_Size buf mess ;;
  type <- m_type mess ;;
  reject negb (type =? type_val PRE_PREPARE) ;;
  reject wrap32 (num_bytes - sum_len) <? msg_size ;;
  valid <- VM mess msg_size ;;
  guard valid ;;
  let pp := mess + sz_signed_message in
  pp_seq <- load buf 4 (pp + o_pre_prepare_message_seq_num) ;;
  cert_seq <- load buf 4 (ord_cert + o_ord_certificate_message_seq_num) ;;
  reject negb (pp_seq =? cert_seq) ;;
  pp_digest <- complete_pp_digest pp ;;
  run while_ (loop_fuel num_bytes)
        (fun '(_, _, sum_len, _) => room_for_header num_bytes sum_len)
        (fun '(mess, msg_size, sum_len, count) =>
           let mess := mess + msg_size in
           msg_size <- UTIL_Message_Size buf mess ;;
           type <- m_type mess ;;
           reject_loop negb (type =? type_val COMMIT) ;;
           reject_loop wrap32 (num_bytes - sum_len) <? msg_size ;;
           valid <- VM mess msg_size ;;
           reject_loop negb valid ;;
           let cm := mess + sz_signed_message in
           cm_seq <- load buf 4 (cm + o_commit_message_seq_num) ;;
           reject_loop negb (cm_seq =? cert_seq) ;;
           cm_digest <- load_bytes buf (cm + o_commit_message_digest) DIGEST_SIZE ;;
           reject_loop negb (OPENSSL_RSA_Digests_Equal cm_digest pp_digest) ;;
           ret (inl (mess, msg_size, wrap32 (sum_len + msg_size), wrap32 (count + 1))))
        (mess, msg_size, wrap32 (sum_len + msg_size), 0)
  as (_, _, sum_len, count) ;;
  reject negb (sum_len =? num_bytes) ;;
  reject negb (count =? two_f_k + 1) ;;
  ret true.

(** The search of a PO-Ack for the part about [seq] of [machine_id]: [inl]
    when there is none, [inr b] when the first one's digest compares as [b]. *)
Definition find_ack_part (part num_parts machine_id : Z) (seq : po_seq_pair)
    (pr_digest : digest) : comp Z (step_result Z bool) :=
  for_ num_parts
    (fun i =>
       let this := part + i * sz_po_ack_part in
       originator <- load buf 4 (this + o_po_ack_part_originator) ;;
       this_seq <- load_ps (this + o_po_ack_part_seq) ;;
       if (originator =? machine_id) && (PRE_ORDER_Seq_Compare this_seq seq =? 0) then
         d <- load_bytes buf (this + o_po_ack_part_digest) DIGEST_SIZE ;;
         ret (inr (OPENSSL_RSA_Digests_Equal d pr_digest))
       else ret (inl (i + 1)))
    0.

Definition VAL_Validate_PO_Certificate (po_cert num_bytes : Z) : comp Z bool :=
  nested_state <- get ;;
  reject num_bytes <? sz_po_certificate_message ;;
  let sum_len := sz_po_certificate_message in
  let pr := po_cert + sz_po_certificate_message in
  msg_size <- UTIL_Message_Size buf pr ;;
  type <- m_type pr ;;
  reject negb (type =? type_val PO_REQUEST) ;;
  reject wrap32 (num_bytes - sum_len) <? msg_size ;;
  put 1 ;;;
  valid <- VM pr msg_size ;;
  put nested_state ;;;
  guard valid ;;
  pr_seq <- load_ps (pr + sz_signed_message + o_po_request_message_seq) ;;
  cert_seq <- load_ps (po_cert + o_po_certificate_message_seq) ;;
  reject negb (PRE_ORDER_Seq_Compare pr_seq cert_seq =? 0) ;;
  pr_bytes <- load_bytes buf pr msg_size ;;
  let pr_digest := make_digest pr_bytes in
  run while_ (loop_fuel num_bytes)
        (fun '(_, _, sum_len, _, _) => room_for_header num_bytes sum_len)
        (fun '(pa, msg_size, sum_len, count, incarnation_vector) =>
           let pa := pa + msg_size in
           msg_size <- UTIL_Message_Size buf pa ;;
           type <- m_type pa ;;
           reject_loop negb (type =? type_val PO_ACK) ;;
           reject_loop wrap32 (num_bytes - sum_len) <? msg_size ;;
           put 1 ;;;
           valid <- VM pa msg_size ;;
           put nested_state ;;;
           reject_loop negb valid ;;
           let pa_specific := pa + sz_signed_message in
           let part := pa_specific + sz_po_ack_message in
           vector <- load_bytes buf
                       (pa_specific + o_po_ack_message_preinstalled_incarnations)
                       (4 * NUM_SERVERS) ;;
           let same := if count =? 0 then true else bool_decide (vector = incarnation_vector) in
           reject_loop negb same ;;
           let incarnation_vector := if count =? 0 then vector else incarnation_vector in
           num_parts <- load buf 4 (pa_specific + o_po_ack_message_num_ack_parts) ;;
           machine_id <- m_machine_id pr ;;
           found <- find_ack_part part num_parts machine_id pr_seq pr_digest ;;
           match found with
           | inr true => ret (inl (pa, msg_size, wrap32 (sum_len + msg_size),
                                   wrap32 (count + 1), incarnation_vector))
           | _ => ret (inr false)
           end)
        (pr, msg_size, wrap32 (sum_len + msg_size), 0, [])
  as (_, _, sum_len, count, _) ;;
  reject negb (sum_len =? num_bytes) ;;
  reject negb (count =? two_f_k + 1) ;;
  ret true.

Definition VAL_Validate_Jump (jump num_bytes : Z) : comp Z bool :=
  nested_state <- get ;;
  reject num_bytes <? sz_jump_message ;;
  let sum_len := sz_jump_message in
  seq_num <- load buf 4 (jump + o_jump_message_seq_num) ;;
  cert <- (if 0 <? seq_num then
             let oc := jump + sz_jump_message in
             msg_size <- UTIL_Message_Size buf oc ;;
             type <- m_type oc ;;
             if negb (type =? type_val ORD_CERT) then ret None else
             if wrap32 (num_bytes - sum_len) <? msg_size then ret None else
             put 1 ;;;
             valid <- VM oc msg_size ;;
             put nested_state ;;;
             ret (if (valid : bool) then Some (wrap32 (sum_len + msg_size)) else None)
           else ret (Some sum_len)) ;;
  match cert with
  | None => ret false
  | Some sum_len =>
      let rc := jump + sum_len in
      msg_size <- UTIL_Message_Size buf rc ;;
      type <- m_type rc ;;
      reject negb (type =? type_val RESET_CERT) ;;
      reject wrap32 (num_bytes - sum_len) <? msg_size ;;
      valid <- VM rc msg_size ;;
      guard valid ;;
      reject negb (wrap32 (sum_len + msg_size) =? num_bytes) ;;
      ret true
  end.

Definition VAL_Validate_Incarnation_Cert
    (inc_cert num_bytes machine_id incarnation : Z) : comp Z bool :=
  nested_state <- get ;;
  reject num_bytes <? sz_incarnation_cert_message ;;
  let sum_len := sz_incarnation_cert_message in
  let ni := inc_cert + sz_incarnation_cert_message in
  msg_size <- UTIL_Message_Size buf ni ;;
  type <- m_type ni ;;
  reject negb (type =? type_val NEW_INCARNATION) ;;
  reject wrap32 (num_bytes - sum_len) <? msg_size ;;
  put 1 ;;;
  valid <- VM ni msg_size ;;
  put nested_state ;;;
  guard valid ;;
  ni_incarnation <- m_incarnation ni ;;
  reject negb (ni_incarnation =? incarnation) ;;
  ni_machine_id <- m_machine_id ni ;;
  reject negb (ni_machine_id =? machine_id) ;;
  ni_bytes <- load_bytes buf ni msg_size ;;
  let ni_digest := make_digest ni_bytes in
  run while_ (loop_fuel num_bytes)
        (fun '(sum_len, _) => room_for_header num_bytes sum_len)
        (fun '(sum_len, count) =>
           let ia := inc_cert + sum_len in
           msg_size <- UTIL_Message_Size buf ia ;;
           type <- m_type ia ;;
           reject_loop negb (type =? type_val INCARNATION_ACK) ;;
           reject_loop wrap32 (num_bytes - sum_len) <? msg_size ;;
           put 1 ;;;
           valid <- VM ia msg_size ;;
           put nested_state ;;;
           reject_loop negb valid ;;
           let ia_specific := ia + sz_signed_message in
           acked_incarnation <-
             load buf 4 (ia_specific + o_incarnation_ack_message_acked_incarnation) ;;
           reject_loop negb (acked_incarnation =? incarnation) ;;
           acked_id <- load buf 4 (ia_specific + o_incarnation_ack_message_acked_id) ;;
           reject_loop negb (acked_id =? machine_id) ;;
           d <- load_bytes buf (ia_specific + o_incarnation_ack_message_digest) DIGEST_SIZE ;;
           reject_loop negb (OPENSSL_RSA_Digests_Equal d ni_digest) ;;
           ret (inl (wrap32 (sum_len + msg_size), wrap32 (count + 1))))
        (wrap32 (sum_len + msg_size), 0)
  as (sum_len, count) ;;
  reject negb (sum_len =? num_bytes) ;;
  reject negb (count =? two_f_k + 1) ;;
  ret true.

Definition VAL_Validate_Pending_Share (pend_share num_bytes : Z) : comp Z bool :=
  nested_state <- get ;;
  reject num_bytes <? sz_pending_share_message ;;
  share_type <- load buf 4 (pend_share + o_pending_share_message_type) ;;
  reject negb (share_type =? type_val PRE_PREPARE)
         && negb (share_type =? type_val PO_REQUEST) ;;
  let mess := pend_share + sz_pending_share_message in
  msg_size <- UTIL_Message_Size buf mess ;;
  reject num_bytes - sz_pending_share_message <? msg_size ;;
  put 1 ;;;
  valid <- VM mess msg_size ;;
  put nested_state ;;;
  guard valid ;;
  type <- m_type mess ;;
  reject negb (type =? share_type) ;;
  ret true.

(** The loops of the reset messages leave by [break] when they have counted
    enough; the last local says so. *)
Definition go_on (num_bytes sum_len : Z) (break : bool) : bool :=
  negb break && room_for_header num_bytes sum_len.

Definition VAL_Validate_Reset_Proposal (reset_proposal num_bytes : Z) : comp Z bool :=
  reject num_bytes <? sz_reset_proposal_message ;;
  num_shares <- load buf 4 (reset_proposal + o_reset_proposal_message_num_shares) ;;
  reject num_shares <? two_f_k + 1 ;;
  reject NUM_SERVERS <? num_shares ;;
  run while_ (loop_fuel num_bytes)
        (fun '(sum_len, _, break) => go_on num_bytes sum_len break)
        (fun '(sum_len, count, _) =>
           let share := reset_proposal + sum_len in
           msg_size <- UTIL_Message_Size buf share ;;
           type <- m_type share ;;
           reject_loop negb (type =? type_val RESET_SHARE) ;;
           reject_loop wrap32 (num_bytes - sum_len) <? msg_size ;;
           valid <- VM share msg_size ;;
           reject_loop negb valid ;;
           let count := wrap32 (count + 1) in
           ret (inl (wrap32 (sum_len + msg_size), count, count =? num_shares)))
        (sz_reset_proposal_message, 0, false)
  as (sum_len, count, _) ;;
  reject negb (sum_len =? num_bytes) ;;
  reject negb (count =? num_shares) ;;
  ret true.

Definition VAL_Validate_Reset_NewLeaderProof (reset_nlp num_bytes : Z) : comp Z bool :=
  reject num_bytes <? sz_reset_newleaderproof_message ;;
  run while_ (loop_fuel num_bytes)
        (fun '(sum_len, _, break) => go_on num_bytes sum_len break)
        (fun '(sum_len, count, _) =>
           let nl := reset_nlp + sum_len in
           msg_size <- UTIL_Message_Size buf nl ;;
           type <- m_type nl ;;
           reject_loop negb (type =? type_val RESET_NEWLEADER) ;;
           reject_loop wrap32 (num_bytes - sum_len) <? msg_size ;;
           valid <- VM nl msg_size ;;
           reject_loop negb valid ;;
           let count := wrap32 (count + 1) in
           ret (inl (wrap32 (sum_len + msg_size), count, count =? two_f_k + 1)))
        (sz_reset_newleaderproof_message, 0, false)
  as (sum_len, count, _) ;;
  reject negb (sum_len =? num_bytes) ;;
  reject negb (count =? two_f_k + 1) ;;
  ret true.

Definition VAL_Validate_Reset_ViewChange (reset_viewchange num_bytes : Z) : comp Z bool :=
  reject num_bytes <? sz_reset_viewchange_message ;;
  let sum_len := sz_reset_viewchange_message in
  contains_proposal <- load buf 4 (reset_viewchange
                                   + o_reset_viewchange_message_contains_proposal) ;;
  if contains_proposal =? 0 then ret (num_bytes =? sum_len) else
  let rprop := reset_viewchange + sz_reset_viewchange_message in
  msg_size <- UTIL_Message_Size buf rprop ;;
  type <- m_type rprop ;;
  reject negb (type =? type_val RESET_PROPOSAL) ;;
  reject wrap32 (num_bytes - sum_len) <? msg_size ;;
  valid <- VM rprop msg_size ;;
  guard valid ;;
  let rprop_specific := rprop + sz_signed_message in
  rprop_len <- m_len rprop ;;
  rprop_bytes <- load_bytes buf rprop_specific rprop_len ;;
  let rprop_digest := make_digest rprop_bytes in
  run while_ (loop_fuel num_bytes)
        (fun '(sum_len, _, break) => go_on num_bytes sum_len break)
        (fun '(sum_len, count, _) =>
           let rprep := reset_viewchange + sum_len in
           msg_size <- UTIL_Message_Size buf rprep ;;
           type <- m_type rprep ;;
           reject_loop negb (type =? type_val RESET_PREPARE) ;;
           reject_loop wrap32 (num_bytes - sum_len) <? msg_size ;;
           valid <- VM rprep msg_size ;;
           reject_loop negb valid ;;
           let rprep_specific := rprep + sz_signed_message in
           rprep_view <- load buf 4 (rprep_specific + o_reset_prepare_message_view) ;;
           rprop_view <- load buf 4 (rprop_specific + o_reset_proposal_message_view) ;;
           reject_loop negb (rprep_view =? rprop_view) ;;
           d <- load_bytes buf (rprep_specific + o_reset_prepare_message_digest) DIGEST_SIZE ;;
           reject_loop negb (OPENSSL_RSA_Digests_Equal d rprop_digest) ;;
           let count := wrap32 (count + 1) in
           ret (inl (wrap32 (sum_len + msg_size), count, count =? two_f_k)))
        (wrap32 (sum_len + msg_size), 0, false)
  as (sum_len, count, _) ;;
  reject negb (sum_len =? num_bytes) ;;
  reject negb (count =? two_f_k) ;;
  ret true.

Definition VAL_Validate_Reset_Certificate (reset_cert num_bytes : Z) : comp Z bool :=
  reject num_bytes <? sz_reset_certificate_message ;;
  let sum_len := sz_reset_certificate_message in
  let rprop := reset_cert + sz_reset_certificate_message in
  msg_size <- UTIL_Message_Size buf rprop ;;
  type <- m_type rprop ;;
  reject negb (type =? type_val RESET_PROPOSAL) ;;
  reject wrap32 (num_bytes - sum_len) <? msg_size ;;
  valid <- VM rprop msg_size ;;
  guard valid ;;
  let rprop_specific := rprop + sz_signed_message in
  rprop_len <- m_len rprop ;;
  rprop_bytes <- load_bytes buf rprop_specific rprop_len ;;
  let rprop_digest := make_digest rprop_bytes in
  run while_ (loop_fuel num_bytes)
        (fun '(sum_len, _, break) => go_on num_bytes sum_len break)
        (fun '(sum_len, count, _) =>
           let rcom := reset_cert + sum_len in
           msg_size <- UTIL_Message_Size buf rcom ;;
           type <- m_type rcom ;;
           reject_loop negb (type =? type_val RESET_COMMIT) ;;
           reject_loop wrap32 (num_bytes - sum_len) <? msg_size ;;
           valid <- VM rcom msg_size ;;
           reject_loop negb valid ;;
           let rcom_specific := rcom + sz_signed_message in
           rcom_view <- load buf 4 (rcom_specific + o_reset_commit_message_view) ;;
           rprop_view <- load buf 4 (rprop_specific + o_reset_proposal_message_view) ;;
           reject_loop negb (rcom_view =? rprop_view) ;;
           d <- load_bytes buf (rcom_specific + o_reset_commit_message_digest) DIGEST_SIZE ;;
           reject_loop negb (OPENSSL_RSA_Digests_Equal d rprop_digest) ;;
           let count := wrap32 (count + 1) in
           ret (inl (wrap32 (sum_len + msg_size), count, count =? two_f_k + 1)))
        (wrap32 (sum_len + msg_size), 0, false)
  as (sum_len, count, _) ;;
  reject negb (count =? two_f_k + 1) ;;
  reject negb (sum_len =? num_bytes) ;;
  ret true.

(** The [switch] of [VAL_Validate_Message] over the content at [content];
    a type it has no case for passes. *)
Definition validate_content (t : packet_type) (content num_content_bytes
    machine_id incarnation : Z) : comp Z bool :=
  match t with
  | UPDATE => VAL_Validate_Update content num_content_bytes
  | PO_REQUEST => VAL_Validate_PO_Request content num_content_bytes
  | PO_ACK => VAL_Validate_PO_Ack content num_content_bytes
  | PO_ARU => VAL_Validate_PO_ARU content num_content_bytes
  | PROOF_MATRIX => VAL_Validate_Proof_Matrix content num_content_bytes
  | PRE_PREPARE => VAL_Validate_Pre_Prepare content num_content_bytes
  | PREPARE => VAL_Validate_Prepare content num_content_bytes
  | COMMIT => VAL_Validate_Commit content num_content_bytes
  | TAT_MEASURE => VAL_Validate_TAT_Measure content num_content_bytes
  | RTT_PING => VAL_Validate_RTT_Ping content num_content_bytes
  | RTT_PONG => VAL_Validate_RTT_Pong content num_content_bytes
  | RTT_MEASURE => VAL_Validate_RTT_Measure content num_content_bytes
  | TAT_UB => VAL_Validate_TAT_UB content num_content_bytes
  | NEW_LEADER => VAL_Validate_New_Leader content num_content_bytes
  | NEW_LEADER_PROOF => VAL_Validate_New_Leader_Proof content num_content_bytes
  | RB_INIT => VAL_Validate_RB_Init content num_content_bytes
  | RB_ECHO => VAL_Validate_RB_Echo content num_content_bytes
  | RB_READY => VAL_Validate_RB_Ready content num_content_bytes
  | REPORT => VAL_Validate_Report content num_content_bytes
  | PC_SET => VAL_Validate_PC_Set content num_content_bytes
  | VC_LIST => VAL_Validate_VC_List content num_content_bytes
  | VC_PARTIAL_SIG => VAL_Validate_VC_Partial_Sig content num_content_bytes
  | VC_PROOF => VAL_Validate_VC_Proof content num_content_bytes
  | REPLAY => VAL_Validate_Replay content num_content_bytes
  | REPLAY_PREPARE => VAL_Validate_Replay_Prepare content num_content_bytes
  | REPLAY_COMMIT => VAL_Validate_Replay_Commit content num_content_bytes
  | CATCHUP_REQUEST => VAL_Validate_Catchup_Request content num_content_bytes
  | ORD_CERT => VAL_Validate_ORD_Certificate content num_content_bytes
  | PO_CERT => VAL_Validate_PO_Certificate content num_content_bytes
  | JUMP => VAL_Validate_Jump content num_content_bytes
  | NEW_INCARNATION => VAL_Validate_New_Incarnation content num_content_bytes
  | INCARNATION_ACK => VAL_Validate_Incarnation_Ack content num_content_bytes
  | INCARNATION_CERT =>
      VAL_Validate_Incarnation_Cert content num_content_bytes machine_id incarnation
  | PENDING_STATE => VAL_Validate_Pending_State content num_content_bytes
  | PENDING_SHARE => VAL_Validate_Pending_Share content num_content_bytes
  | RESET_VOTE => VAL_Validate_Reset_Vote content num_content_bytes
  | RESET_SHARE => VAL_Validate_Reset_Share content num_content_bytes
  | RESET_PROPOSAL => VAL_Validate_Reset_Proposal content num_content_bytes
  | RESET_PREPARE => VAL_Validate_Reset_Prepare content num_content_bytes
  | RESET_COMMIT => VAL_Validate_Reset_Commit content num_content_bytes
  | RESET_NEWLEADER => VAL_Validate_Reset_NewLeader content num_content_bytes
  | RESET_NEWLEADERPROOF => VAL_Validate_Reset_NewLeaderProof content num_content_bytes
  | RESET_VIEWCHANGE => VAL_Validate_Reset_ViewChange content num_content_bytes
  | RESET_NEWVIEW => VAL_Validate_Reset_NewView content num_content_bytes
  | RESET_CERT => VAL_Validate_Reset_Certificate content num_content_bytes
  | DUMMY | RECON | CLIENT_RESPONSE => ret true
  end.
End Nested.

(** ** [VAL_Validate_Message] *)
Fixpoint VAL_Validate_Message (fuel : nat) (message num_bytes : Z) : comp Z bool :=
  match fuel with
  | O => raise OutOfFuel
  | Datatypes.S fuel' =>
      signed <- VAL_Validate_Signed_Message message num_bytes true ;;
      guard signed ;;
      mt_num <- m_mt_num message ;;
      digests <- MT_Digests_ mt_num ;;
      let content := message + sz_signed_message in
      let num_content_bytes := wrap32 (num_bytes - sz_signed_message - digests * DIGEST_SIZE) in
      type <- m_type message ;;
      machine_id <- m_machine_id message ;;
      incarnation <- m_incarnation message ;;
      match type_of type with
      | Some t => validate_content (VAL_Validate_Message fuel') t content
                    num_content_bytes machine_id incarnation
      | None => ret true
      end
  end.
End Validate.

(** Fuel for a message of [num_bytes]: one call, and one for each header that
    fits in it. *)
Definition enough_fuel (num_bytes : Z) : nat :=
  Datatypes.S (Datatypes.S (Z.to_nat (num_bytes / sz_signed_message))).

(** [VAL_Validate_Message] as the network code calls it. *)
Definition VAL_Validate_Received {crypto : Crypto} (env : val_env) (buf : list byte)
    (p num_bytes : Z) : comp Z bool :=
  VAL_Validate_Message env buf (enough_fuel num_bytes) p num_bytes.
