(* ===== verification/ValidateCorrect.v ===== *)
(** What [VAL_Validate_Message] guarantees.

    The first part verifies every validator of [Validate.v] against an abstract
    predicate [acc] on nested messages, which the recursive call is assumed to
    establish; the second part closes the recursion by induction on the fuel
    and states the properties of [VAL_Validate_Message] itself. *)
From Stdlib Require Import ZArith Lia List Bool.
From Stdlib Require Import Strings.Byte.
From stdpp Require Import base list sets.
From S2P Require Import Prelude Memory Config Packets Crypto Merkle Utility Validate.

(** Messages laid end to end from [a] to [b]: [count] of them, each at its
    address and of its size in [P]. *)
Inductive tiles (P : Z -> Z -> Prop) (a : Z) : Z -> Z -> Prop :=
| tiles_none : tiles P a a 0
| tiles_one b m count :
    tiles P a b count -> P b m -> tiles P a (b + m) (count + 1).

Lemma tiles_impl (P P' : Z -> Z -> Prop) a b c :
  (forall p m, P p m -> P' p m) -> tiles P a b c -> tiles P' a b c.
Proof. intros H T. induction T; econstructor; eauto. Qed.

Lemma tiles_nonneg P a b c : tiles P a b c -> 0 <= c.
Proof. intros T. induction T; lia. Qed.

Lemma tiles_zero P P' a b c : tiles P a b c -> c = 0 -> tiles P' a b c.
Proof.
  intros [|b' m c' T H] Hc; [constructor|]. apply tiles_nonneg in T. lia.
Qed.

(** With [width] the least size, the count is bounded by the room. *)
Lemma tiles_room P a b c width :
  (forall p m, P p m -> width <= m) -> tiles P a b c -> 0 <= c /\ a + c * width <= b.
Proof.
  intros H T. induction T as [|b m c T IH Hm]; [lia|].
  specialize (H _ _ Hm). lia.
Qed.

Lemma oob_allowed : fuel_is_enough OutOfBounds. Proof. split; discriminate. Qed.
Lemma exit_allowed : fuel_is_enough Exit. Proof. split; discriminate. Qed.
#[export] Hint Resolve oob_allowed exit_allowed : prime.

(** Boolean tests as propositions. *)
Ltac bools :=
  repeat match goal with
  | H : negb _ = false |- _ => apply negb_false_iff in H
  | H : negb _ = true |- _ => apply negb_true_iff in H
  | H : (_ =? _) = true |- _ => apply Z.eqb_eq in H
  | H : (_ =? _) = false |- _ => apply Z.eqb_neq in H
  | H : (_ <? _) = true |- _ => apply Z.ltb_lt in H
  | H : (_ <? _) = false |- _ => apply Z.ltb_ge in H
  | H : (_ <=? _) = true |- _ => apply Z.leb_le in H
  | H : (_ <=? _) = false |- _ => apply Z.leb_gt in H
  | H : _ && _ = true |- _ => apply andb_true_iff in H as [? ?]
  | H : _ || _ = false |- _ => apply orb_false_iff in H as [? ?]
  end.

Ltac fin := repeat first [assumption | reflexivity | lia | split].

(** [VM] and the field loads are unfolded here; a goal [wp] of one construct
    becomes the goals of its rule. *)
Ltac wp1 :=
  lazymatch goal with
  | |- wp _ (bind _ _) _ _ => apply wp_bind
  | |- wp _ (ret _) _ _ => apply wp_ret
  | |- wp _ get _ _ => apply wp_get
  | |- wp _ (put _) _ _ => apply wp_put
  | |- wp _ (raise _) _ _ => apply wp_raise; first [exact oob_allowed | exact exit_allowed | split; discriminate]
  | |- wp _ (load _ _ _) _ _ => apply wp_load; [apply oob_allowed|intros ? ?]
  | |- wp _ (load_bytes _ _ _) _ _ => apply wp_load_bytes; [apply oob_allowed|intros ? ?]
  | |- wp _ (or_oob _) _ _ => apply wp_or_oob; [apply oob_allowed|intros ? ?]
  | |- wp _ (m_type _ _) _ _ => unfold m_type
  | |- wp _ (m_len _ _) _ _ => unfold m_len
  | |- wp _ (m_machine_id _ _) _ _ => unfold m_machine_id
  | |- wp _ (m_site_id _ _) _ _ => unfold m_site_id
  | |- wp _ (m_incarnation _ _) _ _ => unfold m_incarnation
  | |- wp _ (m_counter _ _) _ _ => unfold m_counter
  | |- wp _ (m_mt_num _ _) _ _ => unfold m_mt_num
  | |- wp _ (m_mt_index _ _) _ _ => unfold m_mt_index
  | |- wp _ (load_ps _ _) _ _ => unfold load_ps
  | |- wp _ (loop_then _ _) _ _ => apply wp_loop_then
  | |- wp _ (let _ := _ in _) _ _ => cbv zeta
  | |- wp _ (if ?c then _ else _) _ _ => let E := fresh "E" in destruct c eqn:E
  end; cbv beta iota.

Ltac wps := repeat wp1.

(** A validator that refused has nothing to prove. *)
Ltac refused :=
  match goal with |- _ = _ /\ (false = true -> _) => split; [reflexivity|discriminate] end.

Section ReadOnly.
Context {crypto : Crypto} (env : val_env) (buf : list byte).

Lemma wp_Digests Q (s : Z) n :
  (forall d, 0 <= d <= 8 -> (forall t : Z, MT_Digests_ n t = Ret (d, t)) -> Q d s) ->
  wp fuel_is_enough (MT_Digests_ n) Q s.
Proof.
  intros H. unfold MT_Digests_ in *.
  repeat (destruct (_ <=? _); [apply wp_ret, H; [lia|reflexivity]|]).
  apply wp_raise, exit_allowed.
Qed.

(** The size a message claims, header and digests included. *)
Definition size_at (p v : Z) : Prop :=
  forall t : Z, UTIL_Message_Size buf p t = Ret (v, t).

Lemma wp_Message_Size Q (s : Z) p :
  (forall v, 0 <= v < two32 -> size_at p v -> Q v s) ->
  wp fuel_is_enough (UTIL_Message_Size buf p) Q s.
Proof.
  intros H. unfold UTIL_Message_Size.
  do 2 (wp1; wp1). apply wp_bind, wp_Digests. intros d _ Hd. apply wp_ret, H.
  - apply wrap32_bounds.
  - intros t. unfold size_at, UTIL_Message_Size, load, load_bytes, bind.
    unfold word_at in *.
    destruct (slice buf (p + o_signed_message_len) 4); [|discriminate].
    destruct (slice buf (p + o_signed_message_mt_num) 2); [|discriminate].
    cbn in *. simplify_eq/=. rewrite Hd. reflexivity.
Qed.

(** A computation whose result a state-independent [wp] bounds also has that
    result. *)
Lemma wp_result {A} (m : comp Z A) (Q : A -> Z -> Prop) s :
  wp fuel_is_enough m (fun _ t => t = s) s ->
  (forall a, m s = Ret (a, s) -> Q a s) ->
  wp fuel_is_enough m Q s.
Proof.
  unfold wp. destruct (m s) as [[a t]|f] eqn:E; [intros -> H; auto|auto].
Qed.

Lemma ro_copy_into (s : Z) mem off bs :
  wp fuel_is_enough (copy_into mem off bs) (fun _ t => t = s) s.
Proof. unfold copy_into. wps; reflexivity. Qed.

Lemma ro_complete_pp_digest s pp :
  wp fuel_is_enough (complete_pp_digest env buf pp) (fun _ t => t = s) s.
Proof.
  unfold complete_pp_digest.
  repeat first [wp1 | reflexivity
               | eapply wp_conseq; [apply ro_copy_into|cbv beta; intros ? ? ->]].
Qed.

Lemma ro_find_ack_part s part n mid seq d :
  wp fuel_is_enough (find_ack_part buf part n mid seq d)
     (fun r t => t = s) s.
Proof.
  unfold find_ack_part. apply (wp_for _ (fun _ _ t => t = s)); [|reflexivity|auto].
  intros i x t _ ->. cbv zeta. wps; reflexivity.
Qed.

Lemma ro_State_Permits s p :
  wp fuel_is_enough (VAL_State_Permits_Message env buf p) (fun _ t => t = s) s.
Proof. unfold VAL_State_Permits_Message. wps. reflexivity. Qed.

Lemma ro_Signature_Type s p :
  wp fuel_is_enough (VAL_Signature_Type buf p) (fun _ t => t = s) s.
Proof.
  unfold VAL_Signature_Type. wps.
  destruct (type_of _) as [[]|]; wps; reflexivity.
Qed.

Lemma ro_Validate_Incarnation s sig p :
  wp fuel_is_enough (VAL_Validate_Incarnation env buf sig p) (fun _ t => t = s) s.
Proof.
  unfold VAL_Validate_Incarnation. wps.
  all: try reflexivity.
  all: match goal with |- context [match ?o with None => _ | _ => _ end] => destruct o end;
       wps; reflexivity.
Qed.

Lemma ro_make_node s dt n :
  wp fuel_is_enough (make_node (S := Z) dt n) (fun _ t => t = s) s.
Proof. unfold make_node. wps. reflexivity. Qed.

(** The climb halves its index, an [int32], so 33 turns are enough. *)
Lemma ro_Make_Digest_From_Set s i read d num vdt :
  (forall di t, wp fuel_is_enough (read di) (fun _ u => u = t) t) ->
  wp fuel_is_enough (MT_Make_Digest_From_Set (S := Z) i read d num vdt)
     (fun _ t => t = s) s.
Proof.
  intros Hr. unfold MT_Make_Digest_From_Set. cbv zeta. wps.
  set (n0 := sint32 (i + num - 1)) in *.
  set (mu := fun x : Z * Z * list digest =>
               let '(n, _, _) := x in if n <=? 1 then 0 else 1 + Z.log2 n).
  apply (wp_while _ (fun _ t => t = s) mu).
  - intros [[n di] v] t -> Hn. wps.
    all: repeat first [ wp1 | eapply wp_conseq; [apply Hr|cbv beta; intros ? ? ->]
           | eapply wp_conseq; [apply ro_make_node|cbv beta; intros ? ? ->] ].
    all: split; [reflexivity|]; unfold mu; bools;
      rewrite !MT_Parent_div by lia; pose proof (Z.log2_nonneg (n / 2));
      pose proof (log2_half n ltac:(lia));
      repeat match goal with |- context [?a <=? 1] => destruct (Z.leb_spec a 1) end; lia.
  - intros [[n di] v] t -> _. wps. reflexivity.
  - reflexivity.
  - unfold mu. assert (n0 < 2 ^ 31) by (unfold n0, sint32; unwrap;
      destruct (Z.ltb_spec ((i + num - 1) mod 4294967296) 2147483648);
      pose proof (Z.mod_pos_bound (i + num - 1) 4294967296); lia).
    destruct (Z.leb_spec n0 1); [lia|].
    pose proof (Z.log2_nonneg n0).
    assert (Z.log2 n0 < 31) by (apply Z.log2_lt_pow2; lia). lia.
Qed.

Lemma ro_MT_Verify s p :
  wp fuel_is_enough (MT_Verify (S := Z) buf p) (fun _ t => t = s) s.
Proof.
  unfold MT_Verify, load_header.
  repeat first [wp1 | reflexivity
    | eapply wp_conseq;
        [apply ro_Make_Digest_From_Set; intros; wps; reflexivity|cbv beta; intros ? ? ->]].
Qed.

Lemma ro_Is_Valid_Signature s sig sender site p :
  wp fuel_is_enough (VAL_Is_Valid_Signature buf sig sender site p) (fun _ t => t = s) s.
Proof.
  unfold VAL_Is_Valid_Signature. cbv zeta.
  repeat first [wp1 | reflexivity | apply ro_MT_Verify].
Qed.
End ReadOnly.

(** Uses of a read-only lemma: its result becomes an equation. *)
Ltac ro lem := apply wp_result; [apply lem|intros ? ?].

(** ** Signed messages *)
Section Signed.
Context {crypto : Crypto} (env : val_env) (buf : list byte).

(** What [VAL_Validate_Signed_Message] checks: type, sizes, sender,
    incarnation (unless nested messages' incarnations are ignored) and
    signature, in the words of the code's own predicates. *)
Record signed_ok (flag p n : Z) : Prop := {
  so_type : exists t, word_at buf 4 (p + o_signed_message_type) = Some (type_val t)
              /\ t <> DUMMY;
  so_size : exists len mt_num d,
      word_at buf 4 (p + o_signed_message_len) = Some len /\
      word_at buf 2 (p + o_signed_message_mt_num) = Some mt_num /\ mt_num <= 256 /\
      (forall t : Z, MT_Digests_ mt_num t = Ret (d, t)) /\ 0 <= d <= 8 /\
      n = sz_signed_message + len + d * DIGEST_SIZE;
  so_max : n <= PRIME_MAX_PACKET_SIZE;
  so_sender : exists sig sender site,
      VAL_Signature_Type buf p flag = Ret (sig, flag) /\
      word_at buf 4 (p + o_signed_message_machine_id) = Some sender /\
      word_at buf 4 (p + o_signed_message_site_id) = Some site /\
      sig <> VAL_TYPE_INVALID /\ VAL_Validate_Sender sig sender = true /\
      (flag = 0 -> VAL_Validate_Incarnation env buf sig p flag = Ret (true, flag)) /\
      VAL_Is_Valid_Signature buf sig sender site p flag = Ret (true, flag)
}.

Definition signature_types : list Z :=
  [VAL_TYPE_INVALID; VAL_SIG_TYPE_SERVER; VAL_SIG_TYPE_CLIENT; VAL_SIG_TYPE_MERKLE;
   VAL_SIG_TYPE_TPM_SERVER; VAL_SIG_TYPE_TPM_MERKLE].

(** No message is unsigned or signed by its site. *)
Lemma Signature_Type_range p s sig :
  VAL_Signature_Type buf p s = Ret (sig, s) -> sig ∈ signature_types.
Proof.
  assert (H : wp fuel_is_enough (VAL_Signature_Type buf p)
                (fun sig _ => sig ∈ signature_types) s).
  { unfold VAL_Signature_Type. wps.
    all: destruct (type_of _) as [[]|]; wps; repeat case_match;
      apply (bool_decide_unpack _); vm_compute; exact I. }
  intros E. exact (wp_Ret _ _ _ _ _ _ H E).
Qed.

Lemma type_below_MAX v : 0 <= v < MAX_MESS_TYPE -> exists t, v = type_val t.
Proof.
  intros H. destruct (type_of v) as [t|] eqn:E; [exists t; apply type_val_of, E|].
  exfalso. unfold type_of in E. destruct (Z.ltb_spec v 0); [lia|].
  apply lookup_ge_None in E. unfold MAX_MESS_TYPE in H. lia.
Qed.

Lemma sender_is_machine sig (x y : Z) :
  sig ∈ signature_types -> sig <> VAL_TYPE_INVALID ->
  (if (sig =? VAL_SIG_TYPE_SERVER) || (sig =? VAL_SIG_TYPE_MERKLE)
      || (sig =? VAL_SIG_TYPE_CLIENT) || (sig =? VAL_SIG_TYPE_TPM_SERVER)
      || (sig =? VAL_SIG_TYPE_TPM_MERKLE) then x else y) = x.
Proof.
  unfold signature_types. rewrite !elem_of_cons.
  intros [->|[->|[->|[->|[->|[->|H]]]]]] Hn; try reflexivity; [congruence|].
  apply elem_of_nil in H. destruct H.
Qed.

Lemma signed_ok_intro s p n type mt_num mt_index len d sig sender site :
  word_at buf 4 (p + o_signed_message_type) = Some type ->
  (type =? type_val DUMMY) || (MAX_MESS_TYPE <=? type) = false ->
  word_at buf 2 (p + o_signed_message_mt_num) = Some mt_num ->
  (256 <? mt_num) || (mt_num <? mt_index) = false ->
  word_at buf 4 (p + o_signed_message_len) = Some len -> 0 <= d <= 8 ->
  (forall t : Z, MT_Digests_ mt_num t = Ret (d, t)) ->
  negb (n =? len + sz_signed_message + d * DIGEST_SIZE) = false ->
  (PRIME_MAX_PACKET_SIZE <? n) = false ->
  VAL_Signature_Type buf p s = Ret (sig, s) -> (sig =? VAL_TYPE_INVALID) = false ->
  word_at buf 4 (p + o_signed_message_machine_id) = Some sender ->
  word_at buf 4 (p + o_signed_message_site_id) = Some site ->
  let who := if (sig =? VAL_SIG_TYPE_SERVER) || (sig =? VAL_SIG_TYPE_MERKLE)
      || (sig =? VAL_SIG_TYPE_CLIENT) || (sig =? VAL_SIG_TYPE_TPM_SERVER)
      || (sig =? VAL_SIG_TYPE_TPM_MERKLE) then sender else site in
  VAL_Validate_Sender sig who = true ->
  (s = 0 -> VAL_Validate_Incarnation env buf sig p s = Ret (true, s)) ->
  VAL_Is_Valid_Signature buf sig who site p s = Ret (true, s) ->
  s = s /\ (true = true -> signed_ok s p n).
Proof.
  intros Ht Et Hm Em Hl Hd Ed En Ex Hs Es Hmid Hsite who Hsnd Hinc Hsig.
  bools. assert (Hw : who = sender)
    by (apply sender_is_machine; [exact (Signature_Type_range _ _ _ Hs)|assumption]).
  rewrite Hw in *. split; [reflexivity|intros _]. constructor; [| |lia|].
  - destruct (type_below_MAX type) as [t ->].
    { apply word_at_bounds in Ht. lia. }
    exists t. split; [exact Ht|]. intros ->. congruence.
  - exists len, mt_num, d. repeat split; try assumption; lia.
  - exists sig, sender, site. repeat split; assumption.
Qed.

Lemma Signed_Message_ok s p n :
  wp fuel_is_enough (VAL_Validate_Signed_Message env buf p n true)
     (fun b t => t = s /\ (b = true -> signed_ok s p n)) s.
Proof.
  unfold VAL_Validate_Signed_Message. wps; try refused.
  apply wp_Digests. intros d Hd Ed. wps; try refused.
  ro ro_Signature_Type. wps; try refused.
  - exfalso. bools. subst.
    match goal with H : VAL_Signature_Type _ _ _ = _ |- _ =>
      apply Signature_Type_range, (bool_decide_pack _) in H; vm_compute in H; exact H end.
  - ro ro_Validate_Incarnation. wps; try refused.
    ro ro_Is_Valid_Signature. wps; try refused. eapply signed_ok_intro; eauto.
  - ro ro_Is_Valid_Signature. wps; try refused. eapply signed_ok_intro; eauto.
    bools. congruence.
Qed.
End Signed.

(** ** The contents of messages, against an abstract judgement of nested ones *)
Definition leaf (t : packet_type) : bool :=
  match t with UPDATE | PO_ARU | NEW_LEADER => true | _ => false end.

Section Shapes.
Context {crypto : Crypto} (env : val_env) (buf : list byte).
(** [acc flag p m]: the message of [m] bytes at [p] is accepted when
    [Nested_Ignore_Incarnation] is [flag]. *)
Context (acc : Z -> Z -> Z -> Prop).

Definition type_at (p : Z) (t : packet_type) : Prop :=
  word_at buf 4 (p + o_signed_message_type) = Some (type_val t).
Definition content_of (p : Z) : Z := p + sz_signed_message.
Definition ps_at (p : Z) (q : po_seq_pair) : Prop :=
  word_at buf 4 (p + o_po_seq_pair_incarnation) = Some (incarnation q) /\
  word_at buf 4 (p + o_po_seq_pair_seq_num) = Some (seq_num q).
Definition digest_at (p : Z) (d : digest) : Prop := slice buf p DIGEST_SIZE = Some d.

(** A nested message of type [t] accepted under [flag]. *)
Definition nested (flag : Z) (t : packet_type) (p m : Z) : Prop :=
  type_at p t /\ acc flag p m.

Definition prepare_in (flag seq : Z) (d : digest) (p m : Z) : Prop :=
  nested flag PREPARE p m /\
  word_at buf 4 (content_of p + o_prepare_message_seq_num) = Some seq /\
  digest_at (content_of p + o_prepare_message_digest) d.

Definition commit_in (flag seq : Z) (d : digest) (p m : Z) : Prop :=
  nested flag COMMIT p m /\
  word_at buf 4 (content_of p + o_commit_message_seq_num) = Some seq /\
  digest_at (content_of p + o_commit_message_digest) d.

Definition pc_set_ok (flag p n : Z) : Prop := exists seq m d,
  let pp := p + sz_pc_set_message in
  nested flag PRE_PREPARE pp m /\
  word_at buf 4 (content_of pp + o_pre_prepare_message_seq_num) = Some seq /\
  complete_pp_digest env buf (content_of pp) flag = Ret (d, flag) /\
  tiles (prepare_in flag seq d) (pp + m) (p + n) (two_f_k env).

Definition ord_cert_ok (flag p n : Z) : Prop := exists seq m d,
  let pp := p + sz_ord_certificate_message in
  word_at buf 4 (p + o_ord_certificate_message_seq_num) = Some seq /\
  nested flag PRE_PREPARE pp m /\
  word_at buf 4 (content_of pp + o_pre_prepare_message_seq_num) = Some seq /\
  complete_pp_digest env buf (content_of pp) flag = Ret (d, flag) /\
  tiles (commit_in flag seq d) (pp + m) (p + n) (two_f_k env + 1).

(** A PO-Ack for the PO-Request [seq] of [machine_id] with digest [d], under
    the incarnation vector [vec]. *)
Definition po_ack_in (machine_id : Z) (seq : po_seq_pair) (d : digest)
    (vec : list byte) (p m : Z) : Prop :=
  nested 1 PO_ACK p m /\
  slice buf (content_of p + o_po_ack_message_preinstalled_incarnations) (4 * NUM_SERVERS)
    = Some vec /\
  exists i, 0 <= i /\
    let part := content_of p + sz_po_ack_message + i * sz_po_ack_part in
    word_at buf 4 (part + o_po_ack_part_originator) = Some machine_id /\
    ps_at (part + o_po_ack_part_seq) seq /\ digest_at (part + o_po_ack_part_digest) d.

Definition po_cert_ok (p n : Z) : Prop := exists m seq machine_id bytes vec,
  let pr := p + sz_po_certificate_message in
  ps_at (p + o_po_certificate_message_seq) seq /\
  nested 1 PO_REQUEST pr m /\
  ps_at (content_of pr + o_po_request_message_seq) seq /\
  word_at buf 4 (pr + o_signed_message_machine_id) = Some machine_id /\
  slice buf pr m = Some bytes /\
  tiles (po_ack_in machine_id seq (make_digest bytes) vec) (pr + m) (p + n) (two_f_k env + 1).

Definition inc_ack_in (machine_id inc : Z) (d : digest) (p m : Z) : Prop :=
  nested 1 INCARNATION_ACK p m /\
  word_at buf 4 (content_of p + o_incarnation_ack_message_acked_incarnation) = Some inc /\
  word_at buf 4 (content_of p + o_incarnation_ack_message_acked_id) = Some machine_id /\
  digest_at (content_of p + o_incarnation_ack_message_digest) d.

Definition inc_cert_ok (p n machine_id inc : Z) : Prop := exists m bytes,
  let ni := p + sz_incarnation_cert_message in
  nested 1 NEW_INCARNATION ni m /\
  word_at buf 4 (ni + o_signed_message_incarnation) = Some inc /\
  word_at buf 4 (ni + o_signed_message_machine_id) = Some machine_id /\
  slice buf ni m = Some bytes /\
  tiles (inc_ack_in machine_id inc (make_digest bytes)) (ni + m) (p + n) (two_f_k env + 1).

(** Reset prepares and commits vote for the content of a reset proposal. *)
Definition reset_vote_in (flag : Z) (t : packet_type) (o_view o_digest view : Z)
    (d : digest) (p m : Z) : Prop :=
  nested flag t p m /\ word_at buf 4 (content_of p + o_view) = Some view /\
  digest_at (content_of p + o_digest) d.

Definition reset_proof_ok (flag : Z) (t : packet_type) (o_view o_digest rprop stop votes : Z)
    : Prop := exists m view len bytes,
  nested flag RESET_PROPOSAL rprop m /\
  word_at buf 4 (rprop + o_signed_message_len) = Some len /\
  slice buf (content_of rprop) len = Some bytes /\
  (0 < votes ->
     word_at buf 4 (content_of rprop + o_reset_proposal_message_view) = Some view) /\
  tiles (reset_vote_in flag t o_view o_digest view (make_digest bytes)) (rprop + m) stop votes.

Definition reset_cert_ok (flag p n : Z) : Prop :=
  reset_proof_ok flag RESET_COMMIT o_reset_commit_message_view o_reset_commit_message_digest
    (p + sz_reset_certificate_message) (p + n) (two_f_k env + 1).

Definition reset_viewchange_ok (flag p n : Z) : Prop :=
  exists contains_proposal,
  word_at buf 4 (p + o_reset_viewchange_message_contains_proposal) = Some contains_proposal /\
  if contains_proposal =? 0 then n = sz_reset_viewchange_message
  else reset_proof_ok flag RESET_PREPARE o_reset_prepare_message_view
         o_reset_prepare_message_digest (p + sz_reset_viewchange_message) (p + n) (two_f_k env).

Definition reset_proposal_ok (flag p n : Z) : Prop := exists num_shares,
  word_at buf 4 (p + o_reset_proposal_message_num_shares) = Some num_shares /\
  two_f_k env + 1 <= num_shares <= NUM_SERVERS /\
  tiles (nested flag RESET_SHARE) (p + sz_reset_proposal_message) (p + n) num_shares.

Definition reset_nlp_ok (flag p n : Z) : Prop :=
  tiles (nested flag RESET_NEWLEADER) (p + sz_reset_newleaderproof_message) (p + n)
    (two_f_k env + 1).

Definition jump_ok (flag p n : Z) : Prop := exists seq off m,
  word_at buf 4 (p + o_jump_message_seq_num) = Some seq /\
  (if 0 <? seq then
     exists m0, nested 1 ORD_CERT (p + sz_jump_message) m0 /\ off = sz_jump_message + m0
   else off = sz_jump_message) /\
  nested flag RESET_CERT (p + off) m /\ off + m = n.

Definition new_leader_in (flag view p m : Z) : Prop :=
  nested flag NEW_LEADER p m /\ m = sz_signed_message + sz_new_leader_message /\
  word_at buf 4 (content_of p + o_new_leader_message_new_view) = Some view.

Definition new_leader_proof_ok (flag p n : Z) : Prop :=
  let nl_size := sz_signed_message + sz_new_leader_message in
  let first := p + sz_new_leader_proof_message in
  n = wrap32 (sz_new_leader_proof_message + (two_f_k env + 1) * nl_size) /\
  exists view,
  word_at buf 4 (p + o_new_leader_proof_message_new_view) = Some view /\
  tiles (new_leader_in flag view) first (first + (two_f_k env + 1) * nl_size)
    (two_f_k env + 1).

Definition po_request_ok (flag p n : Z) : Prop := exists num_events,
  word_at buf 4 (p + o_po_request_message_num_events) = Some num_events /\
  tiles (nested flag UPDATE) (p + sz_po_request_message) (p + n) num_events.

(** The PO-ARUs of a proof matrix or pre-prepare, up to the first whose type
    is [DUMMY]; nothing is said of those after it. *)
Definition po_arus_ok (first num_acks : Z) : Prop := exists j,
  0 <= j <= num_acks /\
  tiles (nested 1 PO_ARU) first (first + j * sz_po_aru_signed_message) j /\
  (j < num_acks -> type_at (first + j * sz_po_aru_signed_message) DUMMY).

Definition proof_matrix_ok (p n : Z) : Prop := exists num_acks,
  word_at buf 4 (p + o_proof_matrix_message_num_acks_in_this_message) = Some num_acks /\
  n = wrap32 (sz_proof_matrix_message + num_acks * sz_po_aru_signed_message) /\
  po_arus_ok (p + sz_proof_matrix_message) num_acks.

Definition pre_prepare_ok (p n : Z) : Prop := exists num_acks seq,
  word_at buf 4 (p + o_pre_prepare_message_num_acks_in_this_message) = Some num_acks /\
  n = wrap32 (sz_pre_prepare_message + num_acks * sz_po_aru_signed_message) /\
  word_at buf 4 (p + o_pre_prepare_message_seq_num) = Some seq /\ seq <> 0 /\
  word_at buf 2 (p + o_pre_prepare_message_part_num) = Some 1 /\
  word_at buf 2 (p + o_pre_prepare_message_total_parts) = Some 1 /\
  po_arus_ok (p + sz_pre_prepare_message) num_acks.

Definition po_ack_ok (p n : Z) : Prop := exists num_parts,
  word_at buf 4 (p + o_po_ack_message_num_ack_parts) = Some num_parts /\
  n = wrap32 (sz_po_ack_message + num_parts * sz_po_ack_part) /\
  forall i, 0 <= i < num_parts ->
    let part := p + sz_po_ack_message + i * sz_po_ack_part in
    exists seq originator, ps_at (part + o_po_ack_part_seq) seq /\ seq_num seq <> 0 /\
      word_at buf 4 (part + o_po_ack_part_originator) = Some originator /\
      1 <= originator <= NUM_SERVERS.

Definition pending_share_ok (p n : Z) : Prop := exists t m,
  let mess := p + sz_pending_share_message in
  word_at buf 4 (p + o_pending_share_message_type) = Some (type_val t) /\
  (t = PRE_PREPARE \/ t = PO_REQUEST) /\ nested 1 t mess m /\
  m <= n - sz_pending_share_message.

Definition rb_ok (flag p n : Z) : Prop := exists t,
  (t = REPORT \/ t = PC_SET \/ t = RESET_VIEWCHANGE \/ t = RESET_NEWVIEW) /\
  permitted (my_recovery_status env) t = true /\ nested flag t p n.

(** Sizes of the messages without variable parts. *)
Definition fixed_size (t : packet_type) : option Z :=
  match t with
  | PO_ARU => Some sz_po_aru_message
  | PREPARE => Some sz_prepare_message
  | COMMIT => Some sz_commit_message
  | TAT_MEASURE => Some sz_tat_measure_message
  | RTT_PING => Some sz_rtt_ping_message
  | RTT_PONG => Some sz_rtt_pong_message
  | RTT_MEASURE => Some sz_rtt_measure_message
  | TAT_UB => Some sz_tat_ub_message
  | NEW_LEADER => Some sz_new_leader_message
  | REPORT => Some sz_report_message
  | VC_LIST => Some sz_vc_list_message
  | VC_PARTIAL_SIG => Some sz_vc_partial_sig_message
  | VC_PROOF => Some sz_vc_proof_message
  | REPLAY => Some sz_replay_message
  | REPLAY_PREPARE => Some sz_replay_prepare_message
  | REPLAY_COMMIT => Some sz_replay_commit_message
  | CATCHUP_REQUEST => Some sz_catchup_request_message
  | NEW_INCARNATION => Some sz_new_incarnation_message
  | INCARNATION_ACK => Some sz_incarnation_ack_message
  | PENDING_STATE => Some sz_pending_state_message
  | RESET_VOTE => Some sz_reset_vote_message
  | RESET_SHARE => Some sz_reset_share_message
  | RESET_PREPARE => Some sz_reset_prepare_message
  | RESET_COMMIT => Some sz_reset_commit_message
  | RESET_NEWLEADER => Some sz_reset_newleader_message
  | RESET_NEWVIEW => Some sz_reset_newview_message
  | _ => None
  end.

(** What acceptance of a message's content of [n] bytes at [p] means. *)
Definition content_ok (flag : Z) (t : packet_type) (p n machine_id inc : Z) : Prop :=
  match t with
  | UPDATE => sz_update_message <= n <= sz_update_message + UPDATE_SIZE
  | PO_REQUEST => po_request_ok flag p n
  | PO_ACK => po_ack_ok p n
  | PROOF_MATRIX => proof_matrix_ok p n
  | PRE_PREPARE => pre_prepare_ok p n
  | NEW_LEADER_PROOF => new_leader_proof_ok flag p n
  | RB_INIT | RB_ECHO | RB_READY => rb_ok flag p n
  | PC_SET => pc_set_ok flag p n
  | ORD_CERT => ord_cert_ok flag p n
  | PO_CERT => po_cert_ok p n
  | JUMP => jump_ok flag p n
  | INCARNATION_CERT => inc_cert_ok p n machine_id inc
  | PENDING_SHARE => pending_share_ok p n
  | RESET_PROPOSAL => reset_proposal_ok flag p n
  | RESET_NEWLEADERPROOF => reset_nlp_ok flag p n
  | RESET_VIEWCHANGE => reset_viewchange_ok flag p n
  | RESET_CERT => reset_cert_ok flag p n
  | DUMMY | RECON | CLIENT_RESPONSE => True
  | _ => fixed_size t = Some n
  end.
End Shapes.

(** ** Every validator, given what the recursive call guarantees *)
Section Contents.
Context {crypto : Crypto} (ok : CryptoOk crypto) (env : val_env) (buf : list byte).
Context (acc : Z -> Z -> Z -> Prop) (VM : Z -> Z -> comp Z bool) (n : Z).
Context (acc_len : forall s p m, acc s p m -> exists len,
           word_at buf 4 (p + o_signed_message_len) = Some len /\
           sz_signed_message + len <= m <= PRIME_MAX_PACKET_SIZE)
        (Hbuf : Z.of_nat (length buf) <= 2147483648)
        (Hn : 0 <= n < two32) (Hfk : 0 <= two_f_k env).

(** The nested messages a content of [n] bytes has validated: no larger than
    itself, or of a type that holds no others. *)
Definition call_ok (p m : Z) : Prop :=
  0 <= m <= n \/ exists t, type_at buf p t /\ leaf t = true.

Context (HVM : forall s p m, call_ok p m ->
  wp fuel_is_enough (VM p m) (fun b t => t = s /\ (b = true -> acc s p m)) s).

Lemma word_nonneg w p v : word_at buf w p = Some v -> 0 <= v.
Proof. intros H. apply word_at_bounds in H. lia. Qed.

Lemma acc_size s p m : acc s p m -> sz_signed_message <= m.
Proof.
  intros H. destruct (acc_len s p m H) as (len & Hl & Hm). apply word_nonneg in Hl. lia.
Qed.

Lemma wp_VM Q s p m :
  call_ok p m -> (forall b, (b = true -> acc s p m) -> Q b s) ->
  wp fuel_is_enough (VM p m) Q s.
Proof.
  intros Hc HQ. eapply wp_conseq; [apply (HVM s p m Hc)|].
  intros b t [-> Hb]. auto.
Qed.

(** What a validator leaves and, when it accepts, establishes. *)
Definition validated (s : Z) (G : Prop) (b : bool) (t : Z) : Prop :=
  t = s /\ (b = true -> G).

(** ** Loops over messages laid end to end *)
Definition laid (P : Z -> Z -> Prop) (p start sum count : Z) : Prop :=
  tiles P start (p + sum) count /\ 0 <= count <= sum /\ sum <= n.

Definition room (sum : Z) : Z := (n - sum) / sz_signed_message.

Lemma laid_fits sum m :
  0 <= sum <= n -> 0 <= m < two32 -> m <= wrap32 (n - sum) ->
  m <= n - sum /\ wrap32 (sum + m) = sum + m.
Proof.
  intros Hs Hm H. rewrite wrap32_small in H by lia.
  split; [lia|]. apply wrap32_small. lia.
Qed.

Lemma laid_step (P : Z -> Z -> Prop) p start sum count m :
  laid P p start sum count -> 0 <= m < two32 ->
  m <= wrap32 (n - sum) -> sz_signed_message <= m -> P (p + sum) m ->
  laid P p start (wrap32 (sum + m)) (wrap32 (count + 1)) /\
  0 <= room (wrap32 (sum + m)) < room sum.
Proof.
  intros (T & Hc & Hs) Hm H Hsz HP.
  destruct (laid_fits sum m ltac:(lia) Hm H) as [Hle ->].
  rewrite wrap32_small by (unfold sz_signed_message in *; lia).
  unfold laid, room, sz_signed_message in *. repeat split; try lia.
  - replace (p + (sum + m)) with (p + sum + m) by lia. constructor; assumption.
  - apply Z.div_pos; lia.
  - apply Z.div_lt_upper_bound; [lia|]. pose proof (Z.mul_succ_div_gt (n - sum) 156). lia.
Qed.

Lemma laid_turn (P : Z -> Z -> Prop) p start sum count m (G : Prop) :
  laid P p start sum count -> 0 <= m < two32 ->
  m <= wrap32 (n - sum) -> sz_signed_message <= m -> P (p + sum) m ->
  (laid P p start (wrap32 (sum + m)) (wrap32 (count + 1)) ->
   wrap32 (sum + m) = sum + m -> 0 <= room (wrap32 (sum + m)) < room sum -> G) -> G.
Proof.
  intros HL Hm H Hsz HP HG. destruct HL as (T & Hc & Hs).
  destruct (laid_fits sum m ltac:(lia) Hm H) as [_ Hw].
  destruct (laid_step P p start sum count m) as [? ?]; [split; [exact T|lia]|auto..].
Qed.

Lemma laid_revise (P P' : Z -> Z -> Prop) p start sum count :
  count = 0 \/ P' = P -> laid P p start sum count -> laid P' p start sum count.
Proof.
  intros [Hc| ->] [T Hb]; split; auto. exact (tiles_zero _ _ _ _ _ T Hc).
Qed.

Lemma laid_bounds (P : Z -> Z -> Prop) p start sum count :
  laid P p start sum count -> 0 <= sum <= n.
Proof. intros (_ & ? & ?). lia. Qed.

Lemma laid_start (P : Z -> Z -> Prop) p a sum :
  a = p + sum -> 0 <= sum <= n -> laid P p a sum 0.
Proof. intros -> H. repeat split; [constructor|lia..]. Qed.

Lemma room_fuel sum : 0 <= sum <= n -> 0 <= room sum < Z.of_nat (loop_fuel n).
Proof.
  intros H. unfold room, loop_fuel, sz_signed_message. split; [apply Z.div_pos; lia|].
  assert (0 <= n / 156) by (apply Z.div_pos; lia).
  assert ((n - sum) / 156 <= n / 156) by (apply Z.div_le_mono; lia). lia.
Qed.

Lemma call_small p sum m :
  0 <= sum <= n -> 0 <= m < two32 -> m <= wrap32 (n - sum) -> call_ok p m.
Proof. intros Hs Hm H. left. destruct (laid_fits sum m Hs Hm H). lia. Qed.

Lemma digest_at_equal p d bs :
  slice buf p DIGEST_SIZE = Some bs -> Z.of_nat (length d) = DIGEST_SIZE ->
  OPENSSL_RSA_Digests_Equal bs d = true -> digest_at buf p d.
Proof.
  intros Hs Hd He. apply Digests_Equal_spec in He; [subst; exact Hs| |exact Hd].
  apply slice_length in Hs. unfold DIGEST_SIZE in *. lia.
Qed.

Lemma complete_pp_digest_facts pp s d :
  complete_pp_digest env buf pp s = Ret (d, s) ->
  Z.of_nat (length d) = DIGEST_SIZE /\
  is_Some (word_at buf 4 (pp + o_pre_prepare_message_seq_num)).
Proof.
  assert (H : wp fuel_is_enough (complete_pp_digest env buf pp)
    (fun d _ => Z.of_nat (length d) = DIGEST_SIZE /\
       is_Some (word_at buf 4 (pp + o_pre_prepare_message_seq_num))) s).
  { unfold complete_pp_digest. wp1. wp1. wp1.
    repeat first [wp1 | eapply wp_conseq; [apply ro_copy_into|cbv beta; intros ? ? ->]].
    split; [apply make_digest_length|]. unfold word_at.
    match goal with H : slice buf (pp + o_pre_prepare_message_seq_num) 4 = _ |- _ =>
      rewrite H end. cbn. eauto. }
  intros E. exact (wp_Ret _ _ _ _ _ _ H E).
Qed.

(** One turn of symbolic execution of a validator: the rules of [wp1], the
    nested calls, the message sizes. *)
Ltac vstep :=
  first
  [ wp1
  | lazymatch goal with
    | |- wp _ (UTIL_Message_Size _ _) _ _ => apply wp_Message_Size; intros ? ? ?
    | |- wp _ (match ?o with Some _ => _ | None => _ end) _ _ =>
        let E := fresh "E" in destruct o eqn:E
    end
  | match goal with |- _ = _ /\ (false = true -> _) => split; [reflexivity|discriminate] end
  | match goal with |- turn _ _ (inr false) _ => split; [reflexivity|discriminate] end
  | match goal with |- validated _ _ false _ => split; [reflexivity|discriminate] end ].

Ltac sizes :=
  unfold sz_signed_message, sz_ord_certificate_message, sz_pc_set_message,
    sz_po_certificate_message, sz_jump_message, sz_incarnation_cert_message,
    sz_pending_share_message, sz_reset_proposal_message, sz_reset_newleaderproof_message,
    sz_reset_viewchange_message, sz_reset_certificate_message, two32 in *.

(** A turn's new locals; what is left is that the message counts. *)
Ltac turn_done :=
  cbn [turn]; eapply laid_turn;
  [eassumption|eassumption|eassumption|eapply acc_size; eauto| |
   intros ? ? ?; fin].

(** The nested call on the message [sum] bytes into the content. *)
Ltac vcall sum :=
  bools; apply wp_VM;
  [ apply (call_small _ sum); try assumption; unfold room_for_header, go_on in *; bools;
    sizes; lia
  | intros ? ?; repeat vstep ].

Lemma Update_spec s p :
  wp fuel_is_enough (VAL_Validate_Update p n)
     (validated s (sz_update_message <= n <= sz_update_message + UPDATE_SIZE)) s.
Proof. unfold VAL_Validate_Update. repeat vstep. bools. split; [reflexivity|intros _; lia]. Qed.

Lemma type_of_eq p v t :
  word_at buf 4 (p + o_signed_message_type) = Some v -> v = type_val t -> type_at buf p t.
Proof. intros H ->. exact H. Qed.

Lemma ORD_Certificate_spec s p :
  wp fuel_is_enough (VAL_Validate_ORD_Certificate env buf VM p n)
     (validated s (ord_cert_ok env buf acc s p n)) s.
Proof.
  unfold VAL_Validate_ORD_Certificate. repeat vstep. bools.
  vcall sz_ord_certificate_message. bools. subst.
  ro ro_complete_pp_digest. repeat vstep.
  set (pp := p + sz_ord_certificate_message) in *.
  destruct (laid_fits sz_ord_certificate_message v0) as [Hle Hw]; [sizes; lia..|].
  rewrite Hw.
  apply (wp_while _ (fun '(mess, msz, sum, count) t => t = s /\ mess + msz = p + sum /\
           laid (commit_in buf acc s v3 a) p (pp + v0) sum count)
           (fun '(_, _, sum, _) => room sum)).
  - intros [[[mess msz] sum] count] t (-> & Hq & HL) Hc.
    pose proof (laid_bounds _ _ _ _ _ HL). repeat vstep. vcall sum. bools. subst.
    rewrite Hq in *. turn_done.
    unfold commit_in, nested, content_of. repeat split; eauto.
    eapply digest_at_equal; eauto. eapply complete_pp_digest_facts; eauto.
  - intros [[[mess msz] sum] count] t (-> & Hq & HL) Hc. repeat vstep. bools. subst.
    split; [reflexivity|intros _]. exists v3, v0, a. cbv zeta. fold pp.
    unfold nested. repeat split; eauto. apply HL.
  - split; [reflexivity|split; [lia|]]. apply laid_start; sizes; lia.
  - apply room_fuel; sizes; lia.
Qed.

Lemma PC_Set_spec s p :
  wp fuel_is_enough (VAL_Validate_PC_Set env buf VM p n)
     (validated s (pc_set_ok env buf acc s p n)) s.
Proof.
  unfold VAL_Validate_PC_Set. repeat vstep. vcall sz_pc_set_message. bools. subst.
  ro ro_complete_pp_digest. repeat vstep.
  set (pp := p + sz_pc_set_message) in *.
  destruct (laid_fits sz_pc_set_message v0) as [Hle Hw]; [sizes; lia..|]. rewrite Hw.
  destruct (complete_pp_digest_facts _ _ _ ltac:(eassumption)) as [Hd [seq Hseq]].
  apply (wp_while _ (fun '(mess, msz, sum, count) t => t = s /\ mess + msz = p + sum /\
           laid (prepare_in buf acc s seq a) p (pp + v0) sum count)
           (fun '(_, _, sum, _) => room sum)).
  - intros [[[mess msz] sum] count] t (-> & Hq & HL) Hc.
    pose proof (laid_bounds _ _ _ _ _ HL). repeat vstep. vcall sum. bools. simplify_eq.
    rewrite Hq in *. turn_done.
    unfold prepare_in, nested, content_of. repeat split; eauto.
    eapply digest_at_equal; eauto.
  - intros [[[mess msz] sum] count] t (-> & Hq & HL) Hc. repeat vstep. bools. subst.
    split; [reflexivity|intros _]. exists seq, v0, a. cbv zeta. fold pp.
    unfold nested. repeat split; eauto. apply HL.
  - split; [reflexivity|split; [lia|]]. apply laid_start; sizes; lia.
  - apply room_fuel; sizes; lia.
Qed.

Lemma Incarnation_Cert_spec s p machine_id inc :
  wp fuel_is_enough (VAL_Validate_Incarnation_Cert env buf VM p n machine_id inc)
     (validated s (inc_cert_ok env buf acc p n machine_id inc)) s.
Proof.
  unfold VAL_Validate_Incarnation_Cert. repeat vstep.
  vcall sz_incarnation_cert_message. bools. subst.
  set (ni := p + sz_incarnation_cert_message) in *.
  destruct (laid_fits sz_incarnation_cert_message v) as [Hle Hw]; [sizes; lia..|]. rewrite Hw.
  apply (wp_while _ (fun '(sum, count) t => t = s /\
           laid (inc_ack_in buf acc machine_id inc (make_digest bs)) p (ni + v) sum count)
           (fun '(sum, _) => room sum)).
  - intros [sum count] t (-> & HL) Hc.
    pose proof (laid_bounds _ _ _ _ _ HL). repeat vstep. vcall sum. bools. simplify_eq.
    turn_done. unfold inc_ack_in, nested, content_of. repeat split; eauto.
    eapply digest_at_equal; eauto. apply make_digest_length.
  - intros [sum count] t (-> & HL) Hc. repeat vstep. bools. subst.
    split; [reflexivity|intros _]. exists v, bs. cbv zeta. fold ni.
    unfold nested. repeat split; eauto. apply HL.
  - split; [reflexivity|]. apply laid_start; sizes; lia.
  - apply room_fuel; sizes; lia.
Qed.

Lemma Reset_Proposal_spec s p :
  wp fuel_is_enough (VAL_Validate_Reset_Proposal env buf VM p n)
     (validated s (reset_proposal_ok env buf acc s p n)) s.
Proof.
  unfold VAL_Validate_Reset_Proposal. repeat vstep. bools.
  apply (wp_while _ (fun '(sum, count, _) t => t = s /\
           laid (nested buf acc s RESET_SHARE) p (p + sz_reset_proposal_message) sum count)
           (fun '(sum, _, _) => room sum)).
  - intros [[sum count] brk] t (-> & HL) Hc.
    pose proof (laid_bounds _ _ _ _ _ HL). repeat vstep. vcall sum. bools. simplify_eq.
    turn_done. split; eauto.
  - intros [[sum count] brk] t (-> & HL) Hc. repeat vstep. bools. subst.
    split; [reflexivity|intros _]. exists v. repeat split; eauto. apply HL.
  - split; [reflexivity|]. apply laid_start; sizes; lia.
  - apply room_fuel; sizes; lia.
Qed.

Lemma Reset_NewLeaderProof_spec s p :
  wp fuel_is_enough (VAL_Validate_Reset_NewLeaderProof env buf VM p n)
     (validated s (reset_nlp_ok env buf acc s p n)) s.
Proof.
  unfold VAL_Validate_Reset_NewLeaderProof. repeat vstep. bools.
  apply (wp_while _ (fun '(sum, count, _) t => t = s /\
           laid (nested buf acc s RESET_NEWLEADER) p (p + sz_reset_newleaderproof_message)
             sum count)
           (fun '(sum, _, _) => room sum)).
  - intros [[sum count] brk] t (-> & HL) Hc.
    pose proof (laid_bounds _ _ _ _ _ HL). repeat vstep. vcall sum. bools. simplify_eq.
    turn_done. split; eauto.
  - intros [[sum count] brk] t (-> & HL) Hc. repeat vstep. bools. subst.
    split; [reflexivity|intros _]. apply HL.
  - split; [reflexivity|]. apply laid_start; sizes; lia.
  - apply room_fuel; sizes; lia.
Qed.

(** A word every turn reads: after the first turn it is known. *)
Definition seen (p v count : Z) : Prop := count = 0 \/ word_at buf 4 p = Some v.

Lemma seen_pos p v count : seen p v count -> 0 < count -> word_at buf 4 p = Some v.
Proof. intros [->|H] Hc; [lia|exact H]. Qed.

Definition word_or_0 (p : Z) : Z := default 0 (word_at buf 4 p).

Lemma word_or_0_eq p v : word_at buf 4 p = Some v -> word_or_0 p = v.
Proof. unfold word_or_0. intros ->. reflexivity. Qed.

Lemma Reset_Certificate_spec s p :
  wp fuel_is_enough (VAL_Validate_Reset_Certificate env buf VM p n)
     (validated s (reset_cert_ok env buf acc s p n)) s.
Proof.
  unfold VAL_Validate_Reset_Certificate. repeat vstep.
  vcall sz_reset_certificate_message. bools. subst.
  set (rprop := p + sz_reset_certificate_message) in *.
  set (pview := rprop + sz_signed_message + o_reset_proposal_message_view) in *.
  destruct (laid_fits sz_reset_certificate_message v) as [Hle Hw]; [sizes; lia..|]. rewrite Hw.
  apply (wp_while _ (fun '(sum, count, _) t => t = s /\ seen pview (word_or_0 pview) count /\
           laid (reset_vote_in buf acc s RESET_COMMIT o_reset_commit_message_view
                   o_reset_commit_message_digest (word_or_0 pview) (make_digest bs))
                p (rprop + v) sum count)
           (fun '(sum, _, _) => room sum)).
  - intros [[sum count] brk] t (-> & Hv & HL) Hc.
    pose proof (laid_bounds _ _ _ _ _ HL). repeat vstep. vcall sum. bools. simplify_eq.
    erewrite word_or_0_eq in * by eassumption. turn_done; [|right; assumption].
    unfold reset_vote_in, nested, content_of. repeat split; eauto.
    eapply digest_at_equal; eauto. apply make_digest_length.
  - intros [[sum count] brk] t (-> & Hv & HL) Hc. repeat vstep. bools. subst.
    split; [reflexivity|intros _]. eexists v, _, _, bs. unfold nested. fold rprop.
    split; [eauto|]. split; [eassumption|]. split; [assumption|].
    split; [|apply HL]. apply seen_pos. exact Hv.
  - split; [reflexivity|]. split; [left; reflexivity|]. apply laid_start; sizes; lia.
  - apply room_fuel; sizes; lia.
Qed.

Lemma Reset_ViewChange_spec s p :
  wp fuel_is_enough (VAL_Validate_Reset_ViewChange env buf VM p n)
     (validated s (reset_viewchange_ok env buf acc s p n)) s.
Proof.
  unfold VAL_Validate_Reset_ViewChange. repeat vstep.
  { split; [reflexivity|]. intros Hb. bools. subst. exists 0. split; assumption. }
  vcall sz_reset_viewchange_message. bools. subst.
  set (rprop := p + sz_reset_viewchange_message) in *.
  set (pview := rprop + sz_signed_message + o_reset_proposal_message_view) in *.
  destruct (laid_fits sz_reset_viewchange_message v0) as [Hle Hw]; [sizes; lia..|]. rewrite Hw.
  apply (wp_while _ (fun '(sum, count, _) t => t = s /\ seen pview (word_or_0 pview) count /\
           laid (reset_vote_in buf acc s RESET_PREPARE o_reset_prepare_message_view
                   o_reset_prepare_message_digest (word_or_0 pview) (make_digest bs))
                p (rprop + v0) sum count)
           (fun '(sum, _, _) => room sum)).
  - intros [[sum count] brk] t (-> & Hv & HL) Hc.
    pose proof (laid_bounds _ _ _ _ _ HL). repeat vstep. vcall sum. bools. simplify_eq.
    erewrite word_or_0_eq in * by eassumption. turn_done; [|right; assumption].
    unfold reset_vote_in, nested, content_of. repeat split; eauto.
    eapply digest_at_equal; eauto. apply make_digest_length.
  - intros [[sum count] brk] t (-> & Hv & HL) Hc. repeat vstep. bools. subst.
    split; [reflexivity|intros _]. exists v. split; [assumption|].
    rewrite (proj2 (Z.eqb_neq _ _)) by assumption.
    eexists v0, _, _, bs. unfold nested. fold rprop.
    split; [eauto|]. split; [eassumption|]. split; [assumption|].
    split; [|apply HL]. apply seen_pos. exact Hv.
  - split; [reflexivity|]. split; [left; reflexivity|]. apply laid_start; sizes; lia.
  - apply room_fuel; sizes; lia.
Qed.

Lemma RB_spec s p (V : Z -> Z -> comp Z bool) :
  V p n = VAL_Validate_RB_Init env buf VM p n ->
  wp fuel_is_enough (V p n) (validated s (rb_ok env buf acc s p n)) s.
Proof.
  intros ->. unfold VAL_Validate_RB_Init, is_rb_payload. repeat vstep.
  all: unfold VAL_State_Permits_Message; repeat vstep.
  all: apply wp_VM; [left; lia|]; intros b Hb; repeat vstep.
  split; [reflexivity|intros _].
  destruct (type_of v1) as [t|] eqn:Et; [|discriminate].
  apply type_val_of in Et. simplify_eq. exists t. unfold nested. repeat split; eauto.
  rewrite !orb_true_iff, !Z.eqb_eq in *.
  destruct E1 as [[[E1|E1]|E1]|E1]; apply type_val_inj in E1; auto.
Qed.

Lemma Pending_Share_spec s p :
  wp fuel_is_enough (VAL_Validate_Pending_Share buf VM p n)
     (validated s (pending_share_ok buf acc p n)) s.
Proof.
  unfold VAL_Validate_Pending_Share. repeat vstep. bools.
  all: apply wp_VM; [left; sizes; lia|]; intros b Hb; repeat vstep. bools. subst.
  split; [reflexivity|intros _].
  apply andb_false_iff in E0. rewrite !negb_false_iff, !Z.eqb_eq in E0.
  destruct E0 as [->| ->]; eexists _, _; unfold nested; repeat split; eauto.
Qed.

Lemma Jump_spec s p :
  wp fuel_is_enough (VAL_Validate_Jump buf VM p n)
     (validated s (jump_ok buf acc s p n)) s.
Proof.
  unfold VAL_Validate_Jump. repeat vstep.
  - vcall sz_jump_message. destruct b; [simplify_eq/=|discriminate].
    destruct (laid_fits sz_jump_message v0) as [Hle Hw]; [sizes; lia..|]. rewrite Hw in *.
    vcall (sz_jump_message + v0). bools. subst.
    destruct (laid_fits (sz_jump_message + v0) v2) as [Hle' Hw']; [sizes; lia..|].
    split; [reflexivity|intros _]. exists v, (sz_jump_message + v0), v2. rewrite Hw' in *.
    split; [assumption|]. rewrite (proj2 (Z.ltb_lt _ _)) by assumption.
    unfold nested. fin; eauto.
  - vcall sz_jump_message. bools. subst.
    destruct (laid_fits sz_jump_message v0) as [Hle' Hw']; [sizes; lia..|].
    split; [reflexivity|intros _]. exists v, sz_jump_message, v0. rewrite Hw' in *.
    split; [assumption|]. rewrite (proj2 (Z.ltb_ge _ _)) by assumption.
    unfold nested. fin; eauto.
Qed.

Lemma find_ack_part_spec part k machine_id seq d s :
  wp fuel_is_enough (find_ack_part buf part k machine_id seq d)
     (fun r t => t = s /\ (r = inr true -> Z.of_nat (length d) = DIGEST_SIZE ->
        exists i, 0 <= i /\ let this := part + i * sz_po_ack_part in
          word_at buf 4 (this + o_po_ack_part_originator) = Some machine_id /\
          ps_at buf (this + o_po_ack_part_seq) seq /\
          digest_at buf (this + o_po_ack_part_digest) d)) s.
Proof.
  unfold find_ack_part. apply (wp_for _ (fun i x t => t = s /\ x = i)).
  - intros i x t Hi [-> ->]. repeat vstep; cbn [turn].
    + split; [reflexivity|]. intros [= Hd] Hl. bools. subst.
      exists i. cbv zeta. assert (mkPS v0 v1 = seq) as <-
        by (apply PRE_ORDER_Seq_Compare_eq; assumption).
      fin. eapply digest_at_equal; eauto.
    + split; [reflexivity|lia].
  - split; reflexivity.
  - intros y t [-> _]. split; [reflexivity|discriminate].
Qed.

Lemma PO_Certificate_spec s p :
  wp fuel_is_enough (VAL_Validate_PO_Certificate env buf VM p n)
     (validated s (po_cert_ok env buf acc p n)) s.
Proof.
  unfold VAL_Validate_PO_Certificate. repeat vstep.
  vcall sz_po_certificate_message. bools. subst.
  set (pr := p + sz_po_certificate_message) in *.
  match goal with H : PRE_ORDER_Seq_Compare _ _ = 0 |- _ =>
    apply PRE_ORDER_Seq_Compare_eq in H; injection H as -> -> end.
  destruct (laid_fits sz_po_certificate_message v) as [Hle Hw]; [sizes; lia..|]. rewrite Hw.
  apply (wp_while _ (fun '(pa, msz, sum, count, vec) t => t = s /\ pa + msz = p + sum /\
           seen (pr + o_signed_message_machine_id)
             (word_or_0 (pr + o_signed_message_machine_id)) count /\
           laid (po_ack_in buf acc (word_or_0 (pr + o_signed_message_machine_id))
                   (mkPS v3 v4) (make_digest bs) vec) p (pr + v) sum count)
           (fun '(_, _, sum, _, _) => room sum)).
  - intros [[[[pa msz] sum] count] vec] t (-> & Hq & Hs & HL) Hc.
    pose proof (laid_bounds _ _ _ _ _ HL). rewrite Hq in *.
    repeat vstep. vcall sum.
    erewrite word_or_0_eq in * by eassumption.
    eapply wp_conseq; [apply find_ack_part_spec|]. cbv beta.
    intros found t [-> Hf]. destruct found as [?|[]]; repeat vstep.
    set (vec' := if count =? 0 then _ else _).
    match type of HL with laid (po_ack_in buf acc ?w _ _ _) _ _ _ _ =>
      apply (laid_revise _ (po_ack_in buf acc w (mkPS v3 v4) (make_digest bs) vec')) in HL;
      [|unfold vec'; destruct (Z.eqb_spec count 0); [auto|right; reflexivity]] end.
    bools. simplify_eq. turn_done; [|right; assumption].
    unfold po_ack_in, nested, content_of. split; [split; eauto|].
    split; [|apply Hf; [reflexivity|apply make_digest_length]].
    unfold vec'. destruct (count =? 0); [assumption|].
    match goal with H : bool_decide _ = true |- _ => apply bool_decide_eq_true in H; subst end.
    assumption.
  - intros [[[[pa msz] sum] count] vec] t (-> & Hq & Hs & HL) Hc. repeat vstep. bools. subst.
    split; [reflexivity|intros _].
    eexists v, (mkPS v3 v4), _, bs, vec. unfold nested. fold pr. fin; [eauto| |apply HL].
    eapply seen_pos; [exact Hs|lia].
  - split; [reflexivity|]. split; [lia|]. split; [left; reflexivity|].
    apply laid_start; sizes; lia.
  - apply room_fuel; sizes; lia.
Qed.

Lemma po_arus_spec a k ns :
  0 <= k ->
  wp fuel_is_enough (validate_po_arus buf VM a k ns)
     (fun r t => match r with
                 | inl _ => t = 1 /\ po_arus_ok buf acc a k
                 | inr v => v = false /\ t = ns
                 end) 1.
Proof.
  intros Hk. unfold validate_po_arus.
  apply (wp_for _ (fun i x t => t = 1 /\ exists j, 0 <= j <= i /\
           x = a + j * sz_po_aru_signed_message /\
           tiles (nested buf acc 1 PO_ARU) a x j /\ (j < i -> type_at buf x DUMMY))).
  - intros i x t Hi [-> (j & Hj & -> & T & Hd)]. repeat vstep; bools; try discriminate; cbn [turn].
    + split; [reflexivity|]. exists j. subst. fin. intros _. assumption.
    + split; reflexivity.
    + subst. apply wp_VM; [right; exists PO_ARU; split; [assumption|reflexivity]|].
      intros b Hb. assert (j = i).
      { destruct (Z.eq_dec j i) as [|Hne]; [assumption|]. exfalso.
        specialize (Hd ltac:(lia)). unfold type_at in Hd. simplify_eq. }
      subst. repeat vstep; bools; subst; cbn [turn].
      * split; reflexivity.
      * split; [reflexivity|]. exists (i + 1). split; [lia|].
        replace (a + (i + 1) * sz_po_aru_signed_message)
          with (a + i * sz_po_aru_signed_message + sz_po_aru_signed_message) by lia.
        fin. constructor; [assumption|]. split; auto.
  - split; [reflexivity|]. exists 0. rewrite Z.mul_0_l, Z.add_0_r. fin. constructor.
  - rewrite Z.max_r by lia. intros x t [-> (j & Hj & -> & T & Hd)].
    split; [reflexivity|]. exists j. fin.
Qed.

Lemma Proof_Matrix_spec s p :
  wp fuel_is_enough (VAL_Validate_Proof_Matrix buf VM p n)
     (validated s (proof_matrix_ok buf acc p n)) s.
Proof.
  unfold VAL_Validate_Proof_Matrix. repeat vstep. bools.
  eapply wp_conseq; [apply po_arus_spec; eapply word_nonneg; eassumption|]. cbv beta.
  intros [x|b] t Ht; [destruct Ht as [-> Ht]; repeat vstep|destruct Ht as [-> ->]; repeat vstep].
  split; [reflexivity|intros _]. exists v. fin.
Qed.

Lemma Pre_Prepare_spec s p :
  wp fuel_is_enough (VAL_Validate_Pre_Prepare buf VM p n)
     (validated s (pre_prepare_ok buf acc p n)) s.
Proof.
  unfold VAL_Validate_Pre_Prepare. repeat vstep. bools. subst.
  eapply wp_conseq; [apply po_arus_spec; eapply word_nonneg; eassumption|]. cbv beta.
  intros [x|b] t Ht; [destruct Ht as [-> Ht]; repeat vstep|destruct Ht as [-> ->]; repeat vstep].
  split; [reflexivity|intros _]. eexists _, _. fin; eauto.
Qed.

Lemma New_Leader_Proof_spec s p :
  wp fuel_is_enough (VAL_Validate_New_Leader_Proof env buf VM p n)
     (validated s (new_leader_proof_ok env buf acc s p n)) s.
Proof.
  unfold VAL_Validate_New_Leader_Proof. cbv zeta. repeat vstep. bools.
  set (nl_size := sz_signed_message + sz_new_leader_message) in *.
  set (pview := p + o_new_leader_proof_message_new_view).
  apply (wp_for _ (fun i x t => t = s /\ x = p + sz_new_leader_proof_message + i * nl_size /\
           seen pview (word_or_0 pview) i /\
           tiles (new_leader_in buf acc s (word_or_0 pview))
             (p + sz_new_leader_proof_message) x i)).
  - intros i x t Hi (-> & -> & Hs & T). repeat vstep.
    bools. subst. apply wp_VM; [right; exists NEW_LEADER; split; [assumption|reflexivity]|].
    intros b Hb. repeat vstep. bools. simplify_eq. cbn [turn].
    erewrite word_or_0_eq in * by eassumption.
    split; [reflexivity|]. split; [lia|]. split; [right; assumption|].
    replace (p + sz_new_leader_proof_message + (i + 1) * nl_size)
      with (p + sz_new_leader_proof_message + i * nl_size + nl_size) by lia.
    constructor; [exact T|]. unfold new_leader_in, nested, content_of. fin; auto.
  - split; [reflexivity|]. split; [lia|]. split; [left; reflexivity|].
    constructor.
  - intros x t (-> & -> & Hs & T). repeat vstep. split; [reflexivity|intros _].
    unfold new_leader_proof_ok. cbv zeta. fold nl_size pview. split; [assumption|].
    exists (word_or_0 pview). rewrite Z.max_r in * by lia.
    split; [eapply seen_pos; [exact Hs|lia]|exact T].
Qed.

Lemma word_in_buf w p v : word_at buf w p = Some v -> 0 <= p /\ 0 <= w /\ p + w <= Z.of_nat (length buf).
Proof.
  unfold word_at. destruct (slice buf p w) eqn:E; [|discriminate]. intros _.
  exact (slice_in_range _ _ _ _ E).
Qed.

(** Whatever the wrapping space checks let through, an accepted PO-Request is
    filled exactly by its updates. *)
Lemma PO_Request_spec s p :
  wp fuel_is_enough (VAL_Validate_PO_Request buf VM p n)
     (validated s (po_request_ok buf acc s p n)) s.
Proof.
  unfold VAL_Validate_PO_Request. repeat vstep. bools.
  set (start := p + sz_po_request_message).
  pose proof (word_in_buf _ _ _ H) as Hp.
  apply (wp_for _ (fun i '(q, offset) t => t = s /\
           offset = wrap32 (sz_po_request_message + (q - start)) /\
           start <= q /\ (q = start \/ q <= Z.of_nat (length buf) + PRIME_MAX_PACKET_SIZE) /\
           tiles (nested buf acc s UPDATE) start q i)).
  - intros i [q offset] t Hi (-> & -> & Hq & Hq' & T). repeat vstep. bools. subst.
    apply wp_VM; [right; exists UPDATE; split; [assumption|reflexivity]|].
    intros b Hb. repeat vstep. bools. subst. cbn [turn].
    destruct (acc_len _ _ _ (Hb eq_refl)) as (len & Hl & Hm).
    match goal with H : word_at buf 4 (q + o_signed_message_len) = Some ?l |- _ =>
      assert (l = len) by congruence; subst l; clear H end.
    assert (Hlen : wrap32 (len + sz_signed_message) = len + sz_signed_message).
    { apply wrap32_small. pose proof (word_nonneg _ _ _ Hl).
      unfold sz_signed_message, PRIME_MAX_PACKET_SIZE, two32 in *. lia. }
    rewrite Hlen in *. pose proof (word_nonneg _ _ _ Hl). pose proof (word_in_buf _ _ _ Hl).
    split; [reflexivity|]. split.
    { unfold wrap32. rewrite <- Z.add_assoc, Zplus_mod_idemp_l. f_equal. lia. }
    split; [unfold sz_signed_message in *; lia|].
    split; [right; unfold o_signed_message_len, sz_signed_message in *; lia|].
    rewrite <- Z.add_assoc. constructor; [exact T|split; auto].
  - split; [reflexivity|]. rewrite Z.sub_diag, Z.add_0_r. split; [reflexivity|].
    split; [lia|]. split; [left; reflexivity|constructor].
  - intros [q offset] t (-> & -> & Hq & Hq' & T). repeat vstep. bools.
    split; [reflexivity|intros _].
    rewrite Z.max_r in T by (eapply word_nonneg; eassumption).
    exists v. split; [assumption|]. fold start.
    rewrite wrap32_small in E0; [replace (p + n) with q by (unfold start in *; lia); exact T|].
    unfold start, sz_po_request_message, o_po_request_message_num_events,
      PRIME_MAX_PACKET_SIZE, two32 in *. lia.
Qed.

Lemma PO_Ack_spec s p :
  wp fuel_is_enough (VAL_Validate_PO_Ack buf p n) (validated s (po_ack_ok buf p n)) s.
Proof.
  unfold VAL_Validate_PO_Ack. repeat vstep. bools.
  pose proof (word_at_bounds _ _ _ _ H) as Hv.
  set (part_ok := fun i => let part := p + sz_po_ack_message + i * sz_po_ack_part in
    exists seq originator, ps_at buf (part + o_po_ack_part_seq) seq /\ seq_num seq <> 0 /\
      word_at buf 4 (part + o_po_ack_part_originator) = Some originator /\
      1 <= originator <= NUM_SERVERS).
  apply (wp_for _ (fun i x t => t = s /\ x = i /\ forall j, 0 <= j < i -> part_ok j)).
  - intros i x t Hi (-> & -> & Hj). repeat vstep. bools. cbn [turn].
    split; [reflexivity|]. split; [apply wrap32_small; unfold two32; lia|].
    intros j Hj'. destruct (Z.eq_dec j i) as [->|]; [|apply Hj; lia].
    exists (mkPS v0 v1), v2. unfold ps_at. cbn. fin.
  - fin.
  - intros x t (-> & -> & Hj). repeat vstep. split; [reflexivity|intros _].
    exists v. fin. rewrite Z.max_r in Hj by lia. exact Hj.
Qed.

Lemma fixed_spec s p t machine_id inc :
  fixed_size t <> None ->
  wp fuel_is_enough (validate_content env buf VM t p n machine_id inc)
     (validated s (fixed_size t = Some n)) s.
Proof.
  destruct t; cbn [fixed_size validate_content]; try congruence; intros _;
  match goal with |- wp _ (?f _ _) _ _ => unfold f | |- wp _ (?f _ _ _) _ _ => unfold f
    | |- wp _ (?f _ _ _ _) _ _ => unfold f end;
  repeat vstep; bools; split; try reflexivity; intros _; congruence.
Qed.

Lemma validate_content_spec s p t machine_id inc :
  wp fuel_is_enough (validate_content env buf VM t p n machine_id inc)
     (validated s (content_ok env buf acc s t p n machine_id inc)) s.
Proof.
  destruct t; cbn [content_ok];
  first
    [ apply fixed_spec; discriminate
    | apply Update_spec | apply PO_Request_spec | apply PO_Ack_spec | apply Proof_Matrix_spec
    | apply Pre_Prepare_spec | apply New_Leader_Proof_spec
    | apply (RB_spec s p (VAL_Validate_RB_Init env buf VM)); reflexivity
    | apply (RB_spec s p (VAL_Validate_RB_Echo env buf VM)); reflexivity
    | apply (RB_spec s p (VAL_Validate_RB_Ready env buf VM)); reflexivity
    | apply PC_Set_spec | apply ORD_Certificate_spec | apply PO_Certificate_spec
    | apply Jump_spec | apply Incarnation_Cert_spec | apply Pending_Share_spec
    | apply Reset_Proposal_spec | apply Reset_NewLeaderProof_spec
    | apply Reset_ViewChange_spec | apply Reset_Certificate_spec
    | apply wp_ret; split; [reflexivity|intros _; exact I] ].
Qed.
End Contents.

(** ** Closing the recursion *)
Section Message.
Context {crypto : Crypto} (ok : CryptoOk crypto) (env : val_env) (buf : list byte).
Context (Hbuf : Z.of_nat (length buf) <= 2147483648) (Hfk : 0 <= two_f_k env).

Definition accepted (flag p n : Z) : Prop :=
  exists fuel, VAL_Validate_Message env buf fuel p n flag = Ret (true, flag).

(** What acceptance of the message of [n] bytes at [p] means. *)
Definition message_ok (flag p n : Z) : Prop :=
  signed_ok env buf flag p n /\
  exists t d machine_id inc,
    type_at buf p t /\
    word_at buf 4 (p + o_signed_message_machine_id) = Some machine_id /\
    word_at buf 4 (p + o_signed_message_incarnation) = Some inc /\
    0 <= d <= 8 /\ 0 <= n - sz_signed_message - d * DIGEST_SIZE /\
    word_at buf 4 (p + o_signed_message_len) = Some (n - sz_signed_message - d * DIGEST_SIZE) /\
    content_ok env buf accepted flag t (content_of p)
      (n - sz_signed_message - d * DIGEST_SIZE) machine_id inc.

Lemma signed_len s p n :
  signed_ok env buf s p n ->
  exists len, word_at buf 4 (p + o_signed_message_len) = Some len /\
    sz_signed_message + len <= n <= PRIME_MAX_PACKET_SIZE.
Proof.
  intros [_ (len & mt & d & Hl & _ & _ & _ & Hd & ->) Hmax _].
  exists len. split; [exact Hl|]. unfold DIGEST_SIZE in *. lia.
Qed.

(** One unfolding of [VAL_Validate_Message]. *)
Lemma Validate_Message_step fuel p n s Q :
  (forall t d machine_id inc,
     signed_ok env buf s p n -> type_at buf p t ->
     word_at buf 4 (p + o_signed_message_machine_id) = Some machine_id ->
     word_at buf 4 (p + o_signed_message_incarnation) = Some inc ->
     0 <= d <= 8 ->
     let n' := n - sz_signed_message - d * DIGEST_SIZE in
     0 <= n' < two32 ->
     word_at buf 4 (p + o_signed_message_len) = Some n' ->
     wp fuel_is_enough (validate_content env buf (VAL_Validate_Message env buf fuel) t
          (content_of p) n' machine_id inc) Q s) ->
  Q false s ->
  wp fuel_is_enough (VAL_Validate_Message env buf (Datatypes.S fuel) p n) Q s.
Proof.
  intros H Hf. cbn [VAL_Validate_Message].
  apply wp_bind. eapply wp_conseq; [apply Signed_Message_ok|]. cbv beta.
  intros b t [-> Hb]. wp1; [|wps; exact Hf]. subst b. specialize (Hb eq_refl).
  wp1. unfold m_mt_num. wp1. wp1. apply wp_Digests. intros d Hd Ed. repeat wp1.
  pose proof Hb as Hb'. destruct Hb' as [(ty & Hty & _) (len & mt & d' & Hl & Hmt & _ & Ed' & _ & Hn) Hmax _].
  simplify_eq. rewrite type_of_val.
  assert (d' = d) as -> by (specialize (Ed 0); specialize (Ed' 0); congruence).
  pose proof (word_at_bounds _ _ _ _ Hl).
  rewrite wrap32_small in * by (unfold two32, sz_signed_message, DIGEST_SIZE,
    PRIME_MAX_PACKET_SIZE in *; lia).
  eapply H; eauto.
  - unfold two32, sz_signed_message, DIGEST_SIZE, PRIME_MAX_PACKET_SIZE in *. lia.
  - rewrite Hl. f_equal. lia.
Qed.

Lemma accepted_signed s p n : accepted s p n -> signed_ok env buf s p n.
Proof.
  intros [[|fuel] E]; [discriminate|].
  cbn [VAL_Validate_Message] in E. unfold bind at 1 in E.
  pose proof (Signed_Message_ok env buf s p n) as H. unfold wp in H.
  destruct (VAL_Validate_Signed_Message env buf p n true s) as [[b t]|f]; [|discriminate].
  destruct H as [-> H]. destruct b; [auto|discriminate].
Qed.

Lemma leaf_spec fuel p n s t :
  type_at buf p t -> leaf t = true ->
  wp fuel_is_enough (VAL_Validate_Message env buf (Datatypes.S fuel) p n)
     (fun _ u => u = s) s.
Proof.
  intros Ht Hl. apply Validate_Message_step; [|reflexivity].
  intros t' d machine_id inc _ Ht' _ _ _ n' Hn' _.
  unfold type_at in *. assert (t' = t) as -> by (apply type_val_inj; congruence).
  eapply wp_conseq with (Q' := fun _ u => u = s); [|auto].
  destruct t; try discriminate; cbn [validate_content].
  all: unfold VAL_Validate_Update, VAL_Validate_PO_ARU, VAL_Validate_New_Leader;
    wps; reflexivity.
Qed.

Lemma nested_fuel m n :
  0 <= m <= n - sz_signed_message -> (Datatypes.S (enough_fuel m) <= enough_fuel n)%nat.
Proof.
  intros H. unfold enough_fuel, sz_signed_message in *.
  assert (m / 156 + 1 <= n / 156).
  { rewrite <- Z.div_add by lia. apply Z.div_le_mono; lia. }
  assert (0 <= m / 156) by (apply Z.div_pos; lia). lia.
Qed.

Lemma Validate_Message_spec fuel : forall p n s,
  (enough_fuel n <= fuel)%nat ->
  wp fuel_is_enough (VAL_Validate_Message env buf fuel p n)
     (validated s (message_ok s p n)) s.
Proof.
  induction fuel as [|fuel IH]; intros p n s Hf; [unfold enough_fuel in Hf; lia|].
  apply Validate_Message_step; [|split; [reflexivity|discriminate]].
  intros t d machine_id inc Hs Ht Hm Hi Hd n' Hn' Hlen.
  eapply wp_conseq.
  - apply (validate_content_spec ok env buf accepted (VAL_Validate_Message env buf fuel) n');
      [|assumption..|].
    + intros s' p' m Ha. apply signed_len with s', accepted_signed. exact Ha.
    + intros s' p' m Hc.
      apply wp_result.
      * destruct Hc as [Hc|(t' & Ht' & Hl)].
        -- eapply wp_conseq; [apply IH|intros ? ? [-> _]; reflexivity].
           apply Nat.succ_le_mono. etransitivity; [|exact Hf]. apply nested_fuel.
           unfold n', DIGEST_SIZE in *. lia.
        -- destruct fuel as [|fuel']; [unfold enough_fuel in Hf; lia|].
           eapply leaf_spec; eassumption.
      * intros b Eb. split; [reflexivity|]. intros ->. exists fuel. exact Eb.
  - intros b u [-> Hb]. split; [reflexivity|]. intros Hbt. split; [exact Hs|].
    exists t, d, machine_id, inc. fin. exact (Hb Hbt).
Qed.
End Message.
