(* ===== verification/ValidateProps.v ===== *)
(** The properties of message validation, with sample messages that the
    validators accept: flat messages, certificates of every kind, a jump
    message.  The samples are laid out byte by byte and validated with a toy
    instance of [Crypto] whose digests depend on the length of the input. *)
From Stdlib Require Import ZArith Lia List Bool.
From Stdlib Require Import Strings.Byte.
From stdpp Require Import base list sets.
From S2P Require Import Prelude Memory Config Packets Crypto Merkle Utility Validate ValidateCorrect.

(** ** Sample messages *)
Definition toy_env (status : Z) : val_env :=
  {| VAR := Init_VAR 1; my_recovery_status := status;
     installed_incarnations := [0; 5; 5; 5; 5; 5; 5];
     jump_incarnations := repeat (Some [5; 5; 5; 5; 5; 5]) 7;
     stack_bytes := zeros sz_complete_pre_prepare_message |}.

Definition words (zs : list Z) : list byte := concat (map (le_encode 4) zs).

(** A message of one leaf from server [machine]. *)
Definition sample (t : packet_type) (machine inc counter : Z) (content : list byte)
    : list byte :=
  encode_header (zeros SIGNATURE_SIZE)
    {| h_mt_num := 1; h_mt_index := 1; h_site_id := 1; h_machine_id := machine;
       h_len := Z.of_nat (length content); h_type := type_val t; h_incarnation := inc;
       h_monotonic_counter := counter |} ++ content.

Definition bytes_of_len (n : Z) : digest := le_encode (Z.to_nat DIGEST_SIZE) n.

Definition s_pre_prepare : list byte :=
  sample PRE_PREPARE 2 5 0
    (words [7; 1] ++ zeros DIGEST_SIZE ++ zeros 48 ++ le_encode 2 1 ++ le_encode 2 1 ++ words [0]).
Definition s_vote (t : packet_type) (machine : Z) : list byte :=
  sample t machine 5 0
    (words [7; 1] ++ bytes_of_len sz_complete_pre_prepare_message ++ zeros 24).
Definition s_ord_cert (voters : list Z) : list byte :=
  sample ORD_CERT 3 5 0
    (words [1; 7; SLOT_COMMIT] ++ s_pre_prepare ++ concat (map (s_vote COMMIT) voters)).
Definition s_pc_set (voters : list Z) : list byte :=
  sample PC_SET 3 5 0
    (words [3; 1; 1] ++ s_pre_prepare ++ concat (map (s_vote PREPARE) voters)).
Definition s_update : list byte :=
  sample UPDATE 2 5 0 (words [1; 0; 0; 9] ++ zeros 20).
Definition s_po_request : list byte :=
  sample PO_REQUEST 2 5 0 (words [5; 3; 1] ++ s_update).
Definition s_po_ack (machine : Z) : list byte :=
  sample PO_ACK machine 5 0
    (words [1] ++ zeros 24 ++
     words [2; 5; 3] ++ bytes_of_len (Z.of_nat (length s_po_request))).
Definition s_po_cert : list byte :=
  sample PO_CERT 3 5 0 (words [2; 5; 3] ++ s_po_request ++ concat (map s_po_ack [1; 2; 3; 4])).
Definition s_new_incarnation : list byte :=
  sample NEW_INCARNATION 2 6 1 (words [1; 1] ++ zeros DIGEST_SIZE).
Definition s_incarnation_ack (machine : Z) : list byte :=
  sample INCARNATION_ACK machine 5 1
    (words [2; 6] ++ bytes_of_len (Z.of_nat (length s_new_incarnation))).
Definition s_incarnation_cert : list byte :=
  sample INCARNATION_CERT 2 6 1
    (s_new_incarnation ++ concat (map s_incarnation_ack [1; 3; 4; 5])).
Definition s_reset_share (machine : Z) : list byte :=
  sample RESET_SHARE machine 5 1 (words [1; 1] ++ zeros DIGEST_SIZE).
Definition s_reset_proposal : list byte :=
  sample RESET_PROPOSAL 1 5 1 (words [1; 4] ++ concat (map s_reset_share [1; 2; 3; 4])).
Definition s_reset_vote (t : packet_type) (machine : Z) : list byte :=
  sample t machine 5 1
    (words [1] ++ bytes_of_len (Z.of_nat (length s_reset_proposal) - sz_signed_message)).
Definition s_reset_cert : list byte :=
  sample RESET_CERT 1 5 1
    (words [1] ++ s_reset_proposal ++ concat (map (s_reset_vote RESET_COMMIT) [1; 2; 3; 4])).
Definition s_jump : list byte :=
  sample JUMP 3 5 1
    (words [7; 1] ++ zeros DIGEST_SIZE ++ words [5; 5; 5; 5; 5; 5]
     ++ s_ord_cert [1; 2; 3; 4] ++ s_reset_cert).

Definition size_of (m : list byte) : Z := Z.of_nat (length m).

(** The verdict on a sample that fills its buffer. *)
Definition verdict (status : Z) (m : list byte) : outcome (bool * Z) :=
  VAL_Validate_Received (crypto := toy) (toy_env status) m 0 (size_of m) 0.

(** ** Properties *)
Section Props.
Context {crypto : Crypto} (ok : CryptoOk crypto) (env : val_env) (buf : list byte).

(** Acceptance, taken apart. *)
Lemma received_ok p n flag flag' :
  Z.of_nat (length buf) <= 2147483648 -> 0 <= two_f_k env ->
  VAL_Validate_Received env buf p n flag = Ret (true, flag') ->
  flag' = flag /\ message_ok env buf flag p n.
Proof.
  intros Hb Hk E.
  pose proof (Validate_Message_spec ok env buf Hb Hk (enough_fuel n) p n flag (le_n _)) as H.
  apply (wp_Ret _ _ _ _ _ _ H) in E as [-> E]. auto.
Qed.

Lemma received_content p n flag flag' t :
  Z.of_nat (length buf) <= 2147483648 -> 0 <= two_f_k env ->
  VAL_Validate_Received env buf p n flag = Ret (true, flag') ->
  type_at buf p t ->
  exists n' machine_id inc,
    word_at buf 4 (p + o_signed_message_machine_id) = Some machine_id /\
    word_at buf 4 (p + o_signed_message_incarnation) = Some inc /\
    0 <= n' <= n - sz_signed_message /\
    word_at buf 4 (p + o_signed_message_len) = Some n' /\
    content_ok env buf (accepted env buf) flag t (content_of p) n' machine_id inc.
Proof.
  intros Hb Hk E Ht. apply received_ok in E as [-> [_ H]]; [|assumption..].
  destruct H as (t' & d & machine_id & inc & Ht' & Hm & Hi & Hd & Hn & Hlen & Hc).
  unfold type_at in *. assert (t' = t) as -> by (apply type_val_inj; congruence).
  exists (n - sz_signed_message - d * DIGEST_SIZE), machine_id, inc. fin.
  unfold DIGEST_SIZE. lia.
Qed.

(** The size of an accepted message: header, content, path. *)
Lemma received_size p n flag flag' :
  Z.of_nat (length buf) <= 2147483648 -> 0 <= two_f_k env ->
  VAL_Validate_Received env buf p n flag = Ret (true, flag') ->
  exists len mt_num k,
    word_at buf 4 (p + o_signed_message_len) = Some len /\
    word_at buf 2 (p + o_signed_message_mt_num) = Some mt_num /\
    MT_Digests_ mt_num flag = Ret (k, flag) /\
    n = sz_signed_message + len + k * DIGEST_SIZE.
Proof.
  intros Hb Hk E. apply received_ok in E as [-> [Hs _]]; [|assumption..].
  destruct (so_size _ _ _ _ _ Hs) as (len & mt_num & d & Hl & Hm & _ & Hd & _ & Hn).
  exists len, mt_num, d. specialize (Hd flag). fin.
Qed.

(** The kinds of signature by type. *)
Lemma Signature_Type_of p s t sig :
  type_at buf p t -> VAL_Signature_Type buf p s = Ret (sig, s) ->
  (sig = VAL_SIG_TYPE_CLIENT -> t = UPDATE).
Proof.
  intros Ht.
  assert (H : wp fuel_is_enough (VAL_Signature_Type buf p)
                (fun sig _ => sig = VAL_SIG_TYPE_CLIENT -> t = UPDATE) s).
  { unfold type_at in Ht. unfold VAL_Signature_Type. wps. simplify_eq. rewrite type_of_val.
    destruct t; wps; repeat case_match; discriminate || reflexivity. }
  intros E. exact (wp_Ret _ _ _ _ _ _ H E).
Qed.

Lemma Sender_range sig sender :
  VAL_Validate_Sender sig sender = true ->
  1 <= sender <= NUM_CLIENTS /\ (sig <> VAL_SIG_TYPE_CLIENT -> sender <= NUM_SERVERS).
Proof.
  unfold VAL_Validate_Sender. intros H.
  destruct (Z.ltb_spec sender 1); [discriminate|].
  destruct (_ && (sender <=? NUM_SERVERS)) eqn:E1.
  - apply andb_true_iff in E1 as [_ E1]. bools. unfold NUM_SERVERS, NUM_CLIENTS, NUM_F, NUM_K in *. lia.
  - destruct ((sig =? VAL_SIG_TYPE_CLIENT) && (sender <=? NUM_CLIENTS)) eqn:E2; [|discriminate].
    bools. split; [lia|]. intros. congruence.
Qed.

Lemma Incarnation_checked sig p s t :
  type_at buf p t -> t <> PENDING_SHARE -> t <> UPDATE ->
  sig = VAL_SIG_TYPE_MERKLE \/ sig = VAL_SIG_TYPE_SERVER ->
  VAL_Validate_Incarnation env buf sig p s = Ret (true, s) ->
  exists machine_id inc,
    word_at buf 4 (p + o_signed_message_machine_id) = Some machine_id /\
    word_at buf 4 (p + o_signed_message_incarnation) = Some inc /\
    aget (installed_incarnations env) machine_id = Some inc.
Proof.
  intros Ht Hps Hup Hsig.
  assert (H : wp fuel_is_enough (VAL_Validate_Incarnation env buf sig p)
    (fun b _ => b = true -> exists machine_id inc,
    word_at buf 4 (p + o_signed_message_machine_id) = Some machine_id /\
    word_at buf 4 (p + o_signed_message_incarnation) = Some inc /\
    aget (installed_incarnations env) machine_id = Some inc) s).
  { unfold type_at in Ht. unfold VAL_Validate_Incarnation. wps.
    all: simplify_eq; bools; try (intros ?; discriminate).
    all: try (exfalso; apply Hps, type_val_inj; congruence).
    all: try (exfalso; apply Hup, type_val_inj; congruence).
    all: try (exfalso; destruct Hsig; congruence).
    intros _. subst. eauto. }
  intros E. exact (wp_Ret _ _ _ _ _ _ H E eq_refl).
Qed.
End Props.

(** C38. For every buffer and every message size, VAL_Validate_Message comes back
    from its recursion (fuel one more than the headers that fit is enough): it
    returns a verdict or stops at one of the code's own faults, and a verdict
    leaves DATA.PO.Nested_Ignore_Incarnation as it found it, whatever nested
    messages set it to on the way. *)
Theorem validate_terminates {crypto : Crypto} (ok : CryptoOk crypto) (env : val_env)
    (buf : list byte) (p n flag : Z) (fuel : nat) :
  Z.of_nat (length buf) <= 2147483648 -> 0 <= two_f_k env -> (enough_fuel n <= fuel)%nat ->
  match VAL_Validate_Message env buf fuel p n flag with
  | Ret (_, flag') => flag' = flag
  | Fault f => f = OutOfBounds \/ f = Exit \/ f = AssertFailure
  end.
Proof.
  intros Hb Hk Hf.
  pose proof (Validate_Message_spec ok env buf Hb Hk fuel p n flag Hf) as H. unfold wp in H.
  destruct (VAL_Validate_Message env buf fuel p n flag) as [[b t]|f]; [apply H|].
  destruct f; auto; destruct H as [H1 H2]; congruence.
Qed.

Lemma validate_terminates_witness :
  match VAL_Validate_Message (crypto := toy) (toy_env PR_NORMAL) s_jump
          (enough_fuel (size_of s_jump)) 0
          (size_of s_jump) 0 with
  | Ret (_, flag') => flag' = 0
  | Fault f => f = OutOfBounds \/ f = Exit \/ f = AssertFailure
  end.
Proof.
  apply (@validate_terminates toy toy_ok (toy_env PR_NORMAL) s_jump 0 (size_of s_jump) 0
           (enough_fuel (size_of s_jump))); vm_compute; try discriminate; lia.
Defined.

(** C37. An accepted ordering certificate is what order.c executes on: it names a
    sequence number, holds an accepted pre-prepare for it, and the rest of its
    content - of exactly the length its header gives, to the last byte - is
    2f+k+1 accepted commits for that number, one after another, each with the
    digest of the reassembled pre-prepare, and each sized, typed, sent and
    signed as a message of a server.  After the content come only the digests of
    the Merkle path of a batch signature, as many as [MT_Digests_] gives.  (That
    the commits are of different servers is not checked, and not claimed.) *)
Theorem ord_certificate_sound {crypto : Crypto} (ok : CryptoOk crypto) (env : val_env)
    (buf : list byte) (p n flag flag' : Z) :
  Z.of_nat (length buf) <= 2147483648 -> 0 <= two_f_k env ->
  VAL_Validate_Received env buf p n flag = Ret (true, flag') ->
  type_at buf p ORD_CERT ->
  exists len mt_num k seq m d,
    let pp := content_of p + sz_ord_certificate_message in
    word_at buf 4 (p + o_signed_message_len) = Some len /\
    word_at buf 2 (p + o_signed_message_mt_num) = Some mt_num /\
    MT_Digests_ mt_num flag = Ret (k, flag) /\
    n = sz_signed_message + len + k * DIGEST_SIZE /\
    word_at buf 4 (content_of p + o_ord_certificate_message_seq_num) = Some seq /\
    nested buf (accepted env buf) flag PRE_PREPARE pp m /\
    word_at buf 4 (content_of pp + o_pre_prepare_message_seq_num) = Some seq /\
    complete_pp_digest env buf (content_of pp) flag = Ret (d, flag) /\
    tiles (fun q size => commit_in buf (accepted env buf) flag seq d q size /\
                         signed_ok env buf flag q size)
      (pp + m) (content_of p + len) (two_f_k env + 1).
Proof.
  intros Hb Hk E Ht. destruct (received_size ok env buf p n flag flag' Hb Hk E)
    as (len' & mt_num & k & Hlen' & Hmt & Hk' & Hsize).
  destruct (received_content ok env buf p n flag flag' _ Hb Hk E Ht)
    as (len & machine_id & inc & Hm & Hi & Hn & Hlen & seq & m & d & Hs & Hpp & Hps & Hd & Hc).
  assert (len' = len) as -> by congruence.
  exists len, mt_num, k, seq, m, d. fin. eapply tiles_impl; [|exact Hc].
  intros q size Hq. split; [exact Hq|]. apply accepted_signed, Hq.
Qed.

Lemma ord_certificate_sound_witness :
  exists len mt_num k seq m d,
    let buf := s_ord_cert [1; 2; 3; 4] in let env := toy_env PR_NORMAL in
    let pp := content_of 0 + sz_ord_certificate_message in
    word_at buf 4 (0 + o_signed_message_len) = Some len /\
    word_at buf 2 (0 + o_signed_message_mt_num) = Some mt_num /\
    MT_Digests_ mt_num 0 = Ret (k, 0) /\
    size_of buf = sz_signed_message + len + k * DIGEST_SIZE /\
    word_at buf 4 (content_of 0 + o_ord_certificate_message_seq_num) = Some seq /\
    nested buf (accepted (crypto := toy) env buf) 0 PRE_PREPARE pp m /\
    word_at buf 4 (content_of pp + o_pre_prepare_message_seq_num) = Some seq /\
    complete_pp_digest (crypto := toy) env buf (content_of pp) 0 = Ret (d, 0) /\
    tiles (fun q size => commit_in buf (accepted (crypto := toy) env buf) 0 seq d q size /\
                         signed_ok (crypto := toy) env buf 0 q size)
      (pp + m) (content_of 0 + len) (two_f_k env + 1).
Proof.
  apply (@ord_certificate_sound toy toy_ok (toy_env PR_NORMAL) (s_ord_cert [1; 2; 3; 4])
           0 (size_of (s_ord_cert [1; 2; 3; 4])) 0 0);
    vm_compute; reflexivity || discriminate.
Defined.

(** An accepted PC-Set (a prepare certificate of the view change) starts with an
    accepted pre-prepare and is filled from there to its end by exactly 2f+k
    accepted prepares with its sequence number and the digest of the reassembled
    pre-prepare. *)
Theorem pc_set_sound {crypto : Crypto} (ok : CryptoOk crypto) (env : val_env)
    (buf : list byte) (p n flag flag' : Z) :
  Z.of_nat (length buf) <= 2147483648 -> 0 <= two_f_k env ->
  VAL_Validate_Received env buf p n flag = Ret (true, flag') ->
  type_at buf p PC_SET ->
  exists n', word_at buf 4 (p + o_signed_message_len) = Some n' /\
    pc_set_ok env buf (accepted env buf) flag (content_of p) n'.
Proof.
  intros Hb Hk E Ht. destruct (received_content ok env buf p n flag flag' _ Hb Hk E Ht)
    as (n' & machine_id & inc & Hm & Hi & Hn & Hlen & Hc). cbn [content_ok] in Hc. eauto 10.
Qed.

Lemma pc_set_sound_witness :
  exists n', word_at (s_pc_set [1; 2; 3]) 4 (0 + o_signed_message_len) = Some n' /\
    pc_set_ok (crypto := toy) (toy_env PR_NORMAL) (s_pc_set [1; 2; 3]) (accepted (crypto := toy) (toy_env PR_NORMAL) (s_pc_set [1; 2; 3])) 0 (content_of 0) n'.
Proof.
  apply (@pc_set_sound toy toy_ok (toy_env PR_NORMAL) (s_pc_set [1; 2; 3]) 0 (size_of (s_pc_set [1; 2; 3])) 0 0);
    vm_compute; reflexivity || discriminate.
Defined.

(** An accepted PO-certificate shows a pre-ordered PO-Request: the request is
    accepted (with its incarnation ignored), is the one the certificate names,
    and is followed to the end by exactly 2f+k+1 accepted PO-Acks, all under one
    vector of preinstalled incarnations, each with a part for that originator
    and sequence pair whose digest is the request's. *)
Theorem po_certificate_sound {crypto : Crypto} (ok : CryptoOk crypto) (env : val_env)
    (buf : list byte) (p n flag flag' : Z) :
  Z.of_nat (length buf) <= 2147483648 -> 0 <= two_f_k env ->
  VAL_Validate_Received env buf p n flag = Ret (true, flag') ->
  type_at buf p PO_CERT ->
  exists n', word_at buf 4 (p + o_signed_message_len) = Some n' /\
    po_cert_ok env buf (accepted env buf) (content_of p) n'.
Proof.
  intros Hb Hk E Ht. destruct (received_content ok env buf p n flag flag' _ Hb Hk E Ht)
    as (n' & machine_id & inc & Hm & Hi & Hn & Hlen & Hc). cbn [content_ok] in Hc. eauto 10.
Qed.

Lemma po_certificate_sound_witness :
  exists n', word_at s_po_cert 4 (0 + o_signed_message_len) = Some n' /\
    po_cert_ok (crypto := toy) (toy_env PR_NORMAL) s_po_cert (accepted (crypto := toy) (toy_env PR_NORMAL) s_po_cert) (content_of 0) n'.
Proof.
  apply (@po_certificate_sound toy toy_ok (toy_env PR_NORMAL) s_po_cert 0 (size_of s_po_cert) 0 0);
    vm_compute; reflexivity || discriminate.
Defined.

(** An accepted incarnation certificate is about its sender: the new-incarnation
    message in it has the machine id and the incarnation of the certificate's
    own header, and 2f+k+1 accepted acks for that id, that incarnation and the
    digest of that message fill the rest. *)
Theorem incarnation_certificate_sound {crypto : Crypto} (ok : CryptoOk crypto) (env : val_env)
    (buf : list byte) (p n flag flag' : Z) :
  Z.of_nat (length buf) <= 2147483648 -> 0 <= two_f_k env ->
  VAL_Validate_Received env buf p n flag = Ret (true, flag') ->
  type_at buf p INCARNATION_CERT ->
  exists n' machine_id inc, word_at buf 4 (p + o_signed_message_len) = Some n' /\
    word_at buf 4 (p + o_signed_message_machine_id) = Some machine_id /\
    word_at buf 4 (p + o_signed_message_incarnation) = Some inc /\
    inc_cert_ok env buf (accepted env buf) (content_of p) n' machine_id inc.
Proof.
  intros Hb Hk E Ht. destruct (received_content ok env buf p n flag flag' _ Hb Hk E Ht)
    as (n' & machine_id & inc & Hm & Hi & Hn & Hlen & Hc). cbn [content_ok] in Hc. eauto 10.
Qed.

Lemma incarnation_certificate_sound_witness :
  exists n' machine_id inc, word_at s_incarnation_cert 4 (0 + o_signed_message_len) = Some n' /\
    word_at s_incarnation_cert 4 (0 + o_signed_message_machine_id) = Some machine_id /\
    word_at s_incarnation_cert 4 (0 + o_signed_message_incarnation) = Some inc /\
    inc_cert_ok (crypto := toy) (toy_env PR_NORMAL) s_incarnation_cert (accepted (crypto := toy) (toy_env PR_NORMAL) s_incarnation_cert) (content_of 0) n' machine_id inc.
Proof.
  apply (@incarnation_certificate_sound toy toy_ok (toy_env PR_NORMAL) s_incarnation_cert 0 (size_of s_incarnation_cert) 0 0);
    vm_compute; reflexivity || discriminate.
Defined.

(** An accepted reset certificate holds an accepted reset proposal and is filled
    to its end by exactly 2f+k+1 accepted reset commits for the proposal's view
    and for the digest of its content. *)
Theorem reset_certificate_sound {crypto : Crypto} (ok : CryptoOk crypto) (env : val_env)
    (buf : list byte) (p n flag flag' : Z) :
  Z.of_nat (length buf) <= 2147483648 -> 0 <= two_f_k env ->
  VAL_Validate_Received env buf p n flag = Ret (true, flag') ->
  type_at buf p RESET_CERT ->
  exists n', word_at buf 4 (p + o_signed_message_len) = Some n' /\
    reset_cert_ok env buf (accepted env buf) flag (content_of p) n'.
Proof.
  intros Hb Hk E Ht. destruct (received_content ok env buf p n flag flag' _ Hb Hk E Ht)
    as (n' & machine_id & inc & Hm & Hi & Hn & Hlen & Hc). cbn [content_ok] in Hc. eauto 10.
Qed.

Lemma reset_certificate_sound_witness :
  exists n', word_at s_reset_cert 4 (0 + o_signed_message_len) = Some n' /\
    reset_cert_ok (crypto := toy) (toy_env PR_NORMAL) s_reset_cert (accepted (crypto := toy) (toy_env PR_NORMAL) s_reset_cert) 0 (content_of 0) n'.
Proof.
  apply (@reset_certificate_sound toy toy_ok (toy_env PR_NORMAL) s_reset_cert 0 (size_of s_reset_cert) 0 0);
    vm_compute; reflexivity || discriminate.
Defined.

(** An accepted jump message proves its position: when its sequence number is not
    zero it starts with an accepted ordering certificate, and in any case it
    ends with an accepted reset certificate, with nothing between or after. *)
Theorem jump_sound {crypto : Crypto} (ok : CryptoOk crypto) (env : val_env)
    (buf : list byte) (p n flag flag' : Z) :
  Z.of_nat (length buf) <= 2147483648 -> 0 <= two_f_k env ->
  VAL_Validate_Received env buf p n flag = Ret (true, flag') ->
  type_at buf p JUMP ->
  exists n', word_at buf 4 (p + o_signed_message_len) = Some n' /\
    jump_ok buf (accepted env buf) flag (content_of p) n'.
Proof.
  intros Hb Hk E Ht. destruct (received_content ok env buf p n flag flag' _ Hb Hk E Ht)
    as (n' & machine_id & inc & Hm & Hi & Hn & Hlen & Hc). cbn [content_ok] in Hc. eauto 10.
Qed.

Lemma jump_sound_witness :
  exists n', word_at s_jump 4 (0 + o_signed_message_len) = Some n' /\
    jump_ok s_jump (accepted (crypto := toy) (toy_env PR_NORMAL) s_jump) 0 (content_of 0) n'.
Proof.
  apply (@jump_sound toy toy_ok (toy_env PR_NORMAL) s_jump 0 (size_of s_jump) 0 0);
    vm_compute; reflexivity || discriminate.
Defined.

(** The events of an accepted PO-Request are accepted updates, as many as it says,
    that fill it exactly; the wrap-around of the space checks lets reads outside
    the message through, but no malformed request. *)
Theorem po_request_sound {crypto : Crypto} (ok : CryptoOk crypto) (env : val_env)
    (buf : list byte) (p n flag flag' : Z) :
  Z.of_nat (length buf) <= 2147483648 -> 0 <= two_f_k env ->
  VAL_Validate_Received env buf p n flag = Ret (true, flag') ->
  type_at buf p PO_REQUEST ->
  exists n', word_at buf 4 (p + o_signed_message_len) = Some n' /\
    po_request_ok buf (accepted env buf) flag (content_of p) n'.
Proof.
  intros Hb Hk E Ht. destruct (received_content ok env buf p n flag flag' _ Hb Hk E Ht)
    as (n' & machine_id & inc & Hm & Hi & Hn & Hlen & Hc). cbn [content_ok] in Hc. eauto 10.
Qed.

Lemma po_request_sound_witness :
  exists n', word_at s_po_request 4 (0 + o_signed_message_len) = Some n' /\
    po_request_ok s_po_request (accepted (crypto := toy) (toy_env PR_NORMAL) s_po_request) 0 (content_of 0) n'.
Proof.
  apply (@po_request_sound toy toy_ok (toy_env PR_NORMAL) s_po_request 0 (size_of s_po_request) 0 0);
    vm_compute; reflexivity || discriminate.
Defined.

(** Whatever its type, an accepted message has a defined type, a length that
    accounts for every byte (header, content and Merkle digests) within
    PRIME_MAX_PACKET_SIZE, a sender in range for the kind of its signature (a
    server, or a client for an update), and a signature that verifies; and
    outside nested certificates a session-signed message carries the incarnation
    installed for its sender. *)
Theorem accepted_header {crypto : Crypto} (ok : CryptoOk crypto) (env : val_env)
    (buf : list byte) (p n flag flag' : Z) :
  Z.of_nat (length buf) <= 2147483648 -> 0 <= two_f_k env ->
  VAL_Validate_Received env buf p n flag = Ret (true, flag') ->
  exists t len digests sig sender site inc,
    type_at buf p t /\ t <> DUMMY /\
    word_at buf 4 (p + o_signed_message_len) = Some len /\ 0 <= digests <= 8 /\
    n = sz_signed_message + len + digests * DIGEST_SIZE /\
    sz_signed_message <= n <= PRIME_MAX_PACKET_SIZE /\
    word_at buf 4 (p + o_signed_message_machine_id) = Some sender /\
    word_at buf 4 (p + o_signed_message_incarnation) = Some inc /\
    1 <= sender <= NUM_CLIENTS /\ (t <> UPDATE -> sender <= NUM_SERVERS) /\
    VAL_Signature_Type buf p flag = Ret (sig, flag) /\
    VAL_Is_Valid_Signature buf sig sender site p flag = Ret (true, flag) /\
    (flag = 0 -> sig = VAL_SIG_TYPE_MERKLE \/ sig = VAL_SIG_TYPE_SERVER ->
     t <> PENDING_SHARE -> t <> UPDATE ->
     aget (installed_incarnations env) sender = Some inc).
Proof.
  intros Hb Hk E. apply (received_ok ok) in E as [-> [Hs H]]; [|assumption..].
  destruct H as (t & d & machine_id & inc & Ht & Hm & Hi & _).
  pose proof (signed_len env buf _ _ _ Hs) as (len & Hl & Hlen).
  pose proof (word_nonneg _ _ _ _ Hl).
  destruct Hs as [(t' & Ht' & Hnd) (len' & mt & d' & Hl' & _ & _ & _ & Hd' & En) Hmax
    (sig & sender & site & Hsig & Hsnd & Hsite & Hne & Hvs & Hinc & Hver)].
  unfold type_at in *. assert (len' = len) as -> by congruence.
  assert (machine_id = sender) as -> by congruence.
  assert (t' = t) as -> by (apply type_val_inj; congruence).
  destruct (Sender_range _ _ Hvs) as [Hr1 Hr2].
  exists t, len, d', sig, sender, site, inc. fin.
  - intros Hu. apply Hr2. intros ->. apply Hu. eapply Signature_Type_of; eauto.
  - intros -> Hst Hps Hup.
    destruct (Incarnation_checked env buf sig p 0 t Ht Hps Hup Hst (Hinc eq_refl))
      as (mid & i & Hmid & Hii & Ha). simplify_eq. exact Ha.
Qed.

Lemma accepted_header_witness :
  exists t len digests sig sender site inc, let buf := s_vote COMMIT 2 in
    type_at buf 0 t /\ t <> DUMMY /\
    word_at buf 4 (0 + o_signed_message_len) = Some len /\ 0 <= digests <= 8 /\
    size_of buf = sz_signed_message + len + digests * DIGEST_SIZE /\
    sz_signed_message <= size_of buf <= PRIME_MAX_PACKET_SIZE /\
    word_at buf 4 (0 + o_signed_message_machine_id) = Some sender /\
    word_at buf 4 (0 + o_signed_message_incarnation) = Some inc /\
    1 <= sender <= NUM_CLIENTS /\ (t <> UPDATE -> sender <= NUM_SERVERS) /\
    VAL_Signature_Type buf 0 0 = Ret (sig, 0) /\
    VAL_Is_Valid_Signature (crypto := toy) buf sig sender site 0 0 = Ret (true, 0) /\
    (0 = 0 -> sig = VAL_SIG_TYPE_MERKLE \/ sig = VAL_SIG_TYPE_SERVER ->
     t <> PENDING_SHARE -> t <> UPDATE ->
     aget (installed_incarnations (toy_env PR_NORMAL)) sender = Some inc).
Proof.
  apply (@accepted_header toy toy_ok (toy_env PR_NORMAL) (s_vote COMMIT 2) 0
           (size_of (s_vote COMMIT 2)) 0 0); vm_compute; reflexivity || discriminate.
Defined.

(** A PO-ARU of type DUMMY (a replica not heard from) stops the validation of
    a proof matrix: [continue] does not move to the next entry, so an accepted
    matrix has only its entries before the first DUMMY validated, and a matrix
    that starts with one is accepted whatever the rest holds. *)
Theorem proof_matrix_until_dummy (buf : list byte) (VM : Z -> Z -> comp Z bool)
    (p n num_acks flag : Z) :
  word_at buf 4 (p + o_proof_matrix_message_num_acks_in_this_message) = Some num_acks ->
  n = sz_proof_matrix_message + num_acks * sz_po_aru_signed_message -> n < two32 ->
  type_at buf (p + sz_proof_matrix_message) DUMMY ->
  VAL_Validate_Proof_Matrix buf VM p n flag = Ret (true, flag).
Proof.
  intros Hw -> Hn Ht. pose proof (word_at_bounds _ _ _ _ Hw) as Hw'.
  assert (H : wp (fun _ => False) (VAL_Validate_Proof_Matrix buf VM p
    (sz_proof_matrix_message + num_acks * sz_po_aru_signed_message))
    (fun b t => b = true /\ t = flag) flag).
  { unfold VAL_Validate_Proof_Matrix.
    wp1. wp1. rewrite (proj2 (Z.ltb_ge _ _)) by (unfold sz_proof_matrix_message, sz_po_aru_signed_message; lia).
    wp1. unfold wp at 1. rewrite (load_value _ _ _ _ _ Hw).
    rewrite (wrap32_small (_ + _)) by (unfold two32, sz_proof_matrix_message, sz_po_aru_signed_message in *; lia).
    rewrite Z.eqb_refl. cbn [negb]. repeat wp1.
    apply (wp_for _ (fun _ x t => x = p + sz_proof_matrix_message /\ t = 1)).
    - intros i x t _ [-> ->]. wp1. unfold m_type, wp at 1. rewrite (load_value _ _ _ _ _ Ht).
      rewrite Z.eqb_refl. apply wp_ret. split; reflexivity.
    - split; reflexivity.
    - intros y t _. repeat wp1. split; reflexivity. }
  unfold wp in H. destruct (VAL_Validate_Proof_Matrix _ _ _ _ _) as [[b t]|]; [|destruct H].
  destruct H as [-> ->]. reflexivity.
Qed.

Lemma proof_matrix_until_dummy_witness :
  let buf := words [2; 0; 0] ++ zeros (2 * sz_po_aru_signed_message) in
  VAL_Validate_Proof_Matrix buf (fun _ _ => ret false) 0
    (sz_proof_matrix_message + 2 * sz_po_aru_signed_message) 0 = Ret (true, 0).
Proof.
  apply (proof_matrix_until_dummy (words [2; 0; 0] ++ zeros (2 * sz_po_aru_signed_message))
           (fun _ _ => ret false) 0 (sz_proof_matrix_message + 2 * sz_po_aru_signed_message) 2 0);
    vm_compute; reflexivity.
Defined.

Lemma pos_iter_fault {S X R} (body : X -> comp S (step_result X R)) f x s :
  body x s = Fault f -> forall q, pos_iter q body x s = Fault f.
Proof.
  intros H. induction q as [q IH|q IH|]; cbn [pos_iter]; [| |exact H].
  - unfold bind. rewrite H. reflexivity.
  - unfold bind. rewrite IH. reflexivity.
Qed.

Lemma load_outside {S} (s : S) buf w q :
  0 < w -> Z.of_nat (length buf) < q + w -> load buf w q s = Fault OutOfBounds.
Proof.
  intros Hw Hq. unfold load, load_bytes, bind, slice, in_range.
  rewrite (proj2 (Z.leb_gt (q + w) _)) by lia. rewrite andb_false_r. reflexivity.
Qed.

(** The size check of a PO-Ack is done in 32 bits: for 2^27 parts the length
    wraps to that of an empty PO-Ack, the check passes on 28 bytes of content,
    and the loop over the parts reads past the end of the message; at the end of
    the buffer it leaves it. *)
Theorem po_ack_count_wraps (buf : list byte) (p flag : Z) :
  word_at buf 4 (p + o_po_ack_message_num_ack_parts) = Some (2 ^ 27) ->
  Z.of_nat (length buf) = p + sz_po_ack_message ->
  VAL_Validate_PO_Ack buf p sz_po_ack_message flag = Fault OutOfBounds.
Proof.
  intros Hw Hl. unfold VAL_Validate_PO_Ack. rewrite Z.ltb_irrefl.
  unfold bind at 1. rewrite (load_value flag _ _ _ _ Hw).
  cbv zeta. replace (wrap32 (sz_po_ack_message + 2 ^ 27 * sz_po_ack_part))
    with sz_po_ack_message by reflexivity. rewrite Z.eqb_refl.
  cbn [negb]. unfold loop_then, bind at 1. change (2 ^ 27) with (Zpos 134217728).
  cbn [for_]. rewrite (pos_iter_fault _ OutOfBounds); [reflexivity|].
  unfold load_ps, bind at 1. unfold bind at 1. rewrite load_outside; [reflexivity|lia|].
  unfold o_po_ack_part_seq, o_po_seq_pair_incarnation. lia.
Qed.

Lemma po_ack_count_wraps_witness :
  VAL_Validate_PO_Ack (words [2 ^ 27] ++ zeros 24) 0 sz_po_ack_message 0 = Fault OutOfBounds.
Proof. apply po_ack_count_wraps; vm_compute; reflexivity. Defined.

Lemma copy_into_outside (s : Z) mem off bs :
  Z.of_nat (length mem) < off + Z.of_nat (length bs) -> copy_into mem off bs s = Fault OutOfBounds.
Proof.
  intros H. unfold copy_into, in_range.
  rewrite (proj2 (Z.leb_gt (off + _) _)) by lia. rewrite andb_false_r. reflexivity.
Qed.

Lemma wp_copy_into_length F mem off bs Q (s : Z) :
  F OutOfBounds ->
  (forall m, length m = length mem -> Q m s) -> wp F (copy_into mem off bs) Q s.
Proof.
  intros HF H. unfold copy_into. destruct (in_range _ _ _) eqn:E; [|exact HF].
  apply wp_ret, H. unfold in_range in E. bools.
  rewrite !length_app, length_take, length_drop. lia.
Qed.

(** The PO-ARUs of a pre-prepare inside a certificate are copied into an
    automatic array of NUM_SERVERS slots without a check of their number: with
    more than NUM_SERVERS of them no certificate check gets past the copy, which
    writes outside the array. *)
Theorem complete_pp_overflows {crypto : Crypto} (env : val_env) (buf : list byte)
    (pp num_acks flag : Z) :
  Z.of_nat (length (stack_bytes env)) = sz_complete_pre_prepare_message ->
  word_at buf 4 (pp + o_pre_prepare_message_num_acks_in_this_message) = Some num_acks ->
  NUM_SERVERS < num_acks ->
  complete_pp_digest env buf pp flag = Fault OutOfBounds.
Proof.
  intros Hst Hw Hn.
  assert (H : wp (fun f => f = OutOfBounds) (complete_pp_digest env buf pp)
                (fun _ _ => False) flag).
  { unfold complete_pp_digest.
    repeat lazymatch goal with
      | |- wp _ (bind _ _) _ _ => apply wp_bind
      | |- wp _ (load _ _ _) _ _ => apply wp_load; [reflexivity|intros ? ?]
      | |- wp _ (load_bytes _ _ _) _ _ => apply wp_load_bytes; [reflexivity|intros ? ?]
      | |- wp _ (copy_into _ ?o _) _ _ =>
          assert_fails (constr_eq o o_complete_pre_prepare_message_cum_acks);
          apply wp_copy_into_length; [reflexivity|intros ? ?]; cbv beta
      end.
    match goal with H : word_at buf 4 _ = Some ?v |- _ => assert (v = num_acks) as -> by congruence end.
    match goal with H : slice _ _ (_ * num_acks) = Some ?bs |- _ =>
      apply slice_length in H as [Hnn Hlen] end.
    unfold wp. rewrite copy_into_outside; [reflexivity|].
    rewrite Hlen, Z2Nat.id by exact Hnn.
    repeat match goal with H : length _ = length _ |- _ => rewrite H; clear H end.
    rewrite Hst. unfold sz_complete_pre_prepare_message, o_complete_pre_prepare_message_cum_acks,
      sz_po_aru_signed_message, NUM_SERVERS, NUM_F, NUM_K in *. lia. }
  unfold wp in H. destruct (complete_pp_digest env buf pp flag) as [[? ?]|f];
    [destruct H|rewrite H; reflexivity].
Qed.

Definition crowded_pre_prepare : list byte :=
  words [7; 1] ++ zeros DIGEST_SIZE ++ zeros 48 ++ le_encode 2 1 ++ le_encode 2 1 ++ words [7].

Lemma complete_pp_overflows_witness :
  complete_pp_digest (crypto := toy) (toy_env PR_NORMAL) crowded_pre_prepare 0 0
  = Fault OutOfBounds.
Proof.
  apply (@complete_pp_overflows toy (toy_env PR_NORMAL) crowded_pre_prepare 0 7 0);
    vm_compute; reflexivity.
Defined.

(** No certificate asks for its votes to come from different replicas. *)
Example ord_certificate_one_voter : verdict PR_NORMAL (s_ord_cert [2; 2; 2; 2]) = Ret (true, 0).
Proof. vm_compute. reflexivity. Qed.

(** Three votes are not enough. *)
Example ord_certificate_short : verdict PR_NORMAL (s_ord_cert [1; 2; 3]) = Ret (false, 0).
Proof. vm_compute. reflexivity. Qed.

(** Traffic of the ordering protocol, and of the reset that starts the system. *)
Definition ordering_traffic : list packet_type :=
  [UPDATE; PO_REQUEST; PO_ACK; PO_ARU; PROOF_MATRIX; PRE_PREPARE; PREPARE; COMMIT; RECON;
   ORD_CERT; PO_CERT; JUMP; NEW_LEADER; NEW_LEADER_PROOF; REPORT; PC_SET; VC_LIST; VC_PROOF;
   REPLAY; REPLAY_PREPARE; REPLAY_COMMIT; CATCHUP_REQUEST; PENDING_STATE; PENDING_SHARE].
Definition reset_traffic : list packet_type :=
  [RESET_VOTE; RESET_SHARE; RESET_PROPOSAL; RESET_PREPARE; RESET_COMMIT; RESET_NEWLEADER;
   RESET_NEWLEADERPROOF; RESET_VIEWCHANGE; RESET_NEWVIEW; RESET_CERT].

(** The recovery state of a replica separates its traffic: ordering messages
    pass only in RECOVERY and NORMAL, reset messages only in STARTUP and RESET,
    NEW_INCARNATION always does in a defined state, and no message does in an
    undefined one. *)
Theorem states_separate_traffic (env : val_env) (buf : list byte)
    (p flag type : Z) :
  word_at buf 4 (p + o_signed_message_type) = Some type ->
  exists b, VAL_State_Permits_Message env buf p flag = Ret (b, flag) /\
    (forall t, type = type_val t ->
       (t ∈ ordering_traffic -> b = true ->
        my_recovery_status env = PR_RECOVERY \/ my_recovery_status env = PR_NORMAL) /\
       (t ∈ reset_traffic -> b = true ->
        my_recovery_status env = PR_STARTUP \/ my_recovery_status env = PR_RESET) /\
       (t = NEW_INCARNATION -> b = true <-> PR_STARTUP <= my_recovery_status env <= PR_NORMAL)).
Proof.
  intros Hw. unfold VAL_State_Permits_Message, m_type, bind.
  rewrite (load_value flag _ _ _ _ Hw). eexists. split; [reflexivity|].
  intros t ->. rewrite type_of_val. unfold permitted, PR_STARTUP, PR_RESET, PR_RECOVERY, PR_NORMAL.
  generalize (my_recovery_status env). intros st.
  destruct (Z.eqb_spec st 1); [|destruct (Z.eqb_spec st 2); [|destruct (Z.eqb_spec st 3);
    [|destruct (Z.eqb_spec st 4)]]]; subst;
  (split; [|split]); intros Ht; try (intros Hb; auto; fail); try (subst t; split; (auto || lia || discriminate)).
  all: intros Hb; exfalso; apply (bool_decide_pack _) in Ht; destruct t; vm_compute in Ht, Hb;
    congruence || contradiction.
Qed.

Lemma states_separate_traffic_witness :
  exists b, VAL_State_Permits_Message (toy_env PR_RESET) (s_vote COMMIT 2) 0 0 = Ret (b, 0) /\
    (forall t, type_val COMMIT = type_val t ->
       (t ∈ ordering_traffic -> b = true ->
        my_recovery_status (toy_env PR_RESET) = PR_RECOVERY
        \/ my_recovery_status (toy_env PR_RESET) = PR_NORMAL) /\
       (t ∈ reset_traffic -> b = true ->
        my_recovery_status (toy_env PR_RESET) = PR_STARTUP
        \/ my_recovery_status (toy_env PR_RESET) = PR_RESET) /\
       (t = NEW_INCARNATION ->
        b = true <-> PR_STARTUP <= my_recovery_status (toy_env PR_RESET) <= PR_NORMAL)).
Proof.
  apply (states_separate_traffic (toy_env PR_RESET) (s_vote COMMIT 2) 0 0 (type_val COMMIT)).
  vm_compute. reflexivity.
Defined.
