(* ===== verification/Eligibility.v ===== *)
(** What a matrix of PO-ARUs makes eligible for execution: [PRE_ORDER_Proof_ARU]
    of [prime/src/pre_order.c] and the vector [made_eligible] that
    [prime/src/order.c] computes with it.

    A matrix is a buffer of [po_aru_signed_message]s, one per server; column [s]
    says up to which PO-Request of server [s] each server has all requests. *)
From Stdlib Require Import ZArith Lia List Bool Sorted.
From Stdlib Require Import Strings.Byte.
From stdpp Require Import base list sorting.
From S2P Require Import Prelude Memory Config Packets Utility.

(** ** The column of a server *)
Section Column.
Context {S : Type}.

(** [proof[s-1].cum_ack.ack_for_server[server-1]] *)
Definition ack_for (proof : list byte) (s server : Z) : comp S po_seq_pair :=
  let p := (s - 1) * sz_po_aru_signed_message + o_po_aru_signed_message_cum_ack
           + o_po_aru_message_ack_for_server + (server - 1) * sz_po_seq_pair in
  i <- load proof 4 (p + o_po_seq_pair_incarnation) ;;
  q <- load proof 4 (p + o_po_seq_pair_seq_num) ;;
  ret (mkPS i q).

Fixpoint map_comp {A B} (f : A -> comp S B) (l : list A) : comp S (list B) :=
  match l with
  | [] => ret []
  | a :: l => b <- f a ;; bs <- map_comp f l ;; ret (b :: bs)
  end.

Definition column (proof : list byte) (server : Z) : comp S (list po_seq_pair) :=
  map_comp (fun s => ack_for proof s server) (seqZ 1 NUM_SERVERS).

(** [qsort] with [poseqcmp]: any sorting gives the same list. *)
Definition pair_le (a b : po_seq_pair) : Prop := poseqcmp a b <= 0.

#[global] Instance pair_le_dec a b : Decision (pair_le a b).
Proof. unfold pair_le. apply _. Defined.

Definition sort_pairs (l : list po_seq_pair) : list po_seq_pair := merge_sort pair_le l.

(** One turn of the march through the sorted column: the locals are [quorum],
    [count], [incarn], [left], [right] and [curr], [c] is [cack[curr]]. *)
Definition march_turn (VAR : server_variables) (c : po_seq_pair)
    (x : Z * Z * Z * Z * Z * Z) : Z * Z * Z * Z * Z * Z :=
  let '(quorum_, count, incarn, left_, right_, curr) := x in
  if incarnation c =? incarn then
    let count := count + 1 in
    let quorum_ := if 2 * VF VAR + VK VAR + 1 <=? count then 1 else quorum_ in
    (quorum_, count, incarn, left_, right_, curr + 1)
  else if quorum_ =? 0 then (quorum_, 1, incarnation c, curr, right_, curr + 1)
  else (quorum_, count, incarn, left_, curr - 1, curr + 1).

(** The march over [cack] (from index 1 in the code).  Each turn raises [curr]
    and none raises [right], so the length bounds the turns. *)
Definition eligible_of (VAR : server_variables) (column : list po_seq_pair)
    : comp S po_seq_pair :=
  let cack := sort_pairs column in
  let at_ k := or_oob (aget cack (k - 1)) in
  first <- at_ 1 ;;
  run while_ (Datatypes.S (Z.to_nat NUM_SERVERS))
        (fun '(quorum_, count, incarn, left_, right_, curr) => curr <=? right_)
        (fun '(quorum_, count, incarn, left_, right_, curr) =>
           c <- at_ curr ;;
           ret (inl (march_turn VAR c (quorum_, count, incarn, left_, right_, curr))))
        (0, 0, incarnation first, 1, NUM_SERVERS, 1)
  as (quorum_, _, _, _, right_, _) ;;
  if quorum_ =? 1 then at_ (right_ - (2 * VF VAR + VK VAR)) else ret (mkPS 0 0).

Definition PRE_ORDER_Proof_ARU (VAR : server_variables) (server : Z) (proof : list byte)
    : comp S po_seq_pair :=
  c <- column proof server ;;
  eligible_of VAR c.

(** [made_eligible[i]]: what the matrix proves, but never less than
    [last_executed[i]]. *)
Definition raise_to (ps last : po_seq_pair) : po_seq_pair :=
  if 0 <? PRE_ORDER_Seq_Compare ps last then ps else last.

Definition compute_eligible (VAR : server_variables) (cum_acks : list byte)
    (last_executed : list po_seq_pair) : comp S (list po_seq_pair) :=
  map_comp (fun i =>
    ps <- PRE_ORDER_Proof_ARU VAR (i + 1) cum_acks ;;
    last <- or_oob (aget last_executed i) ;;
    ret (raise_to ps last)) (seqZ 0 NUM_SERVERS).
End Column.
