(* ===== verification/EligibilityCorrect.v ===== *)
(** What [PRE_ORDER_Proof_ARU] returns: the highest PO-Request that 2f+k+1
    servers of the matrix have acknowledged under one incarnation. *)
From Stdlib Require Import ZArith Lia List Bool Sorted.
From Stdlib Require Import Strings.Byte.
From stdpp Require Import base list sorting.
From S2P Require Import Prelude Memory Config Packets Utility Eligibility.

(** ** The order on pairs *)
Lemma pair_le_spec a b :
  pair_le a b <-> incarnation a < incarnation b \/
                  incarnation a = incarnation b /\ seq_num a <= seq_num b.
Proof.
  unfold pair_le, poseqcmp.
  destruct (Z.ltb_spec (incarnation a) (incarnation b)); [lia|].
  destruct (Z.ltb_spec (incarnation b) (incarnation a)); [lia|].
  destruct (Z.ltb_spec (seq_num a) (seq_num b)); [lia|].
  destruct (Z.ltb_spec (seq_num b) (seq_num a)); lia.
Qed.

#[global] Instance pair_le_trans : Transitive pair_le.
Proof. intros a b c. rewrite !pair_le_spec. lia. Qed.

#[global] Instance pair_le_total : Total pair_le.
Proof. intros a b. rewrite !pair_le_spec. lia. Qed.

Lemma sort_pairs_perm l : sort_pairs l ≡ₚ l.
Proof. apply merge_sort_Permutation. Qed.

Lemma sort_pairs_sorted l (j k : nat) x y :
  (j <= k)%nat -> sort_pairs l !! j = Some x -> sort_pairs l !! k = Some y -> pair_le x y.
Proof.
  assert (H : StronglySorted pair_le (sort_pairs l)) by (apply StronglySorted_merge_sort; apply _).
  revert j k. induction H as [|z l' _ IH HF]; intros [|j] [|k] Hjk Hx Hy;
    try discriminate; try lia; cbn in *.
  - injection Hx as <-. injection Hy as <-. apply pair_le_spec. lia.
  - injection Hx as <-. rewrite Forall_forall in HF. apply HF.
    eapply list_elem_of_lookup_2. exact Hy.
  - apply (IH j k); [lia|assumption..].
Qed.

(** ** Counting *)
Definition votes_for (i : Z) (l : list po_seq_pair) : Z :=
  Z.of_nat (length (filter (fun x => incarnation x = i) l)).

(** Servers that acknowledge request [v] of incarnation [i]. *)
Definition supporters (i v : Z) (l : list po_seq_pair) : Z :=
  Z.of_nat (length (filter (fun x => incarnation x = i /\ v <= seq_num x) l)).

Lemma filter_everywhere {A} (P : A -> Prop) `{forall x, Decision (P x)} (l : list A) :
  (forall i x, l !! i = Some x -> P x) -> filter P l = l.
Proof.
  induction l as [|x l IH]; intros Hl; [reflexivity|].
  rewrite filter_cons_True by exact (Hl 0%nat x eq_refl). f_equal. apply IH.
  intros i y E. exact (Hl (S i) y E).
Qed.

Lemma filter_nowhere {A} (P : A -> Prop) `{forall x, Decision (P x)} (l : list A) :
  (forall i x, l !! i = Some x -> ~ P x) -> filter P l = [].
Proof.
  induction l as [|x l IH]; intros Hl; [reflexivity|].
  rewrite filter_cons_False by exact (Hl 0%nat x eq_refl). apply IH.
  intros i y E. exact (Hl (S i) y E).
Qed.

Lemma filter_ge {A} (P : A -> Prop) `{forall x, Decision (P x)} (l : list A) (a m : nat) :
  (forall i, (a <= i < a + m)%nat -> exists x, l !! i = Some x /\ P x) ->
  (m <= length (filter P l))%nat.
Proof.
  intros Hl. rewrite <- (take_drop a l), filter_app, length_app.
  assert (m <= length (filter P (drop a l)))%nat; [|lia].
  rewrite <- (take_drop m (drop a l)), filter_app, length_app.
  assert (length (filter P (take m (drop a l))) = m); [|lia].
  assert (Hm : length (take m (drop a l)) = m).
  { rewrite length_take, length_drop. destruct m as [|m]; [reflexivity|].
    destruct (Hl (a + m)%nat ltac:(lia)) as (x & E & _). apply lookup_lt_Some in E. lia. }
  rewrite <- Hm at 2. f_equal. apply filter_everywhere.
  intros i x Hx. apply lookup_take_Some in Hx as [Hx Hi]. rewrite lookup_drop in Hx.
  destruct (Hl (a + i)%nat ltac:(lia)) as (y & E & Hy). congruence.
Qed.

Lemma filter_le {A} (P : A -> Prop) `{forall x, Decision (P x)} (l : list A) (a m : nat) :
  (forall i x, l !! i = Some x -> P x -> (a <= i < a + m)%nat) ->
  (length (filter P l) <= m)%nat.
Proof.
  intros Hl. rewrite <- (take_drop a l), filter_app.
  rewrite (filter_nowhere P (take a l)).
  2:{ intros i x E Hx. apply lookup_take_Some in E as [E Hi]. specialize (Hl i x E Hx). lia. }
  rewrite <- (take_drop m (drop a l)), filter_app.
  rewrite (filter_nowhere P (drop m (drop a l))).
  2:{ intros i x E Hx. rewrite !lookup_drop in E. specialize (Hl _ x E Hx). lia. }
  cbn. rewrite app_nil_r. pose proof (length_filter P (take m (drop a l))).
  pose proof (length_take_le (drop a l) m). rewrite length_take in *. lia.
Qed.

Lemma votes_for_perm i l l' : l ≡ₚ l' -> votes_for i l = votes_for i l'.
Proof. intros H. unfold votes_for. rewrite H. reflexivity. Qed.

Lemma supporters_perm i v l l' : l ≡ₚ l' -> supporters i v l = supporters i v l'.
Proof. intros H. unfold supporters. rewrite H. reflexivity. Qed.

Lemma votes_for_snoc i l x :
  votes_for i (l ++ [x]) = votes_for i l + if decide (incarnation x = i) then 1 else 0.
Proof.
  unfold votes_for. rewrite filter_app, length_app, filter_cons, filter_nil.
  destruct (decide (incarnation x = i)); cbn; lia.
Qed.

Lemma votes_two i j l : i <> j -> votes_for i l + votes_for j l <= Z.of_nat (length l).
Proof.
  intros Hij. unfold votes_for. induction l as [|x l IH]; [cbn; lia|].
  rewrite !filter_cons. repeat case_decide; cbn [length]; lia.
Qed.

(** ** The march *)
Section March.
Context (VAR : server_variables) (l : list po_seq_pair).
Context (Hlen : Z.of_nat (length l) = NUM_SERVERS).
Context (Hsorted : forall (j k : nat) x y, (j <= k)%nat -> l !! j = Some x -> l !! k = Some y -> pair_le x y).

Notation q := (2 * VF VAR + VK VAR + 1).
Context (Hq1 : 1 <= q) (Hq2 : q <= NUM_SERVERS).

(** Entry [k], counted from 1. *)
Definition entry (k : Z) (x : po_seq_pair) : Prop := 1 <= k /\ l !! Z.to_nat (k - 1) = Some x.

Lemma entry_ex k : 1 <= k <= NUM_SERVERS -> exists x, aget l (k - 1) = Some x /\ entry k x.
Proof.
  intros Hk. destruct (aget_is_Some l (k - 1) ltac:(lia)) as [x E]. exists x.
  split; [exact E|]. split; [lia|]. unfold aget in E. destruct (in_bounds l (k - 1)); [exact E|discriminate].
Qed.

Lemma entry_fun k x y : entry k x -> entry k y -> x = y.
Proof. intros [_ E1] [_ E2]. congruence. Qed.

Lemma entry_sorted j k x y : j <= k -> entry j x -> entry k y -> pair_le x y.
Proof. intros Hjk [Hj E1] [Hk E2]. eapply (Hsorted _ _ x y); [|exact E1|exact E2]. lia. Qed.

Lemma entry_take k x : entry k x -> take (Z.to_nat k) l = take (Z.to_nat (k - 1)) l ++ [x].
Proof.
  intros [Hk E]. replace (Z.to_nat k) with (S (Z.to_nat (k - 1))) by lia.
  apply take_S_r. exact E.
Qed.

(** Entries [a] to [b] have incarnation [i]. *)
Definition block (i a b : Z) : Prop := forall k x, a <= k <= b -> entry k x -> incarnation x = i.

(** No quorum among the first [curr - 1] entries; the last [count] of them are
    those of incarnation [i], the highest one there. *)
Definition searching (count i curr : Z) : Prop :=
  0 <= count < q /\ (count < curr /\ (1 < curr -> 0 < count)) /\ block i (curr - count) (curr - 1) /\
  (forall j, votes_for j (take (Z.to_nat (curr - 1)) l) < q) /\
  votes_for i (take (Z.to_nat (curr - 1)) l) = count /\
  (forall k x, k < curr -> entry k x -> incarnation x <= i).

Definition march_inv (x : Z * Z * Z * Z * Z * Z) : Prop :=
  let '(quorum_, count, i, left_, right_, curr) := x in
  1 <= curr /\
  ((quorum_ = 0 /\ right_ = NUM_SERVERS /\ curr <= NUM_SERVERS + 1 /\ searching count i curr /\
    (curr = 1 -> forall x, entry 1 x -> incarnation x = i)) \/
   (quorum_ = 1 /\ right_ = NUM_SERVERS /\ curr <= NUM_SERVERS + 1 /\ q <= count < curr /\
    block i (curr - count) (curr - 1)) \/
   (quorum_ = 1 /\ right_ < NUM_SERVERS /\ curr = right_ + 2 /\ q <= count <= right_ /\
    block i (right_ + 1 - count) right_ /\
    (forall k x, right_ < k -> entry k x -> incarnation x <> i))).

Lemma block_extend i a b x : block i a (b - 1) -> entry b x -> incarnation x = i -> block i a b.
Proof.
  intros Hb Hx Hi k y Hk Hy. destruct (Z.eq_dec k b) as [->|].
  - rewrite (entry_fun _ _ _ Hy Hx). exact Hi.
  - apply (Hb k y); [lia|exact Hy].
Qed.

Lemma searching_match count i curr x :
  searching count i curr -> 1 <= curr -> entry curr x -> incarnation x = i -> count + 1 < q ->
  searching (count + 1) i (curr + 1).
Proof.
  intros (H1 & H2 & H3 & H4 & H5 & H6) Hc Hx Hi Hq.
  unfold searching. replace (curr + 1 - 1) with curr by lia.
  pose proof (entry_take _ _ Hx) as Et.
  split; [lia|]. split; [lia|]. split; [|split; [|split]].
  - replace (curr + 1 - (count + 1)) with (curr - count) by lia. exact (block_extend i _ curr x H3 Hx Hi).
  - intros j. rewrite Et, votes_for_snoc. specialize (H4 j). case_decide; [|lia].
    replace j with i in * by congruence. lia.
  - rewrite Et, votes_for_snoc, decide_True by exact Hi. lia.
  - intros k y Hk Hy. destruct (Z.eq_dec k curr) as [->|].
    + rewrite (entry_fun _ _ _ Hy Hx), Hi. lia.
    + apply (H6 k y); [lia|exact Hy].
Qed.

Lemma searching_switch count i curr x :
  searching count i curr -> 1 < curr -> entry curr x -> incarnation x <> i -> 1 < q ->
  searching 1 (incarnation x) (curr + 1).
Proof.
  intros (H1 & H2 & H3 & H4 & H5 & H6) Hc Hx Hi Hq.
  unfold searching. replace (curr + 1 - 1) with curr by lia. pose proof (entry_take _ _ Hx) as Et.
  assert (Hup : forall k y, k < curr -> entry k y -> incarnation y < incarnation x).
  { intros k y Hk Hy. specialize (H6 k y Hk Hy) as Hle.
    pose proof (entry_sorted k curr y x ltac:(lia) Hy Hx) as Hs. rewrite pair_le_spec in Hs.
    destruct (Z.eq_dec (incarnation y) (incarnation x)) as [E|E]; [|lia]. exfalso.
    destruct (entry_ex (curr - 1)) as (z & _ & Hz).
    { destruct Hx as [_ Ex]. apply lookup_lt_Some in Ex. lia. }
    pose proof (H3 (curr - 1) z ltac:(lia) Hz) as Ez.
    pose proof (entry_sorted (curr - 1) curr z x ltac:(lia) Hz Hx) as Hs2.
    rewrite pair_le_spec in Hs2. lia. }
  assert (Hzero : votes_for (incarnation x) (take (Z.to_nat (curr - 1)) l) = 0).
  { unfold votes_for. rewrite filter_nowhere; [reflexivity|].
    intros k y E Hy. apply lookup_take_Some in E as [E Hk].
    assert (entry (Z.of_nat k + 1) y) as Hy'
      by (split; [lia|]; replace (Z.to_nat (Z.of_nat k + 1 - 1)) with k by lia; exact E).
    specialize (Hup (Z.of_nat k + 1) y ltac:(lia) Hy'). lia. }
  split; [lia|]. split; [lia|]. split; [|split; [|split]].
  - intros k y Hk Hy. replace k with curr in * by lia. rewrite (entry_fun _ _ _ Hy Hx). reflexivity.
  - intros j. rewrite Et, votes_for_snoc. specialize (H4 j). case_decide as Hj; [|lia].
    rewrite <- Hj, Hzero. lia.
  - rewrite Et, votes_for_snoc, Hzero, decide_True by reflexivity. reflexivity.
  - intros k y Hk Hy. destruct (Z.eq_dec k curr) as [->|].
    + rewrite (entry_fun _ _ _ Hy Hx). lia.
    + specialize (Hup k y ltac:(lia) Hy). lia.
Qed.

Lemma entry_range k x : entry k x -> 1 <= k <= NUM_SERVERS.
Proof. intros [H E]. apply lookup_lt_Some in E. lia. Qed.

(** With a quorum the sorted entries before a mismatch end the block. *)
Lemma block_ends count i curr x :
  q <= count < curr -> block i (curr - count) (curr - 1) -> entry curr x -> incarnation x <> i ->
  forall k y, curr - 1 < k -> entry k y -> incarnation y <> i.
Proof.
  intros Hc Hb Hx Hi k y Hk Hy Ey. pose proof (entry_range _ _ Hx).
  destruct (entry_ex (curr - 1)) as (z & _ & Hz); [lia|].
  pose proof (Hb (curr - 1) z ltac:(lia) Hz) as Ez.
  pose proof (entry_sorted (curr - 1) curr z x ltac:(lia) Hz Hx) as S1.
  pose proof (entry_sorted curr k x y ltac:(lia) Hx Hy) as S2.
  rewrite pair_le_spec in S1, S2. lia.
Qed.

(** What the march finds. *)
Definition found (ps : po_seq_pair) : Prop :=
  ps ∈ l /\ q <= supporters (incarnation ps) (seq_num ps) l /\
  forall v, q <= supporters (incarnation ps) v l -> v <= seq_num ps.

Lemma nat_entry (k : nat) x : l !! k = Some x -> entry (Z.of_nat k + 1) x.
Proof.
  intros E. split; [lia|]. replace (Z.to_nat (Z.of_nat k + 1 - 1)) with k by lia. exact E.
Qed.

Lemma block_found i count right_ x :
  q <= count <= right_ -> right_ <= NUM_SERVERS -> block i (right_ + 1 - count) right_ ->
  (forall k x, right_ < k -> entry k x -> incarnation x <> i) ->
  entry (right_ - (q - 1)) x -> found x.
Proof.
  intros Hc Hr Hb Hend Hx.
  assert (Hi : incarnation x = i) by (apply (Hb (right_ - (q - 1)) x); [lia|exact Hx]).
  split; [destruct Hx as [_ E]; eapply list_elem_of_lookup_2; exact E|]. rewrite Hi. split.
  - unfold supporters.
    pose proof (filter_ge (fun y => incarnation y = i /\ seq_num x <= seq_num y) l
                  (Z.to_nat (right_ - q)) (Z.to_nat q)) as H.
    rewrite <- (Z2Nat.id q) at 1 by lia. apply Nat2Z.inj_le, H. intros k Hk.
    destruct (entry_ex (Z.of_nat k + 1) ltac:(lia)) as (y & _ & Hy). exists y.
    assert (Hiy : incarnation y = i) by (apply (Hb (Z.of_nat k + 1) y); [lia|exact Hy]).
    split; [destruct Hy as [_ E]; replace (Z.to_nat (Z.of_nat k + 1 - 1)) with k in E by lia; exact E|].
    split; [exact Hiy|].
    pose proof (entry_sorted (right_ - (q - 1)) (Z.of_nat k + 1) x y ltac:(lia) Hx Hy) as Hs.
    rewrite pair_le_spec in Hs. lia.
  - intros v Hv. destruct (Z.le_gt_cases v (seq_num x)) as [|Hgt]; [assumption|exfalso].
    unfold supporters in Hv.
    pose proof (filter_le (fun y => incarnation y = i /\ v <= seq_num y) l
                  (Z.to_nat (right_ - q + 1)) (Z.to_nat (q - 1))) as H.
    assert (Hle : Nat.le (length (filter (fun y => incarnation y = i /\ v <= seq_num y) l))
                         (Z.to_nat (q - 1))); [|lia].
    apply H. intros k y E [Ey Hvy]. pose proof (nat_entry k y E) as Hy.
    assert (Z.of_nat k + 1 <= right_).
    { destruct (Z.le_gt_cases (Z.of_nat k + 1) right_); [assumption|]. exfalso.
      exact (Hend (Z.of_nat k + 1) y ltac:(lia) Hy Ey). }
    assert (right_ - q + 1 < Z.of_nat k + 1); [|lia].
    destruct (Z.le_gt_cases (Z.of_nat k + 1) (right_ - q + 1)); [exfalso|lia].
    pose proof (entry_sorted (Z.of_nat k + 1) (right_ - (q - 1)) y x ltac:(lia) Hy Hx) as Hs.
    rewrite pair_le_spec in Hs. lia.
Qed.

(** What the march ends with. *)
Definition march_end (x : Z * Z * Z * Z * Z * Z) : Prop :=
  let '(quorum_, count, i, left_, right_, curr) := x in
  (quorum_ = 0 /\ forall j, votes_for j l < q) \/
  (quorum_ = 1 /\ q <= right_ <= NUM_SERVERS /\ forall x, entry (right_ - (q - 1)) x -> found x).

Lemma march_inv_end x : march_inv x ->
  (let '(_, _, _, _, right_, curr) := x in right_ < curr) -> march_end x.
Proof.
  destruct x as [[[[[quorum_ count] i] left_] right_] curr].
  intros [Hc [(-> & -> & Hn & Hs & _)|[(-> & -> & Hn & Hcount & Hb)|(-> & Hr & -> & Hcount & Hb & He)]]] Hend.
  - left. split; [reflexivity|]. destruct Hs as (_ & _ & _ & H & _).
    intros j. specialize (H j). rewrite take_ge in H by lia. exact H.
  - right. split; [reflexivity|]. assert (curr = NUM_SERVERS + 1) as -> by lia.
    split; [lia|]. intros x Hx. apply (block_found i count NUM_SERVERS); [lia|lia| | |exact Hx].
    + replace (NUM_SERVERS + 1 - 1) with NUM_SERVERS in Hb by lia. exact Hb.
    + intros k y Hk Hy. pose proof (entry_range _ _ Hy). lia.
  - right. split; [reflexivity|]. split; [lia|]. intros x Hx.
    exact (block_found i count right_ x Hcount ltac:(lia) Hb He Hx).
Qed.

Lemma march_turn_inv x c :
  march_inv x ->
  (let '(_, _, _, _, right_, curr) := x in curr <= right_ /\ entry curr c) ->
  march_inv (march_turn VAR c x).
Proof.
  destruct x as [[[[[quorum_ count] i] left_] right_] curr].
  intros [Hc Hinv] [Hr Hx]. pose proof (entry_range _ _ Hx) as Hn. unfold march_turn.
  destruct Hinv as [(-> & -> & Hn1 & Hs & Hone)|[(-> & -> & Hn1 & Hcount & Hb)|(-> & Hlt & -> & _)]];
    [| |lia]; destruct (Z.eqb_spec (incarnation c) i) as [Hi|Hi]; cbn [Z.eqb]; split; try lia.
  - destruct (Z.leb_spec q (count + 1)) as [Hq|Hq].
    + right. left. destruct Hs as (H1 & H2 & H3 & _). repeat split; try lia.
      replace (curr + 1 - (count + 1)) with (curr - count) by lia.
      replace (curr + 1 - 1) with curr by lia. exact (block_extend i _ curr c H3 Hx Hi).
    + left. refine (conj eq_refl (conj eq_refl (conj _ (conj _ _)))); [lia| |lia].
      exact (searching_match count i curr c Hs Hc Hx Hi Hq).
  - assert (curr <> 1) by (intros ->; exact (Hi (Hone eq_refl c Hx))).
    assert (0 < count < q) by (destruct Hs as (? & ? & _); lia).
    left. refine (conj eq_refl (conj eq_refl (conj _ (conj _ _)))); [lia| |lia].
    exact (searching_switch count i curr c Hs ltac:(lia) Hx Hi ltac:(lia)).
  - right. left. replace (if q <=? count + 1 then 1 else 1) with 1 by (destruct (_ <=? _); reflexivity).
    repeat split; try lia. replace (curr + 1 - (count + 1)) with (curr - count) by lia.
    replace (curr + 1 - 1) with curr by lia. exact (block_extend i _ curr c Hb Hx Hi).
  - right. right. repeat split; try lia.
    + replace (curr - 1 + 1 - count) with (curr - count) by lia. exact Hb.
    + exact (block_ends count i curr c Hcount Hb Hx Hi).
Qed.

Lemma march_start x : entry 1 x -> march_inv (0, 0, incarnation x, 1, NUM_SERVERS, 1).
Proof.
  intros Hx. pose proof (entry_range _ _ Hx). split; [lia|]. left. repeat split; try lia.
  - intros k y Hk. lia.
  - intros j. change (votes_for j _) with 0. lia.
  - intros k y Hk Hy. pose proof (entry_range _ _ Hy). lia.
  - intros _ y Hy. rewrite (entry_fun _ _ _ Hy Hx). reflexivity.
Qed.
End March.

(** ** The routines *)
Notation quorum_size VAR := (2 * VF VAR + VK VAR + 1).

Lemma sort_pairs_entries l (j k : nat) x y :
  (j <= k)%nat -> sort_pairs l !! j = Some x -> sort_pairs l !! k = Some y -> pair_le x y.
Proof. apply sort_pairs_sorted. Qed.

Lemma found_perm VAR l l' ps : l ≡ₚ l' -> found VAR l ps -> found VAR l' ps.
Proof.
  intros Hp (H1 & H2 & H3). split; [rewrite <- Hp; exact H1|].
  split; [rewrite <- (supporters_perm _ _ _ _ Hp); exact H2|].
  intros v Hv. apply H3. rewrite (supporters_perm _ _ _ _ Hp). exact Hv.
Qed.

(** What the march answers for a column. *)
Definition answer (VAR : server_variables) (col : list po_seq_pair) (ps : po_seq_pair) : Prop :=
  found VAR col ps \/ ps = mkPS 0 0 /\ forall i, votes_for i col < quorum_size VAR.

Lemma wp_eligible_of {S} VAR col (s : S) :
  Z.of_nat (length col) = NUM_SERVERS -> 1 <= quorum_size VAR <= NUM_SERVERS ->
  wp no_fault (eligible_of VAR col) (fun ps t => t = s /\ answer VAR col ps) s.
Proof.
  intros Hlen [Hq1 Hq2]. pose proof (sort_pairs_perm col) as Hp.
  assert (Hl : Z.of_nat (length (sort_pairs col)) = NUM_SERVERS)
    by (rewrite (Permutation_length Hp); exact Hlen).
  pose proof (sort_pairs_entries col) as Hsort.
  unfold eligible_of. set (l := sort_pairs col) in *.
  destruct (entry_ex l Hl 1 ltac:(lia)) as (first & Ef & Hf).
  apply wp_bind. rewrite Ef. apply wp_ret. apply wp_loop_then.
  apply (wp_while no_fault
           (fun x t => t = s /\ march_inv VAR l x)
           (fun x => let '(_, _, _, _, right_, curr) := x in Z.max 0 (right_ + 1 - curr))).
  - intros [[[[[qu count] i] left_] right_] curr] t [-> Hinv] Hc. apply Z.leb_le in Hc.
    destruct (entry_ex l Hl curr) as (c & Ec & Hx).
    { destruct Hinv as [? [(_ & -> & _)|[(_ & -> & _)|(_ & ? & -> & _)]]]; lia. }
    apply wp_bind. rewrite Ec. apply wp_ret, wp_ret. cbn [turn]. split.
    + split; [reflexivity|]. apply march_turn_inv; try assumption. split; assumption.
    + unfold march_turn. destruct (incarnation c =? i), (qu =? 0); cbv beta iota zeta; lia.
  - intros [[[[[qu count] i] left_] right_] curr] t [-> Hinv] Hc. apply Z.leb_gt in Hc.
    destruct (march_inv_end VAR l Hl Hsort Hq1 Hq2 _ Hinv Hc) as [[-> Hno]|(-> & Hr & Hfound)]; cbn [Z.eqb Pos.eqb].
    + apply wp_ret. split; [reflexivity|]. right. split; [reflexivity|].
      intros j. rewrite <- (votes_for_perm j _ _ Hp). apply Hno.
    + destruct (entry_ex l Hl (right_ - (2 * VF VAR + VK VAR)) ltac:(lia)) as (x & Ex & Hx).
      rewrite Ex. apply wp_ret. split; [reflexivity|]. left.
      apply (found_perm VAR l); [exact Hp|]. apply Hfound.
      replace (right_ - (quorum_size VAR - 1)) with (right_ - (2 * VF VAR + VK VAR)) by lia. exact Hx.
  - split; [reflexivity|]. apply march_start; assumption.
  - rewrite Nat2Z.inj_succ, Z2Nat.id by lia. lia.
Qed.

Lemma wp_map_comp {S A B} F (f : A -> comp S B) (R : A -> B -> Prop) l (s : S) :
  (forall a, a ∈ l -> wp F (f a) (fun b t => t = s /\ R a b) s) ->
  wp F (map_comp f l) (fun bs t => t = s /\ Forall2 R l bs) s.
Proof.
  induction l as [|a l IH]; intros Hf; cbn [map_comp].
  - apply wp_ret. split; [reflexivity|constructor].
  - apply wp_bind. eapply wp_conseq; [apply (Hf a); left|]. intros b t [-> Hb].
    apply wp_bind. eapply wp_conseq; [apply IH; intros x Hx; apply Hf; right; exact Hx|].
    intros bs t [-> Hbs]. apply wp_ret. split; [reflexivity|]. constructor; assumption.
Qed.

(** Server [k]'s PO-ARU in the matrix acknowledges [server]'s requests up to [ps]. *)
Definition acknowledges (proof : list byte) (server k : Z) (ps : po_seq_pair) : Prop :=
  let p := (k - 1) * sz_po_aru_signed_message + o_po_aru_signed_message_cum_ack
           + o_po_aru_message_ack_for_server + (server - 1) * sz_po_seq_pair in
  word_at proof 4 (p + o_po_seq_pair_incarnation) = Some (incarnation ps) /\
  word_at proof 4 (p + o_po_seq_pair_seq_num) = Some (seq_num ps).

(** The column of [server]. *)
Definition column_of (proof : list byte) (server : Z) (col : list po_seq_pair) : Prop :=
  Forall2 (acknowledges proof server) (seqZ 1 NUM_SERVERS) col.

Lemma column_of_fun proof server c1 c2 : column_of proof server c1 -> column_of proof server c2 -> c1 = c2.
Proof.
  unfold column_of. generalize (seqZ 1 NUM_SERVERS). intros ks H. revert c2.
  induction H as [|k [i n] ks c1 [H1 H2] _ IH]; intros c2 Hc; inversion Hc as [|? [i' n'] ? c2' [H1' H2'] Hc2]; subst; [reflexivity|].
  cbn in *. f_equal; [|apply IH; exact Hc2]. f_equal; congruence.
Qed.

Definition matrix_size : Z := NUM_SERVERS * sz_po_aru_signed_message.

Lemma wp_load_in {S} (buf : list byte) n p Q (s : S) :
  0 <= p -> 0 <= n -> p + n <= Z.of_nat (length buf) ->
  (forall v, word_at buf n p = Some v -> Q v s) -> wp no_fault (load buf n p) Q s.
Proof.
  intros Hp Hn Hl HQ. unfold load, load_bytes. unfold word_at in HQ.
  destruct (slice_defined buf p n Hp Hn Hl) as [bs E]. rewrite E in HQ |- *.
  apply wp_bind, wp_ret, wp_ret, HQ. reflexivity.
Qed.

Lemma wp_ack_for {S} proof k server (s : S) :
  1 <= k -> k * sz_po_aru_signed_message <= Z.of_nat (length proof) -> 1 <= server <= NUM_SERVERS ->
  wp no_fault (ack_for proof k server) (fun ps t => t = s /\ acknowledges proof server k ps) s.
Proof.
  intros Hk Hl Hs. unfold ack_for.
  assert (Hoff : 0 <= (k - 1) * sz_po_aru_signed_message + o_po_aru_signed_message_cum_ack
           + o_po_aru_message_ack_for_server + (server - 1) * sz_po_seq_pair /\
         (k - 1) * sz_po_aru_signed_message + o_po_aru_signed_message_cum_ack
           + o_po_aru_message_ack_for_server + (server - 1) * sz_po_seq_pair + sz_po_seq_pair
         <= k * sz_po_aru_signed_message)
    by (revert Hk Hs; change NUM_SERVERS with 6; change sz_po_aru_signed_message with 208;
        change o_po_aru_signed_message_cum_ack with 156; change o_po_aru_message_ack_for_server with 4;
        change sz_po_seq_pair with 8; lia).
  unfold acknowledges. set (p := _ + (server - 1) * sz_po_seq_pair) in *. cbv zeta.
  change sz_po_seq_pair with 8 in Hoff.
  change o_po_seq_pair_incarnation with 0. change o_po_seq_pair_seq_num with 4.
  apply wp_bind, wp_load_in; [lia..|]. intros i Ei.
  apply wp_bind, wp_load_in; [lia..|]. intros n En.
  apply wp_ret. split; [reflexivity|]. split; assumption.
Qed.

Lemma wp_column {S} proof server (s : S) :
  matrix_size <= Z.of_nat (length proof) -> 1 <= server <= NUM_SERVERS ->
  wp no_fault (column proof server) (fun col t => t = s /\ column_of proof server col) s.
Proof.
  intros Hl Hs. apply wp_map_comp. intros k Hk. apply elem_of_seqZ in Hk.
  unfold matrix_size in Hl. change NUM_SERVERS with 6 in *. change sz_po_aru_signed_message with 208 in *.
  apply wp_ack_for; [lia| |exact Hs]. change sz_po_aru_signed_message with 208. lia.
Qed.

Lemma wp_Proof_ARU {S} VAR server proof (s : S) :
  matrix_size <= Z.of_nat (length proof) -> 1 <= server <= NUM_SERVERS ->
  1 <= quorum_size VAR <= NUM_SERVERS ->
  wp no_fault (PRE_ORDER_Proof_ARU VAR server proof)
     (fun ps t => t = s /\ exists col, column_of proof server col /\ answer VAR col ps) s.
Proof.
  intros Hl Hs Hq. apply wp_bind. eapply wp_conseq; [apply wp_column; assumption|].
  intros col t [-> Hcol]. eapply wp_conseq; [apply wp_eligible_of; [|exact Hq]|].
  - rewrite <- (Forall2_length _ _ _ Hcol), length_seqZ. change NUM_SERVERS with 6. lia.
  - intros ps t [-> Ha]. split; [reflexivity|]. exists col. split; assumption.
Qed.

(** ** What the vector is backed by *)

(** A quorum of distinct servers of the matrix has acknowledged request [ps] of
    [server]. *)
Definition backed (VAR : server_variables) (proof : list byte) (server : Z) (ps : po_seq_pair) : Prop :=
  exists ks : list Z, NoDup ks /\ quorum_size VAR <= Z.of_nat (length ks) /\
    forall k, k ∈ ks -> 1 <= k <= NUM_SERVERS /\
      exists a, acknowledges proof server k a /\
                incarnation a = incarnation ps /\ seq_num ps <= seq_num a.

Lemma Forall2_filter_right {A B} (R : A -> B -> Prop) (P : B -> Prop) `{forall b, Decision (P b)} ks bs :
  Forall2 R ks bs ->
  exists ks', ks' `sublist_of` ks /\ length ks' = length (filter P bs) /\
              forall k, k ∈ ks' -> exists b, R k b /\ P b.
Proof.
  induction 1 as [|k b ks bs Hkb _ (ks' & Hsub & Hlen & Hall)].
  - exists []. split; [constructor|]. split; [reflexivity|]. intros k Hk. inversion Hk.
  - rewrite filter_cons. case_decide as Hb.
    + exists (k :: ks'). split; [constructor; exact Hsub|]. split; [cbn; lia|].
      intros k' Hk'. apply elem_of_cons in Hk' as [->|Hk']; [exists b; split; assumption|exact (Hall k' Hk')].
    + exists ks'. split; [constructor; exact Hsub|]. split; [exact Hlen|exact Hall].
Qed.

Lemma found_backed VAR proof server col ps :
  column_of proof server col -> found VAR col ps -> backed VAR proof server ps.
Proof.
  intros Hcol (_ & Hsup & _). unfold supporters in Hsup.
  destruct (Forall2_filter_right _ (fun x => incarnation x = incarnation ps /\ seq_num ps <= seq_num x)
              _ _ Hcol) as (ks & Hsub & Hlen & Hall).
  exists ks. split; [eapply sublist_NoDup; [apply NoDup_seqZ|exact Hsub]|].
  split; [lia|]. intros k Hk. split.
  - pose proof (elem_of_submseteq _ _ _ Hk (sublist_submseteq _ _ Hsub)) as Hin. apply elem_of_seqZ in Hin. lia.
  - destruct (Hall k Hk) as (a & Ha & H1 & H2). exists a. split; [exact Ha|]. split; [exact H1|exact H2].
Qed.

(** The order of [raise_to]. *)
Lemma raise_to_cases ps last :
  (raise_to ps last = ps /\ ps_lt last ps) \/ (raise_to ps last = last /\ ~ ps_lt last ps).
Proof.
  unfold raise_to. destruct (Seq_Compare_cases ps last) as [[-> H]|[[-> ->]|[-> H]]]; cbn.
  - right. split; [reflexivity|]. unfold ps_lt in *. lia.
  - right. split; [reflexivity|]. unfold ps_lt. lia.
  - left. split; [reflexivity|exact H].
Qed.

Definition ps_le (p q : po_seq_pair) : Prop := p = q \/ ps_lt p q.

#[export] Instance ps_le_trans : Transitive ps_le.
Proof.
  intros p q r [->|H1] [<-|H2]; [left; reflexivity|right; exact H2|right; exact H1|right].
  unfold ps_lt in *. lia.
Qed.

(** An entry is the old one or a larger one that the matrix proves. *)
Lemma wp_compute_answers {S} VAR cum_acks last_executed (s : S) :
  matrix_size <= Z.of_nat (length cum_acks) -> Z.of_nat (length last_executed) = NUM_SERVERS ->
  1 <= quorum_size VAR <= NUM_SERVERS ->
  wp no_fault (compute_eligible VAR cum_acks last_executed)
    (fun v t => t = s /\ Forall2 (fun i e => exists last, aget last_executed i = Some last /\
       (e = last \/ ps_lt last e /\ exists col, column_of cum_acks (i + 1) col /\ answer VAR col e))
       (seqZ 0 NUM_SERVERS) v) s.
Proof.
  intros Hl Hlast Hq. apply wp_map_comp. intros i Hi. apply elem_of_seqZ in Hi.
  apply wp_bind. eapply wp_conseq; [apply wp_Proof_ARU; [exact Hl|lia|exact Hq]|].
  intros ps t [-> (col & Hcol & Ha)].
  destruct (aget_is_Some last_executed i ltac:(lia)) as [last E].
  apply wp_bind. rewrite E. apply wp_ret, wp_ret. split; [reflexivity|]. exists last. split; [reflexivity|].
  destruct (raise_to_cases ps last) as [[-> H]|[-> H]]; [right|left; reflexivity]. split; [exact H|]. eauto.
Qed.

Lemma wp_compute_eligible {S} VAR cum_acks last_executed (s : S) :
  matrix_size <= Z.of_nat (length cum_acks) -> Z.of_nat (length last_executed) = NUM_SERVERS ->
  1 <= quorum_size VAR <= NUM_SERVERS ->
  wp no_fault (compute_eligible VAR cum_acks last_executed)
    (fun v t => t = s /\ Forall2 (fun i e => exists last, aget last_executed i = Some last /\
       (e = last \/ ps_lt last e /\ (e = mkPS 0 0 \/ backed VAR cum_acks (i + 1) e))) (seqZ 0 NUM_SERVERS) v) s.
Proof.
  intros Hl Hlast Hq. eapply wp_conseq; [apply wp_compute_answers; assumption|]. cbv beta. intros v t [-> H].
  split; [reflexivity|]. eapply Forall2_impl; [exact H|]. cbv beta. intros i e (last & E & Hc). exists last.
  split; [exact E|]. destruct Hc as [->|[Hlt (col & Hcol & Ha)]]; [left; reflexivity|right]. split; [exact Hlt|].
  destruct Ha as [Hf|[-> _]]; [right; exact (found_backed _ _ _ _ _ Hcol Hf)|left; reflexivity].
Qed.

(** ** The vector as a value *)
Definition eligible_vector (VAR : server_variables) (cum_acks : list byte)
    (last_executed : list po_seq_pair) : option (list po_seq_pair) :=
  match compute_eligible (S := unit) VAR cum_acks last_executed tt with
  | Ret (v, _) => Some v
  | Fault _ => None
  end.

Lemma stateless_load {S} buf n p : stateless (S := S) (load buf n p) (load buf n p).
Proof.
  apply stateless_bind; [|intros; apply stateless_ret].
  unfold load_bytes. destruct (slice buf p n); [apply stateless_ret|apply stateless_raise].
Qed.

Lemma stateless_map_comp {S A B} (f : A -> comp S B) f0 l :
  (forall a, stateless (f a) (f0 a)) -> stateless (map_comp f l) (map_comp f0 l).
Proof.
  intros Hf. induction l as [|a l IH]; cbn [map_comp]; [apply stateless_ret|].
  apply stateless_bind; [apply Hf|]. intros b. apply stateless_bind; [exact IH|].
  intros bs. apply stateless_ret.
Qed.

Lemma stateless_Proof_ARU {S} VAR server proof :
  stateless (S := S) (PRE_ORDER_Proof_ARU VAR server proof) (PRE_ORDER_Proof_ARU VAR server proof).
Proof.
  apply stateless_bind.
  - apply stateless_map_comp. intros k. apply stateless_bind; [apply stateless_load|]. intros i.
    apply stateless_bind; [apply stateless_load|]. intros n. apply stateless_ret.
  - intros col. apply stateless_bind; [apply stateless_or_oob|]. intros first.
    apply stateless_loop_then.
    + apply stateless_while. intros [[[[[q c] i] l] h] k].
      apply stateless_bind; [apply stateless_or_oob|]. intros x. apply stateless_ret.
    + intros [[[[[q c] i] l] h] k]. apply stateless_if; [apply stateless_or_oob|apply stateless_ret].
Qed.

Lemma stateless_compute_eligible {S} VAR cum_acks last_executed :
  stateless (S := S) (compute_eligible VAR cum_acks last_executed)
            (compute_eligible VAR cum_acks last_executed).
Proof.
  apply stateless_map_comp. intros i. apply stateless_bind; [apply stateless_Proof_ARU|]. intros ps.
  apply stateless_bind; [apply stateless_or_oob|]. intros last. apply stateless_ret.
Qed.

Lemma run_compute_eligible {S} VAR cum_acks last_executed (s : S) v t :
  compute_eligible VAR cum_acks last_executed s = Ret (v, t) ->
  t = s /\ eligible_vector VAR cum_acks last_executed = Some v.
Proof.
  rewrite (stateless_compute_eligible VAR cum_acks last_executed s). unfold eligible_vector.
  destruct (compute_eligible VAR cum_acks last_executed tt) as [[u []]|f]; [|discriminate].
  intros [= -> ->]. auto.
Qed.

(** ** Properties *)

(** C39. PRE_ORDER_Proof_ARU always returns, without leaving the matrix, the
    column or the sorted array; the pair it returns is an entry of the server's
    column that 2f+k+1 servers acknowledge under its incarnation, no higher
    sequence number of that incarnation has as many, and no other incarnation
    has 2f+k+1 entries; (0,0) is returned only when no incarnation has. *)
Theorem proof_aru_quorum_maximum {S} VAR server proof (s : S)
  (Hlen : matrix_size <= Z.of_nat (length proof)) (Hserver : 1 <= server <= NUM_SERVERS)
  (Hquorum : quorum_size VAR <= NUM_SERVERS < 2 * quorum_size VAR) :
  exists col ps,
    column_of proof server col /\
    PRE_ORDER_Proof_ARU VAR server proof s = Ret (ps, s) /\
    (found VAR col ps /\ backed VAR proof server ps /\
       (forall i, i <> incarnation ps -> votes_for i col < quorum_size VAR) \/
     ps = mkPS 0 0 /\ forall i, votes_for i col < quorum_size VAR).
Proof.
  destruct (wp_run _ _ s (wp_Proof_ARU VAR server proof s Hlen Hserver ltac:(lia)))
    as (ps & t & E & -> & col & Hcol & Ha).
  exists col, ps. split; [exact Hcol|]. split; [exact E|]. destruct Ha as [Hf|Hno]; [left|right; exact Hno].
  split; [exact Hf|]. split; [exact (found_backed _ _ _ _ _ Hcol Hf)|]. intros i Hi.
  pose proof (votes_two i (incarnation ps) col Hi) as H2.
  assert (Z.of_nat (length col) = NUM_SERVERS)
    by (rewrite <- (Forall2_length _ _ _ Hcol), length_seqZ; reflexivity).
  destruct Hf as (_ & Hs & _).
  assert (supporters (incarnation ps) (seq_num ps) col <= votes_for (incarnation ps) col); [|lia].
  unfold supporters, votes_for. apply Nat2Z.inj_le. clear.
  induction col as [|x col IH]; [reflexivity|]. rewrite !filter_cons.
  repeat case_decide; cbn [length]; lia.
Qed.

(** The vector made_eligible that ORDER_Send_Prepares and the leader
    compute for a matrix has an entry per server, never lower than
    last_executed; an entry above last_executed is backed by 2f+k+1 distinct
    servers of the matrix, so by f+k+1 beside any f faulty ones. *)
Theorem made_eligible_backed {S} VAR cum_acks last_executed (s : S)
  (Hlen : matrix_size <= Z.of_nat (length cum_acks))
  (Hlast : Z.of_nat (length last_executed) = NUM_SERVERS)
  (Hu32 : Forall (fun ps => is_u32 (incarnation ps) /\ is_u32 (seq_num ps)) last_executed)
  (Hquorum : 1 <= quorum_size VAR <= NUM_SERVERS) :
  exists v, compute_eligible VAR cum_acks last_executed s = Ret (v, s) /\
    Z.of_nat (length v) = NUM_SERVERS /\
    forall i e last, aget v i = Some e -> aget last_executed i = Some last ->
      e = last \/ ps_lt last e /\ backed VAR cum_acks (i + 1) e.
Proof.
  destruct (wp_run _ _ s (wp_compute_eligible VAR cum_acks last_executed s Hlen Hlast Hquorum))
    as (v & t & E & -> & Hv).
  exists v. split; [exact E|]. split; [rewrite <- (Forall2_length _ _ _ Hv), length_seqZ; reflexivity|].
  intros i e last He Hl. destruct (Forall2_lookup_r _ _ _ (Z.to_nat i) e Hv) as (i' & Ei & Hi').
  { destruct (aget_Some_bounds _ _ _ He). unfold aget, in_bounds in He. destruct (_ && _); [exact He|discriminate]. }
  destruct (aget_Some_bounds _ _ _ He). apply lookup_seqZ in Ei as [-> Hi].
  replace (0 + Z.of_nat (Z.to_nat i)) with i in Hi' by lia. destruct Hi' as (last' & Hl' & Hcase).
  replace last' with last in * by congruence.
  destruct Hcase as [->|(Hlt & [->|Hb])]; [left; reflexivity| |right; split; assumption].
  left. exfalso. unfold aget in Hl. destruct (in_bounds _ _); [|discriminate].
  pose proof (Forall_lookup_1 _ _ _ _ Hu32 Hl) as [H1 H2]. unfold ps_lt, is_u32 in *. cbn in Hlt. lia.
Qed.

(** ** A matrix *)

(** Six PO-ARUs whose entries for server 1 are given; the rest is zero. *)
Definition sample_aru (ps : po_seq_pair) : list byte :=
  zeros (o_po_aru_signed_message_cum_ack + o_po_aru_message_ack_for_server)
  ++ le_encode 4 (incarnation ps) ++ le_encode 4 (seq_num ps)
  ++ zeros ((NUM_SERVERS - 1) * sz_po_seq_pair).
Definition sample_matrix : list byte :=
  concat (map sample_aru [mkPS 3 9; mkPS 3 4; mkPS 2 8; mkPS 3 7; mkPS 3 5; mkPS 3 8]).

Example sample_proof_aru :
  PRE_ORDER_Proof_ARU (Init_VAR 1) 1 sample_matrix tt = Ret (mkPS 3 5, tt).
Proof. vm_compute. reflexivity. Qed.

Lemma proof_aru_quorum_maximum_witness :
  exists col, column_of sample_matrix 1 col /\ found (Init_VAR 1) col (mkPS 3 5).
Proof.
  destruct (proof_aru_quorum_maximum (Init_VAR 1) 1 sample_matrix tt
              ltac:(vm_compute; discriminate) ltac:(vm_compute; split; discriminate)
              ltac:(vm_compute; split; [discriminate|reflexivity])) as (col & ps & Hcol & E & H).
  rewrite sample_proof_aru in E. injection E as <-. exists col. split; [exact Hcol|].
  destruct H as [[H _]|[H _]]; [exact H|discriminate H].
Defined.

Lemma made_eligible_backed_witness :
  backed (Init_VAR 1) sample_matrix 1 (mkPS 3 5).
Proof.
  destruct (made_eligible_backed (Init_VAR 1) sample_matrix (repeat (mkPS 0 0) 6) tt
              ltac:(vm_compute; discriminate) ltac:(reflexivity)
              ltac:(repeat constructor; vm_compute; try discriminate; reflexivity)
              ltac:(vm_compute; split; discriminate)) as (v & E & _ & H).
  assert (Ev : compute_eligible (Init_VAR 1) sample_matrix (repeat (mkPS 0 0) 6) tt
               = Ret (mkPS 3 5 :: repeat (mkPS 0 0) 5, tt)) by (vm_compute; reflexivity).
  rewrite Ev in E. injection E as <-.
  destruct (H 0 (mkPS 3 5) (mkPS 0 0) eq_refl eq_refl) as [D|[_ D]]; [discriminate D|exact D].
Defined.
