(* ===== verification/OrderState.v ===== *)
(** The data of the ordering protocol: [ord_slot] and [ordering_data_struct] of
    [prime/src/data_structs.h], the messages it exchanges and its slots
    ([UTIL_Get_ORD_Slot] of [utility.c]).

    A flag of the code is a [bool], a pointer into the history is the sequence
    number of the slot it points to, so that handlers which reach one slot
    through several pointers see each other's writes. *)
From Stdlib Require Import ZArith Lia List Bool.
From Stdlib Require Import Strings.Byte.
From stdpp Require Import base list gmap.
From S2P Require Import Prelude Memory Config Packets Crypto Utility.

(** ** Messages *)
(** A signed [prepare_message] or [commit_message]. *)
Record vote := mkVote {
  v_machine_id : Z; v_incarnation : Z; v_seq_num : Z; v_view : Z;
  v_digest : digest; v_preinstalled : list Z }.

#[global] Instance vote_eq_dec : EqDecision vote.
Proof. solve_decision. Defined.

#[global] Instance po_seq_pair_eq_dec : EqDecision po_seq_pair.
Proof. solve_decision. Defined.

(** A signed [pre_prepare_message]; [pp_signed] is what the header holds beside
    the sender, the signature among it. *)
Record pre_prepare_mess := mkPP {
  pp_machine_id : Z; pp_signed : list byte;
  pp_seq_num : Z; pp_view : Z; pp_proposal_digest : digest;
  pp_last_executed : list po_seq_pair;
  pp_part_num : Z; pp_total_parts : Z; pp_num_acks : Z; pp_cum_acks : list byte }.

#[global] Instance pre_prepare_mess_eq_dec : EqDecision pre_prepare_mess.
Proof. solve_decision. Defined.

(** [complete_pre_prepare_message]; its matrix is the bytes of the PO-ARUs. *)
Record complete_pre_prepare_message := mkComplete {
  c_seq_num : Z; c_view : Z; c_proposal_digest : digest;
  c_last_executed : list po_seq_pair; c_cum_acks : list byte }.

#[global] Instance complete_eq_dec : EqDecision complete_pre_prepare_message.
Proof. solve_decision. Defined.

Definition pair_bytes (p : po_seq_pair) : list byte :=
  le_encode 4 (incarnation p) ++ le_encode 4 (seq_num p).

(** The structure in memory: what [OPENSSL_RSA_Make_Digest] is applied to. *)
Definition complete_bytes (c : complete_pre_prepare_message) : list byte :=
  le_encode 4 (c_seq_num c) ++ le_encode 4 (c_view c) ++ c_proposal_digest c
  ++ concat (map pair_bytes (c_last_executed c)) ++ c_cum_acks c.

(** What [UTIL_Respond_To_Client] is called with, for the application. *)
Record client_response := mkResponse {
  cr_machine_id : Z; cr_incarnation : Z; cr_seq_num : Z;
  cr_ord_num : Z; cr_event_idx : Z; cr_event_tot : Z; cr_content : list byte }.

(** [po_id]: a PO-Request of a server. *)
Record po_id := mkPoId { po_server_id : Z; po_pair : po_seq_pair }.

#[global] Instance po_id_eq_dec : EqDecision po_id.
Proof. solve_decision. Defined.

(** A PO-Ack: the parts say which PO-Requests the sender holds, by digest. *)
Record po_ack_part := mkPart { part_originator : Z; part_seq : po_seq_pair; part_digest : digest }.

(** [ak_digests]: how many Merkle digests its signature takes behind the parts. *)
Record po_ack_mess := {
  ak_machine_id : Z; ak_incarnation : Z; ak_preinstalled : list Z; ak_parts : list po_ack_part;
  ak_digests : Z }.

(** What shows that a slot is ordered: its Pre-Prepare and, if it was ordered by
    Commits, 2f+k+1 of these. *)
Record ord_certificate_mess := mkOrdCert {
  oc_machine_id : Z; oc_incarnation : Z; oc_view : Z; oc_seq_num : Z; oc_type : Z;
  oc_pre_prepare : pre_prepare_mess; oc_commits : list vote }.

(** [for (j = first; j <= last; j++)]. *)
Definition counting (first last : Z) : list Z := seqZ first (last - first + 1).

(** The PO-Requests of a server that become eligible between two pairs: those of
    the current incarnation from its first on, or from the one after [prev]. *)
Definition requests_between (server : Z) (prev cur : po_seq_pair) : list po_id :=
  let start := if incarnation prev <? incarnation cur then 0 else seq_num prev in
  map (fun j => mkPoId server (mkPS (incarnation cur) j)) (counting (start + 1) (seq_num cur)).

Definition requests_of (last elig : list po_seq_pair) : list po_id :=
  concat (imap (fun i '(p, c) => requests_between (Z.of_nat i + 1) p c) (zip last elig)).

(** What a replica does that others see; [Resend] is a message broadcast again as it
    is, [Send_To_Server] one sent to a single server, [Queue_Execute] is the event that runs
    [ORDER_Attempt_To_Execute_Pending_Commits]. *)
Inductive action :=
| Send_Prepare (v : vote)
| Send_Commit (v : vote)
| Send_Pre_Prepare (m : pre_prepare_mess)
| Flood (m : pre_prepare_mess)
| TAT_Stopped (proof_matrix : list byte)
| Respond (c : client_response)
| Send_PO_Ack (a : po_ack_mess)
| Send_PO_ARU (m : list byte)
| Send_Proof_Matrix (acks : list byte)
| Send_PO_Request (m : list byte)
| Resend (m : list byte)
| Send_To_Server (server_id : Z) (m : list byte)
| Queue_Execute.

Definition MAX_PRE_PREPARE_PARTS : Z := 10.

(** ** The state *)
Record ord_slot := mkOrdSlot {
  slot_seq_num : Z ;
  slot_view : Z ;
  slot_type : Z ;
  pre_prepare_parts : list bool ;
  pre_prepare_parts_msg : list (option pre_prepare_mess) ;
  total_parts : Z ;
  num_parts_collected : Z ;
  collected_all_parts : bool ;
  complete_pre_prepare : complete_pre_prepare_message ;
  sent_prepare : bool ;
  sent_commit : bool ;
  forwarded_pre_prepare_parts : list bool ;
  num_forwarded_parts : Z ;
  prepare : list (option vote) ;
  commit : list (option vote) ;
  ordered : bool ;
  executed : bool ;
  prepare_certificate_ready : bool ;
  prepare_certificate : complete_pre_prepare_message * list (option vote) ;
  commit_certificate : list (option vote) ;
  reconciled : bool ;
  made_eligible : list po_seq_pair ;
  populated_eligible : bool ;
  preinstalled_snapshot : list Z ;
  snapshot : bool ;
  num_remaining_for_execution : Z ;
  po_slot_list : list po_id ;
  ord_certificate : option ord_certificate_mess ;
  signed_ord_cert : bool }.

Definition start_pre_prepare (v tp : Z) (c : complete_pre_prepare_message) (s : ord_slot) : ord_slot :=
  {| slot_seq_num := slot_seq_num s; slot_view := v; slot_type := slot_type s;
     pre_prepare_parts := pre_prepare_parts s;
     pre_prepare_parts_msg := pre_prepare_parts_msg s; total_parts := tp;
     num_parts_collected := num_parts_collected s;
     collected_all_parts := collected_all_parts s; complete_pre_prepare := c;
     sent_prepare := sent_prepare s; sent_commit := sent_commit s;
     forwarded_pre_prepare_parts := forwarded_pre_prepare_parts s;
     num_forwarded_parts := num_forwarded_parts s; prepare := prepare s; commit := commit s;
     ordered := ordered s; executed := executed s;
     prepare_certificate_ready := prepare_certificate_ready s;
     prepare_certificate := prepare_certificate s; commit_certificate := commit_certificate s;
     reconciled := reconciled s; made_eligible := made_eligible s;
     populated_eligible := populated_eligible s;
     preinstalled_snapshot := preinstalled_snapshot s; snapshot := snapshot s;
     num_remaining_for_execution := num_remaining_for_execution s;
     po_slot_list := po_slot_list s;
     ord_certificate := ord_certificate s; signed_ord_cert := signed_ord_cert s |}.

Definition store_part (ps : list bool) (ms : list (option pre_prepare_mess)) (c : complete_pre_prepare_message) (n : Z) (s : ord_slot) : ord_slot :=
  {| slot_seq_num := slot_seq_num s; slot_view := slot_view s; slot_type := slot_type s;
     pre_prepare_parts := ps; pre_prepare_parts_msg := ms; total_parts := total_parts s;
     num_parts_collected := n; collected_all_parts := collected_all_parts s;
     complete_pre_prepare := c; sent_prepare := sent_prepare s; sent_commit := sent_commit s;
     forwarded_pre_prepare_parts := forwarded_pre_prepare_parts s;
     num_forwarded_parts := num_forwarded_parts s; prepare := prepare s; commit := commit s;
     ordered := ordered s; executed := executed s;
     prepare_certificate_ready := prepare_certificate_ready s;
     prepare_certificate := prepare_certificate s; commit_certificate := commit_certificate s;
     reconciled := reconciled s; made_eligible := made_eligible s;
     populated_eligible := populated_eligible s;
     preinstalled_snapshot := preinstalled_snapshot s; snapshot := snapshot s;
     num_remaining_for_execution := num_remaining_for_execution s;
     po_slot_list := po_slot_list s;
     ord_certificate := ord_certificate s; signed_ord_cert := signed_ord_cert s |}.

Definition mark_collected (s : ord_slot) : ord_slot :=
  {| slot_seq_num := slot_seq_num s; slot_view := slot_view s; slot_type := slot_type s;
     pre_prepare_parts := pre_prepare_parts s;
     pre_prepare_parts_msg := pre_prepare_parts_msg s; total_parts := total_parts s;
     num_parts_collected := num_parts_collected s; collected_all_parts := true;
     complete_pre_prepare := complete_pre_prepare s; sent_prepare := sent_prepare s;
     sent_commit := sent_commit s;
     forwarded_pre_prepare_parts := forwarded_pre_prepare_parts s;
     num_forwarded_parts := num_forwarded_parts s; prepare := prepare s; commit := commit s;
     ordered := ordered s; executed := executed s;
     prepare_certificate_ready := prepare_certificate_ready s;
     prepare_certificate := prepare_certificate s; commit_certificate := commit_certificate s;
     reconciled := reconciled s; made_eligible := made_eligible s;
     populated_eligible := populated_eligible s;
     preinstalled_snapshot := preinstalled_snapshot s; snapshot := snapshot s;
     num_remaining_for_execution := num_remaining_for_execution s;
     po_slot_list := po_slot_list s;
     ord_certificate := ord_certificate s; signed_ord_cert := signed_ord_cert s |}.

Definition mark_forwarded (fs : list bool) (n : Z) (s : ord_slot) : ord_slot :=
  {| slot_seq_num := slot_seq_num s; slot_view := slot_view s; slot_type := slot_type s;
     pre_prepare_parts := pre_prepare_parts s;
     pre_prepare_parts_msg := pre_prepare_parts_msg s; total_parts := total_parts s;
     num_parts_collected := num_parts_collected s;
     collected_all_parts := collected_all_parts s;
     complete_pre_prepare := complete_pre_prepare s; sent_prepare := sent_prepare s;
     sent_commit := sent_commit s; forwarded_pre_prepare_parts := fs; num_forwarded_parts := n;
     prepare := prepare s; commit := commit s; ordered := ordered s; executed := executed s;
     prepare_certificate_ready := prepare_certificate_ready s;
     prepare_certificate := prepare_certificate s; commit_certificate := commit_certificate s;
     reconciled := reconciled s; made_eligible := made_eligible s;
     populated_eligible := populated_eligible s;
     preinstalled_snapshot := preinstalled_snapshot s; snapshot := snapshot s;
     num_remaining_for_execution := num_remaining_for_execution s;
     po_slot_list := po_slot_list s;
     ord_certificate := ord_certificate s; signed_ord_cert := signed_ord_cert s |}.

Definition mark_sent_prepare (s : ord_slot) : ord_slot :=
  {| slot_seq_num := slot_seq_num s; slot_view := slot_view s; slot_type := slot_type s;
     pre_prepare_parts := pre_prepare_parts s;
     pre_prepare_parts_msg := pre_prepare_parts_msg s; total_parts := total_parts s;
     num_parts_collected := num_parts_collected s;
     collected_all_parts := collected_all_parts s;
     complete_pre_prepare := complete_pre_prepare s; sent_prepare := true;
     sent_commit := sent_commit s;
     forwarded_pre_prepare_parts := forwarded_pre_prepare_parts s;
     num_forwarded_parts := num_forwarded_parts s; prepare := prepare s; commit := commit s;
     ordered := ordered s; executed := executed s;
     prepare_certificate_ready := prepare_certificate_ready s;
     prepare_certificate := prepare_certificate s; commit_certificate := commit_certificate s;
     reconciled := reconciled s; made_eligible := made_eligible s;
     populated_eligible := populated_eligible s;
     preinstalled_snapshot := preinstalled_snapshot s; snapshot := snapshot s;
     num_remaining_for_execution := num_remaining_for_execution s;
     po_slot_list := po_slot_list s;
     ord_certificate := ord_certificate s; signed_ord_cert := signed_ord_cert s |}.

Definition mark_sent_commit (s : ord_slot) : ord_slot :=
  {| slot_seq_num := slot_seq_num s; slot_view := slot_view s; slot_type := slot_type s;
     pre_prepare_parts := pre_prepare_parts s;
     pre_prepare_parts_msg := pre_prepare_parts_msg s; total_parts := total_parts s;
     num_parts_collected := num_parts_collected s;
     collected_all_parts := collected_all_parts s;
     complete_pre_prepare := complete_pre_prepare s; sent_prepare := sent_prepare s;
     sent_commit := true; forwarded_pre_prepare_parts := forwarded_pre_prepare_parts s;
     num_forwarded_parts := num_forwarded_parts s; prepare := prepare s; commit := commit s;
     ordered := ordered s; executed := executed s;
     prepare_certificate_ready := prepare_certificate_ready s;
     prepare_certificate := prepare_certificate s; commit_certificate := commit_certificate s;
     reconciled := reconciled s; made_eligible := made_eligible s;
     populated_eligible := populated_eligible s;
     preinstalled_snapshot := preinstalled_snapshot s; snapshot := snapshot s;
     num_remaining_for_execution := num_remaining_for_execution s;
     po_slot_list := po_slot_list s;
     ord_certificate := ord_certificate s; signed_ord_cert := signed_ord_cert s |}.

Definition with_prepare (l : list (option vote)) (s : ord_slot) : ord_slot :=
  {| slot_seq_num := slot_seq_num s; slot_view := slot_view s; slot_type := slot_type s;
     pre_prepare_parts := pre_prepare_parts s;
     pre_prepare_parts_msg := pre_prepare_parts_msg s; total_parts := total_parts s;
     num_parts_collected := num_parts_collected s;
     collected_all_parts := collected_all_parts s;
     complete_pre_prepare := complete_pre_prepare s; sent_prepare := sent_prepare s;
     sent_commit := sent_commit s;
     forwarded_pre_prepare_parts := forwarded_pre_prepare_parts s;
     num_forwarded_parts := num_forwarded_parts s; prepare := l; commit := commit s;
     ordered := ordered s; executed := executed s;
     prepare_certificate_ready := prepare_certificate_ready s;
     prepare_certificate := prepare_certificate s; commit_certificate := commit_certificate s;
     reconciled := reconciled s; made_eligible := made_eligible s;
     populated_eligible := populated_eligible s;
     preinstalled_snapshot := preinstalled_snapshot s; snapshot := snapshot s;
     num_remaining_for_execution := num_remaining_for_execution s;
     po_slot_list := po_slot_list s;
     ord_certificate := ord_certificate s; signed_ord_cert := signed_ord_cert s |}.

Definition with_commit (l : list (option vote)) (s : ord_slot) : ord_slot :=
  {| slot_seq_num := slot_seq_num s; slot_view := slot_view s; slot_type := slot_type s;
     pre_prepare_parts := pre_prepare_parts s;
     pre_prepare_parts_msg := pre_prepare_parts_msg s; total_parts := total_parts s;
     num_parts_collected := num_parts_collected s;
     collected_all_parts := collected_all_parts s;
     complete_pre_prepare := complete_pre_prepare s; sent_prepare := sent_prepare s;
     sent_commit := sent_commit s;
     forwarded_pre_prepare_parts := forwarded_pre_prepare_parts s;
     num_forwarded_parts := num_forwarded_parts s; prepare := prepare s; commit := l;
     ordered := ordered s; executed := executed s;
     prepare_certificate_ready := prepare_certificate_ready s;
     prepare_certificate := prepare_certificate s; commit_certificate := commit_certificate s;
     reconciled := reconciled s; made_eligible := made_eligible s;
     populated_eligible := populated_eligible s;
     preinstalled_snapshot := preinstalled_snapshot s; snapshot := snapshot s;
     num_remaining_for_execution := num_remaining_for_execution s;
     po_slot_list := po_slot_list s;
     ord_certificate := ord_certificate s; signed_ord_cert := signed_ord_cert s |}.

Definition with_prepare_certificate (c : complete_pre_prepare_message) (l : list (option vote)) (s : ord_slot) : ord_slot :=
  {| slot_seq_num := slot_seq_num s; slot_view := slot_view s; slot_type := slot_type s;
     pre_prepare_parts := pre_prepare_parts s;
     pre_prepare_parts_msg := pre_prepare_parts_msg s; total_parts := total_parts s;
     num_parts_collected := num_parts_collected s;
     collected_all_parts := collected_all_parts s;
     complete_pre_prepare := complete_pre_prepare s; sent_prepare := sent_prepare s;
     sent_commit := sent_commit s;
     forwarded_pre_prepare_parts := forwarded_pre_prepare_parts s;
     num_forwarded_parts := num_forwarded_parts s; prepare := prepare s; commit := commit s;
     ordered := ordered s; executed := executed s; prepare_certificate_ready := true;
     prepare_certificate := (c, l); commit_certificate := commit_certificate s;
     reconciled := reconciled s; made_eligible := made_eligible s;
     populated_eligible := populated_eligible s;
     preinstalled_snapshot := preinstalled_snapshot s; snapshot := snapshot s;
     num_remaining_for_execution := num_remaining_for_execution s;
     po_slot_list := po_slot_list s;
     ord_certificate := ord_certificate s; signed_ord_cert := signed_ord_cert s |}.

Definition with_commit_certificate (l : list (option vote)) (snap : list Z) (s : ord_slot) : ord_slot :=
  {| slot_seq_num := slot_seq_num s; slot_view := slot_view s; slot_type := slot_type s;
     pre_prepare_parts := pre_prepare_parts s;
     pre_prepare_parts_msg := pre_prepare_parts_msg s; total_parts := total_parts s;
     num_parts_collected := num_parts_collected s;
     collected_all_parts := collected_all_parts s;
     complete_pre_prepare := complete_pre_prepare s; sent_prepare := sent_prepare s;
     sent_commit := sent_commit s;
     forwarded_pre_prepare_parts := forwarded_pre_prepare_parts s;
     num_forwarded_parts := num_forwarded_parts s; prepare := prepare s; commit := commit s;
     ordered := true; executed := executed s;
     prepare_certificate_ready := prepare_certificate_ready s;
     prepare_certificate := prepare_certificate s; commit_certificate := l;
     reconciled := reconciled s; made_eligible := made_eligible s;
     populated_eligible := populated_eligible s; preinstalled_snapshot := snap;
     snapshot := true; num_remaining_for_execution := num_remaining_for_execution s;
     po_slot_list := po_slot_list s;
     ord_certificate := ord_certificate s; signed_ord_cert := signed_ord_cert s |}.

(** [preinstalled_snapshot] is set, but for its entry 0. *)
Definition take_ord_snapshot (l : list Z) (s : ord_slot) : ord_slot :=
  {| slot_seq_num := slot_seq_num s; slot_view := slot_view s; slot_type := slot_type s;
     pre_prepare_parts := pre_prepare_parts s;
     pre_prepare_parts_msg := pre_prepare_parts_msg s; total_parts := total_parts s;
     num_parts_collected := num_parts_collected s;
     collected_all_parts := collected_all_parts s;
     complete_pre_prepare := complete_pre_prepare s; sent_prepare := sent_prepare s;
     sent_commit := sent_commit s;
     forwarded_pre_prepare_parts := forwarded_pre_prepare_parts s;
     num_forwarded_parts := num_forwarded_parts s; prepare := prepare s; commit := commit s;
     ordered := ordered s; executed := executed s;
     prepare_certificate_ready := prepare_certificate_ready s;
     prepare_certificate := prepare_certificate s; commit_certificate := commit_certificate s;
     reconciled := reconciled s; made_eligible := made_eligible s;
     populated_eligible := populated_eligible s;
     preinstalled_snapshot := take 1 (preinstalled_snapshot s) ++ l; snapshot := true;
     num_remaining_for_execution := num_remaining_for_execution s;
     po_slot_list := po_slot_list s;
     ord_certificate := ord_certificate s; signed_ord_cert := signed_ord_cert s |}.

(** Before a certificate's Commits are processed, those of the slot are dropped, and
    the vector they carry is the slot's. *)
Definition adopt_certificate (l : list Z) (s : ord_slot) : ord_slot :=
  with_commit (take 1 (commit s) ++ repeat None (Z.to_nat NUM_SERVERS)) (take_ord_snapshot l s).

Definition with_eligible (v : list po_seq_pair) (s : ord_slot) : ord_slot :=
  {| slot_seq_num := slot_seq_num s; slot_view := slot_view s; slot_type := slot_type s;
     pre_prepare_parts := pre_prepare_parts s;
     pre_prepare_parts_msg := pre_prepare_parts_msg s; total_parts := total_parts s;
     num_parts_collected := num_parts_collected s;
     collected_all_parts := collected_all_parts s;
     complete_pre_prepare := complete_pre_prepare s; sent_prepare := sent_prepare s;
     sent_commit := sent_commit s;
     forwarded_pre_prepare_parts := forwarded_pre_prepare_parts s;
     num_forwarded_parts := num_forwarded_parts s; prepare := prepare s; commit := commit s;
     ordered := ordered s; executed := executed s;
     prepare_certificate_ready := prepare_certificate_ready s;
     prepare_certificate := prepare_certificate s; commit_certificate := commit_certificate s;
     reconciled := reconciled s; made_eligible := v; populated_eligible := true;
     preinstalled_snapshot := preinstalled_snapshot s; snapshot := snapshot s;
     num_remaining_for_execution := num_remaining_for_execution s;
     po_slot_list := po_slot_list s;
     ord_certificate := ord_certificate s; signed_ord_cert := signed_ord_cert s |}.

Definition populate_own (vw : Z) (v : list po_seq_pair) (s : ord_slot) : ord_slot :=
  {| slot_seq_num := slot_seq_num s; slot_view := vw; slot_type := slot_type s;
     pre_prepare_parts := pre_prepare_parts s;
     pre_prepare_parts_msg := pre_prepare_parts_msg s; total_parts := total_parts s;
     num_parts_collected := num_parts_collected s;
     collected_all_parts := collected_all_parts s;
     complete_pre_prepare := complete_pre_prepare s; sent_prepare := sent_prepare s;
     sent_commit := sent_commit s;
     forwarded_pre_prepare_parts := forwarded_pre_prepare_parts s;
     num_forwarded_parts := num_forwarded_parts s; prepare := prepare s; commit := commit s;
     ordered := ordered s; executed := executed s;
     prepare_certificate_ready := prepare_certificate_ready s;
     prepare_certificate := prepare_certificate s; commit_certificate := commit_certificate s;
     reconciled := reconciled s; made_eligible := v; populated_eligible := true;
     preinstalled_snapshot := preinstalled_snapshot s; snapshot := snapshot s;
     num_remaining_for_execution := num_remaining_for_execution s;
     po_slot_list := po_slot_list s;
     ord_certificate := ord_certificate s; signed_ord_cert := signed_ord_cert s |}.

Definition mark_executed (s : ord_slot) : ord_slot :=
  {| slot_seq_num := slot_seq_num s; slot_view := slot_view s; slot_type := slot_type s;
     pre_prepare_parts := pre_prepare_parts s;
     pre_prepare_parts_msg := pre_prepare_parts_msg s; total_parts := total_parts s;
     num_parts_collected := num_parts_collected s;
     collected_all_parts := collected_all_parts s;
     complete_pre_prepare := complete_pre_prepare s; sent_prepare := sent_prepare s;
     sent_commit := sent_commit s;
     forwarded_pre_prepare_parts := forwarded_pre_prepare_parts s;
     num_forwarded_parts := num_forwarded_parts s; prepare := prepare s; commit := commit s;
     ordered := ordered s; executed := true;
     prepare_certificate_ready := prepare_certificate_ready s;
     prepare_certificate := prepare_certificate s; commit_certificate := commit_certificate s;
     reconciled := reconciled s; made_eligible := made_eligible s;
     populated_eligible := populated_eligible s;
     preinstalled_snapshot := preinstalled_snapshot s; snapshot := snapshot s;
     num_remaining_for_execution := num_remaining_for_execution s;
     po_slot_list := po_slot_list s;
     ord_certificate := ord_certificate s; signed_ord_cert := signed_ord_cert s |}.

Definition with_reconciled (x : bool) (s : ord_slot) : ord_slot :=
  {| slot_seq_num := slot_seq_num s; slot_view := slot_view s; slot_type := slot_type s;
     pre_prepare_parts := pre_prepare_parts s;
     pre_prepare_parts_msg := pre_prepare_parts_msg s; total_parts := total_parts s;
     num_parts_collected := num_parts_collected s;
     collected_all_parts := collected_all_parts s;
     complete_pre_prepare := complete_pre_prepare s; sent_prepare := sent_prepare s;
     sent_commit := sent_commit s;
     forwarded_pre_prepare_parts := forwarded_pre_prepare_parts s;
     num_forwarded_parts := num_forwarded_parts s; prepare := prepare s; commit := commit s;
     ordered := ordered s; executed := executed s;
     prepare_certificate_ready := prepare_certificate_ready s;
     prepare_certificate := prepare_certificate s; commit_certificate := commit_certificate s;
     reconciled := x; made_eligible := made_eligible s;
     populated_eligible := populated_eligible s;
     preinstalled_snapshot := preinstalled_snapshot s; snapshot := snapshot s;
     num_remaining_for_execution := num_remaining_for_execution s;
     po_slot_list := po_slot_list s;
     ord_certificate := ord_certificate s; signed_ord_cert := signed_ord_cert s |}.

Definition mark_reconciled : ord_slot -> ord_slot := with_reconciled true.

Definition with_remaining (n : Z) (s : ord_slot) : ord_slot :=
  {| slot_seq_num := slot_seq_num s; slot_view := slot_view s; slot_type := slot_type s;
     pre_prepare_parts := pre_prepare_parts s;
     pre_prepare_parts_msg := pre_prepare_parts_msg s; total_parts := total_parts s;
     num_parts_collected := num_parts_collected s;
     collected_all_parts := collected_all_parts s;
     complete_pre_prepare := complete_pre_prepare s; sent_prepare := sent_prepare s;
     sent_commit := sent_commit s;
     forwarded_pre_prepare_parts := forwarded_pre_prepare_parts s;
     num_forwarded_parts := num_forwarded_parts s; prepare := prepare s; commit := commit s;
     ordered := ordered s; executed := executed s;
     prepare_certificate_ready := prepare_certificate_ready s;
     prepare_certificate := prepare_certificate s; commit_certificate := commit_certificate s;
     reconciled := reconciled s; made_eligible := made_eligible s;
     populated_eligible := populated_eligible s;
     preinstalled_snapshot := preinstalled_snapshot s; snapshot := snapshot s;
     num_remaining_for_execution := n; po_slot_list := po_slot_list s;
     ord_certificate := ord_certificate s; signed_ord_cert := signed_ord_cert s |}.

Definition add_po_slot (i : po_id) (s : ord_slot) : ord_slot :=
  {| slot_seq_num := slot_seq_num s; slot_view := slot_view s; slot_type := slot_type s;
     pre_prepare_parts := pre_prepare_parts s;
     pre_prepare_parts_msg := pre_prepare_parts_msg s; total_parts := total_parts s;
     num_parts_collected := num_parts_collected s;
     collected_all_parts := collected_all_parts s;
     complete_pre_prepare := complete_pre_prepare s; sent_prepare := sent_prepare s;
     sent_commit := sent_commit s;
     forwarded_pre_prepare_parts := forwarded_pre_prepare_parts s;
     num_forwarded_parts := num_forwarded_parts s; prepare := prepare s; commit := commit s;
     ordered := ordered s; executed := executed s;
     prepare_certificate_ready := prepare_certificate_ready s;
     prepare_certificate := prepare_certificate s; commit_certificate := commit_certificate s;
     reconciled := reconciled s; made_eligible := made_eligible s;
     populated_eligible := populated_eligible s;
     preinstalled_snapshot := preinstalled_snapshot s; snapshot := snapshot s;
     num_remaining_for_execution := num_remaining_for_execution s;
     po_slot_list := po_slot_list s ++ [i];
     ord_certificate := ord_certificate s; signed_ord_cert := signed_ord_cert s |}.

Definition with_ord_certificate (c : ord_certificate_mess) (b : bool) (s : ord_slot) : ord_slot :=
  {| slot_seq_num := slot_seq_num s; slot_view := slot_view s; slot_type := slot_type s;
     pre_prepare_parts := pre_prepare_parts s;
     pre_prepare_parts_msg := pre_prepare_parts_msg s; total_parts := total_parts s;
     num_parts_collected := num_parts_collected s;
     collected_all_parts := collected_all_parts s;
     complete_pre_prepare := complete_pre_prepare s; sent_prepare := sent_prepare s;
     sent_commit := sent_commit s;
     forwarded_pre_prepare_parts := forwarded_pre_prepare_parts s;
     num_forwarded_parts := num_forwarded_parts s; prepare := prepare s; commit := commit s;
     ordered := ordered s; executed := executed s;
     prepare_certificate_ready := prepare_certificate_ready s;
     prepare_certificate := prepare_certificate s; commit_certificate := commit_certificate s;
     reconciled := reconciled s; made_eligible := made_eligible s;
     populated_eligible := populated_eligible s;
     preinstalled_snapshot := preinstalled_snapshot s; snapshot := snapshot s;
     num_remaining_for_execution := num_remaining_for_execution s;
     po_slot_list := po_slot_list s; ord_certificate := Some c; signed_ord_cert := b |}.

Section State.
Context {E : Type}.

Record order_state := mkOrder {
  View : Z ;
  view_change_done : bool ;
  ARU : Z ;
  ppARU : Z ;
  high_prepared : Z ;
  high_committed : Z ;
  forwarding_white_line : Z ;
  recon_white_line : Z ;
  stable_catchup : Z ;
  next_seq : Z ;
  should_send_pp : bool ;
  History : gmap Z ord_slot ;
  Pending_Execution : gset Z ;
  proposal_digest : digest ;
  new_incarnation_val : Z ;
  preinstalled_incarnations : list Z ;
  installed_incarnations : list Z ;
  cum_acks : list byte ;
  max_num_sent_in_proof : list po_seq_pair ;
  leader_suspected : bool ;
  turnaround_times : list (list byte) ;
  actions : list action ;
  others : E }.

Definition set_History (h : gmap Z ord_slot) (r : order_state) : order_state :=
  {| View := View r; view_change_done := view_change_done r; ARU := ARU r; ppARU := ppARU r;
     high_prepared := high_prepared r; high_committed := high_committed r;
     forwarding_white_line := forwarding_white_line r; recon_white_line := recon_white_line r;
     stable_catchup := stable_catchup r; next_seq := next_seq r;
     should_send_pp := should_send_pp r; History := h;
     Pending_Execution := Pending_Execution r; proposal_digest := proposal_digest r;
     new_incarnation_val := new_incarnation_val r;
     preinstalled_incarnations := preinstalled_incarnations r;
     installed_incarnations := installed_incarnations r; cum_acks := cum_acks r;
     max_num_sent_in_proof := max_num_sent_in_proof r; leader_suspected := leader_suspected r;
     turnaround_times := turnaround_times r; actions := actions r; others := others r |}.

Definition set_Pending (x : gset Z) (r : order_state) : order_state :=
  {| View := View r; view_change_done := view_change_done r; ARU := ARU r; ppARU := ppARU r;
     high_prepared := high_prepared r; high_committed := high_committed r;
     forwarding_white_line := forwarding_white_line r; recon_white_line := recon_white_line r;
     stable_catchup := stable_catchup r; next_seq := next_seq r;
     should_send_pp := should_send_pp r; History := History r; Pending_Execution := x;
     proposal_digest := proposal_digest r; new_incarnation_val := new_incarnation_val r;
     preinstalled_incarnations := preinstalled_incarnations r;
     installed_incarnations := installed_incarnations r; cum_acks := cum_acks r;
     max_num_sent_in_proof := max_num_sent_in_proof r; leader_suspected := leader_suspected r;
     turnaround_times := turnaround_times r; actions := actions r; others := others r |}.

Definition set_ppARU (n : Z) (r : order_state) : order_state :=
  {| View := View r; view_change_done := view_change_done r; ARU := ARU r; ppARU := n;
     high_prepared := high_prepared r; high_committed := high_committed r;
     forwarding_white_line := forwarding_white_line r; recon_white_line := recon_white_line r;
     stable_catchup := stable_catchup r; next_seq := next_seq r;
     should_send_pp := should_send_pp r; History := History r;
     Pending_Execution := Pending_Execution r; proposal_digest := proposal_digest r;
     new_incarnation_val := new_incarnation_val r;
     preinstalled_incarnations := preinstalled_incarnations r;
     installed_incarnations := installed_incarnations r; cum_acks := cum_acks r;
     max_num_sent_in_proof := max_num_sent_in_proof r; leader_suspected := leader_suspected r;
     turnaround_times := turnaround_times r; actions := actions r; others := others r |}.

Definition set_high_prepared (n : Z) (r : order_state) : order_state :=
  {| View := View r; view_change_done := view_change_done r; ARU := ARU r; ppARU := ppARU r;
     high_prepared := n; high_committed := high_committed r;
     forwarding_white_line := forwarding_white_line r; recon_white_line := recon_white_line r;
     stable_catchup := stable_catchup r; next_seq := next_seq r;
     should_send_pp := should_send_pp r; History := History r;
     Pending_Execution := Pending_Execution r; proposal_digest := proposal_digest r;
     new_incarnation_val := new_incarnation_val r;
     preinstalled_incarnations := preinstalled_incarnations r;
     installed_incarnations := installed_incarnations r; cum_acks := cum_acks r;
     max_num_sent_in_proof := max_num_sent_in_proof r; leader_suspected := leader_suspected r;
     turnaround_times := turnaround_times r; actions := actions r; others := others r |}.

Definition set_high_committed (n : Z) (r : order_state) : order_state :=
  {| View := View r; view_change_done := view_change_done r; ARU := ARU r; ppARU := ppARU r;
     high_prepared := high_prepared r; high_committed := n;
     forwarding_white_line := forwarding_white_line r; recon_white_line := recon_white_line r;
     stable_catchup := stable_catchup r; next_seq := next_seq r;
     should_send_pp := should_send_pp r; History := History r;
     Pending_Execution := Pending_Execution r; proposal_digest := proposal_digest r;
     new_incarnation_val := new_incarnation_val r;
     preinstalled_incarnations := preinstalled_incarnations r;
     installed_incarnations := installed_incarnations r; cum_acks := cum_acks r;
     max_num_sent_in_proof := max_num_sent_in_proof r; leader_suspected := leader_suspected r;
     turnaround_times := turnaround_times r; actions := actions r; others := others r |}.

Definition set_forwarding_white_line (n : Z) (r : order_state) : order_state :=
  {| View := View r; view_change_done := view_change_done r; ARU := ARU r; ppARU := ppARU r;
     high_prepared := high_prepared r; high_committed := high_committed r;
     forwarding_white_line := n; recon_white_line := recon_white_line r;
     stable_catchup := stable_catchup r; next_seq := next_seq r;
     should_send_pp := should_send_pp r; History := History r;
     Pending_Execution := Pending_Execution r; proposal_digest := proposal_digest r;
     new_incarnation_val := new_incarnation_val r;
     preinstalled_incarnations := preinstalled_incarnations r;
     installed_incarnations := installed_incarnations r; cum_acks := cum_acks r;
     max_num_sent_in_proof := max_num_sent_in_proof r; leader_suspected := leader_suspected r;
     turnaround_times := turnaround_times r; actions := actions r; others := others r |}.

Definition set_recon_line (n : Z) (r : order_state) : order_state :=
  {| View := View r; view_change_done := view_change_done r; ARU := ARU r; ppARU := ppARU r;
     high_prepared := high_prepared r; high_committed := high_committed r;
     forwarding_white_line := forwarding_white_line r; recon_white_line := n;
     stable_catchup := stable_catchup r; next_seq := next_seq r;
     should_send_pp := should_send_pp r; History := History r;
     Pending_Execution := Pending_Execution r; proposal_digest := proposal_digest r;
     new_incarnation_val := new_incarnation_val r;
     preinstalled_incarnations := preinstalled_incarnations r;
     installed_incarnations := installed_incarnations r; cum_acks := cum_acks r;
     max_num_sent_in_proof := max_num_sent_in_proof r; leader_suspected := leader_suspected r;
     turnaround_times := turnaround_times r; actions := actions r; others := others r |}.

Definition set_max_num_sent (l : list po_seq_pair) (r : order_state) : order_state :=
  {| View := View r; view_change_done := view_change_done r; ARU := ARU r; ppARU := ppARU r;
     high_prepared := high_prepared r; high_committed := high_committed r;
     forwarding_white_line := forwarding_white_line r; recon_white_line := recon_white_line r;
     stable_catchup := stable_catchup r; next_seq := next_seq r;
     should_send_pp := should_send_pp r; History := History r;
     Pending_Execution := Pending_Execution r; proposal_digest := proposal_digest r;
     new_incarnation_val := new_incarnation_val r;
     preinstalled_incarnations := preinstalled_incarnations r;
     installed_incarnations := installed_incarnations r; cum_acks := cum_acks r;
     max_num_sent_in_proof := l; leader_suspected := leader_suspected r;
     turnaround_times := turnaround_times r; actions := actions r; others := others r |}.

Definition set_next_seq (n : Z) (r : order_state) : order_state :=
  {| View := View r; view_change_done := view_change_done r; ARU := ARU r; ppARU := ppARU r;
     high_prepared := high_prepared r; high_committed := high_committed r;
     forwarding_white_line := forwarding_white_line r; recon_white_line := recon_white_line r;
     stable_catchup := stable_catchup r; next_seq := n; should_send_pp := should_send_pp r;
     History := History r; Pending_Execution := Pending_Execution r;
     proposal_digest := proposal_digest r; new_incarnation_val := new_incarnation_val r;
     preinstalled_incarnations := preinstalled_incarnations r;
     installed_incarnations := installed_incarnations r; cum_acks := cum_acks r;
     max_num_sent_in_proof := max_num_sent_in_proof r; leader_suspected := leader_suspected r;
     turnaround_times := turnaround_times r; actions := actions r; others := others r |}.

Definition set_should_send_pp (b : bool) (r : order_state) : order_state :=
  {| View := View r; view_change_done := view_change_done r; ARU := ARU r; ppARU := ppARU r;
     high_prepared := high_prepared r; high_committed := high_committed r;
     forwarding_white_line := forwarding_white_line r; recon_white_line := recon_white_line r;
     stable_catchup := stable_catchup r; next_seq := next_seq r; should_send_pp := b;
     History := History r; Pending_Execution := Pending_Execution r;
     proposal_digest := proposal_digest r; new_incarnation_val := new_incarnation_val r;
     preinstalled_incarnations := preinstalled_incarnations r;
     installed_incarnations := installed_incarnations r; cum_acks := cum_acks r;
     max_num_sent_in_proof := max_num_sent_in_proof r; leader_suspected := leader_suspected r;
     turnaround_times := turnaround_times r; actions := actions r; others := others r |}.

Definition set_cum_acks (l : list byte) (r : order_state) : order_state :=
  {| View := View r; view_change_done := view_change_done r; ARU := ARU r; ppARU := ppARU r;
     high_prepared := high_prepared r; high_committed := high_committed r;
     forwarding_white_line := forwarding_white_line r; recon_white_line := recon_white_line r;
     stable_catchup := stable_catchup r; next_seq := next_seq r;
     should_send_pp := should_send_pp r; History := History r;
     Pending_Execution := Pending_Execution r; proposal_digest := proposal_digest r;
     new_incarnation_val := new_incarnation_val r;
     preinstalled_incarnations := preinstalled_incarnations r;
     installed_incarnations := installed_incarnations r; cum_acks := l;
     max_num_sent_in_proof := max_num_sent_in_proof r; leader_suspected := leader_suspected r;
     turnaround_times := turnaround_times r; actions := actions r; others := others r |}.

Definition set_stable (n : Z) (r : order_state) : order_state :=
  {| View := View r; view_change_done := view_change_done r; ARU := ARU r; ppARU := ppARU r;
     high_prepared := high_prepared r; high_committed := high_committed r;
     forwarding_white_line := forwarding_white_line r; recon_white_line := recon_white_line r;
     stable_catchup := n; next_seq := next_seq r; should_send_pp := should_send_pp r;
     History := History r; Pending_Execution := Pending_Execution r;
     proposal_digest := proposal_digest r; new_incarnation_val := new_incarnation_val r;
     preinstalled_incarnations := preinstalled_incarnations r;
     installed_incarnations := installed_incarnations r; cum_acks := cum_acks r;
     max_num_sent_in_proof := max_num_sent_in_proof r; leader_suspected := leader_suspected r;
     turnaround_times := turnaround_times r; actions := actions r; others := others r |}.

Definition set_ARU (n : Z) (r : order_state) : order_state :=
  {| View := View r; view_change_done := view_change_done r; ARU := n; ppARU := ppARU r;
     high_prepared := high_prepared r; high_committed := high_committed r;
     forwarding_white_line := forwarding_white_line r; recon_white_line := recon_white_line r;
     stable_catchup := stable_catchup r; next_seq := next_seq r;
     should_send_pp := should_send_pp r; History := History r;
     Pending_Execution := Pending_Execution r; proposal_digest := proposal_digest r;
     new_incarnation_val := new_incarnation_val r;
     preinstalled_incarnations := preinstalled_incarnations r;
     installed_incarnations := installed_incarnations r; cum_acks := cum_acks r;
     max_num_sent_in_proof := max_num_sent_in_proof r; leader_suspected := leader_suspected r;
     turnaround_times := turnaround_times r; actions := actions r; others := others r |}.

Definition set_preinstalled (l : list Z) (r : order_state) : order_state :=
  {| View := View r; view_change_done := view_change_done r; ARU := ARU r; ppARU := ppARU r;
     high_prepared := high_prepared r; high_committed := high_committed r;
     forwarding_white_line := forwarding_white_line r; recon_white_line := recon_white_line r;
     stable_catchup := stable_catchup r; next_seq := next_seq r;
     should_send_pp := should_send_pp r; History := History r;
     Pending_Execution := Pending_Execution r; proposal_digest := proposal_digest r;
     new_incarnation_val := new_incarnation_val r; preinstalled_incarnations := l;
     installed_incarnations := installed_incarnations r; cum_acks := cum_acks r;
     max_num_sent_in_proof := max_num_sent_in_proof r; leader_suspected := leader_suspected r;
     turnaround_times := turnaround_times r; actions := actions r; others := others r |}.

Definition set_installed (l : list Z) (r : order_state) : order_state :=
  {| View := View r; view_change_done := view_change_done r; ARU := ARU r; ppARU := ppARU r;
     high_prepared := high_prepared r; high_committed := high_committed r;
     forwarding_white_line := forwarding_white_line r; recon_white_line := recon_white_line r;
     stable_catchup := stable_catchup r; next_seq := next_seq r;
     should_send_pp := should_send_pp r; History := History r;
     Pending_Execution := Pending_Execution r; proposal_digest := proposal_digest r;
     new_incarnation_val := new_incarnation_val r;
     preinstalled_incarnations := preinstalled_incarnations r; installed_incarnations := l;
     cum_acks := cum_acks r; max_num_sent_in_proof := max_num_sent_in_proof r;
     leader_suspected := leader_suspected r; turnaround_times := turnaround_times r;
     actions := actions r; others := others r |}.

Definition set_others (e : E) (r : order_state) : order_state :=
  {| View := View r; view_change_done := view_change_done r; ARU := ARU r; ppARU := ppARU r;
     high_prepared := high_prepared r; high_committed := high_committed r;
     forwarding_white_line := forwarding_white_line r; recon_white_line := recon_white_line r;
     stable_catchup := stable_catchup r; next_seq := next_seq r;
     should_send_pp := should_send_pp r; History := History r;
     Pending_Execution := Pending_Execution r; proposal_digest := proposal_digest r;
     new_incarnation_val := new_incarnation_val r;
     preinstalled_incarnations := preinstalled_incarnations r;
     installed_incarnations := installed_incarnations r; cum_acks := cum_acks r;
     max_num_sent_in_proof := max_num_sent_in_proof r; leader_suspected := leader_suspected r;
     turnaround_times := turnaround_times r; actions := actions r; others := e |}.

Definition suspect (r : order_state) : order_state :=
  {| View := View r; view_change_done := view_change_done r; ARU := ARU r; ppARU := ppARU r;
     high_prepared := high_prepared r; high_committed := high_committed r;
     forwarding_white_line := forwarding_white_line r; recon_white_line := recon_white_line r;
     stable_catchup := stable_catchup r; next_seq := next_seq r;
     should_send_pp := should_send_pp r; History := History r;
     Pending_Execution := Pending_Execution r; proposal_digest := proposal_digest r;
     new_incarnation_val := new_incarnation_val r;
     preinstalled_incarnations := preinstalled_incarnations r;
     installed_incarnations := installed_incarnations r; cum_acks := cum_acks r;
     max_num_sent_in_proof := max_num_sent_in_proof r; leader_suspected := true;
     turnaround_times := turnaround_times r; actions := actions r; others := others r |}.

Definition set_turnaround_times (l : list (list byte)) (r : order_state) : order_state :=
  {| View := View r; view_change_done := view_change_done r; ARU := ARU r; ppARU := ppARU r;
     high_prepared := high_prepared r; high_committed := high_committed r;
     forwarding_white_line := forwarding_white_line r; recon_white_line := recon_white_line r;
     stable_catchup := stable_catchup r; next_seq := next_seq r;
     should_send_pp := should_send_pp r; History := History r;
     Pending_Execution := Pending_Execution r; proposal_digest := proposal_digest r;
     new_incarnation_val := new_incarnation_val r;
     preinstalled_incarnations := preinstalled_incarnations r;
     installed_incarnations := installed_incarnations r; cum_acks := cum_acks r;
     max_num_sent_in_proof := max_num_sent_in_proof r; leader_suspected := leader_suspected r;
     turnaround_times := l; actions := actions r; others := others r |}.

Definition act (a : action) (r : order_state) : order_state :=
  {| View := View r; view_change_done := view_change_done r; ARU := ARU r; ppARU := ppARU r;
     high_prepared := high_prepared r; high_committed := high_committed r;
     forwarding_white_line := forwarding_white_line r; recon_white_line := recon_white_line r;
     stable_catchup := stable_catchup r; next_seq := next_seq r;
     should_send_pp := should_send_pp r; History := History r;
     Pending_Execution := Pending_Execution r; proposal_digest := proposal_digest r;
     new_incarnation_val := new_incarnation_val r;
     preinstalled_incarnations := preinstalled_incarnations r;
     installed_incarnations := installed_incarnations r; cum_acks := cum_acks r;
     max_num_sent_in_proof := max_num_sent_in_proof r; leader_suspected := leader_suspected r;
     turnaround_times := turnaround_times r; actions := actions r ++ [a]; others := others r |}.

End State.

(** ** Slots *)
Definition matrix_bytes : Z := NUM_SERVERS * sz_po_aru_signed_message.
Definition zero_pairs : list po_seq_pair := repeat (mkPS 0 0) (Z.to_nat NUM_SERVERS).
Definition zero_complete : complete_pre_prepare_message :=
  mkComplete 0 0 (zeros DIGEST_SIZE) zero_pairs (zeros matrix_bytes).
Definition per_server {A} (x : A) : list A := repeat x (Z.to_nat NUM_SERVER_SLOTS).
Definition per_part {A} (x : A) : list A := repeat x (Z.to_nat (MAX_PRE_PREPARE_PARTS + 1)).

(** [memset] to 0, then the sequence number and the default type. *)
Definition new_ord_slot (seq : Z) : ord_slot :=
  {| slot_seq_num := seq; slot_view := 0; slot_type := SLOT_COMMIT;
     pre_prepare_parts := per_part false; pre_prepare_parts_msg := per_part None;
     total_parts := 0; num_parts_collected := 0; collected_all_parts := false;
     complete_pre_prepare := zero_complete; sent_prepare := false; sent_commit := false;
     forwarded_pre_prepare_parts := per_part false; num_forwarded_parts := 0;
     prepare := per_server None; commit := per_server None; ordered := false;
     executed := false; prepare_certificate_ready := false;
     prepare_certificate := (zero_complete, per_server None);
     commit_certificate := per_server None; reconciled := false;
     made_eligible := zero_pairs; populated_eligible := false;
     preinstalled_snapshot := per_server 0; snapshot := false;
     num_remaining_for_execution := 0; po_slot_list := [];
     ord_certificate := None; signed_ord_cert := false |}.

Section Slots.
Context {E : Type}.

Definition modify (f : order_state -> order_state (E := E)) : comp order_state unit :=
  r <- get ;; put (f r).

Definition UTIL_Get_ORD_Slot_If_Exists (seq : Z) : comp (order_state (E := E)) (option ord_slot) :=
  r <- get ;; ret (History r !! seq).

Definition UTIL_Get_ORD_Slot (seq : Z) : comp (order_state (E := E)) ord_slot :=
  r <- get ;;
  match History r !! seq with
  | Some slot => ret slot
  | None => put (set_History (<[seq := new_ord_slot seq]> (History r)) r) ;;;
            ret (new_ord_slot seq)
  end.

(** [*slot], through a pointer that must still be valid. *)
Definition the_slot (seq : Z) : comp (order_state (E := E)) ord_slot :=
  r <- get ;; or_oob (History r !! seq).

Definition upd (seq : Z) (f : ord_slot -> ord_slot) : comp (order_state (E := E)) unit :=
  r <- get ;;
  slot <- or_oob (History r !! seq) ;;
  put (set_History (<[seq := f slot]> (History r)) r).
End Slots.
