(* ===== verification/PreOrderState.v ===== *)
(** The data of [prime/src/pre_order.c] and of the execution of ordered slots in
    [prime/src/order.c]: [po_slot] and [po_data_struct] of [data_structs.h], with
    the fields of DATA.ORD, DATA.PR and DATA.VIEW that only these two use.
    [reading_clients] tells whether the sockets of the clients are read.

    The hash tables History[i], Pending_Execution[i] and Recon_History[i] of the
    servers are one map each, from a PO-Request of a server.  A PO-Request is kept
    as the bytes of its message, which are what its digest is taken of. *)
From Stdlib Require Import ZArith Lia List Bool.
From Stdlib Require Import Strings.Byte Strings.String.
From stdpp Require Import base list gmap countable.
From S2P Require Import Prelude Memory Config Packets Crypto Utility OrderState.

#[global] Instance po_seq_pair_countable : Countable po_seq_pair.
Proof.
  refine (inj_countable' (fun p => (incarnation p, seq_num p)) (fun '(i, n) => mkPS i n) _).
  intros []; reflexivity.
Defined.

#[global] Instance po_id_countable : Countable po_id.
Proof.
  refine (inj_countable' (fun p => (po_server_id p, po_pair p)) (fun '(s, p) => mkPoId s p) _).
  intros []; reflexivity.
Defined.

(** ** Constants *)
(** DATA.ORD.gc_width, set once. *)
Definition gc_width : Z := if 0 <? CATCHUP_HISTORY then CATCHUP_HISTORY else 1.

(** The room a PO-certificate leaves, with 2f+k+1 PO-Acks, for their parts. *)
Definition MAX_ACK_PARTS : Z :=
  Eval vm_compute in
  (PRIME_MAX_PACKET_SIZE - sz_signed_message - sz_po_certificate_message
   - (MAX_MERKLE_DIGESTS * DIGEST_SIZE) - sz_signed_message - sz_po_request_message
   - (MAX_MERKLE_DIGESTS * DIGEST_SIZE)
   - (2 * NUM_F + NUM_K + 1) * (sz_signed_message + sz_po_ack_message + MAX_MERKLE_DIGESTS * DIGEST_SIZE))
  / ((2 * NUM_F + NUM_K + 1) * sz_po_ack_part).

Definition o_po_aru_message_num : Z := Eval vm_compute in offsetof Wire.po_aru_message "num"%string.
Definition o_update_message_server_id : Z := Eval vm_compute in offsetof Wire.update_message "server_id"%string.
Definition o_signed_update_message_update : Z :=
  Eval vm_compute in offsetof Wire.signed_update_message "update"%string.
Definition o_signed_update_message_update_contents : Z :=
  Eval vm_compute in offsetof Wire.signed_update_message "update_contents"%string.

(** What shows that a PO-Request is certified: the request, and PO-Acks for it of
    2f+k+1 servers. *)
Record po_certificate_mess := mkPoCert {
  pc_machine_id : Z; pc_incarnation : Z; pc_server : Z; pc_seq : po_seq_pair;
  pc_request : list byte; pc_acks : list po_ack_mess }.

(** ** The state *)
Record po_slot := mkPoSlot {
  slot_seq : po_seq_pair ;
  po_request : option (list byte) ;
  po_request_digest : digest ;
  ack_received : list bool ;
  acks : list (option po_ack_mess) ;
  ack_parts : list (option po_ack_part) ;
  slot_num_events : Z ;
  po_snapshot_vector : list Z ;
  po_snapshot : bool ;
  po_cert : option po_certificate_mess ;
  signed_po_cert : bool }.

Definition store_request (m : list byte) (d : digest) (s : po_slot) : po_slot :=
  {| slot_seq := slot_seq s; po_request := Some m; po_request_digest := d;
     ack_received := ack_received s; acks := acks s; ack_parts := ack_parts s;
     slot_num_events := slot_num_events s; po_snapshot_vector := po_snapshot_vector s;
     po_snapshot := po_snapshot s; po_cert := po_cert s; signed_po_cert := signed_po_cert s |}.

Definition set_num_events (n : Z) (s : po_slot) : po_slot :=
  {| slot_seq := slot_seq s; po_request := po_request s;
     po_request_digest := po_request_digest s; ack_received := ack_received s; acks := acks s;
     ack_parts := ack_parts s; slot_num_events := n;
     po_snapshot_vector := po_snapshot_vector s; po_snapshot := po_snapshot s;
     po_cert := po_cert s; signed_po_cert := signed_po_cert s |}.

Definition store_ack (rs : list bool) (as_ : list (option po_ack_mess)) (ps : list (option po_ack_part)) (s : po_slot) : po_slot :=
  {| slot_seq := slot_seq s; po_request := po_request s;
     po_request_digest := po_request_digest s; ack_received := rs; acks := as_;
     ack_parts := ps; slot_num_events := slot_num_events s;
     po_snapshot_vector := po_snapshot_vector s; po_snapshot := po_snapshot s;
     po_cert := po_cert s; signed_po_cert := signed_po_cert s |}.

Definition take_snapshot (l : list Z) (s : po_slot) : po_slot :=
  {| slot_seq := slot_seq s; po_request := po_request s;
     po_request_digest := po_request_digest s; ack_received := ack_received s; acks := acks s;
     ack_parts := ack_parts s; slot_num_events := slot_num_events s; po_snapshot_vector := l;
     po_snapshot := true; po_cert := po_cert s; signed_po_cert := signed_po_cert s |}.

Definition with_po_cert (c : po_certificate_mess) (b : bool) (s : po_slot) : po_slot :=
  {| slot_seq := slot_seq s; po_request := po_request s;
     po_request_digest := po_request_digest s; ack_received := ack_received s; acks := acks s;
     ack_parts := ack_parts s; slot_num_events := slot_num_events s;
     po_snapshot_vector := po_snapshot_vector s; po_snapshot := po_snapshot s; po_cert := Some c;
     signed_po_cert := b |}.

(** [po_request = NULL], with what was computed of it. *)
Definition drop_request (s : po_slot) : po_slot :=
  {| slot_seq := slot_seq s; po_request := None; po_request_digest := zeros DIGEST_SIZE;
     ack_received := ack_received s; acks := acks s; ack_parts := ack_parts s; slot_num_events := 0;
     po_snapshot_vector := po_snapshot_vector s; po_snapshot := po_snapshot s; po_cert := po_cert s;
     signed_po_cert := signed_po_cert s |}.

(** The part of each server is one of [PRIME_MAX_PACKET_SIZE] bytes. *)
Record recon_slot := mkReconSlot {
  decoded : bool ;
  recon_parts_collected : Z ;
  part_collected : list bool ;
  parts : list (list byte) }.

Section Data.
Context {R : Type}.

Record po_data := mkPoData {
  PO_History : gmap po_id po_slot ;
  aru : list po_seq_pair ;
  cum_aru : list po_seq_pair ;
  max_acked : list po_seq_pair ;
  cum_max_acked : list (list po_seq_pair) ;
  white_line : list po_seq_pair ;
  last_executed_po_reqs : list po_seq_pair ;
  cum_aru_updated : bool ;
  new_po_aru : bool ;
  po_aru_num : Z ;
  po_ack_start_server : Z ;
  po_ack_start_seq : po_seq_pair ;
  po_seq : po_seq_pair ;
  po_seq_executed : po_seq_pair ;
  intro_client_seq : list po_seq_pair ;
  PO_Pending : gmap po_id Z ;
  Recon_History : gmap po_id recon_slot ;
  events_ordered : Z ;
  recovery_status : list Z ;
  num_startup : Z ;
  executed_ord : Z ;
  po_request_dll : list (list byte) ;
  reading_clients : bool ;
  rest : R }.

Definition with_PO_History (x : gmap po_id po_slot) (e : po_data) : po_data :=
  {| PO_History := x; aru := aru e; cum_aru := cum_aru e; max_acked := max_acked e;
     cum_max_acked := cum_max_acked e; white_line := white_line e;
     last_executed_po_reqs := last_executed_po_reqs e; cum_aru_updated := cum_aru_updated e;
     new_po_aru := new_po_aru e; po_aru_num := po_aru_num e;
     po_ack_start_server := po_ack_start_server e; po_ack_start_seq := po_ack_start_seq e;
     po_seq := po_seq e; po_seq_executed := po_seq_executed e;
     intro_client_seq := intro_client_seq e; PO_Pending := PO_Pending e;
     Recon_History := Recon_History e; events_ordered := events_ordered e;
     recovery_status := recovery_status e; num_startup := num_startup e;
     executed_ord := executed_ord e; po_request_dll := po_request_dll e;
     reading_clients := reading_clients e; rest := rest e |}.

Definition with_aru (x : list po_seq_pair) (e : po_data) : po_data :=
  {| PO_History := PO_History e; aru := x; cum_aru := cum_aru e; max_acked := max_acked e;
     cum_max_acked := cum_max_acked e; white_line := white_line e;
     last_executed_po_reqs := last_executed_po_reqs e; cum_aru_updated := cum_aru_updated e;
     new_po_aru := new_po_aru e; po_aru_num := po_aru_num e;
     po_ack_start_server := po_ack_start_server e; po_ack_start_seq := po_ack_start_seq e;
     po_seq := po_seq e; po_seq_executed := po_seq_executed e;
     intro_client_seq := intro_client_seq e; PO_Pending := PO_Pending e;
     Recon_History := Recon_History e; events_ordered := events_ordered e;
     recovery_status := recovery_status e; num_startup := num_startup e;
     executed_ord := executed_ord e; po_request_dll := po_request_dll e;
     reading_clients := reading_clients e; rest := rest e |}.

Definition with_cum_aru (x : list po_seq_pair) (e : po_data) : po_data :=
  {| PO_History := PO_History e; aru := aru e; cum_aru := x; max_acked := max_acked e;
     cum_max_acked := cum_max_acked e; white_line := white_line e;
     last_executed_po_reqs := last_executed_po_reqs e; cum_aru_updated := cum_aru_updated e;
     new_po_aru := new_po_aru e; po_aru_num := po_aru_num e;
     po_ack_start_server := po_ack_start_server e; po_ack_start_seq := po_ack_start_seq e;
     po_seq := po_seq e; po_seq_executed := po_seq_executed e;
     intro_client_seq := intro_client_seq e; PO_Pending := PO_Pending e;
     Recon_History := Recon_History e; events_ordered := events_ordered e;
     recovery_status := recovery_status e; num_startup := num_startup e;
     executed_ord := executed_ord e; po_request_dll := po_request_dll e;
     reading_clients := reading_clients e; rest := rest e |}.

Definition with_max_acked (x : list po_seq_pair) (e : po_data) : po_data :=
  {| PO_History := PO_History e; aru := aru e; cum_aru := cum_aru e; max_acked := x;
     cum_max_acked := cum_max_acked e; white_line := white_line e;
     last_executed_po_reqs := last_executed_po_reqs e; cum_aru_updated := cum_aru_updated e;
     new_po_aru := new_po_aru e; po_aru_num := po_aru_num e;
     po_ack_start_server := po_ack_start_server e; po_ack_start_seq := po_ack_start_seq e;
     po_seq := po_seq e; po_seq_executed := po_seq_executed e;
     intro_client_seq := intro_client_seq e; PO_Pending := PO_Pending e;
     Recon_History := Recon_History e; events_ordered := events_ordered e;
     recovery_status := recovery_status e; num_startup := num_startup e;
     executed_ord := executed_ord e; po_request_dll := po_request_dll e;
     reading_clients := reading_clients e; rest := rest e |}.

Definition with_cum_max_acked (x : list (list po_seq_pair)) (e : po_data) : po_data :=
  {| PO_History := PO_History e; aru := aru e; cum_aru := cum_aru e; max_acked := max_acked e;
     cum_max_acked := x; white_line := white_line e;
     last_executed_po_reqs := last_executed_po_reqs e; cum_aru_updated := cum_aru_updated e;
     new_po_aru := new_po_aru e; po_aru_num := po_aru_num e;
     po_ack_start_server := po_ack_start_server e; po_ack_start_seq := po_ack_start_seq e;
     po_seq := po_seq e; po_seq_executed := po_seq_executed e;
     intro_client_seq := intro_client_seq e; PO_Pending := PO_Pending e;
     Recon_History := Recon_History e; events_ordered := events_ordered e;
     recovery_status := recovery_status e; num_startup := num_startup e;
     executed_ord := executed_ord e; po_request_dll := po_request_dll e;
     reading_clients := reading_clients e; rest := rest e |}.

Definition with_white_line (x : list po_seq_pair) (e : po_data) : po_data :=
  {| PO_History := PO_History e; aru := aru e; cum_aru := cum_aru e; max_acked := max_acked e;
     cum_max_acked := cum_max_acked e; white_line := x;
     last_executed_po_reqs := last_executed_po_reqs e; cum_aru_updated := cum_aru_updated e;
     new_po_aru := new_po_aru e; po_aru_num := po_aru_num e;
     po_ack_start_server := po_ack_start_server e; po_ack_start_seq := po_ack_start_seq e;
     po_seq := po_seq e; po_seq_executed := po_seq_executed e;
     intro_client_seq := intro_client_seq e; PO_Pending := PO_Pending e;
     Recon_History := Recon_History e; events_ordered := events_ordered e;
     recovery_status := recovery_status e; num_startup := num_startup e;
     executed_ord := executed_ord e; po_request_dll := po_request_dll e;
     reading_clients := reading_clients e; rest := rest e |}.

Definition with_last_executed_po_reqs (x : list po_seq_pair) (e : po_data) : po_data :=
  {| PO_History := PO_History e; aru := aru e; cum_aru := cum_aru e; max_acked := max_acked e;
     cum_max_acked := cum_max_acked e; white_line := white_line e; last_executed_po_reqs := x;
     cum_aru_updated := cum_aru_updated e; new_po_aru := new_po_aru e;
     po_aru_num := po_aru_num e; po_ack_start_server := po_ack_start_server e;
     po_ack_start_seq := po_ack_start_seq e; po_seq := po_seq e;
     po_seq_executed := po_seq_executed e; intro_client_seq := intro_client_seq e;
     PO_Pending := PO_Pending e; Recon_History := Recon_History e;
     events_ordered := events_ordered e; recovery_status := recovery_status e;
     num_startup := num_startup e; executed_ord := executed_ord e;
     po_request_dll := po_request_dll e; reading_clients := reading_clients e; rest := rest e |}.

Definition with_cum_aru_updated (x : bool) (e : po_data) : po_data :=
  {| PO_History := PO_History e; aru := aru e; cum_aru := cum_aru e; max_acked := max_acked e;
     cum_max_acked := cum_max_acked e; white_line := white_line e;
     last_executed_po_reqs := last_executed_po_reqs e; cum_aru_updated := x;
     new_po_aru := new_po_aru e; po_aru_num := po_aru_num e;
     po_ack_start_server := po_ack_start_server e; po_ack_start_seq := po_ack_start_seq e;
     po_seq := po_seq e; po_seq_executed := po_seq_executed e;
     intro_client_seq := intro_client_seq e; PO_Pending := PO_Pending e;
     Recon_History := Recon_History e; events_ordered := events_ordered e;
     recovery_status := recovery_status e; num_startup := num_startup e;
     executed_ord := executed_ord e; po_request_dll := po_request_dll e;
     reading_clients := reading_clients e; rest := rest e |}.

Definition with_new_po_aru (x : bool) (e : po_data) : po_data :=
  {| PO_History := PO_History e; aru := aru e; cum_aru := cum_aru e; max_acked := max_acked e;
     cum_max_acked := cum_max_acked e; white_line := white_line e;
     last_executed_po_reqs := last_executed_po_reqs e; cum_aru_updated := cum_aru_updated e;
     new_po_aru := x; po_aru_num := po_aru_num e; po_ack_start_server := po_ack_start_server e;
     po_ack_start_seq := po_ack_start_seq e; po_seq := po_seq e;
     po_seq_executed := po_seq_executed e; intro_client_seq := intro_client_seq e;
     PO_Pending := PO_Pending e; Recon_History := Recon_History e;
     events_ordered := events_ordered e; recovery_status := recovery_status e;
     num_startup := num_startup e; executed_ord := executed_ord e;
     po_request_dll := po_request_dll e; reading_clients := reading_clients e; rest := rest e |}.

Definition with_po_aru_num (x : Z) (e : po_data) : po_data :=
  {| PO_History := PO_History e; aru := aru e; cum_aru := cum_aru e; max_acked := max_acked e;
     cum_max_acked := cum_max_acked e; white_line := white_line e;
     last_executed_po_reqs := last_executed_po_reqs e; cum_aru_updated := cum_aru_updated e;
     new_po_aru := new_po_aru e; po_aru_num := x; po_ack_start_server := po_ack_start_server e;
     po_ack_start_seq := po_ack_start_seq e; po_seq := po_seq e;
     po_seq_executed := po_seq_executed e; intro_client_seq := intro_client_seq e;
     PO_Pending := PO_Pending e; Recon_History := Recon_History e;
     events_ordered := events_ordered e; recovery_status := recovery_status e;
     num_startup := num_startup e; executed_ord := executed_ord e;
     po_request_dll := po_request_dll e; reading_clients := reading_clients e; rest := rest e |}.

Definition with_po_ack_start_server (x : Z) (e : po_data) : po_data :=
  {| PO_History := PO_History e; aru := aru e; cum_aru := cum_aru e; max_acked := max_acked e;
     cum_max_acked := cum_max_acked e; white_line := white_line e;
     last_executed_po_reqs := last_executed_po_reqs e; cum_aru_updated := cum_aru_updated e;
     new_po_aru := new_po_aru e; po_aru_num := po_aru_num e; po_ack_start_server := x;
     po_ack_start_seq := po_ack_start_seq e; po_seq := po_seq e;
     po_seq_executed := po_seq_executed e; intro_client_seq := intro_client_seq e;
     PO_Pending := PO_Pending e; Recon_History := Recon_History e;
     events_ordered := events_ordered e; recovery_status := recovery_status e;
     num_startup := num_startup e; executed_ord := executed_ord e;
     po_request_dll := po_request_dll e; reading_clients := reading_clients e; rest := rest e |}.

Definition with_po_ack_start_seq (x : po_seq_pair) (e : po_data) : po_data :=
  {| PO_History := PO_History e; aru := aru e; cum_aru := cum_aru e; max_acked := max_acked e;
     cum_max_acked := cum_max_acked e; white_line := white_line e;
     last_executed_po_reqs := last_executed_po_reqs e; cum_aru_updated := cum_aru_updated e;
     new_po_aru := new_po_aru e; po_aru_num := po_aru_num e;
     po_ack_start_server := po_ack_start_server e; po_ack_start_seq := x; po_seq := po_seq e;
     po_seq_executed := po_seq_executed e; intro_client_seq := intro_client_seq e;
     PO_Pending := PO_Pending e; Recon_History := Recon_History e;
     events_ordered := events_ordered e; recovery_status := recovery_status e;
     num_startup := num_startup e; executed_ord := executed_ord e;
     po_request_dll := po_request_dll e; reading_clients := reading_clients e; rest := rest e |}.

Definition with_po_seq (x : po_seq_pair) (e : po_data) : po_data :=
  {| PO_History := PO_History e; aru := aru e; cum_aru := cum_aru e; max_acked := max_acked e;
     cum_max_acked := cum_max_acked e; white_line := white_line e;
     last_executed_po_reqs := last_executed_po_reqs e; cum_aru_updated := cum_aru_updated e;
     new_po_aru := new_po_aru e; po_aru_num := po_aru_num e;
     po_ack_start_server := po_ack_start_server e; po_ack_start_seq := po_ack_start_seq e;
     po_seq := x; po_seq_executed := po_seq_executed e; intro_client_seq := intro_client_seq e;
     PO_Pending := PO_Pending e; Recon_History := Recon_History e;
     events_ordered := events_ordered e; recovery_status := recovery_status e;
     num_startup := num_startup e; executed_ord := executed_ord e;
     po_request_dll := po_request_dll e; reading_clients := reading_clients e; rest := rest e |}.

Definition with_po_seq_executed (x : po_seq_pair) (e : po_data) : po_data :=
  {| PO_History := PO_History e; aru := aru e; cum_aru := cum_aru e; max_acked := max_acked e;
     cum_max_acked := cum_max_acked e; white_line := white_line e;
     last_executed_po_reqs := last_executed_po_reqs e; cum_aru_updated := cum_aru_updated e;
     new_po_aru := new_po_aru e; po_aru_num := po_aru_num e;
     po_ack_start_server := po_ack_start_server e; po_ack_start_seq := po_ack_start_seq e;
     po_seq := po_seq e; po_seq_executed := x; intro_client_seq := intro_client_seq e;
     PO_Pending := PO_Pending e; Recon_History := Recon_History e;
     events_ordered := events_ordered e; recovery_status := recovery_status e;
     num_startup := num_startup e; executed_ord := executed_ord e;
     po_request_dll := po_request_dll e; reading_clients := reading_clients e; rest := rest e |}.

Definition with_intro_client_seq (x : list po_seq_pair) (e : po_data) : po_data :=
  {| PO_History := PO_History e; aru := aru e; cum_aru := cum_aru e; max_acked := max_acked e;
     cum_max_acked := cum_max_acked e; white_line := white_line e;
     last_executed_po_reqs := last_executed_po_reqs e; cum_aru_updated := cum_aru_updated e;
     new_po_aru := new_po_aru e; po_aru_num := po_aru_num e;
     po_ack_start_server := po_ack_start_server e; po_ack_start_seq := po_ack_start_seq e;
     po_seq := po_seq e; po_seq_executed := po_seq_executed e; intro_client_seq := x;
     PO_Pending := PO_Pending e; Recon_History := Recon_History e;
     events_ordered := events_ordered e; recovery_status := recovery_status e;
     num_startup := num_startup e; executed_ord := executed_ord e;
     po_request_dll := po_request_dll e; reading_clients := reading_clients e; rest := rest e |}.

Definition with_PO_Pending (x : gmap po_id Z) (e : po_data) : po_data :=
  {| PO_History := PO_History e; aru := aru e; cum_aru := cum_aru e; max_acked := max_acked e;
     cum_max_acked := cum_max_acked e; white_line := white_line e;
     last_executed_po_reqs := last_executed_po_reqs e; cum_aru_updated := cum_aru_updated e;
     new_po_aru := new_po_aru e; po_aru_num := po_aru_num e;
     po_ack_start_server := po_ack_start_server e; po_ack_start_seq := po_ack_start_seq e;
     po_seq := po_seq e; po_seq_executed := po_seq_executed e;
     intro_client_seq := intro_client_seq e; PO_Pending := x; Recon_History := Recon_History e;
     events_ordered := events_ordered e; recovery_status := recovery_status e;
     num_startup := num_startup e; executed_ord := executed_ord e;
     po_request_dll := po_request_dll e; reading_clients := reading_clients e; rest := rest e |}.

Definition with_Recon_History (x : gmap po_id recon_slot) (e : po_data) : po_data :=
  {| PO_History := PO_History e; aru := aru e; cum_aru := cum_aru e; max_acked := max_acked e;
     cum_max_acked := cum_max_acked e; white_line := white_line e;
     last_executed_po_reqs := last_executed_po_reqs e; cum_aru_updated := cum_aru_updated e;
     new_po_aru := new_po_aru e; po_aru_num := po_aru_num e;
     po_ack_start_server := po_ack_start_server e; po_ack_start_seq := po_ack_start_seq e;
     po_seq := po_seq e; po_seq_executed := po_seq_executed e;
     intro_client_seq := intro_client_seq e; PO_Pending := PO_Pending e; Recon_History := x;
     events_ordered := events_ordered e; recovery_status := recovery_status e;
     num_startup := num_startup e; executed_ord := executed_ord e;
     po_request_dll := po_request_dll e; reading_clients := reading_clients e; rest := rest e |}.

Definition with_events_ordered (x : Z) (e : po_data) : po_data :=
  {| PO_History := PO_History e; aru := aru e; cum_aru := cum_aru e; max_acked := max_acked e;
     cum_max_acked := cum_max_acked e; white_line := white_line e;
     last_executed_po_reqs := last_executed_po_reqs e; cum_aru_updated := cum_aru_updated e;
     new_po_aru := new_po_aru e; po_aru_num := po_aru_num e;
     po_ack_start_server := po_ack_start_server e; po_ack_start_seq := po_ack_start_seq e;
     po_seq := po_seq e; po_seq_executed := po_seq_executed e;
     intro_client_seq := intro_client_seq e; PO_Pending := PO_Pending e;
     Recon_History := Recon_History e; events_ordered := x;
     recovery_status := recovery_status e; num_startup := num_startup e;
     executed_ord := executed_ord e; po_request_dll := po_request_dll e;
     reading_clients := reading_clients e; rest := rest e |}.

Definition with_recovery_status (x : list Z) (e : po_data) : po_data :=
  {| PO_History := PO_History e; aru := aru e; cum_aru := cum_aru e; max_acked := max_acked e;
     cum_max_acked := cum_max_acked e; white_line := white_line e;
     last_executed_po_reqs := last_executed_po_reqs e; cum_aru_updated := cum_aru_updated e;
     new_po_aru := new_po_aru e; po_aru_num := po_aru_num e;
     po_ack_start_server := po_ack_start_server e; po_ack_start_seq := po_ack_start_seq e;
     po_seq := po_seq e; po_seq_executed := po_seq_executed e;
     intro_client_seq := intro_client_seq e; PO_Pending := PO_Pending e;
     Recon_History := Recon_History e; events_ordered := events_ordered e;
     recovery_status := x; num_startup := num_startup e; executed_ord := executed_ord e;
     po_request_dll := po_request_dll e; reading_clients := reading_clients e; rest := rest e |}.

Definition with_num_startup (x : Z) (e : po_data) : po_data :=
  {| PO_History := PO_History e; aru := aru e; cum_aru := cum_aru e; max_acked := max_acked e;
     cum_max_acked := cum_max_acked e; white_line := white_line e;
     last_executed_po_reqs := last_executed_po_reqs e; cum_aru_updated := cum_aru_updated e;
     new_po_aru := new_po_aru e; po_aru_num := po_aru_num e;
     po_ack_start_server := po_ack_start_server e; po_ack_start_seq := po_ack_start_seq e;
     po_seq := po_seq e; po_seq_executed := po_seq_executed e;
     intro_client_seq := intro_client_seq e; PO_Pending := PO_Pending e;
     Recon_History := Recon_History e; events_ordered := events_ordered e;
     recovery_status := recovery_status e; num_startup := x; executed_ord := executed_ord e;
     po_request_dll := po_request_dll e; reading_clients := reading_clients e; rest := rest e |}.

Definition with_executed_ord (x : Z) (e : po_data) : po_data :=
  {| PO_History := PO_History e; aru := aru e; cum_aru := cum_aru e; max_acked := max_acked e;
     cum_max_acked := cum_max_acked e; white_line := white_line e;
     last_executed_po_reqs := last_executed_po_reqs e; cum_aru_updated := cum_aru_updated e;
     new_po_aru := new_po_aru e; po_aru_num := po_aru_num e;
     po_ack_start_server := po_ack_start_server e; po_ack_start_seq := po_ack_start_seq e;
     po_seq := po_seq e; po_seq_executed := po_seq_executed e;
     intro_client_seq := intro_client_seq e; PO_Pending := PO_Pending e;
     Recon_History := Recon_History e; events_ordered := events_ordered e;
     recovery_status := recovery_status e; num_startup := num_startup e; executed_ord := x;
     po_request_dll := po_request_dll e; reading_clients := reading_clients e; rest := rest e |}.

Definition with_po_request_dll (x : list (list byte)) (e : po_data) : po_data :=
  {| PO_History := PO_History e; aru := aru e; cum_aru := cum_aru e; max_acked := max_acked e;
     cum_max_acked := cum_max_acked e; white_line := white_line e;
     last_executed_po_reqs := last_executed_po_reqs e; cum_aru_updated := cum_aru_updated e;
     new_po_aru := new_po_aru e; po_aru_num := po_aru_num e;
     po_ack_start_server := po_ack_start_server e; po_ack_start_seq := po_ack_start_seq e;
     po_seq := po_seq e; po_seq_executed := po_seq_executed e;
     intro_client_seq := intro_client_seq e; PO_Pending := PO_Pending e;
     Recon_History := Recon_History e; events_ordered := events_ordered e;
     recovery_status := recovery_status e; num_startup := num_startup e;
     executed_ord := executed_ord e; po_request_dll := x; reading_clients := reading_clients e;
     rest := rest e |}.

Definition with_reading_clients (x : bool) (e : po_data) : po_data :=
  {| PO_History := PO_History e; aru := aru e; cum_aru := cum_aru e; max_acked := max_acked e;
     cum_max_acked := cum_max_acked e; white_line := white_line e;
     last_executed_po_reqs := last_executed_po_reqs e; cum_aru_updated := cum_aru_updated e;
     new_po_aru := new_po_aru e; po_aru_num := po_aru_num e;
     po_ack_start_server := po_ack_start_server e; po_ack_start_seq := po_ack_start_seq e;
     po_seq := po_seq e; po_seq_executed := po_seq_executed e;
     intro_client_seq := intro_client_seq e; PO_Pending := PO_Pending e;
     Recon_History := Recon_History e; events_ordered := events_ordered e;
     recovery_status := recovery_status e; num_startup := num_startup e;
     executed_ord := executed_ord e; po_request_dll := po_request_dll e; reading_clients := x;
     rest := rest e |}.

End Data.

(** ** Slots *)
Definition per_server_slot {A} (a : A) : list A := repeat a (Z.to_nat NUM_SERVER_SLOTS).

(** What [UTIL_Get_PO_Slot] puts in a slot that was not there. *)
Definition new_po_slot (ps : po_seq_pair) : po_slot :=
  mkPoSlot ps None (zeros DIGEST_SIZE) (per_server_slot false) (per_server_slot None)
    (per_server_slot None) 0 (per_server_slot 0) false None false.

Definition new_recon_slot : recon_slot :=
  mkReconSlot false 0 (per_server_slot false) (per_server_slot (zeros PRIME_MAX_PACKET_SIZE)).

Definition next_pair (ps : po_seq_pair) : po_seq_pair := mkPS (incarnation ps) (wrap32 (seq_num ps + 1)).
