(* ===== verification/Order.v ===== *)
(** The ordering protocol: the handlers of [prime/src/order.c] for
    Pre-Prepares, Prepares and Commits, with [ORDER_Construct_Prepare] and
    [ORDER_Construct_Commit] of [packets.c].

    What the handlers call in other components (applying a PO-ARU,
    reconciliation, suspecting the leader) is the class [OrderCalls], executing
    an ordered slot the class [Executor]; what those calls owe the ordering
    protocol is stated with its proofs. *)
From Stdlib Require Import ZArith Lia List Bool.
From Stdlib Require Import Strings.Byte.
From stdpp Require Import base list gmap.
From S2P Require Import Prelude Memory Config Packets Crypto Utility Eligibility OrderState.

(** [VAR] is a global variable of the code. *)
Class OrderCalls (E : Type) := {
  PRE_ORDER_Process_PO_ARU : server_variables -> list byte -> comp (order_state (E := E)) unit;
  RECON_Do_Recon : server_variables -> Z -> comp (order_state (E := E)) unit;
  (** construct, sign, process and broadcast a New-Leader message *)
  SUSPECT_New_Leader : server_variables -> comp (order_state (E := E)) unit }.

(** Executing an ordered slot, and those that waited for PO-Requests. *)
Class Executor (E : Type) := {
  ORDER_Execute_Commit : server_variables -> Z -> comp (order_state (E := E)) unit;
  ORDER_Attempt_To_Execute_Pending_Commits : server_variables -> comp (order_state (E := E)) unit }.

Section Handlers.
Context {crypto : Crypto} {E : Type} {calls : OrderCalls E} (VAR : server_variables).

Abbreviation M := (comp (order_state (E := E))).

(** ** Votes *)
(** The latest preinstalled incarnations, without the unused entry 0. *)
Definition vector_of (a : list Z) : list Z := take (Z.to_nat NUM_SERVERS) (drop 1 a).

Definition complete_digest (pp : complete_pre_prepare_message) : digest :=
  make_digest (complete_bytes pp).

Definition ORDER_Construct_Prepare (r : order_state (E := E)) (pp : complete_pre_prepare_message)
    : vote :=
  {| v_machine_id := My_Server_ID VAR; v_incarnation := new_incarnation_val r;
     v_seq_num := c_seq_num pp; v_view := c_view pp; v_digest := complete_digest pp;
     v_preinstalled := vector_of (preinstalled_incarnations r) |}.

Definition ORDER_Construct_Commit (r : order_state (E := E)) (pp : complete_pre_prepare_message)
    : vote :=
  {| v_machine_id := My_Server_ID VAR; v_incarnation := new_incarnation_val r;
     v_seq_num := c_seq_num pp; v_view := c_view pp; v_digest := complete_digest pp;
     v_preinstalled := vector_of (preinstalled_incarnations r) |}.

Definition ORDER_Prepare_Matches_Pre_Prepare (p : vote) (pp : complete_pre_prepare_message) : bool :=
  if negb (c_view pp =? v_view p) then false else
  if negb (c_seq_num pp =? v_seq_num p) then false else
  OPENSSL_RSA_Digests_Equal (complete_digest pp) (v_digest p).

Definition ORDER_Commit_Matches_Pre_Prepare (c : vote) (pp : complete_pre_prepare_message) : bool :=
  if negb (c_view pp =? v_view c) then false else
  if negb (c_seq_num pp =? v_seq_num c) then false else
  OPENSSL_RSA_Digests_Equal (complete_digest pp) (v_digest c).

(** [votes[sn] != NULL] and it matches. *)
Definition matches_at (matches : vote -> complete_pre_prepare_message -> bool)
    (votes : list (option vote)) (pp : complete_pre_prepare_message) (sn : Z) : bool :=
  match aget votes sn with Some (Some v) => matches v pp | _ => false end.

(** The servers whose votes are counted. *)
Definition matching (matches : vote -> complete_pre_prepare_message -> bool)
    (votes : list (option vote)) (pp : complete_pre_prepare_message) : list Z :=
  List.filter (matches_at matches votes pp) (seqZ 1 NUM_SERVERS).

Definition ORDER_Prepare_Certificate_Ready (slot : ord_slot) : bool :=
  if negb (collected_all_parts slot) then false else
  2 * NUM_F + NUM_K <=?
    Z.of_nat (length (matching ORDER_Prepare_Matches_Pre_Prepare (prepare slot)
                               (complete_pre_prepare slot))).

Definition ORDER_Commit_Certificate_Ready (slot : ord_slot) : bool :=
  if negb (collected_all_parts slot) then false else
  2 * NUM_F + NUM_K + 1 <=?
    Z.of_nat (length (matching ORDER_Commit_Matches_Pre_Prepare (commit slot)
                               (complete_pre_prepare slot))).

(** [dst[sn] = src[sn]] for the matching servers. *)
Definition move_votes (matches : vote -> complete_pre_prepare_message -> bool)
    (src : list (option vote)) (pp : complete_pre_prepare_message) (dst : list (option vote))
    : list (option vote) :=
  imap (fun sn old =>
    match src !! sn with
    | Some (Some v) => if (0 <? Z.of_nat sn) && matches v pp then Some v else old
    | _ => old
    end) dst.

Definition ORDER_Move_Prepare_Certificate (seq : Z) : M unit :=
  slot <- the_slot seq ;;
  let pp := complete_pre_prepare slot in
  upd seq (with_prepare_certificate pp
             (move_votes ORDER_Prepare_Matches_Pre_Prepare (prepare slot) pp
                         (snd (prepare_certificate slot)))) ;;;
  modify (fun r => if high_prepared r <? slot_seq_num slot
                   then set_high_prepared (slot_seq_num slot) r else r).

Definition ORDER_Move_Commit_Certificate (seq : Z) : M unit :=
  slot <- the_slot seq ;;
  r <- get ;;
  let pp := if prepare_certificate_ready slot then fst (prepare_certificate slot)
            else complete_pre_prepare slot in
  upd seq (with_commit_certificate
             (move_votes ORDER_Commit_Matches_Pre_Prepare (commit slot) pp (commit_certificate slot))
             (if snapshot slot then preinstalled_snapshot slot
              else take 1 (preinstalled_snapshot slot) ++ vector_of (preinstalled_incarnations r))) ;;;
  modify (fun r => if high_committed r <? slot_seq_num slot
                   then set_high_committed (slot_seq_num slot) r else r) ;;;
  if populated_eligible slot then ret tt else
  v <- compute_eligible VAR (c_cum_acks pp) (c_last_executed pp) ;;
  upd seq (with_eligible v).

(** ** What the three handlers start with *)
(** [false]: the message is of a later view, or of an earlier one that is no
    longer of interest. *)
Definition view_admits (view : Z) : M bool :=
  r <- get ;;
  if View r <? view then ret false else
  if view <? View r then
    if view_change_done r then ret false else
    if 0 <? ARU r then
      t <- UTIL_Get_ORD_Slot_If_Exists (ARU r) ;;
      match t with
      | Some t_slot => ret (negb (view <? slot_view t_slot))
      | None => raise AssertFailure
      end
    else ret true
  else ret true.

(** The vector a vote for the slot has to carry. *)
Definition expected_vector (r : order_state (E := E)) (slot : ord_slot) : list Z :=
  if snapshot slot then vector_of (preinstalled_snapshot slot)
  else vector_of (preinstalled_incarnations r).

(** ** Flooding *)
(** [while(1)]: every turn raises the line to a slot of the history. *)
Fixpoint raise_white_line (fuel : nat) : M unit :=
  match fuel with
  | O => raise OutOfFuel
  | S n =>
      r <- get ;;
      let seq := wrap32 (forwarding_white_line r + 1) in
      match History r !! seq with
      | Some slot =>
          if collected_all_parts slot && (num_forwarded_parts slot =? total_parts slot)
          then put (set_forwarding_white_line seq r) ;;; raise_white_line n
          else ret tt
      | None => ret tt
      end
  end.

Definition ORDER_Update_Forwarding_White_Line : M unit :=
  r <- get ;; raise_white_line (S (size (History r))).

(** The counters of parts are at most the number of flags of a slot: they do not
    wrap. *)
Definition ORDER_Flood_Pre_Prepare (mess : pre_prepare_mess) : M unit :=
  let seq := pp_seq_num mess in
  UTIL_Get_ORD_Slot seq ;;;
  r <- get ;;
  (if UTIL_I_Am_Leader VAR (View r) then ret tt else modify (act (Flood mess))) ;;;
  slot <- the_slot seq ;;
  fs <- or_oob (aset (forwarded_pre_prepare_parts slot) (pp_part_num mess) true) ;;
  let n := num_forwarded_parts slot + 1 in
  upd seq (mark_forwarded fs n) ;;;
  if n =? total_parts slot then ORDER_Update_Forwarding_White_Line else ret tt.

(** ** Prepares *)
Definition incarnation_of_row (cum_acks : list byte) (i : Z) : M Z :=
  load cum_acks 4 ((i - 1) * sz_po_aru_signed_message + o_po_aru_signed_message_header
                   + o_signed_message_incarnation).

Definition row (cum_acks : list byte) (i : Z) : M (list byte) :=
  load_bytes cum_acks ((i - 1) * sz_po_aru_signed_message) sz_po_aru_signed_message.

(** [false]: a PO-ARU of the matrix is of an incarnation that is not installed. *)
Fixpoint apply_installed (cum_acks : list byte) (rows : list Z) : M bool :=
  match rows with
  | [] => ret true
  | i :: rows =>
      r <- get ;;
      mine <- or_oob (aget (installed_incarnations r) i) ;;
      inc <- incarnation_of_row cum_acks i ;;
      if mine <? inc then ret false else
      m <- row cum_acks i ;;
      PRE_ORDER_Process_PO_ARU VAR m ;;;
      apply_installed cum_acks rows
  end.

(** [last_executed] of the Pre-Prepare continues from the previous slot. *)
Definition continues (r : order_state (E := E)) (pp : complete_pre_prepare_message) : M bool :=
  match History r !! ppARU r with
  | None =>
      assert_ (ppARU r =? 0) ;;;
      ret (forallb (fun p => PRE_ORDER_Seq_Compare p (mkPS 0 0) =? 0) (c_last_executed pp))
  | Some prev => ret (bool_decide (made_eligible prev = c_last_executed pp))
  end.

(** [max_num_sent_in_proof[i]] is raised to [made_eligible[i-1]]. *)
Definition raise_sent (r : order_state (E := E)) (eligible : list po_seq_pair) : order_state :=
  set_max_num_sent
    (imap (fun i old =>
       match i with
       | O => old
       | S i' => match eligible !! i' with Some ps => raise_to ps old | None => old end
       end) (max_num_sent_in_proof r)) r.

(** One turn of the loop of [ORDER_Send_Prepares] on the slot [ppARU + 1];
    [false] is its [return]. *)
Definition send_prepare (seq : Z) : M bool :=
  slot <- the_slot seq ;;
  r <- get ;;
  if negb (slot_type slot =? SLOT_COMMIT) || negb (view_change_done r) then
    modify (set_ppARU seq) ;;; ret true
  else
    let pp := complete_pre_prepare slot in
    installed <- apply_installed (c_cum_acks pp) (seqZ 1 NUM_SERVERS) ;;
    if negb installed then ret false else
    slot <- the_slot seq ;;
    let pp := complete_pre_prepare slot in
    r <- get ;;
    ok <- continues r pp ;;
    if negb ok then ret false else
    (if populated_eligible slot then ret tt else
       v <- compute_eligible VAR (c_cum_acks pp) (c_last_executed pp) ;;
       upd seq (with_eligible v)) ;;;
    slot <- the_slot seq ;;
    modify (fun r => raise_sent r (made_eligible slot)) ;;;
    r <- get ;;
    (if UTIL_I_Am_Leader VAR (View r) then ret tt
     else put (act (Send_Prepare (ORDER_Construct_Prepare r (complete_pre_prepare slot))) r)) ;;;
    upd seq mark_sent_prepare ;;;
    modify (set_ppARU seq) ;;;
    RECON_Do_Recon VAR seq ;;;
    ret true.

Fixpoint send_prepares (fuel : nat) : M bool :=
  match fuel with
  | O => raise OutOfFuel
  | S n =>
      r <- get ;;
      let seq := wrap32 (ppARU r + 1) in
      match History r !! seq with
      | Some slot =>
          if collected_all_parts slot then
            go_on <- send_prepare seq ;;
            if go_on : bool then send_prepares n else ret false
          else ret true
      | None => ret true
      end
  end.

(** Row [i] of the Pre-Prepare's matrix is not older than what the challenge
    recorded (or the two are incomparable). *)
Definition row_covers (cum_acks proof_matrix : list byte) (i : Z) : M bool :=
  mine <- map_comp (fun j => ack_for cum_acks (i + 1) (j + 1)) (seqZ 0 NUM_SERVERS) ;;
  theirs <- map_comp (fun j => ack_for proof_matrix (i + 2) (j + 1)) (seqZ 0 NUM_SERVERS) ;;
  let cs := zip_with PRE_ORDER_Seq_Compare mine theirs in
  let lower := existsb (fun c => c <? 0) cs in
  let higher := existsb (fun c => 0 <? c) cs in
  ret (negb (lower && negb higher)).

Fixpoint matrix_covers (cum_acks proof_matrix : list byte) (rows : list Z) : M bool :=
  match rows with
  | [] => ret true
  | i :: rows =>
      c <- row_covers cum_acks proof_matrix i ;;
      if c : bool then matrix_covers cum_acks proof_matrix rows else ret false
  end.

(** Challenges are answered from the front until one is not covered. *)
Fixpoint cover_challenges (cum_acks : list byte) (challenges : list (list byte)) : M unit :=
  match challenges with
  | [] => modify (set_turnaround_times [])
  | t :: rest =>
      c <- matrix_covers cum_acks t (seqZ 0 NUM_SERVERS) ;;
      if c : bool then modify (act (TAT_Stopped t)) ;;; cover_challenges cum_acks rest
      else modify (set_turnaround_times challenges)
  end.

Definition ORDER_Send_Prepares : M unit :=
  r <- get ;;
  go_on <- send_prepares (S (size (History r))) ;;
  if negb go_on then ret tt else
  r <- get ;;
  slot <- UTIL_Get_ORD_Slot_If_Exists (ppARU r) ;;
  match slot with
  | None => raise AssertFailure
  | Some slot =>
      if negb (slot_type slot =? SLOT_COMMIT) || negb (view_change_done r) then ret tt else
      cover_challenges (c_cum_acks (complete_pre_prepare slot)) (turnaround_times r)
  end.

(** ** The leader's Pre-Prepares *)
(** How many PO-ARUs fit in a message. *)
Definition num_acks_per_message : Z :=
  (PRIME_MAX_PACKET_SIZE - sz_signed_message - sz_pre_prepare_message
   - MAX_MERKLE_DIGESTS * DIGEST_SIZE) / sz_po_aru_signed_message.

(** [max_num_sent_in_proof] follows what the matrix makes eligible. *)
Fixpoint proof_updated (servers : list Z) (ret_ : bool) : M bool :=
  match servers with
  | [] => ret ret_
  | s :: servers =>
      r <- get ;;
      ps <- PRE_ORDER_Proof_ARU VAR s (drop (Z.to_nat sz_po_aru_signed_message) (cum_acks r)) ;;
      old <- or_oob (aget (max_num_sent_in_proof r) s) ;;
      if 0 <? PRE_ORDER_Seq_Compare ps old then
        l <- or_oob (aset (max_num_sent_in_proof r) s ps) ;;
        put (set_max_num_sent l r) ;;;
        proof_updated servers true
      else proof_updated servers ret_
  end.

Definition PRE_ORDER_Latest_Proof_Updated : M bool := proof_updated (seqZ 1 NUM_SERVERS) false.

(** The loop over the parts runs once: a message with room for fewer than
    [NUM_SERVERS] PO-ARUs stops the program before it, and one with room for all
    leaves none for a second part.  The header is signed when the message is
    sent, the attack switches of the command line are off. *)
Definition ORDER_Construct_Pre_Prepare : M pre_prepare_mess :=
  if num_acks_per_message <? NUM_SERVERS then raise Exit else
  r <- get ;;
  oslot <- UTIL_Get_ORD_Slot_If_Exists (wrap32 (next_seq r - 1)) ;;
  last <- (if next_seq r =? 1 then ret zero_pairs else
           match oslot with
           | None => raise Exit
           | Some oslot => ret (made_eligible oslot)
           end) ;;
  acks <- load_bytes (cum_acks r) sz_po_aru_signed_message (sz_po_aru_signed_message * NUM_SERVERS) ;;
  put (set_next_seq (wrap32 (next_seq r + 1)) r) ;;;
  ret {| pp_machine_id := My_Server_ID VAR; pp_signed := []; pp_seq_num := next_seq r;
         pp_view := View r; pp_proposal_digest := proposal_digest r; pp_last_executed := last;
         pp_part_num := 1; pp_total_parts := 1; pp_num_acks := NUM_SERVERS; pp_cum_acks := acks |}.

Definition ORDER_Send_One_Pre_Prepare : M bool :=
  r <- get ;;
  if negb (should_send_pp r) then ret false else
  m <- ORDER_Construct_Pre_Prepare ;;
  PRE_ORDER_Latest_Proof_Updated ;;;
  modify (set_should_send_pp false) ;;;
  modify (act (Send_Pre_Prepare m)) ;;;
  slot <- UTIL_Get_ORD_Slot (pp_seq_num m) ;;
  if populated_eligible slot then ret true else
  v <- compute_eligible VAR (pp_cum_acks m) (pp_last_executed m) ;;
  upd (pp_seq_num m) (populate_own (pp_view m) v) ;;;
  ret true.

(** The timer queued at the end is not part of the state. *)
Definition ORDER_Periodically : M unit :=
  r <- get ;;
  if negb (UTIL_I_Am_Leader VAR (View r)) then ret tt else
  ORDER_Send_One_Pre_Prepare ;;;
  ret tt.

(** A Commit for the slot whose prepare certificate is complete. *)
Definition prepare_certificate_complete (seq : Z) : M unit :=
  ORDER_Move_Prepare_Certificate seq ;;;
  r <- get ;;
  if view_change_done r then
    slot <- the_slot seq ;;
    put (act (Send_Commit (ORDER_Construct_Commit r (fst (prepare_certificate slot)))) r) ;;;
    upd seq mark_sent_commit
  else ret tt.

(** ** [ORDER_Process_Pre_Prepare] *)
(** [memcpy(cum_acks + index, pp_specific + 1, size * num_acks)]: [num_acks]
    comes with the message. *)
Definition copy_acks (mess : pre_prepare_mess) (cum_acks : list byte) : M (list byte) :=
  let index := wrap32 ((pp_part_num mess - 1) * num_acks_per_message) in
  src <- load_bytes (pp_cum_acks mess) 0 (sz_po_aru_signed_message * pp_num_acks mess) ;;
  let p := index * sz_po_aru_signed_message in
  if p + Z.of_nat (length src) <=? Z.of_nat (length cum_acks)
  then ret (take (Z.to_nat p) cum_acks ++ src ++ drop (Z.to_nat p + length src) cum_acks)
  else raise OutOfBounds.

(** The part is the first of its slot, or agrees with what is there. *)
Definition admit_part (mess : pre_prepare_mess) (seq : Z) : M bool :=
  slot <- the_slot seq ;;
  r <- get ;;
  if num_parts_collected slot =? 0 then
    upd seq (start_pre_prepare (pp_view mess) (pp_total_parts mess)
               (mkComplete (slot_seq_num slot) (pp_view mess) (pp_proposal_digest mess)
                           (pp_last_executed mess)
                           (c_cum_acks (complete_pre_prepare slot)))) ;;;
    ret true
  else if negb (slot_view slot =? pp_view mess) then ret false
  else if slot_view slot =? View r then
    first <- or_oob (aget (pre_prepare_parts_msg slot) 1) ;;
    first <- or_oob first ;;
    if bool_decide (first = mess) then ret true else
    (if leader_suspected r then ret tt else modify suspect ;;; SUSPECT_New_Leader VAR) ;;;
    ret false
  else ret true.

Fixpoint apply_rows (cum_acks : list byte) (rows : list Z) : M unit :=
  match rows with
  | [] => ret tt
  | i :: rows => m <- row cum_acks i ;; PRE_ORDER_Process_PO_ARU VAR m ;;; apply_rows cum_acks rows
  end.

(** Once the last part is there. *)
Definition pre_prepare_complete (seq : Z) : M unit :=
  upd seq mark_collected ;;;
  slot <- the_slot seq ;;
  (if negb (prepare_certificate_ready slot) && negb (ordered slot)
      && ORDER_Prepare_Certificate_Ready slot
   then prepare_certificate_complete seq else ret tt) ;;;
  slot <- the_slot seq ;;
  let pp := complete_pre_prepare slot in
  apply_rows (c_cum_acks pp) (seqZ 1 NUM_SERVERS) ;;;
  r <- get ;;
  if negb (c_seq_num pp =? wrap32 (ppARU r + 1)) then ret tt else ORDER_Send_Prepares.

Definition ORDER_Process_Pre_Prepare (mess : pre_prepare_mess) : M unit :=
  let seq := pp_seq_num mess in
  let part_num := pp_part_num mess in
  r <- get ;;
  if negb (OPENSSL_RSA_Digests_Equal (pp_proposal_digest mess) (proposal_digest r)) then ret tt else
  if (seq <=? forwarding_white_line r) && (wrap32 (seq + 1) <=? recon_white_line r)
     && (wrap32 (seq + 1) <=? ARU r) then ret tt else
  ok <- view_admits (pp_view mess) ;;
  if negb ok then ret tt else
  if negb (pp_machine_id mess =? UTIL_Leader_Of_View (pp_view mess)) then ret tt else
  UTIL_Get_ORD_Slot seq ;;;
  admitted <- admit_part mess seq ;;
  if negb admitted then ret tt else
  slot <- the_slot seq ;;
  if collected_all_parts slot then ret tt else
  have <- or_oob (aget (pre_prepare_parts slot) part_num) ;;
  if have : bool then ret tt else
  parts <- or_oob (aset (pre_prepare_parts slot) part_num true) ;;
  msgs <- or_oob (aset (pre_prepare_parts_msg slot) part_num (Some mess)) ;;
  let pp := complete_pre_prepare slot in
  acks <- copy_acks mess (c_cum_acks pp) ;;
  upd seq (store_part parts msgs
             (mkComplete (c_seq_num pp) (c_view pp) (c_proposal_digest pp)
                         (c_last_executed pp) acks)
             (num_parts_collected slot + 1)) ;;;
  forwarded <- or_oob (aget (forwarded_pre_prepare_parts slot) part_num) ;;
  assert_ (negb forwarded) ;;;
  ORDER_Flood_Pre_Prepare mess ;;;
  slot <- the_slot seq ;;
  if num_parts_collected slot <? total_parts slot then ret tt else
  pre_prepare_complete seq.

(** ** [ORDER_Process_Prepare] *)
Definition ORDER_Process_Prepare (mess : vote) : M unit :=
  let seq := v_seq_num mess in
  let from := v_machine_id mess in
  r <- get ;;
  if seq <=? ARU r then ret tt else
  ok <- view_admits (v_view mess) ;;
  if negb ok then ret tt else
  if from =? UTIL_Leader_Of_View (v_view mess) then ret tt else
  slot <- UTIL_Get_ORD_Slot seq ;;
  assert_ (slot_seq_num slot =? seq) ;;;
  old <- or_oob (aget (prepare slot) from) ;;
  if bool_decide (is_Some old) then ret tt else
  if negb (bool_decide (v_preinstalled mess = expected_vector r slot)) then ret tt else
  l <- or_oob (aset (prepare slot) from (Some mess)) ;;
  upd seq (with_prepare l) ;;;
  slot <- the_slot seq ;;
  if ordered slot || prepare_certificate_ready slot then ret tt else
  if ORDER_Prepare_Certificate_Ready slot then
    assert_ (collected_all_parts slot) ;;;
    prepare_certificate_complete seq
  else ret tt.

(** ** [ORDER_Process_Commit] *)
(** [true]: the commit certificate is complete and was not before. *)
Definition collect_commit (mess : vote) : M bool :=
  let seq := v_seq_num mess in
  let from := v_machine_id mess in
  r <- get ;;
  if seq <=? ARU r then ret false else
  ok <- view_admits (v_view mess) ;;
  if negb ok then ret false else
  slot <- UTIL_Get_ORD_Slot seq ;;
  old <- or_oob (aget (commit slot) from) ;;
  if bool_decide (is_Some old) then ret false else
  if negb (bool_decide (v_preinstalled mess = expected_vector r slot)) then ret false else
  l <- or_oob (aset (commit slot) from (Some mess)) ;;
  upd seq (with_commit l) ;;;
  slot <- the_slot seq ;;
  if ordered slot then ret false else
  if ORDER_Commit_Certificate_Ready slot then
    ORDER_Move_Commit_Certificate seq ;;;
    ret true
  else ret false.

Definition ORDER_Process_Commit {exec : Executor E} (mess : vote) : M unit :=
  ready <- collect_commit mess ;;
  if ready : bool then ORDER_Execute_Commit VAR (v_seq_num mess) else ret tt.

(** ** Retransmission, adjustment, initialization *)
Inductive resent := Resend_Pre_Prepare (m : pre_prepare_mess) | Resend_Vote (v : vote).

Definition own_vote (l : list (option vote)) : M (list resent) :=
  v <- or_oob (aget l (My_Server_ID VAR)) ;;
  ret match v with Some v => [Resend_Vote v] | None => [] end.

Definition retrans_slot (leader : bool) (slot : ord_slot) : M (list resent) :=
  l1 <- (if leader then
           m <- or_oob (aget (pre_prepare_parts_msg slot) 1) ;;
           ret match m with Some m => [Resend_Pre_Prepare m] | None => [] end
         else own_vote (prepare slot)) ;;
  l2 <- own_vote (commit slot) ;;
  ret (l1 ++ l2).

(** What [ORDER_Periodic_Retrans] broadcasts; the timer is not modelled. *)
Definition ORDER_Periodic_Retrans : M (list resent) :=
  r <- get ;;
  ls <- map_comp (fun i =>
          s <- UTIL_Get_ORD_Slot_If_Exists i ;;
          match s with
          | Some slot => retrans_slot (UTIL_I_Am_Leader VAR (View r)) slot
          | None => raise AssertFailure
          end) (seqZ (ARU r + 1) (ppARU r - ARU r)) ;;
  ret (concat ls).

Definition ORDER_Adjust_High_Committed (r : order_state (E := E)) : order_state :=
  if high_committed r <? ARU r then set_high_committed (ARU r) r else r.

(** [for (seq = low + n; seq > low; seq--) if (found) break;] *)
Fixpoint search_down (found : ord_slot -> bool) (h : gmap Z ord_slot) (low : Z) (n : nat) : Z :=
  match n with
  | O => low
  | S n' =>
      match h !! (low + Z.of_nat n) with
      | Some slot => if found slot then low + Z.of_nat n else search_down found h low n'
      | None => search_down found h low n'
      end
  end.

Definition ORDER_Adjust_High_Prepared (r : order_state (E := E)) : order_state :=
  if high_prepared r <=? ARU r then set_high_prepared (ARU r) r
  else set_high_prepared (search_down prepare_certificate_ready (History r) (ARU r)
                            (Z.to_nat (high_prepared r - ARU r))) r.

Definition ORDER_Adjust_ppARU (r : order_state (E := E)) : order_state :=
  if ppARU r <=? ARU r then set_ppARU (ARU r) r
  else set_ppARU (search_down sent_prepare (History r) (ARU r) (Z.to_nat (ppARU r - ARU r))) r.

(** What it sets of the modelled state; the hash tables are constructed empty. *)
Definition ORDER_Initialize_Data_Structure (r : order_state (E := E)) : order_state :=
  {| View := View r; view_change_done := view_change_done r; ARU := 0; ppARU := 0;
     high_prepared := 0; high_committed := 0; forwarding_white_line := 0;
     recon_white_line := 0; stable_catchup := 0; next_seq := 1; should_send_pp := false; History := ∅;
     Pending_Execution := ∅;
     proposal_digest := proposal_digest r;
     new_incarnation_val := new_incarnation_val r;
     preinstalled_incarnations := preinstalled_incarnations r;
     installed_incarnations := installed_incarnations r;
     cum_acks := cum_acks r; max_num_sent_in_proof := max_num_sent_in_proof r;
     leader_suspected := leader_suspected r; turnaround_times := turnaround_times r;
     actions := actions r; others := others r |}.
End Handlers.
