(* ===== verification/OrderCorrect.v ===== *)
(** The ordering handlers keep the state of a replica well formed.

    First what the other components owe the ordering protocol while a view
    lasts ([OrderCallsOk]); then an invariant of one replica's state, relative
    to the evidence its received messages give, which every handler keeps without
    leaving an array, running out of fuel or failing an assertion of its own. *)
From Stdlib Require Import ZArith Lia List Bool.
From Stdlib Require Import Strings.Byte.
From stdpp Require Import base list gmap fin_sets.
From S2P Require Import Prelude Memory Config Packets Crypto Utility Eligibility EligibilityCorrect OrderState Order.

(** ** What other components may do *)
(** What the ordering protocol reads of a slot. *)
Definition same_ballot (s s' : ord_slot) : Prop :=
  slot_seq_num s' = slot_seq_num s /\ slot_type s' = slot_type s /\
  pre_prepare_parts s' = pre_prepare_parts s /\
  pre_prepare_parts_msg s' = pre_prepare_parts_msg s /\
  num_parts_collected s' = num_parts_collected s /\
  collected_all_parts s' = collected_all_parts s /\
  complete_pre_prepare s' = complete_pre_prepare s /\
  forwarded_pre_prepare_parts s' = forwarded_pre_prepare_parts s /\
  prepare s' = prepare s /\ commit s' = commit s /\ ordered s' = ordered s /\
  prepare_certificate_ready s' = prepare_certificate_ready s /\
  prepare_certificate s' = prepare_certificate s /\
  made_eligible s' = made_eligible s /\ populated_eligible s' = populated_eligible s /\
  executed s' = executed s /\ po_slot_list s' = po_slot_list s.

(** What is settled about a slot stays. *)
Definition stays (s s' : ord_slot) : Prop :=
  collected_all_parts s = true ->
  collected_all_parts s' = true /\ complete_pre_prepare s' = complete_pre_prepare s /\
  (prepare_certificate_ready s = true -> prepare_certificate_ready s' = true) /\
  (populated_eligible s = true -> populated_eligible s' = true) /\
  (ordered s = true -> ordered s' = true).

(** Nothing of the ordering protocol. *)
Definition silent (a : action) : Prop :=
  match a with Send_Prepare _ | Send_Commit _ | Send_Pre_Prepare _ => False | _ => True end.

Section Calls.
Context {E : Type}.
Implicit Types r : order_state (E := E).

(** The slot was garbage collected: no handler asks for it again. *)
Definition gone r (seq : Z) : Prop :=
  History r !! seq = None /\ 0 < seq < ARU r /\ ARU r < two32 /\
  seq <= forwarding_white_line r /\ seq + 1 <= recon_white_line r.

(** The arrays of constant length. *)
Definition arrays_ok r : Prop :=
  Z.of_nat (length (installed_incarnations r)) = NUM_SERVER_SLOTS /\
  Z.of_nat (length (cum_acks r)) = NUM_SERVER_SLOTS * sz_po_aru_signed_message /\
  Z.of_nat (length (max_num_sent_in_proof r)) = NUM_SERVER_SLOTS /\
  Forall (fun t => NUM_SERVER_SLOTS * sz_po_aru_signed_message <= Z.of_nat (length t)) (turnaround_times r).

Definition same_view r r' : Prop :=
  View r' = View r /\ view_change_done r' = view_change_done r.

Definition follows r r' : Prop :=
  same_view r r' /\ exists l, actions r' = actions r ++ l.

(** What waits for its execution is ordered. *)
Definition pending_ok r : Prop :=
  forall n, n ∈ Pending_Execution r -> exists s, History r !! n = Some s /\ ordered s = true.

(** A call that touches no slot's ballot; with [erase], it may collect slots and
    move on. *)
Record keeps (erase : Prop) r r' : Prop := {
  k_view : same_view r r';
  k_digest : proposal_digest r' = proposal_digest r;
  k_arrays : arrays_ok r -> arrays_ok r';
  k_actions : exists l, actions r' = actions r ++ l /\ Forall silent l;
  k_ARU : ARU r <= ARU r' /\ (ARU r < two32 -> ARU r' < two32);
  k_still : erase \/ ARU r' = ARU r;
  k_forwarding : forwarding_white_line r <= forwarding_white_line r' /\
    (is_u32 (forwarding_white_line r) -> is_u32 (forwarding_white_line r'));
  k_stable : 0 <= stable_catchup r <= ARU r -> 0 <= stable_catchup r' <= ARU r';
  k_pending : pending_ok r -> pending_ok r';
  k_ppARU : ppARU r' = ppARU r;
  k_next : next_seq r' = next_seq r;
  k_recon : recon_white_line r <= recon_white_line r' /\
    (is_u32 (recon_white_line r) -> is_u32 (recon_white_line r'));
  k_slot : forall seq s, History r !! seq = Some s ->
    (exists s', History r' !! seq = Some s' /\ same_ballot s s') \/ (erase /\ gone r' seq);
  k_none : forall seq, History r !! seq = None -> History r' !! seq = None }.

(** The interface.  [F] are the faults with which other components may stop.
    A New-Leader message may complete a quorum and end the view; nothing is
    asked of the state then. *)
Class OrderCallsOk (F : fault -> Prop) (calls : OrderCalls E) := {
  PO_ARU_keeps VAR m r : 1 <= 2 * VF VAR + VK VAR + 1 <= NUM_SERVERS ->
    wp F (PRE_ORDER_Process_PO_ARU VAR m) (fun _ => keeps False r) r;
  Recon_keeps VAR seq r : is_Some (History r !! seq) ->
    (forall n s, History r !! n = Some s -> 0 < n < two32) -> is_u32 (recon_white_line r) ->
    wp F (RECON_Do_Recon VAR seq) (fun _ => keeps False r) r;
  New_Leader_keeps VAR r :
    wp F (SUSPECT_New_Leader VAR) (fun _ r' => same_view r r' -> keeps False r r') r }.

Lemma follows_refl r : follows r r.
Proof. split; [split; reflexivity|]. exists []. rewrite app_nil_r. reflexivity. Qed.

Lemma follows_trans r1 r2 r3 : follows r1 r2 -> follows r2 r3 -> follows r1 r3.
Proof.
  intros [[V1 D1] [l1 E1]] [[V2 D2] [l2 E2]]. split; [split; congruence|].
  exists (l1 ++ l2). rewrite E2, E1, app_assoc. reflexivity.
Qed.

Lemma keeps_follows erase r r' : keeps erase r r' -> follows r r'.
Proof. intros K. split; [apply K|]. destruct (k_actions _ _ _ K) as (l & El & _). eauto. Qed.

(** ** How a state develops *)
(** Slots are not lost, except to garbage collection, and what is settled stays. *)
Record evolves r r' : Prop := {
  e_follows : follows r r';
  e_slots : forall seq s, History r !! seq = Some s ->
    (exists s', History r' !! seq = Some s' /\ stays s s') \/ gone r' seq;
  e_gone : forall seq, gone r seq -> gone r' seq }.

Lemma gone_keeps erase r r' seq : keeps erase r r' -> gone r seq -> gone r' seq.
Proof.
  intros K (H1 & H2 & H3 & H4 & H5). split; [apply K; exact H1|].
  pose proof (k_ARU _ _ _ K). pose proof (k_forwarding _ _ _ K). pose proof (k_recon _ _ _ K). lia.
Qed.

Lemma same_ballot_stays s s' : same_ballot s s' -> stays s s'.
Proof.
  intros (_ & _ & _ & _ & _ & E1 & E2 & _ & _ & _ & E5 & E3 & _ & _ & E4 & _) H.
  rewrite E1, E2, E3, E4, E5. repeat split; auto.
Qed.

Lemma keeps_evolves erase r r' : keeps erase r r' -> evolves r r'.
Proof.
  intros K. split.
  - eapply keeps_follows; exact K.
  - intros seq s Es. destruct (k_slot _ _ _ K seq s Es) as [(s' & Es' & Hb)|[_ Hg]]; [left|right; exact Hg].
    exists s'. split; [exact Es'|apply same_ballot_stays, Hb].
  - intros seq. eapply gone_keeps; exact K.
Qed.

(** The history keeps its ordered slots. *)
Lemma pending_evolves r r' :
  pending_ok r -> Pending_Execution r' = Pending_Execution r ->
  (forall seq s, History r !! seq = Some s -> ordered s = true ->
     exists s', History r' !! seq = Some s' /\ ordered s' = true) -> pending_ok r'.
Proof.
  intros Hp EP HO n Hn. rewrite EP in Hn. destruct (Hp n Hn) as (s & Es & Ho). exact (HO n s Es Ho).
Qed.

Lemma stays_refl s : stays s s.
Proof. intros H. repeat split; auto. Qed.

(** The same history, lines that do not fall. *)
Lemma evolves_history r r' :
  follows r r' -> History r' = History r -> ARU r' = ARU r ->
  recon_white_line r' = recon_white_line r ->
  forwarding_white_line r <= forwarding_white_line r' -> evolves r r'.
Proof.
  intros Hf EH EA Er Hw. split; [exact Hf| |].
  - intros seq s Es. left. exists s. rewrite EH. split; [exact Es|apply stays_refl].
  - intros seq (G1 & G2 & G3 & G4 & G5). unfold gone. rewrite EH, EA, Er. repeat split; auto; lia.
Qed.
End Calls.

Definition pair_ok (p : po_seq_pair) : Prop := is_u32 (incarnation p) /\ is_u32 (seq_num p).

Record complete_ok (c : complete_pre_prepare_message) : Prop := {
  co_seq : is_u32 (c_seq_num c);
  co_view : is_u32 (c_view c);
  co_digest : Z.of_nat (length (c_proposal_digest c)) = DIGEST_SIZE;
  co_last : Z.of_nat (length (c_last_executed c)) = NUM_SERVERS;
  co_pairs : Forall pair_ok (c_last_executed c);
  co_matrix : Z.of_nat (length (c_cum_acks c)) = matrix_bytes }.

(** A Pre-Prepare the validator lets through; [pk_part]: the parameters leave
    room for one part only. *)
Record pre_prepare_ok (m : pre_prepare_mess) : Prop := {
  pk_seq : 0 < pp_seq_num m < two32;
  pk_view : is_u32 (pp_view m);
  pk_digest : Z.of_nat (length (pp_proposal_digest m)) = DIGEST_SIZE;
  pk_last : Z.of_nat (length (pp_last_executed m)) = NUM_SERVERS;
  pk_pairs : Forall pair_ok (pp_last_executed m);
  pk_part : pp_part_num m = 1;
  pk_acks : 0 <= pp_num_acks m;
  pk_bytes : sz_po_aru_signed_message * pp_num_acks m <= Z.of_nat (length (pp_cum_acks m)) }.

(** The message as its sender built it, and the complete Pre-Prepare a slot
    makes of it. *)
Definition unsigned (m : pre_prepare_mess) : pre_prepare_mess :=
  {| pp_machine_id := pp_machine_id m; pp_signed := []; pp_seq_num := pp_seq_num m;
     pp_view := pp_view m; pp_proposal_digest := pp_proposal_digest m;
     pp_last_executed := pp_last_executed m; pp_part_num := pp_part_num m;
     pp_total_parts := pp_total_parts m; pp_num_acks := pp_num_acks m;
     pp_cum_acks := pp_cum_acks m |}.

Definition matrix_of (m : pre_prepare_mess) : list byte :=
  let n := Z.to_nat (sz_po_aru_signed_message * pp_num_acks m) in
  take n (pp_cum_acks m) ++ drop n (zeros matrix_bytes).

Definition complete_of (m : pre_prepare_mess) : complete_pre_prepare_message :=
  mkComplete (pp_seq_num m) (pp_view m) (pp_proposal_digest m) (pp_last_executed m) (matrix_of m).

Lemma complete_of_unsigned m m' : unsigned m = unsigned m' -> complete_of m = complete_of m'.
Proof. unfold unsigned. intros [=]. unfold complete_of, matrix_of. congruence. Qed.

Lemma unsigned_seq m m' : unsigned m = unsigned m' -> pp_seq_num m = pp_seq_num m'.
Proof. unfold unsigned. intros [=]. congruence. Qed.

Definition PREPARES : Z := 2 * NUM_F + NUM_K.
Definition COMMITS : Z := 2 * NUM_F + NUM_K + 1.

(** ** The invariant *)
Section Local.
Context {crypto : Crypto} {E : Type} (VAR : server_variables).
Context (EvPP : pre_prepare_mess -> Prop) (EvP EvC : vote -> Prop).
Implicit Types r : order_state (E := E).

Notation prepares_for s := (matching ORDER_Prepare_Matches_Pre_Prepare (prepare s) (complete_pre_prepare s)).
Notation commits_for s := (matching ORDER_Commit_Matches_Pre_Prepare (commit s) (complete_pre_prepare s)).

(** The vector a Pre-Prepare makes eligible. *)
Definition eligible_for (c : complete_pre_prepare_message) : option (list po_seq_pair) :=
  eligible_vector VAR (c_cum_acks c) (c_last_executed c).

(** An array of votes: entry [j] is a vote of server [j] for the slot. *)
Definition votes_ok (Ev : vote -> Prop) (seq : Z) (l : list (option vote)) : Prop :=
  Z.of_nat (length l) = NUM_SERVER_SLOTS /\
  forall j v, aget l j = Some (Some v) ->
    v_machine_id v = j /\ v_seq_num v = seq /\ Z.of_nat (length (v_digest v)) = DIGEST_SIZE /\ Ev v.

(** The slot's Pre-Prepare is the one its leader sent. *)
Definition from_leader (seq : Z) (s : ord_slot) : Prop :=
  exists m, aget (pre_prepare_parts_msg s) 1 = Some (Some m) /\ EvPP m /\
    pp_machine_id m = UTIL_Leader_Of_View (pp_view m) /\ pp_seq_num m = seq /\
    complete_pre_prepare s = complete_of m.

(** Prepares count when they are not the leader's. *)
Definition counts (v : vote) : Prop :=
  EvP v /\ v_machine_id v <> UTIL_Leader_Of_View (v_view v).

(** The vector before the slot; there is none before the first. *)
Definition starts_from (seq : Z) (s : ord_slot) : list po_seq_pair :=
  if seq =? 1 then zero_pairs else c_last_executed (complete_pre_prepare s).

(** The PO-Requests of a slot are executed in order, once it is ordered. *)
Definition list_ok (seq : Z) (s : ord_slot) : Prop :=
  po_slot_list s = [] \/
  executed s = true /\ ordered s = true /\ populated_eligible s = true /\
  po_slot_list s `prefix_of` requests_of (starts_from seq s) (made_eligible s).

Lemma list_ok_executed seq s : list_ok seq s -> list_ok seq (mark_executed s).
Proof. intros [H|(_ & H)]; [left; exact H|right; split; [reflexivity|exact H]]. Qed.

(** [Own]: the Pre-Prepares this replica has sent; [cur]: its view, once the view
    change is done; [aru]: its [ARU]. *)
Record slot_ok (Own : pre_prepare_mess -> Prop) (cur : option Z) (aru seq : Z) (s : ord_slot) : Prop := {
  so_seq : slot_seq_num s = seq;
  so_type : slot_type s = SLOT_COMMIT;
  so_parts : Z.of_nat (length (pre_prepare_parts s)) = MAX_PRE_PREPARE_PARTS + 1;
  so_msgs : Z.of_nat (length (pre_prepare_parts_msg s)) = MAX_PRE_PREPARE_PARTS + 1;
  so_fwds : Z.of_nat (length (forwarded_pre_prepare_parts s)) = MAX_PRE_PREPARE_PARTS + 1;
  so_first : num_parts_collected s <> 0 ->
    aget (pre_prepare_parts s) 1 = Some true /\ from_leader seq s;
  so_fresh : num_parts_collected s = 0 ->
    collected_all_parts s = false /\ c_cum_acks (complete_pre_prepare s) = zeros matrix_bytes;
  so_count : 0 <= num_parts_collected s;
  so_forwarded : aget (pre_prepare_parts s) 1 = Some false ->
    aget (forwarded_pre_prepare_parts s) 1 = Some false;
  so_complete : complete_ok (complete_pre_prepare s);
  so_view : forall w, cur = Some w -> num_parts_collected s <> 0 ->
    c_view (complete_pre_prepare s) = w;
  so_prepare : votes_ok counts seq (prepare s);
  so_commit : votes_ok EvC seq (commit s);
  so_prepared : prepare_certificate_ready s = true ->
    collected_all_parts s = true /\ fst (prepare_certificate s) = complete_pre_prepare s /\
    PREPARES <= Z.of_nat (length (prepares_for s));
  so_ordered : ordered s = true ->
    collected_all_parts s = true /\ COMMITS <= Z.of_nat (length (commits_for s));
  so_populated : ordered s = true -> populated_eligible s = true;
  so_executed : executed s = true -> seq <= aru;
  so_list : list_ok seq s;
  so_made : Z.of_nat (length (made_eligible s)) = NUM_SERVERS;
  so_eligible : populated_eligible s = true -> exists c,
    eligible_for c = Some (made_eligible s) /\
    (num_parts_collected s <> 0 -> c = complete_pre_prepare s) /\
    (num_parts_collected s = 0 -> exists m, Own m /\ pp_seq_num m = seq /\ c = complete_of m) }.

(** A Commit was sent for the slot's Pre-Prepare, which will not change. *)
Definition backs (v : vote) (s : ord_slot) : Prop :=
  collected_all_parts s = true /\ prepare_certificate_ready s = true /\
  v_view v = c_view (complete_pre_prepare s) /\ v_digest v = complete_digest (complete_pre_prepare s).

(** A Prepare was. *)
Definition prepares (v : vote) (s : ord_slot) : Prop :=
  collected_all_parts s = true /\ populated_eligible s = true /\
  v_digest v = complete_digest (complete_pre_prepare s).

(** A Pre-Prepare of the leader of its view. *)
Definition of_leader (pp : complete_pre_prepare_message) : Prop :=
  exists m, EvPP m /\ pp_machine_id m = UTIL_Leader_Of_View (pp_view m) /\ pp = complete_of m.

(** The Pre-Prepare of a sent Prepare continues from one prepared before. *)
Definition chained r (v : vote) : Prop :=
  exists pp, complete_ok pp /\ c_seq_num pp = v_seq_num v /\ c_view pp = v_view v /\
    complete_digest pp = v_digest v /\ of_leader pp /\
    (v_seq_num v = 1 /\ c_last_executed pp = zero_pairs \/
     exists v' pp', Send_Prepare v' ∈ actions r /\ v_seq_num v' = v_seq_num v - 1 /\
       complete_ok pp' /\ complete_digest pp' = v_digest v' /\ of_leader pp' /\
       eligible_for pp' = Some (c_last_executed pp)).

Record commits_ok r : Prop := {
  c_mine : forall v, Send_Commit v ∈ actions r -> v_machine_id v = My_Server_ID VAR;
  c_backed : forall v, Send_Commit v ∈ actions r ->
    (exists s, History r !! v_seq_num v = Some s /\ backs v s) \/ gone r (v_seq_num v);
  c_once : forall v v', Send_Commit v ∈ actions r -> Send_Commit v' ∈ actions r ->
    v_seq_num v = v_seq_num v' -> v = v';
  c_view_is : forall v, Send_Commit v ∈ actions r -> v_view v = View r;
  c_prepared : forall v, Send_Commit v ∈ actions r -> exists Q : gset Z,
    Q ⊆ server_ids NUM_SERVERS /\ PREPARES <= Z.of_nat (size Q) /\
    forall j, j ∈ Q -> exists u, counts u /\ v_machine_id u = j /\ v_seq_num u = v_seq_num v /\
      v_view u = v_view v /\ v_digest u = v_digest v }.

Record prepares_ok r : Prop := {
  p_mine : forall v, Send_Prepare v ∈ actions r -> v_machine_id v = My_Server_ID VAR;
  p_backed : forall v, Send_Prepare v ∈ actions r ->
    (exists s, History r !! v_seq_num v = Some s /\ prepares v s) \/ gone r (v_seq_num v);
  p_once : forall v v', Send_Prepare v ∈ actions r -> Send_Prepare v' ∈ actions r ->
    v_seq_num v = v_seq_num v' -> v = v';
  p_bound : forall v, Send_Prepare v ∈ actions r -> 0 < v_seq_num v <= ppARU r;
  p_view_is : forall v, Send_Prepare v ∈ actions r -> v_view v = View r;
  p_chained : forall v, Send_Prepare v ∈ actions r -> chained r v;
  p_last : view_change_done r = true -> UTIL_I_Am_Leader VAR (View r) = false -> 0 < ppARU r ->
    exists v, Send_Prepare v ∈ actions r /\ v_seq_num v = ppARU r }.

Definition current r : option Z := if view_change_done r then Some (View r) else None.

Definition sent r (m : pre_prepare_mess) : Prop := Send_Pre_Prepare m ∈ actions r.

Record proposals_ok r : Prop := {
  l_sent : forall m, sent r m ->
    view_change_done r = true /\ pp_view m = View r /\ UTIL_I_Am_Leader VAR (View r) = true /\
    0 < pp_seq_num m < next_seq r;
  l_once : forall m m', sent r m -> sent r m' -> pp_seq_num m = pp_seq_num m' -> m = m';
  l_own : forall m, EvPP m -> pp_machine_id m = My_Server_ID VAR ->
    exists m0, sent r m0 /\ unsigned m = unsigned m0 }.

Record inv r : Prop := {
  i_keys : forall seq s, History r !! seq = Some s -> 0 < seq < two32 /\ slot_ok (sent r) (current r) (ARU r) seq s;
  i_commits : commits_ok r;
  i_prepares : prepares_ok r;
  i_proposals : proposals_ok r;
  i_digest : Z.of_nat (length (proposal_digest r)) = DIGEST_SIZE;
  i_arrays : arrays_ok r;
  i_ARU : ARU r < two32;
  i_stable : 0 <= stable_catchup r <= ARU r;
  i_pending : pending_ok r;
  i_forwarding : is_u32 (forwarding_white_line r);
  i_recon : is_u32 (recon_white_line r);
  i_ppARU : is_u32 (ppARU r);
  i_next : 0 < next_seq r < two32 }.

Definition handled r r' : Prop := same_view r r' -> inv r' /\ follows r r'.

(** ** Development of the parts *)
Lemma ord_slot_ok_mono (Own Own' : pre_prepare_mess -> Prop) cur aru aru' seq s :
  (forall m, Own m -> Own' m) -> aru <= aru' -> slot_ok Own cur aru seq s -> slot_ok Own' cur aru' seq s.
Proof.
  intros H Ha []. split; auto; [intros He; specialize (so_executed0 He); lia|]. intros Hp. destruct (so_eligible0 Hp) as (c & Hc & H1 & H2).
  exists c. split; [exact Hc|]. split; [exact H1|]. intros Hz.
  destruct (H2 Hz) as (m & Hm & Hs). exists m. auto.
Qed.

Lemma same_ballot_ok Own cur aru seq s s' :
  same_ballot s s' -> slot_ok Own cur aru seq s -> slot_ok Own cur aru seq s'.
Proof.
  intros (E1 & E2 & E3 & E4 & E5 & E6 & E7 & E8 & E9 & E10 & E11 & E12 & E13 & E14 & E15 & E16 & E17) [].
  unfold from_leader, list_ok, starts_from in *.
  split; unfold from_leader, list_ok, starts_from;
    rewrite ?E1, ?E2, ?E3, ?E4, ?E5, ?E6, ?E7, ?E8, ?E9, ?E10, ?E11, ?E12, ?E13, ?E14, ?E15, ?E16, ?E17; assumption.
Qed.

Lemma current_same r r' : same_view r r' -> current r' = current r.
Proof. intros [H1 H2]. unfold current. rewrite H1, H2. reflexivity. Qed.

Lemma evolves_actions r r' a : evolves r r' -> a ∈ actions r -> a ∈ actions r'.
Proof. intros Hv Ha. destruct (e_follows _ _ Hv) as [_ [l ->]]. apply elem_of_app. auto. Qed.

Lemma evolves_slot (P : ord_slot -> Prop) r r' seq :
  evolves r r' -> (forall s s', P s -> stays s s' -> P s') ->
  (exists s, History r !! seq = Some s /\ P s) \/ gone r seq ->
  (exists s, History r' !! seq = Some s /\ P s) \/ gone r' seq.
Proof.
  intros Hv HP [(s & Es & Hs)|Hg]; [|right; apply Hv, Hg].
  destruct (e_slots _ _ Hv seq s Es) as [(s' & Es' & Hst)|Hg]; [left|right; exact Hg].
  exists s'. split; [exact Es'|]. exact (HP s s' Hs Hst).
Qed.

Lemma backs_stays v s s' : backs v s -> stays s s' -> backs v s'.
Proof.
  intros (H1 & H2 & H3 & H4) Hst. destruct (Hst H1) as (S1 & S2 & S3 & _).
  unfold backs. rewrite S2. auto.
Qed.

Lemma prepares_stays v s s' : prepares v s -> stays s s' -> prepares v s'.
Proof.
  intros (H1 & H2 & H3) Hst. destruct (Hst H1) as (S1 & S2 & _ & S4 & _).
  unfold prepares. rewrite S2. auto.
Qed.

Lemma commits_evolve r r' :
  commits_ok r -> evolves r r' ->
  (forall v, Send_Commit v ∈ actions r' -> Send_Commit v ∈ actions r) -> commits_ok r'.
Proof.
  intros [H1 H2 H3 H4 H5] Hv Hsub. split; auto.
  - intros v Hin. apply (evolves_slot (backs v) r); auto. intros. eapply backs_stays; eassumption.
  - intros v Hin. destruct (e_follows _ _ Hv) as [[-> _] _]. auto.
Qed.

Lemma chained_evolve r r' v : evolves r r' -> chained r v -> chained r' v.
Proof.
  intros Hv (pp & H1 & H2 & H3 & H4 & H5 & Hc). exists pp.
  split; [exact H1|]. split; [exact H2|]. split; [exact H3|]. split; [exact H4|]. split; [exact H5|].
  destruct Hc as [Hc|(v' & pp' & Hin & Hc)]; [left; exact Hc|right]. exists v', pp'.
  split; [eapply evolves_actions; eassumption|exact Hc].
Qed.

Lemma prepares_evolve r r' :
  prepares_ok r -> evolves r r' -> ppARU r' = ppARU r ->
  (forall v, Send_Prepare v ∈ actions r' -> Send_Prepare v ∈ actions r) -> prepares_ok r'.
Proof.
  intros [H1 H2 H3 H4 H5 H6 H7] Hv Ep Hsub. destruct (e_follows _ _ Hv) as [[EV ED] _].
  split; rewrite ?Ep, ?EV, ?ED; auto.
  - intros v Hin. apply (evolves_slot (prepares v) r); auto. intros. eapply prepares_stays; eassumption.
  - intros v Hin. eapply chained_evolve; eauto.
  - intros D L P. destruct (H7 D L P) as (v & Hin & Hs). exists v. split; [|exact Hs].
    eapply evolves_actions; eassumption.
Qed.

Lemma proposals_evolve r r' :
  proposals_ok r -> evolves r r' -> next_seq r' = next_seq r ->
  (forall m, sent r' m -> sent r m) -> proposals_ok r'.
Proof.
  intros [H1 H2 H3] Hv En Hsub. destruct (e_follows _ _ Hv) as [[EV ED] _].
  split; rewrite ?En, ?EV, ?ED; auto.
  intros m Hm Hme. destruct (H3 m Hm Hme) as (m0 & Hs & Hu). exists m0. split; [|exact Hu].
  unfold sent in *. eapply evolves_actions; eassumption.
Qed.

(** The parts that only depend on what was sent and on the slots' settled data. *)
Lemma parts_evolve r r' :
  inv r -> evolves r r' -> ppARU r' = ppARU r -> next_seq r' = next_seq r ->
  (exists l, actions r' = actions r ++ l /\ Forall silent l) ->
  commits_ok r' /\ prepares_ok r' /\ proposals_ok r'.
Proof.
  intros Hi Hv Ep En (l & El & Hl).
  assert (Hsub : forall a, a ∈ actions r' -> ~ silent a -> a ∈ actions r).
  { intros a Ha Hn. rewrite El in Ha. apply elem_of_app in Ha as [Ha|Ha]; [exact Ha|].
    rewrite Forall_forall in Hl. destruct (Hn (Hl a Ha)). }
  split; [|split].
  - apply (commits_evolve r); [apply Hi|exact Hv|]. intros v Hin. apply Hsub; [exact Hin|exact id].
  - apply (prepares_evolve r); [apply Hi|exact Hv|exact Ep|]. intros v Hin. apply Hsub; [exact Hin|exact id].
  - apply (proposals_evolve r); [apply Hi|exact Hv|exact En|]. intros v Hin. apply Hsub; [exact Hin|exact id].
Qed.

Lemma keys_evolve r r' :
  inv r -> follows r r' -> ARU r <= ARU r' -> forall seq s s', History r !! seq = Some s ->
  (slot_ok (sent r) (current r) (ARU r) seq s -> slot_ok (sent r) (current r) (ARU r) seq s') ->
  0 < seq < two32 /\ slot_ok (sent r') (current r') (ARU r') seq s'.
Proof.
  intros Hi [Hv [l El]] HA seq s s' Es Hs. destruct (i_keys _ Hi seq s Es) as [Hk Hok]. split; [exact Hk|].
  rewrite (current_same _ _ Hv). apply (ord_slot_ok_mono (sent r) _ _ (ARU r)); [|exact HA|apply Hs, Hok].
  unfold sent. intros m Hm. rewrite El. apply elem_of_app. auto.
Qed.

Lemma inv_keeps erase r r' : inv r -> keeps erase r r' -> inv r'.
Proof.
  intros Hi K. pose proof (keeps_evolves _ _ _ K) as Hv.
  destruct (parts_evolve r r' Hi Hv (k_ppARU _ _ _ K) (k_next _ _ _ K) (k_actions _ _ _ K)) as (HC & HP & HL).
  split; auto.
  - intros seq s Hs. destruct (History r !! seq) as [s0|] eqn:E0.
    + destruct (k_slot _ _ _ K seq s0 E0) as [(s' & Es' & Hb)|[_ (Hn & _)]]; [|congruence].
      replace s with s' by congruence. apply (keys_evolve r r' Hi (e_follows _ _ Hv) (proj1 (k_ARU _ _ _ K)) seq s0 s' E0).
      apply same_ballot_ok, Hb.
    + rewrite (k_none _ _ _ K seq E0) in Hs. discriminate.
  - rewrite (k_digest _ _ _ K). apply Hi.
  - apply K. apply Hi.
  - pose proof (k_ARU _ _ _ K). pose proof (i_ARU _ Hi). lia.
  - apply K. apply Hi.
  - apply K. apply Hi.
  - apply (k_forwarding _ _ _ K), Hi.
  - apply (k_recon _ _ _ K), Hi.
  - rewrite (k_ppARU _ _ _ K). apply Hi.
  - rewrite (k_next _ _ _ K). apply Hi.
Qed.

(** ** State changes *)
Definition set_slot (seq : Z) (s : ord_slot) r : order_state :=
  set_History (<[seq := s]> (History r)) r.

Lemma lookup_set_slot seq s r : History (set_slot seq s r) !! seq = Some s.
Proof. apply lookup_insert_eq. Qed.

Lemma follows_silent r r' : same_view r r' -> actions r' = actions r -> follows r r'.
Proof. intros Hv Ha. split; [exact Hv|]. exists []. rewrite app_nil_r. exact Ha. Qed.

Lemma no_actions r r' : actions r' = actions r -> exists l, actions r' = actions r ++ l /\ Forall silent l.
Proof. intros Ea. exists []. rewrite app_nil_r. split; [exact Ea|constructor]. Qed.

Lemma pending_set_slot r seq s s' :
  pending_ok r -> History r !! seq = Some s -> (ordered s = true -> ordered s' = true) ->
  pending_ok (set_slot seq s' r).
Proof.
  intros Hp Es Ho. apply (pending_evolves r); [exact Hp|reflexivity|]. intros q t Et Hot. cbn.
  destruct (Z.eq_dec q seq) as [->|Hne]; [|rewrite lookup_insert_ne by congruence; eauto].
  rewrite lookup_insert_eq. exists s'. split; [reflexivity|]. apply Ho. congruence.
Qed.

Lemma evolves_set_slot r seq s s' :
  History r !! seq = Some s -> stays s s' -> evolves r (set_slot seq s' r).
Proof.
  intros Es Hst. split.
  - apply follows_silent; [split|]; reflexivity.
  - intros q t Et. left. destruct (Z.eq_dec q seq) as [->|Hne].
    + exists s'. split; [apply lookup_set_slot|]. replace t with s by congruence. exact Hst.
    + exists t. split; [|apply stays_refl]. cbn. rewrite lookup_insert_ne by congruence. exact Et.
  - intros q (G1 & G2). split; [|exact G2]. cbn. rewrite lookup_insert_ne; [exact G1|congruence].
Qed.

Lemma inv_set_slot r seq s s' :
  inv r -> History r !! seq = Some s ->
  (slot_ok (sent r) (current r) (ARU r) seq s -> slot_ok (sent r) (current r) (ARU r) seq s') ->
  stays s s' -> inv (set_slot seq s' r).
Proof.
  intros Hi Es Hok Hst. set (r' := set_slot seq s' r).
  pose proof (evolves_set_slot r seq s s' Es Hst) as Hv.
  destruct (parts_evolve r r' Hi Hv eq_refl eq_refl (no_actions r r' eq_refl)) as (HC & HP & HL).
  split; auto; try apply Hi.
  - intros q t Ht. cbn in Ht. destruct (Z.eq_dec q seq) as [->|Hne].
    + rewrite lookup_insert_eq in Ht. injection Ht as <-.
      exact (keys_evolve r r' Hi (e_follows _ _ Hv) (Z.le_refl _) seq s s' Es Hok).
    + rewrite lookup_insert_ne in Ht by congruence.
      exact (keys_evolve r r' Hi (e_follows _ _ Hv) (Z.le_refl _) q t t Ht id).
  - apply (pending_set_slot r seq s s'); [apply Hi|exact Es|].
    intros Ho. destruct (i_keys _ Hi seq s Es) as [_ []]. apply Hst; [|exact Ho]. apply so_ordered0, Ho.
Qed.

Lemma votes_ok_none Ev seq : votes_ok Ev seq (per_server None).
Proof.
  split; [reflexivity|]. intros j v H. exfalso. unfold aget in H.
  destruct (in_bounds _ _); [|discriminate].
  apply list_elem_of_lookup_2, list_elem_of_In, repeat_spec in H. discriminate.
Qed.

Lemma zero_complete_ok : complete_ok zero_complete.
Proof.
  split; try reflexivity; cbn; try (split; [lia|reflexivity]).
  apply Forall_forall. intros x Hx. apply list_elem_of_In, repeat_spec in Hx as ->.
  repeat split; cbn; lia.
Qed.

Lemma new_ord_slot_ok Own cur aru seq : slot_ok Own cur aru seq (new_ord_slot seq).
Proof.
  split; cbn; try reflexivity; try discriminate; try lia; unfold list_ok; auto using votes_ok_none, zero_complete_ok.
Qed.

Lemma inv_new_slot r seq :
  inv r -> 0 < seq < two32 -> History r !! seq = None -> ~ gone r seq ->
  inv (set_slot seq (new_ord_slot seq) r).
Proof.
  intros Hi Hseq Hn Hg. set (r' := set_slot seq (new_ord_slot seq) r).
  assert (Hv : evolves r r').
  { split.
    - apply follows_silent; [split|]; reflexivity.
    - intros q t Et. left. exists t. split; [|apply stays_refl]. cbn.
      rewrite lookup_insert_ne; [exact Et|congruence].
    - intros q Hq. destruct (Z.eq_dec q seq) as [->|Hne]; [contradiction|].
      destruct Hq as (G1 & G2). split; [|exact G2]. cbn. rewrite lookup_insert_ne by congruence. exact G1. }
  destruct (parts_evolve r r' Hi Hv eq_refl eq_refl (no_actions r r' eq_refl)) as (HC & HP & HL).
  split; auto; try apply Hi.
  - intros q t Ht. cbn in Ht. destruct (Z.eq_dec q seq) as [->|Hne].
    + rewrite lookup_insert_eq in Ht. injection Ht as <-. split; [exact Hseq|apply new_ord_slot_ok].
    + rewrite lookup_insert_ne in Ht by congruence.
      exact (keys_evolve r r' Hi (e_follows _ _ Hv) (Z.le_refl _) q t t Ht id).
  - apply (pending_evolves r); [apply Hi|reflexivity|]. intros q t Et Ho. exists t. split; [|exact Ho].
    cbn. rewrite lookup_insert_ne; [exact Et|congruence].
Qed.

(** Changes outside the history; the forwarding line may only rise. *)
Lemma inv_rest r r' :
  inv r -> History r' = History r -> (exists l, actions r' = actions r ++ l /\ Forall silent l) ->
  same_view r r' -> proposal_digest r' = proposal_digest r -> arrays_ok r' -> ARU r' = ARU r ->
  recon_white_line r' = recon_white_line r -> stable_catchup r' = stable_catchup r ->
  Pending_Execution r' = Pending_Execution r ->
  next_seq r' = next_seq r -> ppARU r' = ppARU r ->
  forwarding_white_line r <= forwarding_white_line r' < two32 -> inv r'.
Proof.
  intros Hi EH El Hs Ed Ha EA Er Est EP En Ep Hf.
  assert (Hv : evolves r r').
  { apply evolves_history; auto; [|lia]. split; [exact Hs|]. destruct El as (l & El & _). eauto. }
  destruct (parts_evolve r r' Hi Hv Ep En El) as (HC & HP & HL).
  split; auto.
  - intros q t Ht. rewrite EH in Ht.
    apply (keys_evolve r r' Hi (e_follows _ _ Hv)) with (s := t); [lia|exact Ht|exact id].
  - rewrite Ed. apply Hi.
  - rewrite EA. apply Hi.
  - rewrite Est, EA. apply Hi.
  - apply (pending_evolves r); [apply Hi|exact EP|]. rewrite EH. eauto.
  - pose proof (i_forwarding _ Hi) as H. unfold is_u32 in *. lia.
  - rewrite Er. apply Hi.
  - rewrite Ep. apply Hi.
  - rewrite En. apply Hi.
Qed.

Lemma inv_modify r r' :
  inv r -> History r' = History r -> actions r' = actions r -> same_view r r' ->
  proposal_digest r' = proposal_digest r -> arrays_ok r' -> ARU r' = ARU r ->
  recon_white_line r' = recon_white_line r -> stable_catchup r' = stable_catchup r ->
  Pending_Execution r' = Pending_Execution r ->
  next_seq r' = next_seq r -> ppARU r' = ppARU r ->
  forwarding_white_line r <= forwarding_white_line r' < two32 -> inv r'.
Proof. intros Hi EH El. apply inv_rest; [exact Hi|exact EH|]. apply no_actions, El. Qed.

Lemma inv_act r a : inv r -> silent a -> inv (act a r).
Proof.
  intros Hi Ha. apply (inv_rest r); auto; try reflexivity.
  - exists [a]. split; [reflexivity|]. constructor; [exact Ha|constructor].
  - split; reflexivity.
  - exact (i_arrays _ Hi).
  - pose proof (i_forwarding _ Hi) as H. unfold is_u32 in H. cbn. lia.
Qed.

(** Skipping a slot without a Prepare. *)
Lemma inv_set_ppARU r n :
  inv r -> is_u32 n -> ppARU r <= n ->
  view_change_done r = false \/ UTIL_I_Am_Leader VAR (View r) = true -> inv (set_ppARU n r).
Proof.
  intros Hi Hn Hle Hskip.
  assert (Hv : evolves r (set_ppARU n r)).
  { apply evolves_history; auto; [|apply Z.le_refl]. apply follows_silent; [split|]; reflexivity. }
  split; try apply Hi; try assumption.
  - apply (commits_evolve r); [apply Hi|exact Hv|auto].
  - destruct (i_prepares _ Hi) as [H1 H2 H3 H4 H5 H6 H7]. split; auto.
    + intros v Hin. pose proof (H4 v Hin). cbn. lia.
    + intros D L. destruct Hskip as [Hs|Hs]; cbn in D, L; congruence.
  - apply (proposals_evolve r); [apply Hi|exact Hv|reflexivity|auto].
Qed.

Lemma elem_of_act a b r : a ∈ actions (act b r) <-> a ∈ actions r \/ a = b.
Proof. cbn. rewrite elem_of_app, list_elem_of_singleton. tauto. Qed.

Lemma evolves_act r a : evolves r (act a r).
Proof.
  apply evolves_history; auto; [|apply Z.le_refl]. split; [split; reflexivity|]. exists [a]. reflexivity.
Qed.

Lemma no_commit_yet r seq s :
  inv r -> History r !! seq = Some s -> prepare_certificate_ready s = false ->
  forall v, Send_Commit v ∈ actions r -> v_seq_num v <> seq.
Proof.
  intros Hi Es Hp v Hv Ev. destruct (c_backed _ (i_commits _ Hi) v Hv) as [(t & Et & _ & Hr & _)|(Hn & _)]; congruence.
Qed.

(** Sending a Commit for a slot that backs it. *)
Lemma inv_act_commit r v s :
  inv r -> v_machine_id v = My_Server_ID VAR ->
  (forall u, Send_Commit u ∈ actions r -> v_seq_num u <> v_seq_num v) ->
  History r !! v_seq_num v = Some s -> backs v s -> v_view v = View r ->
  (exists Q : gset Z, Q ⊆ server_ids NUM_SERVERS /\ PREPARES <= Z.of_nat (size Q) /\
    forall j, j ∈ Q -> exists u, counts u /\ v_machine_id u = j /\ v_seq_num u = v_seq_num v /\
      v_view u = v_view v /\ v_digest u = v_digest v) ->
  inv (act (Send_Commit v) r).
Proof.
  intros Hi Hme Hnew Es Hb Hview HQ. pose proof (evolves_act r (Send_Commit v)) as Hv.
  assert (Hel : forall u, Send_Commit u ∈ actions (act (Send_Commit v) r) ->
                Send_Commit u ∈ actions r \/ u = v).
  { intros u Hu. apply elem_of_act in Hu as [Hu|Hu]; [left; exact Hu|right; congruence]. }
  split; try apply Hi.
  - intros q t Ht. exact (keys_evolve r _ Hi (e_follows _ _ Hv) (Z.le_refl _) q t t Ht id).
  - destruct (i_commits _ Hi) as [H1 H2 H3 H4 H5].
    split.
    + intros u Hu. destruct (Hel u Hu) as [H| ->]; auto.
    + intros u Hu. destruct (Hel u Hu) as [H| ->]; [exact (H2 u H)|left; exists s; split; assumption].
    + intros u u' Hu Hu' Euu. destruct (Hel u Hu) as [H| ->], (Hel u' Hu') as [H'| ->]; auto;
        exfalso; eapply Hnew; eauto.
    + intros u Hu. destruct (Hel u Hu) as [H| ->]; auto.
    + intros u Hu. destruct (Hel u Hu) as [H| ->]; auto.
  - apply (prepares_evolve r); [apply Hi|exact Hv|reflexivity|].
    intros u Hu. apply elem_of_act in Hu as [Hu|Hu]; [exact Hu|discriminate].
  - apply (proposals_evolve r); [apply Hi|exact Hv|reflexivity|].
    intros u Hu. apply elem_of_act in Hu as [Hu|Hu]; [exact Hu|discriminate].
Qed.

(** Sending a Prepare for the next slot, which becomes the last prepared. *)
Lemma inv_act_prepare r seq s v :
  inv r -> History r !! seq = Some s -> ppARU r < seq ->
  v_machine_id v = My_Server_ID VAR -> v_seq_num v = seq -> v_view v = View r ->
  prepares v s -> chained r v ->
  inv (set_ppARU seq (set_slot seq (mark_sent_prepare s) (act (Send_Prepare v) r))).
Proof.
  intros Hi Es Hlt Hme Hseq Hview Hp Hc.
  destruct (i_keys _ Hi _ _ Es) as [Hk _].
  pose proof (evolves_act r (Send_Prepare v)) as Hv1. set (r1 := act (Send_Prepare v) r) in *.
  set (r2 := set_ppARU seq (set_slot seq (mark_sent_prepare s) r1)).
  assert (Hv2 : evolves r1 r2).
  { destruct (evolves_set_slot r1 seq s (mark_sent_prepare s) Es) as [A B C]; [intros H; auto|].
    split; [exact A|exact B|exact C]. }
  assert (Hsub : forall a, a ∈ actions r2 -> a ∈ actions r \/ a = Send_Prepare v)
    by (intros a Ha; apply elem_of_act in Ha; exact Ha).
  destruct (i_prepares _ Hi) as [H1 H2 H3 H4 H5 H6 H7].
  assert (Hel : forall u, Send_Prepare u ∈ actions r2 -> Send_Prepare u ∈ actions r \/ u = v)
    by (intros u Hu; destruct (Hsub _ Hu) as [H|H]; [left; exact H|right; congruence]).
  split; try apply Hi.
  - intros q t Ht. cbn in Ht. destruct (Z.eq_dec q seq) as [->|Hne].
    + rewrite lookup_insert_eq in Ht. injection Ht as <-.
      apply (keys_evolve r r2 Hi (e_follows _ _ Hv1) (Z.le_refl _) seq s); [exact Es|]. intros []. split; auto.
    + rewrite lookup_insert_ne in Ht by congruence.
      exact (keys_evolve r r2 Hi (e_follows _ _ Hv1) (Z.le_refl _) q t t Ht id).
  - apply (commits_evolve r1); [|exact Hv2|auto].
    apply (commits_evolve r); [apply Hi|exact Hv1|].
    intros u Hu. apply elem_of_act in Hu as [Hu|Hu]; [exact Hu|discriminate].
  - split.
    + intros u Hu. destruct (Hel u Hu) as [H| ->]; auto.
    + intros u Hu. apply (evolves_slot (prepares u) r1 r2); [exact Hv2|intros; eapply prepares_stays; eassumption|].
      destruct (Hel u Hu) as [H| ->]; [exact (H2 u H)|left; exists s; rewrite Hseq; split; assumption].
    + intros u u' Hu Hu' Euu. destruct (Hel u Hu) as [H| ->], (Hel u' Hu') as [H'| ->]; auto;
        exfalso; [pose proof (H4 u H)|pose proof (H4 u' H')]; lia.
    + intros u Hu. change (0 < v_seq_num u <= seq).
      destruct (Hel u Hu) as [H| ->]; [pose proof (H4 u H)|]; lia.
    + intros u Hu. destruct (Hel u Hu) as [H| ->]; auto.
    + intros u Hu. apply (chained_evolve r1 r2); [exact Hv2|].
      destruct (Hel u Hu) as [H| ->]; apply (chained_evolve r r1); auto.
    + intros _ _ _. exists v. split; [|exact Hseq]. apply elem_of_act. right. reflexivity.
  - apply (proposals_evolve r1); [|exact Hv2|reflexivity|auto].
    apply (proposals_evolve r); [apply Hi|exact Hv1|reflexivity|].
    intros u Hu. apply elem_of_act in Hu as [Hu|Hu]; [exact Hu|discriminate].
  - exact (pending_set_slot r seq s (mark_sent_prepare s) (i_pending _ Hi) Es id).
  - unfold is_u32. cbn. lia.
Qed.

(** Taking the next sequence number, and proposing a Pre-Prepare with it. *)
Lemma inv_set_next r n : inv r -> next_seq r <= n < two32 -> inv (set_next_seq n r).
Proof.
  intros Hi Hn.
  assert (Hv : evolves r (set_next_seq n r)).
  { apply evolves_history; auto; [|apply Z.le_refl]. apply follows_silent; [split|]; reflexivity. }
  pose proof (i_next _ Hi) as Hpos.
  split; try apply Hi.
  - apply (commits_evolve r); [apply Hi|exact Hv|auto].
  - apply (prepares_evolve r); [apply Hi|exact Hv|reflexivity|auto].
  - destruct (i_proposals _ Hi) as [H1 H2 H3]. split; auto.
    intros m Hm. destruct (H1 m Hm) as (A & B & C & D). repeat (split; [assumption|]).
    change (next_seq (set_next_seq n r)) with n. lia.
  - cbn. lia.
Qed.

(** The next slot is executed. *)
Lemma evolves_ahead r n : ARU r <= n < two32 -> evolves r (set_ARU n r).
Proof.
  intros Hn. split.
  - apply follows_silent; [split|]; reflexivity.
  - intros seq s Es. left. exists s. split; [exact Es|apply stays_refl].
  - intros seq (G1 & G2 & G3 & G4). split; [exact G1|]. cbn. split; [lia|]. split; [lia|exact G4].
Qed.

Lemma inv_executed r s :
  inv r -> History r !! (ARU r + 1) = Some s -> ordered s = true ->
  inv (set_ARU (ARU r + 1) (set_slot (ARU r + 1) (mark_executed s) r)).
Proof.
  intros Hi Es Ho. set (seq := ARU r + 1) in *. destruct (i_keys _ Hi _ _ Es) as [Hk Hok].
  set (r1 := set_slot seq (mark_executed s) r).
  assert (Hv1 : evolves r r1) by (apply (evolves_set_slot r seq s); [exact Es|intros H; auto]).
  assert (Hv2 : evolves r1 (set_ARU seq r1)) by (apply evolves_ahead; cbn; lia).
  assert (Hf : follows r (set_ARU seq r1)) by (eapply follows_trans; [apply Hv1|apply Hv2]).
  assert (HC : commits_ok (set_ARU seq r1) /\ prepares_ok (set_ARU seq r1) /\ proposals_ok (set_ARU seq r1)).
  { destruct (parts_evolve r r1 Hi Hv1 eq_refl eq_refl (no_actions r r1 eq_refl)) as (HC & HP & HL).
    split; [|split].
    - apply (commits_evolve r1); auto.
    - apply (prepares_evolve r1); auto.
    - apply (proposals_evolve r1); auto. }
  destruct HC as (HC & HP & HL). split; auto; try apply Hi.
  - intros q t Ht. cbn in Ht. destruct (Z.eq_dec q seq) as [->|Hne].
    + rewrite lookup_insert_eq in Ht. injection Ht as <-. split; [exact Hk|].
      apply (ord_slot_ok_mono (sent r) (sent r) _ _ seq) in Hok; [|auto|lia].
      assert (Hl : list_ok seq (mark_executed s)) by (apply list_ok_executed; destruct Hok; assumption).
      destruct Hok. split; auto; cbn; lia.
    + rewrite lookup_insert_ne in Ht by congruence. apply (keys_evolve r _ Hi Hf) with (s := t); [cbn; lia|exact Ht|auto].
  - cbn. lia.
  - pose proof (i_stable _ Hi). cbn. lia.
  - exact (pending_set_slot r seq s (mark_executed s) (i_pending _ Hi) Es id).
Qed.

Lemma inv_set_stable r n : inv r -> 0 <= n <= ARU r -> inv (set_stable n r).
Proof.
  intros Hi Hn.
  assert (Hv : evolves r (set_stable n r)).
  { apply evolves_history; auto; [|apply Z.le_refl]. apply follows_silent; [split|]; reflexivity. }
  destruct (parts_evolve r _ Hi Hv eq_refl eq_refl (no_actions r _ eq_refl)) as (HC & HP & HL).
  split; auto; apply Hi.
Qed.

Lemma inv_act_propose r m :
  inv r -> view_change_done r = true -> UTIL_I_Am_Leader VAR (View r) = true ->
  pp_view m = View r -> 0 < pp_seq_num m < next_seq r ->
  (forall m', sent r m' -> pp_seq_num m' < pp_seq_num m) ->
  inv (act (Send_Pre_Prepare m) r).
Proof.
  intros Hi HD HL Hw Hs Hlt. set (r' := act _ _).
  pose proof (evolves_act r (Send_Pre_Prepare m)) as Hv. fold r' in Hv.
  assert (Hel : forall a, a ∈ actions r' -> a ∈ actions r \/ a = Send_Pre_Prepare m)
    by (intros a Ha; apply elem_of_act in Ha; exact Ha).
  split; try apply Hi.
  - intros q t Ht. exact (keys_evolve r r' Hi (e_follows _ _ Hv) (Z.le_refl _) q t t Ht id).
  - apply (commits_evolve r); [apply Hi|exact Hv|].
    intros u Hu. destruct (Hel _ Hu) as [H|H]; [exact H|discriminate].
  - apply (prepares_evolve r); [apply Hi|exact Hv|reflexivity|].
    intros u Hu. destruct (Hel _ Hu) as [H|H]; [exact H|discriminate].
  - destruct (i_proposals _ Hi) as [H1 H2 H3]. split.
    + intros u Hu. change (next_seq r') with (next_seq r).
      destruct (Hel _ Hu) as [H|[= ->]]; [exact (H1 u H)|auto].
    + intros u u' Hu Hu' Euu. destruct (Hel _ Hu) as [H|[= ->]], (Hel _ Hu') as [H'|[= ->]]; auto;
        exfalso; [pose proof (Hlt u H)|pose proof (Hlt u' H')]; lia.
    + intros u Hu Hme. destruct (H3 u Hu Hme) as (m0 & Hm0 & Eu). exists m0. split; [|exact Eu].
      apply elem_of_act. left. exact Hm0.
Qed.
End Local.

Arguments so_seq {crypto VAR EvPP EvP EvC Own cur aru seq s} _.
Arguments so_type {crypto VAR EvPP EvP EvC Own cur aru seq s} _.
Arguments so_parts {crypto VAR EvPP EvP EvC Own cur aru seq s} _.
Arguments so_msgs {crypto VAR EvPP EvP EvC Own cur aru seq s} _.
Arguments so_fwds {crypto VAR EvPP EvP EvC Own cur aru seq s} _.
Arguments so_first {crypto VAR EvPP EvP EvC Own cur aru seq s} _.
Arguments so_fresh {crypto VAR EvPP EvP EvC Own cur aru seq s} _.
Arguments so_count {crypto VAR EvPP EvP EvC Own cur aru seq s} _.
Arguments so_forwarded {crypto VAR EvPP EvP EvC Own cur aru seq s} _.
Arguments so_complete {crypto VAR EvPP EvP EvC Own cur aru seq s} _.
Arguments so_view {crypto VAR EvPP EvP EvC Own cur aru seq s} _.
Arguments so_prepare {crypto VAR EvPP EvP EvC Own cur aru seq s} _.
Arguments so_commit {crypto VAR EvPP EvP EvC Own cur aru seq s} _.
Arguments so_prepared {crypto VAR EvPP EvP EvC Own cur aru seq s} _.
Arguments so_ordered {crypto VAR EvPP EvP EvC Own cur aru seq s} _.
Arguments so_populated {crypto VAR EvPP EvP EvC Own cur aru seq s} _.
Arguments so_executed {crypto VAR EvPP EvP EvC Own cur aru seq s} _.
Arguments so_list {crypto VAR EvPP EvP EvC Own cur aru seq s} _.
Arguments so_made {crypto VAR EvPP EvP EvC Own cur aru seq s} _.
Arguments so_eligible {crypto VAR EvPP EvP EvC Own cur aru seq s} _.
Arguments i_keys {crypto E VAR EvPP EvP EvC r} _.
Arguments i_commits {crypto E VAR EvPP EvP EvC r} _.
Arguments i_prepares {crypto E VAR EvPP EvP EvC r} _.
Arguments i_proposals {crypto E VAR EvPP EvP EvC r} _.
Arguments i_digest {crypto E VAR EvPP EvP EvC r} _.
Arguments i_arrays {crypto E VAR EvPP EvP EvC r} _.
Arguments i_ARU {crypto E VAR EvPP EvP EvC r} _.
Arguments i_pending {crypto E VAR EvPP EvP EvC r} _.
Arguments i_stable {crypto E VAR EvPP EvP EvC r} _.
Arguments i_forwarding {crypto E VAR EvPP EvP EvC r} _.
Arguments i_recon {crypto E VAR EvPP EvP EvC r} _.
Arguments i_ppARU {crypto E VAR EvPP EvP EvC r} _.
Arguments i_next {crypto E VAR EvPP EvP EvC r} _.
Arguments c_mine {crypto E VAR EvP r} _.
Arguments c_backed {crypto E VAR EvP r} _.
Arguments c_once {crypto E VAR EvP r} _.
Arguments c_view_is {crypto E VAR EvP r} _.
Arguments c_prepared {crypto E VAR EvP r} _.
Arguments p_mine {crypto E VAR EvPP r} _.
Arguments p_backed {crypto E VAR EvPP r} _.
Arguments p_once {crypto E VAR EvPP r} _.
Arguments p_bound {crypto E VAR EvPP r} _.
Arguments p_view_is {crypto E VAR EvPP r} _.
Arguments p_chained {crypto E VAR EvPP r} _.
Arguments p_last {crypto E VAR EvPP r} _.
Arguments l_sent {E VAR EvPP r} _.
Arguments l_once {E VAR EvPP r} _.
Arguments l_own {E VAR EvPP r} _.

(** The interface of the executor of ordered slots: it leaves the invariant of the
    protocol intact, or ends the view. *)
Class ExecutorOk {crypto : Crypto} {E : Type} (F : fault -> Prop) (exec : Executor E) := {
  Execute_Commit_keeps VAR EvPP EvP EvC seq s r :
    inv VAR EvPP EvP EvC r -> History r !! seq = Some s -> ordered s = true ->
    1 <= 2 * VF VAR + VK VAR + 1 <= NUM_SERVERS ->
    wp F (ORDER_Execute_Commit VAR seq) (fun _ => handled VAR EvPP EvP EvC r) r;
  Execute_Pending_keeps VAR EvPP EvP EvC r :
    inv VAR EvPP EvP EvC r -> 1 <= 2 * VF VAR + VK VAR + 1 <= NUM_SERVERS ->
    wp F (ORDER_Attempt_To_Execute_Pending_Commits VAR) (fun _ => handled VAR EvPP EvP EvC r) r }.
