(* ===== verification/OrderHandlers.v ===== *)
(** Every handler of [Order.v] keeps the invariant of [OrderCorrect.v]; it
    stays in its arrays and terminates. *)
From Stdlib Require Import ZArith Lia List Bool.
From Stdlib Require Import Strings.Byte.
From stdpp Require Import base list gmap fin_sets.
From S2P Require Import Prelude Memory Config Packets Crypto Utility Eligibility EligibilityCorrect OrderState Order OrderCorrect.

(** ** Slots above a line *)
Section Above.
Context {E : Type}.
Implicit Types r : order_state (E := E).

Definition above r (n : Z) : nat := size (filter (fun k => n < k) (dom (History r) : gset Z)).

Lemma above_all r n : (above r n <= size (History r))%nat.
Proof. unfold above. rewrite <- size_dom. apply subseteq_size. set_solver. Qed.

Lemma above_lower r r' n seq :
  (dom (History r') : gset Z) = dom (History r) -> is_Some (History r !! seq) -> n < seq ->
  (above r' seq < above r n)%nat.
Proof.
  intros Hd Hs Hn. unfold above. rewrite Hd. apply subset_size. split.
  - intros k. rewrite !elem_of_filter. intros [H1 H2]. split; [lia|exact H2].
  - intros Hsub. assert (Hin : seq ∈ filter (fun k => n < k) (dom (History r) : gset Z))
      by (apply elem_of_filter; split; [exact Hn|apply elem_of_dom; exact Hs]).
    apply Hsub, elem_of_filter in Hin. lia.
Qed.

End Above.

(** ** The servers counted *)
Lemma elem_of_matching {crypto : Crypto} matches votes pp j :
  j ∈ matching matches votes pp <-> 1 <= j <= NUM_SERVERS /\ matches_at matches votes pp j = true.
Proof.
  unfold matching. rewrite list_elem_of_In, filter_In, <- list_elem_of_In, elem_of_seqZ.
  split; intros [H1 H2]; (split; [lia|exact H2]).
Qed.

Lemma NoDup_matching {crypto : Crypto} matches votes pp : NoDup (matching matches votes pp).
Proof. apply NoDup_ListNoDup, List.NoDup_filter, NoDup_ListNoDup, NoDup_seqZ. Qed.

Definition counted {crypto : Crypto} matches votes pp : gset Z := list_to_set (matching matches votes pp).

Lemma counted_servers {crypto : Crypto} matches votes pp : counted matches votes pp ⊆ server_ids NUM_SERVERS.
Proof.
  intros j Hj. apply elem_of_list_to_set, elem_of_matching in Hj as [Hj _]. apply elem_of_server_ids, Hj.
Qed.

Lemma counted_size {crypto : Crypto} matches votes pp :
  Z.of_nat (size (counted matches votes pp)) = Z.of_nat (length (matching matches votes pp)).
Proof. unfold counted. rewrite size_list_to_set by apply NoDup_matching. reflexivity. Qed.

Lemma Commit_Matches_spec {crypto : Crypto} (ok : CryptoOk crypto) v pp :
  Z.of_nat (length (v_digest v)) = DIGEST_SIZE ->
  ORDER_Commit_Matches_Pre_Prepare v pp = true ->
  v_view v = c_view pp /\ v_seq_num v = c_seq_num pp /\ v_digest v = complete_digest pp.
Proof.
  intros Hd H. unfold ORDER_Commit_Matches_Pre_Prepare in H.
  destruct (Z.eqb_spec (c_view pp) (v_view v)); [|discriminate].
  destruct (Z.eqb_spec (c_seq_num pp) (v_seq_num v)); [|discriminate]. cbn [negb] in H.
  apply Digests_Equal_spec in H; [auto|apply make_digest_length|exact Hd].
Qed.

Lemma Prepare_Matches_spec {crypto : Crypto} (ok : CryptoOk crypto) v pp :
  Z.of_nat (length (v_digest v)) = DIGEST_SIZE ->
  ORDER_Prepare_Matches_Pre_Prepare v pp = true ->
  v_view v = c_view pp /\ v_seq_num v = c_seq_num pp /\ v_digest v = complete_digest pp.
Proof. exact (Commit_Matches_spec ok v pp). Qed.

(** The servers whose votes match, with the votes. *)
Lemma counted_votes {crypto : Crypto} Ev matches votes pp seq :
  (forall v, Z.of_nat (length (v_digest v)) = DIGEST_SIZE -> matches v pp = true ->
     v_view v = c_view pp /\ v_seq_num v = c_seq_num pp /\ v_digest v = complete_digest pp) ->
  votes_ok Ev seq votes ->
  exists Q : gset Z, Q ⊆ server_ids NUM_SERVERS /\
    Z.of_nat (size Q) = Z.of_nat (length (matching matches votes pp)) /\
    forall j, j ∈ Q -> exists u, Ev u /\ v_machine_id u = j /\ v_seq_num u = seq /\
      v_view u = c_view pp /\ v_digest u = complete_digest pp.
Proof.
  intros Hm [_ Hv]. exists (counted matches votes pp).
  split; [apply counted_servers|]. split; [apply counted_size|].
  intros j Hj. apply elem_of_list_to_set, elem_of_matching in Hj as [Hj Hj'].
  unfold matches_at in Hj'. destruct (aget votes j) as [[v|]|] eqn:Ev'; try discriminate.
  destruct (Hv j v Ev') as (<- & Hs & Hd & He). destruct (Hm v Hd Hj') as (H1 & H2 & H3).
  exists v. auto.
Qed.

Section Handlers.
Context {crypto : Crypto} (ok : CryptoOk crypto) {E : Type} {calls : OrderCalls E}.
Context (F : fault -> Prop) {calls_ok : OrderCallsOk F calls} (HF : F AssertFailure).
Context (VAR : server_variables) (HVAR : 1 <= 2 * VF VAR + VK VAR + 1 <= NUM_SERVERS).
Context (EvPP : pre_prepare_mess -> Prop) (EvP EvC : vote -> Prop).
Implicit Types r : order_state (E := E).

Abbreviation inv := (inv VAR EvPP EvP EvC).
Abbreviation slot_ok_in r := (slot_ok VAR EvPP EvP EvC (sent r) (current r) (ARU r)).
Abbreviation chained_in := (chained (E := E) VAR EvPP).

(** Nothing of a slot is executed before it is ordered and its vector known. *)
Lemma list_fresh seq s : list_ok seq s -> ordered s = false \/ populated_eligible s = false -> po_slot_list s = [].
Proof. intros [H|(_ & H1 & H2 & _)] [H'|H']; congruence. Qed.

Lemma list_uncollected r seq s : slot_ok_in r seq s -> collected_all_parts s = false -> po_slot_list s = [].
Proof.
  intros Hok Hc. apply (list_fresh seq); [exact (so_list Hok)|]. left.
  destruct (ordered s) eqn:Ho; [|reflexivity]. destruct (so_ordered Hok Ho). congruence.
Qed.

(** ** Rules *)
Lemma wp_weaken {S A} (m : comp S A) Q (s : S) : wp no_fault m Q s -> wp F m Q s.
Proof. apply wp_fault. intros f []. Qed.

Lemma wp_the_slot r seq s Q :
  History r !! seq = Some s -> Q s r -> wp F (the_slot seq) Q r.
Proof. intros Es HQ. unfold the_slot, wp, bind, get. rewrite Es. exact HQ. Qed.

Lemma wp_upd r seq s f Q :
  History r !! seq = Some s -> Q tt (set_slot seq (f s) r) -> wp F (upd seq f) Q r.
Proof. intros Es HQ. unfold upd, wp, bind, get. rewrite Es. exact HQ. Qed.

Lemma wp_modify (f : order_state (E := E) -> order_state) r Q : Q tt (f r) -> wp F (modify f) Q r.
Proof. exact (fun H => H). Qed.

Lemma wp_aget {S A} (l : list A) i Q (s : S) :
  0 <= i < Z.of_nat (length l) -> (forall x, aget l i = Some x -> Q x s) ->
  wp F (or_oob (aget l i)) Q s.
Proof. intros Hi HQ. destruct (aget_is_Some l i Hi) as [x Ex]. rewrite Ex. apply wp_ret, HQ. exact Ex. Qed.

Lemma wp_aset {S A} (l : list A) i y Q (s : S) :
  0 <= i < Z.of_nat (length l) -> (forall l', aset l i y = Some l' -> Q l' s) ->
  wp F (or_oob (aset l i y)) Q s.
Proof.
  intros Hi HQ. destruct (aset l i y) as [l'|] eqn:El; [apply wp_ret, HQ; reflexivity|].
  rewrite aset_Some in El by exact Hi. discriminate.
Qed.

Lemma follows_act r a : follows r (act a r).
Proof. split; [split; reflexivity|]. exists [a]. reflexivity. Qed.

Lemma stays_same s s' :
  collected_all_parts s' = collected_all_parts s ->
  complete_pre_prepare s' = complete_pre_prepare s ->
  (prepare_certificate_ready s = true -> prepare_certificate_ready s' = true) ->
  (populated_eligible s = true -> populated_eligible s' = true) ->
  (ordered s = true -> ordered s' = true) -> stays s s'.
Proof. intros E1 E2 E3 E4 E5 H1. rewrite E1, E2. repeat split; auto. Qed.

Lemma stays_uncollected s s' : collected_all_parts s = false -> stays s s'.
Proof. intros E1 E2. congruence. Qed.

(** The commonest change of a slot. *)
Ltac slot_kept := intros []; split; auto.
Ltac slot_stays := apply stays_same; auto.

(** Creating a slot. *)
Lemma wp_Get_ORD_Slot r seq Q :
  inv r -> 0 < seq < two32 -> ~ gone r seq ->
  (forall s r', inv r' -> History r' !! seq = Some s -> follows r r' ->
     (r' = r \/ r' = set_slot seq (new_ord_slot seq) r) -> Q s r') ->
  wp F (UTIL_Get_ORD_Slot seq) Q r.
Proof.
  intros Hi Hseq Hg HQ. unfold UTIL_Get_ORD_Slot, wp, bind, get.
  destruct (History r !! seq) as [s|] eqn:Es.
  - apply (HQ s r); auto using follows_refl.
  - apply (HQ (new_ord_slot seq) (set_slot seq (new_ord_slot seq) r)).
    + apply inv_new_slot; assumption.
    + apply lookup_set_slot.
    + apply follows_silent; [split|]; reflexivity.
    + right. reflexivity.
Qed.

Lemma wp_Get_existing r seq s Q :
  History r !! seq = Some s -> Q s r -> wp F (UTIL_Get_ORD_Slot seq) Q r.
Proof. intros Es HQ. unfold UTIL_Get_ORD_Slot, wp, bind, get. rewrite Es. exact HQ. Qed.

Lemma wp_If_Exists r seq Q : Q (History r !! seq) r -> wp F (UTIL_Get_ORD_Slot_If_Exists seq) Q r.
Proof. exact (fun H => H). Qed.

(** The slot after a line in 32 bits is above it: there is no slot 0. *)
Lemma next_above r n seq s :
  inv r -> is_u32 n -> seq = wrap32 (n + 1) -> History r !! seq = Some s -> n < seq < two32.
Proof.
  intros Hi Hn Es Hs. destruct (i_keys Hi seq s Hs) as [Hk _]. unfold is_u32 in Hn.
  destruct (Z.eq_dec (n + 1) two32) as [Ew|Hw].
  - rewrite Ew in Es. unfold wrap32 in Es. rewrite Z.mod_same in Es by (unfold two32; lia). lia.
  - rewrite wrap32_small in Es by lia. lia.
Qed.

(** ** Flooding *)
Definition only_line r r' : Prop :=
  inv r' /\ same_view r r' /\ actions r' = actions r /\ History r' = History r.

Lemma wp_raise_white_line fuel : forall r,
  inv r -> (above r (forwarding_white_line r) < fuel)%nat ->
  wp F (raise_white_line fuel) (fun _ => only_line r) r.
Proof.
  induction fuel as [|fuel IH]; intros r Hi Hf; [lia|].
  assert (Hdone : wp F (ret tt) (fun _ => only_line r) r)
    by (apply wp_ret; split; [exact Hi|]; split; [split; reflexivity|]; split; reflexivity).
  cbn [raise_white_line]. apply wp_bind, wp_get. set (seq := wrap32 _).
  destruct (History r !! seq) as [s|] eqn:Es; [|exact Hdone].
  destruct (_ && _); [|exact Hdone].
  pose proof (next_above r _ seq s Hi (i_forwarding Hi) eq_refl Es) as Hn.
  set (r' := set_forwarding_white_line seq r).
  assert (Hi' : inv r').
  { apply (inv_modify VAR EvPP EvP EvC r); try reflexivity; try apply Hi; [split; reflexivity|].
    cbn. lia. }
  apply wp_bind, wp_put. eapply wp_conseq; [apply (IH r' Hi')|].
  - pose proof (above_lower r r' _ seq eq_refl (ex_intro _ s Es) (proj1 Hn)) as Ha.
    change (forwarding_white_line r') with seq. lia.
  - intros _ t (H1 & H2 & H3 & H4). split; [exact H1|]. split; [exact H2|]. split; assumption.
Qed.

Lemma wp_Update_Forwarding r : inv r -> wp F ORDER_Update_Forwarding_White_Line (fun _ => only_line r) r.
Proof.
  intros Hi. apply wp_bind, wp_get, wp_raise_white_line; [exact Hi|].
  pose proof (above_all r (forwarding_white_line r)). lia.
Qed.

(** Flooding a stored part marks it forwarded in its slot. *)
Definition flooded (s s' : ord_slot) : Prop :=
  exists fs n, s' = mark_forwarded fs n s.

Lemma wp_Flood r mess s :
  inv r -> History r !! pp_seq_num mess = Some s -> pp_part_num mess = 1 ->
  aget (pre_prepare_parts s) 1 = Some true ->
  wp F (ORDER_Flood_Pre_Prepare VAR mess)
    (fun _ r' => inv r' /\ follows r r' /\
       exists s', History r' !! pp_seq_num mess = Some s' /\ flooded s s') r.
Proof.
  intros Hi Es Hp Hpart. set (seq := pp_seq_num mess) in *.
  destruct (i_keys Hi _ _ Es) as [Hk Hok].
  unfold ORDER_Flood_Pre_Prepare. fold seq.
  apply wp_bind, (wp_Get_existing _ _ s); [exact Es|].
  apply wp_bind, wp_get, wp_bind.
  assert (Hmid : forall r1, inv r1 -> follows r r1 -> History r1 = History r ->
    wp F (slot <- the_slot seq ;;
          fs <- or_oob (aset (forwarded_pre_prepare_parts slot) (pp_part_num mess) true) ;;
          let n := num_forwarded_parts slot + 1 in
          upd seq (mark_forwarded fs n) ;;;
          if n =? total_parts slot then ORDER_Update_Forwarding_White_Line else ret tt)
      (fun _ r' => inv r' /\ follows r r' /\
         exists s', History r' !! seq = Some s' /\ flooded s s') r1).
  { intros r1 Hi1 Hf1 EH. rewrite <- EH in Es.
    apply wp_bind, (wp_the_slot _ _ s); [exact Es|]. rewrite Hp.
    apply wp_bind, wp_aset; [rewrite (so_fwds Hok); vm_compute; split; [discriminate|reflexivity]|].
    intros fs Efs. apply wp_bind, (wp_upd _ _ s); [exact Es|]. set (r2 := set_slot _ _ r1).
    assert (Hi2 : inv r2).
    { apply (inv_set_slot VAR EvPP EvP EvC r1 seq s); [exact Hi1|exact Es| |slot_stays].
      intros []. split; auto; cbn.
      - rewrite (aset_length _ _ _ _ Efs). assumption.
      - intros Ef. congruence. }
    assert (Hf2 : follows r r2) by (eapply follows_trans; [exact Hf1|apply follows_silent; [split|]; reflexivity]).
    destruct (_ =? _).
    - eapply wp_conseq; [apply wp_Update_Forwarding; exact Hi2|].
      intros _ t (H1 & H2 & H3 & H4). split; [exact H1|]. split.
      + eapply follows_trans; [exact Hf2|]. apply follows_silent; assumption.
      + eexists. split; [rewrite H4; apply lookup_set_slot|]. do 2 eexists. reflexivity.
    - apply wp_ret. split; [exact Hi2|]. split; [exact Hf2|].
      eexists. split; [apply lookup_set_slot|]. do 2 eexists. reflexivity. }
  destruct (UTIL_I_Am_Leader _ _).
  - apply wp_ret. apply Hmid; [exact Hi|apply follows_refl|reflexivity].
  - apply wp_modify. apply Hmid; [|apply follows_act|reflexivity].
    apply inv_act; [exact Hi|exact I].
Qed.

(** ** Applying PO-ARUs *)
Lemma keeps_refl erase r : keeps erase r r.
Proof.
  split; auto; try (split; [lia|auto]); try (split; reflexivity); try lia.
  - apply no_actions. reflexivity.
  - intros seq s Es. left. exists s. split; [exact Es|]. repeat split.
Qed.

Lemma same_ballot_trans s1 s2 s3 : same_ballot s1 s2 -> same_ballot s2 s3 -> same_ballot s1 s3.
Proof. unfold same_ballot. intros H1 H2. decompose [and] H1. decompose [and] H2. repeat split; congruence. Qed.

Lemma keeps_trans erase r1 r2 r3 : keeps erase r1 r2 -> keeps erase r2 r3 -> keeps erase r1 r3.
Proof.
  intros [V1 D1 A1 (l1 & L1 & N1) [R1 R1'] Z1 [F1 F1'] T1 G1 P1 X1 [W1 W1'] S1 O1] K2.
  pose proof K2 as [V2 D2 A2 (l2 & L2 & N2) [R2 R2'] Z2 [F2 F2'] T2 G2 P2 X2 [W2 W2'] S2 O2].
  split; auto; try lia; try congruence.
  - destruct V1, V2. split; congruence.
  - exists (l1 ++ l2). rewrite L2, L1, app_assoc. split; [reflexivity|].
    apply Forall_app. split; assumption.
  - destruct Z1 as [He|Z1]; [left; exact He|]. destruct Z2 as [He|Z2]; [left; exact He|]. right. congruence.
  - split; [lia|auto].
  - split; [lia|auto].
  - intros seq s Es. destruct (S1 seq s Es) as [(s' & Es' & B1)|[He Hg]].
    + destruct (S2 seq s' Es') as [(s'' & Es'' & B2)|[He Hg]]; [left|right; auto].
      exists s''. split; [exact Es''|]. eapply same_ballot_trans; eassumption.
    + right. split; [exact He|]. eapply gone_keeps; eassumption.
Qed.

Lemma keeps_slot r r' seq s :
  keeps False r r' -> History r !! seq = Some s -> exists s', History r' !! seq = Some s' /\ same_ballot s s'.
Proof. intros K Es. destruct (k_slot _ _ _ K seq s Es) as [H|[[] _]]. exact H. Qed.

Lemma keeps_dom r r' : keeps False r r' -> (dom (History r') : gset Z) = dom (History r).
Proof.
  intros K. apply leibniz_equiv. intros k. rewrite !elem_of_dom. split.
  - intros [s' Es']. destruct (History r !! k) as [s|] eqn:Ek; [eauto|].
    rewrite (k_none _ _ _ K k Ek) in Es'. discriminate.
  - intros [s Es]. destruct (keeps_slot _ _ _ _ K Es) as (s' & Es' & _). eauto.
Qed.

Lemma wp_row cum_acks i r Q :
  Z.of_nat (length cum_acks) = matrix_bytes -> 1 <= i <= NUM_SERVERS -> (forall m, Q m r) ->
  wp F (row cum_acks i) Q r.
Proof.
  intros Hl Hi HQ. unfold row, load_bytes, matrix_bytes in *.
  change NUM_SERVERS with 6 in *. change sz_po_aru_signed_message with 208 in *.
  destruct (slice_defined cum_acks ((i - 1) * 208) 208) as [bs Eb]; [lia..|].
  rewrite Eb. apply wp_ret, HQ.
Qed.

Lemma wp_apply_rows cum_acks rows : forall r,
  Z.of_nat (length cum_acks) = matrix_bytes -> (forall i, i ∈ rows -> 1 <= i <= NUM_SERVERS) -> inv r ->
  wp F (apply_rows VAR cum_acks rows) (fun _ => keeps False r) r.
Proof.
  induction rows as [|i rows IH]; intros r Hl Hr Hi; cbn [apply_rows].
  - apply wp_ret, keeps_refl.
  - apply wp_bind, wp_row; [exact Hl|apply Hr; left|]. intros m.
    apply wp_bind. eapply wp_conseq; [apply PO_ARU_keeps, HVAR|]. intros [] r1 K1.
    eapply wp_conseq; [apply (IH r1 Hl)|].
    + intros j Hj. apply Hr. right. exact Hj.
    + exact (inv_keeps _ _ _ _ _ _ _ Hi K1).
    + intros [] r2 K2. eapply keeps_trans; eassumption.
Qed.

Lemma wp_incarnation_of_row cum_acks i r Q :
  Z.of_nat (length cum_acks) = matrix_bytes -> 1 <= i <= NUM_SERVERS -> (forall v, Q v r) ->
  wp F (incarnation_of_row cum_acks i) Q r.
Proof.
  intros Hl Hi HQ. unfold incarnation_of_row, matrix_bytes in *. apply wp_weaken.
  revert Hl Hi. change NUM_SERVERS with 6. change sz_po_aru_signed_message with 208.
  change (o_po_aru_signed_message_header) with 0. intros Hl Hi.
  assert (Ho : 0 <= o_signed_message_incarnation <= 200) by (vm_compute; split; discriminate).
  apply wp_load_in; [lia..|]. intros v _. apply HQ.
Qed.

Lemma wp_apply_installed cum_acks rows : forall r,
  Z.of_nat (length cum_acks) = matrix_bytes -> (forall i, i ∈ rows -> 1 <= i <= NUM_SERVERS) -> inv r ->
  wp F (apply_installed VAR cum_acks rows) (fun _ => keeps False r) r.
Proof.
  induction rows as [|i rows IH]; intros r Hl Hr Hi; cbn [apply_installed].
  - apply wp_ret, keeps_refl.
  - assert (Hb : 1 <= i <= NUM_SERVERS) by (apply Hr; left).
    apply wp_bind, wp_get, wp_bind, wp_aget.
    { rewrite (proj1 (i_arrays Hi)). unfold NUM_SERVER_SLOTS. lia. }
    intros mine _. apply wp_bind, wp_incarnation_of_row; [exact Hl|exact Hb|]. intros inc.
    destruct (mine <? inc); [apply wp_ret, keeps_refl|].
    apply wp_bind, wp_row; [exact Hl|exact Hb|]. intros m.
    apply wp_bind. eapply wp_conseq; [apply PO_ARU_keeps, HVAR|]. intros [] r1 K1.
    eapply wp_conseq; [apply (IH r1 Hl)|].
    + intros j Hj. apply Hr. right. exact Hj.
    + exact (inv_keeps _ _ _ _ _ _ _ Hi K1).
    + intros b r2 K2. eapply keeps_trans; eassumption.
Qed.

(** ** Certificates *)
Lemma collected_parts r seq s :
  slot_ok_in r seq s -> collected_all_parts s = true -> num_parts_collected s <> 0.
Proof. intros Hok Hc Hn. destruct (so_fresh Hok Hn) as [Hf _]. congruence. Qed.

Lemma from_leader_seq seq s : from_leader EvPP seq s -> c_seq_num (complete_pre_prepare s) = seq.
Proof. intros (m & _ & _ & _ & <- & ->). reflexivity. Qed.

Lemma collected_seq r seq s :
  slot_ok_in r seq s -> collected_all_parts s = true -> c_seq_num (complete_pre_prepare s) = seq.
Proof.
  intros Hok Hc. apply from_leader_seq. apply (so_first Hok). exact (collected_parts r seq s Hok Hc).
Qed.

Lemma Prepare_Ready_spec s :
  ORDER_Prepare_Certificate_Ready s = true ->
  collected_all_parts s = true /\
  PREPARES <= Z.of_nat (length (matching ORDER_Prepare_Matches_Pre_Prepare (prepare s) (complete_pre_prepare s))).
Proof.
  unfold ORDER_Prepare_Certificate_Ready. destruct (collected_all_parts s); [|discriminate].
  cbn [negb]. rewrite Z.leb_le. auto.
Qed.

Lemma Commit_Ready_spec s :
  ORDER_Commit_Certificate_Ready s = true ->
  collected_all_parts s = true /\
  COMMITS <= Z.of_nat (length (matching ORDER_Commit_Matches_Pre_Prepare (commit s) (complete_pre_prepare s))).
Proof.
  unfold ORDER_Commit_Certificate_Ready. destruct (collected_all_parts s); [|discriminate].
  cbn [negb]. rewrite Z.leb_le. auto.
Qed.

(** Post-condition of what leaves the slot in place. *)
Definition leaves (seq : Z) (P : ord_slot -> Prop) r r' : Prop :=
  inv r' /\ follows r r' /\ exists s', History r' !! seq = Some s' /\ P s'.

Lemma leaves_set r r1 seq s s' (P : ord_slot -> Prop) :
  inv r1 -> follows r r1 -> History r1 !! seq = Some s ->
  (slot_ok_in r1 seq s -> slot_ok_in r1 seq s') -> stays s s' -> P s' ->
  leaves seq P r (set_slot seq s' r1).
Proof.
  intros Hi Hf Es Hok Hfr HP. split; [eapply inv_set_slot; eassumption|]. split.
  - eapply follows_trans; [exact Hf|]. apply follows_silent; [split|]; reflexivity.
  - exists s'. split; [apply lookup_set_slot|exact HP].
Qed.

Lemma wp_prepare_certificate_complete r seq s :
  inv r -> History r !! seq = Some s -> prepare_certificate_ready s = false ->
  ORDER_Prepare_Certificate_Ready s = true ->
  wp F (prepare_certificate_complete VAR seq)
    (fun _ => leaves seq (fun s' => collected_all_parts s' = true) r) r.
Proof.
  intros Hi Es Hp Hr. destruct (Prepare_Ready_spec s Hr) as [Hc Hcount].
  destruct (i_keys Hi _ _ Es) as [_ Hok].
  pose proof (no_commit_yet _ _ _ _ r seq s Hi Es Hp) as Hnew.
  unfold prepare_certificate_complete, ORDER_Move_Prepare_Certificate.
  apply wp_bind, wp_bind, (wp_the_slot _ _ s); [exact Es|].
  apply wp_bind, (wp_upd _ _ s); [exact Es|].
  set (s1 := with_prepare_certificate _ _ s). set (r1 := set_slot seq s1 r).
  assert (Hi1 : inv r1).
  { apply (inv_set_slot VAR EvPP EvP EvC r seq s); [exact Hi|exact Es|slot_kept|slot_stays]. }
  assert (Es1 : History r1 !! seq = Some s1) by apply lookup_set_slot.
  apply wp_modify. set (r2 := if _ <? _ then _ else _).
  assert (H2 : inv r2 /\ follows r r2 /\ History r2 = History r1 /\ actions r2 = actions r).
  { unfold r2. destruct (_ <? _).
    - split; [|split; [apply follows_silent; [split|]; reflexivity|split; reflexivity]].
      apply (inv_modify VAR EvPP EvP EvC r1); try reflexivity; try apply Hi1; [split; reflexivity|].
      pose proof (i_forwarding Hi1) as H. unfold is_u32 in H. cbn in *. lia.
    - split; [exact Hi1|]. split; [apply follows_silent; [split|]; reflexivity|split; reflexivity]. }
  clearbody r2. destruct H2 as (Hi2 & Hf2 & EH & EA).
  assert (Es2 : History r2 !! seq = Some s1) by (rewrite EH; exact Es1).
  apply wp_bind, wp_get. destruct (view_change_done r2) eqn:Ed.
  - destruct (i_keys Hi2 _ _ Es2) as [_ Hok2].
    apply wp_bind, (wp_the_slot _ _ s1); [exact Es2|].
    apply wp_bind, wp_put. set (v := ORDER_Construct_Commit _ _ _).
    assert (Ev : v_seq_num v = seq) by exact (collected_seq r seq s Hok Hc).
    assert (Hi3 : inv (act (Send_Commit v) r2)).
    { apply (inv_act_commit VAR EvPP EvP EvC r2 v s1); [exact Hi2|reflexivity| | | | |].
      - intros u Hu. rewrite Ev. apply Hnew. rewrite <- EA. exact Hu.
      - rewrite Ev. exact Es2.
      - repeat split; auto.
      - apply (so_view Hok2); [unfold current; rewrite Ed; reflexivity|].
        exact (collected_parts r2 seq s1 Hok2 Hc).
      - destruct (counted_votes _ _ (prepare s) (complete_pre_prepare s) seq
                    (fun u => Prepare_Matches_spec ok u _) (so_prepare Hok)) as (Q & HQ & Hsize & HV).
        exists Q. split; [exact HQ|]. split; [rewrite Hsize; exact Hcount|]. rewrite Ev. exact HV. }
    apply (wp_upd _ _ s1); [exact Es2|].
    apply (leaves_set r _ seq s1); [exact Hi3| |exact Es2|slot_kept|slot_stays|exact Hc].
    eapply follows_trans; [exact Hf2|apply follows_act].
  - apply wp_ret. split; [exact Hi2|]. split; [exact Hf2|]. exists s1. split; [exact Es2|exact Hc].
Qed.

(** ** Sending Prepares *)
(** What the vector is computed from is as long as the matrix and as the servers. *)
Definition sized (c : complete_pre_prepare_message) : Prop :=
  Z.of_nat (length (c_last_executed c)) = NUM_SERVERS /\ Z.of_nat (length (c_cum_acks c)) = matrix_bytes.

Lemma complete_sized c : complete_ok c -> sized c.
Proof. intros []. split; assumption. Qed.

Lemma wp_eligible r (pp : complete_pre_prepare_message) Q :
  sized pp -> (forall v, eligible_for VAR pp = Some v -> Q v r) ->
  wp F (compute_eligible VAR (c_cum_acks pp) (c_last_executed pp)) Q r.
Proof.
  intros [Hlast Hmat] HQ. apply wp_weaken.
  assert (H : wp no_fault (compute_eligible VAR (c_cum_acks pp) (c_last_executed pp)) (fun _ t => t = r) r).
  { eapply wp_conseq; [apply wp_compute_eligible|].
    - rewrite Hmat. unfold matrix_size, matrix_bytes. lia.
    - exact Hlast.
    - exact HVAR.
    - intros v t [-> _]. reflexivity. }
  destruct (wp_run _ _ _ H) as (v & t & Ev & _). unfold wp. rewrite Ev.
  destruct (run_compute_eligible _ _ _ _ _ _ Ev) as [-> Hv]. apply HQ, Hv.
Qed.

Lemma eligible_for_length c v :
  sized c -> eligible_for VAR c = Some v -> Z.of_nat (length v) = NUM_SERVERS.
Proof.
  intros [Hlast Hmat] Hv. unfold eligible_for, eligible_vector in Hv.
  pose proof (wp_compute_eligible (S := unit) VAR (c_cum_acks c) (c_last_executed c) tt) as H.
  unfold wp in H. destruct (compute_eligible _ _ _ tt) as [[u []]|]; [|discriminate].
  injection Hv as ->. destruct H as [_ H]; [|exact Hlast|exact HVAR|].
  - rewrite Hmat. unfold matrix_size, matrix_bytes. lia.
  - rewrite <- (Forall2_length _ _ _ H), length_seqZ. reflexivity.
Qed.

(** The vector is never below the one it starts from, and of 32-bit numbers. *)
Lemma eligible_for_ge c v :
  sized c -> Forall pair_ok (c_last_executed c) -> eligible_for VAR c = Some v ->
  Forall2 (fun p e => ps_le p e /\ is_u32 (seq_num p) /\ seq_num e < two32) (c_last_executed c) v.
Proof.
  intros Hsz Hpairs Hv. pose proof (eligible_for_length c v Hsz Hv) as Hlv. destruct Hsz as [Hlast Hmat].
  unfold eligible_for, eligible_vector in Hv.
  pose proof (wp_compute_eligible (S := unit) VAR (c_cum_acks c) (c_last_executed c) tt) as H.
  unfold wp in H. destruct (compute_eligible _ _ _ tt) as [[u []]|]; [|discriminate].
  injection Hv as ->. destruct H as [_ H]; [rewrite Hmat; unfold matrix_size, matrix_bytes; lia|exact Hlast|exact HVAR|].
  apply Forall2_same_length_lookup. split; [lia|]. intros i p e Hp He.
  destruct (Forall2_lookup_r _ _ _ i e H He) as (i' & Ei & last & Hl & Hcase).
  apply lookup_seqZ in Ei as [-> _]. rewrite Z.add_0_l, (aget_lookup _ _ _ Hp) in Hl. injection Hl as <-.
  pose proof (proj1 (Forall_lookup _ _) Hpairs i p Hp) as [_ Hu].
  destruct Hcase as [->|(Hlt & [->|(ks & _ & Hks & Hb)])]; [split; [left; reflexivity|]| |].
  - split; [exact Hu|apply Hu].
  - split; [right; exact Hlt|]. split; [exact Hu|reflexivity].
  - split; [right; exact Hlt|]. split; [exact Hu|]. destruct ks as [|k ks]; [cbn in Hks; lia|].
    destruct (Hb k ltac:(left)) as (_ & a & [_ Ha] & _ & Hle).
    apply word_at_bounds in Ha. change (256 ^ 4) with two32 in Ha. lia.
Qed.

Lemma wp_assert c r Q : (c = true -> Q tt r) -> wp F (assert_ c) Q r.
Proof. intros HQ. unfold assert_. destruct c; [apply HQ; reflexivity|exact HF]. Qed.

(** The Pre-Prepare continues from the last prepared slot, or is the first. *)
Definition continues_from r (pp : complete_pre_prepare_message) : Prop :=
  ppARU r = 0 /\ c_last_executed pp = zero_pairs \/
  exists prev, History r !! ppARU r = Some prev /\ made_eligible prev = c_last_executed pp.

Lemma zero_pairs_of (l : list po_seq_pair) n :
  forallb (fun p => PRE_ORDER_Seq_Compare p (mkPS 0 0) =? 0) l = true -> length l = n ->
  l = repeat (mkPS 0 0) n.
Proof.
  revert n. induction l as [|p l IH]; intros n H <-; [reflexivity|]. cbn in H.
  apply andb_true_iff in H as [Hp H]. cbn [length repeat]. f_equal; [|apply (IH (length l)); auto].
  destruct (Seq_Compare_cases p (mkPS 0 0)) as [[E1 _]|[[_ E1]|[E1 _]]]; [|exact E1|];
    rewrite E1 in Hp; discriminate.
Qed.

Lemma wp_continues r pp Q :
  complete_ok pp -> (forall b, (b = true -> continues_from r pp) -> Q b r) -> wp F (continues r pp) Q r.
Proof.
  intros Hc HQ. unfold continues. destruct (History r !! ppARU r) as [prev|] eqn:Ep.
  - apply wp_ret, HQ. intros H. apply bool_decide_eq_true in H. right. exists prev. auto.
  - apply wp_bind, wp_assert. intros Hz. apply wp_ret, HQ. intros H. left.
    apply Z.eqb_eq in Hz. split; [exact Hz|]. apply zero_pairs_of; [exact H|].
    pose proof (co_last _ Hc). unfold NUM_SERVERS in *. lia.
Qed.

(** The same slots, the invariant, nothing unsent. *)
Definition goes_on r r' : Prop :=
  inv r' /\ follows r r' /\ (dom (History r') : gset Z) = dom (History r) /\ evolves r r' /\ ARU r' = ARU r.

Lemma goes_on_of r r' :
  inv r' -> (dom (History r') : gset Z) = dom (History r) -> ARU r' = ARU r -> evolves r r' -> goes_on r r'.
Proof. intros Hi Hd HA Hv. split; [exact Hi|]. split; [apply Hv|]. split; [exact Hd|]. split; assumption. Qed.

Lemma evolves_refl r : evolves r r.
Proof.
  split; [apply follows_refl| |auto]. intros seq s Es. left. exists s. split; [exact Es|apply stays_refl].
Qed.

Lemma stays_trans s1 s2 s3 : stays s1 s2 -> stays s2 s3 -> stays s1 s3.
Proof.
  intros H1 H2 H. destruct (H1 H) as (A1 & A2 & A3 & A4 & A5). destruct (H2 A1) as (B1 & B2 & B3 & B4 & B5).
  split; [exact B1|]. split; [congruence|]. auto.
Qed.

Lemma evolves_trans r1 r2 r3 : evolves r1 r2 -> evolves r2 r3 -> evolves r1 r3.
Proof.
  intros [F1 S1 G1] [F2 S2 G2]. split; [eapply follows_trans; eassumption| |auto].
  intros seq s Es. destruct (S1 seq s Es) as [(s' & Es' & H1)|Hg]; [|right; auto].
  destruct (S2 seq s' Es') as [(s'' & Es'' & H2)|Hg]; [left|right; exact Hg].
  exists s''. split; [exact Es''|eapply stays_trans; eassumption].
Qed.

Lemma goes_on_refl r : inv r -> goes_on r r.
Proof. intros Hi. apply goes_on_of; [exact Hi|reflexivity|reflexivity|apply evolves_refl]. Qed.

Lemma goes_on_trans r1 r2 r3 : goes_on r1 r2 -> goes_on r2 r3 -> goes_on r1 r3.
Proof.
  intros (I1 & F1 & D1 & V1 & A1) (I2 & F2 & D2 & V2 & A2).
  apply goes_on_of; [exact I2|congruence|congruence|eapply evolves_trans; eassumption].
Qed.

Lemma goes_on_keeps r r' : inv r -> keeps False r r' -> goes_on r r'.
Proof.
  intros Hi K. apply goes_on_of; [eapply inv_keeps; eassumption|apply keeps_dom; exact K| |].
  { destruct (k_still _ _ _ K) as [[]|HA]. exact HA. }
  eapply keeps_evolves; exact K.
Qed.

Lemma goes_on_set r seq s s' :
  inv r -> History r !! seq = Some s -> (slot_ok_in r seq s -> slot_ok_in r seq s') -> stays s s' ->
  goes_on r (set_slot seq s' r).
Proof.
  intros Hi Es Hok Hst. apply goes_on_of.
  - eapply inv_set_slot; eassumption.
  - cbn. apply dom_insert_lookup_L. eauto.
  - reflexivity.
  - eapply evolves_set_slot; eassumption.
Qed.

(** A change of the state beside the history and the protocol's messages. *)
Lemma goes_on_modify r r' :
  inv r -> History r' = History r ->
  (exists l, actions r' = actions r ++ l /\ Forall silent l) ->
  same_view r r' -> proposal_digest r' = proposal_digest r -> arrays_ok r' -> ARU r' = ARU r ->
  recon_white_line r' = recon_white_line r -> forwarding_white_line r' = forwarding_white_line r ->
  stable_catchup r' = stable_catchup r -> Pending_Execution r' = Pending_Execution r ->
  next_seq r' = next_seq r -> ppARU r' = ppARU r -> goes_on r r'.
Proof.
  intros Hi EH El Hv Ed Ha EA Er Ef Est EP En Ep. apply goes_on_of.
  - apply (inv_rest VAR EvPP EvP EvC r); auto. rewrite Ef.
    pose proof (i_forwarding Hi) as H. unfold is_u32 in H. lia.
  - rewrite EH. reflexivity.
  - exact EA.
  - apply evolves_history; auto; [|lia]. split; [exact Hv|]. destruct El as (l & El & _). eauto.
Qed.

Lemma goes_on_skip r n :
  inv r -> is_u32 n -> ppARU r <= n ->
  view_change_done r = false \/ UTIL_I_Am_Leader VAR (View r) = true -> goes_on r (set_ppARU n r).
Proof.
  intros Hi Hn Hle Hs. apply goes_on_of; [apply inv_set_ppARU; assumption|reflexivity|reflexivity|].
  apply evolves_history; auto; [|apply Z.le_refl]. apply follows_silent; [split|]; reflexivity.
Qed.

Lemma collected_of_leader r seq s :
  slot_ok_in r seq s -> collected_all_parts s = true -> of_leader EvPP (complete_pre_prepare s).
Proof.
  intros Hok Hc. destruct (so_first Hok (collected_parts r seq s Hok Hc)) as [_ (m & _ & Hm & Hl & _ & Hcm)].
  exists m. auto.
Qed.

(** A Prepare for a slot that continues from the last one is chained to it. *)
Lemma chained_here r seq s v :
  inv r -> History r !! seq = Some s -> collected_all_parts s = true -> seq = ppARU r + 1 ->
  view_change_done r = true -> UTIL_I_Am_Leader VAR (View r) = false ->
  continues_from r (complete_pre_prepare s) ->
  v_seq_num v = seq -> v_view v = c_view (complete_pre_prepare s) ->
  v_digest v = complete_digest (complete_pre_prepare s) -> chained_in r v.
Proof.
  intros Hi Es Hc Hseq HD HL Hcont Ev Evw Evd. destruct (i_keys Hi _ _ Es) as [Hk Hok].
  exists (complete_pre_prepare s). split; [exact (so_complete Hok)|].
  split; [rewrite Ev; exact (collected_seq r seq s Hok Hc)|]. split; [auto|]. split; [auto|].
  split; [exact (collected_of_leader r seq s Hok Hc)|].
  assert (Hppz : ppARU r = 0 -> v_seq_num v = 1) by lia.
  destruct Hcont as [[Hz Hlast]|(prev & Ep & Hlast)]; [left; auto|right].
  destruct (i_keys Hi _ _ Ep) as [Hkp Hokp].
  destruct (p_last (i_prepares Hi) HD HL ltac:(lia)) as (v' & Hin & Hs').
  destruct (p_backed (i_prepares Hi) v' Hin) as [(s' & Es' & Hc' & Hpop & Hd')|(Hn & _)];
    rewrite Hs' in *; [|congruence].
  replace s' with prev in * by congruence.
  exists v', (complete_pre_prepare prev). split; [exact Hin|]. split; [lia|].
  split; [exact (so_complete Hokp)|]. split; [auto|].
  split; [exact (collected_of_leader r _ prev Hokp Hc')|].
  destruct (so_eligible Hokp Hpop) as (c & Hec & Hcn & _).
  rewrite <- (Hcn (collected_parts r _ prev Hokp Hc')). rewrite Hec. congruence.
Qed.

Definition sent_post (seq : Z) r (b : bool) r' : Prop :=
  goes_on r r' /\ (b = true -> ppARU r' = seq).

(** Sending the Prepare, unless this is the leader, and moving the line. *)
Lemma wp_send_tail r seq s :
  inv r -> History r !! seq = Some s -> collected_all_parts s = true ->
  populated_eligible s = true -> seq = ppARU r + 1 -> view_change_done r = true ->
  (forall v, v_seq_num v = seq -> v_view v = c_view (complete_pre_prepare s) ->
     v_digest v = complete_digest (complete_pre_prepare s) ->
     UTIL_I_Am_Leader VAR (View r) = false -> chained_in r v) ->
  wp F (r <- get ;;
        (if UTIL_I_Am_Leader VAR (View r) then ret tt
         else put (act (Send_Prepare (ORDER_Construct_Prepare VAR r (complete_pre_prepare s))) r)) ;;;
        upd seq mark_sent_prepare ;;;
        modify (set_ppARU seq) ;;;
        RECON_Do_Recon VAR seq ;;;
        ret true) (sent_post seq r) r.
Proof.
  intros Hi Es Hc Hpop Hseq HD Hch. destruct (i_keys Hi _ _ Es) as [Hk Hok].
  apply wp_bind, wp_get, wp_bind.
  assert (Hlast : forall r4 r6, History r4 !! seq = Some s ->
    set_ppARU seq (set_slot seq (mark_sent_prepare s) r4) = r6 -> goes_on r r6 ->
    wp F (upd seq mark_sent_prepare ;;; modify (set_ppARU seq) ;;; RECON_Do_Recon VAR seq ;;; ret true)
      (sent_post seq r) r4).
  { intros r4 r6 Es4 E6 G6. apply wp_bind, (wp_upd _ _ s); [exact Es4|]. apply wp_bind, wp_modify.
    rewrite E6. apply wp_bind. eapply wp_conseq; [apply Recon_keeps|].
    - rewrite <- E6. exists (mark_sent_prepare s). apply lookup_set_slot.
    - intros n t Et. apply (i_keys (proj1 G6) n t Et).
    - exact (i_recon (proj1 G6)).
    - intros [] r7 K7. apply wp_ret. split.
      + eapply goes_on_trans; [exact G6|]. apply goes_on_keeps; [apply G6|exact K7].
      + intros _. rewrite (k_ppARU _ _ _ K7), <- E6. reflexivity. }
  set (r5 := set_slot seq (mark_sent_prepare s) r).
  assert (G5 : goes_on r r5) by (apply (goes_on_set _ _ s); [exact Hi|exact Es|slot_kept|slot_stays]).
  destruct (UTIL_I_Am_Leader VAR (View r)) eqn:HL.
  - apply wp_ret. eapply Hlast; [exact Es|reflexivity|]. eapply goes_on_trans; [exact G5|].
    apply goes_on_skip; [apply G5|unfold is_u32; lia|change (ppARU r <= seq); lia|right; exact HL].
  - apply wp_put. set (v := ORDER_Construct_Prepare _ _ _). eapply Hlast; [exact Es|reflexivity|].
    assert (Hview : v_view v = View r).
    { apply (so_view Hok); [unfold current; rewrite HD; reflexivity|].
      exact (collected_parts r seq s Hok Hc). }
    apply goes_on_of.
    + apply inv_act_prepare; try assumption; try lia; try reflexivity.
      * exact (collected_seq r seq s Hok Hc).
      * repeat split; assumption.
      * apply Hch; try reflexivity. exact (collected_seq r seq s Hok Hc).
    + cbn. apply dom_insert_lookup_L. eauto.
    + reflexivity.
    + eapply evolves_trans; [apply (evolves_act r (Send_Prepare v))|].
      destruct (evolves_set_slot (act (Send_Prepare v) r) seq s (mark_sent_prepare s) Es) as [A B C];
        [slot_stays|]. split; [exact A|exact B|exact C].
Qed.

Lemma wp_send_prepare r seq s :
  inv r -> History r !! seq = Some s -> collected_all_parts s = true -> seq = ppARU r + 1 ->
  wp F (send_prepare VAR seq) (sent_post seq r) r.
Proof.
  intros Hi Es Hc Hseq. destruct (i_keys Hi _ _ Es) as [Hk Hok].
  unfold send_prepare. apply wp_bind, (wp_the_slot _ _ s); [exact Es|]. apply wp_bind, wp_get.
  rewrite (so_type Hok), Z.eqb_refl. cbn [negb orb].
  destruct (view_change_done r) eqn:HD; cbn [negb].
  2:{ apply wp_bind, wp_modify, wp_ret. split; [|reflexivity].
      apply goes_on_skip; [exact Hi|unfold is_u32; lia|lia|left; exact HD]. }
  apply wp_bind. eapply wp_conseq;
    [apply wp_apply_installed; [exact (co_matrix _ (so_complete Hok))| |exact Hi]|].
  { intros i Hin. apply elem_of_seqZ in Hin. lia. }
  intros b r1 K1. cbv beta in K1.
  destruct b; cbn [negb]; [|apply wp_ret; split; [apply goes_on_keeps; assumption|discriminate]].
  pose proof (goes_on_keeps _ _ Hi K1) as G1.
  destruct (keeps_slot _ _ _ _ K1 Es) as (s1 & Es1 & Hb1).
  assert (Hc1 : collected_all_parts s1 = true) by (destruct (same_ballot_stays _ _ Hb1 Hc) as [H _]; exact H).
  assert (Hseq1 : seq = ppARU r1 + 1) by (rewrite (k_ppARU _ _ _ K1); exact Hseq).
  assert (HD1 : view_change_done r1 = true) by (destruct (k_view _ _ _ K1); congruence).
  destruct (i_keys (proj1 G1) _ _ Es1) as [_ Hok1].
  apply wp_bind, (wp_the_slot _ _ s1); [exact Es1|]. apply wp_bind, wp_get, wp_bind.
  apply wp_continues; [exact (so_complete Hok1)|].
  intros b Hb. destruct b; cbn [negb]; [|apply wp_ret; split; [exact G1|discriminate]].
  specialize (Hb eq_refl). apply wp_bind.
  assert (Htail : forall r2 s2, goes_on r1 r2 -> ppARU r2 = ppARU r1 -> History r2 !! seq = Some s2 ->
    collected_all_parts s2 = true -> populated_eligible s2 = true ->
    complete_pre_prepare s2 = complete_pre_prepare s1 ->
    wp F (slot <- the_slot seq ;;
          modify (fun r => raise_sent r (made_eligible slot)) ;;;
          r <- get ;;
          (if UTIL_I_Am_Leader VAR (View r) then ret tt
           else put (act (Send_Prepare (ORDER_Construct_Prepare VAR r (complete_pre_prepare slot))) r)) ;;;
          upd seq mark_sent_prepare ;;;
          modify (set_ppARU seq) ;;;
          RECON_Do_Recon VAR seq ;;;
          ret true) (sent_post seq r) r2).
  { intros r2 s2 G2 Ep2 Es2 Hc2 Hpop2 Ecomp. apply wp_bind, (wp_the_slot _ _ s2); [exact Es2|].
    apply wp_bind, wp_modify. set (r3 := raise_sent _ _).
    assert (G3 : goes_on r1 r3).
    { eapply goes_on_trans; [exact G2|].
      apply goes_on_modify; try reflexivity; [apply G2|apply no_actions; reflexivity|split; reflexivity|].
      destruct (i_arrays (proj1 G2)) as (A1 & A2 & A3 & A4). split; [exact A1|]. split; [exact A2|].
      split; [cbn; rewrite length_imap; exact A3|exact A4]. }
    destruct (proj1 (proj1 (proj2 G3))) as [HV3 HD3].
    eapply wp_conseq; [apply (wp_send_tail r3 seq s2)|].
    - apply G3.
    - exact Es2.
    - exact Hc2.
    - exact Hpop2.
    - change (ppARU r3) with (ppARU r2). lia.
    - congruence.
    - intros v Ev Evw Evd HL3. rewrite Ecomp in Evw, Evd. apply (chained_evolve _ _ r1); [apply G3|].
      apply (chained_here r1 seq s1); auto; [apply G1|rewrite <- HV3; exact HL3].
    - intros b r4 [G4 Hp4]. split; [|exact Hp4].
      eapply goes_on_trans; [exact G1|]. eapply goes_on_trans; eassumption. }
  destruct (populated_eligible s1) eqn:Epop.
  - apply wp_ret. apply (Htail r1 s1); auto. apply goes_on_refl, G1.
  - apply wp_bind, wp_eligible; [exact (complete_sized _ (so_complete Hok1))|]. intros v Hv.
    apply (wp_upd _ _ s1); [exact Es1|].
    apply (Htail _ (with_eligible v s1)); try reflexivity; [|apply lookup_set_slot|exact Hc1].
    apply (goes_on_set _ _ s1); [apply G1|exact Es1| |slot_stays].
    intros Hs. pose proof (collected_parts r1 seq s1 Hs Hc1) as Hn. pose proof (complete_sized _ (so_complete Hs)) as Hco.
    pose proof (list_fresh _ _ (so_list Hs) (or_intror Epop)) as Hl.
    destruct Hs. split; auto; cbn; [left; exact Hl|exact (eligible_for_length _ _ Hco Hv)|].
    intros _. exists (complete_pre_prepare s1). split; [exact Hv|]. split; [auto|]. contradiction.
Qed.

Lemma wp_send_prepares fuel : forall r,
  inv r -> (above r (ppARU r) < fuel)%nat -> wp F (send_prepares VAR fuel) (fun _ => goes_on r) r.
Proof.
  induction fuel as [|fuel IH]; intros r Hi Hf; [lia|].
  cbn [send_prepares]. apply wp_bind, wp_get. set (seq := wrap32 _).
  destruct (History r !! seq) as [s|] eqn:Es; [|apply wp_ret, goes_on_refl, Hi].
  destruct (collected_all_parts s) eqn:Ec; [|apply wp_ret, goes_on_refl, Hi].
  destruct (next_above r _ seq s Hi (i_ppARU Hi) eq_refl Es) as [Hn1 Hn2].
  assert (Hseq : seq = ppARU r + 1).
  { pose proof (i_ppARU Hi) as Hp. unfold is_u32 in Hp. unfold seq in *. apply wrap32_small. lia. }
  apply wp_bind. eapply wp_conseq; [apply (wp_send_prepare r seq s Hi Es Ec Hseq)|].
  intros b r1 [G1 Hp]. destruct b; [|apply wp_ret; exact G1]. specialize (Hp eq_refl).
  eapply wp_conseq; [apply (IH r1 (proj1 G1))|].
  - pose proof (above_lower r r1 _ seq (proj1 (proj2 (proj2 G1))) (ex_intro _ s Es) Hn1) as Ha.
    rewrite Hp. lia.
  - intros b r2 G2. eapply goes_on_trans; eassumption.
Qed.

Lemma wp_acks cum_acks k r :
  1 <= k -> k * sz_po_aru_signed_message <= Z.of_nat (length cum_acks) ->
  wp F (map_comp (fun j => ack_for cum_acks k (j + 1)) (seqZ 0 NUM_SERVERS))
    (fun _ t => t = r) r.
Proof.
  intros Hk Hl. eapply wp_conseq; [apply (wp_map_comp _ _ (fun _ _ => True))|].
  - intros j Hj. apply elem_of_seqZ in Hj. apply wp_weaken.
    eapply wp_conseq; [apply wp_ack_for; [exact Hk|exact Hl|lia]|]. intros ps t [-> _]. auto.
  - intros l t [-> _]. reflexivity.
Qed.

Lemma wp_row_covers cum_acks t i r Q :
  Z.of_nat (length cum_acks) = matrix_bytes ->
  NUM_SERVER_SLOTS * sz_po_aru_signed_message <= Z.of_nat (length t) ->
  0 <= i < NUM_SERVERS -> (forall b, Q b r) -> wp F (row_covers cum_acks t i) Q r.
Proof.
  intros Hc Ht Hi HQ. unfold matrix_bytes, NUM_SERVER_SLOTS in *.
  change sz_po_aru_signed_message with 208 in *. change NUM_SERVERS with 6 in *.
  unfold row_covers. change NUM_SERVERS with 6.
  apply wp_bind. eapply wp_conseq;
    [apply (wp_acks cum_acks); change sz_po_aru_signed_message with 208; lia|].
  intros mine r' ->. apply wp_bind. eapply wp_conseq;
    [apply (wp_acks t); change sz_po_aru_signed_message with 208; lia|].
  intros theirs r' ->. apply wp_ret, HQ.
Qed.

Lemma wp_matrix_covers cum_acks t rows r Q :
  Z.of_nat (length cum_acks) = matrix_bytes ->
  NUM_SERVER_SLOTS * sz_po_aru_signed_message <= Z.of_nat (length t) ->
  (forall i, i ∈ rows -> 0 <= i < NUM_SERVERS) -> (forall b, Q b r) ->
  wp F (matrix_covers cum_acks t rows) Q r.
Proof.
  intros Hc Ht. induction rows as [|i rows IH]; intros Hr HQ; cbn [matrix_covers]; [apply wp_ret, HQ|].
  apply wp_bind, wp_row_covers; [exact Hc|exact Ht|apply Hr; left|]. intros b.
  destruct b; [|apply wp_ret, HQ]. apply IH; [|exact HQ]. intros j Hj. apply Hr. right. exact Hj.
Qed.

Lemma goes_on_turnaround r l :
  inv r -> Forall (fun t => NUM_SERVER_SLOTS * sz_po_aru_signed_message <= Z.of_nat (length t)) l ->
  goes_on r (set_turnaround_times l r).
Proof.
  intros Hi Hl. apply goes_on_modify; try reflexivity; try (split; reflexivity); try apply Hi.
  - apply no_actions. reflexivity.
  - destruct (i_arrays Hi) as (A1 & A2 & A3 & _). repeat split; assumption.
Qed.

Lemma goes_on_act r a : inv r -> silent a -> goes_on r (act a r).
Proof.
  intros Hi Ha. apply goes_on_modify; try reflexivity; try (split; reflexivity); try apply Hi.
  exists [a]. split; [reflexivity|]. constructor; [exact Ha|constructor].
Qed.

Lemma wp_cover_challenges cum_acks l : forall r,
  Z.of_nat (length cum_acks) = matrix_bytes -> inv r ->
  Forall (fun t => NUM_SERVER_SLOTS * sz_po_aru_signed_message <= Z.of_nat (length t)) l ->
  wp F (cover_challenges cum_acks l) (fun _ => goes_on r) r.
Proof.
  induction l as [|t l IH]; intros r Hc Hi Hl; cbn [cover_challenges].
  - apply wp_modify. apply goes_on_turnaround; assumption.
  - pose proof Hl as Hl0. inversion Hl as [|? ? Ht Hl']; subst.
    apply wp_bind, wp_matrix_covers; [exact Hc|exact Ht| |].
    { intros i Hin. apply elem_of_seqZ in Hin. lia. }
    intros b. destruct b; [|apply wp_modify, goes_on_turnaround; assumption].
    assert (G : goes_on r (act (TAT_Stopped t) r)) by (apply goes_on_act; [exact Hi|exact I]).
    apply wp_bind, wp_modify. eapply wp_conseq; [apply (IH _ Hc (proj1 G) Hl')|].
    intros [] r2 G2. eapply goes_on_trans; eassumption.
Qed.

Lemma wp_Send_Prepares r : inv r -> wp F (ORDER_Send_Prepares VAR) (fun _ => goes_on r) r.
Proof.
  intros Hi. unfold ORDER_Send_Prepares. apply wp_bind, wp_get, wp_bind.
  eapply wp_conseq; [apply (wp_send_prepares _ r Hi)|].
  { pose proof (above_all r (ppARU r)). lia. }
  intros b r1 G1. cbv beta in G1. destruct b; cbn [negb]; [|apply wp_ret; exact G1].
  apply wp_bind, wp_get, wp_bind, wp_If_Exists.
  destruct (History r1 !! ppARU r1) as [s|] eqn:Es; [|exact HF].
  destruct (_ || _); [apply wp_ret; exact G1|].
  destruct (i_keys (proj1 G1) _ _ Es) as [_ Hok].
  eapply wp_conseq; [apply wp_cover_challenges|].
  - exact (co_matrix _ (so_complete Hok)).
  - apply G1.
  - destruct (i_arrays (proj1 G1)) as (_ & _ & _ & A). exact A.
  - intros [] r2 G2. eapply goes_on_trans; eassumption.
Qed.

(** ** The Pre-Prepare *)
Lemma length_matrix_of m : pre_prepare_ok m -> pp_num_acks m <= NUM_SERVERS -> Z.of_nat (length (matrix_of m)) = matrix_bytes.
Proof.
  intros Hm Hn. pose proof (pk_acks _ Hm) as Ha. pose proof (pk_bytes _ Hm) as Hb.
  unfold matrix_of, matrix_bytes, zeros in *. change sz_po_aru_signed_message with 208 in *.
  change NUM_SERVERS with 6 in *.
  rewrite length_app, length_take, length_drop, repeat_length. lia.
Qed.

(** More PO-ARUs than servers do not fit: nothing compares them. *)
Definition copes_with (m : pre_prepare_mess) : Prop := NUM_SERVERS < pp_num_acks m -> F OutOfBounds.

Lemma wp_copy_acks m r Q :
  pre_prepare_ok m -> copes_with m -> (pp_num_acks m <= NUM_SERVERS -> Q (matrix_of m) r) ->
  wp F (copy_acks m (zeros matrix_bytes)) Q r.
Proof.
  intros Hm Hwide HQ. pose proof (pk_acks _ Hm) as Ha. pose proof (pk_bytes _ Hm) as Hb.
  unfold copy_acks. rewrite (pk_part _ Hm). change (wrap32 ((1 - 1) * num_acks_per_message)) with 0.
  apply wp_bind. unfold load_bytes.
  destruct (slice_defined (pp_cum_acks m) 0 (sz_po_aru_signed_message * pp_num_acks m)) as [src Es];
    [lia|change sz_po_aru_signed_message with 208 in *; lia|lia|].
  rewrite Es. apply wp_ret. pose proof (slice_length _ _ _ _ Es) as [_ Hs].
  assert (Esrc : src = take (Z.to_nat (sz_po_aru_signed_message * pp_num_acks m)) (pp_cum_acks m)).
  { unfold slice in Es. destruct (in_range _ _ _); [|discriminate]. injection Es as <-. reflexivity. }
  cbv zeta. change (0 * sz_po_aru_signed_message) with 0.
  assert (Hz : Z.of_nat (length (zeros matrix_bytes)) = matrix_bytes)
    by (unfold zeros; rewrite repeat_length; reflexivity).
  rewrite Hz. unfold matrix_bytes at 1. change sz_po_aru_signed_message with 208 in *.
  change NUM_SERVERS with 6 in *.
  destruct (_ <=? _) eqn:Ele; [apply Z.leb_le in Ele|apply Z.leb_gt in Ele; apply Hwide; change NUM_SERVERS with 6; lia].
  specialize (HQ ltac:(lia)). apply wp_ret. change (Z.to_nat 0) with 0%nat. cbn [take app Nat.add].
  unfold matrix_of in HQ. cbv zeta in HQ. change sz_po_aru_signed_message with 208 in HQ.
  rewrite Hs, Esrc. exact HQ.
Qed.

(** The view a handler goes on with. *)
Definition admitted_view r (v : Z) : Prop := view_change_done r = true -> v = View r.

Lemma wp_view_admits v r Q :
  (forall b, (b = true -> admitted_view r v) -> Q b r) -> wp F (view_admits v) Q r.
Proof.
  intros HQ. assert (Hf : Q false r) by (apply HQ; discriminate).
  unfold view_admits. apply wp_bind, wp_get.
  destruct (Z.ltb_spec (View r) v); [exact Hf|]. destruct (Z.ltb_spec v (View r)).
  - destruct (view_change_done r) eqn:HD; [exact Hf|].
    assert (Hok : admitted_view r v) by (intros H'; congruence).
    destruct (0 <? ARU r); [|apply wp_ret, HQ; auto].
    apply wp_bind, wp_If_Exists. destruct (_ !! _); [apply wp_ret, HQ; auto|exact HF].
  - apply wp_ret, HQ. intros _ _. lia.
Qed.

Lemma wp_pre_prepare_complete r seq s :
  inv r -> History r !! seq = Some s -> num_parts_collected s <> 0 ->
  wp F (pre_prepare_complete VAR seq) (fun _ r' => inv r' /\ follows r r') r.
Proof.
  intros Hi Es Hn.
  unfold pre_prepare_complete. apply wp_bind, (wp_upd _ _ s); [exact Es|].
  set (s1 := mark_collected s). set (r1 := set_slot seq s1 r).
  assert (G1 : goes_on r r1).
  { apply (goes_on_set _ _ s); [exact Hi|exact Es| |intros Hc; cbn; auto].
    intros []. split; auto.
    - intros H. contradiction.
    - intros H. destruct (so_prepared H) as (_ & Ha & Hb). auto.
    - intros H. destruct (so_ordered H) as (_ & Ha). auto. }
  apply wp_bind, (wp_the_slot _ _ s1); [apply lookup_set_slot|]. apply wp_bind.
  assert (Htail : forall r2 s2, inv r2 -> follows r r2 -> History r2 !! seq = Some s2 ->
    wp F (slot <- the_slot seq ;;
          let pp := complete_pre_prepare slot in
          apply_rows VAR (c_cum_acks pp) (seqZ 1 NUM_SERVERS) ;;;
          r <- get ;;
          if negb (c_seq_num pp =? wrap32 (ppARU r + 1)) then ret tt else ORDER_Send_Prepares VAR)
      (fun _ r' => inv r' /\ follows r r') r2).
  { intros r2 s2 Hi2 Hf2 Es2. destruct (i_keys Hi2 _ _ Es2) as [_ Hok2].
    apply wp_bind, (wp_the_slot _ _ s2); [exact Es2|]. cbv zeta.
    apply wp_bind. eapply wp_conseq; [apply wp_apply_rows|].
    - exact (co_matrix _ (so_complete Hok2)).
    - intros i Hin. apply elem_of_seqZ in Hin. lia.
    - exact Hi2.
    - intros [] r3 K3. destruct (goes_on_keeps _ _ Hi2 K3) as (Hi3 & Hf3 & _).
      assert (Hf : follows r r3) by (eapply follows_trans; eassumption).
      apply wp_bind, wp_get. destruct (negb _); [apply wp_ret; split; assumption|].
      eapply wp_conseq; [apply (wp_Send_Prepares r3 Hi3)|]. intros [] r4 (Hi4 & Hf4 & _).
      split; [exact Hi4|]. eapply follows_trans; eassumption. }
  destruct (_ && _ && _) eqn:Eb.
  - apply andb_true_iff in Eb as [Eb Hr]. apply andb_true_iff in Eb as [Hp _]. apply negb_true_iff in Hp.
    eapply wp_conseq; [apply (wp_prepare_certificate_complete r1 seq s1)|];
      [apply G1|apply lookup_set_slot|exact Hp|exact Hr|].
    intros [] r2 (Hi2 & Hf2 & s2 & Es2 & _). apply (Htail r2 s2 Hi2); [|exact Es2].
    eapply follows_trans; [apply G1|exact Hf2].
  - apply wp_ret. apply (Htail r1 s1); [apply G1|apply G1|apply lookup_set_slot].
Qed.

Lemma handled_of r r' : inv r' -> follows r r' -> handled VAR EvPP EvP EvC r r'.
Proof. intros Hi Hf _. split; assumption. Qed.

Lemma follows_handled r1 r2 r3 :
  follows r1 r2 -> handled VAR EvPP EvP EvC r2 r3 -> handled VAR EvPP EvP EvC r1 r3.
Proof.
  intros Hf Hh [V1 V2]. destruct Hf as [[W1 W2] Ha].
  destruct Hh as [Hi Hf']; [split; congruence|]. split; [exact Hi|].
  eapply follows_trans; [|exact Hf']. split; [split; assumption|exact Ha].
Qed.

(** What the slot is like when a part is admitted: there is a part already, or
    it has just been started with this one. *)
Definition started (m : pre_prepare_mess) (s : ord_slot) : Prop :=
  num_parts_collected s <> 0 \/
  num_parts_collected s = 0 /\
  complete_pre_prepare s =
    mkComplete (pp_seq_num m) (pp_view m) (pp_proposal_digest m) (pp_last_executed m) (zeros matrix_bytes).

Lemma wp_admit_part r m s :
  inv r -> pre_prepare_ok m -> History r !! pp_seq_num m = Some s ->
  wp F (admit_part VAR m (pp_seq_num m))
    (fun b r' => if b then leaves (pp_seq_num m) (started m) r r'
                 else handled VAR EvPP EvP EvC r r') r.
Proof.
  intros Hi Hm Es. set (seq := pp_seq_num m) in *.
  destruct (i_keys Hi _ _ Es) as [Hk Hok].
  unfold admit_part. apply wp_bind, (wp_the_slot _ _ s); [exact Es|]. apply wp_bind, wp_get.
  destruct (Z.eqb_spec (num_parts_collected s) 0) as [Hz|Hnz].
  { destruct (so_fresh Hok Hz) as [Hc Hzero].
    apply wp_bind, (wp_upd _ _ s); [exact Es|]. apply wp_ret.
    apply (leaves_set r r seq s); [exact Hi|apply follows_refl|exact Es| |apply stays_uncollected, Hc|].
    - pose proof (list_uncollected r seq s Hok Hc) as Hl. intros []. split; auto; cbn; try contradiction.
      + destruct so_complete, Hm. split; cbn; auto. unfold is_u32. lia.
      + intros H. destruct (so_prepared H) as (Ha & _). congruence.
      + intros H. destruct (so_ordered H) as (Ha & _). congruence.
      + left. exact Hl.
      + intros H. destruct (so_eligible H) as (c & Hc1 & _ & Hc2). exists c.
        split; [exact Hc1|]. split; [contradiction|exact Hc2].
    - right. split; [exact Hz|]. cbn. rewrite (so_seq Hok), Hzero. reflexivity. }
  destruct (_ =? _); cbn [negb];
    [|apply wp_ret, handled_of; [exact Hi|apply follows_refl]].
  destruct (so_first Hok Hnz) as [_ (m0 & Em0 & _)].
  assert (Hstay : leaves seq (started m) r r)
    by (split; [exact Hi|]; split; [apply follows_refl|]; exists s; split; [assumption|left; exact Hnz]).
  destruct (_ =? _); [|apply wp_ret; exact Hstay].
  apply wp_bind. rewrite Em0. apply wp_ret. apply wp_bind, wp_ret.
  destruct (bool_decide _); [apply wp_ret; exact Hstay|].
  apply wp_bind. destruct (leader_suspected r).
  { apply wp_ret, wp_ret, handled_of; [exact Hi|apply follows_refl]. }
  apply wp_bind, wp_modify. set (r1 := suspect r).
  assert (G1 : goes_on r r1).
  { apply goes_on_modify; try reflexivity; try (split; reflexivity); try apply Hi.
    apply no_actions. reflexivity. }
  eapply wp_conseq; [apply New_Leader_keeps|]. intros [] r2 K2. apply wp_ret.
  eapply follows_handled; [apply G1|]. intros Hv. specialize (K2 Hv).
  split; [eapply inv_keeps; [apply G1|exact K2]|eapply keeps_follows; exact K2].
Qed.

(** A Pre-Prepare of this replica's own view that names it as the leader is one
    it has sent. *)
Lemma own_proposal r m m0 :
  inv r -> EvPP m -> pp_machine_id m = UTIL_Leader_Of_View (pp_view m) -> is_u32 (pp_view m) ->
  admitted_view r (pp_view m) -> sent r m0 -> pp_seq_num m0 = pp_seq_num m ->
  complete_of m0 = complete_of m.
Proof.
  intros Hi Hm Hl Hu Ha H0 Hs. pose proof (i_proposals Hi) as HP.
  destruct (l_sent HP m0 H0) as (HD & _ & HL & _). specialize (Ha HD).
  unfold UTIL_I_Am_Leader, UTIL_Leader in HL. rewrite <- Ha, (wrap32_small _ Hu) in HL.
  apply Z.eqb_eq in HL.
  destruct (l_own HP m Hm ltac:(congruence)) as (m1 & H1 & Eu).
  replace m0 with m1; [symmetry; apply complete_of_unsigned, Eu|].
  apply (l_once HP); auto. rewrite <- (unsigned_seq _ _ Eu). auto.
Qed.

(** Storing the first part. *)
Lemma store_ok r m s parts msgs :
  inv r -> EvPP m -> pre_prepare_ok m -> pp_num_acks m <= NUM_SERVERS ->
  pp_machine_id m = UTIL_Leader_Of_View (pp_view m) -> admitted_view r (pp_view m) -> started m s -> num_parts_collected s = 0 ->
  aset (pre_prepare_parts s) 1 true = Some parts ->
  aset (pre_prepare_parts_msg s) 1 (Some m) = Some msgs ->
  slot_ok_in r (pp_seq_num m) s ->
  slot_ok_in r (pp_seq_num m)
    (store_part parts msgs
       (mkComplete (c_seq_num (complete_pre_prepare s)) (c_view (complete_pre_prepare s))
          (c_proposal_digest (complete_pre_prepare s)) (c_last_executed (complete_pre_prepare s))
          (matrix_of m)) (num_parts_collected s + 1) s).
Proof.
  intros Hi Hev Hm Hn Hl Ha Hst Hz Eparts Emsgs Hok. destruct (so_fresh Hok Hz) as [Hc _].
  pose proof (list_uncollected r _ s Hok Hc) as Hlist.
  destruct Hst as [|[_ Ecomp]]; [contradiction|]. rewrite Ecomp, Hz. cbn.
  destruct Hok. split; auto; cbn; try discriminate.
  - rewrite (aset_length _ _ _ _ Eparts). assumption.
  - rewrite (aset_length _ _ _ _ Emsgs). assumption.
  - intros _. split; [exact (aget_aset_eq _ _ _ _ Eparts)|].
    exists m. split; [exact (aget_aset_eq _ _ _ _ Emsgs)|]. auto.
  - rewrite (aget_aset_eq _ _ _ _ Eparts). discriminate.
  - destruct Hm. split; cbn; auto; [unfold is_u32; lia|].
    apply length_matrix_of; [split; auto|exact Hn].
  - intros w Hw _. unfold current in Hw. destruct (view_change_done r) eqn:HD; [|discriminate].
    injection Hw as <-. exact (Ha HD).
  - intros H. destruct (so_prepared H) as (H' & _). congruence.
  - intros H. destruct (so_ordered H) as (H' & _). congruence.
  - left. exact Hlist.
  - intros H. destruct (so_eligible H) as (c & Hc1 & _ & Hc2). exists c. split; [exact Hc1|].
    split; [intros _|discriminate]. destruct (Hc2 Hz) as (m0 & H0 & Hs0 & ->).
    apply (own_proposal r); auto. exact (pk_view _ Hm).
Qed.

Lemma handled_refl r : inv r -> handled VAR EvPP EvP EvC r r.
Proof. intros Hi. apply handled_of; [exact Hi|apply follows_refl]. Qed.

(** [ORDER_Process_Pre_Prepare] from the slot on. *)
Lemma wp_Process_Pre_Prepare r m :
  inv r -> pre_prepare_ok m -> copes_with m -> EvPP m ->
  wp F (ORDER_Process_Pre_Prepare VAR m) (fun _ => handled VAR EvPP EvP EvC r) r.
Proof.
  intros Hi Hm Hwide Hev. unfold ORDER_Process_Pre_Prepare. set (seq := pp_seq_num m).
  assert (Hdone : wp F (ret tt) (fun _ => handled VAR EvPP EvP EvC r) r) by (apply wp_ret, handled_refl, Hi).
  apply wp_bind, wp_get. destruct (negb _); [exact Hdone|].
  destruct (_ && _ && _) eqn:Eold; [exact Hdone|].
  apply wp_bind, wp_view_admits. intros b Hb. destruct b; cbn [negb]; [|exact Hdone].
  specialize (Hb eq_refl).
  destruct (Z.eqb_spec (pp_machine_id m) (UTIL_Leader_Of_View (pp_view m))) as [Hl|]; cbn [negb]; [|exact Hdone].
  pose proof (pk_seq _ Hm) as Hseq. fold seq in Hseq.
  assert (Hng : ~ gone r seq).
  { intros (_ & Hg1 & Hg2 & Hg3 & Hg4). rewrite wrap32_small in Eold by lia.
    rewrite !(proj2 (Z.leb_le _ _)) in Eold by lia. discriminate. }
  apply wp_bind, (wp_Get_ORD_Slot r seq); [exact Hi|exact Hseq|exact Hng|].
  intros s0 r1 Hi1 Es1 Hf1 _. apply wp_bind.
  eapply wp_conseq; [apply (wp_admit_part r1 m s0 Hi1 Hm Es1)|].
  intros b r2 Hb2. destruct b; cbn [negb];
    [|apply wp_ret; eapply follows_handled; [exact Hf1|exact Hb2]].
  destruct Hb2 as (Hi2 & Hf2 & s & Es & Hst). fold seq in Es.
  assert (Hf : follows r r2) by (eapply follows_trans; eassumption).
  assert (Hdone2 : wp F (ret tt) (fun _ => handled VAR EvPP EvP EvC r) r2)
    by (apply wp_ret, handled_of; assumption).
  destruct (i_keys Hi2 _ _ Es) as [_ Hok].
  apply wp_bind, (wp_the_slot _ _ s); [exact Es|].
  destruct (collected_all_parts s) eqn:Ec; [exact Hdone2|].
  rewrite (pk_part _ Hm).
  apply wp_bind, wp_aget; [rewrite (so_parts Hok); vm_compute; split; [discriminate|reflexivity]|].
  intros have Ehave. destruct have; [exact Hdone2|].
  assert (Hz : num_parts_collected s = 0).
  { destruct (Z.eq_dec (num_parts_collected s) 0) as [|Hnz]; [assumption|].
    destruct (so_first Hok Hnz) as [Ht _]. congruence. }
  apply wp_bind, wp_aset; [rewrite (so_parts Hok); vm_compute; split; [discriminate|reflexivity]|].
  intros parts Eparts.
  apply wp_bind, wp_aset; [rewrite (so_msgs Hok); vm_compute; split; [discriminate|reflexivity]|].
  intros msgs Emsgs. cbv zeta.
  rewrite (proj2 (so_fresh Hok Hz)).
  apply wp_bind, wp_copy_acks; [exact Hm|exact Hwide|]. intros Hn. apply wp_bind, (wp_upd _ _ s); [exact Es|].
  set (s1 := store_part _ _ _ _ s). set (r3 := set_slot seq s1 r2).
  assert (Ha2 : admitted_view r2 (pp_view m)).
  { destruct Hf as [[HV HD] _]. unfold admitted_view. rewrite HV, HD. exact Hb. }
  destruct (leaves_set r r2 seq s s1 (fun _ => True) Hi2 Hf Es) as (Hi3 & Hf3 & _);
    [exact (store_ok r2 m s parts msgs Hi2 Hev Hm Hn Hl Ha2 Hst Hz Eparts Emsgs)
    |apply stays_uncollected, Ec|exact I|].
  apply wp_bind, wp_aget; [rewrite (so_fwds Hok); vm_compute; split; [discriminate|reflexivity]|].
  intros fwd _. apply wp_bind, wp_assert. intros _. apply wp_bind.
  eapply wp_conseq; [apply (wp_Flood r3 m s1 Hi3)|].
  { apply lookup_set_slot. } { exact (pk_part _ Hm). } { exact (aget_aset_eq _ _ _ _ Eparts). }
  intros [] r4 (Hi4 & Hf4 & s2 & Es2 & fs & n & ->).
  assert (Hf' : follows r r4) by (eapply follows_trans; eassumption).
  apply wp_bind, (wp_the_slot _ _ (mark_forwarded fs n s1)); [exact Es2|].
  destruct (_ <? _); [apply wp_ret, handled_of; assumption|].
  eapply wp_conseq; [apply (wp_pre_prepare_complete r4 seq _ Hi4 Es2)|].
  - cbn. pose proof (so_count Hok). lia.
  - intros [] r5 [Hi5 Hf5]. apply handled_of; [exact Hi5|]. eapply follows_trans; eassumption.
Qed.

(** ** The leader's Pre-Prepare *)
Lemma wp_proof_updated servers : forall b r,
  inv r -> (forall i, i ∈ servers -> 1 <= i <= NUM_SERVERS) ->
  wp F (proof_updated VAR servers b) (fun _ r' => inv r' /\ exists l, r' = set_max_num_sent l r) r.
Proof.
  induction servers as [|i servers IH]; intros b r Hi Hs; cbn [proof_updated].
  { apply wp_ret. split; [exact Hi|]. exists (max_num_sent_in_proof r). destruct r; reflexivity. }
  destruct (i_arrays Hi) as (A1 & A2 & A3 & A4).
  pose proof (Hs i ltac:(left)) as Hir.
  assert (Hs' : forall j, j ∈ servers -> 1 <= j <= NUM_SERVERS) by (intros j Hj; apply Hs; right; exact Hj).
  unfold NUM_SERVER_SLOTS in *. change sz_po_aru_signed_message with 208 in *.
  change NUM_SERVERS with 6 in *.
  apply wp_bind, wp_get, wp_bind, wp_weaken. eapply wp_conseq; [apply wp_Proof_ARU|].
  - rewrite length_drop. change matrix_size with 1248. lia.
  - change NUM_SERVERS with 6. lia.
  - exact HVAR.
  - intros ps r0 [-> _].
    apply wp_bind, wp_aget; [lia|]. intros old _. destruct (_ <? _); [|apply IH; assumption].
    apply wp_bind, wp_aset; [lia|]. intros l El. apply wp_bind, wp_put.
    assert (Hi1 : inv (set_max_num_sent l r)).
    { apply (inv_modify VAR EvPP EvP EvC r); auto; try reflexivity; [split; reflexivity| |].
      - repeat split; auto. cbn. rewrite (aset_length _ _ _ _ El). exact A3.
      - pose proof (i_forwarding Hi) as H. unfold is_u32 in H. cbn. lia. }
    eapply wp_conseq; [apply (IH true _ Hi1 Hs')|].
    intros _ r2 (H1 & l2 & ->). split; [exact H1|]. exists l2. reflexivity.
Qed.

(** A slot of a number not yet proposed holds no Pre-Prepare of this leader. *)
Lemma not_proposed r seq s :
  inv r -> History r !! seq = Some s -> next_seq r <= seq ->
  view_change_done r = true -> UTIL_I_Am_Leader VAR (View r) = true -> num_parts_collected s = 0.
Proof.
  intros Hi Es Hn HD HL. destruct (i_keys Hi _ _ Es) as [_ Hok].
  destruct (Z.eq_dec (num_parts_collected s) 0) as [|Hnz]; [assumption|exfalso].
  destruct (so_first Hok Hnz) as [_ (m & _ & Hm & Hl & Hs & Hc)].
  assert (Hv : pp_view m = View r).
  { pose proof (so_view Hok (View r)) as H. unfold current in H. rewrite HD in H.
    rewrite <- (H eq_refl Hnz), Hc. reflexivity. }
  pose proof (co_view _ (so_complete Hok)) as Hu. rewrite Hc in Hu. cbn in Hu.
  unfold UTIL_I_Am_Leader, UTIL_Leader in HL. rewrite <- Hv, (wrap32_small _ Hu) in HL.
  apply Z.eqb_eq in HL. pose proof (i_proposals Hi) as HP.
  destruct (l_own HP m Hm ltac:(congruence)) as (m0 & H0 & Eu).
  destruct (l_sent HP m0 H0) as (_ & _ & _ & Hb). rewrite <- (unsigned_seq _ _ Eu) in Hb. lia.
Qed.

(** Its view, and the vector it makes eligible, filled in by the leader itself. *)
Lemma populate_own_ok r seq s m v :
  num_parts_collected s = 0 -> sent r m -> pp_seq_num m = seq ->
  eligible_for VAR (complete_of m) = Some v -> Z.of_nat (length v) = NUM_SERVERS ->
  slot_ok_in r seq s -> slot_ok_in r seq (populate_own (pp_view m) v s).
Proof.
  intros Hz Hm Hs Hv Hl Hok. destruct (so_fresh Hok Hz) as [Hc _].
  pose proof (list_uncollected r seq s Hok Hc) as Hlist. destruct Hok.
  split; auto; [left; exact Hlist|]. intros _. exists (complete_of m).
  split; [exact Hv|]. split; [contradiction|]. intros _. exists m. auto.
Qed.

Lemma slice_whole (b : list byte) p n l : slice b p n = Some l -> l = take (Z.to_nat n) (drop (Z.to_nat p) b).
Proof. unfold slice. destruct (in_range _ _ _); [|discriminate]. congruence. Qed.

Lemma wp_Construct_Pre_Prepare r Q :
  inv r -> F Exit ->
  (forall m, pp_machine_id m = My_Server_ID VAR -> pp_seq_num m = next_seq r -> pp_view m = View r ->
     Z.of_nat (length (pp_last_executed m)) = NUM_SERVERS -> matrix_of m = pp_cum_acks m ->
     Z.of_nat (length (pp_cum_acks m)) = matrix_bytes ->
     Q m (set_next_seq (wrap32 (next_seq r + 1)) r)) ->
  wp F (ORDER_Construct_Pre_Prepare VAR) Q r.
Proof.
  intros Hi HX HQ. unfold ORDER_Construct_Pre_Prepare.
  change (num_acks_per_message <? NUM_SERVERS) with false. cbv iota.
  apply wp_bind, wp_get, wp_bind, wp_If_Exists, wp_bind.
  assert (Htail : forall last, Z.of_nat (length last) = NUM_SERVERS ->
    wp F (acks <- load_bytes (cum_acks r) sz_po_aru_signed_message (sz_po_aru_signed_message * NUM_SERVERS) ;;
          put (set_next_seq (wrap32 (next_seq r + 1)) r) ;;;
          ret {| pp_machine_id := My_Server_ID VAR; pp_signed := []; pp_seq_num := next_seq r;
                 pp_view := View r; pp_proposal_digest := proposal_digest r; pp_last_executed := last;
                 pp_part_num := 1; pp_total_parts := 1; pp_num_acks := NUM_SERVERS;
                 pp_cum_acks := acks |}) Q r).
  { intros last Hlast. destruct (i_arrays Hi) as (_ & A2 & _).
    apply wp_bind. unfold load_bytes.
    destruct (slice_defined (cum_acks r) sz_po_aru_signed_message (sz_po_aru_signed_message * NUM_SERVERS))
      as [acks Ea]; [vm_compute; discriminate|vm_compute; discriminate|rewrite A2; vm_compute; discriminate|].
    rewrite Ea. apply wp_ret, wp_bind, wp_put, wp_ret.
    pose proof (slice_length _ _ _ _ Ea) as [_ Hl].
    apply HQ; try reflexivity; [exact Hlast| |cbn [pp_cum_acks]; rewrite Hl; reflexivity].
    unfold matrix_of. cbn. change (Z.to_nat (sz_po_aru_signed_message * NUM_SERVERS)) with 1248%nat.
    change (Z.to_nat _) with 1248%nat in Hl.
    rewrite firstn_all2 by lia. rewrite skipn_all2, app_nil_r; [reflexivity|].
    unfold zeros. rewrite repeat_length. vm_compute. lia. }
  destruct (next_seq r =? 1); [apply wp_ret, Htail; reflexivity|].
  destruct (History r !! _) as [o|] eqn:Eo; [|exact HX].
  destruct (i_keys Hi _ _ Eo) as [_ Hok]. apply wp_ret, Htail, (so_made Hok).
Qed.

(** The leader proposes the next number once. *)
Lemma wp_Send_One_Pre_Prepare r :
  inv r -> F Exit -> view_change_done r = true -> UTIL_I_Am_Leader VAR (View r) = true ->
  next_seq r + 1 < two32 -> ~ gone r (next_seq r) ->
  wp F (ORDER_Send_One_Pre_Prepare VAR) (fun _ r' => inv r' /\ follows r r') r.
Proof.
  intros Hi HX HD HL Hn Hg. pose proof (i_next Hi) as Hpos.
  unfold ORDER_Send_One_Pre_Prepare. apply wp_bind, wp_get.
  destruct (should_send_pp r); cbn [negb]; [|apply wp_ret; split; [exact Hi|apply follows_refl]].
  apply wp_bind, wp_Construct_Pre_Prepare; [exact Hi|exact HX|].
  intros m Hme Hs Hw Hlast Hmat Hlen. rewrite wrap32_small by lia.
  set (n := next_seq r) in *. set (r1 := set_next_seq (n + 1) r).
  assert (Hi1 : inv r1) by (apply inv_set_next; [exact Hi|fold n; lia]).
  assert (Hf1 : follows r r1) by (apply follows_silent; [split|]; reflexivity).
  apply wp_bind. eapply wp_conseq; [apply (wp_proof_updated _ false r1 Hi1)|].
  { intros i Hin. apply elem_of_seqZ in Hin. lia. }
  intros _ r2 (Hi2 & l & Er2). clear Hi1 Hf1.
  apply wp_bind, wp_modify, wp_bind, wp_modify.
  set (r3 := set_should_send_pp false r2). set (r4 := act (Send_Pre_Prepare m) r3).
  assert (Hi3 : inv r3).
  { apply (inv_modify VAR EvPP EvP EvC r2); try reflexivity; try apply Hi2; [split; reflexivity|].
    pose proof (i_forwarding Hi2) as H. unfold is_u32 in H. cbn. lia. }
  subst r2.
  assert (Hi4 : inv r4).
  { apply inv_act_propose; [exact Hi3|exact HD|exact HL|exact Hw|cbn; lia|].
    intros m' Hm'. destruct (l_sent (i_proposals Hi) m' Hm') as (_ & _ & _ & Hb). fold n in Hb. lia. }
  assert (Hf4 : follows r r4) by (split; [split; reflexivity|exists [Send_Pre_Prepare m]; reflexivity]).
  rewrite !Hs. apply wp_bind, (wp_Get_ORD_Slot r4 n); [exact Hi4|lia|exact Hg|].
  intros s r5 Hi5 Es5 Hf5 Hr5. assert (Hf : follows r r5) by (eapply follows_trans; eassumption).
  destruct (populated_eligible s); [apply wp_ret; split; assumption|].
  assert (Hm5 : sent r5 m) by (unfold sent; destruct Hr5 as [-> | ->]; apply elem_of_act; auto).
  assert (Hz : num_parts_collected s = 0).
  { destruct Hr5 as [-> | ->].
    - apply (not_proposed r n); [exact Hi|exact Es5|apply Z.le_refl|exact HD|exact HL].
    - rewrite lookup_set_slot in Es5. injection Es5 as <-. reflexivity. }
  apply wp_bind. rewrite <- Hmat. apply (wp_eligible r5 (complete_of m)).
  { split; [exact Hlast|]. cbn. rewrite Hmat. exact Hlen. }
  intros v Hv. assert (Hlv : Z.of_nat (length v) = NUM_SERVERS).
  { apply (eligible_for_length (complete_of m)); [|exact Hv]. split; [exact Hlast|].
    cbn. rewrite Hmat. exact Hlen. }
  apply wp_bind, (wp_upd _ _ s); [exact Es5|]. apply wp_ret.
  destruct (leaves_set r r5 n s (populate_own (pp_view m) v s) (fun _ => True) Hi5 Hf Es5)
    as (Hi6 & Hf6 & _); [|slot_stays|exact I|split; assumption].
  apply populate_own_ok; assumption.
Qed.

Lemma wp_Periodically r :
  inv r -> F Exit -> view_change_done r = true -> next_seq r + 1 < two32 -> ~ gone r (next_seq r) ->
  wp F (ORDER_Periodically VAR) (fun _ r' => inv r' /\ follows r r') r.
Proof.
  intros Hi HX HD Hn Hg. unfold ORDER_Periodically. apply wp_bind, wp_get.
  destruct (UTIL_I_Am_Leader VAR (View r)) eqn:HL; cbn [negb];
    [|apply wp_ret; split; [exact Hi|apply follows_refl]].
  apply wp_bind. eapply wp_conseq; [apply wp_Send_One_Pre_Prepare; assumption|].
  intros b r' H. apply wp_ret, H.
Qed.

(** ** Votes *)
Record vote_ok (v : vote) : Prop := {
  vk_seq : 0 < v_seq_num v < two32;
  vk_from : 1 <= v_machine_id v <= NUM_SERVERS;
  vk_digest : Z.of_nat (length (v_digest v)) = DIGEST_SIZE }.

Lemma matching_mono matches a b pp :
  (forall j v, aget a j = Some (Some v) -> aget b j = Some (Some v)) ->
  (length (matching matches a pp) <= length (matching matches b pp))%nat.
Proof.
  intros Hab. unfold matching. induction (seqZ 1 NUM_SERVERS) as [|j js IH]; [reflexivity|].
  cbn [List.filter]. destruct (matches_at matches a pp j) eqn:Ea.
  - assert (matches_at matches b pp j = true) as ->.
    { unfold matches_at in *. destruct (aget a j) as [[v|]|] eqn:Ej; try discriminate.
      rewrite (Hab j v Ej). exact Ea. }
    cbn [length]. lia.
  - destruct (matches_at matches b pp j); cbn [length]; lia.
Qed.

Lemma votes_ok_add Ev seq l l' v :
  votes_ok Ev seq l -> vote_ok v -> v_seq_num v = seq -> Ev v ->
  aset l (v_machine_id v) (Some v) = Some l' -> votes_ok Ev seq l'.
Proof.
  intros [Hl Hv] Hok Hs He El. split; [rewrite (aset_length _ _ _ _ El); exact Hl|].
  intros j u Hu. destruct (Z.eq_dec j (v_machine_id v)) as [->|Hne].
  - rewrite (aget_aset_eq _ _ _ _ El) in Hu. injection Hu as <-.
    split; [reflexivity|]. split; [exact Hs|]. split; [exact (vk_digest _ Hok)|exact He].
  - rewrite (aget_aset_ne _ _ _ _ _ El) in Hu by congruence. exact (Hv j u Hu).
Qed.

Lemma aset_fills (l l' : list (option vote)) i v :
  aget l i = Some None -> aset l i (Some v) = Some l' ->
  forall j u, aget l j = Some (Some u) -> aget l' j = Some (Some u).
Proof.
  intros En El j u Hu. rewrite (aget_aset_ne _ _ _ _ _ El); [exact Hu|]. intros ->. congruence.
Qed.

Lemma wp_Process_Prepare r v :
  inv r -> vote_ok v -> EvP v ->
  wp F (ORDER_Process_Prepare VAR v) (fun _ => handled VAR EvPP EvP EvC r) r.
Proof.
  intros Hi Hv He. unfold ORDER_Process_Prepare. set (seq := v_seq_num v).
  assert (Hdone : wp F (ret tt) (fun _ => handled VAR EvPP EvP EvC r) r) by (apply wp_ret, handled_refl, Hi).
  apply wp_bind, wp_get. destruct (Z.leb_spec seq (ARU r)) as [|HA]; [exact Hdone|].
  apply wp_bind, wp_view_admits. intros b _. destruct b; cbn [negb]; [|exact Hdone].
  destruct (Z.eqb_spec (v_machine_id v) (UTIL_Leader_Of_View (v_view v))) as [|Hnl]; [exact Hdone|].
  apply wp_bind, (wp_Get_ORD_Slot r seq); [exact Hi|exact (vk_seq _ Hv)|intros (_ & Hg & _); lia|].
  intros s r1 Hi1 Es Hf1 _. destruct (i_keys Hi1 _ _ Es) as [_ Hok].
  assert (Hdone1 : wp F (ret tt) (fun _ => handled VAR EvPP EvP EvC r) r1)
    by (apply wp_ret, handled_of; assumption).
  pose proof (vk_from _ Hv) as Hfrom. destruct (so_prepare Hok) as [Hlen _].
  apply wp_bind, wp_assert. intros _. apply wp_bind, wp_aget; [rewrite Hlen; unfold NUM_SERVER_SLOTS; lia|].
  intros old Eold. destruct old as [u|]; cbn [is_Some bool_decide]; [exact Hdone1|].
  rewrite bool_decide_false by (intros [x Hx]; discriminate).
  destruct (negb _); [exact Hdone1|].
  apply wp_bind, wp_aset; [rewrite Hlen; unfold NUM_SERVER_SLOTS; lia|]. intros l El.
  apply wp_bind, (wp_upd _ _ s); [exact Es|]. set (s1 := with_prepare l s).
  destruct (leaves_set r r1 seq s s1 (fun _ => True) Hi1 Hf1 Es) as (Hi2 & Hf2 & _); [|slot_stays|exact I|].
  { intros []. split; auto; cbn.
    - eapply votes_ok_add; [exact so_prepare|exact Hv|reflexivity|split; assumption|exact El].
    - intros H. destruct (so_prepared H) as (Ha & Hb & Hc). split; [exact Ha|]. split; [exact Hb|].
      pose proof (matching_mono ORDER_Prepare_Matches_Pre_Prepare (prepare s) l
                    (complete_pre_prepare s) (aset_fills _ _ _ _ Eold El)). lia. }
  assert (Es1 : History (set_slot seq s1 r1) !! seq = Some s1) by apply lookup_set_slot.
  apply wp_bind, (wp_the_slot _ _ s1); [exact Es1|].
  destruct (ordered s1 || prepare_certificate_ready s1) eqn:Eo; [apply wp_ret, handled_of; assumption|].
  apply orb_false_iff in Eo as [_ Ep].
  destruct (ORDER_Prepare_Certificate_Ready s1) eqn:Er; [|apply wp_ret, handled_of; assumption].
  apply wp_bind, wp_assert. intros _.
  eapply wp_conseq; [apply (wp_prepare_certificate_complete _ seq s1 Hi2 Es1 Ep Er)|].
  intros [] r3 (Hi3 & Hf3 & _). apply handled_of; [exact Hi3|]. eapply follows_trans; eassumption.
Qed.

(** The two writes of the slot are one, and [high_committed] is beside them. *)
Lemma set_slot_twice seq s1 s2 r : set_slot seq s2 (set_slot seq s1 r) = set_slot seq s2 r.
Proof. unfold set_slot, set_History. cbn. rewrite insert_insert_eq. reflexivity. Qed.

Definition raise_committed (seq : Z) r : order_state :=
  if high_committed r <? seq then set_high_committed seq r else r.

Lemma raise_committed_slot n seq s r :
  raise_committed n (set_slot seq s r) = set_slot seq s (raise_committed n r).
Proof. unfold raise_committed. cbn. destruct (_ <? _); reflexivity. Qed.

Lemma raise_committed_inv n r :
  inv r -> inv (raise_committed n r) /\ follows r (raise_committed n r) /\
  History (raise_committed n r) = History r.
Proof.
  intros Hi. unfold raise_committed. destruct (_ <? _); [|auto using follows_refl].
  split; [|split; [apply follows_silent; [split|]; reflexivity|reflexivity]].
  apply (inv_modify VAR EvPP EvP EvC r); try reflexivity; try apply Hi; [split; reflexivity|].
  pose proof (i_forwarding Hi) as H. unfold is_u32 in H. cbn in *. lia.
Qed.

Lemma wp_Move_Commit_Certificate r seq s :
  inv r -> History r !! seq = Some s -> ORDER_Commit_Certificate_Ready s = true ->
  wp F (ORDER_Move_Commit_Certificate VAR seq)
    (fun _ => leaves seq (fun s' => ordered s' = true) r) r.
Proof.
  intros Hi Es Hr. destruct (Commit_Ready_spec s Hr) as [Hc Hcount].
  destruct (i_keys Hi _ _ Es) as [_ Hok].
  unfold ORDER_Move_Commit_Certificate. apply wp_bind, (wp_the_slot _ _ s); [exact Es|].
  apply wp_bind, wp_get. set (pp := if prepare_certificate_ready s then _ else _).
  assert (Epp : pp = complete_pre_prepare s).
  { unfold pp. destruct (prepare_certificate_ready s) eqn:Ep; [|reflexivity].
    destruct (so_prepared Hok Ep) as (_ & E' & _). exact E'. }
  cbv zeta. fold pp. clearbody pp. subst pp. apply wp_bind, (wp_upd _ _ s); [exact Es|].
  set (s1 := with_commit_certificate _ _ s).
  destruct (raise_committed_inv (slot_seq_num s) r Hi) as (Hi0 & Hf0 & EH0).
  apply wp_bind, wp_modify. fold (raise_committed (slot_seq_num s) (set_slot seq s1 r)).
  rewrite raise_committed_slot. set (r0 := raise_committed _ r) in *. clearbody r0. rewrite <- EH0 in Es.
  destruct (populated_eligible s) eqn:Epop.
  - apply wp_ret, (leaves_set r r0 seq s); [exact Hi0|exact Hf0|exact Es| |slot_stays|reflexivity].
    intros []. split; auto. destruct so_list as [Hl|(He & _ & Hl)]; [left; exact Hl|right; split; auto].
  - apply wp_bind, wp_eligible; [exact (complete_sized _ (so_complete Hok))|]. intros v Hv.
    apply (wp_upd _ _ s1); [apply lookup_set_slot|]. rewrite set_slot_twice.
    apply (leaves_set r r0 seq s); [exact Hi0|exact Hf0|exact Es| |slot_stays|reflexivity].
    intros Hs. pose proof (collected_parts r0 seq s Hs Hc) as Hn.
    pose proof (complete_sized _ (so_complete Hs)) as Hco.
    pose proof (list_fresh _ _ (so_list Hs) (or_intror Epop)) as Hl.
    destruct Hs. split; auto; cbn; [left; exact Hl|exact (eligible_for_length _ _ Hco Hv)|].
    intros _. exists (complete_pre_prepare s). split; [exact Hv|]. split; [auto|contradiction].
Qed.

(** After a Commit: the invariant holds, and when the certificate has just been
    completed, its slot is ordered. *)
Definition collected (seq : Z) r (ready : bool) r' : Prop :=
  inv r' /\ follows r r' /\
  (ready = true -> exists s, History r' !! seq = Some s /\ ordered s = true).

Lemma wp_collect_commit r v :
  inv r -> vote_ok v -> EvC v ->
  wp F (collect_commit VAR v) (collected (v_seq_num v) r) r.
Proof.
  intros Hi Hv He. unfold collect_commit. set (seq := v_seq_num v).
  assert (Hno : forall r', inv r' -> follows r r' -> wp F (ret false) (collected seq r) r')
    by (intros r' Hi' Hf'; apply wp_ret; split; [exact Hi'|split; [exact Hf'|discriminate]]).
  assert (Hdone : wp F (ret false) (collected seq r) r) by (apply Hno; [exact Hi|apply follows_refl]).
  apply wp_bind, wp_get. destruct (Z.leb_spec seq (ARU r)) as [|HA]; [exact Hdone|].
  apply wp_bind, wp_view_admits. intros b _. destruct b; cbn [negb]; [|exact Hdone].
  apply wp_bind, (wp_Get_ORD_Slot r seq); [exact Hi|exact (vk_seq _ Hv)|intros (_ & Hg & _); lia|].
  intros s r1 Hi1 Es Hf1 _. destruct (i_keys Hi1 _ _ Es) as [_ Hok].
  assert (Hdone1 : wp F (ret false) (collected seq r) r1) by (apply Hno; assumption).
  pose proof (vk_from _ Hv) as Hfrom. destruct (so_commit Hok) as [Hlen _].
  apply wp_bind, wp_aget; [rewrite Hlen; unfold NUM_SERVER_SLOTS; lia|].
  intros old Eold. destruct old as [u|]; cbn [is_Some bool_decide]; [exact Hdone1|].
  rewrite bool_decide_false by (intros [x Hx]; discriminate).
  destruct (negb _); [exact Hdone1|].
  apply wp_bind, wp_aset; [rewrite Hlen; unfold NUM_SERVER_SLOTS; lia|]. intros l El.
  apply wp_bind, (wp_upd _ _ s); [exact Es|]. set (s1 := with_commit l s).
  destruct (leaves_set r r1 seq s s1 (fun _ => True) Hi1 Hf1 Es) as (Hi2 & Hf2 & _); [|slot_stays|exact I|].
  { intros []. split; auto; cbn.
    - eapply votes_ok_add; [exact so_commit|exact Hv|reflexivity|exact He|exact El].
    - intros H. destruct (so_ordered H) as (Ha & Hb). split; [exact Ha|].
      pose proof (matching_mono ORDER_Commit_Matches_Pre_Prepare (commit s) l
                    (complete_pre_prepare s) (aset_fills _ _ _ _ Eold El)). lia. }
  assert (Es1 : History (set_slot seq s1 r1) !! seq = Some s1) by apply lookup_set_slot.
  apply wp_bind, (wp_the_slot _ _ s1); [exact Es1|].
  destruct (ordered s1); [apply Hno; assumption|].
  destruct (ORDER_Commit_Certificate_Ready s1) eqn:Er; [|apply Hno; assumption].
  apply wp_bind. eapply wp_conseq; [apply (wp_Move_Commit_Certificate _ seq s1 Hi2 Es1 Er)|].
  intros [] r3 (Hi3 & Hf3 & s3 & Es3 & Ho).
  apply wp_ret. split; [exact Hi3|]. split; [eapply follows_trans; eassumption|]. eauto.
Qed.

Lemma wp_Process_Commit {exec : Executor E} {exec_ok : ExecutorOk F exec} r v :
  inv r -> vote_ok v -> EvC v ->
  wp F (ORDER_Process_Commit VAR v) (fun _ => handled VAR EvPP EvP EvC r) r.
Proof.
  intros Hi Hv He. apply wp_bind. eapply wp_conseq; [apply wp_collect_commit; assumption|].
  intros b r3 (Hi3 & Hf3 & Ho). destruct b; [|apply wp_ret, handled_of; assumption].
  destruct (Ho eq_refl) as (s3 & Es3 & Ho3).
  eapply wp_conseq; [apply (Execute_Commit_keeps VAR EvPP EvP EvC _ s3 r3 Hi3 Es3 Ho3 HVAR)|].
  intros [] r4 K4. eapply follows_handled; [exact Hf3|exact K4].
Qed.
End Handlers.
