(* ===== verification/OrderSystem.v ===== *)
(** The replicas of a view ordering messages together.

    The correct replicas run the handlers of [Order.v] on messages of each
    other, in any order, any number of times, and the leader its timer; the
    faulty ones send anything under their own names.  Slots whose PO-Requests have
    arrived are executed at any time, and between two messages the other components
    of a replica may do whatever [keeps] lets them, and catchup what [adopts] does.
    A system starts with every replica's [ORDER_Initialize_Data_Structure] and runs as
    long as no replica leaves its view. *)
From Stdlib Require Import ZArith Lia List Bool.
From Stdlib Require Import Strings.Byte.
From stdpp Require Import base list gmap fin_sets relations.
From S2P Require Import Prelude Memory Config Packets Crypto Utility Eligibility EligibilityCorrect OrderState Order OrderCorrect OrderHandlers.

(** ** The image of a complete Pre-Prepare determines it *)
Lemma le_encode4_inj a b : is_u32 a -> is_u32 b -> le_encode 4 a = le_encode 4 b -> a = b.
Proof.
  intros Ha Hb H. apply (f_equal le_decode) in H. rewrite !le_decode_encode in H.
  change (256 ^ Z.of_nat 4) with two32 in H.
  rewrite (Z.mod_small a), (Z.mod_small b) in H by assumption. exact H.
Qed.

Lemma pair_bytes_inj p q : pair_ok p -> pair_ok q -> pair_bytes p = pair_bytes q -> p = q.
Proof.
  intros [Hp1 Hp2] [Hq1 Hq2] H. unfold pair_bytes in H.
  apply app_inj_1 in H as [H1 H2]; [|rewrite !length_le_encode; reflexivity].
  apply le_encode4_inj in H1; [|assumption..]. apply le_encode4_inj in H2; [|assumption..].
  destruct p, q. cbn in *. congruence.
Qed.

Lemma pairs_bytes_inj l : forall l', length l = length l' -> Forall pair_ok l -> Forall pair_ok l' ->
  concat (map pair_bytes l) = concat (map pair_bytes l') -> l = l'.
Proof.
  induction l as [|p l IH]; intros [|q l'] Hl H1 H2 E; try discriminate; [reflexivity|].
  inversion H1; inversion H2; subst. cbn [map concat] in E.
  apply app_inj_1 in E as [E1 E2]; [|unfold pair_bytes; rewrite !length_app, !length_le_encode; reflexivity].
  f_equal; [apply pair_bytes_inj; assumption|apply IH; auto].
Qed.

Lemma length_pairs_bytes l : length (concat (map pair_bytes l)) = (8 * length l)%nat.
Proof.
  induction l as [|p l IH]; [reflexivity|]. cbn [map concat]. rewrite length_app, IH.
  unfold pair_bytes. rewrite length_app, !length_le_encode. cbn [length]. lia.
Qed.

Lemma complete_bytes_inj c c' :
  complete_ok c -> complete_ok c' -> complete_bytes c = complete_bytes c' -> c = c'.
Proof.
  intros [S1 V1 D1 L1 P1 M1] [S2 V2 D2 L2 P2 M2] H. unfold complete_bytes in H.
  apply app_inj_1 in H as [H1 H]; [|rewrite !length_le_encode; reflexivity].
  apply app_inj_1 in H as [H2 H]; [|rewrite !length_le_encode; reflexivity].
  apply app_inj_1 in H as [H3 H]; [|lia].
  apply app_inj_1 in H as [H4 H5]; [|rewrite !length_pairs_bytes; lia].
  apply le_encode4_inj in H1; [|assumption..]. apply le_encode4_inj in H2; [|assumption..].
  apply pairs_bytes_inj in H4; [|lia|assumption..].
  destruct c, c'. cbn in *. congruence.
Qed.

(** ** More evidence *)
Lemma inv_mono {crypto : Crypto} {E} VAR (EvPP EvPP' : pre_prepare_mess -> Prop)
    (EvP EvC EvP' EvC' : vote -> Prop) (r : order_state (E := E)) :
  (forall m, EvPP m -> EvPP' m) -> (forall v, EvP v -> EvP' v) -> (forall v, EvC v -> EvC' v) ->
  (forall m, EvPP' m -> pp_machine_id m = My_Server_ID VAR ->
     exists m0, sent r m0 /\ unsigned m = unsigned m0) ->
  inv VAR EvPP EvP EvC r -> inv VAR EvPP' EvP' EvC' r.
Proof.
  intros HPP HP HC Hown.
  assert (Hlead : forall pp, of_leader EvPP pp -> of_leader EvPP' pp) by (intros pp (m & Hm & Hr); exists m; auto).
  intros [H1 HCs HPs HLs H5 H6 H7 H8 H9 H10]. split; auto.
  - intros seq s Es. destruct (H1 seq s Es) as [Hk []]. split; [exact Hk|]. split; auto.
    + intros Hn. destruct (so_first Hn) as [Ha (m & Hm & He & Hr)]. split; [exact Ha|]. exists m. auto.
    + destruct so_prepare as [Hl Hv]. split; [exact Hl|]. intros j v Ev.
      destruct (Hv j v Ev) as (?&?&?&?&?). split; [auto|]. split; [auto|]. split; [auto|]. split; auto.
    + destruct so_commit as [Hl Hv]. split; [exact Hl|]. intros j v Ev. destruct (Hv j v Ev) as (?&?&?&?). auto.
  - destruct HCs as [A B C D G]. split; auto. intros v Hv. destruct (G v Hv) as (Q & HQ & Hs & HQ').
    exists Q. split; [exact HQ|]. split; [exact Hs|]. intros j Hj.
    destruct (HQ' j Hj) as (u & [Hu Hl] & Hr). exists u. split; [split; auto|exact Hr].
  - destruct HPs as [A B C D G I J]. split; auto. intros v Hv.
    destruct (I v Hv) as (pp & K1 & K2 & K3 & K4 & K5 & K6). exists pp.
    do 4 (split; [assumption|]). split; [exact (Hlead pp K5)|].
    destruct K6 as [K6|(v' & pp' & L1 & L2 & L3 & L4 & L5 & L6)]; [left; exact K6|right].
    exists v', pp'. auto 10.
  - destruct HLs as [A B C]. split; auto.
Qed.

(** ** What catchup does to a slot *)
Section Adopting.
Context {crypto : Crypto} {E : Type} (VAR : server_variables).
Context (EvPP : pre_prepare_mess -> Prop) (EvP EvC : vote -> Prop).
Implicit Types r : order_state (E := E).
Abbreviation inv := (inv VAR EvPP EvP EvC).

(** The replica has voted for nothing in the slot. *)
Definition not_voted r (seq : Z) : Prop :=
  forall v, Send_Prepare v ∈ actions r \/ Send_Commit v ∈ actions r -> v_seq_num v <> seq.

(** A slot that is not ordered is created, made ready for the Commits of a
    certificate, or dropped when nothing was voted for in it. *)
Inductive adopts r (seq : Z) : order_state -> Prop :=
| adopts_new : History r !! seq = None -> adopts r seq (set_slot seq (new_ord_slot seq) r)
| adopts_slot s l : History r !! seq = Some s -> ordered s = false ->
    adopts r seq (set_slot seq (adopt_certificate l s) r)
| adopts_dropped s : History r !! seq = Some s -> ordered s = false -> not_voted r seq ->
    adopts r seq (set_History (delete seq (History r)) r).

Lemma aget_first {A} (l : list A) x n i y :
  aget (take 1 l ++ repeat x n) i = Some y -> aget l i = Some y \/ y = x.
Proof.
  unfold aget, in_bounds. intros H.
  destruct (0 <=? i) eqn:E0; [|discriminate]. apply Z.leb_le in E0.
  destruct (i <? _) eqn:Hi in H; [|discriminate]. cbn [andb] in *.
  destruct (lt_dec (Z.to_nat i) (length (take 1 l))) as [Hlt|Hge].
  - left. rewrite lookup_app_l in H by exact Hlt. rewrite length_take in Hlt.
    replace (i <? _) with true by lia. rewrite lookup_take_lt in H by lia. exact H.
  - right. rewrite lookup_app_r in H by lia.
    apply list_elem_of_lookup_2, list_elem_of_In, repeat_spec in H. exact H.
Qed.

Lemma adopt_ok (Own : pre_prepare_mess -> Prop) cur aru seq l s :
  ordered s = false -> slot_ok VAR EvPP EvP EvC Own cur aru seq s ->
  slot_ok VAR EvPP EvP EvC Own cur aru seq (adopt_certificate l s).
Proof.
  intros Ho []. split; auto; cbn [adopt_certificate with_commit take_ord_snapshot ordered commit]; try congruence.
  destruct so_commit as [Hl Hv]. split.
  - rewrite length_app, length_take, repeat_length.
    change NUM_SERVER_SLOTS with 7 in *. change (Z.to_nat NUM_SERVERS) with 6%nat. lia.
  - intros j v Hj. apply aget_first in Hj as [Hj|Hj]; [|discriminate]. exact (Hv j v Hj).
Qed.

Lemma inv_delete_slot r seq s :
  inv r -> History r !! seq = Some s -> ordered s = false -> not_voted r seq ->
  inv (set_History (delete seq (History r)) r).
Proof.
  intros Hi Es Ho Hno. set (r' := set_History _ r).
  assert (Hgone : forall q, gone r q -> gone r' q).
  { intros q (G1 & G2). split; [|exact G2]. cbn. rewrite lookup_delete_ne; [exact G1|congruence]. }
  assert (Hslot : forall (P : ord_slot -> Prop) q, q <> seq ->
    (exists t, History r !! q = Some t /\ P t) \/ gone r q -> (exists t, History r' !! q = Some t /\ P t) \/ gone r' q).
  { intros P q Hne [(t & Et & Ht)|Hg]; [left|right; apply Hgone, Hg].
    exists t. cbn. rewrite lookup_delete_ne by congruence. auto. }
  destruct Hi as [H1 [C1 C2 C3 C4 C5] [P1 P2 P3 P4 P5 P6 P7] [L1 L2 L3] H5 H6 H7 H8 H9 H10 H11 H12 H13]. split; auto.
  - intros q t Et. cbn in Et. apply lookup_delete_Some in Et as [_ Et]. exact (H1 q t Et).
  - split; auto.
  - split; auto.
  - split; auto.
  - intros n Hn. destruct (H9 n Hn) as (t & Et & Hot). exists t. split; [|exact Hot]. cbn.
    rewrite lookup_delete_ne; [exact Et|congruence].
Qed.

(** Catchup keeps the invariant of a replica, above what it has executed. *)
Lemma inv_adopts r seq r' :
  inv r -> ARU r < seq < two32 -> 0 < seq -> adopts r seq r' -> inv r' /\ follows r r'.
Proof.
  intros Hi Hseq Hpos Ha.
  assert (Hf : follows r r') by (destruct Ha; (apply follows_silent; [split|]; reflexivity)).
  split; [|exact Hf]. destruct Ha as [Hn|s l Es Ho|s Es Ho Hno].
  - apply inv_new_slot; [exact Hi|lia|exact Hn|]. intros (_ & Hg & _). lia.
  - apply (inv_set_slot _ _ _ _ _ seq s); [exact Hi|exact Es|apply adopt_ok, Ho|].
    intros Hc. cbn. repeat split; auto.
  - eapply inv_delete_slot; eassumption.
Qed.
End Adopting.

(** ** The system *)
Lemma calls_more {E} (F F' : fault -> Prop) (calls : OrderCalls E) : (forall f, F f -> F' f) ->
  OrderCallsOk F calls -> OrderCallsOk F' calls.
Proof. intros HF [H1 H2 H3]. split; intros; (eapply wp_fault; [|auto]); exact HF. Qed.

Lemma calls_any {E} F (calls : OrderCalls E) : OrderCallsOk F calls -> OrderCallsOk any_fault calls.
Proof. apply calls_more. intros; exact I. Qed.

Lemma exec_more {crypto : Crypto} {E} (F F' : fault -> Prop) (exec : Executor E) : (forall f, F f -> F' f) ->
  ExecutorOk F exec -> ExecutorOk F' exec.
Proof. intros HF [H1 H2]. split; intros; (eapply wp_fault; [|eauto]); exact HF. Qed.

Lemma exec_any {crypto : Crypto} {E} F (exec : Executor E) : ExecutorOk F exec -> ExecutorOk any_fault exec.
Proof. apply exec_more. intros; exact I. Qed.

Section System.
Context {crypto : Crypto} (ok : CryptoOk crypto) {E : Type} {calls : OrderCalls E} {exec : Executor E}.
Context (faulty : gset Z).
Implicit Types r : order_state (E := E).

(** The Pre-Prepares that correct replicas have received, and their states. *)
Definition system : Type := list pre_prepare_mess * (Z -> order_state (E := E)).
Definition received (σ : system) : list pre_prepare_mess := fst σ.
Definition node (σ : system) : Z -> order_state (E := E) := snd σ.

Definition correct (i : Z) : Prop := 1 <= i <= NUM_SERVERS /\ i ∉ faulty.

(** Signatures tie a message to its sender. *)
Definition proposed_by (σ : system) (m : pre_prepare_mess) : Prop :=
  pp_machine_id m ∈ faulty \/
  exists m0, Send_Pre_Prepare m0 ∈ actions (node σ (pp_machine_id m)) /\ unsigned m = unsigned m0.
Definition prepared_by (σ : system) (v : vote) : Prop :=
  v_machine_id v ∈ faulty \/ Send_Prepare v ∈ actions (node σ (v_machine_id v)).
Definition committed_by (σ : system) (v : vote) : Prop :=
  v_machine_id v ∈ faulty \/ Send_Commit v ∈ actions (node σ (v_machine_id v)).

Inductive input :=
| In_Pre_Prepare (m : pre_prepare_mess)
| In_Prepare (v : vote)
| In_Commit (v : vote).

Definition receivable (σ : system) (m : input) : Prop :=
  match m with
  | In_Pre_Prepare m => pre_prepare_ok m /\ proposed_by σ m
  | In_Prepare v => vote_ok v /\ prepared_by σ v
  | In_Commit v => vote_ok v /\ committed_by σ v
  end.

Definition ORDER_Process (i : Z) (m : input) : comp order_state unit :=
  match m with
  | In_Pre_Prepare m => ORDER_Process_Pre_Prepare (Init_VAR i) m
  | In_Prepare v => ORDER_Process_Prepare (Init_VAR i) v
  | In_Commit v => ORDER_Process_Commit (Init_VAR i) v
  end.

Definition set_node (σ : system) (i : Z) (r : order_state) : system :=
  (received σ, fun j => if Z.eq_dec j i then r else node σ j).

Definition receive (σ : system) (m : input) : system :=
  match m with In_Pre_Prepare m => (m :: received σ, node σ) | _ => σ end.

(** A leader proposes while its view lasts, behind no slot it has executed, and
    its sequence numbers do not wrap. *)
Definition may_propose (r : order_state (E := E)) : Prop :=
  view_change_done r = true /\ ARU r < next_seq r /\ next_seq r + 1 < two32.

Inductive step (σ : system) : system -> Prop :=
| step_message i m r' :
    correct i -> receivable σ m -> ORDER_Process i m (node σ i) = Ret (tt, r') ->
    same_view (node σ i) r' -> step σ (set_node (receive σ m) i r')
| step_leader i r' :
    correct i -> may_propose (node σ i) -> ORDER_Periodically (Init_VAR i) (node σ i) = Ret (tt, r') ->
    step σ (set_node σ i r')
| step_execute i r' :
    correct i -> ORDER_Attempt_To_Execute_Pending_Commits (Init_VAR i) (node σ i) = Ret (tt, r') ->
    same_view (node σ i) r' -> step σ (set_node σ i r')
| step_other i r' :
    correct i -> keeps True (node σ i) r' -> step σ (set_node σ i r')
| step_adopt i seq r' :
    correct i -> 0 < seq < two32 -> ARU (node σ i) < seq -> adopts (node σ i) seq r' ->
    step σ (set_node σ i r').

(** Where a system starts. *)
Definition ready_to_start (r : order_state (E := E)) : Prop :=
  actions r = [] /\ arrays_ok r /\ Z.of_nat (length (proposal_digest r)) = DIGEST_SIZE.

Inductive reachable : system -> Prop :=
| reach_init σ0 : (forall i, ready_to_start (σ0 i)) ->
    reachable ([], fun i => ORDER_Initialize_Data_Structure (σ0 i))
| reach_step σ σ' : reachable σ -> step σ σ' -> reachable σ'.

(** What the invariant of a replica rests on. *)
Definition proposed (σ : system) (m : pre_prepare_mess) : Prop := m ∈ received σ /\ proposed_by σ m.

Definition system_inv (σ : system) : Prop :=
  forall i, correct i -> inv (Init_VAR i) (proposed σ) (prepared_by σ) (committed_by σ) (node σ i).

Lemma quorum_ok i : 1 <= 2 * VF (Init_VAR i) + VK (Init_VAR i) + 1 <= NUM_SERVERS.
Proof. vm_compute. split; discriminate. Qed.

Lemma own_proposed σ m i :
  correct i -> proposed_by σ m -> pp_machine_id m = My_Server_ID (Init_VAR i) ->
  exists m0, sent (node σ i) m0 /\ unsigned m = unsigned m0.
Proof. intros [_ Hc] Hm Hme. cbn in Hme. subst i. destruct Hm as [Hm|Hm]; [contradiction|exact Hm]. Qed.

(** Receiving, and running on. *)
Definition extends (σ σ' : system) : Prop :=
  (forall m, m ∈ received σ -> m ∈ received σ') /\
  forall a i, a ∈ actions (node σ i) -> a ∈ actions (node σ' i).

Lemma proposed_by_extends σ σ' m : extends σ σ' -> proposed_by σ m -> proposed_by σ' m.
Proof. intros [_ Ha] [H|(m0 & H & Hu)]; [left|right]; eauto. Qed.

Lemma inv_extends σ σ' i r :
  correct i -> extends σ σ' -> (forall a, a ∈ actions (node σ' i) -> a ∈ actions r) ->
  inv (Init_VAR i) (proposed σ) (prepared_by σ) (committed_by σ) r ->
  inv (Init_VAR i) (proposed σ') (prepared_by σ') (committed_by σ') r.
Proof.
  intros Hc Hx Hsub. apply inv_mono.
  - intros m [Hm Hb]. split; [apply Hx, Hm|eapply proposed_by_extends; eassumption].
  - intros v [Hv|Hv]; [left; exact Hv|right; apply Hx, Hv].
  - intros v [Hv|Hv]; [left; exact Hv|right; apply Hx, Hv].
  - intros m [_ Hb] Hme. destruct (own_proposed σ' m i Hc Hb Hme) as (m0 & H0 & Hu).
    exists m0. split; [apply Hsub, H0|exact Hu].
Qed.

Lemma receive_extends σ m : extends σ (receive σ m).
Proof. destruct m; split; cbn; auto. intros m' Hm'. right. exact Hm'. Qed.

Lemma receive_inv σ m : system_inv σ -> system_inv (receive σ m).
Proof.
  intros Hinv i Hc. replace (node (receive σ m) i) with (node σ i) by (destruct m; reflexivity).
  apply (inv_extends σ); [exact Hc|apply receive_extends| |exact (Hinv i Hc)].
  destruct m; auto.
Qed.

(** A Pre-Prepare with more PO-ARUs than there are servers. *)
Definition too_wide (m : input) : Prop :=
  match m with In_Pre_Prepare m => NUM_SERVERS < pp_num_acks m | _ => False end.

Lemma process_handled F {calls_ok : OrderCallsOk F calls} {exec_ok : ExecutorOk F exec}
    (HF : F AssertFailure) σ i m :
  (too_wide m -> F OutOfBounds) -> system_inv σ -> correct i -> receivable σ m ->
  let σ1 := receive σ m in
  wp F (ORDER_Process i m)
    (fun _ => handled (Init_VAR i) (proposed σ1) (prepared_by σ1) (committed_by σ1) (node σ i)) (node σ i).
Proof.
  intros Hwide Hinv Hc Hm σ1. pose proof (receive_inv σ m Hinv i Hc) as Hi. fold σ1 in Hi.
  replace (node σ1 i) with (node σ i) in Hi by (destruct m; reflexivity).
  destruct m as [m|v|v]; cbn [ORDER_Process]; destruct Hm as [Hm He].
  - apply wp_Process_Pre_Prepare; auto using quorum_ok. split; [left|exact He].
  - apply wp_Process_Prepare; auto using quorum_ok.
  - apply wp_Process_Commit; auto using quorum_ok.
Qed.

Lemma set_node_extends σ i r' :
  (exists l, actions r' = actions (node σ i) ++ l) -> extends σ (set_node σ i r').
Proof.
  intros [l El]. split; [auto|]. intros a k Ha. cbn.
  destruct (Z.eq_dec k i) as [->|]; [rewrite El, elem_of_app; auto|exact Ha].
Qed.

Lemma set_node_eq σ i r : node (set_node σ i r) i = r.
Proof. cbn. destruct (Z.eq_dec i i); congruence. Qed.

Lemma order_system_inv_set σ i r' :
  system_inv σ -> correct i -> inv (Init_VAR i) (proposed σ) (prepared_by σ) (committed_by σ) r' ->
  follows (node σ i) r' -> system_inv (set_node σ i r').
Proof.
  intros Hinv Hc Hi [_ Hl] j Hj. apply (inv_extends σ); [exact Hj|apply set_node_extends, Hl|auto|].
  cbn. destruct (Z.eq_dec j i) as [->|]; [exact Hi|exact (Hinv j Hj)].
Qed.

Section Steps.
Context {calls_ok : OrderCallsOk any_fault calls} {exec_ok : ExecutorOk any_fault exec}.

Lemma step_keeps_inv σ σ' : system_inv σ -> step σ σ' -> system_inv σ' /\ extends σ σ'.
Proof.
  intros Hinv [i m r' Hc Hm E1 Hv|i r' Hc (HD & HA & Hn) E1|i r' Hc E1 Hv|i r' Hc K|i seq r' Hc Hseq HA Had].
  - pose proof (process_handled any_fault I σ i m (fun _ => I) Hinv Hc Hm) as H. unfold wp in H. rewrite E1 in H.
    destruct (H Hv) as [Hi Hf].
    assert (En : node (receive σ m) i = node σ i) by (destruct m; reflexivity).
    split; [apply order_system_inv_set; [apply receive_inv, Hinv|exact Hc|exact Hi|rewrite En; exact Hf]|].
    destruct (receive_extends σ m) as [X1 X2].
    destruct (set_node_extends (receive σ m) i r') as [Y1 Y2]; [rewrite En; apply Hf|].
    split; auto.
  - pose proof (wp_Periodically any_fault (Init_VAR i) (quorum_ok i) _ _ _ _ (Hinv i Hc) I HD Hn) as H.
    unfold wp in H. rewrite E1 in H. destruct H as [Hi Hf]; [intros (_ & Hg & _); lia|].
    split; [apply order_system_inv_set; assumption|apply set_node_extends, Hf].
  - pose proof (Execute_Pending_keeps (Init_VAR i) _ _ _ _ (Hinv i Hc) (quorum_ok i)) as H.
    unfold wp in H. rewrite E1 in H. destruct (H Hv) as [Hi Hf].
    split; [apply order_system_inv_set; assumption|apply set_node_extends, Hf].
  - pose proof (keeps_follows _ _ _ K) as Hf.
    split; [|apply set_node_extends, Hf]. apply order_system_inv_set; auto.
    eapply inv_keeps; [exact (Hinv i Hc)|exact K].
  - destruct (inv_adopts _ _ _ _ _ seq r' (Hinv i Hc) ltac:(lia) ltac:(lia) Had) as [Hi Hf].
    split; [apply order_system_inv_set; assumption|apply set_node_extends, Hf].
Qed.

Lemma start_inv VAR EvP EvC r :
  ready_to_start r -> inv VAR (fun _ => False) EvP EvC (ORDER_Initialize_Data_Structure r).
Proof.
  intros (Ha & Hr & Hd).
  assert (Hno : forall a, a ∈ actions (ORDER_Initialize_Data_Structure r) -> False).
  { cbn. rewrite Ha. intros a H. apply elem_of_nil in H. exact H. }
  assert (HU : is_u32 0) by (unfold is_u32, two32; lia).
  split; auto; try (cbn; unfold two32; lia).
  - intros q s Es. cbn in Es. rewrite lookup_empty in Es. discriminate.
  - split; intros; exfalso; eauto.
  - split; intros; exfalso; now eauto.
  - split; intros; exfalso; eauto.
  - intros n Hn. destruct (not_elem_of_empty n Hn).
Qed.

Lemma order_reachable_inv σ : reachable σ -> system_inv σ.
Proof.
  induction 1 as [σ0 H0|σ σ' _ IH Hs]; [|exact (proj1 (step_keeps_inv σ σ' IH Hs))].
  intros i Hc. apply (inv_mono _ (fun _ => False) _ (fun _ => False) (fun _ => False)); try contradiction.
  - intros m [Hm _] _. apply elem_of_nil in Hm. destruct Hm.
  - apply start_inv, H0.
Qed.
End Steps.

(** ** What a quorum has committed *)
(** The complete Pre-Prepares made of the received messages do not collide. *)
Definition collision_free (l : list pre_prepare_mess) : Prop :=
  forall m m', m ∈ l -> m' ∈ l ->
    make_digest (complete_bytes (complete_of m)) = make_digest (complete_bytes (complete_of m')) ->
    complete_bytes (complete_of m) = complete_bytes (complete_of m').

(** A quorum stands behind a slot's content: of its members, the correct ones
    have sent a Commit for it. *)
Definition committed (σ : system) (seq view : Z) (d : digest) : Prop :=
  exists Q : gset Z, Q ⊆ server_ids NUM_SERVERS /\ COMMITS <= Z.of_nat (size Q) /\
    forall j, j ∈ Q -> j ∈ faulty \/
      exists v, Send_Commit v ∈ actions (node σ j) /\ v_seq_num v = seq /\ v_view v = view /\ v_digest v = d.

(** ... and it is a Pre-Prepare that was received. *)
Definition chosen (σ : system) (seq : Z) (c : complete_pre_prepare_message) : Prop :=
  committed σ seq (c_view c) (complete_digest c) /\ c_seq_num c = seq /\ 0 < seq /\ complete_ok c /\
  exists m, m ∈ received σ /\ c = complete_of m.

Lemma chosen_extends σ σ' seq c : extends σ σ' -> chosen σ seq c -> chosen σ' seq c.
Proof.
  intros [Hr Ha] ((Q & HQ & Hs & HV) & H1 & H2 & H3 & m & Hm & Em).
  split; [|split; [exact H1|split; [exact H2|split; [exact H3|eauto]]]].
  exists Q. split; [exact HQ|]. split; [exact Hs|]. intros j Hj.
  destruct (HV j Hj) as [?|(v & Hv & Hr')]; [left; assumption|right; eauto].
Qed.

Lemma ordered_committed σ i seq s :
  system_inv σ -> correct i -> History (node σ i) !! seq = Some s -> ordered s = true ->
  committed σ seq (c_view (complete_pre_prepare s)) (complete_digest (complete_pre_prepare s)).
Proof.
  intros Hinv Hc Es Ho. destruct (i_keys (Hinv i Hc) _ _ Es) as [_ Hok].
  destruct (so_ordered Hok Ho) as [_ Hcount].
  destruct (counted_votes _ ORDER_Commit_Matches_Pre_Prepare _ (complete_pre_prepare s) _
              (fun v => Commit_Matches_spec ok v _) (so_commit Hok)) as (Q & HQ & Hs & HV).
  exists Q. split; [exact HQ|]. split; [rewrite Hs; exact Hcount|].
  intros j Hj. destruct (HV j Hj) as (v & [He|He] & <- & Hr); [left; exact He|right; eauto].
Qed.

Lemma ordered_chosen σ i seq s :
  system_inv σ -> correct i -> History (node σ i) !! seq = Some s -> ordered s = true ->
  chosen σ seq (complete_pre_prepare s).
Proof.
  intros Hinv Hc Es Ho. split; [eapply ordered_committed; eassumption|].
  destruct (i_keys (Hinv i Hc) _ _ Es) as [Hk Hok]. destruct (so_ordered Hok Ho) as [Hcol _].
  pose proof (collected_parts _ _ _ _ _ _ _ Hok Hcol) as Hn.
  destruct (so_first Hok Hn) as [_ (m & _ & [Hm _] & _ & Hms & Ec)].
  split; [rewrite Ec; exact Hms|]. split; [lia|]. split; [exact (so_complete Hok)|eauto].
Qed.

Section Agreement.
Context (Hfaulty : Z.of_nat (size faulty) <= NUM_F).

(** Two quorums share a correct replica, which votes for one content in one view. *)
Lemma quorums_meet (X Y : gset Z) :
  X ⊆ server_ids NUM_SERVERS -> Y ⊆ server_ids NUM_SERVERS ->
  COMMITS <= Z.of_nat (size X) -> COMMITS <= Z.of_nat (size Y) ->
  exists j, j ∈ X /\ j ∈ Y /\ j ∉ faulty /\ correct j.
Proof.
  intros HX HY Hx Hy.
  destruct (quorums_share_correct NUM_F NUM_K ltac:(vm_compute; discriminate) ltac:(vm_compute; discriminate)
              X Y faulty HX HY Hfaulty Hx Hy) as (j & HjX & HjY & Hj).
  exists j. split; [exact HjX|]. split; [exact HjY|]. split; [exact Hj|].
  split; [apply elem_of_server_ids, HX, HjX|exact Hj].
Qed.

Lemma committed_agree σ seq view d view' d' :
  system_inv σ -> committed σ seq view d -> committed σ seq view' d' -> view = view' /\ d = d'.
Proof.
  intros Hinv (X & HX & Hsx & EX) (Y & HY & Hsy & EY).
  destruct (quorums_meet X Y HX HY Hsx Hsy) as (j & HjX & HjY & Hj & Hcj).
  destruct (EX j HjX) as [?|(v & Hv & Hs & Hvw & Hd)]; [contradiction|].
  destruct (EY j HjY) as [?|(v' & Hv' & Hs' & Hvw' & Hd')]; [contradiction|].
  assert (v = v') as <- by (apply (c_once (i_commits (Hinv j Hcj))); congruence).
  split; congruence.
Qed.

Lemma committed_views σ seq view d seq' view' d' :
  system_inv σ -> committed σ seq view d -> committed σ seq' view' d' -> view = view'.
Proof.
  intros Hinv (X & HX & Hsx & EX) (Y & HY & Hsy & EY).
  destruct (quorums_meet X Y HX HY Hsx Hsy) as (j & HjX & HjY & Hj & Hcj).
  destruct (EX j HjX) as [?|(v & Hv & Hs & Hvw & Hd)]; [contradiction|].
  destruct (EY j HjY) as [?|(v' & Hv' & Hs' & Hvw' & Hd')]; [contradiction|].
  rewrite <- Hvw, <- Hvw'. rewrite !(c_view_is (i_commits (Hinv j Hcj))); auto.
Qed.
End Agreement.
(** ** The chain of Pre-Prepares *)
(** A quorum of non-leaders stands behind a prepared content. *)
Definition prepared (σ : system) (seq view : Z) (d : digest) : Prop :=
  exists P : gset Z, P ⊆ server_ids NUM_SERVERS ∖ {[UTIL_Leader_Of_View view]} /\
    PREPARES <= Z.of_nat (size P) /\
    forall j, j ∈ P -> j ∈ faulty \/
      exists v, Send_Prepare v ∈ actions (node σ j) /\ v_seq_num v = seq /\ v_view v = view /\ v_digest v = d.

(** A received Pre-Prepare of the leader, as its complete Pre-Prepare. *)
Definition proposal (σ : system) (c : complete_pre_prepare_message) : Prop :=
  complete_ok c /\ of_leader (proposed σ) c.

Lemma prepare_proposal σ j v :
  system_inv σ -> correct j -> Send_Prepare v ∈ actions (node σ j) ->
  exists c, proposal σ c /\ c_seq_num c = v_seq_num v /\ c_view c = v_view v /\ complete_digest c = v_digest v.
Proof.
  intros Hinv Hc Hv.
  destruct (p_chained (i_prepares (Hinv j Hc)) v Hv) as (c & Hok & Hs & Hw & Hd & Hl & _).
  exists c. unfold proposal. auto.
Qed.

Lemma proposals_equal σ c c' :
  collision_free (received σ) -> proposal σ c -> proposal σ c' ->
  complete_digest c = complete_digest c' -> c = c'.
Proof.
  intros Hcf [Hok (m & [Hm _] & _ & ->)] [Hok' (m' & [Hm' _] & _ & ->)] Hd.
  apply complete_bytes_inj; [exact Hok|exact Hok'|]. apply Hcf; assumption.
Qed.

Lemma chosen_proposal σ seq c c' :
  collision_free (received σ) -> chosen σ seq c -> proposal σ c' -> complete_digest c = complete_digest c' -> c = c'.
Proof.
  intros Hcf (_ & _ & _ & Hok & m & Hm & ->) [Hok' (m' & [Hm' _] & _ & ->)] Hd.
  apply complete_bytes_inj; [exact Hok|exact Hok'|]. apply Hcf; assumption.
Qed.

Lemma eligible_for_any i j c : eligible_for (Init_VAR i) c = eligible_for (Init_VAR j) c.
Proof. reflexivity. Qed.

(** The predecessor of a prepared Pre-Prepare, at the same replica. *)
Lemma prepare_predecessor σ j v :
  collision_free (received σ) -> system_inv σ -> correct j -> Send_Prepare v ∈ actions (node σ j) ->
  exists c, proposal σ c /\ complete_digest c = v_digest v /\
    (v_seq_num v = 1 /\ c_last_executed c = zero_pairs \/
     exists v' c', Send_Prepare v' ∈ actions (node σ j) /\ v_seq_num v' = v_seq_num v - 1 /\
       proposal σ c' /\ c_seq_num c' = v_seq_num v' /\ c_view c' = v_view v' /\
       complete_digest c' = v_digest v' /\ eligible_for (Init_VAR j) c' = Some (c_last_executed c)).
Proof.
  intros Hcf Hinv Hc Hv.
  destruct (p_chained (i_prepares (Hinv j Hc)) v Hv) as (c & Hok & Hs & Hw & Hd & Hl & Hch).
  exists c. split; [split; assumption|]. split; [exact Hd|].
  destruct Hch as [H1|(v' & c' & Hv' & Hs' & Hok' & Hd' & Hl' & He)]; [left; exact H1|right].
  exists v', c'. destruct (prepare_proposal σ j v' Hinv Hc Hv') as (c'' & Hp & Hs'' & Hw'' & Hd'').
  assert (c' = c'') as <- by (apply (proposals_equal σ); [exact Hcf|split; assumption|exact Hp|congruence]).
  auto 10.
Qed.

(** Along a chain the vectors only grow. *)
Lemma eligible_grows i c v :
  complete_ok c -> eligible_for (Init_VAR i) c = Some v -> Forall2 ps_le (c_last_executed c) v.
Proof.
  intros Hc Hv. eapply Forall2_impl.
  - eapply eligible_for_ge; [apply (quorum_ok i)|apply complete_sized, Hc|apply Hc|exact Hv].
  - intros p e H. exact (proj1 H).
Qed.

Section Chain.
Context (Hfaulty : Z.of_nat (size faulty) <= NUM_F).

Lemma correct_in (P : gset Z) :
  P ⊆ server_ids NUM_SERVERS -> NUM_F < Z.of_nat (size P) -> exists j, j ∈ P /\ j ∉ faulty /\ correct j.
Proof.
  intros HP Hs. assert (Hs' : NUM_F + 1 <= Z.of_nat (size P)) by lia.
  destruct (outside_faulty NUM_F P faulty Hfaulty Hs') as (j & Hj & Hf).
  exists j. split; [exact Hj|]. split; [exact Hf|]. split; [apply elem_of_server_ids, HP, Hj|exact Hf].
Qed.

Lemma committed_prepared σ seq view d :
  system_inv σ -> committed σ seq view d -> prepared σ seq view d.
Proof.
  intros Hinv (Q & HQ & Hs & HC).
  destruct (correct_in Q HQ) as (j & Hj & Hf & Hc); [assert (NUM_F < COMMITS) by reflexivity; lia|].
  destruct (HC j Hj) as [?|(v & Hv & <- & <- & <-)]; [contradiction|].
  destruct (c_prepared (i_commits (Hinv j Hc)) v Hv) as (P & HP & Hsp & HPv).
  exists P. split; [|split; [exact Hsp|]].
  - intros i Hi. apply elem_of_difference. split; [exact (HP i Hi)|].
    destruct (HPv i Hi) as (u & [_ Hl] & <- & _ & Hw & _). rewrite elem_of_singleton, <- Hw. exact Hl.
  - intros i Hi. destruct (HPv i Hi) as (u & [[Hu|Hu] _] & <- & Hr); [left; exact Hu|right; eauto].
Qed.
(** A correct replica of a prepared quorum. *)
Lemma prepared_member σ seq view d :
  prepared σ seq view d -> exists j v, correct j /\ Send_Prepare v ∈ actions (node σ j) /\
    v_seq_num v = seq /\ v_view v = view /\ v_digest v = d.
Proof.
  intros (P & HP & Hs & HV).
  destruct (correct_in P) as (j & Hj & Hf & Hc); [set_solver|assert (NUM_F < PREPARES) by reflexivity; lia|].
  destruct (HV j Hj) as [?|(v & Hv)]; [contradiction|eauto].
Qed.

Lemma leader_id view : UTIL_Leader_Of_View view ∈ server_ids NUM_SERVERS.
Proof.
  apply elem_of_server_ids. unfold UTIL_Leader_Of_View. change NUM_SERVERS with 6.
  pose proof (Z.mod_pos_bound view 6 ltac:(lia)). destruct (Z.eqb_spec (view mod 6) 0); lia.
Qed.

(** The contents a correct leader proposes for a number in a view. *)
Lemma leader_proposes_once σ c c' :
  system_inv σ -> correct (UTIL_Leader_Of_View (c_view c)) ->
  proposal σ c -> proposal σ c' -> c_view c = c_view c' -> c_seq_num c = c_seq_num c' -> c = c'.
Proof.
  intros Hinv Hc [_ (m & [_ Hm] & Hl & ->)] [_ (m' & [_ Hm'] & Hl' & ->)] Hw Hs. cbn in Hw, Hs, Hc.
  destruct (own_proposed σ m _ Hc Hm Hl) as (m0 & H0 & Hu).
  rewrite <- Hw in Hl'. destruct (own_proposed σ m' _ Hc Hm' Hl') as (m0' & H0' & Hu').
  assert (m0 = m0') as <-.
  { apply (l_once (i_proposals (Hinv _ Hc))); auto. rewrite <- (unsigned_seq _ _ Hu), <- (unsigned_seq _ _ Hu'). exact Hs. }
  apply complete_of_unsigned. congruence.
Qed.

Lemma chosen_first σ c :
  collision_free (received σ) -> system_inv σ -> chosen σ 1 c -> c_last_executed c = zero_pairs.
Proof.
  intros Hcf Hinv Hch. pose proof Hch as (Hcom & _).
  destruct (prepared_member _ _ _ _ (committed_prepared _ _ _ _ Hinv Hcom)) as (j & v & Hc & Hv & Hs & _ & Hd).
  destruct (prepare_predecessor σ j v Hcf Hinv Hc Hv) as (c' & Hp & Hd' & Hpre).
  assert (c = c') as -> by (apply (chosen_proposal σ 1); auto; congruence).
  destruct Hpre as [[_ H]|(v' & _ & Hv' & Hs' & _)]; [exact H|].
  pose proof (p_bound (i_prepares (Hinv j Hc)) v' Hv'). lia.
Qed.

(** [c'] starts from the vector that [c] makes eligible. *)
Definition leads (c c' : complete_pre_prepare_message) : Prop :=
  complete_ok c /\ eligible_for (Init_VAR 1) c = Some (c_last_executed c').

(** Below a sent Prepare, the same replica has prepared every number, each content
    leading to the next. *)
Lemma prepare_chain σ j :
  collision_free (received σ) -> system_inv σ -> correct j -> forall (k : nat) v c,
  Send_Prepare v ∈ actions (node σ j) -> proposal σ c -> complete_digest c = v_digest v ->
  0 < v_seq_num v - Z.of_nat k ->
  exists v' c', Send_Prepare v' ∈ actions (node σ j) /\ v_seq_num v' = v_seq_num v - Z.of_nat k /\
    proposal σ c' /\ c_seq_num c' = v_seq_num v' /\ c_view c' = v_view v' /\
    complete_digest c' = v_digest v' /\ nsteps leads k c' c.
Proof.
  intros Hcf Hinv Hc. induction k as [|k IH]; intros v c Hv Hp Hd Hk.
  - destruct (prepare_proposal σ j v Hinv Hc Hv) as (c1 & Hp1 & Hs1 & Hw1 & Hd1).
    assert (c = c1) as -> by (apply (proposals_equal σ); auto; congruence).
    exists v, c1. split; [exact Hv|]. split; [lia|]. do 4 (split; [assumption|]). apply nsteps_O.
  - destruct (prepare_predecessor σ j v Hcf Hinv Hc Hv) as (c1 & Hp1 & Hd1 & Hpre).
    assert (c = c1) as -> by (apply (proposals_equal σ); auto; congruence).
    destruct Hpre as [[H1 _]|(v1 & c2 & Hv1 & Hs1 & Hp2 & _ & _ & Hd2 & He)]; [lia|].
    destruct (IH v1 c2 Hv1 Hp2 Hd2) as (v' & c' & H1 & H2 & H3 & H4 & H5 & H6 & H7); [lia|].
    exists v', c'. split; [exact H1|]. split; [lia|]. do 4 (split; [assumption|]).
    eapply nsteps_r; [exact H7|]. split; [apply Hp2|]. rewrite (eligible_for_any 1 j). exact He.
Qed.

(** Two chosen contents are linked by a chain of as many steps as lie between them. *)
Lemma chosen_path σ n c c' (k : nat) :
  collision_free (received σ) -> system_inv σ -> chosen σ n c -> chosen σ (n + Z.of_nat k) c' ->
  nsteps leads k c c'.
Proof.
  intros Hcf Hinv Hch Hch'. set (m := n + Z.of_nat k) in *.
  pose proof Hch as (Hcom & Hn & Hpos & _). pose proof Hch' as (Hcom' & _).
  assert (Hview : c_view c = c_view c') by (eapply committed_views; eassumption).
  pose proof (committed_prepared _ _ _ _ Hinv Hcom) as HP.
  pose proof (committed_prepared _ _ _ _ Hinv Hcom') as HP'.
  (* a correct replica whose Prepares lead from [c] to [c'] *)
  enough (exists j v, correct j /\ Send_Prepare v ∈ actions (node σ j) /\ v_seq_num v = m /\
            v_digest v = complete_digest c' /\
            forall v' c0, Send_Prepare v' ∈ actions (node σ j) -> v_seq_num v' = n -> proposal σ c0 ->
              c_seq_num c0 = n -> c_view c0 = v_view v' -> complete_digest c0 = v_digest v' -> c = c0)
    as (j & v & Hc & Hv & Hs & Hd & Hsame).
  { destruct (prepare_proposal σ j v Hinv Hc Hv) as (c1 & Hp1 & _ & _ & Hd1).
    assert (c' = c1) as -> by (apply (chosen_proposal σ m); auto; congruence).
    destruct (prepare_chain σ j Hcf Hinv Hc k v c1 Hv Hp1 Hd1) as (v' & c0 & H1 & H2 & H3 & H4 & H5 & H6 & H7);
      [lia|]. rewrite (Hsame v' c0); auto; lia. }
  destruct (decide (UTIL_Leader_Of_View (c_view c) ∈ faulty)) as [HL|HL].
  - (* two sets of preparers share one, who has prepared [c] *)
    destruct HP as (X & HX & Hx & EX). destruct HP' as (Y & HY & Hy & EY). rewrite <- Hview in HY.
    destruct (nonleaders_share_correct NUM_F NUM_K (UTIL_Leader_Of_View (c_view c)) X Y faulty)
      as (j & HjX & HjY & Hf); auto using leader_id; try (vm_compute; discriminate).
    assert (Hc : correct j) by (split; [apply elem_of_server_ids; set_solver|exact Hf]).
    destruct (EX j HjX) as [?|(u & Hu & Hsu & _ & Hdu)]; [contradiction|].
    destruct (EY j HjY) as [?|(v & Hv & Hsv & _ & Hdv)]; [contradiction|].
    exists j, v. split; [exact Hc|]. split; [exact Hv|]. split; [exact Hsv|]. split; [exact Hdv|].
    intros v' c0 Hv' Hs' Hp0 _ _ Hd0. apply (chosen_proposal σ n); auto.
    rewrite Hd0, <- Hdu. f_equal. apply (p_once (i_prepares (Hinv j Hc))); congruence.
  - (* the leader has proposed one content *)
    assert (HcL : correct (UTIL_Leader_Of_View (c_view c))) by (split; [apply elem_of_server_ids, leader_id|exact HL]).
    destruct (prepared_member _ _ _ _ HP) as (i0 & u & Hci & Hu & Hsu & Hwu & Hdu).
    destruct (prepare_proposal σ i0 u Hinv Hci Hu) as (c2 & Hp2 & Hs2 & Hw2 & Hd2).
    assert (c = c2) as <- by (apply (chosen_proposal σ n); auto; congruence).
    destruct (prepared_member _ _ _ _ HP') as (j & v & Hc & Hv & Hsv & Hwv & Hdv).
    exists j, v. split; [exact Hc|]. split; [exact Hv|]. split; [exact Hsv|]. split; [exact Hdv|].
    intros v' c0 Hv' Hs' Hp0 Hs0 Hw0 _. apply (leader_proposes_once σ); auto; [|congruence].
    rewrite Hw0, (p_view_is (i_prepares (Hinv j Hc)) v' Hv').
    rewrite <- (p_view_is (i_prepares (Hinv j Hc)) v Hv). congruence.
Qed.

Lemma chosen_next σ n c c' i :
  collision_free (received σ) -> system_inv σ -> chosen σ n c -> chosen σ (n + 1) c' ->
  eligible_for (Init_VAR i) c = Some (c_last_executed c').
Proof.
  intros Hcf Hinv Hch Hch'. rewrite (eligible_for_any i 1).
  apply (nsteps_once_inv (R := leads) c c'), (chosen_path σ n c c' 1 Hcf Hinv Hch Hch').
Qed.
End Chain.

End System.
