(* ===== verification/OrderLog.v ===== *)
(** The ordering protocol implements one log.

    The specification is a log to which decided Pre-Prepares are added, each at
    its own number, never changed, and each continuing from the vector of the one
    before it.  The replicas of a view implement it: whatever the faulty ones do,
    every step of the system is matched by steps of the log, and all that any
    correct replica has ordered is in the log. *)
From Stdlib Require Import ZArith Lia List Bool.
From Stdlib Require Import Strings.Byte.
From stdpp Require Import base list gmap fin_sets fin_maps relations.
From S2P Require Import Prelude Memory Config Packets Crypto Utility Eligibility EligibilityCorrect OrderState Order OrderCorrect OrderHandlers OrderSystem.

(** ** The specification *)
Abbreviation log := (gmap Z complete_pre_prepare_message).

(** The requests of each server up to [eligible c] are executed with [c]. *)
Definition eligible (c : complete_pre_prepare_message) : option (list po_seq_pair) :=
  eligible_for (Init_VAR 1) c.

(** [c] at number [n] continues from its predecessor in the log, and its
    successor from it. *)
Record fits (l : log) (n : Z) (c : complete_pre_prepare_message) : Prop := {
  f_new : l !! n = None;
  f_seq : 0 < n /\ c_seq_num c = n;
  f_first : n = 1 -> c_last_executed c = zero_pairs;
  f_after : forall p, l !! (n - 1) = Some p -> eligible p = Some (c_last_executed c);
  f_before : forall q, l !! (n + 1) = Some q -> eligible c = Some (c_last_executed q) }.

Inductive decide_step (l : log) : log -> Prop :=
| decided n c : fits l n c -> decide_step l (<[n := c]> l).

(** ** The refinement *)
Section Refinement.
Context {crypto : Crypto} (ok : CryptoOk crypto) {E : Type} {calls : OrderCalls E} {exec : Executor E}.
Context (faulty : gset Z) (Hfaulty : Z.of_nat (size faulty) <= NUM_F).
Context {calls_ok : OrderCallsOk any_fault calls} {exec_ok : ExecutorOk any_fault exec}.
Implicit Types σ : system (E := E).

(** What is in the log a quorum has committed; what is ordered is in the log. *)
Record implements σ (l : log) : Prop := {
  im_chosen : forall n c, l !! n = Some c -> chosen faulty σ n c;
  im_ordered : forall i n s, correct faulty i -> History (node σ i) !! n = Some s -> ordered s = true ->
    l !! n = Some (complete_pre_prepare s) }.

Lemma chosen_agree σ n c c' :
  collision_free (received σ) -> system_inv faulty σ -> chosen faulty σ n c -> chosen faulty σ n c' -> c = c'.
Proof.
  intros Hcf Hinv (Hc & _ & _ & Hok & m & Hm & Em) (Hc' & _ & _ & Hok' & m' & Hm' & Em').
  destruct (committed_agree faulty Hfaulty σ n _ _ _ _ Hinv Hc Hc') as [_ Hd].
  apply complete_bytes_inj; [exact Hok|exact Hok'|]. subst c c'. apply Hcf; assumption.
Qed.

Section State.
Context σ (Hcf : collision_free (received σ)) (Hinv : system_inv faulty σ).

(** A log of chosen entries takes any other chosen one. *)
Definition all_chosen (l : log) : Prop := forall n c, l !! n = Some c -> chosen faulty σ n c.

Lemma chosen_fits l n c : all_chosen l -> chosen faulty σ n c -> l !! n = None -> fits l n c.
Proof.
  intros Hl Hc Hn. split.
  - exact Hn.
  - destruct Hc as (_ & H1 & H2 & _). auto.
  - intros ->. apply (chosen_first ok faulty Hfaulty σ c Hcf Hinv Hc).
  - intros p Hp. apply (chosen_next ok faulty Hfaulty σ (n - 1) p c 1); auto.
    replace (n - 1 + 1) with n by lia. exact Hc.
  - intros q Hq. apply (chosen_next ok faulty Hfaulty σ n c q 1); auto.
Qed.

Lemma log_takes_map (m : log) : all_chosen m -> forall l, all_chosen l ->
  rtc decide_step l (l ∪ m) /\ all_chosen (l ∪ m).
Proof.
  induction m as [|n c m Hn IH] using map_ind; intros Hm l Hl.
  { rewrite (right_id_L ∅ (∪)). auto using rtc_refl. }
  assert (Hc : chosen faulty σ n c) by (apply Hm, lookup_insert_eq).
  destruct (IH) with (l := l) as [Hs Hx]; [|exact Hl|].
  { intros k d Hk. apply Hm. rewrite lookup_insert_ne; [exact Hk|congruence]. }
  destruct (l !! n) as [d|] eqn:El.
  - replace (l ∪ <[n:=c]> m) with (l ∪ m); [auto|]. apply map_eq. intros k. rewrite !lookup_union.
    destruct (Z.eq_dec k n) as [->|Hne]; [|rewrite lookup_insert_ne by congruence; reflexivity].
    rewrite El, lookup_insert_eq, Hn. reflexivity.
  - rewrite <- insert_union_r by exact El. split.
    + eapply rtc_r; [exact Hs|]. constructor. apply chosen_fits; [exact Hx|exact Hc|].
      rewrite lookup_union, El, Hn. reflexivity.
    + intros k d Hk. destruct (Z.eq_dec k n) as [->|Hne].
      * rewrite lookup_insert_eq in Hk. congruence.
      * rewrite lookup_insert_ne in Hk by congruence. auto.
Qed.

(** What a replica has ordered. *)
Definition ordered_at (i : Z) : log :=
  omap (fun s => if ordered s then Some (complete_pre_prepare s) else None) (History (node σ i)).

Lemma ordered_at_chosen i : correct faulty i -> all_chosen (ordered_at i).
Proof.
  intros Hc n c Hn. unfold ordered_at in Hn. rewrite lookup_omap in Hn.
  destruct (History (node σ i) !! n) as [s|] eqn:Es; [|discriminate]. cbn in Hn.
  destruct (ordered s) eqn:Ho; [|discriminate]. injection Hn as <-. eapply ordered_chosen; eassumption.
Qed.

Lemma log_takes_replicas (who : list Z) : (forall i, i ∈ who -> correct faulty i) -> forall l, all_chosen l ->
  exists l', rtc decide_step l l' /\ all_chosen l' /\ l ⊆ l' /\ forall i, i ∈ who -> ordered_at i ⊆ l'.
Proof.
  induction who as [|i who IH]; intros Hc l Hl.
  { exists l. split; [apply rtc_refl|]. split; [exact Hl|]. split; [reflexivity|]. intros i H. inversion H. }
  assert (Hoi : all_chosen (ordered_at i)) by (apply ordered_at_chosen, Hc; left).
  destruct (log_takes_map (ordered_at i) Hoi l Hl) as [Hs Hx].
  destruct (IH (fun j Hj => Hc j (list_elem_of_further _ _ _ Hj)) _ Hx) as (l' & Hs' & Hx' & Hsub & Hall).
  exists l'. split; [etransitivity; eassumption|]. split; [exact Hx'|].
  assert (Hsub' : l ⊆ l ∪ ordered_at i) by apply map_union_subseteq_l.
  split; [etransitivity; eassumption|]. intros j Hj. apply elem_of_cons in Hj as [->|Hj]; [|auto].
  apply map_subseteq_spec. intros n c Hn.
  assert (Hcn : chosen faulty σ n c) by (apply Hoi; exact Hn).
  assert (Hin : is_Some ((l ∪ ordered_at i) !! n)).
  { rewrite lookup_union, Hn. destruct (l !! n); eauto. }
  destruct Hin as [d Hd]. assert (Hdl : l' !! n = Some d) by (eapply lookup_weaken; eassumption).
  rewrite Hdl. f_equal. apply (chosen_agree σ n); auto.
Qed.
End State.

(** One step of the system is matched by steps of the log. *)
Lemma implements_step σ σ' l :
  collision_free (received σ') -> system_inv faulty σ -> step faulty σ σ' -> implements σ l ->
  exists l', rtc decide_step l l' /\ implements σ' l'.
Proof.
  intros Hcf Hinv Hstep [Hl _].
  destruct (step_keeps_inv ok faulty σ σ' Hinv Hstep) as [Hinv' Hx].
  set (who := List.filter (fun i => bool_decide (i ∉ faulty)) (seqZ 1 NUM_SERVERS)).
  assert (His : forall i, i ∈ who <-> correct faulty i).
  { intros i. unfold who, correct. rewrite list_elem_of_In, filter_In, <- list_elem_of_In, elem_of_seqZ, bool_decide_eq_true.
    split; intros [H1 H2]; (split; [lia|exact H2]). }
  destruct (log_takes_replicas σ' Hcf Hinv' who) with (l := l) as (l' & Hs & Hx' & _ & Hall).
  { intros i Hi. apply His, Hi. }
  { intros n c Hn. eapply chosen_extends; [exact Hx|auto]. }
  exists l'. split; [exact Hs|]. split; [exact Hx'|].
  intros i n s Hc Es Ho. apply (lookup_weaken (ordered_at σ' i)); [|apply Hall, His, Hc].
  unfold ordered_at. rewrite lookup_omap, Es. cbn. rewrite Ho. reflexivity.
Qed.

Lemma implements_start (σ0 : Z -> order_state) :
  implements ([], fun i => ORDER_Initialize_Data_Structure (σ0 i)) ∅.
Proof.
  split.
  - intros n c H. rewrite lookup_empty in H. discriminate.
  - intros i n s _ Es. cbn in Es. rewrite lookup_empty in Es. discriminate.
Qed.
End Refinement.
