(* ===== verification/OrderProps.v ===== *)
(** What the ordering protocol guarantees within a view, and a sample run of two slots. *)
From Stdlib Require Import ZArith Lia List Bool.
From Stdlib Require Import Strings.Byte.
From stdpp Require Import base list gmap fin_sets.
From S2P Require Import Prelude Memory Config Packets Crypto Utility Eligibility EligibilityCorrect OrderState Order OrderCorrect OrderHandlers OrderSystem OrderLog.

(** ** Other components that do nothing *)
#[global] Instance idle : OrderCalls unit := {|
  PRE_ORDER_Process_PO_ARU := fun _ _ => ret tt;
  RECON_Do_Recon := fun _ _ => ret tt;
  SUSPECT_New_Leader := fun _ => ret tt |}.

#[global] Instance idle_exec : Executor unit := {|
  ORDER_Execute_Commit := fun _ _ => ret tt;
  ORDER_Attempt_To_Execute_Pending_Commits := fun _ => ret tt |}.

#[global] Instance idle_ok F : OrderCallsOk F idle.
Proof.
  split; intros; cbn; try intros _; apply keeps_refl.
Qed.

#[global] Instance idle_exec_ok {crypto : Crypto} F : ExecutorOk F idle_exec.
Proof. split; intros; intros _; (split; [assumption|apply follows_refl]). Qed.

(** A digest that tells Pre-Prepares of different numbers apart. *)
Definition prefix_digest : Crypto :=
  {| make_digest := fun bs => take (Z.to_nat DIGEST_SIZE) (bs ++ zeros DIGEST_SIZE);
     RSA_verify := fun _ _ _ _ => true; TC_verify := fun _ _ _ => true |}.

Lemma prefix_digest_ok : CryptoOk prefix_digest.
Proof.
  split. intros bs. cbn. rewrite length_take, length_app. unfold zeros. rewrite repeat_length.
  change (Z.to_nat DIGEST_SIZE) with 20%nat. unfold DIGEST_SIZE. lia.
Qed.

(** ** A run: server 1 leads view 1, server 6 is faulty *)
Definition start : order_state (E := unit) :=
  {| View := 1; view_change_done := true; ARU := 0; ppARU := 0; high_prepared := 0;
     high_committed := 0; forwarding_white_line := 0; recon_white_line := 0; stable_catchup := 0; next_seq := 1;
     should_send_pp := false; History := ∅; Pending_Execution := ∅;
     proposal_digest := zeros DIGEST_SIZE; new_incarnation_val := 5;
     preinstalled_incarnations := OrderState.per_server 0;
     installed_incarnations := OrderState.per_server 0;
     cum_acks := zeros (NUM_SERVER_SLOTS * sz_po_aru_signed_message);
     max_num_sent_in_proof := OrderState.per_server (mkPS 0 0); leader_suspected := false;
     turnaround_times := []; actions := []; others := tt |}.

(** The pre-ordering component asks the leader for a Pre-Prepare. *)
Lemma keeps_wake {E} r : keeps True r (set_should_send_pp (E := E) true r).
Proof.
  pose proof (keeps_refl True r) as []. split; assumption.
Qed.

Inductive event :=
| Ev_Wake (i : Z)
| Ev_Timer (i : Z)
| Ev_Deliver (i from : Z) (n : nat).

Section Run.
Context {crypto : Crypto} {E : Type} {calls : OrderCalls E} {exec : Executor E}.
Context (faulty : gset Z).

Definition is_u32b (z : Z) : bool := (0 <=? z) && (z <? two32).

Definition pre_prepare_okb (m : pre_prepare_mess) : bool :=
  (0 <? pp_seq_num m) && (pp_seq_num m <? two32) && is_u32b (pp_view m)
  && (Z.of_nat (length (pp_proposal_digest m)) =? DIGEST_SIZE)
  && (Z.of_nat (length (pp_last_executed m)) =? NUM_SERVERS)
  && forallb (fun p => is_u32b (incarnation p) && is_u32b (seq_num p)) (pp_last_executed m)
  && (pp_part_num m =? 1) && (0 <=? pp_num_acks m) && (pp_num_acks m <=? NUM_SERVERS)
  && (sz_po_aru_signed_message * pp_num_acks m <=? Z.of_nat (length (pp_cum_acks m))).

Definition vote_okb (v : vote) : bool :=
  (0 <? v_seq_num v) && (v_seq_num v <? two32) && (1 <=? v_machine_id v)
  && (v_machine_id v <=? NUM_SERVERS) && (Z.of_nat (length (v_digest v)) =? DIGEST_SIZE).

Definition is_correct (i : Z) : bool := (1 <=? i) && (i <=? NUM_SERVERS) && bool_decide (i ∉ faulty).

(** The input a message of [from] is, when the validator lets it through. *)
Definition input_of (from : Z) (a : action) : option input :=
  match a with
  | Send_Pre_Prepare m =>
      if pre_prepare_okb m && (pp_machine_id m =? from) then Some (In_Pre_Prepare m) else None
  | Send_Prepare v => if vote_okb v && (v_machine_id v =? from) then Some (In_Prepare v) else None
  | Send_Commit v => if vote_okb v && (v_machine_id v =? from) then Some (In_Commit v) else None
  | _ => None
  end.

Definition deliver (i : Z) (m : input) (σ : system (E := E)) : option system :=
  match ORDER_Process i m (node σ i) with
  | Ret (_, r') =>
      if (View r' =? View (node σ i)) && eqb (view_change_done r') (view_change_done (node σ i))
      then Some (set_node (receive σ m) i r') else None
  | Fault _ => None
  end.

Definition run_event (e : event) (σ : system (E := E)) : option system :=
  match e with
  | Ev_Wake i => if is_correct i then Some (set_node σ i (set_should_send_pp true (node σ i))) else None
  | Ev_Timer i =>
      let r := node σ i in
      if is_correct i && view_change_done r && (ARU r <? next_seq r) && (next_seq r + 1 <? two32) then
        match ORDER_Periodically (Init_VAR i) r with
        | Ret (_, r') => Some (set_node σ i r')
        | Fault _ => None
        end
      else None
  | Ev_Deliver i from n =>
      if negb (is_correct i) then None else
      match actions (node σ from) !! n with
      | Some a => match input_of from a with Some m => deliver i m σ | None => None end
      | None => None
      end
  end.

Fixpoint run_events (es : list event) (σ : system (E := E)) : option system :=
  match es with
  | [] => Some σ
  | e :: es => match run_event e σ with Some σ' => run_events es σ' | None => None end
  end.

Lemma order_is_correct_spec i : is_correct i = true -> correct faulty i.
Proof.
  unfold is_correct, correct. intros H. apply andb_true_iff in H as [H1 H2].
  apply bool_decide_eq_true in H2. rewrite andb_true_iff, !Z.leb_le in H1. tauto.
Qed.

Lemma is_u32b_spec z : is_u32b z = true -> is_u32 z.
Proof. unfold is_u32b, is_u32. rewrite andb_true_iff, Z.leb_le, Z.ltb_lt. auto. Qed.

Lemma pre_prepare_okb_spec m : pre_prepare_okb m = true -> pre_prepare_ok m.
Proof.
  unfold pre_prepare_okb. rewrite !andb_true_iff, !Z.ltb_lt, !Z.leb_le, !Z.eqb_eq.
  intros [[[[[[[[[H1 H2] H3] H4] H5] H6] H7] H8] H9] H10]. split; auto using is_u32b_spec.
  apply Forall_forall. intros p Hp. rewrite forallb_forall in H6.
  apply list_elem_of_In, H6, andb_true_iff in Hp as [A B]. split; apply is_u32b_spec; assumption.
Qed.

Lemma vote_okb_spec v : vote_okb v = true -> vote_ok v.
Proof.
  unfold vote_okb. rewrite !andb_true_iff, !Z.ltb_lt, !Z.leb_le, Z.eqb_eq. intros H. split; lia.
Qed.

Lemma input_of_receivable (σ : system (E := E)) from a m :
  a ∈ actions (node σ from) -> input_of from a = Some m -> receivable faulty σ m.
Proof.
  intros Ha H. destruct a; cbn in H; try discriminate;
    destruct (_ && _) eqn:E2; try discriminate; injection H as <-;
    apply andb_true_iff in E2 as [E2 E3]; apply Z.eqb_eq in E3; subst from.
  - split; [apply vote_okb_spec, E2|right; exact Ha].
  - split; [apply vote_okb_spec, E2|right; exact Ha].
  - split; [apply pre_prepare_okb_spec, E2|right; eauto].
Qed.

Lemma run_event_step e σ σ' : run_event e σ = Some σ' -> step faulty σ σ'.
Proof.
  intros H. destruct e as [i|i|i from n]; cbn [run_event] in H.
  - destruct (is_correct i) eqn:E1; [|discriminate]. injection H as <-.
    apply step_other; [apply order_is_correct_spec, E1|apply keeps_wake].
  - destruct (_ && _) eqn:E1; [|discriminate]. rewrite !andb_true_iff, !Z.ltb_lt in E1.
    destruct E1 as [[[E1 E2] E3] E4].
    destruct (ORDER_Periodically _ _) as [[[] r']|] eqn:Ep; [|discriminate]. injection H as <-.
    apply step_leader; [apply order_is_correct_spec, E1| |exact Ep].
    split; [exact E2|]. split; assumption.
  - destruct (is_correct i) eqn:E1; [|discriminate]. cbn [negb] in H.
    destruct (actions (node σ from) !! n) as [a|] eqn:E0; [|discriminate].
    destruct (input_of from a) as [m|] eqn:Em; [|discriminate].
    unfold deliver in H. destruct (ORDER_Process i m (node σ i)) as [[[] r']|] eqn:Ep; [|discriminate].
    destruct (_ && _) eqn:Ev; [|discriminate]. injection H as <-.
    apply andb_true_iff in Ev as [V1 V2]. apply Z.eqb_eq in V1. apply eqb_prop in V2.
    apply step_message; [apply order_is_correct_spec, E1| |exact Ep|split; assumption].
    eapply input_of_receivable; [eapply list_elem_of_lookup_2; exact E0|exact Em].
Qed.

Lemma order_run_reachable es : forall σ σ',
  reachable faulty σ -> run_events es σ = Some σ' -> reachable faulty σ'.
Proof.
  induction es as [|e es IH]; cbn; intros σ σ' Hr H; [injection H as <-; exact Hr|].
  destruct (run_event e σ) as [σ1|] eqn:E1; [|discriminate].
  eapply IH; [|exact H]. eapply reach_step; [exact Hr|]. eapply run_event_step; eauto.
Qed.

(** What is received stays received. *)
Lemma step_received (σ σ' : system (E := E)) m : step faulty σ σ' -> m ∈ received σ -> m ∈ received σ'.
Proof.
  intros [i x r' _ _ _ _|i r' _ _ _|i r' _ _ _|i r' _ _|i seq r' _ _ _ _] Hm; try exact Hm. destruct x; try exact Hm. right. exact Hm.
Qed.

Lemma run_received es : forall σ σ' m,
  run_events es σ = Some σ' -> m ∈ received σ -> m ∈ received σ'.
Proof.
  induction es as [|e es IH]; cbn; intros σ σ' m H Hm; [injection H as <-; exact Hm|].
  destruct (run_event e σ) as [σ1|] eqn:E1; [|discriminate].
  eapply IH; [exact H|]. eapply step_received; [eapply run_event_step; exact E1|exact Hm].
Qed.
End Run.

(** For each of two slots the leader proposes, replicas 2 to 5 get the
    Pre-Prepare, then each other's Prepares, then each other's Commits. *)
Definition toy_slot_at (proposal : nat) (prepare_ commit_ : Z -> nat) : list event :=
  [Ev_Wake 1; Ev_Timer 1]
  ++ map (fun i => Ev_Deliver i 1 proposal) [2; 3; 4; 5]
  ++ concat (map (fun i => map (fun j => Ev_Deliver i j (prepare_ j)) [2; 3; 4]) [2; 3; 4; 5])
  ++ concat (map (fun i => map (fun j => Ev_Deliver i j (commit_ j)) [2; 3; 4; 5]) [2; 3; 4; 5]).

Definition toy_slot (proposal prepare_ commit_ : nat) : list event :=
  toy_slot_at proposal (fun _ => prepare_) (fun _ => commit_).

Definition toy_run : list event := toy_slot 0 1 2 ++ toy_slot 1 4 5.

Definition toy_start : system := ([], fun _ => ORDER_Initialize_Data_Structure start).

Definition toy_end : system :=
  default toy_start (run_events (crypto := prefix_digest) {[6]} toy_run toy_start).

Lemma start_ready : ready_to_start start.
Proof.
  split; [reflexivity|]. split; [|reflexivity].
  split; [reflexivity|]. split; [reflexivity|]. split; [reflexivity|constructor].
Qed.

Lemma toy_start_reachable :
  reachable (crypto := prefix_digest) (calls := idle) (exec := idle_exec) {[6]} toy_start.
Proof. apply (reach_init {[6]} (fun _ => start)). intros. exact start_ready. Qed.

Lemma toy_runs : run_events (crypto := prefix_digest) {[6]} toy_run toy_start = Some toy_end.
Proof.
  assert (H : match run_events (crypto := prefix_digest) {[6]} toy_run toy_start with
              | Some _ => true | None => false end = true) by (vm_compute; reflexivity).
  unfold toy_end. destruct (run_events _ _ _) as [σ|]; [reflexivity|discriminate].
Qed.

Lemma order_toy_end_reachable :
  reachable (crypto := prefix_digest) (calls := idle) (exec := idle_exec) {[6]} toy_end.
Proof. exact (order_run_reachable _ _ _ _ toy_start_reachable toy_runs). Qed.

Example toy_end_orders :
  map (fun i => map (fun n => option_map ordered (History (node toy_end i) !! n)) [1; 2]) [2; 3; 4; 5]
  = repeat [Some true; Some true] 4.
Proof. vm_compute. reflexivity. Qed.

(** ** Properties *)
Lemma ordered_content {crypto : Crypto} (c c' : complete_pre_prepare_message) :
  complete_ok c -> complete_ok c' -> complete_digest c = complete_digest c' ->
  c = c' \/ complete_bytes c <> complete_bytes c' /\
            make_digest (complete_bytes c) = make_digest (complete_bytes c').
Proof.
  intros H H' Hd. destruct (decide (complete_bytes c = complete_bytes c')) as [Eb|Nb].
  - left. apply complete_bytes_inj; assumption.
  - right. split; [exact Nb|exact Hd].
Qed.

(** C2. Agreement of a view: whatever at most f faulty replicas send, however
    messages are delivered and whatever the other components of the replicas do
    within the interface, two correct replicas that have ordered a slot have
    ordered the same complete Pre-Prepare (its view, its last_executed vector
    and its matrix) in it, or there is a SHA-1 collision. *)
Theorem order_agreement {crypto : Crypto} (ok : CryptoOk crypto) {E : Type} {calls : OrderCalls E}
    {exec : Executor E} {calls_ok : OrderCallsOk any_fault calls}
    {exec_ok : ExecutorOk any_fault exec} (faulty : gset Z)
    (σ : system (E := E)) (i j seq : Z) (s s' : ord_slot)
    (Hfaulty : Z.of_nat (size faulty) <= NUM_F)
    (Hreach : reachable faulty σ) (Hi : correct faulty i) (Hj : correct faulty j)
    (Hs : History (node σ i) !! seq = Some s) (Ho : ordered s = true)
    (Hs' : History (node σ j) !! seq = Some s') (Ho' : ordered s' = true) :
  let c := complete_pre_prepare s in
  let c' := complete_pre_prepare s' in
  c = c' \/ complete_bytes c <> complete_bytes c' /\
            make_digest (complete_bytes c) = make_digest (complete_bytes c').
Proof.
  intros c c'. pose proof (order_reachable_inv ok faulty σ Hreach) as Hinv.
  destruct (i_keys (Hinv i Hi) _ _ Hs) as [_ Hok]. destruct (i_keys (Hinv j Hj) _ _ Hs') as [_ Hok'].
  apply ordered_content; [exact (so_complete Hok)|exact (so_complete Hok')|].
  pose proof (ordered_committed ok faulty σ i seq s Hinv Hi Hs Ho) as H.
  pose proof (ordered_committed ok faulty σ j seq s' Hinv Hj Hs' Ho') as H'.
  exact (proj2 (committed_agree faulty Hfaulty σ seq _ _ _ _ Hinv H H')).
Qed.

Definition slot_of (i n : Z) : ord_slot := default (new_ord_slot n) (History (node toy_end i) !! n).

Lemma order_agreement_witness :
  let c := complete_pre_prepare (slot_of 2 1) in
  let c' := complete_pre_prepare (slot_of 5 1) in
  c = c' \/ complete_bytes c <> complete_bytes c' /\
            make_digest (Crypto := prefix_digest) (complete_bytes c)
            = make_digest (Crypto := prefix_digest) (complete_bytes c').
Proof.
  apply (@order_agreement prefix_digest prefix_digest_ok unit idle idle_exec (idle_ok _) (idle_exec_ok _)
           {[6]} toy_end 2 5 1).
  - rewrite size_singleton. vm_compute. discriminate.
  - exact order_toy_end_reachable.
  - apply order_is_correct_spec. vm_compute. reflexivity.
  - apply order_is_correct_spec. vm_compute. reflexivity.
  - vm_compute. reflexivity.
  - vm_compute. reflexivity.
  - vm_compute. reflexivity.
  - vm_compute. reflexivity.
Defined.

(** C3. What is ordered is prepared: when a correct replica has ordered a
    slot, at least f+k+1 correct replicas have sent a Commit for its
    Pre-Prepare and still hold the prepare certificate for it, or have executed
    the slot and garbage collected it.  (This is what a view change relies on.) *)
Theorem ordered_is_prepared {crypto : Crypto} (ok : CryptoOk crypto) {E : Type} {calls : OrderCalls E}
    {exec : Executor E} {calls_ok : OrderCallsOk any_fault calls}
    {exec_ok : ExecutorOk any_fault exec} (faulty : gset Z)
    (σ : system (E := E)) (i seq : Z) (s : ord_slot)
    (Hfaulty : Z.of_nat (size faulty) <= NUM_F)
    (Hreach : reachable faulty σ) (Hi : correct faulty i)
    (Hs : History (node σ i) !! seq = Some s) (Ho : ordered s = true) :
  exists Q : gset Z, NUM_F + NUM_K + 1 <= Z.of_nat (size Q) /\
    forall j, j ∈ Q -> correct faulty j /\
      ((exists t, History (node σ j) !! seq = Some t /\ prepare_certificate_ready t = true /\
          c_view (complete_pre_prepare t) = c_view (complete_pre_prepare s) /\
          complete_digest (complete_pre_prepare t) = complete_digest (complete_pre_prepare s))
       \/ gone (node σ j) seq).
Proof.
  pose proof (order_reachable_inv ok faulty σ Hreach) as Hinv.
  destruct (ordered_committed ok faulty σ i seq s Hinv Hi Hs Ho) as (Q & HQ & Hsize & HC).
  exists (Q ∖ faulty). split.
  - pose proof (size_union_alt faulty Q) as Hu. assert (size Q <= size (faulty ∪ Q))%nat
      by (apply subseteq_size; set_solver). unfold COMMITS in Hsize. lia.
  - intros j Hj. apply elem_of_difference in Hj as [Hj Hn].
    assert (Hcj : correct faulty j) by (split; [apply elem_of_server_ids, HQ, Hj|exact Hn]).
    split; [exact Hcj|]. destruct (HC j Hj) as [?|(v & Hv & <- & Hvw & Hd)]; [contradiction|].
    destruct (c_backed (i_commits (Hinv j Hcj)) v Hv) as [(t & Et & _ & Hp & Htv & Htd)|Hg]; [left|right; exact Hg].
    exists t. split; [exact Et|]. split; [exact Hp|]. split; congruence.
Qed.

Lemma ordered_is_prepared_witness :
  exists Q : gset Z, 3 <= Z.of_nat (size Q) /\
    forall j, j ∈ Q -> correct {[6]} j /\
      ((exists t, History (node toy_end j) !! 1 = Some t /\ prepare_certificate_ready t = true /\
          c_view (complete_pre_prepare t) = c_view (complete_pre_prepare (slot_of 2 1)) /\
          complete_digest (crypto := prefix_digest) (complete_pre_prepare t)
          = complete_digest (crypto := prefix_digest) (complete_pre_prepare (slot_of 2 1)))
       \/ gone (node toy_end j) 1).
Proof.
  apply (@ordered_is_prepared prefix_digest prefix_digest_ok unit idle idle_exec (idle_ok _) (idle_exec_ok _)
           {[6]} toy_end 2 1 (slot_of 2 1)).
  - rewrite size_singleton. vm_compute. discriminate.
  - exact order_toy_end_reachable.
  - apply order_is_correct_spec. vm_compute. reflexivity.
  - vm_compute. reflexivity.
  - vm_compute. reflexivity.
Defined.

(** C4. The ordered slots form a chain: when correct replicas have ordered the
    slots [n] and [n + 1], the Pre-Prepare of [n + 1] starts from exactly the
    vector that the one of [n] makes eligible (the first one from zero), so no
    request is skipped between slots and none is executed with both, whoever
    the leader is and whatever it sent; unless two received Pre-Prepares
    collide under SHA-1. *)
Theorem ordered_chain {crypto : Crypto} (ok : CryptoOk crypto) {E : Type} {calls : OrderCalls E}
    {exec : Executor E} {calls_ok : OrderCallsOk any_fault calls}
    {exec_ok : ExecutorOk any_fault exec} (faulty : gset Z)
    (σ : system (E := E)) (i j n : Z) (s s' : ord_slot)
    (Hfaulty : Z.of_nat (size faulty) <= NUM_F)
    (Hreach : reachable faulty σ) (Hcollide : collision_free (received σ))
    (Hi : correct faulty i) (Hj : correct faulty j)
    (Hs : History (node σ i) !! n = Some s) (Ho : ordered s = true)
    (Hs' : History (node σ j) !! (n + 1) = Some s') (Ho' : ordered s' = true) :
  eligible (complete_pre_prepare s) = Some (c_last_executed (complete_pre_prepare s')) /\
  (n = 1 -> c_last_executed (complete_pre_prepare s) = zero_pairs).
Proof.
  pose proof (order_reachable_inv ok faulty σ Hreach) as Hinv.
  pose proof (ordered_chosen ok faulty σ i n s Hinv Hi Hs Ho) as Hc.
  pose proof (ordered_chosen ok faulty σ j (n + 1) s' Hinv Hj Hs' Ho') as Hc'.
  split.
  - exact (chosen_next ok faulty Hfaulty σ n _ _ 1 Hcollide Hinv Hc Hc').
  - intros ->. exact (chosen_first ok faulty Hfaulty σ _ Hcollide Hinv Hc).
Qed.

(** The Pre-Prepares of the run differ in their numbers. *)
Definition collision_freeb {crypto : Crypto} (l : list pre_prepare_mess) : bool :=
  forallb (fun m => forallb (fun m' =>
    negb (bool_decide (make_digest (complete_bytes (complete_of m)) = make_digest (complete_bytes (complete_of m'))))
    || bool_decide (complete_bytes (complete_of m) = complete_bytes (complete_of m'))) l) l.

Lemma collision_freeb_spec {crypto : Crypto} l : collision_freeb l = true -> collision_free l.
Proof.
  intros H m m' Hm Hm' Hd. unfold collision_freeb in H. rewrite forallb_forall in H.
  apply list_elem_of_In, H in Hm. rewrite forallb_forall in Hm. apply list_elem_of_In, Hm in Hm'.
  rewrite bool_decide_true in Hm' by exact Hd. cbn in Hm'. apply bool_decide_eq_true in Hm'. exact Hm'.
Qed.

Lemma ordered_chain_witness :
  eligible (complete_pre_prepare (slot_of 2 1)) = Some (c_last_executed (complete_pre_prepare (slot_of 5 2))) /\
  (1 = 1 -> c_last_executed (complete_pre_prepare (slot_of 2 1)) = zero_pairs).
Proof.
  apply (@ordered_chain prefix_digest prefix_digest_ok unit idle idle_exec (idle_ok _) (idle_exec_ok _)
           {[6]} toy_end 2 5 1).
  - rewrite size_singleton. vm_compute. discriminate.
  - exact order_toy_end_reachable.
  - apply collision_freeb_spec. vm_compute. reflexivity.
  - apply order_is_correct_spec. vm_compute. reflexivity.
  - apply order_is_correct_spec. vm_compute. reflexivity.
  - vm_compute. reflexivity.
  - vm_compute. reflexivity.
  - vm_compute. reflexivity.
  - vm_compute. reflexivity.
Defined.

(** C5. The replicas of a view implement one log: the empty log stands for the
    start of a system, and every step of a reachable system (a message handled,
    a proposal of the leader, anything the other components do) is matched by
    adding decided Pre-Prepares to the log, each fitting its neighbours; all
    that any correct replica has ordered is in the log then. *)
Theorem order_refines_log {crypto : Crypto} (ok : CryptoOk crypto) {E : Type} {calls : OrderCalls E}
    {exec : Executor E} {calls_ok : OrderCallsOk any_fault calls}
    {exec_ok : ExecutorOk any_fault exec} (faulty : gset Z)
    (Hfaulty : Z.of_nat (size faulty) <= NUM_F) :
  (forall σ0 : Z -> order_state (E := E),
     implements faulty ([], fun i => ORDER_Initialize_Data_Structure (σ0 i)) ∅) /\
  (forall (σ σ' : system (E := E)) l,
     reachable faulty σ -> step faulty σ σ' -> collision_free (received σ') -> implements faulty σ l ->
     exists l', rtc decide_step l l' /\ implements faulty σ' l').
Proof.
  split.
  - apply implements_start.
  - intros σ σ' l Hr Hs Hcf Hl. apply (implements_step ok faulty Hfaulty σ); auto.
    apply (order_reachable_inv ok faulty σ Hr).
Qed.

Lemma order_refines_log_witness :
  exists l, rtc decide_step ∅ l /\ implements (crypto := prefix_digest) {[6]} toy_end l.
Proof.
  destruct (@order_refines_log prefix_digest prefix_digest_ok unit idle idle_exec (idle_ok _) (idle_exec_ok _) {[6]})
    as [H0 Hsim]; [rewrite size_singleton; vm_compute; discriminate|].
  assert (Hrun : forall es σ σ' l, reachable (crypto := prefix_digest) (exec := idle_exec) {[6]} σ ->
    implements (crypto := prefix_digest) {[6]} σ l -> run_events (crypto := prefix_digest) {[6]} es σ = Some σ' ->
    collision_free (crypto := prefix_digest) (received σ') ->
    exists l', rtc decide_step l l' /\ implements (crypto := prefix_digest) {[6]} σ' l').
  { induction es as [|e es IH]; intros σ σ' l Hr Hl H Hcf; cbn in H.
    - injection H as <-. exists l. split; [apply rtc_refl|exact Hl].
    - destruct (run_event _ e σ) as [σ1|] eqn:E1; [|discriminate].
      pose proof (run_event_step _ e σ σ1 E1) as Hs.
      destruct (Hsim σ σ1 l Hr Hs) as (l1 & R1 & Hl1); [|exact Hl|].
      { intros m m' Hm Hm'. apply Hcf; eapply run_received; eassumption. }
      destruct (IH σ1 σ' l1 (reach_step _ _ _ Hr Hs) Hl1 H Hcf) as (l' & R' & Hl').
      exists l'. split; [etransitivity; eassumption|exact Hl']. }
  apply (Hrun toy_run toy_start toy_end ∅).
  - exact toy_start_reachable.
  - apply (H0 (fun _ => start)).
  - exact toy_runs.
  - apply collision_freeb_spec. vm_compute. reflexivity.
Defined.

(** C26. In every reachable state the three handlers, on any message that can
    arrive, return, stop at an assertion or with a fault [F] admits of the code
    they call, or leave an array, and this only on a Pre-Prepare with more PO-ARUs
    than there are servers, which validation lets through ([pre_prepare_overflows]):
    when the message is not such a Pre-Prepare and the code they call neither
    leaves an array nor runs out of turns, no array is left and every loop of the
    ordering protocol (the white line, sending Prepares, covering challenges)
    ends. *)
Theorem order_handlers_safe {crypto : Crypto} (ok : CryptoOk crypto) {E : Type} {calls : OrderCalls E}
    {exec : Executor E} (F : fault -> Prop) {calls_ok : OrderCallsOk F calls}
    {exec_ok : ExecutorOk F exec} (faulty : gset Z)
    (σ : system (E := E)) (i : Z) (m : input)
    (Hassert : F AssertFailure) (Hreach : reachable faulty σ) (Hi : correct faulty i)
    (Hm : receivable faulty σ m) :
  (exists r', ORDER_Process i m (node σ i) = Ret (tt, r')) \/
  (exists e, ORDER_Process i m (node σ i) = Fault e /\ (F e \/ e = OutOfBounds /\ too_wide m)).
Proof.
  pose proof (calls_any F calls calls_ok). pose proof (exec_any F exec exec_ok).
  set (F' e := F e \/ e = OutOfBounds /\ too_wide m).
  assert (HF : forall e, F e -> F' e) by (intros e He; left; exact He).
  pose proof (calls_more F F' calls HF calls_ok). pose proof (exec_more F F' exec HF exec_ok).
  pose proof (process_handled ok faulty F' (HF _ Hassert) σ i m (fun H => or_intror (conj eq_refl H))
    (order_reachable_inv ok faulty σ Hreach) Hi Hm) as Hw.
  unfold wp in Hw. destruct (ORDER_Process i m (node σ i)) as [[[] r']|e]; [left|right]; eauto.
Qed.

Definition asserts (f : fault) : Prop := f = AssertFailure.

Definition toy_pp (acks : Z) : pre_prepare_mess :=
  {| pp_machine_id := 1; pp_signed := []; pp_seq_num := 1; pp_view := 1;
     pp_proposal_digest := zeros DIGEST_SIZE; pp_last_executed := zero_pairs;
     pp_part_num := 1; pp_total_parts := 1; pp_num_acks := acks;
     pp_cum_acks := zeros (sz_po_aru_signed_message * acks) |}.

(** A vote of the faulty server. *)
Definition toy_vote : vote :=
  {| v_machine_id := 6; v_incarnation := 5; v_seq_num := 3; v_view := 1; v_digest := zeros DIGEST_SIZE;
     v_preinstalled := [] |}.

Lemma order_handlers_safe_witness :
  let outcome := ORDER_Process (crypto := prefix_digest) (calls := idle) (exec := idle_exec) 1 (In_Prepare toy_vote) (node toy_end 1) in
  (exists r', outcome = Ret (tt, r')) \/ (exists e, outcome = Fault e /\ asserts e).
Proof.
  intros outcome.
  destruct (@order_handlers_safe prefix_digest prefix_digest_ok unit idle idle_exec asserts (idle_ok _) (idle_exec_ok _) {[6]}
              toy_end 1 (In_Prepare toy_vote)) as [H|(e & H & [He|[_ []]])].
  - reflexivity.
  - exact order_toy_end_reachable.
  - apply order_is_correct_spec. vm_compute. reflexivity.
  - split; [apply vote_okb_spec; vm_compute; reflexivity|left]. cbn. set_solver.
  - left. exact H.
  - right. exists e. split; [exact H|exact He].
Defined.

Lemma run_the_slot {E} (r : order_state (E := E)) seq s :
  History r !! seq = Some s -> the_slot seq r = Ret (s, r).
Proof. unfold the_slot, bind, get. intros ->. reflexivity. Qed.

Lemma run_upd {E} (r : order_state (E := E)) seq s f :
  History r !! seq = Some s -> upd seq f r = Ret (tt, set_slot seq (f s) r).
Proof. unfold upd, bind, get. intros ->. reflexivity. Qed.

(** Nothing bounds num_acks_in_this_message by NUM_SERVERS: the first
    Pre-Prepare of the leader for a new slot, with the right proposal digest
    and more PO-ARUs than servers, makes ORDER_Process_Pre_Prepare write behind
    the matrix of the slot. *)
Theorem pre_prepare_overflows {crypto : Crypto} (ok : CryptoOk crypto) {E : Type} {calls : OrderCalls E}
    VAR (r : order_state (E := E)) (m : pre_prepare_mess)
    (Hdigest : pp_proposal_digest m = proposal_digest r)
    (Hlen : Z.of_nat (length (proposal_digest r)) = DIGEST_SIZE)
    (Hnew : ARU r < pp_seq_num m < two32 - 1) (Hview : pp_view m = View r)
    (Hleader : pp_machine_id m = UTIL_Leader_Of_View (pp_view m))
    (Hslot : History r !! pp_seq_num m = None)
    (Hpart : pp_part_num m = 1) (HARU : 0 <= ARU r) (Hacks : NUM_SERVERS < pp_num_acks m)
    (Hbytes : Z.of_nat (length (pp_cum_acks m)) = sz_po_aru_signed_message * pp_num_acks m) :
  ORDER_Process_Pre_Prepare VAR m r = Fault OutOfBounds.
Proof.
  unfold ORDER_Process_Pre_Prepare. set (seq := pp_seq_num m) in *.
  rewrite (run_bind get _ r r r eq_refl), Hdigest, (Digests_Equal_refl _ Hlen). cbn [negb].
  rewrite (wrap32_small (seq + 1)) by lia.
  rewrite (proj2 (Z.leb_gt (seq + 1) (ARU r))), andb_false_r by lia.
  rewrite (run_bind (view_admits _) _ r true r).
  2:{ unfold view_admits, bind, get. rewrite Hview, Z.ltb_irrefl. reflexivity. }
  rewrite Hleader, Z.eqb_refl. cbn [negb].
  set (r1 := set_slot seq (new_ord_slot seq) r).
  rewrite (run_bind (UTIL_Get_ORD_Slot seq) _ r (new_ord_slot seq) r1).
  2:{ unfold UTIL_Get_ORD_Slot, bind, get. rewrite Hslot. reflexivity. }
  set (s1 := start_pre_prepare (pp_view m) (pp_total_parts m)
               (mkComplete seq (pp_view m) (pp_proposal_digest m) (pp_last_executed m)
                  (zeros matrix_bytes)) (new_ord_slot seq)).
  set (r2 := set_slot seq s1 r1).
  rewrite (run_bind (admit_part VAR m seq) _ r1 true r2).
  2:{ unfold admit_part. rewrite (run_bind _ _ r1 _ r1 (run_the_slot r1 seq _ (lookup_set_slot _ _ _))).
      rewrite (run_bind get _ r1 r1 r1 eq_refl). cbn [num_parts_collected new_ord_slot Z.eqb].
      rewrite (run_bind _ _ r1 tt _ (run_upd r1 seq _ _ (lookup_set_slot _ _ _))).
      reflexivity. }
  cbn [negb]. rewrite (run_bind (the_slot seq) _ r2 s1 r2).
  2:{ apply run_the_slot, lookup_set_slot. }
  change (collected_all_parts s1) with false. rewrite Hpart. cbn iota.
  rewrite (run_bind _ _ r2 false r2) by reflexivity. cbn iota.
  rewrite (run_bind _ _ r2 (<[1%nat := true]> (per_part false)) r2) by reflexivity.
  rewrite (run_bind _ _ r2 (<[1%nat := Some m]> (per_part None)) r2) by reflexivity.
  apply run_fault. change (c_cum_acks (complete_pre_prepare s1)) with (zeros matrix_bytes).
  unfold copy_acks. rewrite Hpart. change (wrap32 ((1 - 1) * num_acks_per_message)) with 0.
  destruct (slice_defined (pp_cum_acks m) 0 (sz_po_aru_signed_message * pp_num_acks m)) as [src Es];
    [lia|unfold sz_po_aru_signed_message; change NUM_SERVERS with 6 in *; lia|lia|].
  rewrite (run_bind _ _ r2 src r2) by (unfold load_bytes; rewrite Es; reflexivity).
  apply slice_length in Es as [_ Es]. rewrite (proj2 (Z.leb_gt _ _)); [reflexivity|].
  unfold zeros, matrix_bytes. rewrite repeat_length, Es.
  change NUM_SERVERS with 6 in *. change sz_po_aru_signed_message with 208. lia.
Qed.

Lemma pre_prepare_overflows_witness :
  ORDER_Process_Pre_Prepare (crypto := toy) (calls := idle) (Init_VAR 2) (toy_pp 7) start = Fault OutOfBounds.
Proof.
  apply (@pre_prepare_overflows toy toy_ok unit idle (Init_VAR 2) start (toy_pp 7));
    try reflexivity; vm_compute; try reflexivity; (split; [reflexivity|reflexivity]) || discriminate.
Defined.
