(* ===== verification/PreOrder.v ===== *)
(** Pre-ordering: the handlers of [prime/src/pre_order.c] for PO-Requests, PO-Acks
    and PO-ARUs, with the messages they send ([packets.c]).

    A replica acknowledges the PO-Requests it holds; 2f+k+1 acknowledgements with
    the digest of a request make it certified, and [cum_aru] counts the certified
    requests of each server.  The state is [order_state] with [po_data] for the
    other components' part. *)
From Stdlib Require Import ZArith Lia List Bool.
From Stdlib Require Import Strings.Byte.
From stdpp Require Import base list gmap.
From S2P Require Import Prelude Memory Config Packets Crypto Utility Eligibility OrderState PreOrderState Order.

(** OpenSSL signs the message behind its signature. *)
Class Signer := { OPENSSL_RSA_Sign : list byte -> list byte }.

Class SignerOk (s : Signer) := {
  sign_length m : Z.of_nat (length (OPENSSL_RSA_Sign m)) = SIGNATURE_SIZE }.

Definition UTIL_RSA_Sign_Message {signer : Signer} (m : list byte) : list byte :=
  OPENSSL_RSA_Sign (drop (Z.to_nat SIGNATURE_SIZE) m) ++ drop (Z.to_nat SIGNATURE_SIZE) m.

Section Handlers.
Context {crypto : Crypto} {signer : Signer} {R : Type} (VAR : server_variables).

Abbreviation state := (order_state (E := po_data (R := R))).
Abbreviation M := (comp state).

(** ** The state of this component *)
Definition po : M po_data := r <- get ;; ret (others r).

Definition po_update (f : po_data (R := R) -> po_data) : M unit := modify (fun r => set_others (f (others r)) r).

Definition at_server {A} (l : list A) (s : Z) : M A := or_oob (aget l s).

(** [field[s] = x] *)
Definition set_server {A} (field : po_data (R := R) -> list A) (put_field : list A -> po_data (R := R) -> po_data)
    (s : Z) (x : A) : M unit :=
  e <- po ;;
  l <- or_oob (aset (field e) s x) ;;
  po_update (put_field l).

(** There is a table for every server. *)
Definition UTIL_Get_PO_Slot_If_Exists (server_id : Z) (ps : po_seq_pair) : M (option po_slot) :=
  if negb ((1 <=? server_id) && (server_id <=? NUM_SERVERS)) then raise OutOfBounds else
  e <- po ;; ret (PO_History e !! mkPoId server_id ps).

Definition put_po_slot (id : po_id) (slot : po_slot) : M unit :=
  po_update (fun e => with_PO_History (<[id := slot]> (PO_History e)) e).

Definition UTIL_Get_PO_Slot (server_id : Z) (ps : po_seq_pair) : M po_slot :=
  slot <- UTIL_Get_PO_Slot_If_Exists server_id ps ;;
  match slot with
  | Some slot => ret slot
  | None => put_po_slot (mkPoId server_id ps) (new_po_slot ps) ;;; ret (new_po_slot ps)
  end.

(** ** The lines *)
(** [aru[s]] follows the requests there are: one turn per slot.  After a turn more
    than there are slots, the numbers, of 32 bits, have come back to one seen
    before, and the loop does not end. *)
Fixpoint raise_aru (fuel : nat) (s : Z) : M unit :=
  match fuel with
  | O => raise Endless
  | S fuel =>
      e <- po ;;
      a <- at_server (aru e) s ;;
      slot <- UTIL_Get_PO_Slot_If_Exists s (next_pair a) ;;
      match slot with
      | Some slot =>
          match po_request slot with
          | None => ret tt
          | Some _ => set_server aru with_aru s (next_pair a) ;;; raise_aru fuel s
          end
      | None => ret tt
      end
  end.

Fixpoint for_servers (servers : list Z) (body : Z -> M unit) : M unit :=
  match servers with
  | [] => ret tt
  | s :: servers => body s ;;; for_servers servers body
  end.

Definition PRE_ORDER_Update_ARU : M unit :=
  e <- po ;;
  for_servers (seqZ 1 NUM_SERVERS) (raise_aru (S (size (PO_History e)))).

(** The acknowledgements with the digest of the request; those with another one
    are only reported. *)
Fixpoint count_acks (slot : po_slot) (servers : list Z) (ack_count : Z) : M Z :=
  match servers with
  | [] => ret ack_count
  | i :: servers =>
      received <- at_server (ack_received slot) i ;;
      if negb received then count_acks slot servers ack_count else
      part <- at_server (ack_parts slot) i ;;
      match part with
      | None => raise OutOfBounds
      | Some part =>
          if negb (OPENSSL_RSA_Digests_Equal (po_request_digest slot) (part_digest part))
          then count_acks slot servers ack_count
          else count_acks slot servers (ack_count + 1)
      end
  end.

(** A slot of the global order that waits for this request waits for one less. *)
Definition fill_hole (id : po_id) : M unit :=
  e <- po ;;
  match PO_Pending e !! id with
  | None => ret tt
  | Some gseq =>
      po_update (fun e => with_PO_Pending (delete id (PO_Pending e)) e) ;;;
      slot <- UTIL_Get_ORD_Slot_If_Exists gseq ;;
      match slot with
      | None => ret tt
      | Some slot =>
          let n := wrap32 (num_remaining_for_execution slot - 1) in
          upd gseq (with_remaining n) ;;;
          if n =? 0 then modify (act Queue_Execute) else ret tt
      end
  end.

(** The first pair after the certified ones: of a newer incarnation, its first. *)
Definition cum_aru_from (preinstalled : Z) (cum : po_seq_pair) : po_seq_pair :=
  next_pair (if incarnation cum <? preinstalled then mkPS preinstalled 0 else cum).

(** [UTIL_Message_Size] of a PO-Ack. *)
Definition po_ack_size (a : po_ack_mess) : Z :=
  sz_signed_message + sz_po_ack_message + Z.of_nat (length (ak_parts a)) * sz_po_ack_part + ak_digests a * DIGEST_SIZE.

(** The first 2f+k+1 of the slot's PO-Acks that carry its vector of incarnations;
    [used] and [count]: the bytes and the PO-Acks so far. *)
Fixpoint certificate_acks (slot : po_slot) (servers : list Z) (used count : Z) : M (list po_ack_mess) :=
  match servers with
  | [] => ret []
  | i :: servers =>
      if 2 * VF VAR + VK VAR + 1 <=? count then ret [] else
      ack <- at_server (acks slot) i ;;
      match ack with
      | None => certificate_acks slot servers used count
      | Some ack =>
          if negb (bool_decide (ak_preinstalled ack = vector_of (po_snapshot_vector slot)))
          then certificate_acks slot servers used count else
          if PRIME_MAX_PACKET_SIZE <=? used + po_ack_size ack then raise Exit else
          rest <- certificate_acks slot servers (used + po_ack_size ack) (count + 1) ;;
          ret (ack :: rest)
      end
  end.

(** The message has [PRIME_MAX_PACKET_SIZE] bytes of memory. *)
Definition CATCH_Construct_PO_Certificate (rep : Z) (slot : po_slot) : M po_certificate_mess :=
  r <- get ;;
  req <- or_oob (po_request slot) ;;
  size <- UTIL_Message_Size req 0 ;;
  m <- load_bytes req 0 size ;;
  let used := sz_signed_message + sz_po_certificate_message + size in
  (if PRIME_MAX_PACKET_SIZE <? used then raise OutOfBounds else ret tt) ;;;
  l <- certificate_acks slot (seqZ 1 NUM_SERVERS) used 0 ;;
  assert_ (Z.of_nat (length l) =? 2 * VF VAR + VK VAR + 1) ;;;
  ret (mkPoCert (My_Server_ID VAR) (new_incarnation_val r) rep (slot_seq slot) m l).

Fixpoint raise_cum_aru (fuel : nat) (s : Z) (ps : po_seq_pair) : M unit :=
  match fuel with
  | O => raise Endless
  | S fuel =>
      slot <- UTIL_Get_PO_Slot_If_Exists s ps ;;
      match slot with
      | None => ret tt
      | Some slot =>
          match po_request slot with
          | None => ret tt
          | Some _ =>
              n <- count_acks slot (seqZ 1 NUM_SERVERS) 0 ;;
              if n <? 2 * NUM_F + NUM_K + 1 then ret tt else
              r <- get ;;
              let slot1 := if po_snapshot slot then slot
                           else take_snapshot (0 :: vector_of (preinstalled_incarnations r)) slot in
              cert <- CATCH_Construct_PO_Certificate s slot1 ;;
              put_po_slot (mkPoId s ps) (with_po_cert cert false slot1) ;;;
              set_server cum_aru with_cum_aru s ps ;;;
              po_update (with_cum_aru_updated true) ;;;
              fill_hole (mkPoId s ps) ;;;
              raise_cum_aru fuel s (next_pair ps)
          end
      end
  end.

Definition PRE_ORDER_Update_Cum_ARU (s : Z) : M unit :=
  r <- get ;;
  e <- po ;;
  pre <- at_server (preinstalled_incarnations r) s ;;
  cum <- at_server (cum_aru e) s ;;
  raise_cum_aru (S (size (PO_History e))) s (cum_aru_from pre cum).

(** ** PO-Acks *)
(** [for (; ps.seq_num <= last; ps.seq_num++)]: it does not end at the largest
    32-bit number. *)
Definition counting_up (first last : Z) : M (list Z) :=
  if (first <=? last) && (last =? two32 - 1) then raise Endless else ret (counting first last).

(** The parts for server [sm], from the sequence numbers [js] on; [true] when the
    message is full. *)
Fixpoint ack_requests (sm inc : Z) (js : list Z) (parts : list po_ack_part) : M (list po_ack_part * bool) :=
  match js with
  | [] => ret (parts, false)
  | j :: js =>
      let ps := mkPS inc j in
      po_update (with_po_ack_start_seq ps) ;;;
      e <- po ;;
      m <- at_server (max_acked e) sm ;;
      (if seq_num m <? j then set_server max_acked with_max_acked sm (mkPS (incarnation m) j)
       else ret tt) ;;;
      slot <- UTIL_Get_PO_Slot_If_Exists sm ps ;;
      match slot with
      | None =>
          w <- at_server (white_line e) sm ;;
          assert_ (0 <=? PRE_ORDER_Seq_Compare w ps) ;;;
          ack_requests sm inc js parts
      | Some slot =>
          match po_request slot with
          | None => raise OutOfBounds
          | Some req =>
              let parts := parts ++ [mkPart sm ps (make_digest req)] in
              if Z.of_nat (length parts) =? MAX_ACK_PARTS then ret (parts, true)
              else ack_requests sm inc js parts
          end
      end
  end.

(** Where the acknowledgements for a server start. *)
Definition ack_from (send_all : bool) (e : po_data (R := R)) (sm pre : Z) : M po_seq_pair :=
  if send_all then
    cum <- at_server (cum_aru e) sm ;;
    let ps := if 0 <=? PRE_ORDER_Seq_Compare (po_ack_start_seq e) cum then po_ack_start_seq e else cum in
    ret (if incarnation ps <? pre then mkPS pre 0 else ps)
  else at_server (max_acked e) sm.

Fixpoint ack_servers (send_all : bool) (servers : list Z) (parts : list po_ack_part)
    : M (list po_ack_part) :=
  match servers with
  | [] => po_update (with_po_ack_start_server 0) ;;; ret parts
  | sm :: servers =>
      po_update (with_po_ack_start_server sm) ;;;
      r <- get ;;
      e <- po ;;
      pre <- at_server (preinstalled_incarnations r) sm ;;
      from <- ack_from send_all e sm pre ;;
      a <- at_server (aru e) sm ;;
      assert_ (incarnation from =? incarnation a) ;;;
      js <- counting_up (wrap32 (seq_num from + 1)) (seq_num a) ;;
      acked <- ack_requests sm (incarnation from) js parts ;;
      let '(parts, full) := acked in
      if full then ret parts else
      po_update (with_po_ack_start_seq (mkPS 0 0)) ;;;
      ack_servers send_all servers parts
  end.

(** The message, if there is something to acknowledge, and whether there may be
    more; the text of it is written before the parts are collected. *)
Definition PRE_ORDER_Construct_PO_Ack (send_all : bool) : M (option po_ack_mess * bool) :=
  r <- get ;;
  e <- po ;;
  let first := if po_ack_start_server e =? 0 then 1 else po_ack_start_server e in
  parts <- ack_servers send_all (counting first NUM_SERVERS) [] ;;
  match parts with
  | [] => ret (None, false)
  | _ =>
      if MAX_ACK_PARTS <? Z.of_nat (length parts) then raise Exit else
      ret (Some {| ak_machine_id := My_Server_ID VAR; ak_incarnation := new_incarnation_val r;
                   ak_preinstalled := vector_of (preinstalled_incarnations r); ak_parts := parts; ak_digests := 0 |},
           Z.of_nat (length parts) =? MAX_ACK_PARTS)
  end.

(** [recovery_status[My_Server_ID] == PR_NORMAL] *)
Definition in_normal_operation : M bool :=
  e <- po ;;
  st <- at_server (recovery_status e) (My_Server_ID VAR) ;;
  ret (st =? PR_NORMAL).

(** Every full message is of slots not acknowledged before. *)
Fixpoint send_po_acks (fuel : nat) : M unit :=
  match fuel with
  | O => raise OutOfFuel
  | S fuel =>
      built <- PRE_ORDER_Construct_PO_Ack false ;;
      let '(ack, more) := built in
      match ack with
      | None => ret tt
      | Some ack =>
          modify (act (Send_PO_Ack ack)) ;;;
          if more then send_po_acks fuel else ret tt
      end
  end.

Definition PRE_ORDER_Send_PO_Ack : M unit :=
  normal <- in_normal_operation ;;
  if negb normal then ret tt else
  PRE_ORDER_Update_ARU ;;;
  e <- po ;;
  send_po_acks (S (size (PO_History e))).

(** ** PO-Requests *)
Definition load_pair (buf : list byte) (p : Z) : M po_seq_pair :=
  i <- load buf 4 (p + o_po_seq_pair_incarnation) ;;
  q <- load buf 4 (p + o_po_seq_pair_seq_num) ;;
  ret (mkPS i q).

Definition PRE_ORDER_Process_PO_Request (po_request_ : list byte) : M unit :=
  machine_id <- load po_request_ 4 o_signed_message_machine_id ;;
  inc <- load po_request_ 4 o_signed_message_incarnation ;;
  seq <- load_pair po_request_ (sz_signed_message + o_po_request_message_seq) ;;
  num_events <- load po_request_ 4 (sz_signed_message + o_po_request_message_num_events) ;;
  r <- get ;;
  e <- po ;;
  w <- at_server (white_line e) machine_id ;;
  if PRE_ORDER_Seq_Compare seq w <=? 0 then ret tt else
  assert_ ((1 <=? machine_id) && (machine_id <=? NUM_SERVERS)) ;;;
  pre <- at_server (preinstalled_incarnations r) machine_id ;;
  if pre <? inc then ret tt else
  slot <- UTIL_Get_PO_Slot machine_id seq ;;
  if bool_decide (is_Some (po_request slot)) then ret tt else
  put_po_slot (mkPoId machine_id seq) (store_request po_request_ (make_digest po_request_) slot) ;;;
  PRE_ORDER_Update_ARU ;;;
  PRE_ORDER_Update_Cum_ARU machine_id ;;;
  slot <- UTIL_Get_PO_Slot machine_id seq ;;
  put_po_slot (mkPoId machine_id seq) (set_num_events num_events slot) ;;;
  PRE_ORDER_Send_PO_Ack.

(** ** Proof matrices *)
(** The loop over the parts runs once, as for a Pre-Prepare. *)
Definition PRE_ORDER_Construct_Proof_Matrix : M (list byte) :=
  let num_acks := (PRIME_MAX_PACKET_SIZE - sz_signed_message - sz_proof_matrix_message
                   - MAX_MERKLE_DIGESTS * DIGEST_SIZE) / sz_po_aru_signed_message in
  if num_acks <? NUM_SERVERS then raise Exit else
  r <- get ;;
  load_bytes (cum_acks r) sz_po_aru_signed_message (sz_po_aru_signed_message * NUM_SERVERS).

(** The challenge the leader's turnaround time is measured with. *)
Definition PRE_ORDER_Create_TAT_Entry : M unit :=
  modify (fun r => set_turnaround_times (turnaround_times r ++ [cum_acks r]) r).

Definition PRE_ORDER_Send_Proof_Matrix : M unit :=
  r <- get ;;
  assert_ (negb (UTIL_I_Am_Leader VAR (View r))) ;;;
  e <- po ;;
  if negb (new_po_aru e) || negb (view_change_done r) then ret tt else
  updated <- PRE_ORDER_Latest_Proof_Updated VAR ;;
  if negb updated then ret tt else
  acks <- PRE_ORDER_Construct_Proof_Matrix ;;
  po_update (with_new_po_aru false) ;;;
  PRE_ORDER_Create_TAT_Entry ;;;
  modify (act (Send_Proof_Matrix acks)).

(** ** PO-ARUs *)
(** [ack_for_server[i - 1]] of a PO-ARU. *)
Definition acked_pair (m : list byte) (i : Z) : M po_seq_pair :=
  load_pair m (o_po_aru_signed_message_cum_ack + o_po_aru_message_ack_for_server
               + (i - 1) * sz_po_seq_pair).

(** Which of the entries are lower and higher than the stored ones. *)
Fixpoint compare_arus (cur prev : list byte) (servers : list Z) (lower higher : bool) : M (bool * bool) :=
  match servers with
  | [] => ret (lower, higher)
  | i :: servers =>
      c <- acked_pair cur i ;;
      p <- acked_pair prev i ;;
      let cmp := PRE_ORDER_Seq_Compare c p in
      if cmp <? 0 then compare_arus cur prev servers true higher
      else if 0 <? cmp then compare_arus cur prev servers lower true
      else compare_arus cur prev servers lower higher
  end.

(** [cum_max_acked[sender][i]] is raised to [ps]. *)
Definition raise_max_acked (sender i : Z) (ps : po_seq_pair) : M unit :=
  e <- po ;;
  row <- at_server (cum_max_acked e) sender ;;
  old <- at_server row i ;;
  if 0 <? PRE_ORDER_Seq_Compare ps old then
    row <- or_oob (aset row i ps) ;;
    set_server cum_max_acked with_cum_max_acked sender row
  else ret tt.

Definition PRE_ORDER_Process_PO_ARU (mess : list byte) : M unit :=
  type <- load mess 4 o_signed_message_type ;;
  if negb (type =? type_val PO_ARU) then ret tt else
  machine_id <- load mess 4 o_signed_message_machine_id ;;
  r <- get ;;
  let at_ := machine_id * sz_po_aru_signed_message in
  prev <- load_bytes (cum_acks r) at_ sz_po_aru_signed_message ;;
  cur <- load_bytes mess 0 sz_po_aru_signed_message ;;
  cur_inc <- load cur 4 o_signed_message_incarnation ;;
  prev_inc <- load prev 4 o_signed_message_incarnation ;;
  cur_num <- load cur 4 (o_po_aru_signed_message_cum_ack + o_po_aru_message_num) ;;
  prev_num <- load prev 4 (o_po_aru_signed_message_cum_ack + o_po_aru_message_num) ;;
  if (cur_inc =? prev_inc) && (cur_num <=? prev_num) then ret tt else
  preinstalled <- at_server (preinstalled_incarnations r) machine_id ;;
  if cur_inc <? preinstalled then ret tt else
  installed <- at_server (installed_incarnations r) machine_id ;;
  if installed <? cur_inc then ret tt else
  compared <- (if cur_inc <? prev_inc then ret (true, false)
               else compare_arus cur prev (seqZ 1 NUM_SERVERS) false false) ;;
  let '(lower, higher) := compared in
  if negb higher || lower then ret tt else
  (if UTIL_I_Am_Leader VAR (View r) then modify (set_should_send_pp true) else ret tt) ;;;
  po_update (with_new_po_aru true) ;;;
  modify (fun r => set_cum_acks (put_bytes (cum_acks r) at_ cur) r) ;;;
  for_servers (seqZ 1 NUM_SERVERS) (fun i => ps <- acked_pair cur i ;; raise_max_acked machine_id i ps) ;;;
  if UTIL_I_Am_Leader VAR (View r) then ret tt else PRE_ORDER_Send_Proof_Matrix.

(** The vector of [cum_aru] behind the header and the number of the message. *)
Definition PRE_ORDER_Construct_PO_ARU : M (list byte) :=
  e <- po ;;
  let num := wrap32 (po_aru_num e + 1) in
  po_update (with_po_aru_num num) ;;;
  r <- get ;;
  let m := zeros sz_po_aru_signed_message in
  let m := put_u32 o_signed_message_machine_id (My_Server_ID VAR) m in
  let m := put_u32 o_signed_message_incarnation (new_incarnation_val r) m in
  let m := put_u32 o_signed_message_type (type_val PO_ARU) m in
  let m := put_u32 o_signed_message_len sz_po_aru_message m in
  let m := put_u32 (o_po_aru_signed_message_cum_ack + o_po_aru_message_num) num m in
  ret (put_bytes m (o_po_aru_signed_message_cum_ack + o_po_aru_message_ack_for_server)
         (concat (map pair_bytes (take (Z.to_nat NUM_SERVERS) (drop 1 (cum_aru e)))))).

Definition PRE_ORDER_Send_PO_ARU : M unit :=
  e <- po ;;
  if negb (cum_aru_updated e) then ret tt else
  normal <- in_normal_operation ;;
  if negb normal then ret tt else
  m <- PRE_ORDER_Construct_PO_ARU ;;
  let m := UTIL_RSA_Sign_Message m in
  PRE_ORDER_Process_PO_ARU m ;;;
  modify (act (Send_PO_ARU m)) ;;;
  po_update (with_cum_aru_updated false).

(** ** Receiving PO-Acks *)
Definition PRE_ORDER_Process_PO_Ack_Part (part : po_ack_part) (po_ack : po_ack_mess) : M unit :=
  let sender := ak_machine_id po_ack in
  let originator := part_originator part in
  slot <- UTIL_Get_PO_Slot_If_Exists originator (part_seq part) ;;
  r <- get ;;
  let expected := match slot with
                  | Some slot => if po_snapshot slot then po_snapshot_vector slot
                                 else preinstalled_incarnations r
                  | None => preinstalled_incarnations r
                  end in
  if negb (bool_decide (ak_preinstalled po_ack = vector_of expected)) then ret tt else
  raise_max_acked sender originator (part_seq part) ;;;
  e <- po ;;
  w <- at_server (white_line e) originator ;;
  if PRE_ORDER_Seq_Compare (part_seq part) w <=? 0 then ret tt else
  slot <- UTIL_Get_PO_Slot originator (part_seq part) ;;
  received <- at_server (ack_received slot) sender ;;
  if (received : bool) then ret tt else
  rs <- or_oob (aset (ack_received slot) sender true) ;;
  as_ <- or_oob (aset (acks slot) sender (Some po_ack)) ;;
  ps <- or_oob (aset (ack_parts slot) sender (Some part)) ;;
  put_po_slot (mkPoId originator (part_seq part)) (store_ack rs as_ ps slot) ;;;
  PRE_ORDER_Update_Cum_ARU originator.

Fixpoint process_ack_parts (parts : list po_ack_part) (po_ack : po_ack_mess) : M unit :=
  match parts with
  | [] => ret tt
  | part :: parts => PRE_ORDER_Process_PO_Ack_Part part po_ack ;;; process_ack_parts parts po_ack
  end.

Definition PRE_ORDER_Process_PO_Ack (po_ack : po_ack_mess) : M unit :=
  r <- get ;;
  pre <- at_server (preinstalled_incarnations r) (ak_machine_id po_ack) ;;
  if pre <? ak_incarnation po_ack then ret tt else
  process_ack_parts (ak_parts po_ack) po_ack ;;;
  PRE_ORDER_Send_PO_ARU.

(** ** Garbage collection *)
(** With [erase] the slot leaves its table, otherwise the caller takes it out. *)
Definition PRE_ORDER_Garbage_Collect_PO_Slot (server_id : Z) (ps : po_seq_pair) (erase : bool) : M unit :=
  slot <- UTIL_Get_PO_Slot_If_Exists server_id ps ;;
  assert_ (bool_decide (is_Some slot)) ;;;
  let id := mkPoId server_id ps in
  (if erase then po_update (fun e => with_PO_History (delete id (PO_History e)) e) else ret tt) ;;;
  set_server white_line with_white_line server_id ps ;;;
  e <- po ;;
  cum <- at_server (cum_aru e) server_id ;;
  (if 0 <? PRE_ORDER_Seq_Compare ps cum then set_server cum_aru with_cum_aru server_id ps else ret tt) ;;;
  po_update (fun e => with_Recon_History (delete id (Recon_History e)) e).
End Handlers.
