(* ===== verification/OrderFrame.v ===== *)
(** What a computation of another component leaves alone.

    [within Rel m]: from every state, [m] ends in a state related to it by the
    preorder [Rel], and its fuel is enough.  The relations are [keeps] of
    [OrderCorrect.v] and [onward], by which the view only goes forward; the rules
    compose along the structure of a computation ([walk]). *)
From Stdlib Require Import ZArith Lia List Bool.
From Stdlib Require Import Strings.Byte.
From stdpp Require Import base list gmap.
From S2P Require Import Prelude Memory Config Packets Crypto Utility Eligibility EligibilityCorrect OrderState Order OrderCorrect OrderHandlers.

Section Frame.
Context {E : Type} (F : fault -> Prop).
Abbreviation state := (order_state (E := E)).
Implicit Types r : state.

Definition within (Rel : state -> state -> Prop) {A} (m : comp state A) : Prop :=
  forall r, wp F m (fun _ => Rel r) r.

Section Rules.
Context (HF : forall f, f <> OutOfFuel -> F f).
Context (Rel : state -> state -> Prop) {pre : PreOrder Rel}.

Lemma within_ret {A} (a : A) : within Rel (ret a).
Proof. intros r. apply wp_ret. reflexivity. Qed.

Lemma within_raise {A} f : f <> OutOfFuel -> within Rel (raise (A := A) f).
Proof. intros Hf r. apply wp_raise, HF, Hf. Qed.

Lemma within_bind {A B} (m : comp state A) (k : A -> comp state B) :
  within Rel m -> (forall a, within Rel (k a)) -> within Rel (bind m k).
Proof.
  intros Hm Hk r. apply wp_bind. eapply wp_conseq; [apply Hm|]. cbv beta. intros a t Ht.
  eapply wp_conseq; [apply Hk|]. cbv beta. intros b u Hu. etransitivity; eassumption.
Qed.

Lemma within_get_bind {A} (k : state -> comp state A) :
  (forall r, wp F (k r) (fun _ => Rel r) r) -> within Rel (bind get k).
Proof. intros Hk r. apply wp_bind, wp_get, Hk. Qed.

Lemma within_get : within Rel get.
Proof. intros r. apply wp_get. reflexivity. Qed.

Lemma within_modify f : (forall r, Rel r (f r)) -> within Rel (modify f).
Proof. intros Hf r. apply Hf. Qed.

Lemma within_put_unless {A} (c : state -> bool) (f : state -> state) (k : comp state A) :
  (forall r, Rel r (f r)) -> within Rel k ->
  within Rel (bind get (fun r => bind (if c r then ret tt else put (f r)) (fun _ => k))).
Proof.
  intros Hf Hk. apply within_get_bind. intros r. apply wp_bind.
  assert (H : forall r', Rel r r' -> wp F k (fun _ => Rel r) r').
  { intros r' Hr. eapply wp_conseq; [apply Hk|]. cbv beta. intros a t Ht. etransitivity; eassumption. }
  destruct (c r); [apply wp_ret, H; reflexivity|apply wp_put, H, Hf].
Qed.

Lemma within_or_oob {A} (o : option A) : within Rel (or_oob o).
Proof. intros r. apply wp_or_oob; [apply HF; discriminate|]. reflexivity. Qed.

Lemma within_assert c : within Rel (assert_ c).
Proof. destruct c; [apply within_ret|apply within_raise; discriminate]. Qed.

Lemma within_load_bytes buf p n : within Rel (load_bytes buf p n).
Proof. intros r. apply wp_load_bytes; [apply HF; discriminate|]. reflexivity. Qed.

Lemma within_load buf n p : within Rel (load buf n p).
Proof. intros r. apply wp_load; [apply HF; discriminate|]. reflexivity. Qed.

Lemma within_map_comp {A B} (f : A -> comp state B) l :
  (forall a, within Rel (f a)) -> within Rel (map_comp f l).
Proof.
  intros Hf. induction l as [|a l IH]; cbn [map_comp]; [apply within_ret|].
  apply within_bind; [apply Hf|intros b]. apply within_bind; [exact IH|intros bs; apply within_ret].
Qed.

Lemma within_the_slot seq : within Rel (the_slot seq).
Proof. intros r. apply wp_bind, wp_get, within_or_oob. Qed.

Lemma within_If_Exists seq : within Rel (UTIL_Get_ORD_Slot_If_Exists seq).
Proof. intros r. unfold UTIL_Get_ORD_Slot_If_Exists, wp. cbn. reflexivity. Qed.

Lemma within_upd seq f :
  (forall r s, History r !! seq = Some s -> Rel r (set_slot seq (f s) r)) -> within Rel (upd seq f).
Proof.
  intros Hf r. apply wp_bind, wp_get, wp_bind, wp_or_oob; [apply HF; discriminate|].
  intros s Es. apply wp_put, Hf, Es.
Qed.

(** A computation of a value. *)
Lemma within_value {A} (m : comp state A) :
  (forall r, wp F m (fun _ t => t = r) r) -> within Rel m.
Proof. intros Hm r. eapply wp_conseq; [apply Hm|]. cbv beta. intros a t ->. reflexivity. Qed.
End Rules.

Lemma within_mono (Rel Rel' : state -> state -> Prop) {A} (m : comp state A) :
  (forall r r', Rel r r' -> Rel' r r') -> within Rel m -> within Rel' m.
Proof. intros H Hm r. eapply wp_conseq; [apply Hm|]. cbv beta. auto. Qed.

Lemma within_any Rel {A} (m : comp state A) : within Rel m -> forall r, wp any_fault m (fun _ => Rel r) r.
Proof. intros Hm r. eapply wp_fault; [|apply Hm]. intros f _. exact I. Qed.

(** ** The view goes forward *)
Definition later r r' : Prop :=
  View r <= View r' /\ (View r = View r' -> view_change_done r = true -> view_change_done r' = true).

(** And no slot is added to those that wait for their execution. *)
Definition onward r r' : Prop := later r r' /\ Pending_Execution r' ⊆ Pending_Execution r.

#[export] Instance later_preorder : PreOrder later.
Proof.
  split.
  - intros r. split; [lia|auto].
  - intros r1 r2 r3 (A1 & B1) (A2 & B2). split; [lia|].
    intros Ev Hd. apply B2; [lia|]. apply B1; [lia|exact Hd].
Qed.

#[export] Instance onward_preorder : PreOrder onward.
Proof.
  split; [intros r; split; reflexivity|]. intros r1 r2 r3 (A1 & B1) (A2 & B2).
  split; [etransitivity; eassumption|set_solver].
Qed.

Lemma later_view r r' : same_view r r' -> later r r'.
Proof. intros [E1 E2]. split; [rewrite E1; lia|]. intros _ Hd. congruence. Qed.

Lemma onward_view r r' : same_view r r' -> Pending_Execution r' ⊆ Pending_Execution r -> onward r r'.
Proof. intros Hv Hp. split; [apply later_view, Hv|exact Hp]. Qed.

Lemma onward_later r r' : onward r r' -> later r r'.
Proof. apply proj1. Qed.

(** Views that go forward and come out the same were the same all along. *)
Lemma later_between r1 r2 r3 : later r1 r2 -> later r2 r3 -> same_view r1 r3 -> same_view r1 r2.
Proof.
  intros (A1 & B1) (A2 & B2) [E1 E2]. assert (EV : View r2 = View r1) by lia. split; [exact EV|].
  destruct (view_change_done r1) eqn:D1; [apply B1; auto|].
  destruct (view_change_done r2) eqn:D2; [|reflexivity]. rewrite B2 in E2 by (auto; lia). congruence.
Qed.

(** ** [keeps] *)
#[export] Instance keeps_preorder erase : PreOrder (keeps (E := E) erase).
Proof. split; [intros r; apply keeps_refl|intros r1 r2 r3; apply keeps_trans]. Qed.

Lemma keeps_erase r r' : keeps False r r' -> keeps True r r'.
Proof.
  intros []. split; auto. intros seq s Es.
  destruct (k_slot seq s Es) as [H|[[] _]]. left. exact H.
Qed.

(** The ordering protocol's part of the state, but the messages. *)
Definition ordering r :=
  (View r, view_change_done r, ARU r, ppARU r, (forwarding_white_line r, recon_white_line r, stable_catchup r),
   next_seq r, History r, Pending_Execution r, proposal_digest r).

Lemma keeps_beside erase r r' l :
  ordering r' = ordering r -> actions r' = actions r ++ l -> Forall silent l ->
  (arrays_ok r -> arrays_ok r') -> keeps erase r r'.
Proof.
  unfold ordering. intros [= E1 E2 E3 E4 E5 E6 E7 E8 E9 E10 E11] El Hl Ha.
  split; rewrite ?E3, ?E5, ?E6, ?E7, ?E9; auto; try lia.
  all: try (split; [lia|auto]; fail).
  - exists l. auto.
  - intros Hp n Hn. unfold pending_ok in Hp. rewrite E9. rewrite E10 in Hn. exact (Hp n Hn).
  - intros seq s Es. left. exists s. split; [exact Es|]. repeat split.
Qed.

(** A slot rewritten within its ballot. *)
Lemma keeps_set_slot erase r seq s s' :
  History r !! seq = Some s -> same_ballot s s' -> keeps erase r (set_slot seq s' r).
Proof.
  intros Es Hb. assert (Hd : forall q, History r !! q = None -> History (set_slot seq s' r) !! q = None).
  { intros q Hq. cbn. rewrite lookup_insert_ne; [exact Hq|congruence]. }
  split; auto; try (split; auto using Z.le_refl); try apply Z.le_refl.
  - apply no_actions. reflexivity.
  - intros Hp. apply (pending_set_slot r seq s s' Hp Es). intros Ho. destruct Hb as (?&?&?&?&?&?&?&?&?&?&E1&?).
    congruence.
  - intros q t Et. left. cbn. destruct (Z.eq_dec q seq) as [->|Hne].
    + rewrite lookup_insert_eq. exists s'. split; [reflexivity|]. congruence.
    + rewrite lookup_insert_ne by congruence. exists t. split; [exact Et|]. repeat split.
Qed.

(** ** Beside the ordering protocol *)
(** What other components do that has nothing to do with it. *)
Definition aside r r' : Prop :=
  keeps False r r' /\ Pending_Execution r' = Pending_Execution r.

#[export] Instance aside_preorder : PreOrder aside.
Proof.
  split; [intros r; split; reflexivity|]. intros r1 r2 r3 [K1 P1] [K2 P2].
  split; [etransitivity; eassumption|congruence].
Qed.

Lemma aside_keeps r r' : aside r r' -> keeps False r r'.
Proof. intros [K _]. exact K. Qed.

Lemma aside_onward r r' : aside r r' -> onward r r'.
Proof. intros [K Ep]. apply onward_view; [apply K|rewrite Ep; reflexivity]. Qed.

Lemma aside_beside r r' l :
  ordering r' = ordering r -> actions r' = actions r ++ l -> Forall silent l ->
  (arrays_ok r -> arrays_ok r') -> aside r r'.
Proof.
  intros Eo El Hl Ha. split; [eapply keeps_beside; eassumption|]. unfold ordering in Eo. congruence.
Qed.

(** Without a message. *)
Lemma aside_quiet r r' :
  ordering r' = ordering r -> actions r' = actions r -> (arrays_ok r -> arrays_ok r') -> aside r r'.
Proof.
  intros Eo El Ha. apply (aside_beside r r' []); auto. rewrite app_nil_r. exact El.
Qed.

Lemma aside_others r (x : E) : aside r (set_others x r).
Proof. apply aside_quiet; auto. Qed.

Lemma aside_act r a : silent a -> aside r (act a r).
Proof. intros Ha. apply (aside_beside r _ [a]); auto. Qed.

Lemma aside_set_slot r seq s s' :
  History r !! seq = Some s -> same_ballot s s' -> aside r (set_slot seq s' r).
Proof. intros Es Hb. split; [eapply keeps_set_slot; eassumption|reflexivity]. Qed.

Lemma within_upd_same (HF : forall f, f <> OutOfFuel -> F f) seq f :
  (forall s, same_ballot s (f s)) -> within aside (upd seq f).
Proof. intros Hb. apply (within_upd HF). intros r s Es. eapply aside_set_slot; [exact Es|apply Hb]. Qed.

(** [PRE_ORDER_Proof_ARU] on a matrix of any length. *)
Lemma within_Proof_ARU (HF : forall f, f <> OutOfFuel -> F f) Rel {pre : PreOrder Rel} VAR server proof :
  1 <= 2 * VF VAR + VK VAR + 1 <= NUM_SERVERS -> within Rel (PRE_ORDER_Proof_ARU VAR server proof).
Proof.
  intros HVAR. apply within_value; [exact pre|]. intros r. apply wp_bind. eapply wp_conseq.
  - apply (wp_map_comp F _ (fun _ _ => True)). intros k _. unfold ack_for. cbv zeta.
    apply wp_bind, wp_load; [apply HF; discriminate|]. intros i _.
    apply wp_bind, wp_load; [apply HF; discriminate|]. intros q _. apply wp_ret. auto.
  - cbv beta. intros col t [-> Hcol]. apply (wp_fault no_fault); [intros f []|].
    eapply wp_conseq; [apply wp_eligible_of; [|exact HVAR]|].
    + rewrite <- (Forall2_length _ _ _ Hcol), length_seqZ. change NUM_SERVERS with 6. lia.
    + intros ps t [-> _]. reflexivity.
Qed.
Lemma within_aside_onward {A} (m : comp state A) : within aside m -> within onward m.
Proof. apply within_mono, aside_onward. Qed.
End Frame.

Create HintDb frame.
#[export] Hint Resolve keeps_preorder later_preorder onward_preorder aside_preorder within_aside_onward : frame.

(** Along the structure of a computation; what it calls is in [frame]. *)
Ltac walk1 :=
  first
    [ solve [eauto with frame nocore]
    | apply within_ret; solve [typeclasses eauto]
    | apply within_raise; [assumption|discriminate]
    | apply within_get; solve [typeclasses eauto]
    | apply within_or_oob; [assumption|typeclasses eauto]
    | apply within_assert; [assumption|typeclasses eauto]
    | apply within_load; [assumption|typeclasses eauto]
    | apply within_load_bytes; [assumption|typeclasses eauto]
    | apply within_the_slot; [assumption|typeclasses eauto]
    | apply within_If_Exists; typeclasses eauto
    | match goal with
      | |- within _ _ (bind _ _) => apply within_bind; [typeclasses eauto| |intros ?]
      | |- within _ _ (if ?b then _ else _) => destruct b eqn:?
      | |- within _ _ (match ?x with _ => _ end) => destruct x eqn:?
      | |- within _ _ (let _ := _ in _) => cbv zeta
      end ].
Ltac walk := repeat walk1.
