(* ===== verification/PreOrderCorrect.v ===== *)
(** Pre-ordering leaves the ordering protocol alone: the handlers of [PreOrder.v]
    and what the executor calls of them. *)
From Stdlib Require Import ZArith Lia List Bool.
From Stdlib Require Import Strings.Byte.
From stdpp Require Import base list gmap.
From S2P Require Import Prelude Memory Config Packets Crypto Utility Eligibility EligibilityCorrect OrderState PreOrderState Order OrderCorrect OrderHandlers OrderFrame PreOrder.

Section PreOrder.
Context {crypto : Crypto} {signer : Signer} {R : Type}.
Context (F : fault -> Prop) (HF : forall f, f <> OutOfFuel -> F f).
Context (VAR : server_variables) (HVAR : 1 <= 2 * VF VAR + VK VAR + 1 <= NUM_SERVERS).

Abbreviation state := (order_state (E := po_data (R := R))).
Abbreviation untouched := (within F (aside (E := po_data (R := R)))).

Section Rules.
Context (Rel : state -> state -> Prop) {pre : PreOrder Rel}.

Lemma within_po : within F Rel po.
Proof. intros r. apply wp_bind, wp_get, wp_ret. reflexivity. Qed.

Lemma within_at_server {A} (l : list A) s : within F Rel (at_server l s).
Proof. apply within_or_oob; [exact HF|exact pre]. Qed.

Lemma within_Get_PO_Slot_If_Exists s ps : within F Rel (UTIL_Get_PO_Slot_If_Exists s ps).
Proof.
  unfold UTIL_Get_PO_Slot_If_Exists. destruct (negb _); [apply within_raise; [exact HF|discriminate]|].
  apply within_bind; [exact pre|apply within_po|intros e; apply within_ret; exact pre].
Qed.
End Rules.

Lemma within_po_update f : untouched (po_update f).
Proof. apply within_modify. intros r. apply aside_others. Qed.

Lemma within_act a : silent a -> untouched (modify (act a)).
Proof. intros Ha. apply within_modify. intros r. apply aside_act, Ha. Qed.
End PreOrder.

#[export] Hint Resolve within_po within_at_server within_Get_PO_Slot_If_Exists within_po_update : frame.

Section Handlers.
Context {crypto : Crypto} {signer : Signer} {R : Type}.
Context (F : fault -> Prop) (HF : forall f, f <> OutOfFuel -> F f).
Context (VAR : server_variables) (HVAR : 1 <= 2 * VF VAR + VK VAR + 1 <= NUM_SERVERS).

Abbreviation state := (order_state (E := po_data (R := R))).
Abbreviation untouched := (within F (aside (E := po_data (R := R)))).

Lemma within_set_server {A} (field : po_data (R := R) -> list A) put_field s x :
  untouched (set_server field put_field s x).
Proof. unfold set_server. walk. Qed.
Hint Resolve within_set_server : frame.

Lemma within_put_po_slot id slot : untouched (put_po_slot id slot).
Proof. apply within_po_update. Qed.
Hint Resolve within_put_po_slot : frame.

Lemma within_Get_PO_Slot s ps : untouched (UTIL_Get_PO_Slot s ps).
Proof. unfold UTIL_Get_PO_Slot. walk. Qed.
Hint Resolve within_Get_PO_Slot : frame.

Lemma within_for_servers servers body :
  (forall i, untouched (body i)) -> untouched (for_servers servers body).
Proof. intros Hb. induction servers; cbn [for_servers]; walk. Qed.

Lemma within_Garbage_Collect_PO_Slot s ps erase : untouched (PRE_ORDER_Garbage_Collect_PO_Slot s ps erase).
Proof. unfold PRE_ORDER_Garbage_Collect_PO_Slot. walk. Qed.

Lemma within_load_pair buf p : untouched (load_pair buf p).
Proof. unfold load_pair. walk. Qed.
Hint Resolve within_load_pair : frame.

(** ** PO-ARUs *)
(** The matrix is read, and the array of what was proved keeps its length. *)
Lemma within_proof_updated servers : forall b, untouched (proof_updated VAR servers b).
Proof.
  induction servers as [|i servers IH]; intros b; cbn [proof_updated]; [walk|].
  apply within_get_bind. intros r. apply wp_bind.
  pose proof (within_Proof_ARU F HF eq VAR i (drop (Z.to_nat sz_po_aru_signed_message) (cum_acks r)) HVAR r) as Hp.
  eapply wp_conseq; [exact Hp|]. cbv beta. intros ps t <-.
  apply wp_bind, wp_or_oob; [apply HF; discriminate|]. intros old _.
  destruct (_ <? _); [|apply IH].
  apply wp_bind, wp_or_oob; [apply HF; discriminate|]. intros l El. apply wp_bind, wp_put.
  eapply wp_conseq; [apply IH|]. cbv beta. intros _ t Ht. etransitivity; [|exact Ht].
  apply aside_quiet; [reflexivity|reflexivity|].
  intros (A1 & A2 & A3 & A4). repeat split; auto. cbn. rewrite (aset_length _ _ _ _ El). exact A3.
Qed.

Lemma within_Latest_Proof_Updated : untouched (PRE_ORDER_Latest_Proof_Updated VAR).
Proof. apply within_proof_updated. Qed.
Hint Resolve within_Latest_Proof_Updated : frame.

Lemma within_Create_TAT_Entry : untouched PRE_ORDER_Create_TAT_Entry.
Proof.
  apply within_get_bind. intros r. apply wp_modify.
  apply aside_quiet; [reflexivity|reflexivity|].
  intros (A1 & A2 & A3 & A4). repeat split; auto. cbn. apply Forall_app. split; [exact A4|].
  constructor; [|constructor]. rewrite A2. reflexivity.
Qed.
Hint Resolve within_Create_TAT_Entry : frame.

Lemma within_Send_Proof_Matrix : untouched (PRE_ORDER_Send_Proof_Matrix VAR).
Proof.
  unfold PRE_ORDER_Send_Proof_Matrix, PRE_ORDER_Construct_Proof_Matrix. walk.
  apply within_act. exact I.
Qed.
Hint Resolve within_Send_Proof_Matrix : frame.

Lemma within_acked_pair Rel {pre : PreOrder Rel} m i : within F Rel (acked_pair (R := R) m i).
Proof. unfold acked_pair, load_pair. walk. Qed.
Hint Resolve within_acked_pair : frame.

Lemma within_compare_arus Rel {pre : PreOrder Rel} cur prev servers : forall lower higher,
  within F Rel (compare_arus (R := R) cur prev servers lower higher).
Proof. induction servers; intros lower higher; cbn [compare_arus]; walk. Qed.
Hint Resolve within_compare_arus : frame.

Lemma within_raise_max_acked sender i ps : untouched (raise_max_acked sender i ps).
Proof. unfold raise_max_acked. walk. Qed.
Hint Resolve within_raise_max_acked : frame.

(** The row that is replaced lies in the matrix, whose size stays. *)
Lemma aside_matrix r p cur :
  0 <= p -> p + Z.of_nat (length cur) <= Z.of_nat (length (cum_acks r)) ->
  aside (E := po_data (R := R)) r (set_cum_acks (put_bytes (cum_acks r) p cur) r).
Proof.
  intros Hp Hl. apply aside_quiet; [reflexivity|reflexivity|].
  intros (A1 & A2 & A3 & A4). repeat split; auto. cbn. rewrite put_bytes_length by assumption. exact A2.
Qed.

(** What follows once the PO-ARU is found to be newer. *)
Lemma wp_store_aru (r : state) m p cur :
  0 <= p -> p + Z.of_nat (length cur) <= Z.of_nat (length (cum_acks r)) ->
  wp (S := state) F ((if UTIL_I_Am_Leader VAR (View r) then modify (set_should_send_pp true) else ret tt) ;;;
        po_update (with_new_po_aru true) ;;;
        modify (fun r => set_cum_acks (put_bytes (cum_acks r) p cur) r) ;;;
        for_servers (seqZ 1 NUM_SERVERS) (fun i => ps <- acked_pair cur i ;; raise_max_acked m i ps) ;;;
        if UTIL_I_Am_Leader VAR (View r) then ret tt else PRE_ORDER_Send_Proof_Matrix VAR)
    (fun _ => aside r) r.
Proof.
  intros Hp Hl.
  assert (Hrest : forall r1, aside r r1 -> cum_acks r1 = cum_acks r ->
    wp F (modify (fun r => set_cum_acks (put_bytes (cum_acks r) p cur) r) ;;;
          for_servers (seqZ 1 NUM_SERVERS) (fun i => ps <- acked_pair cur i ;; raise_max_acked m i ps) ;;;
          if UTIL_I_Am_Leader VAR (View r) then ret tt else PRE_ORDER_Send_Proof_Matrix VAR)
      (fun _ => aside r) r1).
  { intros r1 K1 E1. apply wp_bind, wp_modify.
    assert (K2 : aside r (set_cum_acks (put_bytes (cum_acks r1) p cur) r1)).
    { etransitivity; [exact K1|]. apply aside_matrix; [exact Hp|rewrite E1; exact Hl]. }
    eapply wp_conseq; [|intros b t Ht; etransitivity; [exact K2|exact Ht]].
    match goal with |- wp F ?c (fun a t => aside ?s t) ?s => cut (untouched c); [intros H; apply H|] end.
    walk. apply within_for_servers. intros i. walk. }
  apply wp_bind. destruct (UTIL_I_Am_Leader _ _).
  - apply wp_modify, wp_bind, wp_modify, Hrest; [|reflexivity].
    apply aside_quiet; auto.
  - apply wp_ret, wp_bind, wp_modify, Hrest; [|reflexivity]. apply aside_others.
Qed.

Lemma within_Process_PO_ARU m : untouched (PRE_ORDER_Process_PO_ARU VAR m).
Proof.
  intros r. assert (HO : F OutOfBounds) by (apply HF; discriminate).
  assert (Hdone : wp F (ret tt) (fun _ => aside r) r) by (apply wp_ret; reflexivity).
  unfold PRE_ORDER_Process_PO_ARU.
  apply wp_bind, wp_load; [exact HO|]. intros type _. destruct (negb _); [exact Hdone|].
  apply wp_bind, wp_load; [exact HO|]. intros mid _. apply wp_bind, wp_get. cbv zeta.
  apply wp_bind, wp_load_bytes; [exact HO|]. intros prev Ep.
  apply wp_bind, wp_load_bytes; [exact HO|]. intros cur Ec.
  repeat (apply wp_bind, wp_load; [exact HO|]; intros ? _).
  destruct (_ && _); [exact Hdone|].
  apply wp_bind, wp_or_oob; [exact HO|]. intros pre _. destruct (_ <? _); [exact Hdone|].
  apply wp_bind, wp_or_oob; [exact HO|]. intros ins _. destruct (_ <? _); [exact Hdone|].
  apply wp_bind. eapply (wp_conseq _ _ _ (fun _ t => t = r)).
  - destruct (_ <? _); [apply wp_ret; reflexivity|].
    eapply wp_conseq; [apply (within_compare_arus eq)|]. cbv beta. auto.
  - intros [lower higher] t ->. destruct (_ || _); [exact Hdone|].
    apply slice_in_range in Ep as (P1 & P2 & P3). apply slice_length in Ec as [_ Ec].
    apply wp_store_aru; [exact P1|]. rewrite Ec. lia.
Qed.
End Handlers.

#[export] Hint Resolve within_set_server within_put_po_slot within_Get_PO_Slot within_load_pair
  within_Latest_Proof_Updated within_Send_Proof_Matrix within_Process_PO_ARU
  within_Garbage_Collect_PO_Slot : frame.
