(* ===== verification/Recon.v ===== *)
(** Reconciliation: [prime/src/recon.c].

    When a slot is complete, every replica of a set that the slot's matrix
    determines sends the PO-Requests the slot makes eligible to the replicas whose
    PO-ARUs do not cover them.  With [USE_ERASURE_CODES] 0 it sends them whole and
    the list of messages to encode stays empty, so that [RECON_Do_Recon] ends before
    it encodes; a RECON message is never sent, but it is still received, and the
    functions of [erasure.c] it would be decoded with do nothing. *)
From Stdlib Require Import ZArith Lia List Bool.
From Stdlib Require Import Strings.Byte Strings.String.
From stdpp Require Import base list gmap.
From S2P Require Import Prelude Memory Config Packets Crypto Utility Eligibility OrderState PreOrderState Order PreOrder.

(** ** The requests a slot makes eligible *)
Section Eligible.
Context {R : Type}.

Abbreviation M := (comp (order_state (E := po_data (R := R)))).

(** [prev_pop] and [cur_pop] of the servers: what was executed before the slot
    and what it makes eligible. *)
Definition pops (prev_slot : option ord_slot) (gseq : Z) (pp : complete_pre_prepare_message) (slot : ord_slot)
    : M (list (po_seq_pair * po_seq_pair)) :=
  prev_pop <- (match prev_slot with
               | None => assert_ (gseq =? 1) ;;; ret (repeat (mkPS 0 0) (Z.to_nat NUM_SERVERS))
               | Some _ => ret (c_last_executed pp)
               end) ;;
  ret (zip prev_pop (made_eligible slot)).

(** The requests of server [i]: a new incarnation starts over. *)
Definition eligible_seqs (prev cur : po_seq_pair) : M (list Z) :=
  assert_ (incarnation prev <=? incarnation cur) ;;;
  let start := if incarnation prev <? incarnation cur then 0 else seq_num prev in
  counting_up (wrap32 (start + 1)) (seq_num cur).

(** ** The white line *)
(** [while(1)], as for the forwarding line: one turn per slot. *)
Fixpoint raise_recon_line (fuel : nat) : M unit :=
  match fuel with
  | O => raise OutOfFuel
  | S n =>
      r <- get ;;
      match History r !! wrap32 (recon_white_line r + 1) with
      | Some slot =>
          if reconciled slot then put (set_recon_line (wrap32 (recon_white_line r + 1)) r) ;;; raise_recon_line n
          else ret tt
      | None => ret tt
      end
  end.

Definition RECON_Update_Recon_White_Line : M unit :=
  r <- get ;; raise_recon_line (S (size (History r))).
End Eligible.

Section Recon.
Context {crypto : Crypto} {signer : Signer} {R : Type} (VAR : server_variables).

Abbreviation M := (comp (order_state (E := po_data (R := R)))).

(** ** Who sends *)
(** [could_send[s]] for [s] from 1: the acknowledgement of [s] is not below entry
    NUM_F + NUM_K + 1 of the sorted column. *)
Definition could_send (cack : list po_seq_pair) : M (list bool) :=
  least <- or_oob (aget (sort_pairs cack) (NUM_F + NUM_K)) ;;
  ret (map (fun a => 0 <=? PRE_ORDER_Seq_Compare a least) cack).

(** The first 2f+k+1 of those that could send do; the walk is at server [s]. *)
Fixpoint among_first (flags : list bool) (s sender_count : Z) : bool :=
  match flags with
  | [] => false
  | b :: flags =>
      let sender_count := if b then sender_count + 1 else sender_count in
      if s =? My_Server_ID VAR then true
      else if sender_count =? 2 * NUM_F + NUM_K + 1 then false
      else among_first flags (s + 1) sender_count
  end.

Definition RECON_Do_I_Send_Erasure (machine_id : Z) (cum_acks : list byte) : M bool :=
  cack <- column cum_acks machine_id ;;
  flags <- could_send cack ;;
  mine <- or_oob (aget flags (My_Server_ID VAR - 1)) ;;
  ret (mine && among_first flags 1 0).

(** ** Sending *)
Definition send_if_behind (req : list byte) (origin : Z) (seq : po_seq_pair) (k : Z) : M unit :=
  e <- po ;;
  row <- at_server (cum_max_acked e) k ;;
  acked <- at_server row origin ;;
  if (PRE_ORDER_Seq_Compare acked seq <? 0) && negb (k =? origin) then
    if UTIL_I_Am_Faulty VAR =? 0 then modify (act (Send_To_Server k req)) else ret tt
  else ret tt.

(** To every other server whose latest PO-ARU does not cover the request. *)
Definition send_to_those_behind (req : list byte) : M unit :=
  origin <- load req 4 o_signed_message_machine_id ;;
  seq <- load_pair req (sz_signed_message + o_po_request_message_seq) ;;
  for_servers (seqZ 1 NUM_SERVERS) (send_if_behind req origin seq).

(** A request of server [i], if it is there. *)
Definition send_request (matrix : list byte) (i : Z) (ps : po_seq_pair) : M unit :=
  p_slot <- UTIL_Get_PO_Slot_If_Exists i ps ;;
  match p_slot ≫= po_request with
  | Some req =>
      origin <- load req 4 o_signed_message_machine_id ;;
      should_send <- RECON_Do_I_Send_Erasure origin matrix ;;
      if (should_send : bool) then send_to_those_behind req else ret tt
  | None => ret tt
  end.

Fixpoint send_requests (matrix : list byte) (i inc : Z) (js : list Z) : M unit :=
  match js with
  | [] => ret tt
  | j :: js => send_request matrix i (mkPS inc j) ;;; send_requests matrix i inc js
  end.

Fixpoint send_eligible (matrix : list byte) (i : Z) (l : list (po_seq_pair * po_seq_pair)) : M unit :=
  match l with
  | [] => ret tt
  | (prev, cur) :: l =>
      js <- eligible_seqs prev cur ;;
      send_requests matrix i (incarnation cur) js ;;;
      send_eligible matrix (i + 1) l
  end.

Definition RECON_Do_Recon (seq : Z) : M unit :=
  o_slot <- the_slot seq ;;
  if reconciled o_slot then ret tt else
  if negb (collected_all_parts o_slot) then ret tt else
  let pp := complete_pre_prepare o_slot in
  let gseq := c_seq_num pp in
  prev_ord_slot <- UTIL_Get_ORD_Slot_If_Exists (wrap32 (gseq - 1)) ;;
  let blocked := match prev_ord_slot with
                 | None => negb (gseq =? 1)
                 | Some prev => negb (collected_all_parts prev)
                 end in
  if blocked then ret tt else
  l <- pops prev_ord_slot gseq pp o_slot ;;
  send_eligible (c_cum_acks pp) 1 l ;;;
  upd seq mark_reconciled ;;;
  RECON_Update_Recon_White_Line.

(** ** Receiving *)
Definition recon_part_header : ctype := TStruct
  [("originator"%string, TInt32); ("seq"%string, Wire.po_seq_pair); ("part_len"%string, TInt32)].
Definition sz_recon_part_header : Z := Eval vm_compute in sizeof recon_part_header.
Definition o_recon_part_header_originator : Z := Eval vm_compute in offsetof recon_part_header "originator"%string.
Definition o_recon_part_header_seq : Z := Eval vm_compute in offsetof recon_part_header "seq"%string.
Definition o_recon_part_header_part_len : Z := Eval vm_compute in offsetof recon_part_header "part_len"%string.

(** The first part sets the length of the message, the others must agree; 0 before
    the first. *)
Fixpoint decoded_length (rows : list (bool * list byte)) (message_len : Z) (initialized : bool) : M Z :=
  match rows with
  | [] => ret message_len
  | (false, _) :: rows => decoded_length rows message_len initialized
  | (true, part) :: rows =>
      mess_len <- load part 4 0 ;;
      if initialized then
        assert_ (mess_len =? message_len) ;;; decoded_length rows message_len true
      else
        assert_ (negb (mess_len =? 0)) ;;; decoded_length rows mess_len true
  end.

(** [ERASURE_Decode] leaves the new message, which is all zeros, as it is. *)
Definition RECON_Decode_Recon (slot : recon_slot) : M unit :=
  message_len <- decoded_length (drop 1 (zip (part_collected slot) (parts slot))) 0 false ;;
  let mess := zeros PRIME_MAX_PACKET_SIZE in
  size <- UTIL_Message_Size mess 0 ;;
  assert_ (message_len =? size) ;;;
  type <- load mess 4 o_signed_message_type ;;
  assert_ (type =? type_val PO_REQUEST) ;;;
  PRE_ORDER_Process_PO_Request VAR mess.

Definition UTIL_Get_Recon_Slot (originator : Z) (ps : po_seq_pair) : M recon_slot :=
  e <- po ;;
  let id := mkPoId originator ps in
  match Recon_History e !! id with
  | Some slot => ret slot
  | None => po_update (fun e => with_Recon_History (<[id := new_recon_slot]> (Recon_History e)) e) ;;;
            ret new_recon_slot
  end.

(** [memcpy] into the row of the sender. *)
Definition copy_part (row part : list byte) : M (list byte) :=
  if (length part <=? length row)%nat then ret (put_bytes row 0 part) else raise OutOfBounds.

(** The part at [p] and where the next starts. *)
Definition process_recon_part (recon : list byte) (p : Z) : M Z :=
  machine_id <- load recon 4 o_signed_message_machine_id ;;
  originator <- load recon 4 (p + o_recon_part_header_originator) ;;
  seq <- load_pair recon (p + o_recon_part_header_seq) ;;
  part_len <- load recon 4 (p + o_recon_part_header_part_len) ;;
  let part := p + sz_recon_part_header in
  let next := part + part_len in
  e <- po ;;
  a <- at_server (aru e) originator ;;
  w <- at_server (white_line e) originator ;;
  if (PRE_ORDER_Seq_Compare seq a <=? 0) || (PRE_ORDER_Seq_Compare seq w <=? 0) then ret next else
  slot <- UTIL_Get_PO_Slot_If_Exists originator seq ;;
  if bool_decide (is_Some (slot ≫= po_request)) then ret next else
  slot <- UTIL_Get_Recon_Slot originator seq ;;
  if decoded slot then ret next else
  have <- at_server (part_collected slot) machine_id ;;
  if (have : bool) then ret next else
  bytes <- load_bytes recon part part_len ;;
  row <- at_server (parts slot) machine_id ;;
  row <- copy_part row bytes ;;
  collected <- or_oob (aset (part_collected slot) machine_id true) ;;
  rows <- or_oob (aset (parts slot) machine_id row) ;;
  let n := recon_parts_collected slot + 1 in
  let id := mkPoId originator seq in
  let store d := po_update (fun e =>
    with_Recon_History (<[id := mkReconSlot d n collected rows]> (Recon_History e)) e) in
  store false ;;;
  index <- load recon 4 (part + sz_erasure_part) ;;
  if n <? NUM_F + 1 then ret next else
  assert_ (PRE_ORDER_Seq_Compare w seq <? 0) ;;;
  store true ;;;
  RECON_Decode_Recon (mkReconSlot true n collected rows) ;;;
  ret next.

Fixpoint process_recon_parts (num_parts : nat) (recon : list byte) (p : Z) : M unit :=
  match num_parts with
  | O => ret tt
  | S n => next <- process_recon_part recon p ;; process_recon_parts n recon next
  end.

Definition RECON_Process_Recon (recon : list byte) : M unit :=
  num_parts <- load recon 4 sz_signed_message ;;
  process_recon_parts (Z.to_nat num_parts) recon (sz_signed_message + sz_recon_message).
End Recon.
