(* ===== verification/ReconCorrect.v ===== *)
(** Reconciliation leaves the ordering protocol alone: it sends PO-Requests, marks
    the slot and raises its own white line. *)
From Stdlib Require Import ZArith Lia List Bool.
From Stdlib Require Import Strings.Byte.
From stdpp Require Import base list gmap fin_sets.
From S2P Require Import Prelude Memory Config Packets Crypto Utility Eligibility EligibilityCorrect OrderState PreOrderState Order OrderCorrect OrderHandlers OrderFrame PreOrder PreOrderCorrect Recon.

(** ** What is only computed *)
Section Values.
Context {R : Type} (F : fault -> Prop) (HF : forall f, f <> OutOfFuel -> F f).
Context (Rel : order_state (E := po_data (R := R)) -> order_state (E := po_data (R := R)) -> Prop) {pre : PreOrder Rel}.

Lemma within_pops prev_slot gseq pp slot : within F Rel (pops (R := R) prev_slot gseq pp slot).
Proof. unfold pops. walk. Qed.

Lemma within_counting_up first last : within F Rel (counting_up (R := R) first last).
Proof. unfold counting_up. walk. Qed.
Hint Resolve within_counting_up : frame.

Lemma within_eligible_seqs prev cur : within F Rel (eligible_seqs (R := R) prev cur).
Proof. unfold eligible_seqs. walk. Qed.

Lemma within_Do_I_Send VAR machine_id matrix : within F Rel (RECON_Do_I_Send_Erasure (R := R) VAR machine_id matrix).
Proof.
  unfold RECON_Do_I_Send_Erasure, column, could_send. apply within_bind; [exact pre| |intros cack; walk].
  apply within_map_comp; [exact pre|]. intros k. unfold ack_for. walk.
Qed.
End Values.
#[export] Hint Resolve within_pops within_counting_up within_eligible_seqs within_Do_I_Send : frame.

Section Recon.
Context {crypto : Crypto} {signer : Signer} {R : Type}.
Context (F : fault -> Prop) (HF : forall f, f <> OutOfFuel -> F f) (VAR : server_variables).

Abbreviation state := (order_state (E := po_data (R := R))).
Abbreviation untouched := (within F (aside (E := po_data (R := R)))).
Implicit Types r : state.

Lemma within_send_to_those_behind req : untouched (send_to_those_behind VAR req).
Proof.
  unfold send_to_those_behind. walk. apply within_for_servers. intros k. unfold send_if_behind. walk.
  apply within_act. exact I.
Qed.
Hint Resolve within_send_to_those_behind : frame.

Lemma within_send_request matrix i ps : untouched (send_request VAR matrix i ps).
Proof. unfold send_request. walk. Qed.
Hint Resolve within_send_request : frame.

Lemma within_send_requests matrix i inc js : untouched (send_requests VAR matrix i inc js).
Proof. induction js; cbn [send_requests]; walk. Qed.
Hint Resolve within_send_requests : frame.

Lemma within_send_eligible matrix l : forall i, untouched (send_eligible VAR matrix i l).
Proof. induction l as [|[prev cur] l IH]; intros i; cbn [send_eligible]; walk. Qed.

(** ** The white line *)
Definition recon_ok r : Prop :=
  (forall n s, History r !! n = Some s -> 0 < n < two32) /\ is_u32 (recon_white_line r).

Lemma line_step r s :
  recon_ok r -> History r !! wrap32 (recon_white_line r + 1) = Some s ->
  recon_white_line r < wrap32 (recon_white_line r + 1) < two32.
Proof.
  intros [Hk Hu] Es. specialize (Hk _ _ Es). unfold is_u32 in Hu.
  destruct (Z.eq_dec (recon_white_line r + 1) two32) as [Ew|Hw].
  - rewrite Ew in Hk. unfold wrap32 in Hk. rewrite Z.mod_same in Hk by (unfold two32; lia). lia.
  - rewrite wrap32_small in * by lia. lia.
Qed.

Lemma aside_line r n :
  recon_white_line r <= n -> is_u32 n -> aside r (set_recon_line n r).
Proof.
  intros Hle Hn. split; [|reflexivity]. split; auto; try (split; auto using Z.le_refl); try apply Z.le_refl.
  - apply no_actions. reflexivity.
  - intros q t Et. left. exists t. split; [exact Et|]. repeat split.
Qed.

Lemma wp_raise_recon_line fuel : forall r,
  recon_ok r -> (above r (recon_white_line r) < fuel)%nat -> wp F (raise_recon_line fuel) (fun _ => aside r) r.
Proof.
  induction fuel as [|fuel IH]; intros r Hr Hf; [lia|]. cbn [raise_recon_line]. apply wp_bind, wp_get.
  destruct (History r !! _) as [s|] eqn:Es; [|apply wp_ret; reflexivity].
  destruct (reconciled s); [|apply wp_ret; reflexivity].
  pose proof (line_step r s Hr Es) as Hn. destruct Hr as [Hk Hu].
  set (n := wrap32 _) in *. assert (Hn32 : is_u32 n) by (unfold is_u32 in *; lia).
  apply wp_bind, wp_put. eapply wp_conseq; [apply IH|].
  - split; assumption.
  - pose proof (above_lower r (set_recon_line n r) _ n eq_refl (ex_intro _ s Es) (proj1 Hn)) as Ha.
    change (recon_white_line (set_recon_line n r)) with n. lia.
  - cbv beta. intros _ t Ht. etransitivity; [|exact Ht]. apply aside_line; [lia|exact Hn32].
Qed.

Lemma wp_Update_Recon r : recon_ok r -> wp F RECON_Update_Recon_White_Line (fun _ => aside r) r.
Proof.
  intros Hr. apply wp_bind, wp_get, wp_raise_recon_line; [exact Hr|].
  pose proof (above_all r (recon_white_line r)). lia.
Qed.

Lemma recon_ok_aside r r' : recon_ok r -> aside r r' -> recon_ok r'.
Proof.
  intros [Hk Hu] [K _]. split; [|apply K, Hu]. intros n s' Es'.
  destruct (History r !! n) as [s|] eqn:Es; [exact (Hk n s Es)|]. rewrite (k_none _ _ _ K n Es) in Es'. discriminate.
Qed.

Lemma within_mark_reconciled seq : untouched (upd seq mark_reconciled).
Proof. apply (within_upd_same F HF). intros s. repeat split. Qed.

Lemma recon_aside seq r :
  is_Some (History r !! seq) -> (forall n s, History r !! n = Some s -> 0 < n < two32) -> is_u32 (recon_white_line r) ->
  wp F (RECON_Do_Recon VAR seq) (fun _ => aside r) r.
Proof.
  intros [s Es] Hk Hu. apply wp_bind, (wp_the_slot _ r seq s); [exact Es|].
  assert (Hdone : wp F (ret tt) (fun _ => aside r) r) by (apply wp_ret; reflexivity).
  destruct (reconciled s); [exact Hdone|]. destruct (negb _); [exact Hdone|]. cbv zeta.
  apply wp_bind, wp_If_Exists. destruct (match History r !! _ with Some _ => _ | None => _ end); [exact Hdone|].
  apply wp_bind. eapply wp_conseq; [apply (within_pops F HF aside)|]. cbv beta. intros l r1 K1.
  apply wp_bind. eapply wp_conseq; [apply within_send_eligible|]. cbv beta. intros _ r2 K2.
  apply wp_bind. eapply wp_conseq; [apply within_mark_reconciled|]. cbv beta. intros _ r3 K3.
  assert (K : aside r r3) by (etransitivity; [exact K1|]; etransitivity; [exact K2|exact K3]).
  eapply wp_conseq; [apply wp_Update_Recon, (recon_ok_aside r); [split; assumption|exact K]|].
  cbv beta. intros _ r4 K4. etransitivity; eassumption.
Qed.
End Recon.

(** ** From any state *)
Section Any.
Context {crypto : Crypto} {signer : Signer} {R : Type} (VAR : server_variables).

Lemma onward_Update_Recon : within any_fault (onward (E := po_data (R := R))) RECON_Update_Recon_White_Line.
Proof.
  intros r. apply wp_bind, wp_get. generalize (S (size (History r))). intros fuel. revert r.
  induction fuel as [|fuel IH]; intros r; [exact I|]. cbn [raise_recon_line]. apply wp_bind, wp_get.
  destruct (History r !! _) as [s|]; [|apply wp_ret; reflexivity].
  destruct (reconciled s); [|apply wp_ret; reflexivity]. apply wp_bind, wp_put.
  eapply wp_conseq; [apply IH|]. cbv beta. intros _ t Ht. etransitivity; [|exact Ht].
  apply onward_view; [split|]; reflexivity.
Qed.

Lemma recon_onward seq : within any_fault (onward (E := po_data (R := R))) (RECON_Do_Recon VAR seq).
Proof.
  assert (HF : forall f, f <> OutOfFuel -> any_fault f) by (intros; exact I).
  pose proof onward_Update_Recon as HU.
  assert (HE : forall m i l, within any_fault (onward (E := po_data (R := R))) (send_eligible VAR m i l))
    by (intros; apply within_aside_onward, within_send_eligible, HF).
  assert (HM : within any_fault (onward (E := po_data (R := R))) (upd seq mark_reconciled))
    by (apply within_aside_onward, within_mark_reconciled, HF).
  unfold RECON_Do_Recon. walk.
Qed.
End Any.
