(* ===== verification/Execute.v ===== *)
(** Execution of ordered slots: the end of [prime/src/order.c].

    A slot is executed after its predecessor, when all PO-Requests its Pre-Prepare
    makes eligible are there; their events go to the application in order.  This
    is the executor behind [ORDER_Process_Commit]; catchup, view changes
    and recovery are calls behind the class [External]. *)
From Stdlib Require Import ZArith Lia List Bool.
From Stdlib Require Import Strings.Byte.
From stdpp Require Import base list gmap.
From S2P Require Import Prelude Memory Config Packets Crypto Utility Eligibility OrderState PreOrderState Order PreOrder Recon.

(** What execution calls; [hash_order] is the order a hash table is walked in. *)
Class External (R : Type) := {
  EXT_SUSPECT_New_Leader : server_variables -> comp (order_state (E := po_data (R := R))) unit;
  CATCH_Schedule_Catchup : server_variables -> comp (order_state (E := po_data (R := R))) unit;
  VIEW_Check_Complete_State : server_variables -> Z -> comp (order_state (E := po_data (R := R))) unit;
  PR_Resume_Normal_Operation : server_variables -> comp (order_state (E := po_data (R := R))) unit;
  hash_order : list po_seq_pair -> list po_seq_pair }.

(** The calls of the ordering protocol. *)
#[global] Instance order_calls {R : Type} {signer : Signer} {ext : External R} : OrderCalls (po_data (R := R)) := {|
  Order.PRE_ORDER_Process_PO_ARU := fun VAR m => PreOrder.PRE_ORDER_Process_PO_ARU VAR m;
  Order.RECON_Do_Recon := fun VAR seq => Recon.RECON_Do_Recon VAR seq;
  SUSPECT_New_Leader := EXT_SUSPECT_New_Leader |}.

Section Execution.
Context {crypto : Crypto} {signer : Signer} {R : Type} {ext : External R} (VAR : server_variables).

Abbreviation M := (comp (order_state (E := po_data (R := R)))).

(** ** Ready to execute *)
(** The Pre-Prepare of a slot. *)
Definition pre_prepare_of (slot : ord_slot) : complete_pre_prepare_message :=
  if prepare_certificate_ready slot then fst (prepare_certificate slot) else complete_pre_prepare slot.

(** Only what is not there yet is inserted. *)
Definition UTIL_Mark_ORD_Slot_As_Pending (gseq : Z) : M unit :=
  modify (fun r => set_Pending ({[gseq]} ∪ Pending_Execution r) r).

(** A request is missing without its message, or when it is not certified. *)
Definition request_missing (i : Z) (ps : po_seq_pair) : M bool :=
  slot <- UTIL_Get_PO_Slot_If_Exists i ps ;;
  e <- po ;;
  cum <- at_server (cum_aru e) i ;;
  ret (match slot with
       | None => true
       | Some slot => negb (bool_decide (is_Some (po_request slot)))
                      || (PRE_ORDER_Seq_Compare cum ps <? 0)
       end).

(** Every missing request of a server is counted and remembered. *)
Fixpoint note_missing (gseq i inc : Z) (js : list Z) : M unit :=
  match js with
  | [] => ret tt
  | j :: js =>
      let ps := mkPS inc j in
      missing <- request_missing i ps ;;
      (if (missing : bool) then
         slot <- the_slot gseq ;;
         upd gseq (with_remaining (wrap32 (num_remaining_for_execution slot + 1))) ;;;
         po_update (fun e => with_PO_Pending (<[mkPoId i ps := gseq]> (PO_Pending e)) e)
       else ret tt) ;;;
      note_missing gseq i inc js
  end.

Fixpoint note_all_missing (gseq i : Z) (l : list (po_seq_pair * po_seq_pair)) : M unit :=
  match l with
  | [] => ret tt
  | (prev, cur) :: l =>
      js <- eligible_seqs prev cur ;;
      note_missing gseq i (incarnation cur) js ;;;
      note_all_missing gseq (i + 1) l
  end.

Definition ORDER_Ready_To_Execute (seq : Z) : M bool :=
  slot <- the_slot seq ;;
  let pp := pre_prepare_of slot in
  let gseq := c_seq_num pp in
  prev_slot <- UTIL_Get_ORD_Slot_If_Exists (wrap32 (gseq - 1)) ;;
  let blocked := match prev_slot with
                 | None => negb (gseq =? 1)
                 | Some prev => negb (executed prev)
                 end in
  if blocked then UTIL_Mark_ORD_Slot_As_Pending gseq ;;; ret false else
  if 0 <? num_remaining_for_execution slot then UTIL_Mark_ORD_Slot_As_Pending gseq ;;; ret false else
  l <- pops prev_slot gseq pp slot ;;
  note_all_missing seq 1 l ;;;
  slot <- the_slot seq ;;
  if 0 <? num_remaining_for_execution slot then UTIL_Mark_ORD_Slot_As_Pending gseq ;;; ret false else
  ret true.

(** ** The events of a PO-Request *)
(** The events lie behind each other; [memory] starts at the next. *)
Fixpoint events_from (num_events : nat) (memory : list byte) : M (list (list byte)) :=
  match num_events with
  | O => ret []
  | S n =>
      len <- load memory 4 o_signed_message_len ;;
      rest <- events_from n (drop (Z.to_nat (len + sz_signed_message)) memory) ;;
      ret (memory :: rest)
  end.

(** [ORDER_Execute_Event] and [ORDER_Execute_Update]: the update goes to the
    application. *)
Definition ORDER_Execute_Event (event : list byte) (ord_num event_idx event_tot : Z) : M unit :=
  type <- load event 4 o_signed_message_type ;;
  assert_ (type =? type_val UPDATE) ;;;
  machine_id <- load event 4 o_signed_message_machine_id ;;
  inc <- load event 4 o_signed_message_incarnation ;;
  seq <- load event 4 (o_signed_update_message_update + o_update_message_seq_num) ;;
  content <- load_bytes event o_signed_update_message_update_contents UPDATE_SIZE ;;
  modify (act (Respond (mkResponse machine_id inc seq ord_num event_idx event_tot content))).

Fixpoint execute_events (events : list (list byte)) (ord_num event_idx event_tot : Z) : M unit :=
  match events with
  | [] => ret tt
  | event :: events =>
      ORDER_Execute_Event event ord_num (event_idx + 1) event_tot ;;;
      execute_events events ord_num (event_idx + 1) event_tot
  end.

(** The event of a slot without any, from this server. *)
Definition no_op_event : M (list byte) :=
  r <- get ;;
  e <- po ;;
  client <- at_server (intro_client_seq e) (My_Server_ID VAR) ;;
  let m := zeros sz_signed_update_message in
  let m := put_u32 o_signed_message_machine_id (My_Server_ID VAR) m in
  let m := put_u32 o_signed_message_type (type_val UPDATE) m in
  let m := put_u32 o_signed_message_len (sz_signed_update_message - sz_signed_message) m in
  let m := put_u32 (o_signed_update_message_update + o_update_message_server_id) (My_Server_ID VAR) m in
  let m := put_u32 o_signed_message_incarnation (incarnation client) m in
  let c := o_signed_update_message_update_contents in
  let m := put_u32 (c + o_signed_message_machine_id) (My_Server_ID VAR) m in
  ret (put_u32 (c + o_signed_message_type) CLIENT_NO_OP m).

(** ** Executing the requests *)
(** The first request of a new incarnation completes its sender's recovery. *)
Definition install_incarnation (i : Z) (ps : po_seq_pair) : M unit :=
  e <- po ;;
  st <- at_server (recovery_status e) i ;;
  (if st =? PR_STARTUP
   then po_update (fun e => with_num_startup (wrap32 (num_startup e - 1)) e) else ret tt) ;;;
  r <- get ;;
  pre <- at_server (preinstalled_incarnations r) i ;;
  (if pre <=? incarnation ps then
     set_server recovery_status with_recovery_status i PR_NORMAL ;;;
     l <- or_oob (aset (preinstalled_incarnations r) i (incarnation ps)) ;;
     modify (set_preinstalled l)
   else ret tt) ;;;
  r <- get ;;
  l <- or_oob (aset (installed_incarnations r) i (incarnation ps)) ;;
  modify (set_installed l) ;;;
  r <- get ;;
  pre <- at_server (preinstalled_incarnations r) i ;;
  ins <- at_server (installed_incarnations r) i ;;
  if (i =? My_Server_ID VAR) && (pre =? ins) then PR_Resume_Normal_Operation VAR else ret tt.

(** One request of server [i], which gives its events. *)
Definition execute_request (seq i : Z) (ps : po_seq_pair) : M (list (list byte)) :=
  slot <- UTIL_Get_PO_Slot_If_Exists i ps ;;
  match slot ≫= po_request with
  | None => raise AssertFailure
  | Some req =>
      num_events <- load req 4 (sz_signed_message + o_po_request_message_num_events) ;;
      po_update (fun e => with_events_ordered (wrap32 (events_ordered e + num_events)) e) ;;;
      events <- events_from (Z.to_nat num_events)
                  (drop (Z.to_nat (sz_signed_message + sz_po_request_message)) req) ;;
      (if i =? My_Server_ID VAR then
         po_update (fun e => if wrap32 (seq_num (po_seq e) - seq_num (po_seq_executed e)) =? MAX_PO_IN_FLIGHT
                             then with_reading_clients true e else e) ;;;
         po_update (with_po_seq_executed ps)
       else ret tt) ;;;
      e <- po ;;
      last <- at_server (last_executed_po_reqs e) i ;;
      (if (incarnation last <? incarnation ps) && (seq_num ps =? 1)
       then install_incarnation i ps else ret tt) ;;;
      set_server last_executed_po_reqs with_last_executed_po_reqs i ps ;;;
      upd seq (add_po_slot (mkPoId i ps)) ;;;
      ret events
  end.

Fixpoint execute_requests (seq i inc : Z) (js : list Z) : M (list (list byte)) :=
  match js with
  | [] => ret []
  | j :: js =>
      events <- execute_request seq i (mkPS inc j) ;;
      rest <- execute_requests seq i inc js ;;
      ret (events ++ rest)
  end.

(** The slots of an incarnation that is over and were never ordered. *)
Fixpoint clean_up (i : Z) (prev cur : po_seq_pair) (keys : list po_seq_pair) : M unit :=
  match keys with
  | [] => ret tt
  | ps :: keys =>
      (if (incarnation cur <=? incarnation ps) || (PRE_ORDER_Seq_Compare ps prev <=? 0) then ret tt else
       PRE_ORDER_Garbage_Collect_PO_Slot i ps false ;;;
       po_update (fun e => with_PO_History (delete (mkPoId i ps) (PO_History e)) e)) ;;;
      clean_up i prev cur keys
  end.

(** The pairs in the table of server [i]. *)
Definition keys_of (i : Z) (h : gmap po_id po_slot) : list po_seq_pair :=
  map po_pair (List.filter (fun id => po_server_id id =? i) (map fst (map_to_list h))).

Fixpoint execute_servers (seq i : Z) (l : list (po_seq_pair * po_seq_pair)) : M (list (list byte)) :=
  match l with
  | [] => ret []
  | (prev, cur) :: l =>
      assert_ (incarnation prev <=? incarnation cur) ;;;
      e <- po ;;
      (if incarnation prev <? incarnation cur
       then clean_up i prev cur (hash_order (keys_of i (PO_History e))) else ret tt) ;;;
      js <- eligible_seqs prev cur ;;
      events <- execute_requests seq i (incarnation cur) js ;;
      rest <- execute_servers seq (i + 1) l ;;
      ret (events ++ rest)
  end.

(** ** Garbage collection *)
(** The slot is out of the history then. *)
Fixpoint collect_requests (ids : list po_id) : M unit :=
  match ids with
  | [] => ret tt
  | id :: ids =>
      PRE_ORDER_Garbage_Collect_PO_Slot (po_server_id id) (po_pair id) true ;;;
      collect_requests ids
  end.

Definition ORDER_Garbage_Collect_ORD_Slot (seq : Z) : M unit :=
  slot <- the_slot seq ;;
  collect_requests (po_slot_list slot) ;;;
  modify (fun r => set_Pending (Pending_Execution r ∖ {[seq]}) r) ;;;
  modify (fun r => set_History (delete seq (History r)) r).

Fixpoint collect_slots (seqs : list Z) : M unit :=
  match seqs with
  | [] => ret tt
  | i :: seqs =>
      slot <- UTIL_Get_ORD_Slot i ;;
      r <- get ;;
      (if negb (collected_all_parts slot) || (forwarding_white_line r <? slot_seq_num slot)
       then raise Exit else ret tt) ;;;
      (if recon_white_line r <? wrap32 (slot_seq_num slot + 1) then raise Exit else ret tt) ;;;
      ORDER_Garbage_Collect_ORD_Slot i ;;;
      collect_slots seqs
  end.

Definition ORDER_Attempt_To_Garbage_Collect_ORD_Slots : M unit :=
  r <- get ;;
  if wrap32 (ARU r - stable_catchup r) <? 2 * gc_width then ret tt else
  collect_slots (counting (stable_catchup r) (wrap32 (ARU r - gc_width) - 1)) ;;;
  modify (fun r => set_stable (wrap32 (ARU r - gc_width)) r).

(** ** [ORDER_Execute_Commit] *)
Fixpoint check_complete_states (servers : list Z) : M unit :=
  match servers with
  | [] => ret tt
  | i :: servers => VIEW_Check_Complete_State VAR i ;;; check_complete_states servers
  end.

(** The requests and the events of a slot that is ready. *)
Definition execute_slot (seq : Z) : M unit :=
  slot <- the_slot seq ;;
  let pp := pre_prepare_of slot in
  let gseq := c_seq_num pp in
  prev_slot <- UTIL_Get_ORD_Slot_If_Exists (wrap32 (gseq - 1)) ;;
  l <- pops prev_slot gseq pp slot ;;
  r <- get ;;
  upd seq mark_executed ;;;
  assert_ (gseq =? wrap32 (ARU r + 1)) ;;;
  modify (set_ARU (wrap32 (ARU r + 1))) ;;;
  modify (fun r => if ARU r =? 1 then set_stable 1 r else r) ;;;
  events <- execute_servers seq 1 l ;;
  match events with
  | [] => event <- no_op_event ;; ORDER_Execute_Event event (c_seq_num pp) 1 1
  | _ => execute_events events (c_seq_num pp) 0 (Z.of_nat (length events))
  end.

(** The first 2f+k+1 Commits that carry the slot's vector of incarnations. *)
Fixpoint certificate_commits (slot : ord_slot) (servers : list Z) (count : Z) : M (list vote) :=
  match servers with
  | [] => ret []
  | i :: servers =>
      if 2 * VF VAR + VK VAR + 1 <=? count then ret [] else
      v <- at_server (commit_certificate slot) i ;;
      match v with
      | None => certificate_commits slot servers count
      | Some v =>
          if negb (bool_decide (v_preinstalled v = vector_of (preinstalled_snapshot slot)))
          then certificate_commits slot servers count else
          rest <- certificate_commits slot servers (count + 1) ;;
          ret (v :: rest)
      end
  end.

Definition CATCH_Construct_ORD_Certificate (slot : ord_slot) : M ord_certificate_mess :=
  r <- get ;;
  part <- or_oob (aget (pre_prepare_parts_msg slot) 1) ;;
  pp <- or_oob part ;;
  let oc := mkOrdCert (My_Server_ID VAR) (new_incarnation_val r) (slot_view slot) (slot_seq_num slot) (slot_type slot) pp in
  if (slot_type slot =? SLOT_PC_SET) || (slot_type slot =? SLOT_NO_OP) || (slot_type slot =? SLOT_NO_OP_PLUS)
  then ret (oc []) else
  assert_ (slot_type slot =? SLOT_COMMIT) ;;;
  l <- certificate_commits slot (seqZ 1 NUM_SERVERS) 0 ;;
  assert_ (Z.of_nat (length l) =? 2 * VF VAR + VK VAR + 1) ;;;
  ret (oc l).

Definition make_ord_certificate (seq : Z) : M unit :=
  slot <- the_slot seq ;;
  c <- CATCH_Construct_ORD_Certificate slot ;;
  upd seq (with_ord_certificate c (signed_ord_cert slot)).

(** What follows a slot's execution, up to the next slot. *)
Definition after_execution (seq : Z) : M unit :=
  RECON_Do_Recon VAR seq ;;;
  make_ord_certificate seq ;;;
  r <- get ;;
  (if view_change_done r then ret tt else check_complete_states (seqZ 1 NUM_SERVERS)) ;;;
  po_update (fun e => if executed_ord e =? 0 then with_executed_ord 1 e else e) ;;;
  ORDER_Send_Prepares VAR ;;;
  ORDER_Attempt_To_Garbage_Collect_ORD_Slots.

(** [ORDER_Execute_Commit] and [ORDER_Attempt_To_Execute_Pending_Commits] call each
    other; every turn executes a slot of the history. *)
Fixpoint execute_commit (fuel : nat) (seq : Z) : M unit :=
  match fuel with
  | O => raise OutOfFuel
  | S fuel =>
      ready <- ORDER_Ready_To_Execute seq ;;
      if negb ready then CATCH_Schedule_Catchup VAR else
      execute_slot seq ;;;
      after_execution seq ;;;
      r <- get ;;
      let i := wrap32 (ARU r + 1) in
      if bool_decide (i ∈ Pending_Execution r) then execute_commit fuel i else ret tt
  end.

Definition execute_pending : M unit :=
  r <- get ;;
  let i := wrap32 (ARU r + 1) in
  if bool_decide (i ∈ Pending_Execution r) then execute_commit (S (S (size (History r)))) i else ret tt.
End Execution.

#[global] Instance executor {crypto : Crypto} {signer : Signer} {R : Type} {ext : External R} : Executor (po_data (R := R)) := {|
  ORDER_Execute_Commit := fun VAR seq => r <- get ;; execute_commit VAR (S (S (size (History r)))) seq;
  ORDER_Attempt_To_Execute_Pending_Commits := execute_pending |}.
