(* ===== verification/ExecuteCorrect.v ===== *)
(** Execution keeps the invariant of the ordering protocol, and terminates.

    First what catchup, view changes and recovery owe the executor
    ([ExternalOk]); then the invariant holds between the requests of the slot being
    executed, and every turn of the executor raises [ARU] to a slot that is there. *)
From Stdlib Require Import ZArith Lia List Bool.
From Stdlib Require Import Strings.Byte.
From stdpp Require Import base list gmap fin_sets.
From S2P Require Import Prelude Memory Config Packets Crypto Utility Eligibility EligibilityCorrect OrderState PreOrderState Order OrderCorrect OrderHandlers OrderFrame PreOrder PreOrderCorrect Recon ReconCorrect Execute.

(** ** What other components may do *)
(** Slots whose vector is known keep their ballot. *)
Definition steady {E : Type} (r r' : order_state (E := E)) : Prop :=
  ARU r' = ARU r /\ forall seq s, History r !! seq = Some s -> populated_eligible s = true ->
    exists s', History r' !! seq = Some s' /\ same_ballot s s'.

(** Recovery's end restarts the leader's proposals, so that slots may appear; the
    answer to the last report may end the view change.  [EXT_SUSPECT_New_Leader] is
    not called here. *)
Class ExternalOk {crypto : Crypto} {R : Type} (F : fault -> Prop) (ext : External R) := {
  Ext_New_Leader_keeps VAR r :
    wp F (EXT_SUSPECT_New_Leader VAR) (fun _ r' => same_view r r' -> keeps False r r') r;
  Schedule_Catchup_keeps VAR : within F (keeps False) (CATCH_Schedule_Catchup VAR);
  Check_Complete_State_onward VAR i r :
    wp F (VIEW_Check_Complete_State VAR i) (fun _ r' => onward r r' /\ (same_view r r' -> keeps False r r')) r;
  Resume_onward VAR : within F onward (PR_Resume_Normal_Operation VAR);
  Resume_steady VAR EvPP EvP EvC r : inv VAR EvPP EvP EvC r ->
    wp F (PR_Resume_Normal_Operation VAR)
      (fun _ r' => inv VAR EvPP EvP EvC r' /\ follows r r' /\ steady r r') r }.

#[global] Instance order_calls_ok {crypto : Crypto} {R : Type} {signer : Signer} (F : fault -> Prop)
    {HF : forall f, f <> OutOfFuel -> F f} {ext : External R} {ext_ok : ExternalOk F ext} :
  OrderCallsOk F order_calls.
Proof.
  split; cbn.
  - intros VAR m r HVAR. eapply wp_conseq; [apply (within_Process_PO_ARU F HF VAR HVAR)|].
    cbv beta. intros _ r'. apply aside_keeps.
  - intros VAR seq r Hs Hk Hl. eapply wp_conseq; [apply (recon_aside F HF VAR seq r Hs Hk Hl)|].
    cbv beta. intros _ r'. apply aside_keeps.
  - intros. apply Ext_New_Leader_keeps.
Qed.

(** ** What execution leaves alone *)
Section Frames.
Context {crypto : Crypto} {signer : Signer} {R : Type} {ext : External R}.
Context (F : fault -> Prop) (HF : forall f, f <> OutOfFuel -> F f) {ext_ok : ExternalOk F ext}.
Context (VAR : server_variables) (HVAR : 1 <= 2 * VF VAR + VK VAR + 1 <= NUM_SERVERS).

Abbreviation state := (order_state (E := po_data (R := R))).
Abbreviation untouched := (within F (aside (E := po_data (R := R)))).

Section Values.
Context (Rel : state -> state -> Prop) {pre : PreOrder Rel}.

Lemma within_events_from n : forall memory, within F Rel (events_from (R := R) n memory).
Proof. induction n; intros memory; cbn [events_from]; walk. Qed.

Lemma within_no_op_event : within F Rel (no_op_event (R := R) VAR).
Proof. unfold no_op_event. walk. Qed.

Lemma within_request_missing i ps : within F Rel (request_missing (R := R) i ps).
Proof. unfold request_missing. walk. Qed.

Lemma within_certificate_commits slot servers : forall count,
  within F Rel (certificate_commits (R := R) VAR slot servers count).
Proof. induction servers; intros count; cbn [certificate_commits]; walk. Qed.
End Values.
Hint Resolve within_events_from within_no_op_event within_request_missing within_certificate_commits : frame.

Lemma within_with_remaining seq n : untouched (upd seq (with_remaining n)).
Proof. apply (within_upd_same F HF). intros s. repeat split. Qed.
Hint Resolve within_with_remaining : frame.

Lemma within_make_ord_certificate seq : untouched (make_ord_certificate VAR seq).
Proof.
  unfold make_ord_certificate, CATCH_Construct_ORD_Certificate. walk. apply (within_upd_same F HF). intros s. repeat split.
Qed.

Lemma within_note_missing gseq i inc js : untouched (note_missing gseq i inc js).
Proof. induction js; cbn [note_missing]; walk. Qed.
Hint Resolve within_note_missing : frame.

Lemma within_note_all_missing gseq l : forall i, untouched (note_all_missing gseq i l).
Proof. induction l as [|[prev cur] l IH]; intros i; cbn [note_all_missing]; walk. Qed.

Lemma within_Execute_Event event ord_num idx tot : untouched (ORDER_Execute_Event event ord_num idx tot).
Proof. unfold ORDER_Execute_Event. walk. apply within_act. exact I. Qed.
Hint Resolve within_Execute_Event : frame.

Lemma within_execute_events events ord_num tot : forall idx,
  untouched (execute_events events ord_num idx tot).
Proof. induction events; intros idx; cbn [execute_events]; walk. Qed.

Lemma within_clean_up i prev cur keys : untouched (clean_up i prev cur keys).
Proof. induction keys; cbn [clean_up]; walk. Qed.

Lemma within_collect_requests ids : untouched (collect_requests ids).
Proof. induction ids; cbn [collect_requests]; walk. Qed.
End Frames.

#[export] Hint Resolve within_events_from within_no_op_event
  within_request_missing within_certificate_commits within_with_remaining within_make_ord_certificate within_note_missing within_note_all_missing
  within_Execute_Event within_execute_events within_clean_up within_collect_requests : frame.

(** ** One slot *)
Section Slot.
Context {crypto : Crypto} (ok : CryptoOk crypto) {signer : Signer} {R : Type} {ext : External R}.
Context (F : fault -> Prop) (HF : forall f, f <> OutOfFuel -> F f) {ext_ok : ExternalOk F ext}.
Context (VAR : server_variables) (HVAR : 1 <= 2 * VF VAR + VK VAR + 1 <= NUM_SERVERS).
Context (EvPP : pre_prepare_mess -> Prop) (EvP EvC : vote -> Prop).

Abbreviation state := (order_state (E := po_data (R := R))).
Abbreviation untouched := (within F (aside (E := po_data (R := R)))).
Abbreviation inv := (inv VAR EvPP EvP EvC).
Implicit Types r : state.

(** The Pre-Prepare that is executed is the slot's. *)
Lemma pre_prepare_of_ordered r seq s :
  inv r -> History r !! seq = Some s -> ordered s = true ->
  pre_prepare_of s = complete_pre_prepare s /\ c_seq_num (complete_pre_prepare s) = seq /\ 0 < seq < two32.
Proof.
  intros Hi Es Ho. destruct (i_keys Hi seq s Es) as [Hk Hok]. destruct (so_ordered Hok Ho) as [Hc _].
  split; [|split; [|exact Hk]].
  - unfold pre_prepare_of. destruct (prepare_certificate_ready s) eqn:Hp; [|reflexivity].
    destruct (so_prepared Hok Hp) as (_ & E & _). exact E.
  - eapply collected_seq; eassumption.
Qed.

Lemma keeps_pending r seq s :
  History r !! seq = Some s -> ordered s = true ->
  keeps False r (set_Pending ({[seq]} ∪ Pending_Execution r) r).
Proof.
  intros Es Ho. split; auto; try (split; auto using Z.le_refl); try apply Z.le_refl.
  - apply no_actions. reflexivity.
  - intros Hp n Hn. cbn in Hn. apply elem_of_union in Hn as [Hn|Hn]; [|exact (Hp n Hn)].
    apply elem_of_singleton in Hn as ->. exists s. split; assumption.
  - intros q t Et. left. exists t. split; [exact Et|]. repeat split.
Qed.

Lemma wp_Mark_Pending r r0 seq s :
  keeps False r0 r -> History r !! seq = Some s -> ordered s = true ->
  wp F (UTIL_Mark_ORD_Slot_As_Pending seq ;;; ret false) (fun b r' => b = false /\ keeps False r0 r') r.
Proof.
  intros K Es Ho. apply wp_bind, wp_modify, wp_ret. split; [reflexivity|].
  etransitivity; [exact K|]. eapply keeps_pending; eassumption.
Qed.

(** A slot is ready once its predecessor is executed. *)
Definition follows_executed r (seq : Z) : Prop :=
  seq = 1 \/ exists prev, History r !! (seq - 1) = Some prev /\ executed prev = true.

Lemma wp_Ready_To_Execute r seq s :
  inv r -> History r !! seq = Some s -> ordered s = true ->
  wp F (ORDER_Ready_To_Execute seq)
    (fun b r' => keeps False r r' /\ (b = true -> follows_executed r seq /\ aside r r')) r.
Proof.
  intros Hi Es Ho. destruct (pre_prepare_of_ordered r seq s Hi Es Ho) as (Epp & Eseq & Hk).
  assert (Hmark : forall r1 s1, keeps False r r1 -> History r1 !! seq = Some s1 -> ordered s1 = true ->
    wp F (UTIL_Mark_ORD_Slot_As_Pending seq ;;; ret false)
       (fun b r' => keeps False r r' /\ (b = true -> follows_executed r seq /\ aside r r')) r1).
  { intros r1 s1 K1 Es1 Ho1. eapply wp_conseq; [apply (wp_Mark_Pending r1 r seq s1); assumption|].
    intros b t [-> K]. split; [exact K|discriminate]. }
  unfold ORDER_Ready_To_Execute. apply wp_bind, (wp_the_slot F _ _ s); [exact Es|].
  rewrite Epp, Eseq. cbv zeta. apply wp_bind, wp_If_Exists. rewrite (wrap32_small (seq - 1)) by lia.
  match goal with |- context [if ?c then UTIL_Mark_ORD_Slot_As_Pending _ ;;; _ else _] => destruct c eqn:Eb end;
    [apply (Hmark r s); [reflexivity|exact Es|exact Ho]|].
  assert (Hf : follows_executed r seq).
  { destruct (History r !! (seq - 1)) as [prev|] eqn:Ep; [right|left].
    - exists prev. split; [exact Ep|]. apply negb_false_iff, Eb.
    - apply negb_false_iff, Z.eqb_eq in Eb. exact Eb. }
  destruct (0 <? _); [apply (Hmark r s); [reflexivity|exact Es|exact Ho]|].
  apply wp_bind. eapply wp_conseq; [apply (within_pops F HF aside)|]. cbv beta. intros l r1 K1.
  apply wp_bind. eapply wp_conseq; [apply (within_note_all_missing F HF)|]. cbv beta.
  intros _ r2 K2. assert (Ka : aside r r2) by (etransitivity; eassumption).
  pose proof (aside_keeps _ _ Ka) as K.
  destruct (keeps_slot _ _ _ _ K Es) as (s2 & Es2 & Hb).
  apply wp_bind, (wp_the_slot F _ _ s2); [exact Es2|].
  destruct (0 <? _); [apply (Hmark r2 s2); [exact K|exact Es2|]|apply wp_ret; auto].
  destruct Hb as (?&?&?&?&?&?&?&?&?&?&E1&?). congruence.
Qed.

(** Between two requests of the slot: [todo] is still to be executed. *)
Record executing (seq : Z) (from elig : list po_seq_pair) (todo : list po_id) (r0 r : state) : Prop := {
  x_inv : inv r;
  x_follows : follows r0 r;
  x_ARU : ARU r = seq;
  x_slot : exists s, History r !! seq = Some s /\ executed s = true /\ ordered s = true /\
    starts_from seq s = from /\ made_eligible s = elig /\
    po_slot_list s ++ todo = requests_of from elig }.

Lemma executing_keeps seq from elig todo r0 r r' :
  executing seq from elig todo r0 r -> keeps False r r' -> executing seq from elig todo r0 r'.
Proof.
  intros [Hi Hf HA (s & Es & He & Ho & Hs & Hm & Hl)] K. split.
  - eapply inv_keeps; eassumption.
  - eapply follows_trans; [exact Hf|eapply keeps_follows; exact K].
  - destruct (k_still _ _ _ K) as [[]|E]. congruence.
  - destruct (keeps_slot _ _ _ _ K Es) as (s' & Es' & Hb). exists s'. split; [exact Es'|].
    unfold starts_from in *.
    destruct Hb as (_&_&_&_&_&_&E7&_&_&_&E11&_&_&E14&_&E16&E17).
    rewrite E7, E11, E14, E16, E17. auto.
Qed.

Lemma executing_steady seq from elig todo r0 r r' :
  executing seq from elig todo r0 r -> inv r' -> follows r r' -> steady r r' ->
  executing seq from elig todo r0 r'.
Proof.
  intros [Hi Hf HA (s & Es & He & Ho & Hs & Hm & Hl)] Hi' Hf' [EA Hst]. split.
  - exact Hi'.
  - eapply follows_trans; eassumption.
  - congruence.
  - destruct (i_keys Hi _ _ Es) as [_ Hok].
    destruct (Hst seq s Es (so_populated Hok Ho)) as (s' & Es' & Hb). exists s'. split; [exact Es'|].
    unfold starts_from in *.
    destruct Hb as (_&_&_&_&_&_&E7&_&_&_&E11&_&_&E14&_&E16&E17).
    rewrite E7, E11, E14, E16, E17. auto.
Qed.

(** A request is appended to the slot's list. *)
Lemma executing_add seq from elig id todo r0 r s :
  executing seq from elig (id :: todo) r0 r -> History r !! seq = Some s ->
  executing seq from elig todo r0 (set_slot seq (add_po_slot id s) r).
Proof.
  intros [Hi Hf HA (s' & Es & He & Ho & Hs & Hm & Hl)] Es'.
  assert (s' = s) as -> by congruence. clear Es'.
  assert (Hpre : po_slot_list (add_po_slot id s) ++ todo = requests_of from elig)
    by (cbn; rewrite <- app_assoc; exact Hl).
  split.
  - apply (inv_set_slot VAR EvPP EvP EvC r seq s); [exact Hi|exact Es| |apply stays_same; auto].
    intros Hok. pose proof (so_populated Hok Ho) as Hp.
    destruct Hok. split; auto. right. split; [exact He|]. split; [exact Ho|]. split; [exact Hp|].
    exists todo. change (starts_from seq (add_po_slot id s)) with (starts_from seq s).
    change (made_eligible (add_po_slot id s)) with (made_eligible s). rewrite Hs, Hm. symmetry. exact Hpre.
  - eapply follows_trans; [exact Hf|apply follows_silent; [split|]; reflexivity].
  - exact HA.
  - exists (add_po_slot id s). split; [apply lookup_set_slot|]. auto.
Qed.

(** ** The requests of a slot *)
Section Requests.
Context (seq : Z) (from elig : list po_seq_pair) (r0 : state).

Abbreviation at_request todo := (executing seq from elig todo r0).

Lemma wp_step {A B} todo (m : comp state A) (k : A -> comp state B) Q r :
  at_request todo r -> untouched m -> (forall a r', at_request todo r' -> wp F (k a) Q r') ->
  wp F (bind m k) Q r.
Proof.
  intros Hx Hm Hk. apply wp_bind. eapply wp_conseq; [apply Hm|]. cbv beta. intros a r' K%aside_keeps.
  apply Hk. eapply executing_keeps; eassumption.
Qed.

Lemma wp_last_step {A} todo (m : comp state A) r :
  at_request todo r -> untouched m -> wp F m (fun _ => at_request todo) r.
Proof.
  intros Hx Hm. eapply wp_conseq; [apply Hm|]. cbv beta. intros a r' K%aside_keeps.
  eapply executing_keeps; eassumption.
Qed.

Lemma aside_incarnations r l l' :
  length l = length (installed_incarnations r) ->
  aside r (set_installed l r) /\ aside r (set_preinstalled l' r).
Proof.
  intros Hl. split; apply aside_quiet; auto. intros (A1 & A2). split; [|exact A2]. cbn. rewrite Hl. exact A1.
Qed.

Lemma wp_install_incarnation todo i ps r :
  at_request todo r -> wp F (install_incarnation VAR i ps) (fun _ => at_request todo) r.
Proof.
  intros Hx. unfold install_incarnation.
  apply (wp_step todo); [exact Hx|walk|]. intros e r1 H1.
  apply (wp_step todo); [exact H1|walk|]. intros st r2 H2.
  apply (wp_step todo); [exact H2|walk|]. intros _ r3 H3.
  apply wp_bind, wp_get. apply (wp_step todo); [exact H3|walk|]. intros pre r4 H4.
  apply (wp_step todo); [exact H4| |].
  { walk. apply within_modify. intros t. apply (aside_incarnations t _ _ eq_refl). }
  intros _ r5 H5. apply wp_bind, wp_get, wp_bind, wp_or_oob; [apply HF; discriminate|].
  intros l El. apply wp_bind, wp_modify.
  assert (H6 : at_request todo (set_installed l r5)).
  { eapply executing_keeps; [exact H5|]. apply aside_keeps, (aside_incarnations r5 l []). eapply aset_length, El. }
  apply wp_bind, wp_get. apply (wp_step todo); [exact H6|walk|]. intros pre' r7 H7.
  apply (wp_step todo); [exact H7|walk|]. intros ins r8 H8.
  destruct (_ && _); [|apply wp_ret; exact H8].
  eapply wp_conseq; [apply (Resume_steady VAR EvPP EvP EvC r8), H8|].
  cbv beta. intros _ r9 (Hi9 & Hf9 & Hs9). eapply executing_steady; eassumption.
Qed.

Lemma wp_execute_request todo i ps r :
  at_request (mkPoId i ps :: todo) r -> wp F (execute_request VAR seq i ps) (fun _ => at_request todo) r.
Proof.
  intros Hx. unfold execute_request.
  apply (wp_step _ _ _ _ _ Hx); [walk|]. intros slot r1 H1.
  destruct (slot ≫= po_request) as [req|]; [|apply wp_raise, HF; discriminate].
  apply (wp_step _ _ _ _ _ H1); [walk|]. intros n r2 H2.
  apply (wp_step _ _ _ _ _ H2); [walk|]. intros _ r3 H3.
  apply (wp_step _ _ _ _ _ H3); [walk|]. intros events r4 H4.
  apply (wp_step _ _ _ _ _ H4); [walk|]. intros _ r5 H5.
  apply (wp_step _ _ _ _ _ H5); [walk|]. intros e r6 H6.
  apply (wp_step _ _ _ _ _ H6); [walk|]. intros last r7 H7.
  apply wp_bind. eapply (wp_conseq F _ _ (fun _ => at_request (mkPoId i ps :: todo))).
  - destruct (_ && _); [apply wp_install_incarnation; exact H7|apply wp_ret; exact H7].
  - intros _ r8 H8. apply (wp_step _ _ _ _ _ H8); [walk|]. intros _ r9 H9.
    destruct (x_slot _ _ _ _ _ _ H9) as (s & Es & _).
    apply wp_bind, (wp_upd F _ _ s); [exact Es|]. apply wp_ret. eapply executing_add; eassumption.
Qed.

Lemma wp_execute_requests todo i inc js : forall r,
  at_request (map (fun j => mkPoId i (mkPS inc j)) js ++ todo) r ->
  wp F (execute_requests VAR seq i inc js) (fun _ => at_request todo) r.
Proof.
  induction js as [|j js IH]; intros r Hx; cbn [execute_requests map app] in *.
  - apply wp_ret. exact Hx.
  - apply wp_bind. eapply wp_conseq; [apply wp_execute_request; exact Hx|]. cbv beta. intros ev r1 H1.
    apply wp_bind. eapply wp_conseq; [apply IH; exact H1|]. cbv beta. intros evs r2 H2. apply wp_ret. exact H2.
Qed.

(** The requests of the servers from [i] on. *)
Definition requests_from (i : Z) (l : list (po_seq_pair * po_seq_pair)) : list po_id :=
  concat (imap (fun k '(p, c) => requests_between (Z.of_nat k + i) p c) l).

Lemma requests_from_cons i p c l :
  requests_from i ((p, c) :: l) = requests_between i p c ++ requests_from (i + 1) l.
Proof.
  unfold requests_from. cbn [imap concat]. f_equal. f_equal. apply imap_ext.
  intros k [p' c'] _. cbn. f_equal. lia.
Qed.

(** A server's entry before and after the slot: at the largest number the loop over
    the requests does not end. *)
Definition entry_ok (p c : po_seq_pair) : Prop :=
  is_u32 (seq_num p) /\ seq_num c < two32 /\ (seq_num p = two32 - 1 -> ps_le p c).

Lemma run_eligible_seqs prev cur r :
  entry_ok prev cur ->
  wp F (eligible_seqs prev cur)
    (fun js r' => r' = r /\ forall i, map (fun j => mkPoId i (mkPS (incarnation cur) j)) js = requests_between i prev cur) r.
Proof.
  intros (Hp & Hc & Hle). unfold is_u32 in Hp. unfold eligible_seqs, counting_up. apply wp_bind. unfold assert_.
  destruct (_ <=? _); [|apply wp_raise, HF; discriminate]. apply wp_ret. cbv zeta.
  destruct (_ && _) eqn:Eb; [apply wp_raise, HF; discriminate|]. apply wp_ret. split; [reflexivity|].
  intros i. unfold requests_between.
  destruct (Z.ltb_spec (incarnation prev) (incarnation cur)) as [Hi|Hi]; [reflexivity|].
  destruct (Z.eq_dec (seq_num prev) (two32 - 1)) as [Ep|Ep]; [exfalso|rewrite wrap32_small by lia; reflexivity].
  rewrite Ep in Eb. change (wrap32 (two32 - 1 + 1)) with 0 in Eb.
  assert (Ec : seq_num cur = two32 - 1) by (destruct (Hle Ep) as [->|[?|[_ ?]]]; lia).
  rewrite Ec, Z.eqb_refl in Eb. discriminate.
Qed.

Lemma wp_execute_servers l : Forall (uncurry entry_ok) l -> forall i r,
  at_request (requests_from i l) r -> wp F (execute_servers VAR seq i l) (fun _ => at_request []) r.
Proof.
  induction 1 as [|[prev cur] l Hpc _ IH]; intros i r Hx; cbn [execute_servers].
  - apply wp_ret. exact Hx.
  - rewrite requests_from_cons in Hx.
    apply (wp_step _ _ _ _ _ Hx); [walk|]. intros _ r1 H1.
    apply (wp_step _ _ _ _ _ H1); [walk|]. intros e r2 H2.
    apply (wp_step _ _ _ _ _ H2); [walk|]. intros _ r3 H3.
    apply wp_bind. eapply wp_conseq; [apply run_eligible_seqs, Hpc|]. cbv beta. intros js r4 [-> Hjs].
    apply wp_bind. eapply wp_conseq; [apply wp_execute_requests; rewrite (Hjs i); exact H3|].
    cbv beta. intros evs r5 H5. apply wp_bind. eapply wp_conseq; [apply IH; exact H5|].
    cbv beta. intros rest_ r6 H6. apply wp_ret. exact H6.
Qed.
End Requests.

(** ** The slot *)
(** What the slot makes eligible, from what was executed before. *)
Definition slot_requests (seq : Z) (s : ord_slot) : list po_id :=
  requests_of (starts_from seq s) (made_eligible s).

Lemma run_pops r seq s :
  inv r -> History r !! seq = Some s -> ordered s = true ->
  wp F (pops (R := R) (History r !! (seq - 1)) seq (complete_pre_prepare s) s)
    (fun l r' => r' = r /\ l = zip (starts_from seq s) (made_eligible s)) r.
Proof.
  intros Hi Es Ho. unfold pops, starts_from. destruct (History r !! (seq - 1)) as [prev|] eqn:Ep.
  - apply wp_bind, wp_ret, wp_ret. split; [reflexivity|].
    destruct (Z.eqb_spec seq 1) as [->|]; [|reflexivity]. destruct (i_keys Hi _ _ Ep) as [Hk _]. lia.
  - apply wp_bind, wp_bind. unfold assert_. destruct (Z.eqb_spec seq 1) as [->|];
      [|apply wp_raise, HF; discriminate]. apply wp_ret, wp_ret, wp_ret. split; reflexivity.
Qed.

Lemma entries_collected r seq s :
  inv r -> History r !! seq = Some s -> collected_all_parts s = true -> populated_eligible s = true ->
  Forall (uncurry entry_ok) (zip (starts_from seq s) (made_eligible s)).
Proof.
  intros Hi Es Hc Hpop. destruct (i_keys Hi _ _ Es) as [_ Hok].
  destruct (so_eligible Hok Hpop) as (c & Hv & Ec & _).
  rewrite (Ec (collected_parts _ _ _ _ _ _ _ Hok Hc)) in Hv.
  pose proof (co_pairs _ (so_complete Hok)) as Hpairs.
  pose proof (eligible_for_ge VAR HVAR _ _ (complete_sized _ (so_complete Hok)) Hpairs Hv) as H.
  apply Forall2_Forall. unfold starts_from. destruct (seq =? 1).
  - apply Forall2_same_length_lookup. pose proof (Forall2_length _ _ _ H) as Hl.
    pose proof (co_last _ (so_complete Hok)) as Hl'.
    assert (Hz : length zero_pairs = Z.to_nat NUM_SERVERS) by reflexivity. split; [lia|].
    intros k p e Hp He. apply list_elem_of_lookup_2, list_elem_of_In, repeat_spec in Hp as ->.
    destruct (Forall2_lookup_r _ _ _ k e H He) as (p' & _ & _ & _ & Hu).
    split; [split; [discriminate|reflexivity]|]. split; [exact Hu|discriminate].
  - eapply Forall2_impl; [exact H|]. intros p e (H1 & H2 & H3). split; [exact H2|]. auto.
Qed.

Lemma entries_ok r seq s :
  inv r -> History r !! seq = Some s -> ordered s = true ->
  Forall (uncurry entry_ok) (zip (starts_from seq s) (made_eligible s)).
Proof.
  intros Hi Es Ho. destruct (i_keys Hi _ _ Es) as [_ Hok].
  apply (entries_collected r); [exact Hi|exact Es| |exact (so_populated Hok Ho)].
  apply (so_ordered Hok Ho).
Qed.

(** When the slot is marked, [ARU] follows; then its requests are executed. *)
Lemma wp_execute_slot r seq s :
  inv r -> History r !! seq = Some s -> ordered s = true ->
  wp F (execute_slot VAR seq)
    (fun _ r' => seq = ARU r + 1 /\ executing seq (starts_from seq s) (made_eligible s) [] r r') r.
Proof.
  intros Hi Es Ho. destruct (pre_prepare_of_ordered r seq s Hi Es Ho) as (Epp & Eseq & Hk).
  destruct (i_keys Hi _ _ Es) as [_ Hok].
  unfold execute_slot. apply wp_bind, (wp_the_slot F _ _ s); [exact Es|].
  rewrite Epp, Eseq. cbv zeta. apply wp_bind, wp_If_Exists. rewrite (wrap32_small (seq - 1)) by lia.
  apply wp_bind. eapply wp_conseq; [apply run_pops; assumption|]. cbv beta. intros l r' [-> ->].
  apply wp_bind, wp_get. apply wp_bind, (wp_upd F _ _ s); [exact Es|].
  apply wp_bind. unfold assert_. destruct (Z.eqb_spec seq (wrap32 (ARU r + 1))) as [EA|];
    [|apply wp_raise, HF; discriminate]. apply wp_ret.
  pose proof (i_ARU Hi) as HA. pose proof (i_stable Hi) as Hst.
  assert (Hsum : ARU r + 1 < two32).
  { destruct (Z.eq_dec (ARU r + 1) two32) as [E|]; [|lia]. rewrite E in EA.
    unfold wrap32 in EA. rewrite Z.mod_same in EA by (unfold two32; lia). lia. }
  rewrite wrap32_small in EA by lia. rewrite wrap32_small by lia.
  apply wp_bind, wp_modify, wp_bind, wp_modify.
  set (r1 := set_ARU _ _). match goal with |- wp _ _ _ ?x => set (r2 := x) end.
  assert (Hi1 : inv r1) by (unfold r1; rewrite EA in *; apply inv_executed; assumption).
  assert (H2 : inv r2 /\ ARU r2 = seq /\ follows r r2 /\ History r2 = <[seq := mark_executed s]> (History r)).
  { assert (EA1 : ARU r1 = seq) by (cbn; lia).
    assert (Hf1 : follows r r1) by (apply follows_silent; [split|]; reflexivity).
    unfold r2. destruct (Z.eqb_spec (ARU r1) 1); [|auto].
    split; [apply inv_set_stable; [exact Hi1|lia]|]. split; [exact EA1|]. split; [exact Hf1|reflexivity]. }
  clearbody r2. destruct H2 as (Hi2 & EA2 & Hf2 & EH2).
  assert (Hnil : po_slot_list s = []).
  { destruct (so_list Hok) as [Hn|(He & _)]; [exact Hn|]. pose proof (so_executed Hok He). lia. }
  assert (Hx : executing seq (starts_from seq s) (made_eligible s) (slot_requests seq s) r r2).
  { split; auto. exists (mark_executed s). rewrite EH2, lookup_insert_eq. repeat split; auto.
    change (po_slot_list (mark_executed s)) with (po_slot_list s). rewrite Hnil. reflexivity. }
  apply (wp_conseq F _ _ (fun _ => executing seq (starts_from seq s) (made_eligible s) [] r)); [|auto].
  apply wp_bind. eapply wp_conseq; [apply (wp_execute_servers seq (starts_from seq s) (made_eligible s) r _
                                           (entries_ok r seq s Hi Es Ho) 1)|].
  { replace (requests_from 1 (zip (starts_from seq s) (made_eligible s))) with (slot_requests seq s); [exact Hx|].
    unfold slot_requests, requests_of, requests_from. f_equal. }
  cbv beta. intros events r3 H3. destruct events as [|ev events].
  - apply (wp_step _ _ _ _ _ _ _ _ _ H3); [walk|]. intros event r4 H4.
    apply wp_last_step; [exact H4|]. walk.
  - apply wp_last_step; [exact H3|]. walk.
Qed.
End Slot.

(** ** Garbage collection *)
Section Collection.
Context {crypto : Crypto} {R : Type}.
Context (F : fault -> Prop) (HF : forall f, f <> OutOfFuel -> F f) (VAR : server_variables).
Context (EvPP : pre_prepare_mess -> Prop) (EvP EvC : vote -> Prop).

Abbreviation state := (order_state (E := po_data (R := R))).
Abbreviation inv := (inv VAR EvPP EvP EvC).
Implicit Types r : state.

Lemma keeps_collect r seq :
  0 < seq < ARU r -> ARU r < two32 -> seq <= forwarding_white_line r -> seq + 1 <= recon_white_line r ->
  keeps True r (set_History (delete seq (History r)) (set_Pending (Pending_Execution r ∖ {[seq]}) r)).
Proof.
  intros Hs HA Hw Hr. split; auto; try (split; auto using Z.le_refl); try apply Z.le_refl.
  - apply no_actions. reflexivity.
  - intros Hp n Hn. cbn in Hn. apply elem_of_difference in Hn as [Hn Hne].
    destruct (Hp n Hn) as (s & Es & Ho). exists s. split; [|exact Ho]. cbn.
    rewrite lookup_delete_ne; [exact Es|]. intros ->. apply Hne, elem_of_singleton. reflexivity.
  - intros q t Et. destruct (Z.eq_dec q seq) as [->|Hne].
    + right. split; [exact I|]. split; [apply lookup_delete_eq|]. auto.
    + left. exists t. cbn. rewrite lookup_delete_ne by congruence. split; [exact Et|]. repeat split.
  - intros q Hq. cbn. destruct (Z.eq_dec q seq) as [->|Hne]; [apply lookup_delete_eq|].
    rewrite lookup_delete_ne; [exact Hq|congruence].
Qed.

Lemma keeps_set_stable r n : 0 <= n <= ARU r -> keeps (E := po_data (R := R)) True r (set_stable n r).
Proof.
  intros Hn. split; auto; try (split; auto using Z.le_refl); try apply Z.le_refl.
  - apply no_actions. reflexivity.
  - intros q t Et. left. exists t. split; [exact Et|]. repeat split.
Qed.

Lemma wp_Garbage_Collect_ORD_Slot r seq s :
  inv r -> History r !! seq = Some s -> seq < ARU r ->
  seq <= forwarding_white_line r -> seq + 1 <= recon_white_line r ->
  wp F (ORDER_Garbage_Collect_ORD_Slot seq) (fun _ => keeps True r) r.
Proof.
  intros Hi Es HA Hw Hr. destruct (i_keys Hi _ _ Es) as [Hk _]. pose proof (i_ARU Hi) as HA32.
  unfold ORDER_Garbage_Collect_ORD_Slot. apply wp_bind, (wp_the_slot F _ _ s); [exact Es|].
  apply wp_bind. eapply wp_conseq; [apply (within_collect_requests F HF)|]. cbv beta. intros _ r1 K1%aside_keeps.
  apply wp_bind, wp_modify, wp_modify.
  etransitivity; [apply keeps_erase; exact K1|].
  pose proof (k_forwarding _ _ _ K1) as [K1f _]. pose proof (k_recon _ _ _ K1) as [K1r _].
  destruct (k_still _ _ _ K1) as [[]|K1A].
  refine (keeps_collect r1 seq _ _ _ _); lia.
Qed.

Lemma wp_collect_slots seqs : forall r,
  inv r -> (forall i, i ∈ seqs -> 0 <= i < ARU r) -> wp F (collect_slots seqs) (fun _ => keeps True r) r.
Proof.
  induction seqs as [|i seqs IH]; intros r Hi Hs; cbn [collect_slots].
  - apply wp_ret. reflexivity.
  - pose proof (i_ARU Hi) as HA32. assert (Hir : 0 <= i < ARU r) by (apply Hs; left).
    unfold UTIL_Get_ORD_Slot at 1. apply wp_bind, wp_bind, wp_get.
    destruct (History r !! i) as [s|] eqn:Es.
    + destruct (i_keys Hi _ _ Es) as [Hk Hok].
      apply wp_ret, wp_bind, wp_get. rewrite (so_seq Hok). rewrite (wrap32_small (i + 1)) by lia. apply wp_bind.
      destruct (_ || _) eqn:E1; [apply wp_raise, HF; discriminate|apply wp_ret].
      apply orb_false_iff in E1 as [_ E1]. apply Z.ltb_ge in E1. apply wp_bind.
      destruct (_ <? _) eqn:E2; [apply wp_raise, HF; discriminate|apply wp_ret]. apply Z.ltb_ge in E2.
      apply wp_bind. eapply wp_conseq; [apply (wp_Garbage_Collect_ORD_Slot r i s); auto; lia|].
      cbv beta. intros _ r1 K1. eapply wp_conseq; [apply (IH r1)|].
      * eapply inv_keeps; eassumption.
      * intros j Hj. pose proof (k_ARU _ _ _ K1). pose proof (Hs j ltac:(right; exact Hj)). lia.
      * cbv beta. intros _ r2 K2. etransitivity; eassumption.
    + apply wp_bind, wp_put, wp_ret, wp_bind, wp_get, wp_bind. cbn [collected_all_parts new_ord_slot negb orb].
      apply wp_raise, HF. discriminate.
Qed.

Lemma wp_Garbage_Collect r :
  inv r -> wp F ORDER_Attempt_To_Garbage_Collect_ORD_Slots (fun _ => keeps True r) r.
Proof.
  intros Hi. pose proof (i_stable Hi) as Hst. pose proof (i_ARU Hi) as HA.
  unfold ORDER_Attempt_To_Garbage_Collect_ORD_Slots. apply wp_bind, wp_get.
  rewrite (wrap32_small (ARU r - _)) by lia. change gc_width with 10.
  destruct (Z.ltb_spec (ARU r - stable_catchup r) (2 * 10)) as [|Hge]; [apply wp_ret; reflexivity|].
  rewrite (wrap32_small (ARU r - 10)) by lia.
  apply wp_bind. eapply wp_conseq; [apply wp_collect_slots; [exact Hi|]|].
  - intros i Hin. apply elem_of_seqZ in Hin. lia.
  - cbv beta. intros _ r1 K1. pose proof (k_ARU _ _ _ K1) as [KA KA'].
    apply wp_modify. etransitivity; [exact K1|]. apply keeps_set_stable. rewrite wrap32_small by lia. lia.
Qed.
End Collection.

(** ** The view over an execution *)
Section View.
Context {crypto : Crypto} {signer : Signer} {R : Type} {ext : External R}.
Context (F : fault -> Prop) {ext_ok : ExternalOk F ext}.
Context (VAR : server_variables) (HVAR : 1 <= 2 * VF VAR + VK VAR + 1 <= NUM_SERVERS).

Abbreviation state := (order_state (E := po_data (R := R))).
Abbreviation M := (comp state).
Implicit Types r : state.

Let allowed f (_ : f <> OutOfFuel) : any_fault f := I.

Lemma onward_modify (f : state -> state) :
  (forall r, same_view r (f r)) -> (forall r, Pending_Execution (f r) ⊆ Pending_Execution r) ->
  within any_fault onward (modify f).
Proof. intros Hv Hp. apply within_modify. intros r. apply onward_view; auto. Qed.

Lemma onward_upd seq f : within any_fault onward (upd (E := po_data (R := R)) seq f).
Proof. apply (within_upd any_fault allowed). intros r s _. apply onward_view; [split|]; reflexivity. Qed.
Hint Resolve onward_upd : frame.

Ltac onward_modify := apply onward_modify; [intros ?; try split; reflexivity|intros ?; cbn; set_solver].

Lemma onward_Process_PO_ARU m : within any_fault onward (PRE_ORDER_Process_PO_ARU VAR m : M unit).
Proof. apply within_aside_onward, within_Process_PO_ARU; [exact allowed|exact HVAR]. Qed.
Hint Resolve onward_Process_PO_ARU : frame.

Lemma onward_apply_installed cum_acks rows : within any_fault onward (apply_installed VAR cum_acks rows : M bool).
Proof.
  induction rows as [|i rows IH]; cbn [apply_installed]; [apply within_ret; apply _|].
  pose proof allowed. unfold incarnation_of_row, row.
  walk.
Qed.
Hint Resolve onward_apply_installed : frame.

Lemma onward_compute_eligible cum_acks last :
  within any_fault onward (compute_eligible VAR cum_acks last : M _).
Proof.
  pose proof allowed. unfold compute_eligible. apply within_map_comp; [apply _|]. intros i.
  apply within_bind; [apply _|apply within_Proof_ARU; [exact allowed|apply _|exact HVAR]|]. intros ps. walk.
Qed.
Hint Resolve onward_compute_eligible : frame.

Lemma onward_Recon seq : within any_fault onward (Recon.RECON_Do_Recon VAR seq : M unit).
Proof. apply recon_onward. Qed.
Hint Resolve onward_Recon : frame.

Lemma onward_send_prepare seq : within any_fault onward (send_prepare VAR seq : M bool).
Proof.
  pose proof allowed. unfold send_prepare, continues.
  repeat first [ match goal with |- within _ _ (bind get (fun r => bind (if UTIL_I_Am_Leader _ _ then _ else put _) _)) =>
                   apply within_put_unless; [apply _|intros r; apply onward_view; [split|]; reflexivity|] end
               | walk1 | onward_modify ].
Qed.
Hint Resolve onward_send_prepare : frame.

Lemma onward_send_prepares fuel : within any_fault onward (send_prepares VAR fuel : M bool).
Proof.
  pose proof allowed. induction fuel as [|fuel IH]; cbn [send_prepares]; [intros r; exact I|]. walk.
Qed.
Hint Resolve onward_send_prepares : frame.

Lemma onward_covers cum_acks t rows : within any_fault onward (matrix_covers cum_acks t rows : M bool).
Proof.
  pose proof allowed. induction rows as [|i rows IH]; cbn [matrix_covers]; [walk|].
  unfold row_covers, ack_for. walk.
  all: apply within_map_comp; [apply _|intros j; walk].
Qed.
Hint Resolve onward_covers : frame.

Lemma onward_cover_challenges cum_acks challenges : within any_fault onward (cover_challenges cum_acks challenges : M unit).
Proof.
  pose proof allowed.
  induction challenges as [|t challenges IH]; cbn [cover_challenges]; [onward_modify|]. walk; onward_modify.
Qed.
Hint Resolve onward_cover_challenges : frame.

Lemma onward_Send_Prepares : within any_fault onward (ORDER_Send_Prepares VAR : M unit).
Proof. pose proof allowed. unfold ORDER_Send_Prepares. walk. Qed.
Hint Resolve onward_Send_Prepares : frame.

(** ** Execution *)
Lemma onward_Resume : within any_fault onward (PR_Resume_Normal_Operation VAR).
Proof. intros r. apply within_any with (F := F), Resume_onward. Qed.
Hint Resolve onward_Resume : frame.

Lemma onward_Check i : within any_fault onward (VIEW_Check_Complete_State VAR i).
Proof.
  intros r. eapply wp_fault; [intros f _; exact I|].
  eapply wp_conseq; [apply Check_Complete_State_onward|]. cbv beta. intros _ r' [H _]. exact H.
Qed.
Hint Resolve onward_Check : frame.

Lemma onward_check_complete_states servers : within any_fault onward (check_complete_states VAR servers).
Proof. induction servers; cbn [check_complete_states]; walk. Qed.
Hint Resolve onward_check_complete_states : frame.

Lemma onward_execute_requests seq i inc js : within any_fault onward (execute_requests VAR seq i inc js).
Proof.
  pose proof allowed. induction js as [|j js IH]; cbn [execute_requests]; [walk|].
  unfold execute_request, install_incarnation. walk; onward_modify.
Qed.
Hint Resolve onward_execute_requests : frame.

Lemma onward_execute_servers seq l : forall i, within any_fault onward (execute_servers VAR seq i l).
Proof. pose proof allowed. induction l as [|[prev cur] l IH]; intros i; cbn [execute_servers]; walk. Qed.
Hint Resolve onward_execute_servers : frame.

Lemma onward_execute_slot seq : within any_fault onward (execute_slot VAR seq).
Proof.
  pose proof allowed. unfold execute_slot.
  repeat first [walk1 | apply onward_modify; [intros t; try destruct (_ =? _); split; reflexivity|intros t; try destruct (_ =? _); reflexivity]].
Qed.

Lemma onward_collect_slots seqs : within any_fault onward (collect_slots seqs : M unit).
Proof.
  pose proof allowed. induction seqs as [|i seqs IH]; cbn [collect_slots]; [walk|].
  unfold ORDER_Garbage_Collect_ORD_Slot.
  apply within_bind; [apply _| |intros slot].
  - unfold UTIL_Get_ORD_Slot. apply within_get_bind. intros r. destruct (_ !! _); [apply wp_ret; reflexivity|].
    apply wp_bind, wp_put, wp_ret, onward_view; [split|]; reflexivity.
  - walk; onward_modify.
Qed.
Hint Resolve onward_collect_slots : frame.

Lemma onward_after_tail : within any_fault onward
  (po_update (fun e => if executed_ord e =? 0 then with_executed_ord 1 e else e) ;;;
   ORDER_Send_Prepares VAR ;;; ORDER_Attempt_To_Garbage_Collect_ORD_Slots).
Proof. pose proof allowed. unfold ORDER_Attempt_To_Garbage_Collect_ORD_Slots. walk. onward_modify. Qed.
Hint Resolve onward_after_tail : frame.

Lemma onward_after_execution seq : within any_fault onward (after_execution VAR seq).
Proof. pose proof allowed. unfold after_execution. walk. Qed.
End View.

(** ** The executor *)
Section Executor.
Context {crypto : Crypto} (ok : CryptoOk crypto) {signer : Signer} {R : Type} {ext : External R}.
Context (F : fault -> Prop) (HF : forall f, f <> OutOfFuel -> F f) {ext_ok : ExternalOk F ext}.
Context (VAR : server_variables) (HVAR : 1 <= 2 * VF VAR + VK VAR + 1 <= NUM_SERVERS).
Context (EvPP : pre_prepare_mess -> Prop) (EvP EvC : vote -> Prop).

Abbreviation state := (order_state (E := po_data (R := R))).
Abbreviation inv := (inv VAR EvPP EvP EvC).
Abbreviation handled := (handled VAR EvPP EvP EvC).
Implicit Types r : state.

Let allowed f (_ : f <> OutOfFuel) : any_fault f := I.

Lemma later_Ready_To_Execute seq : within any_fault later (ORDER_Ready_To_Execute (R := R) seq).
Proof.
  pose proof allowed.
  assert (Hmark : forall g, within any_fault later (UTIL_Mark_ORD_Slot_As_Pending (R := R) g ;;; ret false)).
  { intros g. walk. apply within_modify. intros r. split; [reflexivity|auto]. }
  assert (Hnote : forall g l, within any_fault later (note_all_missing (R := R) g 1 l)).
  { intros g l. eapply within_mono; [|apply within_note_all_missing; exact allowed].
    intros r r' K. apply later_view, K. }
  unfold ORDER_Ready_To_Execute. repeat first [apply Hmark | apply Hnote | walk1].
Qed.

Lemma onward_is_later {A} (m : comp state A) : within any_fault onward m -> within any_fault later m.
Proof. apply within_mono, onward_later. Qed.

Lemma later_execute_commit fuel : forall seq, within any_fault later (execute_commit VAR fuel seq).
Proof.
  pose proof allowed. induction fuel as [|fuel IH]; intros seq; cbn [execute_commit]; [intros r; exact I|].
  apply within_bind; [apply _|apply later_Ready_To_Execute|]. intros b. destruct (negb b).
  - intros r. eapply wp_fault; [intros f _; exact I|]. eapply wp_conseq; [apply Schedule_Catchup_keeps|].
    cbv beta. intros _ r' K. apply later_view, K.
  - apply within_bind; [apply _|apply onward_is_later, (onward_execute_slot F VAR)|intros _].
    apply within_bind; [apply _|apply onward_is_later, (onward_after_execution F VAR HVAR)|intros _]. walk.
Qed.

(** While the view is the one it was, the answers to the last reports kept the state. *)
Lemma wp_check_complete_states servers : forall r,
  wp F (check_complete_states VAR servers)
    (fun _ r' => onward r r' /\ (same_view r r' -> keeps False r r')) r.
Proof.
  induction servers as [|i servers IH]; intros r; cbn [check_complete_states].
  - apply wp_ret. split; [reflexivity|intros _; reflexivity].
  - apply wp_bind. eapply wp_conseq; [apply Check_Complete_State_onward|]. cbv beta. intros _ r1 [O1 K1].
    eapply wp_conseq; [apply IH|]. cbv beta. intros _ r2 [O2 K2].
    split; [etransitivity; eassumption|]. intros Hv.
    assert (Hv1 : same_view r r1) by (eapply later_between; [apply O1|apply O2|exact Hv]).
    etransitivity; [apply K1, Hv1|]. apply K2. destruct Hv, Hv1. split; congruence.
Qed.

(** Either the fuel is not asked about, or the view cannot end. *)
Definition settled r : Prop := (forall f, F f) \/ view_change_done r = true.

Lemma same_view_trans (r1 r2 r3 : state) : same_view r1 r2 -> same_view r2 r3 -> same_view r1 r3.
Proof. intros [] []. split; congruence. Qed.

Lemma same_view_back (r1 r2 r3 : state) : same_view r1 r2 -> same_view r1 r3 -> same_view r2 r3.
Proof. intros [] []. split; congruence. Qed.

#[local] Instance same_view_dec (r r' : state) : Decision (same_view r r').
Proof. unfold same_view. apply _. Defined.

(** A computation that goes on in a view that has ended. *)
Lemma wp_ended {A} (m : comp state A) (Q : state -> Prop) r r1 :
  (forall f, F f) -> later r r1 -> ~ same_view r r1 -> within any_fault later m ->
  wp F m (fun _ r' => same_view r r' -> Q r') r1.
Proof.
  intros HT Hl Hn Hm. eapply wp_fault; [intros f _; apply HT|].
  eapply wp_conseq; [apply Hm|]. cbv beta. intros a r' Hl' Hv. destruct Hn. eapply later_between; eassumption.
Qed.

(** The state after a slot, ready for the next. *)
Definition moved r r' : Prop := inv r' /\ follows r r' /\ ARU r <= ARU r'.

Lemma moved_keeps erase r r1 r2 : moved r r1 -> keeps erase r1 r2 -> moved r r2.
Proof.
  intros (Hi & Hf & HA) K. split; [eapply inv_keeps; eassumption|]. split.
  - eapply follows_trans; [exact Hf|eapply keeps_follows; exact K].
  - pose proof (k_ARU _ _ _ K). lia.
Qed.

Lemma moved_view r r' : moved r r' -> same_view r r'.
Proof. intros (_ & [Hv _] & _). exact Hv. Qed.

Lemma wp_after_execution r seq :
  inv r -> is_Some (History r !! seq) -> settled r ->
  wp F (after_execution VAR seq) (fun _ r' => same_view r r' \/ view_change_done r = true -> moved r r') r.
Proof.
  intros Hi Hs Hset. unfold after_execution.
  assert (Hrest : forall r1, moved r r1 ->
    wp F (po_update (fun e => if executed_ord e =? 0 then with_executed_ord 1 e else e) ;;;
          ORDER_Send_Prepares VAR ;;; ORDER_Attempt_To_Garbage_Collect_ORD_Slots)
      (fun _ => moved r) r1).
  { intros r1 H1. apply wp_bind. eapply wp_conseq; [apply within_po_update|]. cbv beta. intros _ r2 K2%aside_keeps.
    destruct (moved_keeps _ _ _ _ H1 K2) as (Hi2 & Hf2 & HA2).
    apply wp_bind.
    pose proof (order_calls_ok F (HF := HF)) as Hcalls.
    eapply wp_conseq; [apply (wp_Send_Prepares F (HF AssertFailure ltac:(discriminate)) VAR HVAR EvPP EvP EvC r2 Hi2)|].
    cbv beta. intros _ r3 (Hi3 & Hf3 & _ & _ & HA3).
    eapply wp_conseq; [apply (wp_Garbage_Collect F HF VAR EvPP EvP EvC r3 Hi3)|]. cbv beta. intros _ r4 K4.
    apply (moved_keeps True r r3); [|exact K4]. split; [exact Hi3|].
    split; [eapply follows_trans; eassumption|]. lia. }
  apply wp_bind. eapply wp_conseq; [apply (recon_aside F HF VAR seq r Hs (fun n s Es => proj1 (i_keys Hi n s Es)) (i_recon Hi))|].
  cbv beta. intros _ r1 K1%aside_keeps.
  assert (H0 : moved r r1) by (apply (moved_keeps False r r); [split; [exact Hi|split; [apply follows_refl|lia]]|exact K1]).
  clear K1. rename r1 into r0.
  apply wp_bind. eapply wp_conseq; [apply (within_make_ord_certificate F HF VAR)|]. cbv beta. intros _ r1 K1%aside_keeps.
  pose proof (moved_keeps False r r0 r1 H0 K1) as H1.
  apply wp_bind, wp_get, wp_bind. destruct (view_change_done r1) eqn:Hd.
  { apply wp_ret. eapply wp_conseq; [apply Hrest; exact H1|]. auto. }
  eapply wp_conseq; [apply wp_check_complete_states|]. cbv beta. intros _ r2 [O2 K2].
  destruct (decide (same_view r1 r2)) as [Hv|Hn].
  - eapply wp_conseq; [apply Hrest; apply (moved_keeps False r r1 r2 H1), K2, Hv|]. auto.
  - assert (Hd' : view_change_done r <> true) by (destruct (moved_view _ _ H1); congruence).
    assert (HT : forall f, F f) by (destruct Hset as [HT|]; [exact HT|contradiction]).
    apply (wp_conseq F _ _ (fun _ r' => same_view r r' -> moved r r'));
      [|intros _ r' H [Hv|]; [apply H, Hv|contradiction]].
    apply wp_ended; [exact HT| | |].
    + etransitivity; [apply later_view, moved_view, H1|apply O2].
    + intros Hv. apply Hn. eapply same_view_back; [apply moved_view, H1|exact Hv].
    + apply onward_is_later, (onward_after_tail F VAR HVAR).
Qed.

(** ** The recursion *)
(** The slots that wait, and the one at hand, above the last executed. *)
Definition waiting r (seq : Z) : nat :=
  size (filter (fun k => ARU r < k) ({[seq]} ∪ Pending_Execution r : gset Z)).

Lemma waiting_lower r r' seq next :
  ARU r < seq -> seq <= ARU r' -> next ∈ Pending_Execution r' ->
  Pending_Execution r' ⊆ Pending_Execution r -> (waiting r' next < waiting r seq)%nat.
Proof.
  intros Hs HA Hn Hp. unfold waiting. apply subset_size. split.
  - intros k. rewrite !elem_of_filter, !elem_of_union, !elem_of_singleton. intros [H1 H2].
    split; [lia|]. right. destruct H2 as [->|H2]; auto.
  - intros Hsub. assert (Hin : seq ∈ filter (fun k => ARU r < k) ({[seq]} ∪ Pending_Execution r : gset Z)).
    { apply elem_of_filter. split; [exact Hs|]. apply elem_of_union_l, elem_of_singleton. reflexivity. }
    apply Hsub, elem_of_filter in Hin. lia.
Qed.

Lemma waiting_history r seq : pending_ok r -> (waiting r seq <= S (size (History r)))%nat.
Proof.
  intros Hp. unfold waiting. rewrite <- size_dom.
  transitivity (size ({[seq]} ∪ dom (History r) : gset Z)).
  - apply subseteq_size. intros k. rewrite elem_of_filter, !elem_of_union, elem_of_dom.
    intros [_ [H|H]]; [left; exact H|right]. destruct (Hp k H) as (s & Es & _). eauto.
  - rewrite size_union_alt, size_singleton.
    pose proof (subseteq_size (dom (History r) ∖ {[seq]}) (dom (History r) : gset Z) ltac:(set_solver)). lia.
Qed.

Lemma wp_execute_commit fuel : forall r seq s,
  inv r -> History r !! seq = Some s -> ordered s = true -> settled r -> (waiting r seq < fuel)%nat ->
  wp F (execute_commit VAR fuel seq) (fun _ r' => handled r r') r.
Proof.
  induction fuel as [|fuel IH]; intros r seq s Hi Es Ho Hset Hw; [lia|]. cbn [execute_commit].
  apply wp_bind. eapply wp_conseq; [apply (wp_Ready_To_Execute F HF VAR EvPP EvP EvC r seq s); assumption|].
  cbv beta. intros b r1 [K1 Hb]. pose proof (inv_keeps _ _ _ _ _ _ _ Hi K1) as Hi1.
  destruct b; cbn [negb].
  2:{ eapply wp_conseq; [apply Schedule_Catchup_keeps|]. cbv beta. intros _ r2 K2 _.
      assert (K : keeps False r r2) by (etransitivity; eassumption).
      split; [eapply inv_keeps; eassumption|eapply keeps_follows; exact K]. }
  destruct (Hb eq_refl) as [_ [_ EP1]]. destruct (keeps_slot _ _ _ _ K1 Es) as (s1 & Es1 & Hsb).
  assert (Ho1 : ordered s1 = true) by (destruct Hsb as (?&?&?&?&?&?&?&?&?&?&E1&?); congruence).
  destruct (k_still _ _ _ K1) as [[]|EA1].
  apply wp_bind. eapply wp_conseq.
  { apply wp_and; [apply (wp_execute_slot F HF VAR HVAR EvPP EvP EvC r1 seq s1); assumption|].
    apply (onward_execute_slot F VAR). }
  cbv beta. intros _ r2 [[EA Hx] O2]. destruct Hx as [Hi2 Hf2 EA2 (s2 & Es2 & _)].
  assert (Hv2 : same_view r r2) by (eapply same_view_trans; [apply K1|apply Hf2]).
  assert (Hset2 : settled r2) by (destruct Hset as [|Hd]; [left; assumption|right; destruct Hv2; congruence]).
  apply wp_bind. eapply wp_conseq.
  { apply wp_and; [apply (wp_after_execution r2 seq Hi2); [eauto|exact Hset2]|].
    apply (onward_after_execution F VAR HVAR). }
  cbv beta. intros _ r3 [H3 O3]. apply wp_bind, wp_get. cbv zeta.
  assert (Hl3 : later r r3) by (etransitivity; [apply later_view, Hv2|apply O3]).
  destruct (decide (same_view r r3)) as [Hv3|Hn].
  - destruct H3 as (Hi3 & Hf3 & HA3); [left; eapply same_view_back; eassumption|].
    assert (Hf : follows r r3).
    { eapply follows_trans; [eapply keeps_follows; exact K1|]. eapply follows_trans; eassumption. }
    destruct (bool_decide _) eqn:Eb; [|apply wp_ret; intros _; split; assumption].
    apply bool_decide_eq_true in Eb. destruct (i_pending Hi3 _ Eb) as (s3 & Es3 & Ho3).
    eapply wp_conseq; [apply (IH r3 _ s3 Hi3 Es3 Ho3)|].
    + destruct Hset as [|Hd]; [left; assumption|right; destruct Hv3; congruence].
    + enough (waiting r3 (wrap32 (ARU r3 + 1)) < waiting r seq)%nat by lia.
      apply waiting_lower; [lia|lia|exact Eb|].
      destruct O2 as [_ P2], O3 as [_ P3]. rewrite <- EP1. set_solver.
    + cbv beta. intros _ r4 H4. eapply follows_handled; eassumption.
  - assert (HT : forall f, F f).
    { destruct Hset as [HT|Hd]; [exact HT|]. destruct Hn. eapply same_view_trans; [exact Hv2|].
      apply moved_view, H3. right. destruct Hv2. congruence. }
    apply (wp_ended _ (fun r' => inv r' /\ follows r r')); [exact HT|exact Hl3|exact Hn|]. pose proof allowed. pose proof later_execute_commit. walk.
Qed.

(** The fuel of the two entries. *)
Lemma wp_Execute_Commit r seq s :
  inv r -> History r !! seq = Some s -> ordered s = true -> settled r ->
  wp F (ORDER_Execute_Commit VAR seq) (fun _ r' => handled r r') r.
Proof.
  intros Hi Es Ho Hset. apply wp_bind, wp_get. apply (wp_execute_commit _ r seq s); auto.
  pose proof (waiting_history r seq (i_pending Hi)). lia.
Qed.

Lemma wp_Execute_Pending r :
  inv r -> settled r ->
  wp F (execute_pending VAR) (fun _ r' => handled r r') r.
Proof.
  intros Hi Hset. apply wp_bind, wp_get. cbv zeta. destruct (bool_decide _) eqn:Eb.
  - apply bool_decide_eq_true in Eb. destruct (i_pending Hi _ Eb) as (s & Es & Ho).
    apply (wp_execute_commit _ r _ s); auto. pose proof (waiting_history r (wrap32 (ARU r + 1)) (i_pending Hi)). lia.
  - apply wp_ret. intros _. split; [exact Hi|apply follows_refl].
Qed.
End Executor.

(** The executor of [order.c] is one the ordering protocol can do with. *)
#[global] Instance executor_ok {crypto : Crypto} (ok : CryptoOk crypto) {signer : Signer} {R : Type}
    {ext : External R} {ext_ok : ExternalOk any_fault ext} : ExecutorOk any_fault executor.
Proof.
  split.
  - intros VAR EvPP EvP EvC seq s r Hi Es Ho HVAR.
    apply (wp_Execute_Commit ok any_fault (fun _ _ => I) VAR HVAR EvPP EvP EvC r seq s Hi Es Ho).
    left. intros f. exact I.
  - intros VAR EvPP EvP EvC r Hi HVAR. cbn [ORDER_Attempt_To_Execute_Pending_Commits executor].
    apply (wp_Execute_Pending ok any_fault (fun _ _ => I) VAR HVAR EvPP EvP EvC r Hi).
    left. intros f. exact I.
Qed.
