(* ===== verification/ExecuteProps.v ===== *)
(** What the execution of ordered slots achieves.

    The replicas are those of [OrderSystem.v], with the handlers of [PreOrder.v]
    and the executor of [Execute.v] in the place of their interfaces: what is left
    open is reconciliation, catchup, view changes and recovery ([External]). *)
From Stdlib Require Import ZArith Lia List Bool.
From Stdlib Require Import Strings.Byte.
From stdpp Require Import base list gmap fin_sets relations.
From S2P Require Import Prelude Memory Config Packets Crypto Utility Eligibility EligibilityCorrect OrderState PreOrderState Order OrderCorrect OrderHandlers OrderSystem OrderLog OrderProps PreOrder OrderFrame PreOrderCorrect Execute ExecuteCorrect.

(** ** Requests *)
Lemma elem_of_requests_between (id : po_id) server p c :
  id ∈ requests_between server p c <->
  po_server_id id = server /\ incarnation (po_pair id) = incarnation c /\
  (if incarnation p <? incarnation c then 0 else seq_num p) < seq_num (po_pair id) <= seq_num c.
Proof.
  unfold requests_between, counting. set (start := if _ <? _ then 0 else _).
  rewrite list_elem_of_fmap. split.
  - intros (j & -> & Hj). apply elem_of_seqZ in Hj. cbn. repeat split; lia.
  - intros (H1 & H2 & H3). exists (seq_num (po_pair id)). split; [|apply elem_of_seqZ; lia].
    destruct id as [? []]. cbn in *. congruence.
Qed.

Lemma elem_of_requests (id : po_id) last elig :
  id ∈ requests_of last elig <->
  exists i p c, last !! i = Some p /\ elig !! i = Some c /\ id ∈ requests_between (Z.of_nat i + 1) p c.
Proof.
  unfold requests_of. rewrite list_elem_of_In, in_concat. split.
  - intros (l & Hl & Hid). apply list_elem_of_In, list_elem_of_lookup in Hl as [i Hl].
    apply list_lookup_imap_Some in Hl as ([p c] & Hz & ->).
    apply lookup_zip_with_Some in Hz as (p' & c' & [= <- <-] & Hp & Hc).
    exists i, p, c. rewrite <- list_elem_of_In in Hid. auto.
  - intros (i & p & c & Hp & Hc & Hid). exists (requests_between (Z.of_nat i + 1) p c).
    split; [|apply list_elem_of_In, Hid]. apply list_elem_of_In, list_elem_of_lookup. exists i.
    apply list_lookup_imap_Some. exists (p, c). split; [|reflexivity].
    apply lookup_zip_with_Some. exists p, c. auto.
Qed.

(** Once past a vector, the requests up to it do not come again. *)
Lemma requests_disjoint (id : po_id) last elig last' elig' :
  Forall2 ps_le elig last' -> Forall2 ps_le last' elig' ->
  id ∈ requests_of last elig -> id ∈ requests_of last' elig' -> False.
Proof.
  intros H1 H2 Hid Hid'. apply elem_of_requests in Hid as (i & p & c & _ & Hc & Hid).
  apply elem_of_requests in Hid' as (i' & p' & c' & Hp' & Hc' & Hid').
  apply elem_of_requests_between in Hid as (Es & Ei & Hs).
  apply elem_of_requests_between in Hid' as (Es' & Ei' & Hs').
  assert (i' = i) as -> by lia.
  destruct (Forall2_lookup_l _ _ _ _ _ H1 Hc) as (p1 & Hp1 & L1).
  destruct (Forall2_lookup_l _ _ _ _ _ H2 Hp') as (c1 & Hc1 & L2).
  assert (p1 = p') as -> by congruence. assert (c1 = c') as -> by congruence.
  destruct (Z.ltb_spec (incarnation p') (incarnation c'));
    destruct L1 as [->|[?|[? ?]]], L2 as [->|[?|[? ?]]]; lia.
Qed.

Lemma NoDup_requests_between server p c : NoDup (requests_between server p c).
Proof. apply NoDup_fmap_2; [|apply NoDup_seqZ]. intros a b [=]. assumption. Qed.

Lemma NoDup_requests_from l : forall i,
  NoDup (requests_from i l) /\ forall id, id ∈ requests_from i l -> i <= po_server_id id.
Proof.
  induction l as [|[p c] l IH]; intros i.
  - split; [constructor|]. intros id H. inversion H.
  - rewrite requests_from_cons. destruct (IH (i + 1)) as [Hn Hs]. split.
    + apply NoDup_app. split; [apply NoDup_requests_between|]. split; [|exact Hn].
      intros id H1%elem_of_requests_between H2%Hs. lia.
    + intros id [H%elem_of_requests_between|H%Hs]%elem_of_app; lia.
Qed.

Lemma NoDup_requests last elig : NoDup (requests_of last elig).
Proof. exact (proj1 (NoDup_requests_from (zip last elig) 1)). Qed.

(** ** Chains of chosen contents *)
Section Chains.
Context {crypto : Crypto}.

Lemma path_grows (k : nat) c c' v :
  nsteps leads (S k) c c' -> eligible_for (Init_VAR 1) c = Some v -> Forall2 ps_le v (c_last_executed c').
Proof.
  revert c v. induction k as [|k IH]; intros c v Hp Hv.
  - apply nsteps_once_inv in Hp as [_ Hp]. replace v with (c_last_executed c') by congruence.
    apply Forall2_same_length_lookup. split; [reflexivity|]. intros i x y Hx Hy. left. congruence.
  - inversion Hp as [|? ? c1 ? [Hok Hl] Hrest]; subst. replace v with (c_last_executed c1) by congruence.
    pose proof Hrest as Hrest'. inversion Hrest' as [|? ? c2 ? [Hok1 Hl1] _]; subst.
    transitivity (c_last_executed c2); [apply (eligible_grows 1); assumption|].
    exact (IH c1 _ Hrest Hl1).
Qed.
End Chains.

(** ** Executed slots *)
Section System.
Context {crypto : Crypto} (ok : CryptoOk crypto) {signer : Signer} {R : Type} {ext : External R}.
Context {ext_ok : ExternalOk any_fault ext}.
Context (faulty : gset Z) (Hfaulty : Z.of_nat (size faulty) <= NUM_F).
Implicit Types σ : system (E := po_data (R := R)).

#[local] Instance calls_here : OrderCallsOk any_fault order_calls := order_calls_ok any_fault (HF := fun _ _ => I).
#[local] Instance exec_here : ExecutorOk any_fault executor := executor_ok ok.

Lemma executor_reachable_inv σ : reachable faulty σ -> system_inv faulty σ.
Proof. apply (order_reachable_inv ok faulty). Qed.

(** What is executed is ordered, and a part of what the chosen content asks for. *)
Lemma executed_list σ i n s id :
  system_inv faulty σ -> correct faulty i -> History (node σ i) !! n = Some s -> id ∈ po_slot_list s ->
  ordered s = true /\ po_slot_list s `prefix_of` requests_of (starts_from n s) (made_eligible s) /\
  eligible_for (Init_VAR i) (complete_pre_prepare s) = Some (made_eligible s).
Proof.
  intros Hinv Hc Es Hid. destruct (i_keys (Hinv i Hc) n s Es) as [_ Hok].
  destruct (so_list Hok) as [Hn|(_ & Ho & Hp & Hl)]; [rewrite Hn in Hid; inversion Hid|].
  split; [exact Ho|]. split; [exact Hl|].
  destruct (so_ordered Hok Ho) as [Hcol _]. destruct (so_eligible Hok Hp) as (c & Hv & Ec & _).
  rewrite (Ec (collected_parts _ _ _ _ _ _ _ Hok Hcol)) in Hv. exact Hv.
Qed.

Lemma executed_once σ i j n m s s' id :
  collision_free (received σ) -> system_inv faulty σ -> correct faulty i -> correct faulty j ->
  History (node σ i) !! n = Some s -> History (node σ j) !! m = Some s' ->
  id ∈ po_slot_list s -> id ∈ po_slot_list s' -> n < m -> False.
Proof.
  intros Hcf Hinv Hi Hj Es Es' Hid Hid' Hnm.
  destruct (executed_list σ i n s id Hinv Hi Es Hid) as (Ho & Hl & Hv).
  destruct (executed_list σ j m s' id Hinv Hj Es' Hid') as (Ho' & Hl' & Hv').
  pose proof (ordered_chosen ok faulty σ i n s Hinv Hi Es Ho) as Hc.
  pose proof (ordered_chosen ok faulty σ j m s' Hinv Hj Es' Ho') as Hc'.
  pose proof (proj1 (i_keys (Hinv i Hi) n s Es)) as Hn.
  assert (Hm : m = n + Z.of_nat (S (Z.to_nat (m - n - 1)))) by lia. rewrite Hm in Hc'.
  pose proof (chosen_path ok faulty Hfaulty σ n _ _ _ Hcf Hinv Hc Hc') as Hpath.
  pose proof (path_grows _ _ _ _ Hpath Hv) as Hgrow.
  assert (Hst : starts_from m s' = c_last_executed (complete_pre_prepare s')).
  { unfold starts_from. destruct (Z.eqb_spec m 1); [lia|reflexivity]. }
  destruct (i_keys (Hinv j Hj) m s' Es') as [_ Hok'].
  apply (requests_disjoint id (starts_from n s) (made_eligible s) (starts_from m s') (made_eligible s')).
  - rewrite Hst. exact Hgrow.
  - rewrite Hst. apply (eligible_grows j); [exact (so_complete Hok')|exact Hv'].
  - destruct Hl as [l ->]. apply elem_of_app. left. exact Hid.
  - destruct Hl' as [l ->]. apply elem_of_app. left. exact Hid'.
Qed.
End System.

(** ** A run: a request of server 1 is certified everywhere, and slot 1 executes it *)
#[global] Instance quiet {R : Type} : External R := {|
  EXT_SUSPECT_New_Leader := fun _ => ret tt;
  CATCH_Schedule_Catchup := fun _ => ret tt;
  VIEW_Check_Complete_State := fun _ _ => ret tt;
  PR_Resume_Normal_Operation := fun _ => ret tt;
  hash_order := fun l => l |}.

#[global] Instance quiet_ok {crypto : Crypto} {R : Type} F : ExternalOk F (quiet (R := R)).
Proof.
  split; intros; cbn; try intros t; try (apply wp_ret; reflexivity); try reflexivity.
  - split; [reflexivity|]. intros _. reflexivity.
  - split; [assumption|]. split; [apply follows_refl|]. split; [reflexivity|].
    intros seq s Es _. exists s. split; [exact Es|]. repeat split.
Qed.

#[global] Instance blank_signer : Signer := {| OPENSSL_RSA_Sign := fun _ => zeros SIGNATURE_SIZE |}.

(** An update, and the PO-Request that holds it alone. *)
Definition toy_event : list byte :=
  put_u32 o_signed_message_machine_id 1
    (put_u32 o_signed_message_type (type_val UPDATE)
       (put_u32 (o_signed_update_message_update + o_update_message_seq_num) 7
          (zeros sz_signed_update_message))).

Definition toy_request : list byte :=
  put_u32 o_signed_message_machine_id 1
    (put_u32 (sz_signed_message + o_po_request_message_seq + o_po_seq_pair_seq_num) 1
       (put_u32 (sz_signed_message + o_po_request_message_num_events) 1
          (zeros (sz_signed_message + sz_po_request_message))))
  ++ toy_event.

Definition first_pair : po_seq_pair := mkPS 0 1.
Definition first_id : po_id := mkPoId 1 first_pair.

Definition toy_po : po_data (R := unit) :=
  {| PO_History := {[ first_id := store_request toy_request (@make_digest prefix_digest toy_request) (new_po_slot first_pair) ]};
     aru := per_server_slot (mkPS 0 0); cum_aru := <[1%nat := first_pair]> (per_server_slot (mkPS 0 0));
     max_acked := per_server_slot (mkPS 0 0); cum_max_acked := per_server_slot (per_server_slot (mkPS 0 0));
     white_line := per_server_slot (mkPS 0 0); last_executed_po_reqs := per_server_slot (mkPS 0 0);
     cum_aru_updated := false; new_po_aru := false; po_aru_num := 0; po_ack_start_server := 0;
     po_ack_start_seq := mkPS 0 0; po_seq := mkPS 0 0; po_seq_executed := mkPS 0 0;
     intro_client_seq := per_server_slot (mkPS 0 0); PO_Pending := ∅; Recon_History := ∅;
     events_ordered := 0; recovery_status := per_server_slot PR_NORMAL; num_startup := 0; executed_ord := 0;
     po_request_dll := []; reading_clients := true; rest := tt |}.

(** The row of every server acknowledges it. *)
Definition toy_row : list byte :=
  put_u32 (o_po_aru_signed_message_cum_ack + o_po_aru_message_ack_for_server + o_po_seq_pair_seq_num) 1
    (zeros sz_po_aru_signed_message).

Definition exec_start : order_state (E := po_data (R := unit)) :=
  {| View := 1; view_change_done := true; ARU := 0; ppARU := 0; high_prepared := 0;
     high_committed := 0; forwarding_white_line := 0; recon_white_line := 0; stable_catchup := 0; next_seq := 1;
     should_send_pp := false; History := ∅; Pending_Execution := ∅;
     proposal_digest := zeros DIGEST_SIZE; new_incarnation_val := 5;
     preinstalled_incarnations := OrderState.per_server 0;
     installed_incarnations := OrderState.per_server 0;
     cum_acks := concat (OrderState.per_server toy_row);
     max_num_sent_in_proof := OrderState.per_server (mkPS 0 0); leader_suspected := false;
     turnaround_times := []; actions := []; others := toy_po |}.

#[local] Existing Instance prefix_digest.

(** Between the messages of the two slots there are the request, which replicas 2 to
    4 send to five others, and the answer to the client. *)
Definition exec_slot_1 : list event :=
  toy_slot_at 0 (fun _ => 1%nat) (fun j => if j =? 5 then 2%nat else 7%nat).

Definition exec_run : list event :=
  exec_slot_1 ++ toy_slot_at 1 (fun _ => 10%nat) (fun j => if j =? 5 then 6%nat else 11%nat).

Definition exec_run_start : system := ([], fun _ => ORDER_Initialize_Data_Structure exec_start).
Definition exec_end : system :=
  default exec_run_start (run_events {[6]} exec_run exec_run_start).

Definition exec_slot (i n : Z) : ord_slot := default (new_ord_slot n) (History (node exec_end i) !! n).

Lemma exec_runs : run_events {[6]} exec_run exec_run_start = Some exec_end.
Proof.
  assert (H : match run_events {[6]} exec_run exec_run_start with Some _ => true | None => false end = true)
    by (vm_compute; reflexivity).
  unfold exec_end. destruct (run_events _ _ _) as [σ|]; [reflexivity|discriminate].
Qed.

Lemma exec_start_ready r : ready_to_start (E := po_data (R := unit)) (set_others r exec_start).
Proof.
  split; [reflexivity|]. split; [|reflexivity]. split; [reflexivity|]. split; [vm_compute; reflexivity|].
  split; [reflexivity|constructor].
Qed.

Lemma exec_end_reachable : reachable {[6]} exec_end.
Proof.
  apply (order_run_reachable {[6]} exec_run exec_run_start); [|exact exec_runs].
  apply reach_init. intros _. exact (exec_start_ready toy_po).
Qed.

(** Slot 1 executes the request, slot 2 nothing. *)
Example exec_lists :
  map (fun i => map (fun n => (executed (exec_slot i n), po_slot_list (exec_slot i n))) [1; 2]) [2; 3; 4; 5]
  = repeat [(true, [first_id]); (true, [])] 4.
Proof. vm_compute. reflexivity. Qed.

(** A replica that has not certified the request has to wait with the slot. *)
Definition late_start : order_state :=
  set_others (with_cum_aru (per_server_slot (mkPS 0 0)) toy_po) exec_start.
Definition late_run_start : system := ([], fun _ => ORDER_Initialize_Data_Structure late_start).
Definition late_end : system :=
  default late_run_start (run_events {[6]} exec_slot_1 late_run_start).

Lemma late_end_reachable : reachable {[6]} late_end.
Proof.
  apply (order_run_reachable {[6]} exec_slot_1 late_run_start).
  - apply reach_init. intros _. apply exec_start_ready.
  - assert (H : match run_events {[6]} exec_slot_1 late_run_start with Some _ => true | None => false end = true)
      by (vm_compute; reflexivity).
    unfold late_end. destruct (run_events _ _ _) as [σ|]; [reflexivity|discriminate].
Qed.

Definition late_slot : ord_slot := default (new_ord_slot 1) (History (node late_end 2) !! 1).

Example late_waits :
  (ordered late_slot, executed late_slot, num_remaining_for_execution late_slot,
   elements (Pending_Execution (node late_end 2)))
  = (true, false, 1, [1]).
Proof. vm_compute. reflexivity. Qed.

(** ** Properties *)
(** C10. Correct replicas execute the same requests in the same order: of what two
    of them have executed for a slot, at any time and whatever the leader and the
    faulty ones did, one list is a prefix of the other; unless two received
    Pre-Prepares collide under SHA-1. *)
Theorem executed_requests_agree {crypto : Crypto} (ok : CryptoOk crypto) {signer : Signer} {R : Type}
    {ext : External R} {ext_ok : ExternalOk any_fault ext} (faulty : gset Z)
    (σ : system (E := po_data (R := R))) (i j n : Z) (s s' : ord_slot)
    (Hfaulty : Z.of_nat (size faulty) <= NUM_F)
    (Hreach : reachable faulty σ) (Hcollide : collision_free (received σ))
    (Hi : correct faulty i) (Hj : correct faulty j)
    (Hs : History (node σ i) !! n = Some s) (Hs' : History (node σ j) !! n = Some s') :
  po_slot_list s `prefix_of` po_slot_list s' \/ po_slot_list s' `prefix_of` po_slot_list s.
Proof.
  pose proof (executor_reachable_inv ok faulty σ Hreach) as Hinv.
  destruct (po_slot_list s) as [|id l] eqn:El; [left; apply prefix_nil|].
  destruct (po_slot_list s') as [|id' l'] eqn:El'; [right; apply prefix_nil|].
  destruct (executed_list faulty σ i n s id Hinv Hi Hs) as (Ho & Hl & Hv); [rewrite El; left|].
  destruct (executed_list faulty σ j n s' id' Hinv Hj Hs') as (Ho' & Hl' & Hv'); [rewrite El'; left|].
  pose proof (ordered_chosen ok faulty σ i n s Hinv Hi Hs Ho) as Hc.
  pose proof (ordered_chosen ok faulty σ j n s' Hinv Hj Hs' Ho') as Hc'.
  pose proof (chosen_agree faulty Hfaulty σ n _ _ Hcollide Hinv Hc Hc') as Ec.
  unfold starts_from in *. rewrite Ec, (eligible_for_any i j) in *.
  replace (made_eligible s) with (made_eligible s') in Hl by congruence.
  rewrite El in Hl. rewrite El' in Hl'. exact (prefix_weak_total _ _ _ Hl Hl').
Qed.

Lemma executed_requests_agree_witness :
  po_slot_list (exec_slot 2 1) `prefix_of` po_slot_list (exec_slot 5 1) \/
  po_slot_list (exec_slot 5 1) `prefix_of` po_slot_list (exec_slot 2 1).
Proof.
  apply (@executed_requests_agree prefix_digest prefix_digest_ok blank_signer unit quiet (quiet_ok _) {[6]} exec_end 2 5 1).
  - rewrite size_singleton. vm_compute. discriminate.
  - exact exec_end_reachable.
  - apply collision_freeb_spec. vm_compute. reflexivity.
  - apply order_is_correct_spec. vm_compute. reflexivity.
  - apply order_is_correct_spec. vm_compute. reflexivity.
  - vm_compute. reflexivity.
  - vm_compute. reflexivity.
Defined.

(** C11. A request is executed at most once: correct replicas that have executed
    it did so with the same slot, and once there; unless two received
    Pre-Prepares collide under SHA-1. *)
Theorem request_executed_once {crypto : Crypto} (ok : CryptoOk crypto) {signer : Signer} {R : Type}
    {ext : External R} {ext_ok : ExternalOk any_fault ext} (faulty : gset Z)
    (σ : system (E := po_data (R := R))) (i j n m : Z) (s s' : ord_slot) (id : po_id)
    (Hfaulty : Z.of_nat (size faulty) <= NUM_F)
    (Hreach : reachable faulty σ) (Hcollide : collision_free (received σ))
    (Hi : correct faulty i) (Hj : correct faulty j)
    (Hs : History (node σ i) !! n = Some s) (Hs' : History (node σ j) !! m = Some s')
    (Hid : id ∈ po_slot_list s) (Hid' : id ∈ po_slot_list s') :
  n = m /\ NoDup (po_slot_list s).
Proof.
  pose proof (executor_reachable_inv ok faulty σ Hreach) as Hinv. split.
  - destruct (Z.lt_trichotomy n m) as [Hnm|[?|Hnm]]; [exfalso|assumption|exfalso].
    + exact (executed_once ok faulty Hfaulty σ i j n m s s' id Hcollide Hinv Hi Hj Hs Hs' Hid Hid' Hnm).
    + exact (executed_once ok faulty Hfaulty σ j i m n s' s id Hcollide Hinv Hj Hi Hs' Hs Hid' Hid Hnm).
  - destruct (executed_list faulty σ i n s id Hinv Hi Hs Hid) as (_ & [l Hl] & _).
    apply (NoDup_app (po_slot_list s) l). rewrite <- Hl. apply NoDup_requests.
Qed.

Lemma first_executed :
  po_slot_list (exec_slot 2 1) = [first_id] /\ po_slot_list (exec_slot 5 1) = [first_id].
Proof. split; vm_compute; reflexivity. Qed.

Lemma request_executed_once_witness : 1 = 1 /\ NoDup (po_slot_list (exec_slot 2 1)).
Proof.
  apply (@request_executed_once prefix_digest prefix_digest_ok blank_signer unit quiet (quiet_ok _) {[6]} exec_end 2 5 1 1
           (exec_slot 2 1) (exec_slot 5 1) first_id).
  - rewrite size_singleton. vm_compute. discriminate.
  - exact exec_end_reachable.
  - apply collision_freeb_spec. vm_compute. reflexivity.
  - apply order_is_correct_spec. vm_compute. reflexivity.
  - apply order_is_correct_spec. vm_compute. reflexivity.
  - vm_compute. reflexivity.
  - vm_compute. reflexivity.
  - rewrite (proj1 first_executed). left.
  - rewrite (proj2 first_executed). left.
Defined.

(** C12. The execution of an ordered slot, when nothing stops it, is whole and in
    turn: the slot is the one after ARU, ARU moves to it, and its list holds, in
    order, the PO-Requests between the vector its Pre-Prepare starts from and the
    one it makes eligible. *)
Theorem slot_executed_whole {crypto : Crypto} (ok : CryptoOk crypto) {signer : Signer} {R : Type}
    {ext : External R} {ext_ok : ExternalOk any_fault ext} (faulty : gset Z)
    (σ : system (E := po_data (R := R))) (i n : Z) (s : ord_slot) (r' : order_state)
    (Hreach : reachable faulty σ) (Hi : correct faulty i)
    (Hs : History (node σ i) !! n = Some s) (Ho : ordered s = true)
    (Hrun : execute_slot (Init_VAR i) n (node σ i) = Ret (tt, r')) :
  n = ARU (node σ i) + 1 /\ ARU r' = n /\
  exists s', History r' !! n = Some s' /\ executed s' = true /\
    po_slot_list s' = requests_of (starts_from n s) (made_eligible s).
Proof.
  pose proof (executor_reachable_inv ok faulty σ Hreach) as Hinv.
  pose proof (wp_execute_slot any_fault (fun _ _ => I) (Init_VAR i) (quorum_ok i) _ _ _ _ n s (Hinv i Hi) Hs Ho) as H.
  apply (wp_Ret _ _ _ _ _ _ H) in Hrun as [En [_ _ EA (s' & Es' & He & _ & _ & _ & Hl)]].
  split; [exact En|]. split; [exact EA|]. exists s'. rewrite app_nil_r in Hl. auto.
Qed.

Lemma late_executes : exists r', execute_slot (Init_VAR 2) 1 (node late_end 2) = Ret (tt, r').
Proof.
  assert (H : match execute_slot (Init_VAR 2) 1 (node late_end 2) with Ret _ => true | Fault _ => false end = true)
    by (vm_compute; reflexivity).
  destruct (execute_slot _ _ _) as [[[] r']|f]; [eauto|discriminate].
Qed.

Lemma slot_executed_whole_witness :
  exists r', execute_slot (Init_VAR 2) 1 (node late_end 2) = Ret (tt, r') /\
    exists s', History r' !! 1 = Some s' /\ executed s' = true /\ po_slot_list s' = [first_id].
Proof.
  destruct late_executes as [r' E]. exists r'. split; [exact E|].
  destruct (@slot_executed_whole prefix_digest prefix_digest_ok blank_signer unit quiet (quiet_ok _) {[6]} late_end 2 1
              late_slot r') as (_ & _ & s' & Es' & He & Hr).
  - exact late_end_reachable.
  - apply order_is_correct_spec. vm_compute. reflexivity.
  - vm_compute. reflexivity.
  - vm_compute. reflexivity.
  - exact E.
  - exists s'. split; [exact Es'|]. split; [exact He|]. rewrite Hr. vm_compute. reflexivity.
Defined.

(** Faults of the code, not of the model. *)
Definition real_fault (f : fault) : Prop := f <> OutOfFuel.

Lemma external_any {crypto : Crypto} {R : Type} F (ext : External R) : ExternalOk F ext -> ExternalOk any_fault ext.
Proof.
  intros [H1 H2 H3 H4 H5]. split; intros; try (intros r); (eapply wp_fault; [intros f _; exact I|]);
    first [apply H1 | apply H2 | apply H3 | apply H4 | apply H5]; assumption.
Qed.

(** C21. Execution ends: while its view lasts, a correct replica that executes an
    ordered slot, and then all that waited for it, or that wakes up to execute what
    waits, returns or stops at a fault of the code; the recursion takes one turn
    per waiting slot, so that the fuel of the model, two more than the slots there
    are, is never used up. *)
Theorem execution_terminates {crypto : Crypto} (ok : CryptoOk crypto) {signer : Signer} {R : Type}
    {ext : External R} {ext_ok : ExternalOk real_fault ext} (faulty : gset Z)
    (σ : system (E := po_data (R := R))) (i : Z)
    (Hreach : reachable faulty σ) (Hi : correct faulty i) (Hview : view_change_done (node σ i) = true) :
  ORDER_Attempt_To_Execute_Pending_Commits (Init_VAR i) (node σ i) <> Fault OutOfFuel /\
  forall n s, History (node σ i) !! n = Some s -> ordered s = true ->
    ORDER_Execute_Commit (Init_VAR i) n (node σ i) <> Fault OutOfFuel.
Proof.
  pose proof (external_any real_fault ext ext_ok) as Hany.
  pose proof (executor_reachable_inv ok faulty σ Hreach i Hi) as Hinv.
  assert (Hset : settled real_fault (node σ i)) by (right; exact Hview).
  assert (Hend : forall (m : comp (order_state (E := po_data (R := R))) unit) Q r,
    wp real_fault m Q r -> m r <> Fault OutOfFuel).
  { intros m Q r H E. unfold wp in H. rewrite E in H. apply H. reflexivity. }
  split; [|intros n s Hs Ho]; eapply Hend.
  - cbn [ORDER_Attempt_To_Execute_Pending_Commits executor].
    apply (wp_Execute_Pending ok real_fault (fun _ H => H) (Init_VAR i) (quorum_ok i) _ _ _ _ Hinv Hset).
  - apply (wp_Execute_Commit ok real_fault (fun _ H => H) (Init_VAR i) (quorum_ok i) _ _ _ _ n s Hinv Hs Ho Hset).
Qed.

Lemma execution_terminates_witness :
  ORDER_Attempt_To_Execute_Pending_Commits (Init_VAR 2) (node late_end 2) <> Fault OutOfFuel /\
  ORDER_Execute_Commit (Init_VAR 2) 1 (node late_end 2) <> Fault OutOfFuel.
Proof.
  destruct (@execution_terminates prefix_digest prefix_digest_ok blank_signer unit quiet (quiet_ok _) {[6]} late_end 2)
    as [H1 H2].
  - exact late_end_reachable.
  - apply order_is_correct_spec. vm_compute. reflexivity.
  - vm_compute. reflexivity.
  - split; [exact H1|]. apply (H2 1 late_slot); vm_compute; reflexivity.
Defined.

(** ** The events of a slot *)
(** An event answered to the application as number [k] of [tot] of the slot. *)
Definition answers (ord_num tot : Z) (k : nat) (event : list byte) (c : client_response) : Prop :=
  word_at event 4 o_signed_message_type = Some (type_val UPDATE) /\
  word_at event 4 o_signed_message_machine_id = Some (cr_machine_id c) /\
  word_at event 4 o_signed_message_incarnation = Some (cr_incarnation c) /\
  word_at event 4 (o_signed_update_message_update + o_update_message_seq_num) = Some (cr_seq_num c) /\
  slice event o_signed_update_message_update_contents UPDATE_SIZE = Some (cr_content c) /\
  cr_ord_num c = ord_num /\ cr_event_idx c = Z.of_nat k + 1 /\ cr_event_tot c = tot.

Lemma wp_Execute_Event {R} event ord_num idx tot (r : order_state (E := po_data (R := R))) :
  wp any_fault (ORDER_Execute_Event event ord_num idx tot)
    (fun _ r' => exists c, r' = act (Respond c) r /\ cr_event_idx c = idx /\
       forall k, idx = Z.of_nat k + 1 -> answers ord_num tot k event c) r.
Proof.
  unfold ORDER_Execute_Event. apply wp_bind, wp_load; [exact I|]. intros type Ht.
  apply wp_bind. unfold assert_. destruct (Z.eqb_spec type (type_val UPDATE)) as [->|]; [apply wp_ret|exact I].
  apply wp_bind, wp_load; [exact I|]. intros mid Hm. apply wp_bind, wp_load; [exact I|]. intros inc Hinc.
  apply wp_bind, wp_load; [exact I|]. intros q Hq. apply wp_bind, wp_load_bytes; [exact I|]. intros content Hc.
  apply wp_modify. eexists. split; [reflexivity|]. split; [reflexivity|]. intros k ->. repeat split; assumption.
Qed.

Lemma wp_execute_events {R} ord_num tot events : forall (k : nat) (r : order_state (E := po_data (R := R))),
  wp any_fault (execute_events events ord_num (Z.of_nat k) tot)
    (fun _ r' => exists cs, actions r' = actions r ++ map Respond cs /\
       Forall2 (fun j '(event, c) => answers ord_num tot j event c) (seq k (length events)) (zip events cs) /\
       length cs = length events) r.
Proof.
  induction events as [|event events IH]; intros k r; cbn [execute_events].
  - apply wp_ret. exists []. split; [cbn; rewrite app_nil_r; reflexivity|]. split; [constructor|reflexivity].
  - apply wp_bind. eapply wp_conseq; [apply wp_Execute_Event|]. cbv beta. intros _ r1 (c & -> & _ & Hc).
    replace (Z.of_nat k + 1) with (Z.of_nat (S k)) by lia.
    eapply wp_conseq; [apply IH|]. cbv beta. intros _ r2 (cs & Ha & Hall & Hl). exists (c :: cs).
    split; [rewrite Ha; cbn; rewrite <- app_assoc; reflexivity|].
    split; [|cbn; congruence]. cbn [length seq zip zip_with]. constructor; [|exact Hall]. apply Hc. lia.
Qed.

(** The events of an executed slot reach the application in order and once
    each: every event gives one answer, with its own number, the number of events
    and the slot's sequence number, and the contents of its update; an event that
    is not an UPDATE stops the program. *)
Theorem events_answered_in_order {R} ord_num tot events (r r' : order_state (E := po_data (R := R)))
    (Hrun : execute_events events ord_num 0 tot r = Ret (tt, r')) :
  exists cs, actions r' = actions r ++ map Respond cs /\ length cs = length events /\
    forall k event c, events !! k = Some event -> cs !! k = Some c -> answers ord_num tot k event c.
Proof.
  destruct (wp_Ret _ _ _ _ _ _ (wp_execute_events ord_num tot events 0 r) Hrun) as (cs & Ha & Hall & Hl).
  exists cs. split; [exact Ha|]. split; [exact Hl|]. intros k event c He Hc.
  assert (Hz : zip events cs !! k = Some (event, c)) by (apply lookup_zip_with_Some; exists event, c; auto).
  destruct (Forall2_lookup_r _ _ _ _ _ Hall Hz) as (j & Hj & H).
  apply lookup_seq in Hj as [-> _]. exact H.
Qed.

Lemma events_answered_in_order_witness :
  exists c, actions (match execute_events [toy_event; toy_event] 4 0 2 exec_start with
                     | Ret (_, r) => r | Fault _ => exec_start end) !! 1%nat = Some (Respond c) /\
    cr_ord_num c = 4 /\ cr_event_idx c = 2 /\ cr_event_tot c = 2 /\ cr_seq_num c = 7.
Proof.
  destruct (execute_events [toy_event; toy_event] 4 0 2 exec_start) as [[[] r']|f] eqn:E;
    [|vm_compute in E; discriminate].
  destruct (events_answered_in_order 4 2 [toy_event; toy_event] exec_start r' E) as (cs & Ha & Hl & H).
  destruct cs as [|c0 [|c [|]]]; try discriminate Hl. exists c.
  destruct (H 1%nat toy_event c eq_refl eq_refl) as (_ & _ & _ & Hq & _ & H1 & H2 & H3).
  rewrite Ha. split; [reflexivity|]. repeat split; auto.
  assert (E7 : word_at toy_event 4 (o_signed_update_message_update + o_update_message_seq_num) = Some 7)
    by (vm_compute; reflexivity).
  rewrite E7 in Hq. congruence.
Defined.
