(* ===== verification/ReconSends.v ===== *)
(** Who sends a PO-Request in reconciliation, and what is sent.

    Of the servers whose acknowledgement in the matrix is not below the f+k+1st
    lowest, at least 2f+k+1, the first 2f+k+1 send ([senders_enough]), and each of
    them acknowledged all the matrix makes eligible ([eligible_below]).  What
    [send_eligible] says is exactly what the chosen owe ([wp_send_eligible]). *)
From Stdlib Require Import ZArith Lia List Bool.
From Stdlib Require Import Strings.Byte.
From stdpp Require Import base list gmap.
From S2P Require Import Prelude Memory Config Packets Crypto Utility Eligibility EligibilityCorrect OrderState PreOrderState Order OrderCorrect OrderHandlers OrderFrame PreOrder PreOrderCorrect Recon ReconCorrect Execute ExecuteCorrect.

(** ** The first so many flags *)
Definition senders_needed : Z := 2 * NUM_F + NUM_K + 1.

(** [c] flags were seen before. *)
Fixpoint picks (flags : list bool) (c : Z) : list bool :=
  match flags with
  | [] => []
  | b :: flags =>
      let c := if b then c + 1 else c in
      b :: (if c =? senders_needed then replicate (length flags) false else picks flags c)
  end.

Definition count_true (l : list bool) : Z := Z.of_nat (length (filter (fun b => b = true) l)).

Lemma count_true_cons b l : count_true (b :: l) = (if b then 1 else 0) + count_true l.
Proof. unfold count_true. rewrite filter_cons. destruct b; case_decide; cbn [length]; try congruence; lia. Qed.

Lemma count_true_none n : count_true (replicate n false) = 0.
Proof. induction n as [|n IH]; [reflexivity|]. cbn [replicate]. rewrite count_true_cons. exact IH. Qed.

Lemma count_true_map {A} (f : A -> bool) l : Z.of_nat (length (filter (fun a => f a = true) l)) = count_true (map f l).
Proof.
  induction l as [|a l IH]; [reflexivity|]. cbn [map]. rewrite count_true_cons, filter_cons, <- IH.
  destruct (f a); case_decide; cbn [length]; try congruence; lia.
Qed.

Lemma picks_count flags : forall c, c < senders_needed ->
  senders_needed - c <= count_true flags -> count_true (picks flags c) = senders_needed - c.
Proof.
  induction flags as [|b flags IH]; intros c Hc Hn; [change (count_true []) with 0 in Hn; lia|].
  cbn [picks]. rewrite count_true_cons in *. destruct b.
  - destruct (Z.eqb_spec (c + 1) senders_needed) as [E|E]; [rewrite count_true_none; lia|].
    rewrite IH; lia.
  - destruct (Z.eqb_spec c senders_needed) as [E|E]; [lia|]. rewrite IH; lia.
Qed.

(** The walk of the code, for the server at position [k] of the flags. *)
Lemma among_first_picks VAR flags : forall s c k,
  My_Server_ID VAR = s + Z.of_nat k ->
  picks flags c !! k = (fun b => b && among_first VAR flags s c) <$> flags !! k.
Proof.
  induction flags as [|b flags IH]; intros s c [|k] Hs; cbn [picks among_first]; try reflexivity.
  - replace (s =? My_Server_ID VAR) with true by (symmetry; apply Z.eqb_eq; lia).
    cbn. rewrite andb_true_r. reflexivity.
  - replace (s =? My_Server_ID VAR) with false by (symmetry; apply Z.eqb_neq; lia).
    cbn [lookup list_lookup]. change (2 * NUM_F + NUM_K + 1) with senders_needed.
    destruct (_ =? senders_needed); [|apply IH; lia].
    destruct (flags !! k) as [x|] eqn:Ex; cbn [fmap option_fmap option_map].
    + rewrite andb_false_r. apply lookup_replicate_2. apply lookup_lt_Some in Ex. exact Ex.
    + apply lookup_replicate_None, lookup_ge_None, Ex.
Qed.

(** ** Those who send *)
Definition not_below (least a : po_seq_pair) : bool := 0 <=? PRE_ORDER_Seq_Compare a least.

Lemma not_below_spec least a : not_below least a = true <-> pair_le least a.
Proof.
  unfold not_below. rewrite pair_le_spec.
  destruct (Seq_Compare_cases a least) as [[-> H]|[[-> ->]|[-> H]]]; cbn; unfold ps_lt in *;
    (split; [intros|]; try discriminate; try lia; reflexivity).
Qed.

(** What [RECON_Do_I_Send_Erasure] answers for a column. *)
Definition sends (VAR : server_variables) (col : list po_seq_pair) : bool :=
  match aget (sort_pairs col) (NUM_F + NUM_K) with
  | Some least =>
      let flags := map (not_below least) col in
      match aget flags (My_Server_ID VAR - 1) with
      | Some b => b && among_first VAR flags 1 0
      | None => false
      end
  | None => false
  end.

Definition senders (col : list po_seq_pair) : list Z :=
  filter (fun s => sends (Init_VAR s) col = true) (seqZ 1 NUM_SERVERS).

Section Column.
Context (col : list po_seq_pair) (Hlen : Z.of_nat (length col) = NUM_SERVERS).

Lemma least_ex : exists least, aget (sort_pairs col) (NUM_F + NUM_K) = Some least /\
  sort_pairs col !! Z.to_nat (NUM_F + NUM_K) = Some least.
Proof.
  assert (Hl : length (sort_pairs col) = length col) by (rewrite sort_pairs_perm; reflexivity).
  destruct (aget_is_Some (sort_pairs col) (NUM_F + NUM_K)) as [least E];
    [rewrite Hl, Hlen; vm_compute; split; [discriminate|reflexivity]|].
  exists least. split; [exact E|]. unfold aget in E. destruct (in_bounds _ _); [exact E|discriminate].
Qed.

(** Those that are not below the least of them are 2f+k+1 or more. *)
Lemma enough_not_below least :
  sort_pairs col !! Z.to_nat (NUM_F + NUM_K) = Some least -> senders_needed <= count_true (map (not_below least) col).
Proof.
  intros E. rewrite <- count_true_map.
  assert (Hp : filter (fun a => not_below least a = true) (sort_pairs col) ≡ₚ filter (fun a => not_below least a = true) col)
    by (rewrite (sort_pairs_perm col); reflexivity).
  rewrite <- Hp. apply (Nat2Z.inj_le 4). apply (filter_ge _ _ 2). intros i Hi.
  assert (Hl : length (sort_pairs col) = length col) by (rewrite sort_pairs_perm; reflexivity).
  destruct (lookup_lt_is_Some_2 (sort_pairs col) i) as [x Ex]; [rewrite Hl; change NUM_SERVERS with 6 in Hlen; lia|].
  exists x. split; [exact Ex|]. apply not_below_spec.
  eapply sort_pairs_sorted; [|exact E|exact Ex]. change (Z.to_nat (NUM_F + NUM_K)) with 2%nat. lia.
Qed.

Lemma sends_picks least : aget (sort_pairs col) (NUM_F + NUM_K) = Some least ->
  map (fun s => sends (Init_VAR s) col) (seqZ 1 NUM_SERVERS) = picks (map (not_below least) col) 0.
Proof.
  intros E. apply list_eq. intros k. rewrite list_lookup_fmap.
  destruct (decide (k < 6)%nat) as [Hk|Hk].
  - rewrite lookup_seqZ_lt by (change NUM_SERVERS with 6; lia). cbn [fmap option_fmap option_map].
    rewrite (among_first_picks (Init_VAR (1 + Z.of_nat k)) _ 1 0 k) by reflexivity.
    unfold sends. rewrite E. cbv zeta. cbn [My_Server_ID Init_VAR].
    replace (1 + Z.of_nat k - 1) with (Z.of_nat k) by lia.
    destruct (aget_is_Some (map (not_below least) col) (Z.of_nat k)) as [b Eb];
      [rewrite length_map, Hlen; change NUM_SERVERS with 6; lia|].
    rewrite Eb. unfold aget in Eb. destruct (in_bounds _ _); [|discriminate]. rewrite Nat2Z.id in Eb. rewrite Eb. reflexivity.
  - rewrite lookup_seqZ_ge by (change NUM_SERVERS with 6; lia). symmetry. apply lookup_ge_None.
    assert (Hpl : forall flags c, length (picks flags c) = length flags).
    { induction flags as [|b flags IH]; intros c; [reflexivity|]. cbn [picks length]. f_equal.
      destruct (_ =? _); [apply length_replicate|apply IH]. }
    rewrite Hpl, length_map. change NUM_SERVERS with 6 in Hlen. lia.
Qed.

Lemma senders_enough : Z.of_nat (length (senders col)) = senders_needed.
Proof.
  destruct least_ex as (least & E & E'). unfold senders. rewrite count_true_map, (sends_picks least E).
  rewrite picks_count; [lia|reflexivity|]. apply enough_not_below, E'.
Qed.

(** A sender's own acknowledgement. *)
Lemma sends_not_below s a : 1 <= s <= NUM_SERVERS -> sends (Init_VAR s) col = true -> aget col (s - 1) = Some a ->
  exists least, aget (sort_pairs col) (NUM_F + NUM_K) = Some least /\ pair_le least a.
Proof.
  intros Hs H Ea. unfold sends in H. destruct (aget (sort_pairs col) _) as [least|]; [|discriminate].
  exists least. split; [reflexivity|]. cbv zeta in H. cbn [My_Server_ID Init_VAR] in H.
  unfold aget, in_bounds in H, Ea. rewrite length_map in H. destruct (_ && _) in H, Ea; [|discriminate].
  rewrite list_lookup_fmap, Ea in H. cbn in H. apply andb_true_iff in H as [H _]. apply not_below_spec, H.
Qed.

(** What the march finds is not above the least acknowledgement of a sender. *)
Lemma eligible_below VAR e least : VF VAR = NUM_F -> VK VAR = NUM_K ->
  found VAR col e -> sort_pairs col !! Z.to_nat (NUM_F + NUM_K) = Some least -> pair_le e least.
Proof.
  intros EF EK (_ & Hsup & _) E. rewrite (supporters_perm _ _ _ (sort_pairs col)) in Hsup by (rewrite sort_pairs_perm; reflexivity).
  rewrite EF, EK in Hsup. unfold supporters in Hsup.
  destruct (decide (pair_le e least)) as [H|H]; [exact H|exfalso].
  pose proof (filter_le (fun x => incarnation x = incarnation e /\ seq_num e <= seq_num x) (sort_pairs col) 3 3) as Hle.
  change (2 * NUM_F + NUM_K + 1) with 4 in Hsup. 
  match type of Hsup with _ <= Z.of_nat ?n => enough (Hn : Nat.le n 3) by lia end.
  apply Hle. intros i x Ex [Hi Hx]. apply lookup_lt_Some in Ex as Hlt.
  assert (Hl : length (sort_pairs col) = length col) by (rewrite sort_pairs_perm; reflexivity).
  change NUM_SERVERS with 6 in Hlen. split; [|lia].
  destruct (decide (3 <= i)%nat) as [|Hi3]; [assumption|exfalso]. apply H.
  assert (Hxl : pair_le x least) by (eapply sort_pairs_sorted; [|exact Ex|exact E]; change (Z.to_nat (NUM_F + NUM_K)) with 2%nat; lia).
  rewrite pair_le_spec in *. lia.
Qed.
End Column.

(** ** What is sent *)
Section Sends.
Context {crypto : Crypto} {signer : Signer} {R : Type} (VAR : server_variables).

Abbreviation state := (order_state (E := po_data (R := R))).
Implicit Types r : state.

(** The pair at [p]. *)
Definition pair_at (buf : list byte) (p : Z) (ps : po_seq_pair) : Prop :=
  word_at buf 4 (p + o_po_seq_pair_incarnation) = Some (incarnation ps) /\
  word_at buf 4 (p + o_po_seq_pair_seq_num) = Some (seq_num ps).

(** The request a PO-Request is, by its header. *)
Definition names (req : list byte) (id : po_id) : Prop :=
  word_at req 4 o_signed_message_machine_id = Some (po_server_id id) /\
  pair_at req (sz_signed_message + o_po_request_message_seq) (po_pair id).

(** The latest PO-ARU of [k] does not cover the request. *)
Definition behind r (k : Z) (id : po_id) : Prop :=
  exists row a, aget (cum_max_acked (others r)) k = Some row /\ aget row (po_server_id id) = Some a /\
    ps_lt a (po_pair id).

(** Under request [id] lies a PO-Request that names [id'], and this replica is to
    send it to [k]. *)
Definition owed (matrix : list byte) r (id : po_id) (a : action) : Prop :=
  exists p req id' col k,
    PO_History (others r) !! id = Some p /\ po_request p = Some req /\ names req id' /\
    column_of matrix (po_server_id id') col /\ sends VAR col = true /\
    1 <= k <= NUM_SERVERS /\ k <> po_server_id id' /\ behind r k id' /\ a = Send_To_Server k req.

#[local] Instance behind_dec r k id : Decision (behind r k id).
Proof.
  refine (match aget (cum_max_acked (others r)) k ≫= (fun row => aget row (po_server_id id)) as x
            return aget (cum_max_acked (others r)) k ≫= (fun row => aget row (po_server_id id)) = x -> _ with
          | Some a => fun E => if decide (ps_lt a (po_pair id)) then left _ else right _
          | None => fun E => right _
          end eq_refl); unfold behind in *.
  - apply bind_Some in E as (row & Er & Ea). exists row, a. auto.
  - intros (row & a' & Er & Ea & H). rewrite Er in E. cbn in E. congruence.
  - intros (row & a' & Er & Ea & H). rewrite Er in E. cbn in E. congruence.
Defined.

(** The PO-Request [req] to those of the servers [ks] that lack it, in their order. *)
Definition to_those_behind r (req : list byte) (id : po_id) (ks : list Z) : list action :=
  map (fun k => Send_To_Server k req) (filter (fun k => k <> po_server_id id /\ behind r k id) ks).

(** What this replica sends for request [id]. *)
Definition reply_for (matrix : list byte) r (id : po_id) (l : list action) : Prop :=
  match PO_History (others r) !! id ≫= po_request with
  | None => l = []
  | Some req => exists o col, word_at req 4 o_signed_message_machine_id = Some o /\ column_of matrix o col /\
      if sends VAR col then exists id', names req id' /\ l = to_those_behind r req id' (seqZ 1 NUM_SERVERS) else l = []
  end.

(** What it sends for the requests [ids], in their order. *)
Definition replies (matrix : list byte) r (ids : list po_id) (l : list action) : Prop :=
  exists ls, Forall2 (reply_for matrix r) ids ls /\ l = concat ls.

(** A replica that has sent [l], and done nothing else. *)
Definition say (l : list action) (r : state) : state := fold_left (fun r a => act a r) l r.

Lemma say_app l1 l2 r : say (l1 ++ l2) r = say l2 (say l1 r).
Proof. apply fold_left_app. Qed.

Lemma say_facts l : forall r, others (say l r) = others r /\ History (say l r) = History r /\ actions (say l r) = actions r ++ l.
Proof.
  induction l as [|a l IH]; intros r; [rewrite app_nil_r; auto|]. cbn [say fold_left].
  destruct (IH (act a r)) as (A & B & C). unfold say in *. rewrite A, B, C. cbn [actions act others History]. rewrite <- app_assoc. auto.
Qed.

Definition says (P : list action -> Prop) r r' : Prop := exists l, P l /\ r' = say l r.

Lemma behind_same r r' k id : others r' = others r -> behind r' k id <-> behind r k id.
Proof. unfold behind. intros ->. reflexivity. Qed.

Lemma to_those_same r r' req id ks : others r' = others r -> to_those_behind r' req id ks = to_those_behind r req id ks.
Proof.
  intros E. unfold to_those_behind. f_equal. apply list_filter_iff. intros k. rewrite (behind_same r r' k id E). reflexivity.
Qed.

Lemma replies_same matrix r r' ids l : others r' = others r -> replies matrix r' ids l -> replies matrix r ids l.
Proof.
  intros E (ls & H & ->). exists ls. split; [|reflexivity]. eapply Forall2_impl; [exact H|]. intros id l0.
  unfold reply_for. rewrite E. destruct (_ ≫= _) as [req|]; [|auto]. intros (o & col & Ho & Hc & Hl).
  exists o, col. split; [exact Ho|]. split; [exact Hc|]. destruct (sends VAR col); [|exact Hl].
  destruct Hl as (id' & Hn & ->). exists id'. rewrite (to_those_same r r') by exact E. auto.
Qed.

(** ** Reading *)
Lemma pair_at_fun buf p ps ps' : pair_at buf p ps -> pair_at buf p ps' -> ps = ps'.
Proof. intros [A B] [A' B']. destruct ps, ps'. cbn in *. congruence. Qed.

Lemma names_fun req id id' : names req id -> names req id' -> id = id'.
Proof.
  intros [A B] [A' B']. pose proof (pair_at_fun _ _ _ _ B B') as Hp. destruct id, id'. cbn in *. congruence.
Qed.

Lemma wp_load_pair buf p Q r :
  (forall ps, pair_at buf p ps -> Q ps r) -> wp any_fault (load_pair buf p) Q r.
Proof.
  intros H. apply wp_bind, wp_load; [exact I|]. intros i Ei. apply wp_bind, wp_load; [exact I|]. intros q Eq.
  apply wp_ret, H. split; assumption.
Qed.

Lemma wp_Do_I_Send machine_id matrix Q r :
  (forall col, column_of matrix machine_id col -> Q (sends VAR col) r) ->
  wp any_fault (RECON_Do_I_Send_Erasure VAR machine_id matrix) Q r.
Proof.
  intros H. apply wp_bind. eapply wp_conseq.
  - apply (wp_map_comp any_fault _ (acknowledges matrix machine_id)). intros k _. unfold ack_for. cbv zeta.
    apply wp_bind, wp_load; [exact I|]. intros i Ei. apply wp_bind, wp_load; [exact I|]. intros q Eq.
    apply wp_ret. split; [reflexivity|]. split; assumption.
  - cbv beta. intros col t [-> Hcol]. specialize (H col Hcol). unfold sends in H.
    apply wp_bind, wp_bind, wp_or_oob; [exact I|]. intros least El. rewrite El in H. apply wp_ret.
    cbv zeta in H. apply wp_bind, wp_or_oob; [exact I|]. intros b Eb.
    change (map (fun a => 0 <=? PRE_ORDER_Seq_Compare a least) col) with (map (not_below least) col) in *.
    rewrite Eb in H. apply wp_ret. exact H.
Qed.

(** ** The loops *)
Lemma wp_send_if_behind req id k r :
  wp any_fault (send_if_behind VAR req (po_server_id id) (po_pair id) k)
    (fun _ r' => r' = say (to_those_behind r req id [k]) r) r.
Proof.
  apply wp_bind, wp_bind, wp_get, wp_ret. apply wp_bind, wp_or_oob; [exact I|]. intros row Er.
  apply wp_bind, wp_or_oob; [exact I|]. intros acked Ea.
  assert (Hb : behind r k id <-> PRE_ORDER_Seq_Compare acked (po_pair id) < 0).
  { split.
    - intros (row' & a' & Er' & Ea' & H). assert (row' = row) by congruence. subst row'.
      assert (a' = acked) by congruence. subst a'. unfold ps_lt in H.
      destruct (Seq_Compare_cases acked (po_pair id)) as [[-> _]|[[_ ->]|[_ E]]]; unfold ps_lt in *; lia.
    - intros H. exists row, acked. split; [exact Er|]. split; [exact Ea|].
      destruct (Seq_Compare_cases acked (po_pair id)) as [[_ ?]|[[E _]|[E _]]]; [assumption|lia|lia]. }
  unfold to_those_behind. rewrite filter_cons, filter_nil. destruct (_ && _) eqn:Eb.
  - apply andb_true_iff in Eb as [E1%Z.ltb_lt E2%negb_true_iff%Z.eqb_neq].
    change (UTIL_I_Am_Faulty VAR =? 0) with true. cbv iota. apply wp_modify.
    rewrite decide_True by (split; [exact E2|apply Hb, E1]). reflexivity.
  - apply wp_ret. rewrite decide_False; [reflexivity|]. intros [Hne H%Hb].
    apply andb_false_iff in Eb as [E%Z.ltb_ge|E%negb_false_iff%Z.eqb_eq]; [lia|contradiction].
Qed.

Lemma wp_send_behind req id ks : forall r,
  wp any_fault (for_servers ks (send_if_behind VAR req (po_server_id id) (po_pair id)))
    (fun _ r' => r' = say (to_those_behind r req id ks) r) r.
Proof.
  induction ks as [|k ks IH]; intros r; cbn [for_servers]; [apply wp_ret; reflexivity|].
  apply wp_bind. eapply wp_conseq; [apply wp_send_if_behind|]. cbv beta. intros _ r1 H1.
  eapply wp_conseq; [apply IH|]. cbv beta. intros _ r2 ->.
  assert (E : to_those_behind r req id (k :: ks) = to_those_behind r req id [k] ++ to_those_behind r req id ks)
    by (unfold to_those_behind; rewrite <- map_app, <- filter_app; reflexivity).
  rewrite (to_those_same r r1) by (rewrite H1; apply say_facts). rewrite E, say_app, <- H1. reflexivity.
Qed.

Lemma wp_send_to_those_behind req r Q :
  (forall id, names req id -> Q tt (say (to_those_behind r req id (seqZ 1 NUM_SERVERS)) r)) ->
  wp any_fault (send_to_those_behind VAR req) Q r.
Proof.
  intros H. apply wp_bind, wp_load; [exact I|]. intros o Eo. apply wp_bind, wp_load_pair. intros ps Eps.
  eapply wp_conseq; [apply (wp_send_behind req (mkPoId o ps))|]. cbv beta. intros [] r' ->.
  exact (H (mkPoId o ps) (conj Eo Eps)).
Qed.

Lemma says_replies matrix ids1 ids2 r1 r2 r3 :
  says (replies matrix r1 ids1) r1 r2 -> says (replies matrix r2 ids2) r2 r3 ->
  says (replies matrix r1 (ids1 ++ ids2)) r1 r3.
Proof.
  intros (l1 & (ls1 & F1 & E1) & H1) (l2 & R2 & ->).
  apply (replies_same matrix r1) in R2 as (ls2 & F2 & E2); [|rewrite H1; apply say_facts].
  exists (l1 ++ l2). split; [|rewrite say_app, <- H1; reflexivity].
  exists (ls1 ++ ls2). split; [apply Forall2_app; assumption|]. rewrite concat_app. congruence.
Qed.

Lemma says_one matrix id l r : reply_for matrix r id l -> says (replies matrix r [id]) r (say l r).
Proof. intros H. exists l. split; [|reflexivity]. exists [l]. split; [repeat constructor; exact H|]. cbn. rewrite app_nil_r. reflexivity. Qed.

Lemma says_none matrix r : says (replies matrix r []) r r.
Proof. exists []. split; [|reflexivity]. exists []. split; [constructor|reflexivity]. Qed.

Lemma wp_send_request matrix i ps r :
  wp any_fault (send_request VAR matrix i ps) (fun _ r' => says (replies matrix r [mkPoId i ps]) r r') r.
Proof.
  unfold send_request, UTIL_Get_PO_Slot_If_Exists. apply wp_bind.
  destruct (negb _); [exact I|]. apply wp_bind, wp_bind, wp_get, wp_ret, wp_ret.
  destruct (PO_History (others r) !! mkPoId i ps ≫= po_request) as [req|] eqn:Ereq.
  2:{ apply wp_ret, (says_one _ _ []). unfold reply_for. rewrite Ereq. reflexivity. }
  apply wp_bind, wp_load; [exact I|]. intros o Eo. apply wp_bind, wp_Do_I_Send. intros col Hcol.
  assert (Hone : forall l, (if sends VAR col then exists id', names req id' /\ l = to_those_behind r req id' (seqZ 1 NUM_SERVERS) else l = []) ->
    says (replies matrix r [mkPoId i ps]) r (say l r)).
  { intros l Hl. apply says_one. unfold reply_for. rewrite Ereq. exists o, col. auto. }
  destruct (sends VAR col) eqn:Es.
  - apply wp_send_to_those_behind. intros id' Hn. apply Hone. exists id'. auto.
  - apply wp_ret. apply (Hone []). reflexivity.
Qed.

Lemma wp_send_requests matrix i inc js : forall r,
  wp any_fault (send_requests VAR matrix i inc js)
    (fun _ r' => says (replies matrix r (map (fun j => mkPoId i (mkPS inc j)) js)) r r') r.
Proof.
  induction js as [|j js IH]; intros r; cbn [send_requests map].
  - apply wp_ret, says_none.
  - apply wp_bind. eapply wp_conseq; [apply wp_send_request|]. cbv beta. intros _ r1 H1.
    eapply wp_conseq; [apply IH|]. cbv beta. intros _ r2 H2. exact (says_replies _ [_] _ _ _ _ H1 H2).
Qed.

Lemma wp_send_eligible matrix l : Forall (uncurry entry_ok) l -> forall i r,
  wp any_fault (send_eligible VAR matrix i l) (fun _ r' => says (replies matrix r (requests_from i l)) r r') r.
Proof.
  induction 1 as [|[prev cur] l Hpc _ IH]; intros i r; cbn [send_eligible].
  - apply wp_ret, says_none.
  - apply wp_bind. eapply wp_conseq; [apply run_eligible_seqs; [intros; exact I|exact Hpc]|]. cbv beta. intros js r0 [-> Hjs].
    apply wp_bind. eapply wp_conseq; [apply wp_send_requests|]. cbv beta. intros _ r1 H1. rewrite Hjs in H1.
    eapply wp_conseq; [apply IH|]. cbv beta. intros _ r2 H2. rewrite requests_from_cons. eapply says_replies; eassumption.
Qed.

(** ** Whom it is sent to *)
(** The requests of [ids]. *)
Definition all_owed (matrix : list byte) r (ids : list po_id) (a : action) : Prop :=
  exists id, id ∈ ids /\ owed matrix r id a.

Lemma reply_owed matrix r id l a : reply_for matrix r id l -> a ∈ l <-> owed matrix r id a.
Proof.
  unfold reply_for. intros H. split.
  - intros Ha. destruct (PO_History (others r) !! id) as [p|] eqn:Ep; cbn in H; [|subst l; inversion Ha].
    destruct (po_request p) as [req|] eqn:Er; [|subst l; inversion Ha].
    destruct H as (o & col & Ho & Hc & Hl). destruct (sends VAR col) eqn:Es; [|subst l; inversion Ha].
    destruct Hl as (id' & Hn & ->). apply list_elem_of_fmap in Ha as (k & -> & [[Hne Hb] Hk%elem_of_seqZ]%list_elem_of_filter).
    assert (E : po_server_id id' = o) by (destruct Hn; congruence). rewrite <- E in Hc.
    exists p, req, id', col, k. repeat (split; [assumption|]). split; [lia|]. auto.
  - intros (p & req & id' & col & k & Ep & Er & Hn & Hc & Hs & Hk & Hne & Hb & ->).
    rewrite Ep in H. cbn in H. rewrite Er in H. destruct H as (o & col' & Ho & Hc' & Hl).
    assert (E : po_server_id id' = o) by (destruct Hn; congruence). rewrite E in Hc.
    rewrite (column_of_fun _ _ _ _ Hc' Hc), Hs in Hl. destruct Hl as (id'' & Hn' & ->).
    rewrite (names_fun _ _ _ Hn' Hn). apply list_elem_of_fmap. exists k. split; [reflexivity|].
    apply list_elem_of_filter. split; [auto|]. apply elem_of_seqZ. lia.
Qed.

Lemma replies_owed matrix r ids l a : replies matrix r ids l -> a ∈ l <-> all_owed matrix r ids a.
Proof.
  intros (ls & H & ->). unfold all_owed. induction H as [|id l0 ids ls H _ IH]; cbn [concat].
  - rewrite elem_of_nil. split; [intros []|]. intros (id & Hid & _). apply elem_of_nil in Hid. exact Hid.
  - rewrite elem_of_app, IH, (reply_owed _ _ _ _ a H). setoid_rewrite elem_of_cons. naive_solver.
Qed.
End Sends.
