(* ===== verification/ReconParts.v ===== *)
(** RECON messages: what they can do as long as no more than f servers send any, and
    what one can do that is not well formed. *)
From Stdlib Require Import ZArith Lia List Bool.
From Stdlib Require Import Strings.Byte.
From stdpp Require Import base list gmap fin_sets.
From S2P Require Import Prelude Memory Config Packets Crypto Utility Eligibility EligibilityCorrect OrderState PreOrderState Order OrderCorrect OrderHandlers OrderSystem OrderProps OrderFrame PreOrder PreOrderCorrect Recon ReconCorrect Execute ExecuteCorrect ExecuteProps ReconSends Validate ValidateProps.

(** ** Well-formed messages *)
(** The part at [p]: an originator, and a part of an index and more that fits the
    row of a server and lies in the message. *)
Definition part_fits (recon : list byte) (p : Z) : option Z :=
  match word_at recon 4 (p + o_recon_part_header_originator), word_at recon 4 (p + o_recon_part_header_part_len) with
  | Some originator, Some part_len =>
      let next := p + sz_recon_part_header + part_len in
      if (1 <=? originator) && (originator <=? NUM_SERVERS) && (sz_erasure_part + 4 <=? part_len) &&
         (part_len <=? PRIME_MAX_PACKET_SIZE) && (next <=? Z.of_nat (length recon))
      then Some next else None
  | _, _ => None
  end.

Fixpoint parts_fit (num_parts : nat) (recon : list byte) (p : Z) : bool :=
  match num_parts with
  | O => true
  | S n => match part_fits recon p with Some next => parts_fit n recon next | None => false end
  end.

(** The sender is a server, and the parts it says there are fit. *)
Definition recon_fits (recon : list byte) : bool :=
  match word_at recon 4 o_signed_message_machine_id, word_at recon 4 sz_signed_message with
  | Some sender, Some num_parts =>
      (1 <=? sender) && (sender <=? NUM_SERVERS) &&
      parts_fit (Z.to_nat num_parts) recon (sz_signed_message + sz_recon_message)
  | _, _ => false
  end.

Definition sender_of (recon : list byte) : Z := default 0 (word_at recon 4 o_signed_message_machine_id).

(** ** What was received *)
(** The parts of a request came from the servers [C], all of [Q], and were not decoded. *)
Record parts_of (Q : gset Z) (slot : recon_slot) : Prop := {
  po_decoded : decoded slot = false;
  po_flags : Z.of_nat (length (part_collected slot)) = NUM_SERVER_SLOTS;
  po_rows : Z.of_nat (length (parts slot)) = NUM_SERVER_SLOTS;
  po_row : Forall (fun row => Z.of_nat (length row) = PRIME_MAX_PACKET_SIZE) (parts slot);
  po_from : exists C : gset Z, C ⊆ Q /\ recon_parts_collected slot = Z.of_nat (size C) /\
    forall j, aget (part_collected slot) j = Some true <-> j ∈ C }.

Definition parts_ok (Q : gset Z) (h : gmap po_id recon_slot) : Prop :=
  forall id slot, h !! id = Some slot -> parts_of Q slot.

Lemma parts_of_new Q : parts_of Q new_recon_slot.
Proof.
  split; try reflexivity.
  - apply Forall_forall. intros row Hrow. apply list_elem_of_In, repeat_spec in Hrow as ->. reflexivity.
  - exists ∅. split; [set_solver|]. split; [reflexivity|]. intros j. split; [|set_solver].
    unfold aget, new_recon_slot, per_server_slot. cbn [part_collected]. destruct (in_bounds _ _); [|discriminate].
    intros H%list_elem_of_lookup_2%list_elem_of_In%repeat_spec. discriminate.
Qed.

(** A part of another server. *)
Lemma parts_of_add Q slot j row rows collected d :
  parts_of Q slot -> j ∈ Q -> aget (part_collected slot) j = Some false ->
  Z.of_nat (length row) = PRIME_MAX_PACKET_SIZE ->
  aset (part_collected slot) j true = Some collected -> aset (parts slot) j row = Some rows ->
  Z.of_nat (size Q) <= NUM_F ->
  d = false -> parts_of Q (mkReconSlot d (recon_parts_collected slot + 1) collected rows) /\
  recon_parts_collected slot + 1 <= NUM_F.
Proof.
  intros [H1 H2 H3 H4 (C & HC & Hn & Hf)] Hj Hfalse Hrow Ec Er HQ ->.
  assert (HjC : j ∉ C) by (intros Hin; apply Hf in Hin; congruence).
  assert (Hs : size ({[j]} ∪ C) = S (size C)) by (rewrite size_union by set_solver; rewrite size_singleton; reflexivity).
  assert (HCQ : {[j]} ∪ C ⊆ Q) by set_solver.
  split.
  - split; cbn; try reflexivity.
    + rewrite (aset_length _ _ _ _ Ec). exact H2.
    + rewrite (aset_length _ _ _ _ Er). exact H3.
    + exact (aset_Forall _ _ _ _ _ Er H4 Hrow).
    + exists ({[j]} ∪ C). split; [exact HCQ|]. split; [lia|]. intros k.
      rewrite (aget_aset _ _ _ _ _ Ec). destruct (Z.eq_dec j k) as [->|Hne]; [split; [set_solver|reflexivity]|].
      rewrite Hf. set_solver.
  - pose proof (subseteq_size _ _ HCQ). lia.
Qed.

(** ** One part *)
Section Parts.
Context {crypto : Crypto} {signer : Signer} {R : Type} (VAR : server_variables).
Context (Q : gset Z) (HQ : Z.of_nat (size Q) <= NUM_F).

Abbreviation state := (order_state (E := po_data (R := R))).
Implicit Types r : state.

Definition set_parts (h : gmap po_id recon_slot) r : state := set_others (with_Recon_History h (others r)) r.

(** Only what was received has changed. *)
Definition received r r' : Prop := exists h, r' = set_parts h r /\ parts_ok Q h.

Definition tables_ok r : Prop :=
  Z.of_nat (length (aru (others r))) = NUM_SERVER_SLOTS /\
  Z.of_nat (length (white_line (others r))) = NUM_SERVER_SLOTS /\ parts_ok Q (Recon_History (others r)).

Lemma received_refl r : tables_ok r -> received r r.
Proof. intros (_ & _ & H). exists (Recon_History (others r)). split; [destruct r as [? ? ? ? ? ? ? ? ? ? ? ? ? ? ? ? ? ? ? ? ? ? []]; reflexivity|exact H]. Qed.

Lemma received_trans r1 r2 r3 : received r1 r2 -> received r2 r3 -> received r1 r3.
Proof. intros (h1 & -> & _) (h2 & -> & H). exists h2. split; [reflexivity|exact H]. Qed.

Lemma tables_received r r' : tables_ok r -> received r r' -> tables_ok r'.
Proof. intros (H1 & H2 & _) (h & -> & H). split; [exact H1|]. split; [exact H2|exact H]. Qed.

Lemma received_insert r h id slot :
  parts_ok Q h -> parts_of Q slot -> received r (set_parts (<[id := slot]> h) r).
Proof.
  intros Hh Hs. exists (<[id := slot]> h). split; [reflexivity|]. intros id' slot' E.
  apply lookup_insert_Some in E as [[_ <-]|[_ E]]; [exact Hs|exact (Hh id' slot' E)].
Qed.

Lemma wp_load_there buf n p v (P : Z -> state -> Prop) r :
  word_at buf n p = Some v -> P v r -> wp no_fault (load buf n p) P r.
Proof. apply wp_load_value. Qed.

Lemma wp_at {A} (l : list A) s (P : A -> state -> Prop) r :
  0 <= s < Z.of_nat (length l) -> (forall a, aget l s = Some a -> P a r) -> wp no_fault (at_server l s) P r.
Proof. intros Hs HP. destruct (aget_is_Some l s Hs) as [a Ea]. apply (wp_or_oob_Some _ _ a); auto. Qed.

Lemma wp_load_in_pair buf p (P : po_seq_pair -> state -> Prop) r :
  0 <= p -> p + sz_po_seq_pair <= Z.of_nat (length buf) -> (forall ps, P ps r) -> wp no_fault (load_pair buf p) P r.
Proof.
  intros Hp Hl HP. unfold sz_po_seq_pair in Hl. unfold load_pair.
  apply wp_bind, wp_load_in; [unfold o_po_seq_pair_incarnation; lia|lia|unfold o_po_seq_pair_incarnation; lia|].
  intros i _. apply wp_bind, wp_load_in; [unfold o_po_seq_pair_seq_num; lia|lia|unfold o_po_seq_pair_seq_num; lia|].
  intros q _. apply wp_ret, HP.
Qed.

(** What follows when the part is new: it is stored, and never decoded. *)
Lemma wp_store_part recon p j o ps part_len w r r0 :
  tables_ok r -> received r0 r -> 0 <= p -> sz_erasure_part + 4 <= part_len <= PRIME_MAX_PACKET_SIZE ->
  p + sz_recon_part_header + part_len <= Z.of_nat (length recon) -> j ∈ Q -> 1 <= j <= NUM_SERVERS ->
  wp no_fault
    (slot <- UTIL_Get_Recon_Slot o ps ;;
     if decoded slot then ret (p + sz_recon_part_header + part_len) else
     have <- at_server (part_collected slot) j ;;
     if (have : bool) then ret (p + sz_recon_part_header + part_len) else
     bytes <- load_bytes recon (p + sz_recon_part_header) part_len ;;
     row <- at_server (parts slot) j ;;
     row <- copy_part row bytes ;;
     collected <- or_oob (aset (part_collected slot) j true) ;;
     rows <- or_oob (aset (parts slot) j row) ;;
     let n := recon_parts_collected slot + 1 in
     let id := mkPoId o ps in
     let store d := po_update (fun e =>
       with_Recon_History (<[id := mkReconSlot d n collected rows]> (Recon_History e)) e) in
     store false ;;;
     index <- load recon 4 (p + sz_recon_part_header + sz_erasure_part) ;;
     if n <? NUM_F + 1 then ret (p + sz_recon_part_header + part_len) else
     assert_ (PRE_ORDER_Seq_Compare w ps <? 0) ;;;
     store true ;;;
     RECON_Decode_Recon VAR (mkReconSlot true n collected rows) ;;;
     ret (p + sz_recon_part_header + part_len))
    (fun n r' => n = p + sz_recon_part_header + part_len /\ received r0 r') r.
Proof.
  intros Ht Hr0 Hp Hlen Hend Hj Hj6. set (next := p + sz_recon_part_header + part_len) in *.
  assert (Hget : forall P, (forall slot r1, parts_of Q slot -> received r0 r1 -> tables_ok r1 -> P slot r1) ->
    wp no_fault (UTIL_Get_Recon_Slot o ps) P r).
  { intros P HP. apply wp_bind, wp_bind, wp_get, wp_ret. pose proof Ht as (T1 & T2 & Hh).
    cbv zeta. destruct (Recon_History (others r) !! mkPoId o ps) as [slot|] eqn:Es; [apply wp_ret, HP; [exact (Hh _ _ Es)|exact Hr0|exact Ht]|].
    apply wp_bind, wp_modify, wp_ret. pose proof (received_insert r _ (mkPoId o ps) _ Hh (parts_of_new Q)) as H1.
    apply HP; [apply parts_of_new|eapply received_trans; [exact Hr0|exact H1]|eapply tables_received; [exact Ht|exact H1]]. }
  apply wp_bind, Hget. clear Hget Hr0 Ht r. intros slot r Hs Hr0 Ht.
  rewrite (po_decoded _ _ Hs). change NUM_SERVERS with 6 in *.
  assert (Hj7 : 0 <= j < NUM_SERVER_SLOTS) by (change NUM_SERVER_SLOTS with 7; lia).
  apply wp_bind, wp_at; [rewrite (po_flags _ _ Hs); exact Hj7|]. intros have Ehave.
  destruct have; [apply wp_ret; auto|]. unfold sz_recon_part_header, sz_erasure_part in *.
  apply wp_bind. unfold load_bytes.
  destruct (slice_defined recon (p + 16) part_len) as [bytes Eb]; [lia|lia|lia|]. rewrite Eb. apply wp_ret.
  apply slice_length in Eb as [_ Elen].
  apply wp_bind, wp_at; [rewrite (po_rows _ _ Hs); exact Hj7|]. intros row Erow.
  assert (Hrow : Z.of_nat (length row) = PRIME_MAX_PACKET_SIZE).
  { pose proof (po_row _ _ Hs) as HF. rewrite Forall_forall in HF. apply HF.
    unfold aget in Erow. destruct (in_bounds _ _); [|discriminate]. apply list_elem_of_lookup_2 in Erow. exact Erow. }
  apply wp_bind. unfold copy_part. replace (length bytes <=? length row)%nat with true by (symmetry; apply Nat.leb_le; lia).
  apply wp_ret. apply wp_bind, wp_aset_in; [rewrite (po_flags _ _ Hs); exact Hj7|]. intros collected Ec.
  apply wp_bind, wp_aset_in; [rewrite (po_rows _ _ Hs); exact Hj7|]. intros rows Er.
  destruct (parts_of_add Q slot j (put_bytes row 0 bytes) rows collected false Hs Hj Ehave) as [Hs' Hn]; auto.
  { rewrite put_bytes_length by lia. exact Hrow. }
  cbv zeta. apply wp_bind, wp_modify. apply wp_bind, wp_load_in; [lia|lia|lia|]. intros index _.
  replace (recon_parts_collected slot + 1 <? NUM_F + 1) with true by (symmetry; apply Z.ltb_lt; lia).
  apply wp_ret. split; [reflexivity|]. eapply received_trans; [exact Hr0|].
  apply received_insert; [apply Ht|exact Hs'].
Qed.

Lemma wp_process_recon_part recon p j next r :
  tables_ok r -> 0 <= p -> word_at recon 4 o_signed_message_machine_id = Some j -> j ∈ Q -> 1 <= j <= NUM_SERVERS ->
  part_fits recon p = Some next ->
  wp no_fault (process_recon_part VAR recon p) (fun n r' => n = next /\ received r r') r.
Proof.
  intros Ht Hp Ej Hj Hj6 Hfit. unfold part_fits in Hfit.
  destruct (word_at recon 4 (p + o_recon_part_header_originator)) as [o|] eqn:Eo; [|discriminate].
  destruct (word_at recon 4 (p + o_recon_part_header_part_len)) as [len|] eqn:El; [|discriminate].
  cbv zeta in Hfit. destruct (_ && _) eqn:Eb in Hfit; [|discriminate]. injection Hfit as <-.
  rewrite !andb_true_iff, !Z.leb_le in Eb. destruct Eb as ((((Ho1 & Ho2) & Hlen1) & Hlen2) & Hend).
  unfold process_recon_part. apply wp_bind, (wp_load_there _ _ _ j); [exact Ej|].
  apply wp_bind, (wp_load_there _ _ _ o); [exact Eo|].
  apply wp_bind, wp_load_in_pair.
  { unfold o_recon_part_header_seq. lia. }
  { unfold o_recon_part_header_seq, sz_po_seq_pair, sz_recon_part_header, sz_erasure_part in *. lia. }
  intros ps. apply wp_bind, (wp_load_there _ _ _ len); [exact El|]. cbv zeta.
  pose proof Ht as (T1 & T2 & _).
  assert (Ho : 0 <= o < NUM_SERVER_SLOTS) by (change NUM_SERVER_SLOTS with 7; change NUM_SERVERS with 6 in Ho2; lia).
  apply wp_bind, wp_bind, wp_get, wp_ret. apply wp_bind, wp_at; [rewrite T1; exact Ho|]. intros a _.
  apply wp_bind, wp_at; [rewrite T2; exact Ho|]. intros w _.
  assert (Hdone : wp no_fault (ret (p + sz_recon_part_header + len))
    (fun n r' => n = p + sz_recon_part_header + len /\ received r r') r)
    by (apply wp_ret; split; [reflexivity|apply received_refl, Ht]).
  destruct (_ || _); [exact Hdone|]. apply wp_bind. unfold UTIL_Get_PO_Slot_If_Exists.
  replace (negb _) with false by (symmetry; rewrite negb_false_iff, andb_true_iff, !Z.leb_le; lia).
  apply wp_bind, wp_bind, wp_get, wp_ret, wp_ret. destruct (bool_decide _); [exact Hdone|].
  apply (wp_store_part recon p j o ps len w r r); auto using received_refl.
Qed.

Lemma wp_process_recon_parts n recon j : forall p r,
  tables_ok r -> 0 <= p -> word_at recon 4 o_signed_message_machine_id = Some j -> j ∈ Q -> 1 <= j <= NUM_SERVERS ->
  parts_fit n recon p = true ->
  wp no_fault (process_recon_parts VAR n recon p) (fun _ r' => received r r') r.
Proof.
  induction n as [|n IH]; intros p r Ht Hp Ej Hj Hj6 Hfit; cbn [process_recon_parts parts_fit] in *.
  - apply wp_ret, received_refl, Ht.
  - destruct (part_fits recon p) as [next|] eqn:Ef; [|discriminate]. apply wp_bind.
    eapply wp_conseq; [apply (wp_process_recon_part recon p j next r Ht Hp Ej Hj Hj6 Ef)|]. cbv beta. intros q r1 [-> H1].
    assert (Hnext : 0 <= next).
    { unfold part_fits in Ef. repeat (destruct (word_at _ _ _) in Ef; [|discriminate]). cbv zeta in Ef.
      destruct (_ && _) eqn:Eb in Ef; [|discriminate]. injection Ef as <-. rewrite !andb_true_iff, !Z.leb_le in Eb.
      unfold sz_recon_part_header, sz_erasure_part in *. lia. }
    eapply wp_conseq; [apply (IH next r1 (tables_received _ _ Ht H1) Hnext Ej Hj Hj6 Hfit)|]. cbv beta.
    intros _ r2 H2. eapply received_trans; eassumption.
Qed.

Lemma wp_Process_Recon recon r :
  tables_ok r -> recon_fits recon = true -> sender_of recon ∈ Q ->
  wp no_fault (RECON_Process_Recon VAR recon) (fun _ r' => received r r') r.
Proof.
  intros Ht Hf Hs. unfold recon_fits, sender_of in *.
  destruct (word_at recon 4 o_signed_message_machine_id) as [j|] eqn:Ej; [|discriminate].
  destruct (word_at recon 4 sz_signed_message) as [n|] eqn:En; [|discriminate]. cbn in Hs.
  rewrite !andb_true_iff, !Z.leb_le in Hf. destruct Hf as [Hj Hf].
  apply wp_bind, (wp_load_there _ _ _ n); [exact En|].
  apply (wp_process_recon_parts _ recon j); auto. vm_compute. discriminate.
Qed.
End Parts.

(** ** What f servers can do *)
Fixpoint process_recons {crypto : Crypto} {signer : Signer} {R : Type} (VAR : server_variables) (msgs : list (list byte))
    : comp (order_state (E := po_data (R := R))) unit :=
  match msgs with
  | [] => ret tt
  | m :: msgs => RECON_Process_Recon VAR m ;;; process_recons VAR msgs
  end.

(** C15. No more than f servers sent RECON messages, which correct ones never do.  Then
    every sequence of such messages, if they are well formed, is processed without a
    fault, and changes nothing but what is kept of their parts: no request is ever
    decoded, for which f+1 servers are needed, and the assertions about what was
    decoded are not reached. *)
Theorem recon_messages_harmless {crypto : Crypto} {signer : Signer} {R : Type} (VAR : server_variables)
    (Q : gset Z) (msgs : list (list byte)) (r : order_state (E := po_data (R := R)))
    (HQ : Z.of_nat (size Q) <= NUM_F) (Htables : tables_ok Q r)
    (Hmsgs : Forall (fun m => recon_fits m = true /\ sender_of m ∈ Q) msgs) :
  exists h, process_recons VAR msgs r = Ret (tt, set_parts h r) /\ parts_ok Q h.
Proof.
  assert (H : wp no_fault (process_recons VAR msgs) (fun _ r' => received Q r r') r).
  { revert r Htables. induction Hmsgs as [|m msgs [Hf Hs] _ IH]; intros r Ht; cbn [process_recons].
    - apply wp_ret, received_refl, Ht.
    - apply wp_bind. eapply wp_conseq; [apply (wp_Process_Recon VAR Q HQ m r Ht Hf Hs)|]. cbv beta. intros _ r1 H1.
      eapply wp_conseq; [apply IH, (tables_received Q r r1 Ht H1)|]. cbv beta. intros _ r2 H2.
      eapply received_trans; eassumption. }
  apply wp_run in H as ([] & r' & E & h & -> & Hh). exists h. split; [exact E|exact Hh].
Qed.

(** ** Two messages *)
#[local] Existing Instance prefix_digest.

(** A part of [part_len] bytes of request 2 of server 1. *)
Definition sample_recon (part_len : Z) : list byte :=
  sample RECON 2 5 0 (words [1; 1; 0; 2; part_len; 40; 1]).

Lemma exec_start_tables : tables_ok {[2]} exec_start.
Proof. split; [reflexivity|]. split; [reflexivity|]. intros id slot H. discriminate. Qed.

Lemma recon_messages_harmless_witness :
  exists h, process_recons (Init_VAR 3) [sample_recon 8; sample_recon 8] exec_start = Ret (tt, set_parts h exec_start) /\
    parts_ok {[2]} h.
Proof.
  apply (recon_messages_harmless (Init_VAR 3) {[2]} [sample_recon 8; sample_recon 8] exec_start).
  - vm_compute. discriminate.
  - exact exec_start_tables.
  - repeat constructor; try (vm_compute; reflexivity); apply elem_of_singleton; vm_compute; reflexivity.
Defined.

Example recon_part_kept :
  match process_recons (Init_VAR 3) [sample_recon 8] exec_start with
  | Ret (_, r) => (fun s => (decoded s, recon_parts_collected s, part_collected s)) <$>
                  Recon_History (others r) !! mkPoId 1 (mkPS 0 2)
  | Fault _ => None
  end = Some (false, 1, [false; false; true; false; false; false; false]).
Proof. vm_compute. reflexivity. Qed.

(** The validation of messages looks at nothing of a RECON message: one of a single
    server makes the replica copy as many bytes as the message says, out of the
    message and over the row. *)
Lemma recon_part_unchecked :
  verdict PR_NORMAL (sample_recon 4294967295) = Ret (true, 0) /\
  RECON_Process_Recon (Init_VAR 3) (sample_recon 4294967295) exec_start = Fault OutOfBounds.
Proof. split; vm_compute; reflexivity. Qed.

(** Nor at the server the request is of, with which it reads its tables. *)
Lemma recon_originator_unchecked :
  let m := sample RECON 2 5 0 (words [1; 1000; 0; 2; 8; 40; 1]) in
  verdict PR_NORMAL m = Ret (true, 0) /\ RECON_Process_Recon (Init_VAR 3) m exec_start = Fault OutOfBounds.
Proof. split; vm_compute; reflexivity. Qed.
