(* ===== verification/ReconProps.v ===== *)
(** The properties of reconciliation: what a replica sends for a slot, and that what
    a replica lacks is sent to it by enough others; what RECON messages can do. *)
From Stdlib Require Import ZArith Lia List Bool.
From Stdlib Require Import Strings.Byte.
From stdpp Require Import base list gmap fin_sets.
From S2P Require Import Prelude Memory Config Packets Crypto Utility Eligibility EligibilityCorrect OrderState PreOrderState Order OrderCorrect OrderHandlers OrderSystem OrderProps OrderFrame PreOrder PreOrderCorrect Recon ReconCorrect Execute ExecuteCorrect ExecuteProps ReconSends.

(** ** A slot to reconcile *)
Section Slot.
Context {crypto : Crypto} {signer : Signer} {R : Type} (VAR : server_variables).
Context (EvPP : pre_prepare_mess -> Prop) (EvP EvC : vote -> Prop).
Context (HVAR : 1 <= 2 * VF VAR + VK VAR + 1 <= NUM_SERVERS).

Abbreviation state := (order_state (E := po_data (R := R))).
Abbreviation inv := (inv VAR EvPP EvP EvC).
Implicit Types r : state.

(** Slot [n] was not reconciled and is complete, and so is the slot before. *)
Definition due r (n : Z) (s : ord_slot) : bool :=
  negb (reconciled s) && collected_all_parts s &&
  match History r !! (n - 1) with
  | None => n =? 1
  | Some prev => collected_all_parts prev
  end.

Lemma run_pops_due r n s :
  inv r -> History r !! n = Some s -> due r n s = true ->
  wp any_fault (pops (R := R) (History r !! (n - 1)) n (complete_pre_prepare s) s)
    (fun l r' => r' = r /\ l = zip (starts_from n s) (made_eligible s)) r.
Proof.
  intros Hi Es Hd. unfold pops, starts_from, due in *. destruct (History r !! (n - 1)) as [prev|] eqn:Ep.
  - apply wp_bind, wp_ret, wp_ret. split; [reflexivity|].
    destruct (Z.eqb_spec n 1) as [->|]; [|reflexivity]. destruct (i_keys Hi _ _ Ep) as [Hk _]. lia.
  - apply andb_true_iff in Hd as [_ E]. rewrite E. cbn. split; reflexivity.
Qed.

(** The reconciliation line goes from [w0] up to [w]: over the slots that are
    reconciled, and no further. *)
Definition line_moves (h : gmap Z ord_slot) (w0 w : Z) : Prop :=
  w0 <= w /\ (forall q, w0 < q <= w -> exists s, h !! q = Some s /\ reconciled s = true) /\
  forall s, h !! wrap32 (w + 1) = Some s -> reconciled s = false.

Lemma wp_raise_marks fuel : forall r : state, recon_ok r -> wp any_fault (raise_recon_line fuel)
  (fun _ r' => exists w, r' = set_recon_line w r /\ line_moves (History r) (recon_white_line r) w) r.
Proof.
  clear. assert (Hend : forall (r : state), (forall s, History r !! wrap32 (recon_white_line r + 1) = Some s -> reconciled s = false) ->
    exists w, r = set_recon_line w r /\ line_moves (History r) (recon_white_line r) w).
  { intros r H. exists (recon_white_line r). split; [destruct r; reflexivity|]. split; [lia|]. split; [intros; lia|exact H]. }
  induction fuel as [|fuel IH]; intros r Hr; cbn [raise_recon_line]; [exact I|].
  apply wp_bind, wp_get. destruct (History r !! _) as [s|] eqn:Es; [|apply wp_ret, Hend; congruence].
  destruct (reconciled s) eqn:Er; [|apply wp_ret, Hend; congruence].
  pose proof (line_step r s Hr Es) as Hn. pose proof Hr as [Hk Hu]. unfold is_u32 in Hu.
  assert (En : wrap32 (recon_white_line r + 1) = recon_white_line r + 1).
  { destruct (Z.eq_dec (recon_white_line r + 1) two32) as [Ew|Hw]; [|apply wrap32_small; lia].
    exfalso. rewrite Ew in Hn. unfold wrap32 in Hn. rewrite Z.mod_same in Hn; unfold two32 in *; lia. }
  rewrite En in *. apply wp_bind, wp_put. eapply wp_conseq; [apply IH; split; [exact Hk|unfold is_u32; cbn; lia]|].
  cbv beta. intros _ r' (w & -> & H1 & H2 & H3). exists w. split; [reflexivity|]. cbn in H1, H2, H3.
  split; [lia|]. split; [|exact H3]. intros q Hq.
  destruct (Z.eq_dec q (recon_white_line r + 1)) as [->|Hne]; [exists s; auto|apply H2; lia].
Qed.

(** What the replica owes for the slot. *)
Definition owed_for r (n : Z) (s : ord_slot) : action -> Prop :=
  all_owed VAR (c_cum_acks (complete_pre_prepare s)) r (requests_of (starts_from n s) (made_eligible s)).

(** The replies are sent, the slot is marked, the line goes up: all of what is done. *)
Definition reconciles_slot r (n : Z) (s : ord_slot) (l : list action) (r' : state) : Prop :=
  let h := <[n := mark_reconciled s]> (History r) in
  replies VAR (c_cum_acks (complete_pre_prepare s)) r (requests_of (starts_from n s) (made_eligible s)) l /\
  exists w, r' = set_recon_line w (set_History h (say l r)) /\ line_moves h (recon_white_line r) w.

Lemma say_line l : forall r : state, recon_white_line (say l r) = recon_white_line r.
Proof. induction l as [|a l IH]; intros r; [reflexivity|]. exact (IH (act a r)). Qed.

Lemma wp_Do_Recon r n s :
  inv r -> History r !! n = Some s -> populated_eligible s = true -> due r n s = true ->
  wp any_fault (RECON_Do_Recon VAR n) (fun _ r' => exists l, reconciles_slot r n s l r') r.
Proof.
  intros Hi Es Hpop Hd. destruct (i_keys Hi _ _ Es) as [Hk Hok].
  pose proof Hd as [[Hr%negb_true_iff Hc]%andb_true_iff Hprev]%andb_true_iff.
  pose proof (collected_seq _ _ _ _ r n s Hok Hc) as Hseq.
  unfold RECON_Do_Recon. apply wp_bind, (wp_the_slot _ r n s); [exact Es|]. rewrite Hr, Hc. cbn [negb]. cbv zeta.
  apply wp_bind, wp_If_Exists. rewrite Hseq, (wrap32_small (n - 1)) by lia.
  replace (match History r !! (n - 1) with Some prev => negb (collected_all_parts prev) | None => negb (n =? 1) end) with false
    by (destruct (History r !! (n - 1)); rewrite Hprev; reflexivity).
  apply wp_bind. eapply wp_conseq; [apply run_pops_due; [exact Hi|exact Es|exact Hd]|]. cbv beta. intros l0 r0 [-> ->].
  apply wp_bind. eapply wp_conseq; [apply wp_send_eligible, (entries_collected VAR HVAR EvPP EvP EvC r); assumption|].
  cbv beta. intros _ r1 (l & Hl & ->). destruct (say_facts l r) as (_ & H1 & _). pose proof (say_line l r) as W1.
  apply wp_bind, (wp_upd _ (say l r) n s); [rewrite H1; exact Es|].
  apply wp_bind, wp_get. eapply wp_conseq; [apply wp_raise_marks|].
  - split; cbn [History recon_white_line set_slot set_History]; [|rewrite W1; exact (i_recon Hi)].
    rewrite H1. intros q t Et. destruct (decide (q = n)) as [->|Hne]; [exact Hk|].
    rewrite lookup_insert_ne in Et by congruence. apply (i_keys Hi _ _ Et).
  - cbv beta. intros _ r2 (w & -> & Hw). cbn [History recon_white_line set_slot set_History] in Hw. rewrite H1, W1 in Hw.
    exists l. split; [exact Hl|]. exists w. split; [unfold set_slot; rewrite H1; reflexivity|exact Hw].
Qed.

(** What is sent is what is owed. *)
Lemma reconciles_owed r n s l r' a : reconciles_slot r n s l r' -> a ∈ l <-> owed_for r n s a.
Proof. intros [H _]. apply replies_owed, H. Qed.

Lemma reconciles_actions r n s l r' : reconciles_slot r n s l r' -> actions r' = actions r ++ l.
Proof. intros (_ & w & -> & _). apply (say_facts l r). Qed.

Lemma Do_Recon_not_due r n s :
  inv r -> History r !! n = Some s -> due r n s = false -> RECON_Do_Recon VAR n r = Ret (tt, r).
Proof.
  intros Hi Es Hd. destruct (i_keys Hi _ _ Es) as [Hk Hok].
  unfold RECON_Do_Recon, the_slot. unfold bind at 1, bind at 1, get at 1. rewrite Es. cbn [or_oob ret].
  unfold due in Hd. destruct (reconciled s); [reflexivity|]. destruct (collected_all_parts s) eqn:Hc; [|reflexivity].
  cbn [negb andb] in *. cbv zeta. rewrite (collected_seq _ _ _ _ r n s Hok Hc), (wrap32_small (n - 1)) by lia.
  unfold UTIL_Get_ORD_Slot_If_Exists, bind, get, ret.
  destruct (History r !! (n - 1)); rewrite Hd; reflexivity.
Qed.
End Slot.

(** ** The replicas together *)
Section System.
Context {crypto : Crypto} {signer : Signer} {R : Type}.

(** The invariant of ordering, with whatever evidence there is for the messages: it
    holds in every state from which a handler calls [RECON_Do_Recon] ([OrderHandlers]). *)
Definition well_formed (i : Z) (r : order_state (E := po_data (R := R))) : Prop :=
  exists EvPP EvP EvC, inv (Init_VAR i) EvPP EvP EvC r.

(** The request is there, in its PO-Request. *)
Definition holds (r : order_state (E := po_data (R := R))) (id : po_id) : Prop :=
  exists p req, PO_History (others r) !! id = Some p /\ po_request p = Some req /\ names req id.

(** In slot [n] of replica [i] lies [pp], and reconciling it leads to [r']. *)
Definition reconciles (pp : complete_pre_prepare_message) (n i : Z)
    (r r' : order_state (E := po_data (R := R))) : Prop :=
  1 <= i <= NUM_SERVERS /\ well_formed i r /\ RECON_Do_Recon (Init_VAR i) n r = Ret (tt, r') /\
  exists s, History r !! n = Some s /\ populated_eligible s = true /\ due r n s = true /\
    complete_pre_prepare s = pp.

Lemma slot_vector i r n s :
  well_formed i r -> History r !! n = Some s -> collected_all_parts s = true -> populated_eligible s = true ->
  complete_ok (complete_pre_prepare s) /\
  eligible_for (Init_VAR 1) (complete_pre_prepare s) = Some (made_eligible s).
Proof.
  intros (EvPP & EvP & EvC & Hinv) Es Hc Hpop.
  destruct (i_keys Hinv n s Es) as [_ Hok]. split; [exact (so_complete Hok)|].
  destruct (so_eligible Hok Hpop) as (c & Hv & Ec & _).
  rewrite (Ec (collected_parts _ _ _ _ _ _ _ Hok Hc)) in Hv. exact Hv.
Qed.

(** A request that a slot makes eligible is below the acknowledgement of every
    sender for it. *)
Lemma eligible_acknowledged pp v id :
  complete_ok pp -> eligible_for (Init_VAR 1) pp = Some v -> id ∈ requests_of (c_last_executed pp) v ->
  exists col, column_of (c_cum_acks pp) (po_server_id id) col /\ Z.of_nat (length col) = NUM_SERVERS /\
    forall i, sends (Init_VAR i) col = true -> 1 <= i <= NUM_SERVERS ->
      exists a, acknowledges (c_cum_acks pp) (po_server_id id) i a /\ pair_le (po_pair id) a.
Proof.
  intros Hpp Hv Hid. apply elem_of_requests in Hid as (j & p & c & Hp & Hc & Hid).
  apply elem_of_requests_between in Hid as (Hs & Hinc & Hseq).
  assert (Hm : matrix_size <= Z.of_nat (length (c_cum_acks pp)))
    by (rewrite (co_matrix _ Hpp); vm_compute; discriminate).
  unfold eligible_for, eligible_vector in Hv.
  pose proof (wp_compute_answers (S := unit) (Init_VAR 1) (c_cum_acks pp) (c_last_executed pp) tt Hm (co_last _ Hpp)
                ltac:(vm_compute; split; discriminate)) as H.
  unfold wp in H. destruct (compute_eligible _ _ _ _) as [[v' []]|f]; [|discriminate]. injection Hv as ->.
  destruct H as [_ H]. destruct (Forall2_lookup_r _ _ _ _ _ H Hc) as (i' & Hi' & last & Elast & Hcase).
  apply lookup_seqZ in Hi' as [-> Hj]. cbn in *.
  assert (last = p) as ->.
  { unfold aget in Elast. destruct (in_bounds _ _) in Elast; [|discriminate].
    replace (Z.to_nat (0 + Z.of_nat j)) with j in Elast by lia. congruence. }
  replace (0 + Z.of_nat j + 1) with (Z.of_nat j + 1) in Hcase by lia.
  destruct Hcase as [->|(Hlt & col & Hcol & Ha)].
  { rewrite Z.ltb_irrefl in Hseq. lia. }
  assert (Hlen : Z.of_nat (length col) = NUM_SERVERS) by (rewrite <- (Forall2_length _ _ _ Hcol); reflexivity).
  exists col. rewrite Hs. split; [exact Hcol|]. split; [exact Hlen|]. intros i Hsend Hi.
  destruct (aget_is_Some col (i - 1)) as [a Ea]; [lia|].
  destruct (sends_not_below col i a Hi Hsend Ea) as (least & El & Hla).
  exists a. split.
  - unfold aget in Ea. destruct (in_bounds _ _) in Ea; [|discriminate].
    destruct (Forall2_lookup_r _ _ _ _ _ Hcol Ea) as (k & Hk & Hack). apply lookup_seqZ in Hk as [-> _].
    replace (1 + Z.of_nat (Z.to_nat (i - 1))) with i in Hack by lia. exact Hack.
  - assert (Hcl : pair_le c least).
    { destruct Ha as [Hf|[-> _]].
      - apply (eligible_below col Hlen (Init_VAR 1) c least eq_refl eq_refl Hf).
        unfold aget in El. destruct (in_bounds _ _) in El; [exact El|discriminate].
      - exfalso. pose proof (co_pairs _ Hpp) as Hu. apply list_elem_of_lookup_2, list_elem_of_In in Hp.
        rewrite Forall_forall in Hu. destruct (Hu p (proj2 (list_elem_of_In _ _) Hp)) as [U1 U2].
        unfold ps_lt, is_u32 in *. cbn in Hlt. lia. }
    rewrite pair_le_spec in *. destruct (incarnation p <? incarnation c); lia.
Qed.

Lemma NoDup_senders col : NoDup (senders col).
Proof. apply NoDup_filter, NoDup_seqZ. Qed.

Lemma elem_of_senders col i : i ∈ senders col <-> 1 <= i <= NUM_SERVERS /\ sends (Init_VAR i) col = true.
Proof. unfold senders. rewrite list_elem_of_filter, elem_of_seqZ. split; intros [H1 H2]; (split; [|]; try assumption; lia). Qed.
End System.

(** ** What is sent *)
(** C14. Reconciling a slot that is due sends exactly what this replica owes for it: for
    every request the slot makes eligible, in order, whose PO-Request is there, when this
    replica is among the first 2f+k+1 servers of those whose acknowledgement in the
    matrix is not below the f+k+1st lowest, the PO-Request to each other server whose
    latest PO-ARU does not cover it, in the order of the servers.  Then the slot is
    marked, the reconciliation line goes up over the slots that are marked, to the
    first that is not, and nothing else of the replica changes.  A slot that is not due
    changes nothing. *)
Theorem recon_sends_exactly {crypto : Crypto} {signer : Signer} {R : Type}
    (i n : Z) (r r' : order_state (E := po_data (R := R))) (s : ord_slot)
    (Hinv : well_formed i r) (Hs : History r !! n = Some s) (Hpop : populated_eligible s = true)
    (Hrun : RECON_Do_Recon (Init_VAR i) n r = Ret (tt, r')) :
  (due r n s = false -> r' = r) /\
  (due r n s = true -> exists l, reconciles_slot (Init_VAR i) r n s l r' /\
     actions r' = actions r ++ l /\ forall a, a ∈ l <-> owed_for (Init_VAR i) r n s a).
Proof.
  destruct Hinv as (EvPP & EvP & EvC & Hinv). split; intros Hd.
  - rewrite (Do_Recon_not_due _ _ _ _ _ _ _ Hinv Hs Hd) in Hrun. congruence.
  - destruct (wp_Ret _ _ _ _ _ _ (wp_Do_Recon _ _ _ _ (quorum_ok i) _ _ _ Hinv Hs Hpop Hd) Hrun) as [l Hl].
    exists l. split; [exact Hl|]. split; [eapply reconciles_actions, Hl|]. intros a. eapply reconciles_owed, Hl.
Qed.

(** C13. Slot [n] is reconciled with the same Pre-Prepare by the replicas [G], each of
    which holds the request [id] of the slot if its row in the matrix acknowledges it.
    Whoever does not have the request, as all of [G] see from its PO-ARUs, and is not
    its origin, is sent it by 2f+k+1 servers but for those outside [G]: by f+1 or
    more, when [G] are all but f+k. *)
Theorem missing_request_is_sent {crypto : Crypto} {signer : Signer} {R : Type}
    (G : gset Z) (σ σ' : Z -> order_state (E := po_data (R := R)))
    (pp : complete_pre_prepare_message) (n k : Z) (v : list po_seq_pair) (id : po_id)
    (HG : forall i, i ∈ G -> reconciles pp n i (σ i) (σ' i))
    (Hfirst : n = 1 -> c_last_executed pp = zero_pairs)
    (Hv : eligible_for (Init_VAR 1) pp = Some v)
    (Hid : id ∈ requests_of (c_last_executed pp) v)
    (Hholds : forall i a, i ∈ G -> acknowledges (c_cum_acks pp) (po_server_id id) i a ->
       pair_le (po_pair id) a -> holds (σ i) id)
    (Hk : 1 <= k <= NUM_SERVERS) (Hother : k <> po_server_id id)
    (Hlacks : forall i, i ∈ G -> behind (σ i) k id) :
  exists S : gset Z, S ⊆ G /\
    2 * NUM_F + NUM_K + 1 <= Z.of_nat (size S) + (NUM_SERVERS - Z.of_nat (size G)) /\
    forall i, i ∈ S -> exists req, names req id /\ Send_To_Server k req ∈ actions (σ' i).
Proof.
  assert (Hin : G ⊆ server_ids NUM_SERVERS).
  { intros i Hi. destruct (HG i Hi) as [Hc _]. apply elem_of_server_ids, Hc. }
  destruct (decide (G = ∅)) as [->|Hne].
  { exists ∅. split; [set_solver|]. split; [vm_compute; discriminate|]. intros i Hi. set_solver. }
  apply set_choose_L in Hne as [i0 Hi0]. destruct (HG i0 Hi0) as (_ & Hw0 & _ & s0 & Es0 & Hp0 & Hd0 & Epp0).
  pose proof Hd0 as [[_ Hcol0]%andb_true_iff _]%andb_true_iff.
  destruct (slot_vector i0 (σ i0) n s0 Hw0 Es0 Hcol0 Hp0) as [Hpp _]. rewrite Epp0 in Hpp.
  destruct (eligible_acknowledged pp v id Hpp Hv Hid) as (col & Hcol & Hlen & Hack).
  set (C := list_to_set (senders col) : gset Z). exists (C ∩ G). split; [set_solver|]. split.
  - assert (HC : Z.of_nat (size C) = senders_needed)
      by (unfold C; rewrite size_list_to_set by apply NoDup_senders; apply senders_enough, Hlen).
    assert (HCs : C ⊆ server_ids NUM_SERVERS).
    { intros i Hi. apply elem_of_list_to_set, elem_of_senders in Hi. apply elem_of_server_ids, Hi. }
    pose proof (intersection_size _ C G HCs Hin) as H.
    assert (HU : size (server_ids NUM_SERVERS) = 6%nat) by (vm_compute; reflexivity).
    rewrite HU in H. change senders_needed with (2 * NUM_F + NUM_K + 1) in HC. change NUM_SERVERS with 6. lia.
  - intros i [HiC HiG]%elem_of_intersection. apply elem_of_list_to_set, elem_of_senders in HiC as [Hi Hsend].
    destruct (HG i HiG) as (_ & Hinv & Hrun & s & Es & Hpop & Hd & Epp).
    pose proof Hd as [[_ Hcl]%andb_true_iff _]%andb_true_iff.
    destruct (slot_vector i (σ i) n s Hinv Es Hcl Hpop) as [_ Hvec].
    destruct Hinv as (EvPP & EvP & EvC & Hinv).
    destruct (Hack i Hsend Hi) as (a & Ha & Hle).
    destruct (Hholds i a HiG Ha Hle) as (p & req & Ep & Er & Hn).
    exists req. split; [exact Hn|].
    destruct (wp_Ret _ _ _ _ _ _ (wp_Do_Recon _ _ _ _ (quorum_ok i) _ _ _ Hinv Es Hpop Hd) Hrun)
      as (l & Hl).
    rewrite (reconciles_actions _ _ _ _ _ _ Hl). apply elem_of_app. right.
    apply (reconciles_owed _ _ _ _ _ _ _ Hl). unfold owed_for, all_owed. rewrite Epp in *.
    replace (starts_from n s) with (c_last_executed pp).
    2:{ unfold starts_from. rewrite Epp. destruct (Z.eqb_spec n 1) as [E|]; [exact (Hfirst E)|reflexivity]. }
    replace (made_eligible s) with v by congruence.
    exists id. split; [exact Hid|]. exists p, req, id, col, k.
    repeat split; try assumption; try apply Hn; try lia. exact (Hlacks i HiG).
Qed.

(** ** Replicas that are about to reconcile the first slot *)
#[local] Existing Instance prefix_digest.

(** Replicas 2 to 5 have the Pre-Prepare and the request of server 1 it makes
    eligible; no one has told them of having it. *)
Definition recon_run : list event := firstn 6 exec_slot_1.
Definition recon_end : system := default exec_run_start (run_events {[6]} recon_run exec_run_start).

Definition recon_slot_1 (i : Z) : ord_slot :=
  with_reconciled false (default (new_ord_slot 1) (History (node recon_end i) !! 1)).
Definition recon_before (i : Z) : order_state (E := po_data (R := unit)) :=
  set_slot 1 (recon_slot_1 i) (node recon_end i).
Definition recon_result (i : Z) (r : order_state (E := po_data (R := unit))) : order_state (E := po_data (R := unit)) :=
  match RECON_Do_Recon (Init_VAR i) 1 r with Ret (_, r') => r' | Fault _ => r end.
Definition recon_after (i : Z) : order_state (E := po_data (R := unit)) := recon_result i (recon_before i).
Definition recon_pp : complete_pre_prepare_message := complete_pre_prepare (recon_slot_1 2).

Example recon_sends : map (fun i => length (actions (recon_after i)) - length (actions (recon_before i)))%nat [2; 3; 4; 5] = [5; 5; 5; 0]%nat.
Proof. vm_compute. reflexivity. Qed.

Lemma recon_slot_before i : History (recon_before i) !! 1 = Some (recon_slot_1 i).
Proof. unfold recon_before. generalize (recon_slot_1 i) (node recon_end i). intros s r. apply lookup_set_slot. Qed.

Lemma recon_end_reachable : reachable {[6]} recon_end.
Proof.
  apply (order_run_reachable {[6]} recon_run exec_run_start).
  - apply reach_init. intros _. exact (exec_start_ready toy_po).
  - assert (H : match run_events {[6]} recon_run exec_run_start with Some _ => true | None => false end = true)
      by (vm_compute; reflexivity).
    unfold recon_end. destruct (run_events _ _ _) as [σ|]; [reflexivity|discriminate].
Qed.

Lemma recon_before_ok i : correct {[6]} i -> is_Some (History (node recon_end i) !! 1) -> well_formed i (recon_before i).
Proof.
  intros Hi [s Es]. pose proof (executor_reachable_inv prefix_digest_ok {[6]} recon_end recon_end_reachable i Hi) as Hinv.
  exists (proposed {[6]} recon_end), (prepared_by {[6]} recon_end), (committed_by {[6]} recon_end).
  apply (inv_keeps _ _ _ _ False (node recon_end i)); [exact Hinv|].
  unfold recon_before, recon_slot_1. rewrite Es. apply (keeps_set_slot _ _ _ s); [exact Es|]. repeat split.
Qed.

#[local] Opaque recon_end recon_slot_1 recon_before.

Lemma recon_runs i : i ∈ [2; 3; 4; 5] -> RECON_Do_Recon (Init_VAR i) 1 (recon_before i) = Ret (tt, recon_after i).
Proof.
  intros Hi. change (recon_after i) with (recon_result i (recon_before i)).
  assert (H : forallb (fun i => match RECON_Do_Recon (Init_VAR i) 1 (recon_before i) with Ret _ => true | Fault _ => false end)
                           [2; 3; 4; 5] = true) by (vm_compute; reflexivity).
  rewrite forallb_forall in H. specialize (H i (proj1 (list_elem_of_In _ _) Hi)). unfold recon_result.
  destruct (RECON_Do_Recon _ _ _) as [[[] r]|]; [reflexivity|discriminate].
Qed.

Lemma recon_known i : i ∈ [2; 3; 4; 5] ->
  correct {[6]} i /\ History (recon_before i) !! 1 = Some (recon_slot_1 i) /\
  is_Some (History (node recon_end i) !! 1) /\ populated_eligible (recon_slot_1 i) = true /\
  due (recon_before i) 1 (recon_slot_1 i) = true /\ complete_pre_prepare (recon_slot_1 i) = recon_pp.
Proof.
  intros Hi. assert (Hc : correct {[6]} i) by (repeat apply elem_of_cons in Hi as [->|Hi]; [..|inversion Hi]; (split; [split; vm_compute; discriminate|set_solver])).
  split; [exact Hc|].
  split; [apply recon_slot_before|].
  assert (H : forallb (fun i => match History (node recon_end i) !! 1 with Some _ => true | None => false end
                && populated_eligible (recon_slot_1 i) && due (recon_before i) 1 (recon_slot_1 i)) [2; 3; 4; 5] = true)
    by (vm_compute; reflexivity).
  rewrite forallb_forall in H. specialize (H i (proj1 (list_elem_of_In _ _) Hi)).
  apply andb_true_iff in H as [[H1 H2]%andb_true_iff H3]. split; [|split; [exact H2|split; [exact H3|]]].
  - revert H1. generalize (History (node recon_end i) !! 1). intros [s|] H1; [exists s; reflexivity|discriminate].
  - clear - Hi. repeat apply elem_of_cons in Hi as [->|Hi]; [..|inversion Hi]; vm_compute; reflexivity.
Qed.

(** Replica 2 sends the request to replica 6; replica 5 is not among the first four. *)
Lemma recon_sends_exactly_witness :
  exists l, actions (recon_after 2) = actions (recon_before 2) ++ l /\
    forall a, a ∈ l <-> owed_for (Init_VAR 2) (recon_before 2) 1 (recon_slot_1 2) a.
Proof.
  assert (Hi : 2 ∈ [2; 3; 4; 5]) by left.
  destruct (recon_known 2 Hi) as (Hc & Es & Hsome & Hp & Hd & _).
  pose proof (recon_sends_exactly 2 1 (recon_before 2) (recon_after 2) (recon_slot_1 2)
                (recon_before_ok 2 Hc Hsome) Es Hp (recon_runs 2 Hi)) as [_ H].
  destruct (H Hd) as (l & _ & El & Hl). exists l. split; [exact El|exact Hl].
Defined.

Lemma missing_request_is_sent_witness :
  exists S : gset Z, S ⊆ {[2; 3; 4; 5]} /\ 2 <= Z.of_nat (size S) /\
    forall i, i ∈ S -> exists req, names req first_id /\ Send_To_Server 6 req ∈ actions (recon_after i).
Proof.
  assert (HG : forall i : Z, i ∈ ({[2; 3; 4; 5]} : gset Z) -> i ∈ [2; 3; 4; 5]) by set_solver.
  destruct (missing_request_is_sent {[2; 3; 4; 5]} recon_before recon_after recon_pp 1 6
              (default [] (eligible_for (Init_VAR 1) recon_pp)) first_id) as (S & HS & Hn & Hsent).
  - intros i Hi%HG. destruct (recon_known i Hi) as (Hc & Es & Hsome & Hp & Hd & Epp).
    split; [apply Hc|]. split; [apply (recon_before_ok i Hc Hsome)|]. split; [apply recon_runs, Hi|].
    exists (recon_slot_1 i). split; [exact Es|]. split; [exact Hp|]. split; [exact Hd|exact Epp].
  - intros _. vm_compute. reflexivity.
  - vm_compute. reflexivity.
  - apply (bool_decide_unpack _). vm_compute. exact I.
  - intros i a Hi%HG _ _. exists (store_request toy_request (make_digest toy_request) (new_po_slot first_pair)), toy_request.
    split; [|split; [reflexivity|vm_compute; repeat split]].
    repeat apply elem_of_cons in Hi as [->|Hi]; [..|inversion Hi]; vm_compute; reflexivity.
  - split; vm_compute; discriminate.
  - discriminate.
  - intros i Hi%HG. exists (per_server_slot (mkPS 0 0)), (mkPS 0 0).
    split; [|split; [reflexivity|vm_compute; right; split; reflexivity]].
    repeat apply elem_of_cons in Hi as [->|Hi]; [..|inversion Hi]; vm_compute; reflexivity.
  - exists S. split; [exact HS|]. split; [|exact Hsent].
    assert (Hsz : size ({[2; 3; 4; 5]} : gset Z) = 4%nat) by (vm_compute; reflexivity). rewrite Hsz in Hn.
    change (2 * NUM_F + NUM_K + 1) with 4 in Hn. change NUM_SERVERS with 6 in Hn. lia.
Defined.
