(* ===== verification/PreOrderProps.v ===== *)
(** What pre-ordering achieves at a replica: certified requests, loops that end,
    and that its handlers leave the ordering protocol alone ([UpdatesProps]
    composes this with the system of replicas). *)
From Stdlib Require Import ZArith Lia List Bool.
From Stdlib Require Import Strings.Byte.
From stdpp Require Import base list gmap fin_sets.
From S2P Require Import Prelude Memory Config Packets Crypto Merkle Utility Eligibility EligibilityCorrect OrderState PreOrderState Order OrderCorrect OrderHandlers OrderSystem OrderProps PreOrder OrderFrame PreOrderCorrect Execute ExecuteCorrect ExecuteProps.

(** ** The handlers are beside the ordering protocol *)
Section Handlers.
Context {crypto : Crypto} {signer : Signer} {R : Type}.
Context (VAR : server_variables) (HVAR : 1 <= 2 * VF VAR + VK VAR + 1 <= NUM_SERVERS).

Abbreviation state := (order_state (E := po_data (R := R))).
Abbreviation untouched := (within any_fault (aside (E := po_data (R := R)))).

Let allowed f (_ : f <> OutOfFuel) : any_fault f := I.

Lemma within_raise_aru fuel s : untouched (raise_aru fuel s).
Proof. pose proof allowed. induction fuel as [|fuel IH]; cbn [raise_aru]; walk. Qed.

Lemma within_Update_ARU : untouched PRE_ORDER_Update_ARU.
Proof.
  pose proof allowed. unfold PRE_ORDER_Update_ARU. walk. apply within_for_servers. intros s. apply within_raise_aru.
Qed.
Hint Resolve within_Update_ARU : frame.

Lemma within_count_acks slot servers : forall n, untouched (count_acks slot servers n).
Proof. pose proof allowed. induction servers; intros n; cbn [count_acks]; walk. Qed.
Hint Resolve within_count_acks : frame.

Lemma within_remaining seq n : untouched (upd seq (with_remaining n)).
Proof. apply (within_with_remaining any_fault allowed). Qed.
Hint Resolve within_remaining : frame.

Lemma within_fill_hole id : untouched (fill_hole id).
Proof. pose proof allowed. unfold fill_hole. walk. apply within_act. exact I. Qed.
Hint Resolve within_fill_hole : frame.

Lemma within_certificate_acks slot servers : forall used count,
  untouched (certificate_acks VAR slot servers used count).
Proof. pose proof allowed. induction servers; intros used count; cbn [certificate_acks]; walk. Qed.
Hint Resolve within_certificate_acks : frame.

Lemma within_Construct_PO_Certificate rep slot : untouched (CATCH_Construct_PO_Certificate VAR rep slot).
Proof. pose proof allowed. unfold CATCH_Construct_PO_Certificate, UTIL_Message_Size, MT_Digests_. walk. Qed.
Hint Resolve within_Construct_PO_Certificate : frame.

Lemma within_raise_cum_aru fuel s : forall ps, untouched (raise_cum_aru VAR fuel s ps).
Proof. pose proof allowed. induction fuel as [|fuel IH]; intros ps; cbn [raise_cum_aru]; walk. Qed.
Hint Resolve within_raise_cum_aru : frame.

Lemma within_Update_Cum_ARU s : untouched (PRE_ORDER_Update_Cum_ARU VAR s).
Proof. pose proof allowed. unfold PRE_ORDER_Update_Cum_ARU. walk. Qed.
Hint Resolve within_Update_Cum_ARU : frame.

Lemma within_ack_requests sm inc js : forall parts, untouched (ack_requests sm inc js parts).
Proof. pose proof allowed. induction js; intros parts; cbn [ack_requests]; walk. Qed.
Hint Resolve within_ack_requests : frame.

Lemma within_ack_servers send_all servers : forall parts, untouched (ack_servers send_all servers parts).
Proof.
  pose proof allowed. induction servers; intros parts; cbn [ack_servers]; unfold ack_from, counting_up; walk.
Qed.
Hint Resolve within_ack_servers : frame.

Lemma within_send_po_acks fuel : untouched (send_po_acks VAR fuel).
Proof.
  pose proof allowed. induction fuel as [|fuel IH]; cbn [send_po_acks]; [intros r; exact I|].
  unfold PRE_ORDER_Construct_PO_Ack. walk; apply within_act; exact I.
Qed.
Hint Resolve within_send_po_acks : frame.

Lemma within_Send_PO_Ack : untouched (PRE_ORDER_Send_PO_Ack VAR).
Proof. pose proof allowed. unfold PRE_ORDER_Send_PO_Ack, in_normal_operation. walk. Qed.
Hint Resolve within_Send_PO_Ack : frame.

Lemma within_Process_PO_Request m : untouched (PRE_ORDER_Process_PO_Request VAR m).
Proof. pose proof allowed. unfold PRE_ORDER_Process_PO_Request. walk. Qed.

Lemma within_Send_PO_ARU : untouched (PRE_ORDER_Send_PO_ARU VAR).
Proof.
  pose proof allowed. unfold PRE_ORDER_Send_PO_ARU, in_normal_operation, PRE_ORDER_Construct_PO_ARU. walk.
  apply within_act. exact I.
Qed.
Hint Resolve within_Send_PO_ARU : frame.

Lemma within_raise_max sender i ps : untouched (raise_max_acked sender i ps).
Proof. apply (within_raise_max_acked any_fault allowed). Qed.
Hint Resolve within_raise_max : frame.

Lemma within_Process_PO_Ack m : untouched (PRE_ORDER_Process_PO_Ack VAR m).
Proof.
  pose proof allowed. unfold PRE_ORDER_Process_PO_Ack. walk.
  induction (ak_parts m); cbn [process_ack_parts]; unfold PRE_ORDER_Process_PO_Ack_Part; walk.
Qed.
End Handlers.

(** ** Certified requests *)
Section Certified.
Context {crypto : Crypto} {R : Type} (VAR : server_variables).
Abbreviation state := (order_state (E := po_data (R := R))).
Abbreviation M := (comp state).
Implicit Types (r : state) (e : po_data (R := R)).

(** Server [i]'s acknowledgement has the digest of the request. *)
Definition acked_by (slot : po_slot) (i : Z) : bool :=
  match aget (ack_received slot) i, aget (ack_parts slot) i with
  | Some true, Some (Some part) => OPENSSL_RSA_Digests_Equal (po_request_digest slot) (part_digest part)
  | _, _ => false
  end.

Definition acknowledgers (slot : po_slot) : list Z := List.filter (acked_by slot) (seqZ 1 NUM_SERVERS).

(** The request is there, and 2f+k+1 servers have acknowledged it. *)
Definition certified e (s : Z) (ps : po_seq_pair) : Prop :=
  exists slot, PO_History e !! mkPoId s ps = Some slot /\ is_Some (po_request slot) /\
    2 * NUM_F + NUM_K + 1 <= Z.of_nat (length (acknowledgers slot)).

Lemma wp_count_acks F (HF : F OutOfBounds) slot servers : forall n r,
  wp F (count_acks slot servers n)
    (fun m r' => r' = r /\ m = n + Z.of_nat (length (List.filter (acked_by slot) servers))) (r : state).
Proof.
  induction servers as [|i servers IH]; intros n r; cbn [count_acks List.filter].
  - apply wp_ret. split; [reflexivity|cbn; lia].
  - apply wp_bind, wp_or_oob; [exact HF|]. intros received Er.
    destruct received; cbn [negb].
    + apply wp_bind, wp_or_oob; [exact HF|]. intros part Ep. destruct part as [part|]; [|exact HF].
      unfold acked_by at 1. rewrite Er, Ep. destruct (OPENSSL_RSA_Digests_Equal _ _); cbn [negb].
      * eapply wp_conseq; [apply IH|]. cbv beta. intros m t [-> ->]. split; [reflexivity|cbn [length]; lia].
      * eapply wp_conseq; [apply IH|]. cbv beta. auto.
    + eapply wp_conseq; [apply IH|]. cbv beta. unfold acked_by at 2. rewrite Er. auto.
Qed.

(** What makes a slot certified does not change. *)
Definition same_acks (slot slot' : po_slot) : Prop :=
  po_request slot' = po_request slot /\ po_request_digest slot' = po_request_digest slot /\
  ack_received slot' = ack_received slot /\ ack_parts slot' = ack_parts slot.

Definition same_history e e' : Prop :=
  forall id, match PO_History e !! id, PO_History e' !! id with
             | Some slot, Some slot' => same_acks slot slot'
             | None, None => True
             | _, _ => False
             end.

#[local] Instance same_history_preorder : PreOrder same_history.
Proof.
  split.
  - intros e id. destruct (PO_History e !! id); [repeat split|exact I].
  - intros e1 e2 e3 H1 H2 id. specialize (H1 id). specialize (H2 id).
    destruct (PO_History e1 !! id), (PO_History e2 !! id), (PO_History e3 !! id); try contradiction; auto.
    destruct H1 as (?&?&?&?), H2 as (?&?&?&?). repeat split; congruence.
Qed.

Lemma acknowledgers_same slot slot' : same_acks slot slot' -> acknowledgers slot' = acknowledgers slot.
Proof.
  intros (_ & E1 & E2 & E3). unfold acknowledgers. apply List.filter_ext. intros i. unfold acked_by.
  rewrite E1, E2, E3. reflexivity.
Qed.

Lemma certified_same e e' s ps : same_history e e' -> certified e s ps -> certified e' s ps.
Proof.
  intros H (slot & Es & Hr & Hn). specialize (H (mkPoId s ps)). rewrite Es in H.
  destruct (PO_History e' !! mkPoId s ps) as [slot'|] eqn:Es'; [|contradiction].
  exists slot'. split; [exact Es'|]. rewrite (acknowledgers_same _ _ H). destruct H as (-> & _). auto.
Qed.

Lemma same_history_sym e e' : same_history e e' -> same_history e' e.
Proof.
  intros H id. specialize (H id). destruct (PO_History e !! id), (PO_History e' !! id); auto.
  destruct H as (?&?&?&?). repeat split; congruence.
Qed.

Lemma same_history_put e id slot slot' :
  PO_History e !! id = Some slot -> same_acks slot slot' ->
  same_history e (with_PO_History (<[id := slot']> (PO_History e)) e).
Proof.
  intros Es Hs id'. cbn. destruct (decide (id' = id)) as [->|Hne].
  - rewrite Es, lookup_insert_eq. exact Hs.
  - rewrite lookup_insert_ne by congruence. destruct (PO_History e !! id'); [repeat split|exact I].
Qed.

(** [fill_hole] touches neither the slots nor the lines. *)
Definition po_kept r r' : Prop :=
  PO_History (others r') = PO_History (others r) /\ cum_aru (others r') = cum_aru (others r) /\
  last_executed_po_reqs (others r') = last_executed_po_reqs (others r).

Lemma wp_fill_hole F (HF : F OutOfBounds) id r : wp F (fill_hole id) (fun _ r' => po_kept r r') r.
Proof.
  unfold fill_hole. apply wp_bind, wp_bind, wp_get, wp_ret.
  destruct (_ !! _) as [gseq|]; [|apply wp_ret; repeat split; reflexivity].
  apply wp_bind, wp_modify, wp_bind. unfold UTIL_Get_ORD_Slot_If_Exists. apply wp_bind, wp_get, wp_ret.
  destruct (_ !! gseq) as [slot|] eqn:Es; [|apply wp_ret; repeat split; reflexivity].
  apply wp_bind, (wp_upd F _ _ slot); [exact Es|].
  destruct (_ =? _); [apply wp_modify|apply wp_ret]; repeat split; reflexivity.
Qed.

(** The pairs after [ps], in the 32 bits of their numbers. *)
Definition after (k : nat) (ps : po_seq_pair) : po_seq_pair := Nat.iter k next_pair ps.

Lemma after_S k ps : after (S k) ps = after k (next_pair ps).
Proof. unfold after. rewrite <- Nat.iter_succ_r. reflexivity. Qed.

(** The loop stops with the longest run of certified pairs from [ps] on. *)
Definition cum_after (n : nat) (s : Z) (ps : po_seq_pair) (l : list po_seq_pair) : list po_seq_pair :=
  match n with O => l | S k => <[Z.to_nat s := after k ps]> l end.

Definition raised (s : Z) (ps : po_seq_pair) (n : nat) r r' : Prop :=
  (forall k, (k < n)%nat -> certified (others r) s (after k ps)) /\ ~ certified (others r) s (after n ps) /\
  same_history (others r) (others r') /\ cum_aru (others r') = cum_after n s ps (cum_aru (others r)) /\
  last_executed_po_reqs (others r') = last_executed_po_reqs (others r).

(** Its faults: a certificate cannot be made; the numbers are all certified. *)
Definition raise_fault r (s : Z) (ps : po_seq_pair) (fuel : nat) (f : fault) : Prop :=
  f <> Endless /\ f <> OutOfFuel \/ f = Endless /\ forall k, (k < fuel)%nat -> certified (others r) s (after k ps).

(** Making a certificate only reads. *)
Lemma wp_certificate_acks (F : fault -> Prop) (HO : F OutOfBounds) (HE : F Exit) slot servers : forall used count r Q,
  (forall l, Q l r) -> wp F (certificate_acks VAR slot servers used count) Q (r : state).
Proof.
  induction servers as [|i servers IH]; intros used count r Q HQ; cbn [certificate_acks]; [apply wp_ret, HQ|].
  destruct (_ <=? count); [apply wp_ret, HQ|]. apply wp_bind, wp_or_oob; [exact HO|]. intros [ack|] _; [|apply IH, HQ].
  destruct (negb _); [apply IH, HQ|]. destruct (_ <=? used + _); [apply wp_raise, HE|].
  apply wp_bind, IH. intros l. apply wp_ret, HQ.
Qed.

Lemma wp_Construct_PO_Certificate (F : fault -> Prop) (HO : F OutOfBounds) (HE : F Exit) (HA : F AssertFailure) rep slot r Q :
  (forall c, Q c r) -> wp F (CATCH_Construct_PO_Certificate VAR rep slot) Q (r : state).
Proof.
  intros HQ. unfold CATCH_Construct_PO_Certificate. apply wp_bind, wp_get, wp_bind, wp_or_oob; [exact HO|]. intros req _.
  assert (HM : forall Q', (forall x, Q' x r) -> wp F (UTIL_Message_Size req 0) Q' r).
  { intros Q' H'. unfold UTIL_Message_Size, MT_Digests_.
    apply wp_bind, wp_load; [exact HO|]. intros len _. apply wp_bind, wp_load; [exact HO|]. intros n _. apply wp_bind.
    repeat (destruct (_ <=? _); [apply wp_ret, wp_ret, H'|]). apply wp_raise, HE. }
  apply wp_bind, HM. intros size. apply wp_bind, wp_load_bytes; [exact HO|]. intros m _. cbv zeta. apply wp_bind.
  destruct (_ <? _); [apply wp_raise, HO|]. apply wp_ret, wp_bind, wp_certificate_acks; [exact HO|exact HE|]. intros l.
  apply wp_bind. unfold assert_. destruct (_ =? _); [apply wp_ret, wp_ret, HQ|apply wp_raise, HA].
Qed.

Lemma wp_raise_cum_aru fuel s : forall ps r,
  wp (raise_fault r s ps fuel) (raise_cum_aru VAR fuel s ps) (fun _ r' => exists n, raised s ps n r r') r.
Proof.
  induction fuel as [|fuel IH]; intros ps r; cbn [raise_cum_aru].
  { apply wp_raise. right. split; [reflexivity|]. intros k Hk. lia. }
  assert (Hother : forall f, f <> Endless -> f <> OutOfFuel -> raise_fault r s ps (S fuel) f) by (left; auto).
  assert (HO : raise_fault r s ps (S fuel) OutOfBounds) by (apply Hother; discriminate).
  assert (Hstop : forall r1, r1 = r -> ~ certified (others r) s ps ->
    wp (raise_fault r s ps (S fuel)) (ret tt) (fun _ r' => exists n, raised s ps n r r') r1).
  { intros r1 -> Hn. apply wp_ret. exists O. split; [intros k Hk; lia|]. split; [exact Hn|].
    split; [reflexivity|]. split; reflexivity. }
  unfold UTIL_Get_PO_Slot_If_Exists. apply wp_bind. destruct (negb _); [apply wp_raise; exact HO|].
  apply wp_bind, wp_bind, wp_get, wp_ret, wp_ret.
  destruct (PO_History (others r) !! mkPoId s ps) as [slot|] eqn:Es.
  2:{ apply Hstop; [reflexivity|]. intros (slot & E & _). congruence. }
  destruct (po_request slot) as [req|] eqn:Er.
  2:{ apply Hstop; [reflexivity|]. intros (slot' & E & [x Hx] & _). congruence. }
  apply wp_bind. eapply wp_conseq; [apply wp_count_acks; exact HO|]. cbv beta. intros m r1 [-> ->].
  fold (acknowledgers slot). rewrite Z.add_0_l.
  destruct (Z.ltb_spec (Z.of_nat (length (acknowledgers slot))) (2 * NUM_F + NUM_K + 1)) as [Hlt|Hge].
  { apply Hstop; [reflexivity|]. intros (slot' & E & _ & Hn). replace slot' with slot in Hn by congruence. lia. }
  assert (Hcert : certified (others r) s ps) by (exists slot; rewrite Er; eauto).
  apply wp_bind, wp_get. cbv zeta. set (slot1 := if po_snapshot slot then _ else _).
  apply wp_bind, wp_Construct_PO_Certificate; [apply Hother; discriminate..|]. intros cert.
  assert (Hs1 : same_acks slot (with_po_cert cert false slot1)) by (unfold slot1; destruct (po_snapshot slot); repeat split).
  apply wp_bind, wp_modify. unfold set_server, po. apply wp_bind, wp_bind, wp_bind, wp_get, wp_ret.
  apply wp_bind, wp_or_oob; [exact HO|]. intros l El. cbn in El. apply wp_modify, wp_bind, wp_modify.
  apply wp_bind. eapply wp_conseq; [apply wp_fill_hole; exact HO|]. cbv beta. intros _ r2 (EH & EC & EL). cbn in EH, EC, EL.
  assert (Hh : same_history (others r) (others r2)).
  { etransitivity; [eapply same_history_put; eassumption|]. intros id. rewrite EH. cbn.
    destruct (_ !! id); [repeat split|exact I]. }
  apply (wp_fault (raise_fault r2 s (next_pair ps) fuel)).
  { intros f [Hf|[Hf Hk]]; [left; exact Hf|right]. split; [exact Hf|]. intros [|k] Hlt; [exact Hcert|].
    rewrite after_S. apply (certified_same _ _ _ _ (same_history_sym _ _ Hh)), Hk. lia. }
  eapply wp_conseq; [apply IH|]. cbv beta. intros _ r3 (n & H1 & H2 & H3 & H4 & H5). exists (S n).
  split; [|split; [|split]].
  - intros [|k] Hk; [exact Hcert|]. rewrite after_S.
    apply (certified_same _ _ _ _ (same_history_sym _ _ Hh)), H1. lia.
  - rewrite after_S. intros Hc. apply H2. exact (certified_same _ _ _ _ Hh Hc).
  - etransitivity; eassumption.
  - split; [|congruence]. unfold aset in El. destruct (in_bounds _ _); [|discriminate]. injection El as <-.
    rewrite H4, EC. destruct n as [|k]; cbn [cum_after]; [reflexivity|].
    rewrite list_insert_insert_eq, <- after_S. reflexivity.
Qed.

(** The fuel runs out only when the table holds every number of the incarnation. *)
Lemma after_pair k ps : is_u32 (seq_num ps) -> after k ps = mkPS (incarnation ps) (wrap32 (seq_num ps + Z.of_nat k)).
Proof.
  intros Hu. induction k as [|k IH].
  - cbn. rewrite Z.add_0_r, wrap32_small by exact Hu. destruct ps; reflexivity.
  - change (after (S k) ps) with (next_pair (after k ps)). rewrite IH. unfold next_pair. cbn [incarnation seq_num].
    f_equal. unfold wrap32. rewrite Zplus_mod_idemp_l. f_equal. lia.
Qed.

Lemma after_inj j k ps :
  is_u32 (seq_num ps) -> Z.of_nat j < two32 -> Z.of_nat k < two32 -> after j ps = after k ps -> j = k.
Proof.
  intros Hu Hj Hk. rewrite !after_pair by exact Hu. intros [= E]. unfold wrap32, is_u32 in *.
  rewrite (Z.mod_eq (_ + Z.of_nat j)), (Z.mod_eq (_ + Z.of_nat k)) in E by (unfold two32; lia).
  assert (Hq : forall i, Z.of_nat i < two32 ->
    (seq_num ps + Z.of_nat i) / two32 = 0 \/ (seq_num ps + Z.of_nat i) / two32 = 1).
  { intros i Hi. pose proof (Z.div_pos (seq_num ps + Z.of_nat i) two32).
    pose proof (Z.div_lt_upper_bound (seq_num ps + Z.of_nat i) two32 2). lia. }
  destruct (Hq j Hj) as [Ej|Ej], (Hq k Hk) as [Ek|Ek]; rewrite Ej, Ek in E; lia.
Qed.

Lemma run_fits e s ps (n : nat) :
  is_u32 (seq_num ps) -> Z.of_nat n <= two32 ->
  (forall k, (k < n)%nat -> certified e s (after k ps)) -> (n <= size (PO_History e))%nat.
Proof.
  intros Hu Hn H. rewrite <- size_dom.
  set (X := list_to_set (map (fun k => mkPoId s (after k ps)) (seq 0 n)) : gset po_id).
  assert (Hsize : size X = n).
  { unfold X. rewrite size_list_to_set; [rewrite length_map, length_seq; reflexivity|].
    apply NoDup_fmap_2_strong; [|apply NoDup_seq]. intros j k Hj Hk [= E].
    apply elem_of_seq in Hj, Hk. apply (after_inj j k ps); [exact Hu|lia|lia|exact E]. }
  rewrite <- Hsize. apply subseteq_size. intros id Hid.
  apply elem_of_list_to_set, list_elem_of_fmap in Hid as (k & -> & Hk). apply elem_of_seq in Hk.
  destruct (H k) as (slot & Es & _); [lia|]. apply elem_of_dom. eauto.
Qed.
End Certified.

(** ** Properties of the lines *)
Section Lines.
Context {R : Type} (VAR : server_variables).
Implicit Types (r : order_state (E := po_data (R := R))).

Lemma wp_Update_Cum_ARU s r pre cum :
  aget (preinstalled_incarnations r) s = Some pre -> aget (cum_aru (others r)) s = Some cum ->
  wp (raise_fault r s (cum_aru_from pre cum) (S (size (PO_History (others r)))))
    (PRE_ORDER_Update_Cum_ARU VAR s) (fun _ r' => exists n, raised s (cum_aru_from pre cum) n r r') r.
Proof.
  intros Hp Hc. unfold PRE_ORDER_Update_Cum_ARU, po, at_server. apply wp_bind, wp_get.
  apply wp_bind, wp_bind, wp_get, wp_ret. rewrite Hp. apply wp_bind, wp_ret. rewrite Hc. apply wp_bind, wp_ret.
  apply wp_raise_cum_aru.
Qed.

Lemma cum_aru_from_u32 pre cum : is_u32 (seq_num (cum_aru_from pre cum)).
Proof. unfold cum_aru_from, next_pair, is_u32. cbn. apply wrap32_bounds. Qed.

(** C22. PRE_ORDER_Update_Cum_ARU raises cum_aru of a server to the end of the
    longest run of certified PO-Requests after it, where certified means that the
    request is held and 2f+k+1 servers have acknowledged it with its digest; it
    raises it past no other, and stops at the first that is not certified. *)
Theorem cum_aru_certified s r r' pre cum
    (Hpre : aget (preinstalled_incarnations r) s = Some pre)
    (Hcum : aget (cum_aru (others r)) s = Some cum)
    (Hrun : PRE_ORDER_Update_Cum_ARU VAR s r = Ret (tt, r')) :
  let first := cum_aru_from pre cum in
  exists n : nat, (forall k, (k < n)%nat -> certified (others r) s (after k first)) /\
    ~ certified (others r) s (after n first) /\
    aget (cum_aru (others r')) s = Some (match n with O => cum | S k => after k first end).
Proof.
  intros first. destruct (wp_Ret _ _ _ _ _ _ (wp_Update_Cum_ARU s r pre cum Hpre Hcum) Hrun) as (n & H1 & H2 & _ & H4 & _).
  exists n. split; [exact H1|]. split; [exact H2|]. rewrite H4.
  destruct n as [|k]; cbn [cum_after]; [exact Hcum|]. apply aget_Some_bounds in Hcum.
  apply (aget_aset_eq (cum_aru (others r)) _ s). apply aset_Some, Hcum.
Qed.

(** Raising cum_aru ends: with fewer slots than there are 32-bit numbers, the
    loop over the certified requests comes to one that is not, whatever is in the
    table; the walk returns or leaves an array, but does not go on for ever. *)
Theorem cum_aru_terminates s r
    (Hsize : Z.of_nat (size (PO_History (others r))) < two32) :
  PRE_ORDER_Update_Cum_ARU VAR s r <> Fault Endless /\ PRE_ORDER_Update_Cum_ARU VAR s r <> Fault OutOfFuel.
Proof.
  destruct (aget (preinstalled_incarnations r) s) as [pre|] eqn:Hp.
  2:{ unfold PRE_ORDER_Update_Cum_ARU, po, at_server, bind, get, ret. rewrite Hp. split; discriminate. }
  destruct (aget (cum_aru (others r)) s) as [cum|] eqn:Hc.
  2:{ unfold PRE_ORDER_Update_Cum_ARU, po, at_server, bind, get, ret. rewrite Hp. cbn. rewrite Hc. split; discriminate. }
  pose proof (wp_Update_Cum_ARU s r pre cum Hp Hc) as H. unfold wp in H.
  destruct (PRE_ORDER_Update_Cum_ARU VAR s r) as [[a t]|f]; [split; discriminate|].
  destruct H as [[]|[-> Hk]]; [split; congruence|exfalso].
  pose proof (run_fits _ s _ (S (size (PO_History (others r)))) (cum_aru_from_u32 pre cum) ltac:(lia) Hk). lia.
Qed.

(** The servers whose stored PO-Ack carries this vector of incarnations. *)
Definition carries_vector (vec : list Z) (slot : po_slot) (i : Z) : bool :=
  match aget (acks slot) i with
  | Some (Some ack) => bool_decide (ak_preinstalled ack = vec)
  | _ => false
  end.

(** A stored PO-Ack has the part it is stored for. *)
Definition acks_whole (slot : po_slot) : Prop :=
  Z.of_nat (length (acks slot)) = NUM_SERVER_SLOTS /\
  forall i ack, aget (acks slot) i = Some (Some ack) -> ak_parts ack <> [] /\ 0 <= ak_digests ack.

Definition least_ack : Z := sz_signed_message + sz_po_ack_message + sz_po_ack_part.

Lemma certificate_exits slot servers : forall used count r,
  acks_whole slot -> Forall (fun i => 1 <= i <= NUM_SERVERS) servers ->
  let missing := 2 * VF VAR + VK VAR + 1 - count in
  0 < missing <= Z.of_nat (length (List.filter (carries_vector (vector_of (po_snapshot_vector slot)) slot) servers)) ->
  PRIME_MAX_PACKET_SIZE <= used + missing * least_ack ->
  certificate_acks VAR slot servers used count r = Fault Exit.
Proof.
  induction servers as [|i servers IH]; intros used count r [Hl Hw] Hs missing Hm Hbig; cbn [List.filter certificate_acks] in *.
  { cbn in Hm. lia. }
  inversion Hs as [|? ? Hi Hs']; subst.
  destruct (Z.leb_spec (2 * VF VAR + VK VAR + 1) count); [subst missing; lia|].
  destruct (aget_is_Some (acks slot) i) as [a Ea]; [change NUM_SERVER_SLOTS with 7 in Hl; change NUM_SERVERS with 6 in Hi; lia|].
  unfold carries_vector at 1 in Hm. unfold at_server, bind. rewrite Ea in *. cbn [or_oob ret].
  destruct a as [ack|]; [|apply IH; auto; split; assumption].
  destruct (bool_decide _) eqn:Ev; cbn [negb]; [|apply IH; auto; split; assumption].
  destruct (Z.leb_spec PRIME_MAX_PACKET_SIZE (used + po_ack_size ack)); [reflexivity|].
  destruct (Hw i ack Ea) as [Hp Hd].
  assert (Hsize : least_ack <= po_ack_size ack).
  { unfold least_ack, po_ack_size, sz_signed_message, sz_po_ack_message, sz_po_ack_part, DIGEST_SIZE. destruct (ak_parts ack); [congruence|]. cbn [length]. lia. }
  cbn [length] in Hm. rewrite IH; [reflexivity|split; assumption|exact Hs'| |].
  - split; [|lia]. unfold missing in *.
    destruct (Z.eq_dec (2 * VF VAR + VK VAR + 1 - count) 1) as [E1|]; [|lia]. rewrite E1 in Hbig. lia.
  - unfold missing in *. lia.
Qed.

End Lines.

#[local] Existing Instance prefix_digest.

(** A slot for a request that servers 1 to 4 acknowledge. *)
Definition acked_with (req : list byte) : po_slot :=
  let part := mkPart 1 first_pair (make_digest req) in
  let ack i := {| ak_machine_id := i; ak_incarnation := 0; ak_preinstalled := repeat 0 (Z.to_nat NUM_SERVERS);
                  ak_parts := [part]; ak_digests := 0 |} in
  store_ack (<[1%nat := true]> (<[2%nat := true]> (<[3%nat := true]> (<[4%nat := true]> (per_server_slot false)))))
    (<[1%nat := Some (ack 1)]> (<[2%nat := Some (ack 2)]> (<[3%nat := Some (ack 3)]> (<[4%nat := Some (ack 4)]> (per_server_slot None)))))
    (<[1%nat := Some part]> (<[2%nat := Some part]> (<[3%nat := Some part]> (<[4%nat := Some part]> (per_server_slot None)))))
    (store_request req (make_digest req) (new_po_slot first_pair)).

Definition acked_slot : po_slot := acked_with toy_request.

Definition acked_start : order_state :=
  set_others (with_PO_History {[ first_id := acked_slot ]} (with_cum_aru (per_server_slot (mkPS 0 0)) toy_po)) exec_start.

Lemma acked_runs : exists r', PRE_ORDER_Update_Cum_ARU (Init_VAR 2) 1 acked_start = Ret (tt, r') /\
  aget (cum_aru (others r')) 1 = Some first_pair.
Proof.
  assert (H : match PRE_ORDER_Update_Cum_ARU (Init_VAR 2) 1 acked_start with
              | Ret (_, r') => bool_decide (aget (cum_aru (others r')) 1 = Some first_pair) | Fault _ => false end = true)
    by (vm_compute; reflexivity).
  destruct (PRE_ORDER_Update_Cum_ARU _ _ _) as [[[] r']|f]; [|discriminate].
  apply bool_decide_eq_true in H. eauto.
Qed.

Lemma cum_aru_certified_witness :
  exists n : nat, (forall k, (k < n)%nat -> certified (others acked_start) 1 (after k first_pair)) /\
    ~ certified (others acked_start) 1 (after n first_pair) /\
    Some first_pair = Some (match n with O => mkPS 0 0 | S k => after k first_pair end).
Proof.
  destruct acked_runs as (r' & E & Hc). rewrite <- Hc.
  apply (@cum_aru_certified unit (Init_VAR 2) 1 acked_start r' 0 (mkPS 0 0)); [vm_compute; reflexivity..|exact E].
Defined.

Lemma cum_aru_terminates_witness :
  PRE_ORDER_Update_Cum_ARU (Init_VAR 2) 1 acked_start <> Fault Endless /\
  PRE_ORDER_Update_Cum_ARU (Init_VAR 2) 1 acked_start <> Fault OutOfFuel.
Proof. apply (@cum_aru_terminates unit (Init_VAR 2) 1 acked_start). vm_compute. reflexivity. Defined.
