(* ===== verification/Updates.v ===== *)
(** The updates of clients on their way to the other replicas, and what the timers
    of [prime/src/pre_order.c] send again; [PRE_ORDER_Construct_PO_Request] and
    [PRE_ORDER_Construct_Update] of [packets.c].

    Updates wait in [po_request_dll] until they are copied, one behind the other,
    into a PO-Request of this replica; no more than [MAX_PO_IN_FLIGHT] of these are
    on their way at a time.  [UTIL_I_Am_Faulty], by which an attack is simulated, is
    0 with the constants of [def.h], so that a PO-Request goes to all. *)
From Stdlib Require Import ZArith Lia List Bool.
From Stdlib Require Import Strings.Byte.
From stdpp Require Import base list gmap.
From S2P Require Import Prelude Memory Config Packets Crypto Utility Eligibility OrderState PreOrderState Order PreOrder Execute.

Section Updates.
Context {crypto : Crypto} {signer : Signer} {R : Type} {ext : External R} (VAR : server_variables).

Abbreviation M := (comp (order_state (E := po_data (R := R)))).

(** ** PO-Requests *)
(** The bytes a message may have when its Merkle digests are still to come. *)
Definition cutoff : Z := PRIME_MAX_PACKET_SIZE - DIGEST_SIZE * MAX_MERKLE_DIGESTS.

(** The updates from the front of the queue that fit behind [bytes] bytes, what is
    left of the queue and the bytes then; a first request of a recovering replica
    takes one. *)
Fixpoint bundle (special_first : bool) (queue : list (list byte)) (bytes : Z)
    : M (list (list byte) * list (list byte) * Z) :=
  if cutoff <=? bytes then ret ([], queue, bytes) else
  match queue with
  | [] => ret ([], [], bytes)
  | mess :: queue' =>
      len <- load mess 4 o_signed_message_len ;;
      let this_mess_len := wrap32 (len + sz_signed_message) in
      if wrap32 (bytes + this_mess_len) <? cutoff then
        m <- load_bytes mess 0 this_mess_len ;;
        let bytes := wrap32 (bytes + this_mess_len) in
        if special_first then ret ([m], queue', bytes) else
        more <- bundle special_first queue' bytes ;;
        ret (m :: fst (fst more), snd (fst more), snd more)
      else ret ([], queue, bytes)
  end.

(** Whether the request is a recovering replica's first, which holds its own first
    update; [None] when that is not there yet. *)
Definition first_of_recovery : M (option bool) :=
  e <- po ;;
  st <- at_server (recovery_status e) (My_Server_ID VAR) ;;
  if negb ((st =? PR_RECOVERY) && (seq_num (po_seq e) =? 0)) then ret (Some false) else
  match po_request_dll e with
  | [] => ret None
  | mess :: _ =>
      machine_id <- load mess 4 o_signed_message_machine_id ;;
      seq <- load mess 4 (sz_signed_message + o_update_message_seq_num) ;;
      ret (if negb (machine_id =? My_Server_ID VAR) || negb (seq =? 1) then None else Some true)
  end.

(** The header of a PO-Request with these contents. *)
Definition po_request_header (incarnation_ : Z) (seq : po_seq_pair) (tpm : bool) (num_events bytes : Z) : list byte :=
  let m := zeros (sz_signed_message + sz_po_request_message) in
  let m := put_u32 o_signed_message_machine_id (My_Server_ID VAR) m in
  let m := put_u32 o_signed_message_incarnation incarnation_ m in
  let m := put_u32 o_signed_message_type (type_val PO_REQUEST) m in
  let m := put_u32 o_signed_message_monotonic_counter (if tpm then 1 else 0) m in
  let m := put_u32 o_signed_message_len (wrap32 (bytes - sz_signed_message)) m in
  let m := put_u32 (sz_signed_message + o_po_request_message_seq + o_po_seq_pair_incarnation) (incarnation seq) m in
  let m := put_u32 (sz_signed_message + o_po_request_message_seq + o_po_seq_pair_seq_num) (seq_num seq) m in
  put_u32 (sz_signed_message + o_po_request_message_num_events) num_events m.

Definition PRE_ORDER_Construct_PO_Request : M (option (list byte)) :=
  first <- first_of_recovery ;;
  match first with
  | None => ret None
  | Some special_first =>
      r <- get ;;
      po_update (fun e => with_po_seq (next_pair (po_seq e)) e) ;;;
      e <- po ;;
      taken <- bundle special_first (po_request_dll e) (sz_signed_message + sz_po_request_message) ;;
      let '(events, queue, bytes) := taken in
      po_update (with_po_request_dll queue) ;;;
      let num_events := Z.of_nat (length events) in
      ret (Some (po_request_header (new_incarnation_val r) (po_seq e) (special_first && (0 <? num_events)) num_events bytes
                 ++ concat events))
  end.

(** [counter] is how many were sent; the loop is cut at 500. *)
Fixpoint send_po_requests (fuel : nat) (counter : Z) : M unit :=
  match fuel with
  | O => raise OutOfFuel
  | S fuel =>
      e <- po ;;
      match po_request_dll e with
      | [] => ret tt
      | _ :: _ =>
          if MAX_PO_IN_FLIGHT <=? wrap32 (seq_num (po_seq e) - seq_num (po_seq_executed e))
          then po_update (with_reading_clients false) else
          po_request_ <- PRE_ORDER_Construct_PO_Request ;;
          match po_request_ with
          | None => ret tt
          | Some m =>
              modify (act (Send_PO_Request m)) ;;;
              assert_ (negb (counter + 1 =? 500)) ;;;
              send_po_requests fuel (counter + 1)
          end
      end
  end.

Definition PRE_ORDER_Send_PO_Request : M unit := send_po_requests 500 0.

(** ** Taking in updates *)
(** The update a replica makes of itself. *)
Definition PRE_ORDER_Construct_Update (type : Z) : M (list byte) :=
  e <- po ;;
  own <- at_server (intro_client_seq e) (My_Server_ID VAR) ;;
  st <- at_server (recovery_status e) (My_Server_ID VAR) ;;
  let ps := next_pair own in
  let m := zeros sz_signed_update_message in
  let m := put_u32 o_signed_message_machine_id (My_Server_ID VAR) m in
  let m := put_u32 o_signed_message_type (type_val UPDATE) m in
  let m := put_u32 o_signed_message_len (sz_signed_update_message - sz_signed_message) m in
  let m := put_u32 o_signed_message_incarnation (incarnation ps) m in
  let m := put_u32 o_signed_message_monotonic_counter
             (if (st =? PR_RECOVERY) && (seq_num ps =? 1) then 1 else 0) m in
  let m := put_u32 (sz_signed_message + o_update_message_server_id) (My_Server_ID VAR) m in
  let m := put_u32 (sz_signed_message + o_update_message_seq_num) (seq_num ps) m in
  let c := sz_signed_message + sz_update_message in
  let m := put_u32 (c + o_signed_message_machine_id) (My_Server_ID VAR) m in
  let m := put_u32 (c + o_signed_message_type) type m in
  ret (UTIL_RSA_Sign_Message m).

(** The number an update is taken in with: an unnumbered request for a state
    transfer from the replica's own master gets the next one. *)
Definition stamp (update : list byte) : M (po_seq_pair * list byte) :=
  machine_id <- load update 4 o_signed_message_machine_id ;;
  inc <- load update 4 o_signed_message_incarnation ;;
  seq <- load update 4 (sz_signed_message + o_update_message_seq_num) ;;
  type <- load update 4 (sz_signed_message + sz_update_message + o_signed_message_type) ;;
  if (machine_id =? My_Server_ID VAR) && (type =? CLIENT_STATE_TRANSFER) && (inc =? 0) && (seq =? 0) then
    e <- po ;;
    own <- at_server (intro_client_seq e) (My_Server_ID VAR) ;;
    let ps := next_pair own in
    ret (ps, UTIL_RSA_Sign_Message
               (put_u32 (sz_signed_message + o_update_message_seq_num) (seq_num ps)
                  (put_u32 o_signed_message_incarnation (incarnation ps) update)))
  else ret (mkPS inc seq, update).

Definition PRE_ORDER_Process_Update (update : list byte) : M unit :=
  stamped <- stamp update ;;
  let '(ps, update) := stamped in
  server_id <- load update 4 (sz_signed_message + o_update_message_server_id) ;;
  e <- po ;;
  last <- at_server (intro_client_seq e) server_id ;;
  if PRE_ORDER_Seq_Compare ps last <=? 0 then ret tt else
  set_server intro_client_seq with_intro_client_seq server_id ps ;;;
  machine_id <- load update 4 o_signed_message_machine_id ;;
  counter <- load update 4 o_signed_message_monotonic_counter ;;
  st <- at_server (recovery_status e) (My_Server_ID VAR) ;;
  po_update (fun e => with_po_request_dll
    (if (machine_id =? My_Server_ID VAR) && (0 <? counter) && (seq_num ps =? 1) && (st =? PR_RECOVERY)
     then update :: po_request_dll e else po_request_dll e ++ [update]) e) ;;;
  PRE_ORDER_Send_PO_Request.

(** ** Proof matrices *)
Fixpoint apply_proof (m : list byte) (rows : nat) (p : Z) : M unit :=
  match rows with
  | O => ret tt
  | S rows =>
      PreOrder.PRE_ORDER_Process_PO_ARU VAR (drop (Z.to_nat p) m) ;;;
      apply_proof m rows (p + sz_po_aru_signed_message)
  end.

Definition PRE_ORDER_Process_Proof_Matrix (m : list byte) : M unit :=
  machine_id <- load m 4 o_signed_message_machine_id ;;
  if My_Server_ID VAR =? machine_id then ret tt else
  num <- load m 4 (sz_signed_message + o_proof_matrix_message_num_acks_in_this_message) ;;
  apply_proof m (Z.to_nat num) (sz_signed_message + sz_proof_matrix_message).

(** ** The timers *)
(** [UTIL_Broadcast] reads the message it is given. *)
Fixpoint resend_requests (keys : list po_seq_pair) : M unit :=
  match keys with
  | [] => ret tt
  | ps :: keys =>
      e <- po ;;
      last <- at_server (last_executed_po_reqs e) (My_Server_ID VAR) ;;
      (if 0 <? PRE_ORDER_Seq_Compare ps last then
         slot <- UTIL_Get_PO_Slot_If_Exists (My_Server_ID VAR) ps ;;
         match slot ≫= po_request with
         | None => raise OutOfBounds
         | Some m => modify (act (Resend m))
         end
       else ret tt) ;;;
      resend_requests keys
  end.

Fixpoint resend_acks (fuel : nat) : M unit :=
  match fuel with
  | O => raise OutOfFuel
  | S fuel =>
      built <- PRE_ORDER_Construct_PO_Ack VAR true ;;
      let '(ack, more) := built in
      match ack with
      | None => ret tt
      | Some ack => modify (act (Send_PO_Ack ack)) ;;; if (more : bool) then resend_acks fuel else ret tt
      end
  end.

Definition PRE_ORDER_Periodic_Retrans : M unit :=
  e <- po ;;
  resend_requests (hash_order (keys_of (My_Server_ID VAR) (PO_History e))) ;;;
  PRE_ORDER_Update_ARU ;;;
  e <- po ;;
  resend_acks (S (size (PO_History e))) ;;;
  m <- PRE_ORDER_Construct_PO_ARU VAR ;;
  let m := UTIL_RSA_Sign_Message m in
  PreOrder.PRE_ORDER_Process_PO_ARU VAR m ;;;
  modify (act (Send_PO_ARU m)).

(** Of what it may send only the proof matrix is sent periodically. *)
Definition PRE_ORDER_Periodically (function_num : Z) : M unit :=
  if (function_num =? 0) || (function_num =? 1) then ret tt else
  r <- get ;;
  if UTIL_I_Am_Leader VAR (View r) then ret tt else PRE_ORDER_Send_Proof_Matrix VAR.

(** ** Starting and resetting *)
(** Index 0 is not used. *)
Definition for_each_server {A} (x : A) (l : list A) : list A := take 1 l ++ repeat x (Z.to_nat NUM_SERVERS).

Definition PRE_ORDER_Initialize_Data_Structure : M unit :=
  r <- get ;;
  let inc := new_incarnation_val r in
  let zero := mkPS 0 0 in
  e <- po ;;
  clients <- or_oob (aset (take 1 (intro_client_seq e) ++ repeat zero (Z.to_nat NUM_CLIENTS)) (My_Server_ID VAR) (mkPS inc 0)) ;;
  let lines := for_each_server zero in
  po_update (fun e =>
    {| PO_History := ∅; aru := lines (aru e); cum_aru := lines (cum_aru e); max_acked := lines (max_acked e);
       cum_max_acked := take 1 (cum_max_acked e) ++ map lines (take (Z.to_nat NUM_SERVERS) (drop 1 (cum_max_acked e)));
       white_line := lines (white_line e); last_executed_po_reqs := lines (last_executed_po_reqs e);
       cum_aru_updated := false; new_po_aru := false; po_aru_num := 0; po_ack_start_server := 0;
       po_ack_start_seq := zero; po_seq := mkPS inc 0; po_seq_executed := mkPS inc 0; intro_client_seq := clients;
       PO_Pending := ∅; Recon_History := ∅; events_ordered := events_ordered e; recovery_status := recovery_status e;
       num_startup := num_startup e; executed_ord := executed_ord e; po_request_dll := [];
       reading_clients := reading_clients e; rest := rest e |}) ;;;
  modify (fun r => set_cum_acks (zeros (NUM_SERVER_SLOTS * sz_po_aru_signed_message))
                     (set_max_num_sent (lines (max_num_sent_in_proof r)) r)).

Fixpoint clear_slots (i : Z) (keys : list po_seq_pair) : M unit :=
  match keys with
  | [] => ret tt
  | ps :: keys =>
      PRE_ORDER_Garbage_Collect_PO_Slot i ps false ;;;
      po_update (fun e => with_PO_History (delete (mkPoId i ps) (PO_History e)) e) ;;;
      clear_slots i keys
  end.

Definition PRE_ORDER_Upon_Reset : M unit :=
  for_servers (seqZ 1 NUM_SERVERS) (fun i =>
    e <- po ;;
    clear_slots i (hash_order (keys_of i (PO_History e))) ;;;
    po_update (fun e =>
      with_PO_Pending (filter (fun x => po_server_id x.1 <> i) (PO_Pending e))
        (with_Recon_History (filter (fun x => po_server_id x.1 <> i) (Recon_History e)) e))) ;;;
  po_update (with_po_request_dll []).

(** ** What reaches pre-ordering: messages and timers *)
Inductive po_input :=
| In_Update (m : list byte)
| In_PO_Request (m : list byte)
| In_PO_Ack (m : po_ack_mess)
| In_PO_ARU (m : list byte)
| In_Proof_Matrix (m : list byte)
| Periodically (function_num : Z)
| Periodic_Retrans.

Definition PRE_ORDER_Process (m : po_input) : M unit :=
  match m with
  | In_Update m => PRE_ORDER_Process_Update m
  | In_PO_Request m => PRE_ORDER_Process_PO_Request VAR m
  | In_PO_Ack m => PRE_ORDER_Process_PO_Ack VAR m
  | In_PO_ARU m => PreOrder.PRE_ORDER_Process_PO_ARU VAR m
  | In_Proof_Matrix m => PRE_ORDER_Process_Proof_Matrix m
  | Periodically n => PRE_ORDER_Periodically n
  | Periodic_Retrans => PRE_ORDER_Periodic_Retrans
  end.
End Updates.
