(* ===== verification/UpdatesProps.v ===== *)
(** What becomes of the updates of clients at the replica that takes them in, the
    timers of pre-ordering, and the composition of pre-ordering with the ordering
    protocol. *)
From Stdlib Require Import ZArith Lia List Bool.
From Stdlib Require Import Strings.Byte.
From stdpp Require Import base list gmap.
From S2P Require Import Prelude Memory Config Packets Crypto Merkle Utility Eligibility EligibilityCorrect OrderState PreOrderState Order OrderCorrect OrderHandlers OrderSystem OrderProps PreOrder OrderFrame PreOrderCorrect Execute ExecuteCorrect ExecuteProps PreOrderProps Updates.

(** ** PO-Requests and the updates in them *)
Section Sending.
Context {crypto : Crypto} {signer : Signer} {R : Type} (VAR : server_variables).
Abbreviation state := (order_state (E := po_data (R := R))).
Implicit Types (r : state).

Definition only_bounds (f : fault) : Prop := f = OutOfBounds.

(** A message of the length it says it has, in a packet. *)
Definition whole (u : list byte) : Prop :=
  exists len, word_at u 4 o_signed_message_len = Some len /\
    Z.of_nat (length u) = len + sz_signed_message /\ len + sz_signed_message <= PRIME_MAX_PACKET_SIZE.

(** The PO-Request has this number, and a replica that executes it finds these
    updates in it, in this order. *)
Definition carries (m : list byte) (seq : po_seq_pair) (us : list (list byte)) : Prop :=
  let q := sz_signed_message + o_po_request_message_seq in
  word_at m 4 (q + o_po_seq_pair_incarnation) = Some (incarnation seq) /\
  word_at m 4 (q + o_po_seq_pair_seq_num) = Some (seq_num seq) /\
  word_at m 4 (sz_signed_message + o_po_request_message_num_events) = Some (Z.of_nat (length us)) /\
  whole m /\
  forall r, exists events,
    events_from (length us) (drop (Z.to_nat (sz_signed_message + sz_po_request_message)) m) r = Ret (events, r) /\
    Forall2 prefix us events.

Lemma events_from_concat us : Forall whole us -> forall r, exists events,
  events_from (length us) (concat us) r = Ret (events, r) /\ Forall2 prefix us events.
Proof.
  intros H. induction H as [|u us (len & Hw & Hl & _) _ IH]; intros r; cbn [length events_from concat].
  - exists []. split; [reflexivity|constructor].
  - destruct (IH r) as (events & E & Hp). exists ((u ++ concat us) :: events). split.
    + unfold bind. rewrite (load_value _ _ _ _ len).
      * rewrite drop_app_length' by lia. rewrite E. reflexivity.
      * rewrite word_at_app; [exact Hw|]. unfold word_at in Hw. destruct (slice _ _ _) as [bs|] eqn:Es; [|discriminate].
        apply slice_in_range in Es. lia.
    + constructor; [exists (concat us); reflexivity|exact Hp].
Qed.

(** The bytes are those of the header and of the updates copied. *)
Definition copied (u ev : list byte) : Prop :=
  exists len, word_at u 4 o_signed_message_len = Some len /\ slice u 0 (wrap32 (len + sz_signed_message)) = Some ev.

Lemma copied_whole us evs : Forall2 copied us evs -> Forall whole us -> evs = us.
Proof.
  intros H. induction H as [|u ev us evs (len & Hw & Hs) _ IH]; intros Hall; [reflexivity|].
  inversion Hall as [|u' us' (len' & Hw' & Hl & Hm) Hrest]; subst. f_equal; [|exact (IH Hrest)].
  assert (len' = len) by congruence. subst len'.
  assert (Hb : 0 <= len < two32) by (apply (word_at_bounds u 4 _ _ Hw)).
  pose proof (slice_length _ _ _ _ Hs) as [_ El]. unfold slice in Hs. destruct (in_range _ _ _) eqn:Er; [|discriminate].
  injection Hs as <-. rewrite drop_0. unfold in_range in Er. rewrite !andb_true_iff, !Z.leb_le in Er.
  rewrite wrap32_small by (unfold sz_signed_message, PRIME_MAX_PACKET_SIZE, is_u32, two32 in *; lia).
  apply take_ge. lia.
Qed.

Lemma wp_bundle special queue : forall bytes r,
  wp only_bounds (bundle (R := R) special queue bytes)
    (fun res r' => r' = r /\ exists taken,
       queue = taken ++ snd (fst res) /\ Forall2 copied taken (fst (fst res)) /\
       (Forall whole queue -> 0 <= bytes <= cutoff ->
        snd res = bytes + Z.of_nat (length (concat (fst (fst res)))) /\ snd res <= cutoff)) r.
Proof.
  induction queue as [|mess queue IH]; intros bytes r; cbn [bundle].
  - destruct (cutoff <=? bytes); apply wp_ret; (split; [reflexivity|]); exists []; cbn;
      (split; [reflexivity|split; [constructor|lia]]).
  - assert (Hstop : forall (t : state), t = r -> wp only_bounds (ret (([] : list (list byte), mess :: queue), bytes))
      (fun res r' => r' = r /\ exists taken,
         mess :: queue = taken ++ snd (fst res) /\ Forall2 copied taken (fst (fst res)) /\
         (Forall whole (mess :: queue) -> 0 <= bytes <= cutoff ->
          snd res = bytes + Z.of_nat (length (concat (fst (fst res)))) /\ snd res <= cutoff)) t).
    { intros t ->. apply wp_ret. split; [reflexivity|]. exists []. cbn. split; [reflexivity|split; [constructor|lia]]. }
    destruct (cutoff <=? bytes); [apply Hstop; reflexivity|].
    apply wp_bind, wp_load; [reflexivity|]. intros len Hlen. cbv zeta.
    destruct (Z.ltb_spec (wrap32 (bytes + wrap32 (len + sz_signed_message))) cutoff) as [Hlt|_];
      [|apply Hstop; reflexivity].
    apply wp_bind, wp_load_bytes; [reflexivity|]. intros m Em.
    assert (Hc : copied mess m) by (exists len; auto).
    assert (Hb : Forall whole (mess :: queue) -> 0 <= bytes <= cutoff ->
      m = mess /\ wrap32 (bytes + wrap32 (len + sz_signed_message)) = bytes + Z.of_nat (length m)).
    { intros Hall Hbytes. assert (Em' : [m] = [mess]).
      { apply copied_whole; [repeat constructor; exact Hc|]. inversion Hall; repeat constructor; assumption. }
      injection Em' as ->. split; [reflexivity|]. inversion Hall as [|? ? (len' & Hw & Hl & Hm) _]; subst.
      assert (len' = len) by congruence. subst len'. pose proof (word_at_bounds _ _ _ _ Hw) as Hu. change (256 ^ 4) with two32 in Hu.
      rewrite (wrap32_small (len + _)) by (unfold is_u32, two32, sz_signed_message, PRIME_MAX_PACKET_SIZE in *; lia).
      rewrite Hl. apply wrap32_small. unfold is_u32, two32, sz_signed_message, cutoff, PRIME_MAX_PACKET_SIZE,
        DIGEST_SIZE, MAX_MERKLE_DIGESTS in *. lia. }
    destruct special.
    + apply wp_ret. split; [reflexivity|]. exists [mess]. split; [reflexivity|]. split; [repeat constructor; exact Hc|].
      intros Hall Hbytes. destruct (Hb Hall Hbytes) as [-> E]. cbn. rewrite app_nil_r. lia.
    + apply wp_bind. eapply wp_conseq; [apply IH|]. cbv beta. intros res t (-> & taken & Eq & Hcs & Hsum).
      apply wp_ret. split; [reflexivity|]. exists (mess :: taken). cbn [fst snd app]. rewrite Eq at 1.
      split; [reflexivity|]. split; [constructor; assumption|].
      intros Hall Hbytes. destruct (Hb Hall Hbytes) as [-> E]. cbn [concat]. rewrite length_app.
      rewrite E in *. inversion Hall; subst. specialize (Hsum ltac:(assumption) ltac:(lia)). lia.
Qed.
Definition header_bytes : Z := sz_signed_message + sz_po_request_message.

Lemma header_length inc seq tpm n bytes :
  length (po_request_header VAR inc seq tpm n bytes) = Z.to_nat header_bytes.
Proof.
  apply Nat2Z.inj. change (Z.of_nat (Z.to_nat header_bytes)) with header_bytes.
  change (of_size header_bytes (po_request_header VAR inc seq tpm n bytes)). unfold po_request_header. cbv zeta. sized_.
Qed.

Lemma header_fields inc seq tpm n bytes :
  let m := po_request_header VAR inc seq tpm n bytes in
  let q := sz_signed_message + o_po_request_message_seq in
  word_at m 4 o_signed_message_len = Some (wrap32 (wrap32 (bytes - sz_signed_message))) /\
  word_at m 4 (q + o_po_seq_pair_incarnation) = Some (wrap32 (incarnation seq)) /\
  word_at m 4 (q + o_po_seq_pair_seq_num) = Some (wrap32 (seq_num seq)) /\
  word_at m 4 (sz_signed_message + o_po_request_message_num_events) = Some (wrap32 n).
Proof. cbv zeta. unfold po_request_header. cbv zeta. repeat split; field header_bytes. Qed.
Lemma whole_count us : Forall whole us -> Z.of_nat (length us) <= Z.of_nat (length (concat us)).
Proof.
  intros H. induction H as [|u us (len & Hw & Hl & _) _ IH]; cbn [length concat]; [lia|].
  rewrite length_app. apply word_at_bounds in Hw. unfold sz_signed_message in Hl. lia.
Qed.

Lemma carries_built inc seq tpm us bytes :
  Forall whole us -> is_u32 (incarnation seq) -> is_u32 (seq_num seq) ->
  bytes = header_bytes + Z.of_nat (length (concat us)) -> bytes <= cutoff ->
  carries (po_request_header VAR inc seq tpm (Z.of_nat (length us)) bytes ++ concat us) seq us.
Proof.
  intros Hus Hi Hn Hb Hc. set (m := po_request_header _ _ _ _ _ _).
  assert (Hsz : bytes = 168 + Z.of_nat (length (concat us)) /\ bytes <= 31880) by (split; [exact Hb|exact Hc]).
  assert (Hl : Z.of_nat (length m) = 168).
  { unfold m. rewrite header_length. reflexivity. }
  pose proof (whole_count us Hus) as Hcount.
  pose proof (header_fields inc seq tpm (Z.of_nat (length us)) bytes) as (F1 & F2 & F3 & F4). fold m in F1, F2, F3, F4.
  unfold carries. cbv zeta. repeat split.
  - rewrite word_at_app by (rewrite Hl; vm_compute; discriminate). rewrite F2, wrap32_small by exact Hi. reflexivity.
  - rewrite word_at_app by (rewrite Hl; vm_compute; discriminate). rewrite F3, wrap32_small by exact Hn. reflexivity.
  - rewrite word_at_app by (rewrite Hl; vm_compute; discriminate). rewrite F4, wrap32_small; [reflexivity|]. unfold two32. lia.
  - exists (bytes - sz_signed_message). rewrite word_at_app by (rewrite Hl; vm_compute; discriminate).
    rewrite F1, length_app, Nat2Z.inj_add, Hl. unfold sz_signed_message, PRIME_MAX_PACKET_SIZE.
    rewrite !wrap32_small by (unfold two32; try rewrite wrap32_small; unfold two32; lia). split; [reflexivity|lia].
  - intros r. rewrite drop_app_length' by (apply Nat2Z.inj; rewrite Hl; reflexivity). apply events_from_concat, Hus.
Qed.

(** The first PO-Request of a recovering replica, before its first update is there. *)
Definition waits_for_recovery r : Prop :=
  aget (recovery_status (others r)) (My_Server_ID VAR) = Some PR_RECOVERY /\ seq_num (po_seq (others r)) = 0.

Definition bundled r (m : list byte) (taken : list (list byte)) r' : Prop :=
  let e := others r in
  exists q, po_request_dll e = taken ++ q /\
    r' = set_others (with_po_request_dll q (with_po_seq (next_pair (po_seq e)) e)) r /\
    (Forall whole (po_request_dll e) -> is_u32 (incarnation (po_seq e)) -> carries m (next_pair (po_seq e)) taken).

Lemma wp_first_of_recovery r :
  wp only_bounds (first_of_recovery VAR)
    (fun o r' => r' = r /\ match o with None => waits_for_recovery r | Some _ => True end) r.
Proof.
  unfold first_of_recovery, po. apply wp_bind, wp_bind, wp_get, wp_ret.
  apply wp_bind, wp_or_oob; [reflexivity|]. intros st Est.
  destruct (_ && _) eqn:E; cbn [negb]; [|apply wp_ret; auto].
  apply andb_true_iff in E as [E1 E2]. apply Z.eqb_eq in E1, E2. subst st.
  assert (Hw : waits_for_recovery r) by (split; [exact Est|exact E2]).
  destruct (po_request_dll (others r)) as [|mess q]; [apply wp_ret; auto|].
  apply wp_bind, wp_load; [reflexivity|]. intros mid _. apply wp_bind, wp_load; [reflexivity|]. intros seq _.
  apply wp_ret. split; [reflexivity|]. destruct (_ || _); auto.
Qed.

Lemma wp_Construct_PO_Request r :
  wp only_bounds (PRE_ORDER_Construct_PO_Request VAR)
    (fun o r' => match o with
                 | None => r' = r /\ waits_for_recovery r
                 | Some m => exists taken, bundled r m taken r'
                 end) r.
Proof.
  unfold PRE_ORDER_Construct_PO_Request. apply wp_bind. eapply wp_conseq; [apply wp_first_of_recovery|]. cbv beta.
  intros [special|] t [-> Hw]; [|apply wp_ret; auto].
  apply wp_bind, wp_get, wp_bind, wp_modify. unfold po. apply wp_bind, wp_bind, wp_get, wp_ret. apply wp_bind.
  eapply wp_conseq; [apply wp_bundle|]. cbv beta. intros [[evs q] b] t (-> & taken & Eq & Hc & Hsum). cbn in Eq, Hc, Hsum.
  apply wp_bind, wp_modify, wp_ret. exists taken, q. split; [exact Eq|]. split; [reflexivity|].
  intros Hall Hi. assert (Htaken : Forall whole taken) by (rewrite Eq in Hall; apply Forall_app in Hall; apply Hall).
  rewrite (copied_whole _ _ Hc Htaken) in *. destruct (Hsum Hall ltac:(vm_compute; split; discriminate)) as [Hb Hle].
  apply carries_built; [exact Htaken|exact Hi|apply wrap32_bounds|exact Hb|exact Hle].
Qed.

(** How many PO-Requests are on their way. *)
Definition in_flight r : Z := wrap32 (seq_num (po_seq (others r)) - seq_num (po_seq_executed (others r))).

(** The PO-Requests [ms] were sent, with the groups of updates [groups]. *)
Record sent r (ms : list (list byte)) (groups : list (list (list byte))) r' : Prop := {
  sent_actions : actions r' = actions r ++ map Send_PO_Request ms ;
  sent_groups : length groups = length ms ;
  sent_queue : po_request_dll (others r) = concat groups ++ po_request_dll (others r') ;
  sent_seq : po_seq (others r') = after (length ms) (po_seq (others r)) ;
  sent_carries : Forall whole (po_request_dll (others r)) -> is_u32 (incarnation (po_seq (others r))) ->
    forall k m us, ms !! k = Some m -> groups !! k = Some us -> carries m (after (S k) (po_seq (others r))) us ;
  sent_intro : intro_client_seq (others r') = intro_client_seq (others r) ;
  sent_bound : in_flight r <= MAX_PO_IN_FLIGHT -> in_flight r' <= MAX_PO_IN_FLIGHT }.

(** Nothing is left to send, or nothing more may be sent now. *)
Definition sent_all r : Prop :=
  po_request_dll (others r) = [] \/
  MAX_PO_IN_FLIGHT <= in_flight r /\ reading_clients (others r) = false \/
  waits_for_recovery r.

Lemma sent_nothing r r' :
  actions r' = actions r -> po_request_dll (others r') = po_request_dll (others r) ->
  po_seq (others r') = po_seq (others r) -> po_seq_executed (others r') = po_seq_executed (others r) ->
  intro_client_seq (others r') = intro_client_seq (others r) -> sent r [] [] r'.
Proof.
  intros E1 E2 E3 E4 E5. split; cbn; auto.
  - rewrite app_nil_r. exact E1.
  - intros _ _ k m us Hk. rewrite lookup_nil in Hk. discriminate.
  - unfold in_flight. rewrite E3, E4. auto.
Qed.

Lemma in_flight_next r r' :
  in_flight r < MAX_PO_IN_FLIGHT -> po_seq (others r') = next_pair (po_seq (others r)) ->
  po_seq_executed (others r') = po_seq_executed (others r) -> in_flight r' = in_flight r + 1.
Proof.
  unfold in_flight. intros Hlt -> ->. unfold next_pair. cbn [seq_num].
  set (x := seq_num (po_seq (others r))) in *. set (y := seq_num (po_seq_executed (others r))) in *.
  unfold wrap32 in *. rewrite Zminus_mod_idemp_l. replace (x + 1 - y) with ((x - y) + 1) by lia.
  rewrite <- Zplus_mod_idemp_l. apply Z.mod_small. unfold MAX_PO_IN_FLIGHT in Hlt.
  pose proof (Z.mod_pos_bound (x - y) two32). unfold two32 in *. lia.
Qed.

Lemma sent_step r m taken r1 ms groups r2 :
  bundled r m taken r1 -> in_flight r < MAX_PO_IN_FLIGHT ->
  sent (act (Send_PO_Request m) r1) ms groups r2 -> sent r (m :: ms) (taken :: groups) r2.
Proof.
  intros (q & Eq & -> & Hm) Hlt [H1 H2 H3 H4 H5 H6 H7]. cbn in H1, H3, H4, H5, H6.
  assert (Hin := in_flight_next r (act (Send_PO_Request m)
    (set_others (with_po_request_dll q (with_po_seq (next_pair (po_seq (others r))) (others r))) r)) Hlt eq_refl eq_refl).
  split; cbn [map concat length].
  - rewrite H1, <- app_assoc. reflexivity.
  - congruence.
  - rewrite Eq, H3, <- app_assoc. reflexivity.
  - rewrite H4, after_S. reflexivity.
  - intros Hall Hi [|k] m' us; cbn [lookup list_lookup].
    + intros [= <-] [= <-]. exact (Hm Hall Hi).
    + intros Hk1 Hk2. rewrite after_S. apply H5; auto. rewrite Eq in Hall. apply Forall_app in Hall. apply Hall.
  - exact H6.
  - intros _. apply H7. rewrite Hin. lia.
Qed.

Lemma wp_send_po_requests fuel : forall counter r,
  0 <= counter -> Z.max 0 (MAX_PO_IN_FLIGHT - in_flight r) < Z.of_nat fuel ->
  counter + Z.max 0 (MAX_PO_IN_FLIGHT - in_flight r) < 500 ->
  wp only_bounds (send_po_requests VAR fuel counter)
    (fun _ r' => sent_all r' /\ exists ms groups, sent r ms groups r') r.
Proof.
  induction fuel as [|fuel IH]; intros counter r Hc Hf H500; [lia|]. cbn [send_po_requests].
  unfold po. apply wp_bind, wp_bind, wp_get, wp_ret.
  destruct (po_request_dll (others r)) as [|u us] eqn:Eq.
  { apply wp_ret. split; [left; exact Eq|]. exists [], []. apply sent_nothing; reflexivity. }
  fold (in_flight r). destruct (Z.leb_spec MAX_PO_IN_FLIGHT (in_flight r)) as [Hmax|Hlt].
  { apply wp_modify. split; [right; left; split; [exact Hmax|reflexivity]|].
    exists [], []. apply sent_nothing; reflexivity. }
  apply wp_bind. eapply wp_conseq; [apply wp_Construct_PO_Request|]. cbv beta. intros [m|] r1.
  2:{ intros [-> Hw]. apply wp_ret. split; [right; right; exact Hw|]. exists [], []. apply sent_nothing; reflexivity. }
  intros (taken & Hb). apply wp_bind, wp_modify.
  assert (Hin : in_flight (act (Send_PO_Request m) r1) = in_flight r + 1).
  { destruct Hb as (q & _ & -> & _). apply in_flight_next; [exact Hlt|reflexivity|reflexivity]. }
  rewrite Z.max_r in Hf, H500 by lia.
  apply wp_bind. rewrite (proj2 (Z.eqb_neq (counter + 1) 500)) by lia. apply wp_ret.
  eapply wp_conseq; [apply IH; rewrite ?Hin; lia|]. cbv beta. intros _ r2 (Hall & ms & groups & Hs).
  split; [exact Hall|]. exists (m :: ms), (taken :: groups). eapply sent_step; eassumption.
Qed.

Lemma wp_Send_PO_Request r :
  wp only_bounds (PRE_ORDER_Send_PO_Request VAR)
    (fun _ r' => sent_all r' /\ exists ms groups, sent r ms groups r') r.
Proof.
  apply wp_send_po_requests; pose proof (wrap32_bounds (seq_num (po_seq (others r)) - seq_num (po_seq_executed (others r))));
    unfold in_flight, MAX_PO_IN_FLIGHT; lia.
Qed.

(** C24. Updates leave in order: PRE_ORDER_Send_PO_Request sends PO-Requests with
    the next numbers, one after the other; what they hold, as a replica that
    executes them reads it, is the front of the queue of updates, in its order, and
    the rest stays in the queue. *)
Theorem updates_leave_in_order r r'
    (Hqueue : Forall whole (po_request_dll (others r))) (Hinc : is_u32 (incarnation (po_seq (others r))))
    (Hrun : PRE_ORDER_Send_PO_Request VAR r = Ret (tt, r')) :
  exists ms groups, actions r' = actions r ++ map Send_PO_Request ms /\ length groups = length ms /\
    po_request_dll (others r) = concat groups ++ po_request_dll (others r') /\
    forall k m us, ms !! k = Some m -> groups !! k = Some us -> carries m (after (S k) (po_seq (others r))) us.
Proof.
  destruct (wp_Ret _ _ _ _ _ _ (wp_Send_PO_Request r) Hrun) as (_ & ms & groups & []).
  exists ms, groups. auto.
Qed.

(** C25. Sending ends within the bounds of the code: the loop over the queue, which
    an assertion cuts at 500 requests, never fails it nor uses its fuel up; it
    stops when the queue is empty, when MAX_PO_IN_FLIGHT requests are on their way
    and the clients are no longer read, or when a recovering replica's own first
    update is not there; and it never exceeds that many on their way. *)
Theorem requests_in_flight r :
  PRE_ORDER_Send_PO_Request VAR r = Fault OutOfBounds \/
  exists r', PRE_ORDER_Send_PO_Request VAR r = Ret (tt, r') /\ sent_all r' /\
    (in_flight r <= MAX_PO_IN_FLIGHT -> in_flight r' <= MAX_PO_IN_FLIGHT).
Proof.
  pose proof (wp_Send_PO_Request r) as H. unfold wp in H.
  destruct (PRE_ORDER_Send_PO_Request VAR r) as [[[] r']|f]; [|left; congruence].
  destruct H as (Hall & ms & groups & Hs). right. exists r'. split; [reflexivity|]. split; [exact Hall|apply Hs].
Qed.
End Sending.

(** ** Updates taken in *)
Section Taking.
Context {crypto : Crypto} {signer : Signer} {R : Type} (VAR : server_variables).
Abbreviation state := (order_state (E := po_data (R := R))).
Implicit Types (r : state).

(** The client an update names and the number it gives it. *)
Definition number_of (u : list byte) : option (Z * po_seq_pair) :=
  server ← word_at u 4 (sz_signed_message + o_update_message_server_id);
  inc ← word_at u 4 o_signed_message_incarnation;
  seq ← word_at u 4 (sz_signed_message + o_update_message_seq_num);
  Some (server, mkPS inc seq).

Fixpoint process_updates (us : list (list byte)) : comp state unit :=
  match us with
  | [] => ret tt
  | u :: us => PRE_ORDER_Process_Update VAR u ;;; process_updates us
  end.

Definition payload_type : Z := sz_signed_message + sz_update_message + o_signed_message_type.

(** What there is of an update that [stamp] reads. *)
Definition readable (u : list byte) : Prop :=
  is_Some (word_at u 4 o_signed_message_machine_id) /\ is_Some (word_at u 4 payload_type).

Lemma number_words u server ps : number_of u = Some (server, ps) ->
  word_at u 4 (sz_signed_message + o_update_message_server_id) = Some server /\
  word_at u 4 o_signed_message_incarnation = Some (incarnation ps) /\
  word_at u 4 (sz_signed_message + o_update_message_seq_num) = Some (seq_num ps).
Proof.
  unfold number_of. destruct (word_at u 4 (_ + o_update_message_server_id)); [|discriminate].
  destruct (word_at u 4 o_signed_message_incarnation); [|discriminate].
  destruct (word_at u 4 (_ + o_update_message_seq_num)); [|discriminate]. intros [= <- <-]. auto.
Qed.

Lemma stamp_numbered u server ps r :
  number_of u = Some (server, ps) -> ps <> mkPS 0 0 -> readable u -> stamp VAR u r = Ret ((ps, u), r).
Proof.
  intros (_ & Hi & Hs)%number_words Hne [[mid Hm] [ty Ht]]. unfold stamp, bind at 1 2 3 4.
  rewrite (load_value _ _ _ _ _ Hm), (load_value _ _ _ _ _ Hi), (load_value _ _ _ _ _ Hs), (load_value _ _ _ _ _ Ht).
  destruct ps as [i n]. cbn [incarnation seq_num]. destruct (_ && _ && _ && _) eqn:E; [|reflexivity].
  rewrite !andb_true_iff, !Z.eqb_eq in E. destruct E as [[_ ->] ->]. congruence.
Qed.

Lemma wp_stamp u r :
  wp any_fault (stamp VAR u) (fun _ r' => r' = r /\ readable u) r.
Proof.
  unfold stamp. apply wp_bind, wp_load; [exact I|]. intros mid Hm. apply wp_bind, wp_load; [exact I|]. intros i _.
  apply wp_bind, wp_load; [exact I|]. intros n _. apply wp_bind, wp_load; [exact I|]. intros ty Ht.
  assert (Hr : readable u) by (split; eauto).
  destruct (_ && _); [|apply wp_ret; auto]. unfold po. apply wp_bind, wp_bind, wp_get, wp_ret.
  apply wp_bind, wp_or_oob; [exact I|]. intros own _. apply wp_ret. auto.
Qed.

(** The line of a client never goes back. *)
Definition lines_grow r r' : Prop :=
  forall s last, aget (intro_client_seq (others r)) s = Some last ->
    exists last', aget (intro_client_seq (others r')) s = Some last' /\ ps_le last last'.

#[local] Instance lines_grow_preorder : PreOrder lines_grow.
Proof.
  split.
  - intros r s last H. exists last. split; [exact H|left; reflexivity].
  - intros r1 r2 r3 H1 H2 s last H. destruct (H1 s last H) as (l2 & E2 & L2). destruct (H2 s l2 E2) as (l3 & E3 & L3).
    exists l3. split; [exact E3|]. eapply ps_le_trans; eassumption.
Qed.

Lemma lines_grow_set r r' s last ps l :
  aget (intro_client_seq (others r)) s = Some last -> ps_le last ps ->
  aset (intro_client_seq (others r)) s ps = Some l -> intro_client_seq (others r') = l -> lines_grow r r'.
Proof.
  intros Hs Hle Hl El s' last' Hs'. rewrite El. destruct (Z.eq_dec s' s) as [->|Hne].
  - exists ps. split; [exact (aget_aset_eq _ _ _ _ Hl)|]. congruence.
  - exists last'. split; [|left; reflexivity]. rewrite (aget_aset_ne _ _ _ _ _ Hl) by congruence. exact Hs'.
Qed.

Lemma wp_Process_Update u r :
  wp any_fault (PRE_ORDER_Process_Update VAR u)
    (fun _ r' => readable u /\ lines_grow r r' /\
       forall server ps, number_of u = Some (server, ps) -> ps <> mkPS 0 0 ->
         exists last, aget (intro_client_seq (others r')) server = Some last /\ ps_le ps last) r.
Proof.
  unfold PRE_ORDER_Process_Update. apply wp_bind.
  destruct (stamp VAR u r) as [[[ps u'] t]|f] eqn:Est; [|unfold wp; rewrite Est; exact I].
  destruct (wp_Ret _ _ _ _ _ _ (wp_stamp u r) Est) as [-> Hread]. unfold wp at 1. rewrite Est.
  assert (Hnum : forall server ps', number_of u = Some (server, ps') -> ps' <> mkPS 0 0 -> ps' = ps /\ u' = u).
  { intros server ps' Hn Hne. rewrite (stamp_numbered u server ps' r Hn Hne Hread) in Est. split; congruence. }
  apply wp_bind, wp_load; [exact I|]. intros server Hserver. unfold po at 1. apply wp_bind, wp_bind, wp_get, wp_ret.
  apply wp_bind, wp_or_oob; [exact I|]. intros last Hlast.
  assert (Hname : forall server' ps', number_of u = Some (server', ps') -> ps' <> mkPS 0 0 -> server' = server /\ ps' = ps).
  { intros server' ps' Hn Hne. destruct (Hnum _ _ Hn Hne) as [-> ->]. split; [|reflexivity].
    apply number_words in Hn as (Hn & _). congruence. }
  destruct (Z.leb_spec (PRE_ORDER_Seq_Compare ps last) 0) as [Hold|Hnew].
  - apply wp_ret. split; [exact Hread|]. split; [reflexivity|]. intros server' ps' Hn Hne.
    destruct (Hname _ _ Hn Hne) as [-> ->]. exists last. split; [exact Hlast|].
    destruct (Seq_Compare_cases ps last) as [[E H]|[[E H]|[E H]]]; unfold ps_le; [auto..|lia].
  - assert (Hle : ps_le last ps).
    { destruct (Seq_Compare_cases ps last) as [[E H]|[[E H]|[E H]]]; unfold ps_le; [lia|lia|auto]. }
    unfold set_server, po. apply wp_bind, wp_bind, wp_bind, wp_get, wp_ret, wp_bind, wp_or_oob; [exact I|].
    intros l El. apply wp_modify. apply wp_bind, wp_load; [exact I|]. intros mid _.
    apply wp_bind, wp_load; [exact I|]. intros counter _. apply wp_bind, wp_or_oob; [exact I|]. intros st _.
    apply wp_bind, wp_modify. apply (wp_fault only_bounds); [intros f _; exact I|].
    eapply wp_conseq; [apply wp_Send_PO_Request|]. cbv beta. intros _ r' (_ & ms & groups & Hs).
    pose proof (sent_intro _ _ _ _ Hs) as Ei. cbn in Ei.
    split; [exact Hread|]. split; [exact (lines_grow_set _ _ _ _ _ _ Hlast Hle El Ei)|].
    intros server' ps' Hn Hne. destruct (Hname _ _ Hn Hne) as [-> ->]. exists ps.
    rewrite Ei. split; [exact (aget_aset_eq _ _ _ _ El)|left; reflexivity].
Qed.

Lemma wp_process_updates us : forall r, wp any_fault (process_updates us) (fun _ => lines_grow r) r.
Proof.
  induction us as [|u us IH]; intros r; cbn [process_updates]; [apply wp_ret; reflexivity|].
  apply wp_bind. eapply wp_conseq; [apply wp_Process_Update|]. cbv beta. intros _ t (_ & H & _).
  eapply wp_conseq; [apply IH|]. cbv beta. intros _ t' H'. etransitivity; eassumption.
Qed.

(** An update is taken in at most once: after it was processed, whatever
    updates come in between, and whether or not it was new, processing it again
    changes nothing. *)
Theorem update_taken_in_once u us r r1 r2 server ps
    (Hnumber : number_of u = Some (server, ps)) (Hps : ps <> mkPS 0 0)
    (Hfirst : PRE_ORDER_Process_Update VAR u r = Ret (tt, r1))
    (Hothers : process_updates us r1 = Ret (tt, r2)) :
  PRE_ORDER_Process_Update VAR u r2 = Ret (tt, r2).
Proof.
  destruct (wp_Ret _ _ _ _ _ _ (wp_Process_Update u r) Hfirst) as (Hread & _ & Hline).
  destruct (Hline _ _ Hnumber Hps) as (last & El & Hle).
  apply (wp_Ret _ _ _ _ _ _ (wp_process_updates us r1)) in Hothers. destruct (Hothers _ _ El) as (last2 & El2 & Hle2).
  unfold PRE_ORDER_Process_Update, bind at 1. rewrite (stamp_numbered _ _ _ _ Hnumber Hps Hread). unfold bind at 1.
  rewrite (load_value _ _ _ _ _ (proj1 (number_words _ _ _ Hnumber))). unfold bind at 1, po, bind at 1, get, ret at 1.
  unfold bind at 1, at_server. rewrite El2. cbn [or_oob].
  pose proof (ps_le_trans _ _ _ Hle Hle2) as H. destruct (Seq_Compare_cases ps last2) as [[E H']|[[E H']|[E H']]].
  - unfold ret at 1. rewrite (proj2 (Z.leb_le _ _)) by lia. reflexivity.
  - unfold ret at 1. rewrite (proj2 (Z.leb_le _ _)) by lia. reflexivity.
  - exfalso. destruct H as [->|H]; unfold ps_lt in *; lia.
Qed.
End Taking.

(** ** Retransmission *)
Section Retransmission.
Context {crypto : Crypto} {signer : Signer} {R : Type} {ext : External R} (VAR : server_variables).
Abbreviation state := (order_state (E := po_data (R := R))).
Implicit Types (r : state).

(** A slot of the replica's own, not executed yet, without its request. *)
Definition hollow r (ps : po_seq_pair) : Prop :=
  (exists slot, PO_History (others r) !! mkPoId (My_Server_ID VAR) ps = Some slot /\ po_request slot = None) /\
  exists last, aget (last_executed_po_reqs (others r)) (My_Server_ID VAR) = Some last /\ ps_lt last ps.

Lemma resend_hollow ps keys : 1 <= My_Server_ID VAR <= NUM_SERVERS ->
  forall r, hollow r ps -> ps ∈ keys -> resend_requests VAR keys r = Fault OutOfBounds.
Proof.
  intros Hme. induction keys as [|q keys IH]; intros r Hh Hin; [set_solver|]. cbn [resend_requests].
  assert (Hrange : (1 <=? My_Server_ID VAR) && (My_Server_ID VAR <=? NUM_SERVERS) = true)
    by (rewrite andb_true_iff, !Z.leb_le; lia).
  pose proof Hh as ((slot & Es & Er) & last & El & Hlt).
  unfold bind at 1, po, bind at 1, get, ret at 1, bind at 1, at_server. rewrite El. cbn [or_oob]. unfold ret at 1.
  assert (Hrest : q <> ps -> forall r1, others r1 = others r -> resend_requests VAR keys r1 = Fault OutOfBounds).
  { intros Hne r1 E. apply IH; [unfold hollow; rewrite E; exact Hh|].
    apply elem_of_cons in Hin as [->|Hin]; [congruence|exact Hin]. }
  unfold bind at 1. destruct (Z.ltb_spec 0 (PRE_ORDER_Seq_Compare q last)) as [Hq|Hq].
  - unfold bind at 1, UTIL_Get_PO_Slot_If_Exists. rewrite Hrange. cbn [negb].
    unfold bind at 1, po, bind at 1, get, ret at 1. unfold ret at 1.
    destruct (decide (q = ps)) as [->|Hne].
    + rewrite Es. cbn. rewrite Er. reflexivity.
    + destruct (_ ≫= po_request) as [m|]; [|reflexivity]. apply Hrest; [exact Hne|reflexivity].
  - unfold ret at 1. apply Hrest; [|reflexivity]. intros ->.
    destruct (Seq_Compare_cases ps last) as [[E H]|[[E H]|[E H]]]; unfold ps_lt in *; subst; lia.
Qed.

Lemma keys_of_elem i (h : gmap po_id po_slot) ps : is_Some (h !! mkPoId i ps) -> ps ∈ keys_of i h.
Proof.
  intros [slot Hs]. unfold keys_of. apply list_elem_of_In, in_map_iff. exists (mkPoId i ps). split; [reflexivity|].
  apply filter_In. split; [|cbn; apply Z.eqb_refl]. apply in_map_iff. exists (mkPoId i ps, slot).
  split; [reflexivity|]. apply list_elem_of_In, elem_of_map_to_list, Hs.
Qed.

(** An acknowledgement of a request that is not there makes a slot without it. *)
Lemma wp_ack_makes_hollow part ack r last w :
  part_originator part = My_Server_ID VAR ->
  PO_History (others r) !! mkPoId (My_Server_ID VAR) (part_seq part) = None ->
  ak_preinstalled ack = vector_of (preinstalled_incarnations r) ->
  aget (white_line (others r)) (My_Server_ID VAR) = Some w -> ps_lt w (part_seq part) ->
  aget (last_executed_po_reqs (others r)) (My_Server_ID VAR) = Some last -> ps_lt last (part_seq part) ->
  wp any_fault (PRE_ORDER_Process_PO_Ack_Part VAR part ack) (fun _ r' => hollow r' (part_seq part)) r.
Proof.
  intros Ho Hnone Hvec Hw Hwlt Hl Hllt. unfold PRE_ORDER_Process_PO_Ack_Part. rewrite Ho. cbv zeta.
  unfold UTIL_Get_PO_Slot_If_Exists at 1. apply wp_bind. destruct (negb _); [exact I|].
  unfold po at 1. apply wp_bind, wp_bind, wp_get, wp_ret, wp_ret. rewrite Hnone. apply wp_bind, wp_get.
  rewrite bool_decide_eq_true_2 by exact Hvec. cbn [negb]. apply wp_bind.
  eapply (wp_conseq _ _ _ (fun _ t => PO_History (others t) = PO_History (others r) /\
    white_line (others t) = white_line (others r) /\ last_executed_po_reqs (others t) = last_executed_po_reqs (others r))).
  { unfold raise_max_acked, po. apply wp_bind, wp_bind, wp_get, wp_ret.
    apply wp_bind, wp_or_oob; [exact I|]. intros row _. apply wp_bind, wp_or_oob; [exact I|]. intros old _.
    destruct (_ <? _); [|apply wp_ret; auto]. apply wp_bind, wp_or_oob; [exact I|]. intros row' _.
    unfold set_server, po. apply wp_bind, wp_bind, wp_get, wp_ret, wp_bind, wp_or_oob; [exact I|].
    intros l' _. apply wp_modify. auto. }
  cbv beta. intros _ t (EH & EW & EL). unfold po at 1. apply wp_bind, wp_bind, wp_get, wp_ret.
  apply wp_bind, wp_or_oob; [exact I|]. rewrite EW. intros w' Hw'. assert (w' = w) by congruence. subst w'.
  rewrite (proj2 (Z.leb_gt _ _)).
  2:{ destruct (Seq_Compare_cases (part_seq part) w) as [[E H]|[[E H]|[E H]]]; unfold ps_lt in *; subst; lia. }
  unfold UTIL_Get_PO_Slot, UTIL_Get_PO_Slot_If_Exists. apply wp_bind, wp_bind.
  destruct (negb _); [exact I|]. unfold po. apply wp_bind, wp_bind, wp_get, wp_ret, wp_ret.
  rewrite EH, Hnone. apply wp_bind, wp_modify, wp_ret. apply wp_bind, wp_or_oob; [exact I|]. intros received Hrec.
  assert (received = false) as ->.
  { change (ack_received (new_po_slot (part_seq part))) with (per_server_slot false) in Hrec.
    unfold aget, per_server_slot in Hrec. destruct (in_bounds _ _); [|discriminate].
    apply list_elem_of_lookup_2, list_elem_of_In, repeat_spec in Hrec. exact Hrec. }
  apply wp_bind, wp_or_oob; [exact I|]. intros rs _. apply wp_bind, wp_or_oob; [exact I|]. intros as_ _.
  apply wp_bind, wp_or_oob; [exact I|]. intros ps _. apply wp_bind, wp_modify.
  set (t1 := set_others _ _).
  assert (H1 : hollow t1 (part_seq part)).
  { split; [|exists last; split; [cbn; congruence|exact Hllt]].
    eexists. split; [cbn; apply lookup_insert_eq|reflexivity]. }
  destruct (aget (preinstalled_incarnations t1) (My_Server_ID VAR)) as [pre|] eqn:Ep.
  2:{ unfold PRE_ORDER_Update_Cum_ARU, wp, bind, get, po, at_server, ret. rewrite Ep. exact I. }
  destruct (aget (cum_aru (others t1)) (My_Server_ID VAR)) as [cum|] eqn:Ec.
  2:{ unfold PRE_ORDER_Update_Cum_ARU, wp, bind, get, po, bind, get, at_server, ret. rewrite Ep. cbn [or_oob]. rewrite Ec. exact I. }
  apply (wp_fault (raise_fault t1 (My_Server_ID VAR) (cum_aru_from pre cum) (S (size (PO_History (others t1)))))); [intros f _; exact I|].
  eapply wp_conseq; [apply (wp_Update_Cum_ARU VAR _ t1 pre cum Ep Ec)|].
  cbv beta. intros _ t2 (n & _ & _ & Hh & _ & El2). destruct H1 as ((slot & Es & Er) & last' & El' & Hlt').
  split; [|exists last'; split; [congruence|exact Hlt']].
  specialize (Hh (mkPoId (My_Server_ID VAR) (part_seq part))). rewrite Es in Hh.
  destruct (PO_History (others t2) !! _) as [slot2|]; [|contradiction]. exists slot2. split; [reflexivity|].
  destruct Hh as (-> & _). exact Er.
Qed.
(** One acknowledgement stops a replica: a PO-Ack of any server, under the
    vector of incarnations the replica has, for a request of the replica itself
    that it has not made yet, leaves a slot without a request behind; and the next
    time PRE_ORDER_Periodic_Retrans runs it broadcasts that request from the null
    pointer. *)
Theorem ack_stops_retransmission part ack r r' last w
    (Hwalk : forall l, hash_order l ≡ₚ l)
    (Hme : 1 <= My_Server_ID VAR <= NUM_SERVERS) (Hown : part_originator part = My_Server_ID VAR)
    (Hnone : PO_History (others r) !! mkPoId (My_Server_ID VAR) (part_seq part) = None)
    (Hvector : ak_preinstalled ack = vector_of (preinstalled_incarnations r))
    (Hwhite : aget (white_line (others r)) (My_Server_ID VAR) = Some w) (Hnew : ps_lt w (part_seq part))
    (Hlast : aget (last_executed_po_reqs (others r)) (My_Server_ID VAR) = Some last) (Hahead : ps_lt last (part_seq part))
    (Hrun : PRE_ORDER_Process_PO_Ack_Part VAR part ack r = Ret (tt, r')) :
  PRE_ORDER_Periodic_Retrans VAR r' = Fault OutOfBounds.
Proof.
  assert (Hh : hollow r' (part_seq part)).
  { exact (wp_Ret _ _ _ _ _ _ (wp_ack_makes_hollow part ack r last w Hown Hnone Hvector Hwhite Hnew Hlast Hahead) Hrun). }
  unfold PRE_ORDER_Periodic_Retrans, bind at 1, po, bind at 1, get, ret at 1. unfold bind at 1.
  rewrite (resend_hollow (part_seq part)); [reflexivity|exact Hme|exact Hh|].
  rewrite Hwalk. apply keys_of_elem. destruct Hh as ((slot & Es & _) & _). eauto.
Qed.
End Retransmission.

(** ** What else is beside the ordering protocol *)
Section Handlers.
Context {crypto : Crypto} {signer : Signer} {R : Type} {ext : External R}.
Context (VAR : server_variables) (HVAR : 1 <= 2 * VF VAR + VK VAR + 1 <= NUM_SERVERS).

Abbreviation untouched := (within any_fault (aside (E := po_data (R := R)))).

Let allowed f (_ : f <> OutOfFuel) : any_fault f := I.

Lemma within_act_silent a : silent a -> untouched (modify (act a)).
Proof. apply (within_act any_fault). Qed.

Lemma within_bundle special queue : forall bytes, untouched (bundle special queue bytes).
Proof. pose proof allowed. induction queue; intros bytes; cbn [bundle]; walk. Qed.
Hint Resolve within_bundle : frame.

Lemma within_send_po_requests fuel : forall counter, untouched (send_po_requests VAR fuel counter).
Proof.
  pose proof allowed. induction fuel as [|fuel IH]; intros counter; cbn [send_po_requests]; [intros r; exact I|].
  unfold PRE_ORDER_Construct_PO_Request, first_of_recovery. walk. apply within_act_silent. exact I.
Qed.
Hint Resolve within_send_po_requests : frame.

Lemma within_Process_Update u : untouched (PRE_ORDER_Process_Update VAR u).
Proof. pose proof allowed. unfold PRE_ORDER_Process_Update, stamp, PRE_ORDER_Send_PO_Request. walk. Qed.

Lemma within_PO_ARU m : untouched (PreOrder.PRE_ORDER_Process_PO_ARU VAR m).
Proof. apply (within_Process_PO_ARU any_fault allowed VAR HVAR). Qed.
Hint Resolve within_PO_ARU : frame.

Lemma within_apply_proof m rows : forall p, untouched (apply_proof VAR m rows p).
Proof. pose proof allowed. induction rows; intros p; cbn [apply_proof]; walk. Qed.
Hint Resolve within_apply_proof : frame.

Lemma within_Process_Proof_Matrix m : untouched (PRE_ORDER_Process_Proof_Matrix VAR m).
Proof. pose proof allowed. unfold PRE_ORDER_Process_Proof_Matrix. walk. Qed.

Lemma within_resend_requests keys : untouched (resend_requests VAR keys).
Proof. pose proof allowed. induction keys; cbn [resend_requests]; walk. apply within_act_silent. exact I. Qed.
Hint Resolve within_resend_requests : frame.

Lemma within_resend_acks fuel : untouched (resend_acks VAR fuel).
Proof.
  pose proof allowed. induction fuel as [|fuel IH]; cbn [resend_acks]; [intros r; exact I|].
  unfold PRE_ORDER_Construct_PO_Ack.
  pose proof (within_ack_servers (crypto := crypto) (R := R)) as Hack.
  walk; try apply Hack; apply within_act_silent; exact I.
Qed.
Hint Resolve within_resend_acks : frame.

Lemma within_Periodic_Retrans : untouched (PRE_ORDER_Periodic_Retrans VAR).
Proof.
  pose proof allowed. pose proof (within_Update_ARU (R := R)). unfold PRE_ORDER_Periodic_Retrans, PRE_ORDER_Construct_PO_ARU.
  walk. apply within_act_silent. exact I.
Qed.

Lemma within_Periodically n : untouched (PRE_ORDER_Periodically VAR n).
Proof.
  pose proof allowed. pose proof (within_Send_Proof_Matrix (R := R) any_fault allowed VAR HVAR).
  unfold PRE_ORDER_Periodically. walk.
Qed.

Lemma within_Process m : untouched (PRE_ORDER_Process VAR m).
Proof.
  destruct m; cbn [PRE_ORDER_Process]; [apply within_Process_Update|apply within_Process_PO_Request|apply within_Process_PO_Ack
    |apply within_PO_ARU|apply within_Process_Proof_Matrix|apply within_Periodically|apply within_Periodic_Retrans]; exact HVAR.
Qed.
End Handlers.

(** ** The composition *)
(** C23. Pre-ordering cannot disturb the order: whatever message or timer of
    pre-ordering a correct replica handles, from any sender and with any contents,
    the state it ends in is one the system of the ordering protocol may reach, so
    that all its properties hold on; and no slot's ballot, no line and no waiting
    slot has changed. *)
Theorem pre_ordering_is_a_step {crypto : Crypto} {signer : Signer} {R : Type} {ext : External R}
    (faulty : gset Z) (σ : system (E := po_data (R := R))) (i : Z) (m : po_input) (r' : order_state)
    (Hreach : reachable faulty σ) (Hi : correct faulty i)
    (Hrun : PRE_ORDER_Process (Init_VAR i) m (node σ i) = Ret (tt, r')) :
  reachable faulty (set_node σ i r') /\ aside (node σ i) r'.
Proof.
  apply (wp_Ret _ _ _ _ _ _ (within_Process (Init_VAR i) (quorum_ok i) m (node σ i))) in Hrun. split; [|exact Hrun].
  eapply reach_step; [exact Hreach|]. apply step_other; [exact Hi|]. apply keeps_erase, aside_keeps, Hrun.
Qed.

(** ** Large requests *)
Section Large.
Context {crypto : Crypto} {R : Type} (VAR : server_variables).
Implicit Types (r : order_state (E := po_data (R := R))).

Lemma vector_of_vector l : vector_of (0 :: vector_of l) = vector_of l.
Proof. unfold vector_of at 1. change (drop 1 (0 :: vector_of l)) with (vector_of l). unfold vector_of. rewrite take_take, Nat.min_id. reflexivity. Qed.

(** C20. A PO-Request that is too large stops the servers that certify it: when
    PRE_ORDER_Update_Cum_ARU comes to a request that 2f+k+1 servers acknowledge,
    under the vector of incarnations it knows, and the request with as many of the
    smallest PO-Acks does not fit in a packet, the server exits, or, when not even
    the request fits, writes past the end of the certificate.  What a correct server
    bundles from 70 waiting updates is that large ([full_bundle_too_large]). *)
Theorem large_request_stops_server s r pre cum slot req size n
    (Hpre : aget (preinstalled_incarnations r) s = Some pre)
    (Hcum : aget (cum_aru (others r)) s = Some cum) (Hs : 1 <= s <= NUM_SERVERS)
    (Hslot : PO_History (others r) !! mkPoId s (cum_aru_from pre cum) = Some slot)
    (Hreq : po_request slot = Some req) (Hsize : UTIL_Message_Size req 0 r = Ret (size, r))
    (Hwhole : 0 <= size <= Z.of_nat (length req)) (Hacks : acks_whole slot)
    (Hcount : count_acks slot (seqZ 1 NUM_SERVERS) 0 r = Ret (n, r)) (Hn : 2 * NUM_F + NUM_K + 1 <= n)
    (Hquorum : 0 < 2 * VF VAR + VK VAR + 1)
    (Hvector : let vec := if po_snapshot slot then vector_of (po_snapshot_vector slot) else vector_of (preinstalled_incarnations r) in
       2 * VF VAR + VK VAR + 1 <= Z.of_nat (length (List.filter (carries_vector vec slot) (seqZ 1 NUM_SERVERS))))
    (Hlarge : PRIME_MAX_PACKET_SIZE <= sz_signed_message + sz_po_certificate_message + size + (2 * VF VAR + VK VAR + 1) * least_ack) :
  PRE_ORDER_Update_Cum_ARU VAR s r =
    Fault (if PRIME_MAX_PACKET_SIZE <? sz_signed_message + sz_po_certificate_message + size then OutOfBounds else Exit).
Proof.
  unfold PRE_ORDER_Update_Cum_ARU, po, at_server, bind, get, ret. rewrite Hpre. cbn [or_oob ret]. rewrite Hcum. cbn [or_oob ret].
  cbn [raise_cum_aru]. unfold UTIL_Get_PO_Slot_If_Exists, bind at 1.
  replace ((1 <=? s) && (s <=? NUM_SERVERS)) with true by lia. cbn [negb]. unfold po, bind, get, ret. rewrite Hslot, Hreq, Hcount.
  replace (n <? _) with false by lia. set (slot1 := if po_snapshot slot then slot else _).
  assert (E1 : po_request slot1 = Some req) by (unfold slot1; destruct (po_snapshot slot); exact Hreq).
  unfold CATCH_Construct_PO_Certificate, bind, get. rewrite E1. cbn [or_oob ret]. rewrite Hsize.
  unfold load_bytes. destruct (slice_defined req 0 size) as [m ->]; [lia..|]. cbn [or_oob ret].
  destruct (Z.ltb_spec PRIME_MAX_PACKET_SIZE (sz_signed_message + sz_po_certificate_message + size)); [reflexivity|].
  cbn [ret]. rewrite certificate_exits; [reflexivity| |apply Forall_seqZ; intros; lia| |rewrite Z.sub_0_r; exact Hlarge].
  - unfold slot1. destruct (po_snapshot slot); exact Hacks.
  - rewrite Z.sub_0_r. split; [exact Hquorum|]. unfold slot1. cbv zeta in Hvector.
    destruct (po_snapshot slot); [exact Hvector|]. cbn [po_snapshot_vector take_snapshot].
    rewrite vector_of_vector. exact Hvector.
Qed.
End Large.

(** ** Sample inputs *)
#[local] Existing Instance prefix_digest.

(** A PO-Request of server 2. *)
Definition other_request : list byte :=
  put_u32 o_signed_message_machine_id 2
    toy_request.

Lemma pre_ordering_is_a_step_witness :
  exists r', PRE_ORDER_Process (R := unit) (Init_VAR 2) (In_PO_Request other_request) (node exec_end 2) = Ret (tt, r') /\
    reachable {[6]} (set_node exec_end 2 r') /\ aside (node exec_end 2) r'.
Proof.
  assert (H : match PRE_ORDER_Process (R := unit) (Init_VAR 2) (In_PO_Request other_request) (node exec_end 2) with
              | Ret _ => true | Fault _ => false end = true) by (vm_compute; reflexivity).
  destruct (PRE_ORDER_Process _ _ _) as [[[] r']|f] eqn:E; [|discriminate]. exists r'. split; [reflexivity|].
  apply (@pre_ordering_is_a_step prefix_digest blank_signer unit quiet {[6]} exec_end 2 (In_PO_Request other_request)).
  - exact exec_end_reachable.
  - apply order_is_correct_spec. vm_compute. reflexivity.
  - exact E.
Defined.

(** Updates 1 and 2 of client 3. *)
Definition toy_update (n : Z) : list byte :=
  put_u32 o_signed_message_len (sz_signed_update_message - sz_signed_message)
    (put_u32 (sz_signed_message + o_update_message_server_id) 3
       (put_u32 (sz_signed_message + o_update_message_seq_num) n
          (put_u32 o_signed_message_type (type_val UPDATE) (zeros sz_signed_update_message)))).

Lemma toy_update_whole n : whole (toy_update n).
Proof.
  exists (sz_signed_update_message - sz_signed_message). split.
  - apply (word_put_eq sz_signed_update_message); [vm_compute; discriminate..|sized_].
  - unfold toy_update. split; [|vm_compute; discriminate].
    change (of_size sz_signed_update_message (toy_update n)). unfold toy_update. sized_.
Qed.

Definition with_updates (us : list (list byte)) : order_state :=
  set_others (with_po_request_dll us (others exec_start)) exec_start.

Lemma updates_leave_in_order_witness :
  exists r', PRE_ORDER_Send_PO_Request (Init_VAR 2) (with_updates [toy_update 1; toy_update 2]) = Ret (tt, r') /\
  exists ms groups, actions r' = map Send_PO_Request ms /\ length groups = length ms /\
    [toy_update 1; toy_update 2] = concat groups ++ po_request_dll (others r') /\
    forall k m us, ms !! k = Some m -> groups !! k = Some us -> carries (R := unit) m (after (S k) (mkPS 0 0)) us.
Proof.
  assert (H : match PRE_ORDER_Send_PO_Request (Init_VAR 2) (with_updates [toy_update 1; toy_update 2]) with
              | Ret _ => true | Fault _ => false end = true) by (vm_compute; reflexivity).
  destruct (PRE_ORDER_Send_PO_Request _ _) as [[[] r']|f] eqn:E; [|discriminate]. exists r'. split; [reflexivity|].
  apply (@updates_leave_in_order unit (Init_VAR 2) (with_updates [toy_update 1; toy_update 2]) r').
  - repeat constructor; apply toy_update_whole.
  - vm_compute. split; [discriminate|reflexivity].
  - exact E.
Defined.

Definition update_result (us : list (list byte)) : order_state :=
  match process_updates (R := unit) (Init_VAR 2) us exec_start with Ret (_, r) => r | Fault _ => exec_start end.

Lemma update_taken_in_once_witness :
  let r2 := update_result [toy_update 1; toy_update 2] in
  PRE_ORDER_Process_Update (Init_VAR 2) (toy_update 1) r2 = Ret (tt, r2) /\ length (actions r2) = 2%nat.
Proof.
  split; [|vm_compute; reflexivity].
  apply (@update_taken_in_once blank_signer unit (Init_VAR 2) (toy_update 1) [toy_update 2] exec_start
           (update_result [toy_update 1]) (update_result [toy_update 1; toy_update 2]) 3 (mkPS 0 1));
    [vm_compute; reflexivity|discriminate|vm_compute; reflexivity..].
Defined.

(** Server 3 acknowledges request 9 of server 2, which has made none. *)
Definition early_part : po_ack_part := mkPart 2 (mkPS 0 9) (zeros DIGEST_SIZE).
Definition early_ack : po_ack_mess :=
  {| ak_machine_id := 3; ak_incarnation := 0; ak_preinstalled := repeat 0 (Z.to_nat NUM_SERVERS); ak_parts := [early_part]; ak_digests := 0 |}.

Lemma ack_stops_retransmission_witness :
  exists r', PRE_ORDER_Process_PO_Ack_Part (Init_VAR 2) early_part early_ack exec_start = Ret (tt, r') /\
    PRE_ORDER_Periodic_Retrans (Init_VAR 2) r' = Fault OutOfBounds.
Proof.
  assert (H : match PRE_ORDER_Process_PO_Ack_Part (Init_VAR 2) early_part early_ack exec_start with
              | Ret _ => true | Fault _ => false end = true) by (vm_compute; reflexivity).
  destruct (PRE_ORDER_Process_PO_Ack_Part _ _ _ _) as [[[] r']|f] eqn:E; [|discriminate]. exists r'. split; [reflexivity|].
  apply (@ack_stops_retransmission prefix_digest blank_signer unit quiet (Init_VAR 2) early_part early_ack
           exec_start r' (mkPS 0 0) (mkPS 0 0)); try (vm_compute; reflexivity).
  - vm_compute. split; discriminate.
  - right. split; reflexivity.
  - right. split; reflexivity.
  - exact E.
Defined.

(** 70 updates that wait, and the PO-Request made of them. *)
Definition many_updates : list (list byte) := map (fun k => toy_update (Z.of_nat k)) (seq 1 70).

Definition full_bundle : list byte :=
  match PRE_ORDER_Construct_PO_Request (Init_VAR 2) (with_updates many_updates) with
  | Ret (Some m, _) => m
  | _ => []
  end.

Example full_bundle_too_large :
  PRIME_MAX_PACKET_SIZE <= sz_signed_message + sz_po_certificate_message + Z.of_nat (length full_bundle)
    + (2 * NUM_F + NUM_K + 1) * least_ack.
Proof. vm_compute. discriminate. Qed.

(** Replica 2 holds it as the first request of server 1. *)
Definition large_start : order_state :=
  set_others (with_PO_History {[ first_id := acked_with full_bundle ]} (with_cum_aru (per_server_slot (mkPS 0 0)) toy_po)) exec_start.

Lemma acked_whole req : acks_whole (acked_with req).
Proof.
  split; [reflexivity|]. intros i ack. unfold aget, in_bounds. destruct (_ && _); [|discriminate].
  intros H. destruct (Z.to_nat i) as [|[|[|[|[|[|[|]]]]]]]; vm_compute in H; try discriminate;
    injection H as <-; split; discriminate.
Qed.

Lemma acked_count req (r : order_state (E := po_data (R := unit))) :
  count_acks (acked_with req) (seqZ 1 NUM_SERVERS) 0 r = Ret (4, r).
Proof.
  assert (E : OPENSSL_RSA_Digests_Equal (make_digest req) (make_digest req) = true) by (apply Digests_Equal_refl, prefix_digest_ok).
  cbv -[make_digest OPENSSL_RSA_Digests_Equal prefix_digest]. rewrite !E. reflexivity.
Qed.

Lemma Message_Size_any {S : Type} buf p (s : S) :
  UTIL_Message_Size buf p s = match UTIL_Message_Size buf p tt with Ret (x, _) => Ret (x, s) | Fault f => Fault f end.
Proof.
  unfold UTIL_Message_Size, load, bind, load_bytes. destruct (slice buf _ 4) as [a|]; [|reflexivity]. cbn [or_oob ret].
  destruct (slice buf _ 2) as [b|]; [|reflexivity]. cbn [or_oob ret]. unfold MT_Digests_.
  repeat (destruct (le_decode b <=? _); [reflexivity|]). reflexivity.
Qed.

Lemma large_request_stops_server_witness :
  PRE_ORDER_Update_Cum_ARU (R := unit) (Init_VAR 2) 1 large_start = Fault Exit.
Proof.
  assert (Hl : Z.of_nat (length full_bundle) = 31792) by (vm_compute; reflexivity).
  assert (Hs : UTIL_Message_Size full_bundle 0 large_start = Ret (31792, large_start)).
  { rewrite Message_Size_any. replace (UTIL_Message_Size full_bundle 0 tt) with (Ret (31792, tt) : outcome (Z * unit)); [reflexivity|].
    vm_compute. reflexivity. }
  exact (@large_request_stops_server unit (Init_VAR 2) 1 large_start 0 (mkPS 0 0) (acked_with full_bundle)
    full_bundle 31792 4 eq_refl eq_refl ltac:(vm_compute; split; discriminate)
    (lookup_singleton_eq first_id (acked_with full_bundle)) eq_refl Hs
    ltac:(rewrite Hl; lia) (acked_whole _) (acked_count _ _) ltac:(vm_compute; discriminate)
    ltac:(vm_compute; reflexivity) ltac:(vm_compute; discriminate) ltac:(vm_compute; discriminate)).
Defined.
