(* ===== verification/ReliableBroadcast.v ===== *)
(** Reliable broadcast: [prime/src/reliable_broadcast.c], with
    [UTIL_Get_RB_Slot] of [utility.c] and [RB_Construct_Message] of [packets.c].

    View changes and resets spread their reports with Bracha's echo / ready
    protocol.  A replica keeps a slot per instance, an instance being named by
    the tag of its payload (initiator, view, sequence number).  The handlers are
    computations over the replica's state; what they send is appended to [sent],
    what they deliver ([PROCESS_Message]) to [processed]. *)
From Stdlib Require Import ZArith Lia List Bool.
From Stdlib Require Import Strings.Byte.
From stdpp Require Import base list gmap fin_sets.
From S2P Require Import Prelude Memory Config Packets Crypto.

(** ** Messages *)
Record reliable_broadcast_tag := mkTag { t_machine_id : Z; t_view : Z; t_seq_num : Z }.

#[global] Instance rb_tag_eq_dec : EqDecision reliable_broadcast_tag.
Proof. solve_decision. Defined.

(** The broadcast message: its type, its tag, and the bytes it has on the wire
    (the tag among them); validated payloads carry no Merkle digests. *)
Record rb_payload := mkPayload {
  p_type : packet_type; p_tag : reliable_broadcast_tag; p_bytes : list byte }.

Record rb_mess := mkRB {
  rm_type : packet_type; rm_machine_id : Z; rm_incarnation : Z;
  rm_monotonic_counter : Z; rm_payload : rb_payload }.

Inductive rb_state := DUMMY_RB_STATE | INIT | SENT_ECHO | SENT_READY.

#[global] Instance rb_state_eq_dec : EqDecision rb_state.
Proof. solve_decision. Defined.

(** ** The state *)
Record rb_slot := mkSlot {
  s_seq_num : Z;
  s_state : rb_state;
  rb_msg : option rb_payload;
  rb_digest : digest;
  rb_init : option rb_mess;
  rb_echo : list (option rb_mess);
  echo_received : list Z;
  echo_count : Z;
  rb_ready : list (option rb_mess);
  ready_received : list Z;
  ready_count : Z }.

Record rb_data_struct := mkRBData { rb_seq : Z; instances : list (gmap Z rb_slot) }.

(** The part of the replica's state the handlers use. *)
Record replica := mkReplica {
  RB : rb_data_struct;
  View : Z;
  new_incarnation_val : Z;
  sent : list rb_mess;
  processed : list rb_payload }.

Definition per_server {A} (x : A) : list A := repeat x (Z.to_nat NUM_SERVER_SLOTS).

(** [memset] to 0, then the sequence number and the first state. *)
Definition new_slot (seq_num : Z) : rb_slot :=
  {| s_seq_num := seq_num; s_state := INIT; rb_msg := None; rb_digest := zeros DIGEST_SIZE;
     rb_init := None; rb_echo := per_server None; echo_received := per_server 0;
     echo_count := 0; rb_ready := per_server None; ready_received := per_server 0;
     ready_count := 0 |}.

Definition with_state (st : rb_state) (s : rb_slot) : rb_slot :=
  {| s_seq_num := s_seq_num s; s_state := st; rb_msg := rb_msg s; rb_digest := rb_digest s;
     rb_init := rb_init s; rb_echo := rb_echo s; echo_received := echo_received s;
     echo_count := echo_count s; rb_ready := rb_ready s;
     ready_received := ready_received s; ready_count := ready_count s |}.

Definition with_payload (p : rb_payload) (d : digest) (s : rb_slot) : rb_slot :=
  {| s_seq_num := s_seq_num s; s_state := s_state s; rb_msg := Some p; rb_digest := d;
     rb_init := rb_init s; rb_echo := rb_echo s; echo_received := echo_received s;
     echo_count := echo_count s; rb_ready := rb_ready s;
     ready_received := ready_received s; ready_count := ready_count s |}.

Definition with_init (m : rb_mess) (s : rb_slot) : rb_slot :=
  {| s_seq_num := s_seq_num s; s_state := s_state s; rb_msg := rb_msg s;
     rb_digest := rb_digest s; rb_init := Some m; rb_echo := rb_echo s;
     echo_received := echo_received s; echo_count := echo_count s; rb_ready := rb_ready s;
     ready_received := ready_received s; ready_count := ready_count s |}.

Definition with_echo (es : list (option rb_mess)) (fl : list Z) (c : Z) (s : rb_slot) : rb_slot :=
  {| s_seq_num := s_seq_num s; s_state := s_state s; rb_msg := rb_msg s;
     rb_digest := rb_digest s; rb_init := rb_init s; rb_echo := es; echo_received := fl;
     echo_count := c; rb_ready := rb_ready s; ready_received := ready_received s;
     ready_count := ready_count s |}.

Definition with_ready (es : list (option rb_mess)) (fl : list Z) (c : Z) (s : rb_slot) : rb_slot :=
  {| s_seq_num := s_seq_num s; s_state := s_state s; rb_msg := rb_msg s;
     rb_digest := rb_digest s; rb_init := rb_init s; rb_echo := rb_echo s;
     echo_received := echo_received s; echo_count := echo_count s; rb_ready := es;
     ready_received := fl; ready_count := c |}.

Section Handlers.
Context {crypto : Crypto} (VAR : server_variables).

(** ** Initialization *)
Definition empty_instances : list (gmap Z rb_slot) := per_server ∅.

Definition RB_Clear_Slots (rb : rb_data_struct) : rb_data_struct :=
  {| rb_seq := rb_seq rb; instances := empty_instances |}.

Definition RB_Initialize_Upon_View_Change (rb : rb_data_struct) : rb_data_struct :=
  RB_Clear_Slots {| rb_seq := 1; instances := instances rb |}.

(** [stdhash_destruct] leaves the tables without elements as well. *)
Definition RB_Upon_Reset (rb : rb_data_struct) : rb_data_struct := RB_Clear_Slots rb.

(** The tables of servers 1 to [NUM_SERVERS] are constructed; the element 0 of
    the array stays as the loader zeroed it, here without slots too. *)
Definition RB_Initialize_Data_Structure : rb_data_struct :=
  RB_Initialize_Upon_View_Change {| rb_seq := 0; instances := empty_instances |}.

(** ** Slots *)
Definition UTIL_Get_RB_Slot (server_id seq_num : Z) : comp replica rb_slot :=
  r <- get ;;
  h <- or_oob (aget (instances (RB r)) server_id) ;;
  ret match h !! seq_num with Some slot => slot | None => new_slot seq_num end.

(** The handlers write through the pointer they got. *)
Definition put_slot (server_id seq_num : Z) (slot : rb_slot) : comp replica unit :=
  r <- get ;;
  h <- or_oob (aget (instances (RB r)) server_id) ;;
  ins <- or_oob (aset (instances (RB r)) server_id (<[seq_num := slot]> h)) ;;
  put {| RB := {| rb_seq := rb_seq (RB r); instances := ins |}; View := View r;
         new_incarnation_val := new_incarnation_val r; sent := sent r;
         processed := processed r |}.

(** ** Sending and delivering *)
Definition RB_Construct_Message (r : replica) (type : packet_type) (mess : rb_payload)
    : rb_mess :=
  {| rm_type := type; rm_machine_id := My_Server_ID VAR;
     rm_incarnation := new_incarnation_val r;
     rm_monotonic_counter :=
       match p_type mess with RESET_VIEWCHANGE | RESET_NEWVIEW => 1 | _ => 0 end;
     rm_payload := mess |}.

Definition send (type : packet_type) (slot : rb_slot) : comp replica unit :=
  mess <- or_oob (rb_msg slot) ;;
  r <- get ;;
  put {| RB := RB r; View := View r; new_incarnation_val := new_incarnation_val r;
         sent := sent r ++ [RB_Construct_Message r type mess]; processed := processed r |}.

Definition PROCESS_Payload (slot : rb_slot) : comp replica unit :=
  mess <- or_oob (rb_msg slot) ;;
  r <- get ;;
  put {| RB := RB r; View := View r; new_incarnation_val := new_incarnation_val r;
         sent := sent r; processed := processed r ++ [mess] |}.

(** ** Handlers *)
(** The first payload of an instance is kept, with its digest; a later one is
    compared with it. *)
Definition match_payload (s : rb_slot) (payload : rb_payload) : rb_slot * bool :=
  match rb_msg s with
  | None => (with_payload payload (make_digest (p_bytes payload)) s, true)
  | Some _ =>
      (s, OPENSSL_RSA_Digests_Equal (make_digest (p_bytes payload)) (rb_digest s))
  end.

Definition RB_Process_Init (mess : rb_mess) : comp replica unit :=
  let payload := rm_payload mess in
  let tag := p_tag payload in
  r <- get ;;
  if negb (t_view tag =? View r) then ret tt else
  let save := put_slot (t_machine_id tag) (t_seq_num tag) in
  s <- UTIL_Get_RB_Slot (t_machine_id tag) (t_seq_num tag) ;;
  let s := match rb_init s with None => with_init mess s | Some _ => s end in
  let '(s, same) := match_payload s payload in
  if negb same then save s else
  match s_state s with
  | INIT =>
      let s := with_state SENT_ECHO s in
      send RB_ECHO s ;;; save s
  | _ => save s
  end.

(** [case INIT: ...; case SENT_ECHO: ...; case SENT_READY: break;] *)
Definition advance (s : rb_slot) : comp replica rb_slot :=
  match s_state s with
  | INIT =>
      let s := with_state SENT_ECHO s in
      send RB_ECHO s ;;;
      let s := with_state SENT_READY s in
      send RB_READY s ;;; ret s
  | SENT_ECHO =>
      let s := with_state SENT_READY s in
      send RB_READY s ;;; ret s
  | _ => ret s
  end.

(** [if (a[i] == NULL) a[i] = mess;] *)
Definition set_if_null (a : list (option rb_mess)) (i : Z) (mess : rb_mess)
    : comp replica (list (option rb_mess)) :=
  x <- or_oob (aget a i) ;;
  match x with None => or_oob (aset a i (Some mess)) | Some _ => ret a end.

Definition RB_Process_Echo (mess : rb_mess) : comp replica unit :=
  let payload := rm_payload mess in
  let tag := p_tag payload in
  let from := rm_machine_id mess in
  r <- get ;;
  if negb (t_view tag =? View r) then ret tt else
  let save := put_slot (t_machine_id tag) (t_seq_num tag) in
  s <- UTIL_Get_RB_Slot (t_machine_id tag) (t_seq_num tag) ;;
  es <- set_if_null (rb_echo s) from mess ;;
  let s := with_echo es (echo_received s) (echo_count s) s in
  let '(s, same) := match_payload s payload in
  if negb same then save s else
  received <- or_oob (aget (echo_received s) from) ;;
  if received =? 1 then save s else
  fl <- or_oob (aset (echo_received s) from 1) ;;
  let s := with_echo (rb_echo s) fl (wrap32 (echo_count s + 1)) s in
  if negb (echo_count s =? quorum VAR) then save s else
  s <- advance s ;;
  save s.

Definition RB_Process_Ready (mess : rb_mess) : comp replica unit :=
  let payload := rm_payload mess in
  let tag := p_tag payload in
  let from := rm_machine_id mess in
  r <- get ;;
  if negb (t_view tag =? View r) then ret tt else
  let save := put_slot (t_machine_id tag) (t_seq_num tag) in
  s <- UTIL_Get_RB_Slot (t_machine_id tag) (t_seq_num tag) ;;
  es <- set_if_null (rb_ready s) from mess ;;
  let s := with_ready es (ready_received s) (ready_count s) s in
  let '(s, same) := match_payload s payload in
  if negb same then save s else
  received <- or_oob (aget (ready_received s) from) ;;
  if received =? 1 then save s else
  fl <- or_oob (aset (ready_received s) from 1) ;;
  let s := with_ready (rb_ready s) fl (wrap32 (ready_count s + 1)) s in
  if ready_count s <? weak_quorum VAR then save s else
  if ready_count s =? weak_quorum VAR then
    s <- advance s ;;
    save s
  else if negb (ready_count s =? quorum VAR) then save s
  else save s ;;; PROCESS_Payload s.

(** [PROCESS_Message] on the three types. *)
Definition RB_Process (mess : rb_mess) : comp replica unit :=
  match rm_type mess with
  | RB_INIT => RB_Process_Init mess
  | RB_ECHO => RB_Process_Echo mess
  | RB_READY => RB_Process_Ready mess
  | _ => ret tt
  end.

(** What [RB_Periodic_Retrans] broadcasts, instance by instance: the replica's
    own init, echo and ready of it.  [done] is the test of its first line. *)
Definition retrans_slot (i : Z) (s : rb_slot) : list rb_mess :=
  let me := My_Server_ID VAR in
  let own l := match aget l me with Some (Some m) => [m] | _ => [] end in
  (if i =? me then match rb_init s with Some m => [m] | None => [] end else [])
  ++ own (rb_echo s) ++ own (rb_ready s).

Definition RB_Periodic_Retrans (done : bool) (r : replica) : list rb_mess :=
  if done then [] else
  concat (map (fun i =>
    match aget (instances (RB r)) i with
    | Some h => concat (map (fun '(_, s) => retrans_slot i s) (map_to_list h))
    | None => []
    end) (seqZ 1 NUM_SERVERS)).
End Handlers.
