(* ===== verification/ReliableBroadcastCorrect.v ===== *)
(** Agreement of the reliable broadcast of [ReliableBroadcast.v].

    First one replica: an invariant of its state, relative to the evidence its
    received messages give ([EvE], [EvR]: who has sent an echo, a ready, for
    which tag and digest), that every handler preserves.  Then the system: the
    correct replicas run the handlers on messages of each other, in any order,
    any number of times, the faulty ones send anything under their own names;
    two correct replicas never deliver different payloads under one tag, as
    long as the faulty ones and those that catchup made enter the view of the
    tag again are at most [f] together. *)
From Stdlib Require Import ZArith Lia List Bool.
From Stdlib Require Import Strings.Byte.
From stdpp Require Import base list gmap fin_sets.
From S2P Require Import Prelude Memory Config Packets Crypto ReliableBroadcast.

Definition digest_of {crypto : Crypto} (p : rb_payload) : digest := make_digest (p_bytes p).

(** The servers whose flag is up. *)
Definition flagged (fl : list Z) : gset Z :=
  filter (fun j => aget fl j = Some 1) (server_ids NUM_SERVERS).

Lemma elem_of_flagged fl j :
  j ∈ flagged fl <-> 1 <= j <= NUM_SERVERS /\ aget fl j = Some 1.
Proof. unfold flagged. rewrite elem_of_filter, elem_of_server_ids. tauto. Qed.

Lemma flagged_size fl : Z.of_nat (size (flagged fl)) <= NUM_SERVERS.
Proof.
  assert (flagged fl ⊆ server_ids NUM_SERVERS) as H
    by (intros j Hj; apply elem_of_flagged in Hj as [Hj _]; apply elem_of_server_ids; exact Hj).
  apply subseteq_size in H. pose proof (size_server_ids NUM_SERVERS ltac:(easy)). lia.
Qed.

Lemma flagged_set fl fl' j :
  1 <= j <= NUM_SERVERS -> aget fl j <> Some 1 -> aset fl j 1 = Some fl' ->
  flagged fl' = flagged fl ∪ {[j]} /\ Z.of_nat (size (flagged fl')) = Z.of_nat (size (flagged fl)) + 1.
Proof.
  intros Hj Hn Hs.
  assert (E : flagged fl' = flagged fl ∪ {[j]}).
  { apply leibniz_equiv. intros i. rewrite elem_of_union, elem_of_singleton, !elem_of_flagged.
    destruct (Z.eq_dec i j) as [->|Hij].
    - rewrite (aget_aset_eq _ _ _ _ Hs). tauto.
    - rewrite (aget_aset_ne _ _ _ _ _ Hs) by congruence. tauto. }
  split; [exact E|]. rewrite E, size_union, size_singleton; [lia|].
  intros i Hi Hi'. apply elem_of_singleton in Hi' as ->. apply elem_of_flagged in Hi. tauto.
Qed.

Section Local.
Context {crypto : Crypto} (ok : CryptoOk crypto) (VAR : server_variables).
Context (EvE EvR : Z -> reliable_broadcast_tag -> digest -> Prop).
(** The views this replica enters a second time, its instances emptied: there
    it may echo an instance again. *)
Context (again : Z -> Prop).

Notation me := (My_Server_ID VAR).

(** A set of servers with the same evidence. *)
Definition backed (Ev : Z -> reliable_broadcast_tag -> digest -> Prop) (q : Z)
    (t : reliable_broadcast_tag) (d : digest) : Prop :=
  exists Q : gset Z, Q ⊆ server_ids NUM_SERVERS /\ q <= Z.of_nat (size Q) /\
    forall j, j ∈ Q -> Ev j t d.

Definition justified (t : reliable_broadcast_tag) (d : digest) : Prop :=
  backed EvE (quorum VAR) t d \/ backed EvR (weak_quorum VAR) t d.

(** Flags, their count and their evidence. *)
Definition votes (Ev : Z -> reliable_broadcast_tag -> digest -> Prop) (fl : list Z) (c : Z)
    (t : reliable_broadcast_tag) (d : digest) : Prop :=
  Z.of_nat (length fl) = NUM_SERVER_SLOTS /\ c = Z.of_nat (size (flagged fl)) /\
  forall j, j ∈ flagged fl -> Ev j t d.

Record slot_ok (view o q : Z) (s : rb_slot) : Prop := {
  sl_empty : rb_msg s = None ->
    s_state s = INIT /\ flagged (echo_received s) = ∅ /\ flagged (ready_received s) = ∅;
  sl_msg : forall p, rb_msg s = Some p ->
    p_tag p = mkTag o view q /\ rb_digest s = digest_of p;
  sl_state : s_state s <> DUMMY_RB_STATE;
  sl_arrays : Z.of_nat (length (rb_echo s)) = NUM_SERVER_SLOTS /\
    Z.of_nat (length (rb_ready s)) = NUM_SERVER_SLOTS;
  sl_echo : votes EvE (echo_received s) (echo_count s) (mkTag o view q) (rb_digest s);
  sl_ready : votes EvR (ready_received s) (ready_count s) (mkTag o view q) (rb_digest s) }.

Definition look_up := Z -> Z -> option rb_slot.

Record good (view : Z) (L : look_up) (out : list rb_mess) (pr : list rb_payload) : Prop := {
  g_slot : forall o q s, L o q = Some s -> slot_ok view o q s;
  g_mine : forall m, m ∈ out ->
    rm_machine_id m = me /\ t_view (p_tag (rm_payload m)) <= view;
  g_echo : ~ again view -> forall m, m ∈ out -> rm_type m = RB_ECHO ->
    t_view (p_tag (rm_payload m)) = view ->
    exists s, L (t_machine_id (p_tag (rm_payload m))) (t_seq_num (p_tag (rm_payload m))) = Some s
      /\ s_state s <> INIT /\ rb_digest s = digest_of (rm_payload m);
  g_once : forall m m', m ∈ out -> m' ∈ out -> rm_type m = RB_ECHO -> rm_type m' = RB_ECHO ->
    p_tag (rm_payload m) = p_tag (rm_payload m') -> ~ again (t_view (p_tag (rm_payload m))) ->
    digest_of (rm_payload m) = digest_of (rm_payload m');
  g_ready : forall m, m ∈ out -> rm_type m = RB_READY ->
    justified (p_tag (rm_payload m)) (digest_of (rm_payload m));
  g_done : forall p, p ∈ pr -> backed EvR (quorum VAR) (p_tag p) (digest_of p) }.

Definition upd (L : look_up) (o q : Z) (s : rb_slot) : look_up :=
  fun o' q' => if decide (o' = o /\ q' = q) then Some s else L o' q'.

Lemma upd_eq L o q s : upd L o q s o q = Some s.
Proof. unfold upd. rewrite decide_True by auto. reflexivity. Qed.

Lemma upd_ne L o q s o' q' : ~ (o' = o /\ q' = q) -> upd L o q s o' q' = L o' q'.
Proof. intros H. unfold upd. rewrite decide_False by exact H. reflexivity. Qed.

(** ** Changes of the invariant *)
Lemma good_slot view L o q s s' out pr :
  good view (upd L o q s) out pr -> slot_ok view o q s' ->
  (s_state s <> INIT -> s_state s' <> INIT /\ rb_digest s' = rb_digest s) ->
  good view (upd L o q s') out pr.
Proof.
  intros [H1 H2 H3 H4 H5 H6] Hs Hk. split; try assumption.
  - intros o' q' s0. destruct (decide (o' = o /\ q' = q)) as [[-> ->]|Hne].
    + rewrite upd_eq. intros [= <-]. exact Hs.
    + rewrite upd_ne by exact Hne. intros E. apply H1. rewrite upd_ne by exact Hne. exact E.
  - intros Ha m Hm Ht Hv. destruct (H3 Ha m Hm Ht Hv) as (s0 & E & Hi & Hd).
    destruct (decide (t_machine_id (p_tag (rm_payload m)) = o /\
                      t_seq_num (p_tag (rm_payload m)) = q)) as [[Ho Hq]|Hne].
    + rewrite Ho, Hq in *. rewrite upd_eq in E. injection E as <-.
      exists s'. rewrite upd_eq. destruct (Hk Hi) as [Hi' Hd']. split; [reflexivity|].
      split; [exact Hi'|]. congruence.
    + rewrite upd_ne in E by exact Hne. exists s0. rewrite upd_ne by exact Hne. auto.
Qed.

Lemma good_open view L o q s out pr :
  good view L out pr -> L o q = None -> slot_ok view o q s -> good view (upd L o q s) out pr.
Proof.
  intros [H1 H2 H3 H4 H5 H6] Hn Hs. split; try assumption.
  - intros o' q' s0. destruct (decide (o' = o /\ q' = q)) as [[-> ->]|Hne].
    + rewrite upd_eq. intros [= <-]. exact Hs.
    + rewrite upd_ne by exact Hne. apply H1.
  - intros Ha m Hm Ht Hv. destruct (H3 Ha m Hm Ht Hv) as (s0 & E & Hi & Hd).
    exists s0. rewrite upd_ne; [auto|]. intros [Ho Hq]. rewrite Ho, Hq in E. congruence.
Qed.

Lemma good_same view L L' out pr :
  (forall o q, L o q = L' o q) -> good view L out pr -> good view L' out pr.
Proof.
  intros E [H1 H2 H3 H4 H5 H6]. split; try assumption.
  - intros o q s. rewrite <- E. apply H1.
  - intros Ha m Hm Ht Hv. destruct (H3 Ha m Hm Ht Hv) as (s0 & E0 & H). exists s0.
    rewrite <- E. auto.
Qed.

Lemma slot_state view o q s st :
  slot_ok view o q s -> rb_msg s <> None -> st <> DUMMY_RB_STATE ->
  slot_ok view o q (with_state st s).
Proof. intros [] Hm Hst. split; cbn; auto. congruence. Qed.

(** An echo is sent once, when the slot leaves [INIT]. *)
Lemma good_send_echo view L o q s p out pr m :
  good view (upd L o q s) out pr -> s_state s = INIT -> rb_msg s = Some p ->
  rm_type m = RB_ECHO -> rm_machine_id m = me -> rm_payload m = p ->
  good view (upd L o q (with_state SENT_ECHO s)) (out ++ [m]) pr.
Proof.
  intros G Hst Hp Ht Hid Hpl. pose proof G as [H1 H2 H3 H4 H5 H6].
  assert (Hs : slot_ok view o q s) by (apply H1; apply upd_eq).
  destruct (sl_msg _ _ _ _ Hs p Hp) as [Htag Hdig].
  assert (Hnone : ~ again view -> forall m', m' ∈ out -> rm_type m' = RB_ECHO ->
    p_tag (rm_payload m') = mkTag o view q -> False).
  { intros Ha m' Hm' Ht' Htg. destruct (H3 Ha m' Hm' Ht') as (s0 & E & Hi & _).
    - rewrite Htg. reflexivity.
    - rewrite Htg in E. cbn in E. rewrite upd_eq in E. injection E as <-. congruence. }
  assert (G' : good view (upd L o q (with_state SENT_ECHO s)) out pr).
  { eapply good_slot; [exact G| |congruence].
    apply slot_state; [exact Hs|congruence|discriminate]. }
  destruct G' as [G1 G2 G3 G4 G5 G6].
  split; [exact G1| | | | |exact G6]; try setoid_rewrite elem_of_app;
    try setoid_rewrite list_elem_of_singleton.
  - intros m' [Hm'| ->]; [auto|]. rewrite Hpl, Htag. cbn. split; [exact Hid|lia].
  - intros Ha m' [Hm'| ->] Ht' Hv; [auto|]. rewrite Hpl, Htag. cbn.
    exists (with_state SENT_ECHO s). rewrite upd_eq. split; [reflexivity|].
    split; [discriminate|]. exact Hdig.
  - intros m1 m2 [Hm1| ->] [Hm2| ->] Ht1 Ht2 Hte Ha; auto.
    + exfalso. rewrite Hpl, Htag in Hte. rewrite Hte in Ha. exact (Hnone Ha m1 Hm1 Ht1 Hte).
    + exfalso. rewrite Hpl, Htag in Hte, Ha. exact (Hnone Ha m2 Hm2 Ht2 (eq_sym Hte)).
  - intros m' [Hm'| ->] Ht'; [auto|]. congruence.
Qed.

(** A ready is sent when it is justified. *)
Lemma good_send_ready view L o q s p out pr m :
  good view (upd L o q s) out pr -> rb_msg s = Some p -> s_state s <> INIT ->
  justified (mkTag o view q) (rb_digest s) ->
  rm_type m = RB_READY -> rm_machine_id m = me -> rm_payload m = p ->
  good view (upd L o q (with_state SENT_READY s)) (out ++ [m]) pr.
Proof.
  intros G Hp Hi HJ Ht Hid Hpl. pose proof G as [H1 _ _ _ _ _].
  assert (Hs : slot_ok view o q s) by (apply H1; apply upd_eq).
  destruct (sl_msg _ _ _ _ Hs p Hp) as [Htag Hdig].
  assert (G' : good view (upd L o q (with_state SENT_READY s)) out pr).
  { eapply good_slot; [exact G| |].
    - apply slot_state; [exact Hs|congruence|discriminate].
    - intros _. split; [discriminate|reflexivity]. }
  destruct G' as [G1 G2 G3 G4 G5 G6].
  split; [exact G1| | | | |exact G6]; try setoid_rewrite elem_of_app;
    try setoid_rewrite list_elem_of_singleton.
  - intros m' [Hm'| ->]; [auto|]. rewrite Hpl, Htag. cbn. split; [exact Hid|lia].
  - intros Ha m' [Hm'| ->] Ht' Hv; [auto|]. congruence.
  - intros m1 m2 [Hm1| ->] [Hm2| ->] Ht1 Ht2 Hte Ha; auto; congruence.
  - intros m' [Hm'| ->] Ht'; [auto|]. rewrite Hpl, Htag, <- Hdig. exact HJ.
Qed.

(** ** The invariant of a replica *)
Definition slot_at (r : replica) : look_up := fun o q =>
  match aget (instances (RB r)) o with Some h => h !! q | None => None end.

Definition sized (r : replica) : Prop := Z.of_nat (length (instances (RB r))) = NUM_SERVER_SLOTS.

Definition local_inv (r : replica) : Prop :=
  sized r /\ good (View r) (slot_at r) (sent r) (processed r).

(** The same while a handler holds the slot [s] of instance [(o, q)]. *)
Definition open_inv (r : replica) (o q : Z) (s : rb_slot) : Prop :=
  sized r /\ good (View r) (upd (slot_at r) o q s) (sent r) (processed r).

(** What a handler may do to the rest of the replica. *)
Definition extends (r r' : replica) : Prop :=
  View r' = View r /\ exists l, sent r' = sent r ++ l.

Lemma extends_refl r : extends r r.
Proof. split; [reflexivity|exists []; rewrite app_nil_r; reflexivity]. Qed.

Lemma extends_trans r1 r2 r3 : extends r1 r2 -> extends r2 r3 -> extends r1 r3.
Proof.
  intros [V1 [l1 E1]] [V2 [l2 E2]]. split; [congruence|].
  exists (l1 ++ l2). rewrite E2, E1, app_assoc. reflexivity.
Qed.

Lemma flagged_per_server : flagged (per_server 0) = ∅.
Proof. vm_compute. reflexivity. Qed.

Lemma new_slot_ok view o q : slot_ok view o q (new_slot q).
Proof.
  split; cbn; try rewrite flagged_per_server; auto; try discriminate;
    (split; [reflexivity|split; [rewrite flagged_per_server; reflexivity|]];
     intros j; rewrite flagged_per_server; set_solver).
Qed.

Lemma wp_Get_Slot r o q Q :
  local_inv r -> 0 <= o < NUM_SERVER_SLOTS ->
  (forall s, open_inv r o q s -> Q s r) -> wp no_fault (UTIL_Get_RB_Slot o q) Q r.
Proof.
  intros [Hs G] Ho HQ. unfold UTIL_Get_RB_Slot, wp, bind. cbn [get].
  destruct (aget_is_Some (instances (RB r)) o ltac:(unfold sized in Hs; lia)) as [h Eh].
  rewrite Eh. cbn. apply HQ. split; [exact Hs|].
  destruct (h !! q) as [s|] eqn:E.
  - eapply good_same; [|exact G]. intros o' q'. unfold upd.
    destruct (decide _) as [[-> ->]|]; [|reflexivity]. unfold slot_at. rewrite Eh. exact E.
  - apply good_open; [exact G| |apply new_slot_ok]. unfold slot_at. rewrite Eh. exact E.
Qed.

Lemma wp_put_slot r o q s Q :
  open_inv r o q s -> 0 <= o < NUM_SERVER_SLOTS ->
  (forall r', local_inv r' -> extends r r' -> processed r' = processed r -> Q tt r') ->
  wp no_fault (put_slot o q s) Q r.
Proof.
  intros [Hs G] Ho HQ. unfold put_slot, wp, bind. cbn [get].
  destruct (aget_is_Some (instances (RB r)) o ltac:(unfold sized in Hs; lia)) as [h Eh].
  rewrite Eh. cbn [or_oob ret].
  rewrite aset_Some by (unfold sized in Hs; lia). cbn.
  apply HQ; [|split; [reflexivity|exists []; rewrite app_nil_r; reflexivity]|reflexivity].
  split; [unfold sized in *; cbn; rewrite length_insert; exact Hs|].
  eapply good_same; [|exact G]. intros o' q'. unfold upd, slot_at; cbn.
  assert (Ha : aset (instances (RB r)) o (<[q:=s]> h)
               = Some (<[Z.to_nat o := <[q:=s]> h]> (instances (RB r))))
    by (apply aset_Some; unfold sized in Hs; lia).
  destruct (decide _) as [[-> ->]|Hne].
  - rewrite (aget_aset_eq _ _ _ _ Ha), lookup_insert_eq. reflexivity.
  - destruct (Z.eq_dec o' o) as [->|Hno].
    + rewrite (aget_aset_eq _ _ _ _ Ha), Eh.
      rewrite lookup_insert_ne by (intros ->; apply Hne; auto). reflexivity.
    + rewrite (aget_aset_ne _ _ _ _ _ Ha) by congruence. reflexivity.
Qed.

(** ** Sending *)
Definition with_sent (r : replica) (m : rb_mess) : replica :=
  {| RB := RB r; View := View r; new_incarnation_val := new_incarnation_val r;
     sent := sent r ++ [m]; processed := processed r |}.

Lemma wp_send t r s p Q :
  rb_msg s = Some p -> Q tt (with_sent r (RB_Construct_Message VAR r t p)) ->
  wp no_fault (send VAR t s) Q r.
Proof. intros Hp HQ. unfold send, wp, bind. rewrite Hp. exact HQ. Qed.

Lemma wp_send_echo r o q s p Q :
  open_inv r o q s -> s_state s = INIT -> rb_msg s = Some p ->
  (forall r', open_inv r' o q (with_state SENT_ECHO s) -> extends r r' -> Q tt r') ->
  wp no_fault (send VAR RB_ECHO (with_state SENT_ECHO s)) Q r.
Proof.
  intros [Hs G] Hst Hp HQ. eapply wp_send; [exact Hp|].
  apply HQ; [|split; [reflexivity|eexists; reflexivity]].
  split; [exact Hs|]. cbn. eapply good_send_echo; eauto.
Qed.

Lemma wp_send_ready r o q s p Q :
  open_inv r o q s -> s_state s <> INIT -> rb_msg s = Some p ->
  justified (mkTag o (View r) q) (rb_digest s) ->
  (forall r', open_inv r' o q (with_state SENT_READY s) -> extends r r' -> Q tt r') ->
  wp no_fault (send VAR RB_READY (with_state SENT_READY s)) Q r.
Proof.
  intros [Hs G] Hst Hp HJ HQ. eapply wp_send; [exact Hp|].
  apply HQ; [|split; [reflexivity|eexists; reflexivity]].
  split; [exact Hs|]. cbn. eapply good_send_ready; eauto.
Qed.

Lemma wp_advance r o q s p Q :
  open_inv r o q s -> rb_msg s = Some p ->
  justified (mkTag o (View r) q) (rb_digest s) ->
  (forall s' r', open_inv r' o q s' -> extends r r' -> Q s' r') ->
  wp no_fault (advance VAR s) Q r.
Proof.
  intros HO Hp HJ HQ. unfold advance. destruct (s_state s) eqn:E.
  - apply wp_ret, HQ; [exact HO|apply extends_refl].
  - apply wp_bind. eapply wp_send_echo; eauto. intros r1 HO1 He1.
    apply wp_bind. eapply (wp_send_ready r1 o q (with_state SENT_ECHO s) p); eauto.
    + rewrite (proj1 He1). exact HJ.
    + intros r2 HO2 He2. apply wp_ret, HQ; [exact HO2|eauto using extends_trans].
  - apply wp_bind. eapply wp_send_ready; eauto; [congruence|]. intros r1 HO1 He1.
    apply wp_ret, HQ; assumption.
  - apply wp_ret, HQ; [exact HO|apply extends_refl].
Qed.

(** ** Changes of the open slot *)
Lemma open_slot_ok r o q s : open_inv r o q s -> slot_ok (View r) o q s.
Proof. intros [_ G]. apply (g_slot _ _ _ _ G). apply upd_eq. Qed.

Lemma open_change r o q s s' :
  open_inv r o q s -> slot_ok (View r) o q s' ->
  (s_state s <> INIT -> s_state s' <> INIT /\ rb_digest s' = rb_digest s) ->
  open_inv r o q s'.
Proof. intros [Hs G] H1 H2. split; [exact Hs|]. eapply good_slot; eauto. Qed.

Lemma open_match r o q s payload s' same :
  open_inv r o q s -> p_tag payload = mkTag o (View r) q ->
  match_payload s payload = (s', same) ->
  open_inv r o q s' /\ (exists p, rb_msg s' = Some p) /\
  echo_received s' = echo_received s /\ ready_received s' = ready_received s /\
  (same = true -> rb_digest s' = digest_of payload).
Proof.
  intros HO Ht E. pose proof (open_slot_ok _ _ _ _ HO) as Hs. destruct Hs as [H1 H2 H3 Ha H4 H5].
  unfold match_payload in E. destruct (rb_msg s) as [p|] eqn:Ep; injection E as <- <-.
  - split; [exact HO|]. split; [eauto|]. split; [reflexivity|]. split; [reflexivity|].
    intros Hd. apply Digests_Equal_spec in Hd; [symmetry; exact Hd|apply make_digest_length|].
    destruct (H2 p eq_refl) as [_ ->]. apply make_digest_length.
  - destruct (H1 eq_refl) as (Hst & He & Hr).
    split; [|cbn; eauto 6]. eapply open_change; [exact HO| |congruence].
    split; cbn; auto.
    + intros p [= <-]. auto.
    + destruct H4 as (L & C & _). repeat split; auto. rewrite He. set_solver.
    + destruct H5 as (L & C & _). repeat split; auto. rewrite Hr. set_solver.
Qed.

(** ** The handlers *)
(** The messages [VAL_Validate_Message] lets through: a server sent them, and
    their tag names one. *)
Definition in_range_mess (m : rb_mess) : Prop :=
  1 <= rm_machine_id m <= NUM_SERVERS /\
  1 <= t_machine_id (p_tag (rm_payload m)) <= NUM_SERVERS.

(** What receiving [m] proves. *)
Definition evidence (m : rb_mess) : Prop :=
  (rm_type m = RB_ECHO ->
   EvE (rm_machine_id m) (p_tag (rm_payload m)) (digest_of (rm_payload m))) /\
  (rm_type m = RB_READY ->
   EvR (rm_machine_id m) (p_tag (rm_payload m)) (digest_of (rm_payload m))).

Definition handler_post (r : replica) (u : unit) (r' : replica) : Prop :=
  local_inv r' /\ extends r r'.

Lemma post_skip r : local_inv r -> handler_post r tt r.
Proof. intros H. split; [exact H|apply extends_refl]. Qed.

Lemma wp_save r0 r o q s :
  open_inv r o q s -> 0 <= o < NUM_SERVER_SLOTS -> extends r0 r ->
  wp no_fault (put_slot o q s) (handler_post r0) r.
Proof.
  intros HO Ho He. eapply wp_put_slot; eauto. intros r' HL He' _.
  split; [exact HL|eauto using extends_trans].
Qed.

Lemma wp_set_if_null (Q : list (option rb_mess) -> replica -> Prop) a i mess r :
  0 <= i < Z.of_nat (length a) -> (forall a', length a' = length a -> Q a' r) ->
  wp no_fault (set_if_null a i mess) Q r.
Proof.
  intros Hi HQ. unfold set_if_null, wp, bind.
  destruct (aget_is_Some a i Hi) as [x ->]. cbn.
  destruct x; [apply HQ; reflexivity|].
  rewrite aset_Some by exact Hi. apply HQ, length_insert.
Qed.

(** Raising the flag of a server whose message carries the slot's digest. *)
Lemma votes_add Ev fl fl' c t d j :
  votes Ev fl c t d -> 1 <= j <= NUM_SERVERS -> aget fl j <> Some 1 ->
  aset fl j 1 = Some fl' -> Ev j t d -> votes Ev fl' (wrap32 (c + 1)) t d.
Proof.
  intros (L & C & H) Hj Hn Hs HE. destruct (flagged_set fl fl' j Hj Hn Hs) as [E Hsz].
  pose proof (flagged_size fl). split; [rewrite (aset_length _ _ _ _ Hs); exact L|]. split.
  - rewrite Hsz, <- C, wrap32_small; [reflexivity|].
    change NUM_SERVERS with 6 in *. unfold two32. lia.
  - rewrite E. intros i Hi. apply elem_of_union in Hi as [Hi|Hi]; [auto|].
    apply elem_of_singleton in Hi as ->. exact HE.
Qed.

Lemma votes_backed Ev fl c t d q : votes Ev fl c t d -> q <= c -> backed Ev q t d.
Proof.
  intros (_ & C & H) Hq. exists (flagged fl). split; [|split; [lia|exact H]].
  intros j Hj. apply elem_of_flagged in Hj as [Hj _]. apply elem_of_server_ids. exact Hj.
Qed.

Lemma tag_eta t : t = mkTag (t_machine_id t) (t_view t) (t_seq_num t).
Proof. destruct t. reflexivity. Qed.


Lemma Process_Init_inv r mess :
  local_inv r -> in_range_mess mess -> rm_type mess = RB_INIT ->
  wp no_fault (RB_Process_Init VAR mess) (handler_post r) r.
Proof.
  intros HL [_ Ho] _. unfold RB_Process_Init.
  set (payload := rm_payload mess) in *. set (tag := p_tag payload) in *.
  assert (Ho' : 0 <= t_machine_id tag < NUM_SERVER_SLOTS) by (unfold NUM_SERVER_SLOTS; lia).
  apply wp_bind, wp_get. destruct (Z.eqb_spec (t_view tag) (View r)) as [Hv|]; cbn [negb];
    [|apply wp_ret, post_skip; exact HL].
  assert (Ht : p_tag payload = mkTag (t_machine_id tag) (View r) (t_seq_num tag))
    by (rewrite <- Hv; apply tag_eta).
  apply wp_bind, wp_Get_Slot; [exact HL|exact Ho'|]. intros s0 HO0.
  set (s1 := match rb_init s0 with None => _ | Some _ => _ end).
  assert (HO1 : open_inv r (t_machine_id tag) (t_seq_num tag) s1).
  { subst s1. destruct (rb_init s0); [exact HO0|].
    eapply open_change; [exact HO0| |auto]. destruct (open_slot_ok _ _ _ _ HO0). split; auto. }
  destruct (match_payload s1 payload) as [s2 same] eqn:E2.
  destruct (open_match _ _ _ _ _ _ _ HO1 Ht E2) as (HO2 & (p & Hp) & _ & _ & Hd).
  destruct same; cbn [negb]; [|apply wp_save; auto using extends_refl].
  destruct (s_state s2) eqn:Est; try (apply wp_save; auto using extends_refl).
  apply wp_bind. eapply wp_send_echo; eauto. intros r' HO' He.
  apply wp_save; auto.
Qed.

Lemma Process_Echo_inv r mess :
  local_inv r -> in_range_mess mess -> rm_type mess = RB_ECHO -> evidence mess ->
  wp no_fault (RB_Process_Echo VAR mess) (handler_post r) r.
Proof.
  intros HL [Hf Ho] Hty [HE _]. specialize (HE Hty). unfold RB_Process_Echo.
  set (payload := rm_payload mess) in *. set (tag := p_tag payload) in *.
  set (from := rm_machine_id mess) in *.
  assert (Ho' : 0 <= t_machine_id tag < NUM_SERVER_SLOTS) by (unfold NUM_SERVER_SLOTS; lia).
  assert (Hf' : 0 <= from < NUM_SERVER_SLOTS) by (unfold NUM_SERVER_SLOTS; lia).
  apply wp_bind, wp_get. destruct (Z.eqb_spec (t_view tag) (View r)) as [Hv|]; cbn [negb];
    [|apply wp_ret, post_skip; exact HL].
  assert (Ht : p_tag payload = mkTag (t_machine_id tag) (View r) (t_seq_num tag))
    by (rewrite <- Hv; apply tag_eta).
  apply wp_bind, wp_Get_Slot; [exact HL|exact Ho'|]. intros s0 HO0.
  pose proof (open_slot_ok _ _ _ _ HO0) as Hs0. destruct (sl_arrays _ _ _ _ Hs0) as [Ha1 Ha2].
  apply wp_bind, wp_set_if_null; [lia|]. intros es Hes.
  set (s1 := with_echo es _ _ s0).
  assert (HO1 : open_inv r (t_machine_id tag) (t_seq_num tag) s1).
  { eapply open_change; [exact HO0| |auto]. destruct Hs0. split; auto. cbn. lia. }
  destruct (match_payload s1 payload) as [s2 same] eqn:E2.
  destruct (open_match _ _ _ _ _ _ _ HO1 Ht E2) as (HO2 & (p & Hp) & Hfl & _ & Hd).
  destruct same; cbn [negb]; [|apply wp_save; auto using extends_refl]. specialize (Hd eq_refl).
  pose proof (open_slot_ok _ _ _ _ HO2) as Hs2. pose proof (sl_echo _ _ _ _ Hs2) as Hvo.
  pose proof Hvo as (Hlen & _ & _).
  destruct (aget_is_Some (echo_received s2) from ltac:(lia)) as [b Eb]. rewrite Eb.
  apply wp_bind, wp_ret. destruct (Z.eqb_spec b 1) as [->|Hb];
    [apply wp_save; auto using extends_refl|].
  destruct (aset (echo_received s2) from 1) as [fl|] eqn:Ef;
    [|rewrite aset_Some in Ef by lia; discriminate].
  apply wp_bind, wp_ret. set (s3 := with_echo _ fl _ s2).
  assert (Hvo' : votes EvE fl (wrap32 (echo_count s2 + 1))
                   (mkTag (t_machine_id tag) (View r) (t_seq_num tag)) (rb_digest s2)).
  { eapply (votes_add _ _ _ _ _ _ from); [exact Hvo|exact Hf| |exact Ef|].
    - rewrite Eb. congruence.
    - rewrite Hd, <- Ht. exact HE. }
  assert (HO3 : open_inv r (t_machine_id tag) (t_seq_num tag) s3).
  { eapply open_change; [exact HO2| |auto]. destruct Hs2. split; auto. cbn. congruence. }
  change (echo_count s3) with (wrap32 (echo_count s2 + 1)).
  destruct (Z.eqb_spec (wrap32 (echo_count s2 + 1)) (quorum VAR)) as [Hq|]; cbn [negb];
    [|apply wp_save; auto using extends_refl].
  apply wp_bind. eapply (wp_advance r _ _ s3 p); eauto.
  - left. eapply votes_backed; [exact Hvo'|]. lia.
  - intros s' r' HO' He. apply wp_save; auto.
Qed.

Lemma good_processed view L out pr p :
  good view L out pr -> backed EvR (quorum VAR) (p_tag p) (digest_of p) ->
  good view L out (pr ++ [p]).
Proof.
  intros [] H. split; try assumption. intros p'. rewrite elem_of_app, list_elem_of_singleton.
  intros [Hp| ->]; auto.
Qed.

Lemma Process_Ready_inv r mess :
  local_inv r -> in_range_mess mess -> rm_type mess = RB_READY -> evidence mess ->
  wp no_fault (RB_Process_Ready VAR mess) (handler_post r) r.
Proof.
  intros HL [Hf Ho] Hty [_ HE]. specialize (HE Hty). unfold RB_Process_Ready.
  set (payload := rm_payload mess) in *. set (tag := p_tag payload) in *.
  set (from := rm_machine_id mess) in *.
  assert (Ho' : 0 <= t_machine_id tag < NUM_SERVER_SLOTS) by (unfold NUM_SERVER_SLOTS; lia).
  assert (Hf' : 0 <= from < NUM_SERVER_SLOTS) by (unfold NUM_SERVER_SLOTS; lia).
  apply wp_bind, wp_get. destruct (Z.eqb_spec (t_view tag) (View r)) as [Hv|]; cbn [negb];
    [|apply wp_ret, post_skip; exact HL].
  assert (Ht : p_tag payload = mkTag (t_machine_id tag) (View r) (t_seq_num tag))
    by (rewrite <- Hv; apply tag_eta).
  apply wp_bind, wp_Get_Slot; [exact HL|exact Ho'|]. intros s0 HO0.
  pose proof (open_slot_ok _ _ _ _ HO0) as Hs0. destruct (sl_arrays _ _ _ _ Hs0) as [Ha1 Ha2].
  apply wp_bind, wp_set_if_null; [lia|]. intros es Hes.
  set (s1 := with_ready es _ _ s0).
  assert (HO1 : open_inv r (t_machine_id tag) (t_seq_num tag) s1).
  { eapply open_change; [exact HO0| |auto]. destruct Hs0. split; auto. cbn. lia. }
  destruct (match_payload s1 payload) as [s2 same] eqn:E2.
  destruct (open_match _ _ _ _ _ _ _ HO1 Ht E2) as (HO2 & (p & Hp) & _ & Hfl & Hd).
  destruct same; cbn [negb]; [|apply wp_save; auto using extends_refl]. specialize (Hd eq_refl).
  pose proof (open_slot_ok _ _ _ _ HO2) as Hs2. pose proof (sl_ready _ _ _ _ Hs2) as Hvo.
  pose proof Hvo as (Hlen & _ & _).
  destruct (aget_is_Some (ready_received s2) from ltac:(lia)) as [b Eb]. rewrite Eb.
  apply wp_bind, wp_ret. destruct (Z.eqb_spec b 1) as [->|Hb];
    [apply wp_save; auto using extends_refl|].
  destruct (aset (ready_received s2) from 1) as [fl|] eqn:Ef;
    [|rewrite aset_Some in Ef by lia; discriminate].
  apply wp_bind, wp_ret. set (s3 := with_ready _ fl _ s2).
  assert (Hvo' : votes EvR fl (wrap32 (ready_count s2 + 1))
                   (mkTag (t_machine_id tag) (View r) (t_seq_num tag)) (rb_digest s2)).
  { eapply (votes_add _ _ _ _ _ _ from); [exact Hvo|exact Hf| |exact Ef|].
    - rewrite Eb. congruence.
    - rewrite Hd, <- Ht. exact HE. }
  assert (HO3 : open_inv r (t_machine_id tag) (t_seq_num tag) s3).
  { eapply open_change; [exact HO2| |auto]. destruct Hs2. split; auto. cbn. congruence. }
  change (ready_count s3) with (wrap32 (ready_count s2 + 1)).
  destruct (Z.ltb_spec (wrap32 (ready_count s2 + 1)) (weak_quorum VAR)) as [|Hw];
    [apply wp_save; auto using extends_refl|].
  destruct (Z.eqb_spec (wrap32 (ready_count s2 + 1)) (weak_quorum VAR)) as [Hwq|Hwq].
  - apply wp_bind. eapply (wp_advance r _ _ s3 p); eauto.
    + right. eapply votes_backed; [exact Hvo'|]. lia.
    + intros s' r' HO' He. apply wp_save; auto.
  - destruct (Z.eqb_spec (wrap32 (ready_count s2 + 1)) (quorum VAR)) as [Hq|]; cbn [negb];
      [|apply wp_save; auto using extends_refl].
    apply wp_bind. eapply wp_put_slot; eauto. intros r' [Hz G] He Hpr.
    unfold PROCESS_Payload, wp, bind. change (rb_msg s3) with (rb_msg s2). rewrite Hp. cbn.
    destruct (sl_msg _ _ _ _ Hs2 p Hp) as [Htag Hdig].
    split; [split; [exact Hz|]|exact He].
    apply good_processed; [exact G|]. rewrite Htag, <- Hdig.
    eapply votes_backed; [exact Hvo'|]. lia.
Qed.

Lemma RB_Process_inv r mess :
  local_inv r -> in_range_mess mess -> evidence mess ->
  wp no_fault (RB_Process VAR mess) (handler_post r) r.
Proof.
  intros HL Hr He. unfold RB_Process.
  destruct (rm_type mess) eqn:E;
    first [ apply Process_Init_inv; assumption | apply Process_Echo_inv; assumption
          | apply Process_Ready_inv; assumption | apply wp_ret, post_skip; exact HL ].
Qed.
End Local.

(** ** More evidence keeps the invariant *)
Section Mono.
Context {crypto : Crypto} (VAR : server_variables).
Context (EvE EvR EvE' EvR' : Z -> reliable_broadcast_tag -> digest -> Prop).
Context (again : Z -> Prop).
Context (HE : forall j t d, EvE j t d -> EvE' j t d) (HR : forall j t d, EvR j t d -> EvR' j t d).

Lemma backed_mono (Ev Ev' : Z -> reliable_broadcast_tag -> digest -> Prop) q t d :
  (forall j t d, Ev j t d -> Ev' j t d) -> backed Ev q t d -> backed Ev' q t d.
Proof. intros H (Q & H1 & H2 & H3). exists Q. auto. Qed.

Lemma slot_ok_mono view o q s : slot_ok EvE EvR view o q s -> slot_ok EvE' EvR' view o q s.
Proof.
  intros [H1 H2 H3 H4 (L1 & C1 & E1) (L2 & C2 & E2)]. split; auto; split; auto.
Qed.

Lemma local_inv_mono r : local_inv VAR EvE EvR again r -> local_inv VAR EvE' EvR' again r.
Proof.
  intros [Hs [H1 H2 H3 H4 H5 H6]]. split; [exact Hs|]. split; auto.
  - intros o q s E. apply slot_ok_mono. auto.
  - intros m Hm Ht. destruct (H5 m Hm Ht) as [HJ|HJ]; [left|right];
      eapply backed_mono; eauto.
  - intros p Hp. eapply backed_mono; eauto.
Qed.
End Mono.

(** ** The system *)
Section System.
Context {crypto : Crypto} (ok : CryptoOk crypto).
Context (f k : Z) (Hf : 0 <= f) (Hk : 0 <= k) (Hn : NUM_SERVERS = 3 * f + 2 * k + 1).
Context (faulty : gset Z) (Hfaulty : Z.of_nat (size faulty) <= f).
(** For every view, the correct replicas that catchup lets enter it again. *)
Context (again : Z -> gset Z).

Definition vars (i : Z) : server_variables := {| My_Server_ID := i; VF := f; VK := k |}.
Definition system := Z -> replica.
Definition correct (i : Z) : Prop := 1 <= i <= NUM_SERVERS /\ i ∉ faulty.

Definition initial (view inc : Z) : replica :=
  {| RB := RB_Initialize_Data_Structure; View := view; new_incarnation_val := inc;
     sent := []; processed := [] |}.

(** Signatures tie a message to its sender: what a correct server has not sent
    does not arrive in its name.  [RB_INIT]s are let through from anywhere. *)
Definition receivable (σ : system) (m : rb_mess) : Prop :=
  in_range_mess m /\
  (rm_type m = RB_INIT \/ rm_machine_id m ∈ faulty \/ m ∈ sent (σ (rm_machine_id m))).

Definition set_node (σ : system) (i : Z) (r : replica) : system :=
  fun j => if Z.eq_dec j i then r else σ j.

Definition change_view (v inc : Z) (r : replica) : replica :=
  {| RB := RB_Initialize_Upon_View_Change (RB r); View := v; new_incarnation_val := inc;
     sent := sent r; processed := processed r |}.

(** Beside the messages of the broadcast, a replica enters views.  View changes
    and [CATCH_Jump] enter higher ones; [CATCH_Process_ORD_Certificate] also
    enters the current one again, while its view change is not done, and all
    of them run [RB_Initialize_Upon_View_Change]. *)
Inductive step (σ : system) : system -> Prop :=
| step_deliver i m r' :
    correct i -> receivable σ m -> RB_Process (vars i) m (σ i) = Ret (tt, r') ->
    step σ (set_node σ i r')
| step_view i v inc :
    correct i -> View (σ i) < v -> step σ (set_node σ i (change_view v inc (σ i)))
| step_again i inc :
    correct i -> i ∈ again (View (σ i)) ->
    step σ (set_node σ i (change_view (View (σ i)) inc (σ i))).

Inductive reachable : system -> Prop :=
| reach_init view inc : reachable (fun i => initial (view i) (inc i))
| reach_step σ σ' : reachable σ -> step σ σ' -> reachable σ'.

Definition has_sent (t : packet_type) (σ : system) (j : Z) (tag : reliable_broadcast_tag)
    (d : digest) : Prop :=
  j ∈ faulty \/ exists m, m ∈ sent (σ j) /\ rm_type m = t /\
    p_tag (rm_payload m) = tag /\ digest_of (rm_payload m) = d.

Notation echoed := (has_sent RB_ECHO).
Notation readied := (has_sent RB_READY).

Definition reenters (i v : Z) : Prop := i ∈ again v.

Record system_inv (σ : system) : Prop := {
  si_local : forall i, correct i -> local_inv (vars i) (echoed σ) (readied σ) (reenters i) (σ i);
  si_ready : forall i m, correct i -> m ∈ sent (σ i) -> rm_type m = RB_READY ->
    backed (echoed σ) (2 * f + k + 1) (p_tag (rm_payload m)) (digest_of (rm_payload m)) }.

Lemma has_sent_grow t σ i r' j tag d :
  (exists l, sent r' = sent (σ i) ++ l) -> has_sent t σ j tag d ->
  has_sent t (set_node σ i r') j tag d.
Proof.
  intros [l El] [Hj|(m & Hm & H)]; [left; exact Hj|right]. exists m. split; [|exact H].
  unfold set_node. destruct (Z.eq_dec j i) as [->|]; [|exact Hm].
  rewrite El, elem_of_app. auto.
Qed.

Lemma correct_member Q : Q ⊆ server_ids NUM_SERVERS -> f + 1 <= Z.of_nat (size Q) ->
  exists i, i ∈ Q /\ correct i.
Proof.
  intros HQ Hs. destruct (outside_faulty f Q faulty Hfaulty Hs) as (i & Hi & Hnf).
  exists i. split; [exact Hi|]. split; [|exact Hnf]. apply elem_of_server_ids. auto.
Qed.

(** A justified ready rests on a quorum of echoes. *)
Lemma justified_echoed σ i tag d :
  system_inv σ -> justified (vars i) (echoed σ) (readied σ) tag d ->
  backed (echoed σ) (2 * f + k + 1) tag d.
Proof.
  intros [_ HR] [HJ|(Q & HQ & Hs & HJ)]; [exact HJ|].
  destruct (correct_member Q HQ Hs) as (j & Hj & Hc).
  destruct (HJ j Hj) as [Hbad|(m & Hm & Ht & <- & <-)]; [destruct Hc; contradiction|eauto].
Qed.

Lemma system_inv_set σ i r' :
  system_inv σ -> correct i ->
  local_inv (vars i) (echoed σ) (readied σ) (reenters i) r' -> (exists l, sent r' = sent (σ i) ++ l) ->
  system_inv (set_node σ i r').
Proof.
  intros Hinv Hc HL Hext.
  assert (HE : forall j t d, echoed σ j t d -> echoed (set_node σ i r') j t d)
    by (intros; apply has_sent_grow; assumption).
  assert (HR : forall j t d, readied σ j t d -> readied (set_node σ i r') j t d)
    by (intros; apply has_sent_grow; assumption).
  split.
  - intros j Hj. eapply local_inv_mono; [exact HE|exact HR|].
    unfold set_node. destruct (Z.eq_dec j i) as [->|]; [exact HL|apply Hinv; exact Hj].
  - intros j m Hj Hm Ht. eapply backed_mono; [exact HE|].
    unfold set_node in Hm. destruct (Z.eq_dec j i) as [->|].
    + eapply justified_echoed; [exact Hinv|]. exact (g_ready _ _ _ _ _ _ _ _ (proj2 HL) m Hm Ht).
    + eapply (si_ready _ Hinv); eauto.
Qed.

Lemma empty_slots_at r o q s : instances (RB r) = empty_instances -> slot_at r o q = Some s -> False.
Proof.
  unfold slot_at. intros ->. destruct (aget empty_instances o) as [h|] eqn:E; [|discriminate].
  assert (h = ∅) as ->; [|rewrite lookup_empty; discriminate].
  unfold aget in E. destruct (in_bounds _ _); [|discriminate].
  apply list_elem_of_lookup_2, list_elem_of_In, repeat_spec in E. exact E.
Qed.

Lemma initial_inv i view inc EvE EvR P : local_inv (vars i) EvE EvR P (initial view inc).
Proof.
  split; [reflexivity|].
  split; cbn; try (intros ? Hm; apply elem_of_nil in Hm; contradiction);
    try (intros ? ? Hm; apply elem_of_nil in Hm; contradiction).
  intros o q s E. exfalso. eapply empty_slots_at; [|exact E]. reflexivity.
Qed.

Lemma change_view_inv i v inc EvE EvR (P : Z -> Prop) r :
  View r < v \/ View r = v /\ P v ->
  local_inv (vars i) EvE EvR P r -> local_inv (vars i) EvE EvR P (change_view v inc r).
Proof.
  intros Hv [Hs [H1 H2 H3 H4 H5 H6]]. split; [reflexivity|].
  split; cbn [change_view View sent processed]; auto.
  - intros o q s E. exfalso. eapply empty_slots_at; [|exact E]. reflexivity.
  - intros m Hm. destruct (H2 m Hm). split; [assumption|lia].
  - intros Ha m Hm _ E. destruct (H2 m Hm). destruct Hv as [Hv|[_ Hv]]; [lia|contradiction].
Qed.

Lemma receivable_evidence σ m :
  receivable σ m -> evidence (echoed σ) (readied σ) m.
Proof. intros [_ [H|[H|H]]]; split; intros Ht; try congruence; [left|left|right|right]; eauto. Qed.

Lemma step_inv σ σ' : system_inv σ -> step σ σ' -> system_inv σ'.
Proof.
  intros Hinv [i m r' Hc Hr E|i v inc Hc Hv|i inc Hc Hv].
  - pose proof (RB_Process_inv ok (vars i) (echoed σ) (readied σ) (reenters i) (σ i) m
                  (si_local _ Hinv i Hc) (proj1 Hr) (receivable_evidence σ m Hr)) as H.
    unfold wp in H. rewrite E in H. destruct H as [HL [_ Hext]].
    apply system_inv_set; assumption.
  - apply system_inv_set; auto.
    + apply change_view_inv; [left; exact Hv|]. apply Hinv. exact Hc.
    + exists []. cbn. rewrite app_nil_r. reflexivity.
  - apply system_inv_set; auto.
    + apply change_view_inv; [right; auto|]. apply Hinv. exact Hc.
    + exists []. cbn. rewrite app_nil_r. reflexivity.
Qed.

Lemma reachable_inv σ : reachable σ -> system_inv σ.
Proof.
  induction 1 as [view inc|σ σ' _ IH Hs]; [|eapply step_inv; eauto].
  split; [intros i _; apply initial_inv|].
  intros i m _ Hm. cbn in Hm. apply elem_of_nil in Hm. contradiction.
Qed.

(** A delivered payload rests on a quorum of echoes. *)
Lemma delivered_echoed σ i p :
  system_inv σ -> correct i -> p ∈ processed (σ i) ->
  backed (echoed σ) (2 * f + k + 1) (p_tag p) (digest_of p).
Proof.
  intros Hinv Hc Hp.
  destruct (g_done _ _ _ _ _ _ _ _ (proj2 (si_local _ Hinv i Hc)) p Hp) as (Q & HQ & Hs & HJ).
  destruct (correct_member Q HQ) as (j & Hj & Hcj).
  { unfold quorum, vars in Hs. cbn in Hs. lia. }
  destruct (HJ j Hj) as [Hbad|(m & Hm & Ht & <- & <-)]; [destruct Hcj; contradiction|].
  eapply (si_ready _ Hinv); eauto.
Qed.

(** Two quorums of echoes for an instance share a replica that is correct and
    never entered the view of the instance again: it echoed one digest. *)
Lemma echoes_agree σ tag d d' :
  Z.of_nat (size (faulty ∪ again (t_view tag))) <= f ->
  system_inv σ -> backed (echoed σ) (2 * f + k + 1) tag d ->
  backed (echoed σ) (2 * f + k + 1) tag d' -> d = d'.
Proof.
  intros Hag Hinv (X & HX & Hsx & EX) (Y & HY & Hsy & EY). rewrite Hn in HX, HY.
  destruct (quorums_share_correct f k Hf Hk X Y _ HX HY Hag Hsx Hsy)
    as (j & HjX & HjY & Hj). apply not_elem_of_union in Hj as [Hj Hja].
  destruct (EX j HjX) as [?|(m & Hm & Ht & Htag & <-)]; [contradiction|].
  destruct (EY j HjY) as [?|(m' & Hm' & Ht' & Htag' & <-)]; [contradiction|].
  assert (Hc : correct j).
  { split; [|exact Hj]. apply elem_of_server_ids. rewrite Hn. auto. }
  apply (g_once _ _ _ _ _ _ _ _ (proj2 (si_local _ Hinv j Hc)) m m'); congruence.
Qed.

(** The handlers are total on what correct replicas receive. *)
Lemma receive_total σ i m :
  reachable σ -> correct i -> receivable σ m ->
  exists r', RB_Process (vars i) m (σ i) = Ret (tt, r').
Proof.
  intros Hr Hc Hm.
  pose proof (RB_Process_inv ok (vars i) (echoed σ) (readied σ) (reenters i) (σ i) m
                (si_local _ (reachable_inv σ Hr) i Hc) (proj1 Hm) (receivable_evidence σ m Hm)) as H.
  unfold wp in H. destruct (RB_Process (vars i) m (σ i)) as [[[] r']|e]; [eauto|].
  destruct H.
Qed.
End System.
