(* ===== verification/ReliableBroadcastProps.v ===== *)
(** Properties of the reliable broadcast: agreement of the system, absence of
    faults, delivery from a quorum of readies, and what the handlers do with a
    tag that [validate.c] does not check. *)
From Stdlib Require Import ZArith Lia List Bool.
From Stdlib Require Import Strings.Byte.
From stdpp Require Import base list gmap fin_sets.
From S2P Require Import Prelude Memory Config Packets Crypto ReliableBroadcast ReliableBroadcastCorrect Validate ValidateProps.

(** ** Handlers run on a list of messages *)
Section Runs.
Context {crypto : Crypto} (VAR : server_variables).

Fixpoint deliver_all (ms : list rb_mess) : comp replica unit :=
  match ms with
  | [] => ret tt
  | m :: ms => RB_Process VAR m ;;; deliver_all ms
  end.
End Runs.

(** ** Delivery *)
Section Delivery.
Context {crypto : Crypto} (ok : CryptoOk crypto) (VAR : server_variables) (p : rb_payload).

Notation org := (t_machine_id (p_tag p)).
Notation sq := (t_seq_num (p_tag p)).

(** The slot of the instance, as the handlers find it. *)
Definition slot_of (r : replica) : rb_slot :=
  match slot_at r org sq with Some s => s | None => new_slot sq end.

(** [n] readies for [p] are counted, from the servers of [seen]. *)
Record counting (r : replica) (seen : list Z) : Prop := {
  c_view : t_view (p_tag p) = View r;
  c_sized : sized r;
  c_msg : rb_msg (slot_of r) = None \/
          rb_msg (slot_of r) = Some p /\ rb_digest (slot_of r) = digest_of p;
  c_lens : Z.of_nat (length (rb_ready (slot_of r))) = NUM_SERVER_SLOTS /\
           Z.of_nat (length (ready_received (slot_of r))) = NUM_SERVER_SLOTS;
  c_count : ready_count (slot_of r) = Z.of_nat (length seen);
  c_flags : forall j, 1 <= j <= NUM_SERVERS -> j ∉ seen ->
            aget (ready_received (slot_of r)) j = Some 0;
  c_done : quorum VAR <= Z.of_nat (length seen) -> p ∈ processed r }.

Definition ready_for (m : rb_mess) : Prop :=
  rm_type m = RB_READY /\ rm_payload m = p /\ 1 <= rm_machine_id m <= NUM_SERVERS.

Lemma wp_Get_Slot_of (r : replica) Q :
  sized r -> 1 <= org <= NUM_SERVERS -> Q (slot_of r) r ->
  wp no_fault (UTIL_Get_RB_Slot org sq) Q r.
Proof.
  intros Hs Ho HQ. unfold UTIL_Get_RB_Slot, wp, bind. cbn [get].
  unfold sized in Hs. unfold slot_of, slot_at in HQ.
  destruct (aget_is_Some (instances (RB r)) org) as [h Eh];
    [rewrite Hs; unfold NUM_SERVER_SLOTS; lia|].
  rewrite Eh in *. cbn. exact HQ.
Qed.

Definition put_back (r r' : replica) (s : rb_slot) : Prop :=
  sized r' /\ View r' = View r /\ processed r' = processed r /\ slot_of r' = s.

Lemma wp_put_back (r : replica) s Q :
  sized r -> 1 <= org <= NUM_SERVERS -> (forall r', put_back r r' s -> Q tt r') ->
  wp no_fault (put_slot org sq s) Q r.
Proof.
  intros Hs Ho HQ. unfold put_slot, wp, bind. cbn [get].
  assert (Hb : 0 <= org < Z.of_nat (length (instances (RB r))))
    by (rewrite Hs; unfold NUM_SERVER_SLOTS; lia).
  destruct (aget_is_Some _ org Hb) as [h Eh].
  destruct (aset (instances (RB r)) org (<[sq:=s]> h)) as [ins|] eqn:Ea;
    [|rewrite aset_Some in Ea by exact Hb; discriminate].
  rewrite Eh. cbn [or_oob ret]. rewrite Ea. cbn. apply HQ. repeat split.
  - unfold sized. cbn. rewrite (aset_length _ _ _ _ Ea). exact Hs.
  - unfold slot_of, slot_at. cbn. rewrite (aget_aset_eq _ _ _ _ Ea), lookup_insert_eq.
    reflexivity.
Qed.

(** What sending changes. *)
Definition same_slots (r r' : replica) : Prop :=
  RB r' = RB r /\ View r' = View r /\ processed r' = processed r.

Lemma wp_send_any (r : replica) t s Q :
  rb_msg s <> None -> (forall r', same_slots r r' -> Q tt r') ->
  wp no_fault (send VAR t s) Q r.
Proof.
  intros Hs HQ. destruct (rb_msg s) as [x|] eqn:E; [|congruence].
  eapply wp_send; [exact E|]. apply HQ. repeat split.
Qed.

Lemma wp_advance_any (r : replica) s Q :
  rb_msg s <> None ->
  (forall st r', same_slots r r' -> Q (with_state st s) r') ->
  wp no_fault (advance VAR s) Q r.
Proof.
  intros Hs HQ. unfold advance.
  assert (Hid : s = with_state (s_state s) s) by (destruct s; reflexivity).
  assert (Hrefl : same_slots r r) by (repeat split).
  destruct (s_state s) eqn:E; try (apply wp_ret; rewrite Hid; apply HQ; exact Hrefl).
  - apply wp_bind, wp_send_any; [exact Hs|]. intros r1 (A1 & A2 & A3).
    apply wp_bind, wp_send_any; [exact Hs|]. intros r2 (B1 & B2 & B3).
    apply wp_ret. apply (HQ SENT_READY r2). repeat split; congruence.
  - apply wp_bind, wp_send_any; [exact Hs|]. intros r1 H1.
    apply wp_ret. apply (HQ SENT_READY r1). exact H1.
Qed.
Lemma match_payload_same s :
  rb_msg s = None \/ rb_msg s = Some p /\ rb_digest s = digest_of p ->
  exists s', match_payload s p = (s', true) /\ rb_msg s' = Some p /\
    rb_digest s' = digest_of p /\ ready_received s' = ready_received s /\
    rb_ready s' = rb_ready s /\ ready_count s' = ready_count s.
Proof.
  intros [E|[E Hd]]; unfold match_payload; rewrite E.
  - eexists. split; [reflexivity|]. cbn. auto.
  - exists s. rewrite Hd. change (make_digest (p_bytes p)) with (digest_of p).
    assert (OPENSSL_RSA_Digests_Equal (digest_of p) (digest_of p) = true) as ->
      by (apply Digests_Equal_spec; [apply make_digest_length; exact ok|
                                     apply make_digest_length; exact ok|reflexivity]).
    repeat split; auto.
Qed.

Context (Hthresholds : weak_quorum VAR < quorum VAR) (Hpos : 1 <= org <= NUM_SERVERS).

Lemma wp_save_counted r r1 s fl seen j :
  counting r seen -> 1 <= j <= NUM_SERVERS -> j ∉ seen ->
  rb_msg s = Some p -> rb_digest s = digest_of p ->
  Z.of_nat (length (rb_ready s)) = NUM_SERVER_SLOTS ->
  aset (ready_received (slot_of r)) j 1 = Some fl -> ready_received s = fl ->
  ready_count s = Z.of_nat (length (j :: seen)) ->
  same_slots r r1 -> Z.of_nat (length (j :: seen)) <> quorum VAR ->
  wp no_fault (put_slot org sq s) (fun _ r' => counting r' (j :: seen)) r1.
Proof.
  intros HC Hj Hn Hm Hd Hl Ha Hfl Hc (S1 & S2 & S3) Hq.
  destruct HC as [C1 C2 C3 [C4 C4'] C5 C6 C7].
  apply wp_put_back; [unfold sized; rewrite S1; exact C2|exact Hpos|].
  intros r' (P1 & P2 & P3 & P4). split; rewrite ?P4; auto.
  - congruence.
  - split; [exact Hl|]. rewrite Hfl, (aset_length _ _ _ _ Ha). exact C4'.
  - intros i Hi Hni. apply not_elem_of_cons in Hni as [Hij Hni]. rewrite Hfl.
    rewrite (aget_aset_ne _ _ _ _ _ Ha) by congruence. auto.
  - intros Hge. rewrite P3, S3. apply C7. cbn [length] in *. lia.
Qed.

(** One more ready. *)
Lemma ready_step r m seen :
  counting r seen -> ready_for m -> rm_machine_id m ∉ seen ->
  Z.of_nat (length seen) < NUM_SERVERS ->
  wp no_fault (RB_Process VAR m) (fun _ r' => counting r' (rm_machine_id m :: seen)) r.
Proof.
  intros HC (Ht & Hp & Hj) Hn Hlen. unfold RB_Process. rewrite Ht.
  unfold RB_Process_Ready. rewrite Hp. pose proof HC as [C1 C2 C3 [C4 C4'] C5 C6 C7].
  assert (Hjs : 0 <= rm_machine_id m < NUM_SERVER_SLOTS) by (unfold NUM_SERVER_SLOTS; lia).
  apply wp_bind, wp_get. rewrite C1, Z.eqb_refl. cbn [negb].
  apply wp_bind, wp_Get_Slot_of; [exact C2|exact Hpos|].
  apply wp_bind, wp_set_if_null; [lia|]. intros es Hes.
  set (s1 := with_ready es _ _ (slot_of r)).
  destruct (match_payload_same s1 C3) as (s2 & -> & Em & Ed & Efl & Ere & Ec).
  cbn [negb]. rewrite Efl. change (ready_received s1) with (ready_received (slot_of r)).
  rewrite (C6 _ Hj Hn). apply wp_bind, wp_ret. cbn [Z.eqb].
  destruct (aset (ready_received (slot_of r)) (rm_machine_id m) 1) as [fl|] eqn:Ea;
    [|rewrite aset_Some in Ea by lia; discriminate].
  apply wp_bind, wp_ret. rewrite Ec. change (ready_count s1) with (ready_count (slot_of r)).
  set (s3 := with_ready _ fl _ s2).
  assert (Hc3 : ready_count s3 = Z.of_nat (length (rm_machine_id m :: seen))).
  { unfold s3. cbn [ready_count with_ready length]. rewrite C5, wrap32_small; [lia|].
    change NUM_SERVERS with 6 in *. unfold two32. lia. }
  assert (Hl3 : Z.of_nat (length (rb_ready s3)) = NUM_SERVER_SLOTS).
  { unfold s3. cbn [rb_ready with_ready]. rewrite Ere. unfold s1. cbn. lia. }
  rewrite Hc3. assert (Hself : same_slots r r) by (repeat split).
  destruct (Z.ltb_spec (Z.of_nat (length (rm_machine_id m :: seen))) (weak_quorum VAR)).
  { eapply wp_save_counted; eauto; lia. }
  destruct (Z.eqb_spec (Z.of_nat (length (rm_machine_id m :: seen))) (weak_quorum VAR)).
  { apply wp_bind, wp_advance_any; [cbn; congruence|]. intros st r1 H1.
    eapply wp_save_counted; eauto; lia. }
  destruct (Z.eqb_spec (Z.of_nat (length (rm_machine_id m :: seen))) (quorum VAR)); cbn [negb].
  2:{ eapply wp_save_counted; eauto. }
  apply wp_bind, wp_put_back; [exact C2|exact Hpos|]. intros r' (P1 & P2 & P3 & P4).
  unfold PROCESS_Payload, wp, bind. change (rb_msg s3) with (rb_msg s2). rewrite Em. cbn.
  split; unfold slot_of, slot_at in *; cbn in *; rewrite ?P4; auto.
  - congruence.
  - split; [exact Hl3|]. cbn. rewrite (aset_length _ _ _ _ Ea). exact C4'.
  - intros i Hi Hni. apply not_elem_of_cons in Hni as [Hij Hni]. cbn.
    rewrite (aget_aset_ne _ _ _ _ _ Ea) by congruence. auto.
  - intros _. apply elem_of_app. right. apply list_elem_of_singleton. reflexivity.
Qed.

Lemma ready_steps ms : forall r seen,
  counting r seen -> (forall m, m ∈ ms -> ready_for m) ->
  NoDup (map rm_machine_id ms ++ seen) ->
  Z.of_nat (length ms + length seen) <= NUM_SERVERS ->
  wp no_fault (deliver_all VAR ms)
    (fun _ r' => counting r' (rev (map rm_machine_id ms) ++ seen)) r.
Proof.
  induction ms as [|m ms IH]; intros r seen HC Hms Hnd Hlen.
  - apply wp_ret. exact HC.
  - cbn [deliver_all]. apply wp_bind. cbn in Hnd. inversion Hnd as [|? ? Hm Hnd']; subst.
    eapply wp_conseq.
    + apply (ready_step r m seen HC); [apply Hms; left| |cbn in Hlen; lia].
      intros Hin. apply Hm, elem_of_app. right. exact Hin.
    + cbn. intros [] r' HC'. cbn [map rev]. rewrite <- app_assoc. apply (IH r' _ HC').
      * intros m' Hm'. apply Hms. right. exact Hm'.
      * apply NoDup_app in Hnd' as (N1 & N2 & N3). apply NoDup_app. split; [exact N1|].
        split; [|constructor; [|exact N3]].
        -- intros x Hx Hx'. apply elem_of_cons in Hx' as [->|Hx'].
           ++ apply Hm, elem_of_app. left. exact Hx.
           ++ exact (N2 x Hx Hx').
        -- intros Hin. apply Hm, elem_of_app. right. exact Hin.
      * cbn in *. lia.
Qed.
End Delivery.

(** ** Sample runs *)
(** A run of the system: messages anyone may send, messages named by where
    they are in the list of what their sender sent, and catchup making a
    replica enter its view again. *)
Inductive event :=
| Ev_Any (i : Z) (m : rb_mess)
| Ev_Deliver (i from : Z) (n : nat)
| Ev_Again (i inc : Z).

Section Sample.
Context {crypto : Crypto} (f k : Z) (faulty : gset Z) (again : Z -> gset Z).

Definition receive (i : Z) (m : rb_mess) (σ : system) : option system :=
  match RB_Process (vars f k i) m (σ i) with
  | Ret (_, r') => Some (set_node σ i r')
  | Fault _ => None
  end.

Definition in_range_messb (m : rb_mess) : bool :=
  (1 <=? rm_machine_id m) && (rm_machine_id m <=? NUM_SERVERS)
  && (1 <=? t_machine_id (p_tag (rm_payload m)))
  && (t_machine_id (p_tag (rm_payload m)) <=? NUM_SERVERS).

Definition is_correct (i : Z) : bool := (1 <=? i) && (i <=? NUM_SERVERS) && bool_decide (i ∉ faulty).

Definition run_event (e : event) (σ : system) : option system :=
  match e with
  | Ev_Any i m =>
      if is_correct i && in_range_messb m
         && bool_decide (rm_type m = RB_INIT \/ rm_machine_id m ∈ faulty)
      then receive i m σ else None
  | Ev_Deliver i from n =>
      match sent (σ from) !! n with
      | Some m =>
          if is_correct i && in_range_messb m && (rm_machine_id m =? from)
          then receive i m σ else None
      | None => None
      end
  | Ev_Again i inc =>
      if is_correct i && bool_decide (i ∈ again (View (σ i)))
      then Some (set_node σ i (change_view (View (σ i)) inc (σ i))) else None
  end.

Fixpoint run_events (es : list event) (σ : system) : option system :=
  match es with
  | [] => Some σ
  | e :: es => match run_event e σ with Some σ' => run_events es σ' | None => None end
  end.

Lemma is_correct_spec i : is_correct i = true -> correct faulty i.
Proof.
  unfold is_correct, correct. intros H. apply andb_true_iff in H as [H1 H2].
  apply bool_decide_eq_true in H2. rewrite andb_true_iff, !Z.leb_le in H1.
  split; [exact H1|exact H2].
Qed.

Lemma in_range_messb_spec m : in_range_messb m = true -> in_range_mess m.
Proof. unfold in_range_messb, in_range_mess. rewrite !andb_true_iff, !Z.leb_le. lia. Qed.

Lemma receive_reachable i m σ σ' :
  reachable f k faulty again σ -> correct faulty i -> receivable faulty σ m ->
  receive i m σ = Some σ' -> reachable f k faulty again σ'.
Proof.
  intros Hr Hc Hm E. unfold receive in E.
  destruct (RB_Process (vars f k i) m (σ i)) as [[[] r']|] eqn:Er; [|discriminate].
  injection E as <-. eapply reach_step; [exact Hr|]. eapply step_deliver; eauto.
Qed.

Lemma run_event_reachable e σ σ' :
  reachable f k faulty again σ -> run_event e σ = Some σ' -> reachable f k faulty again σ'.
Proof.
  intros Hr E. destruct e as [i m|i from n|i inc]; cbn in E.
  - destruct (is_correct i) eqn:E1; [|discriminate].
    destruct (in_range_messb m) eqn:E2; [|discriminate].
    destruct (bool_decide _) eqn:E3; [|discriminate]. apply bool_decide_eq_true in E3.
    apply (receive_reachable i m σ σ' Hr (is_correct_spec i E1)); [|exact E].
    split; [apply in_range_messb_spec; exact E2|tauto].
  - destruct (sent (σ from) !! n) as [m|] eqn:E0; [|discriminate].
    destruct (is_correct i) eqn:E1; [|discriminate].
    destruct (in_range_messb m) eqn:E2; [|discriminate].
    destruct (Z.eqb_spec (rm_machine_id m) from) as [<-|]; [|discriminate].
    apply (receive_reachable i m σ σ' Hr (is_correct_spec i E1)); [|exact E].
    split; [apply in_range_messb_spec; exact E2|]. right. right.
    eapply list_elem_of_lookup_2. exact E0.
  - destruct (is_correct i) eqn:E1; [|discriminate].
    destruct (bool_decide _) eqn:E2; [|discriminate]. apply bool_decide_eq_true in E2.
    injection E as <-. eapply reach_step; [exact Hr|].
    apply step_again; [apply is_correct_spec; exact E1|exact E2].
Qed.

Lemma run_reachable es : forall σ σ',
  reachable f k faulty again σ -> run_events es σ = Some σ' -> reachable f k faulty again σ'.
Proof.
  induction es as [|e es IH]; cbn; intros σ σ' Hr E; [injection E as <-; exact Hr|].
  destruct (run_event e σ) as [σ1|] eqn:E1; [|discriminate].
  eapply IH; [|exact E]. eapply run_event_reachable; eauto.
Qed.
End Sample.

Definition toy_payload : rb_payload :=
  {| p_type := REPORT; p_tag := mkTag 2 1 1; p_bytes := zeros 40 |}.

Definition toy_mess (t : packet_type) (from : Z) : rb_mess :=
  {| rm_type := t; rm_machine_id := from; rm_incarnation := 5; rm_monotonic_counter := 0;
     rm_payload := toy_payload |}.

(** Server 2 broadcasts, and no server is faulty; five of them echo and get
    ready, 5 after catchup made it enter the view again, and echo again. *)
Definition toy_run : list event :=
  map (fun i => Ev_Any i (toy_mess RB_INIT 2)) [1; 2; 3; 4; 5]
  ++ [Ev_Again 5 5; Ev_Any 5 (toy_mess RB_INIT 2)]
  ++ concat (map (fun i => map (fun j => Ev_Deliver i j 0) [1; 2; 3; 4]) [1; 2; 3; 4; 5])
  ++ concat (map (fun i => map (fun j => Ev_Deliver i j 1) [1; 2; 3; 4]) [1; 2; 3; 4; 5]).

Definition toy_again : Z -> gset Z := fun _ => {[5]}.

Definition toy_start : system := fun i => initial 1 5.

Definition run_or_stay {crypto : Crypto} (faulty : gset Z) (es : list event) : system :=
  match run_events 1 1 faulty toy_again es toy_start with
  | Some σ => σ
  | None => toy_start
  end.

Lemma run_or_stay_reachable {crypto : Crypto} (faulty : gset Z) (es : list event) :
  reachable 1 1 faulty toy_again (run_or_stay faulty es).
Proof.
  unfold run_or_stay. destruct (run_events _ _ _ _ _) as [σ|] eqn:E.
  - eapply run_reachable; [|exact E].
    apply (reach_init 1 1 faulty toy_again (fun _ => 1) (fun _ => 5)).
  - apply (reach_init 1 1 faulty toy_again (fun _ => 1) (fun _ => 5)).
Qed.

Definition toy_end : system := run_or_stay (crypto := toy) ∅ toy_run.

Lemma toy_end_reachable : reachable (crypto := toy) 1 1 ∅ toy_again toy_end.
Proof. apply run_or_stay_reachable. Qed.

Example toy_end_delivers :
  map (fun i => processed (toy_end i)) [1; 2; 3; 4; 5] = repeat [toy_payload] 5.
Proof. vm_compute. reflexivity. Qed.

(** ** Properties *)
Lemma nodup_servers (l : list Z) :
  NoDup l -> (forall j, j ∈ l -> 1 <= j <= NUM_SERVERS) -> Z.of_nat (length l) <= NUM_SERVERS.
Proof.
  intros Hn Hl. rewrite <- (size_list_to_set (C := gset Z)) by exact Hn.
  rewrite <- (size_server_ids NUM_SERVERS ltac:(easy)).
  apply Nat2Z.inj_le, subseteq_size. intros j Hj. apply elem_of_list_to_set in Hj.
  apply elem_of_server_ids. auto.
Qed.

(** C1. Agreement: with n = 3f+2k+1 replicas, however messages are delivered,
    repeated, reordered or lost and however the replicas enter views, two
    correct replicas never deliver payloads with different digests for one
    instance (initiator, view, sequence number), as long as the faulty
    replicas, which send anything under their own names, and the correct ones
    that catchup made enter the view of the instance a second time
    (CATCH_Process_ORD_Certificate empties RB then, and they may echo again)
    are at most f together.  Restarts of a replica and system
    resets are outside. *)
Theorem rb_agreement {crypto : Crypto} (ok : CryptoOk crypto) (f k : Z) (faulty : gset Z)
    (again : Z -> gset Z) (σ : system) (i j : Z) (p p' : rb_payload) :
  0 <= f -> 0 <= k -> NUM_SERVERS = 3 * f + 2 * k + 1 ->
  Z.of_nat (size (faulty ∪ again (t_view (p_tag p)))) <= f ->
  reachable f k faulty again σ -> correct faulty i -> correct faulty j ->
  p ∈ processed (σ i) -> p' ∈ processed (σ j) -> p_tag p = p_tag p' ->
  make_digest (p_bytes p) = make_digest (p_bytes p').
Proof.
  intros Hf Hk Hn Hs Hr Hi Hj Hp Hp' Ht.
  assert (Hb : Z.of_nat (size faulty) <= f).
  { assert (size faulty <= size (faulty ∪ again (t_view (p_tag p))))%nat
      by (apply subseteq_size; set_solver). lia. }
  pose proof (reachable_inv ok f k faulty Hb again σ Hr) as Hinv.
  eapply (echoes_agree f k Hf Hk Hn faulty again σ (p_tag p)); [exact Hs|exact Hinv| |].
  - exact (delivered_echoed f k Hf Hk faulty Hb again σ i p Hinv Hi Hp).
  - rewrite Ht. exact (delivered_echoed f k Hf Hk faulty Hb again σ j p' Hinv Hj Hp').
Qed.

Lemma rb_agreement_witness : make_digest (Crypto := toy) (p_bytes toy_payload)
                             = make_digest (Crypto := toy) (p_bytes toy_payload).
Proof.
  apply (@rb_agreement toy toy_ok 1 1 ∅ toy_again toy_end 1 5 toy_payload toy_payload);
    [lia|lia|reflexivity|vm_compute; congruence|..|reflexivity].
  - exact toy_end_reachable.
  - apply is_correct_spec. vm_compute. reflexivity.
  - apply is_correct_spec. vm_compute. reflexivity.
  - assert (E : processed (toy_end 1) = [toy_payload]) by (vm_compute; reflexivity).
    rewrite E. left.
  - assert (E : processed (toy_end 5) = [toy_payload]) by (vm_compute; reflexivity).
    rewrite E. left.
Defined.

(** Server 6 is faulty and starts an instance with two payloads; 5 gets ready
    for the first, enters the view again, and gets ready for the second. *)
Definition two_faced (t : packet_type) (from size : Z) : rb_mess :=
  {| rm_type := t; rm_machine_id := from; rm_incarnation := 5; rm_monotonic_counter := 0;
     rm_payload := {| p_type := REPORT; p_tag := mkTag 6 1 1; p_bytes := zeros size |} |}.

(** [mine] run the instance for the payload of [size] bytes with the help of 6; [n] is how many
    messages 5 has sent before. *)
Definition side (size : Z) (mine : list Z) (n : nat) : list event :=
  map (fun i => Ev_Any i (two_faced RB_INIT 6 size)) (mine ++ [5])
  ++ concat (map (fun i => Ev_Any i (two_faced RB_ECHO 6 size) :: Ev_Deliver i 5 n ::
                           map (fun j => Ev_Deliver i j 0) mine) (mine ++ [5]))
  ++ concat (map (fun i => Ev_Any i (two_faced RB_READY 6 size) :: Ev_Deliver i 5 (S n) ::
                           map (fun j => Ev_Deliver i j 1) mine) mine).

Definition split_end : system :=
  run_or_stay (crypto := toy) {[6]}
    (side 40 [1; 2] 0 ++ [Ev_Again 5 5] ++ side 41 [3; 4] 2).

(** The bound on those that enter a view again is needed: with f = k = 1 and
    one faulty server, one correct server that catchup.c:241 makes start its
    instances over lets 1 and 3 deliver different payloads for one instance. *)
Lemma reentry_breaks_agreement :
  reachable (crypto := toy) 1 1 {[6]} toy_again split_end /\
  processed (split_end 1) = [rm_payload (two_faced RB_INIT 6 40)] /\
  processed (split_end 3) = [rm_payload (two_faced RB_INIT 6 41)] /\
  make_digest (Crypto := toy) (zeros 40) <> make_digest (Crypto := toy) (zeros 41).
Proof.
  split; [apply run_or_stay_reachable|].
  split; [vm_compute; reflexivity|]. split; [vm_compute; reflexivity|].
  vm_compute. discriminate.
Qed.

(** In every reachable state of that system a correct replica handles every
    message that can arrive there (sent by a server, for an instance of a
    server) without leaving its arrays, and returns. *)
Theorem rb_handlers_total {crypto : Crypto} (ok : CryptoOk crypto) (f k : Z) (faulty : gset Z)
    (again : Z -> gset Z) (σ : system) (i : Z) (m : rb_mess) :
  0 <= f -> 0 <= k -> NUM_SERVERS = 3 * f + 2 * k + 1 -> Z.of_nat (size faulty) <= f ->
  reachable f k faulty again σ -> correct faulty i -> receivable faulty σ m ->
  exists r', RB_Process (vars f k i) m (σ i) = Ret (tt, r').
Proof.
  intros Hf Hk Hn Hs Hr Hi Hm. exact (receive_total ok f k faulty Hs again σ i m Hr Hi Hm).
Qed.

Lemma rb_handlers_total_witness :
  exists r', RB_Process (crypto := toy) (vars 1 1 1) (toy_mess RB_READY 5) (toy_end 1) = Ret (tt, r').
Proof.
  apply (@rb_handlers_total toy toy_ok 1 1 ∅ toy_again);
    [lia|lia|reflexivity|vm_compute; congruence|..].
  - exact toy_end_reachable.
  - apply is_correct_spec. vm_compute. reflexivity.
  - split; [apply in_range_messb_spec; reflexivity|]. right. right.
    assert (E : sent (toy_end 5) = [toy_mess RB_ECHO 5; toy_mess RB_ECHO 5; toy_mess RB_READY 5])
      by (vm_compute; reflexivity).
    change (rm_machine_id (toy_mess RB_READY 5)) with 5. rewrite E. right. right. left.
Defined.

(** Delivery: a replica that has no slot yet for an instance of its view
    delivers the payload once it has processed readies for it from 2f+k+1
    different servers, in whatever order (f+k > 0, so that the threshold of
    f+1 readies comes first). *)
Theorem rb_ready_quorum_delivers {crypto : Crypto} (ok : CryptoOk crypto)
    (VAR : server_variables) (r : replica) (p : rb_payload) (ms : list rb_mess) :
  0 <= VF VAR -> 0 <= VK VAR -> 0 < VF VAR + VK VAR ->
  1 <= t_machine_id (p_tag p) <= NUM_SERVERS -> t_view (p_tag p) = View r ->
  Z.of_nat (length (instances (RB r))) = NUM_SERVER_SLOTS ->
  slot_at r (t_machine_id (p_tag p)) (t_seq_num (p_tag p)) = None ->
  (forall m, m ∈ ms -> rm_type m = RB_READY /\ rm_payload m = p /\
                       1 <= rm_machine_id m <= NUM_SERVERS) ->
  NoDup (map rm_machine_id ms) -> quorum VAR <= Z.of_nat (length ms) ->
  exists r', deliver_all VAR ms r = Ret (tt, r') /\ p ∈ processed r'.
Proof.
  intros HF HK Hpos Ho Hv Hs Hn Hms Hnd Hq.
  assert (HC : counting VAR p r []).
  { split; unfold slot_of; rewrite ?Hn; cbn; auto; [|unfold quorum; lia].
    intros j Hj _. destruct (aget_is_Some (per_server 0) j) as [b E].
    { vm_compute (Z.of_nat _). change NUM_SERVERS with 6 in Hj. lia. }
    rewrite E. f_equal. unfold aget in E. destruct (in_bounds _ _); [|discriminate].
    apply list_elem_of_lookup_2, list_elem_of_In, repeat_spec in E. exact E. }
  assert (Hlen : Z.of_nat (length ms) <= NUM_SERVERS).
  { rewrite <- (length_map rm_machine_id). apply nodup_servers; [exact Hnd|].
    intros j Hj. apply list_elem_of_fmap in Hj as (m & -> & Hm). apply Hms. exact Hm. }
  assert (H : wp no_fault (deliver_all VAR ms)
                (fun _ r' => counting VAR p r' (rev (map rm_machine_id ms) ++ [])) r).
  { apply (ready_steps ok VAR p); auto; [unfold weak_quorum, quorum; lia| |cbn; lia].
    rewrite app_nil_r. exact Hnd. }
  unfold wp in H. destruct (deliver_all VAR ms r) as [[[] r']|]; [|destruct H].
  exists r'. split; [reflexivity|]. apply (c_done _ _ _ _ H).
  rewrite length_app, length_rev, length_map. cbn. lia.
Qed.

Lemma rb_ready_quorum_delivers_witness :
  exists r', deliver_all (crypto := toy) (Init_VAR 1) (map (toy_mess RB_READY) [6; 3; 2; 5])
               (initial 1 5) = Ret (tt, r') /\ toy_payload ∈ processed r'.
Proof.
  apply (@rb_ready_quorum_delivers toy toy_ok (Init_VAR 1) (initial 1 5) toy_payload);
    try (vm_compute; congruence).
  - vm_compute. split; discriminate.
  - intros m Hm. cbn in Hm. repeat (apply elem_of_cons in Hm as [->|Hm];
      [split; [reflexivity|split; [reflexivity|vm_compute; split; discriminate]]|]).
    apply elem_of_nil in Hm. contradiction.
  - apply (bool_decide_unpack _). vm_compute. exact I.
Defined.

(** ** A tag outside the servers *)
(** A [RESET_NEWVIEW] for an instance of "server" [machine], inside a ready. *)
Definition s_rb_newview (machine : Z) : list byte :=
  let inner := sample RESET_NEWVIEW 3 5 1 (words [machine; 1; 0; 0]) in
  sample RB_READY 3 5 1 inner.

(** validate.c does not look at the server of a RESET_NEWVIEW's tag: during a
    reset the message below is accepted whatever server the tag names (1000
    here), and every handler, given such a tag of the current view, indexes
    DATA.RB.instances outside its NUM_SERVER_SLOTS elements. *)
Theorem rb_tag_unchecked {crypto : Crypto} (VAR : server_variables) (r : replica) (m : rb_mess) :
  Z.of_nat (length (instances (RB r))) = NUM_SERVER_SLOTS ->
  rm_type m = RB_INIT \/ rm_type m = RB_ECHO \/ rm_type m = RB_READY ->
  t_view (p_tag (rm_payload m)) = View r ->
  NUM_SERVER_SLOTS <= t_machine_id (p_tag (rm_payload m)) ->
  verdict PR_RESET (s_rb_newview 1000) = Ret (true, 0) /\
  RB_Process VAR m r = Fault OutOfBounds.
Proof.
  intros Hs Ht Hv Ho. split; [vm_compute; reflexivity|].
  assert (E : aget (instances (RB r)) (t_machine_id (p_tag (rm_payload m))) = None)
    by (apply aget_None; lia).
  unfold RB_Process, RB_Process_Init, RB_Process_Echo, RB_Process_Ready, UTIL_Get_RB_Slot.
  destruct Ht as [-> | [-> | ->]]; unfold bind; cbn [get];
    rewrite Hv, Z.eqb_refl; cbn [negb]; rewrite E; reflexivity.
Qed.

Lemma rb_tag_unchecked_witness :
  verdict PR_RESET (s_rb_newview 1000) = Ret (true, 0) /\
  RB_Process (crypto := toy) (Init_VAR 1)
    {| rm_type := RB_READY; rm_machine_id := 3; rm_incarnation := 5; rm_monotonic_counter := 1;
       rm_payload := {| p_type := RESET_NEWVIEW; p_tag := mkTag 1000 1 0; p_bytes := zeros 16 |} |}
    (initial 1 5) = Fault OutOfBounds.
Proof.
  apply (@rb_tag_unchecked toy (Init_VAR 1) (initial 1 5)); try reflexivity.
  - right. right. reflexivity.
  - vm_compute. discriminate.
Defined.
