(* ===== verification/CatchupState.v ===== *)
(** The data of catchup: [catchup_struct] of [prime/src/data_structs.h], what of
    [proactive_recovery_struct] its handlers change, and its messages
    ([packets.h]).  The certificates are in [OrderState] and [PreOrderState]. *)
From Stdlib Require Import ZArith Lia List Bool.
From Stdlib Require Import Strings.Byte.
From stdpp Require Import base list.
From S2P Require Import Prelude Memory Config Packets Crypto Utility OrderState PreOrderState.

(** ** Constants *)
Definition FLAG_CATCHUP : Z := 1.
Definition FLAG_JUMP : Z := 2.
Definition FLAG_PERIODIC : Z := 3.
Definition FLAG_RECOVERY : Z := 4.

(** In microseconds. *)
Definition CATCHUP_REQUEST_PERIODICALLY : Z := 10 * 1000000.
Definition CATCHUP_PERIOD : Z := 2 * 1000000.
Definition CATCHUP_MOVEON : Z := 100000.
Definition CATCHUP_EPSILON : Z := 20000.

(** ** Messages *)
(** A signed [catchup_request_message]. *)
Record catchup_request := mkCatchupRequest {
  cr_machine_id : Z; cr_incarnation : Z; cr_flag : Z; cr_nonce : Z; cr_aru : Z;
  cr_po_aru : list po_seq_pair; cr_proposal_digest : digest }.

(** A signed [jump_message]; the ORD certificate is there when [jm_seq_num] is not
    0, the reset certificate is kept as its bytes. *)
Record jump := mkJump {
  jm_machine_id : Z; jm_incarnation : Z; jm_seq_num : Z; jm_acked_nonce : Z;
  jm_proposal_digest : digest; jm_installed_incarn : list Z;
  jm_ord_certificate : option ord_certificate_mess; jm_reset_certificate : list byte }.

(** What is sent: through the queue of messages to sign, or, when it is signed
    already, at once; [Batch_Made] is [SIG_Make_Batch], which empties the queue. *)
Inductive catch_out :=
| Request_Pending (dest_bits : Z) (m : catchup_request)
| Jump_Pending (dest_bits : Z) (m : jump)
| Ord_Cert_Pending (dest_bits : Z) (m : ord_certificate_mess)
| Ord_Cert_Sent (server : Z) (m : ord_certificate_mess)
| Po_Cert_Pending (dest_bits : Z) (m : po_certificate_mess)
| Po_Cert_Sent (server : Z) (m : po_certificate_mess)
| Batch_Made.

(** ** The state *)
(** Times are in microseconds; [nonces] counts the calls of [rand]. *)
Record catch_data := mkCatch {
  catchup_in_progress : bool; force_jump : bool; starting_catchup_id : Z; next_catchup_id : Z;
  periodic_catchup_id : Z; last_ord_cert : list (option ord_certificate_mess);
  last_catchup_request : list (option catchup_request); sent_catchup_request : list (option catchup_request);
  next_catchup_time : list Z; jump_mismatch : list (option jump); jump_mismatch_count : Z;
  complete_recovery_state : bool; nonces : nat; catch_sent : list catch_out }.

Definition put_round (progress force : bool) (first next : Z) (c : catch_data) : catch_data :=
  mkCatch progress force first next (periodic_catchup_id c) (last_ord_cert c) (last_catchup_request c)
    (sent_catchup_request c) (next_catchup_time c) (jump_mismatch c) (jump_mismatch_count c)
    (complete_recovery_state c) (nonces c) (catch_sent c).

Definition put_periodic_id (x : Z) (c : catch_data) : catch_data :=
  mkCatch (catchup_in_progress c) (force_jump c) (starting_catchup_id c) (next_catchup_id c) x
    (last_ord_cert c) (last_catchup_request c) (sent_catchup_request c) (next_catchup_time c)
    (jump_mismatch c) (jump_mismatch_count c) (complete_recovery_state c) (nonces c) (catch_sent c).

Definition put_last_ord_cert (x : list (option ord_certificate_mess)) (c : catch_data) : catch_data :=
  mkCatch (catchup_in_progress c) (force_jump c) (starting_catchup_id c) (next_catchup_id c)
    (periodic_catchup_id c) x (last_catchup_request c) (sent_catchup_request c) (next_catchup_time c)
    (jump_mismatch c) (jump_mismatch_count c) (complete_recovery_state c) (nonces c) (catch_sent c).

Definition put_requests (received sent : list (option catchup_request)) (c : catch_data) : catch_data :=
  mkCatch (catchup_in_progress c) (force_jump c) (starting_catchup_id c) (next_catchup_id c)
    (periodic_catchup_id c) (last_ord_cert c) received sent (next_catchup_time c)
    (jump_mismatch c) (jump_mismatch_count c) (complete_recovery_state c) (nonces c) (catch_sent c).

Definition put_next_catchup_time (x : list Z) (c : catch_data) : catch_data :=
  mkCatch (catchup_in_progress c) (force_jump c) (starting_catchup_id c) (next_catchup_id c)
    (periodic_catchup_id c) (last_ord_cert c) (last_catchup_request c) (sent_catchup_request c) x
    (jump_mismatch c) (jump_mismatch_count c) (complete_recovery_state c) (nonces c) (catch_sent c).

Definition put_jump_mismatch (x : list (option jump)) (n : Z) (c : catch_data) : catch_data :=
  mkCatch (catchup_in_progress c) (force_jump c) (starting_catchup_id c) (next_catchup_id c)
    (periodic_catchup_id c) (last_ord_cert c) (last_catchup_request c) (sent_catchup_request c)
    (next_catchup_time c) x n (complete_recovery_state c) (nonces c) (catch_sent c).

Definition put_nonces (x : nat) (c : catch_data) : catch_data :=
  mkCatch (catchup_in_progress c) (force_jump c) (starting_catchup_id c) (next_catchup_id c)
    (periodic_catchup_id c) (last_ord_cert c) (last_catchup_request c) (sent_catchup_request c)
    (next_catchup_time c) (jump_mismatch c) (jump_mismatch_count c) (complete_recovery_state c) x (catch_sent c).

Definition put_catch_sent (x : list catch_out) (c : catch_data) : catch_data :=
  mkCatch (catchup_in_progress c) (force_jump c) (starting_catchup_id c) (next_catchup_id c)
    (periodic_catchup_id c) (last_ord_cert c) (last_catchup_request c) (sent_catchup_request c)
    (next_catchup_time c) (jump_mismatch c) (jump_mismatch_count c) (complete_recovery_state c) (nonces c) x.

Definition zero_catch : catch_data :=
  mkCatch false false 0 0 0 (OrderState.per_server None) (OrderState.per_server None)
    (OrderState.per_server None) (OrderState.per_server 0) (OrderState.per_server None) 0 false 0 [].
