(* ===== verification/ViewState.v ===== *)
(** The data of suspecting the leader and of view changes: [suspect_leader_data_struct]
    and [view_change_struct] of [prime/src/data_structs.h], their messages
    ([packets.h]), and what starts a view over ([suspect_leader.c],
    [view_change.c]).

    They are the part [rest] of the state of ordering and pre-ordering.  Doubles
    are the IEEE 754 numbers of the Standard Library's [SpecFloat]; the clock is a
    function of how often it was read, in microseconds. *)
From Stdlib Require Import ZArith Lia List Bool Floats.SpecFloat.
From Stdlib Require Import Strings.Byte.
From stdpp Require Import base list gmap.
From S2P Require Import Prelude Memory Config Packets Crypto Utility ReliableBroadcast OrderState PreOrderState CatchupState Order PreOrder Updates.

(** ** Doubles *)
Definition double : Type := spec_float.

Definition double_of_Z (n : Z) : double := binary_normalize 53 1024 n 0 false.
Definition dadd : double -> double -> double := SFadd 53 1024.
Definition dmul : double -> double -> double := SFmul 53 1024.
Definition ddiv : double -> double -> double := SFdiv 53 1024.

(** [a < b]; false when one is not a number. *)
Definition dlt : double -> double -> bool := SFltb.

Definition dle : double -> double -> bool := SFleb.

(** The same number: zeros are equal, what is not a number is not. *)
Definition deq : double -> double -> bool := SFeqb.

Definition doublecmp (v1 v2 : double) : Z :=
  if dlt v1 v2 then -1 else if dlt v2 v1 then 1 else 0.

(** [qsort] with [doublecmp], keeping the order of equals. *)
Fixpoint insert_double (x : double) (l : list double) : list double :=
  match l with
  | [] => [x]
  | y :: l' => if 0 <? doublecmp x y then y :: insert_double x l' else x :: l
  end.

Definition qsort (l : list double) : list double := foldr insert_double [] l.

(** ** Constants *)
Definition MAX_TAT_TIME : double := Eval vm_compute in double_of_Z 10000000.
Definition VARIABILITY_KLAT : double := Eval vm_compute in ddiv (double_of_Z 5) (double_of_Z 2).
Definition MIN_RTT : double := Eval vm_compute in ddiv (double_of_Z 8) (double_of_Z 1000).
Definition dzero : double := double_of_Z 0.

(** [sec + usec / 1000000.0] *)
Definition seconds (sec usec : Z) : double :=
  dadd (double_of_Z sec) (ddiv (double_of_Z usec) (double_of_Z 1000000)).

Definition PRE_PREPARE_SEC : Z := 0.
Definition PRE_PREPARE_USEC : Z := 5000.
Definition SUSPECT_SEND_TATM_SEC : Z := 0.
Definition SUSPECT_SEND_TATM_USEC : Z := 500000.
Definition SUSPECT_TAT_MEASURE_USEC : Z := 20000.
Definition SUSPECT_PING_USEC : Z := 500000.
Definition SUSPECT_TAT_UB_USEC : Z := 500000.
Definition SUSPECT_VC_USEC : Z := 500000.
Definition SUSPECT_NEW_LEADER_SEC : Z := 1.
Definition RETRANS_PERIOD_SEC : Z := 2.
Definition PING_HIST : Z := 10.

(** ** Messages *)
(** [vc_proof_message] and [replay_message] are the same structure. *)
Record replay_message := mkReplay {
  re_view : Z; re_list : Z; re_startSeq : Z; re_thresh_sig : list byte }.

(** The contents of the signed messages; a New-Leader-Proof holds the senders and
    the views of its New-Leader messages, a PC-Set its Pre-Prepare and Prepares. *)
Inductive vc_body :=
| Tat_Measure (view : Z) (max_tat : double)
| Rtt_Ping (ping_seq_num view : Z)
| Rtt_Pong (dest ping_seq_num view : Z)
| Rtt_Measure (dest view : Z) (rtt : double)
| Tat_Ub (view : Z) (alpha : double)
| New_Leader (new_view : Z)
| New_Leader_Proof (new_view : Z) (votes : list (Z * Z))
| Report (tag : reliable_broadcast_tag) (execARU pc_set_size : Z)
| Pc_Set (tag : reliable_broadcast_tag) (pp : pre_prepare_mess) (prepares : list vote)
| Vc_List (view l : Z)
| Vc_Partial_Sig (view l startSeq : Z) (partial_sig : list byte)
| Vc_Proof (m : replay_message)
| Replay (m : replay_message)
| Replay_Prepare (view : Z) (d : digest)
| Replay_Commit (view : Z) (d : digest).

Record vc_mess := mkVcMess { vm_machine_id : Z; vm_incarnation : Z; vm_body : vc_body }.

(** What is signed at once, and what is sent: through the queue of messages to sign
    ([dest_bits], 0 for all), at once, signed as the payload of a new reliable
    broadcast, or as one under way. *)
Inductive vc_out :=
| Signed (m : vc_mess)
| Pending (dest_bits : Z) (m : vc_mess)
| Broadcast (m : vc_mess)
| Rb_Init (m : vc_mess)
| Rb_Resend (m : rb_mess).

(** The timed functions. *)
Inductive timer :=
| SUSPECT_TAT_Measure_Timer | SUSPECT_Ping_Timer | SUSPECT_TAT_UB_Timer
| SUSPECT_New_Leader_Timer | SUSPECT_New_Leader_Proof_Timer
| VIEW_Retrans_Timer | RB_Retrans_Timer | ORDER_Timer
| CATCH_Attempt_Timer | CATCH_Request_Timer.

#[global] Instance timer_eq_dec : EqDecision timer.
Proof. solve_decision. Defined.

(** ** The state *)
Record util_stopwatch := mkStopwatch { start : Z; stop : Z }.

Record ping_cell := mkPing { ping_seq : Z; ping_rtt : util_stopwatch }.

(** [turnaround_times] is in the state of ordering, without the stopwatches of its
    elements: these are [tat_stopwatches]. *)
Record suspect_leader_data := mkSusp {
  max_tat : double; tat_max_change : bool; sent_tatm_sw : util_stopwatch; reported_tats : list double;
  tat_leader : double; tat_stopwatches : list util_stopwatch; ping_seq_num : Z;
  ping_history : list ping_cell; tat_if_leader : list double; alpha : double;
  tat_leader_ubs : list double; tat_acceptable : double; new_leader : list (option vc_mess);
  new_leader_proof : option vc_mess }.

Definition measured_tat (x : double) (y : bool) (s : suspect_leader_data) : suspect_leader_data :=
  mkSusp x y (sent_tatm_sw s) (reported_tats s) (tat_leader s) (tat_stopwatches s) (ping_seq_num s)
    (ping_history s) (tat_if_leader s) (alpha s) (tat_leader_ubs s) (tat_acceptable s) (new_leader s)
    (new_leader_proof s).

Definition tat_sent (x : bool) (y : util_stopwatch) (s : suspect_leader_data) : suspect_leader_data :=
  mkSusp (max_tat s) x y (reported_tats s) (tat_leader s) (tat_stopwatches s) (ping_seq_num s)
    (ping_history s) (tat_if_leader s) (alpha s) (tat_leader_ubs s) (tat_acceptable s) (new_leader s)
    (new_leader_proof s).

Definition put_tat_stopwatches (x : list util_stopwatch) (s : suspect_leader_data) : suspect_leader_data :=
  mkSusp (max_tat s) (tat_max_change s) (sent_tatm_sw s) (reported_tats s) (tat_leader s) x
    (ping_seq_num s) (ping_history s) (tat_if_leader s) (alpha s) (tat_leader_ubs s) (tat_acceptable s)
    (new_leader s) (new_leader_proof s).

Definition put_reported_tats (x : list double) (s : suspect_leader_data) : suspect_leader_data :=
  mkSusp (max_tat s) (tat_max_change s) (sent_tatm_sw s) x (tat_leader s) (tat_stopwatches s)
    (ping_seq_num s) (ping_history s) (tat_if_leader s) (alpha s) (tat_leader_ubs s) (tat_acceptable s)
    (new_leader s) (new_leader_proof s).

Definition put_tat_leader (x : double) (s : suspect_leader_data) : suspect_leader_data :=
  mkSusp (max_tat s) (tat_max_change s) (sent_tatm_sw s) (reported_tats s) x (tat_stopwatches s)
    (ping_seq_num s) (ping_history s) (tat_if_leader s) (alpha s) (tat_leader_ubs s) (tat_acceptable s)
    (new_leader s) (new_leader_proof s).

Definition put_ping_seq_num (x : Z) (s : suspect_leader_data) : suspect_leader_data :=
  mkSusp (max_tat s) (tat_max_change s) (sent_tatm_sw s) (reported_tats s) (tat_leader s)
    (tat_stopwatches s) x (ping_history s) (tat_if_leader s) (alpha s) (tat_leader_ubs s)
    (tat_acceptable s) (new_leader s) (new_leader_proof s).

Definition put_ping_history (x : list ping_cell) (s : suspect_leader_data) : suspect_leader_data :=
  mkSusp (max_tat s) (tat_max_change s) (sent_tatm_sw s) (reported_tats s) (tat_leader s)
    (tat_stopwatches s) (ping_seq_num s) x (tat_if_leader s) (alpha s) (tat_leader_ubs s)
    (tat_acceptable s) (new_leader s) (new_leader_proof s).

Definition put_rtt (x : list double) (y : double) (s : suspect_leader_data) : suspect_leader_data :=
  mkSusp (max_tat s) (tat_max_change s) (sent_tatm_sw s) (reported_tats s) (tat_leader s)
    (tat_stopwatches s) (ping_seq_num s) (ping_history s) x y (tat_leader_ubs s) (tat_acceptable s)
    (new_leader s) (new_leader_proof s).

Definition put_ubs (x : list double) (y : double) (s : suspect_leader_data) : suspect_leader_data :=
  mkSusp (max_tat s) (tat_max_change s) (sent_tatm_sw s) (reported_tats s) (tat_leader s)
    (tat_stopwatches s) (ping_seq_num s) (ping_history s) (tat_if_leader s) (alpha s) x y (new_leader s)
    (new_leader_proof s).

Definition put_new_leader (x : list (option vc_mess)) (s : suspect_leader_data) : suspect_leader_data :=
  mkSusp (max_tat s) (tat_max_change s) (sent_tatm_sw s) (reported_tats s) (tat_leader s)
    (tat_stopwatches s) (ping_seq_num s) (ping_history s) (tat_if_leader s) (alpha s) (tat_leader_ubs s)
    (tat_acceptable s) x (new_leader_proof s).

Definition put_new_leader_proof (x : option vc_mess) (s : suspect_leader_data) : suspect_leader_data :=
  mkSusp (max_tat s) (tat_max_change s) (sent_tatm_sw s) (reported_tats s) (tat_leader s)
    (tat_stopwatches s) (ping_seq_num s) (ping_history s) (tat_if_leader s) (alpha s) (tat_leader_ubs s)
    (tat_acceptable s) (new_leader s) x.

(** A [stdskl] is a list in the order of its keys. *)
Record view_change_data := mkView {
  max_pc_seq : list Z; report : list (option vc_mess); pc_set : list (list (Z * vc_mess)); numSeq : Z;
  complete_state : Z; my_vc_list : option vc_mess; unique_vc_list : gmap Z vc_mess;
  pending_vc_list : list vc_mess; unique_partial_sig : gmap Z (list (option vc_mess));
  replay : option vc_mess; replay_digest : digest; replay_prepare : list (option vc_mess);
  replay_prepare_count : Z; replay_commit : list (option vc_mess); replay_commit_count : Z;
  sent_replay_prepare : bool; sent_replay_commit : bool; executed_replay : bool;
  vc_tat : util_stopwatch; started_vc_measure : bool; done_vc_measure : bool }.

Definition put_report (x : list (option vc_mess)) (y : list Z) (v : view_change_data) : view_change_data :=
  mkView y x (pc_set v) (numSeq v) (complete_state v) (my_vc_list v) (unique_vc_list v) (pending_vc_list v)
    (unique_partial_sig v) (replay v) (replay_digest v) (replay_prepare v) (replay_prepare_count v)
    (replay_commit v) (replay_commit_count v) (sent_replay_prepare v) (sent_replay_commit v)
    (executed_replay v) (vc_tat v) (started_vc_measure v) (done_vc_measure v).

Definition put_pc_set (x : list (list (Z * vc_mess))) (y : list Z) (v : view_change_data) : view_change_data :=
  mkView y (report v) x (numSeq v) (complete_state v) (my_vc_list v) (unique_vc_list v) (pending_vc_list v)
    (unique_partial_sig v) (replay v) (replay_digest v) (replay_prepare v) (replay_prepare_count v)
    (replay_commit v) (replay_commit_count v) (sent_replay_prepare v) (sent_replay_commit v)
    (executed_replay v) (vc_tat v) (started_vc_measure v) (done_vc_measure v).

Definition add_own_pc (x : list (list (Z * vc_mess))) (y : Z) (v : view_change_data) : view_change_data :=
  mkView (max_pc_seq v) (report v) x y (complete_state v) (my_vc_list v) (unique_vc_list v)
    (pending_vc_list v) (unique_partial_sig v) (replay v) (replay_digest v) (replay_prepare v)
    (replay_prepare_count v) (replay_commit v) (replay_commit_count v) (sent_replay_prepare v)
    (sent_replay_commit v) (executed_replay v) (vc_tat v) (started_vc_measure v) (done_vc_measure v).

Definition clear_own_pcs (x : list (list (Z * vc_mess))) (v : view_change_data) : view_change_data :=
  mkView (max_pc_seq v) (report v) x (numSeq v) (complete_state v) (my_vc_list v) (unique_vc_list v)
    (pending_vc_list v) (unique_partial_sig v) (replay v) (replay_digest v) (replay_prepare v)
    (replay_prepare_count v) (replay_commit v) (replay_commit_count v) (sent_replay_prepare v)
    (sent_replay_commit v) (executed_replay v) (vc_tat v) (started_vc_measure v) (done_vc_measure v).

Definition put_complete_state (x : Z) (v : view_change_data) : view_change_data :=
  mkView (max_pc_seq v) (report v) (pc_set v) (numSeq v) x (my_vc_list v) (unique_vc_list v)
    (pending_vc_list v) (unique_partial_sig v) (replay v) (replay_digest v) (replay_prepare v)
    (replay_prepare_count v) (replay_commit v) (replay_commit_count v) (sent_replay_prepare v)
    (sent_replay_commit v) (executed_replay v) (vc_tat v) (started_vc_measure v) (done_vc_measure v).

Definition put_my_vc_list (x : option vc_mess) (v : view_change_data) : view_change_data :=
  mkView (max_pc_seq v) (report v) (pc_set v) (numSeq v) (complete_state v) x (unique_vc_list v)
    (pending_vc_list v) (unique_partial_sig v) (replay v) (replay_digest v) (replay_prepare v)
    (replay_prepare_count v) (replay_commit v) (replay_commit_count v) (sent_replay_prepare v)
    (sent_replay_commit v) (executed_replay v) (vc_tat v) (started_vc_measure v) (done_vc_measure v).

Definition put_unique_vc_list (x : gmap Z vc_mess) (v : view_change_data) : view_change_data :=
  mkView (max_pc_seq v) (report v) (pc_set v) (numSeq v) (complete_state v) (my_vc_list v) x
    (pending_vc_list v) (unique_partial_sig v) (replay v) (replay_digest v) (replay_prepare v)
    (replay_prepare_count v) (replay_commit v) (replay_commit_count v) (sent_replay_prepare v)
    (sent_replay_commit v) (executed_replay v) (vc_tat v) (started_vc_measure v) (done_vc_measure v).

Definition put_pending_vc_list (x : list vc_mess) (v : view_change_data) : view_change_data :=
  mkView (max_pc_seq v) (report v) (pc_set v) (numSeq v) (complete_state v) (my_vc_list v)
    (unique_vc_list v) x (unique_partial_sig v) (replay v) (replay_digest v) (replay_prepare v)
    (replay_prepare_count v) (replay_commit v) (replay_commit_count v) (sent_replay_prepare v)
    (sent_replay_commit v) (executed_replay v) (vc_tat v) (started_vc_measure v) (done_vc_measure v).

Definition put_unique_partial_sig (x : gmap Z (list (option vc_mess))) (v : view_change_data) : view_change_data :=
  mkView (max_pc_seq v) (report v) (pc_set v) (numSeq v) (complete_state v) (my_vc_list v)
    (unique_vc_list v) (pending_vc_list v) x (replay v) (replay_digest v) (replay_prepare v)
    (replay_prepare_count v) (replay_commit v) (replay_commit_count v) (sent_replay_prepare v)
    (sent_replay_commit v) (executed_replay v) (vc_tat v) (started_vc_measure v) (done_vc_measure v).

Definition put_replay (x : option vc_mess) (y : digest) (v : view_change_data) : view_change_data :=
  mkView (max_pc_seq v) (report v) (pc_set v) (numSeq v) (complete_state v) (my_vc_list v)
    (unique_vc_list v) (pending_vc_list v) (unique_partial_sig v) x y (replay_prepare v)
    (replay_prepare_count v) (replay_commit v) (replay_commit_count v) (sent_replay_prepare v)
    (sent_replay_commit v) (executed_replay v) (vc_tat v) (started_vc_measure v) (done_vc_measure v).

Definition put_replay_prepare (x : list (option vc_mess)) (y : Z) (v : view_change_data) : view_change_data :=
  mkView (max_pc_seq v) (report v) (pc_set v) (numSeq v) (complete_state v) (my_vc_list v)
    (unique_vc_list v) (pending_vc_list v) (unique_partial_sig v) (replay v) (replay_digest v) x y
    (replay_commit v) (replay_commit_count v) (sent_replay_prepare v) (sent_replay_commit v)
    (executed_replay v) (vc_tat v) (started_vc_measure v) (done_vc_measure v).

Definition put_replay_commit (x : list (option vc_mess)) (y : Z) (v : view_change_data) : view_change_data :=
  mkView (max_pc_seq v) (report v) (pc_set v) (numSeq v) (complete_state v) (my_vc_list v)
    (unique_vc_list v) (pending_vc_list v) (unique_partial_sig v) (replay v) (replay_digest v)
    (replay_prepare v) (replay_prepare_count v) x y (sent_replay_prepare v) (sent_replay_commit v)
    (executed_replay v) (vc_tat v) (started_vc_measure v) (done_vc_measure v).

Definition put_sent_replay_prepare (x : bool) (v : view_change_data) : view_change_data :=
  mkView (max_pc_seq v) (report v) (pc_set v) (numSeq v) (complete_state v) (my_vc_list v)
    (unique_vc_list v) (pending_vc_list v) (unique_partial_sig v) (replay v) (replay_digest v)
    (replay_prepare v) (replay_prepare_count v) (replay_commit v) (replay_commit_count v) x
    (sent_replay_commit v) (executed_replay v) (vc_tat v) (started_vc_measure v) (done_vc_measure v).

Definition put_sent_replay_commit (x : bool) (v : view_change_data) : view_change_data :=
  mkView (max_pc_seq v) (report v) (pc_set v) (numSeq v) (complete_state v) (my_vc_list v)
    (unique_vc_list v) (pending_vc_list v) (unique_partial_sig v) (replay v) (replay_digest v)
    (replay_prepare v) (replay_prepare_count v) (replay_commit v) (replay_commit_count v)
    (sent_replay_prepare v) x (executed_replay v) (vc_tat v) (started_vc_measure v) (done_vc_measure v).

Definition put_executed_replay (x : bool) (v : view_change_data) : view_change_data :=
  mkView (max_pc_seq v) (report v) (pc_set v) (numSeq v) (complete_state v) (my_vc_list v)
    (unique_vc_list v) (pending_vc_list v) (unique_partial_sig v) (replay v) (replay_digest v)
    (replay_prepare v) (replay_prepare_count v) (replay_commit v) (replay_commit_count v)
    (sent_replay_prepare v) (sent_replay_commit v) x (vc_tat v) (started_vc_measure v) (done_vc_measure v).

Definition put_vc_measure (x : util_stopwatch) (y : bool) (z : bool) (v : view_change_data) : view_change_data :=
  mkView (max_pc_seq v) (report v) (pc_set v) (numSeq v) (complete_state v) (my_vc_list v)
    (unique_vc_list v) (pending_vc_list v) (unique_partial_sig v) (replay v) (replay_digest v)
    (replay_prepare v) (replay_prepare_count v) (replay_commit v) (replay_commit_count v)
    (sent_replay_prepare v) (sent_replay_commit v) (executed_replay v) x y z.

(** [timers] are those queued, with their time in microseconds. *)
Record vc_data := mkVc {
  SUSP : suspect_leader_data; VIEW : view_change_data; RB : rb_data_struct; vc_catchup_target : Z;
  vc_catchup_source : Z; timers : list (timer * Z); startup_finished : bool; clock_reads : nat;
  vc_sent : list vc_out; CATCH : catch_data }.

Definition put_SUSP (x : suspect_leader_data) (d : vc_data) : vc_data :=
  mkVc x (VIEW d) (RB d) (vc_catchup_target d) (vc_catchup_source d) (timers d) (startup_finished d)
    (clock_reads d) (vc_sent d) (CATCH d).

Definition put_VIEW (x : view_change_data) (d : vc_data) : vc_data :=
  mkVc (SUSP d) x (RB d) (vc_catchup_target d) (vc_catchup_source d) (timers d) (startup_finished d)
    (clock_reads d) (vc_sent d) (CATCH d).

Definition put_RB (x : rb_data_struct) (d : vc_data) : vc_data :=
  mkVc (SUSP d) (VIEW d) x (vc_catchup_target d) (vc_catchup_source d) (timers d) (startup_finished d)
    (clock_reads d) (vc_sent d) (CATCH d).

Definition put_catchup (x : Z) (y : Z) (d : vc_data) : vc_data :=
  mkVc (SUSP d) (VIEW d) (RB d) x y (timers d) (startup_finished d) (clock_reads d) (vc_sent d) (CATCH d).

Definition put_timers (x : list (timer * Z)) (d : vc_data) : vc_data :=
  mkVc (SUSP d) (VIEW d) (RB d) (vc_catchup_target d) (vc_catchup_source d) x (startup_finished d)
    (clock_reads d) (vc_sent d) (CATCH d).

Definition put_clock_reads (x : nat) (d : vc_data) : vc_data :=
  mkVc (SUSP d) (VIEW d) (RB d) (vc_catchup_target d) (vc_catchup_source d) (timers d) (startup_finished d)
    x (vc_sent d) (CATCH d).

Definition put_vc_sent (x : list vc_out) (d : vc_data) : vc_data :=
  mkVc (SUSP d) (VIEW d) (RB d) (vc_catchup_target d) (vc_catchup_source d) (timers d) (startup_finished d)
    (clock_reads d) x (CATCH d).

Definition put_CATCH (x : catch_data) (d : vc_data) : vc_data :=
  mkVc (SUSP d) (VIEW d) (RB d) (vc_catchup_target d) (vc_catchup_source d) (timers d) (startup_finished d)
    (clock_reads d) (vc_sent d) x.

(** ** The rest of the state *)
Abbreviation state := (order_state (E := po_data (R := vc_data))).

Definition set_rest (x : vc_data) (e : po_data (R := vc_data)) : po_data (R := vc_data) :=
  {| PO_History := PO_History e; aru := aru e; cum_aru := cum_aru e; max_acked := max_acked e;
     cum_max_acked := cum_max_acked e; white_line := white_line e;
     last_executed_po_reqs := last_executed_po_reqs e; cum_aru_updated := cum_aru_updated e;
     new_po_aru := new_po_aru e; po_aru_num := po_aru_num e;
     po_ack_start_server := po_ack_start_server e; po_ack_start_seq := po_ack_start_seq e;
     po_seq := po_seq e; po_seq_executed := po_seq_executed e;
     intro_client_seq := intro_client_seq e; PO_Pending := PO_Pending e;
     Recon_History := Recon_History e; events_ordered := events_ordered e;
     recovery_status := recovery_status e; num_startup := num_startup e;
     executed_ord := executed_ord e; po_request_dll := po_request_dll e;
     reading_clients := reading_clients e; rest := x |}.

Definition set_view (v : Z) (done : bool) (r : state) : state :=
  {| View := v; view_change_done := done; ARU := ARU r; ppARU := ppARU r;
     high_prepared := high_prepared r; high_committed := high_committed r;
     forwarding_white_line := forwarding_white_line r; recon_white_line := recon_white_line r;
     stable_catchup := stable_catchup r; next_seq := next_seq r;
     should_send_pp := should_send_pp r; History := History r;
     Pending_Execution := Pending_Execution r; proposal_digest := proposal_digest r;
     new_incarnation_val := new_incarnation_val r;
     preinstalled_incarnations := preinstalled_incarnations r;
     installed_incarnations := installed_incarnations r; cum_acks := cum_acks r;
     max_num_sent_in_proof := max_num_sent_in_proof r; leader_suspected := leader_suspected r;
     turnaround_times := turnaround_times r; actions := actions r; others := others r |}.

Definition set_suspected (b : bool) (challenges : list (list byte)) (r : state) : state :=
  {| View := View r; view_change_done := view_change_done r; ARU := ARU r; ppARU := ppARU r;
     high_prepared := high_prepared r; high_committed := high_committed r;
     forwarding_white_line := forwarding_white_line r; recon_white_line := recon_white_line r;
     stable_catchup := stable_catchup r; next_seq := next_seq r;
     should_send_pp := should_send_pp r; History := History r;
     Pending_Execution := Pending_Execution r; proposal_digest := proposal_digest r;
     new_incarnation_val := new_incarnation_val r;
     preinstalled_incarnations := preinstalled_incarnations r;
     installed_incarnations := installed_incarnations r; cum_acks := cum_acks r;
     max_num_sent_in_proof := max_num_sent_in_proof r; leader_suspected := b;
     turnaround_times := challenges; actions := actions r; others := others r |}.

Section Operations.
Context (clock : nat -> Z) (VAR : server_variables).
Abbreviation M := (comp state).

Definition vc : M vc_data := e <- po ;; ret (rest e).
Definition vc_update (f : vc_data -> vc_data) : M unit := po_update (fun e => set_rest (f (rest e)) e).
Definition susp : M suspect_leader_data := d <- vc ;; ret (SUSP d).
Definition susp_update (f : suspect_leader_data -> suspect_leader_data) : M unit :=
  vc_update (fun d => put_SUSP (f (SUSP d)) d).
Definition view : M view_change_data := d <- vc ;; ret (VIEW d).
Definition view_update (f : view_change_data -> view_change_data) : M unit :=
  vc_update (fun d => put_VIEW (f (VIEW d)) d).

(** ** Time *)
Definition E_get_time : M Z :=
  d <- vc ;; vc_update (put_clock_reads (S (clock_reads d))) ;;; ret (clock (clock_reads d)).

Definition UTIL_Stopwatch_Start (sw : util_stopwatch) : M util_stopwatch :=
  t <- E_get_time ;; ret (mkStopwatch t (stop sw)).

Definition UTIL_Stopwatch_Stop (sw : util_stopwatch) : M util_stopwatch :=
  t <- E_get_time ;; ret (mkStopwatch (start sw) t).

Definition UTIL_Stopwatch_Elapsed (sw : util_stopwatch) : double :=
  let d := stop sw - start sw in seconds (d / 1000000) (d mod 1000000).

Definition E_dequeue (t : timer) : M unit :=
  vc_update (fun d => put_timers (List.filter (fun x => negb (bool_decide (fst x = t))) (timers d)) d).

Definition E_in_queue (t : timer) : M bool :=
  d <- vc ;; ret (existsb (fun x => bool_decide (fst x = t)) (timers d)).

(** A function that is queued already is queued anew. *)
Definition E_queue (t : timer) (usec : Z) : M unit :=
  E_dequeue t ;;; vc_update (fun d => put_timers (timers d ++ [(t, usec)]) d).

(** ** Sending *)
Definition out (o : vc_out) : M unit := vc_update (fun d => put_vc_sent (vc_sent d ++ [o]) d).

Definition UTIL_New_Signed_Message (b : vc_body) : M vc_mess :=
  r <- get ;; ret (mkVcMess (My_Server_ID VAR) (new_incarnation_val r) b).

(** [UTIL_RSA_Sign_Message] *)
Definition sign_at_once (m : vc_mess) : M unit := out (Signed m).

Definition SIG_Add_To_Pending_Messages (m : vc_mess) (dest_bits : Z) : M unit := out (Pending dest_bits m).

Definition UTIL_Broadcast (m : vc_mess) : M unit := out (Broadcast m).

(** ** A new view *)
Definition SUSPECT_Initialize_Upon_View_Change : M unit :=
  s <- susp ;;
  sw <- UTIL_Stopwatch_Start (sent_tatm_sw s) ;;
  rtts <- or_oob (aset (for_each_server MAX_TAT_TIME (tat_if_leader s)) (My_Server_ID VAR) dzero) ;;
  susp_update (fun s => mkSusp dzero false sw (for_each_server dzero (reported_tats s)) dzero []
    1 (map (fun c => mkPing 0 (ping_rtt c)) (ping_history s)) rtts MAX_TAT_TIME
    (for_each_server MAX_TAT_TIME (tat_leader_ubs s)) MAX_TAT_TIME
    (for_each_server None (new_leader s)) (new_leader_proof s)) ;;;
  modify (set_suspected false []).

Definition SUSPECT_Restart_Timed_Functions : M unit :=
  E_queue SUSPECT_TAT_Measure_Timer 10000 ;;;
  E_queue SUSPECT_Ping_Timer 0 ;;;
  E_queue SUSPECT_TAT_UB_Timer 20000.

Definition VIEW_Clear_Data_Structures (v : view_change_data) : view_change_data :=
  mkView (max_pc_seq v) (for_each_server None (report v)) (for_each_server [] (pc_set v)) (numSeq v)
    (complete_state v) None ∅ [] ∅ None (zeros DIGEST_SIZE)
    (for_each_server None (replay_prepare v)) (replay_prepare_count v)
    (for_each_server None (replay_commit v)) (replay_commit_count v)
    (sent_replay_prepare v) (sent_replay_commit v) (executed_replay v)
    (vc_tat v) (started_vc_measure v) (done_vc_measure v).

(** The statistics of a view change are left out. *)
Definition VIEW_Initialize_Upon_View_Change : M unit :=
  view_update (fun v =>
    let v := VIEW_Clear_Data_Structures v in
    mkView (for_each_server 0 (max_pc_seq v)) (report v) (pc_set v) 0 0 (my_vc_list v)
      (unique_vc_list v) (pending_vc_list v) (unique_partial_sig v) (replay v) (replay_digest v)
      (replay_prepare v) 0 (replay_commit v) 0 false false false (vc_tat v) false false) ;;;
  po_update (with_executed_ord 0) ;;;
  modify (fun r => set_view (View r) false r).

(** *** When the program starts, and on a reset *)
Definition SUSPECT_Initialize_Data_Structure : M unit :=
  susp_update (put_new_leader_proof None) ;;; SUSPECT_Initialize_Upon_View_Change.

Definition VIEW_Initialize_Data_Structure : M unit :=
  VIEW_Initialize_Upon_View_Change ;;;
  modify (fun r => set_view (View r) true r) ;;;
  po_update (with_executed_ord 1).

Definition SUSPECT_Upon_Reset : M unit :=
  susp_update (fun s => put_new_leader_proof None (put_new_leader (for_each_server None (new_leader s)) (put_tat_stopwatches [] s))) ;;;
  modify (set_turnaround_times []).

Definition VIEW_Upon_Reset : M unit := view_update VIEW_Clear_Data_Structures.
End Operations.

(** DATA as the loader zeroes it. *)
Definition no_stopwatch : util_stopwatch := mkStopwatch 0 0.

Definition zero_susp : suspect_leader_data :=
  mkSusp dzero false no_stopwatch (OrderState.per_server dzero) dzero [] 0
    (repeat (mkPing 0 no_stopwatch) (Z.to_nat PING_HIST)) (OrderState.per_server dzero) dzero
    (OrderState.per_server dzero) dzero (OrderState.per_server None) None.

Definition zero_view : view_change_data :=
  mkView (OrderState.per_server 0) (OrderState.per_server None) (OrderState.per_server []) 0 0 None ∅ [] ∅ None
    (zeros DIGEST_SIZE) (OrderState.per_server None) 0 (OrderState.per_server None) 0 false false false
    no_stopwatch false false.

Definition zero_vc : vc_data :=
  mkVc zero_susp zero_view (mkRBData 0 empty_instances) 0 0 [] false 0 [] zero_catch.
