(* ===== verification/ViewChange.v ===== *)
(** View changes: [prime/src/view_change.c], with the messages it builds
    ([packets.c]).

    In a new view a replica broadcasts, reliably, how far it has executed and the
    prepare certificates it holds beyond that; it lists the 2f+k+1 servers whose
    state it has, signs a share of where ordering starts over for such a list, and
    shows the leader the joint signature.  The leader has it replayed: once
    prepared and committed, every replica fills and executes the slots before that
    start from the certificates. *)
From Stdlib Require Import ZArith Lia List Bool.
From Stdlib Require Import Strings.Byte.
From stdpp Require Import base list gmap.
From S2P Require Import Prelude Memory Config Packets Crypto Utility Eligibility ReliableBroadcast OrderState PreOrderState Order PreOrder Recon Execute ViewState.

(** What view changes call in components that are not modelled, and the order in
    which the hash table of the slots is walked. *)
Class ViewCalls := {
  VIEW_CATCH_Schedule_Catchup : server_variables -> comp state unit;
  slot_order : list Z -> list Z;
  partial_sig_order : list Z -> list Z }.

(** ** Slots of a replay *)
Definition fill_no_op (c : complete_pre_prepare_message) (parts : list bool) (msgs : list (option pre_prepare_mess)) (s : ord_slot) : ord_slot :=
  {| slot_seq_num := slot_seq_num s; slot_view := slot_view s; slot_type := SLOT_NO_OP;
     pre_prepare_parts := parts; pre_prepare_parts_msg := msgs; total_parts := 1;
     num_parts_collected := num_parts_collected s; collected_all_parts := true; complete_pre_prepare := c;
     sent_prepare := sent_prepare s; sent_commit := sent_commit s; forwarded_pre_prepare_parts := forwarded_pre_prepare_parts s;
     num_forwarded_parts := 1; prepare := prepare s; commit := commit s;
     ordered := ordered s; executed := executed s; prepare_certificate_ready := prepare_certificate_ready s;
     prepare_certificate := prepare_certificate s; commit_certificate := commit_certificate s; reconciled := true;
     made_eligible := made_eligible s; populated_eligible := populated_eligible s; preinstalled_snapshot := preinstalled_snapshot s;
     snapshot := snapshot s; num_remaining_for_execution := num_remaining_for_execution s; po_slot_list := po_slot_list s;
     ord_certificate := ord_certificate s; signed_ord_cert := signed_ord_cert s |}.

Definition fill_pc_set (vw tp : Z) (c : complete_pre_prepare_message) (parts : list bool) (msgs : list (option pre_prepare_mess)) (s : ord_slot) : ord_slot :=
  {| slot_seq_num := slot_seq_num s; slot_view := vw; slot_type := SLOT_PC_SET;
     pre_prepare_parts := parts; pre_prepare_parts_msg := msgs; total_parts := tp;
     num_parts_collected := num_parts_collected s; collected_all_parts := true; complete_pre_prepare := c;
     sent_prepare := sent_prepare s; sent_commit := sent_commit s; forwarded_pre_prepare_parts := forwarded_pre_prepare_parts s;
     num_forwarded_parts := tp; prepare := prepare s; commit := commit s;
     ordered := ordered s; executed := executed s; prepare_certificate_ready := prepare_certificate_ready s;
     prepare_certificate := prepare_certificate s; commit_certificate := commit_certificate s; reconciled := true;
     made_eligible := made_eligible s; populated_eligible := populated_eligible s; preinstalled_snapshot := preinstalled_snapshot s;
     snapshot := snapshot s; num_remaining_for_execution := num_remaining_for_execution s; po_slot_list := po_slot_list s;
     ord_certificate := ord_certificate s; signed_ord_cert := signed_ord_cert s |}.

Definition with_type_and_eligible (t : Z) (v : list po_seq_pair) (s : ord_slot) : ord_slot :=
  {| slot_seq_num := slot_seq_num s; slot_view := slot_view s; slot_type := t;
     pre_prepare_parts := pre_prepare_parts s; pre_prepare_parts_msg := pre_prepare_parts_msg s; total_parts := total_parts s;
     num_parts_collected := num_parts_collected s; collected_all_parts := collected_all_parts s; complete_pre_prepare := complete_pre_prepare s;
     sent_prepare := sent_prepare s; sent_commit := sent_commit s; forwarded_pre_prepare_parts := forwarded_pre_prepare_parts s;
     num_forwarded_parts := num_forwarded_parts s; prepare := prepare s; commit := commit s;
     ordered := ordered s; executed := executed s; prepare_certificate_ready := prepare_certificate_ready s;
     prepare_certificate := prepare_certificate s; commit_certificate := commit_certificate s; reconciled := reconciled s;
     made_eligible := v; populated_eligible := true; preinstalled_snapshot := preinstalled_snapshot s;
     snapshot := snapshot s; num_remaining_for_execution := num_remaining_for_execution s; po_slot_list := po_slot_list s;
     ord_certificate := ord_certificate s; signed_ord_cert := signed_ord_cert s |}.

Section ViewChange.
Context {crypto : Crypto} {tc : Threshold} {calls : ViewCalls} {exec : Executor (po_data (R := vc_data))}.
Context (clock : nat -> Z) (VAR : server_variables).
Abbreviation M := (comp state).

(** 2f+k+1 *)
Definition vc_quorum : Z := 2 * VF VAR + VK VAR + 1.

(** ** The messages *)
Definition VIEW_Construct_Report : M vc_mess :=
  r <- get ;;
  v <- view ;;
  UTIL_New_Signed_Message VAR (Report (mkTag (My_Server_ID VAR) (View r) 0) (ARU r) (numSeq v)).

Definition VIEW_Construct_PC_Set (pp : pre_prepare_mess) (prepares : list vote) : M (Z * vc_mess) :=
  r <- get ;;
  d <- vc ;;
  let seq := rb_seq (RB d) in
  assert_ (0 <? seq) ;;;
  vc_update (put_RB (mkRBData (wrap32 (seq + 1)) (instances (RB d)))) ;;;
  m <- UTIL_New_Signed_Message VAR (Pc_Set (mkTag (My_Server_ID VAR) (View r) seq) pp prepares) ;;
  ret (seq, m).

Definition VIEW_Construct_VC_List : M vc_mess :=
  r <- get ;;
  v <- view ;;
  UTIL_New_Signed_Message VAR (Vc_List (View r) (complete_state v)).

(** The three words that are signed jointly. *)
Definition replay_words (view l startSeq : Z) : list byte :=
  le_encode 4 view ++ le_encode 4 l ++ le_encode 4 startSeq.

(** The highest sequence number of a server's certificates and execution, over
    the servers of a list. *)
Fixpoint max_seq (l : Z) (max_pc : list Z) (servers : list Z) (m : Z) : M Z :=
  match servers with
  | [] => ret m
  | i :: servers =>
      x <- or_oob (aget max_pc i) ;;
      max_seq l max_pc servers (if UTIL_Bitmap_Is_Set l i && (m <? x) then x else m)
  end.

Definition VIEW_Construct_VC_Partial_Sig (l : Z) : M vc_mess :=
  r <- get ;;
  v <- view ;;
  m <- max_seq l (max_pc_seq v) (seqZ 1 NUM_SERVERS) 0 ;;
  let startSeq := wrap32 (m + 1) in
  UTIL_New_Signed_Message VAR (Vc_Partial_Sig (View r) l startSeq
    (genIndSig (My_Server_ID VAR) (make_digest (replay_words (View r) l startSeq)))).

(** The shares of those who signed [startSeq]. *)
Definition share_for (startSeq i : Z) (m : option vc_mess) : option (Z * list byte) :=
  match m with
  | Some (mkVcMess _ _ (Vc_Partial_Sig _ _ s share)) => if s =? startSeq then Some (i, share) else None
  | _ => None
  end.

Definition shares_for (startSeq : Z) (m_arr : list (option vc_mess)) : list (Z * list byte) :=
  omap (fun i => match aget m_arr i with Some m => share_for startSeq i m | None => None end) (seqZ 1 NUM_SERVERS).

(** Nothing, when the combined signature does not verify. *)
Definition VIEW_Construct_VC_Proof (l startSeq : Z) (m_arr : list (option vc_mess)) : M (option vc_mess) :=
  r <- get ;;
  let d := make_digest (replay_words (View r) l startSeq) in
  let sig := TC_Combine_Sigs (shares_for startSeq m_arr) d in
  if negb (TC_Verify_Signature 1 sig d) then ret None else
  m <- UTIL_New_Signed_Message VAR (Vc_Proof (mkReplay (View r) l startSeq sig)) ;;
  ret (Some m).

Definition VIEW_Construct_Replay (vc_proof : replay_message) : M vc_mess :=
  UTIL_New_Signed_Message VAR (Replay vc_proof).

(** The structure in memory. *)
Definition replay_bytes (m : replay_message) : list byte :=
  replay_words (re_view m) (re_list m) (re_startSeq m) ++ re_thresh_sig m.

(** [DATA.VIEW.replay + 1], through a pointer that must not be null. *)
Definition the_replay : M replay_message :=
  v <- view ;;
  match replay v with
  | Some (mkVcMess _ _ (Replay m)) => ret m
  | _ => raise OutOfBounds
  end.

Definition VIEW_Construct_Replay_Prepare : M vc_mess :=
  m <- the_replay ;;
  v <- view ;;
  UTIL_New_Signed_Message VAR (Replay_Prepare (re_view m) (replay_digest v)).

Definition VIEW_Construct_Replay_Commit : M vc_mess :=
  m <- the_replay ;;
  v <- view ;;
  UTIL_New_Signed_Message VAR (Replay_Commit (re_view m) (replay_digest v)).

(** ** Retransmission *)
Definition broadcast_own (l : list (option vc_mess)) : M unit :=
  m <- or_oob (aget l (My_Server_ID VAR)) ;;
  match m with Some m => UTIL_Broadcast m | None => ret tt end.

Fixpoint broadcast_partial_sigs (keys : list Z) (h : gmap Z (list (option vc_mess))) : M unit :=
  match keys with
  | [] => ret tt
  | k :: keys =>
      match h !! k with Some l => broadcast_own l | None => ret tt end ;;;
      broadcast_partial_sigs keys h
  end.

Definition VIEW_Periodic_Retrans : M unit :=
  e <- po ;;
  if executed_ord e =? 1 then ret tt else
  v <- view ;;
  match replay v with
  | Some m =>
      UTIL_Broadcast m ;;;
      broadcast_own (replay_prepare v) ;;;
      broadcast_own (replay_commit v)
  | None =>
      match my_vc_list v with Some m => UTIL_Broadcast m | None => ret tt end ;;;
      broadcast_partial_sigs (partial_sig_order (map fst (map_to_list (unique_partial_sig v)))) (unique_partial_sig v)
  end ;;;
  E_queue VIEW_Retrans_Timer (RETRANS_PERIOD_SEC * 1000000).

Fixpoint resend_all (l : list rb_mess) : M unit :=
  match l with [] => ret tt | m :: l => out (Rb_Resend m) ;;; resend_all l end.

(** [RB_Periodic_Retrans], on this state. *)
Definition RB_Retrans : M unit :=
  e <- po ;;
  d <- vc ;;
  r <- get ;;
  if (executed_ord e =? 1) && startup_finished d then ret tt else
  resend_all (RB_Periodic_Retrans VAR false (mkReplica (RB d) (View r) (new_incarnation_val r) [] [])) ;;;
  E_queue RB_Retrans_Timer (RETRANS_PERIOD_SEC * 1000000).

(** ** The start of a view change *)
(** The first 2f+k Prepares of a certificate. *)
Definition first_prepares (l : list (option vote)) : list vote :=
  take (Z.to_nat (2 * VF VAR + VK VAR))
    (omap (fun i => match aget l i with Some v => v | None => None end) (seqZ 1 NUM_SERVERS)).

(** [stdskl_insert], by [intcmp] of the keys. *)
Fixpoint insert_pc (k : Z) (m : vc_mess) (l : list (Z * vc_mess)) : list (Z * vc_mess) :=
  match l with
  | [] => [(k, m)]
  | (k', m') :: l' => if sint32 k' <=? sint32 k then (k', m') :: insert_pc k m l' else (k, m) :: l
  end.

(** A slot that is prepared and not executed gives a PC-Set. *)
Definition collect_pc (i : Z) : M unit :=
  slot <- UTIL_Get_ORD_Slot_If_Exists i ;;
  match slot with
  | None => ret tt
  | Some slot =>
      if negb (prepare_certificate_ready slot) then ret tt else
      assert_ (negb (executed slot)) ;;;
      pp <- or_oob (aget (pre_prepare_parts_msg slot) 1) ;;
      pp <- or_oob pp ;;
      let prepares := first_prepares (snd (prepare_certificate slot)) in
      pc <- VIEW_Construct_PC_Set pp prepares ;;
      assert_ (Z.of_nat (length prepares) =? 2 * VF VAR + VK VAR) ;;;
      v <- view ;;
      own <- or_oob (aget (pc_set v) (My_Server_ID VAR)) ;;
      l <- or_oob (aset (pc_set v) (My_Server_ID VAR) (insert_pc (fst pc) (snd pc) own)) ;;
      view_update (fun v => add_own_pc l (wrap32 (numSeq v + 1)) v)
  end.

Fixpoint collect_pcs (seqs : list Z) : M unit :=
  match seqs with [] => ret tt | i :: seqs => collect_pc i ;;; collect_pcs seqs end.

Fixpoint send_pcs (l : list (Z * vc_mess)) : M unit :=
  match l with [] => ret tt | (_, m) :: l => out (Rb_Init m) ;;; send_pcs l end.

Definition VIEW_Start_View_Change : M unit :=
  SUSPECT_Initialize_Upon_View_Change clock VAR ;;;
  SUSPECT_Restart_Timed_Functions ;;;
  vc_update (fun d => put_RB (RB_Initialize_Upon_View_Change (RB d)) d) ;;;
  RB_Retrans ;;;
  VIEW_Initialize_Upon_View_Change ;;;
  VIEW_Periodic_Retrans ;;;
  r <- get ;;
  seqs <- counting_up (wrap32 (ARU r + 1)) (high_prepared r) ;;
  collect_pcs seqs ;;;
  report <- VIEW_Construct_Report ;;
  out (Rb_Init report) ;;;
  v <- view ;;
  own <- or_oob (aget (pc_set v) (My_Server_ID VAR)) ;;
  send_pcs own ;;;
  l <- or_oob (aset (pc_set v) (My_Server_ID VAR) []) ;;
  view_update (clear_own_pcs l).

(** ** Executing a replay *)
(** The Pre-Prepare of a PC-Set. *)
Definition pc_pre_prepare (m : vc_mess) : M pre_prepare_mess :=
  match vm_body m with Pc_Set _ pp _ => ret pp | _ => raise OutOfBounds end.

(** The certificates of one server; the first for a sequence number is kept. *)
Fixpoint merge_pcs (l : list (Z * vc_mess)) (full : gmap Z pre_prepare_mess) : M (gmap Z pre_prepare_mess) :=
  match l with
  | [] => ret full
  | (_, m) :: l =>
      pp <- pc_pre_prepare m ;;
      merge_pcs l (match full !! pp_seq_num pp with Some _ => full | None => <[pp_seq_num pp := pp]> full end)
  end.

Fixpoint merge_servers (bits : Z) (pcs : list (list (Z * vc_mess))) (servers : list Z) (full : gmap Z pre_prepare_mess)
    : M (gmap Z pre_prepare_mess) :=
  match servers with
  | [] => ret full
  | i :: servers =>
      l <- or_oob (aget pcs i) ;;
      full <- (if UTIL_Bitmap_Is_Set bits i then merge_pcs l full else ret full) ;;
      merge_servers bits pcs servers full
  end.

(** Slots that stay: the last ones executed, and what the new view has ordered. *)
Definition stays_in_history (r : state) (startSeq : Z) (slot : ord_slot) : bool :=
  ((stable_catchup r <=? slot_seq_num slot) && (slot_seq_num slot <=? ARU r))
  || ((startSeq <=? slot_seq_num slot) && (View r <=? slot_view slot)).

Fixpoint clean_history (startSeq : Z) (seqs : list Z) : M unit :=
  match seqs with
  | [] => ret tt
  | i :: seqs =>
      slot <- the_slot i ;;
      r <- get ;;
      (if stays_in_history r startSeq slot then ret tt else ORDER_Garbage_Collect_ORD_Slot i) ;;;
      clean_history startSeq seqs
  end.

(** The Pre-Prepare before the first slot. *)
Definition dummy_pre_prepare : pre_prepare_mess :=
  {| pp_machine_id := My_Server_ID VAR; pp_signed := []; pp_seq_num := 0; pp_view := 0;
     pp_proposal_digest := zeros DIGEST_SIZE; pp_last_executed := zero_pairs; pp_part_num := 1;
     pp_total_parts := 1; pp_num_acks := NUM_SERVERS; pp_cum_acks := zeros matrix_bytes |}.

(** [prev_pp], [prev_pp_part] and [prev_made_elig]: pointers into the slot before,
    or to zeros. *)
Definition previous (prev : option Z) : M (complete_pre_prepare_message * option pre_prepare_mess * list po_seq_pair) :=
  match prev with
  | None => ret (zero_complete, Some dummy_pre_prepare, zero_pairs)
  | Some seq =>
      slot <- the_slot seq ;;
      part <- or_oob (aget (pre_prepare_parts_msg slot) 1) ;;
      ret (complete_pre_prepare slot, part, made_eligible slot)
  end.

(** A slot no certificate is for: nothing new, from the slot before. *)
Definition no_op_slot (seq : Z) (prev : option Z) : M unit :=
  p <- previous prev ;;
  let '(prev_pp, prev_part, prev_made_elig) := p in
  part <- or_oob prev_part ;;
  slot <- the_slot seq ;;
  parts <- or_oob (aset (pre_prepare_parts slot) 1 true) ;;
  msgs <- or_oob (aset (pre_prepare_parts_msg slot) 1 (Some part)) ;;
  upd seq (fill_no_op (mkComplete (slot_seq_num slot) (c_view prev_pp) (c_proposal_digest prev_pp)
                         prev_made_elig (c_cum_acks prev_pp)) parts msgs).

(** [max_num_sent_in_proof] follows what the matrix makes eligible. *)
Fixpoint raise_proofs (cum : list byte) (servers : list Z) : M unit :=
  match servers with
  | [] => ret tt
  | j :: servers =>
      ps <- PRE_ORDER_Proof_ARU VAR j cum ;;
      r <- get ;;
      old <- or_oob (aget (max_num_sent_in_proof r) j) ;;
      (if 0 <? PRE_ORDER_Seq_Compare ps old then
         l <- or_oob (aset (max_num_sent_in_proof r) j ps) ;; modify (set_max_num_sent l)
       else ret tt) ;;;
      raise_proofs cum servers
  end.

Fixpoint process_rows (cum : list byte) (rows : list Z) : M unit :=
  match rows with
  | [] => ret tt
  | i :: rows => m <- row cum i ;; PRE_ORDER_Process_PO_ARU VAR m ;;; process_rows cum rows
  end.

(** A slot with a certificate; the matrix is copied over the slot's. *)
Definition pc_set_slot (seq : Z) (pp : pre_prepare_mess) : M unit :=
  slot <- the_slot seq ;;
  cum <- load_bytes (pp_cum_acks pp) 0 (sz_po_aru_signed_message * pp_num_acks pp) ;;
  (if matrix_bytes <? Z.of_nat (length cum) then raise OutOfBounds else ret tt) ;;;
  let cum := cum ++ drop (length cum) (c_cum_acks (complete_pre_prepare slot)) in
  parts <- or_oob (aset (pre_prepare_parts slot) 1 true) ;;
  msgs <- or_oob (aset (pre_prepare_parts_msg slot) 1 (Some pp)) ;;
  upd seq (fill_pc_set (pp_view pp) (pp_total_parts pp)
             (mkComplete (slot_seq_num slot) (pp_view pp) (pp_proposal_digest pp) (pp_last_executed pp) cum)
             parts msgs) ;;;
  raise_proofs cum (seqZ 1 NUM_SERVERS) ;;;
  process_rows cum (seqZ 1 NUM_SERVERS).

(** What the slot makes eligible: a slot without a certificate before one with a
    certificate reaches the vector that one starts from. *)
Definition replay_eligible (seq startSeq : Z) (full : gmap Z pre_prepare_mess) : M unit :=
  slot <- the_slot seq ;;
  let peek := wrap32 (seq + 1) in
  match full !! peek with
  | Some pp =>
      if (slot_type slot =? SLOT_NO_OP) && (peek <? startSeq)
      then upd seq (with_type_and_eligible SLOT_NO_OP_PLUS (pp_last_executed pp))
      else v <- compute_eligible VAR (c_cum_acks (complete_pre_prepare slot)) (c_last_executed (complete_pre_prepare slot)) ;;
           upd seq (with_type_and_eligible (slot_type slot) v)
  | None =>
      v <- compute_eligible VAR (c_cum_acks (complete_pre_prepare slot)) (c_last_executed (complete_pre_prepare slot)) ;;
      upd seq (with_type_and_eligible (slot_type slot) v)
  end.

Definition replay_slot (startSeq : Z) (full : gmap Z pre_prepare_mess) (prev : option Z) (seq : Z) : M unit :=
  UTIL_Get_ORD_Slot seq ;;;
  match full !! seq with
  | None => no_op_slot seq prev
  | Some pp => pc_set_slot seq pp
  end ;;;
  ORDER_Update_Forwarding_White_Line ;;;
  RECON_Update_Recon_White_Line ;;;
  replay_eligible seq startSeq full ;;;
  ORDER_Execute_Commit VAR seq.

Fixpoint replay_slots (startSeq : Z) (full : gmap Z pre_prepare_mess) (prev : option Z) (seqs : list Z) : M unit :=
  match seqs with
  | [] => ret tt
  | i :: seqs => replay_slot startSeq full prev i ;;; replay_slots startSeq full (Some i) seqs
  end.

Definition VIEW_Execute_Replay : M unit :=
  rep <- the_replay ;;
  v <- view ;;
  full <- merge_servers (re_list rep) (pc_set v) (seqZ 1 NUM_SERVERS) ∅ ;;
  r <- get ;;
  clean_history (re_startSeq rep) (slot_order (map fst (map_to_list (History r)))) ;;;
  r <- get ;;
  (if ARU r =? 0 then ret tt else slot <- UTIL_Get_ORD_Slot_If_Exists (ARU r) ;; assert_ (bool_decide (is_Some slot))) ;;;
  modify (set_ppARU (ARU r)) ;;;
  replay_slots (re_startSeq rep) full (if ARU r =? 0 then None else Some (ARU r))
    (seqZ (wrap32 (ARU r + 1)) (re_startSeq rep - wrap32 (ARU r + 1))) ;;;
  modify ORDER_Adjust_High_Prepared ;;;
  modify ORDER_Adjust_ppARU ;;;
  r <- get ;;
  assert_ (ppARU r =? wrap32 (re_startSeq rep - 1)).

(** ** Progress of the replay *)
Definition VIEW_Try_Send_Replay_Prepare : M unit :=
  v <- view ;;
  if sent_replay_prepare v then ret tt else
  match replay v with
  | None => ret tt
  | Some _ =>
      rep <- the_replay ;;
      if UTIL_Bitmap_Is_Superset (re_list rep) (complete_state v) then
        view_update (put_sent_replay_prepare true) ;;;
        m <- VIEW_Construct_Replay_Prepare ;;
        SIG_Add_To_Pending_Messages m BROADCAST
      else ret tt
  end.

(** How many of the stored votes have the digest of the replay. *)
Definition digest_of (m : vc_mess) : option digest :=
  match vm_body m with Replay_Prepare _ d | Replay_Commit _ d => Some d | _ => None end.

Definition votes_for (d : digest) (l : list (option vc_mess)) : list Z :=
  List.filter (fun i => match aget l i with
                        | Some (Some m) => match digest_of m with
                                           | Some d' => OPENSSL_RSA_Digests_Equal d' d
                                           | None => false
                                           end
                        | _ => false
                        end) (seqZ 1 NUM_SERVERS).

Definition VIEW_Try_Send_Replay_Commit : M unit :=
  v <- view ;;
  if sent_replay_commit v then ret tt else
  if negb (bool_decide (is_Some (replay v))) || (replay_prepare_count v <? 2 * VF VAR + VK VAR) then ret tt else
  if 2 * VF VAR + VK VAR <=? Z.of_nat (length (votes_for (replay_digest v) (replay_prepare v))) then
    m <- VIEW_Construct_Replay_Commit ;;
    view_update (put_sent_replay_commit true) ;;;
    SIG_Add_To_Pending_Messages m BROADCAST
  else ret tt.

(** [ORDER_Periodically], with the timer it queues. *)
Definition start_ordering : M unit :=
  ORDER_Periodically VAR ;;;
  r <- get ;;
  if UTIL_I_Am_Leader VAR (View r) then E_queue ORDER_Timer (PRE_PREPARE_SEC * 1000000 + PRE_PREPARE_USEC) else ret tt.

Definition CATCH_Reset_View_Change_Catchup : M unit := vc_update (put_catchup 0 0).

Definition VIEW_Try_Execute_Replay : M unit :=
  v <- view ;;
  if executed_replay v then ret tt else
  if negb (bool_decide (is_Some (replay v))) || (replay_commit_count v <? vc_quorum) then ret tt else
  rep <- the_replay ;;
  if negb (UTIL_Bitmap_Is_Superset (re_list rep) (complete_state v)) then ret tt else
  if Z.of_nat (length (votes_for (replay_digest v) (replay_commit v))) <? vc_quorum then ret tt else
  view_update (put_executed_replay true) ;;;
  VIEW_Execute_Replay ;;;
  modify (fun r => set_view (View r) true r) ;;;
  CATCH_Reset_View_Change_Catchup ;;;
  r <- get ;;
  if UTIL_I_Am_Leader VAR (View r) then
    modify (fun r => set_next_seq (re_startSeq rep) (set_should_send_pp true r)) ;;;
    start_ordering
  else ret tt.

(** ** Complete state *)
(** A share for every list that waited and is complete now. *)
Fixpoint answer_pending (l : list vc_mess) : M (list vc_mess) :=
  match l with
  | [] => ret []
  | m :: l =>
      v <- view ;;
      match vm_body m with
      | Vc_List _ bits =>
          if UTIL_Bitmap_Is_Superset bits (complete_state v) then
            psig <- VIEW_Construct_VC_Partial_Sig bits ;;
            SIG_Add_To_Pending_Messages psig BROADCAST ;;;
            answer_pending l
          else rest <- answer_pending l ;; ret (m :: rest)
      | _ => raise OutOfBounds
      end
  end.

Definition Check_Complete_State (serv : Z) : M unit :=
  v <- view ;;
  if UTIL_Bitmap_Is_Set (complete_state v) serv then ret tt else
  stored <- or_oob (aget (report v) serv) ;;
  match stored with
  | Some (mkVcMess _ _ (Report _ execARU pc_set_size)) =>
      pcs <- or_oob (aget (pc_set v) serv) ;;
      r <- get ;;
      if negb (pc_set_size =? Z.of_nat (length pcs)) then ret tt else
      if ARU r <? execARU then ret tt else
      let bits := UTIL_Bitmap_Set (complete_state v) serv in
      view_update (put_complete_state bits) ;;;
      n <- UTIL_Bitmap_Num_Bits_Set bits ;;
      (if n =? vc_quorum then
         m <- VIEW_Construct_VC_List ;; SIG_Add_To_Pending_Messages m BROADCAST
       else ret tt) ;;;
      v <- view ;;
      l <- answer_pending (pending_vc_list v) ;;
      view_update (put_pending_vc_list l) ;;;
      VIEW_Try_Send_Replay_Prepare ;;;
      VIEW_Try_Execute_Replay
  | Some _ => raise OutOfBounds
  | None => ret tt
  end.

(** ** The handlers *)
(** Whether a message is of a view change into this view that is under way. *)
Definition in_view_change (view : Z) : M bool :=
  r <- get ;; ret ((view =? View r) && negb (view_change_done r)).

Definition VIEW_Process_Report (mess : vc_mess) : M unit :=
  match vm_body mess with
  | Report tag execARU _ =>
      go <- in_view_change (t_view tag) ;;
      if negb go || negb (t_seq_num tag =? 0) then ret tt else
      v <- view ;;
      stored <- or_oob (aget (report v) (t_machine_id tag)) ;;
      assert_ (negb (bool_decide (is_Some stored))) ;;;
      l <- or_oob (aset (report v) (t_machine_id tag) (Some mess)) ;;
      m <- or_oob (aget (max_pc_seq v) (t_machine_id tag)) ;;
      ms <- or_oob (aset (max_pc_seq v) (t_machine_id tag) (Z.max m execARU)) ;;
      view_update (put_report l ms) ;;;
      r <- get ;;
      (if ARU r <? execARU then
         VIEW_CATCH_Schedule_Catchup VAR ;;;
         vc_update (fun d => if vc_catchup_target d <? execARU then put_catchup execARU (t_machine_id tag) d else d)
       else ret tt) ;;;
      Check_Complete_State (t_machine_id tag)
  | _ => ret tt
  end.

Definition VIEW_Process_PC_Set (mess : vc_mess) : M unit :=
  match vm_body mess with
  | Pc_Set tag pp _ =>
      go <- in_view_change (t_view tag) ;;
      if negb go || (t_seq_num tag =? 0) then ret tt else
      v <- view ;;
      pcs <- or_oob (aget (pc_set v) (t_machine_id tag)) ;;
      assert_ (negb (existsb (fun x => sint32 (fst x) =? sint32 (t_seq_num tag)) pcs)) ;;;
      l <- or_oob (aset (pc_set v) (t_machine_id tag) (insert_pc (t_seq_num tag) mess pcs)) ;;
      m <- or_oob (aget (max_pc_seq v) (t_machine_id tag)) ;;
      ms <- or_oob (aset (max_pc_seq v) (t_machine_id tag) (Z.max m (pp_seq_num pp))) ;;
      view_update (put_pc_set l ms) ;;;
      Check_Complete_State (t_machine_id tag)
  | _ => ret tt
  end.

Definition VIEW_Process_VC_List (mess : vc_mess) : M unit :=
  match vm_body mess with
  | Vc_List w bits =>
      go <- in_view_change w ;;
      if negb go then ret tt else
      (if vm_machine_id mess =? My_Server_ID VAR
       then view_update (fun v => match my_vc_list v with None => put_my_vc_list (Some mess) v | Some _ => v end)
       else ret tt) ;;;
      v <- view ;;
      match unique_vc_list v !! bits with
      | Some _ => ret tt
      | None =>
          view_update (put_unique_vc_list (<[bits := mess]> (unique_vc_list v))) ;;;
          if UTIL_Bitmap_Is_Superset bits (complete_state v) then
            psig <- VIEW_Construct_VC_Partial_Sig bits ;;
            SIG_Add_To_Pending_Messages psig BROADCAST
          else view_update (put_pending_vc_list (pending_vc_list v ++ [mess]))
      end
  | _ => ret tt
  end.

(** The servers that signed this start. *)
Definition signers (startSeq : Z) (l : list (option vc_mess)) : list Z :=
  List.filter (fun i => match aget l i with
                        | Some (Some (mkVcMess _ _ (Vc_Partial_Sig _ _ s _))) => s =? startSeq
                        | _ => false
                        end) (seqZ 1 NUM_SERVERS).

(** The leader is challenged, and the time until its replay measured. *)
Definition challenge_leader (bits startSeq : Z) (l : list (option vc_mess)) : M unit :=
  proof <- VIEW_Construct_VC_Proof bits startSeq l ;;
  match proof with
  | None => ret tt
  | Some m =>
      v <- view ;;
      (if started_vc_measure v then ret tt else
         sw <- UTIL_Stopwatch_Start clock (vc_tat v) ;;
         view_update (put_vc_measure sw true (done_vc_measure v))) ;;;
      r <- get ;;
      SIG_Add_To_Pending_Messages m (UTIL_Bitmap_Set 0 (UTIL_Leader (View r)))
  end.

Definition VIEW_Process_VC_Partial_Sig (mess : vc_mess) : M unit :=
  match vm_body mess with
  | Vc_Partial_Sig w bits startSeq _ =>
      go <- in_view_change w ;;
      if negb go then ret tt else
      v <- view ;;
      let arr := match unique_partial_sig v !! bits with Some l => l | None => OrderState.per_server None end in
      view_update (put_unique_partial_sig (<[bits := arr]> (unique_partial_sig v))) ;;;
      stored <- or_oob (aget arr (vm_machine_id mess)) ;;
      match stored with
      | Some _ => ret tt
      | None =>
          l <- or_oob (aset arr (vm_machine_id mess) (Some mess)) ;;
          view_update (fun v => put_unique_partial_sig (<[bits := l]> (unique_partial_sig v)) v) ;;;
          if negb (Z.of_nat (length (signers startSeq l)) =? vc_quorum) then ret tt else
          challenge_leader bits startSeq l
      end
  | _ => ret tt
  end.

Definition VIEW_Process_VC_Proof (mess : vc_mess) : M unit :=
  match vm_body mess with
  | Vc_Proof p =>
      r <- get ;;
      if negb (UTIL_I_Am_Leader VAR (View r)) then ret tt else
      go <- in_view_change (re_view p) ;;
      v <- view ;;
      if negb go || bool_decide (is_Some (replay v)) then ret tt else
      m <- VIEW_Construct_Replay p ;;
      view_update (put_replay (Some m) (make_digest (replay_bytes p))) ;;;
      SIG_Add_To_Pending_Messages m BROADCAST
  | _ => ret tt
  end.

(** The first replay ends the measurement of the leader's answer. *)
Definition measure_replay : M unit :=
  v <- view ;;
  if done_vc_measure v then ret tt else
  (if started_vc_measure v then
     sw <- UTIL_Stopwatch_Stop clock (vc_tat v) ;;
     view_update (put_vc_measure sw true true) ;;;
     susp_update (fun s => if dlt (max_tat s) (UTIL_Stopwatch_Elapsed sw)
                           then measured_tat (UTIL_Stopwatch_Elapsed sw) true s else s)
   else view_update (put_vc_measure (vc_tat v) true true)).

Definition VIEW_Process_Replay (mess : vc_mess) : M unit :=
  match vm_body mess with
  | Replay m =>
      r <- get ;;
      if negb (vm_machine_id mess =? UTIL_Leader (View r)) then ret tt else
      go <- in_view_change (re_view m) ;;
      if negb go then ret tt else
      v <- view ;;
      match replay v with
      | Some _ =>
          stored <- the_replay ;;
          if negb ((re_list stored =? re_list m) && (re_startSeq stored =? re_startSeq m))
          then UTIL_Broadcast mess else ret tt
      | None =>
          measure_replay ;;;
          view_update (put_replay (Some mess) (make_digest (replay_bytes m))) ;;;
          UTIL_Broadcast mess ;;;
          VIEW_Try_Send_Replay_Prepare ;;;
          VIEW_Try_Send_Replay_Commit ;;;
          VIEW_Try_Execute_Replay
      end
  | _ => ret tt
  end.

Definition VIEW_Process_Replay_Prepare (mess : vc_mess) : M unit :=
  match vm_body mess with
  | Replay_Prepare w _ =>
      r <- get ;;
      if negb (w =? View r) || (vm_machine_id mess =? UTIL_Leader (View r)) then ret tt else
      v <- view ;;
      stored <- or_oob (aget (replay_prepare v) (vm_machine_id mess)) ;;
      match stored with
      | Some _ => ret tt
      | None =>
          l <- or_oob (aset (replay_prepare v) (vm_machine_id mess) (Some mess)) ;;
          view_update (put_replay_prepare l (wrap32 (replay_prepare_count v + 1))) ;;;
          if view_change_done r then ret tt else VIEW_Try_Send_Replay_Commit
      end
  | _ => ret tt
  end.

Definition VIEW_Process_Replay_Commit (mess : vc_mess) : M unit :=
  match vm_body mess with
  | Replay_Commit w _ =>
      r <- get ;;
      if negb (w =? View r) then ret tt else
      v <- view ;;
      stored <- or_oob (aget (replay_commit v) (vm_machine_id mess)) ;;
      match stored with
      | Some _ => ret tt
      | None =>
          l <- or_oob (aset (replay_commit v) (vm_machine_id mess) (Some mess)) ;;
          view_update (put_replay_commit l (wrap32 (replay_commit_count v + 1))) ;;;
          if view_change_done r then ret tt else VIEW_Try_Execute_Replay
      end
  | _ => ret tt
  end.
End ViewChange.
