(* ===== verification/Catchup.v ===== *)
(** Catchup: [prime/src/catchup.c], with the messages it builds ([packets.c]).

    A replica that has fallen behind asks the others in turn.  One that is ahead
    answers with the certificates of the slots and PO-Requests that are missing,
    which are processed as the messages in them, or, when it is too far ahead, with
    a Jump, whose certificate the other's state is moved up to. *)
From Stdlib Require Import ZArith Lia List Bool.
From Stdlib Require Import Strings.Byte.
From stdpp Require Import base list gmap.
From S2P Require Import Prelude Memory Config Packets Crypto Utility Eligibility ReliableBroadcast OrderState PreOrderState CatchupState Order PreOrder Recon Execute Updates ViewState ViewChange.

(** What catchup calls of recovery, and the certificate of the last reset. *)
Class RecoveryCalls := {
  PR_Process_Jump : server_variables -> jump -> comp state unit;
  PR_Reset_Prime : server_variables -> comp state unit;
  PR_Send_Pending_State : server_variables -> Z -> Z -> comp state unit;
  reset_certificate : state -> list byte }.

Section Catchup.
Context {crypto : Crypto} {signer : Signer} {ext : External vc_data} {calls : ViewCalls} {recovery : RecoveryCalls}.
(** The clock, what [rand] returns, and what the stack held where the code leaves
    parts of [cert_complete_pp] and [tmp_eligible] unset. *)
Context (clock : nat -> Z) (rand : nat -> Z) (stack_matrix : list byte) (stack_pairs : list po_seq_pair).
Context (VAR : server_variables).
Abbreviation M := (comp state).

Definition catch : M catch_data := d <- vc ;; ret (CATCH d).
Definition catch_update (f : catch_data -> catch_data) : M unit := vc_update (fun d => put_CATCH (f (CATCH d)) d).
Definition catch_send (o : catch_out) : M unit := catch_update (fun c => put_catch_sent (catch_sent c ++ [o]) c).

(** [DATA.CATCH.next_catchup_time[i] = t] *)
Definition set_catchup_time (i t : Z) : M unit :=
  c <- catch ;;
  l <- or_oob (aset (next_catchup_time c) i t) ;;
  catch_update (put_next_catchup_time l).

(** ** Whom to ask *)
Definition next_server (id : Z) : Z :=
  let id := wrap32 (id + 1) mod NUM_SERVERS in if id =? 0 then NUM_SERVERS else id.

Definition CATCH_Advance_Catchup_ID (id : Z) : Z :=
  let id := next_server id in
  if id =? My_Server_ID VAR then next_server id else id.

Definition CATCH_Initialize_Data_Structure : M unit :=
  now <- E_get_time clock ;;
  c <- catch ;;
  let id := rand (nonces c) mod NUM_SERVERS + 1 in
  catch_update (fun c =>
    mkCatch false false 0 0 (if id =? My_Server_ID VAR then CATCH_Advance_Catchup_ID id else id)
      (for_each_server None (last_ord_cert c)) (for_each_server None (last_catchup_request c))
      (for_each_server None (sent_catchup_request c)) (for_each_server now (next_catchup_time c))
      (jump_mismatch c) (jump_mismatch_count c) (complete_recovery_state c) (S (nonces c)) (catch_sent c)).

Definition CATCH_Upon_Reset : M unit :=
  catch_update (fun c =>
    put_last_ord_cert (for_each_server None (last_ord_cert c))
      (put_requests (for_each_server None (last_catchup_request c)) (for_each_server None (sent_catchup_request c)) c)).

(** As soon as the replica may ask again, but not before messages on their way had
    time to arrive. *)
Definition CATCH_Schedule_Catchup : M unit :=
  queued <- E_in_queue CATCH_Attempt_Timer ;;
  if queued : bool then ret tt else
  now <- E_get_time clock ;;
  c <- catch ;;
  next <- or_oob (aget (next_catchup_time c) (My_Server_ID VAR)) ;;
  E_queue CATCH_Attempt_Timer
    (if (next <=? now) || (next - now <=? CATCHUP_EPSILON) then CATCHUP_EPSILON else next - now).

(** An attempt that waits is put off when a certificate arrives. *)
Definition put_off_attempt : M unit :=
  queued <- E_in_queue CATCH_Attempt_Timer ;;
  if negb queued then ret tt else
  c <- catch ;;
  E_queue CATCH_Attempt_Timer (if catchup_in_progress c then CATCHUP_MOVEON else CATCHUP_PERIOD).

(** ** Asking *)
Definition CATCH_Construct_Catchup_Request (catchup_flag : Z) : M catchup_request :=
  r <- get ;;
  e <- po ;;
  c <- catch ;;
  catch_update (put_nonces (S (nonces c))) ;;;
  ret (mkCatchupRequest (My_Server_ID VAR) (new_incarnation_val r) catchup_flag (wrap32 (rand (nonces c))) (ARU r)
         (take (Z.to_nat NUM_SERVERS) (drop 1 (cum_aru e))) (proposal_digest r)).

Definition send_catchup_request (id flag : Z) : M unit :=
  m <- CATCH_Construct_Catchup_Request flag ;;
  c <- catch ;;
  l <- or_oob (aset (sent_catchup_request c) id (Some m)) ;;
  catch_update (put_requests (last_catchup_request c) l) ;;;
  catch_send (Request_Pending (UTIL_Bitmap_Set 0 id) m).

Definition CATCH_Send_Catchup_Request_Periodically : M unit :=
  c <- catch ;;
  send_catchup_request (periodic_catchup_id c) FLAG_PERIODIC ;;;
  catch_update (fun c => put_periodic_id (CATCH_Advance_Catchup_ID (periodic_catchup_id c)) c) ;;;
  E_queue CATCH_Request_Timer CATCHUP_REQUEST_PERIODICALLY.

(** The highest slot a certificate of another replica is stored for, beyond what is
    executed here, and that replica. *)
Fixpoint highest_certificate (aru : Z) (certs : list (option ord_certificate_mess)) (servers : list Z)
    (best : Z * Z) : M (Z * Z) :=
  match servers with
  | [] => ret best
  | i :: servers =>
      if i =? My_Server_ID VAR then highest_certificate aru certs servers best else
      cert <- or_oob (aget certs i) ;;
      match cert with
      | None => highest_certificate aru certs servers best
      | Some cert =>
          let seq := oc_seq_num cert in
          highest_certificate aru certs servers
            (if seq <=? aru then best else if fst best <? seq then (seq, i) else best)
      end
  end.

(** How far the replica knows the others to be, and whom to ask first. *)
Definition catchup_target : M (Z * Z) :=
  r <- get ;;
  d <- vc ;;
  best <- highest_certificate (ARU r) (last_ord_cert (CATCH d)) (seqZ 1 NUM_SERVERS) (0, 0) ;;
  let best := if (ARU r <? high_committed r) && (fst best <? high_committed r)
              then (high_committed r, next_server (My_Server_ID VAR)) else best in
  ret (if (ARU r <? vc_catchup_target d) && (fst best <? vc_catchup_target d)
       then (vc_catchup_target d, vc_catchup_source d) else best).

Definition CATCH_Attempt_Catchup : M unit :=
  best <- catchup_target ;;
  r <- get ;;
  c <- catch ;;
  if fst best <=? ARU r then catch_update (put_round false false 0 0) else
  (if catchup_in_progress c then ret tt else
     now <- E_get_time clock ;;
     set_catchup_time (My_Server_ID VAR) (now + CATCHUP_PERIOD) ;;;
     catch_update (put_round true (force_jump c) (snd best) (snd best))) ;;;
  c <- catch ;;
  send_catchup_request (next_catchup_id c)
    (if force_jump c || (CATCHUP_HISTORY <? wrap32 (fst best - ARU r)) then FLAG_JUMP else FLAG_CATCHUP) ;;;
  catch_update (fun c => put_round (catchup_in_progress c) (force_jump c) (starting_catchup_id c)
                           (CATCH_Advance_Catchup_ID (next_catchup_id c)) c) ;;;
  E_queue CATCH_Request_Timer CATCHUP_REQUEST_PERIODICALLY ;;;
  now <- E_get_time clock ;;
  set_catchup_time (My_Server_ID VAR) (now + CATCHUP_PERIOD) ;;;
  c <- catch ;;
  if next_catchup_id c =? starting_catchup_id c then
    catch_update (put_round false true 0 0) ;;;
    E_queue CATCH_Attempt_Timer CATCHUP_PERIOD
  else E_queue CATCH_Attempt_Timer CATCHUP_MOVEON.

(** ** Answering *)
(** -1, 0 or 1, as the first is older, equal or newer. *)
Fixpoint compare_pairs (l1 l2 : list po_seq_pair) (higher : bool) : Z :=
  match l1, l2 with
  | p1 :: l1, p2 :: l2 =>
      if PRE_ORDER_Seq_Compare p1 p2 <? 0 then -1
      else compare_pairs l1 l2 (if 0 <? PRE_ORDER_Seq_Compare p1 p2 then true else higher)
  | _, _ => if higher then 1 else 0
  end.

Definition CATCH_Compare_Catchup_Request (m1 m2 : catchup_request) : Z :=
  if cr_incarnation m1 <? cr_incarnation m2 then -1
  else if cr_incarnation m2 <? cr_incarnation m1 then 1
  else if cr_aru m1 <? cr_aru m2 then -1
  else if cr_aru m2 <? cr_aru m1 then 1
  else compare_pairs (cr_po_aru m1) (cr_po_aru m2) false.

(** [eligible_ptr]: the vector of the last slot, or the array [tmp_eligible], of
    which the [memset] clears as many bytes as as many numbers have. *)
Definition last_eligible : M (list po_seq_pair) :=
  r <- get ;;
  if 0 <? ARU r then
    slot <- UTIL_Get_ORD_Slot_If_Exists (ARU r) ;;
    match slot with
    | Some slot => ret (made_eligible slot)
    | None => raise AssertFailure
    end
  else
    let n := Z.to_nat (4 * NUM_SERVERS / sz_po_seq_pair) in
    ret (take n zero_pairs ++ drop n stack_pairs).

(** Whether requests of server [i] are certified here that the other lacks and that
    no slot has made eligible. *)
Definition lacks_certified (m : catchup_request) (eligible : list po_seq_pair) (i : Z) : M bool :=
  e <- po ;;
  theirs <- or_oob (aget (cr_po_aru m) (i - 1)) ;;
  elig <- or_oob (aget eligible (i - 1)) ;;
  cum <- at_server (cum_aru e) i ;;
  ret ((PRE_ORDER_Seq_Compare theirs cum <? 0) && (PRE_ORDER_Seq_Compare elig cum <? 0)).

Fixpoint lacks_any (m : catchup_request) (eligible : list po_seq_pair) (servers : list Z) : M bool :=
  match servers with
  | [] => ret false
  | i :: servers =>
      b <- lacks_certified m eligible i ;;
      if b : bool then ret true else lacks_any m eligible servers
  end.

Definition CATCH_Can_Help_Catchup (m : catchup_request) : M bool :=
  r <- get ;;
  if cr_aru m <? ARU r then ret true else
  if ARU r <? cr_aru m then ret false else
  eligible <- last_eligible ;;
  lacks <- lacks_any m eligible (seqZ 1 NUM_SERVERS) ;;
  if lacks : bool then ret true else
  e <- po ;;
  if ARU r =? 0 then
    st <- at_server (recovery_status e) (cr_machine_id m) ;;
    ret (st =? PR_RECOVERY)
  else ret false.

(** A certificate that is not signed goes through the queue, to this replica too. *)
Definition send_po_cert (server_id : Z) (ps : po_seq_pair) (sender : Z) : M unit :=
  slot <- UTIL_Get_PO_Slot_If_Exists server_id ps ;;
  match slot with
  | None => raise AssertFailure
  | Some slot =>
      match po_cert slot with
      | None => raise (if signed_po_cert slot then OutOfBounds else AssertFailure)
      | Some c =>
          catch_send (if signed_po_cert slot then Po_Cert_Sent sender c
                      else Po_Cert_Pending (UTIL_Bitmap_Set (UTIL_Bitmap_Set 0 (My_Server_ID VAR)) sender) c)
      end
  end.

Definition send_ord_cert (slot : ord_slot) (sender : Z) : M unit :=
  match ord_certificate slot with
  | None => raise (if signed_ord_cert slot then OutOfBounds else AssertFailure)
  | Some c =>
      catch_send (if signed_ord_cert slot then Ord_Cert_Sent sender c
                  else Ord_Cert_Pending (UTIL_Bitmap_Set (UTIL_Bitmap_Set 0 (My_Server_ID VAR)) sender) c)
  end.

(** The requests of one server, but those [theirs] covers. *)
Fixpoint send_po_certs (server_id inc : Z) (theirs : po_seq_pair) (sender : Z) (js : list Z) : M unit :=
  match js with
  | [] => ret tt
  | j :: js =>
      (if 0 <=? PRE_ORDER_Seq_Compare theirs (mkPS inc j) then ret tt else send_po_cert server_id (mkPS inc j) sender) ;;;
      send_po_certs server_id inc theirs sender js
  end.

(** The requests a slot made eligible; [i]: the server of the first pair. *)
Fixpoint send_made_eligible (sender i : Z) (l : list (po_seq_pair * po_seq_pair)) (theirs : list po_seq_pair) : M unit :=
  match l, theirs with
  | [], _ => ret tt
  | (prev, cur) :: l, t :: theirs =>
      assert_ (0 <=? PRE_ORDER_Seq_Compare cur prev) ;;;
      let first := if incarnation prev <? incarnation cur then 0 else seq_num prev in
      let inc := if incarnation prev <? incarnation cur then incarnation cur else incarnation prev in
      js <- counting_up (wrap32 (first + 1)) (seq_num cur) ;;
      send_po_certs i inc t sender js ;;;
      send_made_eligible sender (i + 1) l theirs
  | _ :: _, [] => raise OutOfBounds
  end.

(** [true] when all slots were sent: there are no answers for slots that a view
    change filled. *)
Fixpoint send_slots (m : catchup_request) (seqs : list Z) : M bool :=
  match seqs with
  | [] => ret true
  | i :: seqs =>
      slot <- UTIL_Get_ORD_Slot_If_Exists i ;;
      match slot with
      | None => raise AssertFailure
      | Some slot =>
          if negb (slot_type slot =? SLOT_COMMIT) then ret false else
          send_made_eligible (cr_machine_id m) 1
            (zip (c_last_executed (complete_pre_prepare slot)) (made_eligible slot)) (cr_po_aru m) ;;;
          send_ord_cert slot (cr_machine_id m) ;;;
          send_slots m seqs
      end
  end.

(** Certified requests beyond the last slot. *)
Fixpoint send_unordered (m : catchup_request) (eligible : list po_seq_pair) (servers : list Z) : M unit :=
  match servers with
  | [] => ret tt
  | i :: servers =>
      lacks <- lacks_certified m eligible i ;;
      (if lacks : bool then
         e <- po ;;
         theirs <- or_oob (aget (cr_po_aru m) (i - 1)) ;;
         elig <- or_oob (aget eligible (i - 1)) ;;
         cum <- at_server (cum_aru e) i ;;
         let ps := if 0 <=? PRE_ORDER_Seq_Compare theirs elig then theirs else elig in
         let ps := if incarnation ps <? incarnation cum then mkPS (incarnation cum) 0 else ps in
         js <- counting_up (wrap32 (seq_num ps + 1)) (seq_num cum) ;;
         send_po_certs i (incarnation ps) (mkPS 0 0) (cr_machine_id m) js
       else ret tt) ;;;
      send_unordered m eligible servers
  end.

(** The certificate of the last slot, signed first if it is not; then the batch is
    made, which hands this replica its own certificate back. *)
Definition own_certificate : M (option ord_certificate_mess) :=
  r <- get ;;
  if 0 <? ARU r then
    slot <- UTIL_Get_ORD_Slot_If_Exists (ARU r) ;;
    match slot with
    | None => raise AssertFailure
    | Some slot =>
        match ord_certificate slot with
        | None => raise (if signed_ord_cert slot then OutOfBounds else AssertFailure)
        | Some c =>
            (if signed_ord_cert slot then ret tt else
               catch_send (Ord_Cert_Pending (UTIL_Bitmap_Set 0 (My_Server_ID VAR)) c) ;;;
               catch_send Batch_Made ;;;
               upd (ARU r) (with_ord_certificate c true)) ;;;
            ret (Some c)
        end
    end
  else ret None.

Definition CATCH_Construct_Jump (sender_nonce : Z) : M jump :=
  r <- get ;;
  cert <- own_certificate ;;
  ret (mkJump (My_Server_ID VAR) (new_incarnation_val r) (ARU r) sender_nonce (proposal_digest r)
         (vector_of (installed_incarnations r)) cert (reset_certificate r)).

Definition send_jump (m : catchup_request) : M unit :=
  j <- CATCH_Construct_Jump (cr_nonce m) ;;
  catch_send (Jump_Pending (UTIL_Bitmap_Set 0 (cr_machine_id m)) j).

(** [false]: one that is newer is stored. *)
Definition store_request_of (m : catchup_request) : M bool :=
  r <- get ;;
  if negb (OPENSSL_RSA_Digests_Equal (proposal_digest r) (cr_proposal_digest m)) then ret true else
  c <- catch ;;
  stored <- or_oob (aget (last_catchup_request c) (cr_machine_id m)) ;;
  if match stored with Some old => CATCH_Compare_Catchup_Request m old <? 0 | None => false end then ret false else
  l <- or_oob (aset (last_catchup_request c) (cr_machine_id m) (Some m)) ;;
  catch_update (put_requests l (sent_catchup_request c)) ;;;
  ret true.

(** A replica within the history is sent what it lacks. *)
Definition send_certificates (m : catchup_request) : M unit :=
  r <- get ;;
  seqs <- counting_up (wrap32 (cr_aru m + 1)) (ARU r) ;;
  all <- send_slots m seqs ;;
  if negb all then ret tt else
  eligible <- last_eligible ;;
  send_unordered m eligible (seqZ 1 NUM_SERVERS).

(** Whether the answer is a Jump. *)
Definition too_far_behind (r : state) (m : catchup_request) : bool :=
  let next := wrap32 (cr_aru m + 1) in
  (cr_flag m =? FLAG_JUMP) || (cr_flag m =? FLAG_RECOVERY)
  || ((cr_flag m =? FLAG_PERIODIC) && (next <? stable_catchup r))
  || ((CATCHUP_HISTORY <? ARU r) && (next <? wrap32 (ARU r - CATCHUP_HISTORY))).

Definition CATCH_Process_Catchup_Request (m : catchup_request) : M unit :=
  let sender := cr_machine_id m in
  if sender =? My_Server_ID VAR then ret tt else
  newest <- store_request_of m ;;
  if negb newest then ret tt else
  now <- E_get_time clock ;;
  c <- catch ;;
  next_time <- or_oob (aget (next_catchup_time c) sender) ;;
  if now <=? next_time then ret tt else
  r <- get ;;
  e <- po ;;
  st <- at_server (recovery_status e) sender ;;
  if negb (OPENSSL_RSA_Digests_Equal (proposal_digest r) (cr_proposal_digest m))
     && negb (cr_flag m =? FLAG_RECOVERY) && negb (st =? PR_RECOVERY) then
    send_jump m ;;;
    set_catchup_time sender (now + CATCHUP_PERIOD)
  else
  help <- CATCH_Can_Help_Catchup m ;;
  if negb help then ret tt else
  let next := wrap32 (cr_aru m + 1) in
  let window := if ARU r <? CATCHUP_HISTORY then ARU r else CATCHUP_HISTORY in
  if (cr_flag m =? FLAG_CATCHUP) && (wrap32 (ARU r - window) <=? next) && (next <? stable_catchup r) then ret tt else
  set_catchup_time sender (now + CATCHUP_PERIOD) ;;;
  if too_far_behind r m then
    send_jump m ;;;
    if st =? PR_RECOVERY then PR_Send_Pending_State VAR sender (cr_nonce m) else ret tt
  else send_certificates m.

(** ** The certificate of a slot *)
(** [cert_complete_pp]: what the Pre-Prepare does not hold of the matrix is what was
    in [unset]. *)
Definition certified_pre_prepare (unset : list byte) (view : Z) (pp : pre_prepare_mess) : M complete_pre_prepare_message :=
  src <- load_bytes (pp_cum_acks pp) 0 (sz_po_aru_signed_message * pp_num_acks pp) ;;
  if matrix_bytes <? Z.of_nat (length src) then raise OutOfBounds else
  ret (mkComplete (pp_seq_num pp) view (pp_proposal_digest pp) (pp_last_executed pp) (src ++ drop (length src) unset)).

(** The next slot was ordered in a later view than the last one executed, and the
    replica has not ordered in that view. *)
Definition switches_view (c : ord_certificate_mess) : M bool :=
  r <- get ;;
  slot <- UTIL_Get_ORD_Slot_If_Exists (wrap32 (oc_seq_num c - 1)) ;;
  let entering := (View r =? oc_view c) && negb (view_change_done r) in
  ret (((oc_seq_num c =? 1) && ((View r <? oc_view c) || entering))
       || match slot with
          | Some slot => (ARU r =? slot_seq_num slot) && (slot_view slot <? oc_view c)
                         && ((View r =? slot_view slot) || entering)
          | None => false
          end).

(** The loop over the table of the slots. *)
Fixpoint erase_slots (erased : ord_slot -> bool) (seqs : list Z) : M unit :=
  match seqs with
  | [] => ret tt
  | i :: seqs =>
      slot <- the_slot i ;;
      (if erased slot then ORDER_Garbage_Collect_ORD_Slot i else ret tt) ;;;
      erase_slots erased seqs
  end.

Definition slot_keys : M (list Z) := r <- get ;; ret (slot_order (map fst (map_to_list (History r)))).

Definition initialize_upon_view_change : M unit :=
  SUSPECT_Initialize_Upon_View_Change clock VAR ;;;
  vc_update (fun d => put_RB (RB_Initialize_Upon_View_Change (RB d)) d) ;;;
  VIEW_Initialize_Upon_View_Change ;;;
  CATCH_Reset_View_Change_Catchup.

Definition enter_view (c : ord_certificate_mess) : M unit :=
  r <- get ;;
  keys <- slot_keys ;;
  erase_slots (fun slot => (oc_seq_num c <=? slot_seq_num slot) && (slot_view slot <=? View r)) keys ;;;
  modify (fun r => set_view (oc_view c) (view_change_done r) r) ;;;
  modify ORDER_Adjust_High_Prepared ;;;
  modify ORDER_Adjust_ppARU ;;;
  initialize_upon_view_change ;;;
  modify (fun r => set_view (View r) true r).

(** A slot with another Pre-Prepare is dropped and made anew. *)
Definition drop_other_content (seq : Z) (pp : pre_prepare_mess) : M unit :=
  slot <- the_slot seq ;;
  if negb (collected_all_parts slot) then ret tt else
  cert_pp <- certified_pre_prepare stack_matrix (pp_view pp) pp ;;
  if OPENSSL_RSA_Digests_Equal (complete_digest (complete_pre_prepare slot)) (complete_digest cert_pp) then ret tt else
  ORDER_Garbage_Collect_ORD_Slot seq ;;;
  UTIL_Get_ORD_Slot seq ;;;
  ret tt.

Fixpoint process_commits (l : list vote) : M unit :=
  match l with
  | [] => ret tt
  | v :: l => ORDER_Process_Commit VAR v ;;; process_commits l
  end.

(** The slot takes the vector of the first Commit; then the messages are processed. *)
Definition process_certificate (c : ord_certificate_mess) : M unit :=
  let seq := oc_seq_num c in
  slot <- UTIL_Get_ORD_Slot seq ;;
  if snapshot slot then ret tt else
  drop_other_content seq (oc_pre_prepare c) ;;;
  first <- or_oob (oc_commits c !! 0%nat) ;;
  upd seq (adopt_certificate (v_preinstalled first)) ;;;
  ORDER_Process_Pre_Prepare VAR (oc_pre_prepare c) ;;;
  process_commits (take (Z.to_nat (2 * VF VAR + VK VAR + 1)) (oc_commits c)) ;;;
  (if Z.of_nat (length (oc_commits c)) <? 2 * VF VAR + VK VAR + 1 then raise OutOfBounds else ret tt) ;;;
  put_off_attempt.

(** This replica's own certificate comes back signed. *)
Definition store_own_ord_cert (c : ord_certificate_mess) : M unit :=
  slot <- UTIL_Get_ORD_Slot_If_Exists (oc_seq_num c) ;;
  match slot with
  | None => raise AssertFailure
  | Some slot =>
      if signed_ord_cert slot then ret tt else
      if bool_decide (is_Some (ord_certificate slot)) then upd (oc_seq_num c) (with_ord_certificate c true)
      else raise OutOfBounds
  end.

Definition CATCH_Process_ORD_Certificate (c : ord_certificate_mess) : M unit :=
  if oc_machine_id c =? My_Server_ID VAR then store_own_ord_cert c else
  r <- get ;;
  if negb (OPENSSL_RSA_Digests_Equal (pp_proposal_digest (oc_pre_prepare c)) (proposal_digest r)) then ret tt else
  if negb (oc_type c =? SLOT_COMMIT) then ret tt else
  if oc_seq_num c <=? ARU r then ret tt else
  slot <- UTIL_Get_ORD_Slot_If_Exists (oc_seq_num c) ;;
  if match slot with Some slot => ordered slot | None => false end then ret tt else
  switch <- switches_view c ;;
  (if switch : bool then enter_view c else ret tt) ;;;
  process_certificate c.

(** ** The certificate of a PO-Request *)
Definition store_own_po_cert (c : po_certificate_mess) : M unit :=
  slot <- UTIL_Get_PO_Slot_If_Exists (pc_server c) (pc_seq c) ;;
  match slot with
  | None => raise AssertFailure
  | Some slot =>
      if signed_po_cert slot then ret tt else
      if bool_decide (is_Some (po_cert slot))
      then put_po_slot (mkPoId (pc_server c) (pc_seq c)) (with_po_cert c true slot) else raise OutOfBounds
  end.

(** The first request of a later incarnation shows that its server has recovered. *)
Definition preinstall_certified (server : Z) (seq : po_seq_pair) : M unit :=
  r <- get ;;
  pre <- at_server (preinstalled_incarnations r) server ;;
  if (pre <? incarnation seq) && (seq_num seq =? 1) then
    l <- or_oob (aset (preinstalled_incarnations r) server (incarnation seq)) ;;
    modify (set_preinstalled l) ;;;
    set_server max_acked with_max_acked server (mkPS (incarnation seq) 0) ;;;
    set_server aru with_aru server (mkPS (incarnation seq) 0)
  else ret tt.

(** [l[i] = x] for the servers with a PO-Ack. *)
Definition clear_acked {A} (acks : list (option po_ack_mess)) (x : A) (l : list A) : list A :=
  imap (fun i y => match acks !! i with Some (Some _) => if (0 <? Z.of_nat i) then x else y | _ => y end) l.

(** Another request than the certificate's is dropped, and all PO-Acks; the vector of
    the first PO-Ack becomes the slot's. *)
Definition adopt_po_certificate (req : list byte) (vector : list Z) (slot : po_slot) : po_slot :=
  let slot := if bool_decide (is_Some (po_request slot))
                 && negb (OPENSSL_RSA_Digests_Equal (make_digest req) (po_request_digest slot))
              then drop_request slot else slot in
  let slot := take_snapshot (take 1 (po_snapshot_vector slot) ++ vector) slot in
  store_ack (clear_acked (acks slot) false (ack_received slot)) (clear_acked (acks slot) None (acks slot))
    (clear_acked (acks slot) None (ack_parts slot)) slot.

(** Of each PO-Ack, the first part for the request. *)
Fixpoint process_first_parts (originator : Z) (seq : po_seq_pair) (l : list po_ack_mess) : M unit :=
  match l with
  | [] => ret tt
  | a :: l =>
      match List.find (fun p => (part_originator p =? originator) && (PRE_ORDER_Seq_Compare (part_seq p) seq =? 0)) (ak_parts a) with
      | Some part => PRE_ORDER_Process_PO_Ack_Part VAR part a
      | None => ret tt
      end ;;;
      process_first_parts originator seq l
  end.

Definition CATCH_Process_PO_Certificate (c : po_certificate_mess) : M unit :=
  if pc_machine_id c =? My_Server_ID VAR then store_own_po_cert c else
  e <- po ;;
  cum <- at_server (cum_aru e) (pc_server c) ;;
  if PRE_ORDER_Seq_Compare (pc_seq c) cum <=? 0 then ret tt else
  slot <- UTIL_Get_PO_Slot (pc_server c) (pc_seq c) ;;
  if po_snapshot slot then ret tt else
  preinstall_certified (pc_server c) (pc_seq c) ;;;
  first <- or_oob (pc_acks c !! 0%nat) ;;
  put_po_slot (mkPoId (pc_server c) (pc_seq c)) (adopt_po_certificate (pc_request c) (ak_preinstalled first) slot) ;;;
  PRE_ORDER_Process_PO_Request VAR (pc_request c) ;;;
  machine_id <- load (pc_request c) 4 o_signed_message_machine_id ;;
  seq <- load_pair (pc_request c) (sz_signed_message + o_po_request_message_seq) ;;
  process_first_parts machine_id seq (take (Z.to_nat (2 * VF VAR + VK VAR + 1)) (pc_acks c)) ;;;
  (if Z.of_nat (length (pc_acks c)) <? 2 * VF VAR + VK VAR + 1 then raise OutOfBounds else ret tt) ;;;
  put_off_attempt.

(** ** Jumping ahead *)
(** The slot that is jumped to, as an executed one. *)
Definition fill_jumped (c : ord_certificate_mess) (pp : complete_pre_prepare_message) (parts : list bool)
    (msgs : list (option pre_prepare_mess)) (vector : list Z) (eligible : list po_seq_pair) (s : ord_slot) : ord_slot :=
  let tp := pp_total_parts (oc_pre_prepare c) in
  {| slot_seq_num := slot_seq_num s; slot_view := oc_view c; slot_type := oc_type c;
     pre_prepare_parts := parts; pre_prepare_parts_msg := msgs; total_parts := tp;
     num_parts_collected := tp; collected_all_parts := true; complete_pre_prepare := pp;
     sent_prepare := true; sent_commit := true; forwarded_pre_prepare_parts := forwarded_pre_prepare_parts s;
     num_forwarded_parts := tp; prepare := prepare s; commit := commit s;
     ordered := true; executed := true; prepare_certificate_ready := prepare_certificate_ready s;
     prepare_certificate := prepare_certificate s; commit_certificate := commit_certificate s; reconciled := true;
     made_eligible := eligible; populated_eligible := true;
     preinstalled_snapshot := take 1 (preinstalled_snapshot s) ++ vector; snapshot := true;
     num_remaining_for_execution := num_remaining_for_execution s; po_slot_list := po_slot_list s;
     ord_certificate := ord_certificate s; signed_ord_cert := signed_ord_cert s |}.

(** Another replica's certificate as this one's own; its signature is cleared. *)
Definition repurpose (r : state) (c : ord_certificate_mess) : ord_certificate_mess :=
  mkOrdCert (My_Server_ID VAR) (new_incarnation_val r) (oc_view c) (oc_seq_num c) (oc_type c)
    (oc_pre_prepare c) (oc_commits c).

Definition raise_lines (r : state) : state :=
  let r := if forwarding_white_line r <? ARU r then set_forwarding_white_line (ARU r) r else r in
  if recon_white_line r <? ARU r then set_recon_line (ARU r) r else r.

(** The part of [CATCH_Jump_Ahead] on the slots, which gives the Pre-Prepare. *)
Definition jump_slots (c : ord_certificate_mess) : M complete_pre_prepare_message :=
  keys <- slot_keys ;;
  erase_slots (fun slot => negb ((oc_seq_num c <? slot_seq_num slot) && (oc_seq_num c <=? slot_view slot))) keys ;;;
  modify (fun r => set_view (if View r <? oc_view c then oc_view c else View r) (view_change_done r) r) ;;;
  modify (set_ARU (oc_seq_num c)) ;;;
  modify ORDER_Adjust_High_Committed ;;;
  modify ORDER_Adjust_High_Prepared ;;;
  modify ORDER_Adjust_ppARU ;;;
  modify (fun r => if stable_catchup r <? ARU r then set_stable (ARU r) r else r) ;;;
  slot <- UTIL_Get_ORD_Slot (oc_seq_num c) ;;
  let mess := oc_pre_prepare c in
  parts <- or_oob (aset (pre_prepare_parts slot) 1 true) ;;
  msgs <- or_oob (aset (pre_prepare_parts_msg slot) 1 (Some mess)) ;;
  pp <- certified_pre_prepare (zeros matrix_bytes) (oc_view c) mess ;;
  let pp := mkComplete (oc_seq_num c) (c_view pp) (c_proposal_digest pp) (c_last_executed pp) (c_cum_acks pp) in
  first <- or_oob (oc_commits c !! 0%nat) ;;
  eligible <- compute_eligible VAR (c_cum_acks pp) (c_last_executed pp) ;;
  r <- get ;;
  upd (oc_seq_num c) (fun s => with_ord_certificate (repurpose r c) (signed_ord_cert s)
    (fill_jumped c pp parts msgs (v_preinstalled first) eligible s)) ;;;
  modify raise_lines ;;;
  ORDER_Update_Forwarding_White_Line ;;;
  RECON_Update_Recon_White_Line ;;;
  ret pp.

(** [DATA.PO.field[i]] is raised to [ps]. *)
Definition raise_at (field : po_data (R := vc_data) -> list po_seq_pair) (put_field : list po_seq_pair -> po_data (R := vc_data) -> po_data)
    (i : Z) (ps : po_seq_pair) : M unit :=
  e <- po ;;
  old <- at_server (field e) i ;;
  set_server field put_field i (raise_to ps old).

(** PO-Requests of a server that are jumped over. *)
Fixpoint erase_requests (i : Z) (ps : po_seq_pair) (keys : list po_seq_pair) : M unit :=
  match keys with
  | [] => ret tt
  | key :: keys =>
      e <- po ;;
      slot <- or_oob (PO_History e !! mkPoId i key) ;;
      let seq := slot_seq slot in
      (if 0 <? PRE_ORDER_Seq_Compare seq ps then ret tt else
       (if (i =? My_Server_ID VAR) && (PRE_ORDER_Seq_Compare (po_seq_executed e) seq <? 0)
        then po_update (with_po_seq_executed seq) else ret tt) ;;;
       PRE_ORDER_Garbage_Collect_PO_Slot i seq false ;;;
       po_update (fun e => with_PO_History (delete (mkPoId i key) (PO_History e)) e)) ;;;
      erase_requests i ps keys
  end.

(** What is behind the request [ps] of server [i] counts as executed. *)
Definition jump_server (i : Z) (ps : po_seq_pair) : M unit :=
  r <- get ;;
  sent <- or_oob (aset (max_num_sent_in_proof r) i ps) ;;
  modify (set_max_num_sent sent) ;;;
  raise_at max_acked with_max_acked i ps ;;;
  raise_at aru with_aru i ps ;;;
  e <- po ;;
  cum <- at_server (cum_aru e) i ;;
  (if 0 <? PRE_ORDER_Seq_Compare ps cum
   then set_server cum_aru with_cum_aru i ps ;;; po_update (with_cum_aru_updated true) else ret tt) ;;;
  last <- at_server (last_executed_po_reqs e) i ;;
  (if 0 <? PRE_ORDER_Seq_Compare ps last then
     (if (incarnation last <? incarnation ps) && (0 <? seq_num ps) then install_incarnation VAR i ps else ret tt) ;;;
     set_server last_executed_po_reqs with_last_executed_po_reqs i ps
   else ret tt) ;;;
  po_update (fun e => with_PO_Pending
    (filter (fun x => negb (po_server_id (fst x) =? i) || (0 <? PRE_ORDER_Seq_Compare (po_pair (fst x)) ps)) (PO_Pending e)) e) ;;;
  e <- po ;;
  erase_requests i ps (hash_order (keys_of i (PO_History e))) ;;;
  raise_at white_line with_white_line i ps.

Fixpoint jump_servers (i : Z) (l : list po_seq_pair) : M unit :=
  match l with
  | [] => ret tt
  | ps :: l => jump_server i ps ;;; jump_servers (i + 1) l
  end.

(** The view change that the replica was in is over for it. *)
Definition leave_view_change : M unit :=
  E_dequeue SUSPECT_New_Leader_Timer ;;;
  E_dequeue SUSPECT_New_Leader_Proof_Timer ;;;
  E_dequeue RB_Retrans_Timer ;;;
  E_dequeue VIEW_Retrans_Timer ;;;
  modify (fun r => set_view (View r) true r) ;;;
  po_update (with_executed_ord 1).

(** A leader proposes what follows. *)
Definition resume_leading : M unit :=
  r <- get ;;
  if UTIL_I_Am_Leader VAR (View r) && view_change_done r then
    modify (fun r => set_next_seq (wrap32 (ARU r + 1)) (set_should_send_pp true r)) ;;;
    queued <- E_in_queue ORDER_Timer ;;
    if queued : bool then ret tt else E_queue ORDER_Timer 0
  else ret tt.

Definition CATCH_Jump_Ahead (c : ord_certificate_mess) : M unit :=
  catch_update (fun d => put_round (catchup_in_progress d) (force_jump d) (starting_catchup_id d)
                           (CATCH_Advance_Catchup_ID (next_catchup_id d)) d) ;;;
  r <- get ;;
  let view_updated := View r <? oc_view c in
  pp <- jump_slots c ;;
  slot <- the_slot (oc_seq_num c) ;;
  jump_servers 1 (made_eligible slot) ;;;
  po_update (fun e => if wrap32 (seq_num (po_seq e) - seq_num (po_seq_executed e)) <? MAX_PO_IN_FLIGHT
                      then with_reading_clients true e else e) ;;;
  process_rows VAR (c_cum_acks pp) (seqZ 1 NUM_SERVERS) ;;;
  PRE_ORDER_Send_PO_ARU VAR ;;;
  ORDER_Send_Prepares VAR ;;;
  (if view_updated then initialize_upon_view_change else ret tt) ;;;
  r <- get ;;
  (if view_change_done r then ret tt
   else if oc_view c <? View r then check_complete_states VAR (seqZ 1 NUM_SERVERS) else leave_view_change) ;;;
  resume_leading ;;;
  ORDER_Attempt_To_Execute_Pending_Commits VAR.

(** A Jump of another global incarnation; f+k+1 of them reset the replica. *)
Definition note_mismatch (jm : jump) : M unit :=
  let sender := jm_machine_id jm in
  c <- catch ;;
  old <- or_oob (aget (jump_mismatch c) sender) ;;
  l <- or_oob (aset (jump_mismatch c) sender (Some jm)) ;;
  let n := if bool_decide (is_Some old) then jump_mismatch_count c else wrap32 (jump_mismatch_count c + 1) in
  catch_update (put_jump_mismatch l n) ;;;
  if VF VAR + VK VAR + 1 <=? n then PR_Reset_Prime VAR else ret tt.

(** A periodic request finds that there is something to catch up with. *)
Definition note_ahead (sender : Z) (oc : ord_certificate_mess) : M unit :=
  c <- catch ;;
  stored <- or_oob (aget (last_ord_cert c) sender) ;;
  if match stored with Some s => oc_seq_num oc <=? oc_seq_num s | None => false end then ret tt else
  l <- or_oob (aset (last_ord_cert c) sender (Some oc)) ;;
  catch_update (put_last_ord_cert l) ;;;
  CATCH_Schedule_Catchup.

Definition jump_to (cr : catchup_request) (sender : Z) (oc : ord_certificate_mess) : M unit :=
  r <- get ;;
  let near := negb (cr_flag cr =? FLAG_JUMP) && (wrap32 (oc_seq_num oc - ARU r) <=? CATCHUP_HISTORY) in
  if near && (cr_flag cr =? FLAG_CATCHUP) then ret tt else
  if near && (cr_flag cr =? FLAG_PERIODIC) then note_ahead sender oc else
  CATCH_Jump_Ahead oc ;;;
  m <- PRE_ORDER_Construct_Update VAR CLIENT_STATE_TRANSFER ;;
  PRE_ORDER_Process_Update VAR m.

Definition CATCH_Process_Jump (jm : jump) : M unit :=
  e <- po ;;
  st <- at_server (recovery_status e) (My_Server_ID VAR) ;;
  c <- catch ;;
  if (st =? PR_RECOVERY) && negb (complete_recovery_state c) then PR_Process_Jump VAR jm else
  let sender := jm_machine_id jm in
  asked <- or_oob (aget (sent_catchup_request c) sender) ;;
  match asked with
  | None => ret tt
  | Some cr =>
      if cr_flag cr =? FLAG_RECOVERY then ret tt else
      if negb (jm_acked_nonce jm =? cr_nonce cr) then ret tt else
      r <- get ;;
      if negb (OPENSSL_RSA_Digests_Equal (proposal_digest r) (jm_proposal_digest jm)) then note_mismatch jm else
      mismatch <- or_oob (aget (jump_mismatch c) sender) ;;
      if bool_decide (is_Some mismatch) then ret tt else
      if jm_seq_num jm <=? ARU r then ret tt else
      oc <- or_oob (jm_ord_certificate jm) ;;
      jump_to cr sender oc
  end.
End Catchup.
