(* ===== verification/SuspectLeader.v ===== *)
(** Suspecting the leader: [prime/src/suspect_leader.c], with the messages it
    builds ([packets.c]) and the measurements of [order.c] and [pre_order.c].

    Replicas measure how long the leader takes to put what they have sent in a
    Pre-Prepare, and how long their messages take to each other.  From what the
    others report, each works out a time the leader takes and one it may take; a
    leader that is too slow is voted out, and 2f+k+1 votes start the next view. *)
From Stdlib Require Import ZArith Lia List Bool.
From Stdlib Require Import Strings.Byte.
From stdpp Require Import base list gmap.
From S2P Require Import Prelude Memory Config Packets Crypto Utility ReliableBroadcast OrderState PreOrderState Order PreOrder Execute ViewState ViewChange.

Section SuspectLeader.
Context {crypto : Crypto} {calls : ViewCalls}.
Context (clock : nat -> Z) (VAR : server_variables).
Abbreviation M := (comp state).

(** ** The leader's turnaround times *)
(** What [PRE_ORDER_Send_Proof_Matrix] does beside sending: a challenge starts. *)
Definition challenge_started : M unit :=
  sw <- UTIL_Stopwatch_Start clock no_stopwatch ;;
  susp_update (fun s => put_tat_stopwatches (tat_stopwatches s ++ [sw]) s).

Definition note_tat (t : double) : M unit :=
  susp_update (fun s => if dlt (max_tat s) t then measured_tat t true s else s).

(** What [ORDER_Send_Prepares] does when a Pre-Prepare covers the first challenge. *)
Definition challenge_answered : M unit :=
  s <- susp ;;
  match tat_stopwatches s with
  | [] => raise OutOfBounds
  | sw :: l =>
      sw <- UTIL_Stopwatch_Stop clock sw ;;
      note_tat (UTIL_Stopwatch_Elapsed sw) ;;;
      susp_update (put_tat_stopwatches l)
  end.

Definition SUSPECT_Construct_TAT_Measure (t : double) : M vc_mess :=
  r <- get ;; UTIL_New_Signed_Message VAR (Tat_Measure (View r) t).

(** The time of the first challenge, or of the view change's, until now. *)
Definition measure_open_challenge : M unit :=
  r <- get ;;
  s <- susp ;;
  v <- view ;;
  if view_change_done r then
    match tat_stopwatches s with
    | [] => ret tt
    | sw :: l =>
        sw <- UTIL_Stopwatch_Stop clock sw ;;
        susp_update (put_tat_stopwatches (sw :: l)) ;;;
        note_tat (UTIL_Stopwatch_Elapsed sw)
    end
  else if negb (done_vc_measure v) && started_vc_measure v then
    sw <- UTIL_Stopwatch_Stop clock (vc_tat v) ;;
    view_update (put_vc_measure sw (started_vc_measure v) (done_vc_measure v)) ;;;
    note_tat (UTIL_Stopwatch_Elapsed sw)
  else ret tt.

Definition SUSPECT_TAT_Measure_Periodically : M unit :=
  measure_open_challenge ;;;
  s <- susp ;;
  sw <- UTIL_Stopwatch_Stop clock (sent_tatm_sw s) ;;
  susp_update (tat_sent (tat_max_change s) sw) ;;;
  (if tat_max_change s
      || dle (seconds SUSPECT_SEND_TATM_SEC SUSPECT_SEND_TATM_USEC) (UTIL_Stopwatch_Elapsed sw) then
     sw <- UTIL_Stopwatch_Start clock sw ;;
     susp_update (tat_sent false sw) ;;;
     m <- SUSPECT_Construct_TAT_Measure (max_tat s) ;;
     SIG_Add_To_Pending_Messages m BROADCAST
   else ret tt) ;;;
  E_queue SUSPECT_TAT_Measure_Timer SUSPECT_TAT_MEASURE_USEC.

(** ** Votes for the next view *)
Definition SUSPECT_Construct_New_Leader : M vc_mess :=
  r <- get ;; UTIL_New_Signed_Message VAR (New_Leader (wrap32 (View r + 1))).

(** The servers whose stored vote is for this view. *)
Definition votes_for_view (w : Z) (l : list (option vc_mess)) : list Z :=
  List.filter (fun i => match aget l i with
                        | Some (Some (mkVcMess _ _ (New_Leader w'))) => w' =? w
                        | _ => false
                        end) (seqZ 1 NUM_SERVERS).

(** The stored votes for the view, as sent. *)
Definition proof_votes (w : Z) (l : list (option vc_mess)) : list (Z * Z) :=
  omap (fun i => match aget l i with
                 | Some (Some (mkVcMess id _ (New_Leader w'))) => if w' =? w then Some (id, w') else None
                 | _ => None
                 end) (seqZ 1 NUM_SERVERS).

Definition SUSPECT_Construct_New_Leader_Proof : M vc_mess :=
  r <- get ;;
  s <- susp ;;
  let votes := proof_votes (View r) (new_leader s) in
  assert_ (Z.of_nat (length votes) =? vc_quorum VAR) ;;;
  UTIL_New_Signed_Message VAR (New_Leader_Proof (View r) votes).

Definition SUSPECT_New_Leader_Periodically : M unit :=
  s <- susp ;;
  mine <- or_oob (aget (new_leader s) (My_Server_ID VAR)) ;;
  match mine with
  | None => ret tt
  | Some m =>
      UTIL_Broadcast m ;;;
      E_queue SUSPECT_New_Leader_Timer (SUSPECT_NEW_LEADER_SEC * 1000000)
  end.

Definition SUSPECT_New_Leader_Proof_Periodically : M unit :=
  e <- po ;;
  if executed_ord e =? 1 then ret tt else
  s <- susp ;;
  m <- or_oob (new_leader_proof s) ;;
  SIG_Add_To_Pending_Messages m BROADCAST ;;;
  E_queue SUSPECT_New_Leader_Proof_Timer (SUSPECT_NEW_LEADER_SEC * 1000000).

(** The old leader stops ordering, and the view is the new one. *)
Definition preinstall_view (w : Z) : M unit :=
  r <- get ;;
  (if UTIL_I_Am_Leader VAR (View r) then E_dequeue ORDER_Timer else ret tt) ;;;
  modify (set_view w (view_change_done r)).

(** The proof is sent until something is ordered, and the view change begins. *)
Definition start_new_view : M unit :=
  E_dequeue SUSPECT_New_Leader_Timer ;;;
  po_update (with_executed_ord 0) ;;;
  SUSPECT_New_Leader_Proof_Periodically ;;;
  VIEW_Start_View_Change clock VAR.

Definition SUSPECT_Process_New_Leader (mess : vc_mess) : M unit :=
  match vm_body mess with
  | New_Leader w =>
      r <- get ;;
      if w <=? View r then ret tt else
      s <- susp ;;
      stored <- or_oob (aget (new_leader s) (vm_machine_id mess)) ;;
      if match stored with
         | Some (mkVcMess _ _ (New_Leader w')) => w <=? w'
         | _ => false
         end then ret tt else
      l <- or_oob (aset (new_leader s) (vm_machine_id mess) (Some mess)) ;;
      susp_update (put_new_leader l) ;;;
      if negb (Z.of_nat (length (votes_for_view w l)) =? vc_quorum VAR) then ret tt else
      preinstall_view w ;;;
      m <- SUSPECT_Construct_New_Leader_Proof ;;
      susp_update (put_new_leader_proof (Some m)) ;;;
      start_new_view
  | _ => ret tt
  end.

(** The proof becomes the replica's own. *)
Definition SUSPECT_Process_New_Leader_Proof (mess : vc_mess) : M unit :=
  match vm_body mess with
  | New_Leader_Proof w votes =>
      r <- get ;;
      if w <=? View r then ret tt else
      if Z.of_nat (length votes) <? vc_quorum VAR then raise OutOfBounds else
      if negb (forallb (fun x => snd x =? w) (take (Z.to_nat (vc_quorum VAR)) votes)) then ret tt else
      preinstall_view w ;;;
      m <- UTIL_New_Signed_Message VAR (vm_body mess) ;;
      susp_update (put_new_leader_proof (Some m)) ;;;
      start_new_view
  | _ => ret tt
  end.

(** The vote is signed, counted and broadcast. *)
Definition vote_new_leader : M unit :=
  m <- SUSPECT_Construct_New_Leader ;;
  sign_at_once m ;;;
  SUSPECT_Process_New_Leader m ;;;
  SUSPECT_New_Leader_Periodically.

Definition acceptable_time (r : state) (tat_acceptable : double) : double :=
  let t := dmul tat_acceptable VARIABILITY_KLAT in
  if view_change_done r then dadd t (dadd (double_of_Z PRE_PREPARE_SEC)
                                       (ddiv (double_of_Z PRE_PREPARE_USEC) (double_of_Z 1000000)))
  else t.

Definition SUSPECT_Suspect_Leader : M unit :=
  r <- get ;;
  s <- susp ;;
  if negb (leader_suspected r) && dlt (acceptable_time r (tat_acceptable s)) (tat_leader s) then
    modify suspect ;;;
    vote_new_leader
  else ret tt.

(** What [ORDER_Process_Pre_Prepare] does when the leader sent two Pre-Prepares. *)
Definition inconsistent_pre_prepare : M unit :=
  r <- get ;;
  if leader_suspected r then ret tt else modify suspect ;;; vote_new_leader.

(** ** What the others report *)
(** [tats[1..]] sorted: the [i]-th lowest. *)
Definition nth_lowest (l : list double) (i : Z) : M double :=
  or_oob (aget (qsort (drop 1 l)) (i - 1)).

Definition SUSPECT_Process_TAT_Measure (mess : vc_mess) : M unit :=
  match vm_body mess with
  | Tat_Measure w t =>
      r <- get ;;
      if negb (w =? View r) then ret tt else
      s <- susp ;;
      old <- or_oob (aget (reported_tats s) (vm_machine_id mess)) ;;
      l <- or_oob (aset (reported_tats s) (vm_machine_id mess) (if dlt old t then t else old)) ;;
      susp_update (put_reported_tats l) ;;;
      tl <- nth_lowest l (VF VAR + VK VAR + 1) ;;
      susp_update (put_tat_leader tl) ;;;
      SUSPECT_Suspect_Leader
  | _ => ret tt
  end.

(** ** Round trips *)
Definition SUSPECT_Construct_RTT_Ping : M vc_mess :=
  r <- get ;;
  s <- susp ;;
  susp_update (put_ping_seq_num (wrap32 (ping_seq_num s + 1))) ;;;
  UTIL_New_Signed_Message VAR (Rtt_Ping (ping_seq_num s) (View r)).

Definition vc_timeout (r : state) (usec : Z) : Z := if view_change_done r then usec else SUSPECT_VC_USEC.

Definition SUSPECT_Ping_Periodically : M unit :=
  s <- susp ;;
  let index := ping_seq_num s mod PING_HIST in
  cell <- or_oob (aget (ping_history s) index) ;;
  sw <- UTIL_Stopwatch_Start clock (ping_rtt cell) ;;
  l <- or_oob (aset (ping_history s) index (mkPing (ping_seq_num s) sw)) ;;
  susp_update (put_ping_history l) ;;;
  ping <- SUSPECT_Construct_RTT_Ping ;;
  SIG_Add_To_Pending_Messages ping BROADCAST ;;;
  r <- get ;;
  E_queue SUSPECT_Ping_Timer (vc_timeout r SUSPECT_PING_USEC).

Definition SUSPECT_Process_RTT_Ping (mess : vc_mess) : M unit :=
  match vm_body mess with
  | Rtt_Ping n w =>
      r <- get ;;
      if negb (w =? View r) then ret tt else
      pong <- UTIL_New_Signed_Message VAR (Rtt_Pong (vm_machine_id mess) n (View r)) ;;
      SIG_Add_To_Pending_Messages pong (UTIL_Bitmap_Set 0 (vm_machine_id mess))
  | _ => ret tt
  end.

Definition SUSPECT_Process_RTT_Pong (mess : vc_mess) : M unit :=
  match vm_body mess with
  | Rtt_Pong dest n w =>
      r <- get ;;
      if negb (w =? View r) || negb (dest =? My_Server_ID VAR) then ret tt else
      s <- susp ;;
      let index := n mod PING_HIST in
      cell <- or_oob (aget (ping_history s) index) ;;
      if negb (ping_seq cell =? n) then ret tt else
      sw <- UTIL_Stopwatch_Stop clock (ping_rtt cell) ;;
      l <- or_oob (aset (ping_history s) index (mkPing n sw)) ;;
      susp_update (put_ping_history l) ;;;
      m <- UTIL_New_Signed_Message VAR (Rtt_Measure (vm_machine_id mess) (View r) (UTIL_Stopwatch_Elapsed sw)) ;;
      SIG_Add_To_Pending_Messages m (UTIL_Bitmap_Set 0 (vm_machine_id mess))
  | _ => ret tt
  end.

Definition SUSPECT_TAT_UB_Periodically : M unit :=
  r <- get ;;
  s <- susp ;;
  m <- UTIL_New_Signed_Message VAR (Tat_Ub (View r) (alpha s)) ;;
  SIG_Add_To_Pending_Messages m BROADCAST ;;;
  E_queue SUSPECT_TAT_UB_Timer (vc_timeout r SUSPECT_TAT_UB_USEC).

(** The first bound below the initial one is sent at once. *)
Definition SUSPECT_Process_RTT_Measure (mess : vc_mess) : M unit :=
  match vm_body mess with
  | Rtt_Measure dest w rtt =>
      r <- get ;;
      if negb (w =? View r) || negb (dest =? My_Server_ID VAR) then ret tt else
      s <- susp ;;
      old <- or_oob (aget (tat_if_leader s) (vm_machine_id mess)) ;;
      if negb (dlt rtt old) then ret tt else
      l <- or_oob (aset (tat_if_leader s) (vm_machine_id mess) rtt) ;;
      a <- nth_lowest l (NUM_SERVER_SLOTS - (VF VAR + VK VAR + 1)) ;;
      susp_update (put_rtt l a) ;;;
      if dlt a MAX_TAT_TIME && deq (alpha s) MAX_TAT_TIME then
        E_dequeue SUSPECT_TAT_UB_Timer ;;;
        SUSPECT_TAT_UB_Periodically
      else ret tt
  | _ => ret tt
  end.

Definition SUSPECT_Process_TAT_UB (mess : vc_mess) : M unit :=
  match vm_body mess with
  | Tat_Ub w a =>
      r <- get ;;
      if negb (w =? View r) then ret tt else
      s <- susp ;;
      old <- or_oob (aget (tat_leader_ubs s) (vm_machine_id mess)) ;;
      l <- or_oob (aset (tat_leader_ubs s) (vm_machine_id mess) (if dlt a old then a else old)) ;;
      t <- nth_lowest l (NUM_SERVER_SLOTS - (VF VAR + VK VAR + 1)) ;;
      susp_update (put_ubs l (if dlt MIN_RTT t then t else MIN_RTT)) ;;;
      SUSPECT_Suspect_Leader
  | _ => ret tt
  end.

(** ** What happens *)
(** The part of [PROCESS_Message] for these messages. *)
Definition SUSPECT_PROCESS_Message (mess : vc_mess) : M unit :=
  match vm_body mess with
  | Tat_Measure _ _ => SUSPECT_Process_TAT_Measure mess
  | Rtt_Ping _ _ => SUSPECT_Process_RTT_Ping mess
  | Rtt_Pong _ _ _ => SUSPECT_Process_RTT_Pong mess
  | Rtt_Measure _ _ _ => SUSPECT_Process_RTT_Measure mess
  | Tat_Ub _ _ => SUSPECT_Process_TAT_UB mess
  | New_Leader _ => SUSPECT_Process_New_Leader mess
  | New_Leader_Proof _ _ => SUSPECT_Process_New_Leader_Proof mess
  | _ => ret tt
  end.

Definition suspect_timer (t : timer) : M unit :=
  match t with
  | SUSPECT_TAT_Measure_Timer => SUSPECT_TAT_Measure_Periodically
  | SUSPECT_Ping_Timer => SUSPECT_Ping_Periodically
  | SUSPECT_TAT_UB_Timer => SUSPECT_TAT_UB_Periodically
  | SUSPECT_New_Leader_Timer => SUSPECT_New_Leader_Periodically
  | SUSPECT_New_Leader_Proof_Timer => SUSPECT_New_Leader_Proof_Periodically
  | _ => ret tt
  end.

Inductive suspect_event :=
| Received (m : vc_mess)
| Inconsistent
| Expired (t : timer)
| Challenged
| Answered.

Definition suspect_handle (e : suspect_event) : M unit :=
  match e with
  | Received m => SUSPECT_PROCESS_Message m
  | Inconsistent => inconsistent_pre_prepare
  | Expired t => suspect_timer t
  | Challenged => challenge_started
  | Answered => challenge_answered
  end.
End SuspectLeader.
