(* ===== verification/SuspectCorrect.v ===== *)
(** The arithmetic of suspecting the leader: comparing doubles, sorting them, and
    why the k-th lowest of what the servers report lies between the reports of
    correct ones. *)
From Stdlib Require Import ZArith Lia List Bool Floats.SpecFloat Sorting.Sorted.
From Stdlib Require Import Strings.Byte.
From stdpp Require Import base list gmap fin_sets.
From S2P Require Import Prelude Memory Config Packets Crypto Utility ReliableBroadcast OrderState PreOrderState Order PreOrder Execute ViewState ViewChange SuspectLeader.

(** ** Doubles are in order *)
Definition not_nan (x : double) : Prop := x <> S754_nan.

(** A double's class and sign, exponent and significand. *)
Definition rank (x : double) : Z * Z * Z :=
  match x with
  | S754_zero _ => (0, 0, 0)
  | S754_infinity s => (if s then -2 else 2, 0, 0)
  | S754_finite s m e => if s then (-1, - e, - Zpos m) else (1, e, Zpos m)
  | S754_nan => (3, 0, 0)
  end.

Definition rank_compare (a b : Z * Z * Z) : comparison :=
  match a, b with
  | (x, y, z), (x', y', z') =>
      match x ?= x' with Eq => match y ?= y' with Eq => z ?= z' | c => c end | c => c end
  end.

Lemma SFcompare_rank x y : not_nan x -> not_nan y -> SFcompare x y = Some (rank_compare (rank x) (rank y)).
Proof.
  unfold not_nan. destruct x as [s|s| |s m e], y as [t|t| |t n f]; intros Hx Hy; try congruence;
    try destruct s; try destruct t; try reflexivity.
  cbn. rewrite (Z.compare_opp e f), (Z.compare_antisym e f).
  destruct (e ?= f); reflexivity.
Qed.

Definition rank_le (a b : Z * Z * Z) : Prop :=
  match a, b with
  | (x, y, z), (x', y', z') => x < x' \/ x = x' /\ (y < y' \/ y = y' /\ z <= z')
  end.

Lemma rank_compare_spec a b :
  match rank_compare a b with
  | Lt => rank_le a b /\ ~ rank_le b a
  | Eq => rank_le a b /\ rank_le b a
  | Gt => rank_le b a /\ ~ rank_le a b
  end.
Proof.
  destruct a as [[x y] z], b as [[x' y'] z']. cbn.
  destruct (Z.compare_spec x x'), (Z.compare_spec y y'), (Z.compare_spec z z'); subst; cbn; lia.
Qed.

Lemma rank_le_trans a b c : rank_le a b -> rank_le b c -> rank_le a c.
Proof. destruct a as [[x y] z], b as [[x' y'] z'], c as [[x'' y''] z'']. cbn. lia. Qed.

Section Order.
Context (x y z : double) (Hx : not_nan x) (Hy : not_nan y) (Hz : not_nan z).

Lemma dle_rank : dle x y = true <-> rank_le (rank x) (rank y).
Proof.
  unfold dle, SFleb. rewrite (SFcompare_rank x y Hx Hy). pose proof (rank_compare_spec (rank x) (rank y)) as H.
  destruct (rank_compare _ _); split; intros; try discriminate; tauto.
Qed.

Lemma dlt_dle : dlt x y = negb (dle y x).
Proof.
  unfold dlt, SFltb, dle, SFleb. rewrite (SFcompare_rank x y Hx Hy), (SFcompare_rank y x Hy Hx).
  pose proof (rank_compare_spec (rank x) (rank y)) as H. pose proof (rank_compare_spec (rank y) (rank x)) as H'.
  destruct (rank_compare (rank x) (rank y)), (rank_compare (rank y) (rank x)); cbn; try reflexivity; tauto.
Qed.
End Order.

Lemma dle_refl x : not_nan x -> dle x x = true.
Proof. intros H. apply dle_rank; [exact H..|]. destruct (rank x) as [[a b] c]. cbn. lia. Qed.

Lemma dle_trans x y z : not_nan x -> not_nan y -> not_nan z -> dle x y = true -> dle y z = true -> dle x z = true.
Proof. intros Hx Hy Hz. rewrite !dle_rank by assumption. apply rank_le_trans. Qed.

Lemma dle_total x y : not_nan x -> not_nan y -> dle x y = true \/ dle y x = true.
Proof.
  intros Hx Hy. rewrite !dle_rank by assumption. destruct (rank x) as [[a b] c], (rank y) as [[a' b'] c']. cbn. lia.
Qed.

(** What is compared and kept was a number. *)
Lemma dlt_numbers x y : dlt x y = true -> not_nan x /\ not_nan y.
Proof. unfold dlt, SFltb. destruct x, y; cbn; intros H; try discriminate; split; discriminate. Qed.

(** ** Sorting *)
Lemma doublecmp_gt x y : not_nan x -> not_nan y -> (0 <? doublecmp x y) = negb (dle x y).
Proof.
  intros Hx Hy. unfold doublecmp. rewrite !dlt_dle by assumption.
  destruct (dle_total x y Hx Hy) as [H|H]; revert H; destruct (dle x y), (dle y x); intros H; try discriminate; reflexivity.
Qed.

Lemma insert_double_perm x l : insert_double x l ≡ₚ x :: l.
Proof.
  induction l as [|y l IH]; cbn; [reflexivity|]. destruct (0 <? doublecmp x y); [|reflexivity].
  rewrite IH. apply perm_swap.
Qed.

Lemma qsort_perm l : qsort l ≡ₚ l.
Proof. induction l as [|x l IH]; cbn; [reflexivity|]. rewrite insert_double_perm, IH. reflexivity. Qed.

Definition dsorted (l : list double) : Prop := StronglySorted (fun a b => dle a b = true) l.

Lemma insert_double_sorted x l : not_nan x -> Forall not_nan l -> dsorted l -> dsorted (insert_double x l).
Proof.
  intros Hx. induction l as [|y l IH]; intros Hl Hs; cbn; [repeat constructor|].
  apply Forall_cons in Hl as [Hy Hl]. apply StronglySorted_inv in Hs as [Hs Hall].
  rewrite (doublecmp_gt x y Hx Hy). destruct (dle x y) eqn:E; cbn [negb].
  - constructor; [constructor; assumption|]. constructor; [exact E|].
    rewrite Forall_forall in Hall, Hl |- *. intros z Hz. eapply dle_trans; [| |apply Hl, Hz|exact E|apply Hall, Hz]; assumption.
  - constructor; [apply IH; assumption|]. rewrite insert_double_perm. constructor; [|exact Hall].
    destruct (dle_total x y Hx Hy); congruence.
Qed.

Lemma qsort_sorted l : Forall not_nan l -> dsorted (qsort l).
Proof.
  induction l as [|x l IH]; intros H; cbn; [constructor|]. apply Forall_cons in H as [Hx Hl].
  apply insert_double_sorted; [exact Hx| |apply IH, Hl]. rewrite qsort_perm. exact Hl.
Qed.

Lemma dsorted_lookup l i j x y : dsorted l -> Forall not_nan l -> (i <= j)%nat -> l !! i = Some x -> l !! j = Some y -> dle x y = true.
Proof.
  intros Hs. revert i j. induction Hs as [|z l Hs IH Hall]; intros i j Hn Hij Hi Hj; [discriminate|].
  apply Forall_cons in Hn as [Hz Hn]. destruct i as [|i], j as [|j]; cbn in Hi, Hj; [| |lia|].
  - injection Hi as <-. injection Hj as <-. apply dle_refl, Hz.
  - injection Hi as <-. rewrite Forall_forall in Hall. apply Hall, list_elem_of_lookup. eauto.
  - apply (IH i j); auto with lia.
Qed.

(** The [k]-th element of the sorted list: so many are below it, so many above. *)
Lemma count_app {A} (p : A -> bool) l1 l2 : length (List.filter p (l1 ++ l2)) = (length (List.filter p l1) + length (List.filter p l2))%nat.
Proof. rewrite List.filter_app, length_app. reflexivity. Qed.

Lemma count_all {A} (p : A -> bool) l : (forall x, x ∈ l -> p x = true) -> length (List.filter p l) = length l.
Proof.
  induction l as [|x l IH]; intros H; [reflexivity|]. cbn. rewrite (H x) by constructor. cbn. f_equal.
  apply IH. intros y Hy. apply H. constructor. exact Hy.
Qed.

Lemma count_perm {A} (p : A -> bool) l1 l2 : l1 ≡ₚ l2 -> length (List.filter p l1) = length (List.filter p l2).
Proof.
  induction 1 as [|x l1 l2 H IH|x y l|l1 l2 l3 H1 IH1 H2 IH2]; cbn; [reflexivity| | |congruence].
  - destruct (p x); cbn; congruence.
  - destruct (p x), (p y); reflexivity.
Qed.

Lemma nth_counts l k x : Forall not_nan l -> qsort l !! k = Some x ->
  (k < length (List.filter (fun y => dle y x) l))%nat /\
  (length l - k <= length (List.filter (fun y => dle x y) l))%nat.
Proof.
  intros Hn Hk. assert (Hn' : Forall not_nan (qsort l)) by (rewrite qsort_perm; exact Hn).
  pose proof (qsort_sorted l Hn) as Hs. pose proof (lookup_lt_Some _ _ _ Hk) as Hlen.
  rewrite <- !(count_perm _ _ _ (qsort_perm l)), <- (Permutation_length (qsort_perm l)).
  split.
  - rewrite <- (take_drop (S k) (qsort l)) at 1. rewrite count_app, count_all, length_take; [lia|].
    intros y Hy. apply list_elem_of_lookup in Hy as [i Hi].
    apply lookup_take_Some in Hi as [Hi Hik]. apply (dsorted_lookup (qsort l) i k); auto with lia.
  - rewrite <- (take_drop k (qsort l)) at 2. rewrite count_app, (count_all _ (drop k _)), length_drop; [lia|].
    intros y Hy. apply list_elem_of_lookup in Hy as [i Hi].
    rewrite lookup_drop in Hi. apply (dsorted_lookup (qsort l) k (k + i)); auto with lia.
Qed.

(** ** The k-th lowest of the servers' reports *)
(** The servers of [1..NUM_SERVERS] whose entry passes. *)
Definition passing (p : double -> bool) (l : list double) : list Z :=
  List.filter (fun i => match aget l i with Some y => p y | None => false end) (seqZ 1 NUM_SERVERS).

Lemma count_entries p (l pre : list double) :
  length (List.filter (fun i => match aget (pre ++ l) i with Some y => p y | None => false end)
            (seqZ (Z.of_nat (length pre)) (Z.of_nat (length l)))) = length (List.filter p l).
Proof.
  revert pre. induction l as [|y l IH]; intros pre; [reflexivity|].
  rewrite seqZ_cons by (cbn; lia). cbn [List.filter].
  assert (E : aget (pre ++ y :: l) (Z.of_nat (length pre)) = Some y).
  { unfold aget. assert (Eb : in_bounds (pre ++ y :: l) (Z.of_nat (length pre)) = true).
    { unfold in_bounds. rewrite length_app. cbn [length]. apply andb_true_iff. split; [apply Z.leb_le|apply Z.ltb_lt]; lia. }
    rewrite Eb, Nat2Z.id, lookup_app_r, Nat.sub_diag by lia. reflexivity. }
  rewrite E. specialize (IH (pre ++ [y])). rewrite length_app, <- app_assoc in IH. cbn [app length] in IH |- *.
  replace (Z.succ (Z.of_nat (length pre))) with (Z.of_nat (length pre + 1)) by lia.
  replace (Z.pred (Z.of_nat (S (length l)))) with (Z.of_nat (length l)) by lia.
  destruct (p y); cbn [length]; rewrite IH; reflexivity.
Qed.

Lemma passing_count p l : Z.of_nat (length l) = NUM_SERVER_SLOTS ->
  length (passing p l) = length (List.filter p (drop 1 l)).
Proof.
  destruct l as [|x0 l]; intros Hl; [discriminate|]. change (drop 1 (x0 :: l)) with l. rewrite <- (count_entries p l [x0]).
  unfold passing. cbn [app]. replace (Z.of_nat (length l)) with NUM_SERVERS; [reflexivity|].
  unfold NUM_SERVER_SLOTS in Hl. cbn [length] in Hl. lia.
Qed.

(** A set of servers and the ones that pass share a member when they are too many
    to be apart. *)
Lemma passing_meets p l (C : gset Z) : C ⊆ server_ids NUM_SERVERS ->
  NUM_SERVERS < Z.of_nat (size C) + Z.of_nat (length (passing p l)) ->
  exists i y, i ∈ C /\ aget l i = Some y /\ p y = true.
Proof.
  intros HC Hn. set (P := list_to_set (passing p l) : gset Z).
  assert (HP : P ⊆ server_ids NUM_SERVERS).
  { intros i Hi. apply elem_of_list_to_set, list_elem_of_In, filter_In in Hi as [Hi _].
    apply elem_of_server_ids. apply list_elem_of_In, elem_of_seqZ in Hi. lia. }
  assert (HsP : size P = length (passing p l)).
  { apply size_list_to_set. apply NoDup_ListNoDup, List.NoDup_filter, NoDup_ListNoDup, NoDup_seqZ. }
  pose proof (intersection_size _ _ _ HC HP) as H. pose proof (size_server_ids NUM_SERVERS ltac:(unfold NUM_SERVERS, NUM_F, NUM_K; lia)).
  assert (Hne : size (C ∩ P) <> 0%nat) by lia. apply size_non_empty_iff in Hne. apply set_choose in Hne as [i Hi].
  apply elem_of_intersection in Hi as [HiC HiP]. apply elem_of_list_to_set, list_elem_of_In, filter_In in HiP as [_ Hp].
  destruct (aget l i) as [y|] eqn:E; [|discriminate]. eauto.
Qed.

(** Between the reports of any [n] servers, when the [k]-th lowest is taken. *)
Lemma kth_between l k x (C : gset Z) : Z.of_nat (length l) = NUM_SERVER_SLOTS -> Forall not_nan (drop 1 l) ->
  aget (qsort (drop 1 l)) (k - 1) = Some x -> C ⊆ server_ids NUM_SERVERS ->
  NUM_SERVERS < Z.of_nat (size C) + k -> k <= Z.of_nat (size C) ->
  (exists i y, i ∈ C /\ aget l i = Some y /\ dle y x = true) /\
  (exists i y, i ∈ C /\ aget l i = Some y /\ dle x y = true).
Proof.
  intros Hl Hn Hk HC H1 H2. unfold aget in Hk. destruct (in_bounds _ _) eqn:Eb; [|discriminate].
  unfold in_bounds in Eb.
  destruct (nth_counts _ _ _ Hn Hk) as [A B]. rewrite <- (passing_count _ l Hl) in A. rewrite <- (passing_count _ l Hl) in B.
  assert (Hd : Z.of_nat (length (drop 1 l)) = NUM_SERVERS) by (rewrite length_drop; change NUM_SERVER_SLOTS with 7 in Hl; change NUM_SERVERS with 6; lia).
  split.
  - apply (passing_meets (fun y => dle y x)); [exact HC|]. lia.
  - apply (passing_meets (fun y => dle x y)); [exact HC|]. lia.
Qed.
