(* ===== verification/SuspectSystem.v ===== *)
(** What every event of suspecting the leader keeps: the gauges of a replica are
    what it heard in this view, its stored votes are as their senders signed them,
    and a view is entered on the votes of a quorum.

    [gauges_ok log r] is the invariant of the measurements, for the messages
    [log] received so far, each with the view it found; [votes_ok A r] that of the
    votes, where [A j w] says that server [j] may be taken to have voted for [w]. *)
From Stdlib Require Import ZArith Lia List Bool Floats.SpecFloat.
From Stdlib Require Import Strings.Byte.
From stdpp Require Import base list gmap fin_sets.
From S2P Require Import Prelude Memory Config Packets Crypto Utility ReliableBroadcast OrderState PreOrderState Order OrderCorrect OrderHandlers OrderFrame PreOrder PreOrderCorrect Updates Execute ViewState ViewChange SuspectLeader SuspectCorrect.

(** The data of a replica. *)
Definition SU (r : state) : suspect_leader_data := SUSP (rest (others r)).
Definition SENT (r : state) : list vc_out := vc_sent (rest (others r)).

Definition with_rest (f : vc_data -> vc_data) (r : state) : state :=
  set_others (set_rest (f (rest (others r))) (others r)) r.

(** The views it signed a vote for. *)
Definition vote_of (o : vc_out) : option Z :=
  match o with Signed (mkVcMess _ _ (New_Leader w)) => Some w | _ => None end.
Definition votes_signed (r : state) : list Z := omap vote_of (SENT r).

(** ** What is left alone *)
Definition same {A} (f : state -> A) (r r' : state) : Prop := f r' = f r.

#[export] Instance same_preorder {A} (f : state -> A) : PreOrder (same f).
Proof. split; unfold same; [intros r; reflexivity|intros r1 r2 r3; congruence]. Qed.

(** All of it; all but whether a view change is under way; the measurements and the
    votes. *)
Definition still (r : state) := (View r, leader_suspected r, SU r, votes_signed r, view_change_done r).
Definition beside (r : state) := (View r, leader_suspected r, SU r, votes_signed r).
Definition gauges (r : state) :=
  (View r, view_change_done r, leader_suspected r,
   (reported_tats (SU r), tat_leader (SU r), tat_leader_ubs (SU r), tat_acceptable (SU r)),
   (new_leader (SU r), votes_signed r)).

Section Frame.
Context {calls : ViewCalls}.
Context (F : fault -> Prop) (HF : forall f, f <> OutOfFuel -> F f).
Context (clock : nat -> Z) (VAR : server_variables).

Lemma still_beside {A} (m : comp state A) : within F (same still) m -> within F (same beside) m.
Proof. apply within_mono. unfold same, still, beside. intros r r' [= -> -> -> ->]. reflexivity. Qed.

Lemma still_gauges {A} (m : comp state A) : within F (same still) m -> within F (same gauges) m.
Proof. apply within_mono. unfold same, still, gauges. intros r r' [= -> -> -> -> ->]. reflexivity. Qed.
Hint Resolve still_beside still_gauges : frame.

Lemma within_read {A} (m : comp state A) (Rel : state -> state -> Prop) {pre : PreOrder Rel} :
  (forall r, exists a, m r = Ret (a, r)) -> within F Rel m.
Proof. intros H r. destruct (H r) as [a E]. unfold wp. rewrite E. reflexivity. Qed.

Section Reads.
Context (Rel : state -> state -> Prop) {pre : PreOrder Rel}.
Lemma within_vc : within F Rel vc.
Proof. apply (within_read _ _). intros r. eexists. reflexivity. Qed.
Lemma within_susp : within F Rel susp.
Proof. apply (within_read _ _). intros r. eexists. reflexivity. Qed.
Lemma within_view : within F Rel view.
Proof. apply (within_read _ _). intros r. eexists. reflexivity. Qed.
Lemma within_signed b : within F Rel (UTIL_New_Signed_Message VAR b).
Proof. apply (within_read _ _). intros r. eexists. reflexivity. Qed.
End Reads.
Hint Resolve within_vc within_susp within_view within_signed : frame.

Lemma still_vc_update f :
  (forall d, SUSP (f d) = SUSP d /\ omap vote_of (vc_sent (f d)) = omap vote_of (vc_sent d)) ->
  within F (same still) (vc_update f).
Proof.
  intros H. apply within_modify. intros r. destruct (H (rest (others r))) as [E1 E2].
  unfold same, still, SU, votes_signed, SENT. cbn. rewrite E1, E2. reflexivity.
Qed.

Lemma still_view_update f : within F (same still) (view_update f).
Proof. apply still_vc_update. auto. Qed.

Lemma still_out o : vote_of o = None -> within F (same still) (out o).
Proof.
  intros H. apply still_vc_update. intros d. split; [reflexivity|]. cbn. rewrite omap_app. cbn.
  rewrite H. apply app_nil_r.
Qed.

Lemma still_get_time : within F (same still) (E_get_time clock).
Proof. intros r. reflexivity. Qed.

Lemma still_dequeue t : within F (same still) (E_dequeue t).
Proof. apply still_vc_update. auto. Qed.

Lemma still_queue t usec : within F (same still) (E_queue t usec).
Proof. apply within_bind; [typeclasses eauto|apply still_dequeue|intros _]. apply still_vc_update. auto. Qed.

Lemma still_po_update f : (forall e, rest (f e) = rest e) -> within F (same still) (po_update f).
Proof.
  intros H. apply within_modify. intros r. unfold same, still, SU, votes_signed, SENT. cbn. rewrite H. reflexivity.
Qed.
Hint Resolve still_view_update still_get_time still_dequeue still_queue : frame.
Hint Extern 1 (within _ _ (out _)) => apply still_out; reflexivity : frame.
Hint Extern 1 (within _ _ (vc_update _)) => apply still_vc_update; auto : frame.
Hint Extern 1 (within _ _ (po_update _)) => apply still_po_update; reflexivity : frame.

Lemma still_start sw : within F (same still) (UTIL_Stopwatch_Start clock sw).
Proof. unfold UTIL_Stopwatch_Start. walk. Qed.
Lemma still_stop sw : within F (same still) (UTIL_Stopwatch_Stop clock sw).
Proof. unfold UTIL_Stopwatch_Stop. walk. Qed.
Lemma still_pending m d : within F (same still) (SIG_Add_To_Pending_Messages m d).
Proof. unfold SIG_Add_To_Pending_Messages. walk. Qed.
Lemma still_broadcast m : within F (same still) (UTIL_Broadcast m).
Proof. unfold UTIL_Broadcast. walk. Qed.
Hint Resolve still_start still_stop still_pending still_broadcast : frame.

(** ** The start of a view *)
Definition fresh (s : suspect_leader_data) : Prop :=
  tat_leader s = dzero /\ alpha s = MAX_TAT_TIME /\ tat_acceptable s = MAX_TAT_TIME /\
  drop 1 (reported_tats s) = repeat dzero (Z.to_nat NUM_SERVERS) /\
  drop 1 (tat_leader_ubs s) = repeat MAX_TAT_TIME (Z.to_nat NUM_SERVERS) /\
  drop 1 (new_leader s) = repeat None (Z.to_nat NUM_SERVERS).

Definition sizes_ok (s : suspect_leader_data) : Prop :=
  Z.of_nat (length (reported_tats s)) = NUM_SERVER_SLOTS /\
  Z.of_nat (length (tat_leader_ubs s)) = NUM_SERVER_SLOTS /\
  Z.of_nat (length (new_leader s)) = NUM_SERVER_SLOTS.

Lemma drop_for_each {A} (x : A) l : Z.of_nat (length l) = NUM_SERVER_SLOTS ->
  drop 1 (for_each_server x l) = repeat x (Z.to_nat NUM_SERVERS) /\
  Z.of_nat (length (for_each_server x l)) = NUM_SERVER_SLOTS.
Proof. destruct l as [|y l]; [discriminate|]. intros _. split; reflexivity. Qed.

Lemma wp_initialize (r : state) : sizes_ok (SU r) ->
  wp F (SUSPECT_Initialize_Upon_View_Change clock VAR)
    (fun _ t => View t = View r /\ leader_suspected t = false /\ votes_signed t = votes_signed r /\
                view_change_done t = view_change_done r /\ sizes_ok (SU t) /\ fresh (SU t)) r.
Proof.
  intros (L1 & L2 & L3). destruct (drop_for_each dzero _ L1) as [D1 K1].
  destruct (drop_for_each MAX_TAT_TIME _ L2) as [D2 K2]. destruct (drop_for_each None _ L3) as [D3 K3].
  unfold SUSPECT_Initialize_Upon_View_Change. apply wp_bind. unfold susp, vc, po. cbn -[for_each_server aset].
  unfold wp. cbn -[for_each_server aset or_oob]. destruct (aset _ _ _) as [rtts|]; cbn -[for_each_server]; [|apply HF; discriminate].
  unfold sizes_ok, fresh, SU, votes_signed, SENT in *. cbn -[for_each_server]. auto 15.
Qed.

Lemma beside_broadcast_own l : within F (same beside) (broadcast_own VAR l).
Proof. unfold broadcast_own. walk. Qed.
Hint Resolve beside_broadcast_own : frame.

Lemma beside_partial_sigs keys h : within F (same beside) (broadcast_partial_sigs VAR keys h).
Proof. induction keys; cbn [broadcast_partial_sigs]; walk. Qed.
Hint Resolve beside_partial_sigs : frame.

Lemma beside_periodic : within F (same beside) (VIEW_Periodic_Retrans VAR).
Proof. unfold VIEW_Periodic_Retrans. walk. Qed.

Lemma beside_resend l : within F (same beside) (resend_all l).
Proof. induction l; cbn [resend_all]; walk. Qed.
Hint Resolve beside_resend : frame.

Lemma beside_rb : within F (same beside) (RB_Retrans VAR).
Proof. unfold RB_Retrans. walk. Qed.

Lemma beside_restart : within F (same beside) SUSPECT_Restart_Timed_Functions.
Proof. unfold SUSPECT_Restart_Timed_Functions. walk. Qed.

Lemma beside_modify_view v : within F (same beside) (modify (fun r => set_view (View r) v r)).
Proof. apply within_modify. reflexivity. Qed.
Hint Resolve beside_periodic beside_rb beside_restart beside_modify_view : frame.

Lemma beside_initialize : within F (same beside) VIEW_Initialize_Upon_View_Change.
Proof. unfold VIEW_Initialize_Upon_View_Change. walk. Qed.
Hint Resolve beside_initialize : frame.

Lemma beside_collect i : within F (same beside) (collect_pc VAR i).
Proof. unfold collect_pc, VIEW_Construct_PC_Set. walk. Qed.
Hint Resolve beside_collect : frame.

Lemma beside_collects l : within F (same beside) (collect_pcs VAR l).
Proof. induction l; cbn [collect_pcs]; walk. Qed.
Hint Resolve beside_collects : frame.

Lemma beside_sends l : within F (same beside) (send_pcs l).
Proof. induction l as [|[k m] l IH]; cbn [send_pcs]; walk. Qed.
Hint Resolve beside_sends : frame.

Lemma beside_counting_up a b : within F (same beside) (counting_up a b).
Proof. unfold counting_up. walk. Qed.
Hint Resolve beside_counting_up : frame.

Lemma beside_report : within F (same beside) (VIEW_Construct_Report VAR).
Proof. unfold VIEW_Construct_Report. walk. Qed.
Hint Resolve beside_report : frame.

(** The view stays, and its gauges start over. *)
Lemma wp_start_view_change (r : state) : sizes_ok (SU r) ->
  wp F (VIEW_Start_View_Change clock VAR)
    (fun _ t => View t = View r /\ leader_suspected t = false /\ votes_signed t = votes_signed r /\
                sizes_ok (SU t) /\ fresh (SU t)) r.
Proof.
  intros Hs. unfold VIEW_Start_View_Change. apply wp_bind. eapply wp_conseq; [apply wp_initialize, Hs|].
  cbv beta. intros _ t (E1 & E2 & E3 & _ & E4 & E5).
  assert (W : within F (same beside) (SUSPECT_Restart_Timed_Functions ;;;
    vc_update (fun d => put_RB (RB_Initialize_Upon_View_Change (RB d)) d) ;;; RB_Retrans VAR ;;;
    VIEW_Initialize_Upon_View_Change ;;; VIEW_Periodic_Retrans VAR ;;; r <- get ;;
    seqs <- counting_up (wrap32 (ARU r + 1)) (high_prepared r) ;; collect_pcs VAR seqs ;;;
    report <- VIEW_Construct_Report VAR ;; out (Rb_Init report) ;;; v <- view ;;
    own <- or_oob (aget (pc_set v) (My_Server_ID VAR)) ;; send_pcs own ;;;
    l <- or_oob (aset (pc_set v) (My_Server_ID VAR) []) ;; view_update (clear_own_pcs l))) by walk.
  eapply wp_conseq; [apply W|]. cbv beta. unfold same, beside. intros _ u [= -> -> Es ->]. rewrite Es. auto.
Qed.

(** ** Votes *)
(** All but the stored votes. *)
Definition measures (r : state) :=
  (View r, view_change_done r, leader_suspected r,
   (reported_tats (SU r), tat_leader (SU r), tat_leader_ubs (SU r), tat_acceptable (SU r)), votes_signed r).

(** A view was entered: the gauges start over. *)
Definition entered (w : Z) (r t : state) : Prop :=
  View r < w /\ View t = w /\ leader_suspected t = false /\ votes_signed t = votes_signed r /\
  sizes_ok (SU t) /\ fresh (SU t).

(** What a vote does: nothing, or it is stored, and the quorum enters the view. *)
Inductive voted (mess : vc_mess) (r t : state) : Prop :=
| vote_ignored : same gauges r t -> voted mess r t
| vote_stored l : aset (new_leader (SU r)) (vm_machine_id mess) (Some mess) = Some l ->
    same measures r t -> new_leader (SU t) = l -> voted mess r t
| vote_completes w l : vm_body mess = New_Leader w ->
    aset (new_leader (SU r)) (vm_machine_id mess) (Some mess) = Some l ->
    Z.of_nat (length (votes_for_view w l)) = vc_quorum VAR -> entered w r t -> voted mess r t.

Lemma still_proof_periodically : within F (same still) (SUSPECT_New_Leader_Proof_Periodically).
Proof. unfold SUSPECT_New_Leader_Proof_Periodically. walk. Qed.
Hint Resolve still_proof_periodically : frame.

Lemma still_construct_proof : within F (same still) (SUSPECT_Construct_New_Leader_Proof VAR).
Proof. unfold SUSPECT_Construct_New_Leader_Proof. walk. Qed.

Lemma wp_start_new_view (r : state) : sizes_ok (SU r) ->
  wp F (start_new_view clock VAR)
    (fun _ t => View t = View r /\ leader_suspected t = false /\ votes_signed t = votes_signed r /\
                sizes_ok (SU t) /\ fresh (SU t)) r.
Proof.
  intros Hs. unfold start_new_view.
  assert (W : within F (same still) (E_dequeue SUSPECT_New_Leader_Timer ;;; po_update (with_executed_ord 0) ;;;
                SUSPECT_New_Leader_Proof_Periodically)) by walk.
  specialize (W r). revert W. unfold wp, bind. repeat (destruct (E_dequeue _ _) as [[? r1]|f]; [|trivial]).
  destruct (po_update _ r1) as [[? r2]|f]; [|trivial]. destruct (SUSPECT_New_Leader_Proof_Periodically r2) as [[? r3]|f]; [|trivial].
  unfold same, still. intros [= E1 E2 E3 E4 E5]. pose proof (wp_start_view_change r3) as H. rewrite E3 in H.
  specialize (H Hs). unfold wp in H. destruct (VIEW_Start_View_Change _ _ _) as [[? t]|f]; [|exact H].
  rewrite <- E1, <- E4. exact H.
Qed.

Lemma wp_enter (r : state) w m : View r < w -> sizes_ok (SU r) ->
  within F (same still) m ->
  wp F (preinstall_view VAR w ;;; p <- m ;; susp_update (put_new_leader_proof (Some p)) ;;; start_new_view clock VAR)
    (fun _ t => entered w r t) r.
Proof.
  intros Hw Hs Hm. apply wp_bind. unfold preinstall_view. apply wp_bind, wp_get, wp_bind.
  assert (W : within F (same still) (if UTIL_I_Am_Leader VAR (View r) then E_dequeue ORDER_Timer else ret tt)) by walk.
  eapply wp_conseq; [apply W|]. cbv beta. intros _ r1 H1. apply wp_modify, wp_bind.
  eapply wp_conseq; [apply Hm|]. cbv beta. intros p r2 H2. apply wp_bind, wp_modify.
  unfold same, still in H1, H2. injection H1 as A1 A2 A3 A4 A5. injection H2 as B1 B2 B3 B4 B5.
  change (SU (set_view w (view_change_done r) r1)) with (SU r1) in B3.
  change (votes_signed (set_view w (view_change_done r) r1)) with (votes_signed r1) in B4.
  match goal with |- wp _ _ _ ?s => pose proof (wp_start_new_view s) as H end.
  assert (Hs' : sizes_ok (SU r2)) by (rewrite B3, A3; exact Hs).
  eapply wp_conseq; [apply H; exact Hs'|]. cbv beta. intros _ t (C1 & C2 & C3 & C4 & C5).
  split; [exact Hw|]. change (View t = View r2) in C1. change (votes_signed t = votes_signed r2) in C3.
  rewrite B1 in C1. rewrite B4, A4 in C3. auto.
Qed.

Lemma wp_process_new_leader (r : state) mess : sizes_ok (SU r) ->
  wp F (SUSPECT_Process_New_Leader clock VAR mess) (fun _ t => voted mess r t) r.
Proof.
  intros Hs. unfold SUSPECT_Process_New_Leader. destruct (vm_body mess) eqn:Eb;
    try (apply wp_ret; constructor 1; reflexivity).
  apply wp_bind, wp_get. destruct (new_view <=? View r) eqn:Ev; [apply wp_ret; constructor 1; reflexivity|].
  apply Z.leb_gt in Ev. apply wp_bind. change (wp F susp ?Q r) with (Q (SU r) r). cbv beta.
  apply wp_bind, wp_or_oob; [apply HF; discriminate|]. intros stored _.
  destruct (match stored with Some _ => _ | None => _ end); [apply wp_ret; constructor 1; reflexivity|].
  apply wp_bind, wp_or_oob; [apply HF; discriminate|]. intros l El. apply wp_bind, wp_modify.
  set (r1 := set_others _ r). destruct (negb _) eqn:Eq.
  - apply wp_ret. eapply vote_stored; [exact El| |]; reflexivity.
  - apply negb_false_iff, Z.eqb_eq in Eq. eapply wp_conseq; [apply wp_enter; [exact Ev| |]|].
    + destruct Hs as (A & B & C). repeat split; [exact A|exact B|]. change (new_leader (SU r1)) with l.
      rewrite (aset_length _ _ _ _ El). exact C.
    + apply still_construct_proof.
    + cbv beta. intros _ t Ht. eapply vote_completes; [exact Eb|exact El|exact Eq|exact Ht].
Qed.
End Frame.
