(* ===== verification/SuspectInvariant.v ===== *)
(** The invariants of suspecting the leader: the gauges of a replica are what it
    heard in this view ([gauges_ok]), its stored votes are as their senders signed
    them, and the view was entered on the votes of a quorum ([votes_ok]). *)
From Stdlib Require Import ZArith Lia List Bool Floats.SpecFloat.
From Stdlib Require Import Strings.Byte.
From stdpp Require Import base list gmap fin_sets.
From S2P Require Import Prelude Memory Config Packets Crypto Utility ReliableBroadcast OrderState PreOrderState Order OrderCorrect OrderHandlers OrderFrame PreOrder PreOrderCorrect Execute ViewState ViewChange SuspectLeader SuspectCorrect SuspectSystem.

(** ** What was heard *)
(** Of the messages received, each with the view it found: the best that server
    [i] reported in view [w], starting from [init]. *)
Definition heard (pick : vc_body -> option (Z * double)) (better : double -> double -> bool) (init : double)
    (w i : Z) (log : list (Z * vc_mess)) : double :=
  foldl (fun old e =>
    match pick (vm_body (snd e)) with
    | Some (w', t) => if (fst e =? w) && (w' =? w) && (vm_machine_id (snd e) =? i) && better t old then t else old
    | None => old
    end) init log.

Definition pick_tat (b : vc_body) : option (Z * double) := match b with Tat_Measure w t => Some (w, t) | _ => None end.
Definition pick_ub (b : vc_body) : option (Z * double) := match b with Tat_Ub w a => Some (w, a) | _ => None end.

(** The longest turnaround time, and the lowest bound. *)
Definition tat_heard : Z -> Z -> list (Z * vc_mess) -> double := heard pick_tat (fun t old => dlt old t) dzero.
Definition ub_heard : Z -> Z -> list (Z * vc_mess) -> double := heard pick_ub dlt MAX_TAT_TIME.

Section Heard.
Context (pick : vc_body -> option (Z * double)) (better : double -> double -> bool) (init : double).
Context (Hb : forall t old, better t old = true -> not_nan t) (Hi : not_nan init).

Lemma heard_number w i log : not_nan (heard pick better init w i log).
Proof.
  unfold heard. revert init Hi. induction log as [|e log IH]; intros old Ho; cbn [foldl]; [exact Ho|].
  apply IH. destruct (pick _) as [[w' t]|]; [|exact Ho]. destruct (_ && _) eqn:E; [|exact Ho].
  apply andb_true_iff in E as [_ E]. eapply Hb, E.
Qed.

Lemma heard_nothing w i log : Forall (fun e : Z * vc_mess => fst e < w) log -> heard pick better init w i log = init.
Proof.
  unfold heard. clear Hb Hi. revert init. induction log as [|e log IH]; intros old H; cbn [foldl]; [reflexivity|].
  apply Forall_cons in H as [He H]. rewrite IH by exact H. destruct (pick _) as [[w' t]|]; [|reflexivity].
  replace (fst e =? w) with false by (symmetry; apply Z.eqb_neq; lia). reflexivity.
Qed.

Lemma heard_one w i log v m : heard pick better init w i (log ++ [(v, m)]) =
  match pick (vm_body m) with
  | Some (w', t) => if (v =? w) && (w' =? w) && (vm_machine_id m =? i) && better t (heard pick better init w i log)
                    then t else heard pick better init w i log
  | None => heard pick better init w i log
  end.
Proof. unfold heard. rewrite foldl_app. reflexivity. Qed.
End Heard.

Section Invariant.
Context {calls : ViewCalls}.
Context (F : fault -> Prop) (HF : forall f, f <> OutOfFuel -> F f).
Context (clock : nat -> Z) (VAR : server_variables).
Context (HVAR : 0 <= VF VAR /\ 0 <= VK VAR /\ 3 * VF VAR + 2 * VK VAR + 1 = NUM_SERVERS).
Context (checked : Prop).

(** ** The gauges *)
(** [tat_leader] is the (f+k+1)-th lowest of the times, [tat_acceptable] the
    (2f+k+1)-th lowest of the bounds, but not below the least round trip; and, where
    [checked] says that this was compared, a leader that is not suspected is within
    the acceptable time. *)
Definition leader_gauge (r : state) : Prop :=
  aget (qsort (drop 1 (reported_tats (SU r)))) (VF VAR + VK VAR + 1 - 1) = Some (tat_leader (SU r)).

Definition bound_gauge (r : state) : Prop :=
  exists t, aget (qsort (drop 1 (tat_leader_ubs (SU r)))) (NUM_SERVER_SLOTS - (VF VAR + VK VAR + 1) - 1) = Some t /\
            tat_acceptable (SU r) = if dlt MIN_RTT t then t else MIN_RTT.

Definition within_bounds (r : state) : Prop :=
  checked -> leader_suspected r = false -> dlt (acceptable_time r (tat_acceptable (SU r))) (tat_leader (SU r)) = false.

Record measured (log : list (Z * vc_mess)) (r : state) : Prop := {
  g_sizes : sizes_ok (SU r);
  g_tats : forall i, 1 <= i <= NUM_SERVERS -> aget (reported_tats (SU r)) i = Some (tat_heard (View r) i log);
  g_bounds : forall i, 1 <= i <= NUM_SERVERS -> aget (tat_leader_ubs (SU r)) i = Some (ub_heard (View r) i log);
  g_leader : leader_gauge r;
  g_acceptable : bound_gauge r;
  g_log : Forall (fun e => fst e <= View r) log }.

Definition gauges_ok (log : list (Z * vc_mess)) (r : state) : Prop := measured log r /\ within_bounds r.

Lemma gauges_measures log r t : sizes_ok (SU t) -> same measures r t -> gauges_ok log r -> gauges_ok log t.
Proof.
  unfold same, measures. intros Hs [= E1 E2 E3 E4 E5 E6 E7 E8] [[G1 G2 G3 G4 G5 G6] G7].
  split; [split; [exact Hs|..]|]; unfold leader_gauge, bound_gauge, within_bounds, acceptable_time in *;
    rewrite ?E1, ?E2, ?E3, ?E4, ?E5, ?E6, ?E7; assumption.
Qed.

Lemma gauges_same log r t : same gauges r t -> gauges_ok log r -> gauges_ok log t.
Proof.
  intros Hg G. unfold same, gauges in Hg. injection Hg as E1 E2 E3 E4 E5 E6 E7 E8 E9.
  apply (gauges_measures log r t); [|unfold same, measures; congruence|exact G].
  destruct (g_sizes _ _ (proj1 G)) as (A & B & C). unfold sizes_ok. rewrite E4, E6, E8. auto.
Qed.

Lemma aget_drop {A} (l : list A) i : 1 <= i -> aget l i = aget (drop 1 l) (i - 1).
Proof.
  intros Hi. unfold aget, in_bounds. rewrite length_drop.
  replace ((0 <=? i) && (i <? Z.of_nat (length l))) with ((0 <=? i - 1) && (i - 1 <? Z.of_nat (length l - 1)))
    by (apply eq_true_iff_eq; rewrite !andb_true_iff, !Z.leb_le, !Z.ltb_lt; lia).
  destruct (_ && _); [|reflexivity]. rewrite lookup_drop. f_equal. lia.
Qed.

Lemma aget_repeat {A} (x : A) n i : 0 <= i < Z.of_nat n -> aget (repeat x n) i = Some x.
Proof.
  intros Hi. unfold aget, in_bounds. rewrite repeat_length.
  rewrite (proj2 (Z.leb_le _ _)), (proj2 (Z.ltb_lt _ _)) by lia. cbn.
  replace (repeat x n) with (replicate n x) by (clear; induction n; cbn; congruence). apply lookup_replicate_2. lia.
Qed.

(** The gauges of a view in which nothing was heard. *)
Lemma measured_fresh log t : sizes_ok (SU t) -> fresh (SU t) -> Forall (fun e : Z * vc_mess => fst e < View t) log -> measured log t.
Proof.
  intros Hs (F1 & F2 & F3 & F4 & F5 & F6) Hlog.
  assert (HN : NUM_SERVERS = 6) by reflexivity. assert (HS : NUM_SERVER_SLOTS = 7) by reflexivity.
  split; [exact Hs|..].
  - intros i Hi. rewrite aget_drop, F4 by lia. unfold tat_heard. rewrite heard_nothing by exact Hlog.
    apply aget_repeat. lia.
  - intros i Hi. rewrite aget_drop, F5 by lia. unfold ub_heard. rewrite heard_nothing by exact Hlog.
    apply aget_repeat. lia.
  - unfold leader_gauge. rewrite F4, F1. change (qsort _) with (repeat dzero 6). apply aget_repeat. lia.
  - exists MAX_TAT_TIME. rewrite F5, F3. change (qsort _) with (repeat MAX_TAT_TIME 6). split; [|reflexivity].
    apply aget_repeat. lia.
  - eapply Forall_impl; [exact Hlog|]. cbv beta. intros e He. lia.
Qed.

(** The gauges of a view that was entered. *)
Lemma gauges_entered log r t w : entered w r t -> measured log r -> gauges_ok log t.
Proof.
  intros (Hw & Ev & El & _ & Hs & Hf) G. split.
  - apply measured_fresh; [exact Hs|exact Hf|]. eapply Forall_impl; [exact (g_log _ _ G)|]. cbv beta. intros e He. lia.
  - destruct Hf as (F1 & F2 & F3 & _). intros _ _. rewrite F1, F3. unfold acceptable_time.
    destruct (view_change_done t); reflexivity.
Qed.

(** A message the gauges do not note. *)
Lemma gauges_other log r m :
  (forall w t, pick_tat (vm_body m) = Some (w, t) -> w <> View r) ->
  (forall w t, pick_ub (vm_body m) = Some (w, t) -> w <> View r) ->
  gauges_ok log r -> gauges_ok (log ++ [(View r, m)]) r.
Proof.
  intros H1 H2 [[G1 G2 G3 G4 G5 G7] G6]. split; [|exact G6]. split; auto.
  - intros i Hi. rewrite G2 by exact Hi. unfold tat_heard. rewrite heard_one.
    destruct (pick_tat _) as [[w t]|]; [|reflexivity]. specialize (H1 w t eq_refl).
    rewrite (proj2 (Z.eqb_neq w _)), andb_false_r by exact H1. reflexivity.
  - intros i Hi. rewrite G3 by exact Hi. unfold ub_heard. rewrite heard_one.
    destruct (pick_ub _) as [[w t]|]; [|reflexivity]. specialize (H2 w t eq_refl).
    rewrite (proj2 (Z.eqb_neq w _)), andb_false_r by exact H2. reflexivity.
  - apply Forall_app. split; [exact G7|]. constructor; [cbn; lia|constructor].
Qed.

(** ** Votes *)
Lemma gauges_voted log r t mess : voted VAR mess r t -> gauges_ok log r -> gauges_ok log t.
Proof.
  intros [Hg|l El Hm Hl|w l _ El Hq He] G.
  - eapply gauges_same; eassumption.
  - apply (gauges_measures log r t); [|exact Hm|exact G].
    unfold same, measures in Hm. injection Hm as E1 E2 E3 E4 E5 E6 E7 E8.
    destruct (g_sizes _ _ (proj1 G)) as (A & B & C). unfold sizes_ok. rewrite E4, E6, Hl, (aset_length _ _ _ _ El). auto.
  - eapply gauges_entered; [exact He|apply G].
Qed.

(** A vote of its own, signed. *)
Definition own_vote_signed (r r1 : state) (m : vc_mess) : Prop :=
  vm_machine_id m = My_Server_ID VAR /\ vm_body m = New_Leader (wrap32 (View r + 1)) /\
  View r1 = View r /\ view_change_done r1 = view_change_done r /\ leader_suspected r1 = leader_suspected r /\
  SU r1 = SU r /\ votes_signed r1 = votes_signed r ++ [wrap32 (View r + 1)].

Lemma still_periodically : within F (same still) (SUSPECT_New_Leader_Periodically VAR).
Proof.
  intros r. unfold SUSPECT_New_Leader_Periodically. apply wp_bind. change (wp F susp ?Q r) with (Q (SU r) r). cbv beta.
  apply wp_bind, wp_or_oob; [apply HF; discriminate|]. intros [m|] _; [|apply wp_ret; reflexivity].
  apply within_bind; [typeclasses eauto|apply still_broadcast|intros _; apply still_queue].
Qed.

Lemma wp_vote_new_leader (r : state) : sizes_ok (SU r) ->
  wp F (vote_new_leader clock VAR)
    (fun _ t => exists r1 m t', own_vote_signed r r1 m /\ voted VAR m r1 t' /\ same gauges t' t) r.
Proof.
  intros Hs. unfold vote_new_leader. apply wp_bind.
  change (wp F (SUSPECT_Construct_New_Leader VAR) ?Q r) with
    (Q (mkVcMess (My_Server_ID VAR) (new_incarnation_val r) (New_Leader (wrap32 (View r + 1)))) r). cbv beta.
  set (m := mkVcMess _ _ _). apply wp_bind, wp_modify. set (r1 := set_others _ r).
  assert (H1 : own_vote_signed r r1 m).
  { repeat (split; [reflexivity|]). unfold votes_signed, SENT. cbn. rewrite omap_app. reflexivity. }
  apply wp_bind. eapply wp_conseq; [apply (wp_process_new_leader F HF clock VAR r1 m); exact Hs|].
  cbv beta. intros _ t' Hv. eapply wp_conseq; [apply still_gauges, still_periodically|].
  cbv beta. intros _ t Ht. exists r1, m, t'. auto.
Qed.

Lemma gauges_suspect log r : measured log r -> gauges_ok log (suspect r).
Proof. intros [G1 G2 G3 G4 G5 G6]. split; [split; assumption|]. intros _ H. discriminate H. Qed.

Lemma gauges_own_vote log r r1 m : own_vote_signed r r1 m -> gauges_ok log r -> gauges_ok log r1.
Proof.
  intros (_ & _ & E1 & E2 & E3 & E4 & _) [[G1 G2 G3 G4 G5 G6] G7].
  split; [split|]; unfold leader_gauge, bound_gauge, within_bounds, acceptable_time in *; rewrite ?E1, ?E2, ?E3, ?E4; assumption.
Qed.

Lemma gauges_vote log r : measured log r -> wp F (modify suspect ;;; vote_new_leader clock VAR) (fun _ => gauges_ok log) r.
Proof.
  intros G. apply wp_bind, wp_modify. eapply wp_conseq; [apply wp_vote_new_leader, (g_sizes _ _ G)|].
  cbv beta. intros _ t (r1 & m & t' & H1 & H2 & H3). eapply gauges_same; [exact H3|].
  eapply gauges_voted; [exact H2|]. eapply gauges_own_vote; [exact H1|]. apply gauges_suspect, G.
Qed.

Lemma gauges_suspect_leader log r : measured log r -> wp F (SUSPECT_Suspect_Leader clock VAR) (fun _ => gauges_ok log) r.
Proof.
  intros G. unfold SUSPECT_Suspect_Leader. apply wp_bind, wp_get, wp_bind.
  change (wp F susp ?Q r) with (Q (SU r) r). cbv beta.
  destruct (negb _ && _) eqn:E; [apply gauges_vote, G|]. apply wp_ret. split; [exact G|].
  intros _ Hs. rewrite Hs in E. exact E.
Qed.

(** ** The handlers *)
Lemma wp_susp {A} (k : suspect_leader_data -> comp state A) Q r : wp F (k (SU r)) Q r -> wp F (bind susp k) Q r.
Proof. exact (fun H => H). Qed.

(** The message that is noted is the sender's. *)
Lemma note_in (l l' : list double) i t (old : Z -> double) (better : double -> double -> bool) : aset l i (if better t (old i) then t else old i) = Some l' ->
  (forall j, 1 <= j <= NUM_SERVERS -> aget l j = Some (old j)) ->
  forall j, 1 <= j <= NUM_SERVERS -> aget l' j = Some (if (i =? j) && better t (old j) then t else old j).
Proof.
  intros Hl Ho j Hj. rewrite (aget_aset _ _ _ _ _ Hl). destruct (Z.eq_dec i j) as [->|Hne].
  - rewrite Z.eqb_refl. reflexivity.
  - rewrite (proj2 (Z.eqb_neq i j) Hne). apply Ho, Hj.
Qed.

(** A report of the current view is written down: its sender's entry and the gauge
    that is taken from the entries change, and nothing else of the replica. *)
Definition marked (mess : vc_mess) (r u : state) : Prop :=
  match vm_body mess with
  | Tat_Measure _ _ => exists l x, u = with_rest (fun d => put_SUSP (put_tat_leader x (put_reported_tats l (SUSP d))) d) r
  | Tat_Ub _ _ => exists l x, u = with_rest (fun d => put_SUSP (put_ubs l x (SUSP d)) d) r
  | _ => False
  end.

(** What is written is what was heard, with this message the last. *)
Definition noted (log : list (Z * vc_mess)) (mess : vc_mess) (r u : state) : Prop :=
  measured (log ++ [(View r, mess)]) u /\ marked mess r u.

Lemma marked_same mess r u : marked mess r u ->
  View u = View r /\ view_change_done u = view_change_done r /\
  leader_suspected u = leader_suspected r /\ votes_signed u = votes_signed r /\ new_leader (SU u) = new_leader (SU r).
Proof.
  unfold marked. destruct (vm_body mess); try contradiction; intros (l & x & ->); repeat split.
Qed.

Lemma sorted_reports (l : list double) i : Z.of_nat (length l) = NUM_SERVER_SLOTS -> 1 <= i <= NUM_SERVERS ->
  exists x, aget (qsort (drop 1 l)) (i - 1) = Some x.
Proof.
  intros Hl Hi. apply aget_is_Some. rewrite (Permutation_length (qsort_perm _)), length_drop.
  change NUM_SERVER_SLOTS with 7 in Hl. change NUM_SERVERS with 6 in Hi. lia.
Qed.

Lemma wp_tat_noted (F' : fault -> Prop) log r mess t Q : vm_body mess = Tat_Measure (View r) t -> 1 <= vm_machine_id mess <= NUM_SERVERS ->
  measured log r -> (forall u, noted log mess r u -> wp F' (SUSPECT_Suspect_Leader clock VAR) Q u) ->
  wp F' (SUSPECT_Process_TAT_Measure clock VAR mess) Q r.
Proof.
  intros Eb Hid [G1 G2 G3 G4 G5 G6] HQ. unfold SUSPECT_Process_TAT_Measure. rewrite Eb. apply wp_bind, wp_get.
  rewrite Z.eqb_refl. cbn [negb]. apply wp_bind. change (wp F' susp ?Q r) with (Q (SU r) r). cbv beta. apply wp_bind.
  destruct G1 as (A & B & C). eapply wp_or_oob_Some; [apply G2, Hid|].
  apply wp_bind, wp_aset_in; [change NUM_SERVER_SLOTS with 7 in A; change NUM_SERVERS with 6 in Hid; lia|].
  intros l El. apply wp_bind, wp_modify. set (r1 := set_others _ r). apply wp_bind.
  assert (Al : Z.of_nat (length l) = NUM_SERVER_SLOTS) by (rewrite (aset_length _ _ _ _ El); exact A).
  destruct (sorted_reports l (VF VAR + VK VAR + 1) Al ltac:(lia)) as [x Ex].
  eapply wp_or_oob_Some; [exact Ex|]. apply wp_bind, wp_modify. set (r2 := set_others _ r1). apply HQ.
  split; [|unfold marked; rewrite Eb; exists l, x; reflexivity]. split; unfold leader_gauge, bound_gauge; try assumption.
  - repeat split; [exact Al|exact B|exact C].
  - intros i Hi. change (reported_tats (SU r2)) with l. change (View r2) with (View r).
    rewrite (note_in _ _ _ _ (fun i => tat_heard (View r) i log) (fun t old => dlt old t) El G2 i Hi).
    unfold tat_heard. rewrite heard_one, Eb. cbn [pick_tat]. rewrite !Z.eqb_refl. reflexivity.
  - intros i Hi. change (tat_leader_ubs (SU r2)) with (tat_leader_ubs (SU r)). rewrite G3 by exact Hi.
    change (View r2) with (View r). unfold ub_heard. rewrite heard_one, Eb. reflexivity.
  - apply Forall_app. split; [exact G6|]. constructor; [cbn; lia|constructor].
Qed.

Lemma wp_tat_measure log r mess w t : vm_body mess = Tat_Measure w t -> 1 <= vm_machine_id mess <= NUM_SERVERS ->
  gauges_ok log r -> wp F (SUSPECT_Process_TAT_Measure clock VAR mess) (fun _ => gauges_ok (log ++ [(View r, mess)])) r.
Proof.
  intros Eb Hid G. destruct (Z.eq_dec w (View r)) as [->|Hw]; [eapply wp_tat_noted; [exact Eb|exact Hid|apply G|]; intros u Hu; apply gauges_suspect_leader, Hu|].
  unfold SUSPECT_Process_TAT_Measure. rewrite Eb. apply wp_bind, wp_get. rewrite (proj2 (Z.eqb_neq _ _) Hw).
  apply wp_ret, gauges_other; [|rewrite Eb; discriminate|exact G]. rewrite Eb. intros ? ? [= <- <-]. exact Hw.
Qed.

Lemma wp_ub_noted (F' : fault -> Prop) log r mess a Q : vm_body mess = Tat_Ub (View r) a -> 1 <= vm_machine_id mess <= NUM_SERVERS ->
  measured log r -> (forall u, noted log mess r u -> wp F' (SUSPECT_Suspect_Leader clock VAR) Q u) ->
  wp F' (SUSPECT_Process_TAT_UB clock VAR mess) Q r.
Proof.
  intros Eb Hid [G1 G2 G3 G4 G5 G6] HQ. unfold SUSPECT_Process_TAT_UB. rewrite Eb. apply wp_bind, wp_get.
  rewrite Z.eqb_refl. cbn [negb]. apply wp_bind. change (wp F' susp ?Q r) with (Q (SU r) r). cbv beta. apply wp_bind.
  destruct G1 as (A & B & C). eapply wp_or_oob_Some; [apply G3, Hid|].
  apply wp_bind, wp_aset_in; [change NUM_SERVER_SLOTS with 7 in B; change NUM_SERVERS with 6 in Hid; lia|].
  intros l El. apply wp_bind.
  assert (Bl : Z.of_nat (length l) = NUM_SERVER_SLOTS) by (rewrite (aset_length _ _ _ _ El); exact B).
  destruct (sorted_reports l (NUM_SERVER_SLOTS - (VF VAR + VK VAR + 1)) Bl
              ltac:(change NUM_SERVER_SLOTS with 7; change NUM_SERVERS with 6 in *; lia)) as [x Ex].
  eapply wp_or_oob_Some; [exact Ex|]. apply wp_bind, wp_modify. set (r2 := set_others _ r). apply HQ.
  split; [|unfold marked; rewrite Eb; do 2 eexists; reflexivity]. split; unfold leader_gauge, bound_gauge; try assumption.
  - repeat split; [exact A|exact Bl|exact C].
  - intros i Hi. change (reported_tats (SU r2)) with (reported_tats (SU r)). rewrite G2 by exact Hi.
    change (View r2) with (View r). unfold tat_heard. rewrite heard_one, Eb. reflexivity.
  - intros i Hi. change (tat_leader_ubs (SU r2)) with l. change (View r2) with (View r).
    rewrite (note_in _ _ _ _ (fun i => ub_heard (View r) i log) dlt El G3 i Hi).
    unfold ub_heard. rewrite heard_one, Eb. cbn [pick_ub]. rewrite !Z.eqb_refl. reflexivity.
  - exists x. split; [exact Ex|reflexivity].
  - apply Forall_app. split; [exact G6|]. constructor; [cbn; lia|constructor].
Qed.

Lemma wp_tat_ub log r mess w a : vm_body mess = Tat_Ub w a -> 1 <= vm_machine_id mess <= NUM_SERVERS ->
  gauges_ok log r -> wp F (SUSPECT_Process_TAT_UB clock VAR mess) (fun _ => gauges_ok (log ++ [(View r, mess)])) r.
Proof.
  intros Eb Hid G. destruct (Z.eq_dec w (View r)) as [->|Hw]; [eapply wp_ub_noted; [exact Eb|exact Hid|apply G|]; intros u Hu; apply gauges_suspect_leader, Hu|].
  unfold SUSPECT_Process_TAT_UB. rewrite Eb. apply wp_bind, wp_get. rewrite (proj2 (Z.eqb_neq _ _) Hw).
  apply wp_ret, gauges_other; [rewrite Eb; discriminate| |exact G]. rewrite Eb. intros ? ? [= <- <-]. exact Hw.
Qed.

(** What touches neither the gauges nor the votes. *)
Definition quiet_put (f : suspect_leader_data -> suspect_leader_data) : Prop := forall s,
  reported_tats (f s) = reported_tats s /\ tat_leader (f s) = tat_leader s /\
  tat_leader_ubs (f s) = tat_leader_ubs s /\ tat_acceptable (f s) = tat_acceptable s /\ new_leader (f s) = new_leader s.

Lemma within_susp_update f : quiet_put f -> within F (same gauges) (susp_update f).
Proof.
  intros H. apply within_modify. intros r. destruct (H (SU r)) as (E1 & E2 & E3 & E4 & E5).
  unfold same, gauges, SU, votes_signed, SENT in *. cbn in *. rewrite E1, E2, E3, E4, E5. reflexivity.
Qed.

(** *** Round trips, challenges and timers *)
Hint Extern 0 (PreOrder _) => typeclasses eauto : frame.
Hint Resolve still_gauges still_beside : frame.
Hint Resolve within_vc within_susp within_view within_signed : frame.
Hint Resolve still_view_update still_get_time still_dequeue still_queue still_start still_stop still_pending still_broadcast : frame.
Hint Resolve still_proof_periodically still_periodically : frame.
Hint Extern 1 (within _ _ (susp_update _)) => apply within_susp_update; intros ?; repeat split; try reflexivity : frame.

Lemma gauges_note_tat t : within F (same gauges) (note_tat t).
Proof.
  apply within_susp_update. intros s. destruct (dlt (max_tat s) t); repeat split; reflexivity.
Qed.
Hint Resolve gauges_note_tat : frame.

Lemma gauges_challenge : within F (same gauges) (challenge_started clock).
Proof. unfold challenge_started. walk. Qed.

Lemma gauges_answered : within F (same gauges) (challenge_answered clock).
Proof. unfold challenge_answered. walk. Qed.

Lemma gauges_open : within F (same gauges) (measure_open_challenge clock).
Proof. unfold measure_open_challenge. walk. Qed.
Hint Resolve gauges_challenge gauges_answered gauges_open : frame.

Lemma gauges_tat_periodically : within F (same gauges) (SUSPECT_TAT_Measure_Periodically clock VAR).
Proof. unfold SUSPECT_TAT_Measure_Periodically, SUSPECT_Construct_TAT_Measure. walk. Qed.

Lemma gauges_ping_periodically : within F (same gauges) (SUSPECT_Ping_Periodically clock VAR).
Proof. unfold SUSPECT_Ping_Periodically, SUSPECT_Construct_RTT_Ping. walk. Qed.

Lemma gauges_ub_periodically : within F (same gauges) (SUSPECT_TAT_UB_Periodically VAR).
Proof. unfold SUSPECT_TAT_UB_Periodically. walk. Qed.
Hint Resolve gauges_tat_periodically gauges_ping_periodically gauges_ub_periodically : frame.

Lemma gauges_timer t : within F (same gauges) (suspect_timer clock VAR t).
Proof. unfold suspect_timer. walk. Qed.

Lemma gauges_ping mess : within F (same gauges) (SUSPECT_Process_RTT_Ping VAR mess).
Proof. unfold SUSPECT_Process_RTT_Ping. walk. Qed.

Lemma gauges_pong mess : within F (same gauges) (SUSPECT_Process_RTT_Pong clock VAR mess).
Proof. unfold SUSPECT_Process_RTT_Pong. walk. Qed.

Lemma gauges_rtt mess : within F (same gauges) (SUSPECT_Process_RTT_Measure VAR mess).
Proof. unfold SUSPECT_Process_RTT_Measure, nth_lowest. walk. Qed.
Hint Resolve gauges_timer gauges_ping gauges_pong gauges_rtt : frame.

(** *** A proof *)
(** A view entered on a proof, whose first 2f+k+1 votes are for it. *)
Definition proved (mess : vc_mess) (r t : state) : Prop :=
  same gauges r t \/
  exists w votes, vm_body mess = New_Leader_Proof w votes /\ vc_quorum VAR <= Z.of_nat (length votes) /\
    Forall (fun x => snd x = w) (take (Z.to_nat (vc_quorum VAR)) votes) /\ entered w r t.

Lemma wp_process_proof (r : state) mess : sizes_ok (SU r) ->
  wp F (SUSPECT_Process_New_Leader_Proof clock VAR mess) (fun _ t => proved mess r t) r.
Proof.
  intros Hs. unfold SUSPECT_Process_New_Leader_Proof. destruct (vm_body mess) eqn:Eb;
    try (apply wp_ret; left; reflexivity).
  apply wp_bind, wp_get. destruct (new_view <=? View r) eqn:Ev; [apply wp_ret; left; reflexivity|].
  destruct (_ <? _) eqn:El; [apply wp_raise, HF; discriminate|].
  destruct (negb _) eqn:Ef; [apply wp_ret; left; reflexivity|].
  apply Z.leb_gt in Ev. apply Z.ltb_ge in El. apply negb_false_iff in Ef.
  eapply wp_conseq; [apply wp_enter; [exact HF|exact Ev|exact Hs|apply within_signed; typeclasses eauto]|].
  cbv beta. intros _ t Ht. right. exists new_view, votes. repeat (split; [assumption|]). split; [|exact Ht].
  rewrite Forall_forall. intros x Hx. apply list_elem_of_In in Hx. rewrite forallb_forall in Ef.
  apply Ef in Hx. apply Z.eqb_eq, Hx.
Qed.

(** ** The steps *)
Definition event_ok (e : suspect_event) : Prop :=
  match e with Received m => 1 <= vm_machine_id m <= NUM_SERVERS | _ => True end.

Definition hear (r : state) (e : suspect_event) (log : list (Z * vc_mess)) : list (Z * vc_mess) :=
  match e with Received m => log ++ [(View r, m)] | _ => log end.

Lemma gauges_within {A} log r (m : comp state A) : within F (same gauges) m -> gauges_ok log r -> wp F m (fun _ => gauges_ok log) r.
Proof. intros H G. eapply wp_conseq; [apply H|]. cbv beta. intros _ t Ht. eapply gauges_same; eassumption. Qed.

Lemma gauges_step log r e : event_ok e -> gauges_ok log r ->
  wp F (suspect_handle clock VAR e) (fun _ => gauges_ok (hear r e log)) r.
Proof.
  intros He G. destruct e as [m| |t| |]; cbn [suspect_handle hear].
  - unfold SUSPECT_PROCESS_Message. destruct (vm_body m) eqn:Eb;
      try (eapply wp_tat_measure; eassumption); try (eapply wp_tat_ub; eassumption);
      assert (G' : gauges_ok (log ++ [(View r, m)]) r) by (apply gauges_other; [rewrite Eb; discriminate..|exact G]);
      try (apply gauges_within; [solve [eauto with frame]|exact G']); try (apply wp_ret; exact G').
    + eapply wp_conseq; [apply wp_process_new_leader; [exact HF|apply G]|]. cbv beta. intros _ t Ht. eapply gauges_voted; eassumption.
    + eapply wp_conseq; [apply wp_process_proof, G|]. cbv beta. intros _ t [Hg|(w & vs & _ & _ & _ & Hw)];
        [eapply gauges_same; eassumption|eapply gauges_entered; [exact Hw|apply G']].
  - unfold inconsistent_pre_prepare. apply wp_bind, wp_get. destruct (leader_suspected r); [apply wp_ret, G|apply gauges_vote, G].
  - apply gauges_within; [solve [eauto with frame]|exact G].
  - apply gauges_within; [solve [eauto with frame]|exact G].
  - apply gauges_within; [solve [eauto with frame]|exact G].
Qed.

(** ** When a vote is signed *)
(** No vote is signed; or this replica had not voted, and the leader contradicted
    itself or was found too slow. *)
Definition warranted (log : list (Z * vc_mess)) (e : suspect_event) (r t : state) : Prop :=
  votes_signed t = votes_signed r \/
  votes_signed t = votes_signed r ++ [wrap32 (View r + 1)] /\ leader_suspected r = false /\
  (e = Inconsistent \/ exists m u, e = Received m /\ noted log m r u /\
     dlt (acceptable_time u (tat_acceptable (SU u))) (tat_leader (SU u)) = true).

Lemma voted_signed r t mess : voted VAR mess r t -> votes_signed t = votes_signed r.
Proof.
  intros [H|l _ H _|w l _ _ _ (_ & _ & _ & H & _)]; [| |exact H];
    unfold same, gauges, measures in H; congruence.
Qed.

(** The one vote of a replica that had not voted. *)
Lemma wp_vote_once (r : state) : sizes_ok (SU r) ->
  wp F (modify suspect ;;; vote_new_leader clock VAR)
    (fun _ t => votes_signed t = votes_signed r ++ [wrap32 (View r + 1)]) r.
Proof.
  intros Hs. apply wp_bind, wp_modify. eapply wp_conseq; [apply wp_vote_new_leader, Hs|].
  cbv beta. intros _ t (r1 & m & t' & (_ & _ & _ & _ & _ & _ & H1) & H2 & H3).
  change (votes_signed (suspect r)) with (votes_signed r) in H1. change (View (suspect r)) with (View r) in H1.
  apply voted_signed in H2. unfold same, gauges in H3.
  replace (votes_signed t) with (votes_signed t') by congruence. congruence.
Qed.

Lemma warranted_suspect_leader log m r u : noted log m r u ->
  wp F (SUSPECT_Suspect_Leader clock VAR) (fun _ => warranted log (Received m) r) u.
Proof.
  intros Hu. unfold SUSPECT_Suspect_Leader. apply wp_bind, wp_get, wp_susp. pose proof Hu as [G Hm].
  apply marked_same in Hm as (E1 & E2 & E3 & E4 & E5).
  destruct (negb _ && _) eqn:E; [|apply wp_ret; left; exact E4].
  apply andb_true_iff in E as [Es Et]. apply negb_true_iff in Es.
  eapply wp_conseq; [apply wp_vote_once, G|]. cbv beta. intros _ t Ht. right.
  split; [congruence|]. split; [congruence|]. right. exists m, u. auto.
Qed.

Lemma warranted_gauges {A} log e r (m : comp state A) : within F (same gauges) m -> wp F m (fun _ => warranted log e r) r.
Proof.
  intros H. eapply wp_conseq; [apply H|]. cbv beta. intros _ t Ht. left. unfold same, gauges in Ht. congruence.
Qed.

Lemma warranted_message log r m : event_ok (Received m) -> measured log r ->
  wp F (SUSPECT_PROCESS_Message clock VAR m) (fun _ => warranted log (Received m) r) r.
Proof.
  intros Hid G. unfold SUSPECT_PROCESS_Message.
  destruct (vm_body m) eqn:Eb; try (apply wp_ret; left; reflexivity);
    try (apply warranted_gauges; solve [eauto with frame]).
  - destruct (Z.eq_dec view (View r)) as [->|Hw].
    + eapply wp_tat_noted; [exact Eb|exact Hid|exact G|]. intros u Hu. apply warranted_suspect_leader, Hu.
    + unfold SUSPECT_Process_TAT_Measure. rewrite Eb. apply wp_bind, wp_get. rewrite (proj2 (Z.eqb_neq _ _) Hw).
      apply wp_ret. left. reflexivity.
  - destruct (Z.eq_dec view (View r)) as [->|Hw].
    + eapply wp_ub_noted; [exact Eb|exact Hid|exact G|]. intros u Hu. apply warranted_suspect_leader, Hu.
    + unfold SUSPECT_Process_TAT_UB. rewrite Eb. apply wp_bind, wp_get. rewrite (proj2 (Z.eqb_neq _ _) Hw).
      apply wp_ret. left. reflexivity.
  - eapply wp_conseq; [apply wp_process_new_leader; [exact HF|apply G]|]. cbv beta. intros _ t Ht. left. eapply voted_signed, Ht.
  - eapply wp_conseq; [apply wp_process_proof, G|]. cbv beta. intros _ t [Hg|(w & vs & _ & _ & _ & Hw)]; left.
    + unfold same, gauges in Hg. congruence.
    + apply Hw.
Qed.

Lemma warranted_step log r e : event_ok e -> measured log r ->
  wp F (suspect_handle clock VAR e) (fun _ => warranted log e r) r.
Proof.
  intros He G. destruct e as [m| |t| |]; cbn [suspect_handle]; [apply warranted_message; assumption| | | |];
    try (apply warranted_gauges; solve [eauto with frame]).
  unfold inconsistent_pre_prepare. apply wp_bind, wp_get.
  destruct (leader_suspected r) eqn:El; [apply wp_ret; left; reflexivity|].
  eapply wp_conseq; [apply wp_vote_once, G|]. cbv beta. intros _ t Ht. right. auto.
Qed.
End Invariant.
