(* ===== verification/SuspectVotes.v ===== *)
(** Votes: every event keeps the stored votes as their senders signed them, and a
    view is entered only on the votes of 2f+k+1 servers.  [A j w] says that server
    [j] may be taken to have voted for [w]; a replica's own votes are those it
    signed. *)
From Stdlib Require Import ZArith Lia List Bool.
From Stdlib Require Import Strings.Byte.
From stdpp Require Import base list gmap fin_sets.
From S2P Require Import Prelude Memory Config Packets Crypto Utility ReliableBroadcast OrderState PreOrderState Order OrderCorrect OrderHandlers OrderFrame PreOrder PreOrderCorrect Execute ViewState ViewChange SuspectLeader SuspectCorrect SuspectSystem SuspectInvariant.

Section Votes.
Context {calls : ViewCalls}.
Context (F : fault -> Prop) (HF : forall f, f <> OutOfFuel -> F f).
Context (clock : nat -> Z) (VAR : server_variables) (A : Z -> Z -> Prop).
Context (base : list Z).

Definition voter (r : state) (j w : Z) : Prop := A j w \/ j = My_Server_ID VAR /\ w ∈ votes_signed r.

Definition quorum_for (r : state) (w : Z) : Prop :=
  exists Q : gset Z, Q ⊆ server_ids NUM_SERVERS /\ vc_quorum VAR <= Z.of_nat (size Q) /\
    forall j, j ∈ Q -> voter r j w.

(** A stored vote is its sender's. *)
Definition stored_ok (r : state) (l : list (option vc_mess)) : Prop :=
  forall j m w, 1 <= j <= NUM_SERVERS -> aget l j = Some (Some m) -> vm_body m = New_Leader w ->
  vm_machine_id m = j /\ voter r j w.

(** A vote is to leave a view that was reached; views start at 1; the votes of
    [base] were signed. *)
Record votes_ok (r : state) : Prop := {
  v_sizes : sizes_ok (SU r);
  v_stored : stored_ok r (new_leader (SU r));
  v_signed : forall w, w ∈ votes_signed r -> w <= View r + 1;
  v_view : 1 <= View r /\ (View r = 1 \/ quorum_for r (View r));
  v_base : forall w, w ∈ base -> w ∈ votes_signed r }.

(** What a received vote says its senders voted is so; the votes of a proof are of
    different servers. *)
Definition authentic (e : suspect_event) : Prop :=
  match e with
  | Received m =>
      1 <= vm_machine_id m <= NUM_SERVERS /\
      match vm_body m with
      | New_Leader w => A (vm_machine_id m) w
      | New_Leader_Proof _ votes =>
          NoDup (map fst votes) /\ Forall (fun x => 1 <= fst x <= NUM_SERVERS /\ A (fst x) (snd x)) votes
      | _ => True
      end
  | _ => True
  end.

Lemma voter_more r t j w : (forall x, x ∈ votes_signed r -> x ∈ votes_signed t) -> voter r j w -> voter t j w.
Proof. unfold voter. intros H [Ha|[E Hw]]; auto. Qed.

Lemma quorum_more r t w : (forall x, x ∈ votes_signed r -> x ∈ votes_signed t) -> quorum_for r w -> quorum_for t w.
Proof. intros H (Q & H1 & H2 & H3). exists Q. repeat (split; [assumption|]). intros j Hj. eapply voter_more; eauto. Qed.

Lemma votes_same r t : same gauges r t -> votes_ok r -> votes_ok t.
Proof.
  intros Hg [V1 V2 V3 V4 V5]. unfold same, gauges in Hg. injection Hg as E1 E2 E3 E4 E5 E6 E7 E8 E9.
  assert (H : forall x, x ∈ votes_signed r -> x ∈ votes_signed t) by (intros x; rewrite E9; auto).
  split.
  - destruct V1 as (B1 & B2 & B3). unfold sizes_ok. rewrite E4, E6, E8. auto.
  - rewrite E8. intros j m w Hj Hm Hb. destruct (V2 j m w Hj Hm Hb) as [B1 B2]. split; [exact B1|eapply voter_more; eauto].
  - rewrite E9, E1. exact V3.
  - rewrite E1. split; [apply V4|]. destruct V4 as [_ [V4|V4]]; [left; exact V4|right; eapply quorum_more; eauto].
  - auto.
Qed.

(** A view entered on the votes of a quorum. *)
Lemma votes_entered r t w : entered w r t -> votes_ok r -> quorum_for r w -> votes_ok t.
Proof.
  intros (Hw & Ev & _ & Es & Hs & (_ & _ & _ & _ & _ & F6)) [V1 V2 V3 V4 V5] Hq.
  assert (H : forall x, x ∈ votes_signed r -> x ∈ votes_signed t) by (intros x; rewrite Es; auto).
  split; [exact Hs|..].
  - intros j m x Hj Hm. rewrite aget_drop, F6, aget_repeat in Hm by (change NUM_SERVERS with 6 in *; lia). discriminate.
  - rewrite Es, Ev. intros x Hx. specialize (V3 x Hx). lia.
  - split; [lia|]. right. rewrite Ev. eapply quorum_more; eauto.
  - auto.
Qed.

Lemma stored_aset r l l' mess : stored_ok r l -> aset l (vm_machine_id mess) (Some mess) = Some l' ->
  (forall w, vm_body mess = New_Leader w -> voter r (vm_machine_id mess) w) -> stored_ok r l'.
Proof.
  intros Hl El Hv j m w Hj Hm Hb. rewrite (aget_aset _ _ _ _ _ El) in Hm. destruct (Z.eq_dec _ j) as [<-|Hne].
  - injection Hm as <-. auto.
  - exact (Hl j m w Hj Hm Hb).
Qed.

(** The stored votes for a view, when they are as many. *)
Lemma stored_quorum r l w : stored_ok r l -> Z.of_nat (length (votes_for_view w l)) = vc_quorum VAR -> quorum_for r w.
Proof.
  intros Hl Hq. exists (list_to_set (votes_for_view w l)). split; [|split].
  - intros i Hi. apply elem_of_list_to_set, list_elem_of_In, filter_In in Hi as [Hi _].
    apply elem_of_server_ids. apply list_elem_of_In, elem_of_seqZ in Hi. lia.
  - rewrite size_list_to_set; [lia|]. apply NoDup_ListNoDup, List.NoDup_filter, NoDup_ListNoDup, NoDup_seqZ.
  - intros j Hj. apply elem_of_list_to_set, list_elem_of_In, filter_In in Hj as [Hj Hv].
    apply list_elem_of_In, elem_of_seqZ in Hj. destruct (aget l j) as [[[id inc b]|]|] eqn:E; try discriminate.
    destruct b; try discriminate. apply Z.eqb_eq in Hv. subst new_view.
    apply (Hl j _ w ltac:(lia) E). reflexivity.
Qed.

Lemma votes_voted r t mess : voted VAR mess r t -> (forall w, vm_body mess = New_Leader w -> voter r (vm_machine_id mess) w) ->
  votes_ok r -> votes_ok t.
Proof.
  intros [Hg|l El Hm Hl|w l Eb El Hq He] Hv V.
  - eapply votes_same; eassumption.
  - destruct V as [V1 V2 V3 V4 V5]. unfold same, measures in Hm. injection Hm as E1 E2 E3 E4 E5 E6 E7 E8.
    assert (H : forall x, x ∈ votes_signed r -> x ∈ votes_signed t) by (intros x; rewrite E8; auto). split.
    + destruct V1 as (B1 & B2 & B3). unfold sizes_ok. rewrite E4, E6, Hl, (aset_length _ _ _ _ El). auto.
    + rewrite Hl. intros j m w Hj Hmj Hb. destruct (stored_aset _ _ _ _ V2 El Hv j m w Hj Hmj Hb) as [B1 B2].
      split; [exact B1|eapply voter_more; eauto].
    + rewrite E8, E1. exact V3.
    + rewrite E1. split; [apply V4|]. destruct V4 as [_ [V4|V4]]; [left; exact V4|right; eapply quorum_more; eauto].
    + auto.
  - eapply votes_entered; [exact He|exact V|]. eapply stored_quorum; [|exact Hq].
    eapply stored_aset; [apply V|exact El|exact Hv].
Qed.

Lemma wrap32_le_succ x : 0 <= x -> wrap32 (x + 1) <= x + 1.
Proof. intros Hx. apply Z.mod_le; [lia|reflexivity]. Qed.

Lemma votes_vote r : votes_ok r ->
  wp F (modify suspect ;;; vote_new_leader clock VAR) (fun _ => votes_ok) r.
Proof.
  intros V. apply wp_bind, wp_modify. eapply wp_conseq; [apply wp_vote_new_leader; [exact HF|apply V]|].
  cbv beta. intros _ t (r1 & m & t' & (E1 & E2 & E3 & E4 & E5 & E6 & E7) & H2 & H3). eapply votes_same; [exact H3|].
  change (View (suspect r)) with (View r) in *. change (votes_signed (suspect r)) with (votes_signed r) in E7.
  change (SU (suspect r)) with (SU r) in E6.
  assert (H : forall x, x ∈ votes_signed r -> x ∈ votes_signed r1) by (intros x Hx; rewrite E7; apply elem_of_app; auto).
  eapply votes_voted; [exact H2| |].
  - rewrite E1, E2. intros w [= <-]. right. split; [reflexivity|]. rewrite E7. apply elem_of_app. right. constructor.
  - destruct V as [V1 V2 V3 V4 V5]. split.
    + rewrite E6. exact V1.
    + rewrite E6. intros j m' w Hj Hm Hb. destruct (V2 j m' w Hj Hm Hb). split; [assumption|eapply voter_more; eauto].
    + rewrite E7, E3. intros w [Hw|Hw]%elem_of_app; [apply V3, Hw|]. apply list_elem_of_singleton in Hw as ->.
      apply wrap32_le_succ. lia.
    + rewrite E3. split; [apply V4|]. destruct V4 as [_ [V4|V4]]; [left; exact V4|right; eapply quorum_more; eauto].
    + auto.
Qed.

(** A proof with different senders is of a quorum. *)
Lemma proof_quorum r w votes : NoDup (map fst votes) -> Forall (fun x => 1 <= fst x <= NUM_SERVERS /\ A (fst x) (snd x)) votes ->
  vc_quorum VAR <= Z.of_nat (length votes) -> Forall (fun x => snd x = w) (take (Z.to_nat (vc_quorum VAR)) votes) -> quorum_for r w.
Proof.
  intros Hn Ha Hl Hw. set (n := Z.to_nat (vc_quorum VAR)) in *. exists (list_to_set (map fst (take n votes))).
  rewrite Forall_forall in Ha, Hw. split; [|split].
  - intros i Hi. apply elem_of_list_to_set, list_elem_of_In, in_map_iff in Hi as (x & <- & Hx).
    apply list_elem_of_In in Hx. apply elem_of_server_ids. apply (Ha x), (subseteq_take n votes), Hx.
  - assert (Hnd : NoDup (map fst (take n votes))).
    { rewrite <- firstn_map. apply sublist_NoDup with (map fst votes); [exact Hn|]. apply sublist_take. }
    rewrite size_list_to_set by exact Hnd. rewrite length_map, length_take. lia.
  - intros j Hj. apply elem_of_list_to_set, list_elem_of_In, in_map_iff in Hj as (x & <- & Hx). apply list_elem_of_In in Hx.
    left. rewrite <- (Hw x Hx). apply (Ha x), (subseteq_take n votes), Hx.
Qed.

(** ** The steps *)
Lemma votes_within {X} r (m : comp state X) : within F (same gauges) m -> votes_ok r -> wp F m (fun _ => votes_ok) r.
Proof. intros H V. eapply wp_conseq; [apply H|]. cbv beta. intros _ t Ht. eapply votes_same; eassumption. Qed.

Lemma votes_suspect_leader r : votes_ok r -> wp F (SUSPECT_Suspect_Leader clock VAR) (fun _ => votes_ok) r.
Proof.
  intros V. unfold SUSPECT_Suspect_Leader. apply wp_bind, wp_get, wp_susp.
  destruct (negb _ && _); [apply votes_vote, V|apply wp_ret, V].
Qed.

(** What changes only the measurements. *)
Lemma votes_su r t : View t = View r -> votes_signed t = votes_signed r -> new_leader (SU t) = new_leader (SU r) ->
  sizes_ok (SU t) -> votes_ok r -> votes_ok t.
Proof.
  intros E1 E2 E3 Hs [V1 V2 V3 V4 V5]. unfold stored_ok, quorum_for, voter in *.
  split; [exact Hs|..]; unfold stored_ok, quorum_for, voter; rewrite ?E1, ?E2, ?E3; assumption.
Qed.

Lemma votes_tat_measure r mess : votes_ok r -> wp F (SUSPECT_Process_TAT_Measure clock VAR mess) (fun _ => votes_ok) r.
Proof.
  intros V. unfold SUSPECT_Process_TAT_Measure. destruct (vm_body mess); try (apply wp_ret, V).
  apply wp_bind, wp_get. destruct (negb _); [apply wp_ret, V|]. apply wp_susp.
  apply wp_bind, wp_or_oob; [apply HF; discriminate|]. intros old _.
  apply wp_bind, wp_or_oob; [apply HF; discriminate|]. intros l El. apply wp_bind, wp_modify.
  apply wp_bind, wp_or_oob; [apply HF; discriminate|]. intros x _. apply wp_bind, wp_modify, votes_suspect_leader.
  apply (votes_su r); try reflexivity; [|exact V]. destruct (v_sizes _ V) as (B1 & B2 & B3).
  repeat split; [|exact B2|exact B3]. rewrite <- B1. f_equal. apply (aset_length _ _ _ _ El).
Qed.

Lemma votes_tat_ub r mess : votes_ok r -> wp F (SUSPECT_Process_TAT_UB clock VAR mess) (fun _ => votes_ok) r.
Proof.
  intros V. unfold SUSPECT_Process_TAT_UB. destruct (vm_body mess); try (apply wp_ret, V).
  apply wp_bind, wp_get. destruct (negb _); [apply wp_ret, V|]. apply wp_susp.
  apply wp_bind, wp_or_oob; [apply HF; discriminate|]. intros old _.
  apply wp_bind, wp_or_oob; [apply HF; discriminate|]. intros l El.
  apply wp_bind, wp_or_oob; [apply HF; discriminate|]. intros x _. apply wp_bind, wp_modify, votes_suspect_leader.
  apply (votes_su r); try reflexivity; [|exact V]. destruct (v_sizes _ V) as (B1 & B2 & B3).
  repeat split; [exact B1| |exact B3]. rewrite <- B2. f_equal. apply (aset_length _ _ _ _ El).
Qed.

Lemma votes_step r e : authentic e -> votes_ok r -> wp F (suspect_handle clock VAR e) (fun _ => votes_ok) r.
Proof.
  intros He V. destruct e as [m| |t| |]; cbn [suspect_handle].
  - destruct He as [Hid He]. unfold SUSPECT_PROCESS_Message. destruct (vm_body m) eqn:Eb; try (apply wp_ret, V).
    + apply votes_tat_measure, V.
    + apply votes_within; [apply gauges_ping; exact clock|exact V].
    + apply votes_within; [apply gauges_pong; assumption|exact V].
    + apply votes_within; [apply gauges_rtt; assumption|exact V].
    + apply votes_tat_ub, V.
    + eapply wp_conseq; [apply wp_process_new_leader; [exact HF|apply V]|]. cbv beta. intros _ t Ht.
      eapply votes_voted; [exact Ht| |exact V]. rewrite Eb. intros w [= <-]. left. exact He.
    + eapply wp_conseq; [apply wp_process_proof; [exact HF|apply V]|]. cbv beta. unfold proved. rewrite Eb.
      intros _ t [Hg|(w & vs & [= <- <-] & Hl & Hall & Hw)]; [eapply votes_same; eassumption|].
      eapply votes_entered; [exact Hw|exact V|]. eapply proof_quorum; [apply He|apply He|exact Hl|exact Hall].
  - unfold inconsistent_pre_prepare. apply wp_bind, wp_get. destruct (leader_suspected r); [apply wp_ret, V|apply votes_vote, V].
  - apply votes_within; [apply gauges_timer; assumption|exact V].
  - apply votes_within; [apply gauges_challenge; assumption|exact V].
  - apply votes_within; [apply gauges_answered; assumption|exact V].
Qed.
End Votes.
