(* ===== verification/SuspectProps.v ===== *)
(** The properties of suspecting the leader: what a replica takes for the leader's
    time is vouched for by correct servers, a leader that is too slow for them is
    voted out and no other, and a view is left only when a quorum votes for it. *)
From Stdlib Require Import ZArith Lia List Bool Floats.SpecFloat.
From Stdlib Require Import Strings.Byte.
From stdpp Require Import base list gmap fin_sets.
From S2P Require Import Prelude Memory Config Packets Crypto Utility ReliableBroadcast OrderState PreOrderState Order OrderCorrect OrderHandlers OrderFrame PreOrder PreOrderCorrect Execute ViewState ViewChange SuspectLeader SuspectCorrect SuspectSystem SuspectInvariant SuspectVotes.

Lemma init_quorums i : 0 <= VF (Init_VAR i) /\ 0 <= VK (Init_VAR i) /\ 3 * VF (Init_VAR i) + 2 * VK (Init_VAR i) + 1 = NUM_SERVERS.
Proof. repeat split; discriminate. Qed.

(** ** A replica *)
(** What other components may do to it: anything but move the gauges, the votes or
    the view. *)
Definition readings (r : state) :=
  (View r, leader_suspected r,
   (reported_tats (SU r), tat_leader (SU r), tat_leader_ubs (SU r), tat_acceptable (SU r)),
   (new_leader (SU r), votes_signed r)).

Section Replica.
Context {calls : ViewCalls}.
Context (clock : nat -> Z) (VAR : server_variables).

Definition started (r : state) : Prop :=
  exists r0, sizes_ok (SU r0) /\ View r0 = 1 /\ votes_signed r0 = [] /\
             SUSPECT_Initialize_Data_Structure clock VAR r0 = Ret (tt, r).

(** The states of a replica, with the messages it received. *)
Inductive replica_runs : list (Z * vc_mess) -> state -> Prop :=
| runs_start r : started r -> replica_runs [] r
| runs_event log r e t : replica_runs log r -> event_ok e -> suspect_handle clock VAR e r = Ret (tt, t) ->
    replica_runs (hear r e log) t
| runs_other log r t : replica_runs log r -> same readings r t -> replica_runs log t.

Lemma started_fresh r : started r ->
  View r = 1 /\ votes_signed r = [] /\ sizes_ok (SU r) /\ fresh (SU r).
Proof.
  intros (r0 & Hs & Ev & Es & Hr).
  set (s := set_others (set_rest (put_SUSP (put_new_leader_proof None (SU r0)) (rest (others r0))) (others r0)) r0).
  assert (Hr' : SUSPECT_Initialize_Upon_View_Change clock VAR s = Ret (tt, r)) by exact Hr.
  pose proof (wp_initialize any_fault (fun _ _ => I) clock VAR s Hs) as H.
  unfold wp in H. rewrite Hr' in H. destruct H as (E1 & _ & E3 & _ & E4 & E5).
  change (View r = View r0) in E1. change (votes_signed r = votes_signed r0) in E3.
  split; [congruence|]. split; [congruence|]. split; assumption.
Qed.

Lemma measured_readings log r t : same readings r t -> measured VAR log r -> measured VAR log t.
Proof.
  unfold same, readings. intros [= E1 E2 E3 E4 E5 E6 E7 E8] [G1 G2 G3 G4 G5 G6].
  split; unfold sizes_ok, leader_gauge, bound_gauge in *; rewrite ?E1, ?E3, ?E4, ?E5, ?E6, ?E7; assumption.
Qed.
End Replica.

Lemma runs_measured {calls : ViewCalls} clock i log r : replica_runs clock (Init_VAR i) log r -> measured (Init_VAR i) log r.
Proof.
  induction 1 as [r Hr|log r e t _ IH He Ht|log r t _ IH Ht].
  - apply started_fresh in Hr as (_ & _ & Hs & Hf). apply measured_fresh; [apply init_quorums|exact Hs|exact Hf|constructor].
  - pose proof (gauges_step any_fault (fun _ _ => I) clock (Init_VAR i) (init_quorums i) False log r e He) as H.
    unfold wp in H. rewrite Ht in H. apply H. split; [exact IH|]. intros [].
  - eapply measured_readings; eassumption.
Qed.




(** Gauges are vouched for, by any servers that are enough. *)
Section Vouched.
Context (me : Z) (log : list (Z * vc_mess)) (r : state) (C : gset Z).
Context (G : measured (Init_VAR me) log r) (HC : C ⊆ server_ids NUM_SERVERS).
Context (Hsize : vc_quorum (Init_VAR me) <= Z.of_nat (size C)).


End Vouched.

(** *** Runs *)
(** DATA as the loader zeroes it, but for what [main] and the other components set:
    the view, and the arrays of pre-ordering. *)
Definition boot_po : po_data (R := vc_data) :=
  let zero := mkPS 0 0 in
  {| PO_History := ∅; aru := per_server_slot zero; cum_aru := per_server_slot zero; max_acked := per_server_slot zero;
     cum_max_acked := per_server_slot (per_server_slot zero); white_line := per_server_slot zero;
     last_executed_po_reqs := per_server_slot zero; cum_aru_updated := false; new_po_aru := false; po_aru_num := 0;
     po_ack_start_server := 0; po_ack_start_seq := zero; po_seq := zero; po_seq_executed := zero;
     intro_client_seq := per_server_slot zero; PO_Pending := ∅; Recon_History := ∅; events_ordered := 0;
     recovery_status := per_server_slot PR_NORMAL; num_startup := 0; executed_ord := 1; po_request_dll := [];
     reading_clients := true; rest := zero_vc |}.

Definition boot : state :=
  {| View := 1; view_change_done := true; ARU := 0; ppARU := 0; high_prepared := 0;
     high_committed := 0; forwarding_white_line := 0; recon_white_line := 0; stable_catchup := 0; next_seq := 1;
     should_send_pp := false; History := ∅; Pending_Execution := ∅; proposal_digest := zeros DIGEST_SIZE;
     new_incarnation_val := 5; preinstalled_incarnations := OrderState.per_server 0;
     installed_incarnations := OrderState.per_server 0; cum_acks := zeros (NUM_SERVER_SLOTS * sz_po_aru_signed_message);
     max_num_sent_in_proof := OrderState.per_server (mkPS 0 0); leader_suspected := false; turnaround_times := [];
     actions := []; others := boot_po |}.

Definition plain_calls : ViewCalls :=
  {| VIEW_CATCH_Schedule_Catchup := fun _ => ret tt; slot_order := fun l => l; partial_sig_order := fun l => l |}.

(** A clock of one millisecond per reading. *)
Definition ticks (n : nat) : Z := 1000 * Z.of_nat n.

Definition returned {A} (o : outcome (A * state)) : state := match o with Ret (_, s) => s | Fault _ => boot end.

Definition first_state (i : Z) : state := returned (SUSPECT_Initialize_Data_Structure ticks (Init_VAR i) boot).

Lemma first_state_started i : 1 <= i <= NUM_SERVERS -> started ticks (Init_VAR i) (first_state i).
Proof.
  intros Hi. exists boot. split; [repeat split|split; [reflexivity|split; [reflexivity|]]].
  assert (H : i ∈ seqZ 1 NUM_SERVERS) by (apply elem_of_seqZ; lia). revert i Hi H.
  enough (Forall (fun i => SUSPECT_Initialize_Data_Structure ticks (Init_VAR i) boot = Ret (tt, first_state i)) (seqZ 1 NUM_SERVERS)) as H
    by (rewrite Forall_forall in H; intros i _ Hi; apply H, Hi).
  repeat constructor.
Qed.

Fixpoint run_events (i : Z) (log : list (Z * vc_mess)) (r : state) (l : list suspect_event) : option (list (Z * vc_mess) * state) :=
  match l with
  | [] => Some (log, r)
  | e :: l =>
      match @suspect_handle plain_calls ticks (Init_VAR i) e r with
      | Ret (_, t) => run_events i (hear r e log) t l
      | Fault _ => None
      end
  end.

Lemma run_events_runs i l : forall log r log' t, @replica_runs plain_calls ticks (Init_VAR i) log r -> Forall event_ok l ->
  run_events i log r l = Some (log', t) -> @replica_runs plain_calls ticks (Init_VAR i) log' t.
Proof.
  induction l as [|e l IH]; intros log r log' t Hr Hl; cbn [run_events]; [intros [= <- <-]; exact Hr|].
  apply Forall_cons in Hl as [He Hl]. destruct (suspect_handle _ _ e r) as [[[] u]|f] eqn:E; [|discriminate].
  apply (IH (hear r e log) u); [eapply runs_event; eassumption|exact Hl].
Qed.

(** Servers 2 to 5 allow the leader of view 1 a tenth of a second, and the ones of
    the list found that it takes one. *)
Definition bound_of (j : Z) : suspect_event := Received (mkVcMess j 5 (Tat_Ub 1 (ddiv (double_of_Z 1) (double_of_Z 10)))).
Definition slow_for (j : Z) : vc_mess := mkVcMess j 5 (Tat_Measure 1 (double_of_Z 1)).

Definition slow_run (l : list Z) : list (Z * vc_mess) * state :=
  match run_events 1 [] (first_state 1) (map bound_of [2; 3; 4; 5] ++ map (fun j => Received (slow_for j)) l) with
  | Some x => x
  | None => ([], boot)
  end.

Lemma slow_run_runs l : Forall (fun j => 1 <= j <= NUM_SERVERS) l ->
  run_events 1 [] (first_state 1) (map bound_of [2; 3; 4; 5] ++ map (fun j => Received (slow_for j)) l) = Some (slow_run l) ->
  @replica_runs plain_calls ticks (Init_VAR 1) (fst (slow_run l)) (snd (slow_run l)).
Proof.
  intros Hl. destruct (slow_run l) as [log t]. apply run_events_runs.
  - apply runs_start, first_state_started. unfold NUM_SERVERS, NUM_F, NUM_K. lia.
  - apply Forall_app. split; [repeat (constructor; [vm_compute; split; discriminate|]); constructor|].
    apply Forall_map. exact Hl.
Qed.







(** The fourth report makes the replica vote. *)
Definition before_vote : list (Z * vc_mess) * state := slow_run [2; 3; 4].
Definition after_vote : state :=
  returned (@suspect_handle plain_calls ticks (Init_VAR 1) (Received (slow_for 5)) (snd before_vote)).

Lemma before_vote_runs : @replica_runs plain_calls ticks (Init_VAR 1) (fst before_vote) (snd before_vote).
Proof. apply slow_run_runs; [repeat (constructor; [vm_compute; split; discriminate|]); constructor|vm_compute; reflexivity]. Qed.


Lemma count_one_more `{EqDecision A} (p q : A -> bool) (x : A) l : NoDup l -> (forall y, y <> x -> q y = p y) ->
  (length (List.filter q l) <= S (length (List.filter p l)))%nat.
Proof.
  intros Hn H. induction Hn as [|y l Hy Hn IH]; cbn; [lia|].
  destruct (q y) eqn:Eq, (p y) eqn:Ep; cbn; try lia.
  - destruct (decide (y = x)) as [->|Hne]; [|rewrite H in Eq by exact Hne; congruence].
    assert (E : List.filter q l = List.filter p l); [|rewrite E; lia].
    apply filter_ext_in. intros z Hz. apply H. intros ->. apply Hy, list_elem_of_In, Hz.
Qed.

Section Vote.
Context {calls : ViewCalls} (clock : nat -> Z) (me : Z) (Hme : 1 <= me <= NUM_SERVERS).

(** No vote of its own is stored, and no quorum is about to be complete. *)
Definition no_quorum_yet (r : state) : Prop :=
  aget (new_leader (SU r)) me = Some None /\
  Z.of_nat (length (votes_for_view (View r + 1) (new_leader (SU r)))) + 1 < vc_quorum (Init_VAR me).

Definition own_vote_of (r : state) : vc_mess := mkVcMess me (new_incarnation_val r) (New_Leader (View r + 1)).

(** What a replica that votes does: it suspects the leader, stores its vote, signs it
    and sends it, and will send it again; nothing else changes. *)
Definition voting (l : list (option vc_mess)) (r : state) : state :=
  with_rest (fun d => put_SUSP (put_new_leader l (SUSP d))
      (put_vc_sent (vc_sent d ++ [Signed (own_vote_of r); Broadcast (own_vote_of r)])
        (put_timers (List.filter (fun x => negb (bool_decide (fst x = SUSPECT_New_Leader_Timer))) (timers d)
                     ++ [(SUSPECT_New_Leader_Timer, SUSPECT_NEW_LEADER_SEC * 1000000)]) d)))
    (suspect r).

Definition voted_out (r t : state) : Prop :=
  exists l, aset (new_leader (SU r)) me (Some (own_vote_of r)) = Some l /\ t = voting l r.

Lemma votes_for_aset w (l l' : list (option vc_mess)) m : aset l me m = Some l' ->
  Z.of_nat (length (votes_for_view w l')) <= Z.of_nat (length (votes_for_view w l)) + 1.
Proof.
  intros El. enough (length (votes_for_view w l') <= S (length (votes_for_view w l)))%nat by lia.
  apply (count_one_more _ _ me); [apply NoDup_seqZ|]. intros y Hy. rewrite (aget_aset_ne _ _ _ _ _ El) by congruence. reflexivity.
Qed.

Lemma wp_votes_out (r : state) : sizes_ok (SU r) -> 0 <= View r < two32 - 1 -> no_quorum_yet r ->
  wp no_fault (modify suspect ;;; vote_new_leader clock (Init_VAR me)) (fun _ t => voted_out r t) r.
Proof.
  intros (_ & _ & Hs) Hv [Hnone Hq]. apply wp_bind, wp_modify. unfold vote_new_leader. apply wp_bind.
  assert (Ew : wrap32 (View r + 1) = View r + 1) by (apply wrap32_small; lia).
  change (wp no_fault (SUSPECT_Construct_New_Leader (Init_VAR me)) ?Q (suspect r)) with
    (Q (mkVcMess me (new_incarnation_val r) (New_Leader (wrap32 (View r + 1)))) (suspect r)). cbv beta. rewrite Ew.
  fold (own_vote_of r). apply wp_bind, wp_modify. set (r1 := set_others _ (suspect r)).
  apply wp_bind. unfold SUSPECT_Process_New_Leader. change (vm_body (own_vote_of r)) with (New_Leader (View r + 1)). cbv iota.
  apply wp_bind, wp_get. change (View r1) with (View r). rewrite (proj2 (Z.leb_gt _ _)) by lia.
  apply wp_bind. change (wp no_fault susp ?Q r1) with (Q (SU r1) r1). cbv beta.
  apply wp_bind. eapply wp_or_oob_Some; [exact Hnone|]. cbv iota. apply wp_bind.
  apply wp_aset_in; [change (vm_machine_id (own_vote_of r)) with me; change (new_leader (SU r1)) with (new_leader (SU r)); rewrite Hs; change NUM_SERVER_SLOTS with (NUM_SERVERS + 1); lia|].
  change (vm_machine_id (own_vote_of r)) with me. change (new_leader (SU r1)) with (new_leader (SU r)). intros l El.
  apply wp_bind, wp_modify. set (r2 := set_others _ r1). pose proof (votes_for_aset (View r + 1) _ _ _ El) as Hc.
  replace (negb _) with true; [|symmetry; apply negb_true_iff, Z.eqb_neq; lia].
  apply wp_ret. unfold SUSPECT_New_Leader_Periodically. apply wp_bind.
  change (wp no_fault susp ?Q r2) with (Q (SU r2) r2). cbv beta. apply wp_bind.
  eapply wp_or_oob_Some; [exact (aget_aset_eq _ _ _ _ El)|].
  apply wp_bind, wp_modify. set (r3 := set_others _ r2). apply wp_bind, wp_modify. set (r4 := set_others _ r3).
  apply wp_modify. set (r5 := set_others _ r4).
  exists l. split; [exact El|]. unfold voting, with_rest.
  replace (vc_sent _ ++ [_; _]) with ((vc_sent (rest (others r)) ++ [Signed (own_vote_of r)]) ++ [Broadcast (own_vote_of r)])
    by (rewrite <- app_assoc; reflexivity). reflexivity.
Qed.
End Vote.

(** C9. A report in the current view is noted, in its sender's entry and the gauge
    taken from the entries and nowhere else, and the handler returns.  This is all
    when the replica suspects the leader already or the leader's time is not above
    what is acceptable; else it suspects the leader, signs, stores and broadcasts its
    vote and queues its repetition, and does nothing else.  For a replica that does
    not suspect the leader it is assumed that it has no vote of its own stored and
    is not about to complete a quorum, which would start the next view. *)
Theorem slow_leader_is_voted_out {calls : ViewCalls} (clock : nat -> Z) (me : Z) (log : list (Z * vc_mess)) (r : state) (m : vc_mess) (t : double)
    (Hrun : replica_runs clock (Init_VAR me) log r) (Hm : 1 <= vm_machine_id m <= NUM_SERVERS) (Hme : 1 <= me <= NUM_SERVERS)
    (Hbody : vm_body m = Tat_Measure (View r) t \/ vm_body m = Tat_Ub (View r) t)
    (Hview : 0 <= View r < two32 - 1) (Hq : leader_suspected r = false -> no_quorum_yet me r) :
  exists u r', noted (Init_VAR me) log m r u /\
    suspect_handle clock (Init_VAR me) (Received m) r = Ret (tt, r') /\
    if negb (leader_suspected r) && dlt (acceptable_time u (tat_acceptable (SU u))) (tat_leader (SU u)) then voted_out me u r' else r' = u.
Proof.
  assert (Hsl : forall u, noted (Init_VAR me) log m r u ->
    wp no_fault (SUSPECT_Suspect_Leader clock (Init_VAR me)) (fun _ r' => exists u, noted (Init_VAR me) log m r u /\
      if negb (leader_suspected r) && dlt (acceptable_time u (tat_acceptable (SU u))) (tat_leader (SU u)) then voted_out me u r' else r' = u) u).
  { intros u Hu. pose proof Hu as [G Hmk]. apply marked_same in Hmk as (E1 & E2 & E3 & E4 & E5). unfold SUSPECT_Suspect_Leader.
    apply wp_bind, wp_get. apply wp_bind. change (wp no_fault susp ?Q u) with (Q (SU u) u). cbv beta.
    rewrite E3. destruct (negb _ && _) eqn:E.
    - pose proof E as [Es%negb_true_iff _]%andb_true_iff. specialize (Hq Es). eapply wp_conseq; [apply (wp_votes_out clock me Hme); [apply (g_sizes _ _ _ G)|rewrite E1; exact Hview|]|].
      + unfold no_quorum_yet in *. rewrite E1, E5. exact Hq.
      + cbv beta. intros _ r' Hr'. exists u. rewrite E. auto.
    - apply wp_ret. exists u. rewrite E. auto. }
  assert (H : wp no_fault (suspect_handle clock (Init_VAR me) (Received m)) (fun _ r' => exists u, noted (Init_VAR me) log m r u /\
      if negb (leader_suspected r) && dlt (acceptable_time u (tat_acceptable (SU u))) (tat_leader (SU u)) then voted_out me u r' else r' = u) r).
  { cbn [suspect_handle]. unfold SUSPECT_PROCESS_Message. pose proof (runs_measured _ _ _ _ Hrun) as G.
    destruct Hbody as [Eb|Eb]; rewrite Eb.
    - eapply wp_tat_noted; [apply init_quorums|exact Eb|exact Hm|exact G|exact Hsl].
    - eapply wp_ub_noted; [apply init_quorums|exact Eb|exact Hm|exact G|exact Hsl]. }
  unfold wp in H. destruct (suspect_handle _ _ _ r) as [[[] r']|f]; [|destruct H].
  destruct H as (u & Hu & Hr). exists u, r'. auto.
Qed.

Lemma slow_leader_is_voted_out_witness :
  exists u, dlt (acceptable_time u (tat_acceptable (SU u))) (tat_leader (SU u)) = true /\
    voted_out 1 u after_vote.
Proof.
  destruct (slow_leader_is_voted_out (calls := plain_calls) ticks 1 (fst before_vote) (snd before_vote) (slow_for 5) (double_of_Z 1))
    as (u & r' & Hu & Hr & H).
  - apply before_vote_runs.
  - split; vm_compute; discriminate.
  - split; vm_compute; discriminate.
  - left. vm_compute. reflexivity.
  - vm_compute. split; [discriminate|reflexivity].
  - split; [vm_compute; reflexivity|vm_compute; reflexivity].
  - assert (E : after_vote = r') by (unfold after_vote; rewrite Hr; reflexivity).
    assert (E1 : leader_suspected after_vote = true) by (vm_compute; reflexivity).
    assert (E2 : leader_suspected (snd before_vote) = false) by (vm_compute; reflexivity).
    rewrite E2 in H. cbn [negb andb] in H. destruct (dlt _ _) eqn:Et.
    + exists u. rewrite E. split; [exact Et|exact H].
    + exfalso. subst u. destruct Hu as [_ (_ & _ & Es & _)%marked_same]. rewrite <- E in Es. congruence.
Defined.

(** ** Views of all the replicas *)
(** The correct replicas; a faulty server may be taken to have voted for anything,
    since its signature is its own. *)
Abbreviation view_system := (gmap Z state).

Definition may_vote (σ : view_system) (j w : Z) : Prop := forall s, σ !! j = Some s -> w ∈ votes_signed s.

(** The measurements and the votes of a view start over. *)
Definition restarted (s t : state) : Prop :=
  leader_suspected t = false /\ votes_signed t = votes_signed s /\ sizes_ok (SU t) /\ fresh (SU t).

(** Catchup takes a replica to the view of a certificate, up or again to its own, when
    the Commits in it are of 2f+k+1 different servers.  A correct one commits in the
    view it is in: [been] are the replicas and the views they have been in. *)
Definition caught_up (been : gset (Z * Z)) (σ : view_system) (s t : state) : Prop :=
  View s <= View t /\ restarted s t /\
  exists Q : gset Z, Q ⊆ server_ids NUM_SERVERS /\ 2 * NUM_F + NUM_K + 1 <= Z.of_nat (size Q) /\
    forall j, j ∈ Q -> is_Some (σ !! j) -> (j, View t) ∈ been.

Section Views.
Context {calls : ViewCalls} (clock : Z -> nat -> Z).

(** What replica [i] in state [s] does. *)
Inductive view_step (been : gset (Z * Z)) (σ : view_system) (i : Z) (s : state) : state -> Prop :=
| step_event e t : authentic (may_vote σ) e -> suspect_handle (clock i) (Init_VAR i) e s = Ret (tt, t) -> view_step been σ i s t
| step_catchup t : caught_up been σ s t -> view_step been σ i s t
| step_other t : same readings s t -> view_step been σ i s t.

Definition view_start (σ : view_system) : Prop := forall i s, σ !! i = Some s -> started (clock i) (Init_VAR i) s.

Inductive view_reachable : gset (Z * Z) -> view_system -> Prop :=
| reach_start σ : view_start σ -> view_reachable (set_map (fun i => (i, 1)) (dom σ)) σ
| reach_step been σ i s t : view_reachable been σ -> σ !! i = Some s -> view_step been σ i s t ->
    view_reachable ({[(i, View t)]} ∪ been) (<[i := t]> σ).

Definition views_ok (σ : view_system) : Prop :=
  forall i s, σ !! i = Some s -> votes_ok (Init_VAR i) (may_vote σ) [] s.

(** A view that may be entered: the first, or one with the votes of a quorum. *)
Definition view_voted (σ : view_system) (w : Z) : Prop :=
  w = 1 \/ exists Q : gset Z, Q ⊆ server_ids NUM_SERVERS /\ vc_quorum (Init_VAR 1) <= Z.of_nat (size Q) /\
    forall j, j ∈ Q -> may_vote σ j w.

Definition been_voted (been : gset (Z * Z)) (σ : view_system) : Prop := forall i w, (i, w) ∈ been -> view_voted σ w.

(** Votes that stay make what they vouch for stay. *)
Lemma votes_ok_more i σ τ b s : (forall j w, may_vote σ j w -> may_vote τ j w) ->
  votes_ok (Init_VAR i) (may_vote σ) b s -> votes_ok (Init_VAR i) (may_vote τ) [] s.
Proof.
  intros H [V1 V2 V3 V4 V5]. assert (Hv : forall j w, voter (Init_VAR i) (may_vote σ) s j w -> voter (Init_VAR i) (may_vote τ) s j w)
    by (intros j w [Ha|Hb]; [left; auto|right; exact Hb]).
  split; [exact V1| |exact V3| |intros w Hw; inversion Hw].
  - intros j m w Hj Hm Hb. destruct (V2 j m w Hj Hm Hb). auto.
  - split; [apply V4|]. destruct V4 as [_ [V4|(Q & H1 & H2 & H3)]]; [left; exact V4|right]. exists Q. auto.
Qed.

Lemma may_vote_update σ i s t : σ !! i = Some s -> (forall w, w ∈ votes_signed s -> w ∈ votes_signed t) ->
  forall j w, may_vote σ j w -> may_vote (<[i := t]> σ) j w.
Proof.
  intros Hs Hst j w Hj s' Hs'. destruct (decide (j = i)) as [->|Hne].
  - rewrite lookup_insert_eq in Hs'. injection Hs' as <-. apply Hst, Hj, Hs.
  - rewrite lookup_insert_ne in Hs' by congruence. apply Hj, Hs'.
Qed.

Lemma views_ok_update σ i s t : σ !! i = Some s -> views_ok σ ->
  votes_ok (Init_VAR i) (may_vote σ) (votes_signed s) t -> views_ok (<[i := t]> σ).
Proof.
  intros Hs Hok Ht j s' Hs'. pose proof (may_vote_update σ i s t Hs (v_base _ _ _ _ Ht)) as H.
  destruct (decide (j = i)) as [->|Hne].
  - rewrite lookup_insert_eq in Hs'. injection Hs' as <-. eapply votes_ok_more; [exact H|exact Ht].
  - rewrite lookup_insert_ne in Hs' by congruence. eapply votes_ok_more; [exact H|apply Hok, Hs'].
Qed.

Lemma votes_ok_own i σ s : votes_ok (Init_VAR i) (may_vote σ) [] s -> votes_ok (Init_VAR i) (may_vote σ) (votes_signed s) s.
Proof. intros [V1 V2 V3 V4 V5]. split; auto. Qed.

Lemma views_start σ : view_start σ -> views_ok σ.
Proof.
  intros H i s Hi. apply H, started_fresh in Hi as (Ev & Es & Hs & (_ & _ & _ & _ & _ & F6)). split.
  - exact Hs.
  - intros j m w Hj Hm. rewrite aget_drop, F6, aget_repeat in Hm by (change NUM_SERVERS with 6 in *; lia). discriminate.
  - rewrite Es. intros w Hw. inversion Hw.
  - rewrite Ev. split; [lia|left; reflexivity].
  - intros w Hw. inversion Hw.
Qed.

Lemma view_voted_more σ τ w : (forall j w, may_vote σ j w -> may_vote τ j w) -> view_voted σ w -> view_voted τ w.
Proof. intros H [->|(Q & H1 & H2 & H3)]; [left; reflexivity|right]. exists Q. auto. Qed.

(** The view of a replica may be entered. *)
Lemma votes_ok_view i σ s : σ !! i = Some s -> votes_ok (Init_VAR i) (may_vote σ) [] s -> view_voted σ (View s).
Proof.
  intros Hi [_ _ _ [_ [H|(Q & H1 & H2 & H3)]] _]; [left; exact H|right]. exists Q. split; [exact H1|]. split; [exact H2|].
  intros j Hj. destruct (H3 j Hj) as [H|[-> H]]; [exact H|]. intros s' Hs'. cbn in Hs'. congruence.
Qed.

(** Of the servers of a certificate one is correct. *)
Lemma certified_voted been σ (Q : gset Z) w : Z.of_nat (size (server_ids NUM_SERVERS ∖ dom σ)) <= NUM_F ->
  been_voted been σ -> Q ⊆ server_ids NUM_SERVERS -> 2 * NUM_F + NUM_K + 1 <= Z.of_nat (size Q) ->
  (forall j, j ∈ Q -> is_Some (σ !! j) -> (j, w) ∈ been) -> view_voted σ w.
Proof.
  intros Hf Hb HQ Hs Hv. destruct (decide (Q ∩ dom σ = ∅)) as [E|(j & [HjQ Hj]%elem_of_intersection)%set_choose_L].
  - assert (Hsub : Q ⊆ server_ids NUM_SERVERS ∖ dom σ) by (intros x Hx; apply elem_of_difference; set_solver).
    apply subseteq_size in Hsub. unfold NUM_F, NUM_K in *. lia.
  - apply (Hb j), Hv; [exact HjQ|]. apply elem_of_dom, Hj.
Qed.

Lemma votes_caught_up been σ i s t : Z.of_nat (size (server_ids NUM_SERVERS ∖ dom σ)) <= NUM_F ->
  been_voted been σ -> caught_up been σ s t -> votes_ok (Init_VAR i) (may_vote σ) (votes_signed s) s ->
  votes_ok (Init_VAR i) (may_vote σ) (votes_signed s) t.
Proof.
  intros Hf Hb (Hw & (_ & Es & Hs & (_ & _ & _ & _ & _ & F6)) & Q & HQ & HsQ & HvQ) [V1 V2 V3 V4 V5].
  split; [exact Hs|..].
  - intros j m x Hj Hm. rewrite aget_drop, F6, aget_repeat in Hm by (change NUM_SERVERS with 6 in *; lia). discriminate.
  - rewrite Es. intros x Hx. specialize (V3 x Hx). lia.
  - split; [lia|]. destruct (certified_voted been σ Q (View t) Hf Hb HQ HsQ HvQ) as [H|(P & H1 & H2 & H3)]; [left; exact H|right].
    exists P. split; [exact H1|]. split; [exact H2|]. intros j Hj. left. auto.
  - rewrite Es. auto.
Qed.

Lemma votes_view_step been σ i s t : Z.of_nat (size (server_ids NUM_SERVERS ∖ dom σ)) <= NUM_F ->
  been_voted been σ -> votes_ok (Init_VAR i) (may_vote σ) [] s -> view_step been σ i s t ->
  votes_ok (Init_VAR i) (may_vote σ) (votes_signed s) t.
Proof.
  intros Hf Hb V%votes_ok_own [e t' He Ht|t' Ht|t' Ht].
  - pose proof (votes_step any_fault (fun _ _ => I) (clock i) (Init_VAR i) (may_vote σ) (votes_signed s) s e He V) as H.
    unfold wp in H. rewrite Ht in H. exact H.
  - eapply votes_caught_up; eassumption.
  - unfold same, readings in Ht. injection Ht as E1 E2 E3 E4 E5 E6 E7 E8.
    apply (votes_su (Init_VAR i) (may_vote σ) (votes_signed s) s); try assumption.
    destruct V as [(A & B & C) _ _ _ _]. unfold sizes_ok. rewrite E3, E5, E7. auto.
Qed.

Lemma reachable_views been σ : view_reachable been σ -> Z.of_nat (size (server_ids NUM_SERVERS ∖ dom σ)) <= NUM_F ->
  views_ok σ /\ been_voted been σ.
Proof.
  induction 1 as [σ H|been σ i s t _ IH Hi Hs]; intros Hf.
  - split; [apply views_start, H|]. intros i w Hiw. apply elem_of_map in Hiw as (j & [= -> ->] & _). left. reflexivity.
  - assert (Hd : dom (<[i := t]> σ) = dom σ).
    { rewrite dom_insert_L. apply elem_of_dom_2 in Hi. set_solver. }
    rewrite Hd in Hf. destruct (IH Hf) as [Hok Hb]. pose proof (votes_view_step been σ i s t Hf Hb (Hok i s Hi) Hs) as V.
    pose proof (views_ok_update σ i s t Hi Hok V) as Hok'. split; [exact Hok'|].
    intros j w [[= -> ->]%elem_of_singleton|Hw]%elem_of_union.
    + apply (votes_ok_view i); [apply lookup_insert_eq|]. apply Hok', lookup_insert_eq.
    + eapply view_voted_more; [apply (may_vote_update σ i s t Hi (v_base _ _ _ _ V))|exact (Hb j w Hw)].
Qed.
End Views.

(** C6. A correct replica is in a view other than the first only if f+k+1 correct
    replicas signed a vote for it, each having been in the view before: views are
    left one by one, on the votes of a quorum.  Views are entered on votes, on
    proofs of New-Leader votes and by catchup, on the Commits of a certificate;
    system resets are outside.  This is for proofs and certificates in which the
    senders differ, as the protocol means them; the code does not check it, and without it one faulty server moves a
    replica to a view of its choice ([one_server_moves_the_view],
    [forged_certificate_moves_view]). *)
Theorem views_left_by_quorum {calls : ViewCalls} (clock : Z -> nat -> Z) (been : gset (Z * Z)) (σ : view_system) (i : Z) (s : state)
    (Hreach : view_reachable clock been σ) (Hfaulty : Z.of_nat (size (server_ids NUM_SERVERS ∖ dom σ)) <= NUM_F)
    (Hi : σ !! i = Some s) (Hview : View s <> 1) :
  exists V : gset Z, V ⊆ dom σ /\ NUM_F + NUM_K + 1 <= Z.of_nat (size V) /\
    forall j, j ∈ V -> exists u, σ !! j = Some u /\ View s ∈ votes_signed u /\ View s - 1 <= View u.
Proof.
  destruct (reachable_views clock been σ Hreach Hfaulty) as [Hok _].
  destruct (votes_ok_view i σ s Hi (Hok i s Hi)) as [H|(Q & HQ & HsQ & Hv)]; [contradiction|].
  exists (Q ∩ dom σ). split; [set_solver|split].
  - assert (Hsub : Q ⊆ (Q ∩ dom σ) ∪ (server_ids NUM_SERVERS ∖ dom σ)).
    { intros x Hx. destruct (decide (x ∈ dom σ)); set_solver. }
    apply subseteq_size in Hsub. rewrite size_union in Hsub by set_solver. change (vc_quorum (Init_VAR 1)) with 4 in HsQ.
    unfold NUM_F, NUM_K in *. lia.
  - intros j [HjQ Hj]%elem_of_intersection. apply elem_of_dom in Hj as [u Hu]. exists u. split; [exact Hu|].
    pose proof (Hv j HjQ u Hu) as Hw. split; [exact Hw|]. pose proof (v_signed _ _ _ _ (Hok j u Hu) _ Hw). lia.
Qed.

(** *** A run *)
(** Replicas 2 to 5 find that the leader contradicts itself and vote; replicas 1 to 3
    enter the next view on their votes, and replica 5 by catchup, on what these three
    and the faulty one commit there. *)
Definition vote_from (j : Z) : suspect_event := Received (mkVcMess j 5 (New_Leader 2)).

Definition authenticb (σ : view_system) (e : suspect_event) : bool :=
  match e with
  | Received (mkVcMess j _ (New_Leader w)) =>
      (1 <=? j) && (j <=? NUM_SERVERS) &&
      match σ !! j with Some s => bool_decide (w ∈ votes_signed s) | None => true end
  | Inconsistent => true
  | _ => false
  end.

(** What catchup does to enter view [w], as far as suspecting the leader goes. *)
Definition catch_up (i w : Z) : comp state unit :=
  modify (set_view w false) ;;; SUSPECT_Initialize_Upon_View_Change ticks (Init_VAR i).

Definition can_catch_up (been : gset (Z * Z)) (σ : view_system) (w : Z) (s : state) : bool :=
  (View s <=? w)
  && bool_decide (2 * NUM_F + NUM_K + 1 <= Z.of_nat (size (filter (fun j => is_Some (σ !! j) -> (j, w) ∈ been) (server_ids NUM_SERVERS))))
  && bool_decide (sizes_ok (SU s)).

Fixpoint run_system (been : gset (Z * Z)) (σ : view_system) (l : list (Z * (suspect_event + Z))) : option (gset (Z * Z) * view_system) :=
  match l with
  | [] => Some (been, σ)
  | (i, what) :: l =>
      match σ !! i with
      | Some s =>
          let go t := run_system ({[(i, View t)]} ∪ been) (<[i := t]> σ) l in
          match what with
          | inl e =>
              if authenticb σ e then
                match @suspect_handle plain_calls ticks (Init_VAR i) e s with
                | Ret (_, t) => go t
                | Fault _ => None
                end
              else None
          | inr w =>
              if can_catch_up been σ w s then
                match catch_up i w s with
                | Ret (_, t) => go t
                | Fault _ => None
                end
              else None
          end
      | None => None
      end
  end.

Lemma authenticb_authentic σ e : authenticb σ e = true -> authentic (may_vote σ) e.
Proof.
  destruct e as [[j inc b]| | | |]; try discriminate; [|intros _; exact I]. destruct b; try discriminate.
  cbn. intros [[H1%Z.leb_le H2%Z.leb_le]%andb_true_iff H]%andb_true_iff. split; [lia|]. intros s Hs. rewrite Hs in H.
  apply bool_decide_eq_true in H. exact H.
Qed.

Lemma catch_up_caught_up been σ i w s t : can_catch_up been σ w s = true -> catch_up i w s = Ret (tt, t) ->
  caught_up been σ s t.
Proof.
  intros [[H1%Z.leb_le H2%bool_decide_eq_true]%andb_true_iff H3%bool_decide_eq_true]%andb_true_iff Ht.
  pose proof (wp_initialize any_fault (fun _ _ => I) ticks (Init_VAR i) (set_view w false s) H3) as H.
  unfold wp in H. change (catch_up i w s) with (SUSPECT_Initialize_Upon_View_Change ticks (Init_VAR i) (set_view w false s)) in Ht.
  rewrite Ht in H. destruct H as (Ev & El & Es & _ & Hs & Hf). change (View t = w) in Ev.
  change (votes_signed t = votes_signed s) in Es.
  split; [lia|]. split; [split; [exact El|split; [exact Es|split; assumption]]|].
  eexists. split; [|split; [exact H2|]].
  - intros j Hj. apply elem_of_filter in Hj. apply Hj.
  - intros j Hj Hss. rewrite Ev. apply elem_of_filter in Hj as [Hj _]. auto.
Qed.

Lemma run_system_reachable l : forall been σ been' τ, @view_reachable plain_calls (fun _ => ticks) been σ ->
  run_system been σ l = Some (been', τ) -> @view_reachable plain_calls (fun _ => ticks) been' τ.
Proof.
  induction l as [|[i what] l IH]; intros been σ been' τ Hσ; cbn [run_system]; [intros [= <- <-]; exact Hσ|].
  destruct (σ !! i) as [s|] eqn:Es; [|discriminate]. destruct what as [e|w].
  - destruct (authenticb σ e) eqn:Ea; [|discriminate].
    destruct (suspect_handle _ _ e s) as [[[] t]|f] eqn:Et; [|discriminate].
    apply IH. eapply reach_step; [exact Hσ|exact Es|]. eapply step_event; [apply authenticb_authentic, Ea|exact Et].
  - destruct (can_catch_up _ _ _ _) eqn:Ec; [|discriminate]. destruct (catch_up i w s) as [[[] t]|f] eqn:Et; [|discriminate].
    apply IH. eapply reach_step; [exact Hσ|exact Es|]. eapply step_catchup, catch_up_caught_up; eassumption.
Qed.

Definition first_system : view_system := list_to_map (map (fun i => (i, first_state i)) [1; 2; 3; 4; 5]).

Definition to_next_view : list (Z * (suspect_event + Z)) :=
  map (fun i => (i, inl Inconsistent)) [2; 3; 4; 5]
  ++ concat (map (fun i => map (fun j => (i, inl (vote_from j))) [2; 3; 4; 5]) [1; 2; 3]) ++ [(5, inr 2)].

Definition next_view : gset (Z * Z) * view_system :=
  match run_system (set_map (fun i => (i, 1)) (dom first_system)) first_system to_next_view with
  | Some x => x
  | None => (∅, ∅)
  end.

Lemma first_system_start : view_start (fun _ => ticks) first_system.
Proof.
  intros i s Hs. apply elem_of_list_to_map_2 in Hs. apply list_elem_of_In, in_map_iff in Hs as (j & [= <- <-] & Hj).
  apply first_state_started. cbn in Hj. unfold NUM_SERVERS, NUM_F, NUM_K. lia.
Qed.

Lemma views_left_by_quorum_witness :
  map (fun i => fmap View (snd next_view !! i)) [1; 2; 3; 4; 5] = [Some 2; Some 2; Some 2; Some 1; Some 2] /\
  exists V : gset Z, V ⊆ dom (snd next_view) /\ NUM_F + NUM_K + 1 <= Z.of_nat (size V) /\
    forall j, j ∈ V -> exists u, snd next_view !! j = Some u /\ 2 ∈ votes_signed u /\ 2 - 1 <= View u.
Proof.
  split; [vm_compute; reflexivity|].
  assert (E : fmap View (snd next_view !! 5) = Some 2) by (vm_compute; reflexivity).
  destruct (snd next_view !! 5) as [s|] eqn:Es; [|discriminate E]. injection E as Ev. rewrite <- Ev.
  apply (views_left_by_quorum (calls := plain_calls) (fun _ => ticks) (fst next_view) (snd next_view) 5 s).
  - apply (run_system_reachable to_next_view (set_map (fun i => (i, 1)) (dom first_system)) first_system).
    + apply reach_start, first_system_start.
    + vm_compute. reflexivity.
  - vm_compute. discriminate.
  - exact Es.
  - rewrite Ev. discriminate.
Defined.

(** *** A proof of one server *)
(** The senders of a New-Leader-Proof are not compared: with 2f+k+1 copies of the
    vote of one faulty server a replica enters whatever view that names. *)
Definition repeated_vote : vc_mess := mkVcMess 6 5 (New_Leader_Proof 77 (repeat (6, 77) 4)).

Lemma one_server_moves_the_view :
  View (returned (@suspect_handle plain_calls ticks (Init_VAR 1) (Received repeated_vote) (first_state 1))) = 77.
Proof. vm_compute. reflexivity. Qed.
