(* ===== verification/CatchupRound.v ===== *)
(** Asking for catchup: a round of attempts asks every other server once, and the
    next one asks to be moved ahead. *)
From Stdlib Require Import ZArith Lia List Bool Permutation.
From Stdlib Require Import Strings.Byte.
From stdpp Require Import base list gmap.
From S2P Require Import Prelude Memory Config Packets Crypto Utility OrderState PreOrderState CatchupState Order PreOrder Execute ViewState ViewChange Catchup SuspectProps.

(** ** The state but for catchup *)
Definition CATCHUP (r : state) : catch_data := CATCH (rest (others r)).

(** [r] with other data of catchup, timers and number of readings of the clock. *)
Definition with_catchup (c : catch_data) (q : list (timer * Z)) (k : nat) (r : state) : state :=
  let d := rest (others r) in
  set_others (set_rest (mkVc (SUSP d) (VIEW d) (RB d) (vc_catchup_target d) (vc_catchup_source d) q
                          (startup_finished d) k (vc_sent d) c) (others r)) r.

Definition own_catchup (r : state) : state :=
  with_catchup (CATCHUP r) (timers (rest (others r))) (clock_reads (rest (others r))) r.

Lemma own_catchup_is r : own_catchup r = r.
Proof. destruct r as [? ? ? ? ? ? ? ? ? ? ? ? ? ? ? ? ? ? ? ? ? ? e]. destruct e. destruct rest. reflexivity. Qed.

Definition dequeued (t : timer) (q : list (timer * Z)) : list (timer * Z) :=
  List.filter (fun x => negb (bool_decide (fst x = t))) q.

Section Runs.
Context {crypto : Crypto} {signer : Signer} {ext : External vc_data}.
Context (clock : nat -> Z) (rand : nat -> Z) (VAR : server_variables).
Implicit Types r : state.

Section At.
Context (c : catch_data) (q : list (timer * Z)) (k : nat) (r : state).
Abbreviation here := (with_catchup c q k r).

Lemma run_catch {B} (f : catch_data -> comp state B) : bind catch f here = f c here.
Proof. reflexivity. Qed.

Lemma run_catch_update {B} g (f : unit -> comp state B) :
  bind (catch_update g) f here = f tt (with_catchup (g c) q k r).
Proof. reflexivity. Qed.

Lemma run_catch_get {B} (f : state -> comp state B) : bind get f here = f here here.
Proof. reflexivity. Qed.

Lemma run_get_time {B} (f : Z -> comp state B) :
  bind (E_get_time clock) f here = f (clock k) (with_catchup c q (S k) r).
Proof. reflexivity. Qed.

Lemma run_in_queue {B} t (f : bool -> comp state B) :
  bind (E_in_queue t) f here = f (existsb (fun x => bool_decide (fst x = t)) q) here.
Proof. reflexivity. Qed.

Lemma run_queue {B} t usec (f : unit -> comp state B) :
  bind (E_queue t usec) f here = f tt (with_catchup c (dequeued t q ++ [(t, usec)]) k r).
Proof. reflexivity. Qed.
End At.

Lemma run_set_time c q k r i t l :
  aset (next_catchup_time c) i t = Some l ->
  set_catchup_time i t (with_catchup c q k r) = Ret (tt, with_catchup (put_next_catchup_time l c) q k r).
Proof. intros H. unfold set_catchup_time. rewrite run_catch. unfold or_oob. rewrite H. reflexivity. Qed.

(** ** One attempt *)
(** The request that is sent next. *)
Definition next_request (flag : Z) (c : catch_data) r : catchup_request :=
  mkCatchupRequest (My_Server_ID VAR) (new_incarnation_val r) flag (wrap32 (rand (nonces c))) (ARU r)
    (take (Z.to_nat NUM_SERVERS) (drop 1 (cum_aru (others r)))) (proposal_digest r).

Definition request_sent (id : Z) (m : catchup_request) (l : list (option catchup_request)) (c : catch_data) : catch_data :=
  put_catch_sent (catch_sent c ++ [Request_Pending (UTIL_Bitmap_Set 0 id) m])
    (put_requests (last_catchup_request c) l (put_nonces (S (nonces c)) c)).

Lemma run_send_request c q k r id flag l :
  aset (sent_catchup_request c) id (Some (next_request flag c r)) = Some l ->
  send_catchup_request rand VAR id flag (with_catchup c q k r)
  = Ret (tt, with_catchup (request_sent id (next_request flag c r) l c) q k r).
Proof.
  intros H. unfold send_catchup_request.
  rewrite (run_bind _ _ _ (next_request flag c r) (with_catchup (put_nonces (S (nonces c)) c) q k r)) by reflexivity.
  rewrite run_catch. unfold or_oob. change (sent_catchup_request (put_nonces _ c)) with (sent_catchup_request c).
  rewrite H. reflexivity.
Qed.

Lemma highest_anywhere aru certs servers : forall best b r r' r1,
  highest_certificate VAR aru certs servers best r = Ret (b, r1) ->
  highest_certificate VAR aru certs servers best r' = Ret (b, r').
Proof.
  induction servers as [|i servers IH]; intros best b r r' r1; cbn.
  - intros [= -> _]. reflexivity.
  - destruct (i =? My_Server_ID VAR); [apply IH|]. unfold bind, or_oob.
    destruct (aget certs i) as [[cert|]|]; [apply IH|apply IH|discriminate].
Qed.

(** What a replica knows to catch up with does not depend on the attempts. *)
Lemma target_stays c q k c' q' k' r t :
  last_ord_cert c' = last_ord_cert c ->
  catchup_target VAR (with_catchup c q k r) = Ret (t, with_catchup c q k r) ->
  catchup_target VAR (with_catchup c' q' k' r) = Ret (t, with_catchup c' q' k' r).
Proof.
  intros Ec. unfold catchup_target, vc, po. unfold bind at 1 2 3 4 6 7 8 9. cbn -[highest_certificate]. rewrite Ec.
  unfold bind.
  destruct (highest_certificate VAR (ARU r) (last_ord_cert c) _ _ (with_catchup c q k r)) as [[b r1]|] eqn:E; [|discriminate].
  rewrite (highest_anywhere _ _ _ _ _ _ (with_catchup c' q' k' r) _ E).
  rewrite (highest_anywhere _ _ _ _ _ _ (with_catchup c q k r) _ E) in E. injection E as <-. cbn.
  intros [= <-]. reflexivity.
Qed.

Definition arrays_sized (c : catch_data) : Prop :=
  Z.of_nat (length (next_catchup_time c)) = NUM_SERVER_SLOTS /\
  Z.of_nat (length (sent_catchup_request c)) = NUM_SERVER_SLOTS.

Definition is_server (i : Z) : Prop := 1 <= i <= NUM_SERVERS.

(** How an attempt sends its request. *)
Record asked r (flag id : Z) (c c' : catch_data) : Prop := {
  as_certs : last_ord_cert c' = last_ord_cert c;
  as_arrays : arrays_sized c';
  as_sent : exists m, catch_sent c' = catch_sent c ++ [Request_Pending (UTIL_Bitmap_Set 0 id) m] /\
    cr_machine_id m = My_Server_ID VAR /\ cr_flag m = flag /\ cr_aru m = ARU r }.

Lemma aset_sized {A} (l : list A) i x :
  Z.of_nat (length l) = NUM_SERVER_SLOTS -> is_server i ->
  exists l', aset l i x = Some l' /\ Z.of_nat (length l') = NUM_SERVER_SLOTS.
Proof.
  intros Hl Hi. unfold is_server in Hi. change NUM_SERVERS with 6 in Hi. change NUM_SERVER_SLOTS with 7 in *.
  eexists. split; [apply aset_Some; lia|]. rewrite length_insert. exact Hl.
Qed.

(** The flag of a request, with the slot that is to be reached. *)
Definition flag_for r (target : Z) (force : bool) : Z :=
  if force || (CATCHUP_HISTORY <? wrap32 (target - ARU r)) then FLAG_JUMP else FLAG_CATCHUP.

Lemma attempt_run c q k r target source id start :
  catchup_target VAR (with_catchup c q k r) = Ret ((target, source), with_catchup c q k r) ->
  ARU r < target -> is_server (My_Server_ID VAR) -> arrays_sized c ->
  id = (if catchup_in_progress c then next_catchup_id c else source) ->
  start = (if catchup_in_progress c then starting_catchup_id c else source) -> is_server id ->
  exists c' q' k',
    CATCH_Attempt_Catchup clock rand VAR (with_catchup c q k r) = Ret (tt, with_catchup c' q' k' r) /\
    asked r (flag_for r target (force_jump c)) id c c' /\
    let next := CATCH_Advance_Catchup_ID VAR id in
    if next =? start
    then catchup_in_progress c' = false /\ force_jump c' = true /\ (CATCH_Attempt_Timer, CATCHUP_PERIOD) ∈ q'
    else catchup_in_progress c' = true /\ force_jump c' = force_jump c /\ starting_catchup_id c' = start /\
      next_catchup_id c' = next.
Proof.
  intros Ht Hlt Hme [Ha1 Ha2] Eid Est Hid.
  unfold CATCH_Attempt_Catchup. rewrite (run_bind _ _ _ _ _ Ht). rewrite run_catch_get, run_catch.
  change (ARU (with_catchup c q k r)) with (ARU r). cbn [fst snd].
  replace (target <=? ARU r) with false by lia.
  (* the start of a round *)
  set (begin := if catchup_in_progress c then ret tt else _).
  assert (exists c1 k1, begin (with_catchup c q k r) = Ret (tt, with_catchup c1 q k1 r) /\
    last_ord_cert c1 = last_ord_cert c /\ catch_sent c1 = catch_sent c /\ arrays_sized c1 /\
    force_jump c1 = force_jump c /\ starting_catchup_id c1 = start /\ next_catchup_id c1 = id /\ catchup_in_progress c1 = true)
    as (c1 & k1 & E1 & L1 & S1 & [A1 A1'] & F1 & St1 & N1 & P1).
  { unfold begin. destruct (catchup_in_progress c) eqn:Ep.
    - exists c, k. repeat split; auto; congruence.
    - rewrite run_get_time.
      destruct (aset_sized (next_catchup_time c) (My_Server_ID VAR) (clock k + CATCHUP_PERIOD) Ha1 Hme) as (l & El & Hl).
      rewrite (run_bind _ _ _ _ _ (run_set_time _ _ _ _ _ _ _ El)).
      eexists _, _. split; [reflexivity|]. cbn. repeat split; auto. }
  rewrite (run_bind _ _ _ _ _ E1), run_catch. rewrite N1, F1. fold (flag_for r target (force_jump c)).
  set (flag := flag_for r target (force_jump c)).
  destruct (aset_sized (sent_catchup_request c1) id (Some (next_request flag c1 r)) A1' Hid) as (l2 & E2 & H2).
  rewrite (run_bind _ _ _ _ _ (run_send_request _ _ _ _ _ _ _ E2)).
  rewrite run_catch_update, run_queue, run_get_time.
  set (c3 := put_round _ _ _ _ _).
  destruct (aset_sized (next_catchup_time c3) (My_Server_ID VAR) (clock k1 + CATCHUP_PERIOD) A1 Hme) as (l3 & E3 & H3).
  rewrite (run_bind _ _ _ _ _ (run_set_time _ _ _ _ _ _ _ E3)), run_catch.
  assert (Hsent : exists m, catch_sent c3 = catch_sent c ++ [Request_Pending (UTIL_Bitmap_Set 0 id) m] /\
    cr_machine_id m = My_Server_ID VAR /\ cr_flag m = flag /\ cr_aru m = ARU r).
  { exists (next_request flag c1 r). cbn. rewrite S1. auto. }
  cbn [next_catchup_id starting_catchup_id put_next_catchup_time]. 
  change (next_catchup_id c3) with (CATCH_Advance_Catchup_ID VAR (next_catchup_id c1)).
  change (starting_catchup_id c3) with (starting_catchup_id c1). rewrite N1, St1.
  destruct (CATCH_Advance_Catchup_ID VAR id =? start).
  - rewrite run_catch_update. eexists _, _, _. split; [reflexivity|]. split; [split; [exact L1|split; [exact H3|exact H2]|exact Hsent]|].
    cbn. repeat split. apply elem_of_app. right. left.
  - eexists _, _, _. split; [reflexivity|]. split; [split; [exact L1|split; [exact H3|exact H2]|exact Hsent]|].
    cbn. rewrite N1. auto.
Qed.

(** ** A round *)
Fixpoint attempts (n : nat) : comp state unit :=
  match n with O => ret tt | S n => CATCH_Attempt_Catchup clock rand VAR ;;; attempts n end.

(** The servers asked from [id] on, back to [start]. *)
Fixpoint visits (start id : Z) (ids : list Z) : bool :=
  match ids with
  | [] => false
  | x :: ids =>
      let next := CATCH_Advance_Catchup_ID VAR id in
      (x =? id) && (1 <=? id) && (id <=? NUM_SERVERS)
      && (if next =? start then match ids with [] => true | _ => false end else visits start next ids)
  end.

(** For each own identifier and each start. *)
Ltac each_server :=
  unfold is_server; change NUM_SERVERS with 6; intros Hme Hs;
  let Es := fresh in let Em := fresh in
  match type of Hs with _ <= ?s <= _ => assert (s ∈ seqZ 1 6) as Es by (apply elem_of_seqZ; lia) end;
  assert (My_Server_ID VAR ∈ seqZ 1 6) as Em by (apply elem_of_seqZ; lia);
  vm_compute seqZ in Es, Em;
  repeat (apply elem_of_cons in Es as [->|Es]; [|]); try (apply elem_of_nil in Es; contradiction);
  repeat (apply elem_of_cons in Em as [->|Em]; [first [intros Hne; contradiction|intros; vm_compute; reflexivity]|]);
  apply elem_of_nil in Em; contradiction.

(** The servers but this one, from [start] on. *)
Definition ring (start : Z) : list Z :=
  List.filter (fun i => negb (i =? My_Server_ID VAR)) (seqZ start (NUM_SERVERS - start + 1) ++ seqZ 1 (start - 1)).

Lemma ring_length start : is_server (My_Server_ID VAR) -> is_server start -> Z.of_nat (length (ring start)) = NUM_SERVERS - 1.
Proof.
  intros Hme Hs. unfold ring. revert Hme Hs. each_server.
Qed.

Lemma ring_visits start : is_server (My_Server_ID VAR) -> is_server start -> start <> My_Server_ID VAR ->
  visits start start (ring start) = true.
Proof.
  unfold visits, ring, CATCH_Advance_Catchup_ID. each_server.
Qed.

Lemma ring_others start i : is_server start -> i ∈ ring start <-> is_server i /\ i <> My_Server_ID VAR.
Proof.
  unfold is_server, ring. change NUM_SERVERS with 6. intros Hs.
  rewrite list_elem_of_In, filter_In, <- list_elem_of_In, elem_of_app, !elem_of_seqZ, negb_true_iff, Z.eqb_neq. lia.
Qed.

Lemma ring_once start : is_server start -> NoDup (ring start).
Proof.
  unfold is_server, ring. change NUM_SERVERS with 6. intros Hs.
  apply NoDup_ListNoDup, List.NoDup_filter, NoDup_ListNoDup, NoDup_app. split; [apply NoDup_seqZ|]. split; [|apply NoDup_seqZ].
  intros x. rewrite !elem_of_seqZ. lia.
Qed.

(** A message asks server [id] for the slots beyond [ARU]. *)
Definition asks r (flag id : Z) (o : catch_out) : Prop :=
  exists m, o = Request_Pending (UTIL_Bitmap_Set 0 id) m /\
    cr_machine_id m = My_Server_ID VAR /\ cr_flag m = flag /\ cr_aru m = ARU r.

Lemma attempts_visit r target source start ids : forall c q k id,
  visits start id ids = true -> ARU r < target -> is_server (My_Server_ID VAR) ->
  catchup_target VAR (with_catchup c q k r) = Ret ((target, source), with_catchup c q k r) -> arrays_sized c ->
  id = (if catchup_in_progress c then next_catchup_id c else source) ->
  start = (if catchup_in_progress c then starting_catchup_id c else source) ->
  exists c' q' k' outs,
    attempts (length ids) (with_catchup c q k r) = Ret (tt, with_catchup c' q' k' r) /\
    last_ord_cert c' = last_ord_cert c /\ arrays_sized c' /\
    catch_sent c' = catch_sent c ++ outs /\ Forall2 (asks r (flag_for r target (force_jump c))) ids outs /\
    catchup_in_progress c' = false /\ force_jump c' = true /\ (CATCH_Attempt_Timer, CATCHUP_PERIOD) ∈ q'.
Proof.
  induction ids as [|x ids IH]; intros c q k id Hv Hlt Hme Ht Ha Eid Est; [discriminate|].
  cbn [visits] in Hv. apply andb_prop in Hv as [Hv Hnext]. apply andb_prop in Hv as [Hv Hi2].
  apply andb_prop in Hv as [Hx Hi1]. apply Z.eqb_eq in Hx as ->.
  assert (Hid : is_server id) by (unfold is_server; lia).
  destruct (attempt_run c q k r target source id start Ht Hlt Hme Ha Eid Est Hid) as (c1 & q1 & k1 & E1 & [L1 A1 (m & S1 & Hm)] & Hr).
  cbn [attempts length]. rewrite (run_bind _ _ _ _ _ E1). cbv zeta in Hr. 
  assert (Hasks : asks r (flag_for r target (force_jump c)) id (Request_Pending (UTIL_Bitmap_Set 0 id) m)) by (exists m; auto).
  destruct (CATCH_Advance_Catchup_ID VAR id =? start).
  - destruct ids; [|discriminate]. exists c1, q1, k1, [Request_Pending (UTIL_Bitmap_Set 0 id) m].
    split; [reflexivity|]. do 3 (split; [assumption|]). split; [repeat constructor; exact Hasks|]. tauto.
  - destruct Hr as (P1 & F1 & St1 & N1).
    destruct (IH c1 q1 k1 _ Hnext Hlt Hme (target_stays _ _ _ _ _ _ _ _ L1 Ht) A1) as (c2 & q2 & k2 & outs & E2 & L2 & A2 & S2 & O2 & R2);
      [rewrite P1; auto|rewrite P1; auto|].
    exists c2, q2, k2, (Request_Pending (UTIL_Bitmap_Set 0 id) m :: outs).
    split; [exact E2|]. split; [congruence|]. split; [exact A2|].
    split; [rewrite S2, S1, <- app_assoc; reflexivity|]. split; [|exact R2].
    constructor; [exact Hasks|]. rewrite F1 in O2. exact O2.
Qed.
End Runs.

(** C17. A replica that knows of slots beyond those it has executed asks for them: in
    NUM_SERVERS - 1 attempts it sends one request to each other server, first to the one
    it knows them from, and each for everything beyond its [ARU]; the round is over
    then, the next attempt is queued, and asks the first server again, now to be
    moved ahead with a Jump. *)
Theorem catchup_round_asks_everyone clock rand VAR (r : state) target source :
  is_server (My_Server_ID VAR) -> is_server source -> source <> My_Server_ID VAR ->
  arrays_sized (CATCHUP r) -> catchup_in_progress (CATCHUP r) = false ->
  catchup_target VAR r = Ret ((target, source), r) -> ARU r < target ->
  exists r1 r2 ids outs o,
    attempts clock rand VAR (Z.to_nat (NUM_SERVERS - 1)) r = Ret (tt, r1) /\
    NoDup ids /\ head ids = Some source /\ (forall i, i ∈ ids <-> is_server i /\ i <> My_Server_ID VAR) /\
    catch_sent (CATCHUP r1) = catch_sent (CATCHUP r) ++ outs /\
    Forall2 (asks VAR r (flag_for r target (force_jump (CATCHUP r)))) ids outs /\
    catchup_in_progress (CATCHUP r1) = false /\ (CATCH_Attempt_Timer, CATCHUP_PERIOD) ∈ timers (rest (others r1)) /\
    CATCH_Attempt_Catchup clock rand VAR r1 = Ret (tt, r2) /\
    catch_sent (CATCHUP r2) = catch_sent (CATCHUP r1) ++ [o] /\ asks VAR r FLAG_JUMP source o.
Proof.
  intros Hme Hs Hne Ha Hp Ht Hlt. rewrite <- (own_catchup_is r) in Ht at 1 2. unfold own_catchup in Ht.
  destruct (attempts_visit clock rand VAR r target source source (ring VAR source) _ _ _ source
              (ring_visits VAR source Hme Hs Hne) Hlt Hme Ht Ha) as (c1 & q1 & k1 & outs & E1 & L1 & A1 & S1 & O1 & P1 & F1 & Q1);
    [rewrite Hp; reflexivity|rewrite Hp; reflexivity|].
  pose proof (target_stays VAR _ _ _ c1 q1 k1 _ _ L1 Ht) as Ht1.
  destruct (attempt_run clock rand VAR c1 q1 k1 r target source source source Ht1 Hlt Hme A1)
    as (c2 & q2 & k2 & E2 & [_ _ (m & S2 & Hm)] & _); [rewrite P1; reflexivity..|exact Hs|].
  exists (with_catchup c1 q1 k1 r), (with_catchup c2 q2 k2 r), (ring VAR source), outs, (Request_Pending (UTIL_Bitmap_Set 0 source) m).
  replace (Z.to_nat (NUM_SERVERS - 1)) with (length (ring VAR source)) by (pose proof (ring_length VAR source Hme Hs); lia).
  rewrite <- (own_catchup_is r) at 1. split; [exact E1|].
  split; [apply ring_once, Hs|]. split.
  { unfold ring. rewrite seqZ_cons by (unfold is_server in Hs; lia). cbn. replace (source =? My_Server_ID VAR) with false by lia. reflexivity. }
  split; [intros i; apply ring_others, Hs|]. split; [exact S1|]. split; [exact O1|]. split; [exact P1|]. split; [exact Q1|].
  split; [exact E2|]. split; [exact S2|]. exists m. split; [reflexivity|].
  destruct Hm as (? & Hf & ?). split; [assumption|]. split; [|assumption]. rewrite Hf. unfold flag_for. rewrite F1. reflexivity.
Qed.

(** Server 2 has seen 8 slots committed and executed none. *)
Definition behind : state :=
  set_high_committed 8 (own_catchup (returned (CATCH_Initialize_Data_Structure ticks (fun _ => 5) (Init_VAR 2) (first_state 2)))).

Lemma catchup_round_asks_everyone_witness :
  ARU behind < 8 /\
  exists r1 ids outs, attempts ticks (fun _ => 5) (Init_VAR 2) 5 behind = Ret (tt, r1) /\ NoDup ids /\
    (forall i, i ∈ ids <-> is_server i /\ i <> 2) /\ catch_sent (CATCHUP r1) = outs /\
    Forall2 (asks (Init_VAR 2) behind FLAG_CATCHUP) ids outs.
Proof.
  split; [vm_compute; reflexivity|].
  destruct (catchup_round_asks_everyone ticks (fun _ => 5) (Init_VAR 2) behind 8 3)
    as (r1 & _ & ids & outs & _ & E & N & _ & I & S & O & _);
    [split; vm_compute; discriminate|split; vm_compute; discriminate|vm_compute; discriminate|split; vm_compute; reflexivity
    |vm_compute; reflexivity|vm_compute; reflexivity|vm_compute; reflexivity|].
  exists r1, ids, outs. split; [exact E|]. split; [exact N|]. split; [exact I|]. split; [rewrite S; reflexivity|].
  exact O.
Defined.
