(* ===== verification/CatchupSteps.v ===== *)
(** Taking in the certificate of a slot is a run of the ordering protocol.

    What [CATCH_Process_ORD_Certificate] does to a correct replica that stays in its
    view is a sequence of steps of the ordering system ([OrderSystem]): the slot is
    made ready ([adopts]), and the certificate's messages are received.  So the
    theorems about ordered and executed slots hold for replicas that catch up. *)
From Stdlib Require Import ZArith Lia List Bool.
From Stdlib Require Import Strings.Byte.
From stdpp Require Import base list gmap fin_sets.
From S2P Require Import Prelude Memory Config Packets Crypto Utility Eligibility EligibilityCorrect ReliableBroadcast OrderState PreOrderState CatchupState Order OrderCorrect OrderHandlers OrderSystem OrderProps PreOrder OrderFrame PreOrderCorrect Recon ReconCorrect Execute ExecuteCorrect ExecuteProps ViewState ViewChange Catchup SuspectSystem SuspectProps CatchupRound.

(** ** The view goes forward *)
Section Forward.
Context {crypto : Crypto} {signer : Signer} {ext : External vc_data} {calls : ViewCalls}.
Context {ext_ok : ExternalOk any_fault ext}.
Context (clock : nat -> Z) (stack_matrix : list byte) (VAR : server_variables).
Context (HVAR : 1 <= 2 * VF VAR + VK VAR + 1 <= NUM_SERVERS).
Context (Hvote : within any_fault later (EXT_SUSPECT_New_Leader VAR)).

Let allowed f (_ : f <> OutOfFuel) : any_fault f := I.

Abbreviation forward := (within any_fault (later (E := po_data (R := vc_data)))).

Lemma forward_of {A} (m : comp state A) : within any_fault onward m -> forward m.
Proof. apply onward_is_later. Qed.

Lemma forward_aside {A} (m : comp state A) : within any_fault aside m -> forward m.
Proof. intros H. apply forward_of, within_aside_onward, H. Qed.
Hint Resolve forward_of forward_aside : frame.

Lemma forward_modify f : (forall r : state, same_view r (f r)) -> forward (modify f).
Proof. intros H. apply within_modify. intros r. apply later_view, H. Qed.

Lemma forward_put (f : state -> state) {A} (k : comp state A) :
  (forall r, same_view r (f r)) -> forward k -> forward (r <- get ;; put (f r) ;;; k).
Proof.
  intros Hf Hk. apply within_get_bind. intros r. apply wp_bind, wp_put.
  eapply wp_conseq; [apply Hk|]. cbv beta. intros _ r'. apply transitivity, later_view, Hf.
Qed.

Lemma forward_upd seq f : forward (upd seq f).
Proof. apply forward_of, onward_upd. Qed.

Lemma forward_slot seq : forward (UTIL_Get_ORD_Slot seq).
Proof.
  unfold UTIL_Get_ORD_Slot. apply within_get_bind. intros r. destruct (_ !! _); [apply wp_ret; reflexivity|].
  apply wp_bind, wp_put, wp_ret, later_view. split; reflexivity.
Qed.
Hint Resolve forward_upd forward_slot : frame.
Hint Resolve Hvote : frame.
Ltac forward_modify :=
  apply forward_modify; intros ?; repeat match goal with |- context [if ?b then _ else _] => destruct b end;
  split; reflexivity.
Ltac run_forward := pose proof allowed; repeat first [walk1 | forward_modify].

Lemma forward_collect seq : forward (ORDER_Garbage_Collect_ORD_Slot (R := vc_data) seq).
Proof. unfold ORDER_Garbage_Collect_ORD_Slot. run_forward. Qed.
Hint Resolve forward_collect : frame.

Lemma forward_eligible cum_acks last : forward (compute_eligible VAR cum_acks last).
Proof. apply forward_of, onward_compute_eligible, HVAR. Qed.
Lemma forward_Process_PO_ARU m : forward (PreOrder.PRE_ORDER_Process_PO_ARU VAR m).
Proof. apply forward_aside, within_Process_PO_ARU; [exact allowed|exact HVAR]. Qed.
Lemma forward_Send_Prepares : forward (ORDER_Send_Prepares VAR).
Proof. apply forward_of, onward_Send_Prepares, HVAR. Qed.
Hint Resolve forward_eligible forward_Process_PO_ARU forward_Send_Prepares : frame.

Lemma forward_apply_rows cum_acks rows : forward (apply_rows VAR cum_acks rows).
Proof. induction rows; cbn [apply_rows]; unfold row; run_forward. Qed.
Hint Resolve forward_apply_rows : frame.

Lemma forward_white_line fuel : forward (raise_white_line fuel).
Proof.
  induction fuel as [|fuel IH]; cbn [raise_white_line]; [intros r; exact I|].
  apply within_get_bind. intros r. cbv zeta. destruct (_ !! _); [|apply wp_ret; reflexivity].
  destruct (_ && _); [|apply wp_ret; reflexivity]. apply wp_bind, wp_put.
  eapply wp_conseq; [apply IH|]. cbv beta. intros _ r'. apply transitivity, later_view. split; reflexivity.
Qed.
Hint Resolve forward_white_line : frame.

Lemma forward_prepare_complete seq : forward (prepare_certificate_complete VAR seq).
Proof.
  unfold prepare_certificate_complete, ORDER_Move_Prepare_Certificate. apply within_bind; [apply _|run_forward|intros _].
  apply within_get_bind. intros r. destruct (view_change_done r); [|apply wp_ret; reflexivity].
  apply wp_bind, wp_bind, wp_get, wp_or_oob; [exact I|]. intros slot _. apply wp_bind, wp_put.
  eapply wp_conseq; [apply forward_upd|]. cbv beta. intros _ r'. apply transitivity, later_view. split; reflexivity.
Qed.
Hint Resolve forward_prepare_complete : frame.

Lemma forward_Move_Commit seq : forward (ORDER_Move_Commit_Certificate VAR seq).
Proof. unfold ORDER_Move_Commit_Certificate. run_forward. Qed.
Hint Resolve forward_Move_Commit : frame.

Lemma forward_view_admits v : forward (view_admits v).
Proof. unfold view_admits. run_forward. Qed.
Hint Resolve forward_view_admits : frame.

Lemma forward_Process_Pre_Prepare m : forward (ORDER_Process_Pre_Prepare VAR m).
Proof.
  unfold ORDER_Process_Pre_Prepare, admit_part, copy_acks, ORDER_Flood_Pre_Prepare, ORDER_Update_Forwarding_White_Line,
    pre_prepare_complete. run_forward.
Qed.

Lemma forward_Process_Commit v : forward (ORDER_Process_Commit VAR v).
Proof.
  unfold ORDER_Process_Commit, collect_commit. run_forward.
  cbn [ORDER_Execute_Commit executor]. apply within_get_bind. intros r. apply (later_execute_commit any_fault VAR HVAR).
Qed.
Hint Resolve forward_Process_Pre_Prepare forward_Process_Commit : frame.

Lemma forward_process_commits l : forward (process_commits VAR l).
Proof. induction l; cbn [process_commits]; run_forward. Qed.

Lemma forward_put_off : forward put_off_attempt.
Proof. unfold put_off_attempt, E_queue, E_dequeue, E_in_queue, catch, vc, vc_update, po, po_update. run_forward. Qed.

Lemma forward_drop seq pp : forward (drop_other_content stack_matrix seq pp).
Proof. unfold drop_other_content, certified_pre_prepare. run_forward. Qed.
Hint Resolve forward_process_commits forward_put_off forward_drop : frame.

Lemma forward_certificate c : forward (process_certificate stack_matrix VAR c).
Proof. unfold process_certificate. run_forward. Qed.

(** ** Entering the view of a certificate *)
Abbreviation in_view := (within any_fault (same (fun r : state => View r))).

Lemma in_view_modify f : (forall r : state, View (f r) = View r) -> in_view (modify f).
Proof. intros H. apply within_modify. exact H. Qed.

Ltac in_view_modify :=
  apply in_view_modify; intros ?; unfold ORDER_Adjust_High_Prepared, ORDER_Adjust_ppARU;
  repeat match goal with |- context [if ?b then _ else _] => destruct b end; reflexivity.

Lemma in_view_initialize : in_view (initialize_upon_view_change clock VAR).
Proof.
  unfold initialize_upon_view_change, SUSPECT_Initialize_Upon_View_Change, VIEW_Initialize_Upon_View_Change,
    CATCH_Reset_View_Change_Catchup, susp, susp_update, view_update, vc_update, UTIL_Stopwatch_Start, E_get_time, vc, po, po_update.
  pose proof allowed. repeat first [walk1 | in_view_modify | unfold vc_update, po_update].
Qed.

Lemma enter_view_there c r t : enter_view clock VAR c r = Ret (tt, t) -> View t = oc_view c /\ view_change_done t = true.
Proof.
  intros H. assert (Hw : wp any_fault (enter_view clock VAR c) (fun _ t => View t = oc_view c /\ view_change_done t = true) r);
    [|unfold wp in Hw; rewrite H in Hw; exact Hw].
  assert (Hany : forall {A} (m : comp state A) (Q : A -> state -> Prop) s, (forall a s', Q a s') -> wp any_fault m Q s).
  { intros A m Q s HQ. unfold wp. destruct (m s) as [[? ?]|]; [apply HQ|exact I]. }
  unfold enter_view. apply wp_bind, wp_get, wp_bind, Hany. intros keys s1. apply wp_bind, Hany. intros _ s2.
  apply wp_bind, wp_modify, wp_bind.
  eapply wp_conseq; [apply in_view_modify; intros s; unfold ORDER_Adjust_High_Prepared; destruct (_ <=? _); reflexivity|].
  cbv beta. intros _ s3 E3. apply wp_bind.
  eapply wp_conseq; [apply in_view_modify; intros s; unfold ORDER_Adjust_ppARU; destruct (_ <=? _); reflexivity|].
  cbv beta. intros _ s4 E4. apply wp_bind. eapply wp_conseq; [apply in_view_initialize|]. cbv beta. intros _ s5 E5.
  apply wp_modify. unfold same in *. cbn in *. split; [congruence|reflexivity].
Qed.

Lemma switches_ahead c r t : switches_view c r = Ret (true, t) ->
  t = r /\ (View r < oc_view c \/ View r = oc_view c /\ view_change_done r = false).
Proof.
  unfold switches_view, UTIL_Get_ORD_Slot_If_Exists. unfold bind, get, ret. cbn [fst snd].
  intros [= H <-]. split; [reflexivity|].
  destruct (History r !! wrap32 (oc_seq_num c - 1)) as [s|]; rewrite ?orb_false_r in H;
    rewrite ?orb_true_iff, ?andb_true_iff, ?orb_true_iff, ?andb_true_iff, ?negb_true_iff, ?Z.eqb_eq, ?Z.ltb_lt in H;
    destruct (view_change_done r); intuition lia.
Qed.

(** *** What suspecting the leader sees of it *)
Abbreviation unseen := (within any_fault (same still)).

Ltac run_unseen :=
  pose proof allowed;
  repeat first [walk1 | apply still_po_update; reflexivity | apply within_modify; intros ?; reflexivity].

Lemma unseen_collect ids : unseen (collect_requests ids).
Proof.
  induction ids as [|id ids IH]; cbn [collect_requests]; [intros r; reflexivity|].
  unfold PRE_ORDER_Garbage_Collect_PO_Slot, UTIL_Get_PO_Slot_If_Exists, set_server, at_server, po. run_unseen.
Qed.
Hint Resolve unseen_collect : frame.

Lemma unseen_keys : unseen slot_keys.
Proof. intros r. reflexivity. Qed.

Lemma unseen_erase erased seqs : unseen (erase_slots erased seqs).
Proof.
  induction seqs as [|i seqs IH]; cbn [erase_slots]; [intros r; reflexivity|].
  unfold ORDER_Garbage_Collect_ORD_Slot. run_unseen.
Qed.

Lemma beside_reset : within any_fault (same beside) (
  vc_update (fun d => put_RB (RB_Initialize_Upon_View_Change (RB d)) d) ;;;
  VIEW_Initialize_Upon_View_Change ;;; CATCH_Reset_View_Change_Catchup).
Proof.
  pose proof allowed. apply within_bind; [typeclasses eauto|apply within_modify; reflexivity|intros _].
  apply within_bind; [typeclasses eauto|apply beside_initialize; assumption|intros _].
  apply within_modify. reflexivity.
Qed.

(** Its measurements and votes start over, in the view of the certificate, which is
    not below its own. *)
Lemma enter_view_restarts c r t : sizes_ok (SU r) -> enter_view clock VAR c r = Ret (tt, t) ->
  View t = oc_view c /\ restarted r t.
Proof.
  intros Hs H.
  assert (Hw : wp any_fault (enter_view clock VAR c) (fun _ t => View t = oc_view c /\ restarted r t) r);
    [|unfold wp in Hw; rewrite H in Hw; exact Hw].
  unfold enter_view. apply wp_bind, wp_get, wp_bind. eapply wp_conseq; [apply unseen_keys|]. cbv beta. intros keys s1 E1.
  apply wp_bind. eapply wp_conseq; [apply unseen_erase|]. cbv beta. intros _ s2 E2.
  apply wp_bind, wp_modify. do 2 (apply wp_bind, wp_modify). set (s3 := ORDER_Adjust_ppARU _).
  assert (E3 : View s3 = oc_view c /\ SU s3 = SU s2 /\ votes_signed s3 = votes_signed s2).
  { subst s3. unfold ORDER_Adjust_ppARU, ORDER_Adjust_High_Prepared.
    repeat match goal with |- context [if ?b then _ else _] => destruct b end; repeat split. }
  destruct E3 as (Ev & Eu & En). unfold same, still in E1, E2. injection E1 as _ _ A1 A2 _. injection E2 as _ _ B1 B2 _.
  assert (Hs3 : sizes_ok (SU s3)) by (rewrite Eu, B1, A1; exact Hs).
  apply wp_bind. unfold initialize_upon_view_change. apply wp_bind.
  eapply wp_conseq; [apply (wp_initialize any_fault allowed clock VAR s3 Hs3)|].
  cbv beta. intros _ s4 (C1 & C2 & C3 & _ & C4 & C5).
  eapply wp_conseq; [apply beside_reset|]. cbv beta. unfold same, beside. intros _ s5 [= D1 D2 D3 D4].
  apply wp_modify. unfold restarted. set (s6 := set_view _ _ s5).
  change (View s6) with (View s5). change (leader_suspected s6) with (leader_suspected s5).
  change (SU s6) with (SU s5). change (votes_signed s6) with (votes_signed s5). rewrite D1, D2, D3, D4.
  split; [congruence|]. split; [exact C2|]. split; [congruence|]. split; assumption.
Qed.

(** So a certificate with Commits of different servers is a step of the system of
    [views_left_by_quorum]. *)
Lemma switch_catches_up been σ c r t (Q : gset Z) : sizes_ok (SU r) ->
  switches_view c r = Ret (true, r) -> enter_view clock VAR c r = Ret (tt, t) ->
  Q ⊆ server_ids NUM_SERVERS -> 2 * NUM_F + NUM_K + 1 <= Z.of_nat (size Q) ->
  (forall j, j ∈ Q -> is_Some (σ !! j) -> (j, oc_view c) ∈ been) -> caught_up been σ r t.
Proof.
  intros Hs Hc He H1 H2 H3. destruct (switches_ahead _ _ _ Hc) as [_ Hv].
  destruct (enter_view_restarts c r t Hs He) as [Ev Hr]. split; [lia|]. split; [exact Hr|].
  exists Q. rewrite Ev. auto.
Qed.

(** A replica that comes out in its view was not taken into another. *)
Lemma stayed_no_switch c r r1 r' :
  switches_view c r = Ret (true, r) -> enter_view clock VAR c r = Ret (tt, r1) ->
  process_certificate stack_matrix VAR c r1 = Ret (tt, r') -> ~ same_view r r'.
Proof.
  intros Hs He Hp [Ev Ed]. destruct (switches_ahead _ _ _ Hs) as [_ Hv]. destruct (enter_view_there _ _ _ He) as [V1 D1].
  pose proof (forward_certificate c r1) as H. unfold wp in H. rewrite Hp in H. destruct H as [H1 H2].
  destruct Hv as [Hv|[Hv Hd]]; [lia|]. rewrite Ed in H2. rewrite H2 in Hd; [discriminate|lia|exact D1].
Qed.
End Forward.

(** ** Runs of a system *)
Section Steps.
Context {crypto : Crypto} (ok : CryptoOk crypto) {signer : Signer} {ext : External vc_data} {calls : ViewCalls}.
Context {ext_ok : ExternalOk any_fault ext} (faulty : gset Z).
Context (clock : nat -> Z) (stack_matrix : list byte).

Abbreviation sys := (system (E := po_data (R := vc_data))).
Implicit Types σ : sys.

#[local] Instance calls_kept : OrderCallsOk any_fault order_calls := order_calls_ok any_fault (HF := fun _ _ => I).
#[local] Instance exec_kept : ExecutorOk any_fault executor := executor_ok ok.

(** The system goes on to one where replica [i] is in state [r'] and no other
    replica has done anything. *)
Definition moves (i : Z) σ (r' : state) : Prop :=
  exists σ', reachable faulty σ' /\ extends σ σ' /\ node σ' i = r' /\ forall j, j <> i -> node σ' j = node σ j.

Lemma moves_refl i σ r' : reachable faulty σ -> r' = node σ i -> moves i σ r'.
Proof. intros Hr ->. exists σ. split; [exact Hr|]. split; [split; auto|]. auto. Qed.

Lemma moves_trans i σ r1 r2 :
  moves i σ r1 -> (forall σ', reachable faulty σ' -> extends σ σ' -> node σ' i = r1 -> moves i σ' r2) -> moves i σ r2.
Proof.
  intros (σ1 & R1 & [X1 A1] & N1 & O1) H. destruct (H σ1 R1 (conj X1 A1) N1) as (σ2 & R2 & [X2 A2] & N2 & O2).
  exists σ2. split; [exact R2|]. split; [split; auto|]. split; [exact N2|]. intros j Hj. rewrite O2, O1; auto.
Qed.

Lemma moves_step i σ σ1 r' :
  reachable faulty σ -> step faulty σ (set_node σ1 i r') -> node σ1 = node σ -> moves i σ r'.
Proof.
  intros Hr Hs Hn. exists (set_node σ1 i r'). split; [eapply OrderSystem.reach_step; eassumption|].
  split; [exact (proj2 (step_keeps_inv ok faulty σ _ (order_reachable_inv ok faulty σ Hr) Hs))|].
  split; [apply set_node_eq|]. intros j Hj. cbn. rewrite Hn. destruct (Z.eq_dec j i); [contradiction|reflexivity].
Qed.

Lemma moves_other i σ r' : reachable faulty σ -> correct faulty i -> keeps True (node σ i) r' -> moves i σ r'.
Proof. intros Hr Hc Hk. apply (moves_step i σ σ); [exact Hr|apply OrderSystem.step_other; assumption|reflexivity]. Qed.

Lemma moves_adopt i σ seq r' : reachable faulty σ -> correct faulty i -> 0 < seq < two32 -> ARU (node σ i) < seq ->
  adopts (node σ i) seq r' -> moves i σ r'.
Proof. intros Hr Hc H1 H2 Ha. apply (moves_step i σ σ); [exact Hr|eapply step_adopt; eassumption|reflexivity]. Qed.

Lemma moves_message i σ m r' : reachable faulty σ -> correct faulty i -> receivable faulty σ m ->
  ORDER_Process i m (node σ i) = Ret (tt, r') -> same_view (node σ i) r' -> moves i σ r'.
Proof.
  intros Hr Hc Hm He Hv. apply (moves_step i σ (receive σ m)); [exact Hr|apply OrderSystem.step_message; assumption|].
  destruct m; reflexivity.
Qed.

Lemma receivable_extends σ σ' m : extends σ σ' -> receivable faulty σ m -> receivable faulty σ' m.
Proof.
  intros Hx. destruct m as [m|v|v]; intros [H1 H2]; (split; [exact H1|]).
  - eapply proposed_by_extends; eassumption.
  - destruct H2 as [H2|H2]; [left; exact H2|right; apply Hx, H2].
  - destruct H2 as [H2|H2]; [left; exact H2|right; apply Hx, H2].
Qed.

Lemma moves_commits i (Hvote : within any_fault later (EXT_SUSPECT_New_Leader (Init_VAR i))) l : forall σ r',
  reachable faulty σ -> correct faulty i -> Forall (fun v => receivable faulty σ (In_Commit v)) l ->
  process_commits (Init_VAR i) l (node σ i) = Ret (tt, r') -> same_view (node σ i) r' -> moves i σ r'.
Proof.
  induction l as [|v l IH]; intros σ r' Hr Hc Hl H Hv; cbn [process_commits] in H.
  - injection H as <-. apply moves_refl; auto.
  - inversion Hl as [|? ? Hm Hl']; subst. apply run_bind_inv in H as ([] & r1 & E1 & E2).
    assert (V1 : same_view (node σ i) r1).
    { pose proof (forward_Process_Commit (ext_ok := ext_ok) (Init_VAR i) (quorum_ok i) v (node σ i)) as W1.
      pose proof (forward_process_commits (ext_ok := ext_ok) (Init_VAR i) (quorum_ok i) l r1) as W2.
      unfold wp in W1, W2. rewrite E1 in W1. rewrite E2 in W2. eapply later_between; eassumption. }
    apply (moves_trans i σ r1); [exact (moves_message i σ (In_Commit v) r1 Hr Hc Hm E1 V1)|].
    intros σ1 R1 X1 N1. apply IH; [exact R1|exact Hc| |rewrite N1; exact E2|rewrite N1].
    + eapply Forall_impl; [exact Hl'|]. intros u. apply receivable_extends, X1.
    + eapply same_view_back; eassumption.
Qed.

(** ** Making the slot ready *)
Lemma set_Pending_same (r : state) : set_Pending (Pending_Execution r) r = r.
Proof. destruct r. reflexivity. Qed.

Lemma set_History_same (r : state) : set_History (History r) r = r.
Proof. destruct r. reflexivity. Qed.

Lemma collect_unordered i σ seq s :
  system_inv faulty σ -> correct faulty i -> History (node σ i) !! seq = Some s -> ordered s = false ->
  ORDER_Garbage_Collect_ORD_Slot (R := vc_data) seq (node σ i)
  = Ret (tt, set_History (delete seq (History (node σ i))) (node σ i)).
Proof.
  intros Hinv Hc Es Ho. pose proof (Hinv i Hc) as Hi. set (r := node σ i) in *.
  assert (El : po_slot_list s = []).
  { destruct (so_list (proj2 (i_keys Hi seq s Es))) as [El|(_ & Ho' & _)]; [exact El|congruence]. }
  assert (Ep : Pending_Execution r ∖ {[seq]} = Pending_Execution r).
  { assert (seq ∉ Pending_Execution r); [|set_solver]. intros Hp.
    destruct (i_pending Hi seq Hp) as (s' & Es' & Ho'). congruence. }
  unfold ORDER_Garbage_Collect_ORD_Slot.
  rewrite (run_bind _ _ _ s r) by (unfold the_slot, or_oob, bind, get; rewrite Es; reflexivity).
  rewrite El. cbn [collect_requests]. unfold modify, bind, get, put, ret. rewrite Ep, set_Pending_same. reflexivity.
Qed.

(** The Pre-Prepare of a certificate fills the whole matrix. *)
Lemma whole_pre_prepare (pp : pre_prepare_mess) (r : state) c t :
  Z.of_nat (length stack_matrix) = matrix_bytes -> pp_num_acks pp = NUM_SERVERS ->
  certified_pre_prepare stack_matrix (pp_view pp) pp r = Ret (c, t) -> c = complete_of pp.
Proof.
  intros Hl Hn H. unfold certified_pre_prepare in H. apply run_bind_inv in H as (src & r1 & E1 & E2).
  unfold load_bytes, or_oob in E1. destruct (slice _ _ _) as [l|] eqn:El; [|discriminate]. injection E1 as <- <-.
  pose proof (slice_length _ _ _ _ El) as Hlen. apply slice_whole in El.
  destruct (matrix_bytes <? _); [discriminate|]. injection E2 as <- _. unfold complete_of. f_equal.
  rewrite Hn in *. change (sz_po_aru_signed_message * NUM_SERVERS) with matrix_bytes in *.
  unfold matrix_of. rewrite Hn. change (sz_po_aru_signed_message * NUM_SERVERS) with matrix_bytes.
  rewrite (drop_ge stack_matrix) by lia. rewrite (drop_ge (zeros _)) by (unfold zeros; rewrite repeat_length; lia).
  rewrite !app_nil_r, El. reflexivity.
Qed.

(** A slot that is made ready does not lose what the replica has voted for. *)
Definition keeps_votes (r : state) (seq : Z) (pp : pre_prepare_mess) : Prop :=
  forall s, History r !! seq = Some s -> collected_all_parts s = true ->
    complete_pre_prepare s = complete_of pp /\ pp_num_acks pp = NUM_SERVERS \/ not_voted r seq.

Lemma moves_drop i σ seq pp s r1 :
  Z.of_nat (length stack_matrix) = matrix_bytes ->
  reachable faulty σ -> correct faulty i -> 0 < seq < two32 -> ARU (node σ i) < seq ->
  History (node σ i) !! seq = Some s -> ordered s = false -> keeps_votes (node σ i) seq pp ->
  drop_other_content stack_matrix seq pp (node σ i) = Ret (tt, r1) ->
  moves i σ r1 /\ same_view (node σ i) r1 /\ ARU r1 = ARU (node σ i) /\ exists s1, History r1 !! seq = Some s1 /\ ordered s1 = false.
Proof.
  intros Hst Hr Hc Hseq Haru Es Ho Hkeep H. set (r := node σ i) in *.
  unfold drop_other_content in H. rewrite (run_bind _ _ _ s r) in H by (unfold the_slot, or_oob, bind, get; rewrite Es; reflexivity).
  assert (Hsame : r1 = r -> moves i σ r1 /\ same_view r r1 /\ ARU r1 = ARU r /\ exists s1, History r1 !! seq = Some s1 /\ ordered s1 = false).
  { intros ->. split; [apply moves_refl; auto|]. split; [split; reflexivity|]. eauto. }
  destruct (collected_all_parts s) eqn:Ecol; cbn [negb] in H; [|injection H as <-; auto].
  apply run_bind_inv in H as (c & r2 & E2 & H).
  assert (r2 = r) as ->.
  { unfold certified_pre_prepare, load_bytes, or_oob, bind in E2. destruct (slice _ _ _); [|discriminate].
    cbn in E2. destruct (_ <? _); [discriminate|]. injection E2 as _ <-. reflexivity. }
  destruct (OPENSSL_RSA_Digests_Equal _ _) eqn:Ed; [injection H as <-; auto|].
  destruct (Hkeep s Es Ecol) as [[Ec Hn]|Hno].
  { rewrite (whole_pre_prepare _ _ _ _ Hst Hn E2), Ec in Ed. rewrite Digests_Equal_refl in Ed; [discriminate|apply ok]. }
  pose proof (executor_reachable_inv ok faulty σ Hr) as Hinv.
  rewrite (run_bind _ _ _ _ _ (collect_unordered i σ seq s Hinv Hc Es Ho)) in H.
  set (r2 := set_History (delete seq (History (node σ i))) (node σ i)) in *.
  assert (Hd : History r2 !! seq = None) by apply lookup_delete_eq.
  assert (E1 : r1 = set_slot seq (new_ord_slot seq) r2).
  { unfold UTIL_Get_ORD_Slot, bind, get in H. rewrite Hd in H. injection H as <-. reflexivity. }
  subst r1. split; [|split; [split; reflexivity|split; [reflexivity|exists (new_ord_slot seq); split; [apply lookup_set_slot|reflexivity]]]].
  apply (moves_trans i σ r2); [eapply moves_adopt; [exact Hr|exact Hc|exact Hseq|exact Haru|eapply adopts_dropped; eassumption]|].
  intros σ1 R1 _ N1. rewrite <- N1. apply (moves_adopt i σ1 seq); [exact R1|exact Hc|exact Hseq|rewrite N1; exact Haru|].
  apply adopts_new. rewrite N1. exact Hd.
Qed.

(** ** The certificate *)
Lemma put_off_aside : within any_fault aside put_off_attempt.
Proof.
  assert (allowed : forall f, f <> OutOfFuel -> any_fault f) by (intros; exact I).
  unfold put_off_attempt, E_queue, E_dequeue, E_in_queue, catch, vc, vc_update, po, po_update.
  repeat first [walk1 | apply within_modify; intros ?; apply aside_others].
Qed.

Section Certificate.
Context (i : Z) (Hvote : within any_fault later (EXT_SUSPECT_New_Leader (Init_VAR i))).
Context (Hst : Z.of_nat (length stack_matrix) = matrix_bytes) (c : ord_certificate_mess).
Abbreviation seq := (oc_seq_num c).
Abbreviation pp := (oc_pre_prepare c).

Definition certificate_receivable σ : Prop :=
  receivable faulty σ (In_Pre_Prepare pp) /\ Forall (fun v => receivable faulty σ (In_Commit v)) (oc_commits c).

Lemma certificate_extends σ σ' : extends σ σ' -> certificate_receivable σ -> certificate_receivable σ'.
Proof.
  intros Hx [H1 H2]. split; [eapply receivable_extends; eassumption|].
  eapply Forall_impl; [exact H2|]. intros v. apply receivable_extends, Hx.
Qed.

(** The messages, and what follows them. *)
Definition messages : comp state unit :=
  ORDER_Process_Pre_Prepare (Init_VAR i) pp ;;;
  process_commits (Init_VAR i) (take (Z.to_nat (2 * VF (Init_VAR i) + VK (Init_VAR i) + 1)) (oc_commits c)) ;;;
  (if Z.of_nat (length (oc_commits c)) <? 2 * VF (Init_VAR i) + VK (Init_VAR i) + 1 then raise OutOfBounds else ret tt) ;;;
  put_off_attempt.

Lemma moves_messages σ r' :
  reachable faulty σ -> correct faulty i -> certificate_receivable σ ->
  messages (node σ i) = Ret (tt, r') -> same_view (node σ i) r' -> moves i σ r'.
Proof.
  intros Hr Hc [Hpp Hcs] H Hv. unfold messages in H.
  apply run_bind_inv in H as ([] & r1 & E1 & H). apply run_bind_inv in H as ([] & r2 & E2 & H).
  destruct (_ <? _); [discriminate|]. unfold ret, bind in H.
  pose proof (forward_Process_Pre_Prepare (Init_VAR i) (quorum_ok i) Hvote pp (node σ i)) as W1.
  pose proof (forward_process_commits (ext_ok := ext_ok) (Init_VAR i) (quorum_ok i)
                (take (Z.to_nat (2 * VF (Init_VAR i) + VK (Init_VAR i) + 1)) (oc_commits c)) r1) as W2.
  pose proof (put_off_aside r2) as W3. unfold wp in W1, W2, W3. rewrite E1 in W1. rewrite E2 in W2. rewrite H in W3.
  assert (L3 : later r2 r') by (apply onward_later, aside_onward, W3).
  assert (V1 : same_view (node σ i) r1) by (eapply later_between; [exact W1|etransitivity; eassumption|exact Hv]).
  assert (V2 : same_view r1 r2) by (eapply later_between; [exact W2|exact L3|eapply same_view_back; eassumption]).
  apply (moves_trans i σ r1); [exact (moves_message i σ (In_Pre_Prepare pp) r1 Hr Hc Hpp E1 V1)|].
  intros σ1 R1 X1 N1. apply (moves_trans i σ1 r2).
  - apply (moves_commits i Hvote (take (Z.to_nat (2 * VF (Init_VAR i) + VK (Init_VAR i) + 1)) (oc_commits c)));
      [exact R1|exact Hc| |rewrite N1; exact E2|rewrite N1; exact V2].
    apply Forall_take. eapply Forall_impl; [exact Hcs|]. intros u. apply receivable_extends, X1.
  - intros σ2 R2 _ N2. apply moves_other; [exact R2|exact Hc|]. rewrite N2. apply keeps_erase, W3.
Qed.

Lemma moves_certificate σ r' :
  reachable faulty σ -> correct faulty i -> certificate_receivable σ -> 0 < seq < two32 -> ARU (node σ i) < seq ->
  (forall s, History (node σ i) !! seq = Some s -> ordered s = false) -> keeps_votes (node σ i) seq pp ->
  process_certificate stack_matrix (Init_VAR i) c (node σ i) = Ret (tt, r') -> same_view (node σ i) r' -> moves i σ r'.
Proof.
  intros Hr Hc Hm Hseq Haru Hord Hkeep H Hv. unfold process_certificate in H.
  apply run_bind_inv in H as (s0 & r0 & E0 & H).
  (* the slot is there, or made *)
  assert (moves i σ r0 /\ same_view (node σ i) r0 /\ ARU r0 = ARU (node σ i) /\ History r0 !! seq = Some s0
    /\ ordered s0 = false /\ keeps_votes r0 seq pp) as (M0 & V0 & A0 & S0 & O0 & K0).
  { unfold UTIL_Get_ORD_Slot, bind, get in E0. destruct (History (node σ i) !! seq) as [s|] eqn:Es.
    - injection E0 as <- <-. split; [apply moves_refl; auto|]. split; [split; reflexivity|]. auto.
    - injection E0 as <- <-. split; [eapply moves_adopt; eauto; apply adopts_new, Es|].
      split; [split; reflexivity|]. split; [reflexivity|]. split; [apply (lookup_set_slot seq (new_ord_slot seq) (node σ i))|].
      split; [reflexivity|]. intros s' Es' Ecol. cbn in Es'. rewrite lookup_insert_eq in Es'. injection Es' as <-. discriminate. }
  destruct (snapshot s0); [injection H as <-; exact M0|].
  apply run_bind_inv in H as ([] & r1 & E1 & H). apply run_bind_inv in H as (first & r1' & Ef & H).
  assert (r1' = r1) as -> by (unfold or_oob, ret, raise in Ef; destruct (oc_commits c !! 0%nat); congruence).
  apply run_bind_inv in H as ([] & r2 & E2 & H).
  apply (moves_trans i σ r0); [exact M0|]. intros σ0 R0 X0 N0. rewrite <- N0 in *.
  destruct (moves_drop i σ0 seq pp s0 r1 Hst R0 Hc Hseq) as (M1 & V1 & A1 & s1 & S1 & O1); auto; [lia|].
  apply (moves_trans i σ0 r1); [exact M1|]. intros σ1 R1 X1 N1. rewrite <- N1 in *.
  assert (Er2 : r2 = set_slot seq (adopt_certificate (v_preinstalled first) s1) (node σ1 i)).
  { unfold upd, bind, get, or_oob in E2. rewrite S1 in E2. injection E2 as <-. reflexivity. }
  apply (moves_trans i σ1 r2).
  { apply (moves_adopt i σ1 seq); [exact R1|exact Hc|exact Hseq|lia|]. rewrite Er2. apply adopts_slot; assumption. }
  intros σ2 R2 X2 N2. apply moves_messages; [exact R2|exact Hc| |rewrite N2; exact H|].
  - do 3 (eapply certificate_extends; [eassumption|]). exact Hm.
  - rewrite N2, Er2. destruct Hv as [Hv Hd], V0 as [V0 D0], V1 as [V1 D1]. split; cbn; congruence.
Qed.
End Certificate.
End Steps.

(** ** The property *)
(** C16. Catching up is ordering: a correct replica that takes in the certificate of a slot
    it has not ordered, made of messages that it might have received, and stays in its
    view, comes to a state it can also reach by steps of the ordering protocol, while
    the others do nothing; unless the slot held another Pre-Prepare that it had voted
    for.  So what is shown of all runs of the protocol ([order_agreement],
    [ordered_chain], [executed_requests_agree], ...) holds when replicas catch up. *)
Theorem catchup_certificate_is_steps {crypto : Crypto} (ok : CryptoOk crypto) {signer : Signer} {ext : External vc_data}
    {ext_ok : ExternalOk any_fault ext} {calls : ViewCalls} (faulty : gset Z) clock stack_matrix
    (σ : system (E := po_data (R := vc_data))) (i : Z) (c : ord_certificate_mess) (r' : state) :
  Z.of_nat (length stack_matrix) = matrix_bytes -> within any_fault later (EXT_SUSPECT_New_Leader (Init_VAR i)) ->
  reachable faulty σ -> correct faulty i -> is_u32 (oc_seq_num c) -> certificate_receivable faulty c σ ->
  keeps_votes (node σ i) (oc_seq_num c) (oc_pre_prepare c) ->
  CATCH_Process_ORD_Certificate clock stack_matrix (Init_VAR i) c (node σ i) = Ret (tt, r') ->
  same_view (node σ i) r' ->
  exists σ', reachable faulty σ' /\ extends σ σ' /\ node σ' i = r' /\ forall j, j <> i -> node σ' j = node σ j.
Proof.
  intros Hst Hvote Hr Hc Hu Hm Hkeep H Hv. change (moves faulty i σ r').
  assert (Hrefl : forall r1, Ret (tt, node σ i) = Ret (tt, r1) -> moves faulty i σ r1).
  { intros r1 [= <-]. apply moves_refl; auto. }
  pose proof (executor_reachable_inv ok faulty σ Hr i Hc) as Hi.
  unfold CATCH_Process_ORD_Certificate in H. destruct (oc_machine_id c =? _).
  - (* its own, signed *)
    unfold store_own_ord_cert, UTIL_Get_ORD_Slot_If_Exists, bind, get, ret in H.
    destruct (History (node σ i) !! oc_seq_num c) as [s|] eqn:Es; [|discriminate].
    destruct (signed_ord_cert s); [apply Hrefl, H|]. destruct (bool_decide _); [|discriminate].
    unfold upd, bind, get, or_oob in H. rewrite Es in H. injection H as <-.
    apply (moves_other ok); [exact Hr|exact Hc|]. apply keeps_erase, aside_keeps.
    eapply aside_set_slot; [exact Es|]. repeat split.
  - unfold bind at 1, get at 1 in H. destruct (negb _); [apply Hrefl, H|]. destruct (negb _); [apply Hrefl, H|].
    destruct (oc_seq_num c <=? ARU (node σ i)) eqn:Ea; [apply Hrefl, H|].
    unfold UTIL_Get_ORD_Slot_If_Exists in H. unfold bind at 1 2, get at 1, ret at 1 in H. cbn beta iota in H.
    destruct (match History (node σ i) !! oc_seq_num c with Some slot => ordered slot | None => false end) eqn:Eo;
      [apply Hrefl, H|].
    apply run_bind_inv in H as (switch & r0 & E0 & H). apply run_bind_inv in H as ([] & r1 & E1 & H).
    assert (r0 = node σ i) as -> by (unfold switches_view, UTIL_Get_ORD_Slot_If_Exists, bind, get, ret in E0; congruence).
    destruct switch.
    + exfalso. eapply (stayed_no_switch clock stack_matrix (Init_VAR i) (quorum_ok i) Hvote); eassumption.
    + injection E1 as <-. pose proof (i_stable Hi).
      apply (moves_certificate ok faulty stack_matrix i Hvote Hst c σ r'); auto; [unfold is_u32 in Hu; lia|lia|].
      intros s Es. rewrite Es in Eo. exact Eo.
Qed.

(** *** Server 1 has missed the messages of the slot it proposed *)
#[local] Existing Instance prefix_digest.

Definition lag_start : state :=
  set_cum_acks (concat (OrderState.per_server toy_row))
    (set_others (with_PO_History {[ first_id := with_po_cert (mkPoCert 2 5 1 first_pair toy_request []) false
                                         (store_request toy_request (make_digest toy_request) (new_po_slot first_pair)) ]}
      (with_cum_aru (<[1%nat := first_pair]> (per_server_slot (mkPS 0 0))) boot_po)) boot).

Definition lag_run_start : system := ([], fun _ => ORDER_Initialize_Data_Structure lag_start).
Definition lag_end : system := default lag_run_start (OrderProps.run_events {[6]} exec_slot_1 lag_run_start).

Definition lag_certificate : ord_certificate_mess :=
  match History (node lag_end 2) !! 1 with
  | Some slot => default (mkOrdCert 0 0 0 0 0 (toy_pp 0) []) (ord_certificate slot)
  | None => mkOrdCert 0 0 0 0 0 (toy_pp 0) []
  end.

Example lag_certificate_made :
  (oc_machine_id lag_certificate, oc_seq_num lag_certificate, map v_machine_id (oc_commits lag_certificate)) = (2, 1, [2; 3; 4; 5]).
Proof. vm_compute. reflexivity. Qed.

Lemma lag_runs : OrderProps.run_events {[6]} exec_slot_1 lag_run_start = Some lag_end.
Proof.
  assert (H : match OrderProps.run_events {[6]} exec_slot_1 lag_run_start with Some _ => true | None => false end = true)
    by (vm_compute; reflexivity).
  unfold lag_end. destruct (OrderProps.run_events _ _ _) as [σ|]; [reflexivity|discriminate].
Qed.

Lemma lag_end_reachable : reachable {[6]} lag_end.
Proof.
  apply (order_run_reachable {[6]} exec_slot_1 lag_run_start); [|exact lag_runs].
  apply reach_init. intros _. split; [reflexivity|]. split; [|reflexivity]. split; [reflexivity|].
  split; [vm_compute; reflexivity|]. split; [reflexivity|constructor].
Qed.

(** The Commit of server [j] for slot 1. *)
Definition lag_commit (j : Z) : nat := if j =? 5 then 2%nat else 7%nat.

Definition found_commit (j : Z) : vote :=
  match actions (node lag_end j) !! lag_commit j with Some (Send_Commit v) => v | _ => toy_vote end.

Lemma lag_receivable : certificate_receivable {[6]} lag_certificate lag_end.
Proof.
  split.
  - apply (input_of_receivable {[6]} lag_end 1 (Send_Pre_Prepare (oc_pre_prepare lag_certificate))); [|vm_compute; reflexivity].
    apply (list_elem_of_lookup_2 _ 0%nat). vm_compute. reflexivity.
  - replace (oc_commits lag_certificate) with (map found_commit [2; 3; 4; 5]) by (vm_compute; reflexivity).
    cbn [map]. repeat apply List.Forall_cons; [..|apply List.Forall_nil].
    all: match goal with |- context [found_commit ?j] =>
           apply (input_of_receivable {[6]} lag_end j (Send_Commit (found_commit j))); [|vm_compute; reflexivity];
           apply (list_elem_of_lookup_2 _ (lag_commit j)); vm_compute; reflexivity end.
Qed.

Definition caught_up : state :=
  returned (CATCH_Process_ORD_Certificate (calls := plain_calls) ticks (zeros matrix_bytes) (Init_VAR 1) lag_certificate (node lag_end 1)).

Example caught_up_executes : (ARU (node lag_end 1), ARU caught_up) = (0, 1).
Proof. vm_compute. reflexivity. Qed.

Lemma catchup_certificate_is_steps_witness :
  ARU caught_up = 1 /\ exists σ', reachable {[6]} σ' /\ node σ' 1 = caught_up.
Proof.
  split; [vm_compute; reflexivity|].
  destruct (@catchup_certificate_is_steps prefix_digest prefix_digest_ok blank_signer quiet (quiet_ok _) plain_calls {[6]}
              ticks (zeros matrix_bytes) lag_end 1 lag_certificate caught_up) as (σ' & R & _ & N & _).
  - vm_compute. reflexivity.
  - intros r. apply wp_ret. reflexivity.
  - exact lag_end_reachable.
  - apply order_is_correct_spec. vm_compute. reflexivity.
  - split; vm_compute; [discriminate|reflexivity].
  - exact lag_receivable.
  - intros s Es Ecol. vm_compute in Es. injection Es as <-. discriminate Ecol.
  - vm_compute. reflexivity.
  - split; vm_compute; reflexivity.
  - exists σ'. split; [exact R|exact N].
Defined.

(** ** A certificate without a quorum *)
(** Four copies of one Commit of server 6, for the slot after the one that replica 2
    has executed, of a view of its choice. *)
Definition forged_pre_prepare : pre_prepare_mess :=
  mkPP 6 [] 2 77 (zeros DIGEST_SIZE) zero_pairs 1 1 NUM_SERVERS (zeros matrix_bytes).
Definition forged_commit : vote :=
  mkVote 6 5 2 77 (complete_digest (complete_of forged_pre_prepare)) (repeat 0 (Z.to_nat NUM_SERVERS)).
Definition forged_certificate : ord_certificate_mess :=
  mkOrdCert 6 5 77 2 SLOT_COMMIT forged_pre_prepare (repeat forged_commit 4).

(** Validation asks neither for different voters ([ord_certificate_one_voter]) nor that
    the view of the certificate is that of its messages, so that one need not come from a
    quorum: it takes replica 2 out of view 1, in which five servers order, into view 77,
    where it refuses their messages; its Pre-Prepare is not the leader's there. *)
Theorem forged_certificate_moves_view :
  exists r', CATCH_Process_ORD_Certificate (calls := plain_calls) ticks (zeros matrix_bytes) (Init_VAR 2)
               forged_certificate (node lag_end 2) = Ret (tt, r') /\
    View (node lag_end 2) = 1 /\ view_change_done (node lag_end 2) = true /\
    View r' = 77 /\ view_change_done r' = true /\
    forall m, pp_view m = 1 -> ORDER_Process_Pre_Prepare (Init_VAR 2) m r' = Ret (tt, r').
Proof.
  eexists. split; [vm_compute; reflexivity|]. split; [vm_compute; reflexivity|]. split; [vm_compute; reflexivity|].
  split; [reflexivity|]. split; [reflexivity|]. intros m Hm. unfold ORDER_Process_Pre_Prepare.
  unfold bind at 1, get at 1. destruct (negb _); [reflexivity|]. destruct (_ && _); [reflexivity|].
  rewrite Hm. reflexivity.
Qed.
