(* ===== verification/CatchupAnswer.v ===== *)
(** Answering a request for catchup: a replica within the history is sent the
    certificates of what it lacks, in order, and nothing else. *)
From Stdlib Require Import ZArith Lia List Bool.
From Stdlib Require Import Strings.Byte.
From stdpp Require Import base list gmap.
From S2P Require Import Prelude Memory Config Packets Crypto Utility Eligibility EligibilityCorrect OrderState PreOrderState CatchupState Order OrderSystem PreOrder Execute ExecuteCorrect ViewState ViewChange Catchup ExecuteProps SuspectProps CatchupRound CatchupSteps.

(** ** Sending *)
(** The state with more messages sent. *)
Definition sends (outs : list catch_out) (c : catch_data) : catch_data := put_catch_sent (catch_sent c ++ outs) c.

Lemma sends_nothing c : sends [] c = c.
Proof. destruct c. unfold sends. cbn. rewrite app_nil_r. reflexivity. Qed.

Lemma sends_more o1 o2 c : sends o2 (sends o1 c) = sends (o1 ++ o2) c.
Proof. unfold sends. cbn. rewrite <- app_assoc. reflexivity. Qed.

(** [m] returns [a], sends [outs], and does nothing else, whatever the state of catchup
    in [r]. *)
Definition emits (r : state) {A} (m : comp state A) (outs : list catch_out) (a : A) : Prop :=
  forall c q k, m (with_catchup c q k r) = Ret (a, with_catchup (sends outs c) q k r).

Section Emits.
Context (r : state).

Lemma emits_ret {A} (a : A) : emits r (ret a) [] a.
Proof. intros c q k. rewrite sends_nothing. reflexivity. Qed.

Lemma emits_bind {A B} (m : comp state A) (f : A -> comp state B) o1 o2 a b :
  emits r m o1 a -> emits r (f a) o2 b -> emits r (bind m f) (o1 ++ o2) b.
Proof. intros H1 H2 c q k. rewrite (run_bind _ _ _ _ _ (H1 c q k)), H2, sends_more. reflexivity. Qed.

(** A computation that only looks. *)
Lemma emits_read {A B} (m : comp state A) (f : A -> comp state B) a outs b :
  emits r m [] a -> emits r (f a) outs b -> emits r (bind m f) outs b.
Proof. apply (emits_bind m f []). Qed.

Lemma emits_get {B} (f : state -> comp state B) outs b :
  (forall c q k, emits r (f (with_catchup c q k r)) outs b) -> emits r (bind get f) outs b.
Proof. intros H c q k. apply H. Qed.

Lemma emits_po {B} (f : po_data -> comp state B) outs b :
  (forall d, emits r (f (set_rest d (others r))) outs b) -> emits r (bind po f) outs b.
Proof. intros H c q k. apply H. Qed.

Lemma emits_send o : emits r (catch_send o) [o] tt.
Proof. intros c q k. reflexivity. Qed.

Lemma emits_some {A} (x : option A) a : x = Some a -> emits r (or_oob x) [] a.
Proof. intros ->. apply emits_ret. Qed.

Lemma emits_server {A} (l : list A) i a : aget l i = Some a -> emits r (at_server l i) [] a.
Proof. apply emits_some. Qed.

Lemma emits_ord_slot seq : emits r (UTIL_Get_ORD_Slot_If_Exists seq) [] (History r !! seq).
Proof. intros c q k. rewrite sends_nothing. reflexivity. Qed.

Lemma emits_po_slot i ps : is_server i -> emits r (UTIL_Get_PO_Slot_If_Exists i ps) [] (PO_History (others r) !! mkPoId i ps).
Proof.
  unfold is_server. intros Hi c q k. rewrite sends_nothing. unfold UTIL_Get_PO_Slot_If_Exists.
  replace ((1 <=? i) && (i <=? NUM_SERVERS)) with true by lia. reflexivity.
Qed.

Lemma emits_counting first last : last < two32 - 1 -> emits r (counting_up first last) [] (counting first last).
Proof.
  intros H. unfold counting_up. replace ((first <=? last) && (last =? two32 - 1)) with false by lia. apply emits_ret.
Qed.
End Emits.

(** ** What is lacking *)
Section Answer.
Context (VAR : server_variables) (r : state) (m : catchup_request).
Abbreviation sender := (cr_machine_id m).

(** The certificate of a PO-Request, as it is sent: signed, or to be signed for both. *)
Definition po_certificate_out (id : po_id) : option catch_out :=
  slot ← PO_History (others r) !! id;
  c ← po_cert slot;
  Some (if signed_po_cert slot then Po_Cert_Sent sender c
        else Po_Cert_Pending (UTIL_Bitmap_Set (UTIL_Bitmap_Set 0 (My_Server_ID VAR)) sender) c).

Definition ord_certificate_out (slot : ord_slot) : option catch_out :=
  c ← ord_certificate slot;
  Some (if signed_ord_cert slot then Ord_Cert_Sent sender c
        else Ord_Cert_Pending (UTIL_Bitmap_Set (UTIL_Bitmap_Set 0 (My_Server_ID VAR)) sender) c).

(** The vector of the request does not cover the PO-Request. *)
Definition lacks (id : po_id) : bool :=
  match aget (cr_po_aru m) (po_server_id id - 1) with
  | Some t => PRE_ORDER_Seq_Compare t (po_pair id) <? 0
  | None => false
  end.

(** Of the requests that a slot made eligible, those that are lacking. *)
Definition lacking (slot : ord_slot) : list po_id :=
  List.filter lacks (requests_of (c_last_executed (complete_pre_prepare slot)) (made_eligible slot)).

Definition certificates_of (slot : ord_slot) : list catch_out :=
  omap po_certificate_out (lacking slot) ++ match ord_certificate_out slot with Some o => [o] | None => [] end.

Definition held (id : po_id) : Prop := is_Some (PO_History (others r) !! id ≫= po_cert).

Lemma emits_po_cert id : is_server (po_server_id id) -> held id ->
  emits r (send_po_cert VAR (po_server_id id) (po_pair id) sender) (omap po_certificate_out [id]) tt.
Proof.
  destruct id as [i ps]. cbn [po_server_id po_pair]. intros Hi [c Hc]. unfold send_po_cert.
  apply (emits_read r _ _ _ _ _ (emits_po_slot r i ps Hi)).
  cbn. unfold po_certificate_out. cbn in Hc |- *.
  destruct (PO_History (others r) !! mkPoId i ps) as [slot|]; [|discriminate]. cbn in Hc |- *.
  rewrite Hc. apply emits_send.
Qed.

Lemma emits_po_certs i inc theirs js : is_server i ->
  let ids := List.filter (fun id => PRE_ORDER_Seq_Compare theirs (po_pair id) <? 0) (map (fun j => mkPoId i (mkPS inc j)) js) in
  Forall held ids ->
  emits r (send_po_certs VAR i inc theirs sender js) (omap po_certificate_out ids) tt.
Proof.
  intros Hi. cbv zeta. induction js as [|j js IH]; cbn [map List.filter send_po_certs]; intros Hh; [apply emits_ret|].
  cbn [po_pair] in Hh |- *. rewrite (Z.ltb_antisym 0) in Hh |- *.
  destruct (0 <=? PRE_ORDER_Seq_Compare theirs (mkPS inc j)); cbn [negb] in Hh |- *.
  - apply (emits_read r _ _ tt); [apply emits_ret|apply IH, Hh].
  - apply Forall_cons in Hh as [H1 H2]. change (?a :: ?l) with ([a] ++ l). rewrite omap_app.
    apply (emits_bind r _ _ _ _ tt tt); [exact (emits_po_cert (mkPoId i (mkPS inc j)) Hi H1)|apply IH, H2].
Qed.

(** A vector goes forward, short of the last number. *)
Definition goes_to (p : po_seq_pair * po_seq_pair) : Prop :=
  ps_le (fst p) (snd p) /\ 0 <= seq_num (fst p) < two32 - 1 /\ seq_num (snd p) < two32 - 1.

Lemma requests_of_from last elig : requests_of last elig = requests_from 1 (zip last elig).
Proof. reflexivity. Qed.

Lemma emits_made_eligible l : forall i theirs,
  Forall goes_to l -> length theirs = length l -> 1 <= i -> i + Z.of_nat (length l) <= NUM_SERVERS + 1 ->
  (forall k t, theirs !! k = Some t -> aget (cr_po_aru m) (i - 1 + Z.of_nat k) = Some t) ->
  Forall held (List.filter lacks (requests_from i l)) ->
  emits r (send_made_eligible VAR sender i l theirs) (omap po_certificate_out (List.filter lacks (requests_from i l))) tt.
Proof.
  induction l as [|[prev cur] l IH]; intros i theirs Hl Hlen Hi Hn Ht Hh; [apply emits_ret|].
  destruct theirs as [|t theirs]; [discriminate|]. apply Forall_cons in Hl as [(Hle & Hp & Hc) Hl]. cbn [fst snd] in *.
  assert (Hs : is_server i) by (unfold is_server; cbn [length] in Hn; lia).
  rewrite requests_from_cons, List.filter_app in Hh |- *. apply Forall_app in Hh as [H1 H2]. rewrite omap_app.
  cbn [send_made_eligible].
  assert (Hcmp : (0 <=? PRE_ORDER_Seq_Compare cur prev) = true).
  { destruct (Seq_Compare_cases cur prev) as [[E H]|[[E H]|[E H]]]; rewrite E; try reflexivity.
    exfalso. destruct Hle as [->|Hle]; unfold ps_lt in *; lia. }
  rewrite Hcmp. apply (emits_read r _ _ tt); [apply emits_ret|].
  apply (emits_read r _ _ (counting (wrap32 ((if incarnation prev <? incarnation cur then 0 else seq_num prev) + 1)) (seq_num cur)));
    [apply emits_counting, Hc|].
  apply (emits_bind r _ _ _ _ tt tt).
  - replace (if incarnation prev <? incarnation cur then incarnation cur else incarnation prev) with (incarnation cur).
    2: { destruct (Z.ltb_spec (incarnation prev) (incarnation cur)); [reflexivity|].
         destruct Hle as [->|Hle]; [reflexivity|]. unfold ps_lt in Hle. lia. }
    rewrite wrap32_small by (destruct (_ <? _); unfold two32 in *; lia).
    assert (Efil : List.filter lacks (requests_between i prev cur)
      = List.filter (fun id => PRE_ORDER_Seq_Compare t (po_pair id) <? 0) (requests_between i prev cur)).
    { apply List.filter_ext_in. intros id Hin. unfold requests_between in Hin. apply in_map_iff in Hin as (j & <- & _).
      unfold lacks. cbn [po_server_id po_pair]. pose proof (Ht 0%nat t eq_refl) as H0.
      rewrite Z.add_0_r in H0. rewrite H0. reflexivity. }
    rewrite Efil in H1 |- *. apply emits_po_certs; assumption.
  - apply IH; [exact Hl|cbn in Hlen; lia|lia|cbn [length] in Hn; lia| |exact H2].
    intros k t' Hk. rewrite <- (Ht (S k) t' Hk). f_equal. lia.
Qed.

(** ** All of it *)
(** An executed slot with what was kept of it. *)
Record kept (slot : ord_slot) : Prop := {
  kt_type : slot_type slot = SLOT_COMMIT;
  kt_last : Z.of_nat (length (c_last_executed (complete_pre_prepare slot))) = NUM_SERVERS;
  kt_made : Z.of_nat (length (made_eligible slot)) = NUM_SERVERS;
  kt_forward : Forall goes_to (zip (c_last_executed (complete_pre_prepare slot)) (made_eligible slot));
  kt_held : Forall held (lacking slot);
  kt_cert : is_Some (ord_certificate slot) }.

Definition certificates_at (n : Z) : list catch_out :=
  match History r !! n with Some slot => certificates_of slot | None => [] end.

Lemma emits_ord_cert slot : is_Some (ord_certificate slot) ->
  emits r (send_ord_cert VAR slot sender) (match ord_certificate_out slot with Some o => [o] | None => [] end) tt.
Proof.
  intros [c Hc]. unfold send_ord_cert, ord_certificate_out. rewrite Hc. cbn. apply emits_send.
Qed.

Lemma emits_slots (Hlen : Z.of_nat (length (cr_po_aru m)) = NUM_SERVERS) seqs :
  Forall (fun n => exists slot, History r !! n = Some slot /\ kept slot) seqs ->
  emits r (send_slots VAR m seqs) (concat (map certificates_at seqs)) true.
Proof.
  induction seqs as [|n seqs IH]; cbn [send_slots map concat]; intros Hk; [apply emits_ret|].
  apply Forall_cons in Hk as [(slot & Es & [Ht Hl Hm Hf Hh Hc]) Hk].
  apply (emits_read r _ _ _ _ _ (emits_ord_slot r n)). rewrite Es.
  unfold certificates_at at 1. rewrite Es. rewrite Ht. cbn [Z.eqb negb SLOT_COMMIT].
  replace (negb (SLOT_COMMIT =? SLOT_COMMIT)) with false by reflexivity.
  unfold certificates_of. rewrite <- app_assoc.
  assert (Hz : length (zip (c_last_executed (complete_pre_prepare slot)) (made_eligible slot)) = length (cr_po_aru m)).
  { rewrite length_zip_with. lia. }
  apply (emits_bind r _ _ _ _ tt true).
  - unfold lacking in *. rewrite requests_of_from in Hh |- *.
    apply emits_made_eligible; [exact Hf|lia|lia|rewrite Hz; lia| |exact Hh].
    intros k t Hk'. replace (1 - 1 + Z.of_nat k) with (Z.of_nat k) by lia. apply aget_lookup, Hk'.
  - apply (emits_bind r _ _ _ _ tt true); [apply emits_ord_cert, Hc|apply IH, Hk].
Qed.

(** Beyond the last slot: the requests that are certified here, which neither the asker
    has nor a slot has made eligible. *)
Definition lacking_unordered (eligible : list po_seq_pair) (i : Z) : list po_id :=
  match aget (cr_po_aru m) (i - 1), aget eligible (i - 1), aget (cum_aru (others r)) i with
  | Some t, Some e, Some cum =>
      if (PRE_ORDER_Seq_Compare t cum <? 0) && (PRE_ORDER_Seq_Compare e cum <? 0)
      then requests_between i (if 0 <=? PRE_ORDER_Seq_Compare t e then t else e) cum else []
  | _, _, _ => []
  end.

Definition short_of_last (p : po_seq_pair) : Prop := 0 <= incarnation p /\ 0 <= seq_num p < two32 - 1.

Record vectors_ok (eligible : list po_seq_pair) : Prop := {
  vo_theirs : Z.of_nat (length (cr_po_aru m)) = NUM_SERVERS /\ Forall short_of_last (cr_po_aru m);
  vo_eligible : Z.of_nat (length eligible) = NUM_SERVERS /\ Forall short_of_last eligible;
  vo_cum : Z.of_nat (length (cum_aru (others r))) = NUM_SERVER_SLOTS /\ Forall short_of_last (cum_aru (others r)) }.

Lemma filter_all {A} (f : A -> bool) l : (forall x, x ∈ l -> f x = true) -> List.filter f l = l.
Proof.
  induction l as [|x l IH]; intros H; cbn; [reflexivity|]. rewrite (H x) by left. f_equal. apply IH. intros y Hy. apply H. right. exact Hy.
Qed.

Lemma certs_between i prev cur : is_server i -> short_of_last prev -> short_of_last cur -> ps_lt prev cur ->
  let ps := if incarnation prev <? incarnation cur then mkPS (incarnation cur) 0 else prev in
  Forall held (requests_between i prev cur) ->
  emits r (js <- counting_up (wrap32 (seq_num ps + 1)) (seq_num cur) ;;
           send_po_certs VAR i (incarnation ps) (mkPS 0 0) sender js)
    (omap po_certificate_out (requests_between i prev cur)) tt.
Proof.
  intros Hi [Hp1 Hp2] [Hc1 Hc2] Hlt ps Hh.
  assert (Einc : incarnation ps = incarnation cur).
  { unfold ps. destruct (Z.ltb_spec (incarnation prev) (incarnation cur)); [reflexivity|]. unfold ps_lt in Hlt. lia. }
  assert (Eseq : wrap32 (seq_num ps + 1) = (if incarnation prev <? incarnation cur then 0 else seq_num prev) + 1).
  { unfold ps. destruct (_ <? _); cbn [seq_num]; rewrite wrap32_small; unfold two32 in *; lia. }
  assert (Hseq : 0 <= (if incarnation prev <? incarnation cur then 0 else seq_num prev)) by (destruct (_ <? _); lia).
  rewrite Einc, Eseq. apply (emits_read r _ _ _ _ _ (emits_counting r _ (seq_num cur) (proj2 Hc2))).
  assert (E : requests_between i prev cur
    = List.filter (fun id => PRE_ORDER_Seq_Compare (mkPS 0 0) (po_pair id) <? 0)
        (map (fun j => mkPoId i (mkPS (incarnation cur) j))
           (counting ((if incarnation prev <? incarnation cur then 0 else seq_num prev) + 1) (seq_num cur)))).
  { unfold requests_between. symmetry. apply filter_all. intros id Hid. apply list_elem_of_In, in_map_iff in Hid as (j & <- & Hj).
    apply list_elem_of_In in Hj. unfold counting in Hj. apply elem_of_seqZ in Hj. cbn [po_pair].
    destruct (Seq_Compare_cases (mkPS 0 0) (mkPS (incarnation cur) j)) as [[-> _]|[[-> H]|[-> H]]]; [reflexivity| |];
      exfalso; [injection H; lia|unfold ps_lt in H; cbn in H; lia]. }
  rewrite E in Hh |- *. apply emits_po_certs; assumption.
Qed.

Lemma in_range_at l i p : Forall short_of_last l -> aget l i = Some p -> short_of_last p.
Proof. intros Hl Hi. rewrite Forall_forall in Hl. apply Hl. eapply aget_elem, Hi. Qed.

Lemma emits_unordered eligible servers :
  vectors_ok eligible -> Forall is_server servers -> Forall held (concat (map (lacking_unordered eligible) servers)) ->
  emits r (send_unordered VAR m eligible servers) (omap po_certificate_out (concat (map (lacking_unordered eligible) servers))) tt.
Proof.
  intros [[T1 T2] [L1 L2] [C1 C2]]. induction servers as [|i servers IH]; cbn [send_unordered map concat]; intros Hs Hh; [apply emits_ret|].
  apply Forall_cons in Hs as [Hi Hs]. apply Forall_app in Hh as [H1 H2]. rewrite omap_app.
  assert (Hget : forall {A} (l : list A) k, 0 <= k < Z.of_nat (length l) -> exists x, aget l k = Some x).
  { intros A l k Hk. destruct (aget_is_Some l k) as [x Hx]; [exact Hk|]. eauto. }
  unfold is_server in Hi. change NUM_SERVERS with 6 in *. change NUM_SERVER_SLOTS with 7 in *.
  destruct (Hget _ (cr_po_aru m) (i - 1) ltac:(lia)) as [t Et]. destruct (Hget _ eligible (i - 1) ltac:(lia)) as [e Ee].
  destruct (Hget _ (cum_aru (others r)) i ltac:(lia)) as [cum Ec].
  unfold lacking_unordered in H1 |- * at 1. rewrite Et, Ee, Ec in H1 |- *.
  apply (emits_read r _ _ ((PRE_ORDER_Seq_Compare t cum <? 0) && (PRE_ORDER_Seq_Compare e cum <? 0))).
  { unfold lacks_certified. apply emits_po. intros d. apply (emits_read r _ _ _ _ _ (emits_some r _ _ Et)).
    apply (emits_read r _ _ _ _ _ (emits_some r _ _ Ee)). apply (emits_read r _ _ _ _ _ (emits_server r _ _ _ Ec)). apply emits_ret. }
  apply (emits_bind r _ _ _ _ tt tt); [|apply IH; assumption].
  destruct ((PRE_ORDER_Seq_Compare t cum <? 0) && (PRE_ORDER_Seq_Compare e cum <? 0)) eqn:Elt; [|apply emits_ret].
  apply emits_po. intros d. apply (emits_read r _ _ _ _ _ (emits_some r (Some t) t eq_refl)).
  apply (emits_read r _ _ _ _ _ (emits_some r (Some e) e eq_refl)).
  apply (emits_read r _ _ _ _ _ (emits_server r (cum_aru (others r)) i cum Ec)).
  apply certs_between; [unfold is_server; change NUM_SERVERS with 6; lia| |exact (in_range_at _ _ _ C2 Ec)| |exact H1].
  - destruct (0 <=? _); [exact (in_range_at _ _ _ T2 Et)|exact (in_range_at _ _ _ L2 Ee)].
  - apply andb_prop in Elt as [E1 E2]. destruct (0 <=? _).
    + destruct (Seq_Compare_cases t cum) as [[_ H]|[[E _]|[E _]]]; [exact H|rewrite E in E1; discriminate..].
    + destruct (Seq_Compare_cases e cum) as [[_ H]|[[E _]|[E _]]]; [exact H|rewrite E in E2; discriminate..].
Qed.
End Answer.

(** ** The property *)
Section Handler.
Context {recovery : RecoveryCalls} (clock : nat -> Z) (stack_pairs : list po_seq_pair).
Context (VAR : server_variables) (r : state) (m : catchup_request).
Abbreviation sender := (cr_machine_id m).
Abbreviation next := (cr_aru m + 1).

(** The asker is a server behind this one, within the history; its request is not older
    than one before, and not too soon. *)
Record may_answer : Prop := {
  ma_sender : is_server sender /\ sender <> My_Server_ID VAR;
  ma_digest : OPENSSL_RSA_Digests_Equal (proposal_digest r) (cr_proposal_digest m) = true;
  ma_stored : exists old, aget (last_catchup_request (CATCHUP r)) sender = Some old /\
    match old with Some o => 0 <= CATCH_Compare_Catchup_Request m o | None => True end;
  ma_time : exists t, aget (next_catchup_time (CATCHUP r)) sender = Some t /\ t < clock (clock_reads (rest (others r)));
  ma_status : exists st, aget (recovery_status (others r)) sender = Some st;
  ma_flag : cr_flag m = FLAG_CATCHUP;
  ma_aru : 0 <= cr_aru m < ARU r /\ ARU r < two32 - 1;
  ma_history : ARU r - CATCHUP_HISTORY <= next /\ stable_catchup r <= next }.

(** What the asker lacks is kept. *)
Record holds (last : ord_slot) : Prop := {
  ho_slots : forall n, cr_aru m < n <= ARU r -> exists slot, History r !! n = Some slot /\ kept r m slot;
  ho_last : History r !! ARU r = Some last;
  ho_vectors : vectors_ok r m (made_eligible last);
  ho_unordered : Forall (held r) (concat (map (lacking_unordered r m (made_eligible last)) (seqZ 1 NUM_SERVERS))) }.

Definition answer (last : ord_slot) : list catch_out :=
  concat (map (certificates_at VAR r m) (counting next (ARU r)))
  ++ omap (po_certificate_out VAR r m) (concat (map (lacking_unordered r m (made_eligible last)) (seqZ 1 NUM_SERVERS))).

Lemma emits_certificates last : may_answer -> holds last ->
  emits r (send_certificates stack_pairs VAR m) (answer last) tt.
Proof.
  intros [_ _ _ _ _ _ [Ha1 Ha2] _] [Hk Hl Hv Hu]. unfold send_certificates. apply emits_get. intros c q k.
  change (ARU (with_catchup c q k r)) with (ARU r). rewrite wrap32_small by (unfold two32 in *; lia).
  apply (emits_read r _ _ _ _ _ (emits_counting r next (ARU r) Ha2)).
  unfold answer. destruct (vo_theirs r m _ Hv) as [Hlen _].
  apply (emits_bind r _ _ _ _ true tt).
  - apply emits_slots; [exact Hlen|]. apply Forall_forall. intros n Hn. unfold counting in Hn. apply elem_of_seqZ in Hn.
    apply Hk. lia.
  - cbn [negb]. apply (emits_read r _ _ (made_eligible last)).
    + unfold last_eligible. apply emits_get. intros c' q' k'. change (ARU (with_catchup c' q' k' r)) with (ARU r).
      replace (0 <? ARU r) with true by lia. apply (emits_read r _ _ _ _ _ (emits_ord_slot r (ARU r))). rewrite Hl. apply emits_ret.
    + apply emits_unordered; [exact Hv| |exact Hu]. apply Forall_forall. intros i Hi. apply elem_of_seqZ in Hi. unfold is_server. lia.
Qed.

Lemma helps : may_answer -> emits r (CATCH_Can_Help_Catchup stack_pairs m) [] true.
Proof.
  intros [_ _ _ _ _ _ [Ha1 Ha2] _]. unfold CATCH_Can_Help_Catchup. apply emits_get. intros c q k.
  change (ARU (with_catchup c q k r)) with (ARU r). replace (cr_aru m <? ARU r) with true by lia. apply emits_ret.
Qed.

(** The request is stored and the time of the next answer noted. *)
Lemma run_store c q k : arrays_sized c -> Z.of_nat (length (last_catchup_request c)) = NUM_SERVER_SLOTS ->
  is_server sender -> OPENSSL_RSA_Digests_Equal (proposal_digest r) (cr_proposal_digest m) = true ->
  (exists old, aget (last_catchup_request c) sender = Some old /\
    match old with Some o => 0 <= CATCH_Compare_Catchup_Request m o | None => True end) ->
  exists l, store_request_of m (with_catchup c q k r) = Ret (true, with_catchup (put_requests l (sent_catchup_request c) c) q k r).
Proof.
  intros _ Hlen Hs Hd (old & Eo & Hold). unfold store_request_of. rewrite run_catch_get.
  change (proposal_digest (with_catchup c q k r)) with (proposal_digest r). rewrite Hd. cbn [negb]. rewrite run_catch.
  unfold or_oob at 1. rewrite Eo. unfold bind at 1, ret at 1.
  replace (match old with Some old0 => CATCH_Compare_Catchup_Request m old0 <? 0 | None => false end) with false
    by (destruct old; [symmetry; apply Z.ltb_ge; exact Hold|reflexivity]).
  destruct (aset_sized (last_catchup_request c) sender (Some m) Hlen Hs) as (l & El & _).
  exists l. unfold or_oob. rewrite El. reflexivity.
Qed.
End Handler.

(** C18. A server that asks to catch up, and is behind by no more than the history, gets the
    certificates of what it lacks, in the order of their slots, and nothing else: for
    each slot beyond its [ARU] those of the PO-Requests the slot made eligible that its
    vector does not cover, then that of the slot; then those of the PO-Requests
    certified here that no slot has made eligible.  Of this replica, only what it knows
    of requests changes. *)
Theorem catchup_answer_is_what_is_lacking {recovery : RecoveryCalls} clock stack_pairs VAR (r : state) m last :
  may_answer clock VAR r m -> arrays_sized (CATCHUP r) -> Z.of_nat (length (last_catchup_request (CATCHUP r))) = NUM_SERVER_SLOTS ->
  holds r m last ->
  exists c q k,
    CATCH_Process_Catchup_Request clock stack_pairs VAR m r = Ret (tt, with_catchup c q k r) /\
    catch_sent c = catch_sent (CATCHUP r) ++ answer VAR r m last.
Proof.
  intros Hmay Hsz Hlen Hh0. pose proof Hmay as [[Hs Hne] Hd Hold (t & Et & Hnow) (st & Est) Hf [Ha1 Ha2] [Hh1 Hh2]].
  enough (H : exists c q k, CATCH_Process_Catchup_Request clock stack_pairs VAR m (own_catchup r) = Ret (tt, with_catchup c q k r) /\
            catch_sent c = catch_sent (CATCHUP r) ++ answer VAR r m last) by (rewrite own_catchup_is in H; exact H).
  unfold own_catchup, CATCH_Process_Catchup_Request. replace (cr_machine_id m =? My_Server_ID VAR) with false by lia.
  set (c0 := CATCHUP r) in *. set (q0 := timers _). set (k0 := clock_reads _) in *.
  destruct (run_store r m c0 q0 k0 Hsz Hlen Hs Hd Hold) as (l & El).
  rewrite (run_bind _ _ _ _ _ El). cbn [negb]. set (c1 := put_requests _ _ _).
  rewrite run_get_time, run_catch. change (next_catchup_time c1) with (next_catchup_time c0).
  unfold or_oob at 1. rewrite Et. unfold bind at 1, ret at 1. replace (clock k0 <=? t) with false by lia.
  rewrite run_catch_get. change (proposal_digest (with_catchup c1 q0 (S k0) r)) with (proposal_digest r).
  rewrite (run_bind po _ _ (set_rest (rest (others (with_catchup c1 q0 (S k0) r))) (others r)) (with_catchup c1 q0 (S k0) r)) by reflexivity.
  rewrite (run_bind _ _ _ st (with_catchup c1 q0 (S k0) r)) by (unfold at_server, or_oob; cbn; rewrite Est; reflexivity).
  rewrite Hd. cbn [negb andb]. rewrite (run_bind _ _ _ _ _ (helps clock stack_pairs VAR r m Hmay c1 q0 (S k0))), sends_nothing.
  cbn [negb]. change (ARU (with_catchup c1 q0 (S k0) r)) with (ARU r).
  change (stable_catchup (with_catchup c1 q0 (S k0) r)) with (stable_catchup r).
  rewrite (wrap32_small (cr_aru m + 1)) by (unfold two32 in *; lia).
  replace (cr_aru m + 1 <? stable_catchup r) with false by lia. rewrite andb_false_r.
  destruct (aset_sized (next_catchup_time c1) (cr_machine_id m) (clock k0 + CATCHUP_PERIOD) (proj1 Hsz) Hs) as (l2 & El2 & _).
  rewrite (run_bind _ _ _ _ _ (run_set_time c1 q0 (S k0) r _ _ _ El2)). set (c2 := put_next_catchup_time l2 c1).
  replace (too_far_behind (with_catchup c1 q0 (S k0) r) m) with false.
  2: { unfold too_far_behind. change (ARU (with_catchup c1 q0 (S k0) r)) with (ARU r). rewrite Hf.
       rewrite (wrap32_small (cr_aru m + 1)) by (unfold two32 in *; lia).
       change (FLAG_CATCHUP =? FLAG_JUMP) with false. change (FLAG_CATCHUP =? FLAG_RECOVERY) with false.
       change (FLAG_CATCHUP =? FLAG_PERIODIC) with false. cbn [orb andb].
       destruct (Z.ltb_spec CATCHUP_HISTORY (ARU r)) as [Hh|Hh]; [|reflexivity]. cbn [andb].
       rewrite wrap32_small by (change CATCHUP_HISTORY with 10 in *; unfold two32 in *; lia). symmetry. apply Z.ltb_ge. exact Hh1. }
  exists (sends (answer VAR r m last) c2), q0, (S k0).
  split; [exact (emits_certificates clock stack_pairs VAR r m last Hmay Hh0 c2 q0 (S k0))|reflexivity].
Qed.

(** Server 1, which has nothing, asks server 2, which has executed a slot with a request. *)
Definition ahead : state := OrderSystem.node lag_end 2.
Definition toy_ask : catchup_request := mkCatchupRequest 1 5 FLAG_CATCHUP 9 0 zero_pairs (zeros DIGEST_SIZE).
Definition ahead_slot : ord_slot := default (new_ord_slot 1) (History ahead !! 1).
Definition no_recovery : RecoveryCalls :=
  {| PR_Process_Jump := fun _ _ => ret tt; PR_Reset_Prime := fun _ => ret tt; PR_Send_Pending_State := fun _ _ _ => ret tt;
     reset_certificate := fun _ => [] |}.
Definition later_clock (n : nat) : Z := 1 + ticks n.

Lemma ahead_kept : kept ahead toy_ask ahead_slot.
Proof.
  split; [vm_compute; reflexivity..| | |].
  - replace (zip (c_last_executed (complete_pre_prepare ahead_slot)) (made_eligible ahead_slot))
      with ((mkPS 0 0, mkPS 0 1) :: repeat (mkPS 0 0, mkPS 0 0) 5) by (vm_compute; reflexivity).
    apply List.Forall_cons; [|apply Forall_forall; intros p Hp; apply list_elem_of_In, repeat_spec in Hp as ->].
    all: split; [|split; [split|]; vm_compute; congruence].
    + right. right. split; vm_compute; reflexivity.
    + left. reflexivity.
  - replace (lacking toy_ask ahead_slot) with [first_id] by (vm_compute; reflexivity).
    apply List.Forall_cons; [|apply List.Forall_nil]. eexists. vm_compute. reflexivity.
  - eexists. vm_compute. reflexivity.
Qed.

Lemma catchup_answer_is_what_is_lacking_witness :
  exists p o c q k,
    CATCH_Process_Catchup_Request (recovery := no_recovery) later_clock [] (Init_VAR 2) toy_ask ahead = Ret (tt, with_catchup c q k ahead) /\
    catch_sent c = [Po_Cert_Pending 6 p; Ord_Cert_Pending 6 o] /\ pc_request p = toy_request /\ oc_seq_num o = 1.
Proof.
  destruct (@catchup_answer_is_what_is_lacking no_recovery later_clock [] (Init_VAR 2) ahead toy_ask ahead_slot) as (c & q & k & E & S).
  - split.
    + split; [split; vm_compute; congruence|vm_compute; congruence].
    + vm_compute. reflexivity.
    + exists None. split; [vm_compute; reflexivity|exact I].
    + exists 0. split; vm_compute; reflexivity.
    + eexists. vm_compute. reflexivity.
    + reflexivity.
    + split; [split|]; vm_compute; congruence.
    + split; vm_compute; congruence.
  - split; vm_compute; reflexivity.
  - vm_compute. reflexivity.
  - split; [|vm_compute; reflexivity| |].
    + intros n Hn. exists ahead_slot. change (cr_aru toy_ask) with 0 in Hn.
      assert (Ea : ARU ahead = 1) by (vm_compute; reflexivity). assert (n = 1) as -> by lia.
      split; [vm_compute; reflexivity|exact ahead_kept].
    + split; (split; [vm_compute; reflexivity|]); apply Forall_forall; intros p Hp; vm_compute in Hp;
        repeat (apply elem_of_cons in Hp as [->|Hp]; [split; [|split]; vm_compute; congruence|]); inversion Hp.
    + replace (concat _) with (@nil po_id) by (vm_compute; reflexivity). apply List.Forall_nil.
  - eexists _, _, c, q, k. split; [exact E|]. rewrite S. split; [vm_compute; reflexivity|]. split; vm_compute; reflexivity.
Defined.
