(* ===== verification/CatchupJump.v ===== *)
(** Jumping ahead: what [CATCH_Jump_Ahead] makes of pre-ordering, as if the requests
    that are jumped over had been executed. *)
From Stdlib Require Import ZArith Lia List Bool Permutation.
From Stdlib Require Import Strings.Byte.
From stdpp Require Import base list gmap.
From S2P Require Import Prelude Memory Config Packets Crypto Utility Eligibility EligibilityCorrect OrderState PreOrderState CatchupState Order PreOrder Execute ViewState ViewChange Catchup OrderProps ExecuteProps SuspectProps CatchupRound.

(** ** What a jump is to do *)
Section Targets.
Context (target : Z -> option po_seq_pair).

(** An entry with a target is raised to it. *)
Definition raised (l l' : list po_seq_pair) : Prop :=
  length l' = length l /\
  forall j, aget l' j = match target j with Some p => raise_to p <$> aget l j | None => aget l j end.

(** An entry with a target is at least that. *)
Definition reaches (l l' : list po_seq_pair) : Prop :=
  length l' = length l /\
  forall j, match target j with Some p => exists w, aget l' j = Some w /\ ps_le p w | None => aget l' j = aget l j end.

(** Up to its server's target. *)
Definition jumped_over (id : po_id) : bool :=
  match target (po_server_id id) with Some p => PRE_ORDER_Seq_Compare (po_pair id) p <=? 0 | None => false end.

Definition without {A} (h h' : gmap po_id A) : Prop :=
  forall id, h' !! id = if jumped_over id then None else h !! id.
End Targets.

Record jumped (target : Z -> option po_seq_pair) (r r' : state) : Prop := {
  jp_order : History r' = History r /\ ARU r' = ARU r /\ View r' = View r;
  jp_sent : length (max_num_sent_in_proof r') = length (max_num_sent_in_proof r) /\
    forall j, aget (max_num_sent_in_proof r') j = match target j with Some p => (fun _ => p) <$> aget (max_num_sent_in_proof r) j
                                                  | None => aget (max_num_sent_in_proof r) j end;
  jp_acked : raised target (max_acked (others r)) (max_acked (others r'));
  jp_aru : raised target (aru (others r)) (aru (others r'));
  jp_cum_aru : raised target (cum_aru (others r)) (cum_aru (others r'));
  jp_executed : raised target (last_executed_po_reqs (others r)) (last_executed_po_reqs (others r'));
  jp_white : reaches target (white_line (others r)) (white_line (others r'));
  jp_slots : without target (PO_History (others r)) (PO_History (others r'));
  jp_pending : without target (PO_Pending (others r)) (PO_Pending (others r')) }.

(** The arrays that a jump does not move keep their lengths. *)
Definition same_arrays (r r' : state) : Prop :=
  length (recovery_status (others r')) = length (recovery_status (others r)) /\
  length (preinstalled_incarnations r') = length (preinstalled_incarnations r) /\
  length (installed_incarnations r') = length (installed_incarnations r).

Definition no_target : Z -> option po_seq_pair := fun _ => None.
Definition aim (i : Z) (ps : po_seq_pair) (target : Z -> option po_seq_pair) : Z -> option po_seq_pair :=
  fun j => if j =? i then Some ps else target j.

Lemma raised_aim t i ps l l1 l2 : t i = None -> raised t l l1 -> raised (aim i ps no_target) l1 l2 -> raised (aim i ps t) l l2.
Proof.
  intros Ht [L1 H1] [L2 H2]. split; [congruence|]. intros j. rewrite H2, H1. unfold aim, no_target.
  destruct (Z.eqb_spec j i) as [->|]; [rewrite Ht|]; reflexivity.
Qed.

Lemma reaches_aim t i ps l l1 l2 : t i = None -> reaches t l l1 -> reaches (aim i ps no_target) l1 l2 -> reaches (aim i ps t) l l2.
Proof.
  intros Ht [L1 H1] [L2 H2]. split; [congruence|]. intros j. specialize (H1 j). specialize (H2 j).
  unfold aim, no_target in *. destruct (Z.eqb_spec j i) as [->|]; [exact H2|].
  rewrite H2. exact H1.
Qed.

Lemma without_aim {A} t i ps (h h1 h2 : gmap po_id A) :
  t i = None -> without t h h1 -> without (aim i ps no_target) h1 h2 -> without (aim i ps t) h h2.
Proof.
  intros Ht H1 H2 id. rewrite H2, H1. unfold jumped_over, aim, no_target.
  destruct (Z.eqb_spec (po_server_id id) i) as [->|]; [rewrite Ht|]; reflexivity.
Qed.

Lemma jumped_aim t i ps r r1 r2 : t i = None -> jumped t r r1 -> jumped (aim i ps no_target) r1 r2 -> jumped (aim i ps t) r r2.
Proof.
  intros Ht [(A1 & A2 & A3) [S1 S1'] B1 B2 B3 B4 B5 B6 B7] [(C1 & C2 & C3) [S2 S2'] D1 D2 D3 D4 D5 D6 D7].
  split; [split; [|split]; congruence| | | | | | | |];
    try (eapply raised_aim; eassumption); try (eapply reaches_aim; eassumption); try (eapply without_aim; eassumption).
  split; [congruence|]. intros j. rewrite S2', S1'. unfold aim, no_target. destruct (Z.eqb_spec j i) as [->|]; [rewrite Ht|]; reflexivity.
Qed.

(** ** The steps *)
(** What is not about the requests changes. *)
Record calm (r r' : state) : Prop := {
  cm_order : History r' = History r /\ ARU r' = ARU r /\ View r' = View r;
  cm_sent : max_num_sent_in_proof r' = max_num_sent_in_proof r;
  cm_lines : max_acked (others r') = max_acked (others r) /\ aru (others r') = aru (others r) /\
    cum_aru (others r') = cum_aru (others r) /\ last_executed_po_reqs (others r') = last_executed_po_reqs (others r);
  cm_white : white_line (others r') = white_line (others r);
  cm_slots : PO_History (others r') = PO_History (others r);
  cm_pending : PO_Pending (others r') = PO_Pending (others r);
  cm_arrays : same_arrays r r' }.

#[export] Instance calm_preorder : PreOrder calm.
Proof.
  split.
  - intros r. repeat split; reflexivity.
  - intros r1 r2 r3 [(A1 & A2 & A3) A4 (A5 & A6 & A7 & A8) A9 A10 A11 (A12 & A13 & A14)]
      [(B1 & B2 & B3) B4 (B5 & B6 & B7 & B8) B9 B10 B11 (B12 & B13 & B14)]. repeat split; congruence.
Qed.

(** All arrays have a place for each server. *)
Definition sized {A} (l : list A) : Prop := Z.of_nat (length l) = NUM_SERVER_SLOTS.

Record po_sized (r : state) : Prop := {
  sz_sent : sized (max_num_sent_in_proof r); sz_acked : sized (max_acked (others r)); sz_aru : sized (aru (others r));
  sz_cum : sized (cum_aru (others r)); sz_executed : sized (last_executed_po_reqs (others r));
  sz_white : sized (white_line (others r)); sz_status : sized (recovery_status (others r));
  sz_preinstalled : sized (preinstalled_incarnations r); sz_installed : sized (installed_incarnations r) }.

Lemma sized_at {A} (l : list A) i : sized l -> is_server i -> exists x, aget l i = Some x.
Proof.
  intros Hl Hi. apply aget_is_Some. unfold sized, is_server in *. change NUM_SERVER_SLOTS with 7 in Hl.
  change NUM_SERVERS with 6 in Hi. lia.
Qed.

Lemma sized_set {A} (l : list A) i x : sized l -> is_server i -> exists l', aset l i x = Some l' /\ sized l'.
Proof. apply aset_sized. Qed.

Section Steps.
Context {crypto : Crypto} {signer : Signer} {ext : External vc_data} {calls : ViewCalls}.
Context (VAR : server_variables).
Implicit Types r : state.

Lemma run_at_server {A} (l : list A) i x r : aget l i = Some x -> at_server l i r = Ret (x, r).
Proof. unfold at_server, or_oob. intros ->. reflexivity. Qed.

Lemma run_set_server {A} (field : po_data (R := vc_data) -> list A) put_field i x r l :
  aset (field (others r)) i x = Some l -> set_server field put_field i x r = Ret (tt, set_others (put_field l (others r)) r).
Proof. unfold set_server, bind, po, get, ret, or_oob. cbn. intros ->. reflexivity. Qed.

Lemma run_raise_at field put_field i ps r old l :
  aget (field (others r)) i = Some old -> aset (field (others r)) i (raise_to ps old) = Some l ->
  raise_at field put_field i ps r = Ret (tt, set_others (put_field l (others r)) r).
Proof.
  intros E1 E2. unfold raise_at. unfold bind at 1, po, bind at 1, get, ret at 1.
  rewrite (run_bind _ _ _ _ _ (run_at_server _ _ _ r E1)). apply run_set_server, E2.
Qed.

Lemma raised_at i ps l l' old : aget l i = Some old -> aset l i (raise_to ps old) = Some l' -> raised (aim i ps no_target) l l'.
Proof.
  intros E1 E2. split; [eapply aset_length, E2|]. intros j. rewrite (aget_aset _ _ _ _ _ E2). unfold aim, no_target.
  destruct (Z.eq_dec i j) as [<-|]; [rewrite Z.eqb_refl, E1; reflexivity|]. replace (j =? i) with false by lia. reflexivity.
Qed.

(** Installing another server's incarnation. *)
Lemma run_install i ps r : is_server i -> i <> My_Server_ID VAR -> po_sized r ->
  exists r', install_incarnation VAR i ps r = Ret (tt, r') /\ calm r r'.
Proof.
  intros Hi Hne [_ _ _ _ _ _ S1 S2 S3].
  destruct (sized_at _ i S1 Hi) as (st & E1). destruct (sized_at _ i S2 Hi) as (pre & E2).
  destruct (sized_set _ i PR_NORMAL S1 Hi) as (l1 & E3 & _). destruct (sized_set _ i (incarnation ps) S2 Hi) as (l2 & E4 & S4).
  destruct (sized_set _ i (incarnation ps) S3 Hi) as (l3 & E5 & S5).
  destruct (sized_at _ i S4 Hi) as (p4 & E6). destruct (sized_at _ i S5 Hi) as (p5 & E7).
  pose proof (aset_length _ _ _ _ E3). pose proof (aset_length _ _ _ _ E4). pose proof (aset_length _ _ _ _ E5).
  unfold install_incarnation. replace (i =? My_Server_ID VAR) with false by lia. cbn [andb].
  destruct r as [? ? ? ? ? ? ? ? ? ? ? ? ? ? ? ? ? ? ? ? ? ? e]. destruct e. cbn in *.
  unfold bind, po, get, ret, at_server, or_oob, set_server, po_update, modify, bind, get, put. cbn. rewrite E1. cbn.
  destruct (st =? PR_STARTUP); cbn; rewrite E2; cbn; destruct (pre <=? incarnation ps); cbn; rewrite ?E3; cbn; rewrite ?E4; cbn;
    rewrite E5; cbn; rewrite ?E6, ?E2; cbn; rewrite E7; cbn;
    eexists; (split; [reflexivity|]); repeat split; cbn; congruence.
Qed.
(** Requests of server [i] among [keys], up to [ps], are gone; of the lines only the
    white line of [i] may have moved. *)
Record erased (i : Z) (ps : po_seq_pair) (keys : list po_seq_pair) (r r' : state) : Prop := {
  er_order : History r' = History r /\ ARU r' = ARU r /\ View r' = View r;
  er_sent : max_num_sent_in_proof r' = max_num_sent_in_proof r;
  er_lines : max_acked (others r') = max_acked (others r) /\ aru (others r') = aru (others r) /\
    cum_aru (others r') = cum_aru (others r) /\ last_executed_po_reqs (others r') = last_executed_po_reqs (others r);
  er_white : length (white_line (others r')) = length (white_line (others r)) /\
    forall j, j <> i -> aget (white_line (others r')) j = aget (white_line (others r)) j;
  er_slots : forall id, PO_History (others r') !! id =
    if bool_decide (po_server_id id = i /\ po_pair id ∈ keys) && (PRE_ORDER_Seq_Compare (po_pair id) ps <=? 0)
    then None else PO_History (others r) !! id;
  er_pending : PO_Pending (others r') = PO_Pending (others r);
  er_arrays : same_arrays r r' }.

Lemma erased_nothing i ps r : erased i ps [] r r.
Proof.
  split; try (repeat split; reflexivity). intros id. rewrite bool_decide_eq_false_2; [reflexivity|]. set_solver.
Qed.

Lemma erased_trans i ps k1 k2 r r1 r2 : erased i ps k1 r r1 -> erased i ps k2 r1 r2 -> erased i ps (k1 ++ k2) r r2.
Proof.
  intros [(A1 & A2 & A3) A4 (A5 & A6 & A7 & A8) (A9 & A9') A10 A11 (A12 & A13 & A14)]
    [(B1 & B2 & B3) B4 (B5 & B6 & B7 & B8) (B9 & B9') B10 B11 (B12 & B13 & B14)].
  split; try (repeat split; congruence).
  - split; [congruence|]. intros j Hj. rewrite B9', A9' by exact Hj. reflexivity.
  - intros id. rewrite B10, A10. destruct (PRE_ORDER_Seq_Compare (po_pair id) ps <=? 0); rewrite ?andb_true_r, ?andb_false_r; [|reflexivity].
    repeat case_bool_decide; try reflexivity; exfalso; set_solver.
Qed.

Lemma erased_key i ps key r slot cum :
  is_server i -> po_sized r -> PO_History (others r) !! mkPoId i key = Some slot -> slot_seq slot = key ->
  aget (cum_aru (others r)) i = Some cum -> ps_le ps cum ->
  exists r1,
    erase_requests VAR i ps [key] r = Ret (tt, r1) /\ erased i ps [key] r r1.
Proof.
  intros Hi Hz Hs Hk Hc Hle. cbn [erase_requests]. destruct (sized_set _ i key (sz_white _ Hz) Hi) as (l & El & _).
  rewrite (run_bind po _ r (others r) r eq_refl).
  rewrite (run_bind (or_oob (PO_History (others r) !! mkPoId i key)) _ r slot r) by (rewrite Hs; reflexivity). rewrite Hk. cbv zeta.
  destruct (0 <? PRE_ORDER_Seq_Compare key ps) eqn:Eb.
  - eexists. split; [reflexivity|]. split; try (repeat split; reflexivity). intros id.
    case_bool_decide as Hd; [|reflexivity]. destruct Hd as [<- Hin]. apply list_elem_of_singleton in Hin. rewrite Hin.
    replace (PRE_ORDER_Seq_Compare key ps <=? 0) with false by lia. reflexivity.
  - assert (Hkc : (0 <? PRE_ORDER_Seq_Compare key cum) = false).
    { destruct (Seq_Compare_cases key ps) as [[_ H]|[[_ H]|[E _]]]; [| |lia];
      destruct (Seq_Compare_cases key cum) as [[-> _]|[[-> _]|[_ H']]]; try reflexivity; exfalso;
      destruct Hle as [<-|Hle]; unfold ps_lt in *; subst; lia. }
    assert (Hsrv : (1 <=? i) && (i <=? NUM_SERVERS) = true) by (unfold is_server in Hi; lia).
    destruct r as [? ? ? ? ? ? ? ? ? ? ? ? ? ? ? ? ? ? ? ? ? ? e]. destruct e. cbn in Hs, Hc, El.
    pose proof (aset_length _ _ _ _ El) as Hlen.
    destruct (_ && (PRE_ORDER_Seq_Compare _ _ <? 0));
      unfold PRE_ORDER_Garbage_Collect_PO_Slot, UTIL_Get_PO_Slot_If_Exists, set_server, at_server, po_update, modify, po, assert_, or_oob,
        bind, get, put, ret; rewrite Hsrv; cbn; rewrite Hs; cbn; rewrite El; cbn; rewrite Hc; cbn; rewrite Hkc; cbn;
      (eexists; split; [reflexivity|]; split; cbn; try (repeat split; reflexivity);
       [split; [exact Hlen|]; intros j Hj; apply (aget_aset_ne _ _ _ _ _ El); congruence|];
       intros id; destruct (decide (id = mkPoId i key)) as [->|Hne];
         [rewrite lookup_delete_eq, bool_decide_eq_true_2 by (cbn; set_solver); cbn [po_pair];
          replace (PRE_ORDER_Seq_Compare key ps <=? 0) with true by lia; reflexivity
         |rewrite lookup_delete_ne by congruence; rewrite bool_decide_eq_false_2; [reflexivity|];
          intros [Hid Hin]; apply Hne; apply list_elem_of_singleton in Hin; destruct id; cbn in *; congruence]).
Qed.
Lemma erase_first i ps key keys r r1 :
  erase_requests VAR i ps [key] r = Ret (tt, r1) -> erase_requests VAR i ps (key :: keys) r = erase_requests VAR i ps keys r1.
Proof.
  cbn [erase_requests]. intros (e & r2 & E2 & (slot & r3 & E3 & ([] & r4 & E4 & H)%run_bind_inv)%run_bind_inv)%run_bind_inv.
  injection H as <-. rewrite (run_bind _ _ _ _ _ E2), (run_bind _ _ _ _ _ E3). cbv zeta in E4 |- *.
  rewrite (run_bind _ _ _ _ _ E4). reflexivity.
Qed.

(** Slots are found under their own number. *)
Definition keyed r : Prop := forall id slot, PO_History (others r) !! id = Some slot -> slot_seq slot = po_pair id.

Lemma erased_sized i ps keys r r' : erased i ps keys r r' -> po_sized r -> po_sized r'.
Proof.
  intros [_ E1 (E2 & E3 & E4 & E5) [E6 _] _ _ (E7 & E8 & E9)] [? ? ? ? ? ? ? ? ?].
  split; unfold sized in *; congruence.
Qed.

Lemma erased_keyed i ps keys r r' : erased i ps keys r r' -> keyed r -> keyed r'.
Proof. intros H Hk id slot. rewrite (er_slots _ _ _ _ _ H). destruct (_ && _); [discriminate|apply Hk]. Qed.

Lemma run_erase i ps cum keys : forall r,
  is_server i -> po_sized r -> keyed r -> NoDup keys ->
  (forall key, key ∈ keys -> is_Some (PO_History (others r) !! mkPoId i key)) ->
  aget (cum_aru (others r)) i = Some cum -> ps_le ps cum ->
  exists r', erase_requests VAR i ps keys r = Ret (tt, r') /\ erased i ps keys r r'.
Proof.
  induction keys as [|key keys IH]; intros r Hi Hz Hk Hnd Hin Hc Hle.
  - exists r. split; [reflexivity|apply erased_nothing].
  - apply NoDup_cons in Hnd as [Hnew Hnd]. destruct (Hin key ltac:(set_solver)) as [slot Hs].
    destruct (erased_key i ps key r slot cum Hi Hz Hs (Hk _ _ Hs) Hc Hle) as (r1 & E1 & H1).
    destruct (IH r1) as (r2 & E2 & H2); [exact Hi|eapply erased_sized; eassumption|eapply erased_keyed; eassumption|exact Hnd| | |exact Hle|].
    + intros k Hkin. rewrite (er_slots _ _ _ _ _ H1). rewrite bool_decide_eq_false_2 by (cbn; set_solver).
      apply Hin. set_solver.
    + rewrite (proj1 (proj2 (proj2 (er_lines _ _ _ _ _ H1)))). exact Hc.
    + exists r2. split; [rewrite (erase_first _ _ _ _ _ _ E1); exact E2|]. exact (erased_trans i ps [key] keys r r1 r2 H1 H2).
Qed.

Lemma keys_of_in i (h : gmap po_id po_slot) key : key ∈ keys_of i h <-> is_Some (h !! mkPoId i key).
Proof.
  unfold keys_of. rewrite list_elem_of_In, in_map_iff. split.
  - intros ([i' p] & <- & Hin). apply filter_In in Hin as [Hin He]. cbn in *. apply Z.eqb_eq in He as ->.
    apply in_map_iff in Hin as ([id slot] & E & Hin). cbn in E. subst id.
    apply list_elem_of_In, elem_of_map_to_list in Hin. eauto.
  - intros [slot Hs]. exists (mkPoId i key). split; [reflexivity|]. apply filter_In. split; [|apply Z.eqb_refl].
    apply in_map_iff. exists (mkPoId i key, slot). split; [reflexivity|]. apply list_elem_of_In, elem_of_map_to_list, Hs.
Qed.

Lemma keys_of_once i (h : gmap po_id po_slot) : NoDup (keys_of i h).
Proof.
  unfold keys_of. apply (NoDup_fmap_2_strong po_pair).
  - intros [s1 p1] [s2 p2]. rewrite !list_elem_of_In, !filter_In. cbn. intros [_ E1] [_ E2] ->. f_equal. lia.
  - apply NoDup_ListNoDup, List.NoDup_filter, NoDup_ListNoDup, NoDup_fst_map_to_list.
Qed.

Lemma ps_le_refl p : ps_le p p.
Proof. left. reflexivity. Qed.

Lemma ps_le_raise_to p q : ps_le p (raise_to p q).
Proof.
  destruct (raise_to_cases p q) as [[-> _]|[-> H]]; [apply ps_le_refl|].
  destruct (Seq_Compare_cases p q) as [[_ L]|[[_ ->]|[_ L]]]; [right; exact L|apply ps_le_refl|contradiction].
Qed.

(** The start of [jump_server]: the lines of the server. *)
Lemma run_raise_lines i ps r : is_server i -> po_sized r ->
  forall k : po_seq_pair -> comp state unit, exists r1 last,
    (sent <- or_oob (aset (max_num_sent_in_proof r) i ps) ;;
     modify (set_max_num_sent sent) ;;;
     raise_at max_acked with_max_acked i ps ;;;
     raise_at aru with_aru i ps ;;;
     e <- po ;;
     cum <- at_server (cum_aru e) i ;;
     (if 0 <? PRE_ORDER_Seq_Compare ps cum
      then set_server cum_aru with_cum_aru i ps ;;; po_update (with_cum_aru_updated true) else ret tt) ;;;
     last <- at_server (last_executed_po_reqs e) i ;;
     k last) r = k last r1 /\
    aget (last_executed_po_reqs (others r1)) i = Some last /\ aget (last_executed_po_reqs (others r)) i = Some last /\
    (History r1 = History r /\ ARU r1 = ARU r /\ View r1 = View r) /\
    aset (max_num_sent_in_proof r) i ps = Some (max_num_sent_in_proof r1) /\
    raised (aim i ps no_target) (max_acked (others r)) (max_acked (others r1)) /\
    raised (aim i ps no_target) (aru (others r)) (aru (others r1)) /\
    raised (aim i ps no_target) (cum_aru (others r)) (cum_aru (others r1)) /\
    last_executed_po_reqs (others r1) = last_executed_po_reqs (others r) /\
    white_line (others r1) = white_line (others r) /\ PO_History (others r1) = PO_History (others r) /\
    PO_Pending (others r1) = PO_Pending (others r) /\ same_arrays r r1.
Proof.
  intros Hi [Z1 Z2 Z3 Z4 Z5 _ _ _ _] k.
  destruct (sized_set _ i ps Z1 Hi) as (l1 & E1 & _). destruct (sized_at _ i Z2 Hi) as (a2 & A2). destruct (sized_at _ i Z3 Hi) as (a3 & A3).
  destruct (sized_at _ i Z4 Hi) as (a4 & A4). destruct (sized_at _ i Z5 Hi) as (a5 & A5).
  destruct (sized_set _ i (raise_to ps a2) Z2 Hi) as (l2 & E2 & _). destruct (sized_set _ i (raise_to ps a3) Z3 Hi) as (l3 & E3 & _).
  destruct (sized_set _ i (raise_to ps a4) Z4 Hi) as (l4 & E4 & _).
  pose proof (raised_at i ps _ _ _ A2 E2). pose proof (raised_at i ps _ _ _ A3 E3). pose proof (raised_at i ps _ _ _ A4 E4).
  rewrite (run_bind (or_oob _) _ r l1 r) by (rewrite E1; reflexivity).
  rewrite (run_bind (modify _) _ r tt (set_max_num_sent l1 r)) by reflexivity.
  rewrite (run_bind _ _ _ _ _ (run_raise_at max_acked with_max_acked i ps (set_max_num_sent l1 r) a2 l2 A2 E2)).
  rewrite (run_bind _ _ _ _ _ (run_raise_at aru with_aru i ps (set_others (with_max_acked l2 (others r)) (set_max_num_sent l1 r)) a3 l3 A3 E3)).
  match goal with |- context[bind po _ ?s] => set (s2 := s) end.
  rewrite (run_bind po _ s2 (others s2) s2 eq_refl), (run_bind _ _ _ _ _ (run_at_server _ _ _ s2 (A4 : aget (cum_aru (others s2)) i = _))).
  unfold raise_to in E4. destruct (0 <? PRE_ORDER_Seq_Compare ps a4) eqn:Ec.
  - rewrite (run_bind _ _ s2 tt (set_others (with_cum_aru_updated true (with_cum_aru l4 (others s2))) s2)).
    2: { rewrite (run_bind _ _ _ _ _ (run_set_server cum_aru with_cum_aru i ps s2 l4 E4)). reflexivity. }
    rewrite (run_bind _ _ _ a5 _ (run_at_server _ _ _ _ (A5 : aget (last_executed_po_reqs (others s2)) i = _))).
    eexists _, a5. split; [reflexivity|]. split_and!; solve [assumption|reflexivity|repeat split].
  - assert (l4 = cum_aru (others r)) as ->.
    { unfold aget, aset in A4, E4. destruct (in_bounds _ _); [|discriminate]. injection E4 as <-. apply list_insert_id, A4. }
    rewrite (run_bind (ret tt) _ s2 tt s2 eq_refl), (run_bind _ _ _ a5 _ (run_at_server _ _ _ _ (A5 : aget (last_executed_po_reqs (others s2)) i = _))).
    eexists _, a5. split; [reflexivity|]. split_and!; solve [assumption|reflexivity|repeat split].
Qed.
(** The request counts as executed. *)
Lemma run_raise_executed i ps last r : is_server i -> po_sized r ->
  aget (last_executed_po_reqs (others r)) i = Some last ->
  (i = My_Server_ID VAR -> incarnation ps <= incarnation last) ->
  exists r1 r2,
    (if 0 <? PRE_ORDER_Seq_Compare ps last then
       (if (incarnation last <? incarnation ps) && (0 <? seq_num ps) then install_incarnation VAR i ps else ret tt) ;;;
       set_server last_executed_po_reqs with_last_executed_po_reqs i ps
     else ret tt) r = Ret (tt, r2) /\
    calm r r1 /\ raised (aim i ps no_target) (last_executed_po_reqs (others r)) (last_executed_po_reqs (others r2)) /\
    r2 = set_others (with_last_executed_po_reqs (last_executed_po_reqs (others r2)) (others r1)) r1.
Proof.
  intros Hi Hz El Hme. destruct (sized_set _ i (raise_to ps last) (sz_executed _ Hz) Hi) as (l & Es & _).
  pose proof (raised_at _ _ _ _ _ El Es) as Hr. unfold raise_to in Es.
  destruct (0 <? PRE_ORDER_Seq_Compare ps last).
  - assert (exists r1, (if (incarnation last <? incarnation ps) && (0 <? seq_num ps) then install_incarnation VAR i ps else ret tt) r
                       = Ret (tt, r1) /\ calm r r1) as (r1 & E1 & C1).
    { destruct (_ && _) eqn:En; [|exists r; split; reflexivity]. apply run_install; auto. intros ->. specialize (Hme eq_refl). lia. }
    rewrite (run_bind _ _ _ _ _ E1). exists r1, (set_others (with_last_executed_po_reqs l (others r1)) r1).
    split; [|split; [exact C1|split; [exact Hr|reflexivity]]].
    apply run_set_server. rewrite (proj2 (proj2 (proj2 (cm_lines _ _ C1)))). exact Es.
  - exists r, r. split; [reflexivity|]. split; [reflexivity|]. split.
    + assert (El' : l = last_executed_po_reqs (others r)); [|rewrite El' in Hr; exact Hr].
      unfold aget, aset in El, Es. destruct (in_bounds _ _); [|discriminate]. injection Es as <-. apply list_insert_id, El.
    + destruct r as [? ? ? ? ? ? ? ? ? ? ? ? ? ? ? ? ? ? ? ? ? ? e]. destruct e. reflexivity.
Qed.

Lemma raised_sized t l l' : raised t l l' -> sized l -> sized l'.
Proof. intros [H _]. unfold sized. congruence. Qed.

Lemma run_jump_server (Horder : forall l, Permutation (hash_order l) l) i ps r last :
  is_server i -> po_sized r -> keyed r -> aget (last_executed_po_reqs (others r)) i = Some last ->
  (i = My_Server_ID VAR -> incarnation ps <= incarnation last) ->
  exists r', jump_server VAR i ps r = Ret (tt, r') /\ jumped (aim i ps no_target) r r' /\ po_sized r' /\ keyed r'.
Proof.
  intros Hi Hz Hk Hlast Hme. unfold jump_server. rewrite (run_bind get _ r r r eq_refl).
  edestruct (run_raise_lines i ps r Hi Hz) as (r1 & last' & E1 & L1 & L1' & O1 & S1 & A1 & U1 & C1 & X1 & W1 & H1 & P1 & T1).
  rewrite E1. clear E1. assert (last' = last) as -> by congruence.
  assert (Hz1 : po_sized r1).
  { destruct Hz, T1 as (T2 & T3 & T4). pose proof (aset_length _ _ _ _ S1).
    split; try (eapply raised_sized; eassumption); unfold sized in *; congruence. }
  destruct (run_raise_executed i ps last r1 Hi Hz1 L1 Hme) as (r2 & r3 & E3 & C3 & X3 & Er3).
  rewrite (run_bind _ _ _ _ _ E3). clear E3.
  match goal with |- context[bind (po_update ?f) _ r3] => set (r4 := set_others (f (others r3)) r3);
    rewrite (run_bind (po_update f) _ r3 tt r4) by reflexivity end.
  rewrite (run_bind po _ r4 (others r4) r4 eq_refl).
  destruct C3 as [(D1 & D2 & D3) D4 (D5 & D6 & D7 & D8) D9 D10 D11 (D12 & D13 & D14)].
  assert (Hz4 : po_sized r4).
  { destruct Hz1. unfold r4. rewrite Er3. split; unfold sized in *; cbn; try congruence.
    destruct X3 as [X3 _]. congruence. }
  assert (Hk4 : keyed r4).
  { intros id slot. unfold r4. rewrite Er3. cbn. rewrite D10, H1. apply Hk. }
  destruct (sized_at _ i (sz_cum _ Hz4) Hi) as (cum & Ecum).
  assert (Hcum : ps_le ps cum).
  { assert (Ec : cum_aru (others r4) = cum_aru (others r1)) by (unfold r4; rewrite Er3; exact D7).
    rewrite Ec in Ecum. destruct C1 as [_ C1]. rewrite C1 in Ecum. unfold aim in Ecum. rewrite Z.eqb_refl in Ecum.
    destruct (sized_at _ i (sz_cum _ Hz) Hi) as (old & Eo). rewrite Eo in Ecum. injection Ecum as <-. apply ps_le_raise_to. }
  edestruct (run_erase i ps cum (hash_order (keys_of i (PO_History (others r4)))) r4 Hi Hz4 Hk4) as (r5 & E5 & H5); [| |exact Ecum|exact Hcum|].
  { rewrite Horder. apply keys_of_once. }
  { intros key. rewrite Horder. apply keys_of_in. }
  rewrite (run_bind _ _ _ _ _ E5). pose proof (erased_sized _ _ _ _ _ H5 Hz4) as Hz5.
  destruct (sized_at _ i (sz_white _ Hz5) Hi) as (w & Ew). destruct (sized_set _ i (raise_to ps w) (sz_white _ Hz5) Hi) as (l & El & _).
  eexists. split; [apply (run_raise_at white_line with_white_line i ps r5 w l Ew El)|].
  pose proof (erased_keyed _ _ _ _ _ H5 Hk4) as Hk5.
  destruct H5 as [(F1 & F2 & F3) F4 (F5 & F6 & F7 & F8) (F9 & F9') F10 F11 (F12 & F13 & F14)].
  split; [|split; [|exact Hk5]].
  - destruct O1 as (O1 & O2 & O3). assert (Eh : PO_History (others r4) = PO_History (others r)).
    { unfold r4. rewrite Er3. cbn. congruence. }
    assert (Ep : PO_Pending (others r4) = filter (fun x => negb (po_server_id (fst x) =? i) || (0 <? PRE_ORDER_Seq_Compare (po_pair (fst x)) ps)) (PO_Pending (others r))).
    { unfold r4. rewrite Er3. cbn. rewrite D11, P1. reflexivity. }
    assert (Ex : last_executed_po_reqs (others r4) = last_executed_po_reqs (others r3)) by reflexivity.
    assert (R4 : History r4 = History r /\ ARU r4 = ARU r /\ View r4 = View r /\ max_num_sent_in_proof r4 = max_num_sent_in_proof r1 /\
      max_acked (others r4) = max_acked (others r1) /\ aru (others r4) = aru (others r1) /\ cum_aru (others r4) = cum_aru (others r1) /\
      white_line (others r4) = white_line (others r)).
    { unfold r4. rewrite Er3. cbn. repeat split; congruence. }
    destruct R4 as (G1 & G2 & G3 & G4 & G5 & G6 & G7 & G8). split; cbn.
    + repeat split; congruence.
    + rewrite F4, G4. split; [eapply aset_length, S1|]. intros j. rewrite (aget_aset _ _ _ _ _ S1). unfold aim, no_target.
      destruct (Z.eq_dec i j) as [<-|]; [|replace (j =? i) with false by lia; reflexivity].
      rewrite Z.eqb_refl. destruct (sized_at _ i (sz_sent _ Hz) Hi) as (x & ->). reflexivity.
    + rewrite F5, G5. exact A1.
    + rewrite F6, G6. exact U1.
    + rewrite F7, G7. exact C1.
    + rewrite F8, Ex, <- X1. exact X3.
    + split; [rewrite (aset_length _ _ _ _ El); congruence|]. intros j. rewrite (aget_aset _ _ _ _ _ El). unfold aim, no_target.
      destruct (Z.eq_dec i j) as [<-|]; [rewrite Z.eqb_refl; eexists; split; [reflexivity|apply ps_le_raise_to]|].
      replace (j =? i) with false by lia. rewrite F9' by congruence. congruence.
    + intros id. rewrite F10, Eh. unfold jumped_over, aim, no_target. destruct (PO_History (others r) !! id) as [slot|] eqn:Es.
      * destruct (Z.eqb_spec (po_server_id id) i) as [<-|]; [|rewrite bool_decide_eq_false_2 by tauto; reflexivity].
        rewrite bool_decide_eq_true_2; [reflexivity|]. split; [reflexivity|]. rewrite Horder. apply keys_of_in.
        destruct id as [sv pr]. cbn [po_server_id po_pair] in *. rewrite Es. eauto.
      * repeat case_match; reflexivity.
    + intros id. rewrite F11, Ep, map_lookup_filter. unfold jumped_over, aim, no_target.
      destruct (PO_Pending (others r) !! id) as [x|]; cbn;
        [|destruct (po_server_id id =? i); [destruct (_ <=? 0)|]; reflexivity].
      destruct (Z.eqb_spec (po_server_id id) i); cbn; [|reflexivity].
      destruct (Z.ltb_spec 0 (PRE_ORDER_Seq_Compare (po_pair id) ps)); cbn.
      * replace (_ <=? 0) with false by lia. reflexivity.
      * replace (_ <=? 0) with true by lia. reflexivity.
  - pose proof (aset_length _ _ _ _ El). destruct Hz5. split; cbn; unfold sized in *; congruence.
Qed.
Lemma jumped_ext t t' r r' : (forall j, t j = t' j) -> jumped t r r' -> jumped t' r r'.
Proof.
  intros Ht [A [B B'] [C C'] [D D'] [E E'] [F F'] [G G'] H I].
  split; [exact A|split; [exact B|]|split; [exact C|]|split; [exact D|]|split; [exact E|]|split; [exact F|]|split; [exact G|]| |];
    try (intros j; rewrite <- Ht; first [exact (B' j)|exact (C' j)|exact (D' j)|exact (E' j)|exact (F' j)|exact (G' j)]);
    intros id; unfold jumped_over; rewrite <- Ht; [apply H|apply I].
Qed.

Lemma jumped_nothing r : jumped no_target r r.
Proof. split; repeat split; reflexivity. Qed.

(** [l] is the targets of the servers from [i] on. *)
Definition aims (i : Z) (l : list po_seq_pair) (target : Z -> option po_seq_pair) : Z -> option po_seq_pair :=
  fun j => if i <=? j then match l !! Z.to_nat (j - i) with Some p => Some p | None => target j end else target j.

Lemma aims_cons i p l t j : t i = None -> aims (i + 1) l (aim i p t) j = aims i (p :: l) t j.
Proof.
  intros Ht. unfold aims, aim. destruct (Z.leb_spec i j); [|replace (i + 1 <=? j) with false by lia; replace (j =? i) with false by lia; reflexivity].
  destruct (Z.eqb_spec j i) as [->|Hne].
  - replace (i + 1 <=? i) with false by lia. rewrite Z.sub_diag. reflexivity.
  - replace (i + 1 <=? j) with true by lia. replace (Z.to_nat (j - i)) with (S (Z.to_nat (j - (i + 1)))) by lia. reflexivity.
Qed.

(** What the replica's own entry has to be: it jumps within its incarnation. *)
Definition own_incarnation r (t : Z -> option po_seq_pair) : Prop :=
  forall p last, t (My_Server_ID VAR) = Some p -> aget (last_executed_po_reqs (others r)) (My_Server_ID VAR) = Some last ->
  incarnation p <= incarnation last.

Lemma run_jump_servers (Horder : forall l, Permutation (hash_order l) l) l : forall i t r0 r,
  1 <= i -> i + Z.of_nat (length l) = NUM_SERVERS + 1 -> (forall j, i <= j -> t j = None) ->
  jumped t r0 r -> po_sized r -> keyed r -> own_incarnation r (aims i l no_target) ->
  exists r', jump_servers VAR i l r = Ret (tt, r') /\ jumped (aims i l t) r0 r' /\ po_sized r' /\ keyed r'.
Proof.
  induction l as [|p l IH]; intros i t r0 r Hi Hlen Ht Hj Hz Hk Hown.
  - exists r. split; [reflexivity|]. split; [|split; assumption]. eapply jumped_ext; [|exact Hj].
    intros j. unfold aims. destruct (i <=? j); reflexivity.
  - cbn [length] in Hlen. assert (Hs : is_server i) by (unfold is_server; lia).
    destruct (sized_at _ i (sz_executed _ Hz) Hs) as (last & El).
    destruct (run_jump_server Horder i p r last Hs Hz Hk El) as (r1 & E1 & J1 & Z1 & K1).
    { intros ->. apply (Hown p last); [|exact El]. unfold aims. rewrite Z.leb_refl, Z.sub_diag. reflexivity. }
    destruct (IH (i + 1) (aim i p t) r0 r1) as (r2 & E2 & J2 & ZK); [lia|lia| | |exact Z1|exact K1| |].
    + intros j Hle. unfold aim. replace (j =? i) with false by lia. apply Ht. lia.
    + eapply jumped_aim; [apply Ht; lia|exact Hj|exact J1].
    + intros q last' Hq Hl'. rewrite (proj2 (jp_executed _ _ _ J1)) in Hl'.
      assert (Hne : My_Server_ID VAR <> i).
      { intros E. rewrite E in Hq. unfold aims in Hq. replace (i + 1 <=? i) with false in Hq by lia. discriminate. }
      unfold aim in Hl'. replace (My_Server_ID VAR =? i) with false in Hl' by lia. apply (Hown q last'); [|exact Hl'].
      rewrite <- aims_cons by reflexivity. unfold aims, aim in *. replace (My_Server_ID VAR =? i) with false by lia. exact Hq.
    + exists r2. cbn [jump_servers]. rewrite (run_bind _ _ _ _ _ E1). split; [exact E2|]. split; [|exact ZK].
      eapply jumped_ext; [|exact J2]. intros j. apply aims_cons, Ht. lia.
Qed.
End Steps.

(** ** The property *)
(** C19. A jump counts the requests up to a slot's vector as executed.  When the slot
    that is jumped to makes [eligible] eligible and the replica jumps within its own
    incarnation, the part of [CATCH_Jump_Ahead] on the requests comes to an end.  It
    raises what the replica has acknowledged, certified and executed of each server to
    the server's entry, keeps what is beyond, moves the white line at least there,
    and leaves of the PO-Requests, and of those that ordered slots wait for, exactly
    those beyond the entry; the slots do not change. *)
Theorem jump_counts_as_executed {crypto : Crypto} {signer : Signer} {ext : External vc_data}
    VAR (r : state) (eligible : list po_seq_pair) :
  (forall l, Permutation (hash_order l) l) -> po_sized r -> keyed r -> Z.of_nat (length eligible) = NUM_SERVERS ->
  own_incarnation VAR r (aims 1 eligible no_target) ->
  exists r', jump_servers VAR 1 eligible r = Ret (tt, r') /\ jumped (aims 1 eligible no_target) r r' /\ po_sized r' /\ keyed r'.
Proof.
  intros Horder Hz Hk Hlen Hown.
  apply (run_jump_servers VAR Horder eligible 1 no_target r r); [lia|lia|reflexivity|apply jumped_nothing|exact Hz|exact Hk|exact Hown].
Qed.

(** Server 2 jumps over the request it has and waits for, keeps the one behind it, and
    learns of a later incarnation of server 3. *)
#[local] Existing Instance prefix_digest.

Definition second_id : po_id := mkPoId 1 (mkPS 0 2).
Definition jump_from : state :=
  set_others (with_PO_Pending {[ first_id := 4 ]}
    (with_PO_History {[ first_id := new_po_slot first_pair; second_id := new_po_slot (mkPS 0 2) ]} boot_po)) boot.
Definition jump_vector : list po_seq_pair := [first_pair; mkPS 0 0; mkPS 7 2; mkPS 0 0; mkPS 0 0; mkPS 0 0].

Lemma jump_counts_as_executed_witness :
  exists r', jump_servers (Init_VAR 2) 1 jump_vector jump_from = Ret (tt, r') /\
    PO_History (others r') !! first_id = None /\ is_Some (PO_History (others r') !! second_id) /\
    PO_Pending (others r') !! first_id = None /\ aget (last_executed_po_reqs (others r')) 3 = Some (mkPS 7 2).
Proof.
  destruct (jump_counts_as_executed (ext := quiet) (Init_VAR 2) jump_from jump_vector) as (r' & E & J & _);
    [reflexivity|split; vm_compute; reflexivity| |vm_compute; reflexivity| |].
  - intros id slot H. unfold jump_from in H. cbn in H. apply lookup_insert_Some in H as [[<- <-]|[_ H]]; [reflexivity|].
    apply lookup_singleton_Some in H as [<- <-]. reflexivity.
  - intros p last H1 H2. vm_compute in H1, H2. injection H1 as <-. injection H2 as <-. vm_compute. discriminate.
  - exists r'. split; [exact E|]. destruct J as [_ _ _ _ _ [_ X] _ S P]. split; [rewrite S; vm_compute; reflexivity|].
    split; [rewrite S; vm_compute; eexists; reflexivity|]. split; [rewrite P; vm_compute; reflexivity|]. rewrite X. vm_compute. reflexivity.
Defined.
