(* ===== verification/RlModbus.v ===== *)
(** The Modbus client of the field proxies: [pvb/rllib/lib/rlmodbus.cpp], with
    the reads and writes of [rlsocket.cpp] it makes, for an object a socket is
    registered with (what [modbus/modbus_master.cpp] does).

    The peer is the state of the socket: the bytes it will send, whether it
    closes after them, whether a connection and a transmission succeed.  The
    serial-line branches are not modelled. *)
From Stdlib Require Import ZArith Lia List Bool.
From Stdlib Require Import Strings.Byte.
From stdpp Require Import base list.
From S2P Require Import Prelude Memory.

(** ** [enum Modbus], [enum ModbusFunctionCodes] *)
Definition MODBUS_CHECKSUM_ERROR : Z := -2.
Definition MODBUS_ERROR : Z := -1.
Definition MODBUS_SUCCESS : Z := 0.
Definition MODBUS_RTU : Z := 1.
Definition MODBUS_ASCII : Z := 2.

Inductive function_code :=
| ReadCoilStatus | ReadInputStatus | ReadHoldingRegisters | ReadInputRegisters
| ForceSingleCoil | PresetSingleRegister | ReadExceptionStatus | FetchCommEventCtr
| FetchCommEventLog | ForceMultipleCoils | PresetMultipleRegs | ReportSlaveID
| ReadGeneralReference | WriteGeneralReference | MaskWrite4XRegisters
| ReadWrite4XRegisters | ReadFifoQueue.

Definition all_functions : list function_code :=
  [ReadCoilStatus; ReadInputStatus; ReadHoldingRegisters; ReadInputRegisters;
   ForceSingleCoil; PresetSingleRegister; ReadExceptionStatus; FetchCommEventCtr;
   FetchCommEventLog; ForceMultipleCoils; PresetMultipleRegs; ReportSlaveID;
   ReadGeneralReference; WriteGeneralReference; MaskWrite4XRegisters;
   ReadWrite4XRegisters; ReadFifoQueue].

Definition code (f : function_code) : Z :=
  match f with
  | ReadCoilStatus => 1 | ReadInputStatus => 2 | ReadHoldingRegisters => 3
  | ReadInputRegisters => 4 | ForceSingleCoil => 5 | PresetSingleRegister => 6
  | ReadExceptionStatus => 7 | FetchCommEventCtr => 11 | FetchCommEventLog => 12
  | ForceMultipleCoils => 15 | PresetMultipleRegs => 16 | ReportSlaveID => 17
  | ReadGeneralReference => 20 | WriteGeneralReference => 21
  | MaskWrite4XRegisters => 22 | ReadWrite4XRegisters => 23 | ReadFifoQueue => 24
  end.

(** The labels of [switch(function)]; [None] is [default]. *)
Definition decode (z : Z) : option function_code :=
  List.find (fun f => code f =? z) all_functions.

(** ** Checksums *)
(** Table of CRC values for high-order byte *)
Definition array_crc_low : list Z :=
  [0; 193; 129; 64; 1; 192; 128; 65; 1; 192; 128; 65; 0; 193; 129; 64;
   1; 192; 128; 65; 0; 193; 129; 64; 0; 193; 129; 64; 1; 192; 128; 65;
   1; 192; 128; 65; 0; 193; 129; 64; 0; 193; 129; 64; 1; 192; 128; 65;
   0; 193; 129; 64; 1; 192; 128; 65; 1; 192; 128; 65; 0; 193; 129; 64;
   1; 192; 128; 65; 0; 193; 129; 64; 0; 193; 129; 64; 1; 192; 128; 65;
   0; 193; 129; 64; 1; 192; 128; 65; 1; 192; 128; 65; 0; 193; 129; 64;
   0; 193; 129; 64; 1; 192; 128; 65; 1; 192; 128; 65; 0; 193; 129; 64;
   1; 192; 128; 65; 0; 193; 129; 64; 0; 193; 129; 64; 1; 192; 128; 65;
   1; 192; 128; 65; 0; 193; 129; 64; 0; 193; 129; 64; 1; 192; 128; 65;
   0; 193; 129; 64; 1; 192; 128; 65; 1; 192; 128; 65; 0; 193; 129; 64;
   0; 193; 129; 64; 1; 192; 128; 65; 1; 192; 128; 65; 0; 193; 129; 64;
   1; 192; 128; 65; 0; 193; 129; 64; 0; 193; 129; 64; 1; 192; 128; 65;
   0; 193; 129; 64; 1; 192; 128; 65; 1; 192; 128; 65; 0; 193; 129; 64;
   1; 192; 128; 65; 0; 193; 129; 64; 0; 193; 129; 64; 1; 192; 128; 65;
   1; 192; 128; 65; 0; 193; 129; 64; 0; 193; 129; 64; 1; 192; 128; 65;
   0; 193; 129; 64; 1; 192; 128; 65; 1; 192; 128; 65; 0; 193; 129; 64].

(** Table of CRC values for low-order byte *)
Definition array_crc_high : list Z :=
  [0; 192; 193; 1; 195; 3; 2; 194; 198; 6; 7; 199; 5; 197; 196; 4;
   204; 12; 13; 205; 15; 207; 206; 14; 10; 202; 203; 11; 201; 9; 8; 200;
   216; 24; 25; 217; 27; 219; 218; 26; 30; 222; 223; 31; 221; 29; 28; 220;
   20; 212; 213; 21; 215; 23; 22; 214; 210; 18; 19; 211; 17; 209; 208; 16;
   240; 48; 49; 241; 51; 243; 242; 50; 54; 246; 247; 55; 245; 53; 52; 244;
   60; 252; 253; 61; 255; 63; 62; 254; 250; 58; 59; 251; 57; 249; 248; 56;
   40; 232; 233; 41; 235; 43; 42; 234; 238; 46; 47; 239; 45; 237; 236; 44;
   228; 36; 37; 229; 39; 231; 230; 38; 34; 226; 227; 35; 225; 33; 32; 224;
   160; 96; 97; 161; 99; 163; 162; 98; 102; 166; 167; 103; 165; 101; 100; 164;
   108; 172; 173; 109; 175; 111; 110; 174; 170; 106; 107; 171; 105; 169; 168; 104;
   120; 184; 185; 121; 187; 123; 122; 186; 190; 126; 127; 191; 125; 189; 188; 124;
   180; 116; 117; 181; 119; 183; 182; 118; 114; 178; 179; 115; 177; 113; 112; 176;
   80; 144; 145; 81; 147; 83; 82; 146; 150; 86; 87; 151; 85; 149; 148; 84;
   156; 92; 93; 157; 95; 159; 158; 94; 90; 154; 155; 91; 153; 89; 88; 152;
   136; 72; 73; 137; 75; 139; 138; 74; 78; 142; 143; 79; 141; 77; 76; 140;
   68; 132; 133; 69; 135; 71; 70; 134; 130; 66; 67; 131; 65; 129; 128; 64].

(** ** The socket ([rlsocket.cpp]) *)
Record rlSocket := mkSocket {
  connected : bool;      (* s != -1 *)
  can_connect : bool;    (* the outcome of connect() *)
  can_send : bool;       (* the outcome of send() *)
  closed : bool;         (* the peer closes after [inbox] *)
  inbox : list byte;
  outbox : list byte }.

Record rlModbus := mkModbus {
  tel : list byte;
  maxtel : Z;
  mode : Z;
  delimitor : Z;
  autoreconnectSocket : bool;
  s : rlSocket }.

Definition set_tel (t : list byte) (m : rlModbus) : rlModbus :=
  {| tel := t; maxtel := maxtel m; mode := mode m; delimitor := delimitor m;
     autoreconnectSocket := autoreconnectSocket m; s := s m |}.

Definition set_s (k : rlSocket) (m : rlModbus) : rlModbus :=
  {| tel := tel m; maxtel := maxtel m; mode := mode m; delimitor := delimitor m;
     autoreconnectSocket := autoreconnectSocket m; s := k |}.

Definition disconnect (k : rlSocket) : rlSocket :=
  {| connected := false; can_connect := can_connect k; can_send := can_send k;
     closed := closed k; inbox := inbox k; outbox := outbox k |}.

Definition connect (k : rlSocket) : rlSocket :=
  {| connected := can_connect k; can_connect := can_connect k; can_send := can_send k;
     closed := closed k; inbox := inbox k; outbox := outbox k |}.

(** [memcpy] of [bs] into an array at [p]. *)
Definition blit (buf : list byte) (p : Z) (bs : list byte) : option (list byte) :=
  if in_range buf p (Z.of_nat (length bs))
  then Some (take (Z.to_nat p) buf ++ bs ++ drop (Z.to_nat p + length bs) buf) else None.

(** [rlSocket::write]: 0 bytes are written even without a peer. *)
Definition socket_write (bs : list byte) : comp rlModbus Z :=
  m <- get ;;
  let k := s m in
  if negb (connected k) then ret (-1) else
  match bs with
  | [] => ret 0
  | _ =>
      if can_send k then
        put (set_s {| connected := true; can_connect := can_connect k; can_send := true;
                      closed := closed k; inbox := inbox k; outbox := outbox k ++ bs |} m) ;;;
        ret (Z.of_nat (length bs))
      else put (set_s (disconnect k) m) ;;; ret (-1)
  end.

(** [rlSocket::read(&buf[off], len, timeout)] with a timeout that is not 0: the
    bytes there are, up to [len]; less than [len] is a timeout (0), or a closed
    connection (-1). *)
Definition socket_read (buf : list byte) (off len : Z) : comp rlModbus (Z * list byte) :=
  m <- get ;;
  let k := s m in
  if negb (connected k) then ret (-1, buf) else
  let got := take (Z.to_nat len) (inbox k) in
  buf' <- or_oob (blit buf off got) ;;
  let k' := {| connected := true; can_connect := can_connect k; can_send := can_send k;
               closed := closed k; inbox := drop (Z.to_nat len) (inbox k);
               outbox := outbox k |} in
  if Z.of_nat (length got) =? len then put (set_s k' m) ;;; ret (len, buf')
  else if closed k then put (set_s (disconnect k') m) ;;; ret (-1, buf')
  else put (set_s k' m) ;;; ret (0, buf').

(** ** Construction *)
(** The buffer comes from [new unsigned char[n]]: [junk] is what it holds. *)
Definition rlModbus_new (max_telegram_length _mode end_delimitor : Z) (junk : list byte)
    (socket : rlSocket) : rlModbus :=
  let n := if max_telegram_length <? 256 then 256 else max_telegram_length in
  {| tel := take (Z.to_nat n) (junk ++ zeros n); maxtel := n; mode := _mode;
     delimitor := end_delimitor; autoreconnectSocket := true; s := socket |}.

Definition registerSocket (socket : rlSocket) (m : rlModbus) : rlModbus := set_s socket m.

(** ** Integers *)
Definition data2int (data : list byte) : comp rlModbus Z :=
  a <- or_oob (aget data 0) ;; b <- or_oob (aget data 1) ;;
  ret (byte_val a * 256 + byte_val b).

(** The cast binds before the division: [((unsigned char) val) / 256]. *)
Definition int2data (val : Z) (data : list byte) : comp rlModbus (list byte) :=
  data <- or_oob (aset data 0 (byte_of (wrap8 val / 256))) ;;
  data <- or_oob (aset data 1 (byte_of (Z.land (wrap8 val) 255))) ;;
  ret data.

Definition buf2int_rtu (buf : list byte) : comp rlModbus Z :=
  a <- or_oob (aget buf 0) ;; b <- or_oob (aget buf 1) ;;
  ret (byte_val a * 256 + byte_val b).

Definition int2buf_rtu (i : Z) (buf : list byte) : comp rlModbus (list byte) :=
  let high := Z.quot i 256 in
  let low := Z.land i 255 in
  buf <- or_oob (aset buf 0 (byte_of high)) ;;
  buf <- or_oob (aset buf 1 (byte_of low)) ;;
  ret buf.

(** ** [tel[i] = b], [tel[len++] = b] *)
Definition tel_get (i : Z) : comp rlModbus Z :=
  m <- get ;; b <- or_oob (aget (tel m) i) ;; ret (byte_val b).

Definition tel_set (i : Z) (z : Z) : comp rlModbus unit :=
  m <- get ;; t <- or_oob (aset (tel m) i (byte_of z)) ;; put (set_tel t m).

Definition push (len z : Z) : comp rlModbus Z := tel_set len z ;;; ret (len + 1).

(** [sprintf] to [&tel[len]] with format ["%02X"]: at least two hexadecimal digits of
    the unsigned value, and the final zero. *)
Definition hex_digit (d : Z) : byte := byte_of (if d <? 10 then 48 + d else 55 + d).

Fixpoint hex_digits (n : nat) (z : Z) : list byte :=
  match n with O => [] | Datatypes.S n' => hex_digits n' (z / 16) ++ [hex_digit (z mod 16)] end.

Definition hex_length (z : Z) : nat :=
  if z <? 256 then 2
  else Z.to_nat (Z.log2 z / 4 + 1).

Definition sprintf_02X (z : Z) : list byte :=
  let u := wrap32 z in hex_digits (hex_length u) u ++ [x00].

Definition tel_print (len z : Z) : comp rlModbus unit :=
  m <- get ;; t <- or_oob (blit (tel m) len (sprintf_02X z)) ;; put (set_tel t m).

(** [sscanf(&tel[i], "%1X", &v)] on a hexadecimal digit; what is not one leaves
    the variable as it is. *)
Definition digit_val (b : byte) : option Z :=
  let z := byte_val b in
  if (48 <=? z) && (z <=? 57) then Some (z - 48)
  else if (65 <=? z) && (z <=? 70) then Some (z - 55)
  else if (97 <=? z) && (z <=? 102) then Some (z - 87)
  else None.

Definition scan_1X (i v : Z) : comp rlModbus Z :=
  m <- get ;; b <- or_oob (aget (tel m) i) ;;
  ret match digit_val b with Some d => d | None => v end.

(** [high] and [low] are not initialized by the code; it scans what it printed,
    digits only, so that the start values are never used. *)
Definition insertLRC (len : Z) : comp rlModbus unit :=
  if len <? 0 then ret tt else
  run for_ (len / 2)
        (fun '(i, lrc, high, low) =>
           high <- scan_1X i high ;;
           low <- scan_1X (i + 1) low ;;
           ret (inl (i + 2, wrap8 (lrc + (high * 16 + low)), high, low)))
        (1, 0, 0, 0)
  as (_, lrc, _, _) ;;
  tel_print len (wrap8 (- lrc)).

(** One turn of the loops of [insertCRC] and [CRCerror]. *)
Definition crc_turn (crc_low crc_high b : Z) : comp rlModbus (Z * Z) :=
  let index := Z.lxor crc_low b in
  l <- or_oob (aget array_crc_low index) ;;
  h <- or_oob (aget array_crc_high index) ;;
  ret (Z.lxor crc_high l, h).

Definition crc_loop (n : Z) : comp rlModbus (Z * Z) :=
  run for_ n
        (fun '(i, crc_low, crc_high) =>
           b <- tel_get i ;;
           c <- crc_turn crc_low crc_high b ;;
           ret (inl (i + 1, fst c, snd c)))
        (0, 255, 255)
  as (_, crc_low, crc_high) ;;
  ret (crc_low, crc_high).

Definition insertCRC (len : Z) : comp rlModbus unit :=
  if len <? 0 then ret tt else
  c <- crc_loop len ;;
  tel_set len (fst c) ;;;
  tel_set (len + 1) (snd c).

Definition CRCerror (len : Z) : comp rlModbus Z :=
  if len <? 2 then ret 1 else
  c <- crc_loop (len - 2) ;;
  b <- tel_get (len - 2) ;;
  if negb (fst c =? b) then ret 1 else
  b <- tel_get (len - 1) ;;
  if negb (snd c =? b) then ret 1 else
  ret 0.

(** ** Requests *)
Definition write_ascii (slave function : Z) (data : list byte) (datalen : Z)
    : comp rlModbus (option Z) :=
  m <- get ;;
  len <- push 0 58 ;;
  tel_print len slave ;;;
  let len := len + 2 in
  tel_print len function ;;;
  let len := len + 2 in
  run for_ datalen
        (fun '(i, len) =>
           d <- or_oob (aget data i) ;;
           tel_print len (byte_val d) ;;;
           let len := len + 2 in
           if maxtel m <? len + 4 then ret (inr None) else ret (inl (i + 1, len)))
        (0, len)
  as (_, len) ;;
  insertLRC len ;;;
  len <- push (len + 2) 13 ;;
  if delimitor m =? 10 then len <- push len 10 ;; ret (Some len) else ret (Some len).

Definition write_rtu (slave function : Z) (data : list byte) (datalen : Z)
    (transactionID : option Z) : comp rlModbus (option Z) :=
  m <- get ;;
  len <- match transactionID with
         | None => len <- push 0 0 ;; push len 0
         | Some t => len <- push 0 (Z.land t 65280 / 256) ;; push len (Z.land t 255)
         end ;;
  len <- push len 0 ;;
  len <- push len 0 ;;
  len <- push len 0 ;;
  len <- push len (2 + datalen) ;;
  len <- push len slave ;;
  len <- push len function ;;
  run for_ datalen
        (fun '(i, len) =>
           d <- or_oob (aget data i) ;;
           len <- push len (byte_val d) ;;
           if maxtel m <? len + 2 then ret (inr None) else ret (inl (i + 1, len)))
        (0, len)
  as (_, len) ;;
  insertCRC len ;;;
  ret (Some (len + 2)).

(** A disconnected socket is connected again first. *)
Definition reconnect : comp rlModbus bool :=
  m <- get ;;
  if connected (s m) then ret true else
  (if autoreconnectSocket m then put (set_s (connect (s m)) m) else ret tt) ;;;
  m <- get ;;
  ret (connected (s m)).

Definition write (slave function : Z) (data : list byte) (datalen : Z)
    (transactionID : option Z) : comp rlModbus Z :=
  m <- get ;;
  if (slave <? 0) || (255 <? slave) then ret MODBUS_ERROR else
  len <- (if mode m =? MODBUS_ASCII then write_ascii slave function data datalen
          else if mode m =? MODBUS_RTU then
            write_rtu slave function data datalen transactionID
          else ret None) ;;
  match len with
  | None => ret MODBUS_ERROR
  | Some len =>
      up <- reconnect ;;
      if negb up then ret MODBUS_ERROR else
      m <- get ;;
      bs <- load_bytes (tel m) 0 (len - 2) ;;
      n <- socket_write bs ;;
      if n <? 0 then ret MODBUS_ERROR else ret MODBUS_SUCCESS
  end.

Definition request (slave function start_adr num_register : Z) : comp rlModbus Z :=
  let data := [byte_of (Z.quot start_adr 256); byte_of (Z.land start_adr 255);
               byte_of (Z.quot num_register 256); byte_of (Z.land num_register 255)] in
  write slave function data 4 None.

(** ** Responses *)
(** What a reading function leaves: its return value and what it stored through
    the pointers it was given. *)
Record reply := mkReply {
  r_ret : Z; r_slave : Z; r_function : Z; r_data : list byte; r_transaction : option Z }.

Section Reading.
(** Values the caller's variables have before. *)
Context (slave function : Z) (transactionID : option Z).

Definition answer (r : Z) (data : list byte) : comp rlModbus reply :=
  ret (mkReply r slave function data transactionID).

(** [if (s->read(data + off, n) <= 0) return MODBUS_ERROR;] *)
Definition read_or_fail (data : list byte) (off n : Z)
    (k : list byte -> comp rlModbus reply) : comp rlModbus reply :=
  r <- socket_read data off n ;;
  if fst r <=? 0 then answer MODBUS_ERROR (snd r) else k (snd r).

(** The same into [tel]. *)
Definition read_tel (n : Z) : comp rlModbus Z :=
  m <- get ;;
  r <- socket_read (tel m) 0 n ;;
  m <- get ;;
  put (set_tel (snd r) m) ;;;
  ret (fst r).

Definition read_body (data : list byte) (byte_count : Z) : comp rlModbus reply :=
  read_or_fail data 0 byte_count (fun data => answer byte_count data).

(** The function-specific part of a response. *)
Definition response_data (data : list byte) : comp rlModbus reply :=
  match decode function with
  | Some (ReadCoilStatus | ReadInputStatus | ReadHoldingRegisters | ReadInputRegisters
         | FetchCommEventLog | ReportSlaveID | ReadGeneralReference
         | WriteGeneralReference | ReadWrite4XRegisters) =>
      r <- read_tel 1 ;;
      if r <=? 0 then answer MODBUS_ERROR data else
      byte_count <- tel_get 0 ;;
      read_body data byte_count
  | Some (ForceSingleCoil | PresetSingleRegister | FetchCommEventCtr
         | ForceMultipleCoils | PresetMultipleRegs) => read_body data 4
  | Some ReadExceptionStatus => read_body data 1
  | Some MaskWrite4XRegisters => read_body data 6
  | Some ReadFifoQueue =>
      r <- read_tel 2 ;;
      if r <=? 0 then answer MODBUS_ERROR data else
      hi <- tel_get 0 ;;
      lo <- tel_get 1 ;;
      read_body data (hi * 256 + lo)
  | None => answer MODBUS_ERROR data
  end.

(** The function-specific part of a request. *)
Definition request_data (data : list byte) : comp rlModbus reply :=
  match decode function with
  | Some (ReadCoilStatus | ReadInputStatus | ReadHoldingRegisters | ReadInputRegisters
         | ForceSingleCoil | PresetSingleRegister) => read_body data 4
  | Some (ReadExceptionStatus | FetchCommEventCtr | FetchCommEventLog | ReportSlaveID) =>
      answer 0 data
  | Some (ForceMultipleCoils | PresetMultipleRegs) =>
      read_or_fail data 0 5 (fun data =>
        b <- or_oob (aget data 4) ;;
        let byte_count := byte_val b in
        read_or_fail data 4 byte_count (fun data => answer (4 + byte_count) data))
  | Some (ReadGeneralReference | WriteGeneralReference) =>
      read_or_fail data 0 1 (fun data =>
        b <- or_oob (aget data 0) ;;
        read_body data (byte_val b))
  | Some MaskWrite4XRegisters => read_body data 6
  | Some ReadWrite4XRegisters =>
      read_or_fail data 0 9 (fun data =>
        b <- or_oob (aget data 8) ;;
        let byte_count := byte_val b in
        read_or_fail data 8 byte_count (fun data => answer (8 + byte_count) data))
  | Some ReadFifoQueue => read_body data 2
  | None => answer MODBUS_ERROR data
  end.
End Reading.

Definition response (slave function : Z) (data : list byte) : comp rlModbus reply :=
  let fail := ret (mkReply MODBUS_ERROR slave function data None) in
  m <- get ;;
  if negb (mode m =? MODBUS_ASCII) && negb (mode m =? MODBUS_RTU) then fail else
  if negb (connected (s m)) then fail else
  if negb (mode m =? MODBUS_RTU) then
    ret (mkReply MODBUS_SUCCESS slave function data None) else
  r <- read_tel 6 ;;
  if r <=? 0 then fail else
  r <- read_tel 2 ;;
  if r <=? 0 then fail else
  slave <- tel_get 0 ;;
  function <- tel_get 1 ;;
  response_data slave function None data.

Definition readRequest (slave function : Z) (data : list byte) (transactionID : option Z)
    : comp rlModbus reply :=
  let fail t := ret (mkReply MODBUS_ERROR slave function data t) in
  m <- get ;;
  if negb (mode m =? MODBUS_ASCII) && negb (mode m =? MODBUS_RTU) then fail transactionID else
  if negb (connected (s m)) then fail transactionID else
  if negb (mode m =? MODBUS_RTU) then
    ret (mkReply MODBUS_SUCCESS slave function data transactionID) else
  r <- read_tel 6 ;;
  if r <=? 0 then fail transactionID else
  t <- match transactionID with
       | None => ret None
       | Some _ => hi <- tel_get 0 ;; lo <- tel_get 1 ;; ret (Some (hi * 256 + lo))
       end ;;
  r <- read_tel 2 ;;
  if r <=? 0 then fail t else
  slave <- tel_get 0 ;;
  function <- tel_get 1 ;;
  request_data slave function t data.

(** ** The functions of the protocol *)
Section Functions.
(** What the automatic variables hold before they are assigned: [data] (256
    bytes), [ret_slave] and [ret_function]. *)
Context (data0 : list byte) (ret_slave0 ret_function0 : Z).

(** [a / 256 & 0x0ff], [a & 0x0ff] into [data[i]], [data[i + 1]]. *)
Definition put_int (data : list byte) (i a : Z) : comp rlModbus (list byte) :=
  data <- or_oob (aset data i (byte_of (Z.land (Z.quot a 256) 255))) ;;
  or_oob (aset data (i + 1) (byte_of (Z.land a 255))).

(** Send and wait for the answer; [None] is the error return. *)
Definition transact (slave : Z) (f : function_code) (data : list byte) (len : Z)
    (answer : list byte) : comp rlModbus (Z * list byte) :=
  r <- write slave (code f) data len None ;;
  if r <? 0 then ret (MODBUS_ERROR, answer) else
  r <- response ret_slave0 ret_function0 answer ;;
  if (r_ret r <? 0) || negb (r_slave r =? slave) || negb (r_function r =? code f)
  then ret (MODBUS_ERROR, r_data r) else ret (r_ret r, r_data r).

Definition readCoilStatus (slave start_adr number_of_coils : Z) (status : list byte)
    : comp rlModbus (Z * list byte) :=
  data <- put_int data0 0 start_adr ;;
  data <- put_int data 2 number_of_coils ;;
  transact slave ReadCoilStatus data 4 status.

Definition readInputStatus (slave start_adr number_of_inputs : Z) (status : list byte)
    : comp rlModbus (Z * list byte) :=
  data <- put_int data0 0 start_adr ;;
  data <- put_int data 2 number_of_inputs ;;
  transact slave ReadInputStatus data 4 status.

(** [((data[i] * 256) & 0x0ff) + (data[i+1] & 0x0ff)], for each pair of bytes. *)
Definition store_registers (ret_ : Z) (data : list byte) (registers : list Z)
    : comp rlModbus (Z * list Z) :=
  run for_ ((ret_ + 1) / 2)
        (fun '(i, j, registers) =>
           hi <- or_oob (aget data i) ;;
           lo <- or_oob (aget data (i + 1)) ;;
           registers <- or_oob (aset registers j
             (Z.land (byte_val hi * 256) 255 + Z.land (byte_val lo) 255)) ;;
           ret (inl (i + 2, j + 1, registers)))
        (0, 0, registers)
  as (_, _, registers) ;;
  ret (ret_, registers).

Definition readHoldingRegisters (slave start_adr number_of_registers : Z)
    (registers : list Z) : comp rlModbus (Z * list Z) :=
  data <- put_int data0 0 start_adr ;;
  data <- put_int data 2 number_of_registers ;;
  r <- transact slave ReadHoldingRegisters data 4 data ;;
  if fst r <? 0 then ret (MODBUS_ERROR, registers) else
  store_registers (fst r) (snd r) registers.

Definition readInputRegisters (slave start_adr number_of_registers : Z)
    (registers : list Z) : comp rlModbus (Z * list Z) :=
  data <- put_int data0 0 start_adr ;;
  data <- put_int data 2 number_of_registers ;;
  r <- transact slave ReadInputRegisters data 4 data ;;
  if fst r <? 0 then ret (MODBUS_ERROR, registers) else
  store_registers (fst r) (snd r) registers.

Definition forceSingleCoil (slave coil_adr value : Z) : comp rlModbus Z :=
  data <- put_int data0 0 coil_adr ;;
  data <- or_oob (aset data 2 x00) ;;
  data <- or_oob (aset data 3 x00) ;;
  data <- (if negb (value =? 0) then or_oob (aset data 2 (byte_of 255)) else ret data) ;;
  r <- transact slave ForceSingleCoil data 4 data ;;
  ret (fst r).

Definition presetSingleRegister (slave register_adr value : Z) : comp rlModbus Z :=
  data <- put_int data0 0 register_adr ;;
  data <- put_int data 2 value ;;
  r <- transact slave PresetSingleRegister data 4 data ;;
  ret (fst r).

Definition forceMultipleCoils (slave coil_adr number_of_coils : Z) (coils : list byte)
    : comp rlModbus Z :=
  data <- put_int data0 0 coil_adr ;;
  data <- put_int data 2 number_of_coils ;;
  data <- or_oob (aset data 4 (byte_of (Z.quot number_of_coils 8 + 1))) ;;
  run for_ (wrap8 (Z.quot number_of_coils 8 + 1))
        (fun '(i, data) =>
           c <- or_oob (aget coils i) ;;
           data <- or_oob (aset data (5 + i) c) ;;
           ret (inl (i + 1, data)))
        (0, data)
  as (i, data) ;;
  r <- transact slave ForceMultipleCoils data (5 + i) data ;;
  ret (fst r).

Definition presetMultipleRegisters (slave start_adr number_of_registers : Z)
    (registers : list Z) : comp rlModbus Z :=
  data <- put_int data0 0 start_adr ;;
  data <- put_int data 2 number_of_registers ;;
  data <- or_oob (aset data 4 (byte_of (Z.land (number_of_registers * 2) 255))) ;;
  run for_ number_of_registers
        (fun '(i, j, data) =>
           v <- or_oob (aget registers i) ;;
           data <- put_int data j v ;;
           ret (inl (i + 1, j + 2, data)))
        (0, 5, data)
  as (_, j, data) ;;
  r <- transact slave PresetMultipleRegs data j data ;;
  ret (fst r).
End Functions.
