(* ===== verification/RlModbusCorrect.v ===== *)
(** The Modbus client of [RlModbus.v]: its CRC is the polynomial one and detects
    damage, requests arrive as they were sent, the telegram buffer is never
    left. *)
From Stdlib Require Import ZArith Lia List Bool.
From Stdlib Require Import Strings.Byte.
From stdpp Require Import base list.
From S2P Require Import Prelude Memory RlModbus.

(** ** The reference: CRC-16 with the polynomial 0xA001, bit by bit *)
Definition crc_bit (v : Z) : Z :=
  if Z.odd v then Z.lxor (Z.shiftr v 1) 40961 else Z.shiftr v 1.

Fixpoint crc_bits (n : nat) (v : Z) : Z :=
  match n with O => v | S n' => crc_bits n' (crc_bit v) end.

Definition crc_byte (v b : Z) : Z := crc_bits 8 (Z.lxor v b).

Definition crc16 (bs : list byte) : Z := fold_left (fun v b => crc_byte v (byte_val b)) bs 65535.

Ltac xor_ring :=
  apply Z.bits_inj'; intros; rewrite ?Z.lxor_spec;
  repeat match goal with |- context [Z.testbit ?x ?n] => destruct (Z.testbit x n) end;
  reflexivity.

Lemma lxor_swap a b c d : Z.lxor (Z.lxor a b) (Z.lxor c d) = Z.lxor (Z.lxor a c) (Z.lxor b d).
Proof. xor_ring. Qed.

Lemma crc_bit_alt v : crc_bit v = Z.lxor (Z.shiftr v 1) (if Z.odd v then 40961 else 0).
Proof. unfold crc_bit. destruct (Z.odd v); [|rewrite Z.lxor_0_r]; reflexivity. Qed.

Lemma crc_bit_lxor a b : crc_bit (Z.lxor a b) = Z.lxor (crc_bit a) (crc_bit b).
Proof.
  rewrite !crc_bit_alt, lxor_swap, Z.shiftr_lxor. f_equal.
  rewrite <- !Z.bit0_odd, Z.lxor_spec.
  destruct (Z.testbit a 0), (Z.testbit b 0); reflexivity.
Qed.

Lemma crc_bits_lxor n : forall a b, crc_bits n (Z.lxor a b) = Z.lxor (crc_bits n a) (crc_bits n b).
Proof. induction n as [|n IH]; intros a b; cbn; [reflexivity|]. rewrite crc_bit_lxor. apply IH. Qed.

Lemma crc_bits_high n : forall h, 0 <= h -> crc_bits n (h * 2 ^ Z.of_nat n) = h.
Proof.
  induction n as [|n IH]; intros h Hh; [cbn; lia|].
  cbn [crc_bits]. rewrite Nat2Z.inj_succ, Z.pow_succ_r by lia.
  replace (h * (2 * 2 ^ Z.of_nat n)) with (2 * (h * 2 ^ Z.of_nat n)) by ring.
  unfold crc_bit. rewrite Z.odd_mul. cbn [Z.odd andb].
  rewrite Z.shiftr_div_pow2 by lia. rewrite Z.pow_1_r, Z.mul_comm, Z.div_mul by lia. apply IH, Hh.
Qed.

(** Two halves side by side. *)
Lemma lxor_halves a h : 0 <= a < 256 -> 0 <= h -> Z.lxor a (h * 256) = a + 256 * h.
Proof.
  intros Ha Hh. rewrite <- Z.add_nocarry_lxor; [lia|].
  apply Z.bits_inj'. intros n Hn. rewrite Z.land_spec, Z.bits_0.
  change 256 with (2 ^ 8). rewrite Z.mul_pow2_bits by lia.
  destruct (Z.ltb_spec n 8).
  - rewrite (Z.testbit_neg_r h) by lia. apply andb_false_r.
  - assert (Z.testbit a n = false) as ->; [|reflexivity].
    destruct (Z.eq_dec a 0) as [->|]; [apply Z.bits_0|].
    apply Z.bits_above_log2; [lia|]. apply Z.log2_lt_pow2; [lia|].
    assert (2 ^ 8 <= 2 ^ n) by (apply Z.pow_le_mono_r; lia). lia.
Qed.

Lemma lxor_byte a b : 0 <= a < 256 -> 0 <= b < 256 -> 0 <= Z.lxor a b < 256.
Proof.
  intros Ha Hb. split; [apply Z.lxor_nonneg; lia|].
  destruct (Z.eq_dec (Z.lxor a b) 0) as [->|]; [lia|].
  apply (Z.log2_lt_pow2 _ 8).
  - pose proof (proj2 (Z.lxor_nonneg a b) ltac:(lia)). lia.
  - pose proof (Z.log2_lxor a b ltac:(lia) ltac:(lia)).
    pose proof (Z.log2_le_mono a 255 ltac:(lia)). pose proof (Z.log2_le_mono b 255 ltac:(lia)).
    change (Z.log2 255) with 7 in *. lia.
Qed.

Definition tables_ok : bool :=
  forallb (fun i =>
    match aget array_crc_low i, aget array_crc_high i with
    | Some l, Some h => (crc_bits 8 i =? l + 256 * h) && (0 <=? l) && (l <? 256)
                        && (0 <=? h) && (h <? 256)
    | _, _ => false
    end) (seqZ 0 256).

Lemma tables_checked : tables_ok = true.
Proof. vm_compute. reflexivity. Qed.

Lemma tables i : 0 <= i < 256 ->
  exists l h, aget array_crc_low i = Some l /\ aget array_crc_high i = Some h /\
    crc_bits 8 i = l + 256 * h /\ 0 <= l < 256 /\ 0 <= h < 256.
Proof.
  intros Hi. pose proof tables_checked as H. unfold tables_ok in H.
  rewrite forallb_forall in H. specialize (H i).
  destruct (aget array_crc_low i) as [l|], (aget array_crc_high i) as [h|];
    try (discriminate H; apply list_elem_of_In, elem_of_seqZ; lia).
  rewrite !andb_true_iff, Z.eqb_eq, !Z.leb_le, !Z.ltb_lt in H.
  exists l, h. assert (In i (seqZ 0 256)) by (apply list_elem_of_In, elem_of_seqZ; lia).
  specialize (H ltac:(assumption)). repeat split; lia.
Qed.

(** The table step is eight steps of the polynomial division. *)
Lemma crc_turn_spec lo hi b m :
  0 <= lo < 256 -> 0 <= hi < 256 -> 0 <= b < 256 ->
  exists lo' hi', crc_turn lo hi b m = Ret ((lo', hi'), m) /\
    0 <= lo' < 256 /\ 0 <= hi' < 256 /\
    crc_byte (lo + 256 * hi) b = lo' + 256 * hi'.
Proof.
  intros Hlo Hhi Hb. pose proof (lxor_byte lo b Hlo Hb) as Hi.
  destruct (tables _ Hi) as (l & h & El & Eh & E & Hl & Hh).
  exists (Z.lxor hi l), h. split; [|split; [apply lxor_byte; assumption|split; [exact Hh|]]].
  { unfold crc_turn, bind. rewrite El, Eh. reflexivity. }
  unfold crc_byte.
  replace (Z.lxor (lo + 256 * hi) b) with (Z.lxor (Z.lxor lo b) (hi * 256)).
  - rewrite crc_bits_lxor, E. change 256 with (2 ^ Z.of_nat 8) at 2.
    rewrite crc_bits_high by lia. rewrite <- !lxor_halves by (try apply lxor_byte; lia).
    xor_ring.
  - rewrite <- (lxor_halves lo hi) by lia.
    xor_ring.
Qed.

Lemma crc_byte_tables lo hi b :
  0 <= lo < 256 -> 0 <= hi < 256 -> 0 <= b < 256 ->
  exists l h, aget array_crc_low (Z.lxor lo b) = Some l /\
    aget array_crc_high (Z.lxor lo b) = Some h /\ 0 <= l < 256 /\ 0 <= h < 256 /\
    crc_byte (lo + 256 * hi) b = Z.lxor hi l + 256 * h.
Proof.
  intros Hlo Hhi Hb. destruct (tables _ (lxor_byte lo b Hlo Hb)) as (l & h & El & Eh & _ & Hl & Hh).
  exists l, h. split; [exact El|]. split; [exact Eh|]. split; [exact Hl|]. split; [exact Hh|].
  destruct (crc_turn_spec lo hi b (rlModbus_new 0 0 0 [] (mkSocket false false false false [] []))
              Hlo Hhi Hb) as (lo' & hi' & E & _ & _ & ->).
  unfold crc_turn, bind in E. rewrite El, Eh in E. injection E as <- <-. reflexivity.
Qed.

Lemma high_table_inj i j h :
  aget array_crc_high i = Some h -> aget array_crc_high j = Some h -> i = j.
Proof.
  assert (Hnd : NoDup array_crc_high) by (apply (bool_decide_unpack _); vm_compute; exact I).
  intros Hi Hj. pose proof (aget_Some_bounds _ _ _ Hi). pose proof (aget_Some_bounds _ _ _ Hj).
  unfold aget in *. rewrite (proj2 (in_bounds_spec _ i)) in Hi by lia.
  rewrite (proj2 (in_bounds_spec _ j)) in Hj by lia.
  pose proof (NoDup_lookup _ _ _ _ Hnd Hi Hj). lia.
Qed.

(** Equal remainders come from equal states and bytes, but for the part of them
    the table is indexed with. *)
Lemma crc_byte_inj lo hi b lo' hi' b' :
  0 <= lo < 256 -> 0 <= hi < 256 -> 0 <= b < 256 ->
  0 <= lo' < 256 -> 0 <= hi' < 256 -> 0 <= b' < 256 ->
  crc_byte (lo + 256 * hi) b = crc_byte (lo' + 256 * hi') b' ->
  Z.lxor lo b = Z.lxor lo' b' /\ hi = hi'.
Proof.
  intros Hlo Hhi Hb Hlo' Hhi' Hb' E.
  destruct (crc_byte_tables lo hi b Hlo Hhi Hb) as (l & h & El & Eh & Hl & Hh & E1).
  destruct (crc_byte_tables lo' hi' b' Hlo' Hhi' Hb') as (l' & h' & El' & Eh' & Hl' & Hh' & E2).
  rewrite E1, E2 in E. pose proof (lxor_byte hi l Hhi Hl). pose proof (lxor_byte hi' l' Hhi' Hl').
  assert (h = h' /\ Z.lxor hi l = Z.lxor hi' l') as [<- Ex] by lia.
  assert (Hi : Z.lxor lo b = Z.lxor lo' b') by (eapply high_table_inj; eauto).
  split; [exact Hi|]. rewrite Hi in El. rewrite El in El'. injection El' as <-.
  replace hi with (Z.lxor (Z.lxor hi l) l) by xor_ring. rewrite Ex. xor_ring.
Qed.

Lemma lxor_cancel_l a b c : Z.lxor a b = Z.lxor a c -> b = c.
Proof. intros H. replace b with (Z.lxor a (Z.lxor a b)) by xor_ring. rewrite H. xor_ring. Qed.

Lemma lxor_cancel_r a b c : Z.lxor a c = Z.lxor b c -> a = b.
Proof. intros H. apply (lxor_cancel_l c). rewrite !(Z.lxor_comm c). exact H. Qed.

Definition is_crc (v : Z) : Prop := 0 <= v < 65536.

Lemma split_crc v : is_crc v -> exists lo hi, v = lo + 256 * hi /\ 0 <= lo < 256 /\ 0 <= hi < 256.
Proof.
  intros H. exists (v mod 256), (v / 256). unfold is_crc in H.
  pose proof (Z.div_mod v 256 ltac:(lia)). pose proof (Z.mod_pos_bound v 256 ltac:(lia)).
  lia.
Qed.

Lemma crc_byte_bounds v b : is_crc v -> is_crc (crc_byte v (byte_val b)).
Proof.
  intros Hv. destruct (split_crc v Hv) as (lo & hi & -> & Hlo & Hhi).
  pose proof (byte_val_bounds b) as Hb.
  destruct (crc_byte_tables lo hi _ Hlo Hhi Hb) as (l & h & _ & _ & Hl & Hh & ->).
  pose proof (lxor_byte hi l Hhi Hl). unfold is_crc. lia.
Qed.

Definition crc_from (v : Z) (bs : list byte) : Z :=
  fold_left (fun v b => crc_byte v (byte_val b)) bs v.

Lemma crc_from_bounds bs : forall v, is_crc v -> is_crc (crc_from v bs).
Proof. induction bs as [|b bs IH]; intros v Hv; [exact Hv|]. apply IH, crc_byte_bounds, Hv. Qed.

Lemma crc_from_app v bs bs' : crc_from v (bs ++ bs') = crc_from (crc_from v bs) bs'.
Proof. apply fold_left_app. Qed.

Lemma crc_from_inj bs : forall v v', is_crc v -> is_crc v' ->
  crc_from v bs = crc_from v' bs -> v = v'.
Proof.
  induction bs as [|b bs IH]; intros v v' Hv Hv' E; [exact E|]. cbn in E.
  apply IH in E; [|apply crc_byte_bounds; assumption..].
  destruct (split_crc v Hv) as (lo & hi & -> & Hlo & Hhi).
  destruct (split_crc v' Hv') as (lo' & hi' & -> & Hlo' & Hhi').
  apply crc_byte_inj in E as [E ->]; auto using byte_val_bounds.
  apply lxor_cancel_r in E as ->. reflexivity.
Qed.

(** One damaged byte changes the remainder. *)
Lemma crc16_damage bs b b' bs' : b <> b' -> crc16 (bs ++ b :: bs') <> crc16 (bs ++ b' :: bs').
Proof.
  intros Hb E. unfold crc16 in E. fold (crc_from 65535 (bs ++ b :: bs')) in E.
  fold (crc_from 65535 (bs ++ b' :: bs')) in E. rewrite !crc_from_app in E.
  assert (Hc : is_crc (crc_from 65535 bs)) by (apply crc_from_bounds; unfold is_crc; lia).
  cbn in E. apply crc_from_inj in E; [|apply crc_byte_bounds; assumption..].
  destruct (split_crc _ Hc) as (lo & hi & Ec & Hlo & Hhi). rewrite Ec in E.
  apply crc_byte_inj in E as [E _]; auto using byte_val_bounds.
  apply lxor_cancel_l in E. apply Hb. rewrite <- (byte_of_val b), E. apply byte_of_val.
Qed.

(** ** The checksum functions on the telegram *)
Lemma wp_tel_get F i m Q :
  (forall b, 0 <= i -> tel m !! Z.to_nat i = Some b -> Q (byte_val b) m) ->
  0 <= i < Z.of_nat (length (tel m)) -> wp F (tel_get i) Q m.
Proof.
  intros HQ Hi. unfold tel_get, wp, bind. cbn [get].
  destruct (aget_is_Some (tel m) i Hi) as [b E]. rewrite E. cbn. apply HQ; [lia|].
  unfold aget in E. rewrite (proj2 (in_bounds_spec _ i) Hi) in E. exact E.
Qed.

Lemma wp_tel_set F i z m Q :
  0 <= i < Z.of_nat (length (tel m)) ->
  Q tt (set_tel (<[Z.to_nat i := byte_of z]> (tel m)) m) -> wp F (tel_set i z) Q m.
Proof.
  intros Hi HQ. unfold tel_set, wp, bind. cbn [get].
  rewrite aset_Some by exact Hi. cbn. exact HQ.
Qed.

Definition crc_is (n : Z) (m : rlModbus) (c : Z * Z) : Prop :=
  0 <= fst c < 256 /\ 0 <= snd c < 256 /\
  fst c + 256 * snd c = crc16 (take (Z.to_nat n) (tel m)).

Lemma crc_loop_spec F n m Q :
  0 <= n <= Z.of_nat (length (tel m)) ->
  (forall c, crc_is n m c -> Q c m) -> wp F (crc_loop n) Q m.
Proof.
  intros Hn HQ. unfold crc_loop. apply wp_loop_then.
  apply (wp_for F (fun i '(j, lo, hi) t => t = m /\ j = i /\ crc_is i m (lo, hi))).
  - intros i [[j lo] hi] t Hi (-> & -> & Hlo & Hhi & E). cbn in Hlo, Hhi, E.
    apply wp_bind, wp_tel_get; [|lia]. intros b _ Eb.
    apply wp_bind. destruct (crc_turn_spec lo hi (byte_val b) m Hlo Hhi (byte_val_bounds b))
      as (lo' & hi' & Et & Hlo' & Hhi' & Ec).
    unfold wp at 1. rewrite Et. apply wp_ret. cbn. split; [reflexivity|]. split; [lia|].
    split; [exact Hlo'|]. split; [exact Hhi'|]. cbn. rewrite <- Ec, E.
    replace (Z.to_nat (i + 1)) with (S (Z.to_nat i)) by lia.
    rewrite (take_S_r _ _ _ Eb). unfold crc16. rewrite fold_left_app. reflexivity.
  - split; [reflexivity|]. split; [reflexivity|]. split; [cbn; lia|]. split; [cbn; lia|reflexivity].
  - intros [[j lo] hi] t (-> & _ & Hc). apply wp_ret, HQ.
    replace (Z.max 0 n) with n in Hc by lia. exact Hc.
Qed.

(** The telegram with its check value appended. *)
Definition with_crc (len : Z) (t : list byte) : list byte :=
  let c := crc16 (take (Z.to_nat len) t) in
  <[Z.to_nat (len + 1) := byte_of (c / 256)]> (<[Z.to_nat len := byte_of c]> t).

Lemma byte_of_low lo hi : 0 <= lo < 256 -> byte_of (lo + 256 * hi) = byte_of lo.
Proof.
  intros H. unfold byte_of. replace ((lo + 256 * hi) mod 256) with (lo mod 256); [reflexivity|].
  rewrite Z.mul_comm, Z.mod_add by lia. reflexivity.
Qed.

Lemma insertCRC_spec F len m Q :
  0 <= len -> len + 2 <= Z.of_nat (length (tel m)) ->
  Q tt (set_tel (with_crc len (tel m)) m) -> wp F (insertCRC len) Q m.
Proof.
  intros Hl Hn HQ. unfold insertCRC. destruct (Z.ltb_spec len 0); [lia|].
  apply wp_bind, crc_loop_spec; [lia|]. intros [lo hi] (Hlo & Hhi & E). cbn in *.
  apply wp_bind, wp_tel_set; [lia|]. apply wp_tel_set; [cbn; rewrite length_insert; lia|].
  cbn. replace (<[Z.to_nat (len + 1):=byte_of hi]> (<[Z.to_nat len:=byte_of lo]> (tel m)))
    with (with_crc len (tel m)); [exact HQ|].
  unfold with_crc. rewrite <- E, byte_of_low by lia. do 2 f_equal.
  rewrite Z.mul_comm, Z.div_add, Z.div_small by lia. reflexivity.
Qed.

(** [CRCerror] compares the remainder with the last two bytes. *)
Lemma CRCerror_spec F len m Q :
  2 <= len <= Z.of_nat (length (tel m)) ->
  (forall b b', tel m !! Z.to_nat (len - 2) = Some b -> tel m !! Z.to_nat (len - 1) = Some b' ->
     Q (if crc16 (take (Z.to_nat (len - 2)) (tel m)) =? byte_val b + 256 * byte_val b'
        then 0 else 1) m) ->
  wp F (CRCerror len) Q m.
Proof.
  intros Hl HQ. unfold CRCerror. destruct (Z.ltb_spec len 2); [lia|].
  apply wp_bind, crc_loop_spec; [lia|]. intros [lo hi] (Hlo & Hhi & E). cbn [fst snd] in *.
  apply wp_bind, wp_tel_get; [|lia]. intros b _ Eb.
  destruct (lookup_lt_is_Some_2 (tel m) (Z.to_nat (len - 1)) ltac:(lia)) as [b' Eb'].
  specialize (HQ b b' Eb Eb'). rewrite <- E in HQ.
  pose proof (byte_val_bounds b). pose proof (byte_val_bounds b').
  destruct (Z.eqb_spec lo (byte_val b)) as [->|Hne]; cbn [negb].
  - apply wp_bind, wp_tel_get; [|lia]. intros b2 _ Eb2. rewrite Eb' in Eb2. injection Eb2 as <-.
    destruct (Z.eqb_spec hi (byte_val b')) as [->|Hne]; cbn [negb]; apply wp_ret.
    + rewrite Z.eqb_refl in HQ. exact HQ.
    + rewrite (proj2 (Z.eqb_neq _ _)) in HQ by lia. exact HQ.
  - apply wp_ret. rewrite (proj2 (Z.eqb_neq _ _)) in HQ by lia. exact HQ.
Qed.

(** ** Building a telegram *)
(** [bs] is in the telegram, the rest of the object is as in [m0]. *)
Record holds (m0 : rlModbus) (bs : list byte) (m : rlModbus) : Prop := {
  h_rest : m = set_tel (tel m) m0;
  h_length : length (tel m) = length (tel m0);
  h_bytes : take (length bs) (tel m) = bs }.

Lemma holds_start m : holds m [] m.
Proof. split; [destruct m|..]; reflexivity. Qed.

Lemma holds_le m0 bs m : holds m0 bs m -> (length bs <= length (tel m0))%nat.
Proof. intros [_ H1 H2]. rewrite <- H1, <- H2, length_take. lia. Qed.

Lemma holds_set m0 bs m t :
  holds m0 bs m -> length t = length (tel m0) -> take (length bs) t = take (length bs) (tel m) ->
  holds m0 bs (set_tel t m).
Proof.
  intros [H1 H2 H3] Ht E. split; cbn; [rewrite H1; reflexivity|exact Ht|].
  rewrite E. exact H3.
Qed.

Lemma wp_push F m0 bs m z Q :
  holds m0 bs m -> (length bs < length (tel m0))%nat ->
  (forall m', holds m0 (bs ++ [byte_of z]) m' -> Q (Z.of_nat (length bs) + 1) m') ->
  wp F (push (Z.of_nat (length bs)) z) Q m.
Proof.
  intros [H1 H2 H3] Hl HQ. unfold push. apply wp_bind, wp_tel_set; [lia|].
  rewrite Nat2Z.id. apply wp_ret, HQ. split; cbn.
  - rewrite H1. reflexivity.
  - rewrite length_insert. exact H2.
  - rewrite length_app. cbn. rewrite Nat.add_1_r.
    rewrite (take_S_r _ _ (byte_of z)) by (apply list_lookup_insert_eq; lia).
    rewrite take_insert_ge by lia. rewrite H3. reflexivity.
Qed.

(** What a list of pushes leaves. *)
Definition modbus_header (datalen slave function : Z) (t : option Z) : list byte :=
  match t with
  | None => [byte_of 0; byte_of 0]
  | Some t => [byte_of (Z.land t 65280 / 256); byte_of (Z.land t 255)]
  end ++ [byte_of 0; byte_of 0; byte_of 0; byte_of (2 + datalen); byte_of slave;
          byte_of function].

Lemma holds_with_crc m0 bs m :
  holds m0 bs m -> (length bs + 2 <= length (tel m0))%nat ->
  holds m0 bs (set_tel (with_crc (Z.of_nat (length bs)) (tel m)) m).
Proof.
  intros H Hl. apply holds_set; [exact H| |].
  - unfold with_crc. rewrite !length_insert. apply H.
  - unfold with_crc. rewrite !take_insert_ge by lia. reflexivity.
Qed.

Definition fits (m : rlModbus) (n : Z) : Prop := 8 + n + 2 <= maxtel m.

Lemma wp_pair m a b R :
  (2 <= length (tel m))%nat -> (forall m1, holds m [byte_of a; byte_of b] m1 -> R 2 m1) ->
  wp no_fault (len <- push 0 a ;; push len b) R m.
Proof.
  intros Hl HR. apply wp_bind.
  apply (wp_push no_fault m [] m); [apply holds_start|cbn; lia|].
  intros m1 H1. apply (wp_push no_fault m [byte_of a] m1); [exact H1|cbn; lia|].
  intros m2 H2. apply HR. exact H2.
Qed.

Lemma wp_header_rest {A} m a b m1 dl slave function (K : Z -> comp rlModbus A) Q :
  (8 <= length (tel m))%nat -> holds m [byte_of a; byte_of b] m1 ->
  (forall m2, holds m ([byte_of a; byte_of b] ++ [byte_of 0; byte_of 0; byte_of 0;
      byte_of (2 + dl); byte_of slave; byte_of function]) m2 -> wp no_fault (K 8) Q m2) ->
  wp no_fault (len <- push 2 0 ;; len <- push len 0 ;; len <- push len 0 ;;
    len <- push len (2 + dl) ;; len <- push len slave ;; len <- push len function ;; K len)
    Q m1.
Proof.
  intros Hl H1 HK.
  apply wp_bind. apply (wp_push no_fault m _ m1 0 _ H1); [cbn; lia|]. cbn. intros m2 G2.
  apply wp_bind. apply (wp_push no_fault m _ m2 0 _ G2); [cbn; lia|]. cbn. intros m3 G3.
  apply wp_bind. apply (wp_push no_fault m _ m3 0 _ G3); [cbn; lia|]. cbn. intros m4 G4.
  apply wp_bind. apply (wp_push no_fault m _ m4 _ _ G4); [cbn; lia|]. cbn. intros m5 G5.
  apply wp_bind. apply (wp_push no_fault m _ m5 _ _ G5); [cbn; lia|]. cbn. intros m6 G6.
  apply wp_bind. apply (wp_push no_fault m _ m6 _ _ G6); [cbn; lia|]. cbn. intros m7 G7.
  apply HK. exact G7.
Qed.

Lemma wp_header {A} m dl slave function t (K : Z -> comp rlModbus A) Q :
  (8 <= length (tel m))%nat ->
  (forall m1, holds m (modbus_header dl slave function t) m1 -> wp no_fault (K 8) Q m1) ->
  wp no_fault (len <- match t with
       | None => len <- push 0 0 ;; push len 0
       | Some t => len <- push 0 (Z.land t 65280 / 256) ;; push len (Z.land t 255)
       end ;;
    len <- push len 0 ;; len <- push len 0 ;; len <- push len 0 ;;
    len <- push len (2 + dl) ;; len <- push len slave ;; len <- push len function ;; K len) Q m.
Proof.
  intros Hl HK. apply wp_bind.
  destruct t as [t|]; (apply wp_pair; [lia|]); intros m1 H1;
    (eapply wp_header_rest; [exact Hl|exact H1|exact HK]).
Qed.

Lemma write_rtu_spec m slave function data t Q :
  Z.of_nat (length (tel m)) = maxtel m -> 256 <= maxtel m ->
  (forall m' r, (exists t', m' = set_tel t' m /\ length t' = length (tel m)) ->
     (r = None /\ ~ fits m (Z.of_nat (length data)) \/
      r = Some (8 + Z.of_nat (length data) + 2) /\ fits m (Z.of_nat (length data)) /\
      holds m (modbus_header (Z.of_nat (length data)) slave function t ++ data) m') ->
     Q r m') ->
  wp no_fault (write_rtu slave function data (Z.of_nat (length data)) t) Q m.
Proof.
  intros Hm Hmax HQ. unfold write_rtu. apply wp_bind, wp_get.
  set (dl := Z.of_nat (length data)) in *.
  apply wp_header; [lia|]. intros m1 H1.
  assert (Hlen8 : length (modbus_header dl slave function t) = 8%nat) by (destruct t; reflexivity).
  set (hd := modbus_header dl slave function t) in *.
  apply wp_loop_then.
  apply (wp_for no_fault (fun i '(j, len) m2 => j = i /\ len = 8 + i /\ 8 + i + 2 <= maxtel m /\
           holds m (hd ++ take (Z.to_nat i) data) m2)).
  - intros i [j len] m2 Hi (-> & -> & Hf & H2). fold dl in Hi.
    destruct (aget_is_Some data i ltac:(lia)) as [d Ed]. rewrite Ed.
    apply wp_bind, wp_ret.
    assert (Hlen : Z.of_nat (length (hd ++ take (Z.to_nat i) data)) = 8 + i)
      by (rewrite length_app, length_take, Hlen8; lia).
    apply wp_bind. rewrite <- Hlen. apply (wp_push no_fault m _ m2 _ _ H2); [lia|].
    intros m3 H3. rewrite Hlen.
    assert (Ed' : data !! Z.to_nat i = Some d)
      by (unfold aget in Ed; destruct (in_bounds data i); [exact Ed|discriminate]).
    rewrite <- app_assoc, byte_of_val, <- (take_S_r _ _ _ Ed') in H3.
    replace (S (Z.to_nat i)) with (Z.to_nat (i + 1)) in H3 by lia.
    destruct (Z.ltb_spec (maxtel m) (8 + i + 1 + 2)); apply wp_ret; cbn.
    + apply HQ; [exists (tel m3); split; [apply H3|apply H3]|].
      left. split; [reflexivity|]. unfold fits. fold dl. lia.
    + split; [reflexivity|]. split; [lia|]. split; [lia|exact H3].
  - split; [reflexivity|]. split; [lia|]. split; [lia|]. cbn. rewrite app_nil_r. exact H1.
  - intros [j len] m2 (-> & -> & Hf & H2).
    replace (Z.max 0 dl) with dl in * by lia.
    unfold dl in H2 at 1. rewrite Nat2Z.id, firstn_all in H2.
    assert (Hlen : Z.of_nat (length (hd ++ data)) = 8 + dl) by (rewrite length_app, Hlen8; lia).
    pose proof (h_length _ _ _ H2) as Hl2.
    apply wp_bind, insertCRC_spec; [lia|lia|]. rewrite <- Hlen. apply wp_ret.
    rewrite Hlen. pose proof (holds_with_crc m (hd ++ data) m2 H2 ltac:(lia)) as H3.
    rewrite Hlen in H3.
    apply HQ; [eexists; split; [apply H3|apply H3]|].
    right. split; [reflexivity|]. split; [unfold fits; fold dl; lia|exact H3].
Qed.

(** ** ASCII telegrams *)
Lemma hex_digits_length n : forall z, length (hex_digits n z) = n.
Proof. induction n as [|n IH]; intros z; cbn; [reflexivity|]. rewrite length_app, IH. cbn. lia. Qed.

Lemma sprintf_length z :
  (length (sprintf_02X z) <= 9)%nat /\ (0 <= z < 256 -> length (sprintf_02X z) = 3%nat).
Proof.
  unfold sprintf_02X. rewrite length_app, hex_digits_length. unfold hex_length.
  pose proof (wrap32_bounds z) as Hb. cbn [length]. split.
  - destruct (Z.ltb_spec (wrap32 z) 256); [lia|].
    assert (Z.log2 (wrap32 z) < 32) by (apply Z.log2_lt_pow2; unfold two32 in *; lia).
    pose proof (Z.log2_nonneg (wrap32 z)).
    pose proof (Z.div_le_mono (Z.log2 (wrap32 z)) 31 4 ltac:(lia) ltac:(lia)).
    change (31 / 4) with 7 in *. lia.
  - intros Hz. rewrite wrap32_small by (unfold two32; lia).
    destruct (Z.ltb_spec z 256); lia.
Qed.

(** Same object, but for what the telegram holds. *)
Definition only_tel (m0 m : rlModbus) : Prop :=
  exists t, m = set_tel t m0 /\ length t = length (tel m0).

Lemma only_tel_refl m : only_tel m m.
Proof. exists (tel m). split; [destruct m|]; reflexivity. Qed.

Lemma only_tel_set m0 m t : only_tel m0 m -> length t = length (tel m0) -> only_tel m0 (set_tel t m).
Proof. intros (t0 & -> & _) H. exists t. split; [reflexivity|exact H]. Qed.

Lemma only_tel_length m0 m : only_tel m0 m -> length (tel m) = length (tel m0).
Proof. intros (t & -> & H). exact H. Qed.

Lemma blit_length buf p bs buf' : blit buf p bs = Some buf' -> length buf' = length buf.
Proof.
  unfold blit, in_range. destruct (_ && _) eqn:E; [|discriminate]. intros [= <-].
  rewrite !andb_true_iff, !Z.leb_le in E. rewrite !length_app, length_take, length_drop. lia.
Qed.

Lemma blit_Some buf p bs : 0 <= p -> p + Z.of_nat (length bs) <= Z.of_nat (length buf) ->
  is_Some (blit buf p bs).
Proof.
  intros H1 H2. unfold blit, in_range. rewrite !(proj2 (Z.leb_le _ _)) by lia. cbn. eauto.
Qed.

Lemma wp_tel_print m0 m len z Q :
  only_tel m0 m -> 0 <= len ->
  len + Z.of_nat (length (sprintf_02X z)) <= Z.of_nat (length (tel m0)) ->
  (forall m', only_tel m0 m' -> Q tt m') -> wp no_fault (tel_print len z) Q m.
Proof.
  intros Ho Hl Hn HQ. unfold tel_print, wp, bind. cbn [get].
  rewrite <- (only_tel_length _ _ Ho) in Hn.
  destruct (blit_Some (tel m) len (sprintf_02X z) Hl Hn) as [t E]. rewrite E. cbn.
  apply HQ, only_tel_set; [exact Ho|]. apply blit_length in E. rewrite E.
  apply only_tel_length, Ho.
Qed.

Lemma wp_push_any m0 m i z Q :
  only_tel m0 m -> 0 <= i < Z.of_nat (length (tel m0)) ->
  (forall m', only_tel m0 m' -> Q (i + 1) m') -> wp no_fault (push i z) Q m.
Proof.
  intros Ho Hi HQ. pose proof (only_tel_length _ _ Ho) as E. unfold push.
  apply wp_bind, wp_tel_set; [rewrite E; exact Hi|]. apply wp_ret, HQ.
  apply only_tel_set; [exact Ho|]. rewrite length_insert. exact E.
Qed.

Lemma wp_scan_1X m0 m i v Q :
  only_tel m0 m -> 0 <= i < Z.of_nat (length (tel m0)) ->
  (forall d, Q d m) -> wp no_fault (scan_1X i v) Q m.
Proof.
  intros Ho Hi HQ. unfold scan_1X, wp, bind. cbn [get].
  destruct (aget_is_Some (tel m) i) as [b E]; [rewrite (only_tel_length _ _ Ho); exact Hi|].
  rewrite E. cbn. apply HQ.
Qed.

Lemma insertLRC_spec m0 m len Q :
  only_tel m0 m -> 0 <= len -> len + 3 <= Z.of_nat (length (tel m0)) ->
  (forall m', only_tel m0 m' -> Q tt m') -> wp no_fault (insertLRC len) Q m.
Proof.
  intros Ho Hl Hn HQ. unfold insertLRC. destruct (Z.ltb_spec len 0); [lia|].
  apply wp_loop_then.
  apply (wp_for no_fault (fun n '(i, lrc, _, _) m' => m' = m /\ i = 1 + 2 * n)).
  - intros n [[[i lrc] high] low] t Hi [-> ->].
    pose proof (Z.mul_div_le len 2 ltac:(lia)).
    apply wp_bind. eapply wp_scan_1X; [exact Ho|lia|]. intros d1.
    apply wp_bind. eapply wp_scan_1X; [exact Ho|lia|]. intros d2.
    apply wp_ret. cbn. split; [reflexivity|lia].
  - split; [reflexivity|lia].
  - intros [[[i lrc] high] low] t [-> _]. eapply wp_tel_print; [exact Ho|exact Hl| |exact HQ].
    rewrite (proj2 (sprintf_length _)) by apply wrap8_bounds. lia.
Qed.

Lemma write_ascii_spec m slave function data Q :
  Z.of_nat (length (tel m)) = maxtel m -> 256 <= maxtel m -> 0 <= slave <= 255 ->
  (forall m' r, only_tel m m' -> (forall len, r = Some len -> 2 < len <= maxtel m) -> Q r m') ->
  wp no_fault (write_ascii slave function data (Z.of_nat (length data))) Q m.
Proof.
  intros Hm Hmax Hsl HQ. unfold write_ascii. apply wp_bind, wp_get.
  apply wp_bind. apply (wp_push_any m); [apply only_tel_refl|lia|]. intros m1 H1.
  apply wp_bind. eapply wp_tel_print; [exact H1|lia| |].
  { rewrite (proj2 (sprintf_length _)) by lia. lia. }
  intros m2 H2. apply wp_bind. eapply wp_tel_print; [exact H2|lia| |].
  { pose proof (proj1 (sprintf_length function)). lia. }
  intros m3 H3. apply wp_loop_then.
  apply (wp_for no_fault (fun i '(j, len) m' => j = i /\ only_tel m m' /\
                            5 <= len /\ len + 4 <= maxtel m)).
  - intros i [j len] t Hi (-> & Ht & Hlen).
    destruct (aget_is_Some data i Hi) as [d ->]. apply wp_bind, wp_ret.
    apply wp_bind. eapply wp_tel_print; [exact Ht|lia| |].
    { rewrite (proj2 (sprintf_length _)) by apply byte_val_bounds. lia. }
    intros t' Ht'. destruct (Z.ltb_spec (maxtel m) (len + 2 + 4)); apply wp_ret; cbn.
    + apply HQ; [exact Ht'|discriminate].
    + split; [reflexivity|]. split; [exact Ht'|lia].
  - split; [reflexivity|]. split; [exact H3|lia].
  - intros [j len] t (_ & Ht & Hlen).
    apply wp_bind. eapply insertLRC_spec; [exact Ht|lia|lia|]. intros t1 G1.
    apply wp_bind. eapply wp_push_any; [exact G1|lia|]. intros t2 G2.
    destruct (delimitor m =? 10).
    + apply wp_bind. eapply wp_push_any; [exact G2|lia|]. intros t3 G3.
      apply wp_ret, HQ; [exact G3|]. intros n [= <-]. lia.
    + apply wp_ret, HQ; [exact G2|]. intros n [= <-]. lia.
Qed.

(** ** Sending *)
Definition link_up (m : rlModbus) : bool :=
  connected (s m) || (autoreconnectSocket m && can_connect (s m)).

(** What leaves the rest of the socket alone. *)
Definition same_queues (k k' : rlSocket) : Prop :=
  inbox k' = inbox k /\ outbox k' = outbox k /\ closed k' = closed k /\ can_send k' = can_send k.

Lemma reconnect_spec m Q :
  (forall m', tel m' = tel m -> maxtel m' = maxtel m -> mode m' = mode m ->
     same_queues (s m) (s m') -> connected (s m') = link_up m -> Q (link_up m) m') ->
  wp no_fault reconnect Q m.
Proof.
  intros HQ. unfold reconnect. apply wp_bind, wp_get. unfold link_up in *.
  destruct (connected (s m)) eqn:E; cbn [orb] in *.
  - apply wp_ret, HQ; repeat split. exact E.
  - unfold bind, put, ret, get, wp. destruct (autoreconnectSocket m); cbn.
    + apply HQ; repeat split.
    + rewrite E. apply HQ; repeat split. exact E.
Qed.

Lemma wp_load_all m len Q :
  0 <= len <= Z.of_nat (length (tel m)) -> Q (take (Z.to_nat len) (tel m)) m ->
  wp no_fault (load_bytes (tel m) 0 len) Q m.
Proof.
  intros Hl HQ. unfold load_bytes.
  assert (slice (tel m) 0 len = Some (take (Z.to_nat len) (tel m))) as ->.
  { unfold slice, in_range. rewrite !(proj2 (Z.leb_le _ _)) by lia. reflexivity. }
  exact HQ.
Qed.

(** A well-formed object: the buffer has the length the constructor gave it. *)
Definition well_formed (m : rlModbus) : Prop :=
  Z.of_nat (length (tel m)) = maxtel m /\ 256 <= maxtel m.

(** The same object but for its socket and the bytes of the telegram. *)
Definition same_object (m m' : rlModbus) : Prop :=
  length (tel m') = length (tel m) /\ maxtel m' = maxtel m /\ mode m' = mode m.

Lemma same_object_wf m m' : same_object m m' -> well_formed m -> well_formed m'.
Proof. unfold same_object, well_formed. intuition congruence. Qed.

(** After the telegram is built: connect, send its first [len - 2] bytes. *)
Definition transmit (len : Z) : comp rlModbus Z :=
  up <- reconnect ;;
  if negb up then ret MODBUS_ERROR else
  m <- get ;;
  bs <- load_bytes (tel m) 0 (len - 2) ;;
  n <- socket_write bs ;;
  if n <? 0 then ret MODBUS_ERROR else ret MODBUS_SUCCESS.

Lemma transmit_spec m len Q :
  2 < len -> len - 2 <= Z.of_nat (length (tel m)) ->
  (forall r m', inbox (s m') = inbox (s m) -> same_object m m' ->
     (if link_up m && can_send (s m)
      then r = MODBUS_SUCCESS /\
           outbox (s m') = outbox (s m) ++ take (Z.to_nat (len - 2)) (tel m)
      else r = MODBUS_ERROR /\ outbox (s m') = outbox (s m)) -> Q r m') ->
  wp no_fault (transmit len) Q m.
Proof.
  intros Hl Hn HQ. unfold transmit. apply wp_bind, reconnect_spec.
  intros m' Et Emax Emode (Ei & Eo & Ec & Es) Eup.
  assert (Hso : same_object m m') by (repeat split; [rewrite Et; reflexivity|assumption..]).
  destruct (link_up m) eqn:Hup; cbn [negb andb] in *.
  2:{ apply wp_ret, HQ; [exact Ei|exact Hso|]. split; [reflexivity|exact Eo]. }
  apply wp_bind, wp_get. apply wp_bind, wp_load_all; [rewrite Et; lia|].
  unfold socket_write, wp, bind. cbn [get]. rewrite Eup, Es, Et. cbn [negb].
  destruct (take (Z.to_nat (len - 2)) (tel m)) as [|b bs] eqn:Eb.
  { exfalso. apply (f_equal length) in Eb. rewrite length_take in Eb. cbn in Eb. lia. }
  destruct (can_send (s m)).
  - cbn [put ret bind]. destruct (Z.ltb_spec (Z.of_nat (length (b :: bs))) 0); [lia|].
    cbn. apply HQ; [exact Ei|exact Hso|]. split; [reflexivity|]. cbn. rewrite Eo. reflexivity.
  - cbn. apply HQ; [exact Ei|exact Hso|]. split; [reflexivity|]. exact Eo.
Qed.

Lemma write_unfold slave function data datalen t m :
  0 <= slave <= 255 -> mode m = MODBUS_RTU ->
  write slave function data datalen t m =
  (len <- write_rtu slave function data datalen t ;;
   match len with None => ret MODBUS_ERROR | Some len => transmit len end) m.
Proof.
  intros Hs Hm. unfold write, bind at 1. cbn [get].
  destruct (Z.ltb_spec slave 0); [lia|]. destruct (Z.ltb_spec 255 slave); [lia|].
  cbn [orb]. rewrite Hm. reflexivity.
Qed.

Lemma write_rtu_full m slave function data t Q :
  well_formed m -> mode m = MODBUS_RTU -> 0 <= slave <= 255 ->
  (forall r m', inbox (s m') = inbox (s m) -> same_object m m' ->
     (if (10 + Z.of_nat (length data) <=? maxtel m) && link_up m && can_send (s m)
      then r = MODBUS_SUCCESS /\ outbox (s m') = outbox (s m) ++
             modbus_header (Z.of_nat (length data)) slave function t ++ data
      else r = MODBUS_ERROR /\ outbox (s m') = outbox (s m)) -> Q r m') ->
  wp no_fault (write slave function data (Z.of_nat (length data)) t) Q m.
Proof.
  intros [Hm Hmax] Hmode Hsl HQ. unfold wp. rewrite write_unfold by assumption.
  apply wp_bind, write_rtu_spec; [exact Hm|exact Hmax|].
  intros m' r (t' & -> & Hlen) [[-> Hf]|(-> & Hf & [_ _ Hb])]; unfold fits in Hf.
  - apply wp_ret, HQ; [reflexivity|repeat split; exact Hlen|]. rewrite (proj2 (Z.leb_gt _ _)) by lia. cbn. auto.
  - assert (Hl : length (modbus_header (Z.of_nat (length data)) slave function t ++ data)
                 = (8 + length data)%nat) by (rewrite length_app; destruct t; reflexivity).
    apply transmit_spec; [lia|cbn; lia|]. intros r m'' Ei (S1 & S2 & S3) Ho.
    apply HQ; [exact Ei|repeat split; cbn in *; congruence|].
    rewrite (proj2 (Z.leb_le _ _)) by lia. cbn [andb].
    replace (link_up (set_tel t' m)) with (link_up m) in Ho by reflexivity. cbn in Ho.
    destruct (link_up m && can_send (s m)); [|exact Ho]. destruct Ho as [-> ->].
    split; [reflexivity|]. f_equal. cbn in Hb. etransitivity; [|exact Hb]. f_equal. lia.
Qed.

(** ** Receiving *)
(** All of what is asked for is there. *)
Lemma socket_read_all m buf off len got rest Q :
  connected (s m) = true -> inbox (s m) = got ++ rest -> Z.of_nat (length got) = len ->
  0 <= off -> off + len <= Z.of_nat (length buf) ->
  (forall m', tel m' = tel m -> mode m' = mode m -> connected (s m') = true ->
     inbox (s m') = rest ->
     Q (len, take (Z.to_nat off) buf ++ got ++ drop (Z.to_nat off + length got) buf) m') ->
  wp no_fault (socket_read buf off len) Q m.
Proof.
  intros Hc Hi Hl Ho Hb HQ. unfold socket_read, wp, bind. cbn [get].
  rewrite Hc, Hi. cbn [negb].
  assert (Z.to_nat len = length got) as El by lia.
  rewrite El, take_app_length, drop_app_length.
  unfold blit, in_range. rewrite !(proj2 (Z.leb_le _ _)) by lia. cbn [andb or_oob ret].
  rewrite (proj2 (Z.eqb_eq _ _)) by lia. cbn. apply HQ; reflexivity.
Qed.

Lemma read_tel_all m len got rest Q :
  connected (s m) = true -> inbox (s m) = got ++ rest -> Z.of_nat (length got) = len ->
  len <= Z.of_nat (length (tel m)) ->
  (forall m', tel m' = got ++ drop (length got) (tel m) -> mode m' = mode m ->
     connected (s m') = true -> inbox (s m') = rest -> Q len m') ->
  wp no_fault (read_tel len) Q m.
Proof.
  intros Hc Hi Hl Hb HQ. unfold read_tel. apply wp_bind, wp_get.
  apply wp_bind. eapply socket_read_all; eauto; [lia|].
  intros m' E1 E2 E3 E4. unfold bind, get, put, ret, wp. cbn.
  apply HQ; cbn; auto.
Qed.

Lemma wp_tel_get_app F m i pre b post Q :
  tel m = pre ++ b :: post -> i = Z.of_nat (length pre) -> Q (byte_val b) m ->
  wp F (tel_get i) Q m.
Proof.
  intros E -> HQ. apply wp_tel_get; [|rewrite E, length_app; cbn; lia].
  intros b' _. rewrite Nat2Z.id, E, list_lookup_middle by reflexivity. intros [= <-]. exact HQ.
Qed.

(** The functions with four bytes of arguments. *)
Definition four_byte_function (f : function_code) : Prop :=
  f = ReadCoilStatus \/ f = ReadInputStatus \/ f = ReadHoldingRegisters \/
  f = ReadInputRegisters \/ f = ForceSingleCoil \/ f = PresetSingleRegister.

Lemma decode_code f : decode (code f) = Some f.
Proof. destruct f; reflexivity. Qed.

Lemma code_range f : 0 <= code f < 256.
Proof. destruct f; cbn; lia. Qed.

Lemma transaction_bytes t : 0 <= t < 65536 ->
  byte_val (byte_of (Z.land t 65280 / 256)) * 256 + byte_val (byte_of (Z.land t 255)) = t.
Proof.
  intros Ht. rewrite !byte_val_of. change 255 with (Z.ones 8).
  rewrite (Z.land_ones t 8) by lia. change (2 ^ 8) with 256 at 1.
  replace (Z.land t 65280 / 256) with (t / 256 mod 256).
  - rewrite !Z.mod_mod by lia. rewrite (Z.mod_small (t / 256)).
    + pose proof (Z.div_mod t 256 ltac:(lia)). lia.
    + split; [apply Z.div_pos; lia|apply Z.div_lt_upper_bound; lia].
  - change 256 with (2 ^ 8). rewrite <- !Z.shiftr_div_pow2, <- Z.land_ones by lia.
    rewrite Z.shiftr_land. reflexivity.
Qed.

(** A slave that gets the telegram of a master. *)
Lemma readRequest_spec m f slave d rest data slave0 function0 t0 t Q :
  well_formed m -> mode m = MODBUS_RTU -> connected (s m) = true ->
  0 <= slave <= 255 -> four_byte_function f -> length d = 4%nat -> (4 <= length data)%nat ->
  0 <= t < 65536 ->
  inbox (s m) = modbus_header 4 slave (code f) (Some t) ++ d ++ rest ->
  (forall m', inbox (s m') = rest -> connected (s m') = true ->
     Q (mkReply 4 slave (code f) (d ++ drop 4 data)
          (match t0 with None => None | Some _ => Some t end)) m') ->
  wp no_fault (readRequest slave0 function0 data t0) Q m.
Proof.
  intros [Hm Hmax] Hmode Hc Hsl Hf Hd Hdata Ht Hi HQ. unfold readRequest.
  apply wp_bind, wp_get. rewrite Hmode, Hc. cbn [negb andb Z.eqb MODBUS_RTU MODBUS_ASCII Pos.eqb].
  set (hi := byte_of (Z.land t 65280 / 256)) in *. set (lo := byte_of (Z.land t 255)) in *.
  apply wp_bind.
  eapply (read_tel_all m 6 [hi; lo; byte_of 0; byte_of 0; byte_of 0; byte_of (2 + 4)]
            ([byte_of slave; byte_of (code f)] ++ d ++ rest)); [exact Hc|exact Hi|reflexivity|lia|].
  intros m1 E1 M1 C1 I1. cbn [Z.leb Z.compare].
  assert (Hlen1 : (256 <= length (tel m1))%nat).
  { rewrite E1, length_app, length_drop. cbn [length]. lia. }
  assert (Htr : forall R, (forall x, x = match t0 with None => None | Some _ => Some t end -> R x m1) ->
    wp no_fault (match t0 with
       | None => ret None
       | Some _ => hi <- tel_get 0 ;; lo <- tel_get 1 ;; ret (Some (hi * 256 + lo))
       end) R m1).
  { intros R HR. destruct t0; [|apply wp_ret, HR; reflexivity].
    apply wp_bind. eapply (wp_tel_get_app _ m1 0 []); [exact E1|reflexivity|].
    apply wp_bind. eapply (wp_tel_get_app _ m1 1 [hi]); [exact E1|reflexivity|].
    apply wp_ret, HR. f_equal. apply transaction_bytes. exact Ht. }
  apply wp_bind, Htr. intros x ->. apply wp_bind.
  eapply (read_tel_all m1 2 [byte_of slave; byte_of (code f)] (d ++ rest));
    [exact C1|exact I1|reflexivity|lia|].
  intros m2 E2 M2 C2 I2. cbn [Z.leb Z.compare].
  apply wp_bind. eapply (wp_tel_get_app _ m2 0 []); [exact E2|reflexivity|].
  apply wp_bind. eapply (wp_tel_get_app _ m2 1 [byte_of slave]); [exact E2|reflexivity|].
  rewrite !byte_val_of, !Z.mod_small by (try lia; apply code_range).
  assert (Hread : wp no_fault (read_body slave (code f)
     (match t0 with None => None | Some _ => Some t end) data 4) Q m2).
  { unfold read_body, read_or_fail. apply wp_bind.
    eapply (socket_read_all m2 data 0 4 d rest); [exact C2|exact I2|lia|lia|lia|].
    intros m3 _ _ C3 I3. cbn [fst snd Z.leb Z.compare]. apply wp_ret.
    replace (take (Z.to_nat 0) data ++ d ++ drop (Z.to_nat 0 + length d) data)
      with (d ++ drop 4 data) by (rewrite Hd; reflexivity).
    apply HQ; assumption. }
  unfold request_data. rewrite decode_code.
  destruct Hf as [-> | [-> | [-> | [-> | [-> | ->]]]]]; exact Hread.
Qed.

(** ** Reading whatever the peer sends *)
(** What reading leaves alone. *)
Definition read_frame (m m' : rlModbus) : Prop :=
  outbox (s m') = outbox (s m) /\ length (tel m') = length (tel m) /\
  mode m' = mode m /\ maxtel m' = maxtel m.

Lemma read_frame_refl m : read_frame m m.
Proof. repeat split. Qed.

Lemma read_frame_trans m1 m2 m3 : read_frame m1 m2 -> read_frame m2 m3 -> read_frame m1 m3.
Proof. unfold read_frame. intuition congruence. Qed.

Lemma socket_read_any m buf off len Q :
  0 <= off -> 0 <= len -> off + len <= Z.of_nat (length buf) ->
  (forall r buf' m', read_frame m m' -> tel m' = tel m -> length buf' = length buf ->
     (0 < r -> exists got, r = len /\ inbox (s m) = got ++ inbox (s m') /\
        Z.of_nat (length got) = len /\
        buf' = take (Z.to_nat off) buf ++ got ++ drop (Z.to_nat off + length got) buf) ->
     Q (r, buf') m') ->
  wp no_fault (socket_read buf off len) Q m.
Proof.
  intros Ho Hl Hb HQ. unfold socket_read, wp, bind. cbn [get].
  destruct (connected (s m)); cbn [negb].
  2:{ apply HQ; try reflexivity; [apply read_frame_refl|lia]. }
  set (got := take (Z.to_nat len) (inbox (s m))).
  assert (Hgot : Z.of_nat (length got) <= len) by (unfold got; rewrite length_take; lia).
  destruct (blit buf off got) as [buf'|] eqn:Eb.
  2:{ destruct (blit_Some buf off got ltac:(lia) ltac:(lia)) as [x Ex]. congruence. }
  pose proof (blit_length _ _ _ _ Eb) as Hlen. cbn [or_oob ret].
  destruct (Z.eqb_spec (Z.of_nat (length got)) len) as [El|El]; [|destruct (closed (s m))];
    unfold put, ret; cbn; apply HQ; try (repeat split; fail); try exact Hlen; try lia.
  intros Hr. exists got. split; [reflexivity|]. cbn. split; [symmetry; apply take_drop|].
  split; [exact El|]. unfold blit in Eb. destruct (in_range _ _ _); [|discriminate].
  injection Eb as <-. reflexivity.
Qed.

Lemma read_tel_any m n Q :
  0 <= n <= Z.of_nat (length (tel m)) ->
  (forall r m', read_frame m m' ->
     (0 < r -> exists got, inbox (s m) = got ++ inbox (s m') /\ Z.of_nat (length got) = n /\
        tel m' = got ++ drop (length got) (tel m)) -> Q r m') ->
  wp no_fault (read_tel n) Q m.
Proof.
  intros Hn HQ. unfold read_tel. apply wp_bind, wp_get.
  apply wp_bind, socket_read_any; [lia|lia|lia|]. intros r buf' m' Hf Ht Hlen Hr.
  unfold bind, get, put, ret, wp. cbn. apply HQ.
  - destruct Hf as (F1 & F2 & F3 & F4). repeat split; cbn; auto.
  - intros Hpos. destruct (Hr Hpos) as (got & _ & E1 & E2 & E3). exists got. cbn.
    split; [exact E1|]. split; [exact E2|]. exact E3.
Qed.

(** Reading the body of a message into the caller's buffer. *)
Lemma read_body_any m sl fn t data n Q :
  0 <= n <= Z.of_nat (length data) ->
  (forall r m', read_frame m m' -> length (r_data r) = length data -> Q r m') ->
  wp no_fault (read_body sl fn t data n) Q m.
Proof.
  intros Hn HQ. unfold read_body, read_or_fail. apply wp_bind, socket_read_any; [lia|lia|lia|].
  intros r buf' m' Hf _ Hlen _. cbn [fst snd].
  destruct (r <=? 0); apply wp_ret, HQ; assumption.
Qed.

(** Answers that do not claim to be a FIFO queue stay inside a buffer of 256
    bytes. *)
Lemma response_any m data slave function Q :
  well_formed m -> (256 <= length data)%nat -> inbox (s m) !! 7%nat <> Some (byte_of 24) ->
  (forall r m', read_frame m m' -> length (r_data r) = length data -> Q r m') ->
  wp no_fault (response slave function data) Q m.
Proof.
  intros [Hm Hmax] Hd Hi HQ. unfold response. apply wp_bind, wp_get.
  assert (Hfail : wp no_fault (ret (mkReply MODBUS_ERROR slave function data None)) Q m)
    by (apply wp_ret, HQ; [apply read_frame_refl|reflexivity]).
  destruct (_ && _); [exact Hfail|]. destruct (negb (connected (s m))); [exact Hfail|].
  destruct (negb (mode m =? MODBUS_RTU)); [apply wp_ret, HQ; [apply read_frame_refl|reflexivity]|].
  apply wp_bind, read_tel_any; [lia|]. intros r1 m1 F1 H1.
  destruct (Z.leb_spec r1 0); [apply wp_ret, HQ; [exact F1|reflexivity]|].
  destruct (H1 ltac:(assumption)) as (g1 & I1 & L1 & T1). pose proof F1 as (_ & Ft1 & _).
  apply wp_bind, read_tel_any; [lia|]. intros r2 m2 F2 H2.
  pose proof (read_frame_trans _ _ _ F1 F2) as F12. pose proof F12 as (_ & Ft2 & _).
  destruct (Z.leb_spec r2 0); [apply wp_ret, HQ; [exact F12|reflexivity]|].
  destruct (H2 ltac:(assumption)) as (g2 & I2 & L2 & T2).
  destruct g2 as [|b0 [|b1 [|? ?]]]; cbn in L2; try lia.
  assert (Hb1 : b1 <> byte_of 24).
  { intros ->. apply Hi. rewrite I1, I2, lookup_app_r by lia.
    replace (7 - length g1)%nat with 1%nat by lia. reflexivity. }
  apply wp_bind. eapply (wp_tel_get_app _ m2 0 []); [exact T2|reflexivity|].
  apply wp_bind. eapply (wp_tel_get_app _ m2 1 [b0]); [exact T2|reflexivity|].
  assert (Hbody : forall n, 0 <= n <= 255 ->
    wp no_fault (read_body (byte_val b0) (byte_val b1) None data n) Q m2).
  { intros n Hn. apply read_body_any; [lia|]. intros r m3 F3 L3.
    apply HQ; [eapply read_frame_trans; eauto|exact L3]. }
  assert (Hcount : wp no_fault (r <- read_tel 1 ;;
      if r <=? 0 then answer (byte_val b0) (byte_val b1) None MODBUS_ERROR data else
      byte_count <- tel_get 0 ;; read_body (byte_val b0) (byte_val b1) None data byte_count) Q m2).
  { apply wp_bind, read_tel_any; [lia|]. intros r3 m3 F3 H3.
    pose proof (read_frame_trans _ _ _ F12 F3) as F13. pose proof F13 as (_ & Ft3 & _).
    destruct (r3 <=? 0); [apply wp_ret, HQ; [exact F13|reflexivity]|].
    apply wp_bind, wp_tel_get; [|lia]. intros b _ _. pose proof (byte_val_bounds b).
    apply read_body_any; [lia|]. intros r m4 F4 L4.
    apply HQ; [eapply read_frame_trans; eauto|exact L4]. }
  unfold response_data. destruct (decode (byte_val b1)) as [f|] eqn:Ef.
  - assert (Hf : f <> ReadFifoQueue).
    { intros ->. apply Hb1. unfold decode in Ef. apply List.find_some in Ef as [_ Ef].
      apply Z.eqb_eq in Ef. rewrite <- (byte_of_val b1), <- Ef. reflexivity. }
    destruct f; first [exact Hcount | apply Hbody; lia | congruence].
  - apply wp_ret, HQ; [exact F12|reflexivity].
Qed.
