(* ===== verification/RlModbusProps.v ===== *)
(** Properties of the Modbus client: requests round-trip between a master and a
    slave, the checksum, the bounds of the telegram buffer, and three defects of
    the reading functions. *)
From Stdlib Require Import ZArith Lia List Bool.
From Stdlib Require Import Strings.Byte.
From stdpp Require Import base list.
From S2P Require Import Prelude Memory RlModbus RlModbusCorrect.

(** ** Sample objects *)
Definition sample_socket (up : bool) (bs : list byte) : rlSocket :=
  {| connected := up; can_connect := true; can_send := true; closed := false;
     inbox := bs; outbox := [] |}.

Definition sample_modbus (md : Z) (up : bool) (bs : list byte) : rlModbus :=
  rlModbus_new 100 md 10 [] (sample_socket up bs).

Lemma sample_well_formed md up bs : well_formed (sample_modbus md up bs).
Proof. split; [reflexivity|vm_compute; discriminate]. Qed.

(** A request for one of the six functions with four bytes of arguments, sent
    by a master whose connection works, is read by the slave as it was sent:
    same slave number, function, arguments and transaction, with the bytes that
    follow it left in the connection. *)
Theorem modbus_request_arrives (master slave_side : rlModbus) (slave t : Z) (f : function_code)
    (d data0 rest : list byte) (slave0 function0 t0 : Z) :
  well_formed master -> mode master = MODBUS_RTU -> link_up master = true ->
  can_send (s master) = true -> outbox (s master) = [] ->
  well_formed slave_side -> mode slave_side = MODBUS_RTU -> connected (s slave_side) = true ->
  0 <= slave <= 255 -> 0 <= t < 65536 -> four_byte_function f -> length d = 4%nat ->
  (4 <= length data0)%nat ->
  exists master', write slave (code f) d 4 (Some t) master = Ret (MODBUS_SUCCESS, master') /\
    (inbox (s slave_side) = outbox (s master') ++ rest ->
     exists slave', readRequest slave0 function0 data0 (Some t0) slave_side
       = Ret (mkReply 4 slave (code f) (d ++ drop 4 data0) (Some t), slave') /\
       inbox (s slave') = rest).
Proof.
  intros Hm Hmm Hup Hcs Hob Hs Hsm Hc Hsl Ht Hf Hd Hdata.
  destruct (wp_run (write slave (code f) d 4 (Some t)) (fun r m' => r = MODBUS_SUCCESS /\
      outbox (s m') = modbus_header 4 slave (code f) (Some t) ++ d) master)
    as (r & m' & E & -> & Ho).
  { replace 4 with (Z.of_nat (length d)) by lia.
    apply write_rtu_full; [exact Hm|exact Hmm|exact Hsl|]. intros r m' _ _ H.
    rewrite Hup, Hcs, Hob, Hd in H. destruct Hm as [_ Hmax].
    rewrite (proj2 (Z.leb_le _ _)) in H by lia. rewrite Hd. exact H. }
  exists m'. split; [exact E|]. intros Hi. rewrite Ho, <- app_assoc in Hi.
  destruct (wp_run (readRequest slave0 function0 data0 (Some t0)) (fun r s' =>
      r = mkReply 4 slave (code f) (d ++ drop 4 data0) (Some t) /\ inbox (s s') = rest) slave_side)
    as (r & s' & E' & -> & Hr).
  { apply (readRequest_spec slave_side f slave d rest data0 slave0 function0 (Some t0) t); auto. }
  eauto.
Qed.

Definition sample_args : list byte := [byte_of 1; byte_of 2; byte_of 3; byte_of 4].

Lemma modbus_request_arrives_witness :
  exists master', write 17 (code PresetSingleRegister) sample_args 4 (Some 513)
      (sample_modbus MODBUS_RTU false []) = Ret (MODBUS_SUCCESS, master') /\
    (inbox (s (sample_modbus MODBUS_RTU true
       [x02; x01; x00; x00; x00; x06; x11; x06; x01; x02; x03; x04; x63])) =
       outbox (s master') ++ [x63] ->
     exists slave', readRequest 0 0 (zeros 10) (Some 0)
       (sample_modbus MODBUS_RTU true
         [x02; x01; x00; x00; x00; x06; x11; x06; x01; x02; x03; x04; x63])
       = Ret (mkReply 4 17 (code PresetSingleRegister) (sample_args ++ drop 4 (zeros 10))
               (Some 513), slave') /\
       inbox (s slave') = [x63]).
Proof.
  apply modbus_request_arrives; try reflexivity; try lia; try apply sample_well_formed.
  - unfold four_byte_function. auto 8.
  - vm_compute. lia.
Defined.

(** The table-driven loop over the first n bytes of the telegram computes
    their CRC-16 with polynomial 0xA001 and start value 0xFFFF, bit by bit. *)
Theorem crc_loop_is_crc16 (n : Z) (m : rlModbus) :
  0 <= n <= Z.of_nat (length (tel m)) ->
  exists lo hi, crc_loop n m = Ret ((lo, hi), m) /\ 0 <= lo < 256 /\ 0 <= hi < 256 /\
    lo + 256 * hi = crc16 (take (Z.to_nat n) (tel m)).
Proof.
  intros Hn.
  destruct (wp_run (crc_loop n) (fun c m' => m' = m /\ crc_is n m c) m) as ([lo hi] & m' & E & -> & H).
  { unfold crc_loop. apply crc_loop_spec; [exact Hn|]. auto. }
  exists lo, hi. destruct H as (H1 & H2 & H3). auto.
Qed.

Lemma crc_loop_is_crc16_witness :
  exists lo hi, crc_loop 9 (set_tel (map byte_of [49; 50; 51; 52; 53; 54; 55; 56; 57])
                             (sample_modbus MODBUS_RTU true []))
    = Ret ((lo, hi), set_tel (map byte_of [49; 50; 51; 52; 53; 54; 55; 56; 57])
                             (sample_modbus MODBUS_RTU true [])) /\
    0 <= lo < 256 /\ 0 <= hi < 256 /\
    lo + 256 * hi = crc16 (take (Z.to_nat 9) (map byte_of [49; 50; 51; 52; 53; 54; 55; 56; 57])).
Proof. apply (crc_loop_is_crc16 9). vm_compute. split; discriminate. Defined.

(** The check value of the CRC-16/MODBUS catalogue entry. *)
Example crc16_check : crc16 (map byte_of [49; 50; 51; 52; 53; 54; 55; 56; 57]) = 19255.
Proof. vm_compute. reflexivity. Qed.

Lemma check_value t len b b' :
  (len + 2 <= length t)%nat -> t !! len = Some b -> t !! S len = Some b' ->
  forall m, tel m = t ->
  CRCerror (Z.of_nat len + 2) m =
    Ret (if crc16 (take len t) =? byte_val b + 256 * byte_val b' then 0 else 1, m).
Proof.
  intros Hl Hb Hb' m Hm.
  destruct (wp_run (CRCerror (Z.of_nat len + 2)) (fun r m' => m' = m /\
    r = if crc16 (take len t) =? byte_val b + 256 * byte_val b' then 0 else 1) m)
    as (r & m' & E & -> & ->); [|exact E].
  apply CRCerror_spec; [rewrite Hm; lia|]. rewrite Hm.
  replace (Z.to_nat (Z.of_nat len + 2 - 2)) with len by lia.
  replace (Z.to_nat (Z.of_nat len + 2 - 1)) with (S len) by lia.
  intros c c' Ec Ec'. rewrite Hb in Ec. rewrite Hb' in Ec'. injection Ec as <-.
  injection Ec' as <-. split; reflexivity.
Qed.

(** The check bytes of a telegram are determined by what precedes them. *)
Lemma with_crc_bytes len t :
  (len + 2 <= length t)%nat ->
  with_crc (Z.of_nat len) t !! len = Some (byte_of (crc16 (take len t))) /\
  with_crc (Z.of_nat len) t !! S len = Some (byte_of (crc16 (take len t) / 256)) /\
  take len (with_crc (Z.of_nat len) t) = take len t.
Proof.
  intros Hl. unfold with_crc. rewrite Nat2Z.id.
  replace (Z.to_nat (Z.of_nat len + 1)) with (S len) by lia. split; [|split].
  - rewrite list_lookup_insert_ne by lia. apply list_lookup_insert_eq. lia.
  - apply list_lookup_insert_eq. rewrite length_insert. lia.
  - rewrite !take_insert_ge by lia. reflexivity.
Qed.

Lemma crc16_value bs :
  byte_val (byte_of (crc16 bs)) + 256 * byte_val (byte_of (crc16 bs / 256)) = crc16 bs.
Proof.
  assert (H : is_crc (crc16 bs)) by (apply (crc_from_bounds bs 65535); unfold is_crc; lia).
  unfold is_crc in H. rewrite !byte_val_of.
  rewrite (Z.mod_small (crc16 bs / 256)).
  - pose proof (Z.div_mod (crc16 bs) 256 ltac:(lia)). lia.
  - split; [apply Z.div_pos; lia|apply Z.div_lt_upper_bound; lia].
Qed.

Lemma damage_changes_check t len b :
  (len + 2 <= length t)%nat -> forall i, (i < len + 2)%nat ->
  with_crc (Z.of_nat len) t !! i <> Some b ->
  exists c c', <[i:=b]> (with_crc (Z.of_nat len) t) !! len = Some c /\
    <[i:=b]> (with_crc (Z.of_nat len) t) !! S len = Some c' /\
    crc16 (take len (<[i:=b]> (with_crc (Z.of_nat len) t))) <> byte_val c + 256 * byte_val c'.
Proof.
  intros Hl i Hi Hb. destruct (with_crc_bytes len t Hl) as (E1 & E2 & E3).
  set (w := with_crc (Z.of_nat len) t) in *.
  assert (Hw : length w = length t) by (unfold w, with_crc; rewrite !length_insert; reflexivity).
  destruct (decide (i < len)%nat) as [Hlt|Hge].
  - exists (byte_of (crc16 (take len t))), (byte_of (crc16 (take len t) / 256)).
    rewrite !list_lookup_insert_ne by lia. split; [exact E1|]. split; [exact E2|].
    rewrite crc16_value, take_insert_lt, E3 by lia.
    destruct (lookup_lt_is_Some_2 (take len t) i ltac:(rewrite length_take; lia)) as [x Ex].
    assert (Hx : x <> b).
    { intros ->. apply Hb. rewrite <- E3 in Ex. apply lookup_take_Some in Ex as [Ex _]. exact Ex. }
    rewrite <- (take_drop_middle _ _ _ Ex) at 2.
    rewrite insert_take_drop by (rewrite length_take; lia). apply crc16_damage. congruence.
  - rewrite take_insert_ge, E3 by lia. pose proof (crc16_value (take len t)) as Hv.
    assert (i = len \/ i = S len) as [-> | ->] by lia.
    + exists b, (byte_of (crc16 (take len t) / 256)).
      rewrite list_lookup_insert_eq, list_lookup_insert_ne by lia.
      split; [reflexivity|]. split; [exact E2|]. intros E. apply Hb. rewrite E1. f_equal.
      rewrite <- (byte_of_val (byte_of _)), <- (byte_of_val b). f_equal. lia.
    + exists (byte_of (crc16 (take len t))), b.
      rewrite list_lookup_insert_eq, list_lookup_insert_ne by lia.
      split; [exact E1|]. split; [reflexivity|]. intros E. apply Hb. rewrite E2. f_equal.
      rewrite <- (byte_of_val (byte_of _)), <- (byte_of_val b). f_equal. lia.
Qed.

(** insertCRC appends check bytes that CRCerror accepts, and rejects after any
    one byte of the telegram, the check bytes included, has changed. *)
Theorem crc_detects_damage (len : nat) (m : rlModbus) :
  (len + 2 <= length (tel m))%nat ->
  exists m', insertCRC (Z.of_nat len) m = Ret (tt, m') /\
    CRCerror (Z.of_nat len + 2) m' = Ret (0, m') /\
    forall i b, (i < len + 2)%nat -> tel m' !! i <> Some b ->
      CRCerror (Z.of_nat len + 2) (set_tel (<[i:=b]> (tel m')) m')
      = Ret (1, set_tel (<[i:=b]> (tel m')) m').
Proof.
  intros Hl. exists (set_tel (with_crc (Z.of_nat len) (tel m)) m).
  destruct (with_crc_bytes len (tel m) Hl) as (E1 & E2 & E3).
  assert (Hw : length (with_crc (Z.of_nat len) (tel m)) = length (tel m))
    by (unfold with_crc; rewrite !length_insert; reflexivity).
  split; [|split].
  - destruct (wp_run (insertCRC (Z.of_nat len)) (fun r m' => r = tt /\
      m' = set_tel (with_crc (Z.of_nat len) (tel m)) m) m) as (r & m' & E & -> & ->); [|exact E].
    apply insertCRC_spec; [lia|lia|]. split; reflexivity.
  - rewrite (check_value _ len _ _ ltac:(rewrite Hw; exact Hl) E1 E2) by reflexivity.
    rewrite E3, crc16_value, Z.eqb_refl. reflexivity.
  - cbn [tel set_tel]. intros i b Hi Hb.
    destruct (damage_changes_check (tel m) len b Hl i Hi Hb) as (c & c' & F1 & F2 & Hne).
    rewrite (check_value _ len _ _ ltac:(rewrite length_insert, Hw; exact Hl) F1 F2) by reflexivity.
    rewrite (proj2 (Z.eqb_neq _ _) Hne). reflexivity.
Qed.

Lemma crc_detects_damage_witness :
  exists m', insertCRC 4 (sample_modbus MODBUS_RTU true []) = Ret (tt, m') /\
    CRCerror (4 + 2) m' = Ret (0, m') /\
    forall i b, (i < 4 + 2)%nat -> tel m' !! i <> Some b ->
      CRCerror (4 + 2) (set_tel (<[i:=b]> (tel m')) m')
      = Ret (1, set_tel (<[i:=b]> (tel m')) m').
Proof. apply (crc_detects_damage 4). vm_compute. lia. Defined.

(** write never leaves the telegram buffer or faults, in both modes and for
    every function number and amount of data, and answers success or error. *)
Theorem write_in_bounds (m : rlModbus) (slave function : Z) (data : list byte) (t : option Z) :
  well_formed m ->
  exists r m', write slave function data (Z.of_nat (length data)) t m = Ret (r, m') /\
    (r = MODBUS_SUCCESS \/ r = MODBUS_ERROR).
Proof.
  intros [Hm Hmax]. apply (wp_run _ (fun r _ => r = MODBUS_SUCCESS \/ r = MODBUS_ERROR)).
  assert (Htr : forall len m', 2 < len -> len - 2 <= Z.of_nat (length (tel m')) ->
    wp no_fault (transmit len) (fun r _ => r = MODBUS_SUCCESS \/ r = MODBUS_ERROR) m').
  { intros len m' H1 H2. apply transmit_spec; [exact H1|exact H2|]. intros r m'' _ _ H.
    destruct (_ && _); destruct H as [-> _]; auto. }
  unfold write. apply wp_bind, wp_get.
  destruct (Z.ltb_spec slave 0); [apply wp_ret; auto|].
  destruct (Z.ltb_spec 255 slave); [apply wp_ret; auto|]. cbn [orb].
  destruct (mode m =? MODBUS_ASCII) eqn:Ea; [|destruct (mode m =? MODBUS_RTU)].
  - apply wp_bind, write_ascii_spec; [exact Hm|exact Hmax|lia|].
    intros m' [len|] Ho Hlen; [|apply wp_ret; auto].
    specialize (Hlen len eq_refl). pose proof (only_tel_length _ _ Ho). apply Htr; lia.
  - apply wp_bind, write_rtu_spec; [exact Hm|exact Hmax|].
    intros m' r (t' & -> & Hl) [[-> _]|(-> & Hf & _)]; [apply wp_ret; auto|].
    unfold fits in Hf. apply Htr; cbn; lia.
  - apply wp_bind, wp_ret, wp_ret. auto.
Qed.

Lemma write_in_bounds_witness :
  exists r m', write 1 (-1) (zeros 400) (Z.of_nat (length (zeros 400))) None
                 (sample_modbus MODBUS_ASCII false []) = Ret (r, m') /\
    (r = MODBUS_SUCCESS \/ r = MODBUS_ERROR).
Proof. apply write_in_bounds, sample_well_formed. Defined.

(** ** Defects *)
(** readHoldingRegisters and readInputRegisters lose the high byte of every
    register: the mask is applied to the shifted byte. *)
Theorem registers_lose_high_byte (n : nat) (data : list byte) (regs : list Z) (m : rlModbus) :
  (2 * n <= length data)%nat -> (n <= length regs)%nat ->
  exists regs', store_registers (2 * Z.of_nat n) data regs m = Ret ((2 * Z.of_nat n, regs'), m) /\
    forall j, (j < n)%nat -> regs' !! j = byte_val <$> data !! (2 * j + 1)%nat.
Proof.
  intros Hd Hr.
  destruct (wp_run (store_registers (2 * Z.of_nat n) data regs) (fun r m' => m' = m /\
    fst r = 2 * Z.of_nat n /\ forall j, (j < n)%nat ->
    snd r !! j = byte_val <$> data !! (2 * j + 1)%nat) m) as ([a regs'] & m' & E & -> & Ha & H).
  2:{ cbn in Ha, H. subst a. eauto. }
  unfold store_registers. apply wp_loop_then.
  replace ((2 * Z.of_nat n + 1) / 2) with (Z.of_nat n)
    by (rewrite Z.add_comm, Z.mul_comm, Z.div_add by lia; reflexivity).
  apply (wp_for no_fault (fun k '(i, j, rs) m' => m' = m /\ i = 2 * k /\ j = k /\
    length rs = length regs /\ forall x, (Z.of_nat x < k) ->
      rs !! x = byte_val <$> data !! (2 * x + 1)%nat)).
  - intros k [[i j] rs] t Hk (-> & -> & -> & Hlen & Hrs).
    destruct (aget_is_Some data (2 * k) ltac:(lia)) as [hi ->].
    destruct (aget_is_Some data (2 * k + 1) ltac:(lia)) as [lo Elo]. rewrite Elo.
    apply wp_bind, wp_ret. apply wp_bind, wp_ret. rewrite aset_Some by lia.
    apply wp_bind, wp_ret. apply wp_ret. cbn [turn].
    split; [reflexivity|]. split; [lia|]. split; [lia|].
    split; [rewrite length_insert; exact Hlen|]. intros x Hx.
    destruct (decide (Z.of_nat x = k)) as [<-|Hne].
    + rewrite Nat2Z.id, list_lookup_insert_eq by lia.
      unfold aget in Elo. destruct (in_bounds data _); [|discriminate].
      replace (Z.to_nat (2 * Z.of_nat x + 1)) with (2 * x + 1)%nat in Elo by lia.
      rewrite Elo. cbn. f_equal. change 255 with (Z.ones 8).
      rewrite !Z.land_ones by lia. change (2 ^ 8) with 256.
      rewrite Z.mod_mul by lia. apply Z.mod_small, byte_val_bounds.
    + rewrite list_lookup_insert_ne by lia. apply Hrs. lia.
  - repeat split. intros x Hx. lia.
  - intros [[i j] rs] t (-> & _ & _ & _ & H). apply wp_ret. split; [reflexivity|].
    split; [reflexivity|]. intros x Hx. apply H. lia.
Qed.

Lemma registers_lose_high_byte_witness :
  exists regs', store_registers (2 * 1) [x01; x2c] [0] (sample_modbus MODBUS_RTU true [])
      = Ret ((2 * 1, regs'), sample_modbus MODBUS_RTU true []) /\
    forall j, (j < 1)%nat -> regs' !! j = byte_val <$> [x01; x2c] !! (2 * j + 1)%nat.
Proof. apply (registers_lose_high_byte 1); cbn; lia. Defined.

(** The byte count of a ReadFifoQueue answer is 16 bits and is not compared
    with the caller's buffer: whatever function was asked for, a peer that
    answers with function 24 and more bytes than [data] has makes response store
    outside it. *)
Theorem fifo_response_overflows (m : rlModbus) (head : list byte) (sl hi lo : byte)
    (payload data : list byte) (slave function : Z) :
  well_formed m -> mode m = MODBUS_RTU -> connected (s m) = true ->
  length head = 6%nat -> inbox (s m) = head ++ [sl; byte_of 24; hi; lo] ++ payload ->
  Z.of_nat (length data) < byte_val hi * 256 + byte_val lo ->
  (length data < length payload)%nat ->
  response slave function data m = Fault OutOfBounds.
Proof.
  intros [Hm Hmax] Hmode Hc Hh Hi Hbig Hpay.
  assert (Hover : forall m', connected (s m') = true -> inbox (s m') = payload ->
    socket_read data 0 (byte_val hi * 256 + byte_val lo) m' = Fault OutOfBounds).
  { intros m' C I. unfold socket_read, bind. cbn [get]. rewrite C, I. cbn [negb].
    unfold blit, in_range. rewrite length_take.
    rewrite (proj2 (Z.leb_gt (0 + _) _)) by lia. rewrite andb_false_r. reflexivity. }
  assert (H : wp (fun e => e = OutOfBounds) (response slave function data) (fun _ _ => False) m).
  2:{ unfold wp in H. destruct (response slave function data m) as [[? ?]|e]; [destruct H|congruence]. }
  assert (Hw : forall {A} (c : comp rlModbus A) Q st, wp no_fault c Q st ->
    wp (fun e => e = OutOfBounds) c Q st).
  { intros A c Q st. unfold wp. destruct (c st) as [[? ?]|e]; [auto|intros []]. }
  unfold response. apply wp_bind, wp_get. rewrite Hmode, Hc.
  cbn [negb andb Z.eqb MODBUS_RTU MODBUS_ASCII Pos.eqb].
  apply wp_bind, Hw. eapply (read_tel_all m 6 head); [exact Hc|exact Hi|lia|lia|].
  intros m1 E1 M1 C1 I1. cbn [Z.leb Z.compare].
  assert (Hlen1 : (256 <= length (tel m1))%nat)
    by (rewrite E1, length_app, length_drop; lia).
  apply wp_bind, Hw.
  eapply (read_tel_all m1 2 [sl; byte_of 24] ([hi; lo] ++ payload));
    [exact C1|exact I1|reflexivity|lia|].
  intros m2 E2 M2 C2 I2. cbn [Z.leb Z.compare].
  assert (Hlen2 : (256 <= length (tel m2))%nat)
    by (rewrite E2, length_app, length_drop; cbn; lia).
  apply wp_bind. eapply (wp_tel_get_app _ m2 0 []); [exact E2|reflexivity|].
  apply wp_bind. eapply (wp_tel_get_app _ m2 1 [sl]); [exact E2|reflexivity|].
  change (byte_val (byte_of 24)) with (code ReadFifoQueue).
  unfold response_data. rewrite decode_code.
  apply wp_bind, Hw. eapply (read_tel_all m2 2 [hi; lo] payload);
    [exact C2|exact I2|reflexivity|lia|].
  intros m3 E3 M3 C3 I3. cbn [Z.leb Z.compare].
  apply wp_bind. eapply (wp_tel_get_app _ m3 0 []); [exact E3|reflexivity|].
  apply wp_bind. eapply (wp_tel_get_app _ m3 1 [hi]); [exact E3|reflexivity|].
  unfold read_body, read_or_fail, wp, bind. rewrite (Hover m3 C3 I3). reflexivity.
Qed.

Lemma fifo_response_overflows_witness :
  response 1 3 (zeros 512)
    (sample_modbus MODBUS_RTU true ([x00; x00; x00; x00; x02; x03; x01; x18; x02; x01] ++ zeros 513))
  = Fault OutOfBounds.
Proof.
  apply (fifo_response_overflows _ [x00; x00; x00; x00; x02; x03] x01 x02 x01 (zeros 513));
    try reflexivity; try apply sample_well_formed; vm_compute; lia.
Defined.
