(* ===== verification/ScadaPackets.v ===== *)
(** The messages of the SCADA components: [common/scada_packets.h] and the
    constants of [common/def.h] they use.

    A message is the record of its header's fields; what follows a header at a
    position the code computes itself ([data] of a status message, the contents
    of a state transfer) is bytes. *)
From Stdlib Require Import ZArith Lia List Bool String.
From Stdlib Require Import Strings.Byte.
From stdpp Require Import base list.
From S2P Require Import Prelude Memory.

(** ** Constants *)
Definition MAX_LEN : Z := 10000.
Definition NUM_RTU : Z := 17.
Definition MAX_EMU_RTU : Z := 100.
Definition NUM_HMI : Z := 3.
Definition NUM_SM : Z := 6.
Definition SM_NUM_F : Z := 1.
Definition SM_NUM_K : Z := 1.
Definition MAX_SWITCHES : Z := 10.
Definition MAX_LINES : Z := 10.
Definition NUM_POINT : Z := 8.
Definition NUM_BREAKER : Z := 14.
Definition EMS_NUM_GENERATORS : Z := 6.
Definition JHU : Z := 1.
Definition PNNL : Z := 2.
Definition EMS : Z := 3.
Definition EMS_TARGET_SET : Z := 0.
Definition EMS_RTU_ID_BASE : Z := 11.
Definition PNNL_RTU_ID : Z := 10.
Definition PNNL_DATA_PADDING : Z := 4.
Definition RTU_DATA_PAYLOAD_LEN : Z := 64.
Definition SWITCH : Z := 0.
Definition TRANSFORMER : Z := 1.
Definition BREAKER : Z := 2.
Definition BREAKER_FLIP : Z := 3.
Definition BREAKER_ON : Z := 4.
Definition BREAKER_OFF : Z := 5.

(** ** Layout of the messages whose size the code uses *)
Definition t_seq_pair : ctype := TStruct [("incarnation", TInt32); ("seq_num", TInt32)]%string.
Definition t_ordinal : ctype :=
  TStruct [("ord_num", TInt32); ("event_idx", TInt32); ("event_tot", TInt32)]%string.
Definition t_sm_state : ctype := TStruct [("client", TInt32); ("num_fields", TInt32)]%string.

Definition t_scada_message : ctype :=
  TStruct [("sig", TArray 128 TByte); ("mt_num", TInt16); ("mt_index", TInt16);
           ("site_id", TInt32); ("machine_id", TInt32); ("len", TInt32); ("type", TInt32);
           ("incarnation", TInt32); ("monotonic_counter", TInt32)]%string.

(** The 104 entries are [MAX_EMU_RTU + NUM_HMI + 1]. *)
Definition t_state_xfer_msg : ctype :=
  TStruct [("ord", t_ordinal); ("target", TInt32); ("latest_update", TArray 104 t_seq_pair);
           ("num_clients", TInt32); ("state_size", TInt32)]%string.

Definition t_jhu_fields : ctype :=
  TStruct [("tx_status", TInt32); ("sw_status", TArray 10 TInt32); ("padd1", TInt32);
           ("padd2", TInt32); ("padd3", TInt32); ("padd4", TInt32); ("padd5", TInt32)]%string.

Definition t_pnnl_fields : ctype :=
  TStruct [("padd1", TInt32); ("point", TArray 8 TInt32); ("breaker_read", TArray 14 TByte);
           ("breaker_write", TArray 14 TByte)]%string.

Definition t_ems_fields : ctype :=
  TStruct [("id", TInt32); ("status", TInt32); ("max_generation", TInt32);
           ("curr_generation", TInt32); ("target_generation", TInt32);
           ("padd1", TArray 11 TInt32)]%string.

Definition sz_scada_message : Z := Eval vm_compute in sizeof t_scada_message.
Definition sz_state_xfer_msg : Z := Eval vm_compute in sizeof t_state_xfer_msg.
Definition sz_sm_state : Z := Eval vm_compute in sizeof t_sm_state.
Definition MAX_STATE_SIZE : Z := MAX_LEN - sz_scada_message - sz_state_xfer_msg.

Definition o_jhu_tx_status : Z := Eval vm_compute in offsetof t_jhu_fields "tx_status".
Definition o_jhu_sw_status : Z := Eval vm_compute in offsetof t_jhu_fields "sw_status".
Definition o_pnnl_breaker_write : Z := Eval vm_compute in offsetof t_pnnl_fields "breaker_write".
Definition o_ems_id : Z := Eval vm_compute in offsetof t_ems_fields "id".
Definition o_ems_target_generation : Z := Eval vm_compute in offsetof t_ems_fields "target_generation".

(** The three readings of the 64 bytes of [data] have the same size. *)
Lemma scenario_sizes :
  sizeof t_jhu_fields = RTU_DATA_PAYLOAD_LEN /\ sizeof t_pnnl_fields = RTU_DATA_PAYLOAD_LEN /\
  sizeof t_ems_fields = RTU_DATA_PAYLOAD_LEN.
Proof. repeat split; reflexivity. Qed.

(** ** The messages *)
Record seq_pair := mkSeq { sp_incarnation : Z; sp_seq_num : Z }.

Record ordinal := mkOrd { ord_num : Z; event_idx : Z; event_tot : Z }.

#[global] Instance seq_pair_eq_dec : EqDecision seq_pair.
Proof. solve_decision. Defined.

#[global] Instance ordinal_eq_dec : EqDecision ordinal.
Proof. solve_decision. Defined.

(** [Seq_Pair_Compare]: by incarnation, then by number. *)
Definition Seq_Pair_Compare (p1 p2 : seq_pair) : Z :=
  if sp_incarnation p1 <? sp_incarnation p2 then -1
  else if sp_incarnation p2 <? sp_incarnation p1 then 1
  else if sp_seq_num p1 <? sp_seq_num p2 then -1
  else if sp_seq_num p2 <? sp_seq_num p1 then 1
  else 0.

Record rtu_status_msg := mkRtuStatus {
  rs_seq : seq_pair; rs_rtu_id : Z; rs_scen_type : Z; rs_sec : Z; rs_usec : Z;
  rs_data : list byte }.

Record feedback_msg := mkFeed {
  fd_seq : seq_pair; fd_scen_type : Z; fd_type : Z; fd_sub : Z; fd_rtu : Z; fd_offset : Z;
  fd_val : Z }.

Record hmi_update_msg := mkHmiUpdate {
  hu_seq : seq_pair; hu_scen_type : Z; hu_sec : Z; hu_usec : Z; hu_status : list byte }.

Record hmi_command_msg := mkHmiCommand {
  hc_seq : seq_pair; hc_hmi_id : Z; hc_scen_type : Z; hc_type : Z; hc_ttip_pos : Z }.

Record benchmark_msg := mkBenchmark {
  bm_seq : seq_pair; bm_sender : Z; ping_sec : Z; ping_usec : Z; pong_sec : Z; pong_usec : Z }.

Record state_request_msg := mkStateRequest { sr_target : Z; sr_latest_update : list seq_pair }.

(** [sx_contents]: the bytes after the header; of a received message, all the
    bytes to the end of the receive buffer. *)
Record state_xfer_msg := mkStateXfer {
  sx_ord : ordinal; sx_target : Z; sx_latest_update : list seq_pair; sx_num_clients : Z;
  sx_state_size : Z; sx_contents : list byte }.

(** ** Their constructors *)
Definition PKT_Construct_RTU_Feedback_Msg (seq : seq_pair) (scen_type type sub rtu offset val : Z)
    : feedback_msg :=
  {| fd_seq := seq; fd_scen_type := scen_type; fd_type := type; fd_sub := sub; fd_rtu := rtu;
     fd_offset := offset; fd_val := val |}.

Definition PKT_Construct_HMI_Update_Msg (seq : seq_pair) (scen_type : Z) (stat : list byte)
    (sec usec : Z) : hmi_update_msg :=
  {| hu_seq := seq; hu_scen_type := scen_type; hu_sec := sec; hu_usec := usec; hu_status := stat |}.

Definition PKT_Construct_State_Xfer_Msg (targ num_clients : Z) (latest_update : list seq_pair)
    (state : list byte) : state_xfer_msg :=
  {| sx_ord := mkOrd 0 0 0; sx_target := targ; sx_latest_update := latest_update;
     sx_num_clients := num_clients; sx_state_size := Z.of_nat (length state);
     sx_contents := state |}.
