(* ===== verification/ModbusMaster.v ===== *)
(** The Modbus proxy of the field devices: [modbus/modbus_master.cpp].

    The proxy polls its RTUs, packs what they answer into the status messages it
    sends to the SCADA masters over IPC, and turns the masters' feedback messages
    into Modbus writes.  The configuration ([init]) is taken as read: the parser
    of the configuration file is a library. *)
From Stdlib Require Import ZArith Lia List Bool String.
From Stdlib Require Import Strings.Byte.
From stdpp Require Import base list.
From S2P Require Import Prelude Memory RlModbus ScadaPackets.

(** ** The messages, as the proxy fills them in *)
Record jhu_fields := mkJhu { tx_status : Z; sw_status : list Z }.

Record pnnl_fields := mkPnnl {
  point : list Z; breaker_read : list Z; breaker_write : list Z }.

Record ems_fields := mkEms {
  ems_id : Z; status : Z; max_generation : Z; curr_generation : Z; target_generation : Z }.

(** The [data] of an [rtu_data_msg], by scenario. *)
Inductive rtu_fields :=
| Jhu_data (d : jhu_fields)
| Pnnl_data (d : pnnl_fields)
| Ems_data (d : ems_fields).

(** The arrays have their declared lengths. *)
Definition fields_ok (d : rtu_fields) : Prop :=
  match d with
  | Jhu_data d => Z.of_nat (length (sw_status d)) = MAX_SWITCHES
  | Pnnl_data d => Z.of_nat (length (point d)) = NUM_POINT /\
      Z.of_nat (length (breaker_read d)) = NUM_BREAKER /\
      Z.of_nat (length (breaker_write d)) = NUM_BREAKER
  | Ems_data _ => True
  end.

Record rtu_data_msg := mkRtu {
  seq_incarnation : Z; seq_seq_num : Z; rtu_id : Z; data_ : rtu_fields }.

Definition scen_type (m : rtu_data_msg) : Z :=
  match data_ m with Jhu_data _ => JHU | Pnnl_data _ => PNNL | Ems_data _ => EMS end.

Record rtu_feedback_msg := mkFeedback { fb_type : Z; fb_rtu : Z; fb_offset : Z; fb_val : Z }.

(** One poll of an RTU: [namelist_count[j]] and its fellows. *)
Record cycle := mkCycle {
  c_count : Z; c_slave : Z; c_function : Z; c_start_adr : Z; c_datasize : Z }.

(** What [init] makes of the name of a cycle; other names stop the program. *)
Definition cycle_of (var : string) (count slave start_adr : Z) : option cycle :=
  let mk f n := Some {| c_count := count; c_slave := slave; c_function := code f;
                        c_start_adr := start_adr; c_datasize := n |} in
  if String.eqb var "coilStatus" then mk ReadCoilStatus 1
  else if String.eqb var "inputStatus" then mk ReadInputStatus 1
  else if String.eqb var "holdingRegisters" then mk ReadHoldingRegisters 16
  else if String.eqb var "inputRegisters" then mk ReadInputRegisters 16
  else None.

Definition scenario_of (scen : string) : option Z :=
  if String.eqb scen "JHU" then Some JHU
  else if String.eqb scen "PNNL" then Some PNNL
  else if String.eqb scen "EMS" then Some EMS
  else None.

(** ** The globals *)
Record proxy := mkProxy {
  poll_slave_counter : list Z;
  namelist_arr : list (list cycle);
  mod_array : list rlModbus;
  subs : list rtu_data_msg;
  ipc_sent : list rtu_data_msg }.

Definition num_rtu (g : proxy) : Z := Z.of_nat (length (subs g)).

Definition set_counter (c : list Z) (g : proxy) : proxy :=
  {| poll_slave_counter := c; namelist_arr := namelist_arr g; mod_array := mod_array g;
     subs := subs g; ipc_sent := ipc_sent g |}.

Definition set_mods (ms : list rlModbus) (g : proxy) : proxy :=
  {| poll_slave_counter := poll_slave_counter g; namelist_arr := namelist_arr g;
     mod_array := ms; subs := subs g; ipc_sent := ipc_sent g |}.

Definition set_subs (ss : list rtu_data_msg) (g : proxy) : proxy :=
  {| poll_slave_counter := poll_slave_counter g; namelist_arr := namelist_arr g;
     mod_array := mod_array g; subs := ss; ipc_sent := ipc_sent g |}.

Definition add_sent (m : rtu_data_msg) (g : proxy) : proxy :=
  {| poll_slave_counter := poll_slave_counter g; namelist_arr := namelist_arr g;
     mod_array := mod_array g; subs := subs g; ipc_sent := ipc_sent g ++ [m] |}.

Definition with_data (d : rtu_fields) (m : rtu_data_msg) : rtu_data_msg :=
  {| seq_incarnation := seq_incarnation m; seq_seq_num := seq_seq_num m;
     rtu_id := rtu_id m; data_ := d |}.

(** [mod_array[i]->f(...)] *)
Definition on_mod {A} (i : Z) (c : comp rlModbus A) : comp proxy A :=
  g <- get ;;
  m <- or_oob (aget (mod_array g) i) ;;
  match c m with
  | Ret (a, m') => ms <- or_oob (aset (mod_array g) i m') ;; put (set_mods ms g) ;;; ret a
  | Fault e => raise e
  end.

Definition get_cycle (i j : Z) : comp proxy cycle :=
  g <- get ;;
  cs <- or_oob (aget (namelist_arr g) i) ;;
  or_oob (aget cs j).

(** ** To the SCADA master *)
(** The time stamps are the clock's. *)
Definition Write_To_SM (idx : Z) : comp proxy unit :=
  g <- get ;;
  m <- or_oob (aget (subs g) idx) ;;
  put (add_sent m g) ;;;
  g <- get ;;
  ss <- or_oob (aset (subs g) idx
    {| seq_incarnation := seq_incarnation m; seq_seq_num := wrap32 (seq_seq_num m + 1);
       rtu_id := rtu_id m; data_ := data_ m |}) ;;
  put (set_subs ss g).

(** ** From the SCADA master *)
(** [for (i = 0; i < num_rtu; i++) if (subs[i].rtu_id == slave) ...] *)
Fixpoint find_rtu (ss : list rtu_data_msg) (i slave : Z) : Z :=
  match ss with
  | [] => -1
  | m :: ss => if rtu_id m =? wrap32 slave then i else find_rtu ss (i + 1) slave
  end.

(** The function and the four bytes of the request; [None] is the usage error.
    [buf] is the 10000-byte buffer the message came in, reused for the answer. *)
Definition feedback_request (type adr val : Z) : option (function_code * list byte) :=
  let addr := [byte_of (Z.quot adr 256); byte_of (Z.land adr 255)] in
  let value := [byte_of (Z.quot val 256); byte_of (Z.land val 255)] in
  if (type =? TRANSFORMER) || (type =? BREAKER) then
    Some (ForceSingleCoil, addr ++ [if negb (val =? 0) then byte_of 255 else x00; x00])
  else if type =? SWITCH then Some (PresetSingleRegister, addr ++ value)
  else if type =? EMS_TARGET_SET then Some (PresetSingleRegister, addr ++ value)
  else None.

Definition Process_SM_Msg (feed : rtu_feedback_msg) (buf : list byte) : comp proxy unit :=
  let slave := sint32 (fb_rtu feed) in
  let adr := sint32 (fb_offset feed) in
  let val := fb_val feed in
  match feedback_request (fb_type feed) adr val with
  | None => ret tt
  | Some (function, data) =>
      g <- get ;;
      let which_mod := find_rtu (subs g) 0 slave in
      if which_mod =? -1 then ret tt else
      on_mod which_mod (write slave (code function) data 4 None) ;;;
      on_mod which_mod (response slave (code function) buf) ;;;
      ret tt
  end.

(** ** Polling *)
Definition modbusCycle (slave function start_adr num_register : Z) (data : list byte) (i : Z)
    : comp proxy (Z * list byte) :=
  if (slave <? 0) || (256 <=? slave) then ret (-1, data) else
  g <- get ;;
  n <- or_oob (aget (poll_slave_counter g) slave) ;;
  skip <- (if 0 <? n then
             c <- or_oob (aset (poll_slave_counter g) slave (n - 1)) ;;
             put (set_counter c g) ;;; ret (negb (n - 1 =? 0))
           else ret false) ;;
  if (skip : bool) then ret (-1, data) else
  r <- on_mod i (request slave function start_adr num_register) ;;
  if 0 <=? r then
    r <- on_mod i (response slave function data) ;;
    ret (if negb (r_function r =? function) then -1 else r_ret r, r_data r)
  else ret (r, data).

(** [data[ind]] *)
Definition datum (data : list byte) (ind : Z) : comp proxy Z :=
  b <- or_oob (aget data ind) ;; ret (byte_val b).

Section ReadModbus.
Context (cy : cycle) (data : list byte).

(** The JHU loop: [val] is what the last turn reads. *)
Definition jhu_val : comp proxy (option Z) :=
  run while_ (S (Z.to_nat (c_count cy)))
        (fun '(i1, ind, val) => i1 <? c_count cy)
        (fun '(i1, ind, val) =>
           if c_datasize cy =? 1 then
             val <- datum data ind ;;
             ret (inl (i1 + 8, ind + 1, val))
           else if c_datasize cy =? 16 then
             hi <- datum data ind ;;
             lo <- datum data (ind + 1) ;;
             ret (inl (i1 + 1, ind + 2, hi * 256 + lo))
           else ret (inr None))
        (0, 0, 0)
  as (_, _, val) ;;
  ret (Some val).

(** [c_arr[itr] = (val >> k) & 1] for the bits of a byte that are status points. *)
Definition unpack_bits (c_arr : list Z) (itr val tmp : Z) : comp proxy (list Z * Z) :=
  run for_ tmp
        (fun '(k, c_arr, itr) =>
           c_arr <- or_oob (aset c_arr itr (Z.land (Z.shiftr val k) 1)) ;;
           ret (inl (k + 1, c_arr, itr + 1)))
        (0, c_arr, itr)
  as (_, c_arr, itr) ;;
  ret (c_arr, itr).

(** The PNNL loop over the arrays the function selects; a null pointer is an
    array without elements. *)
Definition pnnl_loop (c_arr s_arr : list Z) : comp proxy (option (list Z * list Z)) :=
  run while_ (S (Z.to_nat (c_count cy)))
        (fun '(i1, ind, itr, c_arr, s_arr) => i1 <? c_count cy)
        (fun '(i1, ind, itr, c_arr, s_arr) =>
           if c_datasize cy =? 1 then
             val <- datum data ind ;;
             let i1 := i1 + 8 in
             let tmp := if c_count cy <? i1 then Z.rem (c_count cy) 8 else 8 in
             r <- unpack_bits c_arr itr val tmp ;;
             ret (inl (i1, ind + 1, snd r, fst r, s_arr))
           else if c_datasize cy =? 16 then
             b0 <- datum data ind ;;
             b1 <- datum data (ind + 1) ;;
             b2 <- datum data (ind + 2) ;;
             b3 <- datum data (ind + 3) ;;
             s_arr <- or_oob (aset s_arr itr
               (wrap32 (Z.shiftl b0 8 + b1 + Z.shiftl b2 24 + Z.shiftl b3 16))) ;;
             ret (inl (i1 + 2, ind + 4, itr + 1, c_arr, s_arr))
           else ret (inr None))
        (0, 0, 0, c_arr, s_arr)
  as (_, _, _, c_arr, s_arr) ;;
  ret (Some (c_arr, s_arr)).

(** What the answer to cycle [j] makes of the status; [None] is the error return. *)
Definition update_fields (j : Z) (d : rtu_fields) : comp proxy (option rtu_fields) :=
  match d with
  | Jhu_data d =>
      v <- jhu_val ;;
      match v with
      | None => ret None
      | Some val =>
          if j =? 0 then ret (Some (Jhu_data {| tx_status := val; sw_status := sw_status d |}))
          else
            sw <- or_oob (aset (sw_status d) (j - 1) val) ;;
            ret (Some (Jhu_data {| tx_status := tx_status d; sw_status := sw |}))
      end
  | Pnnl_data d =>
      if c_function cy =? code ReadCoilStatus then
        r <- pnnl_loop (breaker_write d) [] ;;
        ret match r with
            | None => None
            | Some (c_arr, _) => Some (Pnnl_data {| point := point d;
                breaker_read := breaker_read d; breaker_write := c_arr |})
            end
      else if c_function cy =? code ReadInputStatus then
        r <- pnnl_loop (breaker_read d) [] ;;
        ret match r with
            | None => None
            | Some (c_arr, _) => Some (Pnnl_data {| point := point d;
                breaker_read := c_arr; breaker_write := breaker_write d |})
            end
      else if c_function cy =? code ReadHoldingRegisters then
        r <- pnnl_loop [] (point d) ;;
        ret match r with
            | None => None
            | Some (_, s_arr) => Some (Pnnl_data {| point := s_arr;
                breaker_read := breaker_read d; breaker_write := breaker_write d |})
            end
      else
        r <- pnnl_loop [] [] ;;
        ret match r with None => None | Some _ => Some (Pnnl_data d) end
  | Ems_data d =>
      if c_function cy =? code ReadCoilStatus then
        b0 <- datum data 0 ;;
        ret (Some (Ems_data {| ems_id := ems_id d; status := b0;
          max_generation := max_generation d; curr_generation := curr_generation d;
          target_generation := target_generation d |}))
      else if c_function cy =? code ReadInputRegisters then
        b0 <- datum data 0 ;; b1 <- datum data 1 ;; b2 <- datum data 2 ;;
        b3 <- datum data 3 ;; b4 <- datum data 4 ;; b5 <- datum data 5 ;;
        ret (Some (Ems_data {| ems_id := Z.shiftl b4 8 + b5; status := status d;
          max_generation := Z.shiftl b0 8 + b1; curr_generation := Z.shiftl b2 8 + b3;
          target_generation := target_generation d |}))
      else if c_function cy =? code ReadHoldingRegisters then
        b0 <- datum data 0 ;; b1 <- datum data 1 ;;
        ret (Some (Ems_data {| ems_id := ems_id d; status := status d;
          max_generation := max_generation d; curr_generation := curr_generation d;
          target_generation := Z.shiftl b0 8 + b1 |}))
      else ret (Some (Ems_data d))
  end.
End ReadModbus.

(** [stack] is what the 512 bytes of [data] hold before. *)
Definition readModbus (stack : list byte) (i j : Z) : comp proxy Z :=
  cy <- get_cycle i j ;;
  r <- modbusCycle (c_slave cy) (c_function cy) (c_start_adr cy) (c_count cy) stack i ;;
  if fst r <? 0 then ret (fst r) else
  g <- get ;;
  m <- or_oob (aget (subs g) i) ;;
  d <- update_fields cy (snd r) j (data_ m) ;;
  match d with
  | None => ret (-1)
  | Some d =>
      g <- get ;;
      ss <- or_oob (aset (subs g) i (with_data d m)) ;;
      put (set_subs ss g) ;;; ret 0
  end.

(** The body of the loop of [main] for one RTU, and a polling round. *)
Definition poll_rtu (stack : Z -> Z -> list byte) (i : Z) : comp proxy unit :=
  g <- get ;;
  cs <- or_oob (aget (namelist_arr g) i) ;;
  run for_ (Z.of_nat (length cs))
        (fun '(j, readerr) =>
           r <- readModbus (stack i j) i j ;;
           ret (inl (j + 1, if r <? 0 then 1 else readerr)))
        (0, 0)
  as (_, readerr) ;;
  if readerr =? 0 then Write_To_SM i else ret tt.

Definition poll_round (stack : Z -> Z -> list byte) : comp proxy unit :=
  g <- get ;;
  run for_ (num_rtu g) (fun i => poll_rtu stack i ;;; ret (inl (i + 1))) 0
  as _ ;; ret tt.
