(* ===== verification/ModbusMasterProps.v ===== *)
(** Properties of the Modbus proxy: status points and registers are unpacked
    where they belong, feedback reaches the RTU it names, and the status messages
    of an RTU are numbered consecutively. *)
From Stdlib Require Import ZArith Lia List Bool String.
From Stdlib Require Import Strings.Byte.
From stdpp Require Import base list.
From S2P Require Import Prelude Memory RlModbus RlModbusCorrect RlModbusProps ScadaPackets ModbusMaster.

(** ** Unpacking status points *)
(** Point [k] of an answer: bit [k mod 8] of byte [k / 8]. *)
Definition status_point (data : list byte) (k : Z) : Z :=
  match aget data (k / 8) with
  | Some b => Z.land (Z.shiftr (byte_val b) (k mod 8)) 1
  | None => 0
  end.

(** [c'] is [c] with the first [n] points stored. *)
Definition points_stored (data : list byte) (n : Z) (c c' : list Z) : Prop :=
  length c' = length c /\
  forall k : nat, c' !! k = if decide (Z.of_nat k < n) then Some (status_point data (Z.of_nat k))
                            else c !! k.

Lemma points_stored_set data n c c' :
  points_stored data n c c' -> 0 <= n < Z.of_nat (length c) ->
  points_stored data (n + 1) c (<[Z.to_nat n := status_point data n]> c').
Proof.
  intros [Hl H] Hn. split; [rewrite length_insert; exact Hl|]. intros k.
  destruct (decide (Z.of_nat k = n)) as [<-|Hne].
  - rewrite Nat2Z.id, list_lookup_insert_eq by lia. rewrite decide_True by lia. reflexivity.
  - rewrite list_lookup_insert_ne by lia. rewrite H.
    destruct (decide (Z.of_nat k < n)), (decide (Z.of_nat k < n + 1)); lia || reflexivity.
Qed.

Lemma unpack_bits_spec data b ind tmp c c' g Q :
  0 <= ind -> 0 <= tmp <= 8 -> aget data ind = Some b ->
  8 * ind + tmp <= Z.of_nat (length c) -> points_stored data (8 * ind) c c' ->
  (forall c'', points_stored data (8 * ind + tmp) c c'' -> Q (c'', 8 * ind + tmp) g) ->
  wp no_fault (unpack_bits c' (8 * ind) (byte_val b) tmp) Q g.
Proof.
  intros Hi Ht Eb Hc Hp HQ. unfold unpack_bits. apply wp_loop_then.
  apply (wp_for no_fault (fun n '(k, a, itr) g' => g' = g /\ k = n /\ itr = 8 * ind + n /\
           points_stored data (8 * ind + n) c a)).
  - intros n [[k a] itr] g' Hn (-> & -> & -> & Ha). pose proof (proj1 Ha) as Hla.
    rewrite aset_Some by lia. apply wp_bind, wp_ret, wp_ret. cbn [turn].
    split; [reflexivity|]. split; [reflexivity|]. split; [lia|].
    replace (Z.land (Z.shiftr (byte_val b) n) 1) with (status_point data (8 * ind + n)).
    + replace (8 * ind + (n + 1)) with (8 * ind + n + 1) by lia.
      apply points_stored_set; [exact Ha|lia].
    + unfold status_point. rewrite (Z.add_comm (8 * ind)), Z.mul_comm, Z.div_add, Z.mod_add by lia.
      rewrite (Z.div_small n 8), (Z.mod_small n 8) by lia. rewrite Z.add_0_l, Eb. reflexivity.
  - split; [reflexivity|]. split; [reflexivity|]. split; [lia|]. rewrite Z.add_0_r. exact Hp.
  - intros [[k a] itr] g' (-> & _ & -> & Ha). apply wp_ret.
    replace (Z.max 0 tmp) with tmp in * by lia. apply HQ, Ha.
Qed.

Lemma pnnl_bits_spec cy data c s g Q :
  c_datasize cy = 1 -> 0 <= c_count cy <= Z.of_nat (length c) ->
  c_count cy <= 8 * Z.of_nat (length data) ->
  (forall c', points_stored data (c_count cy) c c' -> Q (Some (c', s)) g) ->
  wp no_fault (pnnl_loop cy data c s) Q g.
Proof.
  intros Hd Hn Hdata HQ. unfold pnnl_loop. rewrite Hd. apply wp_loop_then.
  apply (wp_while no_fault
    (fun '(i1, ind, itr, a, b) g' => g' = g /\ b = s /\ 0 <= ind /\ i1 = 8 * ind /\
       itr = Z.min i1 (c_count cy) /\ points_stored data itr c a /\ i1 < c_count cy + 8)
    (fun '(i1, ind, itr, a, b) => Z.max 0 (c_count cy - i1))).
  - intros [[[[i1 ind] itr] a] b] g' (-> & -> & Hind & -> & Eitr & Hp & Hlt) Hc.
    apply Z.ltb_lt in Hc. rewrite Z.min_l in Eitr by lia. subst itr. cbn [Z.eqb Pos.eqb].
    destruct (aget_is_Some data ind ltac:(lia)) as [x Ex].
    unfold datum at 1. rewrite Ex. apply wp_bind, wp_bind, wp_ret, wp_ret.
    set (tmp := if c_count cy <? 8 * ind + 8 then Z.rem (c_count cy) 8 else 8).
    assert (Htmp : tmp = Z.min 8 (c_count cy - 8 * ind)).
    { subst tmp. destruct (Z.ltb_spec (c_count cy) (8 * ind + 8)); [|lia].
      rewrite Z.rem_mod_nonneg by lia.
      replace (c_count cy) with ((c_count cy - 8 * ind) + ind * 8) at 1 by lia.
      rewrite Z.mod_add, Z.mod_small by lia. lia. }
    apply wp_bind. apply (unpack_bits_spec data x ind tmp c); [exact Hind|lia|exact Ex|lia|exact Hp|].
    intros c'' Hc''. apply wp_ret. cbn [turn fst snd].
    split; [|lia]. split; [reflexivity|]. split; [reflexivity|]. split; [lia|].
    split; [lia|]. split; [lia|]. split; [exact Hc''|lia].
  - intros [[[[i1 ind] itr] a] b] g' (-> & -> & _ & _ & Eitr & Hp & _) Hc.
    apply Z.ltb_ge in Hc. apply wp_ret, HQ. rewrite Z.min_r in Eitr by lia. subst itr. exact Hp.
  - split; [reflexivity|]. split; [reflexivity|]. split; [lia|]. split; [lia|].
    split; [lia|]. split; [|lia]. split; [reflexivity|]. intros k.
    rewrite decide_False by lia. reflexivity.
  - lia.
Qed.

(** PNNL: a poll of coils or of input status whose points fit the breaker
    array stores point k of the answer, bit k mod 8 of its byte k / 8, into
    element k, and leaves the other elements and the other arrays alone. *)
Theorem breakers_unpacked (cy : cycle) (data : list byte) (j : Z) (d : pnnl_fields) (g : proxy) :
  fields_ok (Pnnl_data d) -> c_datasize cy = 1 ->
  c_function cy = code ReadCoilStatus \/ c_function cy = code ReadInputStatus ->
  0 <= c_count cy <= NUM_BREAKER -> c_count cy <= 8 * Z.of_nat (length data) ->
  exists d', update_fields cy data j (Pnnl_data d) g = Ret (Some (Pnnl_data d'), g) /\
    fields_ok (Pnnl_data d') /\ point d' = point d /\
    if c_function cy =? code ReadCoilStatus
    then breaker_read d' = breaker_read d /\
         points_stored data (c_count cy) (breaker_write d) (breaker_write d')
    else breaker_write d' = breaker_write d /\
         points_stored data (c_count cy) (breaker_read d) (breaker_read d').
Proof.
  intros (Hp & Hr & Hw) Hd Hf Hn Hdata.
  destruct (wp_run (update_fields cy data j (Pnnl_data d)) (fun r g' => g' = g /\
    exists d', r = Some (Pnnl_data d') /\ fields_ok (Pnnl_data d') /\ point d' = point d /\
    if c_function cy =? code ReadCoilStatus
    then breaker_read d' = breaker_read d /\
         points_stored data (c_count cy) (breaker_write d) (breaker_write d')
    else breaker_write d' = breaker_write d /\
         points_stored data (c_count cy) (breaker_read d) (breaker_read d')) g)
    as (r & g' & E & -> & d' & -> & H); [|eauto].
  unfold update_fields. destruct (c_function cy =? code ReadCoilStatus) eqn:Ef.
  - apply wp_bind, pnnl_bits_spec; [exact Hd|lia|exact Hdata|]. intros c' Hc'.
    apply wp_ret. split; [reflexivity|]. eexists. split; [reflexivity|]. cbn.
    split; [|auto]. destruct Hc' as [-> _]. auto.
  - destruct Hf as [Hf|Hf]; [rewrite Hf in Ef; discriminate|]. rewrite Hf, Z.eqb_refl.
    apply wp_bind, pnnl_bits_spec; [exact Hd|lia|exact Hdata|]. intros c' Hc'.
    apply wp_ret. split; [reflexivity|]. eexists. split; [reflexivity|]. cbn.
    split; [|auto]. destruct Hc' as [-> _]. auto.
Qed.

Definition sample_pnnl : pnnl_fields :=
  {| point := repeat 7 8; breaker_read := repeat 9 14; breaker_write := repeat 9 14 |}.

Definition sample_proxy : proxy :=
  {| poll_slave_counter := repeat 0 256; namelist_arr := [[]];
     mod_array := [sample_modbus MODBUS_RTU true []];
     subs := [mkRtu 0 1 10 (Pnnl_data sample_pnnl)]; ipc_sent := [] |}.

Definition sample_cycle (f : function_code) (count datasize : Z) : cycle :=
  {| c_count := count; c_slave := 10; c_function := code f; c_start_adr := 0;
     c_datasize := datasize |}.

Lemma breakers_unpacked_witness :
  exists d', update_fields (sample_cycle ReadInputStatus 11 1) [x0f; x05] 1 (Pnnl_data sample_pnnl)
      sample_proxy = Ret (Some (Pnnl_data d'), sample_proxy) /\
    fields_ok (Pnnl_data d') /\ point d' = point sample_pnnl /\
    if code ReadInputStatus =? code ReadCoilStatus
    then breaker_read d' = breaker_read sample_pnnl /\
         points_stored [x0f; x05] 11 (breaker_write sample_pnnl) (breaker_write d')
    else breaker_write d' = breaker_write sample_pnnl /\
         points_stored [x0f; x05] 11 (breaker_read sample_pnnl) (breaker_read d').
Proof.
  apply (breakers_unpacked (sample_cycle ReadInputStatus 11 1) [x0f; x05] 1 sample_pnnl
           sample_proxy); cbn; unfold NUM_BREAKER; try lia; auto.
Defined.

(** Byte by byte, for 11 points. *)
Example breakers_unpacked_sample :
  update_fields (sample_cycle ReadInputStatus 11 1) [x0f; x05] 1 (Pnnl_data sample_pnnl) sample_proxy
  = Ret (Some (Pnnl_data {| point := repeat 7 8;
      breaker_read := [1; 1; 1; 1; 0; 0; 0; 0; 1; 0; 1; 9; 9; 9];
      breaker_write := repeat 9 14 |}), sample_proxy).
Proof. vm_compute. reflexivity. Qed.

(** ** Commands *)
(** The telegram a feedback message becomes. *)
Definition command_frame (feed : rtu_feedback_msg) (f : function_code) (data : list byte)
    : list byte :=
  modbus_header 4 (sint32 (fb_rtu feed)) (code f) None ++ data.

Lemma find_rtu_spec ss slave : forall i,
  (find_rtu ss i slave = -1 /\ forall m, m ∈ ss -> rtu_id m <> wrap32 slave) \/
  exists k m, find_rtu ss i slave = i + Z.of_nat k /\ ss !! k = Some m /\
    rtu_id m = wrap32 slave /\ forall k' m', (k' < k)%nat -> ss !! k' = Some m' ->
    rtu_id m' <> wrap32 slave.
Proof.
  induction ss as [|m ss IH]; intros i; cbn [find_rtu].
  - left. split; [reflexivity|]. intros m Hm. apply elem_of_nil in Hm. contradiction.
  - destruct (Z.eqb_spec (rtu_id m) (wrap32 slave)) as [E|E].
    + right. exists 0%nat, m. split; [lia|]. split; [reflexivity|]. split; [exact E|].
      intros k' m' Hk'. lia.
    + destruct (IH (i + 1)) as [[-> H]|(k & m1 & -> & E1 & E2 & H)].
      * left. split; [reflexivity|]. intros m' Hm'. apply elem_of_cons in Hm' as [->|Hm']; auto.
      * right. exists (S k), m1. split; [lia|]. split; [exact E1|]. split; [exact E2|].
        intros [|k'] m' Hk' E'; [injection E' as <-; exact E|]. apply (H k' m'); [lia|exact E'].
Qed.

Lemma feedback_request_length type adr val f data :
  feedback_request type adr val = Some (f, data) -> length data = 4%nat.
Proof. unfold feedback_request. repeat case_match; intros [= <- <-]; reflexivity. Qed.

Lemma wp_on_mod {A} i (c : comp rlModbus A) m Q g :
  mod_array g !! i = Some m ->
  wp no_fault c (fun a m' => Q a (set_mods (<[i := m']> (mod_array g)) g)) m ->
  wp no_fault (on_mod (Z.of_nat i) c) Q g.
Proof.
  intros Em H. pose proof (lookup_lt_Some _ _ _ Em). unfold on_mod, wp, bind. cbn [get].
  rewrite (aget_lookup _ _ _ Em). cbn. unfold wp in H. destruct (c m) as [[a m']|e]; [|exact H].
  rewrite aset_Some by lia. cbn. rewrite Nat2Z.id. exact H.
Qed.

(** Feedback: a command of the SCADA masters for a monitored RTU whose
    connection works is written to that RTU, function and arguments as the type
    of the command asks, and to no other, whatever the RTU answers (but a FIFO
    queue); the status of every RTU and what was sent to the masters stay as they are. *)
Theorem feedback_reaches_rtu (g : proxy) (feed : rtu_feedback_msg) (buf : list byte)
    (f : function_code) (data : list byte) (i : nat) (rtu : rtu_data_msg) (m : rlModbus) :
  feedback_request (fb_type feed) (sint32 (fb_offset feed)) (fb_val feed) = Some (f, data) ->
  0 <= fb_rtu feed < 256 -> subs g !! i = Some rtu -> rtu_id rtu = fb_rtu feed ->
  (forall k other, (k < i)%nat -> subs g !! k = Some other -> rtu_id other <> fb_rtu feed) ->
  mod_array g !! i = Some m -> well_formed m -> mode m = MODBUS_RTU ->
  link_up m = true -> can_send (s m) = true -> inbox (s m) !! 7%nat <> Some (byte_of 24) ->
  (256 <= length buf)%nat ->
  exists g', Process_SM_Msg feed buf g = Ret (tt, g') /\
    subs g' = subs g /\ ipc_sent g' = ipc_sent g /\
    length (mod_array g') = length (mod_array g) /\
    (forall k, k <> i -> mod_array g' !! k = mod_array g !! k) /\
    exists m', mod_array g' !! i = Some m' /\
      outbox (s m') = outbox (s m) ++ command_frame feed f data.
Proof.
  intros Hreq Hrtu Hi Hid Hfirst Hm Hwf Hmode Hup Hcs Hfifo Hbuf.
  pose proof (feedback_request_length _ _ _ _ _ Hreq) as Hlen.
  assert (Hslave : sint32 (fb_rtu feed) = fb_rtu feed).
  { unfold sint32. rewrite wrap32_small by (unfold two32; lia).
    destruct (Z.ltb_spec (fb_rtu feed) 2147483648); lia. }
  assert (Hfind : find_rtu (subs g) 0 (sint32 (fb_rtu feed)) = Z.of_nat i).
  { rewrite Hslave.
    destruct (find_rtu_spec (subs g) (fb_rtu feed) 0) as [[_ H]|(k & m1 & -> & E1 & E2 & H)];
      rewrite wrap32_small in * by (unfold two32; lia).
    - exfalso. apply (H rtu); [eapply list_elem_of_lookup_2; exact Hi|exact Hid].
    - destruct (lt_eq_lt_dec k i) as [[Hlt| ->]|Hgt]; [|reflexivity|].
      + exfalso. exact (Hfirst k m1 Hlt E1 E2).
      + exfalso. exact (H i rtu Hgt Hi Hid). }
  destruct (wp_run (Process_SM_Msg feed buf) (fun _ g' =>
    subs g' = subs g /\ ipc_sent g' = ipc_sent g /\
    length (mod_array g') = length (mod_array g) /\
    (forall k, k <> i -> mod_array g' !! k = mod_array g !! k) /\
    exists m', mod_array g' !! i = Some m' /\
      outbox (s m') = outbox (s m) ++ command_frame feed f data) g) as ([] & g' & E & H); [|eauto].
  unfold Process_SM_Msg. rewrite Hreq. apply wp_bind, wp_get. rewrite Hfind.
  destruct (Z.eqb_spec (Z.of_nat i) (-1)); [lia|]. pose proof (lookup_lt_Some _ _ _ Hm) as Hlt.
  apply wp_bind, (wp_on_mod i _ m); [exact Hm|].
  replace 4 with (Z.of_nat (length data)) by lia.
  apply write_rtu_full; [exact Hwf|exact Hmode|rewrite Hslave; lia|].
  intros r m1 I1 Hso Hr. rewrite Hup, Hcs in Hr.
  rewrite (proj2 (Z.leb_le _ _)) in Hr by (destruct Hwf; lia). destruct Hr as [_ Ho].
  apply wp_bind, (wp_on_mod i _ m1); [cbn; apply list_lookup_insert_eq; exact Hlt|].
  apply response_any; [apply (same_object_wf m); assumption|exact Hbuf|rewrite I1; exact Hfifo|].
  intros r2 m2 (F1 & _) _. apply wp_ret. cbn.
  split; [reflexivity|]. split; [reflexivity|]. rewrite !length_insert.
  split; [reflexivity|]. split.
  - intros k Hk. rewrite !list_lookup_insert_ne by congruence. reflexivity.
  - exists m2. split; [apply list_lookup_insert_eq; rewrite length_insert; exact Hlt|].
    rewrite F1, Ho. unfold command_frame. rewrite Hlen. reflexivity.
Qed.

Definition sample_feedback : rtu_feedback_msg :=
  {| fb_type := BREAKER; fb_rtu := 10; fb_offset := 260; fb_val := 1 |}.

Lemma feedback_reaches_rtu_witness :
  exists g', Process_SM_Msg sample_feedback (zeros 256) sample_proxy = Ret (tt, g') /\
    subs g' = subs sample_proxy /\ ipc_sent g' = ipc_sent sample_proxy /\
    length (mod_array g') = length (mod_array sample_proxy) /\
    (forall k, k <> 0%nat -> mod_array g' !! k = mod_array sample_proxy !! k) /\
    exists m', mod_array g' !! 0%nat = Some m' /\
      outbox (s m') = [] ++ command_frame sample_feedback ForceSingleCoil [x01; x04; xff; x00].
Proof.
  apply (feedback_reaches_rtu sample_proxy sample_feedback (zeros 256) ForceSingleCoil
           [x01; x04; xff; x00] 0 (mkRtu 0 1 10 (Pnnl_data sample_pnnl))
           (sample_modbus MODBUS_RTU true []));
    try reflexivity; try apply sample_well_formed; try discriminate.
  - cbn. lia.
  - intros k other Hk. lia.
Defined.

(** ** Numbering *)
(** Computations that leave the globals alone. *)
Definition pure {A} (c : comp proxy A) : Prop :=
  forall g, match c g with Ret (_, g') => g' = g | Fault _ => True end.

Lemma pure_ret {A} (a : A) : pure (ret a).
Proof. intros g. reflexivity. Qed.

Lemma pure_or_oob {A} (o : option A) : pure (or_oob o).
Proof. intros g. destruct o; cbn; auto. Qed.

Lemma pure_bind {A B} (c : comp proxy A) (k : A -> comp proxy B) :
  pure c -> (forall a, pure (k a)) -> pure (bind c k).
Proof.
  intros Hc Hk g. unfold bind. specialize (Hc g). destruct (c g) as [[a g']|e]; [|exact I].
  subst g'. apply Hk.
Qed.

Lemma pure_then {X R} (k : X -> comp proxy (step_result X R)) r :
  (forall x, pure (k x)) -> pure (then_iter k r).
Proof. intros H. destruct r; cbn; [apply H|apply pure_ret]. Qed.

Lemma pure_while {X R} cond (body : X -> comp proxy (step_result X R)) fuel :
  (forall x, pure (body x)) -> forall x, pure (while_ fuel cond body x).
Proof.
  intros Hb. induction fuel as [|fuel IH]; intros x; [intros g; exact I|].
  cbn. destruct (cond x); [|apply pure_ret]. apply pure_bind; [apply Hb|].
  intros r. apply pure_then, IH.
Qed.

Lemma pure_for {X R} (body : X -> comp proxy (step_result X R)) n :
  (forall x, pure (body x)) -> forall x, pure (for_ n body x).
Proof.
  intros Hb x. destruct n as [|p|p]; cbn; try apply pure_ret. revert x.
  induction p as [q IH|q IH|]; intros x; cbn; [| |apply Hb].
  - apply pure_bind; [apply Hb|]. intros r. apply pure_bind; [apply pure_then, IH|].
    intros r'. apply pure_then, IH.
  - apply pure_bind; [apply IH|]. intros r. apply pure_then, IH.
Qed.

Lemma pure_loop_then {X R} (c : comp proxy (step_result X R)) k :
  pure c -> (forall x, pure (k x)) -> pure (loop_then c k).
Proof.
  intros Hc Hk. apply pure_bind; [exact Hc|]. intros [x|v]; [apply Hk|apply pure_ret].
Qed.

Ltac pure_tac :=
  repeat first
    [ apply pure_ret | apply pure_or_oob | apply pure_loop_then; [|intros]
    | apply pure_while; intros | apply pure_for; intros
    | apply pure_bind; [|intros]
    | match goal with
      | |- pure (match ?x with _ => _ end) => destruct x
      | |- pure (datum _ _) => unfold datum
      | |- pure (unpack_bits _ _ _ _) => unfold unpack_bits
      | |- pure (jhu_val _ _) => unfold jhu_val
      | |- pure (pnnl_loop _ _ _ _) => unfold pnnl_loop
      end ].

Lemma pure_update_fields cy data j d : pure (update_fields cy data j d).
Proof. unfold update_fields. pure_tac. Qed.

(** What polling and commands leave alone: who is monitored, the numbers of
    their next messages, and what was sent. *)
Definition key (m : rtu_data_msg) : Z * Z := (rtu_id m, seq_seq_num m).

Definition quiet (g g' : proxy) : Prop :=
  map key (subs g') = map key (subs g) /\ ipc_sent g' = ipc_sent g.

Lemma quiet_refl g : quiet g g.
Proof. split; reflexivity. Qed.

Lemma quiet_trans g1 g2 g3 : quiet g1 g2 -> quiet g2 g3 -> quiet g1 g3.
Proof. intros [A1 A2] [B1 B2]. split; congruence. Qed.

(** A computation that is quiet whenever it returns. *)
Definition keeps {A} (c : comp proxy A) : Prop :=
  forall g, match c g with Ret (_, g') => quiet g g' | Fault _ => True end.

Lemma keeps_pure {A} (c : comp proxy A) : pure c -> keeps c.
Proof.
  intros H g. specialize (H g). destruct (c g) as [[a g']|]; [|exact I].
  subst. apply quiet_refl.
Qed.

Lemma keeps_bind {A B} (c : comp proxy A) (k : A -> comp proxy B) :
  keeps c -> (forall a, keeps (k a)) -> keeps (bind c k).
Proof.
  intros Hc Hk g. unfold bind. specialize (Hc g). destruct (c g) as [[a g1]|]; [|exact I].
  specialize (Hk a g1). destruct (k a g1) as [[b g2]|]; [|exact I]. eapply quiet_trans; eauto.
Qed.

Lemma keeps_on_mod {A} i (c : comp rlModbus A) : keeps (on_mod i c).
Proof.
  intros g. unfold on_mod, bind. cbn [get]. destruct (aget (mod_array g) i) as [m|]; [|exact I].
  cbn. destruct (c m) as [[a m']|]; [|exact I]. destruct (aset _ _ _); [|exact I].
  cbn. split; reflexivity.
Qed.

Lemma keeps_get : keeps (get : comp proxy proxy).
Proof. intros g. apply quiet_refl. Qed.

Lemma keeps_Process_SM_Msg feed buf : keeps (Process_SM_Msg feed buf).
Proof.
  unfold Process_SM_Msg. destruct (feedback_request _ _ _) as [[f data]|].
  - apply keeps_bind; [apply keeps_get|]. intros g. destruct (_ =? -1).
    + apply keeps_pure, pure_ret.
    + apply keeps_bind; [apply keeps_on_mod|]. intros _.
      apply keeps_bind; [apply keeps_on_mod|]. intros _. apply keeps_pure, pure_ret.
  - apply keeps_pure, pure_ret.
Qed.

Lemma keeps_get_bind {B} (k : proxy -> comp proxy B) :
  (forall g, match k g g with Ret (_, g') => quiet g g' | Fault _ => True end) ->
  keeps (g <- get ;; k g).
Proof. intros H g. exact (H g). Qed.

(** Counting a poll down. *)
Lemma count_down g slave n :
  match (if 0 <? n then
           c <- or_oob (aset (poll_slave_counter g) slave (n - 1)) ;;
           put (set_counter c g) ;;; ret (negb (n - 1 =? 0))
         else ret false) g with
  | Ret (_, g') => quiet g g'
  | Fault _ => True
  end.
Proof.
  destruct (0 <? n); [|apply quiet_refl]. unfold bind.
  destruct (aset (poll_slave_counter g) slave (n - 1)); cbn; [split; reflexivity|exact I].
Qed.

Lemma keeps_modbusCycle slave f a n data i : keeps (modbusCycle slave f a n data i).
Proof.
  unfold modbusCycle. destruct (_ || _); [apply keeps_pure, pure_ret|].
  apply keeps_get_bind. intros g. unfold bind at 1.
  destruct (aget (poll_slave_counter g) slave) as [n0|]; cbn [or_oob ret raise]; [|exact I].
  unfold bind at 1. pose proof (count_down g slave n0) as H.
  match type of H with match ?c with _ => _ end => destruct c as [[skip g1]|]; [|exact I] end.
  assert (Hrest : keeps (if (skip : bool) then ret (-1, data) else
    r <- on_mod i (request slave f a n) ;;
    if 0 <=? r then
      r <- on_mod i (response slave f data) ;;
      ret (if negb (r_function r =? f) then -1 else r_ret r, r_data r)
    else ret (r, data))).
  { destruct skip; [apply keeps_pure, pure_ret|]. apply keeps_bind; [apply keeps_on_mod|].
    intros r. destruct (0 <=? r); [|apply keeps_pure, pure_ret].
    apply keeps_bind; [apply keeps_on_mod|]. intros r2. apply keeps_pure, pure_ret. }
  specialize (Hrest g1).
  match type of Hrest with match ?c with _ => _ end => destruct c as [[r g2]|]; [|exact I] end.
  eapply quiet_trans; eauto.
Qed.

Lemma keeps_readModbus stack i j : keeps (readModbus stack i j).
Proof.
  unfold readModbus, get_cycle.
  apply keeps_bind; [|intros cy].
  { apply keeps_bind; [apply keeps_get|]. intros g.
    apply keeps_bind; [apply keeps_pure, pure_or_oob|]. intros cs. apply keeps_pure, pure_or_oob. }
  apply keeps_bind; [apply keeps_modbusCycle|]. intros r.
  destruct (fst r <? 0); [apply keeps_pure, pure_ret|].
  apply keeps_get_bind. intros g. unfold bind at 1.
  destruct (aget (subs g) i) as [m|] eqn:Em; cbn [or_oob ret raise]; [|exact I].
  unfold bind at 1. pose proof (pure_update_fields cy (snd r) j (data_ m) g) as H.
  destruct (update_fields cy (snd r) j (data_ m) g) as [[d g1]|]; [|exact I]. subst g1.
  destruct d as [d|]; [|apply quiet_refl]. unfold bind, get.
  destruct (aset (subs g) i (with_data d m)) as [ss|] eqn:Ea; cbn; [|exact I].
  split; [|reflexivity]. cbn. unfold aset, aget in *. destruct (in_bounds (subs g) i); [|discriminate].
  injection Ea as <-. change (map key (<[Z.to_nat i:=with_data d m]> (subs g))) with
    (key <$> <[Z.to_nat i:=with_data d m]> (subs g)).
  rewrite list_fmap_insert. apply list_insert_id.
  rewrite list_lookup_fmap, Em. reflexivity.
Qed.

(** The numbers of the messages sent for an RTU, in order. *)
Definition numbers (sent : list rtu_data_msg) (id : Z) : list Z :=
  map seq_seq_num (filter (fun m => rtu_id m = id) sent).

(** 1, 2, ... modulo 2^32. *)
Definition first_numbers (n : nat) : list Z := map (fun k => wrap32 (1 + Z.of_nat k)) (seq 0 n).

Definition numbered (g : proxy) : Prop :=
  NoDup (map fst (map key (subs g))) /\
  forall id next, (id, next) ∈ map key (subs g) ->
    exists n, numbers (ipc_sent g) id = first_numbers n /\ next = wrap32 (1 + Z.of_nat n).

Lemma quiet_numbered g g' : quiet g g' -> numbered g -> numbered g'.
Proof. unfold numbered. intros [-> ->] H. exact H. Qed.

Lemma keeps_numbered {A} (c : comp proxy A) :
  keeps c -> spec any_fault numbered c (fun _ => numbered).
Proof.
  intros H g Hg. specialize (H g). destruct (c g) as [[a g']|]; [|exact I].
  eapply quiet_numbered; eauto.
Qed.

Lemma first_numbers_S n : first_numbers (S n) = first_numbers n ++ [wrap32 (1 + Z.of_nat n)].
Proof. unfold first_numbers. rewrite seq_S, map_app. reflexivity. Qed.

Lemma wrap32_next z : wrap32 (wrap32 z + 1) = wrap32 (z + 1).
Proof. unfold wrap32. rewrite Z.add_mod_idemp_l by (unfold two32; lia). reflexivity. Qed.

Lemma numbers_app sent m id :
  numbers (sent ++ [m]) id = numbers sent id ++ if decide (rtu_id m = id) then [seq_seq_num m] else [].
Proof.
  unfold numbers. rewrite filter_app, map_app. f_equal.
  destruct (decide (rtu_id m = id)) as [E|E].
  - rewrite filter_cons_True, filter_nil by exact E. reflexivity.
  - rewrite filter_cons_False, filter_nil by exact E. reflexivity.
Qed.

Lemma Write_To_SM_numbered i : spec any_fault numbered (Write_To_SM i) (fun _ => numbered).
Proof.
  intros g [Hnd Hnum]. unfold Write_To_SM, bind. cbn [get].
  destruct (aget (subs g) i) as [m|] eqn:Em; [|exact I]. cbn [or_oob ret put].
  cbn [subs add_sent]. destruct (aset (subs g) i _) as [ss|] eqn:Es; [|exact I]. cbn.
  assert (Hi : subs g !! Z.to_nat i = Some m)
    by (unfold aget in Em; destruct (in_bounds (subs g) i); [exact Em|discriminate]).
  unfold aset in Es. destruct (in_bounds (subs g) i); [|discriminate]. injection Es as <-.
  unfold numbered. cbn [subs set_subs add_sent ipc_sent].
  set (m' := {| seq_incarnation := _; seq_seq_num := _; rtu_id := _; data_ := _ |}).
  assert (Hkeys : map key (<[Z.to_nat i:=m']> (subs g)) = <[Z.to_nat i:=key m']> (map key (subs g)))
    by apply list_fmap_insert.
  assert (Hk : map key (subs g) !! Z.to_nat i = Some (key m))
    by (change (map key (subs g)) with (key <$> subs g); rewrite list_lookup_fmap, Hi; reflexivity).
  rewrite Hkeys. split.
  - replace (map fst (<[Z.to_nat i:=key m']> (map key (subs g))))
      with (map fst (map key (subs g))); [exact Hnd|].
    symmetry. change (fst <$> <[Z.to_nat i:=key m']> (map key (subs g)) = fst <$> map key (subs g)).
    rewrite list_fmap_insert. apply list_insert_id. rewrite list_lookup_fmap, Hk. reflexivity.
  - intros id next Hin. apply list_elem_of_lookup in Hin as [j Hj]. rewrite numbers_app.
    destruct (decide (j = Z.to_nat i)) as [->|Hne].
    + rewrite list_lookup_insert_eq in Hj by (eapply lookup_lt_Some; exact Hk).
      injection Hj as <- <-. destruct (Hnum (rtu_id m) (seq_seq_num m)) as (n & E & En).
      { eapply list_elem_of_lookup_2. exact Hk. }
      exists (S n). rewrite decide_True by reflexivity.
      rewrite first_numbers_S, E, <- En. split; [reflexivity|].
      rewrite En, wrap32_next. f_equal. lia.
    + rewrite list_lookup_insert_ne in Hj by congruence.
      destruct (Hnum id next) as (n & E & En); [eapply list_elem_of_lookup_2; exact Hj|].
      exists n. split; [|exact En]. rewrite decide_False; [rewrite app_nil_r; exact E|].
      intros <-. apply Hne. eapply (NoDup_lookup _ _ _ (rtu_id m) Hnd).
      * change (map fst (map key (subs g))) with (fst <$> map key (subs g)).
        rewrite list_lookup_fmap, Hj. reflexivity.
      * change (map fst (map key (subs g))) with (fst <$> map key (subs g)).
        rewrite list_lookup_fmap, Hk. reflexivity.
Qed.

Lemma spec_get_bind {B} (k : proxy -> comp proxy B) :
  (forall g, spec any_fault numbered (k g) (fun _ => numbered)) ->
  spec any_fault numbered (g <- get ;; k g) (fun _ => numbered).
Proof. intros H g Hg. exact (H g g Hg). Qed.

Lemma poll_rtu_numbered stack i : spec any_fault numbered (poll_rtu stack i) (fun _ => numbered).
Proof.
  unfold poll_rtu. apply spec_get_bind. intros g.
  eapply spec_bind; [apply keeps_numbered, keeps_pure, pure_or_oob|]. intros cs.
  eapply (spec_loop_then _ _ numbered (fun _ => True) (fun _ => True)).
  - apply spec_for; [|exact I]. intros [j e] _.
    eapply spec_bind; [apply keeps_numbered, keeps_readModbus|]. intros r.
    apply spec_ret. intros g' Hg'. split; [exact Hg'|exact I].
  - intros [j e] _. destruct (e =? 0); [apply Write_To_SM_numbered|].
    apply keeps_numbered, keeps_pure, pure_ret.
  - intros v g' _ Hg'. exact Hg'.
Qed.

Lemma poll_round_numbered stack : spec any_fault numbered (poll_round stack) (fun _ => numbered).
Proof.
  unfold poll_round. apply spec_get_bind. intros g.
  eapply (spec_loop_then _ _ numbered (fun _ => True) (fun _ => True)).
  - apply spec_for; [|exact I]. intros i _.
    eapply spec_bind; [apply poll_rtu_numbered|]. intros u.
    apply spec_ret. intros g' Hg'. split; [exact Hg'|exact I].
  - intros u _. apply keeps_numbered, keeps_pure, pure_ret.
  - intros v g' _ Hg'. exact Hg'.
Qed.

(** The turns of the loop of [main]: a polling round, or a message of the SCADA
    masters. *)
Inductive proxy_runs : proxy -> proxy -> Prop :=
| run_start g : proxy_runs g g
| run_poll g g1 g2 stack :
    proxy_runs g g1 -> poll_round stack g1 = Ret (tt, g2) -> proxy_runs g g2
| run_feedback g g1 g2 feed buf :
    proxy_runs g g1 -> Process_SM_Msg feed buf g1 = Ret (tt, g2) -> proxy_runs g g2.

(** As init leaves the proxy (different RTUs, the next number of each 1,
    nothing sent), and however polling rounds, commands and failing connections
    follow each other, the status messages of every RTU carry the numbers 1, 2,
    3, ... modulo 2^32, none left out and none used twice before the wrap. *)
Theorem status_numbered_consecutively (g g' : proxy) (m : rtu_data_msg) :
  NoDup (map rtu_id (subs g)) -> (forall m, m ∈ subs g -> seq_seq_num m = 1) ->
  ipc_sent g = [] -> proxy_runs g g' -> m ∈ subs g' ->
  exists n, numbers (ipc_sent g') (rtu_id m) = first_numbers n /\
    seq_seq_num m = wrap32 (1 + Z.of_nat n).
Proof.
  intros Hnd Hone Hsent Hruns Hm.
  assert (Hinv : numbered g').
  { clear Hm. induction Hruns as [g|g g1 g2 stack Hr IH E|g g1 g2 feed buf Hr IH E].
    - split; [rewrite map_map; exact Hnd|]. intros id next Hin.
      apply list_elem_of_fmap in Hin as (x & Ex & Hx). injection Ex as -> ->.
      exists 0%nat. rewrite Hsent. split; [reflexivity|]. rewrite (Hone x Hx). reflexivity.
    - pose proof (poll_round_numbered stack g1) as H. rewrite E in H. eauto.
    - pose proof (keeps_numbered _ (keeps_Process_SM_Msg feed buf) g1) as H.
      rewrite E in H. eauto. }
  destruct Hinv as [_ Hinv]. apply (Hinv (rtu_id m) (seq_seq_num m)).
  apply list_elem_of_fmap. exists m. split; [reflexivity|exact Hm].
Qed.

(** Two polls of an RTU without cycles. *)
Lemma status_numbered_consecutively_witness :
  exists n, numbers (ipc_sent (add_sent (mkRtu 0 1 10 (Pnnl_data sample_pnnl))
      (set_subs [mkRtu 0 2 10 (Pnnl_data sample_pnnl)] sample_proxy))) 10 = first_numbers n /\
    2 = wrap32 (1 + Z.of_nat n).
Proof.
  apply (status_numbered_consecutively sample_proxy
    (add_sent (mkRtu 0 1 10 (Pnnl_data sample_pnnl))
      (set_subs [mkRtu 0 2 10 (Pnnl_data sample_pnnl)] sample_proxy))
    (mkRtu 0 2 10 (Pnnl_data sample_pnnl))).
  - apply (bool_decide_unpack _). vm_compute. exact I.
  - intros m Hm. apply list_elem_of_singleton in Hm as ->. reflexivity.
  - reflexivity.
  - eapply (run_poll sample_proxy sample_proxy _ (fun _ _ => zeros 512)); [apply run_start|].
    vm_compute. reflexivity.
  - left.
Defined.
