(* ===== verification/ScadaGrid.v ===== *)
(** The power grid of the SCADA master: [scada_master/structs.h], [queue.c] and
    [process] of [scada_master.c].

    The master holds the last status each field device reported, works out
    which substations have power, turns operators' commands into feedback for the
    devices and hands its state to replicas that fell behind.  A pointer into
    one of the global arrays is the index of its target, [None] the null
    pointer.  What the master keeps of the power grid is a [grid]; the functions
    that only touch the grid are computations on it, run by the handlers with
    [on_grid].  The configuration file is the sequence of lines [fgets] returns. *)
From Stdlib Require Import ZArith Lia List Bool String Ascii.
From Stdlib Require Import Strings.Byte.
From stdpp Require Import base list.
From S2P Require Import Prelude Memory ScadaPackets.

(** ** [structs.h] *)
Record p_switch := mkSwitch { switch_id : Z; switch_status : Z }.

Record p_link := mkLink {
  link_id : Z; link_status : Z; src_sw : option Z; src_sw_id : Z; dest_sw : option Z;
  dest_sw_id : Z; src_sub : Z; dest_sub : Z }.

Record p_tx := mkTx { tx_id : Z; tx_status : Z }.

Record sub := mkSub {
  sub_id : Z; sub_status : Z; num_switches : Z; num_lines : Z; num_in_lines : Z;
  sw_list : list (option Z); out_lines : list (option Z); in_lines : list (option Z);
  tx : option Z }.

Definition switch_with_status (v : Z) (x : p_switch) : p_switch := mkSwitch (switch_id x) v.

Definition tx_with_status (v : Z) (x : p_tx) : p_tx := mkTx (tx_id x) v.

Definition link_with_status (v : Z) (x : p_link) : p_link :=
  mkLink (link_id x) v (src_sw x) (src_sw_id x) (dest_sw x) (dest_sw_id x) (src_sub x) (dest_sub x).

Definition sub_with_status (v : Z) (x : sub) : sub :=
  mkSub (sub_id x) v (num_switches x) (num_lines x) (num_in_lines x) (sw_list x) (out_lines x)
    (in_lines x) (tx x).

(** ** The globals *)
Record grid := mkGrid {
  stat : list Z; sw_arr : list p_switch; pl_arr : list p_link; sub_arr : list sub;
  tx_arr : list p_tx; num_jhu_sub : Z }.

Definition with_stat (x : list Z) (g : grid) : grid :=
  mkGrid x (sw_arr g) (pl_arr g) (sub_arr g) (tx_arr g) (num_jhu_sub g).

Definition with_sw_arr (x : list p_switch) (g : grid) : grid :=
  mkGrid (stat g) x (pl_arr g) (sub_arr g) (tx_arr g) (num_jhu_sub g).

Definition with_pl_arr (x : list p_link) (g : grid) : grid :=
  mkGrid (stat g) (sw_arr g) x (sub_arr g) (tx_arr g) (num_jhu_sub g).

Definition with_sub_arr (x : list sub) (g : grid) : grid :=
  mkGrid (stat g) (sw_arr g) (pl_arr g) x (tx_arr g) (num_jhu_sub g).

Definition with_tx_arr (x : list p_tx) (g : grid) : grid :=
  mkGrid (stat g) (sw_arr g) (pl_arr g) (sub_arr g) x (num_jhu_sub g).

(** What is sent to the ITRC. *)
Inductive sm_out :=
| Hmi_Update (m : hmi_update_msg)
| Rtu_Feedback (m : feedback_msg)
| Benchmark (m : benchmark_msg)
| State_Xfer (m : state_xfer_msg).

(** [clock] is the local [t] of [main]; [ems_data] are the 64 bytes of each
    generator's last status. *)
Record sm := mkSM {
  the_grid : grid; pnnl_data : list byte; ems_data : list (list byte); clock : Z * Z;
  ipc_sent : list sm_out }.

Definition with_grid (x : grid) (s : sm) : sm :=
  mkSM x (pnnl_data s) (ems_data s) (clock s) (ipc_sent s).

Definition with_pnnl_data (x : list byte) (s : sm) : sm :=
  mkSM (the_grid s) x (ems_data s) (clock s) (ipc_sent s).

Definition with_ems_data (x : list (list byte)) (s : sm) : sm :=
  mkSM (the_grid s) (pnnl_data s) x (clock s) (ipc_sent s).

Definition with_clock (x : Z * Z) (s : sm) : sm :=
  mkSM (the_grid s) (pnnl_data s) (ems_data s) x (ipc_sent s).

Definition IPC_Send (m : sm_out) : comp sm unit :=
  s <- get ;;
  put (mkSM (the_grid s) (pnnl_data s) (ems_data s) (clock s) (ipc_sent s ++ [m])).

Definition on_grid {A} (c : comp grid A) : comp sm A :=
  s <- get ;;
  match c (the_grid s) with
  | Ret (a, g) => put (with_grid g s) ;;; ret a
  | Fault e => raise e
  end.

(** ** Pointers *)
Definition deref {S A} (l : list A) (p : option Z) : comp S A :=
  match p with Some i => or_oob (aget l i) | None => raise OutOfBounds end.

(** [a[i]] of an array of pointers, dereferenced. *)
Definition element {S A} (l : list A) (ps : list (option Z)) (i : Z) : comp S A :=
  p <- or_oob (aget ps i) ;; deref l p.

Definition modify_at {S A} (l : list A) (i : Z) (f : A -> A) : comp S (list A) :=
  x <- or_oob (aget l i) ;; or_oob (aset l i (f x)).

Definition set_switch_status (p : option Z) (v : Z) : comp grid unit :=
  g <- get ;;
  match p with
  | Some i => l <- modify_at (sw_arr g) i (switch_with_status v) ;; put (with_sw_arr l g)
  | None => raise OutOfBounds
  end.

Definition set_tx_status (p : option Z) (v : Z) : comp grid unit :=
  g <- get ;;
  match p with
  | Some i => l <- modify_at (tx_arr g) i (tx_with_status v) ;; put (with_tx_arr l g)
  | None => raise OutOfBounds
  end.

Definition set_link_status (p : option Z) (v : Z) : comp grid unit :=
  g <- get ;;
  match p with
  | Some i => l <- modify_at (pl_arr g) i (link_with_status v) ;; put (with_pl_arr l g)
  | None => raise OutOfBounds
  end.

Definition set_sub_status (i v : Z) : comp grid unit :=
  g <- get ;; l <- modify_at (sub_arr g) i (sub_with_status v) ;; put (with_sub_arr l g).

(** ** [queue.c]: the nodes from [last] to [first] *)
Definition queue : Type := list Z.

Definition queue_init : queue := [].

Definition enqueue (val : Z) (q : queue) : queue := q ++ [val].

Definition dequeue {S} (q : queue) : comp S (Z * queue) :=
  match q with [] => raise Exit | val :: q => ret (val, q) end.

Definition queue_is_empty (q : queue) : bool := match q with [] => true | _ => false end.

(** ** [process]: which substations have power *)
(** One line of the substation the search is at; [far] is its other end. *)
Definition visit_line (far : p_link -> Z) (p : option Z) (q : queue) : comp grid queue :=
  g <- get ;;
  c_link <- deref (pl_arr g) p ;;
  src <- deref (sw_arr g) (src_sw c_link) ;;
  if switch_status src =? 1 then
    dest <- deref (sw_arr g) (dest_sw c_link) ;;
    if switch_status dest =? 1 then
      set_link_status p 1 ;;;
      g <- get ;;
      x <- or_oob (aget (sub_arr g) (far c_link)) ;;
      if sub_status x =? 0 then
        set_sub_status (far c_link) 1 ;;; ret (enqueue (far c_link) q)
      else ret q
    else ret q
  else ret q.

Definition visit_lines (far : p_link -> Z) (n : Z) (lines : list (option Z)) (q : queue)
    : comp grid queue :=
  run for_ n
        (fun '(i, q) =>
           p <- or_oob (aget lines i) ;;
           q <- visit_line far p q ;;
           ret (inl (i + 1, q)))
        (0, q)
  as (_, q) ;;
  ret q.

Definition visit_sub (i : Z) (q : queue) : comp grid queue :=
  g <- get ;;
  c_sub <- or_oob (aget (sub_arr g) i) ;;
  t <- deref (tx_arr g) (tx c_sub) ;;
  if tx_status t =? 0 then ret q else
  q <- visit_lines dest_sub (num_lines c_sub) (out_lines c_sub) q ;;
  visit_lines src_sub (num_in_lines c_sub) (in_lines c_sub) q.

(** A substation is put in the queue when its status goes from 0 to 1, so the
    search takes at most one turn per substation. *)
Definition bfs (q : queue) : comp grid unit :=
  g <- get ;;
  run while_ (S (length (sub_arr g))) (fun q => negb (queue_is_empty q))
        (fun q => r <- dequeue q ;; q <- visit_sub (fst r) (snd r) ;; ret (inl q))
        q
  as _ ;;
  ret tt.

Definition clear_statuses : comp grid unit :=
  g <- get ;;
  match sub_arr g with
  | [] => raise OutOfBounds
  | x :: xs =>
      put (with_pl_arr (map (link_with_status 0) (pl_arr g))
             (with_sub_arr (sub_with_status 1 x :: map (sub_with_status 0) xs) g))
  end.

(** A line whose source switch is tripped raises the alarm. *)
Fixpoint check_broken (sws : list p_switch) (ls : list p_link) : comp grid (list p_link) :=
  match ls with
  | [] => ret []
  | l :: ls =>
      s <- deref sws (src_sw l) ;;
      ls <- check_broken sws ls ;;
      ret ((if switch_status s =? 2 then link_with_status 2 l else l) :: ls)
  end.

Fixpoint write_stat (entries : list (Z * Z)) : comp grid unit :=
  match entries with
  | [] => ret tt
  | (id, v) :: entries =>
      g <- get ;;
      l <- or_oob (aset (stat g) id v) ;;
      put (with_stat l g) ;;;
      write_stat entries
  end.

(** What goes into the status array, in the order of the four loops. *)
Definition stat_entries (g : grid) : list (Z * Z) :=
  map (fun x => (switch_id x, switch_status x)) (sw_arr g) ++
  map (fun x => (link_id x, link_status x)) (pl_arr g) ++
  map (fun x => (sub_id x, sub_status x)) (sub_arr g) ++
  map (fun x => (tx_id x, tx_status x)) (tx_arr g).

Definition process : comp grid unit :=
  clear_statuses ;;;
  bfs (enqueue 0 queue_init) ;;;
  g <- get ;;
  ls <- check_broken (sw_arr g) (pl_arr g) ;;
  put (with_pl_arr ls g) ;;;
  g <- get ;;
  write_stat (stat_entries g).
