(* ===== verification/ScadaInit.v ===== *)
(** How the SCADA master sets its grid up: [init] of [scada_master.c].

    The arrays are [malloc]ed, so what they hold before [init] fills them is
    arbitrary: it is given by the section's variables.  Only [sub_arr] is zeroed. *)
From Stdlib Require Import ZArith Lia List Bool String Ascii.
From stdpp Require Import base list.
From S2P Require Import Prelude Memory ScadaPackets ScadaGrid.

(** ** [atoi], for numbers that fit an [int] *)
Definition is_space (c : ascii) : bool :=
  let n := nat_of_ascii c in (Nat.eqb n 32 || (Nat.leb 9 n && Nat.leb n 13))%bool.

Definition digit (c : ascii) : option Z :=
  let n := Z.of_nat (nat_of_ascii c) in
  if (48 <=? n) && (n <=? 57) then Some (n - 48) else None.

Fixpoint digits (acc : Z) (s : string) : Z :=
  match s with
  | EmptyString => acc
  | String c s => match digit c with Some d => digits (10 * acc + d) s | None => acc end
  end.

Fixpoint atoi (s : string) : Z :=
  match s with
  | EmptyString => 0
  | String c r =>
      if is_space c then atoi r
      else if Ascii.eqb c "-" then - digits 0 r
      else if Ascii.eqb c "+" then digits 0 r
      else digits 0 s
  end.

(** ** Reading the file *)
Definition loader (A : Type) : Type := comp (list string * grid) A.

Definition fgets : loader string :=
  s <- get ;;
  match fst s with
  | [] => raise Exit
  | l :: ls => put (ls, snd s) ;;; ret l
  end.

Definition fgets_atoi : loader Z := l <- fgets ;; ret (atoi l).

Definition the_globals : loader grid := s <- get ;; ret (snd s).

Definition set_globals (g : grid) : loader unit := s <- get ;; put (fst s, g).

Definition update_sw (i : Z) (f : p_switch -> p_switch) : loader unit :=
  g <- the_globals ;; l <- modify_at (sw_arr g) i f ;; set_globals (with_sw_arr l g).

Definition update_pl (i : Z) (f : p_link -> p_link) : loader unit :=
  g <- the_globals ;; l <- modify_at (pl_arr g) i f ;; set_globals (with_pl_arr l g).

Definition update_tx (i : Z) (f : p_tx -> p_tx) : loader unit :=
  g <- the_globals ;; l <- modify_at (tx_arr g) i f ;; set_globals (with_tx_arr l g).

Definition update_sub (i : Z) (f : sub -> sub) : loader unit :=
  g <- the_globals ;; l <- modify_at (sub_arr g) i f ;; set_globals (with_sub_arr l g).

(** [sub_arr[i].sw_list[j] = sw_arr + k] and its fellows: the inner array has its
    own bound. *)
Definition set_sw_list (i j k : Z) : loader unit :=
  g <- the_globals ;;
  x <- or_oob (aget (sub_arr g) i) ;;
  l <- or_oob (aset (sw_list x) j (Some k)) ;;
  update_sub i (fun x => mkSub (sub_id x) (sub_status x) (num_switches x) (num_lines x)
    (num_in_lines x) l (out_lines x) (in_lines x) (tx x)).

Definition set_out_lines (i j k : Z) : loader unit :=
  g <- the_globals ;;
  x <- or_oob (aget (sub_arr g) i) ;;
  l <- or_oob (aset (out_lines x) j (Some k)) ;;
  update_sub i (fun x => mkSub (sub_id x) (sub_status x) (num_switches x) (num_lines x)
    (num_in_lines x) (sw_list x) l (in_lines x) (tx x)).

(** [in_lines[num_in_lines++] = pl_arr + k] *)
Definition add_in_line (i k : Z) : loader unit :=
  g <- the_globals ;;
  x <- or_oob (aget (sub_arr g) i) ;;
  l <- or_oob (aset (in_lines x) (num_in_lines x) (Some k)) ;;
  update_sub i (fun x => mkSub (sub_id x) (sub_status x) (num_switches x) (num_lines x)
    (num_in_lines x + 1) (sw_list x) (out_lines x) l (tx x)).

(** ** The sections of the file *)
(** How many substations, transformers, switches and lines the tooltip array has. *)
Definition count_tooltips (stat_len : Z) : loader (Z * Z * Z * Z) :=
  run for_ stat_len
        (fun '(i, (subs, txs, sws, pls)) =>
           line <- fgets ;;
           ret (inl (i + 1,
             match String.get 0 line with
             | Some "0"%char => (subs + 1, txs, sws, pls)
             | Some "1"%char => (subs, txs + 1, sws, pls)
             | Some "2"%char => (subs, txs, sws + 1, pls)
             | Some "3"%char => (subs, txs, sws, pls + 1)
             | _ => (subs, txs, sws, pls)
             end)))
        (0, (0, 0, 0, 0))
  as (_, counts) ;;
  ret counts.

Definition load_switches (i n sw_cur : Z) : loader Z :=
  run for_ n
        (fun '(j, sw_cur) =>
           id <- fgets_atoi ;;
           update_sw sw_cur (fun x => mkSwitch id (switch_status x)) ;;;
           set_sw_list i j sw_cur ;;;
           ret (inl (j + 1, sw_cur + 1)))
        (0, sw_cur)
  as (_, sw_cur) ;;
  ret sw_cur.

Definition load_lines (i n pl_cur : Z) : loader Z :=
  run for_ n
        (fun '(j, pl_cur) =>
           fgets ;;;
           id <- fgets_atoi ;;
           src <- fgets_atoi ;;
           dest <- fgets_atoi ;;
           to <- fgets_atoi ;;
           update_pl pl_cur (fun x => mkLink id (link_status x) (src_sw x) src (dest_sw x) dest i to) ;;;
           set_out_lines i j pl_cur ;;;
           (if (1 <=? i) && (i <=? 4) && (1 <=? to) && (to <=? 4)
            then add_in_line to pl_cur else ret tt) ;;;
           ret (inl (j + 1, pl_cur + 1)))
        (0, pl_cur)
  as (_, pl_cur) ;;
  ret pl_cur.

Definition load_sub (i : Z) (cur : Z * Z * Z) : loader (Z * Z * Z) :=
  let '(tx_cur, sw_cur, pl_cur) := cur in
  fgets ;;;
  id <- fgets_atoi ;;
  update_sub i (fun x => mkSub id (sub_status x) (num_switches x) (num_lines x)
    (num_in_lines x) (sw_list x) (out_lines x) (in_lines x) (tx x)) ;;;
  fgets ;;;
  id <- fgets_atoi ;;
  update_tx tx_cur (fun x => mkTx id (tx_status x)) ;;;
  update_sub i (fun x => mkSub (sub_id x) (sub_status x) (num_switches x) (num_lines x)
    (num_in_lines x) (sw_list x) (out_lines x) (in_lines x) (Some tx_cur)) ;;;
  fgets ;;;
  n <- fgets_atoi ;;
  update_sub i (fun x => mkSub (sub_id x) (sub_status x) n (num_lines x)
    (num_in_lines x) (sw_list x) (out_lines x) (in_lines x) (tx x)) ;;;
  fgets ;;;
  sw_cur <- load_switches i n sw_cur ;;
  fgets ;;;
  n <- fgets_atoi ;;
  update_sub i (fun x => mkSub (sub_id x) (sub_status x) (num_switches x) n
    (num_in_lines x) (sw_list x) (out_lines x) (in_lines x) (tx x)) ;;;
  pl_cur <- load_lines i n pl_cur ;;
  ret (tx_cur + 1, sw_cur, pl_cur).

(** ** Joining the lines to their switches *)
(** The last switch with the identifier; a pointer nobody sets stays what
    [malloc] left there. *)
Fixpoint find_sw (id : Z) (sws : list p_switch) (j : Z) (found : option Z) : option Z :=
  match sws with
  | [] => found
  | x :: sws => find_sw id sws (j + 1) (if switch_id x =? id then Some j else found)
  end.

Definition join_line (sws : list p_switch) (x : p_link) : p_link :=
  mkLink (link_id x) (link_status x) (find_sw (src_sw_id x) sws 0 (src_sw x)) (src_sw_id x)
    (find_sw (dest_sw_id x) sws 0 (dest_sw x)) (dest_sw_id x) (src_sub x) (dest_sub x).

(** Every status is 1: the end of [init], and what a system reset does. *)
Definition all_on (g : grid) : grid :=
  mkGrid (map (fun _ => 1) (stat g)) (map (switch_with_status 1) (sw_arr g))
    (map (link_with_status 1) (pl_arr g)) (map (sub_with_status 1) (sub_arr g))
    (map (tx_with_status 1) (tx_arr g)) (num_jhu_sub g).

(** ** [init] *)
Definition zero_sub : sub :=
  let null := repeat None (Z.to_nat MAX_SWITCHES) in
  mkSub 0 0 0 0 0 null (repeat None (Z.to_nat MAX_LINES)) (repeat None (Z.to_nat MAX_LINES)) None.

Definition malloc {A} (n : Z) (junk : nat -> A) : list A := map junk (seq 0 (Z.to_nat n)).

Section Init.
Context (junk_stat : nat -> Z) (junk_switch : nat -> p_switch) (junk_link : nat -> p_link)
  (junk_tx : nat -> p_tx).

Definition load_ini : loader unit :=
  fgets ;;;
  stat_len <- fgets_atoi ;;
  fgets ;;;
  counts <- count_tooltips stat_len ;;
  let '(subs, txs, sws, pls) := counts in
  set_globals {| stat := malloc stat_len junk_stat; sw_arr := malloc sws junk_switch;
    pl_arr := malloc pls junk_link; sub_arr := repeat zero_sub (Z.to_nat subs);
    tx_arr := malloc txs junk_tx; num_jhu_sub := subs |} ;;;
  fgets ;;;
  fgets ;;;
  run for_ subs
        (fun '(i, cur) => cur <- load_sub i cur ;; ret (inl (i + 1, cur)))
        (0, (0, 0, 0))
  as _ ;;
  g <- the_globals ;;
  set_globals (with_pl_arr (map (join_line (sw_arr g)) (pl_arr g)) g) ;;;
  g <- the_globals ;;
  set_globals (all_on g).

Definition no_grid : grid := mkGrid [] [] [] [] [] 0.

(** [ems_data] is a global, so zero; [t] is not initialised. *)
Definition init (ini : list string) (junk_t : Z * Z) : outcome sm :=
  match load_ini (ini, no_grid) with
  | Ret (_, (_, g)) =>
      Ret {| the_grid := g; pnnl_data := zeros RTU_DATA_PAYLOAD_LEN;
             ems_data := repeat (zeros RTU_DATA_PAYLOAD_LEN) (Z.to_nat EMS_NUM_GENERATORS);
             clock := junk_t; ipc_sent := [] |}
  | Fault e => Fault e
  end.
End Init.

(** ** The configuration the system ships with: [init/ini] *)
Definition ini : list string :=
  ["#SIZE OF TOOLTIP ARRAY"; "65"; "#TOOLTIP ARRAY"; "0 1"; "1 2"; "2 3"; "2 4"; "0 6"; "1 7";
   "2 8"; "2 9"; "2 10"; "2 11"; "2 12"; "0 14"; "1 15"; "2 16"; "2 17"; "0 19"; "1 20";
   "2 21"; "2 22"; "2 23"; "2 24"; "2 25"; "0 27"; "1 28"; "2 29"; "2 30"; "0 32"; "1 33";
   "2 34"; "2 35"; "2 36"; "2 37"; "0 40"; "1 41"; "2 42"; "2 43"; "2 44"; "2 45"; "0 47";
   "1 48"; "2 49"; "2 50"; "0 52"; "1 53"; "2 54"; "2 55"; "3 56 57"; "3 58"; "3 59"; "3 60";
   "3 61 62"; "3 63"; "3 64"; "3 65"; "3 66"; "3 67"; "3 68 69"; "3 70"; "3 71"; "0 86";
   "2 87"; "2 88"; "1 89"; "3 91"; "3 92"; "#_____________________"; "10"; "#SUB ID"; "0";
   "#TX ID"; "1"; "#NUMBER OF SWITCHES"; "2"; "#SWITCH IDS"; "2"; "3"; "#NUMBER OF LINES";
   "2"; "#LINE INFO"; "46"; "2"; "6"; "1"; "#LINE INFO"; "56"; "3"; "34"; "2"; "#SUB ID"; "4";
   "#TX ID"; "5"; "#NUMBER OF SWITCHES"; "5"; "#SWITCH IDS"; "6"; "7"; "8"; "9"; "10";
   "#NUMBER OF LINES"; "4"; "#LINE INFO"; "47"; "8"; "14"; "5"; "#LINE INFO"; "48"; "9"; "25";
   "6"; "#LINE INFO"; "49"; "7"; "17"; "3"; "#LINE INFO"; "63"; "10"; "60"; "9"; "#SUB ID";
   "32"; "#TX ID"; "33"; "#NUMBER OF SWITCHES"; "4"; "#SWITCH IDS"; "34"; "35"; "36"; "37";
   "#NUMBER OF LINES"; "3"; "#LINE INFO"; "57"; "35"; "30"; "4"; "#LINE INFO"; "58"; "36";
   "41"; "8"; "#LINE INFO"; "64"; "37"; "61"; "9"; "#SUB ID"; "15"; "#TX ID"; "16";
   "#NUMBER OF SWITCHES"; "5"; "#SWITCH IDS"; "17"; "18"; "19"; "20"; "21";
   "#NUMBER OF LINES"; "4"; "#LINE INFO"; "50"; "18"; "13"; "5"; "#LINE INFO"; "51"; "19";
   "24"; "6"; "#LINE INFO"; "52"; "20"; "45"; "7"; "#LINE INFO"; "54"; "21"; "31"; "4";
   "#SUB ID"; "26"; "#TX ID"; "27"; "#NUMBER OF SWITCHES"; "4"; "#SWITCH IDS"; "28"; "29";
   "30"; "31"; "#NUMBER OF LINES"; "2"; "#LINE INFO"; "53"; "28"; "44"; "7"; "#LINE INFO";
   "55"; "29"; "40"; "8"; "#SUB ID"; "11"; "#TX ID"; "12"; "#NUMBER OF SWITCHES"; "2";
   "#SWITCH IDS"; "13"; "14"; "#NUMBER OF LINES"; "0"; "#SUB ID"; "22"; "#TX ID"; "23";
   "#NUMBER OF SWITCHES"; "2"; "#SWITCH IDS"; "24"; "25"; "#NUMBER OF LINES"; "0"; "#SUB ID";
   "42"; "#TX ID"; "43"; "#NUMBER OF SWITCHES"; "2"; "#SWITCH IDS"; "44"; "45";
   "#NUMBER OF LINES"; "0"; "#SUB ID"; "38"; "#TX ID"; "39"; "#NUMBER OF SWITCHES"; "2";
   "#SWITCH IDS"; "40"; "41"; "#NUMBER OF LINES"; "0"; "#SUB ID"; "59"; "#TX ID"; "62";
   "#NUMBER OF SWITCHES"; "2"; "#SWITCH IDS"; "60"; "61"; "#NUMBER OF LINES"; "0"]%string.

(** The grid the shipped file describes, whatever [malloc] returned. *)
Definition ini_grid : grid :=
  Eval vm_compute in match init (fun _ => 0) (fun _ => mkSwitch 0 0) (fun _ => mkLink 0 0 None 0 None 0 0 0)
          (fun _ => mkTx 0 0) ini (0, 0) with
  | Ret s => the_grid s
  | Fault _ => no_grid
  end.
