(* ===== verification/ScadaMaster.v ===== *)
(** The handlers of the SCADA master: the loop of [main], [read_from_rtu],
    [read_from_hmi], [package_and_send_state] and [apply_state] of
    [scada_master/scada_master.c].

    A message that reaches the loop is its header's record; [IPC_Recv] delivers
    what the ITRC passed on. *)
From Stdlib Require Import ZArith Lia List Bool.
From Stdlib Require Import Strings.Byte.
From stdpp Require Import base list.
From S2P Require Import Prelude Memory ScadaPackets ScadaGrid ScadaInit.

Inductive sm_message :=
| RTU_DATA (m : rtu_status_msg)
| HMI_COMMAND (m : hmi_command_msg)
| BENCHMARK (m : benchmark_msg)
| STATE_REQUEST (m : state_request_msg)
| STATE_XFER (len : Z) (m : state_xfer_msg)
| SYSTEM_RESET
| OTHER_TYPE (type : Z).

(** ** [read_from_rtu] *)
(** The status of the switches of a substation; what is not 0, 1 or 2 is skipped. *)
Definition read_switches (data : list byte) (x : sub) : comp grid unit :=
  run for_ (num_switches x)
        (fun i =>
           v <- load data 4 (o_jhu_sw_status + 4 * i) ;;
           let v := sint32 v in
           if (v =? 1) || (v =? 0) || (v =? 2) then
             p <- or_oob (aget (sw_list x) i) ;;
             set_switch_status p v ;;;
             ret (inl (i + 1))
           else ret (inl (i + 1)))
        0
  as _ ;;
  ret tt.

Definition read_jhu (rtu_id : Z) (data : list byte) : comp grid unit :=
  g <- get ;;
  x <- or_oob (aget (sub_arr g) rtu_id) ;;
  read_switches data x ;;;
  v <- load data 4 o_jhu_tx_status ;;
  let v := sint32 v in
  (if (v =? 1) || (v =? 0) then set_tx_status (tx x) v else ret tt) ;;;
  process.

Definition read_from_rtu (m : rtu_status_msg) : comp sm Z :=
  if (NUM_RTU <=? rs_rtu_id m) || (sp_seq_num (rs_seq m) =? 0) then ret (-1) else
  s <- get ;;
  put (with_clock (rs_sec m, rs_usec m) s) ;;;
  s <- get ;;
  if rs_scen_type m =? JHU then
    if num_jhu_sub (the_grid s) <=? rs_rtu_id m then ret 0 else
    on_grid (read_jhu (rs_rtu_id m) (rs_data m)) ;;; ret 0
  else if rs_scen_type m =? PNNL then
    put (with_pnnl_data (rs_data m) s) ;;; ret 0
  else if rs_scen_type m =? EMS then
    id <- load (rs_data m) 4 o_ems_id ;;
    l <- or_oob (aset (ems_data s) id (rs_data m)) ;;
    put (with_ems_data l s) ;;; ret id
  else ret 0.

(** The update for the operators, from what the scenario's storage now holds.  A
    scenario that is none of the three sends the received message back and frees
    the receive buffer, which [malloc] did not return: an invalid access. *)
Definition send_hmi_update (m : rtu_status_msg) (id : Z) : comp sm unit :=
  s <- get ;;
  status <-
    (if rs_scen_type m =? JHU then ret (map byte_of (stat (the_grid s)))
     else if rs_scen_type m =? PNNL then
       load_bytes (pnnl_data s) PNNL_DATA_PADDING (RTU_DATA_PAYLOAD_LEN - PNNL_DATA_PADDING)
     else if rs_scen_type m =? EMS then or_oob (aget (ems_data s) id)
     else raise OutOfBounds) ;;
  IPC_Send (Hmi_Update
    (PKT_Construct_HMI_Update_Msg (rs_seq m) (rs_scen_type m) status (fst (clock s)) (snd (clock s)))).

(** ** [read_from_hmi] *)
(** The substation whose transformer has the identifier, and the transformer. *)
Fixpoint find_transformer (g : grid) (subs : list sub) (i ttip_pos : Z)
    : comp grid (option (Z * p_tx)) :=
  match subs with
  | [] => ret None
  | x :: subs =>
      t <- deref (tx_arr g) (tx x) ;;
      if ttip_pos =? tx_id t then ret (Some (i, t)) else find_transformer g subs (i + 1) ttip_pos
  end.

Definition find_switch_of (g : grid) (x : sub) (ttip_pos : Z) : comp grid (option (Z * p_switch)) :=
  run for_ (num_switches x)
        (fun z =>
           w <- element (sw_arr g) (sw_list x) z ;;
           ret (if ttip_pos =? switch_id w then inr (Some (z, w)) else inl (z + 1)))
        0
  as _ ;;
  ret None.

(** Substation, position and switch. *)
Fixpoint find_switch (g : grid) (subs : list sub) (i ttip_pos : Z)
    : comp grid (option (Z * Z * p_switch)) :=
  match subs with
  | [] => ret None
  | x :: subs =>
      r <- find_switch_of g x ttip_pos ;;
      match r with
      | Some (z, w) => ret (Some (i, z, w))
      | None => find_switch g subs (i + 1) ttip_pos
      end
  end.

Definition toggled (v : Z) : Z := if v =? 0 then 1 else 0.

Definition jhu_command (m : hmi_command_msg) : comp grid (option feedback_msg) :=
  g <- get ;;
  if hc_type m =? TRANSFORMER then
    r <- find_transformer g (sub_arr g) 0 (hc_ttip_pos m) ;;
    ret (match r with
         | Some (i, t) => Some (PKT_Construct_RTU_Feedback_Msg (hc_seq m) (hc_scen_type m)
             TRANSFORMER i i 0 (toggled (tx_status t)))
         | None => None
         end)
  else if hc_type m =? SWITCH then
    r <- find_switch g (sub_arr g) 0 (hc_ttip_pos m) ;;
    ret (match r with
         | Some (i, z, w) =>
             if switch_status w =? 2 then None
             else Some (PKT_Construct_RTU_Feedback_Msg (hc_seq m) (hc_scen_type m)
                    SWITCH i i z (toggled (switch_status w)))
         | None => None
         end)
  else ret None.

Definition pnnl_command (m : hmi_command_msg) : comp sm (option feedback_msg) :=
  s <- get ;;
  assert_ ((0 <=? hc_ttip_pos m) && (hc_ttip_pos m <? NUM_BREAKER)) ;;;
  val <-
    (if hc_type m =? BREAKER_FLIP then
       v <- load (pnnl_data s) 1 (o_pnnl_breaker_write + hc_ttip_pos m) ;; ret (toggled v)
     else if hc_type m =? BREAKER_ON then ret 1
     else if hc_type m =? BREAKER_OFF then ret 0
     else ret 0) ;;
  ret (Some (PKT_Construct_RTU_Feedback_Msg (hc_seq m) (hc_scen_type m) BREAKER PNNL_RTU_ID
    PNNL_RTU_ID (hc_ttip_pos m) val)).

Definition ems_command (m : hmi_command_msg) : comp sm (option feedback_msg) :=
  s <- get ;;
  l <- modify_at (ems_data s) (hc_ttip_pos m) (put_u32 o_ems_target_generation (wrap32 (hc_type m))) ;;
  put (with_ems_data l s) ;;;
  d <- or_oob (aget l (hc_ttip_pos m)) ;;
  v <- load d 4 o_ems_target_generation ;;
  let rtu := wrap32 (EMS_RTU_ID_BASE + hc_ttip_pos m) in
  ret (Some (PKT_Construct_RTU_Feedback_Msg (hc_seq m) (hc_scen_type m) EMS_TARGET_SET rtu rtu 0
    (sint32 v))).

Definition read_from_hmi (m : hmi_command_msg) : comp sm unit :=
  dad_mess <-
    (if hc_scen_type m =? JHU then on_grid (jhu_command m)
     else if hc_scen_type m =? PNNL then pnnl_command m
     else if hc_scen_type m =? EMS then ems_command m
     else ret None) ;;
  match dad_mess with Some f => IPC_Send (Rtu_Feedback f) | None => ret tt end.

(** ** [package_and_send_state] *)
(** Bytes written at the end of what [state] holds. *)
Definition emit {S} (state bs : list byte) : comp S (list byte) :=
  if Z.of_nat (length state) + Z.of_nat (length bs) <=? MAX_STATE_SIZE
  then ret (state ++ bs) else raise OutOfBounds.

Definition sm_state (client num_fields : Z) : list byte :=
  le_encode 4 client ++ le_encode 4 num_fields.

Definition package_sub (g : grid) (i : Z) (state : list byte) : comp grid (list byte) :=
  x <- or_oob (aget (sub_arr g) i) ;;
  state <- emit state (sm_state i (wrap32 (1 + num_switches x))) ;;
  t <- deref (tx_arr g) (tx x) ;;
  state <- emit state [byte_of (tx_status t)] ;;
  run for_ (num_switches x)
        (fun '(j, state) =>
           w <- element (sw_arr g) (sw_list x) j ;;
           state <- emit state [byte_of (switch_status w)] ;;
           ret (inl (j + 1, state)))
        (0, state)
  as (_, state) ;;
  ret state.

Definition package_subs : comp grid (list byte) :=
  g <- get ;;
  run for_ (num_jhu_sub g)
        (fun '(i, state) => state <- package_sub g i state ;; ret (inl (i + 1, state)))
        (0, [])
  as (_, state) ;;
  ret state.

(** The PNNL fields follow their header without being counted in [num_fields]. *)
Definition package_state : comp sm (list byte) :=
  s <- get ;;
  state <- on_grid package_subs ;;
  state <- emit state (sm_state PNNL_RTU_ID 0) ;;
  bs <- load_bytes (pnnl_data s) PNNL_DATA_PADDING (RTU_DATA_PAYLOAD_LEN - PNNL_DATA_PADDING) ;;
  emit state bs.

Definition package_and_send_state (m : state_request_msg) : comp sm unit :=
  assert_ ((0 <? sr_target m) && (sr_target m <=? NUM_SM)) ;;;
  state <- package_state ;;
  s <- get ;;
  let sx := PKT_Construct_State_Xfer_Msg (sr_target m) (wrap32 (num_jhu_sub (the_grid s) + 1))
              (sr_latest_update m) state in
  assert_ (sz_scada_message + sz_state_xfer_msg + sx_state_size sx <=? MAX_LEN) ;;;
  IPC_Send (State_Xfer sx).

(** ** [apply_state] *)
(** One client's fields at [p]; the result is where the next ones start. *)
Definition apply_sub (contents : list byte) (p : Z) : comp grid Z :=
  g <- get ;;
  client <- load contents 4 p ;;
  x <- or_oob (aget (sub_arr g) client) ;;
  v <- load contents 1 (p + sz_sm_state) ;;
  set_tx_status (tx x) (sint8 v) ;;;
  num_fields <- load contents 4 (p + 4) ;;
  run for_ (wrap32 (num_fields - 1))
        (fun j =>
           w <- or_oob (aget (sw_list x) (j - 1)) ;;
           v <- load contents 1 (p + sz_sm_state + j) ;;
           set_switch_status w (sint8 v) ;;;
           ret (inl (j + 1)))
        1
  as _ ;;
  ret (p + sz_sm_state + num_fields).

Definition apply_subs (contents : list byte) (num_clients : Z) : comp grid Z :=
  run for_ (wrap32 (num_clients - 1))
        (fun p => p <- apply_sub contents p ;; ret (inl p))
        0
  as p ;;
  ret p.

Definition apply_state (My_ID len : Z) (m : state_xfer_msg) : comp sm unit :=
  if negb (sx_target m =? My_ID) then ret tt else
  if MAX_LEN <? sz_scada_message + len then ret tt else
  p <- on_grid (apply_subs (sx_contents m) (sx_num_clients m)) ;;
  bs <- load_bytes (sx_contents m) (p + sz_sm_state) (RTU_DATA_PAYLOAD_LEN - PNNL_DATA_PADDING) ;;
  s <- get ;;
  put (with_pnnl_data (put_bytes (pnnl_data s) PNNL_DATA_PADDING bs) s) ;;;
  assert_ (wrap32 (p + sz_sm_state + (RTU_DATA_PAYLOAD_LEN - PNNL_DATA_PADDING)) =? sx_state_size m) ;;;
  on_grid process.

(** ** The loop of [main] *)
Definition system_reset : comp sm unit :=
  s <- get ;;
  put (with_pnnl_data (zeros RTU_DATA_PAYLOAD_LEN) (with_grid (all_on (the_grid s)) s)).

Section Main.
Context (My_ID : Z).

Definition sm_main (m : sm_message) : comp sm unit :=
  match m with
  | RTU_DATA m => id <- read_from_rtu m ;; send_hmi_update m id
  | HMI_COMMAND m => read_from_hmi m
  | BENCHMARK m =>
      IPC_Send (Benchmark (mkBenchmark (bm_seq m) (bm_sender m) (ping_sec m) (ping_usec m) 0 0))
  | STATE_REQUEST m => package_and_send_state m
  | STATE_XFER len m => apply_state My_ID len m
  | SYSTEM_RESET => system_reset
  | OTHER_TYPE _ => ret tt
  end.

Fixpoint sm_run (ms : list sm_message) : comp sm unit :=
  match ms with [] => ret tt | m :: ms => sm_main m ;;; sm_run ms end.
End Main.

(** ** What the ITRC passes on: [ITRC_Validate_Message] for the types that reach
    the master from Prime *)
Definition ITRC_Validate_Message (m : sm_message) : bool :=
  match m with
  | RTU_DATA m =>
      if (NUM_RTU <=? rs_rtu_id m) || (sp_seq_num (rs_seq m) =? 0) then false
      else if (rs_scen_type m =? JHU) || (rs_scen_type m =? PNNL) then true
      else if rs_scen_type m =? EMS then
        match word_at (rs_data m) 4 o_ems_id with
        | Some id => negb (EMS_NUM_GENERATORS <=? id)
        | None => false
        end
      else false
  | HMI_COMMAND _ | BENCHMARK _ | STATE_XFER _ _ => true
  | STATE_REQUEST _ | SYSTEM_RESET | OTHER_TYPE _ => false
  end.
