(* ===== verification/ScadaCorrect.v ===== *)
(** The search of the SCADA master computes which substations have power.

    The reference definition is the inductive [powered]: the source substation
    has power, and power goes from a substation whose transformer works over a
    line, in a direction the substation lists, when both switches of the line are
    closed.  [process] gives every substation, line and status position what this
    definition says, and returns: the queue empties before the bound of the loop. *)
From Stdlib Require Import ZArith Lia List Bool.
From stdpp Require Import base list decidable.
From S2P Require Import Prelude Memory ScadaPackets ScadaGrid ScadaInit.

(** ** Well-formed grids *)
Definition ptr {A} (l : list A) (p : option Z) : option A :=
  match p with Some i => aget l i | None => None end.

Definition ptr_ok {A} (l : list A) (p : option Z) : bool :=
  match p with Some i => in_bounds l i | None => false end.

Definition ptrs_ok {A} (l : list A) (n : Z) (ps : list (option Z)) : bool :=
  (0 <=? n) && (n <=? Z.of_nat (length ps)) && forallb (ptr_ok l) (take (Z.to_nat n) ps).

Definition sub_ok (g : grid) (x : sub) : bool :=
  ptrs_ok (sw_arr g) (num_switches x) (sw_list x) && (num_switches x <=? MAX_SWITCHES) &&
  ptrs_ok (pl_arr g) (num_lines x) (out_lines x) &&
  ptrs_ok (pl_arr g) (num_in_lines x) (in_lines x) && ptr_ok (tx_arr g) (tx x).

Definition link_ok (g : grid) (l : p_link) : bool :=
  ptr_ok (sw_arr g) (src_sw l) && ptr_ok (sw_arr g) (dest_sw l) &&
  in_bounds (sub_arr g) (src_sub l) && in_bounds (sub_arr g) (dest_sub l).

(** The positions of the status array the components have. *)
Definition ids (g : grid) : list Z :=
  map switch_id (sw_arr g) ++ map link_id (pl_arr g) ++ map sub_id (sub_arr g) ++
  map tx_id (tx_arr g).

Definition grid_ok (g : grid) : bool :=
  in_bounds (sub_arr g) 0 && forallb (sub_ok g) (sub_arr g) && forallb (link_ok g) (pl_arr g) &&
  forallb (in_bounds (stat g)) (ids g) && bool_decide (NoDup (ids g)) &&
  (num_jhu_sub g =? Z.of_nat (length (sub_arr g))).

(** Two grids that differ in statuses only. *)
Definition same_layout (g g' : grid) : Prop := all_on g = all_on g'.

(** ** The reference: who has power *)
Definition link_on (g : grid) (l : p_link) : bool :=
  match ptr (sw_arr g) (src_sw l), ptr (sw_arr g) (dest_sw l) with
  | Some a, Some b => (switch_status a =? 1) && (switch_status b =? 1)
  | _, _ => false
  end.

Definition tx_on (g : grid) (x : sub) : bool :=
  match ptr (tx_arr g) (tx x) with Some t => negb (tx_status t =? 0) | None => false end.

(** The substation lists the line, and this is its other end. *)
Inductive lists (x : sub) (k : Z) (l : p_link) : Z -> Prop :=
| lists_out : Some k ∈ take (Z.to_nat (num_lines x)) (out_lines x) -> lists x k l (dest_sub l)
| lists_in : Some k ∈ take (Z.to_nat (num_in_lines x)) (in_lines x) -> lists x k l (src_sub l).

(** Power can go over line [k] from substation [i] to [far]. *)
Definition conducts (g : grid) (i k far : Z) : Prop :=
  exists x l, aget (sub_arr g) i = Some x /\ aget (pl_arr g) k = Some l /\
    tx_on g x = true /\ link_on g l = true /\ lists x k l far.

Inductive powered (g : grid) : Z -> Prop :=
| powered_source : powered g 0
| powered_over i k far : powered g i -> conducts g i k far -> powered g far.

Definition energised (g : grid) (k : Z) : Prop :=
  exists i far, powered g i /\ conducts g i k far.

Definition tripped (g : grid) (l : p_link) : bool :=
  match ptr (sw_arr g) (src_sw l) with Some a => switch_status a =? 2 | None => false end.

(** A status that says whether a proposition holds. *)
Definition says (v : Z) (P : Prop) : Prop := v = 1 /\ P \/ v = 0 /\ ~ P.

(** [g'] is [g] with the statuses that follow from its switches and transformers. *)
Record worked_out (g g' : grid) : Prop := {
  wo_layout : same_layout g g';
  wo_switches : sw_arr g' = sw_arr g;
  wo_txs : tx_arr g' = tx_arr g;
  wo_subs : forall i x, aget (sub_arr g') i = Some x -> says (sub_status x) (powered g i);
  wo_links : forall k l, aget (pl_arr g') k = Some l ->
    if tripped g l then link_status l = 2 else says (link_status l) (energised g k);
  wo_stat : forall id v, (id, v) ∈ stat_entries g' -> aget (stat g') id = Some v }.

(** ** Arrays and layouts *)
Lemma deref_ptr {S A} (l : list A) p : deref (S := S) l p = or_oob (ptr l p).
Proof. destruct p; reflexivity. Qed.

Lemma ptr_ok_Some {A} (l : list A) p : ptr_ok l p = true -> exists i x, p = Some i /\ aget l i = Some x.
Proof.
  destruct p as [i|]; [|discriminate]. intros H%in_bounds_spec.
  destruct (aget_is_Some l i H) as [x Hx]. eauto.
Qed.

Lemma ptrs_ok_at {A} (l : list A) n ps i :
  ptrs_ok l n ps = true -> 0 <= i < n ->
  exists k x, aget ps i = Some (Some k) /\ aget l k = Some x /\
    Some k ∈ take (Z.to_nat n) ps.
Proof.
  unfold ptrs_ok. rewrite !andb_true_iff, !Z.leb_le, forallb_forall. intros [[H1 H2] H3] Hi.
  destruct (aget_is_Some ps i) as [p Hp]; [lia|].
  assert (Hin : p ∈ take (Z.to_nat n) ps).
  { apply list_elem_of_lookup. exists (Z.to_nat i). rewrite lookup_take_lt by lia.
    unfold aget in Hp. destruct (in_bounds ps i); [exact Hp|discriminate]. }
  destruct (ptr_ok_Some l p (H3 p (proj1 (list_elem_of_In _ _) Hin))) as (k & x & -> & Hx). eauto.
Qed.

Lemma listed_at {A} (l : list A) n ps k :
  ptrs_ok l n ps = true -> Some k ∈ take (Z.to_nat n) ps ->
  exists i, 0 <= i < n /\ aget ps i = Some (Some k).
Proof.
  unfold ptrs_ok. rewrite !andb_true_iff, !Z.leb_le. intros [[H1 H2] _] [j Hj]%list_elem_of_lookup.
  apply lookup_take_Some in Hj. destruct Hj as [Hj Hlt]. exists (Z.of_nat j).
  split; [lia|apply aget_lookup, Hj].
Qed.

Lemma map_aget {A B} (f : A -> B) l l' i x :
  map f l = map f l' -> aget l i = Some x -> exists x', aget l' i = Some x' /\ f x' = f x.
Proof.
  intros Hm Hx. assert (H : aget (map f l') i = Some (f x)) by (rewrite <- Hm, aget_map, Hx; reflexivity).
  rewrite aget_map in H. destruct (aget l' i) as [x'|]; [|discriminate]. injection H as H. eauto.
Qed.

Lemma map_aset_same {A B} (f : A -> B) l l' i x y :
  aget l i = Some x -> aset l i y = Some l' -> f y = f x -> map f l' = map f l.
Proof.
  intros Hx Hs Hf. apply aget_ext; [rewrite !length_map; eapply aset_length; exact Hs|].
  intros j a b. rewrite !aget_map. destruct (decide (j = i)) as [->|Hj].
  - rewrite (aget_aset_eq _ _ _ _ Hs), Hx. cbn. congruence.
  - rewrite (aget_aset_ne _ _ _ _ _ Hs) by congruence. congruence.
Qed.

Lemma map_length_eq {A B} (f : A -> B) l l' : map f l = map f l' -> length l = length l'.
Proof. intros H%(f_equal length). rewrite !length_map in H. exact H. Qed.

(** *** What a layout fixes *)
Section Layout.
Context {g g' : grid} (Hl : same_layout g g').

Lemma layout_maps :
  map (fun _ => 1) (stat g) = map (fun _ => 1) (stat g') /\
  map (switch_with_status 1) (sw_arr g) = map (switch_with_status 1) (sw_arr g') /\
  map (link_with_status 1) (pl_arr g) = map (link_with_status 1) (pl_arr g') /\
  map (sub_with_status 1) (sub_arr g) = map (sub_with_status 1) (sub_arr g') /\
  map (tx_with_status 1) (tx_arr g) = map (tx_with_status 1) (tx_arr g') /\
  num_jhu_sub g = num_jhu_sub g'.
Proof. injection Hl as H1 H2 H3 H4 H5 H6. repeat split; assumption. Qed.

Lemma layout_lengths :
  length (stat g) = length (stat g') /\ length (sw_arr g) = length (sw_arr g') /\
  length (pl_arr g) = length (pl_arr g') /\ length (sub_arr g) = length (sub_arr g') /\
  length (tx_arr g) = length (tx_arr g').
Proof.
  destruct layout_maps as (H1 & H2 & H3 & H4 & H5 & _).
  repeat split; eapply map_length_eq; eassumption.
Qed.

Lemma layout_sub i x : aget (sub_arr g) i = Some x ->
  exists x', aget (sub_arr g') i = Some x' /\ sub_with_status 1 x' = sub_with_status 1 x.
Proof. apply map_aget, layout_maps. Qed.

Lemma layout_link k l : aget (pl_arr g) k = Some l ->
  exists l', aget (pl_arr g') k = Some l' /\ link_with_status 1 l' = link_with_status 1 l.
Proof. apply map_aget, layout_maps. Qed.
End Layout.

Lemma same_layout_refl g : same_layout g g.
Proof. reflexivity. Qed.

Lemma same_layout_sym g g' : same_layout g g' -> same_layout g' g.
Proof. intros H. symmetry. exact H. Qed.

Lemma same_layout_trans g1 g2 g3 : same_layout g1 g2 -> same_layout g2 g3 -> same_layout g1 g3.
Proof. intros H1 H2. transitivity (all_on g2); assumption. Qed.

(** *** Well-formedness is about the layout *)
Lemma forallb_map {A B} (f : A -> B) p l : forallb p (map f l) = forallb (fun x => p (f x)) l.
Proof. induction l as [|x l IH]; cbn; [|rewrite IH]; reflexivity. Qed.

Lemma in_bounds_map {A B} (f : A -> B) (l : list A) i : in_bounds (map f l) i = in_bounds l i.
Proof. unfold in_bounds. rewrite length_map. reflexivity. Qed.

Lemma ptr_ok_map {A B} (f : A -> B) (l : list A) p : ptr_ok (map f l) p = ptr_ok l p.
Proof. destruct p; [apply in_bounds_map|reflexivity]. Qed.

Lemma ptrs_ok_map {A B} (f : A -> B) (l : list A) n ps : ptrs_ok (map f l) n ps = ptrs_ok l n ps.
Proof.
  unfold ptrs_ok. f_equal. induction (take (Z.to_nat n) ps) as [|p qs IH]; cbn; [reflexivity|].
  rewrite ptr_ok_map, IH. reflexivity.
Qed.

Lemma ids_all_on g : ids (all_on g) = ids g.
Proof. unfold ids, all_on. cbn. rewrite !map_map. reflexivity. Qed.

Lemma forallb_same {A} (p q : A -> bool) l : (forall x, p x = q x) -> forallb p l = forallb q l.
Proof. intros H. induction l as [|x l IH]; cbn; [|rewrite H, IH]; reflexivity. Qed.

Lemma grid_ok_all_on g : grid_ok (all_on g) = grid_ok g.
Proof.
  unfold grid_ok. rewrite ids_all_on. unfold all_on; cbn [sub_arr pl_arr stat num_jhu_sub].
  rewrite in_bounds_map, !forallb_map, length_map.
  rewrite (forallb_same _ (sub_ok g)), (forallb_same _ (link_ok g)), (forallb_same _ (in_bounds (stat g)));
    [reflexivity|..]; intros x.
  - apply in_bounds_map.
  - unfold link_ok. cbn. rewrite !ptr_ok_map, !in_bounds_map. reflexivity.
  - unfold sub_ok. cbn. rewrite !ptrs_ok_map, ptr_ok_map. reflexivity.
Qed.

Lemma grid_ok_layout g g' : same_layout g g' -> grid_ok g = grid_ok g'.
Proof. intros H. rewrite <- (grid_ok_all_on g), <- (grid_ok_all_on g'), H. reflexivity. Qed.

Lemma ids_layout g g' : same_layout g g' -> ids g = ids g'.
Proof. intros H. rewrite <- (ids_all_on g), <- (ids_all_on g'), H. reflexivity. Qed.

Lemma forallb_aget {A} (p : A -> bool) l i x : forallb p l = true -> aget l i = Some x -> p x = true.
Proof. rewrite forallb_forall. intros H Hx. apply H, list_elem_of_In, (aget_elem _ _ _ Hx). Qed.

Section Ok.
Context {g : grid} (Hok : grid_ok g = true).

Lemma ok_parts :
  in_bounds (sub_arr g) 0 = true /\ forallb (sub_ok g) (sub_arr g) = true /\
  forallb (link_ok g) (pl_arr g) = true /\ forallb (in_bounds (stat g)) (ids g) = true /\
  NoDup (ids g) /\ num_jhu_sub g = Z.of_nat (length (sub_arr g)).
Proof.
  unfold grid_ok in Hok. rewrite !andb_true_iff, bool_decide_eq_true, Z.eqb_eq in Hok. tauto.
Qed.

Lemma ok_sub i x : aget (sub_arr g) i = Some x ->
  ptrs_ok (sw_arr g) (num_switches x) (sw_list x) = true /\ num_switches x <= MAX_SWITCHES /\
  ptrs_ok (pl_arr g) (num_lines x) (out_lines x) = true /\
  ptrs_ok (pl_arr g) (num_in_lines x) (in_lines x) = true /\ ptr_ok (tx_arr g) (tx x) = true.
Proof.
  intros Hx. destruct ok_parts as (_ & H & _). pose proof (forallb_aget _ _ _ _ H Hx) as Hs.
  unfold sub_ok in Hs. rewrite !andb_true_iff, Z.leb_le in Hs. tauto.
Qed.

Lemma ok_link k l : aget (pl_arr g) k = Some l ->
  ptr_ok (sw_arr g) (src_sw l) = true /\ ptr_ok (sw_arr g) (dest_sw l) = true /\
  0 <= src_sub l < Z.of_nat (length (sub_arr g)) /\ 0 <= dest_sub l < Z.of_nat (length (sub_arr g)).
Proof.
  intros Hl. destruct ok_parts as (_ & _ & H & _). pose proof (forallb_aget _ _ _ _ H Hl) as Hs.
  unfold link_ok in Hs. rewrite !andb_true_iff, !in_bounds_spec in Hs. tauto.
Qed.

Lemma ok_source : exists x, aget (sub_arr g) 0 = Some x.
Proof. destruct ok_parts as (H & _). apply in_bounds_spec in H. apply aget_is_Some, H. Qed.
End Ok.

(** ** Writing a status *)
Lemma wp_modify_at {S A} (F : fault -> Prop) (l : list A) i x (f : A -> A) Q (s : S) :
  aget l i = Some x -> (forall l', aset l i (f x) = Some l' -> Q l' s) -> wp F (modify_at l i f) Q s.
Proof.
  intros Hx H. unfold modify_at. apply wp_bind. eapply wp_or_oob_Some; [exact Hx|].
  apply wp_aset_in; [apply (aget_Some_bounds _ _ _ Hx)|exact H].
Qed.

Lemma wp_set_link k l v (Q : unit -> grid -> Prop) g :
  aget (pl_arr g) k = Some l ->
  (forall ls, aset (pl_arr g) k (link_with_status v l) = Some ls -> Q tt (with_pl_arr ls g)) ->
  wp no_fault (set_link_status (Some k) v) Q g.
Proof.
  intros Hl H. apply wp_bind, wp_get. cbv beta iota. apply wp_bind.
  eapply wp_modify_at; [exact Hl|]. intros ls Hs. apply wp_put. apply H, Hs.
Qed.

Lemma wp_set_sub i x v (Q : unit -> grid -> Prop) g :
  aget (sub_arr g) i = Some x ->
  (forall l, aset (sub_arr g) i (sub_with_status v x) = Some l -> Q tt (with_sub_arr l g)) ->
  wp no_fault (set_sub_status i v) Q g.
Proof.
  intros Hl H. apply wp_bind, wp_get. cbv beta iota. apply wp_bind.
  eapply wp_modify_at; [exact Hl|]. intros ls Hs. apply wp_put. apply H, Hs.
Qed.

Lemma wp_set_switch k w v (Q : unit -> grid -> Prop) g :
  aget (sw_arr g) k = Some w ->
  (forall l, aset (sw_arr g) k (switch_with_status v w) = Some l -> Q tt (with_sw_arr l g)) ->
  wp no_fault (set_switch_status (Some k) v) Q g.
Proof.
  intros Hl H. apply wp_bind, wp_get. cbv beta iota. apply wp_bind.
  eapply wp_modify_at; [exact Hl|]. intros ls Hs. apply wp_put. apply H, Hs.
Qed.

Lemma wp_set_tx k t v (Q : unit -> grid -> Prop) g :
  aget (tx_arr g) k = Some t ->
  (forall l, aset (tx_arr g) k (tx_with_status v t) = Some l -> Q tt (with_tx_arr l g)) ->
  wp no_fault (set_tx_status (Some k) v) Q g.
Proof.
  intros Hl H. apply wp_bind, wp_get. cbv beta iota. apply wp_bind.
  eapply wp_modify_at; [exact Hl|]. intros ls Hs. apply wp_put. apply H, Hs.
Qed.

(** ** The search *)
Definition lit (g : grid) (i : Z) : Prop := exists x, aget (sub_arr g) i = Some x /\ sub_status x = 1.

Definition link_lit (g : grid) (k : Z) : Prop :=
  exists l, aget (pl_arr g) k = Some l /\ link_status l = 1.

Definition unlit (g : grid) : Z :=
  Z.of_nat (length (List.filter (fun x => sub_status x =? 0) (sub_arr g))).

Section Search.
Context (g0 : grid) (Hok : grid_ok g0 = true).

Record search (q : queue) (g : grid) : Prop := {
  s_layout : same_layout g0 g;
  s_sw : sw_arr g = sw_arr g0;
  s_tx : tx_arr g = tx_arr g0;
  s_stat : stat g = stat g0;
  s_subs : forall i x, aget (sub_arr g) i = Some x ->
    sub_status x = 0 \/ sub_status x = 1 /\ powered g0 i;
  s_links : forall k l, aget (pl_arr g) k = Some l ->
    link_status l = 0 \/ link_status l = 1 /\ energised g0 k;
  s_queue : forall i, i ∈ q -> lit g i }.

(** A part of the search: what is lit stays so, what becomes lit is in the queue. *)
Record advance (q : queue) (g : grid) (q' : queue) (g' : grid) : Prop := {
  a_lit : forall i, lit g i -> lit g' i;
  a_link : forall k, link_lit g k -> link_lit g' k;
  a_new : forall i, lit g' i -> lit g i \/ i ∈ q';
  a_queue : forall i, i ∈ q -> i ∈ q';
  a_measure : Z.of_nat (length q') + unlit g' = Z.of_nat (length q) + unlit g }.

Lemma advance_refl q g : advance q g q g.
Proof. split; auto. Qed.

Lemma advance_trans q1 g1 q2 g2 q3 g3 :
  advance q1 g1 q2 g2 -> advance q2 g2 q3 g3 -> advance q1 g1 q3 g3.
Proof.
  intros [A1 A2 A3 A4 A5] [B1 B2 B3 B4 B5].
  split; auto; [|congruence]. intros i [H|H]%B3; [apply A3 in H as [H|H]; auto|auto].
Qed.

Lemma s_sub_static q g i x : search q g -> aget (sub_arr g0) i = Some x ->
  exists x', aget (sub_arr g) i = Some x' /\ sub_with_status 1 x' = sub_with_status 1 x.
Proof. intros Hs. apply (layout_sub (s_layout _ _ Hs)). Qed.

Lemma s_link_static q g k l : search q g -> aget (pl_arr g0) k = Some l ->
  exists l', aget (pl_arr g) k = Some l' /\ link_with_status 1 l' = link_with_status 1 l.
Proof. intros Hs. apply (layout_link (s_layout _ _ Hs)). Qed.

(** A line is marked. *)
Lemma search_mark_link q g k l ls :
  search q g -> energised g0 k -> aget (pl_arr g) k = Some l ->
  aset (pl_arr g) k (link_with_status 1 l) = Some ls ->
  search q (with_pl_arr ls g) /\ advance q g q (with_pl_arr ls g) /\ link_lit (with_pl_arr ls g) k.
Proof.
  intros [L1 L2 L3 L4 S1 S2 S3] He Hl Hs.
  assert (Hk : forall j l', aget ls j = Some l' ->
                 j = k /\ l' = link_with_status 1 l \/ aget (pl_arr g) j = Some l').
  { intros j l' Hj. destruct (decide (j = k)) as [->|Hne].
    - rewrite (aget_aset_eq _ _ _ _ Hs) in Hj. injection Hj as <-. auto.
    - rewrite (aget_aset_ne _ _ _ _ _ Hs) in Hj by congruence. auto. }
  split; [|split].
  - split; auto.
    + eapply same_layout_trans; [exact L1|]. unfold same_layout, all_on, with_pl_arr. cbn. f_equal.
      symmetry. eapply map_aset_same; [exact Hl|exact Hs|reflexivity].
    + intros j l' [[-> ->]|Hj]%Hk; [right; auto|eauto].
  - split; auto. intros j (l' & Hj & H1). destruct (decide (j = k)) as [->|Hne].
    + exists (link_with_status 1 l). split; [apply (aget_aset_eq _ _ _ _ Hs)|reflexivity].
    + exists l'. split; [|exact H1]. cbn. rewrite (aget_aset_ne _ _ _ _ _ Hs) by congruence. exact Hj.
  - exists (link_with_status 1 l). split; [apply (aget_aset_eq _ _ _ _ Hs)|reflexivity].
Qed.

Lemma unlit_light (l l' : list sub) i x :
  aget l i = Some x -> sub_status x = 0 -> aset l i (sub_with_status 1 x) = Some l' ->
  Z.of_nat (length (List.filter (fun y => sub_status y =? 0) l')) + 1 =
  Z.of_nat (length (List.filter (fun y => sub_status y =? 0) l)).
Proof.
  intros Hx H0 Hs. pose proof (aget_Some_bounds _ _ _ Hx) as Hb.
  rewrite aset_Some in Hs by exact Hb. injection Hs as <-.
  assert (Hl : l !! Z.to_nat i = Some x).
  { unfold aget in Hx. destruct (in_bounds l i); [exact Hx|discriminate]. }
  rewrite insert_take_drop by lia. rewrite <- (take_drop_middle l _ _ Hl) at 3.
  rewrite !List.filter_app, !length_app. cbn [List.filter sub_status sub_with_status].
  rewrite H0. cbn. lia.
Qed.

(** A substation gets power and enters the queue. *)
Lemma search_light_sub q g i x l :
  search q g -> powered g0 i -> aget (sub_arr g) i = Some x -> sub_status x = 0 ->
  aset (sub_arr g) i (sub_with_status 1 x) = Some l ->
  search (enqueue i q) (with_sub_arr l g) /\ advance q g (enqueue i q) (with_sub_arr l g) /\
  lit (with_sub_arr l g) i.
Proof.
  intros [L1 L2 L3 L4 S1 S2 S3] He Hx H0 Hs.
  assert (Hi : lit (with_sub_arr l g) i)
    by (exists (sub_with_status 1 x); split; [apply (aget_aset_eq _ _ _ _ Hs)|reflexivity]).
  assert (Hmono : forall j, lit g j -> lit (with_sub_arr l g) j).
  { intros j (y & Hy & H1). destruct (decide (j = i)) as [->|Hne]; [exact Hi|].
    exists y. split; [|exact H1]. cbn. rewrite (aget_aset_ne _ _ _ _ _ Hs) by congruence. exact Hy. }
  assert (Hk : forall j y, aget l j = Some y ->
                 j = i /\ y = sub_with_status 1 x \/ aget (sub_arr g) j = Some y).
  { intros j y Hj. destruct (decide (j = i)) as [->|Hne].
    - rewrite (aget_aset_eq _ _ _ _ Hs) in Hj. injection Hj as <-. auto.
    - rewrite (aget_aset_ne _ _ _ _ _ Hs) in Hj by congruence. auto. }
  unfold enqueue. split; [|split; [|exact Hi]].
  - split; auto.
    + eapply same_layout_trans; [exact L1|]. unfold same_layout, all_on, with_sub_arr. cbn. f_equal.
      symmetry. eapply map_aset_same; [exact Hx|exact Hs|reflexivity].
    + intros j y [[-> ->]|Hj]%Hk; [right; auto|eauto].
    + intros j [Hj| ->%list_elem_of_singleton]%elem_of_app; [apply Hmono, S3, Hj|exact Hi].
  - split; auto.
    + intros j (y & [[-> _]|Hj]%Hk & H1).
      * right. apply elem_of_app. right. apply list_elem_of_singleton. reflexivity.
      * left. exists y. auto.
    + intros j Hj. apply elem_of_app. auto.
    + unfold unlit. cbn [sub_arr with_sub_arr]. pose proof (unlit_light _ _ _ _ Hx H0 Hs).
      rewrite length_app. cbn. lia.
Qed.
Lemma link_static (l l' : p_link) : link_with_status 1 l' = link_with_status 1 l ->
  src_sw l' = src_sw l /\ dest_sw l' = dest_sw l /\ src_sub l' = src_sub l /\
  dest_sub l' = dest_sub l.
Proof. intros [=]. auto. Qed.

Lemma sub_static (x x' : sub) : sub_with_status 1 x' = sub_with_status 1 x ->
  num_switches x' = num_switches x /\ num_lines x' = num_lines x /\
  num_in_lines x' = num_in_lines x /\ sw_list x' = sw_list x /\ out_lines x' = out_lines x /\
  in_lines x' = in_lines x /\ tx x' = tx x /\ sub_id x' = sub_id x.
Proof. intros [=]. repeat split; assumption. Qed.

(** The line of the turn is as the search should leave it. *)
Definition visited (far : p_link -> Z) (k : Z) (g : grid) : Prop :=
  forall l, aget (pl_arr g0) k = Some l -> link_on g0 l = true -> lit g (far l) /\ link_lit g k.

Lemma visited_advance far k q g q' g' : advance q g q' g' -> visited far k g -> visited far k g'.
Proof. intros A H l Hl Hon. destruct (H l Hl Hon). split; [eapply a_lit|eapply a_link]; eassumption. Qed.

Section Visit.
Context (far : p_link -> Z)
  (Hfar : forall l l', link_with_status 1 l' = link_with_status 1 l -> far l' = far l)
  (Hin : forall k l, aget (pl_arr g0) k = Some l -> 0 <= far l < Z.of_nat (length (sub_arr g0))).

Lemma wp_mark_far q g i k l l' :
  search q g -> powered g0 i -> conducts g0 i k (far l) -> aget (pl_arr g0) k = Some l ->
  aget (pl_arr g) k = Some l' -> far l' = far l ->
  wp no_fault
    (set_link_status (Some k) 1 ;;;
     h <- get ;;
     y <- or_oob (aget (sub_arr h) (far l')) ;;
     if sub_status y =? 0 then set_sub_status (far l') 1 ;;; ret (enqueue (far l') q) else ret q)
    (fun q' g' => search q' g' /\ advance q g q' g' /\ lit g' (far l) /\ link_lit g' k) g.
Proof.
  intros Hs Hp Hc Hl0 Hl' Ef. rewrite Ef. apply wp_bind. eapply wp_set_link; [exact Hl'|].
  intros ls Hls. assert (He : energised g0 k) by (exists i, (far l); auto).
  destruct (search_mark_link q g k l' ls Hs He Hl' Hls) as (Hs1 & A1 & K1).
  set (h := with_pl_arr ls g) in *. apply wp_bind, wp_get. apply wp_bind.
  destruct (aget_is_Some (sub_arr h) (far l)) as [y Hy].
  { destruct (layout_lengths (s_layout _ _ Hs1)) as (_ & _ & _ & <- & _). apply (Hin _ _ Hl0). }
  eapply wp_or_oob_Some; [exact Hy|].
  assert (Hpf : powered g0 (far l)) by (apply (powered_over _ i k); assumption).
  destruct (sub_status y =? 0) eqn:E0; rewrite ?Z.eqb_eq, ?Z.eqb_neq in E0.
  - apply wp_bind. eapply wp_set_sub; [exact Hy|]. intros xs Hxs. apply wp_ret.
    destruct (search_light_sub q h (far l) y xs Hs1 Hpf Hy E0 Hxs) as (Hs2 & A2 & K2).
    split; [exact Hs2|]. split; [eapply advance_trans; eassumption|].
    split; [exact K2|apply (a_link _ _ _ _ A2), K1].
  - apply wp_ret. split; [exact Hs1|]. split; [exact A1|]. split; [|exact K1].
    exists y. split; [exact Hy|]. destruct (s_subs _ _ Hs1 _ _ Hy) as [?|[? _]]; [contradiction|assumption].
Qed.

Lemma wp_visit_line q g i x k l :
  search q g -> powered g0 i -> aget (sub_arr g0) i = Some x -> tx_on g0 x = true ->
  aget (pl_arr g0) k = Some l -> lists x k l (far l) ->
  wp no_fault (visit_line far (Some k) q)
    (fun q' g' => search q' g' /\ advance q g q' g' /\ visited far k g') g.
Proof.
  intros Hs Hp Hx Htx Hl Hli. destruct (s_link_static _ _ _ _ Hs Hl) as (l' & Hl' & Est).
  destruct (link_static _ _ Est) as (E1 & E2 & _). pose proof (Hfar _ _ Est) as Ef.
  destruct (ok_link Hok _ _ Hl) as (P1 & P2 & _).
  apply ptr_ok_Some in P1 as (k1 & a & S1 & A1). apply ptr_ok_Some in P2 as (k2 & b & S2 & A2).
  assert (Hon : link_on g0 l = (switch_status a =? 1) && (switch_status b =? 1))
    by (unfold link_on, ptr; rewrite S1, S2, A1, A2; reflexivity).
  assert (Hskip : link_on g0 l = false ->
            wp no_fault (ret q) (fun q' g' => search q' g' /\ advance q g q' g' /\ visited far k g') g).
  { intros Hf. apply wp_ret. split; [exact Hs|]. split; [apply advance_refl|].
    intros l2 Hl2 Hon2. congruence. }
  unfold visit_line. apply wp_bind, wp_get. apply wp_bind. rewrite deref_ptr.
  eapply wp_or_oob_Some; [exact Hl'|]. rewrite E1, S1. apply wp_bind. rewrite deref_ptr.
  eapply wp_or_oob_Some; [cbn; rewrite (s_sw _ _ Hs); exact A1|].
  destruct (switch_status a =? 1) eqn:Ea; [|apply Hskip; exact Hon].
  rewrite E2, S2. apply wp_bind. rewrite deref_ptr.
  eapply wp_or_oob_Some; [cbn; rewrite (s_sw _ _ Hs); exact A2|].
  destruct (switch_status b =? 1) eqn:Eb; [|apply Hskip; exact Hon].
  eapply wp_conseq; [eapply (wp_mark_far q g i k l l'); try eassumption|].
  - exists x, l. repeat split; assumption.
  - intros q' g' (H1 & H2 & H3 & H4). split; [exact H1|]. split; [exact H2|].
    intros l2 Hl2 _. replace l2 with l by congruence. auto.
Qed.

Lemma wp_visit_lines q g i x n ps :
  search q g -> powered g0 i -> aget (sub_arr g0) i = Some x -> tx_on g0 x = true ->
  ptrs_ok (pl_arr g0) n ps = true ->
  (forall k l, Some k ∈ take (Z.to_nat n) ps -> lists x k l (far l)) ->
  wp no_fault (visit_lines far n ps q)
    (fun q' g' => search q' g' /\ advance q g q' g' /\
       forall k, Some k ∈ take (Z.to_nat n) ps -> visited far k g') g.
Proof.
  intros Hs Hp Hx Htx Hps Hli. unfold visit_lines. apply wp_loop_then.
  apply (wp_for _ (fun j '(i', q') g' => i' = j /\ search q' g' /\ advance q g q' g' /\
           forall m k, 0 <= m < j -> aget ps m = Some (Some k) -> visited far k g')).
  - intros j [i' q1] g1 Hj (-> & Hs1 & A1 & V1).
    destruct (ptrs_ok_at _ _ _ _ Hps Hj) as (k & l & Hk & Hl & Hin1).
    apply wp_bind. eapply wp_or_oob_Some; [exact Hk|]. apply wp_bind.
    eapply wp_conseq; [eapply wp_visit_line; eauto|].
    intros q2 g2 (Hs2 & A2 & V2). apply wp_ret. cbn. split; [lia|]. split; [exact Hs2|].
    split; [eapply advance_trans; eassumption|].
    intros m k' Hm Hk'. destruct (decide (m = j)) as [->|Hne].
    + replace k' with k by congruence. exact V2.
    + eapply visited_advance; [exact A2|]. apply (V1 m k'); [lia|exact Hk'].
  - split; [reflexivity|]. split; [exact Hs|]. split; [apply advance_refl|]. intros; lia.
  - intros [i' q'] g' (-> & Hs' & A' & V'). apply wp_ret. split; [exact Hs'|]. split; [exact A'|].
    intros k Hk. destruct (listed_at _ _ _ _ Hps Hk) as (m & Hm & Ek). apply (V' m); [lia|exact Ek].
Qed.
End Visit.

(** Everything substation [i] feeds directly has been visited. *)
Definition expanded (i : Z) (g : grid) : Prop :=
  forall k far, conducts g0 i k far -> lit g far /\ link_lit g k.

Lemma expanded_advance i q g q' g' : advance q g q' g' -> expanded i g -> expanded i g'.
Proof. intros A H k far Hc. destruct (H k far Hc). split; [eapply a_lit|eapply a_link]; eassumption. Qed.

Lemma wp_visit_sub q g i :
  search q g -> lit g i ->
  wp no_fault (visit_sub i q) (fun q' g' => search q' g' /\ advance q g q' g' /\ expanded i g') g.
Proof.
  intros Hs (y & Hy & H1). unfold visit_sub. apply wp_bind, wp_get. apply wp_bind.
  eapply wp_or_oob_Some; [exact Hy|].
  destruct (layout_sub (same_layout_sym _ _ (s_layout _ _ Hs)) _ _ Hy) as (x & Hx & Est).
  destruct (sub_static _ _ (eq_sym Est)) as (_ & E1 & E2 & _ & E3 & E4 & E5 & _).
  destruct (ok_sub Hok _ _ Hx) as (_ & _ & P1 & P2 & P3).
  apply ptr_ok_Some in P3 as (k & t & Ek & Ht).
  assert (Hp : powered g0 i) by (destruct (s_subs _ _ Hs _ _ Hy) as [?|[_ ?]]; [lia|assumption]).
  assert (Hon : tx_on g0 x = negb (tx_status t =? 0)) by (unfold tx_on, ptr; rewrite Ek, Ht; reflexivity).
  rewrite E5, E1, E2, E3, E4. apply wp_bind. rewrite deref_ptr, Ek.
  eapply wp_or_oob_Some; [cbn; rewrite (s_tx _ _ Hs); exact Ht|].
  destruct (tx_status t =? 0) eqn:E0.
  { apply wp_ret. split; [exact Hs|]. split; [apply advance_refl|].
    intros k' far (x' & l & Hx' & _ & Hon' & _). replace x' with x in * by congruence.
    rewrite Hon in Hon'. discriminate. }
  apply wp_bind. eapply wp_conseq; [apply (wp_visit_lines dest_sub) with (i := i) (x := x); auto|].
  - intros l l' E%link_static. tauto.
  - intros k' l Hl. apply (ok_link Hok _ _ Hl).
  - intros k' l Hk. apply lists_out, Hk.
  - intros q1 g1 (Hs1 & A1 & V1).
    eapply wp_conseq; [apply (wp_visit_lines src_sub) with (i := i) (x := x); auto|].
    + intros l l' E%link_static. tauto.
    + intros k' l Hl. apply (ok_link Hok _ _ Hl).
    + intros k' l Hk. apply lists_in, Hk.
    + intros q2 g2 (Hs2 & A2 & V2). split; [exact Hs2|]. split; [eapply advance_trans; eassumption|].
      intros k' far (x' & l & Hx' & Hl & _ & Hlo & Hli). replace x' with x in * by congruence.
      destruct Hli as [Hk|Hk].
      * eapply visited_advance; [exact A2|apply (V1 k' Hk)|exact Hl|exact Hlo].
      * apply (V2 k' Hk); assumption.
Qed.

(** *** The whole search *)
Lemma wp_bfs g :
  search [0] g -> unlit g + 1 <= Z.of_nat (length (sub_arr g)) ->
  (forall i, lit g i -> i = 0) ->
  wp no_fault (bfs (enqueue 0 queue_init))
    (fun _ g' => search [] g' /\ lit g' 0 /\ forall i, lit g' i -> expanded i g') g.
Proof.
  intros Hs Hu H0. unfold bfs. apply wp_bind, wp_get. apply wp_loop_then.
  apply (wp_while_st _ (fun q g' => search q g' /\ lit g' 0 /\
             forall i, lit g' i -> i ∈ q \/ expanded i g')
           (fun q g' => Z.of_nat (length q) + unlit g')).
  - intros [|v q] g1 (Hs1 & Z1 & D1) Hc; [discriminate|]. cbn [dequeue]. apply wp_bind, wp_ret.
    cbn [fst snd]. apply wp_bind.
    assert (Hlit : lit g1 v) by (apply (s_queue _ _ Hs1); left).
    assert (Hs1' : search q g1) by (destruct Hs1; split; auto; intros j Hj; apply s_queue0; right; exact Hj).
    eapply wp_conseq; [apply wp_visit_sub; eassumption|]. intros q2 g2 (Hs2 & A2 & E2).
    apply wp_ret. cbn [turn]. split; [split; [exact Hs2|split; [apply (a_lit _ _ _ _ A2), Z1|]]|].
    + intros i Hi. destruct (a_new _ _ _ _ A2 _ Hi) as [Hi1|Hi2]; [|left; exact Hi2].
      destruct (D1 _ Hi1) as [[->|Hq]%elem_of_cons|He].
      * right. exact E2.
      * left. apply (a_queue _ _ _ _ A2), Hq.
      * right. eapply expanded_advance; eassumption.
    + pose proof (a_measure _ _ _ _ A2) as M. unfold unlit in *. cbn [length] in *. lia.
  - intros [|v q] g1 (Hs1 & Z1 & D1) Hc; [|discriminate]. apply wp_ret. split; [exact Hs1|].
    split; [exact Z1|]. intros i Hi. destruct (D1 i Hi) as [H|H]; [inversion H|exact H].
  - split; [exact Hs|]. split; [apply (s_queue _ _ Hs); left|].
    intros i Hi. left. rewrite (H0 i Hi). left.
  - unfold unlit in *. cbn [length enqueue queue_init app]. lia.
Qed.
End Search.

(** ** Power is a matter of the layout, the switches and the transformers *)
Lemma conducts_same g g' i k far :
  same_layout g g' -> sw_arr g' = sw_arr g -> tx_arr g' = tx_arr g ->
  conducts g i k far -> conducts g' i k far.
Proof.
  intros Hl Hsw Htx (x & l & Hx & Hk & H1 & H2 & H3).
  destruct (layout_sub Hl _ _ Hx) as (x' & Hx' & Ex). destruct (layout_link Hl _ _ Hk) as (l' & Hk' & El).
  destruct (sub_static _ _ Ex) as (_ & E1 & E2 & _ & E3 & E4 & E5 & _).
  destruct (link_static _ _ El) as (F1 & F2 & F3 & F4). exists x', l'.
  split; [exact Hx'|]. split; [exact Hk'|]. unfold tx_on, link_on in *.
  rewrite E5, Htx, F1, F2, Hsw. split; [exact H1|]. split; [exact H2|].
  destruct H3 as [H3|H3]; rewrite <- ?F3, <- ?F4; [apply lists_out|apply lists_in];
    rewrite ?E1, ?E2, ?E3, ?E4; exact H3.
Qed.

Lemma powered_same g g' i :
  same_layout g g' -> sw_arr g' = sw_arr g -> tx_arr g' = tx_arr g -> powered g i -> powered g' i.
Proof.
  intros Hl Hsw Htx. induction 1 as [|i k far H IH Hc]; [constructor|].
  eapply powered_over; [exact IH|]. eapply conducts_same; eassumption.
Qed.

Section Same.
Context {g g' : grid} (Hl : same_layout g g') (Hsw : sw_arr g' = sw_arr g) (Htx : tx_arr g' = tx_arr g).

Lemma powered_iff i : powered g i <-> powered g' i.
Proof.
  split; apply powered_same; try assumption; try (symmetry; assumption).
Qed.

Lemma energised_iff k : energised g k <-> energised g' k.
Proof.
  split; intros (i & far & Hp & Hc); exists i, far; (split; [apply powered_iff, Hp|]).
  - eapply conducts_same; eassumption.
  - eapply conducts_same; [apply same_layout_sym; exact Hl|symmetry; assumption..|exact Hc].
Qed.
End Same.

Lemma says_iff v P Q : (P <-> Q) -> says v P -> says v Q.
Proof. unfold says. tauto. Qed.

(** ** The other loops of [process] *)
Definition mark_tripped (sws : list p_switch) (l : p_link) : p_link :=
  match ptr sws (src_sw l) with
  | Some s => if switch_status s =? 2 then link_with_status 2 l else l
  | None => l
  end.

Lemma wp_check_broken sws ls g :
  (forall l, l ∈ ls -> ptr_ok sws (src_sw l) = true) ->
  wp no_fault (check_broken sws ls) (fun r g' => g' = g /\ r = map (mark_tripped sws) ls) g.
Proof.
  induction ls as [|l ls IH]; intros H; cbn [check_broken map]; [apply wp_ret; auto|].
  destruct (ptr_ok_Some _ _ (H l ltac:(left))) as (k & s & Ek & Hs).
  apply wp_bind. rewrite deref_ptr. eapply wp_or_oob_Some; [rewrite Ek; exact Hs|]. apply wp_bind.
  eapply wp_conseq; [apply IH; intros l' Hl'; apply H; right; exact Hl'|].
  intros r g' [-> ->]. apply wp_ret. split; [reflexivity|]. f_equal.
  unfold mark_tripped. rewrite Ek. cbn [ptr]. rewrite Hs. reflexivity.
Qed.

Lemma wp_write_stat entries : forall g,
  NoDup (map fst entries) -> (forall id, id ∈ map fst entries -> in_bounds (stat g) id = true) ->
  wp no_fault (write_stat entries) (fun _ g' => exists st, g' = with_stat st g /\
      length st = length (stat g) /\ (forall id v, (id, v) ∈ entries -> aget st id = Some v) /\
      (forall id, id ∉ map fst entries -> aget st id = aget (stat g) id)) g.
Proof.
  induction entries as [|[id v] es IH]; intros g Hnd Hin; cbn [write_stat].
  { apply wp_ret. exists (stat g). repeat split; [destruct g; reflexivity|]. intros ? ? H; inversion H. }
  cbn [map fst] in *. inversion_clear Hnd as [|? ? Hni Hnd2]. rename Hnd2 into Hnd. apply wp_bind, wp_get. apply wp_bind.
  apply wp_aset_in; [apply in_bounds_spec, Hin; left|]. intros l Hl. apply wp_bind, wp_put.
  eapply wp_conseq; [apply IH; [exact Hnd|]|].
  { intros j Hj. cbn. unfold in_bounds. rewrite (aset_length _ _ _ _ Hl). apply Hin. right. exact Hj. }
  intros _ g' (st & -> & Hlen & He & Ho). exists st. cbn in *.
  split; [reflexivity|]. split; [rewrite Hlen; apply (aset_length _ _ _ _ Hl)|]. split.
  - intros j w [[= -> ->]|Hj]%elem_of_cons; [|apply He, Hj].
    rewrite Ho by exact Hni. apply (aget_aset_eq _ _ _ _ Hl).
  - intros j [Hj Hj2]%not_elem_of_cons. rewrite Ho by exact Hj2.
    apply (aget_aset_ne _ _ _ _ _ Hl). congruence.
Qed.

Lemma fst_stat_entries g : map fst (stat_entries g) = ids g.
Proof. unfold stat_entries, ids. rewrite !map_app, !map_map. reflexivity. Qed.

(** ** [process] *)
Definition cleared (g : grid) : grid :=
  with_pl_arr (map (link_with_status 0) (pl_arr g))
    (with_sub_arr match sub_arr g with
                  | [] => []
                  | x :: xs => sub_with_status 1 x :: map (sub_with_status 0) xs
                  end g).

Lemma aget_cons_inv {A} (x : A) l i y : aget (x :: l) i = Some y -> i = 0 /\ y = x \/ y ∈ l.
Proof.
  intros H. pose proof (aget_Some_bounds _ _ _ H) as Hb. unfold aget in H.
  destruct (in_bounds (x :: l) i); [|discriminate].
  destruct (decide (i = 0)) as [->|Hi]; [left; change (Some x = Some y) in H; split; congruence|right].
  replace (Z.to_nat i) with (S (Z.to_nat (i - 1))) in H by lia.
  change (l !! Z.to_nat (i - 1) = Some y) in H. apply list_elem_of_lookup_2 in H. exact H.
Qed.

Lemma map_status {A} (f : A -> Z) (h : A -> A) v l x : (forall a, f (h a) = v) -> x ∈ map h l -> f x = v.
Proof. intros H [y [-> _]]%list_elem_of_fmap. apply H. Qed.

Lemma cleared_layout g : same_layout g (cleared g).
Proof.
  unfold same_layout, all_on, cleared. cbn. rewrite map_map. f_equal.
  destruct (sub_arr g) as [|x xs]; cbn; [|rewrite map_map]; reflexivity.
Qed.

Lemma cleared_lit g i y : aget (sub_arr (cleared g)) i = Some y -> i = 0 /\ sub_status y = 1 \/ sub_status y = 0.
Proof.
  unfold cleared; cbn. destruct (sub_arr g) as [|x xs]; [intros H; apply aget_elem in H; inversion H|].
  intros [[-> ->]|H]%aget_cons_inv; [left; auto|right].
  eapply map_status; [|exact H]. reflexivity.
Qed.

Lemma cleared_search g : grid_ok g = true -> search (cleared g) [0] (cleared g).
Proof.
  intros Hok. split; try reflexivity.
  - intros i x [[-> ?]|?]%cleared_lit; [right; split; [assumption|constructor]|auto].
  - intros k l Hl. left. apply aget_elem in Hl. eapply map_status; [|exact Hl]. reflexivity.
  - intros i ->%list_elem_of_singleton. destruct (ok_source Hok) as [x Hx]. unfold lit, cleared. cbn.
    destruct (sub_arr g) as [|y xs]; [apply aget_elem in Hx; inversion Hx|]. eexists. split; reflexivity.
Qed.

Lemma cleared_unlit g : grid_ok g = true -> unlit (cleared g) + 1 <= Z.of_nat (length (sub_arr (cleared g))).
Proof.
  intros Hok. destruct (ok_source Hok) as [x Hx]. unfold unlit, cleared. cbn.
  destruct (sub_arr g) as [|y xs]; [apply aget_elem in Hx; inversion Hx|]. cbn.
  pose proof (List.filter_length_le (fun z => sub_status z =? 0) (map (sub_with_status 0) xs)). lia.
Qed.

(** What the search leaves. *)
Lemma searched_powered g0 g i x :
  search g0 [] g -> lit g 0 -> (forall j, lit g j -> expanded g0 j g) ->
  aget (sub_arr g) i = Some x -> says (sub_status x) (powered g0 i).
Proof.
  intros Hs H0 He Hx.
  assert (Hall : forall j, powered g0 j -> lit g j).
  { induction 1 as [|j k far Hp IH Hc]; [exact H0|]. apply (He _ IH _ _ Hc). }
  destruct (s_subs _ _ _ Hs _ _ Hx) as [E|[E Hp]]; [|left; auto].
  right. split; [exact E|]. intros (y & Hy & E1)%Hall. replace y with x in E1 by congruence. lia.
Qed.

Lemma searched_energised g0 g k l :
  search g0 [] g -> lit g 0 -> (forall j, lit g j -> expanded g0 j g) ->
  aget (pl_arr g) k = Some l -> says (link_status l) (energised g0 k).
Proof.
  intros Hs H0 He Hl.
  assert (Hall : forall j, powered g0 j -> lit g j).
  { induction 1 as [|j k' far Hp IH Hc]; [exact H0|]. apply (He _ IH _ _ Hc). }
  destruct (s_links _ _ _ Hs _ _ Hl) as [E|[E Hp]]; [|left; auto].
  right. split; [exact E|]. intros (j & far & Hp & Hc).
  destruct (He _ (Hall _ Hp) _ _ Hc) as [_ (l' & Hl' & E1)]. replace l' with l in E1 by congruence. lia.
Qed.

Lemma mark_tripped_static sws l : link_with_status 1 (mark_tripped sws l) = link_with_status 1 l.
Proof. unfold mark_tripped. destruct (ptr sws (src_sw l)); [destruct (_ =? _)|]; reflexivity. Qed.

Lemma wp_process g : grid_ok g = true -> wp no_fault process (fun _ g' => worked_out g g') g.
Proof.
  intros Hok. unfold process. apply wp_bind. unfold clear_statuses. apply wp_bind, wp_get.
  assert (Hc : wp no_fault (match sub_arr g with
     | [] => raise OutOfBounds
     | x :: xs => put (with_pl_arr (map (link_with_status 0) (pl_arr g))
             (with_sub_arr (sub_with_status 1 x :: map (sub_with_status 0) xs) g))
     end) (fun _ t => t = cleared g) g).
  { destruct (ok_source Hok) as [x Hx]. unfold cleared.
    destruct (sub_arr g) as [|y xs]; [apply aget_elem in Hx; inversion Hx|]. apply wp_put. reflexivity. }
  eapply wp_conseq; [exact Hc|]. clear Hc. intros _ t ->.
  pose proof (cleared_layout g) as Lc.
  assert (Hokc : grid_ok (cleared g) = true) by (rewrite <- (grid_ok_layout _ _ Lc); exact Hok).
  apply wp_bind. eapply wp_conseq.
  { apply (wp_bfs (cleared g) Hokc (cleared g)); [apply cleared_search, Hok|apply cleared_unlit, Hok|].
    intros i (y & Hy & E). destruct (cleared_lit _ _ _ Hy) as [[-> _]|?]; lia. }
  intros _ g1 (Hs & H0 & He). apply wp_bind, wp_get. apply wp_bind.
  assert (L1 : same_layout g g1) by (eapply same_layout_trans; [exact Lc|apply (s_layout _ _ _ Hs)]).
  assert (Hok1 : grid_ok g1 = true) by (rewrite <- (grid_ok_layout _ _ L1); exact Hok).
  eapply wp_conseq.
  { apply wp_check_broken. intros l [k Hk]%aget_of_elem. apply (ok_link Hok1 _ _ Hk). }
  intros ls t [-> ->]. apply wp_bind, wp_put. apply wp_bind, wp_get.
  set (g2 := with_pl_arr (map (mark_tripped (sw_arr g1)) (pl_arr g1)) g1).
  assert (L2 : same_layout g g2).
  { eapply same_layout_trans; [exact L1|]. unfold same_layout, all_on, g2. cbn. f_equal.
    rewrite map_map. apply map_ext. intros l. rewrite mark_tripped_static. reflexivity. }
  assert (Hok2 : grid_ok g2 = true) by (rewrite <- (grid_ok_layout _ _ L2); exact Hok).
  eapply wp_conseq; [apply wp_write_stat; rewrite fst_stat_entries|].
  { apply (ok_parts Hok2). }
  { intros id Hid. destruct (ok_parts Hok2) as (_ & _ & _ & H & _).
    rewrite forallb_forall in H. apply H, list_elem_of_In, Hid. }
  intros _ g3 (st & -> & Hlen & Hst & _).
  assert (Esw : sw_arr g1 = sw_arr g) by apply (s_sw _ _ _ Hs).
  assert (Etx : tx_arr g1 = tx_arr g) by apply (s_tx _ _ _ Hs).
  split; cbn; auto.
  - eapply same_layout_trans; [exact L2|]. unfold same_layout, all_on, g2. cbn. f_equal.
    cbn in Hlen. clear -Hlen. revert st Hlen. induction (stat g1) as [|a l IH]; intros [|b st]; cbn; try discriminate; [reflexivity|].
    intros [= H]. rewrite (IH st) by exact H. reflexivity.
  - intros i x Hx. eapply says_iff; [|eapply searched_powered; eassumption].
    symmetry. apply powered_iff; [exact Lc|reflexivity..].
  - intros k l Hl. rewrite aget_map in Hl. destruct (aget (pl_arr g1) k) as [l1|] eqn:E1; [|discriminate].
    injection Hl as <-. pose proof (searched_energised _ _ _ _ Hs H0 He E1) as Hsays.
    apply (says_iff _ _ (energised g k)) in Hsays;
      [|symmetry; apply energised_iff; [exact Lc|reflexivity..]].
    destruct (ok_link Hok1 _ _ E1) as (P1 & _). destruct (ptr_ok_Some _ _ P1) as (j & a & Ej & Ha).
    unfold mark_tripped, tripped. rewrite Esw in *. rewrite Ej. cbn [ptr]. rewrite Ha.
    destruct (switch_status a =? 2) eqn:E2; cbn; rewrite Ej; cbn; rewrite Ha, E2; [reflexivity|exact Hsays].
Qed.

(** ** The result is a function of the layout, the switches and the transformers *)
(** Every switch and transformer belongs to one substation, every position of the
    status array to one component, and the state fits a transfer message. *)
Definition owned_switches (g : grid) : list (option Z) :=
  List.concat (map (fun x => take (Z.to_nat (num_switches x)) (sw_list x)) (sub_arr g)).

Definition all_below (n : nat) (p : Z -> bool) : bool := forallb (fun k => p (Z.of_nat k)) (seq 0 n).

Definition MAX_SUBSTATIONS : Z := 400.

Definition complete (g : grid) : bool :=
  all_below (length (sw_arr g)) (fun k => bool_decide (Some k ∈ owned_switches g)) &&
  all_below (length (tx_arr g)) (fun k => bool_decide (Some k ∈ map tx (sub_arr g))) &&
  all_below (length (stat g)) (fun k => bool_decide (k ∈ ids g)) &&
  bool_decide (NoDup (owned_switches g)) && bool_decide (NoDup (map tx (sub_arr g))) &&
  (Z.of_nat (length (sub_arr g)) <=? MAX_SUBSTATIONS).

Definition settled (g : grid) : Prop := worked_out g g.

Lemma all_below_at n p k : all_below n p = true -> 0 <= k < Z.of_nat n -> p k = true.
Proof.
  unfold all_below. rewrite forallb_forall. intros H Hk.
  specialize (H (Z.to_nat k)). rewrite Z2Nat.id in H by lia. apply H, in_seq. lia.
Qed.

Lemma complete_parts g : complete g = true ->
  (forall k, 0 <= k < Z.of_nat (length (sw_arr g)) -> Some k ∈ owned_switches g) /\
  (forall k, 0 <= k < Z.of_nat (length (tx_arr g)) -> Some k ∈ map tx (sub_arr g)) /\
  (forall k, 0 <= k < Z.of_nat (length (stat g)) -> k ∈ ids g) /\
  NoDup (owned_switches g) /\ NoDup (map tx (sub_arr g)) /\
  Z.of_nat (length (sub_arr g)) <= MAX_SUBSTATIONS.
Proof.
  unfold complete. rewrite !andb_true_iff, !bool_decide_eq_true, Z.leb_le.
  intros [[[[[H1 H2] H3] H4] H5] H6]. repeat split; auto; intros k Hk.
  - apply (bool_decide_unpack _), Is_true_true, (all_below_at _ _ _ H1 Hk).
  - apply (bool_decide_unpack _), Is_true_true, (all_below_at _ _ _ H2 Hk).
  - apply (bool_decide_unpack _), Is_true_true, (all_below_at _ _ _ H3 Hk).
Qed.

Lemma complete_all_on g : complete (all_on g) = complete g.
Proof.
  unfold complete. rewrite ids_all_on. unfold owned_switches, all_on.
  cbn [sub_arr sw_arr tx_arr stat]. rewrite !length_map, !map_map. reflexivity.
Qed.

Lemma complete_layout g g' : same_layout g g' -> complete g = complete g'.
Proof. intros H. rewrite <- (complete_all_on g), <- (complete_all_on g'), H. reflexivity. Qed.

Lemma says_unique v w P : says v P -> says w P -> v = w.
Proof. unfold says. intros [[-> H]|[-> H]] [[-> H']|[-> H']]; tauto. Qed.

Lemma map_inj_aget {A B} (f : A -> B) l l' :
  map f l = map f l' ->
  (forall i x y, aget l i = Some x -> aget l' i = Some y -> f x = f y -> x = y) -> l = l'.
Proof.
  intros Hm H. apply aget_ext; [eapply map_length_eq; exact Hm|]. intros i x y Hx Hy.
  apply (H i x y Hx Hy). destruct (map_aget _ _ _ _ _ Hm Hx) as (y' & Hy' & E). congruence.
Qed.

Lemma worked_out_unique g1 g2 h1 h2 :
  worked_out g1 h1 -> worked_out g2 h2 -> same_layout g1 g2 ->
  sw_arr g1 = sw_arr g2 -> tx_arr g1 = tx_arr g2 ->
  (forall j, 0 <= j < Z.of_nat (length (stat h1)) -> j ∈ ids h1) -> h1 = h2.
Proof.
  intros W1 W2 Hl Hsw Htx Hcov.
  assert (L : same_layout h1 h2).
  { eapply same_layout_trans; [apply same_layout_sym, (wo_layout _ _ W1)|].
    eapply same_layout_trans; [exact Hl|apply (wo_layout _ _ W2)]. }
  destruct (layout_maps L) as (M1 & _ & M3 & M4 & _ & M6).
  assert (Esw : sw_arr h1 = sw_arr h2) by (rewrite (wo_switches _ _ W1), (wo_switches _ _ W2); exact Hsw).
  assert (Etx : tx_arr h1 = tx_arr h2) by (rewrite (wo_txs _ _ W1), (wo_txs _ _ W2); exact Htx).
  assert (Esub : sub_arr h1 = sub_arr h2).
  { apply (map_inj_aget _ _ _ M4). intros i x y Hx Hy E.
    pose proof (wo_subs _ _ W1 _ _ Hx) as Sx. pose proof (wo_subs _ _ W2 _ _ Hy) as Sy.
    apply (says_iff _ _ _ (powered_iff Hl (eq_sym Hsw) (eq_sym Htx) i)) in Sx.
    pose proof (says_unique _ _ _ Sx Sy) as Es. destruct x, y; injection E; cbn in *; intros; subst; reflexivity. }
  assert (Epl : pl_arr h1 = pl_arr h2).
  { apply (map_inj_aget _ _ _ M3). intros k x y Hx Hy E.
    pose proof (wo_links _ _ W1 _ _ Hx) as Sx. pose proof (wo_links _ _ W2 _ _ Hy) as Sy.
    assert (Et : tripped g1 x = tripped g2 y).
    { unfold tripped. rewrite Hsw. destruct (link_static _ _ E) as (-> & _). reflexivity. }
    rewrite Et in Sx. assert (Es : link_status x = link_status y).
    { destruct (tripped g2 y); [congruence|]. eapply says_unique; [|exact Sy].
      eapply says_iff; [apply (energised_iff Hl (eq_sym Hsw) (eq_sym Htx))|exact Sx]. }
    destruct x, y; injection E; cbn in *; intros; subst; reflexivity. }
  assert (Eent : stat_entries h1 = stat_entries h2)
    by (unfold stat_entries; rewrite Esw, Epl, Esub, Etx; reflexivity).
  assert (Est : stat h1 = stat h2).
  { apply aget_ext; [eapply map_length_eq; exact M1|]. intros j x y Hx Hy.
    pose proof (Hcov j (aget_Some_bounds _ _ _ Hx)) as Hj. rewrite <- fst_stat_entries in Hj.
    apply list_elem_of_fmap in Hj as ([id v] & -> & Hin). cbn in *.
    pose proof (wo_stat _ _ W1 _ _ Hin). rewrite Eent in Hin. pose proof (wo_stat _ _ W2 _ _ Hin).
    congruence. }
  destruct h1, h2. cbn in *. congruence.
Qed.

Lemma worked_out_settled g h : worked_out g h -> settled h.
Proof.
  intros [W1 W2 W3 W4 W5 W6]. split; auto; try reflexivity.
  - intros i x Hx. eapply says_iff; [apply (powered_iff W1 W2 W3)|apply W4, Hx].
  - intros k l Hl. pose proof (W5 k l Hl) as H. unfold tripped in *. rewrite W2.
    destruct (ptr (sw_arr g) (src_sw l)) as [a|]; [destruct (_ =? 2); [exact H|]|];
      (eapply says_iff; [apply (energised_iff W1 W2 W3)|exact H]).
Qed.

Lemma process_returns g : grid_ok g = true -> exists h, process g = Ret (tt, h) /\ worked_out g h.
Proof.
  intros H%wp_process%wp_run. destruct H as ([] & h & Hr & Hw). eauto.
Qed.

(** The grid of a replica is determined by its switches and transformers. *)
Lemma process_from g s h :
  grid_ok g = true -> complete g = true -> settled s -> same_layout g s ->
  sw_arr g = sw_arr s -> tx_arr g = tx_arr s -> process g = Ret (tt, h) -> h = s.
Proof.
  intros Hok Hc Hs Hl Hsw Htx Hp. destruct (process_returns g Hok) as (h' & Hp' & W).
  replace h' with h in W by congruence. eapply worked_out_unique; [exact W|exact Hs|assumption..|].
  pose proof (wo_layout _ _ W) as L. destruct (complete_parts g Hc) as (_ & _ & C & _).
  rewrite <- (ids_layout _ _ L). destruct (layout_lengths L) as (<- & _). exact C.
Qed.
