(* ===== verification/ScadaMasterCorrect.v ===== *)
(** What the handlers of the SCADA master do to a well-formed state: the status
    report of a substation, the packaging of the state and its application. *)
From Stdlib Require Import ZArith Lia List Bool.
From Stdlib Require Import Strings.Byte.
From stdpp Require Import base list.
From S2P Require Import Prelude Memory ScadaPackets ScadaGrid ScadaInit ScadaMaster ScadaCorrect.

(** ** Which switch is listed where *)
Definition listed (x : sub) (z k : Z) : Prop :=
  0 <= z < num_switches x /\ aget (sw_list x) z = Some (Some k).

Lemma concat_apart {A} (ls : list (list A)) i j a b c :
  base.NoDup (List.concat ls) -> ls !! i = Some a -> ls !! j = Some b -> c ∈ a -> c ∈ b -> i = j.
Proof.
  revert i j. induction ls as [|l ls IH]; intros i j H Hi Hj Ha Hb; [discriminate|].
  cbn in H. apply list.NoDup_app in H as (_ & Hd & H).
  assert (Hin : forall n x, ls !! n = Some x -> c ∈ x -> c ∈ List.concat ls).
  { intros n x Hn Hx. apply list_elem_of_In, in_concat. exists x.
    split; apply list_elem_of_In; [eapply list_elem_of_lookup_2; exact Hn|exact Hx]. }
  destruct i as [|i], j as [|j]; cbn in Hi, Hj; [reflexivity|..].
  - injection Hi as <-. destruct (Hd c Ha). eapply Hin; eassumption.
  - injection Hj as <-. destruct (Hd c Hb). eapply Hin; eassumption.
  - f_equal. eapply IH; eassumption.
Qed.

Lemma concat_part {A} (ls : list (list A)) i a :
  base.NoDup (List.concat ls) -> ls !! i = Some a -> base.NoDup a.
Proof.
  revert i. induction ls as [|l ls IH]; intros i H Hi; [discriminate|].
  cbn in H. apply list.NoDup_app in H as (H1 & _ & H2).
  destruct i; cbn in Hi; [congruence|eauto].
Qed.

Section Listed.
Context (g : grid) (Hok : grid_ok g = true) (Hc : complete g = true).

Lemma listed_in i x z k :
  aget (sub_arr g) i = Some x -> listed x z k -> Some k ∈ take (Z.to_nat (num_switches x)) (sw_list x).
Proof.
  intros Hx [Hz Hk]. destruct (ok_sub Hok _ _ Hx) as (P & _).
  destruct (ptrs_ok_at _ _ _ _ P Hz) as (k' & w & Hk' & _ & Hin). congruence.
Qed.

Lemma listed_switch i x z k : aget (sub_arr g) i = Some x -> listed x z k ->
  exists w, aget (sw_arr g) k = Some w.
Proof.
  intros Hx [Hz Hk]. destruct (ok_sub Hok _ _ Hx) as (P & _).
  destruct (ptrs_ok_at _ _ _ _ P Hz) as (k' & w & Hk' & Hw & _). exists w. congruence.
Qed.

Lemma listed_here i x z : aget (sub_arr g) i = Some x -> 0 <= z < num_switches x ->
  exists k, listed x z k.
Proof.
  intros Hx Hz. destruct (ok_sub Hok _ _ Hx) as (P & _).
  destruct (ptrs_ok_at _ _ _ _ P Hz) as (k & w & Hk & _). exists k. split; assumption.
Qed.

Lemma sub_block i x : aget (sub_arr g) i = Some x ->
  map (fun y => take (Z.to_nat (num_switches y)) (sw_list y)) (sub_arr g) !! Z.to_nat i =
  Some (take (Z.to_nat (num_switches x)) (sw_list x)).
Proof.
  unfold aget. destruct (in_bounds (sub_arr g) i); [|discriminate]. intros H.
  rewrite list_lookup_fmap, H. reflexivity.
Qed.

(** A switch has one place. *)
Lemma listed_once i x z i' x' z' k :
  aget (sub_arr g) i = Some x -> aget (sub_arr g) i' = Some x' ->
  listed x z k -> listed x' z' k -> i = i' /\ z = z'.
Proof.
  intros Hx Hx' L L'. destruct (complete_parts g Hc) as (_ & _ & _ & Hnd & _).
  pose proof (aget_Some_bounds _ _ _ Hx). pose proof (aget_Some_bounds _ _ _ Hx').
  assert (Ei : Z.to_nat i = Z.to_nat i').
  { eapply concat_apart; [exact Hnd|apply sub_block, Hx|apply sub_block, Hx'|..];
      eapply listed_in; eassumption. }
  assert (i = i') by lia. subst i'. split; [reflexivity|]. assert (x' = x) by congruence. subst x'.
  pose proof (concat_part _ _ _ Hnd (sub_block _ _ Hx)) as Hd.
  destruct L as [Hz Hk], L' as [Hz' Hk'].
  assert (Hl : forall y, 0 <= y < num_switches x -> aget (sw_list x) y = Some (Some k) ->
             take (Z.to_nat (num_switches x)) (sw_list x) !! Z.to_nat y = Some (Some k)).
  { intros y Hy Hg. rewrite lookup_take_lt by lia. unfold aget in Hg.
    destruct (in_bounds (sw_list x) y); [exact Hg|discriminate]. }
  assert (Z.to_nat z = Z.to_nat z') by (eapply (proj1 (list.NoDup_alt _) Hd); apply Hl; eassumption).
  lia.
Qed.

(** Every switch has a place. *)
Lemma switch_listed k w : aget (sw_arr g) k = Some w ->
  exists i x z, aget (sub_arr g) i = Some x /\ listed x z k.
Proof.
  intros Hw. destruct (complete_parts g Hc) as (Hall & _).
  pose proof (Hall k (aget_Some_bounds _ _ _ Hw)) as H. unfold owned_switches in H.
  apply list_elem_of_In, in_concat in H as (l & Hl & Hk). apply in_map_iff in Hl as (x & <- & Hx).
  apply list_elem_of_In in Hx, Hk. destruct (aget_of_elem _ _ Hx) as [i Hi].
  destruct (ok_sub Hok _ _ Hi) as (P & _). destruct (listed_at _ _ _ _ P Hk) as (z & Hz & Hzk).
  exists i, x, z. repeat split; assumption || lia.
Qed.

Lemma tx_once i x i' x' k :
  aget (sub_arr g) i = Some x -> aget (sub_arr g) i' = Some x' -> tx x = Some k -> tx x' = Some k -> i = i'.
Proof.
  intros Hx Hx' E E'. destruct (complete_parts g Hc) as (_ & _ & _ & _ & Hnd & _).
  pose proof (aget_Some_bounds _ _ _ Hx). pose proof (aget_Some_bounds _ _ _ Hx').
  assert (Hl : forall j y, aget (sub_arr g) j = Some y -> map tx (sub_arr g) !! Z.to_nat j = Some (tx y)).
  { intros j y Hy. unfold aget in Hy. destruct (in_bounds (sub_arr g) j); [|discriminate].
    rewrite list_lookup_fmap, Hy. reflexivity. }
  assert (Z.to_nat i = Z.to_nat i').
  { apply (proj1 (list.NoDup_alt _) Hnd _ _ (Some k)); [rewrite <- E|rewrite <- E']; apply Hl; assumption. }
  lia.
Qed.

Lemma tx_listed k t : aget (tx_arr g) k = Some t -> exists i x, aget (sub_arr g) i = Some x /\ tx x = Some k.
Proof.
  intros Ht. destruct (complete_parts g Hc) as (_ & Hall & _).
  pose proof (Hall k (aget_Some_bounds _ _ _ Ht)) as H. apply list_elem_of_fmap in H as (x & E & Hx).
  destruct (aget_of_elem _ _ Hx) as [i Hi]. eauto.
Qed.

Lemma sub_tx i x : aget (sub_arr g) i = Some x -> exists k t, tx x = Some k /\ aget (tx_arr g) k = Some t.
Proof. intros Hx. destruct (ok_sub Hok _ _ Hx) as (_ & _ & _ & _ & P). apply ptr_ok_Some, P. Qed.
End Listed.

(** ** A status report of a substation *)
Definition jhu_word (data : list byte) (p : Z) : Z :=
  match word_at data 4 p with Some v => sint32 v | None => 0 end.

(** The status the report has for the switch at position [z], if it is one. *)
Definition reported_switch (data : list byte) (z : Z) : option Z :=
  let v := jhu_word data (o_jhu_sw_status + 4 * z) in
  if (v =? 1) || (v =? 0) || (v =? 2) then Some v else None.

Definition reported_tx (data : list byte) : option Z :=
  let v := jhu_word data o_jhu_tx_status in if (v =? 1) || (v =? 0) then Some v else None.

Definition take_switch (o : option Z) (w : p_switch) : p_switch :=
  match o with Some v => switch_with_status v w | None => w end.

Definition take_tx (o : option Z) (t : p_tx) : p_tx :=
  match o with Some v => tx_with_status v t | None => t end.

(** [g'] is [g] with the statuses the report has for substation [x]. *)
Record reports (g : grid) (x : sub) (data : list byte) (g' : grid) : Prop := {
  rp_layout : same_layout g g';
  rp_rest : stat g' = stat g /\ pl_arr g' = pl_arr g /\ sub_arr g' = sub_arr g;
  rp_switch : forall z k w, listed x z k -> aget (sw_arr g) k = Some w ->
    aget (sw_arr g') k = Some (take_switch (reported_switch data z) w);
  rp_switches : forall k, (forall z, ~ listed x z k) -> aget (sw_arr g') k = aget (sw_arr g) k;
  rp_tx : forall k t, tx x = Some k -> aget (tx_arr g) k = Some t ->
    aget (tx_arr g') k = Some (take_tx (reported_tx data) t);
  rp_txs : forall k, tx x <> Some k -> aget (tx_arr g') k = aget (tx_arr g) k }.

Section Report.
Context (g : grid) (Hok : grid_ok g = true) (Hc : complete g = true) (i : Z) (x : sub)
  (Hx : aget (sub_arr g) i = Some x) (data : list byte)
  (Hd : Z.of_nat (length data) = RTU_DATA_PAYLOAD_LEN).

(** The switches of the positions below [j] have been read. *)
Record read_below (j : Z) (sws : list p_switch) : Prop := {
  rb_map : map (switch_with_status 1) sws = map (switch_with_status 1) (sw_arr g);
  rb_listed : forall z k w, listed x z k -> aget (sw_arr g) k = Some w ->
    aget sws k = Some (if z <? j then take_switch (reported_switch data z) w else w);
  rb_others : forall k, (forall z, ~ listed x z k) -> aget sws k = aget (sw_arr g) k }.

Lemma read_below_next j sws : read_below j sws ->
  (forall k, listed x j k -> reported_switch data j = None) -> read_below (j + 1) sws.
Proof.
  intros [M L O] Hn. split; auto. intros z k w Hz Hw. rewrite (L z k w Hz Hw).
  destruct (decide (z = j)) as [->|Hne].
  - rewrite (Hn k Hz), Z.ltb_irrefl. destruct (j <? j + 1); reflexivity.
  - replace (z <? j + 1) with (z <? j); [reflexivity|].
    destruct (z <? j) eqn:E1, (z <? j + 1) eqn:E2; rewrite ?Z.ltb_lt, ?Z.ltb_ge in *; lia || reflexivity.
Qed.

Lemma read_below_set j sws k w v sws' :
  read_below j sws -> listed x j k -> aget (sw_arr g) k = Some w -> aget sws k = Some w ->
  reported_switch data j = Some v -> aset sws k (switch_with_status v w) = Some sws' ->
  read_below (j + 1) sws'.
Proof.
  intros [M L O] Hj Hw Hw' Hv Hs.
  assert (Hne : forall z k', listed x z k' -> z <> j -> k' <> k).
  { intros z k' Hz Hzj ->. destruct (listed_once g Hok Hc _ _ _ _ _ _ _ Hx Hx Hz Hj). contradiction. }
  split.
  - rewrite <- M. eapply map_aset_same; [exact Hw'|exact Hs|reflexivity].
  - intros z k' w1 Hz Hw1. destruct (decide (z = j)) as [->|Hzj].
    + assert (k' = k) by (destruct Hz, Hj; congruence). subst k'.
      rewrite (aget_aset_eq _ _ _ _ Hs), Hv, (proj2 (Z.ltb_lt _ _)) by lia. cbn. congruence.
    + rewrite (aget_aset_ne _ _ _ _ _ Hs), (L z k' w1 Hz Hw1) by (intros E; apply (Hne z k' Hz Hzj); congruence).
      replace (z <? j + 1) with (z <? j); [reflexivity|].
      destruct (z <? j) eqn:E1, (z <? j + 1) eqn:E2; rewrite ?Z.ltb_lt, ?Z.ltb_ge in *; lia || reflexivity.
  - intros k' Hk'. rewrite <- (O k' Hk'). apply (aget_aset_ne _ _ _ _ _ Hs). intros <-. apply (Hk' j Hj).
Qed.

Lemma wp_jhu_word p (Q : Z -> grid -> Prop) s :
  0 <= p -> p + 4 <= RTU_DATA_PAYLOAD_LEN -> (forall v, sint32 v = jhu_word data p -> Q v s) ->
  wp no_fault (load data 4 p) Q s.
Proof.
  intros Hp Hl HQ. destruct (word_defined data 4 p) as [v Hv]; [lia..|].
  eapply wp_load_value; [exact Hv|]. apply HQ. unfold jhu_word. rewrite Hv. reflexivity.
Qed.

Lemma wp_read_switches :
  wp no_fault (read_switches data x)
    (fun _ g' => exists sws, g' = with_sw_arr sws g /\ read_below (num_switches x) sws) g.
Proof.
  destruct (ok_sub Hok _ _ Hx) as (P & Hn & _).
  assert (Hn0 : 0 <= num_switches x).
  { unfold ptrs_ok in P. rewrite !andb_true_iff, !Z.leb_le in P. lia. }
  unfold read_switches. apply wp_loop_then.
  apply (wp_for _ (fun j i' g' => i' = j /\ exists sws, g' = with_sw_arr sws g /\ read_below j sws)).
  - intros j i' g' Hj (-> & sws & -> & R). apply wp_bind. unfold MAX_SWITCHES in Hn.
    apply wp_jhu_word; [unfold o_jhu_sw_status; lia|unfold o_jhu_sw_status, RTU_DATA_PAYLOAD_LEN; lia|].
    intros v Hv. assert (Er : reported_switch data j =
        if (sint32 v =? 1) || (sint32 v =? 0) || (sint32 v =? 2) then Some (sint32 v) else None)
      by (unfold reported_switch; rewrite <- Hv; reflexivity).
    destruct (listed_here g Hok _ _ _ Hx Hj) as [k Hk].
    destruct (_ || _ || _).
    + apply wp_bind. eapply wp_or_oob_Some; [apply Hk|]. apply wp_bind.
      destruct (listed_switch g Hok _ _ _ _ Hx Hk) as [w Hw].
      assert (Hw' : aget sws k = Some w)
        by (rewrite (rb_listed _ _ R _ _ _ Hk Hw), Z.ltb_irrefl; reflexivity).
      eapply wp_set_switch; [exact Hw'|]. intros sws' Hs. apply wp_ret. split; [lia|].
      exists sws'. split; [reflexivity|]. eapply read_below_set; eassumption.
    + apply wp_ret. split; [lia|]. exists sws. split; [reflexivity|].
      apply read_below_next; [exact R|]. intros _ _. exact Er.
  - split; [reflexivity|]. exists (sw_arr g). split; [destruct g; reflexivity|]. split; auto.
    intros z k w [Hz _] Hw. rewrite (proj2 (Z.ltb_ge _ _)) by lia. exact Hw.
  - intros i' g' (-> & sws & -> & R). apply wp_ret. exists sws. split; [reflexivity|].
    replace (num_switches x) with (Z.max 0 (num_switches x)) by lia. exact R.
Qed.

Lemma reports_intro sws txs :
  read_below (num_switches x) sws ->
  map (tx_with_status 1) txs = map (tx_with_status 1) (tx_arr g) ->
  (forall k t, tx x = Some k -> aget (tx_arr g) k = Some t -> aget txs k = Some (take_tx (reported_tx data) t)) ->
  (forall k, tx x <> Some k -> aget txs k = aget (tx_arr g) k) ->
  reports g x data (with_tx_arr txs (with_sw_arr sws g)).
Proof.
  intros [M L O] Mt T1 T2. split; auto.
  - unfold same_layout, all_on. cbn. rewrite M, Mt. reflexivity.
  - intros z k w Hz Hw. cbn. rewrite (L z k w Hz Hw), (proj2 (Z.ltb_lt _ _)); [reflexivity|]. destruct Hz; lia.
Qed.

Lemma reports_ok gm : reports g x data gm -> grid_ok gm = true.
Proof. intros [L _ _ _ _ _]. rewrite <- (grid_ok_layout _ _ L). exact Hok. Qed.

Lemma wp_read_jhu :
  wp no_fault (read_jhu i data)
    (fun _ g' => exists gm, reports g x data gm /\ worked_out gm g') g.
Proof.
  unfold read_jhu. apply wp_bind, wp_get. apply wp_bind. eapply wp_or_oob_Some; [exact Hx|].
  apply wp_bind. eapply wp_conseq; [apply wp_read_switches|]. intros _ g1 (sws & -> & R).
  apply wp_bind. apply wp_jhu_word; [vm_compute; discriminate..|]. intros v Hv.
  assert (Er : reported_tx data = if (sint32 v =? 1) || (sint32 v =? 0) then Some (sint32 v) else None)
    by (unfold reported_tx; rewrite <- Hv; reflexivity).
  destruct (sub_tx g Hok _ _ Hx) as (k & t & Ek & Ht). rewrite Ek.
  assert (Hend : forall gm, reports g x data gm ->
    wp no_fault process (fun _ g' => exists gm, reports g x data gm /\ worked_out gm g') gm).
  { intros gm Hr. eapply wp_conseq; [apply wp_process, (reports_ok _ Hr)|]. intros ? g' W. exists gm. auto. }
  destruct (_ || _); apply wp_bind.
  - eapply wp_set_tx; [exact Ht|]. intros txs Hs. apply Hend.
    apply reports_intro; [exact R|..].
    + eapply map_aset_same; [exact Ht|exact Hs|reflexivity].
    + intros k' t' Ek' Ht'. assert (k' = k) by congruence. subst k'. cbn in Hs.
      rewrite (aget_aset_eq _ _ _ _ Hs), Er. cbn. congruence.
    + intros k' Hk'. apply (aget_aset_ne _ _ _ _ _ Hs). congruence.
  - apply wp_ret. replace (with_sw_arr sws g) with (with_tx_arr (tx_arr g) (with_sw_arr sws g))
      by (destruct g; reflexivity).
    apply Hend, reports_intro; [exact R|reflexivity| |reflexivity].
    intros k' t' _ Ht'. rewrite Er. exact Ht'.
Qed.
End Report.

(** ** The state as bytes *)
Definition status_bytes (g : grid) (x : sub) : list byte :=
  map (fun p => match ptr (sw_arr g) p with Some w => byte_of (switch_status w) | None => x00 end)
    (take (Z.to_nat (num_switches x)) (sw_list x)).

Definition tx_byte (g : grid) (x : sub) : byte :=
  match ptr (tx_arr g) (tx x) with Some t => byte_of (tx_status t) | None => x00 end.

Definition sub_blob (g : grid) (i : Z) : list byte :=
  match aget (sub_arr g) i with
  | Some x => sm_state i (1 + num_switches x) ++ tx_byte g x :: status_bytes g x
  | None => []
  end.

Definition blobs (g : grid) (n : nat) : list byte :=
  List.concat (map (fun k => sub_blob g (Z.of_nat k)) (seq 0 n)).

Lemma blobs_S g n : blobs g (S n) = blobs g n ++ sub_blob g (Z.of_nat n).
Proof. unfold blobs. rewrite seq_S, map_app, List.concat_app. cbn. rewrite app_nil_r. reflexivity. Qed.

Lemma blobs_split g n m : (n < m)%nat -> exists post, blobs g m = blobs g n ++ sub_blob g (Z.of_nat n) ++ post.
Proof.
  intros H. induction m as [|m IH]; [lia|]. rewrite blobs_S. destruct (decide (n = m)) as [->|Hne].
  - exists []. rewrite app_nil_r. reflexivity.
  - destruct IH as [post ->]; [lia|]. exists (post ++ sub_blob g (Z.of_nat m)). rewrite <- !app_assoc. reflexivity.
Qed.

Section Package.
Context (g : grid) (Hok : grid_ok g = true).

Lemma switches_of i x : aget (sub_arr g) i = Some x ->
  0 <= num_switches x <= MAX_SWITCHES /\ num_switches x <= Z.of_nat (length (sw_list x)).
Proof.
  intros Hx. destruct (ok_sub Hok _ _ Hx) as (P & Hn & _).
  unfold ptrs_ok in P. rewrite !andb_true_iff, !Z.leb_le in P. lia.
Qed.

Lemma status_bytes_length i x : aget (sub_arr g) i = Some x ->
  Z.of_nat (length (status_bytes g x)) = num_switches x.
Proof.
  intros Hx. destruct (switches_of i x Hx). unfold status_bytes. rewrite length_map, length_take. lia.
Qed.

Lemma sub_blob_length i x : aget (sub_arr g) i = Some x ->
  Z.of_nat (length (sub_blob g i)) = 9 + num_switches x.
Proof.
  intros Hx. unfold sub_blob, sm_state. rewrite Hx, !length_app, !length_le_encode. cbn [length].
  pose proof (status_bytes_length i x Hx). lia.
Qed.

Lemma blobs_length n : (n <= length (sub_arr g))%nat -> Z.of_nat (length (blobs g n)) <= 19 * Z.of_nat n.
Proof.
  induction n as [|n IH]; intros Hn; [cbn; lia|]. rewrite blobs_S, length_app.
  destruct (aget_is_Some (sub_arr g) (Z.of_nat n)) as [x Hx]; [lia|].
  pose proof (sub_blob_length _ _ Hx). pose proof (switches_of _ _ Hx) as [? _]. unfold MAX_SWITCHES in *. lia.
Qed.

Lemma status_byte_at i x z k w : aget (sub_arr g) i = Some x -> listed x z k ->
  aget (sw_arr g) k = Some w -> status_bytes g x !! Z.to_nat z = Some (byte_of (switch_status w)).
Proof.
  intros Hx [Hz Hk] Hw. unfold status_bytes. rewrite list_lookup_fmap, lookup_take_lt by lia.
  unfold aget in Hk. destruct (in_bounds (sw_list x) z); [|discriminate]. rewrite Hk. cbn.
  rewrite Hw. reflexivity.
Qed.

Lemma wp_emit {S} st bs (Q : list byte -> S -> Prop) s :
  Z.of_nat (length st) + Z.of_nat (length bs) <= MAX_STATE_SIZE -> Q (st ++ bs) s ->
  wp no_fault (emit st bs) Q s.
Proof. intros H HQ. unfold emit. rewrite (proj2 (Z.leb_le _ _)) by exact H. apply wp_ret, HQ. Qed.

Lemma wp_package_sub i x st s :
  aget (sub_arr g) i = Some x -> Z.of_nat (length st) + 19 <= MAX_STATE_SIZE ->
  wp no_fault (package_sub g i st) (fun r s' => s' = s /\ r = st ++ sub_blob g i) s.
Proof.
  intros Hx Hl. destruct (switches_of i x Hx) as [Hn _]. pose proof (status_bytes_length i x Hx) as Hb.
  unfold MAX_SWITCHES in Hn. unfold package_sub. apply wp_bind. eapply wp_or_oob_Some; [exact Hx|].
  apply wp_bind. rewrite wrap32_small by (unfold two32; lia).
  apply wp_emit; [unfold sm_state; rewrite length_app, !length_le_encode; lia|].
  destruct (sub_tx g Hok _ _ Hx) as (k & t & Ek & Ht). apply wp_bind. rewrite deref_ptr, Ek.
  eapply wp_or_oob_Some; [exact Ht|]. apply wp_bind.
  apply wp_emit; [unfold sm_state; rewrite !length_app, !length_le_encode; cbn [length]; lia|].
  set (st0 := (st ++ sm_state i (1 + num_switches x)) ++ [byte_of (tx_status t)]).
  assert (Hl0 : Z.of_nat (length st0) = Z.of_nat (length st) + 9)
    by (unfold st0, sm_state; rewrite !length_app, !length_le_encode; cbn [length]; lia).
  apply wp_loop_then.
  apply (wp_for _ (fun j '(j', r) s' => j' = j /\ s' = s /\ r = st0 ++ take (Z.to_nat j) (status_bytes g x))).
  - intros j [j' r] s' Hj (-> & -> & ->). destruct (listed_here g Hok _ _ _ Hx Hj) as [k' Hk'].
    destruct (listed_switch g Hok _ _ _ _ Hx Hk') as [w Hw]. unfold element. apply wp_bind, wp_bind.
    eapply wp_or_oob_Some; [apply Hk'|]. rewrite deref_ptr. eapply wp_or_oob_Some; [exact Hw|].
    apply wp_bind, wp_emit; [rewrite length_app, length_take; cbn [length]; lia|]. apply wp_ret.
    split; [lia|]. split; [reflexivity|]. rewrite <- app_assoc. f_equal.
    replace (Z.to_nat (j + 1)) with (S (Z.to_nat j)) by lia.
    symmetry. apply take_S_r. eapply status_byte_at; eassumption.
  - split; [reflexivity|]. split; [reflexivity|]. cbn. rewrite app_nil_r. reflexivity.
  - intros [j' r] s' (-> & -> & ->). apply wp_ret. split; [reflexivity|].
    rewrite take_ge by lia. unfold st0, sub_blob, tx_byte. rewrite Hx, Ek. cbn [ptr]. rewrite Ht.
    rewrite <- !app_assoc. reflexivity.
Qed.

Lemma wp_package_subs :
  complete g = true ->
  wp no_fault package_subs (fun r s' => s' = g /\ r = blobs g (length (sub_arr g))) g.
Proof.
  intros Hc. destruct (complete_parts g Hc) as (_ & _ & _ & _ & _ & Hmax).
  destruct (ok_parts Hok) as (_ & _ & _ & _ & _ & Hn).
  unfold MAX_SUBSTATIONS in Hmax. unfold package_subs. apply wp_bind, wp_get. apply wp_loop_then.
  apply (wp_for _ (fun j '(j', r) s' => j' = j /\ s' = g /\ r = blobs g (Z.to_nat j))).
  - intros j [j' r] s' Hj (-> & -> & ->). destruct (aget_is_Some (sub_arr g) j) as [x Hx]; [lia|].
    apply wp_bind. eapply wp_conseq.
    { eapply wp_package_sub; [exact Hx|]. pose proof (blobs_length (Z.to_nat j) ltac:(lia)).
      change MAX_STATE_SIZE with 8988. lia. }
    intros r s' [-> ->]. apply wp_ret. split; [lia|]. split; [reflexivity|].
    replace (Z.to_nat (j + 1)) with (S (Z.to_nat j)) by lia. rewrite blobs_S, Z2Nat.id by lia. reflexivity.
  - repeat split.
  - intros [j' r] s' (-> & -> & ->). apply wp_ret. split; [reflexivity|]. f_equal. lia.
Qed.
End Package.

Lemma wp_on_grid {A} (F : fault -> Prop) (c : comp grid A) Q s :
  wp F c (fun a g => Q a (with_grid g s)) (the_grid s) -> wp F (on_grid c) Q s.
Proof. unfold on_grid, wp, bind, get. destruct (c (the_grid s)) as [[a g]|e]; exact (fun H => H). Qed.

(** All of it: the substations, then the PNNL fields without their padding. *)
Definition pnnl_part (s : sm) : list byte := drop 4 (pnnl_data s).

Definition state_bytes (s : sm) : list byte :=
  blobs (the_grid s) (length (sub_arr (the_grid s))) ++ sm_state PNNL_RTU_ID 0 ++ pnnl_part s.

Lemma slice_pnnl s : Z.of_nat (length (pnnl_data s)) = RTU_DATA_PAYLOAD_LEN ->
  slice (pnnl_data s) PNNL_DATA_PADDING (RTU_DATA_PAYLOAD_LEN - PNNL_DATA_PADDING) = Some (pnnl_part s).
Proof.
  intros H. unfold pnnl_part. rewrite <- (take_drop 4 (pnnl_data s)) at 1.
  rewrite <- (app_nil_r (drop 4 _)) at 1. unfold RTU_DATA_PAYLOAD_LEN in *. apply slice_part.
  - rewrite length_take. unfold PNNL_DATA_PADDING. lia.
  - rewrite length_drop. unfold PNNL_DATA_PADDING. lia.
Qed.

Lemma wp_package_state s :
  grid_ok (the_grid s) = true -> complete (the_grid s) = true ->
  Z.of_nat (length (pnnl_data s)) = RTU_DATA_PAYLOAD_LEN ->
  wp no_fault package_state
    (fun r s' => s' = s /\ r = state_bytes s /\ Z.of_nat (length r) <= MAX_STATE_SIZE) s.
Proof.
  intros Hok Hc Hp. destruct (complete_parts _ Hc) as (_ & _ & _ & _ & _ & Hmax).
  unfold MAX_SUBSTATIONS in Hmax. pose proof (blobs_length _ Hok (length (sub_arr (the_grid s))) ltac:(lia)) as Hb.
  assert (Hpl : Z.of_nat (length (pnnl_part s)) = 60)
    by (unfold pnnl_part; rewrite length_drop; unfold RTU_DATA_PAYLOAD_LEN in Hp; lia).
  unfold package_state. apply wp_bind, wp_get. apply wp_bind.
  apply wp_on_grid. eapply wp_conseq; [apply wp_package_subs; assumption|]. intros r s' [-> ->].
  replace (with_grid (the_grid s) s) with s by (destruct s; reflexivity). apply wp_bind.
  change MAX_STATE_SIZE with 8988 in *.
  apply wp_emit; [change (length (sm_state PNNL_RTU_ID 0)) with 8%nat; change MAX_STATE_SIZE with 8988; lia|].
  apply wp_bind, wp_load_bytes_at with (bs := pnnl_part s); [apply slice_pnnl, Hp|].
  apply wp_emit; [rewrite length_app; change (length (sm_state PNNL_RTU_ID 0)) with 8%nat; change MAX_STATE_SIZE with 8988; lia|].
  rewrite <- app_assoc. split; [reflexivity|]. split; [reflexivity|].
  rewrite !length_app. change (length (sm_state PNNL_RTU_ID 0)) with 8%nat. lia.
Qed.

(** ** Taking in another replica's state *)
(** Statuses are stored as [char]s. *)
Definition chars (g : grid) : Prop :=
  (forall k w, aget (sw_arr g) k = Some w -> -128 <= switch_status w < 128) /\
  (forall k t, aget (tx_arr g) k = Some t -> -128 <= tx_status t < 128).

Section Apply.
Context (g1 : grid) (Hok1 : grid_ok g1 = true) (Hchars : chars g1).

(** What already agrees with [g1] goes on agreeing. *)
Record towards (g g' : grid) : Prop := {
  tw_layout : same_layout g g';
  tw_switch : forall k, aget (sw_arr g) k = aget (sw_arr g1) k -> aget (sw_arr g') k = aget (sw_arr g1) k;
  tw_tx : forall k, aget (tx_arr g) k = aget (tx_arr g1) k -> aget (tx_arr g') k = aget (tx_arr g1) k }.

Lemma towards_refl g : towards g g.
Proof. split; auto. reflexivity. Qed.

Lemma towards_trans g g' g'' : towards g g' -> towards g' g'' -> towards g g''.
Proof. intros [A1 A2 A3] [B1 B2 B3]. split; auto. eapply same_layout_trans; eassumption. Qed.

Lemma same_switch g k w : same_layout g1 g -> aget (sw_arr g1) k = Some w ->
  exists w', aget (sw_arr g) k = Some w' /\ switch_with_status (switch_status w) w' = w.
Proof.
  intros L Hw. destruct (layout_maps L) as (_ & M & _).
  destruct (map_aget _ _ _ _ _ M Hw) as (w' & Hw' & E). exists w'. split; [exact Hw'|].
  injection E as E. unfold switch_with_status. rewrite E. destruct w. reflexivity.
Qed.

Lemma same_tx g k t : same_layout g1 g -> aget (tx_arr g1) k = Some t ->
  exists t', aget (tx_arr g) k = Some t' /\ tx_with_status (tx_status t) t' = t.
Proof.
  intros L Ht. destruct (layout_maps L) as (_ & _ & _ & _ & M & _).
  destruct (map_aget _ _ _ _ _ M Ht) as (t' & Ht' & E). exists t'. split; [exact Ht'|].
  injection E as E. unfold tx_with_status. rewrite E. destruct t. reflexivity.
Qed.

Lemma wp_copy_switch g k w (Q : unit -> grid -> Prop) :
  same_layout g1 g -> aget (sw_arr g1) k = Some w ->
  (forall g', towards g g' -> aget (sw_arr g') k = aget (sw_arr g1) k -> Q tt g') ->
  wp no_fault (set_switch_status (Some k) (switch_status w)) Q g.
Proof.
  intros L Hw HQ. destruct (same_switch g k w L Hw) as (w' & Hw' & E).
  eapply wp_set_switch; [exact Hw'|]. intros l Hl. rewrite E in Hl. apply HQ.
  - split; auto.
    + unfold same_layout, all_on. cbn. f_equal. symmetry.
      eapply map_aset_same; [exact Hw'|exact Hl|]. rewrite <- E. reflexivity.
    + intros j Hj. destruct (decide (j = k)) as [->|Hne]; cbn.
      * rewrite (aget_aset_eq _ _ _ _ Hl). congruence.
      * rewrite (aget_aset_ne _ _ _ _ _ Hl) by congruence. exact Hj.
  - cbn. rewrite (aget_aset_eq _ _ _ _ Hl). congruence.
Qed.

Lemma wp_copy_tx g k t (Q : unit -> grid -> Prop) :
  same_layout g1 g -> aget (tx_arr g1) k = Some t ->
  (forall g', towards g g' -> aget (tx_arr g') k = aget (tx_arr g1) k -> Q tt g') ->
  wp no_fault (set_tx_status (Some k) (tx_status t)) Q g.
Proof.
  intros L Ht HQ. destruct (same_tx g k t L Ht) as (t' & Ht' & E).
  eapply wp_set_tx; [exact Ht'|]. intros l Hl. rewrite E in Hl. apply HQ.
  - split; auto.
    + unfold same_layout, all_on. cbn. f_equal. symmetry.
      eapply map_aset_same; [exact Ht'|exact Hl|]. rewrite <- E. reflexivity.
    + intros j Hj. destruct (decide (j = k)) as [->|Hne]; cbn.
      * rewrite (aget_aset_eq _ _ _ _ Hl). congruence.
      * rewrite (aget_aset_ne _ _ _ _ _ Hl) by congruence. exact Hj.
  - cbn. rewrite (aget_aset_eq _ _ _ _ Hl). congruence.
Qed.

(** The switches and the transformer of substation [i] agree with [g1]. *)
Definition synced (i : Z) (g : grid) : Prop :=
  forall x, aget (sub_arr g1) i = Some x ->
    (forall z k, listed x z k -> aget (sw_arr g) k = aget (sw_arr g1) k) /\
    (forall k, tx x = Some k -> aget (tx_arr g) k = aget (tx_arr g1) k).

Lemma synced_towards i g g' : towards g g' -> synced i g -> synced i g'.
Proof.
  intros T H x Hx. destruct (H x Hx) as [H1 H2].
  split; intros; [apply (tw_switch _ _ T)|apply (tw_tx _ _ T)]; eauto.
Qed.

(** The bytes a field of the blob lies between. *)
Lemma load_blob_byte pre a post v p (Q : Z -> grid -> Prop) g :
  p = Z.of_nat (length pre) -> a = byte_of v -> Q (v mod 256) g ->
  wp no_fault (load (pre ++ a :: post) 1 p) Q g.
Proof.
  intros Hp -> HQ. eapply wp_load_value; [|exact HQ].
  exact (word_part pre 1 v post p Hp).
Qed.

Lemma wp_apply_sub contents pre post p i x g :
  contents = pre ++ sub_blob g1 i ++ post -> p = Z.of_nat (length pre) ->
  aget (sub_arr g1) i = Some x -> 0 <= i < two32 -> same_layout g1 g ->
  wp no_fault (apply_sub contents p)
    (fun r g' => r = p + Z.of_nat (length (sub_blob g1 i)) /\ towards g g' /\ synced i g') g.
Proof.
  intros Hcon Hp Hx Hi L. destruct (switches_of g1 Hok1 i x Hx) as [Hn _]. unfold MAX_SWITCHES in Hn.
  destruct (layout_sub L _ _ Hx) as (x' & Hx' & Ex).
  destruct (sub_static _ _ Ex) as (_ & _ & _ & E4 & _ & _ & E7 & _).
  destruct (sub_tx g1 Hok1 _ _ Hx) as (kt & t & Ekt & Ht).
  assert (Hblob : sub_blob g1 i =
            le_encode 4 i ++ le_encode 4 (1 + num_switches x) ++ byte_of (tx_status t) :: status_bytes g1 x).
  { unfold sub_blob, sm_state, tx_byte. rewrite Hx, Ekt. cbn [ptr]. rewrite Ht, <- app_assoc. reflexivity. }
  pose proof (sub_blob_length g1 Hok1 i x Hx) as Hlen. rewrite Hblob in Hcon.
  unfold apply_sub. apply wp_bind, wp_get. apply wp_bind.
  eapply wp_load_value.
  { rewrite Hcon, <- app_assoc. apply (word_part pre 4 i _ p Hp). }
  rewrite Z.mod_small by exact Hi. apply wp_bind. eapply wp_or_oob_Some; [exact Hx'|]. apply wp_bind.
  replace contents with ((pre ++ le_encode 4 i ++ le_encode 4 (1 + num_switches x)) ++
      byte_of (tx_status t) :: status_bytes g1 x ++ post)
    by (rewrite Hcon, <- !app_assoc; reflexivity).
  eapply load_blob_byte; [|reflexivity|].
  { rewrite !length_app, !length_le_encode, Hp. change sz_sm_state with 8. lia. }
  rewrite sint8_byte by (eapply Hchars; exact Ht). apply wp_bind. rewrite E7, Ekt.
  eapply wp_copy_tx; [exact L|exact Ht|]. intros g2 T2 Htx2. apply wp_bind. eapply wp_load_value.
  { replace ((pre ++ le_encode 4 i ++ le_encode 4 (1 + num_switches x)) ++ byte_of (tx_status t) :: status_bytes g1 x ++ post)
      with ((pre ++ le_encode 4 i) ++ le_encode 4 (1 + num_switches x) ++ byte_of (tx_status t) :: status_bytes g1 x ++ post)
      by (rewrite <- !app_assoc; reflexivity).
    apply word_part. rewrite length_app, length_le_encode, Hp. lia. }
  rewrite Z.mod_small by lia. rewrite wrap32_small by (unfold two32; lia). apply wp_loop_then.
  apply (wp_for _ (fun j j' g' => j' = 1 + j /\ towards g g' /\ aget (tx_arr g') kt = aget (tx_arr g1) kt /\
           forall z k, z < j -> listed x z k -> aget (sw_arr g') k = aget (sw_arr g1) k)).
  - intros j j' g' Hj (-> & T' & Htx' & Hsw'). rewrite E4.
    destruct (listed_here g1 Hok1 _ _ j Hx ltac:(lia)) as [k Hk].
    destruct (listed_switch g1 Hok1 _ _ _ _ Hx Hk) as [w Hw].
    apply wp_bind. eapply wp_or_oob_Some; [replace (1 + j - 1) with j by lia; apply Hk|]. apply wp_bind.
    pose proof (status_byte_at g1 _ _ _ _ _ Hx Hk Hw) as Hb.
    rewrite <- (take_drop_middle _ _ _ Hb).
    replace ((pre ++ le_encode 4 i ++ le_encode 4 (1 + num_switches x)) ++ byte_of (tx_status t) ::
       (take (Z.to_nat j) (status_bytes g1 x) ++ byte_of (switch_status w) :: drop (S (Z.to_nat j)) (status_bytes g1 x)) ++ post)
      with ((pre ++ le_encode 4 i ++ le_encode 4 (1 + num_switches x) ++ byte_of (tx_status t) ::
       take (Z.to_nat j) (status_bytes g1 x)) ++ byte_of (switch_status w) :: drop (S (Z.to_nat j)) (status_bytes g1 x) ++ post)
      by (repeat (rewrite <- app_assoc || cbn [app]); reflexivity).
    eapply load_blob_byte; [|reflexivity|].
    { pose proof (status_bytes_length g1 Hok1 i x Hx).
      rewrite !length_app, !length_le_encode, Hp. cbn [length]. rewrite length_take.
      change sz_sm_state with 8. lia. }
    rewrite sint8_byte by (eapply Hchars; exact Hw). apply wp_bind.
    assert (L' : same_layout g1 g') by (eapply same_layout_trans; [exact L|apply (tw_layout _ _ T')]).
    eapply wp_copy_switch; [exact L'|exact Hw|]. intros g3 T3 Hsw3. apply wp_ret. split; [lia|].
    split; [eapply towards_trans; eassumption|]. split; [apply (tw_tx _ _ T3), Htx'|].
    intros z k' Hz Hk'. destruct (decide (z = j)) as [->|Hne].
    + assert (k' = k) by (destruct Hk, Hk'; congruence). subst k'. exact Hsw3.
    + apply (tw_switch _ _ T3). apply (Hsw' z); [lia|exact Hk'].
  - split; [reflexivity|]. split; [exact T2|]. split; [exact Htx2|]. intros z k Hz [Hz' _]. lia.
  - intros j' g' (-> & T' & Htx' & Hsw'). apply wp_ret. split; [change sz_sm_state with 8; lia|].
    split; [exact T'|]. intros y Hy. assert (y = x) by congruence. subst y. split.
    + intros z k Hk. apply (Hsw' z k); [destruct Hk; lia|exact Hk].
    + intros k Ek. congruence.
Qed.

Lemma wp_apply_subs contents post g n :
  n = length (sub_arr g1) -> contents = blobs g1 n ++ post -> Z.of_nat n <= MAX_SUBSTATIONS ->
  same_layout g1 g ->
  wp no_fault (apply_subs contents (wrap32 (Z.of_nat n + 1)))
    (fun r g' => r = Z.of_nat (length (blobs g1 n)) /\ same_layout g g' /\
       forall i, 0 <= i < Z.of_nat n -> synced i g') g.
Proof.
  intros Hn Hcon Hmax L. unfold MAX_SUBSTATIONS in Hmax. unfold apply_subs.
  rewrite (wrap32_small (Z.of_nat n + 1)) by (unfold two32; lia).
  replace (Z.of_nat n + 1 - 1) with (Z.of_nat n) by lia. rewrite wrap32_small by (unfold two32; lia).
  apply wp_loop_then.
  apply (wp_for _ (fun j p g' => p = Z.of_nat (length (blobs g1 (Z.to_nat j))) /\ towards g g' /\
           forall i, 0 <= i < j -> synced i g')).
  - intros j p g' Hj (-> & T & HS). destruct (aget_is_Some (sub_arr g1) j) as [x Hx]; [lia|].
    destruct (blobs_split g1 (Z.to_nat j) n ltac:(lia)) as [mid Hsplit]. rewrite Z2Nat.id in Hsplit by lia.
    apply wp_bind. eapply wp_conseq.
    { eapply (wp_apply_sub contents (blobs g1 (Z.to_nat j)) (mid ++ post) _ j x g').
      - rewrite Hcon, Hsplit, <- !app_assoc. reflexivity.
      - reflexivity.
      - exact Hx.
      - unfold two32. lia.
      - eapply same_layout_trans; [exact L|apply (tw_layout _ _ T)]. }
    intros r g2 (-> & T2 & S2). apply wp_ret. cbn [turn]. split.
    + replace (Z.to_nat (j + 1)) with (S (Z.to_nat j)) by lia.
      rewrite blobs_S, length_app, Z2Nat.id by lia. lia.
    + split; [eapply towards_trans; eassumption|]. intros i Hi.
      destruct (decide (i = j)) as [->|Hne]; [exact S2|]. eapply synced_towards; [exact T2|]. apply HS. lia.
  - split; [reflexivity|]. split; [apply towards_refl|]. intros; lia.
  - intros p g' (-> & T & HS). apply wp_ret. rewrite Z.max_r by lia. rewrite Nat2Z.id.
    split; [reflexivity|]. split; [apply (tw_layout _ _ T)|]. intros i Hi. apply HS. lia.
Qed.

(** Every switch and transformer has a substation, so the arrays agree. *)
Lemma all_synced g :
  complete g1 = true -> same_layout g1 g ->
  (forall i, 0 <= i < Z.of_nat (length (sub_arr g1)) -> synced i g) ->
  sw_arr g = sw_arr g1 /\ tx_arr g = tx_arr g1.
Proof.
  intros Hc L HS. destruct (layout_lengths L) as (_ & Lw & _ & _ & Lt). split; apply aget_ext; auto.
  - intros k a b Ha Hb. destruct (switch_listed g1 Hok1 Hc k b Hb) as (i & x & z & Hx & Hz).
    destruct (HS i (aget_Some_bounds _ _ _ Hx) x Hx) as [H _]. specialize (H z k Hz). congruence.
  - intros k a b Ha Hb. destruct (tx_listed g1 Hc k b Hb) as (i & x & Hx & Hz).
    destruct (HS i (aget_Some_bounds _ _ _ Hx) x Hx) as [_ H]. specialize (H k Hz). congruence.
Qed.
End Apply.


(** ** Looking a component up by its position *)
Section Find.
Context (g : grid) (Hok : grid_ok g = true).

Lemma switch_by_id k k' w w' : aget (sw_arr g) k = Some w -> aget (sw_arr g) k' = Some w' ->
  switch_id w = switch_id w' -> k = k'.
Proof.
  intros Hw Hw' E. destruct (ok_parts Hok) as (_ & _ & _ & _ & Hnd & _).
  unfold ids in Hnd. apply list.NoDup_app in Hnd as (Hnd & _).
  pose proof (aget_Some_bounds _ _ _ Hw). pose proof (aget_Some_bounds _ _ _ Hw').
  assert (Hl : forall j y, aget (sw_arr g) j = Some y -> map switch_id (sw_arr g) !! Z.to_nat j = Some (switch_id y)).
  { intros j y Hy. unfold aget in Hy. destruct (in_bounds (sw_arr g) j); [|discriminate].
    rewrite list_lookup_fmap, Hy. reflexivity. }
  assert (Z.to_nat k = Z.to_nat k') by (apply (proj1 (list.NoDup_alt _) Hnd _ _ (switch_id w)); [|rewrite E]; apply Hl; assumption).
  lia.
Qed.

Lemma tx_by_id k k' t t' : aget (tx_arr g) k = Some t -> aget (tx_arr g) k' = Some t' ->
  tx_id t = tx_id t' -> k = k'.
Proof.
  intros Ht Ht' E. destruct (ok_parts Hok) as (_ & _ & _ & _ & Hnd & _).
  unfold ids in Hnd. do 3 (apply list.NoDup_app in Hnd as (_ & _ & Hnd)).
  pose proof (aget_Some_bounds _ _ _ Ht). pose proof (aget_Some_bounds _ _ _ Ht').
  assert (Hl : forall j y, aget (tx_arr g) j = Some y -> map tx_id (tx_arr g) !! Z.to_nat j = Some (tx_id y)).
  { intros j y Hy. unfold aget in Hy. destruct (in_bounds (tx_arr g) j); [|discriminate].
    rewrite list_lookup_fmap, Hy. reflexivity. }
  assert (Z.to_nat k = Z.to_nat k') by (apply (proj1 (list.NoDup_alt _) Hnd _ _ (tx_id t)); [|rewrite E]; apply Hl; assumption).
  lia.
Qed.

(** The switch at a place of the substation, with the identifier. *)
Definition place (x : sub) (z k : Z) (w : p_switch) : Prop := listed x z k /\ aget (sw_arr g) k = Some w.

Lemma wp_find_switch_of i x pos s :
  aget (sub_arr g) i = Some x ->
  wp no_fault (find_switch_of g x pos)
    (fun r t => t = s /\
       match r with
       | Some (z, w) => (exists k, place x z k w) /\ switch_id w = pos
       | None => forall z k w, place x z k w -> switch_id w <> pos
       end) s.
Proof.
  intros Hx. destruct (switches_of g Hok i x Hx) as [Hn _]. unfold find_switch_of. apply wp_loop_then.
  apply (wp_for _ (fun j z t => z = j /\ t = s /\
           forall z' k w, z' < j -> place x z' k w -> switch_id w <> pos)).
  - intros j z t Hj (-> & -> & HB). destruct (listed_here g Hok _ _ _ Hx Hj) as [k Hk].
    destruct (listed_switch g Hok _ _ _ _ Hx Hk) as [w Hw]. unfold element. apply wp_bind, wp_bind.
    eapply wp_or_oob_Some; [apply Hk|]. rewrite deref_ptr. eapply wp_or_oob_Some; [exact Hw|].
    destruct (pos =? switch_id w) eqn:E; apply wp_ret.
    + apply Z.eqb_eq in E. split; [reflexivity|]. split; [exists k; split; assumption|auto].
    + apply Z.eqb_neq in E. split; [lia|]. split; [reflexivity|]. intros z' k' w' Hz [Hk' Hw'].
      destruct (decide (z' = j)) as [->|Hne]; [|apply (HB z' k' w'); [lia|split; assumption]].
      assert (k' = k) by (destruct Hk, Hk'; congruence). congruence.
  - split; [reflexivity|]. split; [reflexivity|]. intros z' k w Hz [[Hz' _] _]. lia.
  - intros z t (-> & -> & HB). apply wp_ret. split; [reflexivity|]. intros z k w Hp.
    apply (HB z k w); [|exact Hp]. destruct Hp as [[Hz _] _]. lia.
Qed.

Lemma wp_find_switch pos s subs : forall i,
  (forall j x, subs !! j = Some x -> aget (sub_arr g) (i + Z.of_nat j) = Some x) ->
  wp no_fault (find_switch g subs i pos)
    (fun r t => t = s /\
       match r with
       | Some (i', z, w) => exists x k, aget (sub_arr g) i' = Some x /\ place x z k w /\ switch_id w = pos
       | None => forall j x z k w, subs !! j = Some x -> place x z k w -> switch_id w <> pos
       end) s.
Proof.
  induction subs as [|x subs IH]; intros i Hsubs; cbn [find_switch].
  { apply wp_ret. split; [reflexivity|]. discriminate. }
  pose proof (Hsubs O x eq_refl) as Hx. rewrite Z.add_0_r in Hx. apply wp_bind.
  eapply wp_conseq; [eapply wp_find_switch_of; exact Hx|]. intros [[z w]|] t [-> H].
  - apply wp_ret. split; [reflexivity|]. destruct H as [[k Hk] E]. exists x, k. auto.
  - eapply wp_conseq.
    { apply (IH (i + 1)). intros j y Hj. replace (i + 1 + Z.of_nat j) with (i + Z.of_nat (S j)) by lia.
      apply Hsubs, Hj. }
    intros [[[i' z] w]|] t [-> H']; (split; [reflexivity|]); [exact H'|].
    intros [|j] y z k w Hj; [|apply (H' j y z k w Hj)]. injection Hj as <-. apply H.
Qed.

Lemma wp_find_transformer pos s subs : forall i,
  (forall j x, subs !! j = Some x -> aget (sub_arr g) (i + Z.of_nat j) = Some x) ->
  wp no_fault (find_transformer g subs i pos)
    (fun r t => t = s /\
       match r with
       | Some (i', y) => exists x k, aget (sub_arr g) i' = Some x /\ tx x = Some k /\
           aget (tx_arr g) k = Some y /\ tx_id y = pos
       | None => forall j x k y, subs !! j = Some x -> tx x = Some k -> aget (tx_arr g) k = Some y ->
           tx_id y <> pos
       end) s.
Proof.
  induction subs as [|x subs IH]; intros i Hsubs; cbn [find_transformer].
  { apply wp_ret. split; [reflexivity|]. discriminate. }
  pose proof (Hsubs O x eq_refl) as Hx. rewrite Z.add_0_r in Hx. apply wp_bind.
  destruct (sub_tx g Hok _ _ Hx) as (k & y & Ek & Hy). rewrite deref_ptr, Ek.
  eapply wp_or_oob_Some; [exact Hy|]. destruct (pos =? tx_id y) eqn:E.
  - apply Z.eqb_eq in E. apply wp_ret. split; [reflexivity|]. exists x, k. auto.
  - apply Z.eqb_neq in E. eapply wp_conseq.
    { apply (IH (i + 1)). intros j a Hj. replace (i + 1 + Z.of_nat j) with (i + Z.of_nat (S j)) by lia.
      apply Hsubs, Hj. }
    intros [[i' y']|] t [-> H']; (split; [reflexivity|]); [exact H'|].
    intros [|j] a k' y' Hj; [|apply (H' j a k' y' Hj)]. injection Hj as <-. congruence.
Qed.

(** All the substations, from the first. *)
Lemma from_the_start : forall j x, sub_arr g !! j = Some x -> aget (sub_arr g) (0 + Z.of_nat j) = Some x.
Proof. intros j x H. apply aget_lookup, H. Qed.
End Find.
