(* ===== verification/ScadaProps.v ===== *)
(** The SCADA master as a replicated state machine: its type invariant, what a
    status report does to the operators' view, commands, the transfer of state
    between replicas and the reset. *)
From Stdlib Require Import ZArith Lia List Bool.
From Stdlib Require Import Strings.Byte.
From stdpp Require Import base list.
From S2P Require Import Prelude Memory ScadaPackets ScadaGrid ScadaInit ScadaMaster ScadaCorrect ScadaMasterCorrect.

(** ** The type of the state *)
Record shaped (s : sm) : Prop := {
  sh_pnnl : Z.of_nat (length (pnnl_data s)) = RTU_DATA_PAYLOAD_LEN;
  sh_ems : Z.of_nat (length (ems_data s)) = EMS_NUM_GENERATORS;
  sh_ems_each : forall i d, aget (ems_data s) i = Some d -> Z.of_nat (length d) = RTU_DATA_PAYLOAD_LEN }.

Record sm_ok (s : sm) : Prop := {
  so_grid : grid_ok (the_grid s) = true;
  so_complete : complete (the_grid s) = true;
  so_settled : settled (the_grid s);
  so_chars : chars (the_grid s);
  so_shaped : shaped s }.

Definition sends (s s' : sm) (o : list sm_out) : Prop := ipc_sent s' = ipc_sent s ++ o.

(** A grid all of whose statuses are 1 is settled when it is what [process] makes of it. *)
Definition initial_ok (g : grid) : Prop :=
  grid_ok g = true /\ complete g = true /\ process g = Ret (tt, g).

(** What the ITRC hands on.  The two conditions on commands are not checked by
    anybody; a transferred state comes from a well-formed replica of the same
    configuration, since [NUM_F + 1] replicas sent it. *)
Inductive admissible (g : grid) : sm_message -> Prop :=
| adm_report m : ITRC_Validate_Message (RTU_DATA m) = true -> 0 <= rs_rtu_id m ->
    Z.of_nat (length (rs_data m)) = RTU_DATA_PAYLOAD_LEN -> admissible g (RTU_DATA m)
| adm_command m :
    (hc_scen_type m = PNNL -> 0 <= hc_ttip_pos m < NUM_BREAKER) ->
    (hc_scen_type m = EMS -> 0 <= hc_ttip_pos m < EMS_NUM_GENERATORS) -> admissible g (HMI_COMMAND m)
| adm_benchmark m : admissible g (BENCHMARK m)
| adm_request m : 0 < sr_target m <= NUM_SM -> admissible g (STATE_REQUEST m)
| adm_transfer len m s1 post : sm_ok s1 -> same_layout (the_grid s1) g ->
    sx_contents m = state_bytes s1 ++ post ->
    sx_num_clients m = wrap32 (num_jhu_sub (the_grid s1) + 1) ->
    sx_state_size m = Z.of_nat (length (state_bytes s1)) -> admissible g (STATE_XFER len m)
| adm_reset : initial_ok (all_on g) -> admissible g SYSTEM_RESET
| adm_other t : admissible g (OTHER_TYPE t).

(** ** Invariants of the grid *)
Lemma settled_of_process g : grid_ok g = true -> process g = Ret (tt, g) -> settled g.
Proof.
  intros Hok Hp. destruct (process_returns g Hok) as (h & Hp' & W).
  replace h with g in W by congruence. exact W.
Qed.

Lemma chars_all_on g : chars (all_on g).
Proof.
  split; cbn.
  - intros k w Hw. rewrite aget_map in Hw. destruct (aget (sw_arr g) k); [|discriminate].
    injection Hw as <-. cbn. lia.
  - intros k t Ht. rewrite aget_map in Ht. destruct (aget (tx_arr g) k); [|discriminate].
    injection Ht as <-. cbn. lia.
Qed.

Lemma chars_reports g i x data gm :
  grid_ok g = true -> complete g = true -> aget (sub_arr g) i = Some x ->
  chars g -> reports g x data gm -> chars gm.
Proof.
  intros Hok Hc Hx [C1 C2] [L _ R1 R2 R3 R4]. destruct (layout_lengths L) as (_ & Lw & _ & _ & Lt). split.
  - intros k w' Hw'. destruct (aget_is_Some (sw_arr g) k) as [w Hw].
    { rewrite Lw. apply (aget_Some_bounds _ _ _ Hw'). }
    pose proof (C1 k w Hw) as Hr.
    destruct (decide (Some k ∈ take (Z.to_nat (num_switches x)) (sw_list x))) as [Hin|Hni].
    + destruct (ok_sub Hok _ _ Hx) as (P & _). destruct (listed_at _ _ _ _ P Hin) as (z & Hz & Hzk).
      rewrite (R1 z k w (conj Hz Hzk) Hw) in Hw'. injection Hw' as <-. unfold take_switch, reported_switch.
      destruct (_ || _ || _) eqn:E; [|exact Hr]. cbn. rewrite !orb_true_iff, !Z.eqb_eq in E. lia.
    + rewrite (R2 k) in Hw'; [congruence|]. intros z Hz. apply Hni. eapply listed_in; eassumption.
  - intros k t' Ht'. destruct (aget_is_Some (tx_arr g) k) as [t Ht].
    { rewrite Lt. apply (aget_Some_bounds _ _ _ Ht'). }
    pose proof (C2 k t Ht) as Hr. destruct (decide (tx x = Some k)) as [E|E].
    + rewrite (R3 k t E Ht) in Ht'. injection Ht' as <-. unfold take_tx, reported_tx.
      destruct (_ || _) eqn:E2; [|exact Hr]. cbn. rewrite !orb_true_iff, !Z.eqb_eq in E2. lia.
    + rewrite (R4 k E) in Ht'. congruence.
Qed.

Lemma chars_same g g' : sw_arr g' = sw_arr g -> tx_arr g' = tx_arr g -> chars g -> chars g'.
Proof. unfold chars. intros -> ->. exact (fun H => H). Qed.

(** A grid the master moved to: same layout, and still well formed. *)
Definition grid_next (g g' : grid) : Prop :=
  same_layout g g' /\ grid_ok g' = true /\ complete g' = true /\ settled g' /\ chars g'.

Lemma grid_next_of g gm g' :
  grid_ok g = true -> complete g = true -> same_layout g gm -> chars gm -> worked_out gm g' ->
  grid_next g g'.
Proof.
  intros Hok Hc L C W. assert (L' : same_layout g g') by (eapply same_layout_trans; [exact L|apply (wo_layout _ _ W)]).
  split; [exact L'|]. rewrite <- (grid_ok_layout _ _ L'), <- (complete_layout _ _ L').
  split; [exact Hok|]. split; [exact Hc|]. split; [eapply worked_out_settled; exact W|].
  eapply chars_same; [apply (wo_switches _ _ W)|apply (wo_txs _ _ W)|exact C].
Qed.

(** A state the master moves to, having sent [o]. *)
Definition next (s s' : sm) (o : list sm_out) : Prop :=
  sm_ok s' /\ same_layout (the_grid s) (the_grid s') /\ sends s s' o.

Lemma next_refl s : sm_ok s -> next s s [].
Proof. intros H. split; [exact H|]. split; [reflexivity|]. unfold sends. rewrite app_nil_r. reflexivity. Qed.

(** ** Status reports *)
Lemma valid_report m : ITRC_Validate_Message (RTU_DATA m) = true ->
  ((NUM_RTU <=? rs_rtu_id m) || (sp_seq_num (rs_seq m) =? 0)) = false /\
  (rs_scen_type m = JHU \/ rs_scen_type m = PNNL \/ rs_scen_type m = EMS /\
     exists id, word_at (rs_data m) 4 o_ems_id = Some id /\ 0 <= id < EMS_NUM_GENERATORS).
Proof.
  cbn [ITRC_Validate_Message]. destruct (_ || _) eqn:E1; [discriminate|]. intros H. split; [reflexivity|].
  destruct (rs_scen_type m =? JHU) eqn:Ej; [left; apply Z.eqb_eq, Ej|].
  destruct (rs_scen_type m =? PNNL) eqn:Ep; [right; left; apply Z.eqb_eq, Ep|]. cbn in H.
  destruct (rs_scen_type m =? EMS) eqn:Ee; [|discriminate]. right; right. split; [apply Z.eqb_eq, Ee|].
  destruct (word_at (rs_data m) 4 o_ems_id) as [id|] eqn:Ew; [|discriminate].
  exists id. split; [reflexivity|]. pose proof (word_at_bounds _ _ _ _ Ew).
  rewrite negb_true_iff, Z.leb_gt in H. lia.
Qed.

(** The update that answers a report. *)
Definition answers (m : rtu_status_msg) (s' : sm) (u : hmi_update_msg) : Prop :=
  hu_seq u = rs_seq m /\ hu_scen_type u = rs_scen_type m /\ hu_sec u = rs_sec m /\
  hu_usec u = rs_usec m /\
  (rs_scen_type m = JHU -> hu_status u = map byte_of (stat (the_grid s'))) /\
  (rs_scen_type m = PNNL -> hu_status u = drop 4 (rs_data m)) /\
  (rs_scen_type m = EMS -> hu_status u = rs_data m).

Definition stamped (m : rtu_status_msg) (s : sm) : sm := with_clock (rs_sec m, rs_usec m) s.

Section Report.
Context (My_ID : Z) (s : sm) (Hs : sm_ok s) (m : rtu_status_msg)
  (Hv : ITRC_Validate_Message (RTU_DATA m) = true) (Hid : 0 <= rs_rtu_id m)
  (Hd : Z.of_nat (length (rs_data m)) = RTU_DATA_PAYLOAD_LEN).

Lemma next_send s' u : sm_ok s' -> same_layout (the_grid s) (the_grid s') -> ipc_sent s' = ipc_sent s ->
  next s (mkSM (the_grid s') (pnnl_data s') (ems_data s') (clock s') (ipc_sent s' ++ [u])) [u].
Proof.
  intros [A B C D E] L Es. split; [split; auto; destruct E; split; auto|]. split; [exact L|].
  unfold sends. cbn. rewrite Es. reflexivity.
Qed.

Lemma stamped_ok : sm_ok (stamped m s).
Proof. destruct Hs as [A B C D [E1 E2 E3]]. split; auto. split; auto. Qed.

(** What a report of substation [i] does. *)
Lemma wp_jhu_report i x :
  rs_scen_type m = JHU -> i = rs_rtu_id m -> aget (sub_arr (the_grid s)) i = Some x ->
  wp no_fault (sm_main My_ID (RTU_DATA m))
    (fun _ s' => exists u, next s s' [Hmi_Update u] /\ answers m s' u /\
       (exists gm, reports (the_grid s) x (rs_data m) gm /\ worked_out gm (the_grid s')) /\
       pnnl_data s' = pnnl_data s /\ ems_data s' = ems_data s) s.
Proof.
  intros Ej -> Hx. destruct (valid_report m Hv) as [E1 _]. cbn [sm_main]. unfold read_from_rtu. rewrite E1.
  destruct (ok_parts (so_grid _ Hs)) as (_ & _ & _ & _ & _ & Hn).
  apply wp_bind, wp_bind, wp_get. apply wp_bind, wp_put. apply wp_bind, wp_get.
  rewrite (proj2 (Z.eqb_eq _ _) Ej). cbn [the_grid with_clock].
  rewrite (proj2 (Z.leb_gt _ _)) by (rewrite Hn; apply (aget_Some_bounds _ _ _ Hx)).
  apply wp_bind, wp_on_grid. cbn [the_grid with_clock].
  eapply wp_conseq.
  { eapply wp_read_jhu; [apply (so_grid _ Hs)|apply (so_complete _ Hs)|exact Hx|exact Hd]. }
  intros _ g' (gm & Hr & W). apply wp_ret. unfold send_hmi_update. rewrite (proj2 (Z.eqb_eq _ _) Ej).
  apply wp_bind, wp_get. apply wp_bind, wp_ret. apply wp_bind, wp_get. apply wp_put.
  eexists. split; [|split; [|split; [exists gm; split; [exact Hr|exact W]|split; reflexivity]]].
  - destruct (grid_next_of _ gm g' (so_grid _ Hs) (so_complete _ Hs) (rp_layout _ _ _ _ Hr)) as (L & A & B & C & D).
    { eapply chars_reports; [apply (so_grid _ Hs)|apply (so_complete _ Hs)|exact Hx|apply (so_chars _ Hs)|exact Hr]. }
    { exact W. }
    apply (next_send (with_grid g' (stamped m s))); [split; auto|exact L|reflexivity].
    destruct (so_shaped _ Hs); split; auto.
  - repeat split; cbn; auto; intros E; rewrite E in Ej; discriminate.
Qed.

(** The update is sent from what the state then holds. *)
Lemma wp_send_update s' id status :
  sm_ok s' -> same_layout (the_grid s) (the_grid s') -> ipc_sent s' = ipc_sent s ->
  clock s' = (rs_sec m, rs_usec m) ->
  wp no_fault
    (if rs_scen_type m =? JHU then ret (map byte_of (stat (the_grid s')))
     else if rs_scen_type m =? PNNL then
       load_bytes (pnnl_data s') PNNL_DATA_PADDING (RTU_DATA_PAYLOAD_LEN - PNNL_DATA_PADDING)
     else if rs_scen_type m =? EMS then or_oob (aget (ems_data s') id)
     else raise OutOfBounds) (fun r t => r = status /\ t = s') s' ->
  (rs_scen_type m = JHU -> status = map byte_of (stat (the_grid s'))) ->
  (rs_scen_type m = PNNL -> status = drop 4 (rs_data m)) ->
  (rs_scen_type m = EMS -> status = rs_data m) ->
  wp no_fault (send_hmi_update m id)
    (fun _ t => exists u, next s t [Hmi_Update u] /\ answers m t u) s'.
Proof.
  intros Hok L Es Ec Hst H1 H2 H3. unfold send_hmi_update. apply wp_bind, wp_get. apply wp_bind.
  eapply wp_conseq; [exact Hst|]. intros r t [-> ->]. apply wp_bind, wp_get. apply wp_put.
  eexists. split; [apply (next_send s' _ Hok L Es)|]. rewrite Ec. repeat split; auto.
Qed.

Lemma wp_report :
  wp no_fault (sm_main My_ID (RTU_DATA m))
    (fun _ s' => exists u, next s s' [Hmi_Update u] /\ answers m s' u) s.
Proof.
  destruct (valid_report m Hv) as [E1 HS].
  destruct (ok_parts (so_grid _ Hs)) as (_ & _ & _ & _ & _ & Hn).
  pose proof stamped_ok as Hst. destruct (so_shaped _ Hs) as [S1 S2 S3].
  destruct HS as [Ej|[Ep|(Ee & id & Hw & Hid2)]].
  - destruct (decide (rs_rtu_id m < num_jhu_sub (the_grid s))) as [Hlt|Hge].
    { destruct (aget_is_Some (sub_arr (the_grid s)) (rs_rtu_id m)) as [x Hx]; [lia|].
      eapply wp_conseq; [apply (wp_jhu_report _ x Ej eq_refl Hx)|]. intros a s' (u & H1 & H2 & _). eauto. }
    cbn [sm_main]. unfold read_from_rtu. rewrite E1. apply wp_bind, wp_bind, wp_get.
    apply wp_bind, wp_put. apply wp_bind, wp_get. rewrite (proj2 (Z.eqb_eq _ _) Ej).
    cbn [the_grid with_clock]. rewrite (proj2 (Z.leb_le _ _)) by lia. apply wp_ret.
    eapply (wp_send_update (stamped m s)); auto; [reflexivity| |intros E; rewrite E in Ej; discriminate..].
    rewrite (proj2 (Z.eqb_eq _ _) Ej). apply wp_ret. auto.
  - cbn [sm_main]. unfold read_from_rtu. rewrite E1. apply wp_bind, wp_bind, wp_get.
    apply wp_bind, wp_put. apply wp_bind, wp_get. rewrite Ep. cbn [Z.eqb JHU PNNL Pos.eqb].
    apply wp_bind, wp_put. apply wp_ret.
    assert (Hok' : sm_ok (with_pnnl_data (rs_data m) (stamped m s)))
      by (destruct Hst as [A B C D [F1 F2 F3]]; split; auto; split; auto).
    eapply (wp_send_update (with_pnnl_data (rs_data m) (stamped m s)) 0 (drop 4 (rs_data m)));
      auto; try reflexivity; [|intros E; rewrite E in Ep; discriminate..].
    rewrite Ep. cbn [Z.eqb JHU PNNL Pos.eqb]. eapply wp_load_bytes_at; [|split; reflexivity].
    apply (slice_pnnl (with_pnnl_data (rs_data m) s) Hd).
  - cbn [sm_main]. unfold read_from_rtu. rewrite E1. apply wp_bind, wp_bind, wp_get.
    apply wp_bind, wp_put. apply wp_bind, wp_get. rewrite Ee. cbn [Z.eqb JHU PNNL EMS Pos.eqb].
    apply wp_bind. eapply wp_load_value; [exact Hw|]. apply wp_bind.
    apply wp_aset_in; [cbn; lia|]. intros l Hl. apply wp_bind, wp_put. apply wp_ret.
    assert (Hok' : sm_ok (with_ems_data l (stamped m s))).
    { destruct Hst as [A B C D [F1 F2 F3]]. split; auto. split; auto; cbn.
      - rewrite (aset_length _ _ _ _ Hl). exact F2.
      - intros j d Hj. destruct (decide (j = id)) as [->|Hne].
        + rewrite (aget_aset_eq _ _ _ _ Hl) in Hj. congruence.
        + rewrite (aget_aset_ne _ _ _ _ _ Hl) in Hj by congruence. apply (F3 j d Hj). }
    eapply (wp_send_update (with_ems_data l (stamped m s)) id (rs_data m));
      auto; try reflexivity; [|intros E; rewrite E in Ee; discriminate..].
    rewrite Ee. cbn [Z.eqb JHU PNNL EMS Pos.eqb].
    eapply wp_or_oob_Some; [apply (aget_aset_eq _ _ _ _ Hl)|auto].
Qed.
End Report.

(** ** The other messages *)
Section Handlers.
Context (My_ID : Z) (s : sm) (Hs : sm_ok s).

Lemma next_feedback s' f : sm_ok s' -> the_grid s' = the_grid s -> ipc_sent s' = ipc_sent s ->
  wp no_fault (match f with Some f => IPC_Send (Rtu_Feedback f) | None => ret tt end)
    (fun _ t => next s t (match f with Some f => [Rtu_Feedback f] | None => [] end)) s'.
Proof.
  intros Hok Eg Es. assert (L : same_layout (the_grid s) (the_grid s')) by (rewrite Eg; reflexivity).
  destruct f as [f|].
  - apply wp_bind, wp_get, wp_put. apply next_send; assumption.
  - apply wp_ret. split; [exact Hok|]. split; [exact L|]. unfold sends. rewrite Es, app_nil_r. reflexivity.
Qed.

Lemma wp_jhu_command c :
  wp no_fault (jhu_command c) (fun r g => g = the_grid s) (the_grid s).
Proof.
  unfold jhu_command. apply wp_bind, wp_get. destruct (hc_type c =? TRANSFORMER).
  - apply wp_bind. eapply wp_conseq; [apply (wp_find_transformer _ (so_grid _ Hs)), from_the_start|].
    intros r t [-> _]. apply wp_ret. reflexivity.
  - destruct (hc_type c =? SWITCH); [|apply wp_ret; reflexivity]. apply wp_bind.
    eapply wp_conseq; [apply (wp_find_switch _ (so_grid _ Hs)), from_the_start|].
    intros r t [-> _]. apply wp_ret. reflexivity.
Qed.

Lemma wp_command c :
  (hc_scen_type c = PNNL -> 0 <= hc_ttip_pos c < NUM_BREAKER) ->
  (hc_scen_type c = EMS -> 0 <= hc_ttip_pos c < EMS_NUM_GENERATORS) ->
  wp no_fault (sm_main My_ID (HMI_COMMAND c)) (fun _ s' => exists o, next s s' o) s.
Proof.
  intros Hp He. destruct (so_shaped _ Hs) as [S1 S2 S3]. cbn [sm_main]. unfold read_from_hmi.
  assert (Hsend : forall s' f, sm_ok s' -> the_grid s' = the_grid s -> ipc_sent s' = ipc_sent s ->
    wp no_fault (match f with Some f => IPC_Send (Rtu_Feedback f) | None => ret tt end)
      (fun _ t => exists o, next s t o) s').
  { intros s' f H1 H2 H3. eapply wp_conseq; [apply next_feedback; assumption|]. intros ? t Hn. eexists. exact Hn. }
  apply wp_bind. destruct (hc_scen_type c =? JHU) eqn:Ej.
  { apply wp_on_grid. eapply wp_conseq; [apply wp_jhu_command|]. intros r g ->.
    apply (Hsend (with_grid (the_grid s) s) r); [destruct Hs as [A B C D [F1 F2 F3]]; split; auto; split; auto|reflexivity..]. }
  destruct (hc_scen_type c =? PNNL) eqn:Ep.
  { apply Z.eqb_eq in Ep. specialize (Hp Ep). unfold NUM_BREAKER in Hp. unfold pnnl_command.
    apply wp_bind, wp_get. apply wp_bind. unfold assert_.
    rewrite (proj2 (Z.leb_le _ _)), (proj2 (Z.ltb_lt _ _)) by (unfold NUM_BREAKER; lia). apply wp_ret.
    apply wp_bind. unfold RTU_DATA_PAYLOAD_LEN in S1.
    destruct (hc_type c =? BREAKER_FLIP).
    - destruct (word_defined (pnnl_data s) 1 (o_pnnl_breaker_write + hc_ttip_pos c)) as [v Hv];
        [unfold o_pnnl_breaker_write; lia..|].
      apply wp_bind. eapply wp_load_value; [exact Hv|]. apply wp_ret, wp_ret; apply (Hsend s (Some _)); auto.
    - destruct (hc_type c =? BREAKER_ON); [|destruct (hc_type c =? BREAKER_OFF)];
        apply wp_ret, wp_ret; apply (Hsend s (Some _)); auto. }
  destruct (hc_scen_type c =? EMS) eqn:Ee; [|apply wp_ret; apply (Hsend s None); auto].
  apply Z.eqb_eq in Ee. specialize (He Ee). unfold ems_command. apply wp_bind, wp_get. apply wp_bind.
  destruct (aget_is_Some (ems_data s) (hc_ttip_pos c)) as [d Hd]; [lia|].
  eapply wp_modify_at; [exact Hd|]. intros l Hl. apply wp_bind, wp_put. apply wp_bind.
  pose proof (S3 _ _ Hd) as Ld. unfold RTU_DATA_PAYLOAD_LEN in Ld.
  eapply wp_or_oob_Some; [apply (aget_aset_eq _ _ _ _ Hl)|]. apply wp_bind.
  eapply wp_load_value; [apply word_at_put; unfold o_ems_target_generation; lia|]. apply wp_ret.
  apply (Hsend _ (Some _)); [|reflexivity..]. destruct Hs as [A B C D [F1 F2 F3]]. split; auto. split; auto; cbn.
  - rewrite (aset_length _ _ _ _ Hl). exact F2.
  - intros j d' Hj. destruct (decide (j = hc_ttip_pos c)) as [->|Hne].
    + rewrite (aget_aset_eq _ _ _ _ Hl) in Hj. injection Hj as <-.
      rewrite put_u32_length by (unfold o_ems_target_generation; lia). exact Ld.
    + rewrite (aget_aset_ne _ _ _ _ _ Hl) in Hj by congruence. apply (F3 j d' Hj).
Qed.

(** The message that carries the state. *)
Definition transfer_of (m : state_request_msg) : state_xfer_msg :=
  PKT_Construct_State_Xfer_Msg (sr_target m) (wrap32 (num_jhu_sub (the_grid s) + 1))
    (sr_latest_update m) (state_bytes s).

Lemma wp_request m : 0 < sr_target m <= NUM_SM ->
  wp no_fault (sm_main My_ID (STATE_REQUEST m)) (fun _ s' =>
    s' = mkSM (the_grid s) (pnnl_data s) (ems_data s) (clock s) (ipc_sent s ++ [State_Xfer (transfer_of m)])) s.
Proof.
  intros Ht. cbn [sm_main]. unfold package_and_send_state. apply wp_bind. unfold assert_ at 1.
  rewrite (proj2 (Z.ltb_lt _ _)), (proj2 (Z.leb_le _ _)) by lia. apply wp_ret. apply wp_bind.
  eapply wp_conseq; [apply wp_package_state; [apply Hs..|apply (sh_pnnl _ (so_shaped _ Hs))]|].
  intros r t (-> & -> & Hl). apply wp_bind, wp_get. apply wp_bind. unfold assert_.
  change MAX_STATE_SIZE with (MAX_LEN - sz_scada_message - sz_state_xfer_msg) in Hl.
  rewrite (proj2 (Z.leb_le _ _)) by (cbn; lia). apply wp_ret. apply wp_bind, wp_get, wp_put. reflexivity.
Qed.

Lemma wp_transfer len m s1 post :
  sm_ok s1 -> same_layout (the_grid s1) (the_grid s) -> sx_contents m = state_bytes s1 ++ post ->
  sx_num_clients m = wrap32 (num_jhu_sub (the_grid s1) + 1) ->
  sx_state_size m = Z.of_nat (length (state_bytes s1)) ->
  sx_target m = My_ID -> sz_scada_message + len <= MAX_LEN ->
  wp no_fault (sm_main My_ID (STATE_XFER len m)) (fun _ s' =>
    s' = mkSM (the_grid s1) (put_bytes (pnnl_data s) PNNL_DATA_PADDING (pnnl_part s1)) (ems_data s)
           (clock s) (ipc_sent s)) s.
Proof.
  intros H1 L Hcon Hn Hsz Ht Hlen. destruct (so_shaped _ Hs) as [S1 S2 S3].
  pose proof (so_grid _ H1) as Ok1. pose proof (so_complete _ H1) as C1.
  destruct (ok_parts Ok1) as (_ & _ & _ & _ & _ & En).
  destruct (complete_parts _ C1) as (_ & _ & _ & _ & _ & Hmax).
  pose proof (blobs_length _ Ok1 (length (sub_arr (the_grid s1))) ltac:(lia)) as Hb. unfold MAX_SUBSTATIONS in Hmax.
  set (n := length (sub_arr (the_grid s1))) in *.
  assert (Hpl : Z.of_nat (length (pnnl_part s1)) = 60).
  { unfold pnnl_part. rewrite length_drop. pose proof (sh_pnnl _ (so_shaped _ H1)) as H. unfold RTU_DATA_PAYLOAD_LEN in H. lia. }
  cbn [sm_main]. unfold apply_state. rewrite (proj2 (Z.eqb_eq _ _) Ht), (proj2 (Z.ltb_ge _ _)) by exact Hlen.
  cbn [negb]. apply wp_bind, wp_on_grid. rewrite Hn, En.
  eapply wp_conseq.
  { eapply (wp_apply_subs (the_grid s1) Ok1 (so_chars _ H1) _ (sm_state PNNL_RTU_ID 0 ++ pnnl_part s1 ++ post));
      [reflexivity| |unfold MAX_SUBSTATIONS; lia|exact L].
    rewrite Hcon. unfold state_bytes. rewrite <- !app_assoc. reflexivity. }
  intros r g (-> & Lg & HS). fold n.
  assert (L1 : same_layout (the_grid s1) g) by (eapply same_layout_trans; [exact L|exact Lg]).
  destruct (all_synced (the_grid s1) Ok1 g C1 L1 HS) as [Esw Etx].
  apply wp_bind. eapply wp_load_bytes_at.
  { rewrite Hcon. unfold state_bytes. fold n. rewrite app_assoc, <- app_assoc.
    apply slice_part; [|rewrite Hpl; reflexivity]. rewrite length_app. cbn. change sz_sm_state with 8. lia. }
  apply wp_bind, wp_get. apply wp_bind, wp_put. apply wp_bind. unfold assert_.
  rewrite (proj2 (Z.eqb_eq _ _)).
  2: { rewrite Hsz. unfold state_bytes. fold n. rewrite !length_app. change (length (sm_state PNNL_RTU_ID 0)) with 8%nat.
       unfold wrap32, two32, RTU_DATA_PAYLOAD_LEN, PNNL_DATA_PADDING. change sz_sm_state with 8.
       rewrite Z.mod_small; lia. }
  apply wp_ret, wp_on_grid. cbn [the_grid with_pnnl_data with_grid].
  assert (Okg : grid_ok g = true) by (rewrite <- (grid_ok_layout _ _ L1); exact Ok1).
  assert (Cg : complete g = true) by (rewrite <- (complete_layout _ _ L1); exact C1).
  destruct (process_returns g Okg) as (h & Hp & _).
  rewrite (process_from g (the_grid s1) h Okg Cg (so_settled _ H1) (same_layout_sym _ _ L1) Esw Etx Hp) in Hp.
  unfold wp. rewrite Hp. reflexivity.
Qed.

Lemma wp_other_target len m : sx_target m <> My_ID \/ MAX_LEN < sz_scada_message + len ->
  wp no_fault (sm_main My_ID (STATE_XFER len m)) (fun _ s' => s' = s) s.
Proof.
  intros H. cbn [sm_main]. unfold apply_state. destruct (sx_target m =? My_ID) eqn:E; cbn [negb];
    [|apply wp_ret; reflexivity].
  apply Z.eqb_eq in E. destruct H as [?|H]; [contradiction|]. rewrite (proj2 (Z.ltb_lt _ _)) by exact H.
  apply wp_ret. reflexivity.
Qed.

Lemma wp_reset : initial_ok (all_on (the_grid s)) ->
  wp no_fault (sm_main My_ID SYSTEM_RESET) (fun _ s' =>
    s' = mkSM (all_on (the_grid s)) (zeros RTU_DATA_PAYLOAD_LEN) (ems_data s) (clock s) (ipc_sent s)) s.
Proof. intros _. apply wp_bind, wp_get, wp_put. reflexivity. Qed.

(** Every admissible message is dealt with, and leaves a well-formed state. *)
Lemma wp_sm_main m : admissible (the_grid s) m ->
  wp no_fault (sm_main My_ID m) (fun _ s' => exists o, next s s' o) s.
Proof.
  intros H. destruct H as [m Hv Hid Hd|c Hp He|b|m Ht|len m s1 post H1 L Hc Hn Hz|Hi|t].
  - eapply wp_conseq; [apply wp_report; assumption|]. intros a s' (u & Hn & _). eauto.
  - apply wp_command; assumption.
  - apply wp_bind, wp_get, wp_put. eexists. apply next_send; [exact Hs|reflexivity..].
  - eapply wp_conseq; [apply wp_request, Ht|]. intros a s' ->. eexists.
    apply next_send; [exact Hs|reflexivity..].
  - destruct (decide (sx_target m = My_ID /\ sz_scada_message + len <= MAX_LEN)) as [[Ht Hl]|Hno].
    + eapply wp_conseq; [eapply wp_transfer; eassumption|]. intros a s' ->. exists [].
      assert (L' : same_layout (the_grid s) (the_grid s1)) by (apply same_layout_sym, L).
      split; [|split; [exact L'|unfold sends; cbn; rewrite app_nil_r; reflexivity]].
      destruct H1 as [A B C D E], Hs as [_ _ _ _ [F1 F2 F3]]. split; auto. split; auto. cbn.
      destruct E as [E _ _]. unfold RTU_DATA_PAYLOAD_LEN, PNNL_DATA_PADDING in *.
      rewrite put_bytes_length; [exact F1|lia|]. unfold pnnl_part. rewrite length_drop. lia.
    + eapply wp_conseq; [apply wp_other_target; lia|]. intros a s' ->. exists []. apply next_refl, Hs.
  - eapply wp_conseq; [apply wp_reset, Hi|]. intros a s' ->. exists [].
    split; [|split; [|unfold sends; cbn; rewrite app_nil_r; reflexivity]].
    + destruct Hi as (A & B & C). destruct (so_shaped _ Hs) as [F1 F2 F3].
      split; auto; [apply settled_of_process; assumption|apply chars_all_on|split; auto].
    + unfold same_layout, all_on. cbn. rewrite !map_map. reflexivity.
  - apply wp_ret. exists []. apply next_refl, Hs.
Qed.
End Handlers.

(** ** Replicas that agree

    The status of the generators is not part of the state that is transferred,
    and replicas may differ in it, in the padding of the PNNL fields and in the
    last time stamp: nothing they send depends on them. *)
Definition agree (s1 s2 : sm) : Prop :=
  the_grid s1 = the_grid s2 /\ pnnl_part s1 = pnnl_part s2 /\ shaped s1 /\ shaped s2.

(** Agreeing replicas that have sent the same since they had sent [b1] and [b2]. *)
Definition twins (b1 b2 : list sm_out) (s1 s2 : sm) : Prop :=
  agree s1 s2 /\ exists o, ipc_sent s1 = b1 ++ o /\ ipc_sent s2 = b2 ++ o.

(** What is ordered by Prime and validated by the ITRC; a state transfer is for one replica. *)
Definition ordered (m : sm_message) : Prop :=
  match m with
  | RTU_DATA r => ITRC_Validate_Message m = true /\ Z.of_nat (length (rs_data r)) = RTU_DATA_PAYLOAD_LEN
  | STATE_XFER _ _ => False
  | _ => True
  end.

(** When the first returns so does the second, with the same result. *)
Definition mirrors {A} (R : A -> sm -> sm -> Prop) (c1 c2 : comp sm A) (s1 s2 : sm) : Prop :=
  forall a t1, c1 s1 = Ret (a, t1) -> exists t2, c2 s2 = Ret (a, t2) /\ R a t1 t2.

Lemma mirrors_ret {A} (R : A -> sm -> sm -> Prop) a s1 s2 : R a s1 s2 -> mirrors R (ret a) (ret a) s1 s2.
Proof. intros H b t [= <- <-]. exists s2. split; [reflexivity|exact H]. Qed.

Lemma mirrors_raise {A} R f (c : comp sm A) s1 s2 : mirrors R (raise f) c s1 s2.
Proof. discriminate. Qed.

Lemma mirrors_bind {A B} R R' (c1 c2 : comp sm A) (k1 k2 : A -> comp sm B) s1 s2 :
  mirrors R c1 c2 s1 s2 -> (forall a t1 t2, R a t1 t2 -> mirrors R' (k1 a) (k2 a) t1 t2) ->
  mirrors R' (bind c1 k1) (bind c2 k2) s1 s2.
Proof.
  intros Hc Hk b t1. unfold bind. destruct (c1 s1) as [[a u1]|f] eqn:E1; [|discriminate].
  intros Ht. destruct (Hc a u1 E1) as (u2 & -> & Hu). apply (Hk a u1 u2 Hu b t1 Ht).
Qed.

Lemma mirrors_get {B} R (k1 k2 : sm -> comp sm B) s1 s2 :
  mirrors R (k1 s1) (k2 s2) s1 s2 -> mirrors R (bind get k1) (bind get k2) s1 s2.
Proof. exact (fun H => H). Qed.

Lemma mirrors_put {B} R t1 t2 (k1 k2 : unit -> comp sm B) s1 s2 :
  mirrors R (k1 tt) (k2 tt) t1 t2 -> mirrors R (bind (put t1) k1) (bind (put t2) k2) s1 s2.
Proof. exact (fun H => H). Qed.

Lemma mirrors_oob {A B} R (o : option A) (k1 k2 : A -> comp sm B) s1 s2 :
  (forall a, o = Some a -> mirrors R (k1 a) (k2 a) s1 s2) ->
  mirrors R (bind (or_oob o) k1) (bind (or_oob o) k2) s1 s2.
Proof. destruct o; intros H; [apply (H a eq_refl)|apply mirrors_raise]. Qed.

Lemma mirrors_load_bytes {B} R buf1 buf2 p n (k1 k2 : list byte -> comp sm B) s1 s2 :
  slice buf1 p n = slice buf2 p n -> (forall bs, mirrors R (k1 bs) (k2 bs) s1 s2) ->
  mirrors R (bind (load_bytes buf1 p n) k1) (bind (load_bytes buf2 p n) k2) s1 s2.
Proof. unfold load_bytes. intros -> H. destruct (slice buf2 p n); [apply H|apply mirrors_raise]. Qed.

Lemma mirrors_load {B} R buf1 buf2 n p (k1 k2 : Z -> comp sm B) s1 s2 :
  word_at buf1 n p = word_at buf2 n p ->
  (forall v, word_at buf1 n p = Some v -> mirrors R (k1 v) (k2 v) s1 s2) ->
  mirrors R (bind (load buf1 n p) k1) (bind (load buf2 n p) k2) s1 s2.
Proof.
  intros E H b t1. unfold bind. destruct (word_at buf1 n p) as [v|] eqn:Ew.
  - rewrite (load_value _ _ _ _ _ Ew), (load_value _ _ _ _ _ (eq_sym E)). apply (H v eq_refl).
  - unfold load, bind, load_bytes. unfold word_at in Ew. destruct (slice buf1 p n); discriminate.
Qed.

Section Twins.
Context (b1 b2 : list sm_out).
Abbreviation same := (twins b1 b2).

Lemma twins_send s1 s2 u : same s1 s2 -> mirrors (fun _ => same) (IPC_Send u) (IPC_Send u) s1 s2.
Proof.
  intros ((E1 & E2 & [S1 S2 S3] & [S4 S5 S6]) & o & O1 & O2) a t1 [= <- <-]. eexists. split; [reflexivity|].
  split; [repeat split; auto|]. exists (o ++ [u]). cbn. rewrite O1, O2, <- !app_assoc. auto.
Qed.

(** The grid's part of a handler sees the same grid. *)
Lemma mirrors_on_grid {A B} R (c : comp grid A) (k1 k2 : A -> comp sm B) s1 s2 :
  the_grid s1 = the_grid s2 ->
  (forall a g, mirrors R (k1 a) (k2 a) (with_grid g s1) (with_grid g s2)) ->
  mirrors R (bind (on_grid c) k1) (bind (on_grid c) k2) s1 s2.
Proof.
  intros E H b t1. cbv [bind on_grid get]. rewrite E.
  destruct (c (the_grid s2)) as [[a g]|f]; [apply (H a g)|discriminate].
Qed.

Lemma twins_grid g s1 s2 : same s1 s2 -> same (with_grid g s1) (with_grid g s2).
Proof. intros ((E1 & E2 & [S1 S2 S3] & [S4 S5 S6]) & o). split; [repeat split; auto|exact o]. Qed.

Lemma shaped_clock t s : shaped s -> shaped (with_clock t s).
Proof. intros [A B C]. split; auto. Qed.

Lemma twins_clock t s1 s2 : same s1 s2 -> same (with_clock t s1) (with_clock t s2).
Proof. intros ((E1 & E2 & S1 & S2) & o). split; [split; [exact E1|split; [exact E2|auto using shaped_clock]]|exact o]. Qed.

(** The bytes after the padding are all that is read of the PNNL fields. *)
Lemma word_pnnl s1 s2 p : pnnl_part s1 = pnnl_part s2 -> shaped s1 -> shaped s2 -> 4 <= p ->
  word_at (pnnl_data s1) 1 p = word_at (pnnl_data s2) 1 p.
Proof.
  intros E [S1 _ _] [S2 _ _] Hp. unfold pnnl_part in E.
  assert (H : forall d, word_at d 1 p = le_decode <$> slice (take 4 d ++ drop 4 d) p 1) by (intros d; rewrite take_drop; reflexivity).
  rewrite !H. f_equal. unfold slice, in_range. rewrite !length_app, <- E. rewrite !length_take, !length_drop.
  unfold RTU_DATA_PAYLOAD_LEN in *. replace (length (pnnl_data s2)) with 64%nat by lia.
  replace (length (pnnl_data s1)) with 64%nat by lia.
  destruct (_ && _ && _); [|reflexivity]. f_equal. f_equal.
  rewrite !drop_app_ge by (rewrite length_take; lia). rewrite !length_take.
  replace (length (pnnl_data s2)) with 64%nat by lia. replace (length (pnnl_data s1)) with 64%nat by lia.
  reflexivity.
Qed.

Lemma slice_pnnl_twins s1 s2 : agree s1 s2 ->
  slice (pnnl_data s1) PNNL_DATA_PADDING (RTU_DATA_PAYLOAD_LEN - PNNL_DATA_PADDING) =
  slice (pnnl_data s2) PNNL_DATA_PADDING (RTU_DATA_PAYLOAD_LEN - PNNL_DATA_PADDING).
Proof.
  intros (_ & E & S1 & S2). rewrite (slice_pnnl _ (sh_pnnl _ S1)), (slice_pnnl _ (sh_pnnl _ S2)), E. reflexivity.
Qed.

(** Writing a generator's entry. *)
Lemma shaped_ems s l i d : shaped s -> aset (ems_data s) i d = Some l ->
  Z.of_nat (length d) = RTU_DATA_PAYLOAD_LEN -> shaped (with_ems_data l s).
Proof.
  intros [A B C] Hl Hd. split; auto; cbn.
  - rewrite (aset_length _ _ _ _ Hl). exact B.
  - intros j d' Hj. destruct (decide (j = i)) as [->|Hne].
    + rewrite (aget_aset_eq _ _ _ _ Hl) in Hj. congruence.
    + rewrite (aget_aset_ne _ _ _ _ _ Hl) in Hj by congruence. apply (C j d' Hj).
Qed.

Lemma twins_ems l1 l2 s1 s2 : same s1 s2 -> shaped (with_ems_data l1 s1) -> shaped (with_ems_data l2 s2) ->
  same (with_ems_data l1 s1) (with_ems_data l2 s2).
Proof. intros ((E1 & E2 & _ & _) & o) H1 H2. split; [split; [exact E1|split; [exact E2|auto]]|exact o]. Qed.

Lemma aset_both {A} (l1 l2 : list A) i x y : length l1 = length l2 ->
  (exists m1 m2, aset l1 i x = Some m1 /\ aset l2 i y = Some m2) \/ aset l1 i x = None.
Proof.
  intros Hl. unfold aset, in_bounds. rewrite Hl. destruct (_ && _); [left; eauto|right; reflexivity].
Qed.

Lemma mirrors_modify {A B} R (e1 e2 : list A) i f (k1 k2 : list A -> comp sm B) s1 s2 :
  length e1 = length e2 ->
  (forall x1 x2 l1 l2, aget e1 i = Some x1 -> aget e2 i = Some x2 ->
     aset e1 i (f x1) = Some l1 -> aset e2 i (f x2) = Some l2 -> mirrors R (k1 l1) (k2 l2) s1 s2) ->
  mirrors R (bind (modify_at e1 i f) k1) (bind (modify_at e2 i f) k2) s1 s2.
Proof.
  intros Hl H b t1. cbv [bind modify_at]. destruct (aget e1 i) as [x1|] eqn:E1; [|discriminate].
  destruct (aget_is_Some e2 i) as [x2 E2]; [pose proof (aget_Some_bounds _ _ _ E1); lia|]. rewrite E2.
  cbn [or_oob ret]. destruct (aset_both e1 e2 i (f x1) (f x2) Hl) as [(l1 & l2 & H1 & H2)|Hn].
  - rewrite H1, H2. apply (H x1 x2 l1 l2); auto.
  - rewrite Hn. discriminate.
Qed.

(** *** Status reports *)
(** What the update is made from is the same. *)
Definition same_source (m : rtu_status_msg) (id : Z) (s1 s2 : sm) : Prop :=
  same s1 s2 /\ clock s1 = clock s2 /\
  (rs_scen_type m = EMS -> aget (ems_data s1) id = aget (ems_data s2) id).

Lemma twins_read m s1 s2 : ordered (RTU_DATA m) -> same s1 s2 ->
  mirrors (same_source m) (read_from_rtu m) (read_from_rtu m) s1 s2.
Proof.
  intros [Hv Hd] Hs. destruct (valid_report m Hv) as [E1 HS].
  unfold read_from_rtu. rewrite E1. apply mirrors_get, mirrors_put, mirrors_get.
  pose proof (twins_clock (rs_sec m, rs_usec m) _ _ Hs) as Ht.
  assert (Hc : clock (with_clock (rs_sec m, rs_usec m) s1) = clock (with_clock (rs_sec m, rs_usec m) s2)) by reflexivity.
  set (t1 := with_clock (rs_sec m, rs_usec m) s1) in *. set (t2 := with_clock (rs_sec m, rs_usec m) s2) in *.
  clearbody t1 t2. clear Hs s1 s2. destruct Ht as [(E & Ep & [S1 S2 S3] & [S4 S5 S6]) Ho].
  assert (Ht : same t1 t2) by (split; [repeat split; auto|exact Ho]). destruct HS as [Ej|[Em|(Ee & id & Hw & Hid)]].
  - rewrite Ej, E. cbn [Z.eqb JHU Pos.eqb]. destruct (num_jhu_sub (the_grid t2) <=? rs_rtu_id m).
    + apply mirrors_ret. split; [exact Ht|]. split; [exact Hc|]. rewrite Ej. discriminate.
    + apply mirrors_on_grid; [exact E|]. intros _ g. apply mirrors_ret.
      split; [apply twins_grid, Ht|]. split; [exact Hc|]. rewrite Ej. discriminate.
  - rewrite Em. cbn [Z.eqb JHU PNNL Pos.eqb]. apply mirrors_put, mirrors_ret.
    split; [|split; [exact Hc|rewrite Em; discriminate]].
    split; [|exact Ho]. split; [exact E|]. split; [reflexivity|]. split; split; auto.
  - rewrite Ee. cbn [Z.eqb JHU PNNL EMS Pos.eqb]. apply mirrors_load; [reflexivity|]. intros id' Hw'.
    replace id' with id by congruence. destruct (aset_both (ems_data t1) (ems_data t2) id (rs_data m) (rs_data m))
      as [(l1 & l2 & Hl1 & Hl2)|Hn]; [lia| |rewrite Hn; apply mirrors_raise].
    rewrite Hl1, Hl2. cbn [or_oob]. intros a u1 [= <- <-]. eexists. split; [reflexivity|].
    split; [|split; [exact Hc|]].
    + apply twins_ems; [exact Ht|eapply shaped_ems; [split; eauto|exact Hl1|exact Hd]|eapply shaped_ems; [split; eauto|exact Hl2|exact Hd]].
    + intros _. cbn. rewrite (aget_aset_eq _ _ _ _ Hl1), (aget_aset_eq _ _ _ _ Hl2). reflexivity.
Qed.

Lemma twins_update m id s1 s2 : same_source m id s1 s2 ->
  mirrors (fun _ => same) (send_hmi_update m id) (send_hmi_update m id) s1 s2.
Proof.
  intros (Hs & Hc & He). pose proof Hs as [Ha Ho]. pose proof (proj1 Ha) as E.
  unfold send_hmi_update. apply mirrors_get. rewrite Hc.
  destruct (rs_scen_type m =? JHU).
  { rewrite E. apply (mirrors_bind (fun _ => same)); [apply mirrors_ret, Hs|].
    intros st t1 t2 Ht. apply twins_send, Ht. }
  destruct (rs_scen_type m =? PNNL).
  { apply mirrors_load_bytes; [apply slice_pnnl_twins, Ha|]. intros bs. apply twins_send, Hs. }
  destruct (rs_scen_type m =? EMS) eqn:Ee.
  - apply Z.eqb_eq in Ee. rewrite (He Ee). apply mirrors_oob. intros bs _. apply twins_send, Hs.
  - apply mirrors_raise.
Qed.

(** *** Commands *)
Lemma twins_command c s1 s2 : same s1 s2 ->
  mirrors (fun _ => same) (read_from_hmi c) (read_from_hmi c) s1 s2.
Proof.
  intros Hs. pose proof Hs as [(E & Ep & [S1 S2 S3] & [S4 S5 S6]) Ho].
  assert (Hsend : forall f t1 t2, same t1 t2 -> mirrors (fun _ => same)
    (match f with Some f => IPC_Send (Rtu_Feedback f) | None => ret tt end)
    (match f with Some f => IPC_Send (Rtu_Feedback f) | None => ret tt end) t1 t2).
  { intros [f|] t1 t2 Ht; [apply twins_send, Ht|apply mirrors_ret, Ht]. }
  unfold read_from_hmi. destruct (hc_scen_type c =? JHU).
  { apply mirrors_on_grid; [exact E|]. intros f g. apply Hsend, twins_grid, Hs. }
  apply (mirrors_bind (fun _ => same)); [|intros f t1 t2 Ht; apply Hsend, Ht].
  destruct (hc_scen_type c =? PNNL).
  { unfold pnnl_command, assert_. apply mirrors_get. destruct (_ && _) eqn:Eb; [|apply mirrors_raise].
    rewrite andb_true_iff, Z.leb_le in Eb.
    apply (mirrors_bind (fun _ => same)); [apply mirrors_ret, Hs|]. intros _ t1 t2 Ht.
    apply (mirrors_bind (fun _ => same)); [|intros v u1 u2 Hu; apply mirrors_ret, Hu].
    destruct (hc_type c =? BREAKER_FLIP); [|destruct (hc_type c =? BREAKER_ON), (hc_type c =? BREAKER_OFF); apply mirrors_ret, Ht].
    apply mirrors_load; [|intros v _; apply mirrors_ret, Ht].
    apply word_pnnl; [exact Ep|split; auto|split; auto|unfold o_pnnl_breaker_write; lia]. }
  destruct (hc_scen_type c =? EMS); [|apply mirrors_ret, Hs].
  unfold ems_command. apply mirrors_get. apply mirrors_modify; [lia|].
  intros d1 d2 l1 l2 D1 D2 Hl1 Hl2. apply mirrors_put.
  pose proof (S3 _ _ D1) as L1. pose proof (S6 _ _ D2) as L2.
  rewrite (aget_aset_eq _ _ _ _ Hl1), (aget_aset_eq _ _ _ _ Hl2). cbn [or_oob].
  set (v := wrap32 (hc_type c)) in *. set (e1 := put_u32 o_ems_target_generation v d1) in *.
  set (e2 := put_u32 o_ems_target_generation v d2) in *. unfold RTU_DATA_PAYLOAD_LEN in L1, L2.
  assert (W1 : word_at e1 4 o_ems_target_generation = Some (wrap32 v)) by (apply word_at_put; unfold o_ems_target_generation; lia).
  assert (W2 : word_at e2 4 o_ems_target_generation = Some (wrap32 v)) by (apply word_at_put; unfold o_ems_target_generation; lia).
  apply (mirrors_load _ e1 e2); [congruence|]. intros u _. apply mirrors_ret.
  apply twins_ems; [exact Hs|eapply shaped_ems; [split; eauto|exact Hl1|]|eapply shaped_ems; [split; eauto|exact Hl2|]];
    subst e1 e2; rewrite put_u32_length by (unfold o_ems_target_generation; lia); assumption.
Qed.
End Twins.

(** ** Agreement is kept *)
Lemma shaped_pnnl d s : shaped s -> Z.of_nat (length d) = RTU_DATA_PAYLOAD_LEN -> shaped (with_pnnl_data d s).
Proof. intros [A B C] H. split; auto. Qed.

Lemma twins_main b1 b2 My_ID1 My_ID2 m s1 s2 : ordered m -> twins b1 b2 s1 s2 ->
  mirrors (fun _ => twins b1 b2) (sm_main My_ID1 m) (sm_main My_ID2 m) s1 s2.
Proof.
  intros Ho Hs. pose proof Hs as [Ha Hout]. pose proof Ha as (E & Ep & S1 & S2).
  destruct m as [m|c|b|m|len m| |t]; cbn [sm_main].
  - eapply mirrors_bind; [apply twins_read; eassumption|]. intros id t1 t2. apply twins_update.
  - apply twins_command, Hs.
  - apply twins_send, Hs.
  - unfold package_and_send_state, assert_. destruct (_ && _); [|apply mirrors_raise].
    apply (mirrors_bind (fun _ => twins b1 b2)); [apply mirrors_ret, Hs|]. intros _ t1 t2 Ht.
    apply (mirrors_bind (fun _ => twins b1 b2)).
    + unfold package_state. pose proof Ht as [Hta Htb]. pose proof Hta as (Et & Ept & T1 & T2).
      apply mirrors_get. apply mirrors_on_grid; [exact Et|]. intros st g.
      apply (mirrors_bind (fun _ => twins b1 b2)).
      { unfold emit. destruct (_ <=? _); [apply mirrors_ret, twins_grid, Ht|apply mirrors_raise]. }
      intros st' u1 u2 Hu. apply mirrors_load_bytes; [apply slice_pnnl_twins, Hta|]. intros bs.
      unfold emit. destruct (_ <=? _); [apply mirrors_ret, Hu|apply mirrors_raise].
    + intros st u1 u2 Hu. pose proof Hu as [(Eu & _) _]. apply mirrors_get. rewrite Eu. cbv zeta.
      unfold assert_. destruct (_ <=? _); [|apply mirrors_raise].
      apply (mirrors_bind (fun _ => twins b1 b2)); [apply mirrors_ret, Hu|]. intros _ v1 v2. apply twins_send.
  - destruct Ho.
  - unfold system_reset. apply mirrors_get. rewrite E. intros a t1 [= <- <-]. eexists. split; [reflexivity|].
    split; [|exact Hout]. split; [reflexivity|]. split; [reflexivity|].
    split; apply shaped_pnnl; try reflexivity; destruct S1, S2; split; auto.
  - apply mirrors_ret, Hs.
Qed.

Lemma twins_run b1 b2 My_ID1 My_ID2 ms : forall s1 s2, Forall ordered ms -> twins b1 b2 s1 s2 ->
  mirrors (fun _ => twins b1 b2) (sm_run My_ID1 ms) (sm_run My_ID2 ms) s1 s2.
Proof.
  induction ms as [|m ms IH]; intros s1 s2 Ho Hs; cbn [sm_run]; [apply mirrors_ret, Hs|].
  apply Forall_cons_1 in Ho as [Ho Hos]. eapply mirrors_bind; [eapply twins_main; eassumption|].
  intros ? t1 t2 Ht. apply IH; assumption.
Qed.

(** A replica that took a state in agrees with the one the state is from. *)
Lemma agree_after_transfer s1 s : sm_ok s1 -> shaped s ->
  agree (mkSM (the_grid s1) (put_bytes (pnnl_data s) PNNL_DATA_PADDING (pnnl_part s1)) (ems_data s)
           (clock s) (ipc_sent s)) s1.
Proof.
  intros H1 [A B C]. pose proof (sh_pnnl _ (so_shaped _ H1)) as A1.
  assert (Hpl : length (pnnl_part s1) = 60%nat) by (unfold pnnl_part; rewrite length_drop; unfold RTU_DATA_PAYLOAD_LEN in A1; lia).
  unfold RTU_DATA_PAYLOAD_LEN in A. split; [reflexivity|]. split; [|split; [split|apply H1]]; auto.
  - unfold pnnl_part at 1. cbn [pnnl_data]. unfold put_bytes, PNNL_DATA_PADDING.
    change (Z.to_nat 4) with 4%nat. rewrite drop_app_length' by (rewrite length_take; lia).
    rewrite drop_ge by (rewrite Hpl; lia). rewrite app_nil_r. reflexivity.
  - cbn. rewrite put_bytes_length; [exact A|unfold PNNL_DATA_PADDING; lia|rewrite Hpl; unfold PNNL_DATA_PADDING; lia].
Qed.

(** ** The state [init] leaves, and runs from it *)
Lemma all_on_idem g : all_on (all_on g) = all_on g.
Proof. unfold all_on. cbn. rewrite !map_map. reflexivity. Qed.

Lemma wp_anything {S A} (c : comp S A) s : wp any_fault c (fun _ _ => True) s.
Proof. unfold wp. destruct (c s) as [[a t]|f]; exact I. Qed.

Lemma wp_after {S A B} (c : comp S A) (k : A -> comp S B) Q s :
  (forall a t, wp any_fault (k a) Q t) -> wp any_fault (bind c k) Q s.
Proof. intros H. apply wp_bind. eapply wp_conseq; [apply wp_anything|]. intros a t _. apply H. Qed.

Lemma init_all_on js jw jl jt file t s0 : init js jw jl jt file t = Ret s0 ->
  all_on (the_grid s0) = the_grid s0 /\ pnnl_data s0 = zeros RTU_DATA_PAYLOAD_LEN /\ shaped s0.
Proof.
  unfold init. intros H.
  assert (W : wp any_fault (load_ini js jw jl jt) (fun _ ls => all_on (snd ls) = snd ls) (file, no_grid)).
  { unfold load_ini. do 3 (apply wp_after; intros ? ?). apply wp_after; intros [[[subs txs] sws] pls] ?.
    do 3 (apply wp_after; intros ? ?). apply wp_loop_then.
    apply (wp_for _ (fun _ _ _ => True)); [|exact I|].
    - intros i [j cur] u _ _. apply wp_after. intros cur' u'. apply wp_ret. exact I.
    - intros y u _. do 3 (apply wp_after; intros ? ?).
      unfold set_globals. apply wp_bind, wp_get, wp_put. apply all_on_idem. }
  unfold wp in W. destruct (load_ini _ _ _ _ _) as [[[] [ls g]]|]; [|discriminate].
  injection H as <-. cbn in *. split; [exact W|]. split; [reflexivity|]. split; [reflexivity..|].
  intros i d Hd. cbn in Hd. apply aget_elem in Hd. repeat (apply elem_of_cons in Hd as [->|Hd]; [reflexivity|]). inversion Hd.
Qed.

Lemma admissible_layout g g' m : same_layout g g' -> admissible g m -> admissible g' m.
Proof.
  intros L H. destruct H; try (econstructor; eassumption).
  - econstructor; [eassumption|eapply same_layout_trans; eassumption|eassumption..].
  - constructor. rewrite <- L. assumption.
Qed.

Lemma wp_sm_run My_ID ms : forall s, sm_ok s -> Forall (admissible (the_grid s)) ms ->
  wp no_fault (sm_run My_ID ms) (fun _ s' => exists o, next s s' o) s.
Proof.
  induction ms as [|m ms IH]; intros s Hs Hm; cbn [sm_run].
  { apply wp_ret. exists []. apply next_refl, Hs. }
  apply Forall_cons_1 in Hm as [Hm Hms]. apply wp_bind.
  eapply wp_conseq; [apply (wp_sm_main My_ID s Hs m Hm)|]. intros ? s1 (o1 & H1 & L1 & S1).
  eapply wp_conseq.
  { apply (IH s1 H1). eapply Forall_impl; [exact Hms|]. intros m' Hm'. eapply admissible_layout; eassumption. }
  intros ? s2 (o2 & H2 & L2 & S2). exists (o1 ++ o2). split; [exact H2|].
  split; [eapply same_layout_trans; eassumption|]. unfold sends in *. rewrite S2, S1, app_assoc. reflexivity.
Qed.

(** The command for the switch at place [z] of substation [i]. *)
Lemma wp_switch_command s c i x z k w :
  sm_ok s -> aget (sub_arr (the_grid s)) i = Some x -> place (the_grid s) x z k w ->
  hc_scen_type c = JHU -> hc_type c = SWITCH -> hc_ttip_pos c = switch_id w -> switch_status w <> 2 ->
  forall My_ID, wp no_fault (sm_main My_ID (HMI_COMMAND c))
    (fun _ s' => s' = mkSM (the_grid s) (pnnl_data s) (ems_data s) (clock s)
       (ipc_sent s ++ [Rtu_Feedback (mkFeed (hc_seq c) JHU SWITCH i i z (toggled (switch_status w)))])) s.
Proof.
  intros Hs Hx [Hl Hw] Ej Et Ep Hst My_ID. pose proof (so_grid _ Hs) as Hok. cbn [sm_main].
  unfold read_from_hmi. rewrite Ej. cbn [Z.eqb JHU Pos.eqb]. apply wp_bind, wp_on_grid.
  unfold jhu_command. apply wp_bind, wp_get. rewrite Et. cbn [Z.eqb SWITCH TRANSFORMER Pos.eqb].
  apply wp_bind. eapply wp_conseq; [apply (wp_find_switch _ Hok), from_the_start|].
  intros [[[i' z'] w']|] g [-> H]; apply wp_ret.
  - destruct H as (x' & k' & Hx' & [Hl' Hw'] & Eid).
    assert (k' = k) by (eapply (switch_by_id _ Hok); [exact Hw'|exact Hw|congruence]). subst k'.
    destruct (listed_once _ Hok (so_complete _ Hs) _ _ _ _ _ _ _ Hx Hx' Hl Hl') as [<- <-].
    assert (w' = w) by congruence. subst w'. rewrite (proj2 (Z.eqb_neq _ _) Hst). rewrite Ej.
    apply wp_bind, wp_get, wp_put. reflexivity.
  - exfalso. unfold aget in Hx. destruct (in_bounds (sub_arr (the_grid s)) i); [|discriminate].
    apply (H (Z.to_nat i) x z k w Hx (conj Hl Hw)). congruence.
Qed.

(** ** Properties *)
(** C35. The type of the master's state: every admissible message is dealt with without
    a fault and leaves a state of the same configuration in which every index,
    array length and status range is right, and in which the statuses shown to
    the operators follow from the switches and transformers. *)
Theorem master_state_is_typed (My_ID : Z) (s : sm) (m : sm_message) :
  sm_ok s -> admissible (the_grid s) m ->
  exists s' o, sm_main My_ID m s = Ret (tt, s') /\ sm_ok s' /\
    same_layout (the_grid s) (the_grid s') /\ ipc_sent s' = ipc_sent s ++ o.
Proof.
  intros Hs Hm. destruct (wp_run _ _ _ (wp_sm_main My_ID s Hs m Hm)) as ([] & s' & Hr & o & H1 & H2 & H3).
  exists s', o. auto.
Qed.

(** C34. The breadth-first search of [process] ends and gives every substation with
    power, and no other, the status 1; lines and the status array follow. *)
Theorem process_finds_who_has_power (g : grid) :
  grid_ok g = true ->
  exists g', process g = Ret (tt, g') /\ same_layout g g' /\ sw_arr g' = sw_arr g /\ tx_arr g' = tx_arr g /\
    (forall i x, aget (sub_arr g') i = Some x ->
       sub_status x = 1 /\ powered g i \/ sub_status x = 0 /\ ~ powered g i) /\
    (forall k l, aget (pl_arr g') k = Some l ->
       if tripped g l then link_status l = 2
       else link_status l = 1 /\ energised g k \/ link_status l = 0 /\ ~ energised g k) /\
    (forall id v, (id, v) ∈ stat_entries g' -> aget (stat g') id = Some v).
Proof.
  intros Hok. destruct (process_returns g Hok) as (g' & Hp & [W1 W2 W3 W4 W5 W6]).
  exists g'. repeat split; assumption.
Qed.

(** A status report of a substation: its switches and its transformer get the
    reported statuses, power is worked out again, and one update with the
    report's number and the new status array goes to the operators. *)
Theorem report_updates_the_view (My_ID : Z) (s : sm) (m : rtu_status_msg) (x : sub) :
  sm_ok s -> ITRC_Validate_Message (RTU_DATA m) = true -> 0 <= rs_rtu_id m ->
  Z.of_nat (length (rs_data m)) = RTU_DATA_PAYLOAD_LEN -> rs_scen_type m = JHU ->
  aget (sub_arr (the_grid s)) (rs_rtu_id m) = Some x ->
  exists s' u gm, sm_main My_ID (RTU_DATA m) s = Ret (tt, s') /\
    ipc_sent s' = ipc_sent s ++ [Hmi_Update u] /\ hu_seq u = rs_seq m /\
    hu_status u = map byte_of (stat (the_grid s')) /\
    reports (the_grid s) x (rs_data m) gm /\ worked_out gm (the_grid s') /\ sm_ok s'.
Proof.
  intros Hs Hv Hid Hd Hj Hx.
  destruct (wp_run _ _ _ (wp_jhu_report My_ID s Hs m Hv Hd _ x Hj eq_refl Hx))
    as ([] & s' & Hr & u & (N1 & N2 & N3) & (A1 & _ & _ & _ & A2 & _) & (gm & G1 & G2) & _).
  exists s', u, gm. repeat (split; [assumption || (apply A2; exact Hj)|]). exact N1.
Qed.

(** C36. The state of a replica survives being packaged and applied: whatever the
    receiver held, its power grid becomes the sender's, status array and all,
    and so do the PNNL fields.  What a generator reported last is not sent. *)
Theorem state_transfer_roundtrip (id1 id2 : Z) (s1 s2 : sm) (req : state_request_msg) (len : Z) (stale : list byte) :
  sm_ok s1 -> sm_ok s2 -> same_layout (the_grid s1) (the_grid s2) ->
  sr_target req = id2 -> 0 < id2 <= NUM_SM -> sz_scada_message + len <= MAX_LEN ->
  exists s1' x s2', sm_main id1 (STATE_REQUEST req) s1 = Ret (tt, s1') /\
    ipc_sent s1' = ipc_sent s1 ++ [State_Xfer x] /\
    sm_main id2 (STATE_XFER len (mkStateXfer (sx_ord x) (sx_target x) (sx_latest_update x)
        (sx_num_clients x) (sx_state_size x) (sx_contents x ++ stale))) s2 = Ret (tt, s2') /\
    the_grid s2' = the_grid s1 /\ drop 4 (pnnl_data s2') = drop 4 (pnnl_data s1) /\
    ems_data s2' = ems_data s2.
Proof.
  intros H1 H2 L Ht Hid Hlen.
  destruct (wp_run _ _ _ (wp_request id1 s1 H1 req ltac:(lia))) as ([] & s1' & Hr1 & E1).
  pose proof (wp_transfer id2 s2 H2 len (mkStateXfer (mkOrd 0 0 0) (sr_target req) (sr_latest_update req)
    (wrap32 (num_jhu_sub (the_grid s1) + 1)) (Z.of_nat (length (state_bytes s1))) (state_bytes s1 ++ stale))
    s1 stale H1 L eq_refl eq_refl eq_refl Ht Hlen) as Hw.
  destruct (wp_run _ _ _ Hw) as ([] & s2' & Hr2 & E2).
  exists s1', (transfer_of s1 req), s2'. split; [exact Hr1|]. split; [rewrite E1; reflexivity|].
  split; [exact Hr2|]. rewrite E2. cbn [the_grid ems_data]. split; [reflexivity|].
  split; [apply (agree_after_transfer s1 s2 H1 (so_shaped _ H2))|reflexivity].
Qed.

(** C27. A replica that was brought up to date by a state transfer sends, on every
    further sequence of ordered messages, exactly what the replica the state is
    from sends, and goes on agreeing with it: the status of the generators,
    which is not transferred, has no influence on anything that is sent. *)
Theorem recovered_replica_keeps_up (id1 id2 : Z) (s1 s2 s2' : sm) (len : Z) (x : state_xfer_msg)
    (stale : list byte) (ms : list sm_message) (t1 : sm) :
  sm_ok s1 -> sm_ok s2 -> same_layout (the_grid s1) (the_grid s2) ->
  sx_target x = id2 -> sz_scada_message + len <= MAX_LEN ->
  sx_contents x = state_bytes s1 ++ stale -> sx_num_clients x = wrap32 (num_jhu_sub (the_grid s1) + 1) ->
  sx_state_size x = Z.of_nat (length (state_bytes s1)) ->
  sm_main id2 (STATE_XFER len x) s2 = Ret (tt, s2') -> Forall ordered ms ->
  sm_run id1 ms s1 = Ret (tt, t1) ->
  exists t2 o, sm_run id2 ms s2' = Ret (tt, t2) /\ ipc_sent t1 = ipc_sent s1 ++ o /\
    ipc_sent t2 = ipc_sent s2' ++ o /\ the_grid t2 = the_grid t1.
Proof.
  intros H1 H2 L Ht Hlen Hc Hn Hz Hx Ho Hr.
  pose proof (wp_Ret _ _ _ _ _ _ (wp_transfer id2 s2 H2 len x s1 stale H1 L Hc Hn Hz Ht Hlen) Hx) as E.
  assert (Hs : twins (ipc_sent s1) (ipc_sent s2') s1 s2').
  { destruct (agree_after_transfer s1 s2 H1 (so_shaped _ H2)) as (A & B & C & D).
    split; [rewrite E; repeat split; auto; apply D || apply C|].
    exists []. rewrite !app_nil_r. auto. }
  destruct (twins_run _ _ id1 id2 ms s1 s2' Ho Hs tt t1 Hr) as (t2 & Hr2 & (Eg & _) & o & O1 & O2).
  exists t2, o. auto.
Qed.

(** A reset brings the master back to the state it started in, whatever it has
    gone through, except for the generators' data, which the reset leaves alone. *)
Theorem reset_restores_the_start (js : nat -> Z) (jw : nat -> p_switch) (jl : nat -> p_link) (jt : nat -> p_tx)
    (file : list String.string) (t : Z * Z) (My_ID : Z) (s0 s : sm) (ms : list sm_message) :
  init js jw jl jt file t = Ret s0 -> initial_ok (the_grid s0) ->
  Forall (admissible (the_grid s0)) ms -> sm_run My_ID ms s0 = Ret (tt, s) ->
  exists s', sm_main My_ID SYSTEM_RESET s = Ret (tt, s') /\ the_grid s' = the_grid s0 /\
    pnnl_data s' = pnnl_data s0 /\ ems_data s' = ems_data s.
Proof.
  intros Hi (A & B & C) Hm Hr. destruct (init_all_on _ _ _ _ _ _ _ Hi) as (Ea & Ep & Hsh).
  assert (Hs0 : sm_ok s0).
  { split; auto; [apply settled_of_process; assumption|]. rewrite <- Ea. apply chars_all_on. }
  destruct (wp_Ret _ _ _ _ _ _ (wp_sm_run My_ID ms s0 Hs0 Hm) Hr) as (o & Hs & L & _).
  eexists. split; [reflexivity|]. split; [|split; [symmetry; exact Ep|reflexivity]].
  change (all_on (the_grid s) = the_grid s0). rewrite <- L. exact Ea.
Qed.

(** An operator's command to flip a switch goes to the right device: the feedback
    names the substation and the position the configuration has for the
    operator's widget, with the other status; nothing changes until the device
    reports it, and then the switch and its widget show that status. *)
Theorem switch_command_takes_effect (My_ID : Z) (s : sm) (c : hmi_command_msg) (i z k : Z) (x : sub)
    (w : p_switch) (m : rtu_status_msg) :
  sm_ok s -> aget (sub_arr (the_grid s)) i = Some x -> place (the_grid s) x z k w ->
  hc_scen_type c = JHU -> hc_type c = SWITCH -> hc_ttip_pos c = switch_id w -> switch_status w <> 2 ->
  ITRC_Validate_Message (RTU_DATA m) = true -> Z.of_nat (length (rs_data m)) = RTU_DATA_PAYLOAD_LEN ->
  rs_scen_type m = JHU -> rs_rtu_id m = i -> reported_switch (rs_data m) z = Some (toggled (switch_status w)) ->
  exists s1 s2, sm_main My_ID (HMI_COMMAND c) s = Ret (tt, s1) /\ the_grid s1 = the_grid s /\
    ipc_sent s1 = ipc_sent s ++ [Rtu_Feedback (mkFeed (hc_seq c) JHU SWITCH i i z (toggled (switch_status w)))] /\
    sm_main My_ID (RTU_DATA m) s1 = Ret (tt, s2) /\
    aget (sw_arr (the_grid s2)) k = Some (switch_with_status (toggled (switch_status w)) w) /\
    aget (stat (the_grid s2)) (switch_id w) = Some (toggled (switch_status w)).
Proof.
  intros Hs Hx Hp Ej Et Epos Hst Hv Hd Hj <- Hrep.
  destruct (wp_run _ _ _ (wp_switch_command s c _ x z k w Hs Hx Hp Ej Et Epos Hst My_ID)) as ([] & s1 & Hr1 & E1).
  assert (Hs1 : sm_ok s1).
  { rewrite E1. destruct Hs as [A B C D [F1 F2 F3]]. split; auto. split; auto. }
  assert (Hx1 : aget (sub_arr (the_grid s1)) (rs_rtu_id m) = Some x) by (rewrite E1; exact Hx).
  destruct (wp_run _ _ _ (wp_jhu_report My_ID s1 Hs1 m Hv Hd _ x Hj eq_refl Hx1))
    as ([] & s2 & Hr2 & u & _ & _ & (gm & G1 & G2) & _).
  exists s1, s2. split; [exact Hr1|]. split; [rewrite E1; reflexivity|]. split; [rewrite E1; reflexivity|].
  split; [exact Hr2|]. destruct Hp as [Hl Hw].
  assert (Hk : aget (sw_arr (the_grid s2)) k = Some (switch_with_status (toggled (switch_status w)) w)).
  { rewrite (wo_switches _ _ G2). rewrite E1 in G1. rewrite (rp_switch _ _ _ _ G1 _ _ _ Hl Hw), Hrep. reflexivity. }
  split; [exact Hk|]. apply (wo_stat _ _ G2). unfold stat_entries. apply elem_of_app. left.
  apply list_elem_of_fmap. eexists. split; [|eapply aget_elem; exact Hk]. reflexivity.
Qed.

(** Nobody checks the position in a command for the breakers or the generators:
    the ITRC validates every command, and one with a position out of range stops
    every replica, at the assertion or with an access outside the array. *)
Theorem validated_command_stops_master (My_ID : Z) (s : sm) (c : hmi_command_msg) :
  sm_ok s ->
  ITRC_Validate_Message (HMI_COMMAND c) = true /\
  (hc_scen_type c = PNNL -> ~ (0 <= hc_ttip_pos c < NUM_BREAKER) ->
     sm_main My_ID (HMI_COMMAND c) s = Fault AssertFailure) /\
  (hc_scen_type c = EMS -> ~ (0 <= hc_ttip_pos c < EMS_NUM_GENERATORS) ->
     sm_main My_ID (HMI_COMMAND c) s = Fault OutOfBounds).
Proof.
  intros Hs. split; [reflexivity|]. unfold sm_main, read_from_hmi. split; intros E H; rewrite E.
  - cbn [Z.eqb JHU PNNL Pos.eqb]. unfold pnnl_command, assert_, bind, get.
    replace (_ && _) with false; [reflexivity|]. symmetry. apply not_true_iff_false.
    rewrite andb_true_iff, Z.leb_le, Z.ltb_lt. exact H.
  - cbn [Z.eqb JHU PNNL EMS Pos.eqb]. unfold ems_command, modify_at, bind, get.
    replace (aget (ems_data s) (hc_ttip_pos c)) with (@None (list byte)); [reflexivity|].
    unfold aget, in_bounds. rewrite (sh_ems _ (so_shaped _ Hs)).
    replace (_ && _) with false; [reflexivity|]. symmetry. apply not_true_iff_false.
    rewrite andb_true_iff, Z.leb_le, Z.ltb_lt. exact H.
Qed.

(** ** The shipped configuration *)
Definition ini_start : sm :=
  mkSM ini_grid (zeros RTU_DATA_PAYLOAD_LEN)
    (repeat (zeros RTU_DATA_PAYLOAD_LEN) (Z.to_nat EMS_NUM_GENERATORS)) (0, 0) [].

Lemma ini_grid_ok : initial_ok ini_grid /\ all_on ini_grid = ini_grid.
Proof. unfold initial_ok. split; [split; [|split]|]; vm_compute; reflexivity. Qed.

Lemma ini_start_ok : sm_ok ini_start.
Proof.
  destruct ini_grid_ok as [(A & B & C) D]. split; auto; [apply settled_of_process; assumption| |].
  - cbn [the_grid ini_start]. rewrite <- D. apply chars_all_on.
  - split; [reflexivity..|]. intros i d Hd. apply aget_elem in Hd. cbn in Hd.
    repeat (apply elem_of_cons in Hd as [->|Hd]; [reflexivity|]). inversion Hd.
Qed.

(** The second substation of the file reports that its first switch is open. *)
Definition toy_report : rtu_status_msg :=
  mkRtuStatus (mkSeq 1 1) 1 JHU 0 0
    (le_encode 4 1 ++ le_encode 4 0 ++ le_encode 4 1 ++ le_encode 4 1 ++ le_encode 4 1 ++ le_encode 4 1 ++ zeros 40).

(** The operator flips that switch: it is third in the array, at position 6. *)
Definition toy_command : hmi_command_msg := mkHmiCommand (mkSeq 1 1) 100 JHU SWITCH 6.

Definition toy_request : state_request_msg := mkStateRequest 2 [].

Definition toy_transfer : state_xfer_msg :=
  mkStateXfer (mkOrd 0 0 0) 2 [] 11 (Z.of_nat (length (state_bytes ini_start))) (state_bytes ini_start).

(** *** Witnesses *)
Lemma master_state_is_typed_witness :
  exists s' o, sm_main 1 (HMI_COMMAND toy_command) ini_start = Ret (tt, s') /\ sm_ok s' /\
    same_layout (the_grid ini_start) (the_grid s') /\ ipc_sent s' = ipc_sent ini_start ++ o.
Proof.
  apply (master_state_is_typed 1 ini_start (HMI_COMMAND toy_command) ini_start_ok).
  apply adm_command; discriminate.
Defined.

Lemma process_finds_who_has_power_witness :
  exists g', process ini_grid = Ret (tt, g') /\ (forall i x, aget (sub_arr g') i = Some x ->
    sub_status x = 1 /\ powered ini_grid i \/ sub_status x = 0 /\ ~ powered ini_grid i).
Proof.
  destruct (process_finds_who_has_power ini_grid (proj1 (proj1 ini_grid_ok))) as (g' & H1 & _ & _ & _ & H2 & _).
  exists g'. split; assumption.
Defined.

Lemma report_updates_the_view_witness :
  exists s' u gm, sm_main 1 (RTU_DATA toy_report) ini_start = Ret (tt, s') /\
    ipc_sent s' = [Hmi_Update u] /\ worked_out gm (the_grid s').
Proof.
  destruct (report_updates_the_view 1 ini_start toy_report (nth 1 (sub_arr ini_grid) zero_sub) ini_start_ok)
    as (s' & u & gm & H1 & H2 & _ & _ & _ & H3 & _); [reflexivity|discriminate|reflexivity..|].
  exists s', u, gm. auto.
Defined.

Lemma state_transfer_roundtrip_witness :
  exists s1' x s2', sm_main 1 (STATE_REQUEST toy_request) ini_start = Ret (tt, s1') /\
    ipc_sent s1' = ipc_sent ini_start ++ [State_Xfer x] /\
    sm_main 2 (STATE_XFER 1100 (mkStateXfer (sx_ord x) (sx_target x) (sx_latest_update x)
        (sx_num_clients x) (sx_state_size x) (sx_contents x ++ [x00]))) ini_start = Ret (tt, s2') /\
    the_grid s2' = the_grid ini_start /\ drop 4 (pnnl_data s2') = drop 4 (pnnl_data ini_start) /\
    ems_data s2' = ems_data ini_start.
Proof.
  apply (state_transfer_roundtrip 1 2 ini_start ini_start toy_request 1100 [x00] ini_start_ok ini_start_ok);
    [reflexivity|reflexivity|unfold NUM_SM; lia|vm_compute; discriminate].
Defined.

Lemma recovered_replica_keeps_up_witness :
  exists s2' t1 t2 o, sm_main 2 (STATE_XFER 1100 toy_transfer) ini_start = Ret (tt, s2') /\
    sm_run 1 [HMI_COMMAND toy_command; RTU_DATA toy_report] ini_start = Ret (tt, t1) /\
    sm_run 2 [HMI_COMMAND toy_command; RTU_DATA toy_report] s2' = Ret (tt, t2) /\
    ipc_sent t1 = ipc_sent ini_start ++ o /\ ipc_sent t2 = ipc_sent s2' ++ o.
Proof.
  destruct (sm_main 2 (STATE_XFER 1100 toy_transfer) ini_start) as [[[] s2']|f] eqn:E;
    [|vm_compute in E; discriminate].
  destruct (sm_run 1 [HMI_COMMAND toy_command; RTU_DATA toy_report] ini_start) as [[[] t1]|f] eqn:E1;
    [|vm_compute in E1; discriminate].
  destruct (recovered_replica_keeps_up 1 2 ini_start ini_start s2' 1100 toy_transfer []
    [HMI_COMMAND toy_command; RTU_DATA toy_report] t1 ini_start_ok ini_start_ok) as (t2 & o & H1 & H2 & H3 & _);
    [reflexivity|reflexivity|vm_compute; discriminate|symmetry; apply app_nil_r|reflexivity|reflexivity
    |exact E|repeat constructor|exact E1|].
  exists s2', t1, t2, o. auto.
Defined.

Lemma reset_restores_the_start_witness :
  exists s', sm_main 1 SYSTEM_RESET
      match sm_run 1 [RTU_DATA toy_report] ini_start with Ret (_, s) => s | Fault _ => ini_start end = Ret (tt, s') /\
    the_grid s' = the_grid ini_start.
Proof.
  destruct (sm_run 1 [RTU_DATA toy_report] ini_start) as [[[] s]|f] eqn:E; [|vm_compute in E; discriminate].
  destruct (reset_restores_the_start (fun _ => 0) (fun _ => mkSwitch 0 0) (fun _ => mkLink 0 0 None 0 None 0 0 0)
    (fun _ => mkTx 0 0) ini (0, 0) 1 ini_start s [RTU_DATA toy_report]) as (s' & H1 & H2 & _).
  - vm_compute. reflexivity.
  - apply ini_grid_ok.
  - repeat constructor. cbn. lia.
  - exact E.
  - exists s'. auto.
Defined.

Lemma switch_command_takes_effect_witness :
  exists s1 s2, sm_main 1 (HMI_COMMAND toy_command) ini_start = Ret (tt, s1) /\
    ipc_sent s1 = [Rtu_Feedback (mkFeed (mkSeq 1 1) JHU SWITCH 1 1 0 0)] /\
    sm_main 1 (RTU_DATA toy_report) s1 = Ret (tt, s2) /\ aget (stat (the_grid s2)) 6 = Some 0.
Proof.
  destruct (switch_command_takes_effect 1 ini_start toy_command 1 0 2 (nth 1 (sub_arr ini_grid) zero_sub)
    (mkSwitch 6 1) toy_report ini_start_ok) as (s1 & s2 & H1 & _ & H2 & H3 & _ & H4); try reflexivity; try discriminate.
  - split; [split; [vm_compute; split; discriminate || reflexivity|reflexivity]|reflexivity].
  - exists s1, s2. auto.
Defined.

Lemma validated_command_stops_master_witness :
  sm_main 1 (HMI_COMMAND (mkHmiCommand (mkSeq 1 1) 100 EMS 500 6)) ini_start = Fault OutOfBounds.
Proof.
  apply (validated_command_stops_master 1 ini_start (mkHmiCommand (mkSeq 1 1) 100 EMS 500 6) ini_start_ok);
    [reflexivity|cbn; unfold EMS_NUM_GENERATORS; lia].
Defined.
