(* ===== verification/KeyValue.v ===== *)
(** The store that finds a proxy's location by the identifier of its RTU:
    [common/key_value.c], a linked list in the order of the keys, and that it is
    a finite map. *)
From Stdlib Require Import ZArith Lia List Bool Sorting.Sorted.
From stdpp Require Import base list gmap.
From S2P Require Import Prelude.

(** ** The code *)
(** The elements after the sentinel [start], whose key and data are -1. *)
Definition key_value : Type := list (Z * Z).

Definition key_value_init : key_value := [].

(** The result is 1 when the element is new, else 0 ([malloc] returns memory). *)
Fixpoint key_value_insert (key data : Z) (l : key_value) : Z * key_value :=
  match l with
  | [] => (1, [(key, data)])
  | (k, d) :: l' =>
      if k <=? key then
        if k =? key then (0, l)
        else let (r, l'') := key_value_insert key data l' in (r, (k, d) :: l'')
      else (1, (key, data) :: l)
  end.

Fixpoint key_value_delete (key : Z) (l : key_value) : Z * key_value :=
  match l with
  | [] => (0, [])
  | (k, d) :: l' =>
      if k <=? key then
        if k =? key then (1, l')
        else let (r, l'') := key_value_delete key l' in (r, (k, d) :: l'')
      else (0, l)
  end.

(** Unlike the others the search starts at the sentinel. *)
Fixpoint key_value_search (key : Z) (l : key_value) : option Z :=
  match l with
  | [] => None
  | (k, d) :: l' => if k <=? key then if k =? key then Some d else key_value_search key l' else None
  end.

Definition key_value_get (key : Z) (l : key_value) : option Z := key_value_search key ((-1, -1) :: l).

(** ** The list is a map *)
Definition keys_below (k : Z) (l : key_value) : Prop := Forall (fun e => k < fst e) l.

Definition kv_sorted (l : key_value) : Prop := StronglySorted (fun a b => fst a < fst b) l.

Fixpoint kv_map (l : key_value) : gmap Z Z :=
  match l with [] => ∅ | (k, d) :: l => <[k := d]> (kv_map l) end.

Lemma kv_sorted_cons k d l : kv_sorted ((k, d) :: l) <-> kv_sorted l /\ keys_below k l.
Proof. split; [intros H; inversion H; auto|intros [H1 H2]; constructor; auto]. Qed.

Lemma kv_map_below k l : keys_below k l -> forall j, j <= k -> kv_map l !! j = None.
Proof.
  induction l as [|[k' d] l IH]; intros H j Hj; cbn; [apply lookup_empty|].
  inversion H as [|? ? H1 H2]; subst; cbn in H1.
  rewrite lookup_insert_ne by lia. auto.
Qed.

Lemma key_value_search_map key l : kv_sorted l -> key_value_search key l = kv_map l !! key.
Proof.
  induction l as [|[k d] l IH]; intros H; cbn; [rewrite lookup_empty; reflexivity|].
  apply kv_sorted_cons in H as [H Hb].
  destruct (k <=? key) eqn:E; [destruct (k =? key) eqn:E'|].
  - apply Z.eqb_eq in E' as ->. rewrite lookup_insert_eq. reflexivity.
  - rewrite lookup_insert_ne by lia. auto.
  - rewrite lookup_insert_ne by lia. symmetry. apply (kv_map_below k); [exact Hb|lia].
Qed.

Lemma key_value_insert_below k key data l : k < key -> keys_below k l ->
  keys_below k (snd (key_value_insert key data l)).
Proof.
  unfold keys_below. intros Hk. induction l as [|[k' d] l IH]; intros H; cbn.
  - repeat constructor; exact Hk.
  - inversion H as [|? ? H1 H2]; subst; cbn in H1.
    destruct (k' <=? key); [destruct (k' =? key)|].
    + exact H.
    + specialize (IH H2). destruct (key_value_insert key data l). constructor; auto.
    + constructor; auto.
Qed.

Lemma key_value_insert_map key data l : kv_sorted l ->
  let (r, l') := key_value_insert key data l in
  kv_sorted l' /\
  match kv_map l !! key with
  | Some _ => r = 0 /\ l' = l
  | None => r = 1 /\ kv_map l' = <[key := data]> (kv_map l)
  end.
Proof.
  induction l as [|[k d] l IH]; intros H.
  - cbn. rewrite lookup_empty. repeat split. repeat constructor.
  - assert (H0 := H). apply kv_sorted_cons in H as [H Hb]. cbn.
    destruct (k <=? key) eqn:E; [destruct (k =? key) eqn:E'|].
    + apply Z.eqb_eq in E' as ->. rewrite lookup_insert_eq. auto.
    + pose proof (key_value_insert_below k key data l ltac:(lia) Hb) as Hb'.
      specialize (IH H). destruct (key_value_insert key data l) as [r l']. destruct IH as [IH1 IH2].
      split; [apply kv_sorted_cons; auto|].
      rewrite lookup_insert_ne by lia.
      destruct (kv_map l !! key); [destruct IH2 as [-> ->]; auto|].
      destruct IH2 as [-> IH2]. split; [reflexivity|]. cbn. rewrite IH2. apply insert_insert_ne. lia.
    + split; [apply kv_sorted_cons; split; [exact H0|]|].
      * constructor; cbn; [lia|]. eapply Forall_impl; [exact Hb|]. cbn. lia.
      * rewrite lookup_insert_ne by lia. rewrite (kv_map_below k) by (exact Hb || lia). auto.
Qed.

Lemma key_value_delete_below k key l : keys_below k l -> keys_below k (snd (key_value_delete key l)).
Proof.
  unfold keys_below. induction l as [|[k' d] l IH]; intros H; cbn; [constructor|].
  inversion H as [|? ? H1 H2]; subst; cbn in H1.
  destruct (k' <=? key); [destruct (k' =? key)|]; cbn; [auto| |auto].
  specialize (IH H2). destruct (key_value_delete key l). constructor; auto.
Qed.

Lemma key_value_delete_map key l : kv_sorted l ->
  let (r, l') := key_value_delete key l in
  kv_sorted l' /\ kv_map l' = delete key (kv_map l) /\
  r = match kv_map l !! key with Some _ => 1 | None => 0 end.
Proof.
  induction l as [|[k d] l IH]; intros H.
  - cbn. rewrite lookup_empty, delete_empty. repeat split. constructor.
  - assert (H0 := H). apply kv_sorted_cons in H as [H Hb]. cbn.
    destruct (k <=? key) eqn:E; [destruct (k =? key) eqn:E'|].
    + apply Z.eqb_eq in E' as ->. rewrite lookup_insert_eq, delete_insert_eq. repeat split; [exact H|].
      symmetry. apply delete_id. apply (kv_map_below key); [exact Hb|lia].
    + pose proof (key_value_delete_below k key l Hb) as Hb'.
      specialize (IH H). destruct (key_value_delete key l) as [r l']. destruct IH as [IH1 [IH2 IH3]].
      repeat split; [apply kv_sorted_cons; auto| |].
      * cbn. rewrite IH2. symmetry. apply delete_insert_ne. lia.
      * rewrite lookup_insert_ne by lia. exact IH3.
    + rewrite lookup_insert_ne by lia.
      assert (kv_map l !! key = None) as Hn by (apply (kv_map_below k); [exact Hb|lia]).
      rewrite Hn. repeat split; [exact H0|]. cbn. rewrite delete_insert_ne by lia.
      rewrite (delete_id _ _ Hn). reflexivity.
Qed.

(** A run of insertions and deletions, and what it does to a map that an
    insertion leaves alone where a key is bound. *)
Inductive kv_op := Kv_Insert (key data : Z) | Kv_Delete (key : Z).

Definition kv_step (l : key_value) (op : kv_op) : key_value :=
  match op with
  | Kv_Insert k d => snd (key_value_insert k d l)
  | Kv_Delete k => snd (key_value_delete k l)
  end.

Definition map_step (m : gmap Z Z) (op : kv_op) : gmap Z Z :=
  match op with
  | Kv_Insert k d => match m !! k with Some _ => m | None => <[k := d]> m end
  | Kv_Delete k => delete k m
  end.

Lemma kv_refines ops : forall l, kv_sorted l ->
  kv_sorted (fold_left kv_step ops l) /\
  kv_map (fold_left kv_step ops l) = fold_left map_step ops (kv_map l).
Proof.
  induction ops as [|[k d|k] ops IH]; intros l H; cbn [fold_left]; [auto| |].
  - pose proof (key_value_insert_map k d l H) as Hi. cbn [kv_step map_step].
    destruct (key_value_insert k d l) as [r l']. cbn [snd]. destruct Hi as [Hs Hm].
    destruct (kv_map l !! k).
    + destruct Hm as [_ ->]. apply IH. exact H.
    + destruct Hm as [_ Hm]. rewrite <- Hm. apply IH. exact Hs.
  - pose proof (key_value_delete_map k l H) as Hd. cbn [kv_step map_step].
    destruct (key_value_delete k l) as [r l']. cbn [snd]. destruct Hd as [Hs [Hm _]].
    rewrite <- Hm. apply IH. exact Hs.
Qed.

(** The store answers as the map does, except that the sentinel's key -1 is
    always found. *)
Theorem key_value_is_a_map (ops : list kv_op) (key : Z) :
  key_value_get key (fold_left kv_step ops key_value_init) =
  if key =? -1 then Some (-1)
  else if key <? -1 then None
  else fold_left map_step ops ∅ !! key.
Proof.
  unfold key_value_get, key_value_init. cbn [key_value_search].
  destruct (kv_refines ops [] ltac:(constructor)) as [Hs Hm]. cbn [kv_map] in Hm.
  rewrite <- Hm, <- (key_value_search_map key _ Hs).
  destruct (Z.leb_spec (-1) key), (Z.eqb_spec (-1) key), (Z.eqb_spec key (-1)), (Z.ltb_spec key (-1));
    try lia; reflexivity.
Qed.
