(* ===== verification/ItrcState.v ===== *)
(** The state of the channel between Prime, the SCADA master and the clients:
    the data structures of [common/scada_packets.h] and the globals of
    [common/itrc.c], with [Init_SM_Replicas] of [common/net_wrapper.c]. *)
From Stdlib Require Import ZArith Lia List Bool String.
From Stdlib Require Import Strings.Byte.
From stdpp Require Import base list.
From S2P Require Import Prelude Memory Crypto ScadaPackets ScadaGrid ScadaMaster.

(** ** Constants and layouts *)
Definition MAX_PAYLOAD_SIZE : Z := 512.
Definition SCADA_UPDATE_SIZE : Z := 300.
Definition MAX_SHARES : Z := 3 * SM_NUM_F + 2 * SM_NUM_K + 1.
Definition REQ_SHARES : Z := SM_NUM_F + 1.
Definition NUM_CC : Z := 6.
Definition NUM_CC_REPLICA : Z := 6.
Definition SCADA_NUM_SITES : Z := 6.
Definition CLIENTS : Z := MAX_EMU_RTU + NUM_HMI + 1.
Definition RTU_BASE_PORT : Z := 8520.
Definition HMI_BASE_PORT : Z := 8540.
Definition SM_INT_BASE_PORT : Z := 8560.
Definition NORMAL_ORD : Z := 1.
Definition SKIP_ORD : Z := 2.

(** [enum message_type] *)
Definition RTU_FEEDBACK_T : Z := 2.
Definition HMI_UPDATE_T : Z := 3.
Definition BENCHMARK_T : Z := 10.

Definition t_client_response_message : ctype :=
  TStruct [("machine_id", TInt32); ("seq", t_seq_pair); ("ord_num", TInt32); ("event_idx", TInt32);
           ("event_tot", TInt32); ("PO_time", TDouble)]%string.

Definition t_rtu_feedback_msg : ctype :=
  TStruct [("seq", t_seq_pair); ("scen_type", TInt32); ("type", TInt32); ("sub", TInt32);
           ("rtu", TInt32); ("offset", TInt32); ("val", TInt32)]%string.

Definition t_hmi_update_msg : ctype :=
  TStruct [("seq", t_seq_pair); ("scen_type", TInt32); ("sec", TInt32); ("usec", TInt32);
           ("len", TInt32)]%string.

Definition t_benchmark_msg : ctype :=
  TStruct [("seq", t_seq_pair); ("sender", TInt32); ("ping_sec", TInt32); ("ping_usec", TInt32);
           ("pong_sec", TInt32); ("pong_usec", TInt32)]%string.

Definition sz_client_response : Z := Eval vm_compute in sizeof t_client_response_message.
Definition o_message_len : Z := Eval vm_compute in offsetof t_scada_message "len".
Definition o_message_type : Z := Eval vm_compute in offsetof t_scada_message "type".
Definition o_feedback_sub : Z :=
  Eval vm_compute in sz_scada_message + offsetof t_rtu_feedback_msg "sub".
Definition o_update_scen_type : Z :=
  Eval vm_compute in sz_scada_message + offsetof t_hmi_update_msg "scen_type".
Definition o_benchmark_sender : Z :=
  Eval vm_compute in sz_scada_message + offsetof t_benchmark_msg "sender".

(** ** Messages *)
Record tc_share_msg := mkShare {
  ts_ord : ordinal; ts_payload : list byte; ts_partial_sig : list byte }.

Record tc_final_msg := mkFinal {
  tf_ord : ordinal; tf_payload : list byte; tf_thresh_sig : list byte }.

(** What Prime ordered: its own markers, or a client's message of [len] bytes. *)
Inductive prime_body :=
| PRIME_NO_OP (machine_id : Z)
| PRIME_STATE_TRANSFER (machine_id : Z)
| PRIME_SYSTEM_RESET (machine_id : Z)
| Client_Update (len : Z) (m : sm_message).

(** [pm_len]: [len] of the outer header. *)
Record prime_message := mkPrime { pm_len : Z; pm_ord : ordinal; pm_body : prime_body }.

(** What the master sends: a message for a client, as bytes, or a state. *)
Inductive sm_reply :=
| Sm_Client (bs : list byte)
| Sm_State (m : state_xfer_msg).

Inductive internal_body :=
| TC_SHARE (m : tc_share_msg)
| Int_State (m : state_xfer_msg)
| Int_Other.

(** [im_sig_ok]: whether the signature verifies under the key of [machine_id]. *)
Record internal_message := mkInternal {
  im_machine_id : Z; im_sig_ok : bool; im_body : internal_body }.

(** The clients are reached through one daemon for proxies and one for HMIs. *)
Inductive client_addr := SPINES_RTU_ADDR | SPINES_HMI_ADDR.

(** All messages to replicas and clients are signed with the key of [My_ID]. *)
Inductive itrc_out :=
| To_SM (m : sm_message)
| To_Inject
| To_Client (addr : client_addr) (port : Z) (m : tc_final_msg)
| Share_To (replica : Z) (m : tc_share_msg)
| State_To (replica : Z) (m : state_xfer_msg).

(** ** Queues *)
(** The arrays have [MAX_SHARES + 1] entries, one for each replica from 1. *)
Record tc_node := mkTc {
  tn_ord : ordinal; tn_done : bool; tn_count : Z; tn_recvd : list bool;
  tn_shares : list tc_share_msg; tn_tcf : option tc_final_msg; tn_skip : bool }.

(** [sn_result] points into [sn_state]. *)
Record st_node := mkSt {
  sn_ord : ordinal; sn_collected : bool; sn_count : Z; sn_signaled : bool;
  sn_recvd : list bool; sn_state : list state_xfer_msg; sn_result : option Z }.

Definition zero_ord : ordinal := mkOrd 0 0 0.

Definition zero_share : tc_share_msg := mkShare zero_ord (zeros MAX_PAYLOAD_SIZE) (zeros 128).

Definition zero_progress : list seq_pair := repeat (mkSeq 0 0) (Z.to_nat CLIENTS).

Definition zero_state : state_xfer_msg := mkStateXfer zero_ord 0 zero_progress 0 0 [].

Definition each_replica {A} (a : A) : list A := repeat a (Z.to_nat (MAX_SHARES + 1)).

Definition new_tc_node (o : ordinal) : tc_node :=
  mkTc o false 0 (each_replica false) (each_replica zero_share) None false.

Definition new_st_node (o : ordinal) : st_node :=
  mkSt o false 0 false (each_replica false) (each_replica zero_state) None.

(** ** State *)
(** [stddll]s are lists.  A queue's tail is the last node of its list.
    [sp_int_up], [sp_ext_up]: the Spines sockets are open. *)
Record itrc := mkItrc {
  tcq_pending : list tc_node; stq_pending : list st_node; applied_ord : ordinal;
  recvd_ord : ordinal; ord_queue : list ordinal; pending_updates : list prime_message;
  collecting_signal : bool; completed_transfer : bool; progress : list seq_pair;
  up_hist : list (option (sm_message * ordinal)); recvd_first_ordinal : bool; sp_int_up : bool;
  sp_ext_up : bool; spines_calls : nat; itrc_sent : list itrc_out }.

Definition with_tcq (x : list tc_node) (s : itrc) : itrc :=
  mkItrc x (stq_pending s) (applied_ord s) (recvd_ord s) (ord_queue s) (pending_updates s)
    (collecting_signal s) (completed_transfer s) (progress s) (up_hist s) (recvd_first_ordinal s)
    (sp_int_up s) (sp_ext_up s) (spines_calls s) (itrc_sent s).

Definition with_stq (x : list st_node) (s : itrc) : itrc :=
  mkItrc (tcq_pending s) x (applied_ord s) (recvd_ord s) (ord_queue s) (pending_updates s)
    (collecting_signal s) (completed_transfer s) (progress s) (up_hist s) (recvd_first_ordinal s)
    (sp_int_up s) (sp_ext_up s) (spines_calls s) (itrc_sent s).

Definition with_applied (x : ordinal) (s : itrc) : itrc :=
  mkItrc (tcq_pending s) (stq_pending s) x (recvd_ord s) (ord_queue s) (pending_updates s)
    (collecting_signal s) (completed_transfer s) (progress s) (up_hist s) (recvd_first_ordinal s)
    (sp_int_up s) (sp_ext_up s) (spines_calls s) (itrc_sent s).

Definition with_recvd (x : ordinal) (s : itrc) : itrc :=
  mkItrc (tcq_pending s) (stq_pending s) (applied_ord s) x (ord_queue s) (pending_updates s)
    (collecting_signal s) (completed_transfer s) (progress s) (up_hist s) (recvd_first_ordinal s)
    (sp_int_up s) (sp_ext_up s) (spines_calls s) (itrc_sent s).

Definition with_ord_queue (x : list ordinal) (s : itrc) : itrc :=
  mkItrc (tcq_pending s) (stq_pending s) (applied_ord s) (recvd_ord s) x (pending_updates s)
    (collecting_signal s) (completed_transfer s) (progress s) (up_hist s) (recvd_first_ordinal s)
    (sp_int_up s) (sp_ext_up s) (spines_calls s) (itrc_sent s).

Definition with_pending (x : list prime_message) (s : itrc) : itrc :=
  mkItrc (tcq_pending s) (stq_pending s) (applied_ord s) (recvd_ord s) (ord_queue s) x
    (collecting_signal s) (completed_transfer s) (progress s) (up_hist s) (recvd_first_ordinal s)
    (sp_int_up s) (sp_ext_up s) (spines_calls s) (itrc_sent s).

Definition with_collecting (x : bool) (s : itrc) : itrc :=
  mkItrc (tcq_pending s) (stq_pending s) (applied_ord s) (recvd_ord s) (ord_queue s)
    (pending_updates s) x (completed_transfer s) (progress s) (up_hist s) (recvd_first_ordinal s)
    (sp_int_up s) (sp_ext_up s) (spines_calls s) (itrc_sent s).

Definition with_completed (x : bool) (s : itrc) : itrc :=
  mkItrc (tcq_pending s) (stq_pending s) (applied_ord s) (recvd_ord s) (ord_queue s)
    (pending_updates s) (collecting_signal s) x (progress s) (up_hist s) (recvd_first_ordinal s)
    (sp_int_up s) (sp_ext_up s) (spines_calls s) (itrc_sent s).

Definition with_progress (x : list seq_pair) (s : itrc) : itrc :=
  mkItrc (tcq_pending s) (stq_pending s) (applied_ord s) (recvd_ord s) (ord_queue s)
    (pending_updates s) (collecting_signal s) (completed_transfer s) x (up_hist s)
    (recvd_first_ordinal s) (sp_int_up s) (sp_ext_up s) (spines_calls s) (itrc_sent s).

Definition with_up_hist (x : list (option (sm_message * ordinal))) (s : itrc) : itrc :=
  mkItrc (tcq_pending s) (stq_pending s) (applied_ord s) (recvd_ord s) (ord_queue s)
    (pending_updates s) (collecting_signal s) (completed_transfer s) (progress s) x
    (recvd_first_ordinal s) (sp_int_up s) (sp_ext_up s) (spines_calls s) (itrc_sent s).

Definition with_first (x : bool) (s : itrc) : itrc :=
  mkItrc (tcq_pending s) (stq_pending s) (applied_ord s) (recvd_ord s) (ord_queue s)
    (pending_updates s) (collecting_signal s) (completed_transfer s) (progress s) (up_hist s) x
    (sp_int_up s) (sp_ext_up s) (spines_calls s) (itrc_sent s).

Definition with_int_up (x : bool) (s : itrc) : itrc :=
  mkItrc (tcq_pending s) (stq_pending s) (applied_ord s) (recvd_ord s) (ord_queue s)
    (pending_updates s) (collecting_signal s) (completed_transfer s) (progress s) (up_hist s)
    (recvd_first_ordinal s) x (sp_ext_up s) (spines_calls s) (itrc_sent s).

Definition with_ext_up (x : bool) (s : itrc) : itrc :=
  mkItrc (tcq_pending s) (stq_pending s) (applied_ord s) (recvd_ord s) (ord_queue s)
    (pending_updates s) (collecting_signal s) (completed_transfer s) (progress s) (up_hist s)
    (recvd_first_ordinal s) (sp_int_up s) x (spines_calls s) (itrc_sent s).

Definition with_calls (x : nat) (s : itrc) : itrc :=
  mkItrc (tcq_pending s) (stq_pending s) (applied_ord s) (recvd_ord s) (ord_queue s)
    (pending_updates s) (collecting_signal s) (completed_transfer s) (progress s) (up_hist s)
    (recvd_first_ordinal s) (sp_int_up s) (sp_ext_up s) x (itrc_sent s).

Definition with_sent (x : list itrc_out) (s : itrc) : itrc :=
  mkItrc (tcq_pending s) (stq_pending s) (applied_ord s) (recvd_ord s) (ord_queue s)
    (pending_updates s) (collecting_signal s) (completed_transfer s) (progress s) (up_hist s)
    (recvd_first_ordinal s) (sp_int_up s) (sp_ext_up s) (spines_calls s) x.

(** ** Sites and replicas *)
(** [Init_SM_Replicas]: the replicas from [id] on, dealt to the sites in turn. *)
Fixpoint deal_replicas (n : nat) (id site : Z) : list (Z * Z) :=
  match n with
  | O => []
  | S n => (id, site) :: deal_replicas n (id + 1) ((site + 1) mod SCADA_NUM_SITES)
  end.

Definition All_Sites : list Z := map snd (deal_replicas (Z.to_nat NUM_SM) 1 0).

Definition CC_Replicas : list Z :=
  map fst (List.filter (fun p => snd p <? NUM_CC) (deal_replicas (Z.to_nat NUM_SM) 1 0)).

Definition Is_CC_Replica (id : Z) : bool := existsb (Z.eqb id) CC_Replicas.
