(* ===== verification/Itrc.v ===== *)
(** The channel of a SCADA master's replica: [ITRC_Master] of [common/itrc.c] and
    what it calls.

    It takes ordered updates from Prime, hands each to the master with its
    ordinal remembered, shares a threshold signature of the master's answer with
    the other replicas, and sends a client what [REQ_SHARES] replicas signed, in
    the order of the ordinals.  State transfers bring a replica up to date. *)
From Stdlib Require Import ZArith Lia List Bool.
From Stdlib Require Import Strings.Byte.
From stdpp Require Import base list.
From S2P Require Import Prelude Memory Config Crypto ScadaPackets ScadaGrid ScadaMaster KeyValue ItrcState.

(** ** Ordinals *)
(** [event_tot] is not compared. *)
Definition ITRC_Ord_Compare (o1 o2 : ordinal) : Z :=
  if ord_num o1 <? ord_num o2 then -1
  else if ord_num o2 <? ord_num o1 then 1
  else if event_idx o1 <? event_idx o2 then -1
  else if event_idx o2 <? event_idx o1 then 1
  else 0.

Definition ITRC_Ord_Consec (o1 o2 : ordinal) : bool :=
  ((ord_num o1 =? ord_num o2) && (event_idx o2 =? wrap32 (event_idx o1 + 1)))
  || ((ord_num o2 =? wrap32 (ord_num o1 + 1)) && (event_idx o1 =? event_tot o1)
      && (event_idx o2 =? 1)).

(** ** The queues *)
(** Both are lists in the order of the ordinals. *)
Section Queue.
Context {A : Type} (ord_of : A -> ordinal) (fresh : ordinal -> A).

(** How many nodes are before [o]. *)
Fixpoint nodes_before (o : ordinal) (q : list A) : Z :=
  match q with
  | n :: q => if 0 <? ITRC_Ord_Compare o (ord_of n) then 1 + nodes_before o q else 0
  | [] => 0
  end.

(** The position of the node of [o], and whether it has to be made. *)
Definition find_slot (o : ordinal) (q : list A) : Z * bool :=
  match last q with
  | None => (0, true)
  | Some t =>
      if 0 <? ITRC_Ord_Compare o (ord_of t) then (Z.of_nat (length q), true)
      else
        let i := nodes_before o q in
        match aget q i with
        | Some n => (i, negb (ITRC_Ord_Compare o (ord_of n) =? 0))
        | None => (i, true)
        end
  end.

(** The queue with a node of [o], and where it is. *)
Definition slot (o : ordinal) (q : list A) : list A * Z :=
  let (i, new_entry) := find_slot o q in
  if new_entry then (take (Z.to_nat i) q ++ fresh o :: drop (Z.to_nat i) q, i) else (q, i).

(** The nodes up to [o] are freed. *)
Fixpoint drop_through (o : ordinal) (q : list A) : list A :=
  match q with
  | n :: q' => if ITRC_Ord_Compare (ord_of n) o <=? 0 then drop_through o q' else q
  | [] => []
  end.
End Queue.

(** [spines_ok]: whether the [n]-th call of Spines succeeds. *)
Section Itrc.
Context {crypto : Crypto} {tc : Threshold} (spines_ok : nat -> bool).
Context (My_ID : Z) (is_cc : bool) (locations : key_value).

(** The bytes that are hashed. *)
Definition ordinal_bytes (o : ordinal) : list byte :=
  le_encode 4 (ord_num o) ++ le_encode 4 (event_idx o) ++ le_encode 4 (event_tot o).

Definition seq_pair_bytes (p : seq_pair) : list byte :=
  le_encode 4 (sp_incarnation p) ++ le_encode 4 (sp_seq_num p).

Definition state_bytes_of (m : state_xfer_msg) : list byte :=
  ordinal_bytes (sx_ord m) ++ le_encode 4 (sx_target m) ++ concat (map seq_pair_bytes (sx_latest_update m))
  ++ le_encode 4 (sx_num_clients m) ++ le_encode 4 (sx_state_size m)
  ++ take (Z.to_nat (sx_state_size m)) (sx_contents m).

Definition tc_digest (o : ordinal) (payload : list byte) : digest :=
  make_digest (ordinal_bytes o ++ payload).

(** ** Building messages *)
Definition PKT_Construct_TC_Share_Msg (o : ordinal) (bs : list byte) : comp itrc tc_share_msg :=
  if MAX_PAYLOAD_SIZE <? Z.of_nat (length bs) then raise OutOfBounds else
  let payload := bs ++ zeros (MAX_PAYLOAD_SIZE - Z.of_nat (length bs)) in
  ret (mkShare o payload (genIndSig My_ID (tc_digest o payload))).

(** The shares that are for exactly [o]. *)
Definition matching_share (o : ordinal) (tcn : tc_node) (i : Z) : option (Z * tc_share_msg) :=
  match aget (tn_recvd tcn) i, aget (tn_shares tcn) i with
  | Some true, Some tc => if decide (ts_ord tc = o) then Some (i, tc) else None
  | _, _ => None
  end.

Definition matching_shares (o : ordinal) (tcn : tc_node) : list (Z * tc_share_msg) :=
  omap (matching_share o tcn) (seqZ 1 NUM_SM).

Definition PKT_Construct_TC_Final_Msg (o : ordinal) (tcn : tc_node) : option tc_final_msg :=
  if tn_count tcn <? REQ_SHARES then None else
  let shares := matching_shares o tcn in
  if Z.of_nat (length shares) <? REQ_SHARES then None else
  match shares with
  | [] => None
  | (_, tc) :: _ =>
      let digest := tc_digest o (ts_payload tc) in
      let sig := TC_Combine_Sigs (map (fun p => (fst p, ts_partial_sig (snd p))) shares) digest in
      if TC_Verify_Signature 1 sig digest then Some (mkFinal o (ts_payload tc) sig) else None
  end.

(** ** Sending *)
Definition emit_out (o : itrc_out) : comp itrc unit :=
  s <- get ;; put (with_sent (itrc_sent s ++ [o]) s).

(** A call on a closed socket fails. *)
Definition spines_sendto (up : bool) (o : itrc_out) : comp itrc bool :=
  s <- get ;;
  put (with_calls (S (spines_calls s)) s) ;;;
  if up && spines_ok (spines_calls s) then emit_out o ;;; ret true else ret false.

(** 1 when sent, 0 when dropped, -1 when Spines failed. *)
Definition ITRC_Send_TC_Final (mess : tc_final_msg) : comp itrc Z :=
  s <- get ;;
  let send addr port :=
    ok <- spines_sendto (sp_ext_up s) (To_Client addr (wrap16 port) mess) ;;
    ret (if ok : bool then 1 else -1) in
  type <- load (tf_payload mess) 4 o_message_type ;;
  if type =? RTU_FEEDBACK_T then
    sub <- load (tf_payload mess) 4 o_feedback_sub ;;
    match key_value_get (sint32 sub) locations with
    | None => ret 0
    | Some loc => send SPINES_RTU_ADDR (RTU_BASE_PORT + loc)
    end
  else if type =? HMI_UPDATE_T then
    scen_type <- load (tf_payload mess) 4 o_update_scen_type ;;
    send SPINES_HMI_ADDR (HMI_BASE_PORT + scen_type)
  else if type =? BENCHMARK_T then
    sender <- load (tf_payload mess) 4 o_benchmark_sender ;;
    send SPINES_RTU_ADDR (RTU_BASE_PORT + sender)
  else ret 0.

(** ** Threshold signatures *)
Definition set_tc (i : Z) (n : tc_node) : comp itrc unit :=
  s <- get ;;
  q <- or_oob (aset (tcq_pending s) i n) ;;
  put (with_tcq q s).

Definition flag_at (l : list bool) (i : Z) : bool := match aget l i with Some b => b | None => false end.

(** A node with one more sender. *)
Definition tc_heard (recvd : list bool) (n : tc_node) : tc_node :=
  mkTc (tn_ord n) (tn_done n) (tn_count n + 1) recvd (tn_shares n) (tn_tcf n) (tn_skip n).

Definition tc_stored (shares : list tc_share_msg) (n : tc_node) : tc_node :=
  mkTc (tn_ord n) (tn_done n) (tn_count n) (tn_recvd n) shares (tn_tcf n) (tn_skip n).

Definition tc_finished (tcf : option tc_final_msg) (n : tc_node) : tc_node :=
  mkTc (tn_ord n) true (tn_count n) (tn_recvd n) (tn_shares n) tcf
    (match tcf with Some _ => tn_skip n | None => true end).

Definition ITRC_Insert_TC_ID (tcm : tc_share_msg) (sender flag : Z) : comp itrc unit :=
  s <- get ;;
  if ITRC_Ord_Compare (ts_ord tcm) (applied_ord s) <=? 0 then ret tt else
  let (q, i) := slot tn_ord new_tc_node (ts_ord tcm) (tcq_pending s) in
  put (with_tcq q s) ;;;
  ptr <- or_oob (aget q i) ;;
  if tn_done ptr then ret tt else
  heard <- or_oob (aget (tn_recvd ptr) sender) ;;
  if heard : bool then ret tt else
  recvd <- or_oob (aset (tn_recvd ptr) sender true) ;;
  let ptr := tc_heard recvd ptr in
  if flag =? SKIP_ORD then set_tc i (tc_finished None ptr) else
  shares <- or_oob (aset (tn_shares ptr) sender tcm) ;;
  let ptr := tc_stored shares ptr in
  if (REQ_SHARES <=? tn_count ptr) && flag_at (tn_recvd ptr) My_ID then
    set_tc i (tc_finished (PKT_Construct_TC_Final_Msg (ts_ord tcm) ptr) ptr)
  else set_tc i ptr.

(** What can be delivered ([None]: nothing), the ordinal applied and the queue
    left.  A node without a signature in a place to deliver would be a null
    pointer. *)
Fixpoint tc_ready (applied : ordinal) (q : list tc_node)
    : option (option tc_final_msg) * ordinal * list tc_node :=
  match q with
  | n :: q' =>
      if tn_done n && flag_at (tn_recvd n) My_ID && ITRC_Ord_Consec applied (tn_ord n) then
        if tn_skip n then tc_ready (tn_ord n) q' else (Some (tn_tcf n), tn_ord n, q')
      else (None, applied, q)
  | [] => (None, applied, [])
  end.

Definition ITRC_TC_Ready_Deliver : comp itrc (option (option tc_final_msg)) :=
  s <- get ;;
  let '(r, applied, q) := tc_ready (applied_ord s) (tcq_pending s) in
  put (with_applied applied (with_tcq q s)) ;;;
  ret r.

(** [while (ITRC_TC_Ready_Deliver(...)) ...]: each turn takes a node off the
    queue.  When Spines fails the message is lost and the socket closed. *)
Fixpoint deliver_ready (fuel : nat) : comp itrc unit :=
  match fuel with
  | O => raise OutOfFuel
  | S fuel =>
      r <- ITRC_TC_Ready_Deliver ;;
      match r with
      | None => ret tt
      | Some None => raise OutOfBounds
      | Some (Some tcf) =>
          r <- ITRC_Send_TC_Final tcf ;;
          if r <? 0 then s <- get ;; put (with_ext_up false s) else deliver_ready fuel
      end
  end.

Definition deliver : comp itrc unit := s <- get ;; deliver_ready (S (length (tcq_pending s))).

(** ** State transfer *)
Definition set_st (i : Z) (n : st_node) : comp itrc unit :=
  s <- get ;;
  q <- or_oob (aset (stq_pending s) i n) ;;
  put (with_stq q s).

Definition st_signal (n : st_node) : st_node :=
  mkSt (sn_ord n) (sn_collected n) (sn_count n) true (sn_recvd n) (sn_state n) (sn_result n).

Definition st_heard (recvd : list bool) (state : list state_xfer_msg) (n : st_node) : st_node :=
  mkSt (sn_ord n) (sn_collected n) (sn_count n + 1) (sn_signaled n) recvd state (sn_result n).

Definition st_collect (sender : Z) (n : st_node) : st_node :=
  mkSt (sn_ord n) true (sn_count n) (sn_signaled n) (sn_recvd n) (sn_state n) (Some sender).

(** The copy of a received state: header and [state_size] bytes into [MAX_LEN]. *)
Definition copy_state (st : state_xfer_msg) : comp itrc state_xfer_msg :=
  if MAX_LEN <? sz_state_xfer_msg + sx_state_size st then raise OutOfBounds else
  bs <- load_bytes (sx_contents st) 0 (sx_state_size st) ;;
  ret (mkStateXfer (sx_ord st) (sx_target st) (sx_latest_update st) (sx_num_clients st)
         (sx_state_size st) bs).

Definition state_digest (st : state_xfer_msg) : digest := make_digest (state_bytes_of st).

(** How many replicas sent a state with this digest. *)
Definition match_count (d : digest) (n : st_node) : Z :=
  Z.of_nat (length (List.filter (fun i =>
    flag_at (sn_recvd n) i
    && match aget (sn_state n) i with
       | Some st => OPENSSL_RSA_Digests_Equal d (state_digest st)
       | None => false
       end) (seqZ 1 NUM_SM))).

Definition ITRC_Insert_ST_ID (st : state_xfer_msg) (sender : Z) : comp itrc bool :=
  s <- get ;;
  if (ITRC_Ord_Compare (sx_ord st) (recvd_ord s) <? 0)
     || (ITRC_Ord_Compare (sx_ord st) (applied_ord s) <=? 0) then ret false else
  let (q, i) := slot sn_ord new_st_node (sx_ord st) (stq_pending s) in
  put (with_stq q s) ;;;
  ptr <- or_oob (aget q i) ;;
  if sender =? My_ID then
    let ptr := st_signal ptr in
    set_st i ptr ;;; ret (sn_collected ptr && sn_signaled ptr)
  else
  heard <- or_oob (aget (sn_recvd ptr) sender) ;;
  if heard : bool then ret false else
  recvd <- or_oob (aset (sn_recvd ptr) sender true) ;;
  copy <- copy_state st ;;
  state <- or_oob (aset (sn_state ptr) sender copy) ;;
  let ptr := st_heard recvd state ptr in
  let ptr :=
    if negb (sn_collected ptr) && (REQ_SHARES <=? sn_count ptr)
       && (REQ_SHARES <=? match_count (state_digest copy) ptr)
    then st_collect sender ptr else ptr in
  set_st i ptr ;;; ret (sn_collected ptr && sn_signaled ptr).

(** The message for the master, from the nodes that are freed. *)
Fixpoint st_result (o : ordinal) (q : list st_node) (mess : option state_xfer_msg)
    : comp itrc (option state_xfer_msg) :=
  match q with
  | [] => ret mess
  | n :: q =>
      if ITRC_Ord_Compare (sn_ord n) o <=? 0 then
        mess <-
          (if ITRC_Ord_Compare (sn_ord n) o =? 0 then
             match sn_result n with
             | None => raise AssertFailure
             | Some i =>
                 st <- or_oob (aget (sn_state n) i) ;;
                 ret (Some (PKT_Construct_State_Xfer_Msg (sx_target st) (sx_num_clients st)
                              (sx_latest_update st) (sx_contents st)))
             end
           else ret mess) ;;
        st_result o q mess
      else ret mess
  end.

Definition ITRC_Apply_State_Transfer (o : ordinal) : comp itrc unit :=
  s <- get ;;
  mess <- st_result o (stq_pending s) None ;;
  match mess with
  | None => raise OutOfBounds
  | Some st =>
      put (with_progress (sx_latest_update st)
            (with_tcq (drop_through tn_ord o (tcq_pending s))
               (with_stq (drop_through sn_ord o (stq_pending s)) s))) ;;;
      emit_out (To_SM (STATE_XFER (sz_state_xfer_msg + sx_state_size st) st)) ;;;
      s <- get ;;
      put (with_completed true (with_collecting false (with_applied o s)))
  end.

(** ** Ordered updates *)
Definition Valid_From_Prime (b : prime_body) : bool :=
  match b with
  | PRIME_NO_OP id | PRIME_SYSTEM_RESET id => id =? My_ID
  | PRIME_STATE_TRANSFER id => negb (NUM_SM <? id)
  | Client_Update _ (RTU_DATA m) => ITRC_Validate_Message (RTU_DATA m)
  | Client_Update _ (HMI_COMMAND m) => ITRC_Validate_Message (HMI_COMMAND m)
  | Client_Update _ (BENCHMARK m) => ITRC_Validate_Message (BENCHMARK m)
  | Client_Update _ _ => false
  end.

Definition transfer_to_me (b : prime_body) : bool :=
  match b with PRIME_STATE_TRANSFER id => id =? My_ID | _ => false end.

(** The number and the client of a message: the two words behind the header. *)
Definition seq_and_idx (m : sm_message) : option (seq_pair * Z) :=
  match m with
  | RTU_DATA m => Some (rs_seq m, rs_rtu_id m)
  | HMI_COMMAND m => Some (hc_seq m, hc_hmi_id m)
  | BENCHMARK m => Some (bm_seq m, wrap32 (bm_sender m))
  | _ => None
  end.

Definition is_duplicate (b : prime_body) : comp itrc bool :=
  match b with
  | Client_Update _ m =>
      match seq_and_idx m with
      | Some (ps, idx) =>
          s <- get ;;
          p <- or_oob (aget (progress s) idx) ;;
          ret (Seq_Pair_Compare ps p <=? 0)
      | None => ret false
      end
  | _ => ret false
  end.

(** A node that nothing is signed for. *)
Definition skip_slot (o : ordinal) : comp itrc unit :=
  if is_cc then
    ITRC_Insert_TC_ID (mkShare o (zeros MAX_PAYLOAD_SIZE) (zeros 128)) My_ID SKIP_ORD ;;; deliver
  else ret tt.

Definition own_transfer (o : ordinal) : comp itrc unit :=
  s <- get ;;
  if negb (ITRC_Ord_Consec (recvd_ord s) o) then
    put (with_collecting true s) ;;;
    ready <- ITRC_Insert_ST_ID (mkStateXfer o 0 zero_progress 0 0 []) My_ID ;;
    if ready : bool then ITRC_Apply_State_Transfer o else ret tt
  else
    let s := with_stq (drop_through sn_ord o (stq_pending s)) s in
    put (if is_cc then s else with_applied o s).

(** The master gets a client's update, or the request for a state. *)
Definition hand_on (o : ordinal) (b : prime_body) : comp itrc unit :=
  s <- get ;;
  put (with_ord_queue (ord_queue s ++ [o]) s) ;;;
  match b with
  | Client_Update len m =>
      match seq_and_idx m with
      | Some (ps, idx) =>
          s <- get ;;
          progress <- or_oob (aset (progress s) idx ps) ;;
          put (with_progress progress s) ;;;
          if SCADA_UPDATE_SIZE <? sz_scada_message + len then raise OutOfBounds else
          s <- get ;;
          up_hist <- or_oob (aset (up_hist s) idx (Some (m, o))) ;;
          put (with_up_hist up_hist s) ;;;
          emit_out (To_SM m)
      | None => ret tt
      end
  | PRIME_STATE_TRANSFER id =>
      s <- get ;;
      emit_out (To_SM (STATE_REQUEST (mkStateRequest id (progress s))))
  | _ => ret tt
  end.

Definition is_no_op (b : prime_body) : bool :=
  match b with PRIME_NO_OP _ | PRIME_SYSTEM_RESET _ => true | _ => false end.

Definition is_transfer (b : prime_body) : bool :=
  match b with PRIME_STATE_TRANSFER _ => true | _ => false end.

Definition ITRC_Process_Prime_Ordinal (o : ordinal) (mess : prime_message) : comp itrc unit :=
  let b := pm_body mess in
  s <- get ;;
  if collecting_signal s then
    if sz_client_response + SCADA_UPDATE_SIZE <? pm_len mess then raise OutOfBounds
    else put (with_pending (pending_updates s ++ [mess]) s)
  else
  if negb (ITRC_Ord_Consec (recvd_ord s) o) && negb (transfer_to_me b) then ret tt else
  let valid_content := Valid_From_Prime b in
  duplicate <- (if valid_content then is_duplicate b else ret false) ;;
  (if negb valid_content || is_no_op b || is_transfer b || duplicate
   then skip_slot o else ret tt) ;;;
  (if transfer_to_me b then own_transfer o else ret tt) ;;;
  s <- get ;;
  put (with_recvd o s) ;;;
  if negb valid_content || is_no_op b || transfer_to_me b || duplicate then ret tt
  else hand_on o b.

(** The updates that waited for a transfer, until another one has to be
    collected.  The list is only appended to while collecting. *)
Fixpoint replay (l : list prime_message) : comp itrc unit :=
  match l with
  | [] => ret tt
  | mess :: l =>
      s <- get ;;
      if collecting_signal s then ret tt else
      (if 0 <? ITRC_Ord_Compare (pm_ord mess) (recvd_ord s)
       then ITRC_Process_Prime_Ordinal (pm_ord mess) mess else ret tt) ;;;
      s <- get ;;
      put (with_pending (tl (pending_updates s)) s) ;;;
      replay l
  end.

Definition after_transfer : comp itrc unit :=
  s <- get ;;
  if completed_transfer s then
    assert_ (negb (collecting_signal s)) ;;;
    put (with_completed false s) ;;;
    replay (pending_updates s)
  else ret tt.

(** ** The loop of [ITRC_Master] *)
(** [progress] and [recvd_first_ordinal] are not reset. *)
Definition ITRC_Reset_Master_Data_Structures : comp itrc unit :=
  s <- get ;;
  put (mkItrc [] [] zero_ord zero_ord [] [] false false (progress s)
         (repeat None (Z.to_nat CLIENTS)) (recvd_first_ordinal s) (sp_int_up s) (sp_ext_up s)
         (spines_calls s) (itrc_sent s)).

Definition from_prime (mess : prime_message) : comp itrc unit :=
  match pm_body mess with
  | PRIME_SYSTEM_RESET _ =>
      assert_ (ord_num (pm_ord mess) =? 0) ;;;
      ITRC_Reset_Master_Data_Structures ;;;
      emit_out (To_SM SYSTEM_RESET)
  | _ =>
      s <- get ;;
      (if negb (recvd_first_ordinal s) && negb (ITRC_Ord_Consec (recvd_ord s) (pm_ord mess))
       then emit_out To_Inject else ret tt) ;;;
      s <- get ;;
      put (with_first true s) ;;;
      if ITRC_Ord_Compare (pm_ord mess) (recvd_ord s) <=? 0 then ret tt else
      ITRC_Process_Prime_Ordinal (pm_ord mess) mess ;;;
      after_transfer
  end.

Definition pop_ordinal : comp itrc ordinal :=
  s <- get ;;
  match ord_queue s with
  | [] => raise AssertFailure
  | o :: l => put (with_ord_queue l s) ;;; ret o
  end.

(** To each other control center replica, until Spines fails. *)
Fixpoint send_shares (m : tc_share_msg) (l : list Z) : comp itrc unit :=
  match l with
  | [] => ret tt
  | i :: l =>
      if i =? My_ID then send_shares m l else
      s <- get ;;
      ok <- spines_sendto (sp_int_up s) (Share_To i m) ;;
      if ok : bool then send_shares m l else s <- get ;; put (with_int_up false s)
  end.

Definition from_sm (r : sm_reply) : comp itrc unit :=
  match r with
  | Sm_State m =>
      o <- pop_ordinal ;;
      s <- get ;;
      if negb (sp_int_up s) then ret tt else
      let m := mkStateXfer o (sx_target m) (sx_latest_update m) (sx_num_clients m)
                 (sx_state_size m) (sx_contents m) in
      if negb (in_bounds All_Sites (sx_target m - 1)) then raise OutOfBounds else
      ok <- spines_sendto (sp_int_up s) (State_To (sx_target m) m) ;;
      if ok : bool then ret tt else s <- get ;; put (with_int_up false s)
  | Sm_Client bs =>
      type <- load bs 4 o_message_type ;;
      if (type =? HMI_UPDATE_T) || (type =? RTU_FEEDBACK_T) || (type =? BENCHMARK_T) then
        o <- pop_ordinal ;;
        m <- PKT_Construct_TC_Share_Msg o bs ;;
        (if is_cc then ITRC_Insert_TC_ID m My_ID NORMAL_ORD ;;; deliver else ret tt) ;;;
        s <- get ;;
        if negb (sp_int_up s) then ret tt else send_shares m CC_Replicas
      else ret tt
  end.

Definition RSA_Verify_Internal (m : internal_message) : bool :=
  if (im_machine_id m <? 1) || (NUM_SM <? im_machine_id m) then false else im_sig_ok m.

Definition from_internal (m : internal_message) : comp itrc unit :=
  match im_body m with
  | Int_Other => ret tt
  | TC_SHARE tcm =>
      if negb (RSA_Verify_Internal m) then ret tt else
      if is_cc then ITRC_Insert_TC_ID tcm (im_machine_id m) NORMAL_ORD ;;; deliver else ret tt
  | Int_State st =>
      if negb (RSA_Verify_Internal m) then ret tt else
      ready <- ITRC_Insert_ST_ID st (im_machine_id m) ;;
      (if ready : bool then ITRC_Apply_State_Transfer (sx_ord st) else ret tt) ;;;
      after_transfer
  end.

(** One thing [select] reports.  What is ready at the same time is read in the
    order prime, master, Spines, now or in the next turn of the loop. *)
Inductive event :=
| From_Prime (m : prime_message)
| From_SM (r : sm_reply)
| From_Internal (m : option internal_message)
| Timeout (int_ok ext_ok : bool).

Definition ITRC_Master (e : event) : comp itrc unit :=
  match e with
  | From_Prime m => from_prime m
  | From_SM r => from_sm r
  | From_Internal None => s <- get ;; put (with_int_up false s)
  | From_Internal (Some m) =>
      s <- get ;; if sp_int_up s then from_internal m else ret tt
  | Timeout int_ok ext_ok =>
      s <- get ;;
      let s := if sp_int_up s then s else with_int_up int_ok s in
      put (if is_cc && negb (sp_ext_up s) then with_ext_up ext_ok s else s)
  end.

Fixpoint itrc_run (es : list event) : comp itrc unit :=
  match es with [] => ret tt | e :: es => ITRC_Master e ;;; itrc_run es end.

Definition itrc_init (int_ok ext_ok : bool) : itrc :=
  mkItrc [] [] zero_ord zero_ord [] [] false false zero_progress
    (repeat None (Z.to_nat CLIENTS)) false int_ok ext_ok 0 [].
End Itrc.
