(* ===== verification/ItrcClient.v ===== *)
(** The ends of the channel: [ITRC_Client] of proxies and HMIs and
    [ITRC_Prime_Inject] of replicas, of [common/itrc.c]. *)
From Stdlib Require Import ZArith Lia List Bool String.
From Stdlib Require Import Strings.Byte.
From stdpp Require Import base list.
From S2P Require Import Prelude Memory Config Crypto ScadaPackets ScadaGrid ScadaMaster KeyValue ItrcState Itrc.

(** ** Messages *)
(** What Spines brings a client: [cm_rest] are the bytes of the receive buffer
    after the message. *)
Record client_message := mkClientMessage {
  cm_machine_id : Z; cm_sig_ok : bool; cm_final : tc_final_msg; cm_rest : list byte }.

(** An update for Prime, signed by the sender. *)
Record update := mkUpdate {
  um_machine_id : Z; um_incarnation : Z; um_server_id : Z; um_seq_num : Z; um_contents : list byte }.

Inductive client_out :=
| To_Application (bs : list byte)
| Update_To (replica : Z) (u : update).

(** ** [ITRC_Client] *)
Record client := mkClient { applied : ordinal; cl_up : bool; cl_calls : nat; cl_sent : list client_out }.

Definition client_init (up : bool) : client := mkClient zero_ord up 0 [].

Section Client.
Context {crypto : Crypto} (spines_ok : nat -> bool) (Prime_Client_ID : Z).

Definition RSA_Verify_Replica (m : client_message) : bool :=
  if (cm_machine_id m <? 1) || (NUM_SM <? cm_machine_id m) then false else cm_sig_ok m.

Definition client_emit (o : client_out) : comp client unit :=
  s <- get ;; put (mkClient (applied s) (cl_up s) (cl_calls s) (cl_sent s ++ [o])).

Definition from_spines (m : client_message) : comp client unit :=
  let f := cm_final m in
  if negb (RSA_Verify_Replica m) then ret tt else
  if negb (TC_Verify_Signature 1 (tf_thresh_sig f) (tc_digest (tf_ord f) (tf_payload f))) then ret tt else
  type <- load (tf_payload f) 4 o_message_type ;;
  if negb ((type =? HMI_UPDATE_T) || (type =? RTU_FEEDBACK_T) || (type =? BENCHMARK_T)) then ret tt else
  len <- load (tf_payload f) 4 o_message_len ;;
  s <- get ;;
  if ITRC_Ord_Compare (tf_ord f) (applied s) <=? 0 then ret tt else
  put (mkClient (tf_ord f) (cl_up s) (cl_calls s) (cl_sent s)) ;;;
  bs <- load_bytes (tf_payload f ++ tf_thresh_sig f ++ cm_rest m) 0 (sz_scada_message + sint32 len) ;;
  client_emit (To_Application bs).

Definition client_sendto (o : client_out) : comp client bool :=
  s <- get ;;
  let ok := cl_up s && spines_ok (cl_calls s) in
  put (mkClient (applied s) (cl_up s) (S (cl_calls s)) (cl_sent s)) ;;;
  if ok then client_emit o ;;; ret true else ret false.

Fixpoint send_update (u : update) (l : list Z) : comp client unit :=
  match l with
  | [] => ret tt
  | i :: l =>
      ok <- client_sendto (Update_To i u) ;;
      if ok : bool then send_update u l
      else s <- get ;; put (mkClient (applied s) false (cl_calls s) (cl_sent s))
  end.

Definition update_copies : Z := Z.min (SM_NUM_F + SM_NUM_K + 1) (2 * (SM_NUM_F + 2)).

(** [buff] holds the [nBytes] received, and what it held before after them. *)
Definition from_application (buff : list byte) (nBytes : Z) : comp client unit :=
  if SCADA_UPDATE_SIZE <? nBytes then ret tt else
  s <- get ;;
  if negb (cl_up s) then ret tt else
  incarnation <- load buff 4 sz_scada_message ;;
  seq_num <- load buff 4 (sz_scada_message + 4) ;;
  bs <- load_bytes buff 0 nBytes ;;
  let u := mkUpdate Prime_Client_ID incarnation Prime_Client_ID seq_num
             (bs ++ zeros (SCADA_UPDATE_SIZE - nBytes)) in
  send_update u (take (Z.to_nat update_copies) CC_Replicas).

Inductive client_event :=
| Cl_Spines (m : option client_message)
| Cl_Application (buff : list byte) (nBytes : Z)
| Cl_Timeout (ok : bool).

Definition ITRC_Client (e : client_event) : comp client unit :=
  match e with
  | Cl_Spines None =>
      s <- get ;; put (mkClient (applied s) false (cl_calls s) (cl_sent s))
  | Cl_Spines (Some m) => s <- get ;; if cl_up s then from_spines m else ret tt
  | Cl_Application buff nBytes => from_application buff nBytes
  | Cl_Timeout ok => s <- get ;; put (mkClient (applied s) ok (cl_calls s) (cl_sent s))
  end.

Fixpoint client_run (es : list client_event) : comp client unit :=
  match es with [] => ret tt | e :: es => ITRC_Client e ;;; client_run es end.
End Client.

(** ** [ITRC_Prime_Inject] *)
(** A client's message, or the request of [ITRC_Master]; Prime gets the message
    as it is, or an update that asks for a state transfer. *)
Inductive inject_event :=
| Inj_External (is_update sig_ok : bool) (u : update)
| Inj_Request.

Inductive inject_out := To_Prime (u : update) | To_Prime_Transfer (machine_id : Z).

(** [inj_open]: the socket of the requests; it is closed after the first one.
    Writing to Prime succeeds. *)
Record injector := mkInjector { inj_open : bool; inj_sent : list inject_out }.

Definition NUMBER_OF_CLIENTS : Z := MAX_EMU_RTU + 50.

Definition ITRC_Prime_Inject (My_ID : Z) (is_cc : bool) (e : inject_event) (s : injector) : injector :=
  match e with
  | Inj_External is_update sig_ok u =>
      if is_cc && is_update
         && negb ((um_machine_id u <? 1) || (NUMBER_OF_CLIENTS <? um_machine_id u)) && sig_ok
      then mkInjector (inj_open s) (inj_sent s ++ [To_Prime u]) else s
  | Inj_Request =>
      if inj_open s then mkInjector false (inj_sent s ++ [To_Prime_Transfer My_ID]) else s
  end.
