(* ===== verification/ItrcCorrect.v ===== *)
(** One replica's channel: the order of ordinals, the sorted queues, and the
    invariant of the state that every event keeps, with what was delivered to
    clients and applied traced back to the messages of other replicas. *)
From Stdlib Require Import ZArith Lia List Bool Sorting.Sorted.
From Stdlib Require Import Strings.Byte.
From stdpp Require Import base list.
From S2P Require Import Prelude Memory Config Crypto ScadaPackets ScadaGrid ScadaMaster KeyValue ItrcState Itrc.

(** ** Ordinals *)
Definition ord_lt (o1 o2 : ordinal) : Prop :=
  ord_num o1 < ord_num o2 \/ (ord_num o1 = ord_num o2 /\ event_idx o1 < event_idx o2).

Definition ord_eq (o1 o2 : ordinal) : Prop := ord_num o1 = ord_num o2 /\ event_idx o1 = event_idx o2.

Definition ord_le (o1 o2 : ordinal) : Prop := ord_lt o1 o2 \/ ord_eq o1 o2.

Lemma Ord_Compare_cases o1 o2 :
  (ord_lt o1 o2 /\ ITRC_Ord_Compare o1 o2 = -1) \/ (ord_eq o1 o2 /\ ITRC_Ord_Compare o1 o2 = 0)
  \/ (ord_lt o2 o1 /\ ITRC_Ord_Compare o1 o2 = 1).
Proof.
  unfold ord_lt, ord_eq, ITRC_Ord_Compare.
  destruct (Z.ltb_spec (ord_num o1) (ord_num o2)); [left; split; [left|]; auto; lia|].
  destruct (Z.ltb_spec (ord_num o2) (ord_num o1)); [right; right; split; [left|]; auto; lia|].
  destruct (Z.ltb_spec (event_idx o1) (event_idx o2)); [left; split; [right|]; auto; lia|].
  destruct (Z.ltb_spec (event_idx o2) (event_idx o1)); [right; right; split; [right|]; auto; lia|].
  right; left. split; [split|]; lia.
Qed.

(** The three cases of a comparison, its value computed. *)
Ltac compare_ords o1 o2 :=
  let H := fresh "Hcmp" in let E := fresh "Ecmp" in
  destruct (Ord_Compare_cases o1 o2) as [[H E]|[[H E]|[H E]]]; rewrite ?E in *; clear E; cbn in *.

Ltac ords := unfold ord_le, ord_lt, ord_eq in *; lia.

Lemma ord_lt_trans o1 o2 o3 : ord_lt o1 o2 -> ord_lt o2 o3 -> ord_lt o1 o3.
Proof. ords. Qed.

Lemma Ord_Consec_lt o1 o2 : 0 <= event_idx o1 -> 0 <= ord_num o1 ->
  event_idx o1 + 1 < two32 -> ord_num o1 + 1 < two32 -> ITRC_Ord_Consec o1 o2 = true -> ord_lt o1 o2.
Proof.
  intros H1 H2 H3 H4 H. unfold ITRC_Ord_Consec in H. rewrite !wrap32_small in H by lia. ords.
Qed.

(** ** Sorted queues *)
Section SortedQueue.
Context {A : Type} (ord_of : A -> ordinal) (fresh : ordinal -> A).

Definition sorted_queue (q : list A) : Prop := StronglySorted (fun a b => ord_lt (ord_of a) (ord_of b)) q.

Definition all_after (o : ordinal) (q : list A) : Prop := Forall (fun n => ord_lt o (ord_of n)) q.

Hypothesis fresh_ord : forall o, ord_of (fresh o) = o.

(** Where [nodes_before] stops, smaller ordinals end. *)
Lemma nodes_before_spec o q : sorted_queue q ->
  exists q1 q2, q = q1 ++ q2 /\ nodes_before ord_of o q = Z.of_nat (length q1) /\
    Forall (fun n => ord_lt (ord_of n) o) q1 /\
    match q2 with [] => True | n :: _ => ord_le o (ord_of n) end.
Proof.
  induction q as [|n q IH]; intros H.
  - exists [], []. repeat split; constructor.
  - inversion H as [|? ? H1 H2]; subst. cbn [nodes_before].
    destruct (IH H1) as (q1 & q2 & -> & E & Hq1 & Hq2).
    compare_ords o (ord_of n).
    1,2: exists [], (n :: q1 ++ q2); repeat split; [constructor|ords].
    exists (n :: q1), q2. repeat split; [rewrite E; cbn [length]; lia|constructor; auto|exact Hq2].
Qed.

Lemma find_slot_spec o q : sorted_queue q ->
  exists q1 q2, q = q1 ++ q2 /\ fst (find_slot ord_of o q) = Z.of_nat (length q1) /\
    Forall (fun n => ord_lt (ord_of n) o) q1 /\
    if snd (find_slot ord_of o q)
    then match q2 with [] => True | n :: _ => ord_lt o (ord_of n) end
    else exists n q3, q2 = n :: q3 /\ ord_eq o (ord_of n).
Proof.
  intros H. unfold find_slot. destruct (last q) as [t|] eqn:El.
  - compare_ords o (ord_of t).
    3: { apply last_Some in El as [q' ->]. exists (q' ++ [t]), []. rewrite app_nil_r.
         repeat split. apply Forall_app. split; [|constructor; [exact Hcmp|constructor]].
         apply Forall_forall. intros n Hn. apply ord_lt_trans with (ord_of t); [|exact Hcmp].
         induction q' as [|m q' IH]; [inversion Hn|].
         inversion H as [|? ? H1 H2]; subst. apply elem_of_cons in Hn as [->|Hn]; [|auto].
         rewrite Forall_forall in H2. apply H2, elem_of_app. right. left. }
    all: destruct (nodes_before_spec o q H) as (q1 & q2 & -> & -> & Hq1 & Hq2).
    all: destruct (aget (q1 ++ q2) (Z.of_nat (length q1))) as [n|] eqn:Eg.
    all: exists q1, q2; repeat split; try exact Hq1; cbn [fst snd].
    all: destruct q2 as [|n' q3].
    all: try (apply aget_Some_bounds in Eg; rewrite app_nil_r in Eg; lia).
    all: try exact I.
    all: try (rewrite app_nil_r in *; discriminate).
    all: try (assert (Some n = Some n') as [= ->]
      by (rewrite <- Eg; apply aget_lookup; rewrite lookup_app_r, Nat.sub_diag by lia; reflexivity);
      compare_ords o (ord_of n'); [ords|eauto|ords]).
    all: try (assert (aget (q1 ++ n' :: q3) (Z.of_nat (length q1)) = Some n')
      by (apply aget_lookup; rewrite lookup_app_r, Nat.sub_diag by lia; reflexivity); congruence).
  - apply last_None in El as ->. exists [], []. repeat split. constructor.
Qed.

(** The queue has one node of the ordinal at the position, the others are as
    they were. *)
Lemma slot_spec o q : sorted_queue q ->
  exists q1 n q2, slot ord_of fresh o q = (q1 ++ n :: q2, Z.of_nat (length q1)) /\
    sorted_queue (q1 ++ n :: q2) /\ ord_eq o (ord_of n) /\
    (q = q1 ++ n :: q2 \/ (q = q1 ++ q2 /\ n = fresh o)).
Proof.
  intros H. destruct (find_slot_spec o q H) as (q1 & q2 & -> & Ei & Hq1 & Hq2).
  unfold slot. destruct (find_slot ord_of o (q1 ++ q2)) as [i new]. cbn in Ei, Hq2. subst i.
  rewrite Nat2Z.id. destruct new.
  - exists q1, (fresh o), q2. rewrite take_app_length, drop_app_length. split; [reflexivity|].
    split; [|split; [rewrite fresh_ord; split; reflexivity|auto]].
    clear -H Hq1 Hq2 fresh_ord. unfold sorted_queue in *. induction q1 as [|m q1 IH].
    + cbn in *. constructor; [exact H|]. rewrite fresh_ord.
      destruct q2 as [|n q2]; [constructor|]. inversion H as [|? ? H1 H2]; subst.
      constructor; [exact Hq2|]. eapply Forall_impl; [exact H2|]. cbn. intros a Ha.
      eapply ord_lt_trans; eassumption.
    + cbn in *. inversion H as [|? ? H1 H2]; subst. inversion Hq1 as [|? ? H3 H4]; subst.
      constructor; [auto|]. apply Forall_app in H2 as [H5 H6]. apply Forall_app. split; [exact H5|].
      constructor; [rewrite fresh_ord; exact H3|exact H6].
  - destruct Hq2 as (n & q3 & -> & Hn). exists q1, n, q3. auto.
Qed.

Lemma sorted_set q1 n n' q2 : ord_of n' = ord_of n -> sorted_queue (q1 ++ n :: q2) -> sorted_queue (q1 ++ n' :: q2).
Proof.
  intros E. unfold sorted_queue. induction q1 as [|m q1 IH]; cbn; intros H;
    inversion H as [|? ? H1 H2]; subst; constructor; auto.
  - rewrite E. exact H2.
  - apply Forall_app in H2 as [H2 H3]. apply Forall_app. split; [exact H2|].
    inversion H3; subst. constructor; [rewrite E; auto|auto].
Qed.

Lemma aset_mid (q1 q2 : list A) n n' :
  aset (q1 ++ n :: q2) (Z.of_nat (length q1)) n' = Some (q1 ++ n' :: q2).
Proof.
  rewrite aset_Some by (rewrite length_app; cbn [length]; lia).
  rewrite Nat2Z.id. f_equal. rewrite insert_app_r_alt, Nat.sub_diag by lia. reflexivity.
Qed.

Lemma aget_mid (q1 q2 : list A) n : aget (q1 ++ n :: q2) (Z.of_nat (length q1)) = Some n.
Proof. apply aget_lookup. rewrite lookup_app_r, Nat.sub_diag by lia. reflexivity. Qed.

(** What [drop_through] leaves is a rest of the queue, beyond the ordinal. *)
Lemma drop_through_rest o q : exists q1, q = q1 ++ drop_through ord_of o q /\
  Forall (fun n => ord_le (ord_of n) o) q1.
Proof.
  induction q as [|n q IH]; [exists []; auto|]. cbn [drop_through].
  compare_ords (ord_of n) o.
  1,2: destruct IH as (q1 & E & H); exists (n :: q1); split; [cbn; congruence|constructor; [ords|exact H]].
  exists []. auto.
Qed.

Lemma sorted_rest q1 q2 : sorted_queue (q1 ++ q2) -> sorted_queue q2.
Proof. induction q1 as [|n q1 IH]; cbn; [auto|]. intros H. inversion H; subst; auto. Qed.

Lemma drop_through_sorted o q : sorted_queue q -> sorted_queue (drop_through ord_of o q).
Proof. intros H. destruct (drop_through_rest o q) as (q1 & E & _). rewrite E in H. eapply sorted_rest, H. Qed.

Lemma drop_through_Forall (P : A -> Prop) o q : Forall P q -> Forall P (drop_through ord_of o q).
Proof. intros H. destruct (drop_through_rest o q) as (q1 & E & _). rewrite E in H. apply Forall_app in H. apply H. Qed.

Lemma drop_through_after o q : sorted_queue q -> all_after o (drop_through ord_of o q).
Proof.
  unfold all_after. induction q as [|n q IH]; intros H; cbn [drop_through]; [constructor|].
  inversion H as [|? ? H1 H2]; subst. compare_ords (ord_of n) o; auto.
  constructor; [exact Hcmp|]. eapply Forall_impl; [exact H2|]. cbn. intros a Ha. ords.
Qed.
End SortedQueue.

(** ** Flags *)
Definition count_true (l : list bool) : Z := Z.of_nat (length (List.filter (fun b => b) l)).

Lemma count_true_set l i l' : aget l i = Some false -> aset l i true = Some l' -> count_true l' = count_true l + 1.
Proof.
  intros Hg Hs. pose proof (aget_Some_bounds _ _ _ Hg) as Hi. rewrite aset_Some in Hs by exact Hi.
  injection Hs as <-. unfold aget, in_bounds in Hg. rewrite (proj2 (andb_true_iff _ _)) in Hg by lia.
  revert Hg. generalize (Z.to_nat i) as n. clear. unfold count_true.
  induction l as [|b l IH]; intros [|n] H; try discriminate.
  - injection H as ->. change (<[O := true]> (false :: l)) with (true :: l). cbn [List.filter length]. lia.
  - change (<[S n := true]> (b :: l)) with (b :: <[n := true]> l). specialize (IH n H).
    destruct b; cbn [List.filter length]; lia.
Qed.

Lemma flag_at_true l i : flag_at l i = true <-> aget l i = Some true.
Proof. unfold flag_at. destruct (aget l i) as [[]|]; split; congruence. Qed.

Section Invariant.
Context {crypto : Crypto} {crypto_ok : CryptoOk crypto} {tc : Threshold} (spines_ok : nat -> bool).
Context (My_ID : Z) (is_cc : bool) (locations : key_value).
Hypothesis My_ID_range : 1 <= My_ID <= NUM_SM.

(** The messages the replica has heard: the shares and the states a replica sent. *)
Variable Sent : Z -> tc_share_msg -> Prop.
Variable Vouched : Z -> state_xfer_msg -> Prop.

(** ** What is delivered and applied *)
(** [REQ_SHARES] replicas signed shares for exactly the ordinal, one of them with the
    payload, whose combination is a valid signature of ordinal and payload; and this
    replica has made a share for the event too. *)
Definition backed (f : tc_final_msg) : Prop :=
  exists shares : list (Z * tc_share_msg),
    NoDup (map fst shares) /\ REQ_SHARES <= Z.of_nat (length shares) /\
    Forall (fun p => 1 <= fst p <= NUM_SM /\ Sent (fst p) (snd p) /\ ts_ord (snd p) = tf_ord f) shares /\
    Exists (fun p => ts_payload (snd p) = tf_payload f) shares /\
    tf_thresh_sig f = TC_Combine_Sigs (map (fun p => (fst p, ts_partial_sig (snd p))) shares)
                        (tc_digest (tf_ord f) (tf_payload f)) /\
    TC_Verify_Signature 1 (tf_thresh_sig f) (tc_digest (tf_ord f) (tf_payload f)) = true /\
    exists mine, Sent My_ID mine /\ ord_eq (ts_ord mine) (tf_ord f).

(** [REQ_SHARES] replicas sent states with the digest of this one. *)
Definition agreed (m : state_xfer_msg) : Prop :=
  (exists i, Vouched i m) /\
  exists senders : list Z, NoDup senders /\ REQ_SHARES <= Z.of_nat (length senders) /\
    Forall (fun i => 1 <= i <= NUM_SM /\
      exists m', Vouched i m' /\ ord_eq (sx_ord m') (sx_ord m) /\ state_digest m' = state_digest m) senders.

Record tc_ok (n : tc_node) : Prop := {
  to_recvd : Z.of_nat (length (tn_recvd n)) = MAX_SHARES + 1;
  to_shares : Z.of_nat (length (tn_shares n)) = MAX_SHARES + 1;
  to_payloads : Forall (fun m => Z.of_nat (length (ts_payload m)) = MAX_PAYLOAD_SIZE) (tn_shares n);
  to_count : tn_count n = count_true (tn_recvd n);
  to_skip : tn_done n = false -> tn_skip n = false;
  to_open : tn_done n = false -> forall i m,
    aget (tn_recvd n) i = Some true -> aget (tn_shares n) i = Some m ->
    Sent i m /\ ord_eq (ts_ord m) (tn_ord n);
  to_done : tn_done n = true -> tn_skip n = false -> exists f,
    tn_tcf n = Some f /\ backed f /\ ord_eq (tf_ord f) (tn_ord n) /\
    Z.of_nat (length (tf_payload f)) = MAX_PAYLOAD_SIZE }.

Definition state_sized (m : state_xfer_msg) : Prop :=
  sx_state_size m = Z.of_nat (length (sx_contents m)) /\
  Z.of_nat (length (sx_latest_update m)) = CLIENTS.

Record st_ok (n : st_node) : Prop := {
  no_recvd : Z.of_nat (length (sn_recvd n)) = MAX_SHARES + 1;
  no_state : Z.of_nat (length (sn_state n)) = MAX_SHARES + 1;
  no_sizes : Forall state_sized (sn_state n);
  no_from : forall i m, aget (sn_recvd n) i = Some true -> aget (sn_state n) i = Some m ->
    Vouched i m /\ ord_eq (sx_ord m) (sn_ord n);
  no_result : sn_collected n = true -> exists i m,
    sn_result n = Some i /\ aget (sn_recvd n) i = Some true /\ aget (sn_state n) i = Some m /\ agreed m }.

(** What the buffers of the code hold. *)
Definition prime_sized (m : prime_message) : Prop :=
  pm_len m <= sz_client_response + SCADA_UPDATE_SIZE /\
  match pm_body m with
  | Client_Update len m =>
      sz_scada_message + len <= SCADA_UPDATE_SIZE /\
      match seq_and_idx m with Some (_, idx) => 0 <= idx < CLIENTS | None => True end
  | _ => True
  end.

Record itrc_ok (s : itrc) : Prop := {
  io_tcq : sorted_queue tn_ord (tcq_pending s);
  io_after : all_after tn_ord (applied_ord s) (tcq_pending s);
  io_tc : Forall tc_ok (tcq_pending s);
  io_dc : is_cc = false -> tcq_pending s = [];
  io_stq : sorted_queue sn_ord (stq_pending s);
  io_st : Forall st_ok (stq_pending s);
  io_progress : Z.of_nat (length (progress s)) = CLIENTS;
  io_up_hist : Z.of_nat (length (up_hist s)) = CLIENTS;
  io_pending : Forall prime_sized (pending_updates s) }.

(** ** What a step sends *)
Fixpoint chain (lo : ordinal) (l : list ordinal) (hi : ordinal) : Prop :=
  match l with [] => ord_le lo hi | o :: l => ord_lt lo o /\ chain o l hi end.

Lemma chain_app l : forall l' a b c, chain a l b -> chain b l' c -> chain a (l ++ l') c.
Proof.
  induction l as [|o l IH]; cbn; intros l' a b c H1 H2.
  - destruct l' as [|o' l']; cbn in *; [ords|]. destruct H2. split; [ords|assumption].
  - destruct H1. split; [assumption|]. eapply IH; eassumption.
Qed.

Lemma chain_le l : forall a b, chain a l b -> ord_le a b.
Proof. induction l as [|o l IH]; cbn; intros a b H; [exact H|]. destruct H as [H1 H2]. apply IH in H2. ords. Qed.

Lemma chain_sorted l : forall a b, chain a l b -> StronglySorted ord_lt l.
Proof.
  induction l as [|o l IH]; cbn; intros a b H; [constructor|]. destruct H as [H1 H2].
  constructor; [eapply IH, H2|]. clear IH H1. revert o H2. induction l as [|o' l IH]; cbn; intros o H; constructor.
  - apply H.
  - apply IH. destruct H as [H1 H2]. destruct l as [|o'' l]; cbn in *; [ords|]. destruct H2. split; [ords|assumption].
Qed.

(** The ordinals of what clients are sent. *)
Definition client_ords (l : list itrc_out) : list ordinal :=
  omap (fun o => match o with To_Client _ _ f => Some (tf_ord f) | _ => None end) l.

Definition out_ok (o : itrc_out) : Prop :=
  match o with
  | To_Client _ _ f => backed f
  | To_SM (STATE_XFER len m) => exists m0, agreed m0 /\
      m = PKT_Construct_State_Xfer_Msg (sx_target m0) (sx_num_clients m0) (sx_latest_update m0) (sx_contents m0)
  | _ => True
  end.

(** Clients are sent ordinals that grow, up to the one applied; a replica that
    is not in a control center sends them nothing. *)
Definition advances (s s' : itrc) : Prop :=
  exists new, itrc_sent s' = itrc_sent s ++ new /\ Forall out_ok new /\
    if is_cc then chain (applied_ord s) (client_ords new) (applied_ord s') else client_ords new = [].

Lemma advances_refl s s' : itrc_sent s' = itrc_sent s -> applied_ord s' = applied_ord s -> advances s s'.
Proof.
  intros E1 E2. exists []. rewrite app_nil_r. repeat split; [exact E1|constructor|].
  destruct is_cc; [cbn; rewrite E2; ords|reflexivity].
Qed.

Lemma advances_trans s1 s2 s3 : advances s1 s2 -> advances s2 s3 -> advances s1 s3.
Proof.
  intros (l1 & E1 & F1 & C1) (l2 & E2 & F2 & C2). exists (l1 ++ l2).
  rewrite E2, E1, app_assoc. repeat split; [apply Forall_app; auto|].
  unfold client_ords in *. rewrite omap_app. destruct is_cc; [eapply chain_app; eassumption|].
  rewrite C1, C2. reflexivity.
Qed.

(** What the delivery of finished signatures leaves alone. *)
Definition rest (s : itrc) :=
  (stq_pending s, recvd_ord s, ord_queue s, pending_updates s, collecting_signal s,
   completed_transfer s, progress s, up_hist s, recvd_first_ordinal s, sp_int_up s).

Definition to_client (o : itrc_out) : bool := match o with To_Client _ _ _ => true | _ => false end.

Definition delivers (s s' : itrc) : Prop :=
  rest s' = rest s /\ exists new, itrc_sent s' = itrc_sent s ++ new /\ forallb to_client new = true.

Lemma delivers_refl s : delivers s s.
Proof. split; [reflexivity|]. exists []. rewrite app_nil_r. auto. Qed.

Lemma delivers_trans s1 s2 s3 : delivers s1 s2 -> delivers s2 s3 -> delivers s1 s3.
Proof.
  intros (R1 & l1 & E1 & F1) (R2 & l2 & E2 & F2). split; [congruence|]. exists (l1 ++ l2).
  rewrite E2, E1, app_assoc, forallb_app, F1, F2. auto.
Qed.

(** ** Threshold signatures *)
Variable F : fault -> Prop.

Lemma tc_ok_new o : tc_ok (new_tc_node o).
Proof.
  split; try reflexivity; try discriminate.
  - apply Forall_forall. intros m Hm. apply list_elem_of_In, repeat_spec in Hm. subst m. reflexivity.
  - intros _ i m Hi. apply aget_elem, list_elem_of_In, repeat_spec in Hi. discriminate.
Qed.

Lemma matching_shares_in o n i m : In (i, m) (matching_shares o n) ->
  1 <= i <= NUM_SM /\ aget (tn_recvd n) i = Some true /\ aget (tn_shares n) i = Some m /\ ts_ord m = o.
Proof.
  unfold matching_shares. intros H. apply list_elem_of_In, list_elem_of_omap in H as (j & Hj & H).
  unfold matching_share in H. destruct (aget (tn_recvd n) j) as [[]|] eqn:Er; try discriminate.
  destruct (aget (tn_shares n) j) as [m'|] eqn:Es; [|discriminate].
  destruct (decide (ts_ord m' = o)) as [Eo|]; [|discriminate]. injection H as -> ->.
  apply elem_of_seqZ in Hj. repeat split; auto; lia.
Qed.

Lemma matching_shares_senders o n : NoDup (map fst (matching_shares o n)).
Proof.
  unfold matching_shares. pose proof (NoDup_seqZ 1 NUM_SM) as H. revert H.
  generalize (seqZ 1 NUM_SM) as l. induction l as [|i l IH]; intros H; cbn; [constructor|].
  apply list.NoDup_cons in H as [H1 H2]. destruct (matching_share o n i) as [[j m]|] eqn:E; [|auto].
  assert (j = i) as ->.
  { unfold matching_share in E. destruct (aget (tn_recvd n) i) as [[]|], (aget (tn_shares n) i); try discriminate.
    destruct (decide _); [congruence|discriminate]. }
  cbn. apply list.NoDup_cons. split; [|auto]. intros Hin. apply H1.
  apply list_elem_of_In, in_map_iff in Hin as ([k m'] & Ek & Hin). cbn in Ek. subst k.
  apply list_elem_of_In, list_elem_of_omap in Hin as (k & Hk & Em).
  unfold matching_share in Em. destruct (aget (tn_recvd n) k) as [[]|], (aget (tn_shares n) k); try discriminate.
  destruct (decide _); [|discriminate]. injection Em as -> _. exact Hk.
Qed.

Lemma construct_final_backed o n f : tc_ok n -> tn_done n = false ->
  ord_eq o (tn_ord n) -> flag_at (tn_recvd n) My_ID = true ->
  PKT_Construct_TC_Final_Msg o n = Some f ->
  backed f /\ tf_ord f = o /\ Z.of_nat (length (tf_payload f)) = MAX_PAYLOAD_SIZE.
Proof.
  intros Hn Hd Ho Hme. unfold PKT_Construct_TC_Final_Msg. destruct (tn_count n <? REQ_SHARES); [discriminate|].
  destruct (Z.ltb_spec (Z.of_nat (length (matching_shares o n))) REQ_SHARES) as [|Hlen]; [discriminate|].
  pose proof (matching_shares_in o n) as Hin. pose proof (matching_shares_senders o n) as Hnd.
  destruct (matching_shares o n) as [|[i m] l] eqn:E; [discriminate|].
  destruct (TC_Verify_Signature _ _ _) eqn:Ev; [|discriminate]. intros [= <-]. cbn [tf_ord tf_payload tf_thresh_sig].
  repeat split.
  - exists ((i, m) :: l). repeat split; auto.
    { apply Forall_forall. intros [j mj] Hj%list_elem_of_In. destruct (Hin j mj Hj) as (A & B & C & D).
      cbn. repeat split; try tauto; try lia. apply (to_open n Hn Hd j mj B C). }
    apply flag_at_true in Hme. destruct (aget_is_Some (tn_shares n) My_ID) as [mine Em].
    { rewrite (to_shares n Hn). unfold MAX_SHARES, SM_NUM_F, SM_NUM_K. unfold NUM_SM in My_ID_range. lia. }
    destruct (to_open n Hn Hd My_ID mine Hme Em) as [A B]. exists mine. split; [exact A|cbn [tf_ord]; ords].
  - destruct (Hin i m (or_introl eq_refl)) as (_ & _ & C & _).
    pose proof (to_payloads n Hn) as Hp. rewrite Forall_forall in Hp. apply Hp. eapply aget_elem, C.
Qed.

Lemma tc_ok_heard n i recvd : tc_ok n -> aget (tn_recvd n) i = Some false -> aset (tn_recvd n) i true = Some recvd ->
  Z.of_nat (length recvd) = MAX_SHARES + 1 /\ tn_count n + 1 = count_true recvd.
Proof.
  intros Hn Hi Hs. split; [rewrite (aset_length _ _ _ _ Hs); apply Hn|].
  rewrite (count_true_set _ _ _ Hi Hs), (to_count n Hn). reflexivity.
Qed.

Lemma tc_ok_skip n i recvd : tc_ok n -> aget (tn_recvd n) i = Some false -> aset (tn_recvd n) i true = Some recvd ->
  tc_ok (tc_finished None (tc_heard recvd n)).
Proof.
  intros Hn Hi Hs. destruct (tc_ok_heard n i recvd Hn Hi Hs). split; cbn; auto; try discriminate; apply Hn.
Qed.

Lemma tc_ok_stored n i m recvd shares : tc_ok n -> tn_done n = false ->
  aget (tn_recvd n) i = Some false -> aset (tn_recvd n) i true = Some recvd -> aset (tn_shares n) i m = Some shares ->
  Sent i m -> ord_eq (ts_ord m) (tn_ord n) -> Z.of_nat (length (ts_payload m)) = MAX_PAYLOAD_SIZE ->
  tc_ok (tc_stored shares (tc_heard recvd n)).
Proof.
  intros Hn Hd Hi Hr Hs Hm Ho Hl. destruct (tc_ok_heard n i recvd Hn Hi Hr). split; cbn; auto.
  - rewrite (aset_length _ _ _ _ Hs). apply Hn.
  - eapply aset_Forall; [exact Hs|apply Hn|exact Hl].
  - apply Hn.
  - intros _ j mj. rewrite (aget_aset _ _ _ _ _ Hr), (aget_aset _ _ _ _ _ Hs).
    destruct (Z.eq_dec i j) as [<-|]; [intros _ [= <-]; auto|]. apply (to_open n Hn Hd).
  - rewrite Hd. discriminate.
Qed.

Lemma tc_ok_finished n o : tc_ok n -> tn_done n = false -> ord_eq o (tn_ord n) -> flag_at (tn_recvd n) My_ID = true ->
  tc_ok (tc_finished (PKT_Construct_TC_Final_Msg o n) n).
Proof.
  intros Hn Hd Ho Hme. split; cbn; try apply Hn; try discriminate. intros _.
  destruct (PKT_Construct_TC_Final_Msg o n) as [f|] eqn:E; [|discriminate]. intros _.
  destruct (construct_final_backed o n f Hn Hd Ho Hme E) as (A & B & C). exists f. rewrite B. auto.
Qed.

Lemma itrc_ok_tcq s q : itrc_ok s -> is_cc = true -> sorted_queue tn_ord q -> all_after tn_ord (applied_ord s) q ->
  Forall tc_ok q -> itrc_ok (with_tcq q s).
Proof. intros [] Hcc H1 H2 H3. split; cbn; auto. congruence. Qed.

(** A node replaced by one of the same ordinal. *)
Lemma wp_set_tc s q1 n n' q2 i : itrc_ok (with_tcq (q1 ++ n :: q2) s) -> is_cc = true ->
  i = Z.of_nat (length q1) -> tn_ord n' = tn_ord n -> tc_ok n' ->
  wp F (set_tc i n') (fun _ s' => itrc_ok s' /\ exists q, s' = with_tcq q s) (with_tcq (q1 ++ n :: q2) s).
Proof.
  intros Hs Hcc -> Eo Hn'. unfold set_tc. apply wp_bind, wp_get, wp_bind. cbn [tcq_pending with_tcq].
  rewrite aset_mid. apply wp_ret, wp_put. split; [|exists (q1 ++ n' :: q2); reflexivity].
  change (with_tcq (q1 ++ n' :: q2) _) with (with_tcq (q1 ++ n' :: q2) s).
  destruct Hs as [A B C D E G H I J]. cbn in *. split; cbn; auto.
  - eapply sorted_set; [exact Eo|exact A].
  - unfold all_after in *. rewrite Forall_app, Forall_cons in *. rewrite Eo. exact B.
  - rewrite Forall_app, Forall_cons in *. tauto.
  - congruence.
Qed.

Lemma wp_ITRC_Insert_TC_ID tcm sender flag s : itrc_ok s -> is_cc = true -> 1 <= sender <= NUM_SM ->
  Z.of_nat (length (ts_payload tcm)) = MAX_PAYLOAD_SIZE -> (flag =? SKIP_ORD = false -> Sent sender tcm) ->
  wp F (ITRC_Insert_TC_ID My_ID tcm sender flag) (fun _ s' => itrc_ok s' /\ exists q, s' = with_tcq q s) s.
Proof.
  intros Hs Hcc Hsender Hpay Hsent. unfold ITRC_Insert_TC_ID. apply wp_bind, wp_get.
  assert (Hself : itrc_ok s /\ exists q, s = with_tcq q s) by (split; [exact Hs|exists (tcq_pending s); destruct s; reflexivity]).
  compare_ords (ts_ord tcm) (applied_ord s); [exact Hself|exact Hself|].
  destruct (slot_spec tn_ord new_tc_node (fun _ => eq_refl) (ts_ord tcm) (tcq_pending s) (io_tcq s Hs))
    as (q1 & n & q2 & -> & Hsort & Ho & Hq).
  assert (Hok : itrc_ok (with_tcq (q1 ++ n :: q2) s)).
  { apply itrc_ok_tcq; auto; pose proof (io_after s Hs) as Ha; pose proof (io_tc s Hs) as Ht; unfold all_after in *.
    - destruct Hq as [E|[E ->]]; rewrite E in *; [exact Ha|]. rewrite Forall_app, Forall_cons in *. tauto.
    - destruct Hq as [E|[E ->]]; rewrite E in *; [exact Ht|]. rewrite Forall_app, Forall_cons in *. pose proof (tc_ok_new (ts_ord tcm)). tauto. }
  assert (Hn : tc_ok n) by (pose proof (io_tc _ Hok) as H; cbn in H; rewrite Forall_app, Forall_cons in H; tauto).
  apply wp_bind, wp_put, wp_bind. rewrite aget_mid. apply wp_ret.
  destruct (tn_done n) eqn:Ed; [apply wp_ret; split; [exact Hok|eauto]|].
  assert (Hrange : 0 <= sender < Z.of_nat (length (tn_recvd n))) by (rewrite (to_recvd n Hn); unfold MAX_SHARES, SM_NUM_F, SM_NUM_K; unfold NUM_SM in Hsender; lia).
  destruct (aget_is_Some (tn_recvd n) sender Hrange) as [b Eb]. rewrite Eb. apply wp_bind, wp_ret.
  destruct b; [apply wp_ret; split; [exact Hok|eauto]|].
  apply wp_bind, wp_aset_in; [exact Hrange|]. intros recvd Er.
  destruct (flag =? SKIP_ORD) eqn:Ef.
  { eapply wp_set_tc; eauto. eapply tc_ok_skip; eassumption. }
  apply wp_bind, wp_aset_in; [cbn; rewrite (to_shares n Hn), <- (to_recvd n Hn); exact Hrange|]. cbn [tn_shares tc_heard].
  intros shares Es. pose proof (tc_ok_stored n sender tcm recvd shares Hn Ed Eb Er Es (Hsent eq_refl) Ho Hpay) as Hn'.
  destruct (_ && _) eqn:Efin; eapply wp_set_tc; eauto.
  apply tc_ok_finished; auto. apply andb_true_iff in Efin as [_ Efin]. exact Efin.
Qed.

(** ** Delivery *)
Lemma tc_ready_spec q : forall a, sorted_queue tn_ord q -> all_after tn_ord a q -> Forall tc_ok q ->
  let '(r, a', q') := tc_ready My_ID a q in
  sorted_queue tn_ord q' /\ all_after tn_ord a' q' /\ Forall tc_ok q' /\ (length q' <= length q)%nat /\
  match r with
  | None => ord_le a a'
  | Some None => False
  | Some (Some f) => ord_lt a a' /\ ord_eq (tf_ord f) a' /\ backed f /\
      Z.of_nat (length (tf_payload f)) = MAX_PAYLOAD_SIZE /\ (length q' < length q)%nat
  end.
Proof.
  induction q as [|n q IH]; intros a Hs Ha Hn; cbn [tc_ready].
  { repeat split; auto. ords. }
  destruct (tn_done n && _ && _) eqn:E.
  2: { repeat split; auto. ords. }
  apply andb_true_iff in E as [E _]. apply andb_true_iff in E as [Ed _].
  inversion Hs as [|? ? Hs1 Hs2]; subst. inversion Ha as [|? ? Ha1 Ha2]; subst. inversion Hn as [|? ? Hn1 Hn2]; subst.
  destruct (tn_skip n) eqn:Ek.
  - specialize (IH (tn_ord n) Hs1 Hs2 Hn2). destruct (tc_ready My_ID (tn_ord n) q) as [[r a'] q'].
    destruct IH as (A & B & C & D & E). cbn [length]. repeat split; auto.
    destruct r as [[f|]|]; [|exact E|ords]. destruct E as (E1 & E2 & E3 & E4 & E5).
    split; [ords|]. repeat split; auto; try apply E2; lia.
  - destruct (to_done n Hn1 Ed Ek) as (f & -> & Hb & Ho & Hl). cbn [length]. repeat split; auto; try apply Ho; lia.
Qed.

Lemma payload_word f p : Z.of_nat (length (tf_payload f)) = MAX_PAYLOAD_SIZE -> 0 <= p -> p + 4 <= MAX_PAYLOAD_SIZE ->
  exists v, word_at (tf_payload f) 4 p = Some v.
Proof. intros Hl H1 H2. apply word_defined; lia. Qed.

Lemma delivers_in s a q : itrc_sent s = itrc_sent s -> delivers s (with_applied a (with_tcq q s)).
Proof. intros _. split; [reflexivity|]. exists []. rewrite app_nil_r. auto. Qed.

(** One message is sent, dropped, or lost with the connection. *)
Lemma wp_ITRC_Send_TC_Final f s : Z.of_nat (length (tf_payload f)) = MAX_PAYLOAD_SIZE ->
  wp F (ITRC_Send_TC_Final spines_ok locations f)
    (fun _ s' => exists c new, s' = with_sent (itrc_sent s ++ new) (with_calls c s) /\
       (new = [] \/ exists addr port, new = [To_Client addr port f])) s.
Proof.
  intros Hl. unfold ITRC_Send_TC_Final. apply wp_bind, wp_get.
  assert (Hsame : exists c new, s = with_sent (itrc_sent s ++ new) (with_calls c s) /\
    (new = [] \/ exists addr port, new = [To_Client addr port f]))
    by (exists (spines_calls s), []; rewrite app_nil_r; split; [destruct s; reflexivity|auto]).
  assert (Hsend : forall addr port, wp F (ok <- spines_sendto spines_ok (sp_ext_up s) (To_Client addr port f) ;;
      ret (if ok : bool then 1 else -1))
    (fun _ s' => exists c new, s' = with_sent (itrc_sent s ++ new) (with_calls c s) /\
       (new = [] \/ exists addr port, new = [To_Client addr port f])) s).
  { intros addr port. unfold spines_sendto, emit_out. apply wp_bind, wp_bind, wp_get, wp_bind, wp_put.
    destruct (sp_ext_up s && spines_ok (spines_calls s)).
    - apply wp_bind, wp_bind, wp_get, wp_put, wp_ret, wp_ret. eexists _, [_]. split; [reflexivity|eauto].
    - apply wp_ret, wp_ret. exists (S (spines_calls s)), []. rewrite app_nil_r. split; [destruct s; reflexivity|auto]. }
  assert (Hw : forall p, 0 <= p -> p + 4 <= MAX_PAYLOAD_SIZE -> forall k : Z -> comp itrc Z,
    (forall v, wp F (k v) (fun _ s' => exists c new, s' = with_sent (itrc_sent s ++ new) (with_calls c s) /\
       (new = [] \/ exists addr port, new = [To_Client addr port f])) s) ->
    wp F (bind (load (tf_payload f) 4 p) k) (fun _ s' => exists c new, s' = with_sent (itrc_sent s ++ new) (with_calls c s) /\
       (new = [] \/ exists addr port, new = [To_Client addr port f])) s).
  { intros p Hp1 Hp2 k Hk. destruct (payload_word f p Hl Hp1 Hp2) as [v Hv].
    apply wp_bind. eapply wp_load_value; [exact Hv|]. apply Hk. }
  apply Hw; [discriminate..|]. intros type.
  destruct (type =? RTU_FEEDBACK_T).
  { apply Hw; [discriminate..|]. intros sub. destruct (key_value_get _ _); [apply Hsend|apply wp_ret, Hsame]. }
  destruct (type =? HMI_UPDATE_T); [apply Hw; [discriminate..|]; intros; apply Hsend|].
  destruct (type =? BENCHMARK_T); [apply Hw; [discriminate..|]; intros; apply Hsend|apply wp_ret, Hsame].
Qed.

Lemma itrc_ok_ext s s' : tcq_pending s' = tcq_pending s -> applied_ord s' = applied_ord s ->
  stq_pending s' = stq_pending s -> progress s' = progress s -> up_hist s' = up_hist s ->
  pending_updates s' = pending_updates s -> itrc_ok s -> itrc_ok s'.
Proof. intros E1 E2 E3 E4 E5 E6 []. split; rewrite ?E1, ?E2, ?E3, ?E4, ?E5, ?E6; assumption. Qed.

Lemma itrc_ok_deliver s a q : itrc_ok s -> is_cc = true -> sorted_queue tn_ord q -> all_after tn_ord a q ->
  Forall tc_ok q -> itrc_ok (with_applied a (with_tcq q s)).
Proof. intros [] Hcc H1 H2 H3. split; cbn; auto. congruence. Qed.

Lemma wp_deliver_ready fuel : forall s, itrc_ok s -> is_cc = true -> (length (tcq_pending s) < fuel)%nat ->
  wp F (deliver_ready spines_ok My_ID locations fuel)
    (fun _ s' => itrc_ok s' /\ advances s s' /\ delivers s s') s.
Proof.
  induction fuel as [|fuel IH]; intros s Hs Hcc Hf; [lia|]. cbn [deliver_ready].
  unfold ITRC_TC_Ready_Deliver. apply wp_bind, wp_bind, wp_get.
  pose proof (tc_ready_spec (tcq_pending s) (applied_ord s) (io_tcq s Hs) (io_after s Hs) (io_tc s Hs)) as Hr.
  destruct (tc_ready My_ID (applied_ord s) (tcq_pending s)) as [[r a] q]. destruct Hr as (A & B & C & D & E).
  apply wp_bind, wp_put, wp_ret. pose proof (itrc_ok_deliver s a q Hs Hcc A B C) as Hs'.
  destruct r as [[f|]|].
  - destruct E as (E1 & E2 & E3 & E4 & E5). apply wp_bind.
    eapply wp_conseq; [apply wp_ITRC_Send_TC_Final, E4|]. intros r s1 (c & new & -> & Hnew).
    set (s1 := with_sent _ _).
    assert (Hs1 : itrc_ok s1) by (eapply itrc_ok_ext; [..|exact Hs']; reflexivity).
    assert (Hadv : advances s s1).
    { exists new. split; [reflexivity|]. rewrite Hcc. destruct Hnew as [->|(addr & port & ->)].
      - split; [constructor|]. cbn. ords.
      - split; [repeat constructor; exact E3|]. cbn. split; ords. }
    assert (Hdel : delivers s s1).
    { split; [reflexivity|]. exists new. split; [reflexivity|]. destruct Hnew as [->|(addr & port & ->)]; reflexivity. }
    destruct (r <? 0).
    + apply wp_bind, wp_get, wp_put. split; [eapply itrc_ok_ext; [..|exact Hs1]; reflexivity|].
      split; [|exact Hdel]. eapply advances_trans; [exact Hadv|]. apply advances_refl; reflexivity.
    + eapply wp_conseq; [apply IH; [exact Hs1|exact Hcc|cbn; lia]|]. intros ? s2 (H1 & H2 & H3).
      split; [exact H1|]. split; [eapply advances_trans; eassumption|eapply delivers_trans; eassumption].
  - destruct E.
  - apply wp_ret. split; [exact Hs'|]. split; [|apply delivers_in; reflexivity].
    exists []. rewrite app_nil_r. rewrite Hcc. repeat split; [constructor|exact E].
Qed.

Lemma wp_deliver s : itrc_ok s -> is_cc = true ->
  wp F (deliver spines_ok My_ID locations) (fun _ s' => itrc_ok s' /\ advances s s' /\ delivers s s') s.
Proof. intros Hs Hcc. unfold deliver. apply wp_bind, wp_get, wp_deliver_ready; auto. Qed.

(** A share is put in the queue and what is finished is delivered. *)
Lemma wp_insert_deliver tcm sender flag s : itrc_ok s -> is_cc = true -> 1 <= sender <= NUM_SM ->
  Z.of_nat (length (ts_payload tcm)) = MAX_PAYLOAD_SIZE -> (flag =? SKIP_ORD = false -> Sent sender tcm) ->
  wp F (ITRC_Insert_TC_ID My_ID tcm sender flag ;;; deliver spines_ok My_ID locations)
    (fun _ s' => itrc_ok s' /\ advances s s' /\ delivers s s') s.
Proof.
  intros Hs Hcc H1 H2 H3. apply wp_bind. eapply wp_conseq; [apply wp_ITRC_Insert_TC_ID; eassumption|].
  intros ? s1 (Hs1 & q & ->). eapply wp_conseq; [apply wp_deliver; assumption|]. intros ? s2 (A & B & C).
  split; [exact A|]. split.
  - eapply advances_trans; [|exact B]. apply advances_refl; reflexivity.
  - eapply delivers_trans; [|exact C]. split; [reflexivity|]. exists []. rewrite app_nil_r. auto.
Qed.

(** ** State transfer *)
(** What is kept of a received state. *)
Definition received (st : state_xfer_msg) : state_xfer_msg :=
  mkStateXfer (sx_ord st) (sx_target st) (sx_latest_update st) (sx_num_clients st) (sx_state_size st)
    (take (Z.to_nat (sx_state_size st)) (sx_contents st)).

(** It fits the buffers: in the one it is received in, and in the one it is copied to. *)
Definition state_fits (st : state_xfer_msg) : Prop :=
  0 <= sx_state_size st <= Z.of_nat (length (sx_contents st)) /\
  sz_state_xfer_msg + sx_state_size st <= MAX_LEN /\
  Z.of_nat (length (sx_latest_update st)) = CLIENTS.

Lemma received_sized st : state_fits st -> state_sized (received st).
Proof. intros (H1 & H2 & H3). split; cbn; [rewrite length_take; lia|exact H3]. Qed.

Lemma st_ok_new o : st_ok (new_st_node o).
Proof.
  split; try reflexivity; try discriminate.
  - apply Forall_forall. intros m Hm. apply list_elem_of_In, repeat_spec in Hm. subst m. split; reflexivity.
  - intros i m Hi. apply aget_elem, list_elem_of_In, repeat_spec in Hi. discriminate.
Qed.

Lemma wp_copy_state st (Q : state_xfer_msg -> itrc -> Prop) s :
  state_fits st -> Q (received st) s -> wp F (copy_state st) Q s.
Proof.
  intros (H1 & H2 & H3) HQ. unfold copy_state. rewrite (proj2 (Z.ltb_ge _ _)) by lia.
  apply wp_bind. apply wp_load_bytes_at with (take (Z.to_nat (sx_state_size st)) (sx_contents st)); [|exact HQ].
  unfold slice, in_range. rewrite (proj2 (andb_true_iff _ _)); [reflexivity|]. split; [apply andb_true_iff; split|]; lia.
Qed.

Lemma digest_eq d1 d2 : OPENSSL_RSA_Digests_Equal (make_digest d1) (make_digest d2) = true <-> make_digest d1 = make_digest d2.
Proof. apply Digests_Equal_spec; apply crypto_ok. Qed.

Lemma match_count_agreed n i m : st_ok n -> aget (sn_recvd n) i = Some true -> aget (sn_state n) i = Some m ->
  REQ_SHARES <= match_count (state_digest m) n -> agreed m.
Proof.
  intros Hn Hi Hm Hc. destruct (no_from n Hn i m Hi Hm) as [Hv Ho]. split; [eauto|].
  unfold match_count in Hc. eexists. split; [|split; [exact Hc|]].
  - apply NoDup_ListNoDup, List.NoDup_filter, NoDup_ListNoDup, NoDup_seqZ.
  - apply Forall_forall. intros j Hj%list_elem_of_In. apply filter_In in Hj as [Hj Hf].
    apply list_elem_of_In, elem_of_seqZ in Hj. split; [lia|].
    apply andb_true_iff in Hf as [Hr Hs]. apply flag_at_true in Hr.
    destruct (aget (sn_state n) j) as [m'|] eqn:Em; [|discriminate]. apply digest_eq in Hs.
    destruct (no_from n Hn j m' Hr Em) as [Hv' Ho']. exists m'. repeat split; auto; try (unfold ord_eq in *; lia).
Qed.

Lemma st_ok_heard n i m recvd state : st_ok n -> aget (sn_recvd n) i = Some false ->
  aset (sn_recvd n) i true = Some recvd -> aset (sn_state n) i m = Some state ->
  Vouched i m -> ord_eq (sx_ord m) (sn_ord n) -> state_sized m -> st_ok (st_heard recvd state n).
Proof.
  intros Hn Hi Hr Hs Hv Ho Hm. split; cbn.
  - rewrite (aset_length _ _ _ _ Hr). apply Hn.
  - rewrite (aset_length _ _ _ _ Hs). apply Hn.
  - eapply aset_Forall; [exact Hs|apply Hn|exact Hm].
  - intros j mj. rewrite (aget_aset _ _ _ _ _ Hr), (aget_aset _ _ _ _ _ Hs).
    destruct (Z.eq_dec i j) as [<-|]; [|apply Hn]. intros _ [= <-]. auto.
  - intros Hc. destruct (no_result n Hn Hc) as (j & mj & E1 & E2 & E3 & E4). exists j, mj.
    assert (i <> j) by congruence. rewrite (aget_aset_ne _ _ _ _ _ Hr), (aget_aset_ne _ _ _ _ _ Hs) by assumption. auto.
Qed.

Lemma itrc_ok_stq s q : itrc_ok s -> sorted_queue sn_ord q -> Forall st_ok q -> itrc_ok (with_stq q s).
Proof. intros [] H1 H2. split; cbn; auto. Qed.

(** The queue has a node of the ordinal whose state is agreed on. *)
Definition has_result (o : ordinal) (q : list st_node) : Prop :=
  exists n, In n q /\ ord_eq o (sn_ord n) /\ sn_collected n = true.

Lemma wp_set_st s q1 n n' q2 i : itrc_ok (with_stq (q1 ++ n :: q2) s) -> i = Z.of_nat (length q1) ->
  sn_ord n' = sn_ord n -> st_ok n' ->
  wp F (set_st i n') (fun _ s' => itrc_ok s' /\ s' = with_stq (q1 ++ n' :: q2) s) (with_stq (q1 ++ n :: q2) s).
Proof.
  intros Hs -> Eo Hn'. unfold set_st. apply wp_bind, wp_get, wp_bind. cbn [stq_pending with_stq].
  rewrite aset_mid. apply wp_ret, wp_put. split; [|reflexivity].
  change (with_stq (q1 ++ n' :: q2) _) with (with_stq (q1 ++ n' :: q2) s).
  destruct Hs as [A B C D E G H I J]. cbn in *. split; cbn; auto.
  - eapply sorted_set; [exact Eo|exact E].
  - rewrite Forall_app, Forall_cons in *. tauto.
Qed.

Definition inserted (o : ordinal) (s : itrc) (r : bool) (s' : itrc) : Prop :=
  itrc_ok s' /\ exists q, s' = with_stq q s /\
    (r = true -> ord_lt (applied_ord s) o /\ ord_le (recvd_ord s) o /\ has_result o q).

Lemma wp_ITRC_Insert_ST_ID st sender s : itrc_ok s -> 1 <= sender <= NUM_SM ->
  (sender <> My_ID -> state_fits st /\ Vouched sender (received st)) ->
  wp F (ITRC_Insert_ST_ID My_ID st sender) (inserted (sx_ord st) s) s.
Proof.
  intros Hs Hsender Hst. unfold ITRC_Insert_ST_ID. apply wp_bind, wp_get.
  destruct (_ || _) eqn:Eold.
  { apply wp_ret. split; [exact Hs|]. exists (stq_pending s). split; [destruct s; reflexivity|discriminate]. }
  assert (Hnew : ord_lt (applied_ord s) (sx_ord st) /\ ord_le (recvd_ord s) (sx_ord st)).
  { apply orb_false_iff in Eold as [E1 E2]. destruct (Ord_Compare_cases (sx_ord st) (recvd_ord s)) as [[H1 E]|[[H1 E]|[H1 E]]];
      rewrite E in E1; try discriminate; compare_ords (sx_ord st) (applied_ord s); try discriminate; ords. }
  destruct (slot_spec sn_ord new_st_node (fun _ => eq_refl) (sx_ord st) (stq_pending s) (io_stq s Hs))
    as (q1 & n & q2 & -> & Hsort & Ho & Hq).
  assert (Hok : itrc_ok (with_stq (q1 ++ n :: q2) s)).
  { apply itrc_ok_stq; auto. pose proof (io_st s Hs) as Ht. destruct Hq as [E|[E ->]]; rewrite E in *; [exact Ht|].
    pose proof (st_ok_new (sx_ord st)). rewrite Forall_app, Forall_cons in *. tauto. }
  assert (Hn : st_ok n) by (pose proof (io_st _ Hok) as H; cbn in H; rewrite Forall_app, Forall_cons in H; tauto).
  apply wp_bind, wp_put, wp_bind. rewrite aget_mid. apply wp_ret.
  assert (Hend : forall n', sn_ord n' = sn_ord n -> st_ok n' ->
    wp F (set_st (Z.of_nat (length q1)) n' ;;; ret (sn_collected n' && sn_signaled n')) (inserted (sx_ord st) s)
      (with_stq (q1 ++ n :: q2) s)).
  { intros n' Eo Hn'. apply wp_bind. eapply wp_conseq; [eapply wp_set_st; eauto|]. intros ? t (Ht & ->).
    apply wp_ret. split; [exact Ht|]. eexists. split; [reflexivity|].
    intros [Hc _]%andb_true_iff. repeat split; try apply Hnew. exists n'. rewrite Eo. repeat split; try apply Ho; [|exact Hc].
    apply in_or_app. right. left. reflexivity. }
  destruct (Z.eqb_spec sender My_ID) as [->|Hne].
  { apply Hend; [reflexivity|]. destruct Hn. split; auto. }
  destruct (Hst Hne) as [Hfit Hv].
  assert (Hrange : 0 <= sender < Z.of_nat (length (sn_recvd n))) by (rewrite (no_recvd n Hn); unfold MAX_SHARES, SM_NUM_F, SM_NUM_K; unfold NUM_SM in Hsender; lia).
  destruct (aget_is_Some (sn_recvd n) sender Hrange) as [b Eb]. rewrite Eb. apply wp_bind, wp_ret.
  destruct b; [apply wp_ret; split; [exact Hok|]; eexists; split; [reflexivity|discriminate]|].
  apply wp_bind, wp_aset_in; [exact Hrange|]. intros recvd Er.
  apply wp_bind, wp_copy_state; [exact Hfit|].
  apply wp_bind, wp_aset_in; [rewrite (no_state n Hn), <- (no_recvd n Hn); exact Hrange|]. intros state Es.
  assert (Hn' : st_ok (st_heard recvd state n)) by (eapply st_ok_heard; eauto using received_sized).
  destruct (_ && _ && _) eqn:Ec; apply Hend; auto.
  apply andb_true_iff in Ec as [_ Ec]. apply Z.leb_le in Ec.
  assert (E1 : aget (sn_recvd (st_heard recvd state n)) sender = Some true) by (cbn; eapply aget_aset_eq, Er).
  assert (E2 : aget (sn_state (st_heard recvd state n)) sender = Some (received st)) by (cbn; eapply aget_aset_eq, Es).
  pose proof (match_count_agreed _ _ _ Hn' E1 E2 Ec) as Hag.
  destruct Hn'. split; auto. intros _. exists sender, (received st). auto.
Qed.

(** The one node of the ordinal gives the message. *)
Lemma wp_st_result o q (s : itrc) : forall mess, sorted_queue sn_ord q -> Forall st_ok q ->
  (has_result o q \/ exists m0, agreed m0 /\ state_sized m0 /\ all_after sn_ord o q /\
     mess = Some (PKT_Construct_State_Xfer_Msg (sx_target m0) (sx_num_clients m0) (sx_latest_update m0) (sx_contents m0))) ->
  wp F (st_result o q mess)
    (fun r s' => s' = s /\ exists m0, agreed m0 /\ state_sized m0 /\
       r = Some (PKT_Construct_State_Xfer_Msg (sx_target m0) (sx_num_clients m0) (sx_latest_update m0) (sx_contents m0))) s.
Proof.
  induction q as [|n q IH]; intros mess Hs Hn Hr; cbn [st_result].
  { destruct Hr as [(n & [] & _)|(m0 & A & B & _ & ->)]. apply wp_ret. eauto. }
  inversion Hs as [|? ? Hs1 Hs2]; subst. inversion Hn as [|? ? Hn1 Hn2]; subst.
  destruct Hr as [(n' & Hin & Ho & Hc)|(m0 & A & B & C & ->)].
  - assert (Hle : ord_le (sn_ord n) o).
    { destruct Hin as [->|Hin]; [right; unfold ord_eq in *; lia|]. rewrite Forall_forall in Hs2.
      specialize (Hs2 n' (proj2 (list_elem_of_In _ _) Hin)). cbn in Hs2. ords. }
    destruct (Ord_Compare_cases (sn_ord n) o) as [[H E]|[[H E]|[H E]]]; rewrite E; cbn; [| |ords].
    + apply wp_bind, wp_ret. apply IH; auto. left. exists n'. destruct Hin as [->|Hin]; [ords|auto].
    + assert (n' = n) as ->.
      { destruct Hin as [->|Hin]; [reflexivity|]. rewrite Forall_forall in Hs2.
        specialize (Hs2 n' (proj2 (list_elem_of_In _ _) Hin)). cbn in Hs2. exfalso. ords. }
      destruct (no_result n Hn1 Hc) as (i & m & E1 & E2 & E3 & E4). rewrite E1.
      apply wp_bind, wp_bind. rewrite E3. apply wp_ret, wp_ret. apply IH; auto. right. exists m.
      split; [exact E4|]. split; [|split; [|reflexivity]].
      * pose proof (no_sizes n Hn1) as Hz. rewrite Forall_forall in Hz. apply (Hz m), (aget_elem _ _ _ E3).
      * eapply Forall_impl; [exact Hs2|]. cbn. intros a Ha. ords.
  - inversion C as [|? ? C1 C2]; subst.
    destruct (Ord_Compare_cases (sn_ord n) o) as [[H E]|[[H E]|[H E]]]; rewrite E; cbn; [ords|ords|].
    split; [reflexivity|]. exists m0. auto.
Qed.

(** What a transfer leaves alone. *)
Definition rest_transfer (s : itrc) :=
  (recvd_ord s, ord_queue s, pending_updates s, up_hist s, recvd_first_ordinal s, sp_int_up s, sp_ext_up s).

Lemma wp_ITRC_Apply_State_Transfer o s : itrc_ok s -> ord_lt (applied_ord s) o -> has_result o (stq_pending s) ->
  wp F (ITRC_Apply_State_Transfer o)
    (fun _ s' => itrc_ok s' /\ advances s s' /\ rest_transfer s' = rest_transfer s /\
       collecting_signal s' = false) s.
Proof.
  intros Hs Ho Hr. unfold ITRC_Apply_State_Transfer. apply wp_bind, wp_get, wp_bind.
  eapply wp_conseq; [apply wp_st_result; [apply Hs|apply Hs|left; exact Hr]|].
  intros r ? (-> & m0 & Hag & [Hz1 Hz2] & ->). apply wp_bind, wp_put.
  unfold emit_out. apply wp_bind, wp_bind, wp_get, wp_put, wp_bind, wp_get, wp_put.
  split; [|split; [|auto]].
  - destruct Hs as [A B C D E G H I J]. split; cbn; auto.
    + apply drop_through_sorted, A.
    + apply drop_through_after, A.
    + apply drop_through_Forall, C.
    + intros Hcc. rewrite (D Hcc). reflexivity.
    + apply drop_through_sorted, E.
    + apply drop_through_Forall, G.
  - eexists. split; [reflexivity|]. split.
    + repeat constructor. exists m0. auto.
    + cbn. destruct is_cc; [left; exact Ho|reflexivity].
Qed.

(** ** Ordered updates *)
(** An output that is no message to a client and no state. *)
Definition plain (o : itrc_out) : bool :=
  match o with To_Client _ _ _ | To_SM (STATE_XFER _ _) => false | _ => true end.

Lemma advances_plain s s' new : itrc_sent s' = itrc_sent s ++ new -> applied_ord s' = applied_ord s ->
  forallb plain new = true -> advances s s'.
Proof.
  intros E1 E2 Hp. exists new. split; [exact E1|].
  assert (H : Forall out_ok new /\ client_ords new = []).
  { clear E1. induction new as [|o l IH]; [split; constructor|]. cbn in Hp. apply andb_true_iff in Hp as [Ho Hl].
    destruct (IH Hl) as [A B]. split.
    - constructor; [|exact A]. destruct o as [[]| | | |]; try discriminate; exact I.
    - destruct o; try discriminate; exact B. }
  split; [apply H|]. destruct H as [_ ->]. destruct is_cc; [cbn; rewrite E2; ords|reflexivity].
Qed.

Definition goes_on (s : itrc) (s' : itrc) : Prop := itrc_ok s' /\ advances s s'.

Lemma goes_on_after s1 s2 s3 : advances s1 s2 -> goes_on s2 s3 -> goes_on s1 s3.
Proof. intros A [B C]. split; [exact B|]. eapply advances_trans; eassumption. Qed.

Lemma goes_on_same s s' : itrc_ok s' -> itrc_sent s' = itrc_sent s -> applied_ord s' = applied_ord s -> goes_on s s'.
Proof. intros H1 H2 H3. split; [exact H1|]. apply advances_refl; assumption. Qed.

(** Two steps of a handler in a row. *)
Lemma wp_goes_on {A} (m : comp itrc A) (k : A -> comp itrc unit) s :
  wp F m (fun _ s' => goes_on s s') s ->
  (forall a s', itrc_ok s' -> wp F (k a) (fun _ => goes_on s') s') ->
  wp F (bind m k) (fun _ => goes_on s) s.
Proof.
  intros Hm Hk. apply wp_bind. eapply wp_conseq; [exact Hm|]. intros a s' [H1 H2].
  eapply wp_conseq; [apply Hk, H1|]. intros ? s''. apply goes_on_after, H2.
Qed.

Lemma wp_skip_slot o s : itrc_ok s ->
  wp F (skip_slot spines_ok My_ID is_cc locations o) (fun _ s' => goes_on s s' /\ delivers s s') s.
Proof.
  intros Hs. unfold skip_slot. destruct is_cc eqn:Hcc.
  - eapply wp_conseq.
    { apply wp_insert_deliver; [exact Hs|exact Hcc|exact My_ID_range|reflexivity|discriminate]. }
    intros ? s' (A & B & C). split; [split|]; assumption.
  - apply wp_ret. split; [apply goes_on_same; auto|apply delivers_refl].
Qed.

Lemma itrc_ok_stq_through s o : itrc_ok s -> itrc_ok (with_stq (drop_through sn_ord o (stq_pending s)) s).
Proof. intros Hs. apply itrc_ok_stq; [exact Hs|apply drop_through_sorted, Hs|apply drop_through_Forall, Hs]. Qed.

Lemma wp_own_transfer o s : itrc_ok s ->
  wp F (own_transfer My_ID is_cc o) (fun _ => goes_on s) s.
Proof.
  intros Hs. unfold own_transfer. apply wp_bind, wp_get. destruct (ITRC_Ord_Consec (recvd_ord s) o); cbn [negb].
  - apply wp_put. pose proof (itrc_ok_stq_through s o Hs) as Hs'. destruct is_cc eqn:Hcc.
    + apply goes_on_same; auto.
    + split.
      * destruct Hs' as [A B C D E G H I J]. split; cbn in *; auto. rewrite (D Hcc). constructor.
      * exists []. rewrite app_nil_r, Hcc. repeat split. constructor.
  - apply wp_bind, wp_put, wp_bind.
    assert (Hs0 : itrc_ok (with_collecting true s)) by (eapply itrc_ok_ext; [..|exact Hs]; reflexivity).
    eapply wp_conseq; [apply wp_ITRC_Insert_ST_ID; [exact Hs0|exact My_ID_range|intros []; reflexivity]|].
    intros r s1 (Hs1 & q & -> & Hr). destruct r.
    + destruct (Hr eq_refl) as (A & B & C). eapply wp_conseq; [apply wp_ITRC_Apply_State_Transfer; auto|].
      intros ? s2 (H1 & H2 & _). split; [exact H1|]. eapply advances_trans; [|exact H2]. apply advances_refl; reflexivity.
    + apply wp_ret, goes_on_same; auto.
Qed.

Lemma wp_is_duplicate b s (Q : bool -> itrc -> Prop) : itrc_ok s ->
  (match b with Client_Update _ m => match seq_and_idx m with Some (_, idx) => 0 <= idx < CLIENTS | None => True end | _ => True end) ->
  (forall d, Q d s) -> wp F (is_duplicate b) Q s.
Proof.
  intros Hs Hb HQ. unfold is_duplicate. destruct b as [| | |len m]; try apply wp_ret, HQ.
  destruct (seq_and_idx m) as [[ps idx]|]; [|apply wp_ret, HQ].
  apply wp_bind, wp_get, wp_bind. rewrite <- (io_progress s Hs) in Hb.
  destruct (aget_is_Some (progress s) idx Hb) as [p ->]. apply wp_ret, wp_ret, HQ.
Qed.

Lemma wp_hand_on o mess s : itrc_ok s -> prime_sized mess -> wp F (hand_on o (pm_body mess)) (fun _ => goes_on s) s.
Proof.
  intros Hs [_ Hm]. unfold hand_on. apply wp_bind, wp_get, wp_bind, wp_put.
  assert (Hs0 : itrc_ok (with_ord_queue (ord_queue s ++ [o]) s)) by (eapply itrc_ok_ext; [..|exact Hs]; reflexivity).
  destruct (pm_body mess) as [|id| |len m]; try (apply wp_ret, goes_on_same; [exact Hs0|reflexivity..]).
  - apply wp_bind, wp_get. unfold emit_out. apply wp_bind, wp_get, wp_put.
    split; [eapply itrc_ok_ext; [..|exact Hs0]; reflexivity|]. eapply advances_plain; reflexivity.
  - destruct Hm as [Hlen Hidx]. destruct (seq_and_idx m) as [[ps idx]|] eqn:Em; [|apply wp_ret, goes_on_same; [exact Hs0|reflexivity..]].
    apply wp_bind, wp_get, wp_bind, wp_aset_in; [cbn; rewrite (io_progress s Hs); exact Hidx|]. intros pr Epr.
    apply wp_bind, wp_put. rewrite (proj2 (Z.ltb_ge _ _)) by lia.
    apply wp_bind, wp_get, wp_bind, wp_aset_in; [cbn; rewrite (io_up_hist s Hs); exact Hidx|]. intros up Eup.
    apply wp_bind, wp_put. unfold emit_out. apply wp_bind, wp_get, wp_put. split.
    + destruct Hs0 as [A B C D E G H I J]. split; cbn in *; auto.
      * rewrite (aset_length _ _ _ _ Epr). exact H.
      * rewrite (aset_length _ _ _ _ Eup). exact I.
    + apply advances_plain with [To_SM m]; try reflexivity. destruct m; try reflexivity. discriminate Em.
Qed.

Lemma wp_ITRC_Process_Prime_Ordinal o mess s : itrc_ok s -> prime_sized mess ->
  wp F (ITRC_Process_Prime_Ordinal spines_ok My_ID is_cc locations o mess) (fun _ => goes_on s) s.
Proof.
  intros Hs Hm. unfold ITRC_Process_Prime_Ordinal. apply wp_bind, wp_get.
  destruct (collecting_signal s).
  { rewrite (proj2 (Z.ltb_ge _ _)) by apply Hm. apply wp_put, goes_on_same; try reflexivity.
    destruct Hs. split; cbn; auto. apply Forall_app. auto. }
  destruct (_ && _); [apply wp_ret, goes_on_same; auto|].
  apply wp_goes_on.
  { destruct (Valid_From_Prime _ _); [|apply wp_ret, goes_on_same; auto].
    apply wp_is_duplicate; [exact Hs| |intros d; apply goes_on_same; auto].
    destruct Hm as [_ Hm]. destruct (pm_body mess); try exact I. apply Hm. }
  intros duplicate s1 Hs1. apply wp_goes_on.
  { destruct (_ || _); [|apply wp_ret, goes_on_same; auto].
    eapply wp_conseq; [apply wp_skip_slot, Hs1|]. intros ? s2 [H _]. exact H. }
  intros ? s2 Hs2. apply wp_goes_on.
  { destruct (transfer_to_me _ _); [apply wp_own_transfer, Hs2|apply wp_ret, goes_on_same; auto]. }
  intros ? s3 Hs3. apply wp_bind, wp_get, wp_bind, wp_put.
  assert (Hs3' : itrc_ok (with_recvd o s3)) by (eapply itrc_ok_ext; [..|exact Hs3]; reflexivity).
  destruct (_ || _); [apply wp_ret, goes_on_same; auto|].
  eapply wp_conseq; [apply wp_hand_on; eassumption|]. intros ? s4. apply goes_on_after. apply advances_refl; reflexivity.
Qed.

Lemma wp_replay l : forall s, itrc_ok s -> Forall prime_sized l ->
  wp F (replay spines_ok My_ID is_cc locations l) (fun _ => goes_on s) s.
Proof.
  induction l as [|mess l IH]; intros s Hs Hl; cbn [replay]; [apply wp_ret, goes_on_same; auto|].
  apply Forall_cons in Hl as [Hm Hl]. apply wp_bind, wp_get.
  destruct (collecting_signal s); [apply wp_ret, goes_on_same; auto|].
  apply wp_goes_on.
  { destruct (_ <? _); [apply wp_ITRC_Process_Prime_Ordinal; assumption|apply wp_ret, goes_on_same; auto]. }
  intros ? s1 Hs1. apply wp_bind, wp_get, wp_bind, wp_put.
  eapply wp_conseq; [apply IH; [|exact Hl]|].
  - destruct Hs1. split; cbn; auto. destruct (pending_updates s1) as [|x p]; [constructor|].
    match goal with H : Forall prime_sized (x :: p) |- _ => apply Forall_cons in H as [_ H]; exact H end.
  - intros ? s2. apply goes_on_after. apply advances_refl; reflexivity.
Qed.

(** ** Events *)
Hypothesis F_assert : F AssertFailure.

Lemma wp_asserts c s (Q : unit -> itrc -> Prop) : (c = true -> Q tt s) -> wp F (assert_ c) Q s.
Proof. unfold assert_. destruct c; intros H; [apply wp_ret, H; reflexivity|apply wp_raise, F_assert]. Qed.

Lemma wp_after_transfer s : itrc_ok s -> wp F (after_transfer spines_ok My_ID is_cc locations) (fun _ => goes_on s) s.
Proof.
  intros Hs. unfold after_transfer. apply wp_bind, wp_get.
  destruct (completed_transfer s); [|apply wp_ret, goes_on_same; auto].
  apply wp_bind, wp_asserts. intros _. apply wp_bind, wp_put.
  eapply wp_conseq; [apply wp_replay; [eapply itrc_ok_ext; [..|exact Hs]; reflexivity|apply Hs]|].
  intros ? s1. apply goes_on_after. apply advances_refl; reflexivity.
Qed.

(** What the receive buffers hold of an event. *)
Definition sized (e : event) : Prop :=
  match e with
  | From_Prime m => prime_sized m
  | From_SM (Sm_Client bs) => sz_scada_message <= Z.of_nat (length bs) <= MAX_PAYLOAD_SIZE
  | From_SM (Sm_State m) => 1 <= sx_target m <= NUM_SM
  | From_Internal (Some m) =>
      match im_body m with
      | TC_SHARE tcm => Z.of_nat (length (ts_payload tcm)) = MAX_PAYLOAD_SIZE
      | Int_State st => state_fits st
      | Int_Other => True
      end
  | _ => True
  end.

(** The share a replica makes of its master's answer. *)
Definition own_share (o : ordinal) (bs : list byte) : tc_share_msg :=
  let payload := bs ++ zeros (MAX_PAYLOAD_SIZE - Z.of_nat (length bs)) in
  mkShare o payload (genIndSig My_ID (tc_digest o payload)).

Definition heard (e : event) : Prop :=
  match e with
  | From_SM (Sm_Client bs) => forall o, Sent My_ID (own_share o bs)
  | From_Internal (Some m) =>
      RSA_Verify_Internal m = true ->
      match im_body m with
      | TC_SHARE tcm => Sent (im_machine_id m) tcm
      | Int_State st => Vouched (im_machine_id m) (received st)
      | Int_Other => True
      end
  | _ => True
  end.

Definition is_reset (e : event) : bool :=
  match e with From_Prime m => match pm_body m with PRIME_SYSTEM_RESET _ => true | _ => false end | _ => false end.

(** What an event leads to; a reset starts the ordinals again. *)
Definition event_post (e : event) (s s' : itrc) : Prop :=
  itrc_ok s' /\
  if is_reset e then itrc_sent s' = itrc_sent s ++ [To_SM SYSTEM_RESET] /\ applied_ord s' = zero_ord
  else advances s s'.

Lemma wp_from_prime m s : itrc_ok s -> prime_sized m ->
  wp F (from_prime spines_ok My_ID is_cc locations m) (fun _ => event_post (From_Prime m) s) s.
Proof.
  intros Hs Hm. unfold from_prime, event_post, is_reset.
  assert (Hgo : wp F (s <- get ;;
      (if negb (recvd_first_ordinal s) && negb (ITRC_Ord_Consec (recvd_ord s) (pm_ord m))
       then emit_out To_Inject else ret tt) ;;;
      s <- get ;;
      put (with_first true s) ;;;
      if ITRC_Ord_Compare (pm_ord m) (recvd_ord s) <=? 0 then ret tt else
      ITRC_Process_Prime_Ordinal spines_ok My_ID is_cc locations (pm_ord m) m ;;;
      after_transfer spines_ok My_ID is_cc locations) (fun _ s' => goes_on s s') s).
  { apply wp_bind, wp_get, wp_goes_on.
    { destruct (_ && _); [|apply wp_ret, goes_on_same; auto]. unfold emit_out. apply wp_bind, wp_get, wp_put.
      split; [eapply itrc_ok_ext; [..|exact Hs]; reflexivity|]. eapply advances_plain; reflexivity. }
    intros ? s1 Hs1. apply wp_bind, wp_get, wp_bind, wp_put.
    assert (Hs1' : itrc_ok (with_first true s1)) by (eapply itrc_ok_ext; [..|exact Hs1]; reflexivity).
    destruct (_ <=? 0); [apply wp_ret, goes_on_same; auto|].
    eapply wp_conseq; [apply wp_goes_on; [apply wp_ITRC_Process_Prime_Ordinal; assumption|intros; apply wp_after_transfer; assumption]|].
    intros ? s2. apply goes_on_after. apply advances_refl; reflexivity. }
  destruct (pm_body m); try exact Hgo.
  apply wp_bind, wp_asserts. intros _. unfold ITRC_Reset_Master_Data_Structures, emit_out.
  apply wp_bind, wp_bind, wp_get, wp_put, wp_bind, wp_get, wp_put. split; [|auto].
  destruct Hs. split; cbn; auto; constructor.
Qed.

Lemma wp_spines_sendto up o s (Q : bool -> itrc -> Prop) :
  (forall ok c new, new = [] \/ new = [o] -> Q ok (with_sent (itrc_sent s ++ new) (with_calls c s))) ->
  wp F (spines_sendto spines_ok up o) Q s.
Proof.
  intros HQ. unfold spines_sendto, emit_out. apply wp_bind, wp_get, wp_bind, wp_put.
  destruct (up && _).
  - apply wp_bind, wp_bind, wp_get, wp_put, wp_ret. apply (HQ true _ [o]). auto.
  - apply wp_ret. specialize (HQ false (S (spines_calls s)) [] (or_introl eq_refl)). rewrite app_nil_r in HQ.
    destruct s; exact HQ.
Qed.

Lemma wp_send_shares m l : forall s, itrc_ok s -> wp F (send_shares spines_ok My_ID m l) (fun _ => goes_on s) s.
Proof.
  induction l as [|i l IH]; intros s Hs; cbn [send_shares]; [apply wp_ret, goes_on_same; auto|].
  destruct (i =? My_ID); [apply IH, Hs|]. apply wp_bind, wp_get, wp_goes_on.
  - apply wp_spines_sendto. intros ok c new Hnew. split; [eapply itrc_ok_ext; [..|exact Hs]; reflexivity|].
    destruct Hnew as [->| ->]; eapply advances_plain; reflexivity.
  - intros ok s1 Hs1. destruct ok; [apply IH, Hs1|]. apply wp_bind, wp_get, wp_put.
    apply goes_on_same; try reflexivity. eapply itrc_ok_ext; [..|exact Hs1]; reflexivity.
Qed.

Lemma wp_pop_ordinal s : itrc_ok s -> wp F pop_ordinal (fun _ => goes_on s) s.
Proof.
  intros Hs. unfold pop_ordinal. apply wp_bind, wp_get. destruct (ord_queue s); [apply wp_raise, F_assert|].
  apply wp_bind, wp_put, wp_ret, goes_on_same; try reflexivity. eapply itrc_ok_ext; [..|exact Hs]; reflexivity.
Qed.

Lemma wp_from_sm r s : itrc_ok s -> sized (From_SM r) -> heard (From_SM r) ->
  wp F (from_sm spines_ok My_ID is_cc locations r) (fun _ => goes_on s) s.
Proof.
  intros Hs Hz Hh. destruct r as [bs|m]; cbn [from_sm sized heard] in *.
  - apply wp_bind. destruct (word_defined bs 4 o_message_type) as [type Et];
      [discriminate|discriminate|unfold o_message_type, sz_scada_message in *; lia|].
    eapply wp_load_value; [exact Et|]. destruct (_ || _); [|apply wp_ret, goes_on_same; auto].
    apply wp_goes_on; [apply wp_pop_ordinal, Hs|]. intros o s1 Hs1. unfold PKT_Construct_TC_Share_Msg.
    rewrite (proj2 (Z.ltb_ge _ _)) by lia. cbv zeta. fold (own_share o bs). apply wp_bind, wp_ret.
    apply wp_goes_on.
    { destruct is_cc eqn:Hcc; [|apply wp_ret, goes_on_same; auto].
      eapply wp_conseq; [apply wp_insert_deliver; auto|].
      - cbn. rewrite length_app. unfold zeros. rewrite repeat_length. lia.
      - intros ? s2 (A & B & _). split; assumption. }
    intros ? s2 Hs2. apply wp_bind, wp_get. destruct (sp_int_up s2); cbn [negb]; [apply wp_send_shares, Hs2|].
    apply wp_ret, goes_on_same; auto.
  - apply wp_goes_on; [apply wp_pop_ordinal, Hs|]. intros o s1 Hs1. apply wp_bind, wp_get.
    destruct (sp_int_up s1) eqn:Eu; cbn [negb]; [|apply wp_ret, goes_on_same; auto].
    cbn [sx_target]. rewrite (proj2 (in_bounds_spec All_Sites (sx_target m - 1))); cbn [negb].
    2: { change (Z.of_nat (length All_Sites)) with 6. unfold NUM_SM in Hz. lia. }
    apply wp_goes_on.
    + apply wp_spines_sendto. intros ok c new Hnew. split; [eapply itrc_ok_ext; [..|exact Hs1]; reflexivity|].
      destruct Hnew as [->| ->]; eapply advances_plain; reflexivity.
    + intros ok s2 Hs2. destruct ok; [apply wp_ret, goes_on_same; auto|]. apply wp_bind, wp_get, wp_put.
      apply goes_on_same; try reflexivity. eapply itrc_ok_ext; [..|exact Hs2]; reflexivity.
Qed.

Lemma verified_range m : RSA_Verify_Internal m = true -> 1 <= im_machine_id m <= NUM_SM.
Proof.
  unfold RSA_Verify_Internal. destruct (im_machine_id m <? 1) eqn:E1; [discriminate|].
  destruct (NUM_SM <? im_machine_id m) eqn:E2; [discriminate|]. lia.
Qed.

Lemma wp_from_internal m s : itrc_ok s -> sized (From_Internal (Some m)) -> heard (From_Internal (Some m)) ->
  wp F (from_internal spines_ok My_ID is_cc locations m) (fun _ => goes_on s) s.
Proof.
  intros Hs Hz Hh. unfold from_internal. cbn [sized heard] in *.
  destruct (im_body m) as [tcm|st|]; [| |apply wp_ret, goes_on_same; auto].
  all: destruct (RSA_Verify_Internal m) eqn:Ev; cbn [negb]; [|apply wp_ret, goes_on_same; auto].
  all: specialize (Hh eq_refl); pose proof (verified_range m Ev) as Hr.
  - destruct is_cc eqn:Hcc; [|apply wp_ret, goes_on_same; auto].
    eapply wp_conseq; [apply wp_insert_deliver; auto|]. intros ? s1 (A & B & _). split; assumption.
  - apply wp_bind. eapply wp_conseq; [apply wp_ITRC_Insert_ST_ID; auto|].
    intros ready s1 (Hs1 & q & -> & Hready).
    eapply wp_conseq.
    2: { intros a s'. apply (goes_on_after s (with_stq q s)). apply advances_refl; reflexivity. }
    apply wp_goes_on; [|intros; apply wp_after_transfer; assumption].
    destruct ready; [|apply wp_ret, goes_on_same; auto]. destruct (Hready eq_refl) as (A & B & C).
    eapply wp_conseq; [apply wp_ITRC_Apply_State_Transfer; auto|]. intros ? s2 (H1 & H2 & _). split; assumption.
Qed.

Lemma wp_ITRC_Master e s : itrc_ok s -> sized e -> heard e ->
  wp F (ITRC_Master spines_ok My_ID is_cc locations e) (fun _ => event_post e s) s.
Proof.
  intros Hs Hz Hh. destruct e as [m|r|[m|]|i x]; cbn [ITRC_Master].
  - apply wp_from_prime; assumption.
  - apply wp_from_sm; assumption.
  - apply wp_bind, wp_get. destruct (sp_int_up s); [apply wp_from_internal; assumption|apply wp_ret, goes_on_same; auto].
  - apply wp_bind, wp_get, wp_put, goes_on_same; try reflexivity. eapply itrc_ok_ext; [..|exact Hs]; reflexivity.
  - apply wp_bind, wp_get, wp_put, goes_on_same; destruct (sp_int_up s); destruct (is_cc && negb _); try reflexivity;
      eapply itrc_ok_ext; try exact Hs; reflexivity.
Qed.

Lemma itrc_init_ok i x : itrc_ok (itrc_init i x).
Proof. split; cbn; try constructor; reflexivity. Qed.
End Invariant.
