(* ===== verification/ItrcFeed.v ===== *)
(** What a replica's master is given: the channel hands it the updates Prime
    ordered, each once and in order, and labels its answers with their ordinals,
    whatever the interleaving with shares, answers, states and failures. *)
From Stdlib Require Import ZArith Lia List Bool Sorting.Sorted.
From Stdlib Require Import Strings.Byte.
From stdpp Require Import base list.
From S2P Require Import Prelude Memory Config Crypto ScadaPackets ScadaGrid ScadaMaster KeyValue ItrcState Itrc ItrcCorrect.

(** ** The specification *)
(** Where the replica is in Prime's order, the last number of each client, and
    what the master was asked. *)
Record feed := mkFeed {
  fd_last : ordinal; fd_progress : list seq_pair; fd_asked : list (ordinal * sm_message) }.

(** What an ordered message asks of the master, and the numbers afterwards. *)
Definition asks (progress : list seq_pair) (b : prime_body) : option (sm_message * list seq_pair) :=
  match b with
  | Client_Update _ m =>
      match seq_and_idx m with
      | Some (ps, idx) =>
          match aget progress idx with
          | Some p =>
              if ITRC_Validate_Message m && (0 <? Seq_Pair_Compare ps p)
              then option_map (pair m) (aset progress idx ps) else None
          | None => None
          end
      | None => None
      end
  | PRIME_STATE_TRANSFER id =>
      if NUM_SM <? id then None else Some (STATE_REQUEST (mkStateRequest id progress), progress)
  | _ => None
  end.

Definition feed_step (f : feed) (m : prime_message) : feed :=
  if (ITRC_Ord_Compare (pm_ord m) (fd_last f) <=? 0) || negb (ITRC_Ord_Consec (fd_last f) (pm_ord m)) then f else
  match asks (fd_progress f) (pm_body m) with
  | None => mkFeed (pm_ord m) (fd_progress f) (fd_asked f)
  | Some (q, progress) => mkFeed (pm_ord m) progress (fd_asked f ++ [(pm_ord m, q)])
  end.

Definition feed_init : feed := mkFeed zero_ord zero_progress [].

(** Two messages at the same place of the order, from two replicas: a no-op
    carries the replica's own identifier. *)
Definition same_order (m1 m2 : prime_message) : Prop :=
  pm_ord m1 = pm_ord m2 /\
  (pm_body m1 = pm_body m2 \/ exists i j, pm_body m1 = PRIME_NO_OP i /\ pm_body m2 = PRIME_NO_OP j).

Lemma feed_step_same f m1 m2 : same_order m1 m2 -> feed_step f m1 = feed_step f m2.
Proof. unfold feed_step. intros [-> [->|(i & j & -> & ->)]]; reflexivity. Qed.

Lemma feed_step_asked f m : exists a, fd_asked (feed_step f m) = fd_asked f ++ a.
Proof.
  unfold feed_step. destruct (_ || _); [exists []; rewrite app_nil_r; reflexivity|].
  destruct (asks _ _) as [[q p]|]; [eauto|exists []; cbn; rewrite app_nil_r; reflexivity].
Qed.

Lemma feed_asked_grows ms : forall f, exists a, fd_asked (fold_left feed_step ms f) = fd_asked f ++ a.
Proof.
  induction ms as [|m ms IH]; intros f; [exists []; rewrite app_nil_r; reflexivity|].
  destruct (feed_step_asked f m) as [a E]. destruct (IH (feed_step f m)) as [b Eb].
  exists (a ++ b). cbn [fold_left]. rewrite Eb, E, app_assoc. reflexivity.
Qed.

(** The ordinals asked for grow. *)
Definition feed_sorted (f : feed) : Prop :=
  StronglySorted ord_lt (map fst (fd_asked f)) /\ Forall (fun e => ord_le (fst e) (fd_last f)) (fd_asked f).

Lemma feed_step_sorted f m : feed_sorted f -> feed_sorted (feed_step f m).
Proof.
  intros [H1 H2]. unfold feed_step.
  destruct (Ord_Compare_cases (pm_ord m) (fd_last f)) as [[Hc E]|[[Hc E]|[Hc E]]]; rewrite E; cbn; try (split; assumption).
  destruct (negb _); [split; assumption|].
  assert (H3 : Forall (fun e => ord_lt (fst e) (pm_ord m)) (fd_asked f))
    by (eapply Forall_impl; [exact H2|]; cbn; intros; ords).
  destruct (asks _ _) as [[q p]|]; split; cbn.
  - rewrite map_app. cbn. clear -H1 H3. induction (fd_asked f) as [|e l IH]; cbn in *; [repeat constructor|].
    inversion H1; subst. inversion H3; subst. constructor; [auto|]. apply Forall_app. auto.
  - apply Forall_app. split; [eapply Forall_impl; [exact H3|]; cbn; intros; left; assumption|].
    constructor; [right; split; reflexivity|constructor].
  - exact H1.
  - eapply Forall_impl; [exact H3|]. cbn. intros. left. assumption.
Qed.

Lemma feed_sorted_run ms : forall f, feed_sorted f -> feed_sorted (fold_left feed_step ms f).
Proof. induction ms; intros f H; cbn; [exact H|]. apply IHms, feed_step_sorted, H. Qed.

Lemma feed_init_sorted : feed_sorted feed_init.
Proof. split; constructor. Qed.

(** ** What a run of the channel has of it *)
Definition primes (es : list event) : list prime_message :=
  omap (fun e => match e with From_Prime m => Some m | _ => None end) es.

(** The answers the channel takes. *)
Definition is_answer (r : sm_reply) : bool :=
  match r with
  | Sm_State _ => true
  | Sm_Client bs =>
      match word_at bs 4 o_message_type with
      | Some type => (type =? HMI_UPDATE_T) || (type =? RTU_FEEDBACK_T) || (type =? BENCHMARK_T)
      | None => false
      end
  end.

Definition answers_in (es : list event) : list sm_reply :=
  omap (fun e => match e with From_SM r => if is_answer r then Some r else None | _ => None end) es.

Definition sm_inputs (l : list itrc_out) : list sm_message :=
  omap (fun o => match o with To_SM m => Some m | _ => None end) l.

(** A share or state sent to a replica answers the question of its ordinal. *)
Definition labelled (My_ID : Z) {C : Crypto} {T : Threshold} (o : ordinal) (r : sm_reply) (x : itrc_out) : Prop :=
  match x with
  | Share_To _ m => exists bs, r = Sm_Client bs /\ m = own_share My_ID o bs
  | State_To i m => exists st, r = Sm_State st /\ i = sx_target st /\
      m = mkStateXfer o (sx_target st) (sx_latest_update st) (sx_num_clients st) (sx_state_size st) (sx_contents st)
  | _ => False
  end.

Definition to_replica (x : itrc_out) : bool := match x with Share_To _ _ | State_To _ _ => true | _ => false end.

(** ** The channel under the specification *)
Section Feed.
Context {crypto : Crypto} {tc : Threshold} (spines_ok : nat -> bool).
Context (My_ID : Z) (is_cc : bool) (locations : key_value).

(** No event of a replica that neither resets nor takes a state in: no transfer
    is ordered for it, and it sends itself no state. *)
Definition calm (e : event) : Prop :=
  match e with
  | From_Prime m =>
      match pm_body m with
      | PRIME_SYSTEM_RESET _ => False
      | PRIME_STATE_TRANSFER id => id <> My_ID
      | _ => True
      end
  | From_Internal (Some m) => match im_body m with Int_State _ => im_machine_id m <> My_ID | _ => True end
  | _ => True
  end.

(** Nothing is being collected. *)
Definition quiet (s : itrc) : Prop :=
  collecting_signal s = false /\ completed_transfer s = false /\ pending_updates s = [] /\
  Forall (fun n => sn_signaled n = false) (stq_pending s).

(** *** What leaves the feed alone *)
Definition feed_part (s : itrc) :=
  (recvd_ord s, ord_queue s, progress s, collecting_signal s, completed_transfer s, pending_updates s).

(** Only clients are sent something. *)
Definition aside (s s' : itrc) : Prop :=
  feed_part s' = feed_part s /\ stq_pending s' = stq_pending s /\
  exists new, itrc_sent s' = itrc_sent s ++ new /\ forallb to_client new = true.

Lemma aside_same s s' : feed_part s' = feed_part s -> stq_pending s' = stq_pending s -> itrc_sent s' = itrc_sent s -> aside s s'.
Proof. intros H1 H2 H3. split; [exact H1|]. split; [exact H2|]. exists []. rewrite app_nil_r. auto. Qed.

Lemma aside_trans s1 s2 s3 : aside s1 s2 -> aside s2 s3 -> aside s1 s3.
Proof.
  intros (A1 & B1 & l1 & E1 & F1) (A2 & B2 & l2 & E2 & F2). split; [congruence|]. split; [congruence|].
  exists (l1 ++ l2). rewrite E2, E1, app_assoc, forallb_app, F1, F2. auto.
Qed.

Local Notation wpa := (wp any_fault).

Lemma wpa_raise {A} f (Q : A -> itrc -> Prop) s : wpa (raise f) Q s.
Proof. exact I. Qed.

Lemma wpa_oob {A} (o : option A) (Q : A -> itrc -> Prop) s : (forall a, o = Some a -> Q a s) -> wpa (or_oob o) Q s.
Proof. apply wp_or_oob. exact I. Qed.

Lemma wpa_load buf n p (Q : Z -> itrc -> Prop) s : (forall v, word_at buf n p = Some v -> Q v s) -> wpa (load buf n p) Q s.
Proof. apply wp_load. exact I. Qed.

Lemma wpa_aside {A B} (m : comp itrc A) (k : A -> comp itrc B) s :
  wpa m (fun _ => aside s) s -> (forall a s', wpa (k a) (fun _ => aside s') s') ->
  wpa (bind m k) (fun _ => aside s) s.
Proof.
  intros Hm Hk. apply wp_bind. eapply wp_conseq; [exact Hm|]. intros a s1 H1.
  eapply wp_conseq; [apply Hk|]. intros b s2 H2. exact (aside_trans _ _ _ H1 H2).
Qed.

Lemma wpa_send_client up addr port f s :
  wpa (spines_sendto spines_ok up (To_Client addr port f)) (fun _ => aside s) s.
Proof.
  unfold spines_sendto, emit_out. apply wp_bind, wp_get, wp_bind, wp_put. destruct (up && _).
  - apply wp_bind, wp_bind, wp_get, wp_put, wp_ret. split; [reflexivity|]. split; [reflexivity|].
    eexists. split; reflexivity.
  - apply wp_ret, aside_same; reflexivity.
Qed.

Lemma wpa_ITRC_Send_TC_Final f s : wpa (ITRC_Send_TC_Final spines_ok locations f) (fun _ => aside s) s.
Proof.
  assert (Hsend : forall addr port t, wpa (ok <- spines_sendto spines_ok (sp_ext_up s) (To_Client addr port f) ;;
      ret (if ok : bool then 1 else -1)) (fun _ => aside t) t).
  { intros addr port t. apply wpa_aside; [apply wpa_send_client|]. intros ok t'. apply wp_ret, aside_same; reflexivity. }
  unfold ITRC_Send_TC_Final. apply wp_bind, wp_get, wp_bind, wpa_load. intros type _.
  destruct (type =? RTU_FEEDBACK_T).
  { apply wp_bind, wpa_load. intros sub _. destruct (key_value_get _ _); [apply Hsend|apply wp_ret, aside_same; reflexivity]. }
  destruct (type =? HMI_UPDATE_T); [apply wp_bind, wpa_load; intros; apply Hsend|].
  destruct (type =? BENCHMARK_T); [apply wp_bind, wpa_load; intros; apply Hsend|apply wp_ret, aside_same; reflexivity].
Qed.

Lemma wpa_deliver_ready fuel : forall s, wpa (deliver_ready spines_ok My_ID locations fuel) (fun _ => aside s) s.
Proof.
  induction fuel as [|fuel IH]; intros s; cbn [deliver_ready]; [apply wpa_raise|].
  apply wpa_aside.
  - unfold ITRC_TC_Ready_Deliver. apply wp_bind, wp_get. destruct (tc_ready _ _ _) as [[r a] q].
    apply wp_bind, wp_put, wp_ret, aside_same; reflexivity.
  - intros [[f|]|] s1; [|apply wpa_raise|apply wp_ret, aside_same; reflexivity].
    apply wpa_aside; [apply wpa_ITRC_Send_TC_Final|]. intros r s2. destruct (r <? 0); [|apply IH].
    apply wp_bind, wp_get, wp_put, aside_same; reflexivity.
Qed.

Lemma wpa_insert_deliver tcm sender flag s :
  wpa (ITRC_Insert_TC_ID My_ID tcm sender flag ;;; deliver spines_ok My_ID locations) (fun _ => aside s) s.
Proof.
  apply wpa_aside.
  - unfold ITRC_Insert_TC_ID. apply wp_bind, wp_get. destruct (_ <=? 0); [apply wp_ret, aside_same; reflexivity|].
    destruct (slot _ _ _ _) as [q i]. apply wp_bind, wp_put, wp_bind, wpa_oob. intros n _.
    assert (Hset : forall n', wpa (set_tc i n') (fun _ => aside s) (with_tcq q s)).
    { intros n'. unfold set_tc. apply wp_bind, wp_get, wp_bind, wpa_oob. intros q' _. apply wp_put, aside_same; reflexivity. }
    destruct (tn_done n); [apply wp_ret, aside_same; reflexivity|].
    apply wp_bind, wpa_oob. intros b _. destruct b; [apply wp_ret, aside_same; reflexivity|].
    apply wp_bind, wpa_oob. intros recvd _. destruct (flag =? SKIP_ORD); [apply Hset|].
    apply wp_bind, wpa_oob. intros shares _. destruct (_ && _); apply Hset.
  - intros _ s1. unfold deliver. apply wp_bind, wp_get, wpa_deliver_ready.
Qed.

Lemma wpa_skip_slot o s : wpa (skip_slot spines_ok My_ID is_cc locations o) (fun _ => aside s) s.
Proof. unfold skip_slot. destruct is_cc; [apply wpa_insert_deliver|apply wp_ret, aside_same; reflexivity]. Qed.

Lemma quiet_aside s s' : aside s s' -> quiet s -> quiet s'.
Proof. unfold quiet. intros (E & -> & _) H. injection E as _ _ _ -> -> ->. exact H. Qed.

(** A slot keeps what holds of all nodes and of a new one. *)
Lemma slot_Forall {A} (ord_of : A -> ordinal) fresh (P : A -> Prop) o q :
  Forall P q -> P (fresh o) -> Forall P (fst (slot ord_of fresh o q)).
Proof.
  intros Hq Hf. unfold slot. destruct (find_slot ord_of o q) as [i new]. destruct new; [|exact Hq].
  apply Forall_app. split; [apply Forall_take, Hq|]. constructor; [exact Hf|apply Forall_drop, Hq].
Qed.

(** Without a signal no state is complete. *)
Lemma wpa_ITRC_Insert_ST_ID st sender s : quiet s -> sender <> My_ID ->
  wpa (ITRC_Insert_ST_ID My_ID st sender)
    (fun r s' => r = false /\ quiet s' /\ exists q, s' = with_stq q s) s.
Proof.
  intros Hs Hne. unfold ITRC_Insert_ST_ID. apply wp_bind, wp_get.
  assert (Hsame : quiet s /\ exists q, s = with_stq q s) by (split; [exact Hs|exists (stq_pending s); destruct s; reflexivity]).
  destruct (_ || _); [apply wp_ret; auto|].
  destruct Hs as (A & B & C & D). pose proof (slot_Forall sn_ord new_st_node _ (sx_ord st) _ D eq_refl) as D'.
  destruct (slot _ _ _ _) as [q i]. cbn [fst] in D'.
  apply wp_bind, wp_put, wp_bind, wpa_oob. intros n En.
  assert (Hn : sn_signaled n = false) by (rewrite Forall_forall in D'; apply D'; eapply aget_elem, En).
  rewrite (proj2 (Z.eqb_neq _ _)) by exact Hne.
  assert (Hq : quiet (with_stq q s)) by (repeat split; assumption).
  apply wp_bind, wpa_oob. intros b _. destruct b; [apply wp_ret; eauto|].
  apply wp_bind, wpa_oob. intros recvd _. apply wp_bind.
  unfold copy_state. destruct (_ <? _); [apply wpa_raise|]. unfold load_bytes. apply wp_bind.
  destruct (slice _ _ _); [|apply wpa_raise]. apply wp_ret, wp_ret, wp_bind, wpa_oob. intros state _.
  apply wp_bind. unfold set_st. apply wp_bind, wp_get, wp_bind, wpa_oob. intros q' Eq'. apply wp_put, wp_ret.
  destruct (_ && _ && _); cbn [sn_signaled st_collect st_heard sn_collected] in *; rewrite Hn, ?andb_false_r;
    (split; [reflexivity|]); (split; [|exists q'; reflexivity]);
    (repeat split; try assumption; cbn; eapply aset_Forall; [exact Eq'|exact D'|exact Hn]).
Qed.

(** *** Runs linked to the specification *)
(** From [s] to [s'] by [es]: the feed took the ordered messages, the master was
    asked what the feed asks, the answers took the ordinals in front, and what
    was sent to replicas is labelled with them. *)
Definition linked (es : list event) (s s' : itrc) : Prop :=
  exists asked labels new,
    fold_left feed_step (primes es) (mkFeed (recvd_ord s) (progress s) []) = mkFeed (recvd_ord s') (progress s') asked /\
    ord_queue s ++ map fst asked = labels ++ ord_queue s' /\
    length labels = length (answers_in es) /\
    itrc_sent s' = itrc_sent s ++ new /\ sm_inputs new = map snd asked /\
    Forall (fun x => to_replica x = true -> exists o r, In (o, r) (zip labels (answers_in es)) /\ labelled My_ID o r x) new.

Lemma feed_run_asked ms : forall l p a, fold_left feed_step ms (mkFeed l p a) =
  let f := fold_left feed_step ms (mkFeed l p []) in mkFeed (fd_last f) (fd_progress f) (a ++ fd_asked f).
Proof.
  assert (Hstep : forall l p a m, feed_step (mkFeed l p a) m =
    let f := feed_step (mkFeed l p []) m in mkFeed (fd_last f) (fd_progress f) (a ++ fd_asked f)).
  { intros l p a m. unfold feed_step. cbn. destruct (_ || _); cbn; [rewrite app_nil_r; reflexivity|].
    destruct (asks _ _) as [[q p']|]; cbn; [reflexivity|rewrite app_nil_r; reflexivity]. }
  induction ms as [|m ms IH]; intros l p a; cbn [fold_left]; [cbn; rewrite app_nil_r; reflexivity|].
  rewrite Hstep. cbv zeta. destruct (feed_step (mkFeed l p []) m) as [l' p' a']. cbn [fd_last fd_progress fd_asked].
  rewrite (IH l' p' (a ++ a')), (IH l' p' a'). cbn. rewrite app_assoc. reflexivity.
Qed.

Lemma linked_trans es1 es2 s1 s2 s3 : linked es1 s1 s2 -> linked es2 s2 s3 -> linked (es1 ++ es2) s1 s3.
Proof.
  intros (A1 & L1 & N1 & F1 & Q1 & K1 & S1 & I1 & R1) (A2 & L2 & N2 & F2 & Q2 & K2 & S2 & I2 & R2).
  exists (A1 ++ A2), (L1 ++ L2), (N1 ++ N2). unfold primes, answers_in, sm_inputs in *. rewrite !omap_app.
  split; [|split; [|split; [|split; [|split]]]].
  - rewrite fold_left_app, F1, feed_run_asked, F2. reflexivity.
  - rewrite map_app, app_assoc, Q1, <- app_assoc, Q2, app_assoc. reflexivity.
  - rewrite !length_app. lia.
  - rewrite S2, S1, app_assoc. reflexivity.
  - rewrite map_app, I1, I2. reflexivity.
  - rewrite zip_with_app by exact K1. apply Forall_app. split; [eapply Forall_impl; [exact R1|]|eapply Forall_impl; [exact R2|]];
      cbn; intros x H Hx; destruct (H Hx) as (o & r & Hin & Hl); exists o, r; (split; [apply in_or_app; auto|exact Hl]).
Qed.

Lemma to_client_apart new : forallb to_client new = true ->
  sm_inputs new = [] /\ Forall (fun x => to_replica x = false) new.
Proof.
  induction new as [|x l IH]; [split; constructor|]. cbn. intros [Hx Hl]%andb_true_iff. destruct (IH Hl) as [A B].
  destruct x; try discriminate. split; [exact A|constructor; [reflexivity|exact B]].
Qed.

Lemma linked_aside es s s' : primes es = [] -> answers_in es = [] -> aside s s' -> linked es s s'.
Proof.
  intros Ep Ea (E & _ & new & Es & Hn). injection E as E1 E2 E3 E4 E5 E6. destruct (to_client_apart new Hn) as [Hi Hr].
  exists [], [], new. rewrite Ep, Ea, E1, E2, E3. repeat split; auto; [rewrite app_nil_r; reflexivity|].
  eapply Forall_impl; [exact Hr|]. cbn. congruence.
Qed.

(** One ordered message. *)
Definition asked_one (m : prime_message) (s s' : itrc) : Prop :=
  exists asked new,
    feed_step (mkFeed (recvd_ord s) (progress s) []) m = mkFeed (recvd_ord s') (progress s') asked /\
    ord_queue s' = ord_queue s ++ map fst asked /\
    itrc_sent s' = itrc_sent s ++ new /\ sm_inputs new = map snd asked /\ Forall (fun x => to_replica x = false) new.

Lemma asked_linked m s s' : asked_one m s s' -> linked [From_Prime m] s s'.
Proof.
  intros (asked & new & E1 & E2 & E3 & E4 & E5). exists asked, [], new. cbn. repeat split; auto.
  eapply Forall_impl; [exact E5|]. cbn. congruence.
Qed.

(** What the code asks of the master for a message in turn. *)
Lemma asked_intro m s s1 s2 a : ITRC_Ord_Compare (pm_ord m) (recvd_ord s) <=? 0 = false ->
  ITRC_Ord_Consec (recvd_ord s) (pm_ord m) = true -> aside s s1 ->
  recvd_ord s2 = pm_ord m ->
  match a with
  | None => asks (progress s) (pm_body m) = None /\ progress s2 = progress s /\ ord_queue s2 = ord_queue s /\ itrc_sent s2 = itrc_sent s1
  | Some q => asks (progress s) (pm_body m) = Some (q, progress s2) /\ ord_queue s2 = ord_queue s ++ [pm_ord m] /\
      itrc_sent s2 = itrc_sent s1 ++ [To_SM q]
  end -> asked_one m s s2.
Proof.
  intros Hc Hn (E & _ & new & Es & Hnew) Er Ha. destruct (to_client_apart new Hnew) as [Hi Hr].
  unfold asked_one, feed_step. cbn [fd_last fd_progress fd_asked]. rewrite Hc, Hn. cbn [orb negb].
  destruct a as [q|].
  - destruct Ha as (-> & Eq & E2). exists [(pm_ord m, q)], (new ++ [To_SM q]). rewrite Er.
    repeat split; auto.
    + rewrite E2, Es, app_assoc. reflexivity.
    + unfold sm_inputs in *. rewrite omap_app, Hi. reflexivity.
    + apply Forall_app. split; [exact Hr|repeat constructor].
  - destruct Ha as (-> & Ep & Eq & E2). exists [], new. rewrite Er, Ep, Eq, app_nil_r. repeat split; auto. congruence.
Qed.

Lemma asks_client progress m ps idx p len : seq_and_idx m = Some (ps, idx) -> aget progress idx = Some p ->
  asks progress (Client_Update len m) =
  if ITRC_Validate_Message m && (0 <? Seq_Pair_Compare ps p) then option_map (pair m) (aset progress idx ps) else None.
Proof. intros E1 E2. cbn [asks]. rewrite E1, E2. reflexivity. Qed.

Lemma valid_client len m : Valid_From_Prime My_ID (Client_Update len m) =
  match seq_and_idx m with Some _ => ITRC_Validate_Message m | None => false end.
Proof. destruct m; reflexivity. Qed.

(** What is handed on. *)
Lemma wpa_hand_on o b s progress0 : (forall id, b = PRIME_STATE_TRANSFER id -> id <= NUM_SM) -> progress s = progress0 ->
  match b with
  | PRIME_STATE_TRANSFER id => True
  | Client_Update _ m => exists ps idx p, seq_and_idx m = Some (ps, idx) /\ aget progress0 idx = Some p /\
      ITRC_Validate_Message m = true /\ (0 <? Seq_Pair_Compare ps p) = true
  | _ => False
  end ->
  wpa (hand_on o b) (fun _ s' => exists q, asks progress0 b = Some (q, progress s') /\
    ord_queue s' = ord_queue s ++ [o] /\ itrc_sent s' = itrc_sent s ++ [To_SM q] /\ recvd_ord s' = recvd_ord s /\
    (quiet s -> quiet s')) s.
Proof.
  intros Hid <- Hb. unfold hand_on. apply wp_bind, wp_get, wp_bind, wp_put.
  destruct b as [|id| |len m]; try (destruct Hb; fail).
  - apply wp_bind, wp_get. unfold emit_out. apply wp_bind, wp_get, wp_put.
    exists (STATE_REQUEST (mkStateRequest id (progress s))). cbn.
    rewrite (proj2 (Z.ltb_ge _ _)) by (apply Hid; reflexivity).
    do 4 (split; [reflexivity|]). exact (fun H => H).
  - destruct Hb as (ps & idx & p & Em & Ep & Hv & Hc). rewrite (asks_client _ _ _ _ _ len Em Ep), Hv, Hc. cbn [andb]. rewrite Em.
    apply wp_bind, wp_get, wp_bind, wpa_oob. intros pr Epr. cbn in Epr. apply wp_bind, wp_put.
    destruct (SCADA_UPDATE_SIZE <? _); [apply wpa_raise|].
    apply wp_bind, wp_get, wp_bind, wpa_oob. intros up Eup. apply wp_bind, wp_put.
    unfold emit_out. apply wp_bind, wp_get, wp_put. exists m. rewrite Epr. cbn. auto.
Qed.

(** Messages that ask nothing. *)
Lemma asks_nothing b progress d (s : itrc) :
  match b with PRIME_SYSTEM_RESET _ => False | PRIME_STATE_TRANSFER id => id <> My_ID | _ => True end ->
  (if Valid_From_Prime My_ID b then is_duplicate b else ret false) s = Ret (d, s) -> ItrcState.progress s = progress ->
  negb (Valid_From_Prime My_ID b) || is_no_op b || transfer_to_me My_ID b || d = true -> asks progress b = None.
Proof.
  intros Hb Hd <- H. destruct b as [i|id|i|len m]; [reflexivity| |destruct Hb|].
  - cbn in *. rewrite (proj2 (Z.eqb_neq _ _)) in H by exact Hb.
    destruct (NUM_SM <? id); [reflexivity|]. cbn in Hd. injection Hd as <-. discriminate.
  - rewrite valid_client in Hd, H. cbn [asks is_no_op transfer_to_me is_duplicate] in *.
    destruct (seq_and_idx m) as [[ps idx]|]; [|reflexivity].
    destruct (aget (ItrcState.progress s) idx) as [p|] eqn:Ep; [|reflexivity].
    destruct (ITRC_Validate_Message m); [|reflexivity]. cbn in H.
    unfold bind, get, or_oob in Hd. rewrite Ep in Hd. cbn in Hd. injection Hd as Hd.
    rewrite ?orb_false_r in H. cbn in *. subst d. apply Z.leb_le in H. rewrite (proj2 (Z.ltb_ge _ _)) by exact H. reflexivity.
Qed.

Lemma is_duplicate_pure (c : bool) b (s : itrc) d t :
  (if c then is_duplicate b else ret false) s = Ret (d, t) -> t = s.
Proof.
  destruct c; [|intros [= _ <-]; reflexivity]. unfold is_duplicate. destruct b as [| | |len m]; try (intros [= _ <-]; reflexivity).
  destruct (seq_and_idx m) as [[ps idx]|]; [|intros [= _ <-]; reflexivity].
  unfold bind, get, or_oob. destruct (aget _ _); [|discriminate]. intros [= _ <-]. reflexivity.
Qed.

(** What a message that is not skipped asks. *)
Lemma asked_case b s d : (if Valid_From_Prime My_ID b then is_duplicate b else ret false) s = Ret (d, s) ->
  match b with PRIME_SYSTEM_RESET _ => False | PRIME_STATE_TRANSFER id => id <> My_ID | _ => True end ->
  negb (Valid_From_Prime My_ID b) || is_no_op b || transfer_to_me My_ID b || d = false ->
  (forall id, b = PRIME_STATE_TRANSFER id -> id <= NUM_SM) /\
  match b with
  | PRIME_STATE_TRANSFER id => True
  | Client_Update _ m => exists ps idx p, seq_and_idx m = Some (ps, idx) /\ aget (progress s) idx = Some p /\
      ITRC_Validate_Message m = true /\ (0 <? Seq_Pair_Compare ps p) = true
  | _ => False
  end.
Proof.
  intros Hd Hb H. apply orb_false_iff in H as [H ->]. apply orb_false_iff in H as [H Ht].
  apply orb_false_iff in H as [Hv Hn]. apply negb_false_iff in Hv. rewrite Hv in Hd.
  destruct b as [i|id|i|len m]; try discriminate; (split; [try discriminate|]).
  - intros id' [= <-]. cbn in Hv. apply negb_true_iff, Z.ltb_ge in Hv. exact Hv.
  - exact I.
  - rewrite valid_client in Hv. cbn [is_duplicate] in Hd. destruct (seq_and_idx m) as [[ps idx]|]; [|discriminate].
    unfold bind, get, or_oob in Hd. destruct (aget (progress s) idx) as [p|] eqn:Ep; [|discriminate].
    injection Hd as Hd. exists ps, idx, p. repeat split; auto. cbn in Hd. apply Z.ltb_lt. apply Z.leb_gt in Hd. exact Hd.
Qed.

Lemma wpa_ITRC_Process_Prime_Ordinal m s : quiet s -> calm (From_Prime m) ->
  ITRC_Ord_Compare (pm_ord m) (recvd_ord s) <=? 0 = false ->
  wpa (ITRC_Process_Prime_Ordinal spines_ok My_ID is_cc locations (pm_ord m) m)
    (fun _ s' => quiet s' /\ asked_one m s s') s.
Proof.
  intros Hs Hm Hc. unfold ITRC_Process_Prime_Ordinal. apply wp_bind, wp_get.
  pose proof Hs as (-> & _). cbn [calm] in Hm. set (b := pm_body m) in *.
  assert (Hb : match b with PRIME_SYSTEM_RESET _ => False | PRIME_STATE_TRANSFER id => id <> My_ID | _ => True end)
    by (destruct b; auto).
  assert (Ht : transfer_to_me My_ID b = false) by (destruct b; cbn; auto; apply Z.eqb_neq, Hb).
  rewrite Ht. cbn [negb andb]. rewrite andb_true_r.
  destruct (ITRC_Ord_Consec (recvd_ord s) (pm_ord m)) eqn:En; cbn [negb].
  2: { apply wp_ret. split; [exact Hs|]. exists [], []. unfold feed_step. cbn. rewrite Hc, En. cbn. rewrite !app_nil_r. auto. }
  apply wp_bind. unfold wp at 1. destruct ((if Valid_From_Prime My_ID b then is_duplicate b else ret false) s) as [[d t]|] eqn:Ed; [|exact I].
  pose proof (is_duplicate_pure _ _ _ _ _ Ed) as ->.
  apply wp_bind. apply wp_conseq with (Q' := fun _ => aside s).
  { destruct (_ || _); [apply wpa_skip_slot|apply wp_ret, aside_same; reflexivity]. }
  intros ? s1 H1. apply wp_bind, wp_ret, wp_bind, wp_get, wp_bind, wp_put.
  pose proof (quiet_aside _ _ H1 Hs) as Hs1.
  pose proof H1 as (E & _ & _). injection E as Er Eq Ep _ _ _.
  destruct (_ || d) eqn:Ek.
  - apply wp_ret. split; [exact Hs1|].
    apply (asked_intro m s s1 (with_recvd (pm_ord m) s1) None Hc En H1 eq_refl).
    repeat split; auto. refine (asks_nothing b (progress s) d s Hb Ed eq_refl _). rewrite Ht. exact Ek.
  - assert (Ek' : negb (Valid_From_Prime My_ID b) || is_no_op b || transfer_to_me My_ID b || d = false)
      by (rewrite Ht; exact Ek).
    destruct (asked_case b s d Ed Hb Ek') as [Hid Hask].
    eapply wp_conseq; [apply (wpa_hand_on (pm_ord m) b (with_recvd (pm_ord m) s1) (progress s)); [exact Hid|exact Ep|exact Hask]|].
    intros ? s2 (q & Ea & Eo & Es & Er2 & Hq). split; [apply Hq, Hs1|].
    apply (asked_intro m s s1 s2 (Some q) Hc En H1 Er2). cbn in Eo. rewrite Eq in Eo. auto.
Qed.

Lemma linked_refl es s : primes es = [] -> answers_in es = [] -> linked es s s.
Proof. intros H1 H2. apply linked_aside; [exact H1|exact H2|]. apply aside_same; reflexivity. Qed.

Lemma asked_nothing m s s' new : ITRC_Ord_Compare (pm_ord m) (recvd_ord s) <=? 0 = true ->
  feed_part s' = feed_part s -> itrc_sent s' = itrc_sent s ++ new -> sm_inputs new = [] ->
  Forall (fun x => to_replica x = false) new -> asked_one m s s'.
Proof.
  intros Hc E Es Hi Hn. injection E as E1 E2 E3 _ _ _. exists [], new. unfold feed_step. cbn. rewrite Hc, E1, E2, E3.
  cbn. rewrite app_nil_r. auto.
Qed.

Lemma wpa_from_prime m s : quiet s -> calm (From_Prime m) ->
  wpa (from_prime spines_ok My_ID is_cc locations m) (fun _ s' => quiet s' /\ linked [From_Prime m] s s') s.
Proof.
  intros Hs Hm.
  assert (Hgo : wpa (s <- get ;;
      (if negb (recvd_first_ordinal s) && negb (ITRC_Ord_Consec (recvd_ord s) (pm_ord m))
       then emit_out To_Inject else ret tt) ;;;
      s <- get ;;
      put (with_first true s) ;;;
      if ITRC_Ord_Compare (pm_ord m) (recvd_ord s) <=? 0 then ret tt else
      ITRC_Process_Prime_Ordinal spines_ok My_ID is_cc locations (pm_ord m) m ;;;
      after_transfer spines_ok My_ID is_cc locations) (fun _ s' => quiet s' /\ asked_one m s s') s).
  { apply wp_bind, wp_get, wp_bind.
    assert (Hk : forall s1 new, quiet s1 -> feed_part s1 = feed_part s -> itrc_sent s1 = itrc_sent s ++ new ->
      sm_inputs new = [] -> Forall (fun x => to_replica x = false) new ->
      wpa (s <- get ;; put (with_first true s) ;;;
        if ITRC_Ord_Compare (pm_ord m) (recvd_ord s) <=? 0 then ret tt else
        ITRC_Process_Prime_Ordinal spines_ok My_ID is_cc locations (pm_ord m) m ;;;
        after_transfer spines_ok My_ID is_cc locations) (fun _ s' => quiet s' /\ asked_one m s s') s1).
    { intros s1 new Hs1 E Es Hi Hn. apply wp_bind, wp_get, wp_bind, wp_put.
      destruct (_ <=? 0) eqn:Ec.
      - apply wp_ret. split; [exact Hs1|]. injection E as E1 E2 E3 _ _ _. rewrite E1 in Ec.
        eapply asked_nothing; [exact Ec| |exact Es|exact Hi|exact Hn].
        unfold feed_part. cbn. destruct Hs as (A & B & C & _), Hs1 as (A1 & B1 & C1 & _). congruence.
      - apply wp_bind. eapply wp_conseq; [apply wpa_ITRC_Process_Prime_Ordinal; [exact Hs1|exact Hm|exact Ec]|].
        intros ? s2 [Hs2 (asked & new' & F1 & F2 & F3 & F4 & F5)]. unfold after_transfer. apply wp_bind, wp_get.
        pose proof Hs2 as (_ & -> & _). apply wp_ret. split; [exact Hs2|]. injection E as E1 E2 E3 _ _ _.
        exists asked, (new ++ new'). cbn in F1, F2, F3. rewrite E1, E3 in F1. rewrite E2 in F2.
        repeat split; auto.
        + rewrite F3, Es, app_assoc. reflexivity.
        + unfold sm_inputs in *. rewrite omap_app, Hi. exact F4.
        + apply Forall_app. auto. }
    destruct (_ && _).
    - unfold emit_out. apply wp_bind, wp_get, wp_put. eapply (Hk _ [To_Inject]); try reflexivity; [exact Hs|repeat constructor].
    - apply wp_ret. apply (Hk s []); try reflexivity; [exact Hs|rewrite app_nil_r; reflexivity|constructor]. }
  unfold from_prime. cbn [calm] in Hm. destruct (pm_body m); try (destruct Hm; fail);
    (eapply wp_conseq; [exact Hgo|]; intros ? s' [A B]; split; [exact A|apply asked_linked, B]).
Qed.

(** Something else than an ordered message: no question, at most one label used. *)
Definition answered (r : sm_reply) (s s' : itrc) : Prop :=
  recvd_ord s' = recvd_ord s /\ progress s' = progress s /\ exists o new,
    ord_queue s = o :: ord_queue s' /\ itrc_sent s' = itrc_sent s ++ new /\ sm_inputs new = [] /\
    Forall (fun x => to_replica x = true -> labelled My_ID o r x) new.

Lemma answered_linked r s s' : is_answer r = true -> answered r s s' -> linked [From_SM r] s s'.
Proof.
  intros Hr (E1 & E2 & o & new & Eq & Es & Hi & Hl). exists [], [o], new.
  unfold answers_in. cbn. rewrite Hr, E1, E2, Eq, app_nil_r. repeat split; auto.
  eapply Forall_impl; [exact Hl|]. cbn. intros x H Hx. exists o, r. auto.
Qed.

(** Sending to replicas, after the label was taken. *)
Definition to_replicas (o : ordinal) (r : sm_reply) (s s' : itrc) : Prop :=
  feed_part s' = feed_part s /\ stq_pending s' = stq_pending s /\ exists new,
    itrc_sent s' = itrc_sent s ++ new /\ sm_inputs new = [] /\ Forall (fun x => to_replica x = true -> labelled My_ID o r x) new.

Lemma to_replicas_aside o r s s' : aside s s' -> to_replicas o r s s'.
Proof.
  intros (A & B & new & E & Hn). destruct (to_client_apart new Hn) as [Hi Hr]. split; [exact A|]. split; [exact B|].
  exists new. repeat split; auto. eapply Forall_impl; [exact Hr|]. cbn. congruence.
Qed.

Lemma to_replicas_trans o r s1 s2 s3 : to_replicas o r s1 s2 -> to_replicas o r s2 s3 -> to_replicas o r s1 s3.
Proof.
  intros (A1 & B1 & l1 & E1 & I1 & F1) (A2 & B2 & l2 & E2 & I2 & F2). split; [congruence|]. split; [congruence|].
  exists (l1 ++ l2). rewrite E2, E1, app_assoc. unfold sm_inputs in *. rewrite omap_app, I1. repeat split; auto.
  apply Forall_app. auto.
Qed.

Lemma wpa_send_replica up o r x s : labelled My_ID o r x -> sm_inputs [x] = [] ->
  wpa (spines_sendto spines_ok up x) (fun _ => to_replicas o r s) s.
Proof.
  intros Hx Hi. unfold spines_sendto, emit_out. apply wp_bind, wp_get, wp_bind, wp_put. destruct (up && _).
  - apply wp_bind, wp_bind, wp_get, wp_put, wp_ret. split; [reflexivity|]. split; [reflexivity|].
    exists [x]. repeat split; auto.
  - apply wp_ret, to_replicas_aside, aside_same; reflexivity.
Qed.

Lemma wpa_to_replicas {A B} o r (m : comp itrc A) (k : A -> comp itrc B) s :
  wpa m (fun _ => to_replicas o r s) s -> (forall a s', wpa (k a) (fun _ => to_replicas o r s') s') ->
  wpa (bind m k) (fun _ => to_replicas o r s) s.
Proof.
  intros Hm Hk. apply wp_bind. eapply wp_conseq; [exact Hm|]. intros a s1 H1.
  eapply wp_conseq; [apply Hk|]. intros b s2 H2. exact (to_replicas_trans _ _ _ _ _ H1 H2).
Qed.

Lemma wpa_send_shares o bs l : forall s,
  wpa (send_shares spines_ok My_ID (own_share My_ID o bs) l) (fun _ => to_replicas o (Sm_Client bs) s) s.
Proof.
  induction l as [|i l IH]; intros s; cbn [send_shares]; [apply wp_ret, to_replicas_aside, aside_same; reflexivity|].
  destruct (i =? My_ID); [apply IH|]. apply wp_bind, wp_get, wpa_to_replicas.
  - apply wpa_send_replica; [|reflexivity]. exists bs. auto.
  - intros ok s1. destruct ok; [apply IH|]. apply wp_bind, wp_get, wp_put, to_replicas_aside, aside_same; reflexivity.
Qed.

(** The label is taken, then what is sent carries it. *)
Lemma wpa_pop r (k : ordinal -> comp itrc unit) s : is_answer r = true -> quiet s ->
  (forall o s', wpa (k o) (fun _ => to_replicas o r s') s') ->
  wpa (bind pop_ordinal k) (fun _ s' => quiet s' /\ linked [From_SM r] s s') s.
Proof.
  intros Hr Hs Hk. unfold pop_ordinal. apply wp_bind, wp_bind, wp_get. destruct (ord_queue s) as [|o l] eqn:Eq; [apply wpa_raise|].
  apply wp_bind, wp_put, wp_ret. eapply wp_conseq; [apply Hk|]. intros ? s' (E & Est & new & Es & Hi & Hl).
  injection E as E1 E2 E3 E4 E5 E6. split.
  - unfold quiet in *. rewrite E4, E5, E6, Est. exact Hs.
  - apply answered_linked; [exact Hr|]. split; [exact E1|]. split; [exact E3|]. exists o, new.
    cbn in E2. rewrite E2. auto.
Qed.

Lemma wpa_from_sm r s : quiet s ->
  wpa (from_sm spines_ok My_ID is_cc locations r) (fun _ s' => quiet s' /\ linked [From_SM r] s s') s.
Proof.
  intros Hs. destruct r as [bs|m]; cbn [from_sm].
  - apply wp_bind, wpa_load. intros type Et.
    assert (Ha : is_answer (Sm_Client bs) = (type =? HMI_UPDATE_T) || (type =? RTU_FEEDBACK_T) || (type =? BENCHMARK_T))
      by (cbn; rewrite Et; reflexivity).
    destruct (_ || _) eqn:Ev.
    2: { apply wp_ret. split; [exact Hs|]. apply linked_refl; [reflexivity|]. unfold answers_in. cbn [omap list_omap]. rewrite Ha. reflexivity. }
    apply wpa_pop; [exact Ha|exact Hs|]. intros o s1. unfold PKT_Construct_TC_Share_Msg.
    apply wp_bind. destruct (_ <? _); [apply wpa_raise|]. cbv zeta. fold (own_share My_ID o bs). apply wp_ret.
    apply wpa_to_replicas.
    + destruct is_cc; [|apply wp_ret, to_replicas_aside, aside_same; reflexivity].
      eapply wp_conseq; [apply wpa_insert_deliver|]. intros ? s2 H. exact (to_replicas_aside _ _ _ _ H).
    + intros _ s2. apply wp_bind, wp_get. destruct (sp_int_up s2); cbn [negb]; [apply wpa_send_shares|].
      apply wp_ret, to_replicas_aside, aside_same; reflexivity.
  - apply wpa_pop; [reflexivity|exact Hs|]. intros o s1. apply wp_bind, wp_get.
    destruct (sp_int_up s1); cbn [negb]; [|apply wp_ret, to_replicas_aside, aside_same; reflexivity].
    destruct (in_bounds _ _); cbn [negb]; [|apply wpa_raise]. apply wpa_to_replicas.
    + apply wpa_send_replica; [|reflexivity]. exists m. auto.
    + intros ok s2. destruct ok; [apply wp_ret, to_replicas_aside, aside_same; reflexivity|].
      apply wp_bind, wp_get, wp_put, to_replicas_aside, aside_same; reflexivity.
Qed.

Lemma wpa_from_internal m s : quiet s -> calm (From_Internal (Some m)) ->
  wpa (from_internal spines_ok My_ID is_cc locations m) (fun _ s' => quiet s' /\ linked [From_Internal (Some m)] s s') s.
Proof.
  intros Hs Hm. unfold from_internal. cbn [calm] in Hm.
  assert (Hrefl : quiet s /\ linked [From_Internal (Some m)] s s) by (split; [exact Hs|apply linked_refl; reflexivity]).
  destruct (im_body m) as [tcm|st|]; [| |apply wp_ret; exact Hrefl].
  all: destruct (RSA_Verify_Internal m); cbn [negb]; [|apply wp_ret; exact Hrefl].
  - destruct is_cc; [|apply wp_ret; exact Hrefl].
    eapply wp_conseq; [apply wpa_insert_deliver|]. intros ? s1 H.
    split; [exact (quiet_aside _ _ H Hs)|]. apply linked_aside; [reflexivity..|exact H].
  - apply wp_bind. eapply wp_conseq; [apply wpa_ITRC_Insert_ST_ID; [exact Hs|exact Hm]|].
    intros ready s1 (-> & Hs1 & q & ->). apply wp_bind, wp_ret. unfold after_transfer. apply wp_bind, wp_get.
    pose proof Hs1 as (_ & -> & _). apply wp_ret. split; [exact Hs1|].
    exists [], [], []. cbn. rewrite !app_nil_r. repeat split. constructor.
Qed.

Lemma wpa_ITRC_Master e s : quiet s -> calm e ->
  wpa (ITRC_Master spines_ok My_ID is_cc locations e) (fun _ s' => quiet s' /\ linked [e] s s') s.
Proof.
  intros Hs He. destruct e as [m|r|[m|]|i x]; cbn [ITRC_Master].
  - apply wpa_from_prime; assumption.
  - apply wpa_from_sm; assumption.
  - apply wp_bind, wp_get. destruct (sp_int_up s); [apply wpa_from_internal; assumption|].
    apply wp_ret. split; [exact Hs|apply linked_refl; reflexivity].
  - apply wp_bind, wp_get, wp_put. split; [exact Hs|]. apply linked_aside; try reflexivity. apply aside_same; reflexivity.
  - apply wp_bind, wp_get, wp_put.
    assert (Ha : aside s (if is_cc && negb (sp_ext_up (if sp_int_up s then s else with_int_up i s))
      then with_ext_up x (if sp_int_up s then s else with_int_up i s) else if sp_int_up s then s else with_int_up i s))
      by (apply aside_same; destruct (sp_int_up s); destruct (is_cc && negb _); reflexivity).
    split; [exact (quiet_aside _ _ Ha Hs)|]. apply linked_aside; [reflexivity..|exact Ha].
Qed.

Lemma wpa_itrc_run es : forall s, quiet s -> Forall calm es ->
  wpa (itrc_run spines_ok My_ID is_cc locations es) (fun _ s' => quiet s' /\ linked es s s') s.
Proof.
  induction es as [|e es IH]; intros s Hs He; cbn [itrc_run].
  { apply wp_ret. split; [exact Hs|apply linked_refl; reflexivity]. }
  apply Forall_cons in He as [He Hes]. apply wp_bind. eapply wp_conseq; [apply wpa_ITRC_Master; eassumption|].
  intros ? s1 [Hs1 H1]. eapply wp_conseq; [apply IH; assumption|]. intros ? s2 [Hs2 H2].
  split; [exact Hs2|]. exact (linked_trans [e] es _ _ _ H1 H2).
Qed.

Lemma quiet_init i x : quiet (itrc_init i x).
Proof. repeat split; constructor. Qed.
End Feed.
