(* ===== verification/ItrcSystem.v ===== *)
(** The channel and the SCADA master together: replicas that Prime gives the same
    updates ask their masters the same, and sign the same answers under the same
    ordinals. *)
From Stdlib Require Import ZArith Lia List Bool Sorting.Sorted.
From Stdlib Require Import Strings.Byte.
From stdpp Require Import base list.
From S2P Require Import Prelude Memory Config Crypto ScadaPackets ScadaGrid ScadaInit ScadaMaster ScadaCorrect ScadaMasterCorrect ScadaProps KeyValue ItrcState Itrc ItrcCorrect ItrcFeed.

(** ** The master's messages as bytes *)
(** The header of a message the master built; only a benchmark, which is sent
    back as it came, has a sender. *)
Definition message_header (machine_id type len : Z) : list byte :=
  zeros 128 ++ le_encode 2 0 ++ le_encode 2 0 ++ le_encode 4 0 ++ le_encode 4 machine_id ++ le_encode 4 len
  ++ le_encode 4 type ++ le_encode 4 0 ++ le_encode 4 0.

Definition message_body (o : sm_out) : list byte :=
  match o with
  | Hmi_Update m =>
      seq_pair_bytes (hu_seq m) ++ le_encode 4 (hu_scen_type m) ++ le_encode 4 (hu_sec m) ++ le_encode 4 (hu_usec m)
      ++ le_encode 4 (Z.of_nat (length (hu_status m))) ++ hu_status m
  | Rtu_Feedback m =>
      seq_pair_bytes (fd_seq m) ++ le_encode 4 (fd_scen_type m) ++ le_encode 4 (fd_type m) ++ le_encode 4 (fd_sub m)
      ++ le_encode 4 (fd_rtu m) ++ le_encode 4 (fd_offset m) ++ le_encode 4 (fd_val m)
  | Benchmark m =>
      seq_pair_bytes (bm_seq m) ++ le_encode 4 (bm_sender m) ++ le_encode 4 (ping_sec m) ++ le_encode 4 (ping_usec m)
      ++ le_encode 4 (pong_sec m) ++ le_encode 4 (pong_usec m)
  | State_Xfer m => []
  end.

Definition reply_of (o : sm_out) : sm_reply :=
  let message machine_id type :=
    let body := message_body o in
    Sm_Client (message_header machine_id type (Z.of_nat (length body)) ++ body) in
  match o with
  | Hmi_Update _ => message 0 HMI_UPDATE_T
  | Rtu_Feedback _ => message 0 RTU_FEEDBACK_T
  | Benchmark m => message (bm_sender m) BENCHMARK_T
  | State_Xfer m => Sm_State m
  end.

(** ** A master that answers every message once *)
Inductive answers (My_ID : Z) : list sm_message -> sm -> list sm_out -> sm -> Prop :=
| answers_nil s : answers My_ID [] s [] s
| answers_cons m ms s o s1 os s2 :
    sm_main My_ID m s = Ret (tt, s1) -> ipc_sent s1 = ipc_sent s ++ [o] ->
    answers My_ID ms s1 os s2 -> answers My_ID (m :: ms) s (o :: os) s2.

Lemma answers_run id ms s os s' : answers id ms s os s' ->
  sm_run id ms s = Ret (tt, s') /\ ipc_sent s' = ipc_sent s ++ os /\ length os = length ms.
Proof.
  induction 1 as [s|m ms s o s1 os s2 E Es H (IH1 & IH2 & IH3)]; cbn [sm_run].
  - rewrite app_nil_r. auto.
  - rewrite (run_bind _ _ _ _ _ E), IH1, IH2, Es, <- app_assoc. cbn. auto.
Qed.

Lemma answers_app id ms1 ms2 : forall s os s', answers id (ms1 ++ ms2) s os s' ->
  exists os1 os2 t, os = os1 ++ os2 /\ answers id ms1 s os1 t /\ answers id ms2 t os2 s'.
Proof.
  induction ms1 as [|m ms1 IH]; intros s os s' H.
  - exists [], os, s. repeat split; [constructor|exact H].
  - inversion H as [|? ? ? o s1 os' ? E Es H1]; subst. destruct (IH _ _ _ H1) as (os1 & os2 & t & -> & A & B).
    exists (o :: os1), os2, t. repeat split; [econstructor; eassumption|exact B].
Qed.

(** Agreeing masters give the same answers. *)
Lemma answers_agree id1 id2 ms s1 s2 os1 os2 t1 t2 : Forall ordered ms -> agree s1 s2 ->
  answers id1 ms s1 os1 t1 -> answers id2 ms s2 os2 t2 -> os1 = os2.
Proof.
  intros Ho Ha A1 A2. destruct (answers_run _ _ _ _ _ A1) as (R1 & S1 & _). destruct (answers_run _ _ _ _ _ A2) as (R2 & S2 & _).
  assert (Ht : twins (ipc_sent s1) (ipc_sent s2) s1 s2) by (split; [exact Ha|exists []; rewrite !app_nil_r; auto]).
  destruct (twins_run _ _ id1 id2 ms s1 s2 Ho Ht tt t1 R1) as (t2' & R2' & _ & o & E1 & E2).
  rewrite R2 in R2'. injection R2' as <-. rewrite S1 in E1. rewrite S2 in E2.
  apply app_inv_head in E1, E2. congruence.
Qed.

(** ** The same questions *)
(** The bytes of a status message are there. *)
Definition whole (m : prime_message) : Prop :=
  match pm_body m with
  | Client_Update _ (RTU_DATA r) => Z.of_nat (length (rs_data r)) = RTU_DATA_PAYLOAD_LEN
  | _ => True
  end.

Lemma asks_ordered progress m q p : whole m -> asks progress (pm_body m) = Some (q, p) -> ordered q.
Proof.
  unfold whole, asks. destruct (pm_body m) as [|id| |len x]; try discriminate.
  - destruct (_ <? _); [discriminate|]. intros _ [= <- _]. exact I.
  - intros Hw. destruct (seq_and_idx x) as [[ps idx]|] eqn:Ex; [|discriminate].
    destruct (aget progress idx) as [y|]; [|discriminate].
    destruct (ITRC_Validate_Message x) eqn:Ev; [|discriminate]. destruct (_ <? _); [|discriminate].
    destruct (aset progress idx ps); [|discriminate]. intros [= <- _]. destruct x; try exact I; try discriminate Ex.
    split; assumption.
Qed.

Lemma feed_ordered ms : forall f, Forall whole ms -> Forall ordered (map snd (fd_asked f)) ->
  Forall ordered (map snd (fd_asked (fold_left feed_step ms f))).
Proof.
  induction ms as [|m ms IH]; intros f Hw Hf; cbn [fold_left]; [exact Hf|].
  apply Forall_cons in Hw as [Hm Hms]. apply IH; [exact Hms|]. unfold feed_step.
  destruct (_ || _); [exact Hf|]. destruct (asks _ _) as [[q p]|] eqn:E; [|exact Hf].
  cbn. rewrite map_app. apply Forall_app. split; [exact Hf|]. constructor; [eapply asks_ordered; eassumption|constructor].
Qed.

(** Two replicas have got the same from Prime, as far as both have got. *)
Definition same_prefix (l1 l2 : list prime_message) : Prop :=
  forall i m1 m2, l1 !! i = Some m1 -> l2 !! i = Some m2 -> same_order m1 m2.

Lemma feed_same l1 : forall l2 f, length l1 = length l2 -> same_prefix l1 l2 ->
  fold_left feed_step l1 f = fold_left feed_step l2 f.
Proof.
  induction l1 as [|m1 l1 IH]; intros [|m2 l2] f Hl Hs; try discriminate; [reflexivity|]. cbn [fold_left].
  rewrite (feed_step_same f m1 m2) by exact (Hs 0%nat m1 m2 eq_refl eq_refl).
  apply IH; [injection Hl; auto|]. intros i x1 x2 H1 H2. exact (Hs (S i) x1 x2 H1 H2).
Qed.

Lemma feed_prefix l1 l2 : (length l1 <= length l2)%nat -> same_prefix l1 l2 ->
  exists a, fd_asked (fold_left feed_step l2 feed_init) = fd_asked (fold_left feed_step l1 feed_init) ++ a.
Proof.
  intros Hl Hs. rewrite <- (take_drop (length l1) l2), fold_left_app.
  rewrite (feed_same l1 (take (length l1) l2)); [apply feed_asked_grows|rewrite length_take; lia|].
  intros i m1 m2 H1 H2. apply lookup_take_Some in H2 as [H2 _]. exact (Hs i m1 m2 H1 H2).
Qed.

Lemma sorted_once {A} (R : A -> A -> Prop) (l : list A) : (forall x, ~ R x x) -> StronglySorted R l ->
  forall i j x, l !! i = Some x -> l !! j = Some x -> i = j.
Proof.
  intros Hirr H. induction H as [|y l H IH Hy]; intros i j x Hi Hj; [discriminate|].
  rewrite Forall_forall in Hy. destruct i as [|i], j as [|j]; [reflexivity| | |f_equal; eapply IH; eassumption];
    cbn in Hi, Hj; exfalso.
  - injection Hi as ->. apply (Hirr x), Hy. eapply list_elem_of_lookup_2, Hj.
  - injection Hj as ->. apply (Hirr x), Hy. eapply list_elem_of_lookup_2, Hi.
Qed.

Lemma in_zip {A B} (l1 : list A) (l2 : list B) x y : In (x, y) (zip l1 l2) ->
  exists k, l1 !! k = Some x /\ l2 !! k = Some y.
Proof.
  intros H. apply list_elem_of_In, list_elem_of_lookup in H as [k Hk].
  apply lookup_zip_Some in Hk as [A1 A2]. eauto.
Qed.

(** ** One replica with its master *)
Section Replica.
Context {crypto : Crypto} {tc : Threshold}.

(** A run of replica [My_ID]'s channel on [es] to [s], while its master started
    in [m0] and answered: what the channel has read of the answers is the
    beginning of them. *)
Record replica_run (My_ID : Z) (is_cc : bool) (es : list event) (s : itrc) (m0 : sm) (outs : list sm_out) : Prop := {
  rr_calm : Forall (calm My_ID) es;
  rr_whole : Forall whole (primes es);
  rr_run : exists spines_ok locations int_ok ext_ok,
    itrc_run spines_ok My_ID is_cc locations es (itrc_init int_ok ext_ok) = Ret (tt, s);
  rr_master : exists m1, answers My_ID (sm_inputs (itrc_sent s)) m0 outs m1;
  rr_read : prefix (answers_in es) (map reply_of outs) }.

Definition asked (es : list event) : list (ordinal * sm_message) := fd_asked (fold_left feed_step (primes es) feed_init).

Lemma run_linked My_ID is_cc es s m0 outs : replica_run My_ID is_cc es s m0 outs ->
  sm_inputs (itrc_sent s) = map snd (asked es) /\
  forall x, In x (itrc_sent s) -> to_replica x = true ->
    exists k o u, fst <$> asked es !! k = Some o /\ outs !! k = Some u /\ labelled My_ID o (reply_of u) x.
Proof.
  intros [Hc _ (sp & loc & i & e & Hr) (m1 & Ha) Hp].
  pose proof (wp_Ret _ _ _ _ _ _ (wpa_itrc_run sp My_ID is_cc loc es (itrc_init i e) (quiet_init i e) Hc) Hr) as [_ Hl].
  destruct Hl as (a & labels & new & F1 & F2 & F3 & F4 & F5 & F6). cbn in F2, F4. subst new.
  assert (Ea : asked es = a) by (unfold asked; change feed_init with (mkFeed (recvd_ord (itrc_init i e)) (progress (itrc_init i e)) []); rewrite F1; reflexivity).
  split; [rewrite Ea; exact F5|]. intros x Hx Hto. rewrite Forall_forall in F6.
  destruct (F6 x (proj2 (list_elem_of_In _ _) Hx) Hto) as (o & r & Hin & Hlab).
  apply in_zip in Hin as (k & Hk1 & Hk2). destruct Hp as [post Hp].
  assert (Hm : (map reply_of outs) !! k = Some r) by (rewrite Hp; apply lookup_app_l_Some, Hk2).
  rewrite list_lookup_fmap in Hm. destruct (outs !! k) as [u|] eqn:Eu; [|discriminate]. injection Hm as <-.
  exists k, o, u. repeat split; auto. rewrite Ea, <- list_lookup_fmap.
  change (fst <$> a) with (map fst a). rewrite F2. apply lookup_app_l_Some, Hk1.
Qed.

Lemma asked_once es k k' o : fst <$> asked es !! k = Some o -> fst <$> asked es !! k' = Some o -> k = k'.
Proof.
  pose proof (feed_sorted_run (primes es) feed_init feed_init_sorted) as [Hs _]. fold (asked es) in Hs.
  rewrite <- !list_lookup_fmap. apply (sorted_once _ _ (fun x (H : ord_lt x x) => ltac:(ords)) Hs).
Qed.

(** The answers of two replicas under one ordinal are one. *)
Lemma same_answer id1 id2 cc1 cc2 es1 es2 s1 s2 m1 m2 outs1 outs2 k1 k2 o u1 u2 :
  replica_run id1 cc1 es1 s1 m1 outs1 -> replica_run id2 cc2 es2 s2 m2 outs2 ->
  same_prefix (primes es1) (primes es2) -> (length (primes es1) <= length (primes es2))%nat -> agree m1 m2 ->
  fst <$> asked es1 !! k1 = Some o -> outs1 !! k1 = Some u1 ->
  fst <$> asked es2 !! k2 = Some o -> outs2 !! k2 = Some u2 -> u1 = u2.
Proof.
  intros R1 R2 Hs Hl Hm K1 U1 K2 U2. destruct (feed_prefix _ _ Hl Hs) as [a Ea]. fold (asked es1) (asked es2) in Ea.
  destruct (run_linked _ _ _ _ _ _ R1) as [I1 _]. destruct (run_linked _ _ _ _ _ _ R2) as [I2 _].
  destruct (rr_master _ _ _ _ _ _ R1) as [t1 A1]. destruct (rr_master _ _ _ _ _ _ R2) as [t2 A2].
  rewrite I1 in A1. rewrite I2, Ea, map_app in A2.
  destruct (answers_app _ _ _ _ _ _ A2) as (osa & osb & t & -> & A3 & _).
  assert (Ho : Forall ordered (map snd (asked es1))) by (apply feed_ordered; [apply R1|constructor]).
  rewrite <- (answers_agree _ _ _ _ _ _ _ _ _ Ho Hm A1 A3) in U2.
  assert (K1' : fst <$> asked es2 !! k1 = Some o).
  { rewrite Ea. destruct (asked es1 !! k1) eqn:E; [|discriminate]. rewrite (lookup_app_l_Some _ _ _ _ E). exact K1. }
  pose proof (asked_once es2 k1 k2 o K1' K2) as <-.
  rewrite (lookup_app_l_Some _ _ _ _ U1) in U2. congruence.
Qed.
End Replica.
