(* ===== verification/ItrcProps.v ===== *)
(** What the channel between Prime, the masters and the clients guarantees, with
    concrete runs, and what a faulty replica or a reset does to it. *)
From Stdlib Require Import ZArith Lia List Bool Sorting.Sorted.
From Stdlib Require Import Strings.Byte.
From stdpp Require Import base list.
From S2P Require Import Prelude Memory Config Crypto ScadaPackets ScadaGrid ScadaInit ScadaMaster ScadaCorrect ScadaMasterCorrect ScadaProps KeyValue ItrcState Itrc ItrcClient ItrcCorrect ItrcFeed ItrcSystem.

(** ** Runs *)
Section Runs.
Context {crypto : Crypto} {crypto_ok : CryptoOk crypto} {tc : Threshold} (spines_ok : nat -> bool).
Context (My_ID : Z) (is_cc : bool) (locations : key_value).

(** The shares of a run: received under the sender's signature, or the replica's own. *)
Definition sent_in (es : list event) (i : Z) (m : tc_share_msg) : Prop :=
  (exists x, In (From_Internal (Some x)) es /\ RSA_Verify_Internal x = true /\ im_machine_id x = i /\ im_body x = TC_SHARE m)
  \/ (i = My_ID /\ exists o bs, In (From_SM (Sm_Client bs)) es /\ m = own_share My_ID o bs).

Definition vouched_in (es : list event) (i : Z) (m : state_xfer_msg) : Prop :=
  exists x st, In (From_Internal (Some x)) es /\ RSA_Verify_Internal x = true /\ im_machine_id x = i /\
    im_body x = Int_State st /\ m = received st.

Lemma heard_in es e : In e es -> heard My_ID (sent_in es) (vouched_in es) e.
Proof.
  intros H. destruct e as [m|[bs|m]|[m|]|i x]; cbn [heard]; auto.
  - intros o. right. split; [reflexivity|]. exists o, bs. auto.
  - intros Hv. destruct (im_body m) as [tcm|st|] eqn:E; [left; exists m; auto|exists m, st; auto|exact I].
Qed.

Lemma wp_itrc_run (F : fault -> Prop) (Sent : Z -> tc_share_msg -> Prop) Vouched es : F AssertFailure -> 1 <= My_ID <= NUM_SM ->
  forall s, itrc_ok My_ID is_cc Sent Vouched s -> Forall sized es -> Forall (heard My_ID Sent Vouched) es ->
  wp F (itrc_run spines_ok My_ID is_cc locations es)
    (fun _ s' => itrc_ok My_ID is_cc Sent Vouched s' /\
       (exists new, itrc_sent s' = itrc_sent s ++ new /\ Forall (out_ok My_ID Sent Vouched) new) /\
       (forallb (fun e => negb (is_reset e)) es = true -> advances My_ID is_cc Sent Vouched s s')) s.
Proof.
  intros HF Hid. induction es as [|e es IH]; intros s Hs Hz Hh; cbn [itrc_run].
  { apply wp_ret. split; [exact Hs|]. split; [exists []; rewrite app_nil_r; split; [reflexivity|constructor]|].
    intros _. apply advances_refl; reflexivity. }
  apply Forall_cons in Hz as [Hz Hzs]. apply Forall_cons in Hh as [Hh Hhs]. apply wp_bind.
  eapply wp_conseq; [apply (wp_ITRC_Master spines_ok My_ID is_cc locations Hid Sent Vouched F HF e s Hs Hz Hh)|].
  intros ? s1 [Hs1 Hpost]. eapply wp_conseq; [apply (IH s1 Hs1 Hzs Hhs)|].
  intros ? s2 (Hs2 & (l2 & E2 & O2) & Hadv). split; [exact Hs2|].
  assert (Hout : exists l1, itrc_sent s1 = itrc_sent s ++ l1 /\ Forall (out_ok My_ID Sent Vouched) l1).
  { destruct (is_reset e); [destruct Hpost as [E1 _]; eexists; split; [exact E1|repeat constructor]|].
    destruct Hpost as (l1 & E1 & O1 & _). eauto. }
  split.
  - destruct Hout as (l1 & E1 & O1). exists (l1 ++ l2). rewrite E2, E1, app_assoc. split; [reflexivity|apply Forall_app; auto].
  - cbn [forallb]. intros [Hr Hrs]%andb_true_iff. apply negb_true_iff in Hr. rewrite Hr in Hpost.
    eapply advances_trans; [exact Hpost|apply Hadv, Hrs].
Qed.
End Runs.

(** ** Delivery of a signed answer *)
(** Where the code sends a message to. *)
Definition destination (locations : key_value) (p : list byte) : option (client_addr * Z) :=
  match word_at p 4 o_message_type with
  | None => None
  | Some type =>
      if type =? RTU_FEEDBACK_T then
        match word_at p 4 o_feedback_sub with
        | Some sub => option_map (fun loc => (SPINES_RTU_ADDR, wrap16 (RTU_BASE_PORT + loc))) (key_value_get (sint32 sub) locations)
        | None => None
        end
      else if type =? HMI_UPDATE_T then
        option_map (fun x => (SPINES_HMI_ADDR, wrap16 (HMI_BASE_PORT + x))) (word_at p 4 o_update_scen_type)
      else if type =? BENCHMARK_T then
        option_map (fun x => (SPINES_RTU_ADDR, wrap16 (RTU_BASE_PORT + x))) (word_at p 4 o_benchmark_sender)
      else None
  end.

(** What the masters' threshold keys do: shares of one digest from enough
    replicas combine to a signature. *)
Class ThresholdOk (c : Crypto) (t : Threshold) := {
  combine_verifies : forall l d, NoDup (map fst l) -> REQ_SHARES <= Z.of_nat (length l) ->
    Forall (fun p => 1 <= fst p <= NUM_SM /\ snd p = genIndSig (fst p) d) l ->
    TC_verify d (TC_Combine_Sigs l d) 1 = true
}.

Section Delivery.
Context {crypto : Crypto} {tc : Threshold} {tc_ok' : ThresholdOk crypto tc} (My_ID : Z) (locations : key_value).
Hypothesis My_ID_range : 1 <= My_ID <= NUM_SM.

(** The share a correct replica makes. *)
Definition genuine (i : Z) (o : ordinal) (p : list byte) : tc_share_msg := mkShare o p (genIndSig i (tc_digest o p)).

Lemma slot_head {A} (ord_of : A -> ordinal) fresh n q : sorted_queue ord_of (n :: q) ->
  slot ord_of fresh (ord_of n) (n :: q) = (n :: q, 0).
Proof.
  intros H. unfold slot, find_slot. cbn [nodes_before].
  assert (Hself : ITRC_Ord_Compare (ord_of n) (ord_of n) = 0)
    by (destruct (Ord_Compare_cases (ord_of n) (ord_of n)) as [[H1 E]|[[H1 E]|[H1 E]]]; try exact E; ords).
  rewrite Hself. cbn [Z.ltb Z.compare]. change (aget (n :: q) 0) with (Some n). cbn beta iota.
  rewrite Hself. destruct (last (n :: q)) as [t|] eqn:El; [|apply last_None in El; discriminate].
  assert (Hle : ord_le (ord_of n) (ord_of t)).
  { apply last_Some in El as [q' Eq]. destruct q' as [|x q']; cbn [app] in Eq; injection Eq as -> ->; [ords|].
    inversion H as [|? ? _ H2]; subst. rewrite Forall_forall in H2. left. apply H2, elem_of_app. right. left. }
  destruct (Ord_Compare_cases (ord_of n) (ord_of t)) as [[H1 E]|[[H1 E]|[H1 E]]]; rewrite E; [reflexivity..|ords].
Qed.

Lemma wp_send_reaches f addr port s : destination locations (tf_payload f) = Some (addr, port) -> sp_ext_up s = true ->
  wp no_fault (ITRC_Send_TC_Final (fun _ => true) locations f)
    (fun r s' => r = 1 /\ itrc_sent s' = itrc_sent s ++ [To_Client addr port f]) s.
Proof.
  intros Hd Hup. unfold ITRC_Send_TC_Final. apply wp_bind, wp_get. unfold destination in Hd.
  destruct (word_at (tf_payload f) 4 o_message_type) as [type|] eqn:Et; [|discriminate].
  apply wp_bind. eapply wp_load_value; [exact Et|].
  assert (Hsend : forall a p, (a, wrap16 p) = (addr, port) ->
    wp no_fault (ok <- spines_sendto (fun _ => true) (sp_ext_up s) (To_Client a (wrap16 p) f) ;; ret (if ok : bool then 1 else -1))
      (fun r s' => r = 1 /\ itrc_sent s' = itrc_sent s ++ [To_Client addr port f]) s).
  { intros a p [= -> ->]. unfold spines_sendto, emit_out. rewrite Hup. cbn. auto. }
  destruct (type =? RTU_FEEDBACK_T).
  { destruct (word_at (tf_payload f) 4 o_feedback_sub) as [x|] eqn:Ex; [|discriminate].
    apply wp_bind. eapply wp_load_value; [exact Ex|]. destruct (key_value_get (sint32 x) locations); [|discriminate].
    injection Hd as <- <-. apply Hsend. reflexivity. }
  destruct (type =? HMI_UPDATE_T).
  { destruct (word_at (tf_payload f) 4 o_update_scen_type) as [x|] eqn:Ex; [|discriminate].
    apply wp_bind. eapply wp_load_value; [exact Ex|]. injection Hd as <- <-. apply Hsend. reflexivity. }
  destruct (type =? BENCHMARK_T); [|discriminate].
  destruct (word_at (tf_payload f) 4 o_benchmark_sender) as [x|] eqn:Ex; [|discriminate].
  apply wp_bind. eapply wp_load_value; [exact Ex|]. injection Hd as <- <-. apply Hsend. reflexivity.
Qed.

(** All shares heard of a node are correct replicas' shares of one answer. *)
Definition in_agreement (n : tc_node) (p : list byte) : Prop :=
  forall i m, aget (tn_recvd n) i = Some true -> aget (tn_shares n) i = Some m -> m = genuine i (tn_ord n) p.

Lemma construct_agreed n p i : Z.of_nat (length (tn_shares n)) = MAX_SHARES + 1 -> tn_count n = count_true (tn_recvd n) ->
  REQ_SHARES <= tn_count n -> in_agreement n p ->
  1 <= i <= NUM_SM -> i <> My_ID -> aget (tn_recvd n) i = Some true -> aget (tn_recvd n) My_ID = Some true ->
  exists sig, PKT_Construct_TC_Final_Msg (tn_ord n) n = Some (mkFinal (tn_ord n) p sig).
Proof.
  intros Hl Hc Hreq Hag Hi Hne Ei Em. unfold PKT_Construct_TC_Final_Msg. rewrite (proj2 (Z.ltb_ge _ _)) by lia.
  pose proof (matching_shares_in (tn_ord n) n) as Hin. pose proof (matching_shares_senders (tn_ord n) n) as Hnd.
  assert (Hhas : forall j, 1 <= j <= NUM_SM -> aget (tn_recvd n) j = Some true -> In (j, genuine j (tn_ord n) p) (matching_shares (tn_ord n) n)).
  { intros j Hj Ej. destruct (aget_is_Some (tn_shares n) j) as [m Es].
    { rewrite Hl. unfold MAX_SHARES, SM_NUM_F, SM_NUM_K. unfold NUM_SM in Hj. lia. }
    pose proof (Hag j m Ej Es) as ->. apply list_elem_of_In, list_elem_of_omap. exists j. split; [apply elem_of_seqZ; lia|].
    unfold matching_share. rewrite Ej, Es, decide_True by reflexivity. reflexivity. }
  pose proof (Hhas i Hi Ei) as Hini. pose proof (Hhas My_ID My_ID_range Em) as Hinm.
  destruct (matching_shares (tn_ord n) n) as [|[j m] l]; [destruct Hini|].
  assert (Hlen : REQ_SHARES <= Z.of_nat (length ((j, m) :: l))).
  { destruct l; [|cbn [length]; unfold REQ_SHARES, SM_NUM_F; lia]. destruct Hini as [Hini|[]], Hinm as [Hinm|[]]. congruence. }
  rewrite (proj2 (Z.ltb_ge _ _)) by exact Hlen.
  assert (Hgen : forall k x, In (k, x) ((j, m) :: l) -> 1 <= k <= NUM_SM /\ x = genuine k (tn_ord n) p).
  { intros k x Hk. destruct (Hin k x Hk) as (A & B & C & _). split; [exact A|]. exact (Hag k x B C). }
  pose proof (proj2 (Hgen j m (or_introl eq_refl))) as Ej. replace (ts_payload m) with p by (rewrite Ej; reflexivity).
  eexists. unfold TC_Verify_Signature. cbn [Z.eqb NUM_SITES Z.ltb Z.compare orb Pos.compare Pos.compare_cont].
  change ((1 =? 0) || (NUM_SITES <? 1)) with false. cbn iota. rewrite combine_verifies; [reflexivity| | |].
  - rewrite map_map. cbn. exact Hnd.
  - rewrite length_map. exact Hlen.
  - apply Forall_forall. intros [k x] Hk. apply list_elem_of_In, in_map_iff in Hk as ([k' x'] & [= <- <-] & Hk).
    destruct (Hgen k' x' Hk) as [A ->]. split; [exact A|reflexivity].
Qed.

Definition nothing_known {A B} (_ : A) (_ : B) : Prop := True.

(** The state with the share of [i] put in: the signature is made. *)
Lemma insert_completes s n q i p recvd shares f : tcq_pending s = n :: q -> sorted_queue tn_ord (n :: q) ->
  ord_lt (applied_ord s) (tn_ord n) -> tn_done n = false -> aget (tn_recvd n) i = Some false ->
  aset (tn_recvd n) i true = Some recvd -> aset (tn_shares n) i (genuine i (tn_ord n) p) = Some shares ->
  REQ_SHARES <= tn_count n + 1 -> flag_at recvd My_ID = true ->
  PKT_Construct_TC_Final_Msg (tn_ord n) (tc_stored shares (tc_heard recvd n)) = Some f ->
  ITRC_Insert_TC_ID My_ID (genuine i (tn_ord n) p) i NORMAL_ORD s =
  Ret (tt, with_tcq (tc_finished (Some f) (tc_stored shares (tc_heard recvd n)) :: q) s).
Proof.
  intros Eq Hs Hlt Hd Ei Er Es Hc Hf Hpkt. unfold ITRC_Insert_TC_ID, bind at 1, get. cbn [ts_ord genuine].
  destruct (Ord_Compare_cases (tn_ord n) (applied_ord s)) as [[H1 E]|[[H1 E]|[H1 E]]]; rewrite E; [ords|ords|]. cbn [Z.leb Z.compare].
  rewrite Eq, (slot_head tn_ord new_tc_node n q Hs). unfold bind, put, or_oob.
  change (aget (n :: q) 0) with (Some n). cbn [ret]. unfold ret. rewrite Hd, Ei, Er. cbn [NORMAL_ORD SKIP_ORD Z.eqb Pos.eqb].
  change (NORMAL_ORD =? SKIP_ORD) with false. cbn iota. cbn [tn_shares tc_heard]. rewrite Es.
  cbn [tn_count tc_stored tc_heard tn_recvd]. rewrite (proj2 (Z.leb_le _ _)) by lia. rewrite Hf. cbn [andb].
  fold (tc_heard recvd n). unfold set_tc, bind, get, or_oob, put. cbn [tcq_pending with_tcq].
  cbn [ts_ord genuine] in Hpkt. rewrite Hpkt. reflexivity.
Qed.

Lemma wp_share_completes is_cc s n q i p addr port : is_cc = true -> itrc_ok My_ID is_cc nothing_known nothing_known s ->
  tcq_pending s = n :: q -> tn_done n = false -> ITRC_Ord_Consec (applied_ord s) (tn_ord n) = true ->
  aget (tn_recvd n) My_ID = Some true -> in_agreement n p -> 1 <= i <= NUM_SM -> aget (tn_recvd n) i = Some false ->
  Z.of_nat (length p) = MAX_PAYLOAD_SIZE -> destination locations p = Some (addr, port) -> sp_ext_up s = true ->
  wp no_fault (ITRC_Insert_TC_ID My_ID (genuine i (tn_ord n) p) i NORMAL_ORD ;;; deliver (fun _ => true) My_ID locations)
    (fun _ s' => exists sig rest, itrc_sent s' = itrc_sent s ++ To_Client addr port (mkFinal (tn_ord n) p sig) :: rest) s.
Proof.
  intros Hcc Hs Eq Hd Hcons Em Hag Hi Ei Hp Hdest Hup.
  pose proof (io_tcq _ _ _ _ _ Hs) as Hsort. pose proof (io_after _ _ _ _ _ Hs) as Haft. pose proof (io_tc _ _ _ _ _ Hs) as Hall.
  rewrite Eq in Hsort, Haft, Hall. apply Forall_cons in Haft as [Hlt Haft]. apply Forall_cons in Hall as [Hn Hall].
  pose proof (aget_Some_bounds _ _ _ Ei) as Hb.
  pose proof (aset_Some (tn_recvd n) i true Hb) as Er. set (recvd := <[_ := true]> (tn_recvd n)) in Er.
  assert (Hb' : 0 <= i < Z.of_nat (length (tn_shares n))) by (rewrite (to_shares _ _ _ Hn), <- (to_recvd _ _ _ Hn); exact Hb).
  pose proof (aset_Some (tn_shares n) i (genuine i (tn_ord n) p) Hb') as Es. set (shares := <[_ := genuine _ _ _]> _) in Es.
  assert (Hne : i <> My_ID) by congruence.
  pose proof (tc_ok_stored My_ID nothing_known n i (genuine i (tn_ord n) p) recvd shares Hn Hd Ei Er Es I (conj eq_refl eq_refl) Hp) as Hn'.
  assert (Hcount : REQ_SHARES <= tn_count n + 1).
  { rewrite (to_count _ _ _ Hn). unfold count_true, REQ_SHARES, SM_NUM_F.
    destruct (List.filter (fun b => b) (tn_recvd n)) as [|b l] eqn:E; [|cbn [length]; lia].
    assert (In true (List.filter (fun b => b) (tn_recvd n))) as H by (apply filter_In; split; [apply list_elem_of_In, (aget_elem _ _ _ Em)|reflexivity]).
    rewrite E in H. destruct H. }
  assert (Em' : aget recvd My_ID = Some true) by (rewrite (aget_aset _ _ _ _ _ Er); destruct (Z.eq_dec i My_ID); [reflexivity|exact Em]).
  destruct (construct_agreed (tc_stored shares (tc_heard recvd n)) p i) as [sig Hsig].
  - apply (to_shares _ _ _ Hn').
  - apply (to_count _ _ _ Hn').
  - exact Hcount.
  - intros j m. cbn. rewrite (aget_aset _ _ _ _ _ Er), (aget_aset _ _ _ _ _ Es).
    destruct (Z.eq_dec i j) as [<-|]; [intros _ [= <-]; reflexivity|apply Hag].
  - exact Hi.
  - exact Hne.
  - cbn. eapply aget_aset_eq, Er.
  - exact Em'.
  - cbn [tn_ord tc_stored tc_heard] in Hsig.
    pose proof (insert_completes s n q i p recvd shares _ Eq Hsort Hlt Hd Ei Er Es Hcount (proj2 (flag_at_true _ _) Em') Hsig) as Hins.
    set (s1 := with_tcq _ s) in Hins.
    assert (Hs1 : itrc_ok My_ID is_cc nothing_known nothing_known s1).
    { pose proof (wp_ITRC_Insert_TC_ID My_ID is_cc My_ID_range nothing_known nothing_known no_fault (genuine i (tn_ord n) p) i NORMAL_ORD s Hs Hcc Hi Hp (fun _ => I)) as W.
      exact (proj1 (wp_Ret _ _ _ _ _ _ W Hins)). }
    apply wp_bind. unfold wp at 1. rewrite Hins. unfold deliver. apply wp_bind, wp_get. cbn [deliver_ready].
    apply wp_bind. unfold ITRC_TC_Ready_Deliver. apply wp_bind, wp_get.
    pose proof (tc_ready_spec My_ID nothing_known (tcq_pending s1) (applied_ord s1) (io_tcq _ _ _ _ _ Hs1) (io_after _ _ _ _ _ Hs1) (io_tc _ _ _ _ _ Hs1)) as Hr.
    assert (Etr : tc_ready My_ID (applied_ord s1) (tcq_pending s1) = (Some (Some (mkFinal (tn_ord n) p sig)), tn_ord n, q)).
    { cbn [tcq_pending s1 with_tcq applied_ord tc_ready tn_done tc_finished tn_recvd tc_stored tc_heard tn_ord tn_skip tn_tcf].
      rewrite (proj2 (flag_at_true _ _) Em'), Hcons, (to_skip _ _ _ Hn Hd). reflexivity. }
    rewrite Etr in Hr |- *. destruct Hr as (A & B & C & _). apply wp_bind, wp_put, wp_ret.
    set (s2 := with_applied (tn_ord n) (with_tcq q s1)).
    assert (Hs2 : itrc_ok My_ID is_cc nothing_known nothing_known s2) by (apply itrc_ok_deliver; assumption).
    apply wp_bind. eapply wp_conseq.
    { apply wp_and; [apply (wp_send_reaches _ addr port); [exact Hdest|exact Hup]|].
      apply (wp_ITRC_Send_TC_Final (fun _ => true) locations any_fault). exact Hp. }
    intros r s3 [[-> Hsent] (c & new & E3 & _)]. cbn [Z.ltb Z.compare].
    assert (Hs3 : itrc_ok My_ID is_cc nothing_known nothing_known s3).
    { rewrite E3. eapply itrc_ok_ext; [..|exact Hs2]; reflexivity. }
    eapply wp_conseq.
    { apply (wp_deliver_ready (fun _ => true) My_ID is_cc locations nothing_known nothing_known no_fault); [exact Hs3|exact Hcc|].
      rewrite E3. cbn. lia. }
    intros ? s4 (_ & (l & E4 & _) & _). exists sig, l. rewrite E4, Hsent, <- app_assoc. reflexivity.
Qed.
End Delivery.

(** ** Clients *)
Section ClientRuns.
Context {crypto : Crypto} (spines_ok : nat -> bool) (Prime_Client_ID : Z).

(** What reached the application. *)
Definition applications (l : list client_out) : list (list byte) :=
  omap (fun o => match o with To_Application bs => Some bs | _ => None end) l.

(** The bytes of a message that was received, verified and is for clients. *)
Definition accepted (es : list client_event) (m : client_message) (bs : list byte) : Prop :=
  In (Cl_Spines (Some m)) es /\ RSA_Verify_Replica m = true /\
  TC_Verify_Signature 1 (tf_thresh_sig (cm_final m)) (tc_digest (tf_ord (cm_final m)) (tf_payload (cm_final m))) = true /\
  exists type len, word_at (tf_payload (cm_final m)) 4 o_message_type = Some type /\
    (type = HMI_UPDATE_T \/ type = RTU_FEEDBACK_T \/ type = BENCHMARK_T) /\
    word_at (tf_payload (cm_final m)) 4 o_message_len = Some len /\
    slice (tf_payload (cm_final m) ++ tf_thresh_sig (cm_final m) ++ cm_rest m) 0 (sz_scada_message + sint32 len) = Some bs.

Definition client_step (es : list client_event) (s s' : client) : Prop :=
  exists ms new, chain (applied s) (map (fun m => tf_ord (cm_final m)) ms) (applied s') /\
    cl_sent s' = cl_sent s ++ new /\ Forall2 (accepted es) ms (applications new).

Lemma client_step_same es s s' new : applied s' = applied s -> cl_sent s' = cl_sent s ++ new -> applications new = [] ->
  client_step es s s'.
Proof. intros E1 E2 E3. exists [], new. rewrite E3. split; [cbn; rewrite E1; ords|]. auto. Qed.

Lemma client_step_trans es s1 s2 s3 : client_step es s1 s2 -> client_step es s2 s3 -> client_step es s1 s3.
Proof.
  intros (m1 & l1 & C1 & E1 & F1) (m2 & l2 & C2 & E2 & F2). exists (m1 ++ m2), (l1 ++ l2).
  rewrite map_app, E2, E1, app_assoc. split; [eapply chain_app; eassumption|]. split; [reflexivity|].
  unfold applications in *. rewrite omap_app. apply Forall2_app; assumption.
Qed.

Lemma wp_from_spines es m s : In (Cl_Spines (Some m)) es -> wp any_fault (from_spines m) (fun _ => client_step es s) s.
Proof.
  intros Hin. unfold from_spines.
  assert (Hsame : client_step es s s) by (eapply (client_step_same es s s []); [reflexivity|rewrite app_nil_r; reflexivity|reflexivity]).
  destruct (RSA_Verify_Replica m) eqn:Ev; cbn [negb]; [|apply wp_ret; exact Hsame].
  destruct (TC_Verify_Signature _ _ _) eqn:Et; cbn [negb]; [|apply wp_ret; exact Hsame].
  apply wp_bind, wp_load; [exact I|]. intros type Etype.
  destruct (_ || _) eqn:Eok; cbn [negb]; [|apply wp_ret; exact Hsame].
  apply wp_bind, wp_load; [exact I|]. intros len Elen. apply wp_bind, wp_get.
  destruct (Ord_Compare_cases (tf_ord (cm_final m)) (applied s)) as [[H E]|[[H E]|[H E]]]; rewrite E; cbn [Z.leb Z.compare];
    [apply wp_ret; exact Hsame..|].
  apply wp_bind, wp_put, wp_bind, wp_load_bytes; [exact I|]. intros bs Ebs.
  unfold client_emit. apply wp_bind, wp_get, wp_put. exists [m], [To_Application bs]. cbn.
  split; [split; [exact H|ords]|]. split; [reflexivity|]. constructor; [|constructor].
  repeat split; auto. exists type, len. repeat split; auto.
  apply orb_true_iff in Eok as [Eok|Eok]; [apply orb_true_iff in Eok as [Eok|Eok]|]; lia.
Qed.

Lemma wp_update_sent es u l : forall s, wp any_fault (send_update spines_ok u l) (fun _ => client_step es s) s.
Proof.
  induction l as [|i l IH]; intros s; cbn [send_update].
  { apply wp_ret. eapply (client_step_same es s s []); [reflexivity|rewrite app_nil_r; reflexivity|reflexivity]. }
  unfold client_sendto, client_emit. apply wp_bind, wp_bind, wp_get, wp_bind, wp_put. destruct (_ && _).
  - apply wp_bind, wp_bind, wp_get, wp_put, wp_ret. eapply wp_conseq; [apply IH|]. intros ? s'. cbn.
    apply client_step_trans. eapply (client_step_same es _ _ [_]); reflexivity.
  - apply wp_ret, wp_bind, wp_get, wp_put. eapply (client_step_same es _ _ []); [reflexivity|rewrite app_nil_r; reflexivity|reflexivity].
Qed.

Lemma wp_client_run es l : (forall e, In e l -> In e es) ->
  forall s, wp any_fault (client_run spines_ok Prime_Client_ID l) (fun _ => client_step es s) s.
Proof.
  induction l as [|e l IH]; intros Hl s; cbn [client_run].
  { apply wp_ret. eapply (client_step_same es s s []); [reflexivity|rewrite app_nil_r; reflexivity|reflexivity]. }
  apply wp_bind. apply wp_conseq with (Q' := fun _ => client_step es s).
  - assert (Hsame : forall s', applied s' = applied s -> cl_sent s' = cl_sent s -> client_step es s s')
      by (intros s' H1 H2; eapply (client_step_same es s s' []); [exact H1|rewrite app_nil_r; exact H2|reflexivity]).
    destruct e as [[m|]|buff n|ok]; cbn [ITRC_Client].
    + apply wp_bind, wp_get. destruct (cl_up s); [apply wp_from_spines, Hl; left; reflexivity|apply wp_ret, Hsame; reflexivity].
    + apply wp_bind, wp_get, wp_put, Hsame; reflexivity.
    + unfold from_application. destruct (_ <? _); [apply wp_ret, Hsame; reflexivity|]. apply wp_bind, wp_get.
      destruct (cl_up s); cbn [negb]; [|apply wp_ret, Hsame; reflexivity].
      do 2 (apply wp_bind, wp_load; [exact I|]; intros ? _). apply wp_bind, wp_load_bytes; [exact I|]. intros bs _.
      apply wp_update_sent.
    + apply wp_bind, wp_get, wp_put, Hsame; reflexivity.
  - intros ? s1 H1. eapply wp_conseq; [apply IH; intros; apply Hl; right; assumption|].
    intros ? s2. apply client_step_trans, H1.
Qed.
End ClientRuns.

(** ** Properties *)
(** C28. Two replicas that Prime gives the same ordered messages, without a system
    reset (ordinals start again after one) and without a state transfer to the
    replica itself, and whose masters start in agreement and answer every message,
    send other replicas the same: shares under one ordinal have one payload, states
    under one ordinal are equal.  How messages from replicas, the masters' answers
    and failures of the network interleave at each replica does not matter, nor how
    far each has got. *)
Theorem replicas_share_the_same `{Crypto} `{Threshold} (id1 id2 : Z) (cc1 cc2 : bool) (es1 es2 : list event)
    (s1 s2 : itrc) (m1 m2 : sm) (outs1 outs2 : list sm_out) :
  replica_run id1 cc1 es1 s1 m1 outs1 -> replica_run id2 cc2 es2 s2 m2 outs2 ->
  same_prefix (primes es1) (primes es2) -> agree m1 m2 ->
  (forall i j x y, In (Share_To i x) (itrc_sent s1) -> In (Share_To j y) (itrc_sent s2) ->
     ts_ord x = ts_ord y -> ts_payload x = ts_payload y) /\
  (forall i j x y, In (State_To i x) (itrc_sent s1) -> In (State_To j y) (itrc_sent s2) ->
     sx_ord x = sx_ord y -> i = j /\ x = y).
Proof.
  intros R1 R2 Hs Ha. assert (Ha' : agree m2 m1) by (destruct Ha as (A & B & C & D); split; auto).
  assert (Hsame : forall k1 k2 o u1 u2, fst <$> asked es1 !! k1 = Some o -> outs1 !! k1 = Some u1 ->
    fst <$> asked es2 !! k2 = Some o -> outs2 !! k2 = Some u2 -> u1 = u2).
  { intros k1 k2 o u1 u2 A1 B1 A2 B2. destruct (Nat.le_ge_cases (length (primes es1)) (length (primes es2))) as [Hl|Hl].
    - eapply (same_answer id1 id2); eassumption.
    - symmetry. assert (Hs' : same_prefix (primes es2) (primes es1)).
      { intros i x y Hx Hy. destruct (Hs i y x Hy Hx) as [E1 [E2|(a & b & E2 & E3)]]; (split; [auto|eauto]). }
      eapply (same_answer id2 id1); eassumption. }
  destruct (run_linked _ _ _ _ _ _ R1) as [_ L1]. destruct (run_linked _ _ _ _ _ _ R2) as [_ L2].
  split; intros i j x y Hx Hy Ho;
    destruct (L1 _ Hx eq_refl) as (k1 & o1 & u1 & A1 & B1 & C1); destruct (L2 _ Hy eq_refl) as (k2 & o2 & u2 & A2 & B2 & C2);
    cbn [labelled] in C1, C2.
  - destruct C1 as (bs1 & E1 & ->), C2 as (bs2 & E2 & ->). cbn in Ho. subst o2.
    pose proof (Hsame _ _ _ _ _ A1 B1 A2 B2) as <-. rewrite E1 in E2. injection E2 as <-. reflexivity.
  - destruct C1 as (st1 & E1 & -> & ->), C2 as (st2 & E2 & -> & ->). cbn in Ho. subst o2.
    pose proof (Hsame _ _ _ _ _ A1 B1 A2 B2) as <-. rewrite E1 in E2. injection E2 as <-. auto.
Qed.


(** C30. In a run without system resets and without a state transfer to the replica,
    its master is asked exactly what the specification of Prime's order asks:
    every update that is next, valid and newer than the client's last, once and in
    order, and a state for every transfer to another replica; and what the replica
    shares is the k-th answer under the ordinal of the k-th question, for some k.
    This is the ordinal of the update that is answered as long as the master
    answers every message ([unanswered_command_shifts_labels]). *)
Theorem channel_refines_feed `{Crypto} `{Threshold} (spines_ok : nat -> bool) (My_ID : Z) (is_cc : bool)
    (locations : key_value) (int_ok ext_ok : bool) (es : list event) (s : itrc) :
  Forall (calm My_ID) es ->
  itrc_run spines_ok My_ID is_cc locations es (itrc_init int_ok ext_ok) = Ret (tt, s) ->
  let f := fold_left feed_step (primes es) feed_init in
  recvd_ord s = fd_last f /\ progress s = fd_progress f /\ sm_inputs (itrc_sent s) = map snd (fd_asked f) /\
  exists labels, map fst (fd_asked f) = labels ++ ord_queue s /\ length labels = length (answers_in es) /\
    Forall (fun x => to_replica x = true ->
      exists o r, In (o, r) (zip labels (answers_in es)) /\ labelled My_ID o r x) (itrc_sent s).
Proof.
  intros Hc R. pose proof (wp_Ret _ _ _ _ _ _ (wpa_itrc_run spines_ok My_ID is_cc locations es _ (quiet_init int_ok ext_ok) Hc) R)
    as [_ (a & labels & new & F1 & F2 & F3 & F4 & F5 & F6)]. cbn in F1, F2, F4. subst new.
  change (mkFeed zero_ord zero_progress []) with feed_init in F1. cbv zeta. rewrite F1. cbn.
  repeat split; auto. exists labels. auto.
Qed.

(** C31. A state the master is given comes from at least f+1 replicas that sent, under
    their signatures, states with the same digest. *)
Theorem applied_state_is_vouched `{c : Crypto} `{!CryptoOk c} `{Threshold} (spines_ok : nat -> bool) (My_ID : Z) (is_cc : bool)
    (locations : key_value) (int_ok ext_ok : bool) (es : list event) (s : itrc) (len : Z) (m : state_xfer_msg) :
  1 <= My_ID <= NUM_SM -> Forall sized es ->
  itrc_run spines_ok My_ID is_cc locations es (itrc_init int_ok ext_ok) = Ret (tt, s) ->
  In (To_SM (STATE_XFER len m)) (itrc_sent s) ->
  exists m0, agreed (vouched_in es) m0 /\
    m = PKT_Construct_State_Xfer_Msg (sx_target m0) (sx_num_clients m0) (sx_latest_update m0) (sx_contents m0).
Proof.
  intros Hid Hz R Hin.
  assert (Hh : Forall (heard My_ID (sent_in My_ID es) (vouched_in es)) es)
    by (apply Forall_forall; intros e He; apply heard_in, list_elem_of_In, He).
  pose proof (wp_Ret _ _ _ _ _ _ (wp_itrc_run spines_ok My_ID is_cc locations any_fault _ _ es I Hid _
    (itrc_init_ok My_ID is_cc _ _ int_ok ext_ok) Hz Hh) R) as (_ & (l & E & O) & _).
  cbn in E. rewrite E in Hin. rewrite Forall_forall in O. apply (O (To_SM (STATE_XFER len m))), list_elem_of_In, Hin.
Qed.

(** C32. A correct share that completes an answer is not lost, as long as no incorrect
    one came before it: when the answer's ordinal is next, the replica has answered
    itself, Spines is up and all shares it holds for the ordinal are the correct
    shares of that answer, the correct share of one more replica makes the signature
    and sends it to the client.  With an incorrect share among those held the answer
    is given up instead ([incorrect_share_gives_answer_up]). *)
Theorem enough_shares_are_delivered `{c : Crypto} `{t : Threshold} `{!ThresholdOk c t} (My_ID : Z) (locations : key_value) (s : itrc)
    (n : tc_node) (q : list tc_node) (x : internal_message) (p : list byte) (addr : client_addr) (port : Z) :
  1 <= My_ID <= NUM_SM -> itrc_ok My_ID true nothing_known nothing_known s -> sp_int_up s = true -> sp_ext_up s = true ->
  tcq_pending s = n :: q -> tn_done n = false -> ITRC_Ord_Consec (applied_ord s) (tn_ord n) = true ->
  aget (tn_recvd n) My_ID = Some true -> in_agreement n p ->
  Z.of_nat (length p) = MAX_PAYLOAD_SIZE -> destination locations p = Some (addr, port) ->
  RSA_Verify_Internal x = true -> im_body x = TC_SHARE (genuine (im_machine_id x) (tn_ord n) p) ->
  aget (tn_recvd n) (im_machine_id x) = Some false ->
  exists s' sig rest, ITRC_Master (fun _ => true) My_ID true locations (From_Internal (Some x)) s = Ret (tt, s') /\
    itrc_sent s' = itrc_sent s ++ To_Client addr port (mkFinal (tn_ord n) p sig) :: rest.
Proof.
  intros Hid Hs Hup Hext Hq Hd Hcons Hme Hag Hp Hdest Hv Hx Hnew.
  pose proof (wp_share_completes My_ID locations Hid true s n q (im_machine_id x) p addr port eq_refl Hs Hq Hd Hcons Hme Hag
    (verified_range x Hv) Hnew Hp Hdest Hext) as W.
  assert (W' : wp no_fault (ITRC_Master (fun _ => true) My_ID true locations (From_Internal (Some x)))
    (fun _ s' => exists sig rest, itrc_sent s' = itrc_sent s ++ To_Client addr port (mkFinal (tn_ord n) p sig) :: rest) s).
  { cbn [ITRC_Master]. apply wp_bind, wp_get. rewrite Hup. unfold from_internal. rewrite Hx, Hv. exact W. }
  destruct (wp_run _ _ _ W') as ([] & s' & E & sig & rest & Es). eauto.
Qed.

(** C33. Given events of the sizes its buffers have ([sized]: client indices within
    the arrays, lengths within the packets, states of the length they name), which
    the code does not check, the channel keeps its queues sorted and beyond what is
    applied, every node counts whom it has heard, what is finished is backed and
    what is collected agreed on, and it accesses no memory outside its arrays and
    buffers: only an assertion can stop it. *)
Theorem itrc_state_is_typed `{c : Crypto} `{!CryptoOk c} `{Threshold} (spines_ok : nat -> bool) (My_ID : Z) (is_cc : bool)
    (locations : key_value) (int_ok ext_ok : bool) (es : list event) :
  1 <= My_ID <= NUM_SM -> Forall sized es ->
  wp (fun f => f = AssertFailure) (itrc_run spines_ok My_ID is_cc locations es)
    (fun _ s => itrc_ok My_ID is_cc (sent_in My_ID es) (vouched_in es) s) (itrc_init int_ok ext_ok).
Proof.
  intros Hid Hz.
  assert (Hh : Forall (heard My_ID (sent_in My_ID es) (vouched_in es)) es)
    by (apply Forall_forall; intros e He; apply heard_in, list_elem_of_In, He).
  eapply wp_conseq; [apply wp_itrc_run; [reflexivity|exact Hid|apply itrc_init_ok|exact Hz|exact Hh]|].
  intros ? s (Hs & _). exact Hs.
Qed.

(** An application behind a client is given the messages of verified, threshold
    signed finals only, in the order of their ordinals and none twice. *)
Theorem client_applies_in_order `{Crypto} (spines_ok : nat -> bool) (Prime_Client_ID : Z) (up : bool)
    (es : list client_event) (s : client) :
  client_run spines_ok Prime_Client_ID es (client_init up) = Ret (tt, s) ->
  exists ms, StronglySorted ord_lt (map (fun m => tf_ord (cm_final m)) ms) /\
    Forall2 (accepted es) ms (applications (cl_sent s)).
Proof.
  intros R. pose proof (wp_Ret _ _ _ _ _ _ (wp_client_run spines_ok Prime_Client_ID es es (fun e He => He) (client_init up)) R)
    as (ms & new & C & E & F). cbn in E. subst new. exists ms. split; [eapply chain_sorted, C|exact F].
Qed.

(** ** Concrete runs *)
Definition toy_tc : Threshold := {| genIndSig := fun i _ => [byte_of i]; TC_Combine_Sigs := fun l _ => map (fun p => byte_of (fst p)) l |}.

Lemma toy_tc_ok : @ThresholdOk toy toy_tc.
Proof. split. reflexivity. Qed.

#[local] Existing Instances toy_ok toy_tc_ok.

Definition all_sent (n : nat) : bool := true.

(** The messages a channel has sent after a run, if nothing stopped it. *)
Definition sent_by (My_ID : Z) (es : list event) : option (list itrc_out) :=
  match itrc_run (crypto := toy) (tc := toy_tc) all_sent My_ID true [] es (itrc_init true true) with
  | Ret (_, s) => Some (itrc_sent s)
  | Fault _ => None
  end.

Definition state_after (My_ID : Z) (es : list event) : itrc :=
  match itrc_run (crypto := toy) (tc := toy_tc) all_sent My_ID true [] es (itrc_init true true) with
  | Ret (_, s) => s
  | Fault _ => itrc_init true true
  end.

(** A status message of an RTU as Prime orders it, and the master's answer. *)
Definition report (seq : Z) : rtu_status_msg :=
  mkRtuStatus (mkSeq 1 seq) (rs_rtu_id toy_report) (rs_scen_type toy_report) 0 0 (rs_data toy_report).

Definition ordered_report (o : ordinal) (seq : Z) : event := From_Prime (mkPrime 332 o (Client_Update 88 (RTU_DATA (report seq)))).

Definition answers_to (ms : list sm_message) : list sm_out :=
  match sm_run 1 ms ini_start with Ret (_, s) => ipc_sent s | Fault _ => [] end.

Definition report_answers : list sm_out := Eval vm_compute in answers_to [RTU_DATA (report 1); RTU_DATA (report 2)].

Definition reply_to (k : nat) : sm_reply :=
  match report_answers !! k with Some o => reply_of o | None => Sm_Client [] end.

Definition payload_of (k : nat) : list byte :=
  match reply_to k with Sm_Client bs => ts_payload (own_share (crypto := toy) (tc := toy_tc) 1 zero_ord bs) | Sm_State _ => [] end.

(** The share of another correct replica. *)
Definition share_from (i : Z) (o : ordinal) (k : nat) : event :=
  From_Internal (Some (mkInternal i true (TC_SHARE (genuine (crypto := toy) (tc := toy_tc) i o (payload_of k))))).

Definition ord1 : ordinal := mkOrd 1 1 1.
Definition ord2 : ordinal := mkOrd 2 1 1.

Definition two_reports : list event :=
  [ordered_report ord1 1; From_SM (reply_to 0); share_from 2 ord1 0; ordered_report ord2 2; From_SM (reply_to 1);
   share_from 2 ord2 1; share_from 4 ord2 1].

Example two_reports_delivered : option_map client_ords (sent_by 1 two_reports) = Some [ord1; ord2].
Proof. vm_compute. reflexivity. Qed.

Lemma sized_two_reports : Forall sized two_reports.
Proof. repeat constructor; vm_compute; try discriminate; try reflexivity; auto. Qed.

Lemma calm_two_reports : Forall (calm 1) two_reports.
Proof. repeat constructor. Qed.

(** *** What a faulty replica, a reset or an unknown command does *)
(** One message of one faulty replica silences a correct one: a share that comes
    before the update is ordered and names another number of events is taken for
    the answer's second share; the answer is skipped, and no later ordinal
    follows the one with the wrong number of events. *)
Definition early_share : event := From_Internal (Some (mkInternal 3 true (TC_SHARE (mkShare (mkOrd 1 1 2) (zeros 512) (zeros 128))))).

Theorem early_share_stops_delivery :
  option_map client_ords (sent_by 1 two_reports) = Some [ord1; ord2] /\
  option_map client_ords (sent_by 1 (early_share :: two_reports)) = Some [] /\
  applied_ord (state_after 1 (early_share :: two_reports)) = mkOrd 1 1 2.
Proof. repeat split; vm_compute; reflexivity. Qed.

(** Threshold signatures in which an incorrect share spoils the combination. *)
Definition strict : Crypto :=
  {| make_digest := fun bs => le_encode (Z.to_nat DIGEST_SIZE) (le_decode bs);
     RSA_verify := fun _ _ _ _ => true; TC_verify := fun d sig _ => bool_decide (sig = d) |}.

Definition strict_tc : Threshold :=
  {| genIndSig := fun i d => byte_of i :: d;
     TC_Combine_Sigs := fun l d => if forallb (fun p => bool_decide (snd p = byte_of (fst p) :: d)) l then d else [] |}.

Lemma strict_tc_ok : @ThresholdOk strict strict_tc.
Proof.
  split. intros l d _ _ Hl. cbn. rewrite (proj2 (forallb_forall _ _)); [apply bool_decide_eq_true; reflexivity|].
  intros p Hp%list_elem_of_In. rewrite Forall_forall in Hl. apply bool_decide_eq_true, (Hl p Hp).
Qed.

Definition strict_share (i : Z) (sig_ok : bool) : event :=
  let m := genuine (crypto := strict) (tc := strict_tc) i ord1 (payload_of 0) in
  From_Internal (Some (mkInternal i true (TC_SHARE (if sig_ok then m else mkShare ord1 (payload_of 0) [])))).

Definition strict_run (others : list event) : option (list ordinal * ordinal) :=
  match itrc_run (crypto := strict) (tc := strict_tc) all_sent 1 true []
          (ordered_report ord1 1 :: From_SM (reply_to 0) :: others) (itrc_init true true) with
  | Ret (_, s) => Some (client_ords (itrc_sent s), applied_ord s)
  | Fault _ => None
  end.

(** Two correct shares deliver the answer; an incorrect one of replica 3 before the
    second makes the replica give the answer up, for all the correct ones to come. *)
Lemma incorrect_share_gives_answer_up :
  strict_run [strict_share 2 true] = Some ([ord1], ord1) /\
  strict_run [strict_share 3 false; strict_share 2 true; strict_share 4 true; strict_share 5 true] = Some ([], ord1).
Proof. split; vm_compute; reflexivity. Qed.

(** A reset forgets the ordinals of the answers that are still under way: the
    first of them stops the replica at an assertion. *)
Theorem reset_with_answer_under_way `{Crypto} `{Threshold} (spines_ok : nat -> bool) (My_ID : Z) (is_cc : bool)
    (locations : key_value) (s : itrc) (m : prime_message) (id : Z) (r : sm_reply) :
  pm_body m = PRIME_SYSTEM_RESET id -> ord_num (pm_ord m) = 0 -> is_answer r = true ->
  itrc_run spines_ok My_ID is_cc locations [From_Prime m; From_SM r] s = Fault AssertFailure.
Proof.
  intros Hb Ho Hr. cbn [itrc_run ITRC_Master]. unfold from_prime. rewrite Hb, Ho. unfold assert_, bind at 1 2 3. cbn [Z.eqb ret].
  unfold ret, ITRC_Reset_Master_Data_Structures, emit_out, bind, get, put. cbn. destruct r as [bs|x]; [|reflexivity].
  cbn [from_sm is_answer] in *. destruct (word_at bs 4 o_message_type) as [type|] eqn:E; [|discriminate].
  unfold bind at 1. rewrite (load_value _ _ _ _ _ E), Hr. reflexivity.
Qed.

(** The next transfer for this replica is complete before it is signalled, and a
    third one comes: [completed_transfer] is left over from the second. *)
Definition a_state (o : ordinal) : state_xfer_msg := mkStateXfer o 1 zero_progress 0 0 [].

Definition state_from (i : Z) (o : ordinal) : event := From_Internal (Some (mkInternal i true (Int_State (a_state o)))).

Definition transfer_to (id : Z) (o : ordinal) : event := From_Prime (mkPrime 332 o (PRIME_STATE_TRANSFER id)).

Lemma third_transfer_stops :
  itrc_run (crypto := toy) (tc := toy_tc) all_sent 1 true []
    [state_from 2 (mkOrd 9 1 1); state_from 3 (mkOrd 9 1 1); transfer_to 1 (mkOrd 3 1 1); transfer_to 1 (mkOrd 9 1 1);
     state_from 2 (mkOrd 3 1 1); state_from 3 (mkOrd 3 1 1); transfer_to 1 (mkOrd 20 1 1)]
    (itrc_init true true) = Fault AssertFailure.
Proof. vm_compute. reflexivity. Qed.

(** An operator's command for a widget that does not exist is not answered; the
    answer to the report ordered second is signed under the first ordinal. *)
Definition unknown_command : hmi_command_msg := mkHmiCommand (mkSeq 1 1) 100 JHU SWITCH 999.

Definition shares_sent (l : list itrc_out) : list tc_share_msg :=
  omap (fun o => match o with Share_To 2 m => Some m | _ => None end) l.

Lemma unanswered_command_shifts_labels :
  answers_to [HMI_COMMAND unknown_command; RTU_DATA (report 1)] = take 1 report_answers /\
  option_map (fun l => map (fun m => (ts_ord m, ts_payload m)) (shares_sent l))
    (sent_by 1 [From_Prime (mkPrime 332 ord1 (Client_Update 24 (HMI_COMMAND unknown_command))); ordered_report ord2 1; From_SM (reply_to 0)])
  = Some [(ord1, payload_of 0)].
Proof. split; vm_compute; reflexivity. Qed.

(** After a reset the ordinals start again, but the clients do not know: what is
    signed from then on is old to them. *)
Definition reset_now : event := From_Prime (mkPrime 332 zero_ord (PRIME_SYSTEM_RESET 1)).

Definition finals_of (l : list itrc_out) : list client_message :=
  omap (fun o => match o with To_Client _ _ f => Some (mkClientMessage 1 true f (zeros 100)) | _ => None end) l.

Definition applied_by_client (ms : list client_message) : option (list (list byte)) :=
  match client_run (crypto := toy) all_sent 1 (map (fun m => Cl_Spines (Some m)) ms) (client_init true) with
  | Ret (_, s) => Some (applications (cl_sent s))
  | Fault _ => None
  end.

Definition reset_run : list event :=
  two_reports ++ [reset_now; ordered_report ord1 3; From_SM (reply_to 0); share_from 2 ord1 0].

Lemma reset_deafens_clients :
  option_map client_ords (sent_by 1 reset_run) = Some [ord1; ord2; ord1] /\
  option_map (fun l => option_map length (applied_by_client (finals_of l))) (sent_by 1 reset_run) = Some (Some 2%nat) /\
  option_map (fun l => option_map length (applied_by_client (drop 2 (finals_of l)))) (sent_by 1 reset_run) = Some (Some 1%nat).
Proof. repeat split; vm_compute; reflexivity. Qed.

(** The numbers of the clients survive a reset: after the same reset and the same
    update a replica that was up ignores what one that was not takes. *)
Lemma reset_keeps_progress :
  option_map sm_inputs (sent_by 1 [reset_now; ordered_report ord1 1]) = Some [SYSTEM_RESET; RTU_DATA (report 1)] /\
  option_map sm_inputs (sent_by 1 [ordered_report ord1 1; reset_now; ordered_report ord1 1]) = Some [RTU_DATA (report 1); SYSTEM_RESET].
Proof. split; vm_compute; reflexivity. Qed.

(** *** Witnesses *)
Definition one_report : list event := [ordered_report ord1 1; From_SM (reply_to 0)].

Definition one_report_later : list event := [Timeout true true; share_from 5 ord1 0; ordered_report ord1 1; From_SM (reply_to 0); ordered_report ord2 2].

Lemma one_report_run : replica_run (crypto := toy) (tc := toy_tc) 1 true one_report (state_after 1 one_report) ini_start (take 1 report_answers).
Proof.
  split.
  - repeat constructor.
  - repeat constructor.
  - exists all_sent, [], true, true. vm_compute. reflexivity.
  - eexists. vm_compute sm_inputs. unfold report_answers. cbn [take].
    econstructor; [vm_compute; reflexivity|reflexivity|constructor].
  - exists []. vm_compute. reflexivity.
Qed.

Lemma one_report_later_run : replica_run (crypto := toy) (tc := toy_tc) 2 true one_report_later (state_after 2 one_report_later) ini_start report_answers.
Proof.
  split.
  - repeat constructor.
  - repeat constructor.
  - exists all_sent, [], true, true. vm_compute. reflexivity.
  - eexists. vm_compute sm_inputs. unfold report_answers.
    econstructor; [vm_compute; reflexivity|reflexivity|]. econstructor; [vm_compute; reflexivity|reflexivity|constructor].
  - exists (map reply_of (drop 1 report_answers)). vm_compute. reflexivity.
Qed.

Lemma replicas_share_the_same_witness :
  exists x y, In (Share_To 2 x) (itrc_sent (state_after 1 one_report)) /\ In (Share_To 1 y) (itrc_sent (state_after 2 one_report_later)) /\
    ts_ord x = ts_ord y /\ ts_payload x = ts_payload y.
Proof.
  destruct (replicas_share_the_same (H := toy) (H0 := toy_tc) 1 2 true true one_report one_report_later (state_after 1 one_report) (state_after 2 one_report_later)
    ini_start ini_start (take 1 report_answers) report_answers one_report_run one_report_later_run) as [Hsame _].
  - intros [|[|i]] m1 m2 H1 H2; try discriminate. injection H1 as <-. injection H2 as <-. split; [reflexivity|left; reflexivity].
  - split; [reflexivity|]. split; [reflexivity|]. split; apply ini_start_ok.
  - eexists (mkShare ord1 (payload_of 0) _), (mkShare ord1 (payload_of 0) _).
    split; [vm_compute; auto 10|]. split; [vm_compute; auto 10|]. split; [reflexivity|].
    eapply (Hsame 2 1); vm_compute; auto 10.
Defined.


Lemma channel_refines_feed_witness :
  sm_inputs (itrc_sent (state_after 1 two_reports)) = [RTU_DATA (report 1); RTU_DATA (report 2)].
Proof.
  destruct (channel_refines_feed (H := toy) (H0 := toy_tc) all_sent 1 true [] true true two_reports (state_after 1 two_reports) calm_two_reports)
    as (_ & _ & -> & _); vm_compute; reflexivity.
Defined.

Definition a_transfer : list event := [state_from 2 (mkOrd 5 1 1); transfer_to 1 (mkOrd 5 1 1); state_from 4 (mkOrd 5 1 1)].

Lemma sized_a_transfer : Forall sized a_transfer.
Proof. repeat constructor; vm_compute; try discriminate; reflexivity. Qed.

Lemma applied_state_is_vouched_witness :
  exists len m, In (To_SM (STATE_XFER len m)) (itrc_sent (state_after 1 a_transfer)) /\
    exists m0, agreed (crypto := toy) (vouched_in a_transfer) m0 /\
      m = PKT_Construct_State_Xfer_Msg (sx_target m0) (sx_num_clients m0) (sx_latest_update m0) (sx_contents m0).
Proof.
  assert (Hin : In (To_SM (STATE_XFER 856 (PKT_Construct_State_Xfer_Msg 1 0 zero_progress []))) (itrc_sent (state_after 1 a_transfer)))
    by (vm_compute; right; left; reflexivity).
  eexists _, _. split; [exact Hin|].
  apply (applied_state_is_vouched (c := toy) (H := toy_tc) all_sent 1 true [] true true a_transfer (state_after 1 a_transfer) 856).
  - unfold NUM_SM. lia.
  - exact sized_a_transfer.
  - vm_compute. reflexivity.
  - exact Hin.
Defined.

Definition waiting_node : tc_node := hd (new_tc_node ord1) (tcq_pending (state_after 1 one_report)).

Lemma waiting_agrees : in_agreement (crypto := toy) (tc := toy_tc) waiting_node (payload_of 0).
Proof.
  intros i m Hi Hm. pose proof (aget_Some_bounds _ _ _ Hi) as Hb.
  change (Z.of_nat (length (tn_recvd waiting_node))) with 7 in Hb.
  assert (i = 0 \/ i = 1 \/ i = 2 \/ i = 3 \/ i = 4 \/ i = 5 \/ i = 6) as [->|[->|[->|[->|[->|[->| ->]]]]]] by lia;
    try (vm_compute in Hi; discriminate Hi).
  apply (f_equal (fun o => match o with Some x => x | None => m end)) in Hm. symmetry in Hm.
  etransitivity; [exact Hm|]. vm_compute. reflexivity.
Qed.

Lemma enough_shares_are_delivered_witness :
  exists s' sig rest addr port, ITRC_Master (crypto := toy) (tc := toy_tc) (fun _ => true) 1 true [] (share_from 2 ord1 0) (state_after 1 one_report) = Ret (tt, s') /\
    itrc_sent s' = itrc_sent (state_after 1 one_report) ++ To_Client addr port (mkFinal ord1 (payload_of 0) sig) :: rest.
Proof.
  assert (Hs : itrc_ok (crypto := toy) (tc := toy_tc) 1 true nothing_known nothing_known (state_after 1 one_report)).
  { assert (W := wp_itrc_run (crypto := toy) (crypto_ok := toy_ok) (tc := toy_tc) all_sent 1 true [] any_fault nothing_known nothing_known one_report I
      ltac:(unfold NUM_SM; lia) (itrc_init true true) (itrc_init_ok 1 true _ _ true true)).
    assert (E : itrc_run (crypto := toy) (tc := toy_tc) all_sent 1 true [] one_report (itrc_init true true) = Ret (tt, state_after 1 one_report)) by (vm_compute; reflexivity).
    refine (proj1 (wp_Ret _ _ _ _ _ _ (W _ _) E)).
    - repeat constructor; vm_compute; try discriminate.
    - repeat constructor. }
  destruct (enough_shares_are_delivered (c := toy) (t := toy_tc) 1 [] (state_after 1 one_report) waiting_node []
    (mkInternal 2 true (TC_SHARE (genuine (crypto := toy) (tc := toy_tc) 2 ord1 (payload_of 0)))) (payload_of 0) SPINES_HMI_ADDR 8541)
    as (s' & sig & rest & E1 & E2); [|exact Hs|..|exists s', sig, rest, SPINES_HMI_ADDR, 8541; split; [exact E1|exact E2]].
  all: try (vm_compute; reflexivity).
  - unfold NUM_SM. lia.
  - exact waiting_agrees.
Defined.

Lemma itrc_state_is_typed_witness :
  wp (fun f => f = AssertFailure) (itrc_run (crypto := toy) (tc := toy_tc) all_sent 1 true [] two_reports)
    (fun _ s => itrc_ok (crypto := toy) (tc := toy_tc) 1 true (sent_in (crypto := toy) (tc := toy_tc) 1 two_reports) (vouched_in two_reports) s) (itrc_init true true).
Proof.
  apply (itrc_state_is_typed (c := toy) (H := toy_tc) all_sent 1 true [] true true two_reports).
  - unfold NUM_SM. lia.
  - exact sized_two_reports.
Defined.

Lemma reset_with_answer_under_way_witness :
  itrc_run (crypto := toy) (tc := toy_tc) all_sent 1 true [] [reset_now; From_SM (reply_to 0)] (state_after 1 [ordered_report ord1 1]) = Fault AssertFailure.
Proof.
  apply (reset_with_answer_under_way (H := toy) (H0 := toy_tc) all_sent 1 true [] (state_after 1 [ordered_report ord1 1])
    (mkPrime 332 zero_ord (PRIME_SYSTEM_RESET 1)) 1 (reply_to 0)); vm_compute; reflexivity.
Defined.

Lemma client_applies_in_order_witness :
  exists s ms, client_run (crypto := toy) all_sent 1 [Cl_Timeout true; Cl_Spines (Some (mkClientMessage 1 true (mkFinal ord1 (payload_of 0) []) (zeros 100)))] (client_init true) = Ret (tt, s) /\
    StronglySorted ord_lt (map (fun m => tf_ord (cm_final m)) ms) /\
    Forall2 (accepted (crypto := toy) [Cl_Timeout true; Cl_Spines (Some (mkClientMessage 1 true (mkFinal ord1 (payload_of 0) []) (zeros 100)))]) ms (applications (cl_sent s)).
Proof.
  eexists. destruct (client_applies_in_order (H := toy) all_sent 1 true
    [Cl_Timeout true; Cl_Spines (Some (mkClientMessage 1 true (mkFinal ord1 (payload_of 0) []) (zeros 100)))] _ ltac:(vm_compute; reflexivity)) as (ms & A & B).
  exists ms. split; [vm_compute; reflexivity|]. split; [exact A|exact B].
Defined.
